(* ===== verification/_CoqProject ===== *)
-Q . S2P
Prelude.v
KString.v
Bitmap.v
Pmm.v
KHeap.v
KzTime.v
Ata.v
BlockIO.v
BCache.v
Kfs.v
KfsInode.v
KfsBalloc.v
KfsExtent.v
KfsTrunc.v
KfsMeta.v
KfsDir.v
KfsVnode.v
KfsSuper.v
KfsIcache.v
KfsMount.v
KfsDirSpec.v
VfsFd.v
VfsPipe.v
VfsInv.v
VfsStep.v
Paging.v
PagingSpec.v
PagingDestroy.v
PagingIso.v
PagingClone.v
PagingSys.v
PagingKept.v
UserCopy.v
UserMem.v
RunQueue.v
Sched.v
TaskSpec.v
SchedSys.v
SchedRun.v
SchedLife.v
SchedShape.v
SchedMoves.v
SchedSafe.v
EventQ.v
Sync.v
SyncSafe.v
Shm.v
ShmWin.v
ShmSys.v
ShmFree.v
ShmSafe.v
Uheap.v
UheapSys.v
Elf.v
ElfLoad.v
Argv.v
ArgvLoad.v
Spawn.v
Exec.v
