(* ===== verification/Prelude.v ===== *)
(** Kyuzen OS kernel: a verification development.

    Kyuzen is a kernel for x86-64 in C, with its own file system.  The development
    translates its core, by hand and function by function, to executable definitions on
    [Z], lists, finite maps and records, and proves the properties that make each part
    correct.  Paths are relative to [src/].

    * The parts and how they interact

    Memory: the frame allocator ([Pmm]) serves the virtual memory manager ([Paging]), which
    serves the kernel heap ([KHeap]), the address spaces of programs, their heaps ([Uheap])
    and shared surfaces ([Shm]).  [UserCopy] checks and copies what passes between programs and
    the kernel.  Programs: the loader ([Elf]) fills a new address space, arguments are copied
    from one program to the next ([Argv]), and [Spawn] and [Exec] are the calls made of these.
    Storage: a disk of sectors ([Ata]), a write-back cache of blocks ([BCache]), the file
    system KyuzenFS on top of it ([Kfs] and the files [Kfs*]) and file descriptors and pipes
    above that ([VfsFd]).  Tasks: run queues ([RunQueue]), the scheduler and the life of
    tasks ([Sched]), wait queues with mutexes, semaphores and condition variables ([Sync])
    and event queues ([EventQ]).  Libraries: strings ([KString]) and civil time ([KzTime]).

    The borders are type classes: [KHeap.PageSource] (pages for the heap),
    [Ata.SectorDevOk] (commands of the disk), [BlockIO.BlockIOok] (blocks for the file
    system; [BCache] is an instance), [VfsFd.VnodeFs] (files for descriptors; KyuzenFS is an
    instance) and [SyncSafe.GateLaws] (mutexes and semaphores for the tasks that use them).
    A client is proved against the class.

    * The files

    - [Prelude]: integers of fixed width, little-endian bytes, splices, the loop
      combinators [for_range] and [for_each] with their rules, tactics and hints.
    - [KString]: [kernel/string.c].
    - [Bitmap]: the bit arithmetic of [kernel/mm/pmm.c] and [kernel/fs/kfs_balloc.c].
    - [Pmm]: [kernel/mm/pmm.c].
    - [KHeap]: [kernel/mm/heap.c].
    - [KzTime]: [libs/time/src/kztime.c].
    - [Ata]: the block transfers of [drivers/ata.c].
    - [BlockIO]: the interface of the block cache.  [BCache]: [kernel/fs/bcache.c].
    - [Kfs]: [include/kyuzenfs_v4.h] and [kernel/fs/kfs_internal.h]; [KfsInode] and
      [KfsIcache]: [kernel/fs/kfs_inode.c]; [KfsBalloc]: [kernel/fs/kfs_balloc.c];
      [KfsExtent] and [KfsTrunc]: [kernel/fs/kfs_extent.c]; [KfsMeta], [KfsSuper] and
      [KfsMount]: [kernel/fs/kfs_super.c], with [kernel/fs/kfs_shim.c] in [KfsSuper];
      [KfsDir] and [KfsDirSpec]: [kernel/fs/kfs_dir.c]; [KfsVnode]:
      [kernel/fs/kfs_vnode.c].
    - [VfsFd], [VfsPipe], [VfsInv], [VfsStep]: [kernel/fs/vfs_fd.c].
    - [Paging], [PagingSpec], [PagingDestroy], [PagingIso], [PagingClone], [PagingSys],
      [PagingKept]: [kernel/mm/paging.c].
    - [UserCopy]: [kernel/proc/usercopy.c].  [UserMem]: what single operations on page tables
      and frames change in the memory that programs see ([uedit]).
    - [RunQueue]: [include/task.h] and [kernel/sched/runqueue.c].
    - [Sched], [TaskSpec], [SchedSys], [SchedRun], [SchedLife], [SchedShape], [SchedMoves],
      [SchedSafe]: [kernel/sched/core.c], [block.c], [fpu.c], [lifecycle.c] and the exit,
      kill and wait of [kernel/proc/proc.c].
    - [EventQ]: [kernel/sync/event.c].
    - [Sync], [SyncSafe]: [kernel/sync/wait.c] and [kernel/sync/sync.c].
    - [Shm], [ShmWin], [ShmSys], [ShmFree], [ShmSafe]: [kernel/mm/kz_shm.c] with the checks
      of [include/kz_surface.h].
    - [Uheap], [UheapSys]: [kernel/mm/uheap.c].
    - [Elf], [ElfLoad]: [kernel/proc/elf.c].
    - [Argv], [ArgvLoad]: the arguments of programs in [kernel/proc/proc.c], and
      [exec_load_image] and [spawn_common] of [kernel/syscall/sys_proc.c].
    - [Spawn], [Exec]: starting a program, and [SYS_EXECVE] of [kernel/syscall/sys_proc.c].

    * How state and operations correspond

    The static variables of a C file are the fields of one record and a C function is one
    function from that record to the new record and the result.  A section under a spinlock
    is atomic, so it is one step; a function that drops its lock in between is one
    definition for each section, and the system of that component interleaves them.
    Pointers are indices (pool entries, tasks) or addresses (heap blocks, page tables),
    and links are followed as the code follows them.  Unsigned arithmetic wraps where the
    code can make it wrap, through [u8] to [u64]; a conversion the source writes is
    written.  Errors are values: [None], a negative result or a constructor of a result
    type; a kernel panic, a fault and the use of freed memory are results too, which the
    theorems exclude or, where the code can get there, exhibit.  Output to the console is left out.

    * What the theorems show

    - The scheduler: in every state reached by any interleaving of the sections of the
      processors no task runs on two processors or waits in two queues and none is lost
      ([SchedSafe.sched_safe]); stacks and address spaces are freed once and not while in
      use ([SchedSafe.sched_memory]); a context switch saves the current task and resumes a
      queued one where it was saved ([SchedSafe.schedule_on_cpu_spec]), the one of highest
      aged priority ([RunQueue.runq_pop_spec]); floating point registers, wake-ups, exit and
      wait are in [TaskSpec].
      A kill between the publication of a task and its first push breaks these
      ([SchedSafe.kill_race_frees_running]); the other theorems assume its absence, except
      that the indices stay in range in any case ([SchedSafe.sched_indices]).
    - Mutexes exclude one another's holders and no waiter is forgotten ([SyncSafe]), unless
      one is killed while it waits ([SyncSafe.killed_waiter_strands]).  The event ring is
      equivalent to a bounded queue that drops its oldest element ([EventQ]).
    - Address spaces are isolated in every reachable state
      ([PagingSys.address_spaces_isolated]); mapping, cloning and destroying act on the
      translation as operations of a map; the checks of [UserCopy] are exact.
    - Shared surfaces: a page of a surface is mapped only where it is registered, with the
      rights of that task, and its frame belongs to that surface alone, whenever the task
      is not in the middle of an operation ([ShmSafe.shm_safe]); inside [kz_shm_unmap] this
      can fail ([ShmSafe.shm_unmap_frees_mapped]).  The exit of a task gives its surfaces
      back ([ShmSafe.shm_exit_releases]).
    - The frame allocator gives no frame twice; blocks of the heap are aligned and disjoint.
    - KyuzenFS: what is written to a file is read back, as long as new blocks extend its
      last extent ([KfsExtent.tidy]; [KfsExtent.grow_moves_block] shows what happens
      otherwise); directories are association lists, as long as their records fit their
      blocks; what a sync writes is on the disk and the next mount loads it; inode and block
      caches are transparent; allocation of blocks is sound.
    - Descriptors: in every reachable state reference counts are exact, nothing freed is
      used and nothing leaks; pipes are bounded queues, and a reader or writer that can
      make progress does.
    - Strings and time: the optimised routines agree with their byte loops, and parsers of
      time zones give values in range.
    - Heaps of programs: in every state reached without other mappings in the addresses of
      the heaps, the regions are apart, with an unmapped page between them, and exactly their
      pages are mapped ([UheapSys.uheap_safe]); a region that grows keeps its bytes and gives
      its old pages back ([UheapSys.uheap_realloc_spec]).
    - Programs: a well-formed file is loaded as its headers say
      ([ElfLoad.elf_load_image]); a started program finds the arguments of its caller
      ([Spawn.spawn_common_spec]); replacing an image commits or changes nothing
      ([Exec.sys_execve_spec]).  Both are for files that are well formed or that the first
      checks of the loader turn away ([ElfLoad.good_program], [ElfLoad.turned_away]); other
      files can make the loader fault ([ElfLoad.elf_shared_page_faults]).

    * Bounds and fuel

    A loop with a counter is [for_range] or [for_each], which need no fuel.  Loops over
    chains and strings carry fuel, and running out is a value of its own that the theorems
    exclude: the length of a terminated string ([KString]), the number of headers
    ([KHeap]), the number of pool entries ([BCache], [KfsInode]), the 342 records that fit
    a directory block ([KfsDir]), the number of blocks a transfer touches ([KfsExtent]), the
    number of pages of a segment ([Elf], where running out means that the address of a page
    passed the end of the address space).
    The sizes of tables (16 tasks, 64 events, 345 extents and so on) are those of the code.

    * Assumptions

    Time, the number of processors online, the outcome of allocations in other components
    and the transfers of the terminal are arguments, over which the theorems quantify.
    Memory is sequentially consistent and a spinlock excludes.  The theorems on [KHeap]
    assume the laws of [PageSource] and those on [Ata] the laws of [SectorDevOk]; instances
    in the witnesses show that the laws can be met.  The counter of a semaphore is not
    bounded here; it is an [int32_t] in the code.
    The steps of [SchedSys] do not contain the moments in which a task changes its own
    address space: [exec_load_image], which loads the one of the new program and then its own
    again, [SYS_EXECVE] and the older calls that run a program in place.  So what [SchedSafe]
    says of address spaces is for runs without them; what these calls do to memory is in
    [Argv], [Spawn] and [Exec].

    * Not modelled

    - Cached translations of the processor ([vmm_tlb_shootdown], [vmm_flush_tlb_all]), the
      window of SMAP, and port input and output of drivers: the effect is on hardware.
    - Spinlocks as loops on an atomic word: only the exclusion they give is used.
    - Start-up of the machine, interrupt entry and other assembly code, [kernel/smp],
      [kernel/cpu.c] and [kernel/kernel.c].
    - Windows, the compositor, rendering and fonts: output of pixels, partly over
      third-party code.  The network glue: calls into a third-party stack.
    - Panic screens, crash dumps, debug logs and console output.
    - The dispatch of system calls ([kernel/syscall]): it copies arguments with the
      functions of [UserCopy] and calls operations that are modelled.  Of
      [kernel/syscall/sys_proc.c] the calls that start and replace programs are modelled.
    - The allocation of kernel stacks ([kernel/sched/task_stack.c]): stacks are a set.
*)

From Stdlib Require Export ZArith Lia.
From stdpp Require Export base numbers gmap sets option.
From stdpp Require Export list.

#[global] Open Scope Z_scope.

(** ** Fixed-width integers

    A C unsigned integer of width [w] is a [Z] in [0, 2^w); the functions below
    are the conversions the compiler inserts. *)
Definition u8 (x : Z) : Z := x mod 2 ^ 8.
Definition u16 (x : Z) : Z := x mod 2 ^ 16.
Definition u32 (x : Z) : Z := x mod 2 ^ 32.
Definition u64 (x : Z) : Z := x mod 2 ^ 64.
Definition i8 (x : Z) : Z := (x + 2 ^ 7) mod 2 ^ 8 - 2 ^ 7.
Definition i32 (x : Z) : Z := (x + 2 ^ 31) mod 2 ^ 32 - 2 ^ 31.
Definition i64 (x : Z) : Z := (x + 2 ^ 63) mod 2 ^ 64 - 2 ^ 63.

Definition is_u8 (x : Z) : Prop := 0 ≤ x < 2 ^ 8.
Definition is_u32 (x : Z) : Prop := 0 ≤ x < 2 ^ 32.
Definition is_u64 (x : Z) : Prop := 0 ≤ x < 2 ^ 64.

(** A C truth value. *)
Definition cbool (b : bool) : Z := if b then 1 else 0.

Create HintDb kyu.
#[export] Hint Unfold is_u8 is_u32 is_u64 : kyu.

Lemma u8_id x : 0 ≤ x < 2 ^ 8 → u8 x = x.
Proof. intros. by apply Z.mod_small. Qed.
Lemma u16_id x : 0 ≤ x < 2 ^ 16 → u16 x = x.
Proof. intros. by apply Z.mod_small. Qed.
Lemma u32_id x : 0 ≤ x < 2 ^ 32 → u32 x = x.
Proof. intros. by apply Z.mod_small. Qed.
Lemma u64_id x : 0 ≤ x < 2 ^ 64 → u64 x = x.
Proof. intros. by apply Z.mod_small. Qed.
Lemma i32_id x : - 2 ^ 31 ≤ x < 2 ^ 31 → i32 x = x.
Proof. intros. unfold i32. rewrite Z.mod_small; lia. Qed.
Definition is_i32 (x : Z) : Prop := - 2 ^ 31 ≤ x < 2 ^ 31.
Lemma i32_range x : is_i32 (i32 x).
Proof. unfold is_i32, i32. pose proof (Z.mod_pos_bound (x + 2 ^ 31) (2 ^ 32)). lia. Qed.
Lemma i64_id x : - 2 ^ 63 ≤ x < 2 ^ 63 → i64 x = x.
Proof. intros. unfold i64. rewrite Z.mod_small; lia. Qed.
Lemma u8_range x : 0 ≤ u8 x < 2 ^ 8.
Proof. apply Z.mod_pos_bound. lia. Qed.
Lemma u32_range x : 0 ≤ u32 x < 2 ^ 32.
Proof. apply Z.mod_pos_bound. lia. Qed.
Lemma u64_range x : 0 ≤ u64 x < 2 ^ 64.
Proof. apply Z.mod_pos_bound. lia. Qed.

(** Clearing the low [n] bits of a 64-bit value, [x & ~(2^n - 1)]. *)
Lemma land_high_mask n x :
  0 ≤ n ≤ 64 → 0 ≤ x < 2 ^ 64 →
  Z.land x (Z.ldiff (Z.ones 64) (Z.ones n)) = x / 2 ^ n * 2 ^ n.
Proof.
  intros Hn Hx.
  replace (Z.land x (Z.ldiff (Z.ones 64) (Z.ones n))) with (Z.ldiff x (Z.ones n)).
  { rewrite Z.ldiff_ones_r, Z.shiftl_mul_pow2, Z.shiftr_div_pow2 by lia. done. }
  apply Z.bits_inj'. intros i Hi. rewrite Z.land_spec, !Z.ldiff_spec.
  destruct (Z.lt_ge_cases i 64).
  - rewrite (Z.ones_spec_low 64) by lia. done.
  - destruct (Z.eq_dec x 0) as [->|]; [by rewrite Z.bits_0|].
    rewrite (Z.bits_above_log2 x); [done|lia|].
    assert (Z.log2 x < 64) by (apply Z.log2_lt_pow2; lia). lia.
Qed.

(** ** Tactics *)

(** Linear arithmetic with division and remainder by constants. *)
Ltac zdiv := Z.to_euclidean_division_equations; lia.

(** Case analysis on the boolean comparisons of the code: each [if] on an
    integer test in the goal or in a hypothesis becomes two goals carrying the
    test as a proposition. *)
Ltac zcase1 :=
  match goal with
  | |- context [Z.eqb ?a ?b] => destruct (Z.eqb_spec a b)
  | |- context [Z.ltb ?a ?b] => destruct (Z.ltb_spec a b)
  | |- context [Z.leb ?a ?b] => destruct (Z.leb_spec a b)
  | H : context [Z.eqb ?a ?b] |- _ => destruct (Z.eqb_spec a b)
  | H : context [Z.ltb ?a ?b] |- _ => destruct (Z.ltb_spec a b)
  | H : context [Z.leb ?a ?b] |- _ => destruct (Z.leb_spec a b)
  end; cbn [andb orb negb] in *.

Ltac zcase := repeat (zcase1; try lia; try done).

(** Destruct the record or pair a [let '(a, b) := e in ...] scrutinises. *)
Ltac dlet :=
  match goal with
  | |- context [let '(_, _) := ?e in _] => destruct e eqn:?
  | H : context [let '(_, _) := ?e in _] |- _ => destruct e eqn:?
  end.

(** ** Loops

    [for_loop n i body s] runs [body] at the indices [i, i+1, ..., i+n-1].
    [inl r] leaves the loop (a [return] or a [break] carrying [r]); [inr s]
    goes on with state [s]. *)
Fixpoint for_loop {S R : Type} (n : nat) (i : Z) (body : Z → S → R + S) (s : S)
    : R + S :=
  match n with
  | O => inr s
  | Datatypes.S n' =>
      match body i s with
      | inl r => inl r
      | inr s' => for_loop n' (i + 1) body s'
      end
  end.

(** [for (i = lo; i < hi; i++)]. *)
Definition for_range {S R : Type} (lo hi : Z) (body : Z → S → R + S) (s : S)
    : R + S := for_loop (Z.to_nat (hi - lo)) lo body s.

(** The loop without an early exit. *)
Definition for_each {S : Type} (lo hi : Z) (f : Z → S → S) (s : S) : S :=
  foldl (λ s i, f i s) s (seqZ lo (hi - lo)).

Section loops.
Context {S R : Type}.
Implicit Types (body : Z → S → R + S) (s : S).

(** The loop rule: an invariant of the index and the state that the body
    keeps, and a postcondition the early exits establish. *)
Lemma for_loop_rule (I : Z → S → Prop) (Q : R → Prop) n i body s :
  I i s →
  (∀ j s, i ≤ j < i + Z.of_nat n → I j s →
     match body j s with inl r => Q r | inr s' => I (j + 1) s' end) →
  match for_loop n i body s with
  | inl r => Q r
  | inr s' => I (i + Z.of_nat n) s'
  end.
Proof.
  revert i s. induction n as [|n IH]; intros i s HI Hb; simpl.
  { by rewrite Z.add_0_r. }
  pose proof (Hb i s ltac:(lia) HI) as Hi.
  destruct (body i s) as [r|s']; [done|].
  specialize (IH (i + 1) s' Hi).
  replace (i + Z.of_nat (Datatypes.S n)) with (i + 1 + Z.of_nat n) by lia.
  apply IH. intros j s2 Hj HI2. apply Hb; [lia|done].
Qed.

Lemma for_range_rule (I : Z → S → Prop) (Q : R → Prop) lo hi body s :
  I lo s →
  (∀ j s, lo ≤ j < hi → I j s →
     match body j s with inl r => Q r | inr s' => I (j + 1) s' end) →
  match for_range lo hi body s with
  | inl r => Q r
  | inr s' => I (Z.max lo hi) s'
  end.
Proof.
  intros HI Hb. unfold for_range.
  pose proof (for_loop_rule I Q (Z.to_nat (hi - lo)) lo body s HI) as H.
  replace (Z.max lo hi) with (lo + Z.of_nat (Z.to_nat (hi - lo))) by lia.
  apply H. intros. apply Hb; [lia|done].
Qed.
End loops.

Lemma for_each_rule {S} (I : Z → S → Prop) lo hi (f : Z → S → S) s :
  I lo s →
  (∀ j s, lo ≤ j < hi → I j s → I (j + 1) (f j s)) →
  I (Z.max lo hi) (for_each lo hi f s).
Proof.
  unfold for_each. intros HI Hf.
  destruct (decide (hi ≤ lo)) as [Hle|Hgt].
  { rewrite seqZ_nil by lia. simpl. by rewrite Z.max_l by lia. }
  rewrite Z.max_r by lia.
  remember (Z.to_nat (hi - lo)) as n eqn:Hn.
  revert lo s HI Hf Hgt Hn. induction n as [|n IH]; intros lo s HI Hf Hgt Hn; [lia|].
  rewrite seqZ_cons by lia. simpl.
  destruct (decide (hi ≤ lo + 1)) as [Hle|Hgt'].
  - rewrite seqZ_nil by lia. simpl. replace hi with (lo + 1) by lia. apply Hf; [lia|done].
  - replace (Z.pred (hi - lo)) with (hi - (lo + 1)) by lia.
    replace (Z.succ lo) with (lo + 1) by lia.
    apply IH; [apply Hf; [lia|done]| |lia|lia].
    intros j s2 Hj HI2. apply Hf; [lia|done].
Qed.

Lemma for_each_upto {S} (I : Z → S → Prop) lo hi (f : Z → S → S) s :
  lo ≤ hi → I lo s → (∀ j s, lo ≤ j < hi → I j s → I (j + 1) (f j s)) →
  I hi (for_each lo hi f s).
Proof.
  intros ? Hs Hf. rewrite <- (Z.max_r lo hi) at 1 by done. by apply for_each_rule.
Qed.

Lemma for_each_nil {S} lo hi (f : Z → S → S) s : hi ≤ lo → for_each lo hi f s = s.
Proof. intros. unfold for_each. by rewrite seqZ_nil by lia. Qed.

(** ** Lists indexed by machine integers

    An out-of-range read is given the value [0] and an out-of-range write does
    nothing; the theorems state the ranges in which the code stays. *)
Definition lget (l : list Z) (i : Z) : Z := default 0 (l !! Z.to_nat i).
Definition lset (l : list Z) (i v : Z) : list Z := <[Z.to_nat i := v]> l.
Definition zlength {A} (l : list A) : Z := Z.of_nat (length l).

Lemma lset_length l i v : length (lset l i v) = length l.
Proof. apply length_insert. Qed.

Lemma lget_lset_eq l i v :
  0 ≤ i < zlength l → lget (lset l i v) i = v.
Proof.
  unfold lget, lset, zlength. intros.
  rewrite list_lookup_insert_eq by lia. done.
Qed.

Lemma lget_lset_ne l i j v :
  0 ≤ i → 0 ≤ j → i ≠ j → lget (lset l i v) j = lget l j.
Proof.
  unfold lget, lset. intros. rewrite list_lookup_insert_ne by lia. done.
Qed.

Lemma zlength_app {A} (l k : list A) : zlength (l ++ k) = zlength l + zlength k.
Proof. unfold zlength. rewrite length_app. lia. Qed.

(** ** Byte ranges: [memcpy] and [memset] on a buffer *)
Definition slice (off n : Z) (l : list Z) : list Z :=
  take (Z.to_nat n) (drop (Z.to_nat off) l).

Definition splice (l : list Z) (off : Z) (src : list Z) : list Z :=
  take (Z.to_nat off) l ++ src ++ drop (Z.to_nat off + length src) l.

Lemma splice_length l off src :
  0 ≤ off → off + zlength src ≤ zlength l → length (splice l off src) = length l.
Proof.
  unfold splice, zlength. intros.
  rewrite !length_app, length_take, length_drop. lia.
Qed.

Lemma lookup_splice_in l off src i :
  0 ≤ off → off + zlength src ≤ zlength l →
  (Z.to_nat off ≤ i < Z.to_nat off + length src)%nat →
  splice l off src !! i = src !! (i - Z.to_nat off)%nat.
Proof.
  unfold splice, zlength. intros.
  rewrite lookup_app_r by (rewrite length_take; lia).
  rewrite length_take, Nat.min_l by lia.
  by rewrite lookup_app_l by lia.
Qed.

Lemma lookup_splice_out l off src i :
  0 ≤ off → off + zlength src ≤ zlength l →
  (i < Z.to_nat off ∨ Z.to_nat off + length src ≤ i)%nat →
  splice l off src !! i = l !! i.
Proof.
  unfold splice, zlength. intros ?? [?|?].
  - rewrite lookup_app_l by (rewrite length_take; lia).
    by apply lookup_take_lt.
  - rewrite lookup_app_r by (rewrite length_take; lia).
    rewrite length_take, Nat.min_l by lia.
    rewrite lookup_app_r by lia. rewrite lookup_drop. f_equal. lia.
Qed.

Lemma slice_length off n l :
  0 ≤ off → 0 ≤ n → off + n ≤ zlength l → zlength (slice off n l) = n.
Proof.
  unfold slice, zlength. intros. rewrite length_take, length_drop. lia.
Qed.

Lemma slice_splice_same l off src :
  0 ≤ off → off + zlength src ≤ zlength l →
  slice off (zlength src) (splice l off src) = src.
Proof.
  unfold slice, splice, zlength. intros.
  rewrite drop_app_length' by (rewrite length_take; lia).
  rewrite take_app_length'; [done|lia].
Qed.

(** ** Little-endian integers *)
Fixpoint le_bytes (n : nat) (z : Z) : list Z :=
  match n with
  | O => []
  | Datatypes.S n' => z mod 256 :: le_bytes n' (z / 256)
  end.

Fixpoint le_num (l : list Z) : Z :=
  match l with
  | [] => 0
  | b :: l' => b + 256 * le_num l'
  end.

Lemma le_bytes_length n z : length (le_bytes n z) = n.
Proof. revert z. induction n; intros; simpl; congruence. Qed.

Lemma le_num_bytes n z :
  0 ≤ z < 2 ^ (8 * Z.of_nat n) → le_num (le_bytes n z) = z.
Proof.
  revert z. induction n as [|n IH]; intros z Hz; simpl.
  { simpl in Hz. lia. }
  rewrite IH.
  - pose proof (Z.div_mod z 256). lia.
  - replace (8 * Z.of_nat (S n)) with (8 + 8 * Z.of_nat n) in Hz by lia.
    rewrite Z.pow_add_r in Hz by lia. change (2 ^ 8) with 256 in Hz.
    split; [apply Z.div_pos; lia|]. apply Z.div_lt_upper_bound; lia.
Qed.

Lemma le_bytes_byte n z : Forall (λ b, 0 ≤ b < 256) (le_bytes n z).
Proof.
  revert z. induction n; intros; simpl; constructor; auto.
  apply Z.mod_pos_bound. lia.
Qed.
