(* ===== verification/KString.v ===== *)
(** [kernel/string.c]: memory and string primitives of the freestanding kernel.

    Memory is a function from byte addresses to bytes.  The block routines have
    two code paths, a byte loop below [KZ_REP_THRESHOLD] and an x86 string
    instruction above it; [rep_movsb] and [rep_stosb] give the instructions'
    meaning (one element per iteration, the direction taken from [DF]), so that
    the equivalence of the two paths is a theorem and not part of the model.
    Strings are read up to a terminator the caller guarantees: the loops take
    fuel, [None] is "ran past the fuel", and the theorems give the fuel that is
    enough for a string that is terminated. *)

From S2P Require Import Prelude.

Definition mem := Z → Z.
Definition upd (m : mem) (a v : Z) : mem := λ x, if x =? a then v else m x.

Definition KZ_REP_THRESHOLD : Z := 128.

(** ** Definitions *)

(** The instruction [rep movsb]: [df] is the direction flag. *)
Fixpoint rep_movsb (df : bool) (rcx : nat) (rdi rsi : Z) (m : mem) : mem :=
  match rcx with
  | O => m
  | S c =>
      let step := if df then -1 else 1 in
      rep_movsb df c (rdi + step) (rsi + step) (upd m rdi (m rsi))
  end.

(** The instruction [rep stosb] with [DF = 0]. *)
Fixpoint rep_stosb (rcx : nat) (rdi al : Z) (m : mem) : mem :=
  match rcx with
  | O => m
  | S c => rep_stosb c (rdi + 1) al (upd m rdi al)
  end.

(** The ascending byte loop [for (i = 0; i < n; i++) d[i] = s[i]]. *)
Definition copy_up (d s n : Z) (m : mem) : mem :=
  for_each 0 n (λ i m, upd m (d + i) (m (s + i))) m.

(** The descending byte loop [for (i = n; i > 0; i--) d[i-1] = s[i-1]]. *)
Fixpoint copy_down (i : nat) (d s : Z) (m : mem) : mem :=
  match i with
  | O => m
  | S i' => copy_down i' d s (upd m (d + Z.of_nat i') (m (s + Z.of_nat i')))
  end.

Definition memcpy (dest src n : Z) (m : mem) : Z * mem :=
  if KZ_REP_THRESHOLD <=? n then (dest, rep_movsb false (Z.to_nat n) dest src m)
  else (dest, copy_up dest src n m).

Definition memmove (dest src n : Z) (m : mem) : Z * mem :=
  if (dest =? src) || (n =? 0) then (dest, m)
  else if (dest <? src) || (src + n <=? dest) then
    if KZ_REP_THRESHOLD <=? n then (dest, rep_movsb false (Z.to_nat n) dest src m)
    else (dest, copy_up dest src n m)
  else
    if KZ_REP_THRESHOLD <=? n then
      (dest, rep_movsb true (Z.to_nat n) (dest + n - 1) (src + n - 1) m)
    else (dest, copy_down (Z.to_nat n) dest src m).

Definition memset (s c n : Z) (m : mem) : Z * mem :=
  if KZ_REP_THRESHOLD <=? n then (s, rep_stosb (Z.to_nat n) s (u8 c) m)
  else (s, for_each 0 n (λ i m, upd m (s + i) (u8 c)) m).

Definition memcmp (s1 s2 n : Z) (m : mem) : Z :=
  match for_range 0 n
          (λ i (_ : unit),
             if negb (m (s1 + i) =? m (s2 + i))
             then inl (m (s1 + i) - m (s2 + i)) else inr tt) tt with
  | inl r => r
  | inr _ => 0
  end.

Fixpoint strlen_loop (fuel : nat) (s len : Z) (m : mem) : option Z :=
  match fuel with
  | O => None
  | S f => if m (s + len) =? 0 then Some len else strlen_loop f s (len + 1) m
  end.

Definition strlen (fuel : nat) (s : Z) (m : mem) : option Z := strlen_loop fuel s 0 m.

Fixpoint strcmp (fuel : nat) (s1 s2 : Z) (m : mem) : option Z :=
  match fuel with
  | O => None
  | S f =>
      if negb (m s1 =? 0) && (m s1 =? m s2) then strcmp f (s1 + 1) (s2 + 1) m
      else Some (m s1 - m s2)
  end.

Fixpoint strncmp (n : nat) (s1 s2 : Z) (m : mem) : Z :=
  match n with
  | O => 0
  | S n' =>
      if negb (m s1 =? 0) && (m s1 =? m s2) then strncmp n' (s1 + 1) (s2 + 1) m
      else m s1 - m s2
  end.

(** The first loop of [strncpy] copies until [n] or the terminator and leaves
    the index at which it stopped; the second loop pads with zeros. *)
Fixpoint strncpy_copy (k : nat) (i dest src : Z) (m : mem) : Z * mem :=
  match k with
  | O => (i, m)
  | S k' =>
      if m (src + i) =? 0 then (i, m)
      else strncpy_copy k' (i + 1) dest src (upd m (dest + i) (m (src + i)))
  end.

Definition strncpy (dest src n : Z) (m : mem) : Z * mem :=
  let '(i, m1) := strncpy_copy (Z.to_nat n) 0 dest src m in
  (dest, for_each i n (λ i m, upd m (dest + i) 0) m1).

(** ** What a correct block copy does: the byte at [d + i] is the byte that was
    at [s + i], and nothing else changes. *)
Definition moved (d s n : Z) (m m' : mem) : Prop :=
  ∀ a, m' a = if (d <=? a) && (a <? d + n) then m (s + (a - d)) else m a.

(** A terminated string [l] at address [s]. *)
Definition cstr (m : mem) (s : Z) (l : list Z) : Prop :=
  (∀ i x, l !! i = Some x → m (s + Z.of_nat i) = x ∧ 0 < x < 256) ∧
  m (s + zlength l) = 0.

(** The comparison the string loops compute: the difference of the first bytes
    that differ, the terminator counting as byte zero. *)
Fixpoint lex_diff (l1 l2 : list Z) : Z :=
  match l1, l2 with
  | [], [] => 0
  | [], y :: _ => - y
  | x :: _, [] => x
  | x :: l1', y :: l2' => if x =? y then lex_diff l1' l2' else x - y
  end.

(** ** Lemmas *)

Lemma copy_up_moved d s n m :
  0 ≤ n → d ≤ s ∨ s + n ≤ d → moved d s n m (copy_up d s n m).
Proof.
  intros Hn Hsep. unfold copy_up, moved.
  pose proof (for_each_rule
    (λ i (m' : mem), ∀ a, m' a = if (d <=? a) && (a <? d + i) then m (s + (a - d)) else m a)
    0 n (λ i m, upd m (d + i) (m (s + i))) m) as H.
  simpl in H. rewrite Z.max_r in H by lia. apply H; clear H.
  - intros a. zcase.
  - intros j m' Hj Hm' a. unfold upd. rewrite Hm'. rewrite (Hm' a).
    zcase; subst; f_equal; lia.
Qed.

Lemma rep_movsb_up_moved c d s m :
  d ≤ s ∨ s + Z.of_nat c ≤ d → moved d s (Z.of_nat c) m (rep_movsb false c d s m).
Proof.
  revert d s m. induction c as [|c IH]; intros d s m Hsep a; simpl.
  { zcase. }
  rewrite IH by lia. unfold upd. zcase; subst; f_equal; lia.
Qed.

Lemma memcpy_moved d s n m :
  0 ≤ n → d ≤ s ∨ s + n ≤ d → moved d s n m (memcpy d s n m).2.
Proof.
  intros Hn Hsep. unfold memcpy. destruct (KZ_REP_THRESHOLD <=? n); simpl.
  - pose proof (rep_movsb_up_moved (Z.to_nat n) d s m) as Hm.
    rewrite Z2Nat.id in Hm by lia. by apply Hm.
  - by apply copy_up_moved.
Qed.

Lemma copy_down_moved c d s m :
  s ≤ d → moved d s (Z.of_nat c) m (copy_down c d s m).
Proof.
  revert m. induction c as [|c IH]; intros m Hsep a; simpl.
  { zcase. }
  rewrite IH by lia. unfold upd. zcase; subst; f_equal; lia.
Qed.

Lemma rep_movsb_down_moved c d s m :
  s ≤ d →
  moved d s (Z.of_nat c) m
    (rep_movsb true c (d + Z.of_nat c - 1) (s + Z.of_nat c - 1) m).
Proof.
  revert m. induction c as [|c IH]; intros m Hsep a; simpl.
  { zcase. }
  replace (d + Z.of_nat (S c) - 1 + -1) with (d + Z.of_nat c - 1) by lia.
  replace (s + Z.of_nat (S c) - 1 + -1) with (s + Z.of_nat c - 1) by lia.
  rewrite IH by lia. unfold upd. zcase; subst; f_equal; lia.
Qed.

Lemma rep_stosb_fill c d v m a :
  rep_stosb c d v m a = if (d <=? a) && (a <? d + Z.of_nat c) then v else m a.
Proof.
  revert d m. induction c as [|c IH]; intros d m; simpl.
  { zcase. }
  rewrite IH. unfold upd. zcase.
Qed.

Lemma fill_up lo n d v m a :
  0 ≤ lo →
  for_each lo n (λ i m, upd m (d + i) v) m a
  = if (d + lo <=? a) && (a <? d + n) then v else m a.
Proof.
  intros Hlo. destruct (decide (n ≤ lo)).
  { rewrite for_each_nil by lia. zcase. }
  pose proof (for_each_rule
    (λ i (m' : mem), ∀ a, m' a = if (d + lo <=? a) && (a <? d + i) then v else m a)
    lo n (λ i m, upd m (d + i) v) m) as H.
  simpl in H. rewrite Z.max_r in H by lia. apply H; clear H.
  - intros x. zcase.
  - intros j m' Hj Hm' x. unfold upd. rewrite Hm'. zcase.
Qed.

Lemma cstr_cons m s x l :
  cstr m s (x :: l) → m s = x ∧ 0 < x < 256 ∧ cstr m (s + 1) l.
Proof.
  intros [Hl Hz]. pose proof (Hl 0%nat x eq_refl) as [Hx Hr].
  rewrite Z.add_0_r in Hx. split_and!; [done|lia|lia|].
  split.
  - intros i y Hi. replace (s + 1 + Z.of_nat i) with (s + Z.of_nat (S i)) by lia.
    by apply Hl.
  - unfold zlength in *. simpl in Hz.
    by replace (s + 1 + Z.of_nat (length l)) with (s + Z.of_nat (S (length l))) by lia.
Qed.

Lemma cstr_nil m s : cstr m s [] → m s = 0.
Proof. intros [_ Hz]. unfold zlength in Hz. simpl in Hz. by rewrite Z.add_0_r in Hz. Qed.

Lemma strlen_loop_cstr m s l len fuel :
  cstr m (s + len) l → (length l < fuel)%nat →
  strlen_loop fuel s len m = Some (len + zlength l).
Proof.
  revert len fuel. induction l as [|x l IH]; intros len fuel Hc Hf;
    (destruct fuel as [|fuel]; [simpl in *; lia|]); simpl.
  - apply cstr_nil in Hc. rewrite Hc. unfold zlength; simpl. by rewrite Z.add_0_r.
  - apply cstr_cons in Hc as (Hx & Hr & Hc). rewrite Hx.
    destruct (Z.eqb_spec x 0); [lia|].
    rewrite IH; [f_equal; unfold zlength; simpl; lia| |simpl in Hf; lia].
    by replace (s + (len + 1)) with (s + len + 1) by lia.
Qed.

Lemma lex_diff_zero l1 l2 :
  Forall (λ x, 0 < x) l1 → Forall (λ x, 0 < x) l2 →
  lex_diff l1 l2 = 0 ↔ l1 = l2.
Proof.
  intros H1. revert l2. induction H1 as [|x l1 Hx H1 IH]; intros l2 H2;
    destruct H2 as [|y l2 Hy H2]; simpl.
  - done.
  - split; [lia|done].
  - split; [lia|done].
  - destruct (Z.eqb_spec x y) as [->|Hne].
    + rewrite IH by done. split; congruence.
    + split; [lia|congruence].
Qed.

Lemma cstr_pos m s l : cstr m s l → Forall (λ x, 0 < x) l.
Proof.
  intros [Hl _]. apply Forall_lookup. intros i x Hi. apply Hl in Hi. lia.
Qed.

Lemma strcmp_lex m s1 s2 l1 l2 fuel :
  cstr m s1 l1 → cstr m s2 l2 → (length l1 < fuel)%nat →
  strcmp fuel s1 s2 m = Some (lex_diff l1 l2).
Proof.
  revert s1 s2 l2 fuel. induction l1 as [|x l1 IH]; intros s1 s2 l2 fuel H1 H2 Hf;
    (destruct fuel as [|fuel]; [simpl in *; lia|]); simpl.
  - apply cstr_nil in H1. rewrite H1. simpl.
    destruct l2 as [|y l2].
    + apply cstr_nil in H2. by rewrite H2.
    + apply cstr_cons in H2 as (-> & _ & _). f_equal; lia.
  - apply cstr_cons in H1 as (Hx & Hr & H1). rewrite Hx.
    destruct (Z.eqb_spec x 0); [lia|]. simpl.
    destruct l2 as [|y l2].
    + apply cstr_nil in H2. rewrite H2. destruct (Z.eqb_spec x 0); [lia|].
      f_equal; lia.
    + apply cstr_cons in H2 as (Hy & Hr2 & H2). rewrite Hy.
      destruct (Z.eqb_spec x y); [|done].
      apply IH; [done|done|simpl in Hf; lia].
Qed.

Lemma cstr_upd m s l a v :
  cstr m s l → ¬ (s ≤ a ≤ s + zlength l) → cstr (upd m a v) s l.
Proof.
  unfold cstr, upd, zlength. intros [Hl Hz] Ha. split.
  - intros i x Hi. pose proof (lookup_lt_Some _ _ _ Hi).
    destruct (Z.eqb_spec (s + Z.of_nat i) a); [lia|]. by apply Hl.
  - destruct (Z.eqb_spec (s + Z.of_nat (length l)) a); [lia|done].
Qed.

Lemma strncpy_copy_spec k : ∀ i dest src m l,
  0 ≤ i → cstr m (src + i) l →
  (dest + i + Z.of_nat k ≤ src + i ∨ src + i + zlength l < dest + i) →
  let c := Z.min (Z.of_nat k) (zlength l) in
  ∃ m', strncpy_copy k i dest src m = (i + c, m') ∧
    ∀ a, m' a = if (dest + i <=? a) && (a <? dest + i + c)
                then lget l (a - (dest + i)) else m a.
Proof.
  induction k as [|k IH]; intros i dest src m l Hi Hc Hd c; simpl.
  { exists m. split; [unfold c, zlength; f_equal; lia|].
    intros a. unfold c. pose proof (Zle_0_nat (length l)).
    unfold zlength. zcase. }
  destruct l as [|x l].
  { apply cstr_nil in Hc. rewrite Hc. simpl. exists m.
    split; [f_equal; unfold c, zlength; simpl; lia|].
    intros a. unfold c, zlength. simpl. zcase. }
  pose proof (cstr_cons _ _ _ _ Hc) as (Hx & Hr & Hc'). rewrite Hx.
  destruct (Z.eqb_spec x 0); [lia|].
  unfold zlength in *. simpl in Hd.
  destruct (IH (i + 1) dest src (upd m (dest + i) x) l) as (m' & Heq & Hm').
  - lia.
  - replace (src + (i + 1)) with (src + i + 1) by lia.
    apply cstr_upd; [done|]. unfold zlength. lia.
  - unfold zlength. lia.
  - exists m'. split; [rewrite Heq; f_equal; unfold c; simpl; unfold zlength; lia|].
    intros a. rewrite Hm'. unfold c, upd, zlength, lget. simpl.
    pose proof (Zle_0_nat (length l)).
    zcase.
    + subst a. replace (Z.to_nat (dest + i - (dest + i))) with 0%nat by lia. done.
    + replace (Z.to_nat (a - (dest + i)))
        with (S (Z.to_nat (a - (dest + (i + 1))))) by lia. done.
Qed.

(** Decides [cstr] on a concrete two-byte string. *)
Ltac cstr_concrete :=
  split; [|done]; intros i x Hi;
  destruct i as [|[|i]]; simplify_eq/=; (split; [done|lia]).

(** ** Properties *)

(** [memmove] moves the block correctly for every overlap of source and
    destination and on both code paths (byte loop and string instruction): after
    the call the byte at [dest + i] is the byte that was at [src + i] for each
    [i < n], every other byte is unchanged, and [dest] is returned. *)
Theorem memmove_correct (dest src n : Z) (m : mem) (Hn : 0 ≤ n) :
  fst (memmove dest src n m) = dest ∧
  moved dest src n m (snd (memmove dest src n m)).
Proof.
  unfold memmove.
  destruct (Z.eqb_spec dest src) as [->|Hne]; simpl.
  { split; [done|]. intros a. zcase. f_equal; lia. }
  destruct (Z.eqb_spec n 0) as [->|Hn0]; simpl.
  { split; [done|]. intros a. zcase. }
  destruct (Z.ltb_spec dest src), (Z.leb_spec (src + n) dest),
    (Z.leb_spec KZ_REP_THRESHOLD n); simpl; split; try done;
    try (apply copy_up_moved; lia);
    rewrite <- (Z2Nat.id n) at 1 by lia;
    first [ apply rep_movsb_up_moved; lia
          | apply copy_down_moved; lia
          | rewrite <- (Z2Nat.id n) at 3 4 by lia; apply rep_movsb_down_moved; lia ].
Qed.

Lemma memmove_correct_witness :
  moved 4 2 5 (λ a, a * 10) (snd (memmove 4 2 5 (λ a, a * 10))) ∧
  snd (memmove 4 2 5 (λ a, a * 10)) 8 = 60.
Proof. split; [apply (memmove_correct 4 2 5); lia | vm_compute; reflexivity]. Defined.

(** C40: [strcmp] terminates on two terminated strings and orders them by the
    first bytes that differ; in particular it returns zero exactly when the
    strings are equal. *)
Theorem strcmp_correct (m : mem) (s1 s2 : Z) (l1 l2 : list Z)
    (H1 : cstr m s1 l1) (H2 : cstr m s2 l2) :
  strcmp (S (length l1)) s1 s2 m = Some (lex_diff l1 l2) ∧
  (lex_diff l1 l2 = 0 ↔ l1 = l2).
Proof.
  split; [apply strcmp_lex; [done|done|lia]|].
  apply lex_diff_zero; eauto using cstr_pos.
Qed.

Lemma strcmp_correct_witness :
  let m := λ a, lget [97; 98; 0; 97; 99; 0] a in
  strcmp 3 0 3 m = Some (-1).
Proof.
  intros m.
  refine (eq_trans (proj1 (strcmp_correct m 0 3 [97; 98] [97; 99] _ _)) _); [| |done].
  all: cstr_concrete.
Defined.

(** [strncpy] writes exactly the [n] bytes of the destination: the string's
    first [n] bytes, padded with zeros when the string is shorter, provided the
    destination does not overlap the source string. *)
Theorem strncpy_correct (dest src n : Z) (m : mem) (l : list Z)
    (Hn : 0 ≤ n) (Hs : cstr m src l)
    (Hd : dest + n ≤ src ∨ src + zlength l < dest) (a : Z) :
  snd (strncpy dest src n m) a =
    if (dest <=? a) && (a <? dest + n)
    then (if a - dest <? zlength l then lget l (a - dest) else 0)
    else m a.
Proof.
  unfold strncpy.
  destruct (strncpy_copy_spec (Z.to_nat n) 0 dest src m l) as (m' & Heq & Hm').
  { lia. } { by rewrite Z.add_0_r. } { lia. }
  rewrite Heq. simpl. rewrite fill_up by (unfold zlength; lia).
  rewrite Hm'. pose proof (Zle_0_nat (length l)). unfold zlength in *.
  rewrite !Z.add_0_r. zcase.
Qed.

Lemma strncpy_correct_witness :
  let m := λ a, lget [97; 98; 0] a in
  snd (strncpy 10 0 4 m) 11 = 98 ∧ snd (strncpy 10 0 4 m) 13 = 0.
Proof.
  intros m. assert (Hc : cstr m 0 [97; 98]).
  { cstr_concrete. }
  split.
  - apply (eq_trans (strncpy_correct 10 0 4 m [97; 98] ltac:(lia) Hc ltac:(right; vm_compute; done) 11)).
    reflexivity.
  - apply (eq_trans (strncpy_correct 10 0 4 m [97; 98] ltac:(lia) Hc ltac:(right; vm_compute; done) 13)).
    reflexivity.
Defined.
