(* ===== verification/Bitmap.v ===== *)
(** Byte-array bitmaps, shared by the physical page allocator
    ([kernel/mm/pmm.c]) and the file system's block and inode allocators
    ([kernel/fs/kfs_balloc.c]).

    [bit_at] is the abstract reading of a bitmap, one boolean per bit number.
    The three C expressions (set, clear, test) are related to it once, and
    [zcount] counts the bits of a range that satisfy a predicate, so that the
    allocators' counters can be compared with the bitmap. *)

From S2P Require Import Prelude.

(** ** Definitions *)

(** [m[bit >> 3] |= (uint8_t)(1u << (bit & 7))] *)
Definition bm_set (m : list Z) (bit : Z) : list Z :=
  let i := Z.shiftr bit 3 in
  lset m i (Z.lor (lget m i) (u8 (Z.shiftl 1 (Z.land bit 7)))).

(** [m[bit >> 3] &= (uint8_t)~(1u << (bit & 7))] *)
Definition bm_clear (m : list Z) (bit : Z) : list Z :=
  let i := Z.shiftr bit 3 in
  lset m i (Z.land (lget m i) (u8 (Z.lnot (Z.shiftl 1 (Z.land bit 7))))).

(** [(m[bit >> 3] >> (bit & 7)) & 1] *)
Definition bm_test (m : list Z) (bit : Z) : bool :=
  negb (Z.land (Z.shiftr (lget m (Z.shiftr bit 3)) (Z.land bit 7)) 1 =? 0).

(** The bit itself. *)
Definition bit_at (m : list Z) (bit : Z) : bool :=
  Z.testbit (lget m (bit / 8)) (bit mod 8).

(** The number of [i] in [lo, hi) with [P i]. *)
Definition zcount (P : Z → bool) (lo hi : Z) : Z :=
  Z.of_nat (length (filter (λ i, P i = true) (seqZ lo (hi - lo)))).

Definition bytes (m : list Z) : Prop := Forall (λ b, 0 ≤ b < 256) m.

(** ** Set, clear and test *)

Lemma shiftr3 bit : Z.shiftr bit 3 = bit / 8.
Proof. by rewrite Z.shiftr_div_pow2 by lia. Qed.

Lemma land7 bit : Z.land bit 7 = bit mod 8.
Proof. change 7 with (Z.ones 3). by rewrite Z.land_ones by lia. Qed.

Lemma mod8_range bit : 0 ≤ bit mod 8 < 8.
Proof. apply Z.mod_pos_bound. lia. Qed.

Lemma one_bit_testbit k i :
  0 ≤ k < 8 → 0 ≤ i < 8 → Z.testbit (u8 (Z.shiftl 1 k)) i = (k =? i).
Proof.
  intros. unfold u8. rewrite Z.mod_pow2_bits_low by lia.
  rewrite Z.shiftl_1_l, Z.pow2_bits_eqb by lia. done.
Qed.

Lemma mask_testbit k i :
  0 ≤ k < 8 → 0 ≤ i < 8 →
  Z.testbit (u8 (Z.lnot (Z.shiftl 1 k))) i = negb (k =? i).
Proof.
  intros. unfold u8. rewrite Z.mod_pow2_bits_low by lia.
  rewrite Z.lnot_spec by lia. rewrite Z.shiftl_1_l, Z.pow2_bits_eqb by lia. done.
Qed.

Lemma bm_test_bit m bit : bm_test m bit = bit_at m bit.
Proof.
  unfold bm_test, bit_at. rewrite shiftr3, land7.
  pose proof (mod8_range bit).
  change 1 with (Z.ones 1). rewrite Z.land_ones by lia.
  rewrite <- Z.bit0_mod, Z.shiftr_spec by lia. simpl.
  by destruct (Z.testbit _ _).
Qed.

(** The mask form of the test, [(m[bit >> 3] & (1u << (bit & 7))) != 0]. *)
Lemma land_mask_bit b k :
  0 ≤ k → negb (Z.land b (Z.shiftl 1 k) =? 0) = Z.testbit b k.
Proof.
  intros. rewrite Z.shiftl_1_l.
  destruct (Z.eqb_spec (Z.land b (2 ^ k)) 0) as [E|E]; simpl.
  - symmetry. pose proof (f_equal (λ z, Z.testbit z k) E) as T. simpl in T.
    rewrite Z.land_spec, Z.pow2_bits_true, Z.bits_0 in T by lia.
    by rewrite andb_true_r in T.
  - symmetry. apply not_false_is_true. intros T. apply E.
    apply Z.bits_inj'. intros i Hi. rewrite Z.land_spec, Z.pow2_bits_eqb, Z.bits_0 by lia.
    destruct (Z.eqb_spec k i) as [->|]; [by rewrite T|by rewrite andb_false_r].
Qed.

Lemma div8_lt bit (m : list Z) : 0 ≤ bit < 8 * zlength m → 0 ≤ bit / 8 < zlength m.
Proof.
  intros. split; [apply Z.div_pos; lia|]. apply Z.div_lt_upper_bound; lia.
Qed.

Lemma bit_at_set m b i :
  0 ≤ b < 8 * zlength m → 0 ≤ i →
  bit_at (bm_set m b) i = if b =? i then true else bit_at m i.
Proof.
  intros Hb Hi. unfold bm_set, bit_at. rewrite shiftr3, land7.
  pose proof (mod8_range b). pose proof (mod8_range i).
  pose proof (div8_lt b m Hb).
  assert (0 ≤ i / 8) by (apply Z.div_pos; lia).
  destruct (Z.eq_dec (b / 8) (i / 8)) as [E|E].
  - rewrite <- E, lget_lset_eq by lia.
    rewrite Z.lor_spec, one_bit_testbit by lia.
    pose proof (Z.div_mod b 8). pose proof (Z.div_mod i 8).
    destruct (Z.eqb_spec b i) as [->|Hne].
    + rewrite Z.eqb_refl. by rewrite orb_true_r.
    + destruct (Z.eqb_spec (b mod 8) (i mod 8)); [lia|]. by rewrite orb_false_r.
  - rewrite lget_lset_ne by lia.
    destruct (Z.eqb_spec b i); [congruence|done].
Qed.

Lemma bit_at_clear m b i :
  0 ≤ b < 8 * zlength m → 0 ≤ i →
  bit_at (bm_clear m b) i = if b =? i then false else bit_at m i.
Proof.
  intros Hb Hi. unfold bm_clear, bit_at. rewrite shiftr3, land7.
  pose proof (mod8_range b). pose proof (mod8_range i).
  pose proof (div8_lt b m Hb).
  assert (0 ≤ i / 8) by (apply Z.div_pos; lia).
  destruct (Z.eq_dec (b / 8) (i / 8)) as [E|E].
  - rewrite <- E, lget_lset_eq by lia.
    rewrite Z.land_spec, mask_testbit by lia.
    pose proof (Z.div_mod b 8). pose proof (Z.div_mod i 8).
    destruct (Z.eqb_spec b i) as [->|Hne].
    + rewrite Z.eqb_refl. by rewrite andb_false_r.
    + destruct (Z.eqb_spec (b mod 8) (i mod 8)); [lia|]. by rewrite andb_true_r.
  - rewrite lget_lset_ne by lia.
    destruct (Z.eqb_spec b i); [congruence|done].
Qed.

Lemma bm_set_length m b : zlength (bm_set m b) = zlength m.
Proof. unfold zlength, bm_set. by rewrite lset_length. Qed.
Lemma bm_clear_length m b : zlength (bm_clear m b) = zlength m.
Proof. unfold zlength, bm_clear. by rewrite lset_length. Qed.

Lemma lget_byte m i : bytes m → 0 ≤ lget m i < 256.
Proof.
  intros Hm. unfold lget. destruct (m !! Z.to_nat i) eqn:E; simpl; [|lia].
  by apply (Forall_lookup_1 _ _ _ _ Hm) in E.
Qed.

Lemma byte_bits_bound x : 0 ≤ x → (∀ i, 8 ≤ i → Z.testbit x i = false) → x < 256.
Proof.
  intros H0 Hb. destruct (Z.eq_dec x 0) as [->|Hx]; [lia|].
  change 256 with (2 ^ 8). apply Z.log2_lt_pow2; [lia|].
  destruct (Z.lt_ge_cases (Z.log2 x) 8) as [|Hge]; [done|].
  pose proof (Hb (Z.log2 x) Hge) as T. rewrite Z.bit_log2 in T by lia. done.
Qed.

Lemma byte_high_bits x i : 0 ≤ x < 256 → 8 ≤ i → Z.testbit x i = false.
Proof.
  intros. destruct (Z.eq_dec x 0) as [->|]; [apply Z.bits_0|].
  apply Z.bits_above_log2; [lia|].
  assert (Z.log2 x < 8) by (apply Z.log2_lt_pow2; lia). lia.
Qed.

Lemma bm_set_bytes m b : bytes m → bytes (bm_set m b).
Proof.
  intros Hm. apply Forall_insert; [done|].
  pose proof (lget_byte m (Z.shiftr b 3) Hm).
  pose proof (u8_range (Z.shiftl 1 (Z.land b 7))).
  assert (0 ≤ Z.lor (lget m (Z.shiftr b 3)) (u8 (Z.shiftl 1 (Z.land b 7))))
    by (apply Z.lor_nonneg; lia).
  split; [done|]. apply byte_bits_bound; [done|]. intros i Hi.
  rewrite Z.lor_spec, !byte_high_bits by lia. done.
Qed.

Lemma bm_clear_bytes m b : bytes m → bytes (bm_clear m b).
Proof.
  intros Hm. apply Forall_insert; [done|].
  pose proof (lget_byte m (Z.shiftr b 3) Hm) as Hb.
  assert (0 ≤ Z.land (lget m (Z.shiftr b 3)) (u8 (Z.lnot (Z.shiftl 1 (Z.land b 7)))))
    by (apply Z.land_nonneg; lia).
  split; [done|]. apply byte_bits_bound; [done|]. intros i Hi.
  rewrite Z.land_spec, byte_high_bits by lia. done.
Qed.

(** ** Counting *)

Lemma seqZ_split lo k n :
  0 ≤ k ≤ n → seqZ lo n = seqZ lo k ++ seqZ (lo + k) (n - k).
Proof. intros. rewrite <- seqZ_app by lia. f_equal; lia. Qed.

Lemma filter_bool_ext (P Q : Z → bool) (l : list Z) :
  (∀ i, i ∈ l → P i = Q i) →
  filter (λ i, P i = true) l = filter (λ i, Q i = true) l.
Proof.
  induction l as [|x l IH]; intros H; [done|].
  rewrite !filter_cons, IH by (intros; apply H; set_solver).
  rewrite (H x) by set_solver. done.
Qed.

Lemma filter_bool_const (b : bool) (l : list Z) :
  filter (λ _, b = true) l = if b then l else [].
Proof.
  induction l as [|x l IH]; [by destruct b|].
  rewrite filter_cons, IH. by destruct b.
Qed.

Lemma zcount_ext P Q lo hi :
  (∀ i, lo ≤ i < hi → P i = Q i) → zcount P lo hi = zcount Q lo hi.
Proof.
  intros H. unfold zcount. do 2 f_equal. apply filter_bool_ext.
  intros i Hi%elem_of_seqZ. apply H. lia.
Qed.

Lemma zcount_app P lo mid hi :
  lo ≤ mid ≤ hi → zcount P lo hi = zcount P lo mid + zcount P mid hi.
Proof.
  intros. unfold zcount. rewrite (seqZ_split lo (mid - lo) (hi - lo)) by lia.
  rewrite list.filter_app, length_app, Nat2Z.inj_add. do 4 f_equal; f_equal; lia.
Qed.

Lemma zcount_one P i : zcount P i (i + 1) = if P i then 1 else 0.
Proof.
  unfold zcount. replace (i + 1 - i) with 1 by lia. rewrite seqZ_cons by lia.
  rewrite (seqZ_nil _ (Z.pred 1)) by lia. rewrite filter_cons, filter_nil.
  by destruct (P i).
Qed.

Lemma zcount_bounds P lo hi : lo ≤ hi → 0 ≤ zcount P lo hi ≤ hi - lo.
Proof.
  intros. unfold zcount. split; [lia|].
  pose proof (length_filter (λ i, P i = true) (seqZ lo (hi - lo))).
  rewrite length_seqZ in *. lia.
Qed.

(** Changing one bit of the range changes the count by one. *)
Lemma zcount_change P Q lo hi k :
  lo ≤ k < hi → (∀ i, lo ≤ i < hi → i ≠ k → P i = Q i) →
  P k = false → Q k = true → zcount Q lo hi = zcount P lo hi + 1.
Proof.
  intros Hk Heq HP HQ.
  rewrite (zcount_app P lo k hi), (zcount_app Q lo k hi) by lia.
  rewrite (zcount_app P k (k + 1) hi), (zcount_app Q k (k + 1) hi) by lia.
  rewrite !zcount_one, HP, HQ.
  rewrite (zcount_ext P Q lo k), (zcount_ext P Q (k + 1) hi); [lia| |];
    intros; apply Heq; lia.
Qed.

Lemma zcount_all P lo hi :
  lo ≤ hi → (∀ i, lo ≤ i < hi → P i = true) → zcount P lo hi = hi - lo.
Proof.
  intros Hle H. rewrite (zcount_ext P (λ _, true)) by done.
  unfold zcount. rewrite filter_bool_const, length_seqZ. lia.
Qed.

Lemma zcount_none P lo hi :
  (∀ i, lo ≤ i < hi → P i = false) → zcount P lo hi = 0.
Proof.
  intros H. rewrite (zcount_ext P (λ _, false)) by done.
  unfold zcount. by rewrite filter_bool_const.
Qed.
