(* ===== verification/Pmm.v ===== *)
(** [kernel/mm/pmm.c]: the physical page allocator.

    The state is the C file's static variables; [pmm_bitmap = None] is the NULL
    pointer before initialisation.  Every public function takes [pmm_lock] for
    its whole body, so an operation is one function from state to state.  The
    warnings [pmm_free_page] prints become the constructors of [free_result].
    [pmm_init_dynamic] returns [None] where the code halts the machine. *)

From S2P Require Import Prelude Bitmap.

Definition PAGE_SIZE : Z := 4096.
Definition PHYS_NULL : Z := 0.
Definition PMM_KERNEL_ZONE_END : Z := 0x4800000.
Definition LIMINE_MEMMAP_USABLE : Z := 0.

(** ** State *)
Record pmm := mkPmm {
  pmm_bitmap : option (list Z);
  bitmap_bytes : Z;
  bitmap_pages : Z;
  real_total_ram : Z;
  total_pages : Z;
  used_pages : Z;
  next_free_hint : Z
}.

(** [struct limine_memmap_entry]. *)
Record memmap_entry := mkEntry { e_base : Z; e_length : Z; e_type : Z }.

(** ** Bitmap helpers *)
Definition bitmap_set (bm : list Z) (bit : Z) : list Z :=
  lset bm (Z.shiftr bit 3)
    (Z.lor (lget bm (Z.shiftr bit 3)) (u8 (Z.shiftl 1 (Z.land bit 7)))).

Definition bitmap_clear_bit (bm : list Z) (bit : Z) : list Z :=
  lset bm (Z.shiftr bit 3)
    (Z.land (lget bm (Z.shiftr bit 3)) (u8 (Z.lnot (Z.shiftl 1 (Z.land bit 7))))).

Definition bitmap_test (bm : list Z) (bit : Z) : bool :=
  negb (Z.land (lget bm (Z.shiftr bit 3)) (Z.shiftl 1 (Z.land bit 7)) =? 0).

(** ** Initialisation *)

(** [(x + PAGE_SIZE - 1) & ~(PAGE_SIZE - 1)] *)
Definition page_round_up (x : Z) : Z :=
  Z.land (u64 (x + PAGE_SIZE - 1)) (u64 (Z.lnot (PAGE_SIZE - 1))).

(** [if (x & (PAGE_SIZE - 1)) x = page_round_up(x)] *)
Definition page_align (x : Z) : Z :=
  if negb (Z.land x (PAGE_SIZE - 1) =? 0) then page_round_up x else x.

Definition e_end (e : memmap_entry) : Z := u64 (e_base e + e_length e).
Definition usable (e : memmap_entry) : bool := e_type e =? LIMINE_MEMMAP_USABLE.

(** Phase 1: the highest end of a usable region. *)
Definition highest_addr (entries : list memmap_entry) : Z :=
  foldl (λ h e, if usable e && (h <? e_end e) then e_end e else h) 0 entries.

(** Phase 2: the first usable region above the kernel zone that holds
    [alloc_bytes]. *)
Fixpoint find_bitmap_phys (alloc_bytes : Z) (entries : list memmap_entry) : option Z :=
  match entries with
  | [] => None
  | e :: rest =>
      if negb (usable e) then find_bitmap_phys alloc_bytes rest else
      let b0 := page_align (e_base e) in
      let base := if b0 <? PMM_KERNEL_ZONE_END then PMM_KERNEL_ZONE_END else b0 in
      if e_end e <=? base then find_bitmap_phys alloc_bytes rest
      else if alloc_bytes <=? e_end e - base then Some base
      else find_bitmap_phys alloc_bytes rest
  end.

(** Step B for one region: [for (addr = start; addr < end; addr += PAGE_SIZE)]. *)
Definition free_region (pages : Z) (e : memmap_entry) (bm : list Z) : list Z :=
  if negb (usable e) then bm else
  let start := page_align (e_base e) in
  for_each 0 ((e_end e - start + (PAGE_SIZE - 1)) / PAGE_SIZE)
    (λ k bm, let page := (start + k * PAGE_SIZE) / PAGE_SIZE in
             if page <? pages then bitmap_clear_bit bm page else bm) bm.

(** Steps C and D: [for (i = 0; i < n && lo + i < pages; i++) bitmap_set(lo + i)]. *)
Definition lock_run (pages lo n : Z) (bm : list Z) : list Z :=
  for_each 0 n (λ i bm, if lo + i <? pages then bitmap_set bm (lo + i) else bm) bm.

(** Phase 4: [for (i = 0; i < total; i++) if (bitmap_test(i)) used++]. *)
Definition count_used (bm : list Z) (total : Z) : Z :=
  for_each 0 total (λ i u, if bitmap_test bm i then u + 1 else u) 0.

Definition kernel_lock_pages : Z := PMM_KERNEL_ZONE_END / PAGE_SIZE.

Definition pmm_init_dynamic (entries : list memmap_entry) : option pmm :=
  let highest := highest_addr entries in
  if highest =? 0 then None else
  let pages_needed := highest / PAGE_SIZE in
  let needed_bytes := (pages_needed + 7) / 8 in
  let alloc_bytes := page_round_up needed_bytes in
  let alloc_pages := alloc_bytes / PAGE_SIZE in
  match find_bitmap_phys alloc_bytes entries with
  | None => None
  | Some bitmap_phys =>
      let bm_a := replicate (Z.to_nat alloc_bytes) 0xFF in
      let bm_b := foldl (λ bm e, free_region pages_needed e bm) bm_a entries in
      let bm_c := lock_run pages_needed 0 kernel_lock_pages bm_b in
      let bm_d := lock_run pages_needed (bitmap_phys / PAGE_SIZE) alloc_pages bm_c in
      let tp0 := highest / PAGE_SIZE in
      let tp := if pages_needed <? tp0 then pages_needed else tp0 in
      Some (mkPmm (Some bm_d) alloc_bytes pages_needed highest tp
                  (count_used bm_d tp) kernel_lock_pages)
  end.

(** ** Allocation and release *)

(** [for (i = lo; i < hi; i++) if (!bitmap_test(i)) ...]: the first free page. *)
Definition scan_free (bm : list Z) (lo hi : Z) : Z + unit :=
  for_range lo hi (λ i _, if negb (bitmap_test bm i) then inl i else inr tt) tt.

Definition take_page (p : pmm) (bm : list Z) (i : Z) : Z * pmm :=
  (u64 (i * PAGE_SIZE),
   mkPmm (Some (bitmap_set bm i)) (bitmap_bytes p) (bitmap_pages p)
     (real_total_ram p) (total_pages p) (u64 (used_pages p + 1)) (u64 (i + 1))).

Definition pmm_alloc_page (p : pmm) : Z * pmm :=
  match pmm_bitmap p with
  | None => (PHYS_NULL, p)
  | Some bm =>
      let max := total_pages p in
      match scan_free bm (next_free_hint p) max with
      | inl i => take_page p bm i
      | inr _ =>
          let wrap_end := if next_free_hint p <? max then next_free_hint p else max in
          match scan_free bm 0 wrap_end with
          | inl i => take_page p bm i
          | inr _ => (PHYS_NULL, p)
          end
      end
  end.

Inductive free_result :=
  | Freed | FreeNull | FreeUnaligned | FreeOutOfRange | FreeLowReserved | DoubleFree.

#[export] Instance free_result_eq_dec : EqDecision free_result.
Proof. solve_decision. Defined.

Definition pmm_free_page (addr : Z) (p : pmm) : free_result * pmm :=
  if addr =? PHYS_NULL then (FreeNull, p)
  else if negb (Z.land addr (PAGE_SIZE - 1) =? 0) then (FreeUnaligned, p)
  else
    let bit := addr / PAGE_SIZE in
    match pmm_bitmap p with
    | None => (FreeOutOfRange, p)
    | Some bm =>
        if bitmap_pages p <=? bit then (FreeOutOfRange, p)
        else if addr <? PMM_KERNEL_ZONE_END then (FreeLowReserved, p)
        else if negb (bitmap_test bm bit) then (DoubleFree, p)
        else
          (Freed,
           mkPmm (Some (bitmap_clear_bit bm bit)) (bitmap_bytes p) (bitmap_pages p)
             (real_total_ram p) (total_pages p)
             (if 0 <? used_pages p then used_pages p - 1 else used_pages p)
             (if bit <? next_free_hint p then bit else next_free_hint p))
    end.

Definition pmm_owns_page (addr : Z) (p : pmm) : Z :=
  if (addr =? PHYS_NULL) || negb (Z.land addr (PAGE_SIZE - 1) =? 0) then 0
  else match pmm_bitmap p with
       | None => 0
       | Some bm =>
           if bitmap_pages p <=? addr / PAGE_SIZE then 0
           else if bitmap_test bm (addr / PAGE_SIZE) then 1 else 0
       end.

(** ** Statistics *)
Definition pmm_get_used_pages (p : pmm) : Z := used_pages p.
Definition pmm_get_total_pages (p : pmm) : Z := total_pages p.
Definition pmm_get_used_ram (p : pmm) : Z := u64 (pmm_get_used_pages p * PAGE_SIZE).
Definition pmm_get_total_ram (p : pmm) : Z := real_total_ram p.
Definition pmm_get_free_ram (p : pmm) : Z :=
  let total := pmm_get_total_ram p in
  let used := pmm_get_used_ram p in
  if used <? total then total - used else 0.

Definition pmm_set_total_ram (size : Z) (p : pmm) : pmm :=
  let tp := size / PAGE_SIZE in
  mkPmm (pmm_bitmap p) (bitmap_bytes p) (bitmap_pages p) size
    (if bitmap_pages p <? tp then bitmap_pages p else tp)
    (used_pages p) (next_free_hint p).

(** ** Specification *)

(** The state invariant.  Pages below the hint are all in use, which is why the
    hint makes the scan start at the lowest free page; the kernel zone is
    locked; the counter is the number of used pages. *)
Record pmm_wf (p : pmm) (bm : list Z) : Prop := {
  wf_bitmap : pmm_bitmap p = Some bm;
  wf_bytes : bytes bm;
  wf_room : 0 ≤ bitmap_pages p ≤ 8 * zlength bm;
  wf_total : total_pages p = bitmap_pages p;
  wf_limit : bitmap_pages p < 2 ^ 52;
  wf_used : used_pages p = zcount (bit_at bm) 0 (total_pages p);
  wf_hint : 0 ≤ next_free_hint p < 2 ^ 64;
  wf_below : ∀ i, 0 ≤ i < next_free_hint p → i < total_pages p → bit_at bm i = true;
  wf_zone : ∀ i, 0 ≤ i < kernel_lock_pages → i < total_pages p → bit_at bm i = true
}.

(** The abstract allocator: the set of used pages. *)
Definition is_free (p : pmm) (i : Z) : Prop :=
  ∃ bm, pmm_bitmap p = Some bm ∧ 0 ≤ i < total_pages p ∧ bit_at bm i = false.

(** ** Lemmas *)

Lemma bitmap_test_bit bm i : bitmap_test bm i = bit_at bm i.
Proof.
  unfold bitmap_test, bit_at. rewrite shiftr3, land7.
  pose proof (mod8_range i). by rewrite land_mask_bit by lia.
Qed.

Lemma scan_free_spec bm lo hi :
  match scan_free bm lo hi with
  | inl i => lo ≤ i < hi ∧ bit_at bm i = false ∧
             (∀ j, lo ≤ j < i → bit_at bm j = true)
  | inr _ => ∀ j, lo ≤ j < hi → bit_at bm j = true
  end.
Proof.
  pose proof (for_range_rule
    (λ i (_ : unit), ∀ j, lo ≤ j < i → bit_at bm j = true)
    (λ i, lo ≤ i < hi ∧ bit_at bm i = false ∧ (∀ j, lo ≤ j < i → bit_at bm j = true))
    lo hi (λ i _, if negb (bitmap_test bm i) then inl i else inr tt) tt) as H.
  unfold scan_free in *. destruct (for_range _ _ _ _) as [i|u].
  - apply H; [lia|]. intros j [] Hj Hall. rewrite bitmap_test_bit.
    destruct (bit_at bm j) eqn:E; simpl; [|done].
    intros k Hk. destruct (decide (k = j)) as [->|]; [done|]. apply Hall. lia.
  - intros j Hj. apply H; [lia| |lia]. clear j Hj. intros j [] Hj Hall.
    rewrite bitmap_test_bit. destruct (bit_at bm j) eqn:E; simpl; [|done].
    intros k Hk. destruct (decide (k = j)) as [->|]; [done|]. apply Hall. lia.
Qed.

Lemma wf_used_bound p bm :
  pmm_wf p bm → 0 ≤ used_pages p ≤ total_pages p.
Proof.
  intros H. rewrite (wf_used _ _ H).
  pose proof (zcount_bounds (bit_at bm) 0 (total_pages p)) as B.
  pose proof (wf_room _ _ H). rewrite (wf_total _ _ H) in *. lia.
Qed.

(** Taking a free page that has no free page below it keeps the invariant. *)
Lemma take_page_wf p bm i :
  pmm_wf p bm → 0 ≤ i < total_pages p → bit_at bm i = false →
  (∀ j, 0 ≤ j < i → bit_at bm j = true) →
  let '(r, p') := take_page p bm i in
  r = i * PAGE_SIZE ∧ used_pages p' = used_pages p + 1 ∧
  pmm_wf p' (bitmap_set bm i).
Proof.
  intros Hwf Hi Hfree Hbelow. simpl.
  pose proof (wf_room _ _ Hwf). pose proof (wf_total _ _ Hwf).
  pose proof (wf_limit _ _ Hwf). pose proof (wf_used_bound _ _ Hwf).
  assert (Hbit : ∀ j, 0 ≤ j → bit_at (bitmap_set bm i) j
                    = if i =? j then true else bit_at bm j).
  { intros j Hj. apply bit_at_set; lia. }
  split; [apply u64_id; unfold PAGE_SIZE; lia|].
  split; [apply u64_id; lia|].
  constructor; simpl.
  - done.
  - apply bm_set_bytes, Hwf.
  - pose proof (bm_set_length bm i) as HL.
    change (bm_set bm i) with (bitmap_set bm i) in HL. lia.
  - done.
  - done.
  - rewrite u64_id by lia. rewrite (wf_used _ _ Hwf).
    symmetry. apply (zcount_change _ _ _ _ i); [lia| |done|].
    + intros j Hj Hne. rewrite Hbit by lia. destruct (Z.eqb_spec i j); [lia|done].
    + rewrite Hbit by lia. by rewrite Z.eqb_refl.
  - apply u64_range.
  - rewrite u64_id by lia. intros j Hj Hjt. rewrite Hbit by lia.
    destruct (Z.eqb_spec i j); [done|]. apply Hbelow. lia.
  - intros j Hj Hjt. rewrite Hbit by lia. destruct (i =? j); [done|].
    by apply (wf_zone _ _ Hwf).
Qed.

Lemma kernel_zone_pages addr :
  Z.land addr (PAGE_SIZE - 1) = 0 → PMM_KERNEL_ZONE_END ≤ addr →
  kernel_lock_pages ≤ addr / PAGE_SIZE.
Proof.
  intros _ H. unfold kernel_lock_pages. apply Z.div_le_mono; [done|lia].
Qed.

Lemma page_aligned_mul addr :
  Z.land addr (PAGE_SIZE - 1) = 0 → addr = addr / PAGE_SIZE * PAGE_SIZE.
Proof.
  change (PAGE_SIZE - 1) with (Z.ones 12). rewrite Z.land_ones by lia.
  change (2 ^ 12) with PAGE_SIZE. unfold PAGE_SIZE.
  pose proof (Z.div_mod addr 4096). lia.
Qed.

Lemma mul_page_aligned i : Z.land (i * PAGE_SIZE) (PAGE_SIZE - 1) = 0.
Proof.
  change (PAGE_SIZE - 1) with (Z.ones 12). rewrite Z.land_ones by lia.
  unfold PAGE_SIZE. apply Z.mod_mul. lia.
Qed.

Lemma mul_page_div i : i * PAGE_SIZE / PAGE_SIZE = i.
Proof. apply Z.div_mul. done. Qed.

(** *** Alignment arithmetic *)
Lemma page_round_up_eq x :
  0 ≤ x < 2 ^ 64 - 4096 → page_round_up x = (x + 4095) / 4096 * 4096.
Proof.
  intros. unfold page_round_up. rewrite u64_id by (unfold PAGE_SIZE; lia).
  change (u64 (Z.lnot (PAGE_SIZE - 1))) with (Z.ldiff (Z.ones 64) (Z.ones 12)).
  rewrite land_high_mask by (unfold PAGE_SIZE; lia). change (2 ^ 12) with 4096.
  do 2 f_equal. unfold PAGE_SIZE. lia.
Qed.

Lemma page_align_eq x :
  0 ≤ x < 2 ^ 64 - 4096 → page_align x = (x + 4095) / 4096 * 4096.
Proof.
  intros. unfold page_align.
  change (PAGE_SIZE - 1) with (Z.ones 12). rewrite Z.land_ones by lia.
  destruct (Z.eqb_spec (x mod 2 ^ 12) 0) as [E|]; simpl.
  - change (2 ^ 12) with 4096 in E. pose proof (Z.div_mod x 4096).
    pose proof (Z.div_mod (x + 4095) 4096).
    pose proof (Z.mod_pos_bound (x + 4095) 4096). lia.
  - by apply page_round_up_eq.
Qed.

(** Releasing a used page above the kernel zone keeps the invariant. *)
Lemma release_page_wf p bm i :
  pmm_wf p bm → kernel_lock_pages ≤ i < total_pages p → bit_at bm i = true →
  pmm_wf (mkPmm (Some (bitmap_clear_bit bm i)) (bitmap_bytes p) (bitmap_pages p)
            (real_total_ram p) (total_pages p) (used_pages p - 1)
            (if i <? next_free_hint p then i else next_free_hint p))
    (bitmap_clear_bit bm i) ∧ 0 < used_pages p.
Proof.
  intros Hwf Hi Hb.
  assert (0 ≤ kernel_lock_pages) by (vm_compute; done).
  pose proof (wf_room _ _ Hwf). pose proof (wf_total _ _ Hwf).
  pose proof (wf_hint _ _ Hwf).
  assert (Hbit : ∀ j, 0 ≤ j → bit_at (bitmap_clear_bit bm i) j
                    = if i =? j then false else bit_at bm j).
  { intros j Hj. apply bit_at_clear; lia. }
  assert (Hcnt : zcount (bit_at bm) 0 (total_pages p)
                 = zcount (bit_at (bitmap_clear_bit bm i)) 0 (total_pages p) + 1).
  { apply (zcount_change _ _ _ _ i); [lia| |by rewrite Hbit, Z.eqb_refl by lia|done].
    intros j Hj Hne. rewrite Hbit by lia. destruct (Z.eqb_spec i j); [lia|done]. }
  pose proof (wf_used _ _ Hwf) as Hu.
  pose proof (zcount_bounds (bit_at (bitmap_clear_bit bm i)) 0 (total_pages p)).
  split; [|lia]. constructor; simpl.
  - done.
  - apply bm_clear_bytes, Hwf.
  - pose proof (bm_clear_length bm i) as HL.
    change (bm_clear bm i) with (bitmap_clear_bit bm i) in HL. lia.
  - done.
  - apply Hwf.
  - lia.
  - destruct (Z.ltb_spec i (next_free_hint p)); lia.
  - intros j Hj Hjt. rewrite Hbit by lia.
    destruct (Z.ltb_spec i (next_free_hint p)); destruct (Z.eqb_spec i j); try lia;
      apply (wf_below _ _ Hwf); lia.
  - intros j Hj Hjt. rewrite Hbit by lia. destruct (Z.eqb_spec i j); [lia|].
    by apply (wf_zone _ _ Hwf).
Qed.

(** *** Initialisation *)

(** A region Limine may report: it does not wrap around the address space. *)
Definition entry_ok (e : memmap_entry) : Prop :=
  0 ≤ e_base e ∧ 0 ≤ e_length e ∧ e_base e + e_length e < 2 ^ 64 - 4096.

(** Region [e] is usable and page [i] starts inside its page-aligned part. *)
Definition covers (i : Z) (e : memmap_entry) : bool :=
  usable e && (page_align (e_base e) <=? i * PAGE_SIZE) && (i * PAGE_SIZE <? e_end e).

(** [bm'] differs from [bm] on the pages of [P] below [pages], where it is [v]. *)
Definition bits_updated (bm bm' : list Z) (pages : Z) (P : Z → bool) (v : bool) : Prop :=
  zlength bm' = zlength bm ∧ (bytes bm → bytes bm') ∧
  ∀ i, 0 ≤ i → bit_at bm' i = if P i && (i <? pages) then v else bit_at bm i.

Lemma free_region_bits pages e bm :
  entry_ok e → 0 ≤ pages ≤ 8 * zlength bm →
  bits_updated bm (free_region pages e bm) pages (λ i, covers i e) false.
Proof.
  intros (Hb & Hl & Hm) Hp. unfold free_region, covers.
  destruct (usable e); simpl; [|done].
  rewrite page_align_eq by lia. unfold e_end. rewrite u64_id by lia.
  set (q := (e_base e + 4095) / 4096). unfold PAGE_SIZE.
  assert (0 ≤ q) by (apply Z.div_pos; lia).
  set (n := (e_base e + e_length e - q * 4096 + (4096 - 1)) / 4096).
  pose proof (for_each_rule (λ k bm', bits_updated bm bm' pages
    (λ i, (q <=? i) && (i <? q + k)) false) 0 n
    (λ k bm, let page := (q * 4096 + k * 4096) / 4096 in
             if page <? pages then bitmap_clear_bit bm page else bm) bm) as H1.
  assert (Hdiv : ∀ k, (q * 4096 + k * 4096) / 4096 = q + k)
    by (intros k; rewrite <- Z.mul_add_distr_r; by apply Z.div_mul).
  destruct H1 as (Hlen & Hby & Hbits).
  { split_and!; [done|done|]. intros i Hi. zcase. }
  { intros k bm' Hk (Hlen & Hby & Hbits). simpl. rewrite Hdiv.
    destruct (Z.ltb_spec (q + k) pages); [|split_and!; [done|done|]; intros i Hi;
      rewrite Hbits by lia; zcase].
    split_and!.
    - rewrite <- Hlen. apply bm_clear_length.
    - intros B. by apply bm_clear_bytes, Hby.
    - intros i Hi. change (bitmap_clear_bit bm' (q + k)) with (bm_clear bm' (q + k)).
      rewrite bit_at_clear by lia. rewrite Hbits by lia. zcase. }
  split_and!; [done|done|]. intros i Hi. rewrite Hbits by lia.
  pose proof (Z.div_mod (e_base e + e_length e - q * 4096 + (4096 - 1)) 4096) as D.
  pose proof (Z.mod_pos_bound (e_base e + e_length e - q * 4096 + (4096 - 1)) 4096) as M.
  fold n in D. zcase.
Qed.

Lemma free_regions_bits pages entries bm :
  Forall entry_ok entries → 0 ≤ pages ≤ 8 * zlength bm →
  bits_updated bm (foldl (λ bm e, free_region pages e bm) bm entries) pages
    (λ i, existsb (covers i) entries) false.
Proof.
  intros He. revert bm. induction He as [|e entries Hok He IH]; intros bm Hp; simpl.
  { split_and!; done. }
  destruct (free_region_bits pages e bm Hok Hp) as (L1 & B1 & E1).
  destruct (IH (free_region pages e bm)) as (L2 & B2 & E2); [lia|].
  split_and!; [lia|auto|]. intros i Hi. rewrite E2, E1 by lia.
  destruct (covers i e), (existsb (covers i) entries), (i <? pages); done.
Qed.

Lemma lock_run_bits pages lo n bm :
  0 ≤ lo → 0 ≤ n → 0 ≤ pages ≤ 8 * zlength bm →
  bits_updated bm (lock_run pages lo n bm) pages
    (λ i, (lo <=? i) && (i <? lo + n)) true.
Proof.
  intros Hlo Hn Hp. unfold lock_run.
  pose proof (for_each_rule (λ k bm', bits_updated bm bm' pages
    (λ i, (lo <=? i) && (i <? lo + k)) true) 0 n
    (λ i bm, if lo + i <? pages then bitmap_set bm (lo + i) else bm) bm) as H1.
  rewrite Z.max_r in H1 by lia. apply H1; clear H1.
  { split_and!; [done|done|]. intros i Hi. zcase. }
  intros k bm' Hk (Hlen & Hby & Hbits).
  destruct (Z.ltb_spec (lo + k) pages); [|split_and!; [done|done|]; intros i Hi;
    rewrite Hbits by lia; zcase].
  split_and!.
  - rewrite <- Hlen. apply bm_set_length.
  - intros B. by apply bm_set_bytes, Hby.
  - intros i Hi. change (bitmap_set bm' (lo + k)) with (bm_set bm' (lo + k)).
    rewrite bit_at_set by lia. rewrite Hbits by lia. zcase.
Qed.

Lemma bit_at_full n i :
  0 ≤ i < 8 * Z.of_nat n → bit_at (replicate n 0xFF) i = true.
Proof.
  intros Hi. unfold bit_at, lget.
  rewrite lookup_replicate_2.
  2: { apply Nat2Z.inj_lt. rewrite Z2Nat.id by (apply Z.div_pos; lia).
       apply Z.div_lt_upper_bound; lia. }
  simpl. change 255 with (Z.ones 8). apply Z.ones_spec_low. apply mod8_range.
Qed.

Lemma count_used_zcount bm n :
  0 ≤ n → count_used bm n = zcount (bit_at bm) 0 n.
Proof.
  intros Hn. unfold count_used.
  pose proof (for_each_rule (λ k u, u = zcount (bit_at bm) 0 k) 0 n
    (λ i u, if bitmap_test bm i then u + 1 else u) 0) as H.
  rewrite Z.max_r in H by lia. apply H; [done|].
  intros k u Hk ->. rewrite (zcount_app _ 0 k (k + 1)), zcount_one by lia.
  rewrite bitmap_test_bit. destruct (bit_at bm k); lia.
Qed.

Lemma highest_addr_bounds entries :
  Forall entry_ok entries → 0 ≤ highest_addr entries < 2 ^ 64 - 4096.
Proof.
  intros He. unfold highest_addr.
  assert (H : ∀ h, 0 ≤ h < 2 ^ 64 - 4096 →
    0 ≤ foldl (λ h e, if usable e && (h <? e_end e) then e_end e else h) h entries
      < 2 ^ 64 - 4096); [|apply H; lia].
  induction He as [|e entries (Hb & Hl & Hm) He IH]; intros h Hh; simpl; [done|].
  apply IH. unfold e_end. rewrite u64_id by lia.
  destruct (usable e && (h <? e_base e + e_length e)); lia.
Qed.

Lemma find_bitmap_phys_spec n entries b :
  Forall entry_ok entries → find_bitmap_phys n entries = Some b →
  PMM_KERNEL_ZONE_END ≤ b ∧ Z.land b (PAGE_SIZE - 1) = 0 ∧
  ∃ e, e ∈ entries ∧ usable e = true ∧ page_align (e_base e) ≤ b ∧ b + n ≤ e_end e.
Proof.
  induction 1 as [|e entries (Hb & Hl & Hm) He IH]; simpl; [done|].
  assert (Hrec : find_bitmap_phys n entries = Some b →
    PMM_KERNEL_ZONE_END ≤ b ∧ Z.land b (PAGE_SIZE - 1) = 0 ∧
    ∃ e', e' ∈ e :: entries ∧ usable e' = true ∧ page_align (e_base e') ≤ b ∧ b + n ≤ e_end e').
  { intros Hf. destruct (IH Hf) as (? & ? & e' & ? & ?). split_and!; [done|done|].
    exists e'. split; [by right|done]. }
  destruct (usable e) eqn:Hu; simpl; [|done].
  set (base := if page_align (e_base e) <? PMM_KERNEL_ZONE_END then _ else _).
  destruct (Z.leb_spec (e_end e) base); [done|].
  destruct (Z.leb_spec n (e_end e - base)); [|done].
  intros [= <-]. subst base. rewrite page_align_eq in * by lia.
  destruct (Z.ltb_spec ((e_base e + 4095) / 4096 * 4096) PMM_KERNEL_ZONE_END).
  - split_and!; [lia|done|]. exists e. split; [by left|].
    rewrite page_align_eq by lia. split_and!; [done|lia|lia].
  - split_and!; [lia|apply mul_page_aligned|]. exists e. split; [by left|].
    rewrite page_align_eq by lia. split_and!; [done|lia|lia].
Qed.

(** *** The three operations *)

Lemma pmm_alloc_page_ok (p : pmm) (bm : list Z) (Hwf : pmm_wf p bm) :
  let '(r, p') := pmm_alloc_page p in
  (∃ i, kernel_lock_pages ≤ i < total_pages p ∧ bit_at bm i = false ∧
        (∀ j, 0 ≤ j < i → bit_at bm j = true) ∧
        r = i * PAGE_SIZE ∧ used_pages p' = used_pages p + 1 ∧
        pmm_wf p' (bitmap_set bm i)) ∨
  (r = PHYS_NULL ∧ p' = p ∧ ∀ j, 0 ≤ j < total_pages p → bit_at bm j = true).
Proof.
  unfold pmm_alloc_page. rewrite (wf_bitmap _ _ Hwf).
  pose proof (wf_hint _ _ Hwf) as Hh.
  pose proof (scan_free_spec bm (next_free_hint p) (total_pages p)) as Hs.
  assert (Htake : ∀ i, 0 ≤ i < total_pages p → bit_at bm i = false →
    (∀ j, 0 ≤ j < i → bit_at bm j = true) →
    ∃ i', kernel_lock_pages ≤ i' < total_pages p ∧ bit_at bm i' = false ∧
        (∀ j, 0 ≤ j < i' → bit_at bm j = true) ∧
        (take_page p bm i).1 = i' * PAGE_SIZE ∧
        used_pages (take_page p bm i).2 = used_pages p + 1 ∧
        pmm_wf (take_page p bm i).2 (bitmap_set bm i')).
  { intros i Hi Hf Hb. exists i.
    pose proof (take_page_wf p bm i Hwf Hi Hf Hb) as (Hr & Hu & Hw).
    split_and!; try done; [|lia].
    destruct (Z.lt_ge_cases i kernel_lock_pages) as [Hlt|]; [|done].
    rewrite (wf_zone _ _ Hwf i) in Hf by lia. done. }
  destruct (scan_free bm (next_free_hint p) (total_pages p)) as [i|u].
  - destruct Hs as (Hi & Hf & Hb). left. apply Htake; [lia|done|].
    intros j Hj. destruct (Z.lt_ge_cases j (next_free_hint p)); [|apply Hb; lia].
    apply (wf_below _ _ Hwf); lia.
  - pose proof (scan_free_spec bm 0
      (if next_free_hint p <? total_pages p then next_free_hint p else total_pages p)) as Hs0.
    destruct (scan_free bm 0 _) as [i|u'].
    + destruct Hs0 as (Hi & Hf & Hb). left. apply Htake; [|done|done].
      destruct (Z.ltb_spec (next_free_hint p) (total_pages p)); lia.
    + right. split_and!; [done|done|]. intros j Hj.
      destruct (Z.lt_ge_cases j (next_free_hint p)); [|apply Hs; lia].
      apply (wf_below _ _ Hwf); lia.
Qed.

Lemma pmm_free_page_ok (p : pmm) (bm : list Z) (addr : Z)
    (Hwf : pmm_wf p bm) (Ha : 0 ≤ addr) :
  let '(res, p') := pmm_free_page addr p in
  let i := addr / PAGE_SIZE in
  (res = Freed ↔
     addr = i * PAGE_SIZE ∧ PMM_KERNEL_ZONE_END ≤ addr ∧ i < total_pages p ∧
     bit_at bm i = true) ∧
  (if decide (res = Freed)
   then used_pages p' = used_pages p - 1 ∧ pmm_wf p' (bitmap_clear_bit bm i)
   else p' = p).
Proof.
  unfold pmm_free_page. rewrite (wf_bitmap _ _ Hwf).
  pose proof (wf_total _ _ Hwf) as Ht. set (i := addr / PAGE_SIZE).
  destruct (Z.eqb_spec addr PHYS_NULL) as [->|H0].
  { split; [|done]. split; [done|]. intros (_ & Hz & _). by vm_compute in Hz. }
  destruct (Z.eqb_spec (Z.land addr (PAGE_SIZE - 1)) 0) as [Hal|Hal]; simpl.
  2: { split; [|done]. split; [done|]. intros (He & _). exfalso. apply Hal.
       rewrite He. apply mul_page_aligned. }
  pose proof (page_aligned_mul addr Hal) as He. fold i in He.
  destruct (Z.leb_spec (bitmap_pages p) i); simpl.
  { split; [|done]. split; [done|lia]. }
  destruct (Z.ltb_spec addr PMM_KERNEL_ZONE_END); simpl.
  { split; [|done]. split; [done|lia]. }
  rewrite bitmap_test_bit. destruct (bit_at bm i) eqn:Hb; simpl.
  2: { split; [|done]. split; [done|]. by intros (_ & _ & _ & ?). }
  split; [split; [intros _; split_and!; [done|lia|lia|done]|done]|].
  assert (kernel_lock_pages ≤ i) by (by apply kernel_zone_pages).
  destruct (release_page_wf p bm i Hwf) as [Hw Hpos]; [lia|done|].
  destruct (Z.ltb_spec 0 (used_pages p)); [|lia]. done.
Qed.

Lemma pmm_init_dynamic_ok (entries : list memmap_entry) (p : pmm)
    (Hok : Forall entry_ok entries) (Hinit : pmm_init_dynamic entries = Some p) :
  ∃ bm phys,
    pmm_wf p bm ∧
    PMM_KERNEL_ZONE_END ≤ phys ∧
    (∃ e, e ∈ entries ∧ usable e = true ∧ page_align (e_base e) ≤ phys ∧
          phys + bitmap_bytes p ≤ e_end e) ∧
    ∀ i, 0 ≤ i < total_pages p →
      bit_at bm i = false ↔
      existsb (covers i) entries = true ∧ kernel_lock_pages ≤ i ∧
      ¬ (phys ≤ i * PAGE_SIZE < phys + bitmap_bytes p).
Proof.
  unfold pmm_init_dynamic in Hinit.
  pose proof (highest_addr_bounds entries Hok) as Hh.
  set (h := highest_addr entries) in *.
  destruct (Z.eqb_spec h 0); [done|].
  set (pages := h / PAGE_SIZE) in *.
  assert (Hpages : 0 ≤ pages < 2 ^ 52).
  { unfold pages, PAGE_SIZE. split; [apply Z.div_pos; lia|].
    apply Z.div_lt_upper_bound; lia. }
  set (needed := (pages + 7) / 8) in *.
  assert (Hneed : pages ≤ 8 * needed ∧ 0 ≤ needed < 2 ^ 50).
  { unfold needed. pose proof (Z.div_mod (pages + 7) 8).
    pose proof (Z.mod_pos_bound (pages + 7) 8). lia. }
  rewrite page_round_up_eq in Hinit by lia.
  set (k := (needed + 4095) / 4096) in *.
  assert (Hk : needed ≤ k * 4096 ∧ 0 ≤ k).
  { unfold k. pose proof (Z.div_mod (needed + 4095) 4096).
    pose proof (Z.mod_pos_bound (needed + 4095) 4096). lia. }
  destruct (find_bitmap_phys (k * 4096) entries) as [phys|] eqn:Hf; [|done].
  destruct (find_bitmap_phys_spec _ _ _ Hok Hf) as (Hz & Hal & Hin).
  change 4096 with PAGE_SIZE in Hinit at 3. rewrite mul_page_div in Hinit.
  assert (Hkp : 0 ≤ kernel_lock_pages) by (vm_compute; done).
  set (bm_a := replicate (Z.to_nat (k * 4096)) 255) in *.
  assert (La : zlength bm_a = k * 4096) by (unfold bm_a, zlength; rewrite length_replicate; lia).
  assert (Ha : ∀ i, 0 ≤ i < pages → bit_at bm_a i = true)
    by (intros i Hi; apply bit_at_full; lia).
  assert (Ba : bytes bm_a) by (apply Forall_replicate; lia).
  destruct (free_regions_bits pages entries bm_a Hok) as (Lb & Bb & Eb); [lia|].
  set (bm_b := foldl _ bm_a entries) in *.
  destruct (lock_run_bits pages 0 kernel_lock_pages bm_b) as (Lc & Bc & Ec); [lia|lia|lia|].
  set (bm_c := lock_run pages 0 kernel_lock_pages bm_b) in *.
  pose proof (page_aligned_mul phys Hal) as Hphys.
  set (q := phys / PAGE_SIZE) in *.
  assert (0 ≤ q) by (unfold q, PAGE_SIZE; apply Z.div_pos; [unfold PMM_KERNEL_ZONE_END in *; lia|lia]).
  destruct (lock_run_bits pages q k bm_c) as (Ld & Bd & Ed); [lia|lia|lia|].
  set (bm_d := lock_run pages q k bm_c) in *.
  assert (Hinit' : p = mkPmm (Some bm_d) (k * 4096) pages h pages
                         (count_used bm_d pages) kernel_lock_pages).
  { destruct (Z.ltb_spec pages pages); [lia|]. injection Hinit as <-. reflexivity. }
  clear Hinit. subst p. clearbody bm_a bm_b bm_c bm_d q k h. cbn [total_pages bitmap_bytes].
  assert (Hbit : ∀ i, 0 ≤ i < pages → bit_at bm_d i =
    (q <=? i) && (i <? q + k) || (i <? kernel_lock_pages) || negb (existsb (covers i) entries)).
  { intros i Hi. rewrite Ed, Ec, Eb by lia.
    rewrite (proj2 (Z.ltb_lt i pages)) by lia.
    rewrite Ha by lia.
    destruct (existsb (covers i) entries); zcase. }
  exists bm_d, phys. split_and!; [|lia|done|].
  - constructor; simpl; try done; try lia.
    + auto.
    + apply count_used_zcount. lia.
    + intros i Hi Hip. rewrite Hbit by lia.
      rewrite (proj2 (Z.ltb_lt i kernel_lock_pages)) by lia. by rewrite orb_true_r.
    + intros i Hi Hip. rewrite Hbit by lia.
      rewrite (proj2 (Z.ltb_lt i kernel_lock_pages)) by lia. by rewrite orb_true_r.
  - intros i Hi. rewrite Hbit by lia. unfold PAGE_SIZE in *.
    destruct (existsb (covers i) entries); zcase; split; try done; intros; split_and!; try done; lia.
Qed.

(** ** Traces

    [live] is the set of addresses handed out and not yet returned. *)
Inductive reachable (entries : list memmap_entry) : pmm → gset Z → Prop :=
  | reach_init p :
      pmm_init_dynamic entries = Some p → reachable entries p ∅
  | reach_alloc p live r p' :
      reachable entries p live → pmm_alloc_page p = (r, p') →
      reachable entries p' (if r =? PHYS_NULL then live else {[r]} ∪ live)
  | reach_free p live a res p' :
      reachable entries p live → 0 ≤ a → pmm_free_page a p = (res, p') →
      reachable entries p' (if decide (res = Freed) then live ∖ {[a]} else live).

(** Every live address is a used page above the kernel zone. *)
Definition live_ok (p : pmm) (bm : list Z) (live : gset Z) : Prop :=
  ∀ a, a ∈ live → ∃ i, a = i * PAGE_SIZE ∧ kernel_lock_pages ≤ i < total_pages p ∧
                       bit_at bm i = true.

Lemma zone_page_pos i : kernel_lock_pages ≤ i → 0 < i * PAGE_SIZE.
Proof.
  intros H. assert (18432 ≤ i) by (etransitivity; [|exact H]; vm_compute; done).
  unfold PAGE_SIZE. lia.
Qed.

Lemma alloc_total p r p' : pmm_alloc_page p = (r, p') → total_pages p' = total_pages p.
Proof.
  unfold pmm_alloc_page, take_page. intros H.
  destruct (pmm_bitmap p); [|by simplify_eq].
  destruct (scan_free _ _ _); [by simplify_eq|].
  destruct (scan_free _ _ _); by simplify_eq.
Qed.

Lemma free_total a p res p' : pmm_free_page a p = (res, p') → total_pages p' = total_pages p.
Proof.
  unfold pmm_free_page. intros H. repeat case_match; by simplify_eq.
Qed.

Lemma reachable_inv entries p live :
  Forall entry_ok entries → reachable entries p live →
  ∃ bm, pmm_wf p bm ∧ live_ok p bm live.
Proof.
  intros Hok Hr. induction Hr as [p Hi|p live r p' Hr IH Ha|p live a res p' Hr IH Ha0 Hf].
  - destruct (pmm_init_dynamic_ok entries p Hok Hi) as (bm & phys & Hwf & _).
    exists bm. split; [done|]. intros a. set_solver.
  - destruct IH as (bm & Hwf & Hl). pose proof (alloc_total _ _ _ Ha) as Ht.
    pose proof (pmm_alloc_page_ok p bm Hwf) as Hs. rewrite Ha in Hs.
    destruct Hs as [(i & Hi & Hb & _ & -> & _ & Hwf')|(-> & -> & _)]; [|by exists bm].
    pose proof (zone_page_pos i (proj1 Hi)).
    exists (bitmap_set bm i). split; [done|].
    destruct (Z.eqb_spec (i * PAGE_SIZE) PHYS_NULL); [unfold PHYS_NULL in *; lia|].
    pose proof (wf_room _ _ Hwf). pose proof (wf_total _ _ Hwf).
    assert (0 ≤ kernel_lock_pages) by (vm_compute; done).
    intros a [->%elem_of_singleton|Hin]%elem_of_union.
    + exists i. rewrite Ht. split_and!; [done|lia|lia|].
      change (bitmap_set bm i) with (bm_set bm i).
      rewrite bit_at_set by lia. by rewrite Z.eqb_refl.
    + destruct (Hl a Hin) as (j & -> & Hj & Hbj). exists j. rewrite Ht.
      split_and!; [done|lia|lia|]. change (bitmap_set bm i) with (bm_set bm i).
      rewrite bit_at_set by lia. by destruct (i =? j).
  - destruct IH as (bm & Hwf & Hl). pose proof (free_total _ _ _ _ Hf) as Ht.
    pose proof (pmm_free_page_ok p bm a Hwf Ha0) as Hs. rewrite Hf in Hs.
    destruct Hs as [Hiff Hd]. destruct (decide (res = Freed)) as [E|E].
    + destruct (proj1 Hiff E) as (Hae & Hz & Hlt & Hb). destruct Hd as [_ Hwf'].
      exists (bitmap_clear_bit bm (a / PAGE_SIZE)). split; [done|].
      intros x [Hx Hne]%elem_of_difference. destruct (Hl x Hx) as (j & -> & Hj & Hbj).
      exists j. rewrite Ht. split_and!; [done|lia|lia|].
      pose proof (wf_room _ _ Hwf). pose proof (wf_total _ _ Hwf).
      assert (0 ≤ kernel_lock_pages) by (vm_compute; done).
      assert (0 ≤ a / PAGE_SIZE) by (apply Z.div_pos; [lia|done]).
      change (bitmap_clear_bit bm (a / PAGE_SIZE)) with (bm_clear bm (a / PAGE_SIZE)).
      rewrite bit_at_clear by lia. destruct (Z.eqb_spec (a / PAGE_SIZE) j) as [<-|]; [|done].
      rewrite <- Hae in Hne. set_solver.
    + subst p'. by exists bm.
Qed.

(** A map with one usable region of sixteen pages right above the kernel zone. *)
Definition demo_map : list memmap_entry :=
  [mkEntry 0 0x4800000 1; mkEntry 0x4800000 0x10000 0].

Lemma demo_map_ok : Forall entry_ok demo_map.
Proof. repeat constructor; simpl; lia. Defined.

Lemma demo_init : { p | pmm_init_dynamic demo_map = Some p }.
Proof. destruct (pmm_init_dynamic demo_map) as [p|] eqn:E; [by exists p|discriminate E]. Qed.

(** ** Properties *)

(** [pmm_alloc_page] hands out the lowest free page: the two-phase scan
    from the hint is equivalent to a first-fit scan from page zero.  The page it
    returns lies above the kernel zone, was free, is now used, and is the only
    page whose state changed; it fails (returning [PHYS_NULL] with the state
    unchanged) exactly when no page is free.  The invariant is kept. *)
Theorem pmm_alloc_page_spec (p : pmm) (bm : list Z) (Hwf : pmm_wf p bm) :
  let '(r, p') := pmm_alloc_page p in
  (∃ i, kernel_lock_pages ≤ i < total_pages p ∧ bit_at bm i = false ∧
        (∀ j, 0 ≤ j < i → bit_at bm j = true) ∧
        r = i * PAGE_SIZE ∧ used_pages p' = used_pages p + 1 ∧
        pmm_wf p' (bitmap_set bm i)) ∨
  (r = PHYS_NULL ∧ p' = p ∧ ∀ j, 0 ≤ j < total_pages p → bit_at bm j = true).
Proof. exact (pmm_alloc_page_ok p bm Hwf). Qed.

Lemma pmm_alloc_page_spec_witness :
  ∃ p bm, pmm_wf p bm ∧
    let '(r, p') := pmm_alloc_page p in
    (∃ i, kernel_lock_pages ≤ i < total_pages p ∧ r = i * PAGE_SIZE) ∨ r = PHYS_NULL.
Proof.
  destruct demo_init as [p Hp].
  destruct (pmm_init_dynamic_ok demo_map p demo_map_ok Hp) as (bm & phys & Hwf & _).
  exists p, bm. split; [done|].
  pose proof (pmm_alloc_page_spec p bm Hwf) as H.
  destruct (pmm_alloc_page p) as [r p'].
  destruct H as [(i & Hi & _ & _ & Hr & _)|(Hr & _)]; [left; by exists i|by right].
Defined.

(** [pmm_free_page] releases exactly the page it is given, and only when the
    address is page-aligned, tracked, above the kernel zone and currently in
    use; every other call (NULL, unaligned, out of range, reserved, double free)
    leaves the allocator unchanged.  The invariant is kept. *)
Theorem pmm_free_page_spec (p : pmm) (bm : list Z) (addr : Z)
    (Hwf : pmm_wf p bm) (Ha : 0 ≤ addr) :
  let '(res, p') := pmm_free_page addr p in
  let i := addr / PAGE_SIZE in
  (res = Freed ↔
     addr = i * PAGE_SIZE ∧ PMM_KERNEL_ZONE_END ≤ addr ∧ i < total_pages p ∧
     bit_at bm i = true) ∧
  (if decide (res = Freed)
   then used_pages p' = used_pages p - 1 ∧ pmm_wf p' (bitmap_clear_bit bm i)
   else p' = p).
Proof. exact (pmm_free_page_ok p bm addr Hwf Ha). Qed.

Lemma pmm_free_page_spec_witness :
  ∃ p bm, pmm_wf p bm ∧ fst (pmm_free_page 0x1000 p) ≠ Freed.
Proof.
  destruct demo_init as [p Hp].
  destruct (pmm_init_dynamic_ok demo_map p demo_map_ok Hp) as (bm & phys & Hwf & _).
  exists p, bm. split; [done|].
  pose proof (pmm_free_page_spec p bm 0x1000 Hwf ltac:(lia)) as H.
  destruct (pmm_free_page 0x1000 p) as [res p']. destruct H as [Hiff _].
  intros E. destruct (proj1 Hiff E) as (_ & Hz & _). by vm_compute in Hz.
Defined.

(** [pmm_init_dynamic] builds a correct ownership map from the boot loader's
    memory map: the invariant holds, the bitmap itself is stored inside one
    usable region above the kernel zone, and a page is free exactly when some
    usable region covers it and it belongs neither to the kernel zone nor to the
    bitmap. *)
Theorem pmm_init_dynamic_spec (entries : list memmap_entry) (p : pmm)
    (Hok : Forall entry_ok entries) (Hinit : pmm_init_dynamic entries = Some p) :
  ∃ bm phys,
    pmm_wf p bm ∧
    PMM_KERNEL_ZONE_END ≤ phys ∧
    (∃ e, e ∈ entries ∧ usable e = true ∧ page_align (e_base e) ≤ phys ∧
          phys + bitmap_bytes p ≤ e_end e) ∧
    ∀ i, 0 ≤ i < total_pages p →
      bit_at bm i = false ↔
      existsb (covers i) entries = true ∧ kernel_lock_pages ≤ i ∧
      ¬ (phys ≤ i * PAGE_SIZE < phys + bitmap_bytes p).
Proof. exact (pmm_init_dynamic_ok entries p Hok Hinit). Qed.

Lemma pmm_init_dynamic_spec_witness :
  ∃ p bm, pmm_init_dynamic demo_map = Some p ∧ pmm_wf p bm.
Proof.
  destruct demo_init as [p Hp].
  destruct (pmm_init_dynamic_spec demo_map p demo_map_ok Hp) as (bm & phys & Hwf & _).
  by exists p, bm.
Defined.

(** C17: No page is handed out twice: in every state reachable from
    initialisation by allocations and releases (including bad releases), the
    page [pmm_alloc_page] returns is not one of the pages still in use, and every
    page handed out and not yet returned is still owned by the allocator. *)
Theorem pmm_no_double_allocation (entries : list memmap_entry) (p : pmm) (live : gset Z)
    (Hok : Forall entry_ok entries) (Hr : reachable entries p live) :
  ((pmm_alloc_page p).1 ∉ live) ∧ (∀ a, a ∈ live → pmm_owns_page a p = 1).
Proof.
  destruct (reachable_inv entries p live Hok Hr) as (bm & Hwf & Hl).
  split.
  - pose proof (pmm_alloc_page_ok p bm Hwf) as Hs. destruct (pmm_alloc_page p) as [r p'].
    simpl. intros Hin. destruct (Hl r Hin) as (j & Hj & Hjz & Hbj).
    destruct Hs as [(i & Hi & Hb & _ & Hri & _)|(Hri & _)].
    + assert (i = j) as -> by (unfold PAGE_SIZE in *; lia). congruence.
    + pose proof (zone_page_pos j (proj1 Hjz)). unfold PHYS_NULL in *. lia.
  - intros a Hin. destruct (Hl a Hin) as (j & -> & Hj & Hbj).
    pose proof (zone_page_pos j (proj1 Hj)). pose proof (wf_total _ _ Hwf).
    unfold pmm_owns_page. rewrite mul_page_aligned, mul_page_div, (wf_bitmap _ _ Hwf).
    destruct (Z.eqb_spec (j * PAGE_SIZE) PHYS_NULL); [unfold PHYS_NULL in *; lia|].
    simpl. destruct (Z.leb_spec (bitmap_pages p) j); [lia|].
    by rewrite bitmap_test_bit, Hbj.
Qed.

Lemma pmm_no_double_allocation_witness :
  ∃ p, reachable demo_map p ∅ ∧ fst (pmm_alloc_page p) ∉ (∅ : gset Z).
Proof.
  destruct demo_init as [p Hp]. exists p.
  assert (Hr : reachable demo_map p ∅) by (by constructor).
  split; [done|]. exact (proj1 (pmm_no_double_allocation demo_map p ∅ demo_map_ok Hr)).
Defined.
