(* ===== verification/KHeap.v ===== *)
(** [kernel/mm/heap.c]: the kernel heap, a first-fit allocator over a linked list
    of blocks that grows page by page through the virtual memory manager.

    The block headers are the typed map [hdrs] from addresses to header values;
    the list is followed through the [next] addresses stored there, as the code
    does, and a header that was absorbed by a merge stays in memory.  Payload
    bytes are the separate memory [data].  [heap_lock] is held for the whole of
    each list operation, so each is one step.  A magic mismatch is [Panic], the
    read of an address that never held a header is [Fault]; loops take fuel and
    [Diverge] is its exhaustion.  The theorems exclude all three for a well-formed
    heap.

    Mapping a page is the virtual memory manager's: the class [PageSource] states
    what the heap relies on. *)

From S2P Require Import Prelude KString.

(** ** The interface to the virtual memory manager *)

Class PageOps (V : Type) := {
  vmm_alloc_page_kernel : Z → Z → V → bool * V;
  (** [vmm_unmap_page_from(va, kernel pml4)], then [pmm_free_page] of a frame. *)
  vmm_unmap_free : Z → V → V;
  (** Is the page of the address mapped? *)
  is_mapped : V → Z → bool;
  (** The frames that can still be handed out. *)
  frames : V → Z;
}.

Class PageSource (V : Type) `{PageOps V} := {
  frames_nonneg v : 0 ≤ frames v;
  alloc_page_true va fl v v' :
    vmm_alloc_page_kernel va fl v = (true, v') →
    frames v' + 1 ≤ frames v ∧
    ∀ a, is_mapped v' a = if a / 4096 =? va / 4096 then true else is_mapped v a;
  alloc_page_false va fl v v' :
    vmm_alloc_page_kernel va fl v = (false, v') →
    frames v' ≤ frames v ∧ ∀ a, is_mapped v' a = is_mapped v a;
  unmap_free_spec va v :
    frames (vmm_unmap_free va v) ≤ frames v + 1 ∧
    ∀ a, is_mapped (vmm_unmap_free va v) a =
         if a / 4096 =? va / 4096 then false else is_mapped v a;
}.

(** ** State *)

Definition HEAP_MAGIC : Z := 0xDEADC0DE.
Definition HEAP_START_VADDR : Z := 0xFFFF900000000000.
Definition HDR : Z := 32.

Record heap_block := mkBlk { magic : Z; blk_size : Z; is_free : Z; next : Z }.

Record heap (V : Type) := mkHeap {
  hdrs : gmap Z heap_block;
  heap_head : Z;
  current_heap_end : Z;
  data : mem;
  vm : V
}.
Arguments mkHeap {V}.
Arguments hdrs {V}.
Arguments heap_head {V}.
Arguments current_heap_end {V}.
Arguments data {V}.
Arguments vm {V}.

Inductive res (A : Type) :=
  | Ret (a : A)
  | Panic (addr : Z)
  | Fault (addr : Z)
  | Diverge.
Arguments Ret {A}.
Arguments Panic {A}.
Arguments Fault {A}.
Arguments Diverge {A}.

#[global] Instance res_bind : MBind res := λ A B f x,
  match x with
  | Ret a => f a
  | Panic a => Panic a
  | Fault a => Fault a
  | Diverge => Diverge
  end.

Definition load (m : gmap Z heap_block) (a : Z) : res heap_block :=
  match m !! a with Some b => Ret b | None => Fault a end.

(** ** Operations *)

(** The search loop of [kmalloc]: the first free block that is large enough, or
    [NULL]. *)
Fixpoint find_fit (fuel : nat) (m : gmap Z heap_block) (current size : Z) : res Z :=
  match fuel with
  | O => Diverge
  | S f =>
      if current =? 0 then Ret 0 else
      b ← load m current;
      if negb (magic b =? HEAP_MAGIC) then Panic current
      else if negb (is_free b =? 0) && (size <=? blk_size b) then Ret current
      else find_fit f m (next b) size
  end.

(** Taking the block found, with the split of a block that is too large. *)
Definition take_block (m : gmap Z heap_block) (current size : Z) : res (gmap Z heap_block) :=
  b ← load m current;
  if u64 (size + HDR + 1) <? blk_size b then
    let nb := u64 (current + HDR + size) in
    let m1 := <[nb := mkBlk HEAP_MAGIC (u64 (blk_size b - size - HDR)) 1 (next b)]> m in
    Ret (<[current := mkBlk (magic b) size 0 nb]> m1)
  else Ret (<[current := mkBlk (magic b) (blk_size b) 0 (next b)]> m).

Section ops.
Context {V : Type} `{PageOps V}.

Definition set_hdrs (h : heap V) (m : gmap Z heap_block) : heap V :=
  mkHeap m (heap_head h) (current_heap_end h) (data h) (vm h).

Definition init_heap (h : heap V) : heap V :=
  mkHeap (hdrs h) 0 (current_heap_end h) (data h) (vm h).

(** The rollback of [expand_heap]: unmap [n] pages from [va]. *)
Fixpoint unmap_pages (n : nat) (va : Z) (v : V) : V :=
  match n with
  | O => v
  | S n' => unmap_pages n' (va + 4096) (vmm_unmap_free va v)
  end.

(** Map [n] pages from [heap_end]: the new end, or the rolled back memory. *)
Fixpoint map_pages (n : nat) (start heap_end : Z) (v : V) : option Z * V :=
  match n with
  | O => (Some heap_end, v)
  | S n' =>
      let '(ok, v) := vmm_alloc_page_kernel heap_end 3 v in
      if ok then map_pages n' start (u64 (heap_end + 4096)) v
      else (None, unmap_pages (Z.to_nat ((heap_end - start) / 4096)) start v)
  end.

(** [while (curr->next != NULL) curr = curr->next] *)
Fixpoint last_block (fuel : nat) (m : gmap Z heap_block) (curr : Z) : res Z :=
  match fuel with
  | O => Diverge
  | S f =>
      b ← load m curr;
      if next b =? 0 then Ret curr else last_block f m (next b)
  end.

(** No list of blocks inside the heap is longer: a block has a 32-byte header. *)
Definition walk_fuel (h : heap V) : nat :=
  S (S (Z.to_nat ((current_heap_end h - HEAP_START_VADDR) / HDR))).

Definition expand_heap (required_size : Z) (h : heap V) : res (Z * heap V) :=
  let total_size := u64 (required_size + HDR) in
  let pages_needed :=
    total_size / 4096 + (if total_size mod 4096 =? 0 then 0 else 1) in
  let start := current_heap_end h in
  match map_pages (Z.to_nat pages_needed) start start (vm h) with
  | (None, v) => Ret (0, mkHeap (hdrs h) (heap_head h) start (data h) v)
  | (Some heap_end, v) =>
      let m := <[start := mkBlk HEAP_MAGIC (u64 (pages_needed * 4096 - HDR)) 1 0]> (hdrs h) in
      if heap_head h =? 0 then Ret (start, mkHeap m start heap_end (data h) v)
      else
        l ← last_block (walk_fuel h) m (heap_head h);
        b ← load m l;
        Ret (start, mkHeap (<[l := mkBlk (magic b) (blk_size b) (is_free b) start]> m)
                      (heap_head h) heap_end (data h) v)
  end.

(** [kmalloc]; [fuel] bounds its recursion after an expansion. *)
Fixpoint kmalloc (fuel : nat) (size0 : Z) (h : heap V) : res (Z * heap V) :=
  match fuel with
  | O => Diverge
  | S f =>
      if size0 =? 0 then Ret (0, h) else
      let size := Z.land (u64 (size0 + 15)) (u64 (Z.lnot 15)) in
      current ← find_fit (walk_fuel h) (hdrs h) (heap_head h) size;
      if negb (current =? 0) then
        m ← take_block (hdrs h) current size;
        Ret (u64 (current + HDR), set_hdrs h m)
      else
        '(fresh, h) ← expand_heap size h;
        if fresh =? 0 then Ret (0, h) else kmalloc f size h
  end.

(** The coalescing loop of [kfree]. *)
Fixpoint coalesce (fuel : nat) (m : gmap Z heap_block) (current : Z)
    : res (gmap Z heap_block) :=
  match fuel with
  | O => Diverge
  | S f =>
      if current =? 0 then Ret m else
      b ← load m current;
      if negb (magic b =? HEAP_MAGIC) then Panic current else
      let expected_next := u64 (current + HDR + blk_size b) in
      if negb (is_free b =? 0) && negb (next b =? 0) then
        nb ← load m (next b);
        if negb (is_free nb =? 0) && (next b =? expected_next) then
          let b' := mkBlk (magic b) (u64 (blk_size b + (blk_size nb + HDR))) (is_free b)
                      (next nb) in
          coalesce f (<[current := b']> m) current
        else coalesce f m (next b)
      else coalesce f m (next b)
  end.

Definition kfree (ptr : Z) (h : heap V) : res (heap V) :=
  if ptr =? 0 then Ret h else
  let block := u64 (ptr - HDR) in
  b ← load (hdrs h) block;
  if negb (magic b =? HEAP_MAGIC) then Panic block else
  let m := <[block := mkBlk (magic b) (blk_size b) 1 (next b)]> (hdrs h) in
  m ← coalesce (walk_fuel h) m (heap_head h);
  Ret (set_hdrs h m).

Definition krealloc (fuel : nat) (ptr old_size new_size : Z) (h : heap V)
    : res (Z * heap V) :=
  if new_size =? 0 then h ← kfree ptr h; Ret (0, h)
  else if ptr =? 0 then kmalloc fuel new_size h
  else
    '(new_ptr, h) ← kmalloc fuel new_size h;
    if new_ptr =? 0 then Ret (0, h) else
    let copied := if old_size <? new_size then old_size else new_size in
    let h := mkHeap (hdrs h) (heap_head h) (current_heap_end h)
               (memcpy new_ptr ptr copied (data h)).2 (vm h) in
    h ← kfree ptr h;
    Ret (new_ptr, h).

End ops.

(** ** Specification *)

(** The address stored in a [next] field for position [s] of a heap that ends at
    [e]: the end is [NULL]. *)
Definition nx (e s : Z) : Z := if s =? e then 0 else s.

(** The blocks [l], as (size, is_free), laid out from [s] to [mid] without gaps,
    each linked to the one after it. *)
Fixpoint seg (m : gmap Z heap_block) (e s : Z) (l : list (Z * Z)) (mid : Z) : Prop :=
  match l with
  | [] => s = mid
  | (sz, fr) :: l' =>
      m !! s = Some (mkBlk HEAP_MAGIC sz fr (nx e (s + HDR + sz))) ∧
      seg m e (s + HDR + sz) l' mid
  end.

Fixpoint total (l : list (Z * Z)) : Z :=
  match l with [] => 0 | (sz, _) :: l' => HDR + sz + total l' end.

Definition blk_ok (b : Z * Z) : Prop :=
  0 ≤ b.1 ∧ (16 | b.1) ∧ (b.2 = 0 ∨ b.2 = 1).

(** The allocated blocks: payload address and size. *)
Fixpoint used (s : Z) (l : list (Z * Z)) : list (Z * Z) :=
  match l with
  | [] => []
  | (sz, fr) :: l' =>
      (if fr =? 0 then [(s + HDR, sz)] else []) ++ used (s + HDR + sz) l'
  end.

(** No two neighbouring blocks are both free. *)
Fixpoint no_adjacent_free (l : list (Z * Z)) : Prop :=
  match l with
  | (_, f1) :: ((_, f2) :: _) as l' => ¬ (f1 ≠ 0 ∧ f2 ≠ 0) ∧ no_adjacent_free l'
  | _ => True
  end.

Record heap_wf {V} `{PageOps V} (h : heap V) (l : list (Z * Z)) : Prop := {
  wf_head : heap_head h = nx (current_heap_end h) HEAP_START_VADDR;
  wf_seg : seg (hdrs h) (current_heap_end h) HEAP_START_VADDR l (current_heap_end h);
  wf_blk : Forall blk_ok l;
  wf_end : (4096 | current_heap_end h);
  wf_room : current_heap_end h + 4096 * frames (vm h) < 2 ^ 64;
  wf_mapped a : HEAP_START_VADDR ≤ a < current_heap_end h → is_mapped (vm h) a = true;
}.

(** ** Lemmas on layouts *)

Lemma total_nonneg l : Forall blk_ok l → 0 ≤ total l.
Proof.
  induction 1 as [|[sz fr] l [Hs _] _ IH]; simpl in *; unfold HDR in *; lia.
Qed.

Lemma total_length l : Forall blk_ok l → HDR * zlength l ≤ total l.
Proof.
  unfold zlength, HDR. induction 1 as [|[sz fr] l [Hs _] _ IH]; simpl in *; unfold HDR; lia.
Qed.

Lemma total_app l1 l2 : total (l1 ++ l2) = total l1 + total l2.
Proof. induction l1 as [|[sz fr] l1 IH]; simpl; lia. Qed.

Lemma total_16 l : Forall blk_ok l → (16 | total l).
Proof.
  induction 1 as [|[sz fr] l (_ & Hd & _) _ IH]; simpl in *; [by exists 0|].
  apply Z.divide_add_r; [apply Z.divide_add_r; [by exists 2|done]|done].
Qed.

Lemma seg_end m e s l mid : seg m e s l mid → mid = s + total l.
Proof.
  revert s. induction l as [|[sz fr] l IH]; intros s; simpl; [lia|].
  intros [_ H]. apply IH in H. lia.
Qed.

Lemma seg_app m e s l1 l2 mid :
  seg m e s (l1 ++ l2) mid ↔ seg m e s l1 (s + total l1) ∧ seg m e (s + total l1) l2 mid.
Proof.
  revert s. induction l1 as [|[sz fr] l1 IH]; intros s; simpl.
  - rewrite Z.add_0_r. tauto.
  - rewrite IH. replace (s + HDR + sz + total l1) with (s + (HDR + sz + total l1)) by lia.
    tauto.
Qed.

(** A layout depends only on the headers inside it. *)
Lemma seg_frame m m' e s l mid :
  Forall blk_ok l → (∀ a, s ≤ a < mid → m' !! a = m !! a) →
  seg m e s l mid → seg m' e s l mid.
Proof.
  revert s. induction l as [|[sz fr] l IH]; intros s Hok Hm; simpl; [done|].
  inversion_clear Hok as [|? ? [Hsz _] Hl]. simpl in Hsz. intros [Hb Hs].
  pose proof (seg_end _ _ _ _ _ Hs) as He. pose proof (total_nonneg l Hl).
  unfold HDR in *.
  split; [rewrite Hm; [done|lia]|]. apply IH; [done| |done]. intros a Ha. apply Hm. lia.
Qed.

(** Replacing one block of a layout by blocks that fill the same space. *)
Lemma seg_replace m m' e s l1 sz fr lm l2 mid :
  Forall blk_ok l1 → Forall blk_ok l2 → 0 ≤ sz →
  seg m e s (l1 ++ (sz, fr) :: l2) mid →
  (∀ a, ¬ (s + total l1 ≤ a < s + total l1 + HDR + sz) → m' !! a = m !! a) →
  seg m' e (s + total l1) lm (s + total l1 + HDR + sz) →
  seg m' e s (l1 ++ lm ++ l2) mid.
Proof.
  intros H1 H2 Hsz Hseg Hm Hlm. apply seg_app in Hseg as [Ha Hb]. simpl in Hb.
  destruct Hb as [_ Hb]. apply seg_app. split.
  - eapply seg_frame; [done| |done]. intros a Hr. apply Hm. lia.
  - pose proof (seg_end _ _ _ _ _ Hlm) as He.
    apply seg_app. replace (s + total l1 + total lm) with (s + total l1 + HDR + sz) by lia.
    split; [done|]. eapply seg_frame; [done| |done]. intros a Hr. apply Hm. lia.
Qed.

Lemma used_app s l1 l2 : used s (l1 ++ l2) = used s l1 ++ used (s + total l1) l2.
Proof.
  revert s. induction l1 as [|[sz fr] l1 IH]; intros s; simpl; [by rewrite Z.add_0_r|].
  rewrite IH, app_assoc. f_equal. f_equal. lia.
Qed.

(** Where an allocated block sits in the layout. *)
Lemma used_split s l p sz :
  (p, sz) ∈ used s l →
  ∃ l1 l2, l = l1 ++ (sz, 0) :: l2 ∧ p = s + total l1 + HDR.
Proof.
  revert s. induction l as [|[sz' fr] l IH]; intros s; simpl; [by intros ?%elem_of_nil|].
  rewrite elem_of_app. intros [Hin|Hin].
  - destruct (Z.eqb_spec fr 0) as [->|]; [|by apply elem_of_nil in Hin].
    apply list_elem_of_singleton in Hin. simplify_eq. exists [], l. simpl. split; [done|lia].
  - apply IH in Hin as (l1 & l2 & -> & ->). exists ((sz', fr) :: l1), l2. simpl.
    split; [done|lia].
Qed.

Lemma used_range s l p sz :
  Forall blk_ok l → (p, sz) ∈ used s l → s + HDR ≤ p ∧ 0 ≤ sz ∧ p + sz ≤ s + total l.
Proof.
  intros Hok (l1 & l2 & -> & ->)%used_split.
  apply Forall_app in Hok as [H1 H2]. inversion_clear H2 as [|? ? [Hs _] H3]. simpl in Hs.
  pose proof (total_nonneg _ H1). pose proof (total_nonneg _ H3).
  rewrite total_app. simpl. lia.
Qed.

(** Allocated blocks do not overlap: of any two entries of [used], at distinct
    positions, the earlier one ends before the header of the later one. *)
Lemma used_disjoint s l i j p sz p' sz' :
  Forall blk_ok l → (i < j)%nat →
  used s l !! i = Some (p, sz) → used s l !! j = Some (p', sz') → p + sz + HDR ≤ p'.
Proof.
  revert s i j. induction l as [|[sz0 fr] l IH]; intros s i j Hok Hij Hi Hj; [done|].
  inversion_clear Hok as [|? ? [Hs _] Hl]. simpl in *.
  destruct (Z.eqb_spec fr 0) as [->|]; simpl in *; [|by eapply IH].
  destruct j as [|j]; [lia|]. simpl in Hj. destruct i as [|i].
  - simplify_eq/=. apply list_elem_of_lookup_2 in Hj.
    apply used_range in Hj; [|done]. lia.
  - eapply (IH _ i j); eauto with lia.
Qed.

Lemma walk_fuel_enough {V} `{PageOps V} (h : heap V) l :
  heap_wf h l → (length l + 1 < walk_fuel h)%nat.
Proof.
  intros Hwf. pose proof (total_length l (wf_blk _ _ Hwf)) as Hl.
  pose proof (seg_end _ _ _ _ _ (wf_seg _ _ Hwf)) as He.
  unfold walk_fuel, zlength in *. rewrite He.
  replace (HEAP_START_VADDR + total l - HEAP_START_VADDR) with (total l) by lia.
  assert (Z.of_nat (length l) ≤ total l / HDR)
    by (apply Z.div_le_lower_bound; unfold HDR in *; lia).
  lia.
Qed.

(** ** Lemmas on the operations *)

Definition fits (size : Z) (b : Z * Z) : Prop := b.2 ≠ 0 ∧ size ≤ b.1.

Lemma find_fit_spec fuel m e s l size :
  Forall blk_ok l → seg m e s l e → 0 < s → (length l < fuel)%nat →
  (∃ l1 sz l2, l = l1 ++ (sz, 1) :: l2 ∧ size ≤ sz ∧
     find_fit fuel m (nx e s) size = Ret (s + total l1)) ∨
  (Forall (λ b, ¬ fits size b) l ∧ find_fit fuel m (nx e s) size = Ret 0).
Proof.
  revert s l. induction fuel as [|fuel IH]; intros s l Hok Hs Hpos Hf; [lia|].
  destruct l as [|[sz fr] l]; simpl in Hs; cbn [find_fit].
  { right. subst s. unfold nx. by rewrite Z.eqb_refl. }
  destruct Hs as [Hb Hs]. inversion_clear Hok as [|? ? (Hsz & _ & Hfr) Hl]. simpl in Hsz, Hfr.
  pose proof (seg_end _ _ _ _ _ Hs) as He. pose proof (total_nonneg l Hl).
  unfold HDR in He. assert (nx e s = s) as -> by (unfold nx; destruct (Z.eqb_spec s e); lia).
  destruct (Z.eqb_spec s 0); [lia|]. unfold load. rewrite Hb. simpl.
  destruct (Z.eqb_spec fr 0) as [->|Hf1]; simpl.
  - destruct (IH (s + HDR + sz) l Hl Hs ltac:(unfold HDR; lia) ltac:(simpl in Hf; lia))
      as [(l1 & sz' & l2 & -> & Hle & Hr)|[Hn Hr]].
    + left. exists ((sz, 0) :: l1), sz', l2. split; [done|]. split; [done|].
      rewrite Hr. simpl. f_equal. lia.
    + right. split; [|done]. constructor; [|done]. intros [? _]. done.
  - assert (fr = 1) as -> by lia. destruct (Z.leb_spec size sz) as [Hle|Hlt].
    + left. exists [], sz, l. simpl. rewrite Z.add_0_r. done.
    + destruct (IH (s + HDR + sz) l Hl Hs ltac:(unfold HDR; lia) ltac:(simpl in Hf; lia))
        as [(l1 & sz' & l2 & -> & Hle & Hr)|[Hn Hr]].
      * left. exists ((sz, 1) :: l1), sz', l2. split; [done|]. split; [done|].
        rewrite Hr. simpl. f_equal. lia.
      * right. split; [|done]. constructor; [|done]. intros [_ ?]. simpl in *. lia.
Qed.

(** Taking a block: the layout with the block allocated, split if it was large. *)
Lemma take_block_spec m e s l1 sz l2 size :
  Forall blk_ok (l1 ++ (sz, 1) :: l2) → seg m e s (l1 ++ (sz, 1) :: l2) e →
  0 < s → e < 2 ^ 64 → 0 ≤ size ≤ sz → (16 | size) →
  ∃ m' lm sz', take_block m (s + total l1) size = Ret m' ∧
    size ≤ sz' ∧ Forall blk_ok lm ∧
    seg m' e s (l1 ++ lm ++ l2) e ∧
    (∀ x, used x lm = [(x + HDR, sz')]) ∧ total lm = HDR + sz.
Proof.
  intros Hok Hseg Hs He Hsz H16.
  pose proof Hok as Hok'. apply Forall_app in Hok as [H1 H2].
  inversion_clear H2 as [|? ? (_ & Hd & _) H3]. simpl in Hd.
  pose proof (total_nonneg _ H1). pose proof (total_nonneg _ H3).
  pose proof (seg_end _ _ _ _ _ Hseg) as Htot. rewrite total_app in Htot. simpl in Htot.
  pose proof Hseg as Hseg'. apply seg_app in Hseg as [_ [Hb _]].
  set (a := s + total l1) in *. unfold take_block, load. rewrite Hb. simpl.
  unfold HDR in *. rewrite (u64_id (size + 32 + 1)) by lia.
  destruct (Z.ltb_spec (size + 32 + 1) sz) as [Hbig|Hsmall].
  - rewrite (u64_id (a + 32 + size)), (u64_id (sz - size - 32)) by lia.
    eexists _, [(size, 0); (sz - size - 32, 1)], size. split; [done|]. split; [lia|].
    split; [|split; [|split; [done|simpl; unfold HDR; lia]]].
    { repeat constructor; simpl; try lia; [done|].
      apply Z.divide_sub_r; [by apply Z.divide_sub_r|by exists 2]. }
    apply (seg_replace m _ e s l1 sz 1 _ l2 e); [done|done|lia|done| |].
    + intros x Hx. fold a in Hx. unfold HDR in Hx.
      rewrite !lookup_insert_ne by lia. done.
    + fold a. simpl. unfold HDR.
      rewrite lookup_insert_eq. rewrite lookup_insert_ne, lookup_insert_eq by lia.
      unfold nx at 1. destruct (Z.eqb_spec (a + 32 + size) e); [lia|].
      split; [done|]. split; [|lia]. f_equal. f_equal. f_equal. lia.
  - eexists _, [(sz, 0)], sz. split; [done|]. split; [lia|].
    split; [|split; [|split; [done|simpl; unfold HDR; lia]]].
    { repeat constructor; simpl; try lia; done. }
    apply (seg_replace m _ e s l1 sz 1 _ l2 e); [done|done|lia|done| |].
    + intros x Hx. fold a in Hx. unfold HDR in Hx. rewrite lookup_insert_ne by lia. done.
    + fold a. simpl. by rewrite lookup_insert_eq.
Qed.

Section vm.
Context {V : Type} `{Hsrc : PageSource V}.

(** Page-granular membership of a range of pages. *)
Lemma page_in lo n a :
  (4096 | lo) → (lo / 4096 ≤ a / 4096 < lo / 4096 + n) ↔ (lo ≤ a < lo + 4096 * n).
Proof. intros [k ->]. rewrite Z.div_mul by lia. zdiv. Qed.

Lemma unmap_pages_spec n va v :
  (4096 | va) →
  frames (unmap_pages n va v) ≤ frames v + Z.of_nat n ∧
  ∀ a, is_mapped (unmap_pages n va v) a =
       if bool_decide (va ≤ a < va + 4096 * Z.of_nat n) then false else is_mapped v a.
Proof.
  revert va v. induction n as [|n IH]; intros va v Hva; cbn [unmap_pages].
  { split; [lia|]. intros a. rewrite bool_decide_false by lia. done. }
  destruct (unmap_free_spec va v) as [Hf Hm].
  destruct (IH (va + 4096) (vmm_unmap_free va v)) as [IHf IHm];
    [apply Z.divide_add_r; [done|by exists 1]|].
  split; [lia|]. intros a. rewrite IHm, Hm. clear IH IHm Hm.
  pose proof (page_in va 1 a Hva) as Hp.
  repeat case_bool_decide; try lia; try done;
    destruct (Z.eqb_spec (a / 4096) (va / 4096)); try lia; done.
Qed.

(** Mapping pages at the end of the heap: all of them, or none that was not mapped
    before. *)
Lemma map_pages_spec n start he v :
  (4096 | start) → (4096 | he) → start ≤ he → 0 ≤ start →
  he + 4096 * frames v < 2 ^ 64 →
  let '(r, v') := map_pages n start he v in
  match r with
  | Some he' =>
      he' = he + 4096 * Z.of_nat n ∧ he' + 4096 * frames v' < 2 ^ 64 ∧
      ∀ a, is_mapped v' a = is_mapped v a || bool_decide (he ≤ a < he')
  | None =>
      start + 4096 * frames v' < 2 ^ 64 ∧
      ∃ k, he ≤ k ∧
        ∀ a, is_mapped v' a = if bool_decide (start ≤ a < k) then false else is_mapped v a
  end.
Proof.
  intros Hst. revert he v. induction n as [|n IH]; intros he v Hhe Hle H0 Hroom;
    cbn [map_pages].
  { split; [lia|]. split; [done|]. intros a. rewrite bool_decide_false by lia.
    by rewrite orb_false_r. }
  destruct (vmm_alloc_page_kernel he 3 v) as [ok v1] eqn:E. pose proof (frames_nonneg v1).
  destruct ok.
  - apply alloc_page_true in E as [Hf Hm]. rewrite u64_id by lia.
    assert (Hhe' : (4096 | he + 4096)) by (apply Z.divide_add_r; [done|by exists 1]).
    specialize (IH (he + 4096) v1 Hhe' ltac:(lia) H0 ltac:(lia)).
    destruct (map_pages n start (he + 4096) v1) as [[he'|] v'].
    + destruct IH as (-> & Hr & IHm). split; [lia|]. split; [done|]. intros a.
      rewrite IHm, Hm. pose proof (page_in he 1 a Hhe) as Hp.
      destruct (Z.eqb_spec (a / 4096) (he / 4096)); repeat case_bool_decide; try lia;
        by rewrite ?orb_true_r.
    + destruct IH as (Hr & k & Hk & IHm). split; [done|]. exists k. split; [lia|].
      intros a. rewrite IHm, Hm. pose proof (page_in he 1 a Hhe) as Hp.
      case_bool_decide; [done|]. destruct (Z.eqb_spec (a / 4096) (he / 4096)); [lia|done].
  - apply alloc_page_false in E as [Hf Hm].
    set (k := Z.to_nat ((he - start) / 4096)).
    destruct (unmap_pages_spec k start v1 Hst) as [Hfu Hmu].
    assert (Hk : start + 4096 * Z.of_nat k = he).
    { unfold k. destruct Hst as [x ->], Hhe as [y ->].
      replace (y * 4096 - x * 4096) with ((y - x) * 4096) by lia.
      rewrite Z.div_mul by lia. lia. }
    clearbody k. split; [lia|]. exists he. split; [lia|].
    intros a. rewrite Hmu, Hm, Hk. done.
Qed.

Lemma last_block_spec fuel m e s l sz fr :
  Forall blk_ok (l ++ [(sz, fr)]) → seg m e s (l ++ [(sz, fr)]) e → 0 < s →
  (length l < fuel)%nat → last_block fuel m s = Ret (s + total l).
Proof.
  revert s l. induction fuel as [|fuel IH]; intros s l Hok Hs Hpos Hf; [lia|].
  destruct l as [|[sz' fr'] l]; simpl in Hs, Hok; cbn [last_block]; unfold load.
  - destruct Hs as [-> ->]. simpl. unfold nx. rewrite Z.eqb_refl. simpl.
    by rewrite Z.add_0_r.
  - destruct Hs as [-> Hs]. inversion_clear Hok as [|? ? [Hsz _] Hl]. simpl in Hsz |- *.
    pose proof (seg_end _ _ _ _ _ Hs) as He. rewrite total_app in He. simpl in He.
    apply Forall_app in Hl as Hl'. destruct Hl' as [Hl' Hx].
    inversion_clear Hx as [|? ? [Hsz2 _] _]. simpl in Hsz2. pose proof (total_nonneg l Hl').
    unfold HDR in *. unfold nx. destruct (Z.eqb_spec (s + 32 + sz') e); [lia|].
    destruct (Z.eqb_spec (s + 32 + sz') 0); [lia|].
    rewrite (IH _ l); [|done|done|lia|simpl in Hf; lia]. f_equal. lia.
Qed.

(** Inside the heap the links do not depend on where the heap ends. *)
Lemma seg_extend m e e' s l mid :
  Forall blk_ok l → mid < e → e ≤ e' → seg m e s l mid → seg m e' s l mid.
Proof.
  revert s. induction l as [|[sz fr] l IH]; intros s Hok Hlt Hle; simpl; [done|].
  intros [Hb Hs]. inversion_clear Hok as [|? ? _ Hl].
  pose proof (seg_end _ _ _ _ _ Hs). pose proof (total_nonneg l Hl).
  split; [|by apply IH]. rewrite Hb. do 2 f_equal. unfold nx. zcase.
Qed.

(** Linking a block of size [sz] at the old end of the heap. *)
Lemma seg_relink m e e' s l szl frl sz :
  Forall blk_ok (l ++ [(szl, frl)]) → seg m e s (l ++ [(szl, frl)]) e →
  0 ≤ sz → e' = e + HDR + sz →
  seg (<[s + total l := mkBlk HEAP_MAGIC szl frl e]>
         (<[e := mkBlk HEAP_MAGIC sz 1 0]> m)) e' s
    ((l ++ [(szl, frl)]) ++ [(sz, 1)]) e'.
Proof.
  intros Hok Hs Hsz ->. pose proof (seg_end _ _ _ _ _ Hs) as He.
  rewrite total_app in He. simpl in He.
  apply Forall_app in Hok as [Hl Hx]. inversion_clear Hx as [|? ? [Hszl _] _]. simpl in Hszl.
  pose proof (total_nonneg l Hl). apply seg_app in Hs as [Hs [_ _]].
  rewrite <- app_assoc. unfold HDR in *. apply seg_app. split.
  - apply (seg_extend _ e); [done|lia|unfold HDR; lia|].
    eapply seg_frame; [done| |done]. intros a Ha. rewrite !lookup_insert_ne by lia. done.
  - simpl. unfold HDR. replace (s + total l + 32 + szl) with e by lia.
    rewrite lookup_insert_eq, lookup_insert_ne, lookup_insert_eq by lia.
    unfold nx. rewrite Z.eqb_refl. destruct (Z.eqb_spec e (e + 32 + sz)); [lia|]. done.
Qed.

(** What the pages mapped up to a new end [he] provide. *)
Definition grown (he : Z) (v : V) : Prop :=
  (4096 | he) ∧ he + 4096 * frames v < 2 ^ 64 ∧
  ∀ a, HEAP_START_VADDR ≤ a < he → is_mapped v a = true.

Lemma append_first h sz he v :
  heap_wf h [] → blk_ok (sz, 1) → he = current_heap_end h + HDR + sz → grown he v →
  heap_wf (mkHeap (<[current_heap_end h := mkBlk HEAP_MAGIC sz 1 0]> (hdrs h))
             (current_heap_end h) he (data h) v) [(sz, 1)].
Proof.
  intros [Hhd Hseg _ _ _ _] Hok Hhe (H4 & Hroom & Hmap). simpl in Hseg.
  destruct Hok as [Hsz ?]. simpl in Hsz. unfold HDR in *.
  constructor; cbn [current_heap_end heap_head hdrs vm]; try done.
  - unfold nx. rewrite Hseg. zcase.
  - simpl. unfold HDR. rewrite Hseg, lookup_insert_eq, <- Hhe. unfold nx.
    by rewrite Z.eqb_refl.
  - by apply Forall_singleton.
Qed.

Lemma append_next h l szl frl sz he v :
  heap_wf h (l ++ [(szl, frl)]) → blk_ok (sz, 1) →
  he = current_heap_end h + HDR + sz → grown he v →
  heap_wf (mkHeap (<[HEAP_START_VADDR + total l :=
                       mkBlk HEAP_MAGIC szl frl (current_heap_end h)]>
                     (<[current_heap_end h := mkBlk HEAP_MAGIC sz 1 0]> (hdrs h)))
             HEAP_START_VADDR he (data h) v) ((l ++ [(szl, frl)]) ++ [(sz, 1)]).
Proof.
  intros [Hhd Hseg Hblk _ _ _] Hok Hhe (H4 & Hroom & Hmap).
  pose proof (seg_end _ _ _ _ _ Hseg) as He. pose proof (total_nonneg _ Hblk).
  pose proof Hok as [Hsz _]. simpl in Hsz.
  constructor; cbn [current_heap_end heap_head hdrs vm]; try done.
  - unfold nx, HDR in *. zcase.
  - by apply seg_relink.
  - apply Forall_app. split; [done|]. by apply Forall_singleton.
Qed.

(** The pages [expand_heap] asks for hold the request and its header. *)
Lemma pages_needed_ok size :
  0 ≤ size ≤ 2 ^ 63 →
  let pages := (size + HDR) / 4096 + (if (size + HDR) mod 4096 =? 0 then 0 else 1) in
  size + HDR ≤ 4096 * pages ∧ 0 < pages ∧ 4096 * pages < 2 ^ 63 + 2 ^ 14.
Proof.
  intros Hs pages. unfold pages, HDR. destruct (Z.eqb_spec ((size + 32) mod 4096) 0); zdiv.
Qed.

(** [expand_heap] appends one free block that holds the request, or changes nothing
    and leaves nothing mapped. *)
Lemma expand_heap_ok h l size :
  heap_wf h l → 0 ≤ size ≤ 2 ^ 63 →
  ∃ r h', expand_heap size h = Ret (r, h') ∧ data h' = data h ∧
    ((r = 0 ∧ heap_wf h' l ∧ hdrs h' = hdrs h ∧
        ∀ a, is_mapped (vm h') a = true → is_mapped (vm h) a = true) ∨
     (r ≠ 0 ∧ ∃ sz, size ≤ sz ∧ heap_wf h' (l ++ [(sz, 1)]))).
Proof.
  intros Hwf Hsize. pose proof (walk_fuel_enough h l Hwf) as Hfuel.
  pose proof Hwf as [Hhd Hseg Hblk Hend Hroom Hmap].
  pose proof (seg_end _ _ _ _ _ Hseg) as He. pose proof (total_nonneg l Hblk) as Htn.
  unfold expand_heap. rewrite u64_id by (unfold HDR; lia).
  pose proof (pages_needed_ok size Hsize) as Hpg. cbv zeta in Hpg.
  set (pages := (size + HDR) / 4096 + _) in *. clearbody pages.
  assert (Hpos : 0 < HEAP_START_VADDR) by done.
  pose proof (map_pages_spec (Z.to_nat pages) (current_heap_end h) (current_heap_end h) (vm h)
                Hend Hend ltac:(lia) ltac:(lia) Hroom) as Hmp.
  destruct (map_pages _ _ _ (vm h)) as [[he|] v].
  - destruct Hmp as (Hhe & Hroom' & Hm'). rewrite Z2Nat.id in Hhe by lia.
    set (sz := pages * 4096 - HDR). unfold HDR in *.
    assert (Hsz : u64 sz = sz) by (apply u64_id; unfold sz; lia). rewrite Hsz.
    assert (Hb : blk_ok (sz, 1)).
    { split; [simpl; lia|]. split; [exists (pages * 256 - 2); simpl; lia|by right]. }
    assert (Hg : grown he v).
    { split; [rewrite Hhe; apply Z.divide_add_r; [done|by exists pages; lia]|].
      split; [done|]. intros a Ha. rewrite Hm'. destruct (Z.lt_ge_cases a (current_heap_end h)).
      - rewrite Hmap by lia. done.
      - rewrite bool_decide_true by lia. apply orb_true_r. }
    assert (l = [] ∨ ∃ l0 szl frl, l = l0 ++ [(szl, frl)]) as [->|(l0 & szl & frl & ->)].
    { destruct (decide (l = [])) as [|Hn]; [by left|right].
      destruct (exists_last Hn) as (l0 & [x y] & ->). by eauto. }
    + simpl in He. rewrite Hhd. unfold nx. rewrite He, Z.add_0_r, Z.eqb_refl. simpl.
      eexists _, _. split; [done|]. split; [done|]. right. split; [done|].
      exists sz. split; [lia|].
      replace HEAP_START_VADDR with (current_heap_end h) by lia.
      apply append_first; [done|done|unfold HDR; lia|done].
    + rewrite total_app in He. simpl in He. pose proof Hblk as Hb0.
      apply Forall_app in Hb0 as [Hl0 Hx]. inversion_clear Hx as [|? ? [Hszl _] _].
      pose proof (total_nonneg _ Hl0). simpl in Hszl. unfold HDR in He.
      assert (Hf : seg (<[current_heap_end h:=mkBlk HEAP_MAGIC sz 1 0]> (hdrs h))
                (current_heap_end h) HEAP_START_VADDR (l0 ++ [(szl, frl)]) (current_heap_end h)).
      { eapply seg_frame; [done| |done]. intros a Ha. by rewrite lookup_insert_ne by lia. }
      rewrite Hhd. unfold nx. destruct (Z.eqb_spec HEAP_START_VADDR (current_heap_end h)); [lia|].
      destruct (Z.eqb_spec HEAP_START_VADDR 0); [done|].
      rewrite (last_block_spec _ _ _ _ l0 szl frl Hblk Hf Hpos)
        by (rewrite length_app in Hfuel; lia).
      apply seg_app in Hf as [_ [Hb' _]]. simpl. unfold load. rewrite Hb'. simpl.
      eexists _, _. split; [done|]. split; [done|]. right. split; [lia|].
      exists sz. split; [lia|]. apply append_next; [done|done|unfold HDR; lia|done].
  - destruct Hmp as (Hroom' & k & Hk & Hm').
    eexists _, _. split; [done|]. split; [done|]. left. split; [done|]. split; [|split; [done|]].
    + constructor; cbn [current_heap_end heap_head hdrs vm]; try done.
      intros a Ha. rewrite Hm', bool_decide_false by lia. by apply Hmap.
    + cbn [vm]. intros a. rewrite Hm'. by case_bool_decide.
Qed.
(** The rounded request. *)
Definition round16 (size : Z) : Z := (size + 15) / 16 * 16.

Lemma round16_mask size :
  0 ≤ size ≤ 2 ^ 63 → Z.land (u64 (size + 15)) (u64 (Z.lnot 15)) = round16 size.
Proof.
  intros Hs. change (u64 (Z.lnot 15)) with (Z.ldiff (Z.ones 64) (Z.ones 4)).
  rewrite u64_id, land_high_mask by lia. done.
Qed.

Lemma round16_spec size :
  0 < size → size ≤ round16 size ≤ size + 15 ∧ (16 | round16 size) ∧
  round16 (round16 size) = round16 size.
Proof.
  intros Hs. unfold round16. split; [zdiv|]. split; [by eexists|].
  rewrite Z.add_comm, Z.div_add, (Z.div_small 15) by lia. done.
Qed.

(** The outcome of an allocation: a fresh block beside the others. *)
Definition allocated (size p : Z) (h' : heap V) (l : list (Z * Z)) : Prop :=
  ∃ sz l', heap_wf h' l' ∧ size ≤ sz ∧ (16 | p) ∧
    used HEAP_START_VADDR l' ≡ₚ (p, sz) :: used HEAP_START_VADDR l.

(** One pass of [kmalloc]: it takes a block that fits, or expands and tries again. *)
Lemma kmalloc_step f h l size0 :
  heap_wf h l → 0 < size0 ≤ 2 ^ 62 →
  (∃ p h', kmalloc (S f) size0 h = Ret (p, h') ∧ p ≠ 0 ∧ data h' = data h ∧
     allocated size0 p h' l) ∨
  (Forall (λ b, ¬ fits (round16 size0) b) l ∧
   kmalloc (S f) size0 h =
     ('(fresh, h) ← expand_heap (round16 size0) h;
      if fresh =? 0 then Ret (0, h) else kmalloc f (round16 size0) h)).
Proof.
  intros Hwf Hsz. pose proof (walk_fuel_enough h l Hwf) as Hfuel.
  pose proof Hwf as [Hhd Hseg Hblk Hend Hroom Hmap]. pose proof (frames_nonneg (vm h)).
  destruct (round16_spec size0) as (Hr & H16 & _); [lia|].
  cbn [kmalloc]. destruct (Z.eqb_spec size0 0); [lia|]. rewrite round16_mask by lia.
  rewrite Hhd.
  destruct (find_fit_spec (walk_fuel h) (hdrs h) _ HEAP_START_VADDR l (round16 size0) Hblk Hseg)
    as [(l1 & sz & l2 & -> & Hle & ->)|[Hno ->]]; [done|lia| |right; by split].
  left. destruct (take_block_spec _ _ _ l1 sz l2 (round16 size0) Hblk Hseg)
    as (m' & lm & sz' & Ht & Hle' & Hlm & Hs' & Hu & Htot); [done|lia|lia|done|].
  pose proof Hblk as Hb2. apply Forall_app in Hb2 as [Hl1 Hb2].
  inversion_clear Hb2 as [|? ? [Hszp _] Hl2]. simpl in Hszp.
  pose proof (total_nonneg _ Hl1). pose proof (total_nonneg _ Hl2).
  pose proof (seg_end _ _ _ _ _ Hseg) as He. rewrite total_app in He. simpl in He.
  cbn [mbind res_bind].
  destruct (Z.eqb_spec (HEAP_START_VADDR + total l1) 0); [unfold HEAP_START_VADDR in *; lia|].
  cbn [negb]. rewrite Ht. cbn [mbind res_bind]. unfold HDR in *.
  rewrite u64_id by (unfold HEAP_START_VADDR in *; lia).
  eexists _, _. split; [done|]. split; [unfold HEAP_START_VADDR in *; lia|]. split; [done|].
  exists sz', (l1 ++ lm ++ l2). split_and!; [|lia| |].
  - constructor; cbn [set_hdrs current_heap_end heap_head hdrs vm]; try done.
    by rewrite !Forall_app.
  - apply Z.divide_add_r; [|by exists 2]. apply Z.divide_add_r; [by exists (HEAP_START_VADDR / 16)|].
    by apply total_16.
  - rewrite !used_app. cbn [used]. rewrite Hu, Htot. change (1 =? 0) with false. unfold HDR.
    cbn [app]. rewrite Permutation_app_comm. simpl. rewrite Permutation_app_comm.
    by rewrite Z.add_assoc.
Qed.

Lemma kmalloc_ok f h l size :
  heap_wf h l → 0 < size ≤ 2 ^ 61 →
  ∃ p h', kmalloc (S (S f)) size h = Ret (p, h') ∧ data h' = data h ∧
    ((p = 0 ∧ heap_wf h' l ∧ hdrs h' = hdrs h ∧
        ∀ a, is_mapped (vm h') a = true → is_mapped (vm h) a = true) ∨
     (p ≠ 0 ∧ allocated size p h' l)).
Proof.
  intros Hwf Hsz. destruct (round16_spec size) as (Hr & _ & Hrr); [lia|].
  destruct (kmalloc_step (S f) h l size Hwf ltac:(lia)) as [(p & h' & Hk & ? & ? & ?)|[_ Hk]].
  { exists p, h'. split; [done|]. split; [done|]. by right. }
  rewrite Hk. clear Hk.
  destruct (expand_heap_ok h l (round16 size) Hwf ltac:(lia))
    as (r & h1 & -> & Hd & [(-> & ? & ? & ?)|(Hr0 & sz & Hle & Hwf1)]);
    cbn [mbind res_bind].
  { exists 0, h1. split; [done|]. split; [done|]. by left. }
  destruct (Z.eqb_spec r 0); [done|].
  destruct (kmalloc_step f h1 _ (round16 size) Hwf1 ltac:(lia))
    as [(p & h' & -> & Hp & Hd' & (sz' & l' & Hwf' & Hle' & H16 & Hu))|[Hno _]].
  - exists p, h'. split; [done|]. split; [congruence|]. right. split; [done|].
    exists sz', l'. split_and!; [done|lia|done|]. rewrite Hu, used_app. simpl.
    by rewrite app_nil_r.
  - apply Forall_app in Hno as [_ Hno]. inversion_clear Hno as [|? ? Hx _]. destruct Hx.
    rewrite Hrr. split; simpl; lia.
Qed.

(** The layout [kfree] leaves: runs of free blocks become one block. *)
Fixpoint merged (sz fr : Z) (l : list (Z * Z)) : list (Z * Z) :=
  match l with
  | [] => [(sz, fr)]
  | (s2, f2) :: l' =>
      if negb (fr =? 0) && negb (f2 =? 0) then merged (sz + (s2 + HDR)) fr l'
      else (sz, fr) :: merged s2 f2 l'
  end.

Lemma merged_spec s sz fr l :
  blk_ok (sz, fr) → Forall blk_ok l →
  Forall blk_ok (merged sz fr l) ∧ used s (merged sz fr l) = used s ((sz, fr) :: l) ∧
  no_adjacent_free (merged sz fr l).
Proof.
  revert s sz fr. induction l as [|[s2 f2] l IH]; intros s sz fr Hb Hl; cbn [merged].
  { split; [by apply Forall_singleton|]. by split. }
  inversion_clear Hl as [|? ? Hb2 Hl'].
  destruct (Z.eqb_spec fr 0) as [->|Hf]; [|destruct (Z.eqb_spec f2 0) as [->|Hf2]];
    cbn [andb negb].
  - destruct (IH (s + HDR + sz) s2 f2 Hb2 Hl') as (H1 & H2 & H3). split; [by constructor|].
    split; [simpl in *; by rewrite H2|].
    simpl. destruct (merged s2 f2 l) as [|[a b] r]; [done|]. split; [|done]. by intros [? _].
  - destruct (IH (s + HDR + sz) s2 0 Hb2 Hl') as (H1 & H2 & H3). split; [by constructor|].
    split; [simpl in *; by rewrite H2|].
    simpl. destruct l as [|[s3 f3] l]; simpl in *; (split; [|done]); by intros [_ ?].
  - destruct Hb as (Hs1 & Hd1 & Hf1), Hb2 as (Hs2 & Hd2 & Hf2'). simpl in *.
    destruct (IH s (sz + (s2 + HDR)) fr) as (H1 & H2 & H3); [|done|].
    { split; simpl; [unfold HDR; lia|]. split; [|done].
      apply Z.divide_add_r; [done|]. apply Z.divide_add_r; [done|by exists 2]. }
    split; [done|]. split; [|done]. rewrite H2. simpl.
    destruct (Z.eqb_spec fr 0); [done|]. destruct (Z.eqb_spec f2 0); [done|]. simpl.
    f_equal. lia.
Qed.

Lemma load_eq (m : gmap Z heap_block) a b : m !! a = Some b → load m a = Ret b.
Proof. unfold load. by intros ->. Qed.

Lemma coalesce_spec fuel m e s sz fr l :
  blk_ok (sz, fr) → Forall blk_ok l → seg m e s ((sz, fr) :: l) e → 0 < s → e < 2 ^ 64 →
  (length l + 1 < fuel)%nat →
  ∃ m', coalesce fuel m s = Ret m' ∧ seg m' e s (merged sz fr l) e ∧
    ∀ a, a < s → m' !! a = m !! a.
Proof.
  revert m s sz fr l. induction fuel as [|fuel IH];
    intros m s sz fr l Hb Hl Hseg Hpos He Hf; [lia|].
  destruct Hseg as [Hs Hseg]. destruct Hb as (Hsz & Hd & Hfr). simpl in Hsz, Hd, Hfr.
  pose proof (seg_end _ _ _ _ _ Hseg) as Hend. pose proof (total_nonneg l Hl).
  cbn [coalesce]. destruct (Z.eqb_spec s 0); [lia|]. rewrite (load_eq _ _ _ Hs).
  cbn [mbind res_bind magic blk_size is_free next].
  change (HEAP_MAGIC =? HEAP_MAGIC) with true. cbn [negb].
  destruct l as [|[s2 f2] l].
  { simpl in Hend. assert (nx e (s + HDR + sz) = 0) as Hn
      by (unfold nx; destruct (Z.eqb_spec (s + HDR + sz) e); lia).
    rewrite Hn, andb_false_r. destruct fuel as [|fuel]; [simpl in Hf; lia|].
    exists m. split; [done|]. split; [|done]. by split; [rewrite Hs|]. }
  inversion_clear Hl as [|? ? Hb2 Hl']. pose proof Hb2 as [Hs2 _]. simpl in Hend, Hs2.
  pose proof (total_nonneg l Hl'). pose proof Hseg as [Hn2 Hseg2].
  assert (nx e (s + HDR + sz) = s + HDR + sz) as Hn
    by (unfold nx, HDR in *; destruct (Z.eqb_spec (s + 32 + sz) e); lia).
  rewrite Hn. unfold HDR in *. rewrite u64_id by lia.
  assert (Hadv : ∃ m', coalesce fuel m (s + 32 + sz) = Ret m' ∧
            seg m' e s ((sz, fr) :: merged s2 f2 l) e ∧ ∀ a, a < s → m' !! a = m !! a).
  { destruct (IH m (s + 32 + sz) s2 f2 l) as (m' & Hc & Hs' & Hlow);
      [done|done|done|lia|lia|simpl in Hf; lia|].
    exists m'. split; [done|]. split; [|intros; apply Hlow; lia].
    split; [rewrite Hlow by lia; done|done]. }
  cbn [merged]. destruct (Z.eqb_spec fr 0); [done|]. cbn [negb andb].
  destruct (Z.eqb_spec (s + 32 + sz) 0); [lia|]. rewrite (load_eq _ _ _ Hn2).
  cbn [mbind res_bind magic blk_size is_free next negb]. rewrite Z.eqb_refl.
  destruct (Z.eqb_spec f2 0); [done|]. cbn [negb andb]. clear Hadv. unfold HDR.
  rewrite u64_id by lia.
  destruct (IH (<[s := mkBlk HEAP_MAGIC (sz + (s2 + 32)) fr (nx e (s + 32 + sz + 32 + s2))]> m)
              s (sz + (s2 + 32)) fr l) as (m' & Hc & Hs' & Hlow);
    [|done| |done|done|simpl in Hf; lia|].
  { split; simpl; [lia|]. split; [|done]. destruct Hb2 as (_ & Hd2 & _). simpl in Hd2.
    apply Z.divide_add_r; [done|]. apply Z.divide_add_r; [done|by exists 2]. }
  { unfold HDR. cbn [seg]. unfold HDR.
    replace (s + 32 + (sz + (s2 + 32))) with (s + 32 + sz + 32 + s2) by lia.
    rewrite lookup_insert_eq. split; [done|].
    eapply seg_frame; [done| |exact Hseg2]. intros a Ha. by rewrite lookup_insert_ne by lia. }
  exists m'. split; [done|]. split; [done|]. intros a Ha. rewrite Hlow by done.
  by rewrite lookup_insert_ne by lia.
Qed.

(** Freeing an allocated block. *)
Definition freed (p sz : Z) (h' : heap V) (l : list (Z * Z)) : Prop :=
  ∃ l', heap_wf h' l' ∧ (p, sz) :: used HEAP_START_VADDR l' ≡ₚ used HEAP_START_VADDR l ∧
    no_adjacent_free l'.

(** Marking an allocated block free. *)
Lemma mark_free m e l1 sz l2 :
  let a := HEAP_START_VADDR + total l1 in
  Forall blk_ok (l1 ++ (sz, 0) :: l2) →
  seg m e HEAP_START_VADDR (l1 ++ (sz, 0) :: l2) e →
  let l := l1 ++ [(sz, 1)] ++ l2 in
  m !! a = Some (mkBlk HEAP_MAGIC sz 0 (nx e (a + HDR + sz))) ∧
  seg (<[a := mkBlk HEAP_MAGIC sz 1 (nx e (a + HDR + sz))]> m) e HEAP_START_VADDR l e ∧
  Forall blk_ok l ∧
  (a + HDR, sz) :: used HEAP_START_VADDR l ≡ₚ used HEAP_START_VADDR (l1 ++ (sz, 0) :: l2).
Proof.
  intros a Hblk Hseg l. pose proof Hblk as Hb. apply Forall_app in Hb as [Hl1 Hb].
  inversion_clear Hb as [|? ? (Hsz & Hd & _) Hl2]. simpl in Hsz, Hd. split_and!.
  - by apply seg_app in Hseg as [_ [Ha _]].
  - apply (seg_replace m _ _ _ l1 sz 0); [done|done|done|done| |].
    + intros y Hy. fold a in Hy. unfold HDR in *. by rewrite lookup_insert_ne by lia.
    + fold a. simpl. by rewrite lookup_insert_eq.
  - unfold l. rewrite !Forall_app, Forall_singleton. split_and!; [done| |done].
    by split; [|split; [|right]].
  - unfold l. rewrite !used_app. fold a. simpl. rewrite Z.add_0_r, Z.add_assoc.
    apply Permutation_middle.
Qed.

Lemma kfree_ok h l p sz :
  heap_wf h l → (p, sz) ∈ used HEAP_START_VADDR l →
  ∃ h', kfree p h = Ret h' ∧ data h' = data h ∧ freed p sz h' l.
Proof.
  intros Hwf Hin. pose proof (walk_fuel_enough h l Hwf) as Hfuel.
  pose proof Hwf as [Hhd Hseg Hblk Hend Hroom Hmap]. pose proof (frames_nonneg (vm h)).
  destruct (used_split _ _ _ _ Hin) as (l1 & l2 & -> & ->).
  pose proof (used_range _ _ _ _ Hblk Hin) as Hr.
  pose proof (seg_end _ _ _ _ _ Hseg) as He.
  assert (Hpos : 0 < HEAP_START_VADDR) by done.
  destruct (mark_free _ _ l1 sz l2 Hblk Hseg) as (Ha & Hseg1 & Hblk1 & Hused).
  set (a := HEAP_START_VADDR + total l1) in *. unfold HDR in Hr.
  unfold kfree. destruct (Z.eqb_spec (a + HDR) 0); [unfold HDR in *; lia|].
  replace (a + HDR - HDR) with a by lia. rewrite (u64_id a) by lia.
  rewrite (load_eq _ _ _ Ha). cbn [mbind res_bind magic blk_size next].
  change (HEAP_MAGIC =? HEAP_MAGIC) with true. cbn [negb].
  set (m1 := <[a := _]> (hdrs h)) in *. clearbody m1.
  assert (Hlen : length (l1 ++ [(sz, 1)] ++ l2) = length (l1 ++ (sz, 0) :: l2))
    by (by rewrite !length_app).
  destruct (l1 ++ [(sz, 1)] ++ l2) as [|[s1 f1] lr]; [by destruct l1|].
  inversion_clear Hblk1 as [|? ? Hb1 Hlr]. simpl in Hlen.
  assert (heap_head h = HEAP_START_VADDR) as ->.
  { rewrite Hhd. unfold nx. zcase. }
  destruct (coalesce_spec (walk_fuel h) m1 _ _ s1 f1 lr Hb1 Hlr Hseg1 Hpos)
    as (m' & -> & Hs' & _); [lia|lia|].
  cbn [mbind res_bind]. eexists. split; [done|]. split; [done|].
  destruct (merged_spec HEAP_START_VADDR s1 f1 lr Hb1 Hlr) as (Hm1 & Hm2 & Hm3).
  exists (merged s1 f1 lr). split_and!; [|by rewrite Hm2|done].
  constructor; cbn [set_hdrs current_heap_end heap_head hdrs vm]; done.
Qed.

(** Two allocated blocks at different addresses do not overlap. *)
Lemma used_apart l p sz p' sz' :
  Forall blk_ok l → (p, sz) ∈ used HEAP_START_VADDR l →
  (p', sz') ∈ used HEAP_START_VADDR l → p ≠ p' → p + sz + HDR ≤ p' ∨ p' + sz' + HDR ≤ p.
Proof.
  intros Hok [i Hi]%list_elem_of_lookup [j Hj]%list_elem_of_lookup Hne.
  destruct (Nat.lt_trichotomy i j) as [Hij|[->|Hij]].
  - left. exact (used_disjoint _ _ i j _ _ _ _ Hok Hij Hi Hj).
  - congruence.
  - right. exact (used_disjoint _ _ j i _ _ _ _ Hok Hij Hj Hi).
Qed.

Lemma used_16 l p sz :
  Forall blk_ok l → (p, sz) ∈ used HEAP_START_VADDR l → (16 | p).
Proof.
  intros Hok (l1 & l2 & -> & ->)%used_split. apply Forall_app in Hok as [H1 _].
  apply Z.divide_add_r; [|by exists 2].
  apply Z.divide_add_r; [by exists (HEAP_START_VADDR / 16)|by apply total_16].
Qed.

Lemma used_NoDup s l : Forall blk_ok l → NoDup (used s l).*1.
Proof.
  intros Hok. revert s. induction Hok as [|[sz fr] l [Hs _] Hok IH]; intros s; simpl.
  { constructor. }
  destruct (fr =? 0); [|apply IH]. simpl. constructor; [|apply IH].
  intros ([p q] & Hp & Hin)%list_elem_of_fmap. simpl in Hp. subst p.
  apply used_range in Hin; [|done]. simpl in Hs. unfold HDR in *. lia.
Qed.

Lemma krealloc_ok f h l p sz old new :
  heap_wf h l → (p, sz) ∈ used HEAP_START_VADDR l → 0 ≤ old ≤ sz → 0 < new ≤ 2 ^ 61 →
  ∃ q h', krealloc (S (S f)) p old new h = Ret (q, h') ∧
    ((q = 0 ∧ heap_wf h' l ∧ data h' = data h) ∨
     (q ≠ 0 ∧ (∀ i, 0 ≤ i < Z.min old new → data h' (q + i) = data h (p + i)) ∧
      ∃ sz' l', heap_wf h' l' ∧ new ≤ sz' ∧
        (p, sz) :: used HEAP_START_VADDR l' ≡ₚ (q, sz') :: used HEAP_START_VADDR l)).
Proof.
  intros Hwf Hin Hold Hnew. pose proof (used_range _ _ _ _ (wf_blk _ _ Hwf) Hin) as Hr.
  unfold krealloc. destruct (Z.eqb_spec new 0); [lia|].
  destruct (Z.eqb_spec p 0); [unfold HEAP_START_VADDR, HDR in *; lia|].
  destruct (kmalloc_ok f h l new Hwf Hnew)
    as (q & h1 & -> & Hd & [(-> & Hwf1 & _ & _)|(Hq & sz' & l' & Hwf1 & Hle & _ & Hu)]);
    cbn [mbind res_bind].
  { exists 0, h1. split; [done|]. by left. }
  destruct (Z.eqb_spec q 0); [done|]. set (c := if old <? new then old else new).
  assert (Hc : c = Z.min old new) by (unfold c; destruct (Z.ltb_spec old new); lia).
  assert (Hp : (p, sz) ∈ used HEAP_START_VADDR l') by (rewrite Hu; by right).
  assert (Hqin : (q, sz') ∈ used HEAP_START_VADDR l') by (rewrite Hu; by left).
  assert (Hpq : p ≠ q).
  { pose proof (used_NoDup HEAP_START_VADDR l' (wf_blk _ _ Hwf1)) as Hnd.
    rewrite Hu in Hnd. inversion_clear Hnd as [|? ? Hnot _]. intros ->.
    apply Hnot, (list_elem_of_fmap_2 fst _ _ Hin). }
  pose proof (used_apart l' p sz q sz' (wf_blk _ _ Hwf1) Hp Hqin Hpq) as Hsep.
  unfold HDR in Hsep. pose proof (memcpy_moved q p c (data h1) ltac:(lia) ltac:(lia)) as Hmv.
  set (d' := (memcpy q p c (data h1)).2) in *.
  set (h2 := mkHeap (hdrs h1) (heap_head h1) (current_heap_end h1) d' (vm h1)).
  assert (Hwf2 : heap_wf h2 l') by (by destruct Hwf1).
  destruct (kfree_ok h2 l' p sz Hwf2 Hp) as (h3 & -> & Hd3 & l3 & Hwf3 & Hu3 & _).
  cbn [mbind res_bind]. exists q, h3. split; [done|]. right. split; [done|]. split.
  - intros i Hi. rewrite Hd3. simpl. rewrite (Hmv (q + i)), Hd.
    replace (_ && _) with true by lia. f_equal. lia.
  - exists sz', l3. split_and!; [done|lia|]. by rewrite Hu3.
Qed.

(** ** Sequences of heap calls *)

(** A heap and the blocks its callers hold, as (pointer, requested size). *)
Inductive heap_reach : heap V → list (Z * Z) → Prop :=
  | reach_boot h : heap_wf h [] → heap_reach h []
  | reach_kmalloc h live size p h' :
      heap_reach h live → 0 < size ≤ 2 ^ 61 → kmalloc 2 size h = Ret (p, h') → p ≠ 0 →
      heap_reach h' ((p, size) :: live)
  | reach_kmalloc_null h live size h' :
      heap_reach h live → 0 < size ≤ 2 ^ 61 → kmalloc 2 size h = Ret (0, h') →
      heap_reach h' live
  | reach_kfree h l1 p size l2 h' :
      heap_reach h (l1 ++ (p, size) :: l2) → kfree p h = Ret h' →
      heap_reach h' (l1 ++ l2)
  | reach_krealloc h l1 p size l2 old new q h' :
      heap_reach h (l1 ++ (p, size) :: l2) → 0 ≤ old ≤ size → 0 < new ≤ 2 ^ 61 →
      krealloc 2 p old new h = Ret (q, h') → q ≠ 0 →
      heap_reach h' ((q, new) :: l1 ++ l2)
  | reach_krealloc_null h l1 p size l2 old new h' :
      heap_reach h (l1 ++ (p, size) :: l2) → 0 ≤ old ≤ size → 0 < new ≤ 2 ^ 61 →
      krealloc 2 p old new h = Ret (0, h') →
      heap_reach h' (l1 ++ (p, size) :: l2)
  | reach_write h live d :
      heap_reach h live →
      heap_reach (mkHeap (hdrs h) (heap_head h) (current_heap_end h) d (vm h)) live.

(** A block held is an allocated block of at least the requested size. *)
Definition held (b u : Z * Z) : Prop := b.1 = u.1 ∧ b.2 ≤ u.2.

(** The callers' view of a heap: [us] are the allocated blocks, in the callers' order. *)
Definition held_as (h : heap V) (live l us : list (Z * Z)) : Prop :=
  heap_wf h l ∧ us ≡ₚ used HEAP_START_VADDR l ∧ Forall2 held live us.

Lemma held_at h live l us i p sz :
  held_as h live l us → live !! i = Some (p, sz) →
  ∃ sz', us !! i = Some (p, sz') ∧ sz ≤ sz' ∧ (p, sz') ∈ used HEAP_START_VADDR l.
Proof.
  intros (_ & Hus & Hh) Hi.
  destruct (Forall2_lookup_l _ _ _ _ _ Hh Hi) as ([q s] & Hq & [Hpq Hle]). simpl in *. subst q.
  exists s. split_and!; [done|done|]. rewrite <- Hus. by eapply list_elem_of_lookup_2.
Qed.

(** Taking a block away from its holder. *)
Lemma held_drop h l1 p size l2 l us :
  held_as h (l1 ++ (p, size) :: l2) l us →
  ∃ sz us', (p, sz) ∈ used HEAP_START_VADDR l ∧ size ≤ sz ∧ us ≡ₚ (p, sz) :: us' ∧
    Forall2 held (l1 ++ l2) us'.
Proof.
  intros (Hwf & Hus & Hh). apply Forall2_app_inv_l in Hh as (u1 & u2 & H1 & H2 & ->).
  inversion H2 as [|? [q sz] ? u2' [Hq Hle] H2' E1]; subst. simpl in Hq, Hle. subst q.
  exists sz, (u1 ++ u2'). split_and!; [|done| |by apply Forall2_app].
  - rewrite <- Hus. apply elem_of_app. right. left.
  - symmetry. apply Permutation_middle.
Qed.

Lemma heap_reach_inv h live :
  heap_reach h live → ∃ l us, held_as h live l us.
Proof.
  induction 1 as [h Hwf|h live size p h' _ (l & us & Hwf & Hus & Hh) Hsz Hk Hp
    |h live size h' _ (l & us & Hwf & Hus & Hh) Hsz Hk
    |h l1 p size l2 h' _ (l & us & Hl) Hk
    |h l1 p size l2 old new q h' _ (l & us & Hl) Hold Hnew Hk Hq
    |h l1 p size l2 old new h' _ (l & us & Hl) Hold Hnew Hk
    |h live d _ (l & us & Hwf & Hus & Hh)].
  - exists [], []. by split.
  - destruct (kmalloc_ok 0 h l size Hwf Hsz) as (q & h1 & Hk' & _ & Hr).
    rewrite Hk in Hk'. injection Hk' as <- <-.
    destruct Hr as [[? _]|(_ & sz & l' & Hwf' & Hle & _ & Hu)]; [done|].
    exists l', ((p, sz) :: us). split; [done|]. split; [by rewrite Hu, Hus|].
    constructor; [|done]. by split.
  - destruct (kmalloc_ok 0 h l size Hwf Hsz) as (q & h1 & Hk' & _ & Hr).
    rewrite Hk in Hk'. injection Hk' as <- <-.
    destruct Hr as [(_ & Hwf' & _)|[? _]]; [|done]. by exists l, us.
  - destruct (held_drop _ _ _ _ _ _ _ Hl) as (sz & us' & Hin & _ & Hp & Hh). destruct Hl as (Hwf & Hus & _).
    destruct (kfree_ok h l p sz Hwf Hin) as (h1 & Hk' & _ & l' & Hwf' & Hu & _).
    rewrite Hk in Hk'. injection Hk' as <-. exists l', us'. split; [done|]. split; [|done].
    apply (Permutation_cons_inv (a := (p, sz))). by rewrite Hu, <- Hus.
  - destruct (held_drop _ _ _ _ _ _ _ Hl) as (sz & us' & Hin & ? & Hp & Hh). destruct Hl as (Hwf & Hus & _).
    destruct (krealloc_ok 0 h l p sz old new Hwf Hin ltac:(lia) Hnew) as (q' & h1 & Hk' & Hr).
    rewrite Hk in Hk'. injection Hk' as <- <-.
    destruct Hr as [[? _]|(_ & _ & sz' & l' & Hwf' & Hle & Hu)]; [done|].
    exists l', ((q, sz') :: us'). split; [done|]. split; [|by constructor].
    apply (Permutation_cons_inv (a := (p, sz))). rewrite Hu, <- Hus, Hp. constructor.
  - destruct (held_drop _ _ _ _ _ _ _ Hl) as (sz & us' & Hin & ? & _). destruct Hl as (Hwf & Hus & Hh).
    destruct (krealloc_ok 0 h l p sz old new Hwf Hin ltac:(lia) Hnew) as (q' & h1 & Hk' & Hr).
    rewrite Hk in Hk'. injection Hk' as <- <-. destruct Hr as [(_ & Hwf' & _)|[? _]]; [|done].
    by exists l, us.
  - exists l, us. split; [by destruct Hwf|done].
Qed.

Lemma live_apart h live i j p sz p' sz' :
  heap_reach h live → i ≠ j → live !! i = Some (p, sz) → live !! j = Some (p', sz') →
  p + sz + HDR ≤ p' ∨ p' + sz' + HDR ≤ p.
Proof.
  intros (l & us & Hl)%heap_reach_inv Hij Hi Hj.
  destruct (held_at _ _ _ _ _ _ _ Hl Hi) as (s & Hqi & Hs & Hin).
  destruct (held_at _ _ _ _ _ _ _ Hl Hj) as (s' & Hqj & Hs' & Hin').
  destruct Hl as (Hwf & Hus & _). pose proof (wf_blk _ _ Hwf) as Hok.
  pose proof (used_NoDup HEAP_START_VADDR l Hok) as Hnd. rewrite <- Hus in Hnd.
  assert (Hne : p ≠ p').
  { intros ->. apply Hij. eapply NoDup_lookup; [exact Hnd| |];
      rewrite list_lookup_fmap; [by rewrite Hqi|by rewrite Hqj]. }
  destruct (used_apart l p s p' s' Hok Hin Hin' Hne); lia.
Qed.

(** ** Theorems *)

(** C8: In every state reached from boot by any sequence of [kmalloc], [kfree], [krealloc]
    and writes to payloads, the blocks the callers hold are aligned to 16 bytes, lie inside
    the heap on mapped pages, and are pairwise disjoint, with room for the header of the
    later one in between; and the next [kmalloc], or [kfree] or [krealloc] of a held block,
    returns: no panic, no fault, no endless loop. *)
Theorem heap_blocks_disjoint h live :
  heap_reach h live →
  (∀ i j p sz p' sz', i ≠ j → live !! i = Some (p, sz) → live !! j = Some (p', sz') →
     p + sz + HDR ≤ p' ∨ p' + sz' + HDR ≤ p) ∧
  (∀ p sz, (p, sz) ∈ live → (16 | p) ∧ ∀ a, p ≤ a < p + sz → is_mapped (vm h) a = true) ∧
  (∀ size, 0 < size ≤ 2 ^ 61 → ∃ p h', kmalloc 2 size h = Ret (p, h')) ∧
  (∀ p sz, (p, sz) ∈ live →
     (∃ h', kfree p h = Ret h') ∧
     ∀ old new, 0 ≤ old ≤ sz → 0 < new ≤ 2 ^ 61 → ∃ q h', krealloc 2 p old new h = Ret (q, h')).
Proof.
  intros Hr. split; [intros; by eapply (live_apart h live)|].
  destruct (heap_reach_inv h live Hr) as (l & us & Hl). pose proof Hl as (Hwf & _).
  split_and!.
  - intros p sz [i Hi]%list_elem_of_lookup.
    destruct (held_at _ _ _ _ _ _ _ Hl Hi) as (sz' & _ & Hle & Hin).
    split; [eapply used_16; [apply Hwf|done]|]. intros a Ha. apply (wf_mapped _ _ Hwf).
    rewrite (seg_end _ _ _ _ _ (wf_seg _ _ Hwf)).
    apply used_range in Hin; [|apply Hwf]. unfold HDR in *. lia.
  - intros size Hs. destruct (kmalloc_ok 0 h l size Hwf Hs) as (p & h' & ? & _). by exists p, h'.
  - intros p sz [i Hi]%list_elem_of_lookup.
    destruct (held_at _ _ _ _ _ _ _ Hl Hi) as (sz' & _ & Hle & Hin). split.
    + destruct (kfree_ok h l p sz' Hwf Hin) as (h' & ? & _). by exists h'.
    + intros old new Hold Hnew.
      destruct (krealloc_ok 0 h l p sz' old new Hwf Hin ltac:(lia) Hnew) as (q & h' & ? & _).
      by exists q, h'.
Qed.

(** On a well-formed heap [kmalloc] returns: either [NULL], with the heap and the
    set of mapped pages as before (a failed expansion is rolled back), or a 16-byte
    aligned block of at least the requested size, which becomes allocated beside the
    blocks that were, none of which moves or changes size.  One expansion is enough:
    the recursion is at most two deep. *)
Theorem kmalloc_spec f h l size :
  heap_wf h l → 0 < size ≤ 2 ^ 61 →
  ∃ p h', kmalloc (S (S f)) size h = Ret (p, h') ∧ data h' = data h ∧
    ((p = 0 ∧ heap_wf h' l ∧ hdrs h' = hdrs h ∧
        ∀ a, is_mapped (vm h') a = true → is_mapped (vm h) a = true) ∨
     (p ≠ 0 ∧ allocated size p h' l)).
Proof. apply kmalloc_ok. Qed.

(** Freeing an allocated block succeeds, makes exactly that block free, and leaves
    no two neighbouring free blocks: the coalescing loop merges every run. *)
Theorem kfree_spec h l p sz :
  heap_wf h l → (p, sz) ∈ used HEAP_START_VADDR l →
  ∃ h', kfree p h = Ret h' ∧ data h' = data h ∧
    ∃ l', heap_wf h' l' ∧ (p, sz) :: used HEAP_START_VADDR l' ≡ₚ used HEAP_START_VADDR l ∧
      no_adjacent_free l'.
Proof. apply kfree_ok. Qed.

(** [krealloc] of an allocated block either returns [NULL] and leaves the block
    and all bytes as they were, or returns a block of the new size that holds the old
    contents up to the smaller size, with the old block freed. *)
Theorem krealloc_spec f h l p sz old new :
  heap_wf h l → (p, sz) ∈ used HEAP_START_VADDR l → 0 ≤ old ≤ sz → 0 < new ≤ 2 ^ 61 →
  ∃ q h', krealloc (S (S f)) p old new h = Ret (q, h') ∧
    ((q = 0 ∧ heap_wf h' l ∧ data h' = data h) ∨
     (q ≠ 0 ∧ (∀ i, 0 ≤ i < Z.min old new → data h' (q + i) = data h (p + i)) ∧
      ∃ sz' l', heap_wf h' l' ∧ new ≤ sz' ∧
        (p, sz) :: used HEAP_START_VADDR l' ≡ₚ (q, sz') :: used HEAP_START_VADDR l)).
Proof. apply krealloc_ok. Qed.
End vm.

(** ** A page source *)

(** A number of free frames and the set of mapped page numbers. *)
Definition arena : Type := nat * gset Z.

#[global] Instance arena_ops : PageOps arena := {
  vmm_alloc_page_kernel va fl v :=
    match v.1 with
    | O => (false, v)
    | S n => (true, (n, {[va / 4096]} ∪ v.2))
    end;
  vmm_unmap_free va v :=
    if bool_decide (va / 4096 ∈ v.2) then (S v.1, v.2 ∖ {[va / 4096]}) else v;
  is_mapped v a := bool_decide (a / 4096 ∈ v.2);
  frames v := Z.of_nat v.1;
}.

#[global] Instance arena_source : PageSource arena.
Proof.
  constructor; unfold frames, is_mapped; simpl.
  - intros. lia.
  - intros va _ [[|n] s] v' E; simplify_eq/=. split; [lia|]. intros a.
    destruct (Z.eqb_spec (a / 4096) (va / 4096));
      [apply bool_decide_true|apply bool_decide_ext]; set_solver.
  - intros va _ [[|n] s] v' E; simplify_eq/=. split; [lia|done].
  - intros va [n s]. simpl. case_bool_decide; simpl; (split; [lia|]); intros a;
      destruct (Z.eqb_spec (a / 4096) (va / 4096)) as [->|]; try done;
      [apply bool_decide_false|apply bool_decide_ext|apply bool_decide_false]; set_solver.
Qed.

Definition boot_heap : heap arena :=
  mkHeap ∅ 0 HEAP_START_VADDR (λ _, 0) (4%nat, ∅).

Lemma boot_heap_wf : heap_wf boot_heap [].
Proof.
  constructor; try done; simpl.
  - by exists (HEAP_START_VADDR / 4096).
  - intros a Ha. lia.
Qed.

(** The heap after one allocation of 100 bytes. *)
Definition heap_100 : heap arena :=
  mkHeap {[ HEAP_START_VADDR := mkBlk HEAP_MAGIC 112 0 (HEAP_START_VADDR + 144);
            HEAP_START_VADDR + 144 := mkBlk HEAP_MAGIC 3920 1 0 ]}
    HEAP_START_VADDR (HEAP_START_VADDR + 4096) (λ _, 0)
    (3%nat, {[HEAP_START_VADDR / 4096]}).

Lemma heap_100_wf : heap_wf heap_100 [(112, 0); (3920, 1)].
Proof.
  constructor; try done; simpl.
  - constructor; [|constructor; [|by constructor]]; (split; [done|]).
    + split; [by exists 7|by left].
    + split; [by exists 245|by right].
  - by exists (HEAP_START_VADDR / 4096 + 1).
  - unfold is_mapped. simpl. intros a Ha. apply bool_decide_true, elem_of_singleton.
    unfold HEAP_START_VADDR in *. zdiv.
Qed.

Lemma heap_blocks_disjoint_witness :
  ∃ p h', kmalloc 2 64 boot_heap = Ret (p, h').
Proof.
  apply (heap_blocks_disjoint boot_heap []); [|lia]. constructor. exact boot_heap_wf.
Defined.

Lemma kmalloc_spec_witness :
  ∃ p h', kmalloc 2 100 boot_heap = Ret (p, h') ∧ data h' = data boot_heap.
Proof.
  destruct (kmalloc_spec 0 boot_heap [] 100 boot_heap_wf) as (p & h' & H & Hd & _); [lia|].
  exists p, h'. split; [exact H|exact Hd].
Defined.

Lemma kfree_spec_witness :
  ∃ h', kfree (HEAP_START_VADDR + 32) heap_100 = Ret h' ∧ data h' = data heap_100.
Proof.
  destruct (kfree_spec heap_100 [(112, 0); (3920, 1)] (HEAP_START_VADDR + 32) 112 heap_100_wf)
    as (h' & H & Hd & _); [left|].
  exists h'. split; [exact H|exact Hd].
Defined.

Lemma krealloc_spec_witness :
  ∃ q h', krealloc 2 (HEAP_START_VADDR + 32) 100 200 heap_100 = Ret (q, h').
Proof.
  destruct (krealloc_spec 0 heap_100 [(112, 0); (3920, 1)] (HEAP_START_VADDR + 32) 112 100 200
              heap_100_wf) as (q & h' & H & _); [left|lia|lia|].
  exists q, h'. exact H.
Defined.
