(* ===== verification/KzTime.v ===== *)
(** [libs/time/src/kztime.c]: civil time, POSIX time-zone rules, formatting and
    the [/time.ui] preference record.

    The file is pure integer code, so each C function is a Rocq function on [Z].
    C division truncates: [/] and [%] are [Z.quot] and [Z.rem], and the casts to
    [int32_t] the source writes are [i32], and so is the arithmetic on the [int32_t]
    values the rule parser accumulates, whose size the text does not bound.  Other
    signed arithmetic is not wrapped; the theorems state the ranges.

    A C string is the list of its characters before the terminator, so that
    [*s] is [chr s] and [s++] is [tail s].  An output buffer is the whole array
    with the index of the next character. *)

From S2P Require Import Prelude.
From Stdlib Require Import String Ascii.

Open Scope Z_scope.

(** ** Strings *)
Definition cs (s : string) : list Z :=
  map (λ c, Z.of_N (N_of_ascii c)) (list_ascii_of_string s).
Definition chr (s : list Z) : Z := match s with [] => 0 | c :: _ => c end.

(** ** The zone table *)
Record kz_zone := mkZone { z_id : string; z_label : string; z_rule : string }.

Definition g_zones : list kz_zone := [
  mkZone "Asia/Jakarta" "Jakarta" "WIB-7";
  mkZone "Asia/Makassar" "Makassar" "WITA-8";
  mkZone "Asia/Jayapura" "Jayapura" "WIT-9";
  mkZone "Asia/Singapore" "Singapore" "SGT-8";
  mkZone "Asia/Tokyo" "Tokyo" "JST-9";
  mkZone "Asia/Seoul" "Seoul" "KST-9";
  mkZone "Asia/Shanghai" "Shanghai" "CST-8";
  mkZone "Asia/Kolkata" "New Delhi" "IST-5:30";
  mkZone "Asia/Dubai" "Dubai" "GST-4";
  mkZone "Europe/Istanbul" "Istanbul" "TRT-3";
  mkZone "Europe/Moscow" "Moscow" "MSK-3";
  mkZone "Europe/Berlin" "Berlin" "CET-1CEST,M3.5.0,M10.5.0/3";
  mkZone "Europe/Paris" "Paris" "CET-1CEST,M3.5.0,M10.5.0/3";
  mkZone "Europe/Rome" "Rome" "CET-1CEST,M3.5.0,M10.5.0/3";
  mkZone "Europe/Madrid" "Madrid" "CET-1CEST,M3.5.0,M10.5.0/3";
  mkZone "Europe/Amsterdam" "Amsterdam" "CET-1CEST,M3.5.0,M10.5.0/3";
  mkZone "Europe/London" "London" "GMT0BST,M3.5.0/1,M10.5.0/2";
  mkZone "Europe/Lisbon" "Lisbon" "WET0WEST,M3.5.0/1,M10.5.0/2";
  mkZone "America/New_York" "New York" "EST5EDT,M3.2.0,M11.1.0";
  mkZone "America/Chicago" "Chicago" "CST6CDT,M3.2.0,M11.1.0";
  mkZone "America/Denver" "Denver" "MST7MDT,M3.2.0,M11.1.0";
  mkZone "America/Los_Angeles" "Los Angeles" "PST8PDT,M3.2.0,M11.1.0";
  mkZone "America/Sao_Paulo" "Sao Paulo" "BRT3";
  mkZone "America/Mexico_City" "Mexico City" "CST6";
  mkZone "Africa/Cairo" "Cairo" "EET-2EEST,M4.5.5/0,M10.5.4/24";
  mkZone "Africa/Johannesburg" "Johannesburg" "SAST-2";
  mkZone "Africa/Lagos" "Lagos" "WAT-1";
  mkZone "Asia/Karachi" "Karachi" "PKT-5";
  mkZone "Australia/Sydney" "Sydney" "AEST-10AEDT,M10.1.0,M4.1.0/3";
  mkZone "Australia/Perth" "Perth" "AWST-8";
  mkZone "Pacific/Auckland" "Auckland" "NZST-12NZDT,M9.5.0,M4.1.0/3";
  mkZone "UTC" "UTC" "UTC0"
].

Definition kz_zone_table : list kz_zone * Z := (g_zones, zlength g_zones).

(** [while (a[k] && b[k] && a[k] == b[k]) k++; a[k] == 0 && b[k] == 0] *)
Fixpoint id_match (a b : list Z) : bool :=
  match a, b with
  | [], [] => true
  | x :: a', y :: b' => if x =? y then id_match a' b' else false
  | _, _ => false
  end.

Fixpoint zone_find_from (i : Z) (zs : list kz_zone) (id : list Z) : Z :=
  match zs with
  | [] => -1
  | z :: zs' => if id_match (cs (z_id z)) id then i else zone_find_from (i + 1) zs' id
  end.

Definition kz_zone_find (id : option (list Z)) : Z :=
  match id with None => -1 | Some id => zone_find_from 0 g_zones id end.

Definition kz_zone_default : Z := 0.

(** ** Calendar *)
Definition kz_is_leap (y : Z) : bool :=
  ((Z.rem y 4 =? 0) && negb (Z.rem y 100 =? 0)) || (Z.rem y 400 =? 0).

Definition month_days : list Z := [31;28;31;30;31;30;31;31;30;31;30;31].

Definition kz_days_in_month (y m : Z) : Z :=
  if (m <? 1) || (12 <? m) then 0
  else if (m =? 2) && kz_is_leap y then 29
  else lget month_days (m - 1).

Definition kz_days_from_civil (y m d : Z) : Z :=
  let yy := y - cbool (m <=? 2) in
  let era := Z.quot (if 0 <=? yy then yy else yy - 399) 400 in
  let yoe := i32 (yy - era * 400) in
  let doy := Z.quot (153 * (m + (if 2 <? m then -3 else 9)) + 2) 5 + d - 1 in
  let doe := yoe * 365 + Z.quot yoe 4 - Z.quot yoe 100 + doy in
  era * 146097 + doe - 719468.

Definition kz_civil_from_days (z0 : Z) : Z * Z * Z :=
  let z := z0 + 719468 in
  let era := Z.quot (if 0 <=? z then z else z - 146096) 146097 in
  let doe := z - era * 146097 in
  let yoe := Z.quot (doe - Z.quot doe 1460 + Z.quot doe 36524 - Z.quot doe 146096) 365 in
  let y := yoe + era * 400 in
  let doy := doe - (365 * yoe + Z.quot yoe 4 - Z.quot yoe 100) in
  let mp := Z.quot (5 * doy + 2) 153 in
  let d := doy - Z.quot (153 * mp + 2) 5 + 1 in
  let m := mp + (if mp <? 10 then 3 else -9) in
  (i32 (y + cbool (m <=? 2)), i32 m, i32 d).

Record kz_civil := mkCivil {
  year : Z; month : Z; day : Z; hour : Z; minute : Z; second : Z;
  weekday : Z; yday : Z
}.

Definition kz_civil_from_unix (unix_sec : Z) : kz_civil :=
  let days0 := Z.quot unix_sec 86400 in
  let rem0 := Z.rem unix_sec 86400 in
  let '(rem, days) := if rem0 <? 0 then (rem0 + 86400, days0 - 1) else (rem0, days0) in
  let '(y, m, d) := kz_civil_from_days days in
  let wd0 := Z.rem (days + 4) 7 in
  let wd := if wd0 <? 0 then wd0 + 7 else wd0 in
  mkCivil y m d (i32 (Z.quot rem 3600)) (i32 (Z.quot (Z.rem rem 3600) 60))
    (i32 (Z.rem rem 60)) (i32 wd) (i32 (days - kz_days_from_civil y 1 1)).

Definition kz_civil_to_unix (c : kz_civil) : Z :=
  kz_days_from_civil (year c) (month c) (day c) * 86400
  + hour c * 3600 + minute c * 60 + second c.

(** ** POSIX TZ rules *)
Inductive tz_kind := RuleJ | RuleN | RuleM.

Record tz_rule := mkRule {
  r_kind : tz_kind; r_a : Z; r_b : Z; r_c : Z; r_seconds : Z
}.

Record tz_parsed := mkTz {
  off_std : Z; off_dst : Z; has_dst : bool;
  r_start : tz_rule; r_end : tz_rule;
  abbr_std : list Z; abbr_dst : list Z
}.

Definition KZ_TZ_ABBR_MAX : Z := 8.

Definition is_digit (c : Z) : bool := (48 <=? c) && (c <=? 57).
Definition is_alpha (c : Z) : bool :=
  ((65 <=? c) && (c <=? 90)) || ((97 <=? c) && (c <=? 122)).

(** The letters read, at most [room] of them, and the rest of the rule. *)
Fixpoint take_alpha (room : nat) (s : list Z) : list Z * list Z :=
  match room, s with
  | S r, c :: s' =>
      if is_alpha c then let '(w, rest) := take_alpha r s' in (c :: w, rest) else ([], s)
  | _, _ => ([], s)
  end.

Definition tz_take_abbr (s : list Z) (cap : Z) : option (list Z * list Z) :=
  let '(w, rest) := take_alpha (Z.to_nat (cap - 1)) s in
  if 3 <=? zlength w then Some (w, rest) else None.

(** [while (is_digit(s[0]) && v < limit) v = v * 10 + ( *s++ - '0')]; no limit is
    [None]. *)
Fixpoint take_digits (limit : option Z) (v : Z) (s : list Z) : Z * list Z :=
  match s with
  | c :: s' =>
      if is_digit c && match limit with None => true | Some l => v <? l end
      then take_digits limit (i32 (v * 10 + (c - 48))) s' else (v, s)
  | [] => (v, [])
  end.

(** [:dd], a colon and at least one digit. *)
Definition take_field (s : list Z) : option (Z * list Z) :=
  if is_digit (chr s) then Some (take_digits None 0 s) else None.

Definition tz_take_offset (s0 : list Z) : option (Z * list Z) :=
  let '(neg, s) :=
    if chr s0 =? 43 then (false, tail s0)
    else if chr s0 =? 45 then (true, tail s0) else (false, s0) in
  if negb (is_digit (chr s)) then None else
  let '(h, s) := take_digits (Some 1000) 0 s in
  match
    (if chr s =? 58 then
       match take_field (tail s) with
       | None => None
       | Some (mm, s) =>
           if chr s =? 58 then
             match take_field (tail s) with
             | None => None
             | Some (ss, s) => Some (mm, ss, s)
             end
           else Some (mm, 0, s)
       end
     else Some (0, 0, s)) with
  | None => None
  | Some (mm, ss, s) =>
      if (59 <? mm) || (59 <? ss) then None
      else let v := i32 (h * 3600 + mm * 60 + ss) in Some (if neg then i32 (- v) else v, s)
  end.

Definition tz_take_int (s : list Z) : option (Z * list Z) :=
  if is_digit (chr s) then Some (take_digits (Some 100000) 0 s) else None.

(** The optional [/time] after a rule; the default is 02:00. *)
Definition take_rule_time (k : tz_kind) (a b c : Z) (s : list Z)
    : option (tz_rule * list Z) :=
  if chr s =? 47 then
    match tz_take_offset (tail s) with
    | None => None
    | Some (sec, s) => Some (mkRule k a b c sec, s)
    end
  else Some (mkRule k a b c (2 * 3600), s).

Definition tz_take_rule (s : list Z) : option (tz_rule * list Z) :=
  if chr s =? 74 then
    match tz_take_int (tail s) with
    | Some (n, s) =>
        if (n <? 1) || (365 <? n) then None else take_rule_time RuleJ n 0 0 s
    | None => None
    end
  else if chr s =? 77 then
    match tz_take_int (tail s) with
    | Some (m, s) =>
        if negb (chr s =? 46) then None else
        match tz_take_int (tail s) with
        | Some (w, s) =>
            if negb (chr s =? 46) then None else
            match tz_take_int (tail s) with
            | Some (d, s) =>
                if (m <? 1) || (12 <? m) || (w <? 1) || (5 <? w) || (d <? 0) || (6 <? d)
                then None else take_rule_time RuleM m w d s
            | None => None
            end
        | None => None
        end
    | None => None
    end
  else if is_digit (chr s) then
    match tz_take_int s with
    | Some (n, s) => if 365 <? n then None else take_rule_time RuleN n 0 0 s
    | None => None
    end
  else None.

Definition no_rule : tz_rule := mkRule RuleJ 0 0 0 0.

Definition tz_parse (rule : list Z) : option tz_parsed :=
  match tz_take_abbr rule KZ_TZ_ABBR_MAX with
  | None => None
  | Some (std, s) =>
      match tz_take_offset s with
      | None => None
      | Some (ostd, s) =>
          match s with
          | [] => Some (mkTz ostd 0 false no_rule no_rule std [])
          | _ =>
              match tz_take_abbr s KZ_TZ_ABBR_MAX with
              | None => None
              | Some (dst, s) =>
                  match (if negb (chr s =? 44) then tz_take_offset s
                         else Some (i32 (ostd - 3600), s)) with
                  | None => None
                  | Some (odst, s) =>
                      if negb (chr s =? 44) then None else
                      match tz_take_rule (tail s) with
                      | None => None
                      | Some (rs, s) =>
                          if negb (chr s =? 44) then None else
                          match tz_take_rule (tail s) with
                          | Some (re, []) => Some (mkTz ostd odst true rs re std dst)
                          | _ => None
                          end
                      end
                  end
              end
          end
      end
  end.

(** [while (dom > dim) dom -= 7] *)
Fixpoint last_week (fuel : nat) (dom dim : Z) : Z :=
  match fuel with
  | O => dom
  | S f => if dim <? dom then last_week f (dom - 7) dim else dom
  end.

Definition tz_rule_days (r : tz_rule) (y : Z) : Z :=
  match r_kind r with
  | RuleJ =>
      let n := if kz_is_leap y && (60 <=? r_a r) then r_a r + 1 else r_a r in
      kz_days_from_civil y 1 1 + (n - 1)
  | RuleN => kz_days_from_civil y 1 1 + r_a r
  | RuleM =>
      let m := r_a r in
      let wd0 := i32 (Z.rem (kz_days_from_civil y m 1 + 4) 7) in
      let wd_first := if wd0 <? 0 then wd0 + 7 else wd0 in
      let dom := 1 + Z.rem (r_c r - wd_first + 7) 7 + (r_b r - 1) * 7 in
      kz_days_from_civil y m (last_week 6 dom (kz_days_in_month y m))
  end.

Definition tz_transition_utc (p : tz_parsed) (is_start : bool) (y : Z) : Z :=
  let r := if is_start then r_start p else r_end p in
  let local := tz_rule_days r y * 86400 + r_seconds r in
  local + (if is_start then off_std p else off_dst p).

(** The body of [kz_tz_is_dst] once the rule is parsed. *)
Definition parsed_is_dst (p : tz_parsed) (unix_sec : Z) : bool :=
  if negb (has_dst p) then false else
  let approx := unix_sec - off_std p in
  let '(y, _, _) := kz_civil_from_days (Z.quot approx 86400) in
  let s := tz_transition_utc p true y in
  let e := tz_transition_utc p false y in
  if s <? e then (s <=? unix_sec) && (unix_sec <? e)
  else (s <=? unix_sec) || (unix_sec <? e).

Definition kz_tz_is_dst (rule : list Z) (unix_sec : Z) : bool :=
  match tz_parse rule with None => false | Some p => parsed_is_dst p unix_sec end.

Definition kz_tz_offset (rule : list Z) (unix_sec : Z) : Z :=
  match tz_parse rule with
  | None => 0
  | Some p =>
      if has_dst p && kz_tz_is_dst rule unix_sec then i32 (- off_dst p) else i32 (- off_std p)
  end.

(** [for (; src[k] && k < cap - 1; k++) out[k] = src[k]; out[k] = 0] *)
Definition kz_tz_abbr (rule : list Z) (unix_sec cap : Z) : list Z :=
  if cap <=? 0 then [] else
  match tz_parse rule with
  | None => []
  | Some p =>
      take (Z.to_nat (cap - 1))
        (if has_dst p && kz_tz_is_dst rule unix_sec then abbr_dst p else abbr_std p)
  end.

Definition kz_civil_local (rule : list Z) (unix_sec : Z) : kz_civil :=
  kz_civil_from_unix (unix_sec + kz_tz_offset rule unix_sec).

(** ** Formatting *)
Record fbuf := mkBuf { f_out : list Z; f_k : Z }.

Definition put (cap c : Z) (f : fbuf) : fbuf :=
  if f_k f <? cap - 1 then mkBuf (lset (f_out f) (f_k f) c) (f_k f + 1) else f.

Definition put2 (cap v : Z) (f : fbuf) : fbuf :=
  put cap (48 + Z.rem v 10) (put cap (48 + Z.rem (Z.quot v 10) 10) f).

Definition puts_ (cap : Z) (s : list Z) (f : fbuf) : fbuf :=
  foldl (λ f c, put cap c f) f s.

Definition finish (cap : Z) (f : fbuf) : list Z :=
  if 0 <? cap
  then lset (f_out f) (if f_k f <? cap then f_k f else cap - 1) 0 else f_out f.

Definition am_pm (hour : Z) : list Z := cs (if hour <? 12 then " AM" else " PM").
Definition hour_12 (hour : Z) : Z := let h := Z.rem hour 12 in if h =? 0 then 12 else h.

Definition kz_fmt_hhmm (hour minute hour12 : Z) (out : list Z) (cap : Z) : list Z :=
  if cap <=? 0 then out else
  let f := mkBuf out 0 in
  finish cap
    (if negb (hour12 =? 0) then
       puts_ cap (am_pm hour)
         (put2 cap minute (put cap 58 (put2 cap (hour_12 hour) f)))
     else put2 cap minute (put cap 58 (put2 cap hour f))).

Definition kz_fmt_hhmmss (hour minute second hour12 : Z) (out : list Z) (cap : Z)
    : list Z :=
  if cap <=? 0 then out else
  let f := mkBuf out 0 in
  finish cap
    (if negb (hour12 =? 0) then
       puts_ cap (am_pm hour)
         (put2 cap second (put cap 58
           (put2 cap minute (put cap 58 (put2 cap (hour_12 hour) f)))))
     else put2 cap second (put cap 58 (put2 cap minute (put cap 58 (put2 cap hour f))))).

Definition name_of (names : list string) (i : Z) : list Z :=
  cs (default ""%string (names !! Z.to_nat i)).

Definition kz_weekday_name (w : Z) : list Z :=
  if (0 <=? w) && (w <? 7) then
    name_of ["Sunday"; "Monday"; "Tuesday"; "Wednesday"; "Thursday"; "Friday";
             "Saturday"]%string w
  else [].
Definition kz_month_name (m : Z) : list Z :=
  if (1 <=? m) && (m <=? 12) then
    name_of ["January"; "February"; "March"; "April"; "May"; "June"; "July"; "August";
             "September"; "October"; "November"; "December"]%string (m - 1)
  else [].
Definition kz_weekday_abbr (w : Z) : list Z :=
  if (0 <=? w) && (w <? 7) then
    name_of ["Sun"; "Mon"; "Tue"; "Wed"; "Thu"; "Fri"; "Sat"]%string w
  else [].
Definition kz_month_abbr (m : Z) : list Z :=
  if (1 <=? m) && (m <=? 12) then
    name_of ["Jan"; "Feb"; "Mar"; "Apr"; "May"; "Jun"; "Jul"; "Aug"; "Sep"; "Oct";
             "Nov"; "Dec"]%string (m - 1)
  else [].

Definition kz_fmt_date_long (t : option kz_civil) (out : list Z) (cap : Z) : list Z :=
  if cap <=? 0 then out else
  match t with None => lset out 0 0 | Some t =>
  let f := puts_ cap (kz_weekday_name (weekday t)) (mkBuf out 0) in
  let f := puts_ cap (cs ", ") f in
  let f := puts_ cap (kz_month_name (month t)) f in
  let f := put cap 32 f in
  let f := if 10 <=? day t then put cap (48 + Z.rem (Z.quot (day t) 10) 10) f else f in
  finish cap (put cap (48 + Z.rem (day t) 10) f)
  end.

Definition put_year (cap y : Z) (f : fbuf) : fbuf :=
  put cap (48 + Z.rem y 10)
    (put cap (48 + Z.rem (Z.quot y 10) 10)
      (put cap (48 + Z.rem (Z.quot y 100) 10)
        (put cap (48 + Z.rem (Z.quot y 1000) 10) f))).

Definition kz_fmt_date_short (t : option kz_civil) (out : list Z) (cap : Z) : list Z :=
  if cap <=? 0 then out else
  match t with None => lset out 0 0 | Some t =>
  let f := put cap (48 + Z.rem (day t) 10) (mkBuf out 0) in
  let f := put cap 32 f in
  let f := puts_ cap (kz_month_abbr (month t)) f in
  let f := put cap 32 f in
  finish cap (put_year cap (year t) f)
  end.

Definition kz_fmt_date_iso (t : option kz_civil) (out : list Z) (cap : Z) : list Z :=
  if cap <=? 0 then out else
  match t with None => lset out 0 0 | Some t =>
  let f := put_year cap (year t) (mkBuf out 0) in
  let f := put cap 45 f in
  let f := put2 cap (month t) f in
  let f := put cap 45 f in
  finish cap (put2 cap (day t) f)
  end.

(** ** Preferences *)
Record kz_time_cfg := mkCfg { cfg_zone : Z; cfg_hour12 : Z }.

Definition KZ_TIME_CFG_LEN : Z := 6.
Definition kz_time_cfg_default : kz_time_cfg := mkCfg kz_zone_default 0.

Definition kz_time_cfg_encode (cfg : option kz_time_cfg) : list Z :=
  let cfg := default kz_time_cfg_default cfg in
  cs "KZT1" ++
  [u8 (if cfg_zone cfg <? 0 then 0 else cfg_zone cfg);
   if negb (cfg_hour12 cfg =? 0) then 1 else 0].

Definition kz_time_cfg_decode (buf : option (list Z)) (n : Z) : kz_time_cfg :=
  match buf with
  | None => kz_time_cfg_default
  | Some b =>
      if negb (n =? KZ_TIME_CFG_LEN) then kz_time_cfg_default
      else if negb (lget b 0 =? 75) || negb (lget b 1 =? 90)
              || negb (lget b 2 =? 84) || negb (lget b 3 =? 49)
      then kz_time_cfg_default
      else
        let z := lget b 4 in
        mkCfg (if (0 <=? z) && (z <? zlength g_zones) then z else kz_zone_default)
              (if negb (Z.land (lget b 5) 1 =? 0) then 1 else 0)
  end.

(** ** Specification *)

(** A date of the proleptic Gregorian calendar. *)
Definition valid_date (y m d : Z) : Prop :=
  1 ≤ m ≤ 12 ∧ 1 ≤ d ≤ kz_days_in_month y m.

(** The day after. *)
Definition next_date (y m d : Z) : Z * Z * Z :=
  if d <? kz_days_in_month y m then (y, m, d + 1)
  else if m <? 12 then (y, m + 1, 1) else (y + 1, 1, 1).

(** [r] is the array [out] after the C string [text] was printed into its first
    [cap] bytes: truncated to fit, terminated, nothing written past [cap]. *)
Definition printed (out : list Z) (cap : Z) (text r : list Z) : Prop :=
  let k := Z.min (zlength text) (cap - 1) in
  zlength r = zlength out ∧
  take (Z.to_nat k) r = take (Z.to_nat k) text ∧
  lget r k = 0 ∧
  drop (Z.to_nat cap) r = drop (Z.to_nat cap) out.

(** Two decimal digits. *)
Definition dd (v : Z) : list Z := [48 + Z.rem (Z.quot v 10) 10; 48 + Z.rem v 10].
Definition dddd (y : Z) : list Z :=
  [48 + Z.rem (Z.quot y 1000) 10; 48 + Z.rem (Z.quot y 100) 10;
   48 + Z.rem (Z.quot y 10) 10; 48 + Z.rem y 10].

(** ** Calendar lemmas *)

(** Month number counted from March, days before a year of the era, days before
    a month of the March-based year. *)
Definition mp_of (m : Z) : Z := if 2 <? m then m - 3 else m + 9.
Definition yoe_days (yoe : Z) : Z := yoe * 365 + yoe / 4 - yoe / 100.
Definition mp_days (mp : Z) : Z := (153 * mp + 2) / 5.
Definition yoe_of (doe : Z) : Z :=
  (doe - doe / 1460 + doe / 36524 - doe / 146096) / 365.

Lemma era_quot a n : 0 < n → Z.quot (if 0 <=? a then a else a - (n - 1)) n = a / n.
Proof.
  intros. destruct (Z.leb_spec 0 a).
  - rewrite Z.quot_div_nonneg by lia. done.
  - Z.to_euclidean_division_equations; nia.
Qed.

Lemma is_leap_spec y : kz_is_leap y = true ↔ (y mod 4 = 0 ∧ y mod 100 ≠ 0) ∨ y mod 400 = 0.
Proof.
  unfold kz_is_leap.
  assert (∀ n, 0 < n → Z.rem y n = 0 ↔ y mod n = 0) as Hr.
  { intros n Hn. rewrite Z.rem_divide, Z.mod_divide by lia. done. }
  destruct (Z.eqb_spec (Z.rem y 4) 0) as [H4|H4], (Z.eqb_spec (Z.rem y 100) 0) as [H1|H1],
    (Z.eqb_spec (Z.rem y 400) 0) as [H5|H5]; rewrite Hr in H4, H1, H5 by lia; simpl; 
   split; intros; try done; try lia.
Qed.

Lemma days_from_civil_eq y m d : 1 ≤ m ≤ 12 →
  let yy := if m <=? 2 then y - 1 else y in
  kz_days_from_civil y m d = yy / 400 * 146097 + yoe_days (yy mod 400) + mp_days (mp_of m) + d - 1 - 719468.
Proof.
  intros Hm yy. unfold kz_days_from_civil, yoe_days, mp_days, mp_of.
  replace (y - cbool (m <=? 2)) with yy by (unfold yy, cbool; destruct (m <=? 2); lia).
  clearbody yy.
  replace (Z.quot (if 0 <=? yy then yy else yy - 399) 400) with (yy / 400)
    by (symmetry; apply (era_quot yy 400); lia).
  replace (yy - yy / 400 * 400) with (yy mod 400) by zdiv.
  assert (0 ≤ yy mod 400 < 400) by (apply Z.mod_pos_bound; lia).
  rewrite i32_id by lia.
  replace (m + (if 2 <? m then -3 else 9)) with (mp_of m)
    by (unfold mp_of; destruct (2 <? m); lia).
  assert (0 ≤ mp_of m) by (unfold mp_of; destruct (Z.ltb_spec 2 m); lia).
  rewrite (Z.quot_div_nonneg (yy mod 400) 4), (Z.quot_div_nonneg (yy mod 400) 100),
    (Z.quot_div_nonneg (153 * mp_of m + 2) 5) by lia.
  fold (mp_of m). lia.
Qed.

Lemma doe_split yoe doy : 0 ≤ yoe ≤ 399 → 0 ≤ doy ≤ 365 →
  (doy = 365 → ((yoe + 1) mod 4 = 0 ∧ (yoe + 1) mod 100 ≠ 0) ∨ yoe = 399) →
  let doe := yoe_days yoe + doy in
  yoe_of doe = yoe ∧ 0 ≤ doe ≤ 146096.
Proof.
  intros Hy Hd Hl doe.
  assert (Hc : yoe / 100 = 0 ∨ yoe / 100 = 1 ∨ yoe / 100 = 2 ∨ yoe / 100 = 3 ) by zdiv.
  subst doe. unfold yoe_of, yoe_days. 
  destruct Hc as [Hc|[Hc|[Hc|Hc]]]; rewrite Hc; zdiv.
Qed.
Lemma yoe_leap doe : 0 ≤ doe ≤ 146096 →
  let yoe := yoe_of doe in
  doe - yoe_days yoe = 365 → ((yoe + 1) mod 4 = 0 ∧ (yoe + 1) mod 100 ≠ 0) ∨ yoe = 399.
Proof.
  intros H yoe. unfold yoe_days.
  assert (Hc : doe / 146096 = 0 ∨ doe = 146096) by zdiv.
  destruct Hc as [Hc| ->]; [|vm_compute; intuition congruence].
  assert (Hb : doe / 36524 = 0 ∨ doe / 36524 = 1 ∨ doe / 36524 = 2 ∨ doe / 36524 = 3 ∨ doe/36524 = 4) by zdiv.
  subst yoe. unfold yoe_of. rewrite Hc.
  destruct Hb as [Hb|[Hb|[Hb|[Hb|Hb]]]]; rewrite Hb; zdiv.
Qed.

Lemma yoe_range doe : 0 ≤ doe ≤ 146096 →
  let yoe := yoe_of doe in
  0 ≤ yoe ≤ 399 ∧ 0 ≤ doe - yoe_days yoe ≤ 365.
Proof.
  intros H yoe. unfold yoe_days.
  assert (Hc : doe / 146096 = 0 ∨ doe = 146096) by zdiv.
  destruct Hc as [Hc| ->]; [|vm_compute; intuition congruence].
  assert (Hb : doe / 36524 = 0 ∨ doe / 36524 = 1 ∨ doe / 36524 = 2 ∨ doe / 36524 = 3 ∨
               doe / 36524 = 4) by zdiv.
  subst yoe. unfold yoe_of. rewrite Hc.
  destruct Hb as [Hb|[Hb|[Hb|[Hb|Hb]]]]; rewrite Hb; zdiv.
Qed.

Lemma mp_days_inv doy : 0 ≤ doy ≤ 365 →
  let mp := (5 * doy + 2) / 153 in
  0 ≤ mp ≤ 11 ∧ mp_days mp ≤ doy < mp_days (mp + 1).
Proof. intros H mp. subst mp. unfold mp_days. zdiv. Qed.

(** The days of a month, from the March-based month lengths. *)
Lemma days_in_month_mp y m :
  1 ≤ m ≤ 12 → m ≠ 2 →
  kz_days_in_month y m = mp_days (mp_of m + 1) - mp_days (mp_of m).
Proof.
  intros Hm H2.
  assert (m = 1 ∨ m = 3 ∨ m = 4 ∨ m = 5 ∨ m = 6 ∨ m = 7 ∨ m = 8 ∨ m = 9 ∨ m = 10 ∨
          m = 11 ∨ m = 12) as H by lia.
  destruct_or! H; subst m; reflexivity.
Qed.

Lemma days_in_feb y : kz_days_in_month y 2 = if kz_is_leap y then 29 else 28.
Proof. unfold kz_days_in_month. simpl. by destruct (kz_is_leap y). Qed.

(** [kz_civil_from_days] in terms of floor division. *)
Lemma civil_from_days_eq z0 :
  - 2 ^ 39 ≤ z0 ≤ 2 ^ 39 →
  let z := z0 + 719468 in
  let doe := z mod 146097 in
  let doy := doe - yoe_days (yoe_of doe) in
  let mp := (5 * doy + 2) / 153 in
  let m := if mp <? 10 then mp + 3 else mp - 9 in
  kz_civil_from_days z0 =
    (yoe_of doe + z / 146097 * 400 + (if m <=? 2 then 1 else 0), m, doy - mp_days mp + 1)
  ∧ 1 ≤ m ≤ 12 ∧ mp = mp_of m.
Proof.
  intros Hz z doe doy mp m. unfold kz_civil_from_days. fold z.
  replace (Z.quot (if 0 <=? z then z else z - 146096) 146097) with (z / 146097)
    by (symmetry; apply (era_quot z 146097); lia).
  replace (z - z / 146097 * 146097) with doe by (unfold doe; zdiv).
  assert (Hd : 0 ≤ doe ≤ 146096) by (unfold doe; pose proof (Z.mod_pos_bound z 146097); lia).
  rewrite (Z.quot_div_nonneg doe 1460), (Z.quot_div_nonneg doe 36524),
    (Z.quot_div_nonneg doe 146096) by lia.
  rewrite (Z.quot_div_nonneg _ 365) by zdiv. fold (yoe_of doe).
  destruct (yoe_range doe Hd) as [Hy Hdoy].
  rewrite (Z.quot_div_nonneg (yoe_of doe) 4), (Z.quot_div_nonneg (yoe_of doe) 100) by lia.
  replace (doe - (365 * yoe_of doe + yoe_of doe / 4 - yoe_of doe / 100)) with doy
    by (unfold doy, yoe_days; lia).
  fold doy in Hdoy. destruct (mp_days_inv doy Hdoy) as [Hmp Hmd]. fold mp in Hmp, Hmd.
  rewrite (Z.quot_div_nonneg (5 * doy + 2) 153) by lia. fold mp.
  rewrite (Z.quot_div_nonneg (153 * mp + 2) 5) by lia. fold (mp_days mp).
  replace (mp + (if mp <? 10 then 3 else -9)) with m by (unfold m; destruct (mp <? 10); lia).
  assert (Hm : 1 ≤ m ≤ 12) by (unfold m; destruct (Z.ltb_spec mp 10); lia).
  assert (Hera : - 2 ^ 22 - 5 ≤ z / 146097 ≤ 2 ^ 22 + 5) by (unfold z; zdiv).
  assert (Hmd' : mp_days (mp + 1) ≤ mp_days mp + 31) by (unfold mp_days; zdiv).
  split; [|split; [done|]].
  - unfold cbool. clearbody m doy mp. f_equal; [f_equal|]; [|apply i32_id; lia|apply i32_id; lia].
    rewrite i32_id; [destruct (m <=? 2); lia|destruct (m <=? 2); lia].
  - unfold m, mp_of. destruct (Z.ltb_spec mp 10);
      [destruct (Z.ltb_spec 2 (mp + 3))|destruct (Z.ltb_spec 2 (mp - 9))]; lia.
Qed.

(** [kz_civil_from_days] yields a date of the calendar, of that day. *)
Lemma civil_from_days_ok z :
  - 2 ^ 39 ≤ z ≤ 2 ^ 39 →
  let '(y, m, d) := kz_civil_from_days z in
  valid_date y m d ∧ kz_days_from_civil y m d = z.
Proof.
  intros Hz. destruct (civil_from_days_eq z Hz) as (-> & Hm & Hmp). revert Hm Hmp.
  set (doe := (z + 719468) mod 146097). set (doy := doe - yoe_days (yoe_of doe)).
  set (mp := (5 * doy + 2) / 153). set (m := if mp <? 10 then mp + 3 else mp - 9).
  set (era := (z + 719468) / 146097). intros Hm Hmp.
  assert (Hd : 0 ≤ doe ≤ 146096)
    by (pose proof (Z.mod_pos_bound (z + 719468) 146097); unfold doe; lia).
  assert (Hez : z + 719468 = era * 146097 + doe) by (unfold era, doe; zdiv).
  destruct (yoe_range doe Hd) as [Hy Hdoy]. fold doy in Hdoy.
  destruct (mp_days_inv doy Hdoy) as [_ Hmd]. fold mp in Hmd.
  pose proof (yoe_leap doe Hd) as Hleap. cbv zeta in Hleap. fold doy in Hleap.
  set (yoe := yoe_of doe) in *.
  assert (Hdoe : doe = yoe_days yoe + doy) by (unfold doy; lia).
  clearbody m mp doy yoe doe era. subst mp doe. split.
  - split; [done|]. split; [lia|].
    destruct (Z.eq_dec m 2) as [->|Hm2].
    + rewrite days_in_feb.
      change (2 <=? 2) with true. cbv iota. unfold mp_days, mp_of in *.
      change (2 <? 2) with false in *. cbv iota in *.
      destruct (kz_is_leap _) eqn:El; [zdiv|].
      destruct (Z.eq_dec doy 365) as [->|]; [|zdiv]. exfalso.
      apply not_true_iff_false in El. apply El, is_leap_spec. zdiv.
    + rewrite days_in_month_mp by done. lia.
  - rewrite days_from_civil_eq by done. cbv zeta.
    replace (if m <=? 2 then _ else _) with (yoe + era * 400)
      by (destruct (m <=? 2); lia).
    rewrite Z.div_add, Z.mod_add, Z.div_small, Z.mod_small by lia. lia.
Qed.

Lemma mp_range m : 1 ≤ m ≤ 12 → 0 ≤ mp_of m ≤ 11.
Proof. intros. unfold mp_of. destruct (Z.ltb_spec 2 m); lia. Qed.

(** The day of the March-based year of a date, with its bound. *)
Lemma valid_doy y m d :
  valid_date y m d →
  let yoe := (if m <=? 2 then y - 1 else y) mod 400 in
  let doy := mp_days (mp_of m) + d - 1 in
  0 ≤ doy ≤ 365 ∧ (5 * doy + 2) / 153 = mp_of m ∧
  (doy = 365 → ((yoe + 1) mod 4 = 0 ∧ (yoe + 1) mod 100 ≠ 0) ∨ yoe = 399).
Proof.
  intros [Hm Hd] yoe doy. pose proof (mp_range m Hm) as Hmp.
  destruct (Z.eq_dec m 2) as [->|Hm2].
  - rewrite days_in_feb in Hd. subst doy yoe.
    change (mp_of 2) with 11. change (mp_days 11) with 337. change (2 <=? 2) with true. cbv iota.
    destruct (kz_is_leap y) eqn:El.
    + apply is_leap_spec in El. zdiv.
    + zdiv.
  - rewrite days_in_month_mp in Hd by done.
    assert (mp_of m ≤ 10 ∨ m = 2) as [?| ->] by (unfold mp_of; destruct (Z.ltb_spec 2 m); lia);
      [|done].
    subst doy yoe. unfold mp_days in *. clear Hm2. zdiv.
Qed.

Lemma civil_from_days_inv y m d :
  - 2 ^ 30 ≤ y ≤ 2 ^ 30 → valid_date y m d →
  kz_civil_from_days (kz_days_from_civil y m d) = (y, m, d).
Proof.
  intros Hy Hv. destruct (valid_doy y m d Hv) as (Hdoy & Hmp & Hl).
  destruct Hv as [Hm Hd]. pose proof (mp_range m Hm) as Hmr.
  pose proof (days_from_civil_eq y m d Hm) as Hz. cbv zeta in Hz.
  set (yy := if m <=? 2 then y - 1 else y) in *.
  assert (Hyy : y - 1 ≤ yy ≤ y) by (unfold yy; destruct (m <=? 2); lia).
  assert (Hyoe : 0 ≤ yy mod 400 ≤ 399) by (pose proof (Z.mod_pos_bound yy 400); lia).
  destruct (doe_split (yy mod 400) _ Hyoe Hdoy Hl) as [Hs Hr].
  set (doy := mp_days (mp_of m) + d - 1) in *.
  set (doe := yoe_days (yy mod 400) + doy) in *.
  assert (Hz' : kz_days_from_civil y m d + 719468 = yy / 400 * 146097 + doe) by lia.
  assert (- 2 ^ 39 ≤ kz_days_from_civil y m d ≤ 2 ^ 39) as Hb.
  { assert (- 2 ^ 30 - 1 ≤ yy / 400 * 400 ≤ 2 ^ 30 ∨ yy / 400 * 400 ≤ 0) by zdiv. zdiv. }
  destruct (civil_from_days_eq _ Hb) as (-> & _ & _). rewrite Hz'.
  replace ((yy / 400 * 146097 + doe) mod 146097) with doe by zdiv.
  replace ((yy / 400 * 146097 + doe) / 146097) with (yy / 400) by zdiv.
  rewrite Hs. replace (doe - yoe_days (yy mod 400)) with doy by (unfold doe; lia).
  rewrite Hmp. clear - Hm.
  replace (if mp_of m <? 10 then _ else _) with m
    by (unfold mp_of; destruct (Z.ltb_spec 2 m);
        [destruct (Z.ltb_spec (m - 3) 10)|destruct (Z.ltb_spec (m + 9) 10)]; lia).
  f_equal; [f_equal|unfold doy; lia].
  replace (yy mod 400 + yy / 400 * 400) with yy by zdiv.
  unfold yy. destruct (m <=? 2); lia.
Qed.

(** Consecutive dates are consecutive days. *)
Lemma days_from_civil_next y m d :
  valid_date y m d →
  let '(y', m', d') := next_date y m d in
  valid_date y' m' d' ∧ kz_days_from_civil y' m' d' = kz_days_from_civil y m d + 1.
Proof.
  intros Hv. pose proof Hv as [Hm Hd]. unfold next_date.
  assert (Hlen : ∀ y m, 1 ≤ m ≤ 12 → 1 ≤ kz_days_in_month y m).
  { intros y0 m0 Hm0. destruct (Z.eq_dec m0 2) as [->|].
    - rewrite days_in_feb. destruct (kz_is_leap y0); lia.
    - rewrite days_in_month_mp by done. unfold mp_days. zdiv. }
  destruct (Z.ltb_spec d (kz_days_in_month y m)).
  - split; [split; lia|]. rewrite !days_from_civil_eq by done. cbv zeta. lia.
  - assert (d = kz_days_in_month y m) as -> by lia.
    destruct (Z.ltb_spec m 12).
    + split; [split; [lia|]; specialize (Hlen y (m + 1)); lia|].
      rewrite !days_from_civil_eq by lia. cbv zeta.
      destruct (Z.eq_dec m 2) as [->|Hm2].
      * rewrite days_in_feb. simpl.
        destruct (kz_is_leap y) eqn:El; [apply is_leap_spec in El|
          apply not_true_iff_false in El; rewrite is_leap_spec in El];
        unfold yoe_days, mp_days, mp_of; simpl; zdiv.
      * rewrite days_in_month_mp by lia.
        replace (mp_of (m + 1)) with (mp_of m + 1)
          by (unfold mp_of; destruct (Z.ltb_spec 2 m), (Z.ltb_spec 2 (m + 1)); lia).
        replace (m + 1 <=? 2) with (m <=? 2)
          by (destruct (Z.leb_spec m 2), (Z.leb_spec (m + 1) 2); lia).
        lia.
    + assert (m = 12) as -> by lia. split; [split; [lia|]; specialize (Hlen (y + 1) 1); lia|].
      rewrite !days_from_civil_eq by lia. simpl.
      replace (y + 1 - 1) with y by lia.
      change (mp_days (mp_of 1)) with 306. change (mp_days (mp_of 12)) with 275.
      change (kz_days_in_month y 12) with 31. lia.
Qed.

Lemma yday_range y m d :
  valid_date y m d →
  0 ≤ kz_days_from_civil y m d - kz_days_from_civil y 1 1 ≤ 365.
Proof.
  intros Hv. destruct (valid_doy y m d Hv) as (Hdoy & _ & Hl). destruct Hv as [Hm Hd].
  rewrite !days_from_civil_eq by lia. cbv zeta in *.
  change (mp_days (mp_of 1)) with 306. change (1 <=? 2) with true. cbv iota.
  destruct (Z.leb_spec m 2) as [H2|H2].
  - assert (m = 1 ∨ m = 2) as [-> | ->] by lia.
    + change (mp_days (mp_of 1)) with 306. change (kz_days_in_month y 1) with 31 in Hd. lia.
    + change (mp_days (mp_of 2)) with 337. rewrite days_in_feb in Hd.
      destruct (kz_is_leap y); lia.
  - pose proof (mp_range m Hm). assert (mp_of m ≤ 9)
      by (unfold mp_of; destruct (Z.ltb_spec 2 m); lia).
    rewrite days_in_month_mp in Hd by lia.
    unfold yoe_days, mp_days in *. zdiv.
Qed.

(** Truncating division with the correction the source applies is floor division. *)
Lemma civil_split t :
  (let days0 := Z.quot t 86400 in let rem0 := Z.rem t 86400 in
   if rem0 <? 0 then (rem0 + 86400, days0 - 1) else (rem0, days0))
  = (t mod 86400, t / 86400).
Proof. cbv zeta. destruct (Z.ltb_spec (Z.rem t 86400) 0); f_equal; zdiv. Qed.

Lemma weekday_mod n : (if Z.rem n 7 <? 0 then Z.rem n 7 + 7 else Z.rem n 7) = n mod 7.
Proof. destruct (Z.ltb_spec (Z.rem n 7) 0); zdiv. Qed.

(** The fields of [kz_civil_from_unix]. *)
Lemma civil_from_unix_eq t :
  - 2 ^ 55 ≤ t ≤ 2 ^ 55 →
  let '(y, m, d) := kz_civil_from_days (t / 86400) in
  kz_civil_from_unix t =
    mkCivil y m d (t mod 86400 / 3600) (t mod 3600 / 60) (t mod 60)
      ((t / 86400 + 4) mod 7) (t / 86400 - kz_days_from_civil y 1 1).
Proof.
  intros Ht. unfold kz_civil_from_unix. pose proof (civil_split t) as Hs. cbv zeta in *.
  rewrite Hs. assert (Hd : - 2 ^ 39 ≤ t / 86400 ≤ 2 ^ 39) by zdiv.
  pose proof (civil_from_days_ok (t / 86400) Hd) as Hok.
  destruct (kz_civil_from_days (t / 86400)) as [[y m] d]. destruct Hok as [Hv Hz].
  pose proof (yday_range y m d Hv). rewrite weekday_mod.
  rewrite !i32_id by (rewrite ?Z.quot_div_nonneg, ?Z.rem_mod_nonneg by zdiv; zdiv).
  f_equal; rewrite ?Z.quot_div_nonneg, ?Z.rem_mod_nonneg by zdiv; zdiv.
Qed.


(** ** Formatting lemmas *)

Section printing.
Context (out0 : list Z) (cap : Z).
Hypothesis Hcap : 1 ≤ cap ≤ zlength out0.

(** The buffer holds the part of [text] that fits. *)
Definition holds (text : list Z) (f : fbuf) : Prop :=
  List.length (f_out f) = List.length out0 ∧
  f_k f = Z.min (zlength text) (cap - 1) ∧
  take (Z.to_nat (f_k f)) (f_out f) = take (Z.to_nat (f_k f)) text ∧
  drop (Z.to_nat cap) (f_out f) = drop (Z.to_nat cap) out0.

Lemma holds_nil : holds [] (mkBuf out0 0).
Proof.
  unfold holds, zlength in *. simpl in *. repeat split; lia.
Qed.

Lemma holds_put text f c : holds text f → holds (text ++ [c]) (put cap c f).
Proof.
  intros (Hl & Hk & Ht & Hd). unfold put, holds, zlength in *.
  rewrite length_app. simpl.
  destruct (Z.ltb_spec (f_k f) (cap - 1)); cbn [f_out f_k].
  - rewrite lset_length. split; [done|]. split; [lia|].
    replace (Z.to_nat (f_k f + 1)) with (S (Z.to_nat (f_k f))) by lia.
    assert (Hn : Z.to_nat (f_k f) = List.length text) by lia.
    unfold lset. rewrite Hn in *. split.
    + rewrite (take_S_r _ _ c) by (apply list_lookup_insert_eq; lia).
      rewrite take_insert_ge by lia. rewrite Ht, firstn_all.
      rewrite firstn_all2; [done|]. rewrite length_app. simpl. lia.
    + rewrite drop_insert_lt by lia. done.
  - split; [done|]. split; [lia|]. split; [|done].
    rewrite Ht, take_app_le by lia. done.
Qed.

Lemma holds_puts text f s : holds text f → holds (text ++ s) (puts_ cap s f).
Proof.
  revert text f. induction s as [|c s IH]; intros text f Hf; simpl.
  - by rewrite app_nil_r.
  - rewrite (cons_middle c text s), app_assoc. by apply IH, holds_put.
Qed.

Lemma holds_put2 text f v : holds text f → holds (text ++ dd v) (put2 cap v f).
Proof.
  intros. unfold put2, dd. rewrite (cons_middle _ text), app_assoc. by do 2 apply holds_put.
Qed.

Lemma holds_year text f y : holds text f → holds (text ++ dddd y) (put_year cap y f).
Proof.
  intros. unfold put_year, dddd.
  rewrite (cons_middle _ text), app_assoc, (cons_middle _ (text ++ _)), app_assoc,
    (cons_middle _ ((text ++ _) ++ _)), app_assoc.
  by do 4 apply holds_put.
Qed.

Lemma finish_printed text f : holds text f → printed out0 cap text (finish cap f).
Proof.
  intros (Hl & Hk & Ht & Hd). unfold finish, printed, zlength in *.
  replace (0 <? cap) with true by lia. replace (f_k f <? cap) with true by lia.
  rewrite <- Hk, lset_length. split; [by rewrite Hl|]. unfold lset.
  rewrite take_insert_ge, drop_insert_lt by lia. split; [done|]. split; [|done].
  fold (lset (f_out f) (f_k f) 0). apply lget_lset_eq. unfold zlength. lia.
Qed.

End printing.

(** The text each formatter prints. *)
Definition hhmm_text (hour minute hour12 : Z) : list Z :=
  if negb (hour12 =? 0)
  then dd (hour_12 hour) ++ cs ":" ++ dd minute ++ am_pm hour
  else dd hour ++ cs ":" ++ dd minute.

Definition hhmmss_text (hour minute second hour12 : Z) : list Z :=
  if negb (hour12 =? 0)
  then dd (hour_12 hour) ++ cs ":" ++ dd minute ++ cs ":" ++ dd second ++ am_pm hour
  else dd hour ++ cs ":" ++ dd minute ++ cs ":" ++ dd second.

Definition day_text (d : Z) : list Z :=
  if 10 <=? d then dd d else [48 + Z.rem d 10].

Definition date_long_text (t : kz_civil) : list Z :=
  kz_weekday_name (weekday t) ++ cs ", " ++ kz_month_name (month t) ++ cs " " ++
  day_text (day t).

Definition date_short_text (t : kz_civil) : list Z :=
  [48 + Z.rem (day t) 10] ++ cs " " ++ kz_month_abbr (month t) ++ cs " " ++ dddd (year t).

Definition date_iso_text (t : kz_civil) : list Z :=
  dddd (year t) ++ cs "-" ++ dd (month t) ++ cs "-" ++ dd (day t).

(** Run the buffer lemmas backwards over a formatter, then reassociate. *)
Ltac printing :=
  eapply finish_printed; [done|];
  repeat match goal with
  | |- holds _ _ _ (put _ _ _) => eapply holds_put; [done|]
  | |- holds _ _ _ (put2 _ _ _) => eapply holds_put2; [done|]
  | |- holds _ _ _ (puts_ _ _ _) => eapply holds_puts; [done|]
  | |- holds _ _ _ (put_year _ _ _) => eapply holds_year; [done|]
  end;
  apply holds_nil; done.

Lemma printed_eq out cap text text' r :
  printed out cap text' r → text = text' → printed out cap text r.
Proof. by intros ? ->. Qed.

(** Every formatter prints its text into the buffer. *)
Lemma fmt_printed out cap hour minute second hour12 t :
  1 ≤ cap ≤ zlength out →
  printed out cap (hhmm_text hour minute hour12) (kz_fmt_hhmm hour minute hour12 out cap) ∧
  printed out cap (hhmmss_text hour minute second hour12)
    (kz_fmt_hhmmss hour minute second hour12 out cap) ∧
  printed out cap (date_long_text t) (kz_fmt_date_long (Some t) out cap) ∧
  printed out cap (date_short_text t) (kz_fmt_date_short (Some t) out cap) ∧
  printed out cap (date_iso_text t) (kz_fmt_date_iso (Some t) out cap).
Proof.
  intros Hcap.
  unfold kz_fmt_hhmm, kz_fmt_hhmmss, kz_fmt_date_long, kz_fmt_date_short, kz_fmt_date_iso,
    hhmm_text, hhmmss_text, date_long_text, date_short_text, date_iso_text, day_text.
  replace (cap <=? 0) with false by lia. cbv zeta.
  repeat split_and.
  - destruct (negb _); (eapply printed_eq; [printing|]; by rewrite <- ?app_assoc).
  - destruct (negb _); (eapply printed_eq; [printing|]; by rewrite <- ?app_assoc).
  - destruct (10 <=? day t); (eapply printed_eq; [printing|]; by rewrite <- ?app_assoc).
  - eapply printed_eq; [printing|]. by rewrite <- ?app_assoc.
  - eapply printed_eq; [printing|]. by rewrite <- ?app_assoc.
Qed.

(** ** Time-zone lemmas *)

Lemma take_alpha_spec room s w rest :
  take_alpha room s = (w, rest) →
  (List.length w ≤ room)%nat ∧ Forall (λ c, is_alpha c = true) w ∧ s = w ++ rest.
Proof.
  revert s w rest. induction room as [|r IH]; intros [|c s] w rest H; simplify_eq/=;
    try (repeat split; [lia|constructor]).
  destruct (is_alpha c) eqn:Ec; [|simplify_eq; repeat split; [simpl; lia|constructor]].
  destruct (take_alpha r s) as [w' rest'] eqn:E. simplify_eq.
  destruct (IH _ _ _ E) as (? & ? & ->). simpl. repeat split; [lia|by constructor].
Qed.

Lemma take_digits_i32 limit v s : is_i32 v → is_i32 (take_digits limit v s).1.
Proof.
  revert v. induction s as [|c s IH]; intros v Hv; [done|]. cbn [take_digits].
  destruct (_ && _); [|done]. apply IH, i32_range.
Qed.

(** A bound on the value keeps the accumulation from overflowing. *)
Lemma take_digits_limit l v s :
  0 ≤ v < 10 * l → l ≤ 10 ^ 8 → 0 ≤ (take_digits (Some l) v s).1 < 10 * l.
Proof.
  revert v. induction s as [|c s IH]; intros v Hv Hl; [done|]. cbn [take_digits].
  unfold is_digit. destruct (_ && _) eqn:E; [|done].
  assert (48 ≤ c ≤ 57 ∧ v < l) by lia. rewrite i32_id by lia. apply IH; lia.
Qed.

Lemma take_digits_suffix limit v s : suffix (take_digits limit v s).2 s.
Proof.
  revert v. induction s as [|c s IH]; intros v; [done|]. cbn [take_digits].
  destruct (_ && _); [|done]. by apply suffix_cons_r.
Qed.

(** No number of the text has more than nine digits. *)
Definition short_numbers (s : list Z) : Prop :=
  ∀ a w b, s = a ++ w ++ b → Forall (λ c, is_digit c = true) w → (List.length w ≤ 9)%nat.

Lemma short_suffix s s' : short_numbers s → suffix s' s → short_numbers s'.
Proof. intros Hs [k ->] a w b -> Hw. apply (Hs (k ++ a) w b); [by rewrite app_assoc|done]. Qed.

(** Nine digits fit. *)
Lemma take_digits_short k v s :
  0 ≤ v < 10 ^ Z.of_nat k → (k ≤ 9)%nat →
  (∀ w b, s = w ++ b → Forall (λ c, is_digit c = true) w → (k + List.length w ≤ 9)%nat) →
  0 ≤ (take_digits None v s).1.
Proof.
  revert k v. induction s as [|c s IH]; intros k v Hv Hk Hs; [simpl; lia|]. cbn [take_digits].
  rewrite andb_true_r. destruct (is_digit c) eqn:E; [|simpl; lia].
  pose proof (Hs [c] s eq_refl ltac:(by constructor)) as Hk1. simpl in Hk1.
  assert (Hp : 10 ^ Z.of_nat (S k) = 10 * 10 ^ Z.of_nat k)
    by (rewrite Nat2Z.inj_succ, Z.pow_succ_r by lia; done).
  assert (10 ^ Z.of_nat (S k) ≤ 10 ^ 9) by (apply Z.pow_le_mono_r; lia).
  assert (48 ≤ c ≤ 57) by (unfold is_digit in E; lia).
  rewrite i32_id by lia. apply (IH (S k)); [lia|lia|].
  intros w b -> Hw. specialize (Hs (c :: w) b eq_refl). simpl in Hs.
  specialize (Hs ltac:(by constructor)). lia.
Qed.

(** What the parser guarantees of a transition rule. *)
Definition rule_ok (r : tz_rule) : Prop :=
  match r_kind r with
  | RuleJ => 1 ≤ r_a r ≤ 365
  | RuleN => 0 ≤ r_a r ≤ 365
  | RuleM => 1 ≤ r_a r ≤ 12 ∧ 1 ≤ r_b r ≤ 5 ∧ 0 ≤ r_c r ≤ 6
  end ∧ is_i32 (r_seconds r).

(** Less than 10000 hours either way. *)
Definition offset_ok (v : Z) : Prop := - 36000000 < v < 36000000.

Definition abbr_ok (w : list Z) : Prop :=
  3 ≤ zlength w < KZ_TZ_ABBR_MAX ∧ Forall (λ c, is_alpha c = true) w.

Lemma take_abbr_ok s w rest : tz_take_abbr s KZ_TZ_ABBR_MAX = Some (w, rest) → abbr_ok w.
Proof.
  unfold tz_take_abbr. destruct (take_alpha _ s) as [w' r'] eqn:E.
  destruct (take_alpha_spec _ _ _ _ E) as (Hl & Ha & _).
  destruct (Z.leb_spec 3 (zlength w')); intros; simplify_eq. split; [|done].
  unfold zlength, KZ_TZ_ABBR_MAX in *. simpl in Hl. lia.
Qed.

Lemma take_field_ok s v rest :
  take_field s = Some (v, rest) → is_i32 v ∧ suffix rest s ∧ (short_numbers s → 0 ≤ v).
Proof.
  unfold take_field. destruct (is_digit _); [|done]. intros H. injection H as H.
  pose proof (take_digits_i32 None 0 s ltac:(done)) as Hv. pose proof (take_digits_suffix None 0 s) as Hr.
  pose proof (take_digits_short 0 0 s ltac:(lia) ltac:(lia)) as Hz. rewrite H in Hv, Hr, Hz.
  split_and!; [done|done|]. intros Hs. apply Hz. intros w b ->. by apply (Hs [] w b).
Qed.

Lemma tail_suffix (s : list Z) : suffix (tail s) s.
Proof. destruct s as [|c s]; [done|]. by exists [c]. Qed.

(** The optional minutes and seconds. *)
Lemma take_minutes_ok s mm ss rest :
  (if chr s =? 58 then
     match take_field (tail s) with
     | None => None
     | Some (mm, s) =>
         if chr s =? 58 then
           match take_field (tail s) with
           | None => None
           | Some (ss, s) => Some (mm, ss, s)
           end
         else Some (mm, 0, s)
     end
   else Some (0, 0, s)) = Some (mm, ss, rest) →
  suffix rest s ∧ (short_numbers s → 0 ≤ mm ∧ 0 ≤ ss).
Proof.
  intros H. destruct (chr s =? 58); [|by simplify_eq].
  destruct (take_field (tail s)) as [[m s3]|] eqn:Em; [|done].
  apply take_field_ok in Em as (_ & Hs3 & Hm). pose proof (tail_suffix s) as Ht.
  assert (Hs : suffix s3 s) by (by etrans). destruct (chr s3 =? 58).
  - destruct (take_field (tail s3)) as [[m' s4]|] eqn:Es; [|done].
    apply take_field_ok in Es as (_ & Hs4 & Hss). simplify_eq.
    assert (Ht3 : suffix (tail s3) s) by (etrans; [apply tail_suffix|done]).
    split; [by etrans|]. intros Hn. split; [apply Hm|apply Hss]; by eapply short_suffix.
  - simplify_eq. split; [done|]. intros Hn. split; [|lia]. apply Hm. by eapply short_suffix.
Qed.

Lemma take_offset_ok s v rest :
  tz_take_offset s = Some (v, rest) →
  is_i32 v ∧ suffix rest s ∧ (short_numbers s → offset_ok v).
Proof.
  unfold tz_take_offset.
  destruct (if chr s =? 43 then _ else _) as [neg s1] eqn:E1.
  assert (Hs1 : suffix s1 s).
  { pose proof (tail_suffix s). repeat case_match; simplify_eq; done. }
  destruct (negb _); [done|].
  pose proof (take_digits_limit 1000 0 s1 ltac:(lia) ltac:(lia)) as Hh.
  pose proof (take_digits_suffix (Some 1000) 0 s1) as Hs2.
  destruct (take_digits (Some 1000) 0 s1) as [h s2]. simpl in Hh, Hs2. intros H.
  destruct (if chr s2 =? 58 then _ else _) as [[[mm ss] s3]|] eqn:E; [|done].
  apply take_minutes_ok in E as [Hs3 Hm]. destruct (_ || _) eqn:E59; [done|]. simplify_eq.
  assert (Hs : suffix s2 s) by (by etrans).
  split_and!; [destruct neg; apply i32_range|by etrans|].
  intros Hn. destruct (Hm (short_suffix _ _ Hn Hs)) as [? ?]. unfold offset_ok.
  rewrite (i32_id (h * 3600 + mm * 60 + ss)) by lia. destruct neg; [rewrite i32_id|]; lia.
Qed.

Lemma take_int_ok s v rest : tz_take_int s = Some (v, rest) → 0 ≤ v ∧ suffix rest s.
Proof.
  unfold tz_take_int. destruct (is_digit _); [|done]. intros H. injection H as H.
  pose proof (take_digits_limit 100000 0 s ltac:(lia) ltac:(lia)) as Hv.
  pose proof (take_digits_suffix (Some 100000) 0 s) as Hs. rewrite H in Hv, Hs. simpl in Hv. split; [lia|done].
Qed.

Lemma take_rule_time_ok k a b c s r rest :
  take_rule_time k a b c s = Some (r, rest) →
  rule_ok (mkRule k a b c 0) →
  rule_ok r ∧ suffix rest s ∧ (short_numbers s → offset_ok (r_seconds r)).
Proof.
  unfold take_rule_time. intros H [Hr _]. pose proof (tail_suffix s) as Ht.
  destruct (chr s =? 47).
  - destruct (tz_take_offset (tail s)) as [[sec s']|] eqn:E; [|done].
    apply take_offset_ok in E as (Hi & Hs & Ho). simplify_eq. split; [done|split; [by etrans|]].
    intros Hn. apply Ho. by eapply short_suffix.
  - simplify_eq. split; [done|split; [done|]]. intros _. unfold offset_ok. simpl. lia.
Qed.

Lemma take_rule_ok s r rest :
  tz_take_rule s = Some (r, rest) →
  rule_ok r ∧ suffix rest s ∧ (short_numbers s → offset_ok (r_seconds r)).
Proof.
  intros H. assert (∃ k a b c s', take_rule_time k a b c s' = Some (r, rest) ∧
    rule_ok (mkRule k a b c 0) ∧ suffix s' s) as (k & a & b & c & s' & Ht & Hr & Hs).
  { unfold tz_take_rule in H. pose proof (tail_suffix s) as Hts. destruct (chr s =? 74).
    { destruct (tz_take_int (tail s)) as [[n s1]|] eqn:E; [|done]. apply take_int_ok in E as [? ?].
      destruct (_ || _) eqn:Eb in H; [done|].
      eexists _, _, _, _, _. split; [done|split; [split; [simpl; lia|done]|by etrans]]. }
    destruct (chr s =? 77).
    { destruct (tz_take_int (tail s)) as [[m s1]|] eqn:E1; [|done]. destruct (negb _); [done|].
      destruct (tz_take_int (tail s1)) as [[w s2]|] eqn:E2; [|done]. destruct (negb _); [done|].
      destruct (tz_take_int (tail s2)) as [[d s3]|] eqn:E3; [|done].
      apply take_int_ok in E1 as [_ ?], E2 as [_ ?], E3 as [_ ?].
      destruct (_ || _) eqn:Eb in H; [done|]. pose proof (tail_suffix s1). pose proof (tail_suffix s2).
      eexists _, _, _, _, _. split; [done|split; [split; [simpl; lia|done]|]].
      etrans; [done|]. etrans; [done|]. etrans; [done|]. etrans; [done|]. by etrans. }
    destruct (is_digit _); [|done].
    destruct (tz_take_int s) as [[n s1]|] eqn:E; [|done]. apply take_int_ok in E as [? ?].
    destruct (Z.ltb_spec 365 n); [done|].
    eexists _, _, _, _, _. split; [done|split; [split; [simpl; lia|done]|done]]. }
  destruct (take_rule_time_ok _ _ _ _ _ _ _ Ht Hr) as (Hok & Hsx & Ho).
  split; [done|split; [by etrans|]]. intros Hn. apply Ho. by eapply short_suffix.
Qed.

(** What [tz_parse] accepts. *)
Definition parsed_ok (p : tz_parsed) : Prop :=
  abbr_ok (abbr_std p) ∧ is_i32 (off_std p) ∧
  (has_dst p = true →
     abbr_ok (abbr_dst p) ∧ is_i32 (off_dst p) ∧ rule_ok (r_start p) ∧ rule_ok (r_end p)).

Definition times_ok (p : tz_parsed) : Prop :=
  offset_ok (off_std p) ∧
  (has_dst p = true →
     - 36003600 < off_dst p < 36000000 ∧
     offset_ok (r_seconds (r_start p)) ∧ offset_ok (r_seconds (r_end p))).

Lemma take_abbr_suffix s w rest : tz_take_abbr s KZ_TZ_ABBR_MAX = Some (w, rest) → suffix rest s.
Proof.
  unfold tz_take_abbr. destruct (take_alpha _ s) as [w' r'] eqn:E.
  destruct (take_alpha_spec _ _ _ _ E) as (_ & _ & ->). case_match; [|done].
  intros. simplify_eq. by exists w.
Qed.

Lemma tz_parse_ok rule p :
  tz_parse rule = Some p → parsed_ok p ∧ (short_numbers rule → times_ok p).
Proof.
  unfold tz_parse. intros H.
  destruct (tz_take_abbr rule _) as [[std s]|] eqn:E1; [|done].
  pose proof (take_abbr_suffix _ _ _ E1) as S1. apply take_abbr_ok in E1.
  destruct (tz_take_offset s) as [[ostd s1]|] eqn:E2; [|done].
  apply take_offset_ok in E2 as (I2 & S2 & B2).
  destruct s1 as [|c s1]; [simplify_eq; split; [done|]; intros Hn; split; [|done]; apply B2; by eapply short_suffix|].
  destruct (tz_take_abbr (c :: s1) _) as [[dst s2]|] eqn:E3; [|done].
  pose proof (take_abbr_suffix _ _ _ E3) as S3. apply take_abbr_ok in E3.
  assert (S13 : suffix s2 s) by (by etrans). assert (S03 : suffix s2 rule) by (by etrans).
  destruct (if negb (chr s2 =? 44) then _ else _) as [[odst s3]|] eqn:E4; [|done].
  assert (is_i32 odst ∧ suffix s3 s2 ∧ (short_numbers rule → - 36003600 < odst < 36000000))
    as (I4 & S4 & B4).
  { destruct (negb _).
    - apply take_offset_ok in E4 as (? & ? & Ho). split; [done|split; [done|]]. intros Hn.
      specialize (Ho (short_suffix _ _ Hn S03)). unfold offset_ok in Ho. lia.
    - simplify_eq. split; [apply i32_range|split; [done|]]. intros Hn.
      specialize (B2 (short_suffix _ _ Hn S1)). unfold offset_ok in B2. rewrite i32_id; lia. }
  clear E4. destruct (negb _); [done|]. pose proof (tail_suffix s3) as T3.
  destruct (tz_take_rule (tail s3)) as [[rs s4]|] eqn:E5; [|done].
  apply take_rule_ok in E5 as (R5 & S5 & B5). pose proof (tail_suffix s4) as T4.
  destruct (negb _); [done|].
  destruct (tz_take_rule (tail s4)) as [[re [|]]|] eqn:E6; [|done|done].
  apply take_rule_ok in E6 as (R6 & _ & B6). simplify_eq.
  assert (T3' : suffix (tail s3) rule) by (etrans; [done|]; by etrans).
  assert (T4' : suffix (tail s4) rule) by (etrans; [done|]; by etrans).
  split; [done|]. intros Hn. split; [apply B2; by eapply short_suffix|].
  intros _. split; [by apply B4|split; [apply B5|apply B6]; by eapply short_suffix].
Qed.

Lemma days_in_month_range y m : 1 ≤ m ≤ 12 → 28 ≤ kz_days_in_month y m ≤ 31.
Proof.
  intros Hm. destruct (Z.eq_dec m 2) as [->|].
  - rewrite days_in_feb. destruct (kz_is_leap y); lia.
  - rewrite days_in_month_mp by done. unfold mp_days, mp_of.
    destruct (Z.ltb_spec 2 m); zdiv.
Qed.

(** The day of a rule [Mm.w.d]: in month [m], on weekday [d], in the [w]-th week,
    the last one for [w = 5]. *)
Lemma rule_days_M r y :
  r_kind r = RuleM → rule_ok r →
  let dim := kz_days_in_month y (r_a r) in
  ∃ dom, tz_rule_days r y = kz_days_from_civil y (r_a r) dom ∧
    valid_date y (r_a r) dom ∧
    (tz_rule_days r y + 4) mod 7 = r_c r ∧
    (r_b r ≤ 4 → 7 * (r_b r - 1) < dom ≤ 7 * r_b r) ∧
    (r_b r = 5 → dim - 7 < dom).
Proof.
  intros Hk [Hr _] dim. rewrite Hk in Hr. destruct Hr as (Hm & Hw & Hd).
  pose proof (days_in_month_range y (r_a r) Hm) as Hdim. fold dim in Hdim.
  unfold tz_rule_days. rewrite Hk. fold dim.
  set (first := kz_days_from_civil y (r_a r) 1).
  assert (i32 (Z.rem (first + 4) 7) = Z.rem (first + 4) 7) as -> by (apply i32_id; zdiv).
  rewrite weekday_mod. set (wd := (first + 4) mod 7).
  assert (Hwd : 0 ≤ wd < 7) by (apply Z.mod_pos_bound; lia).
  rewrite (Z.rem_mod_nonneg _ 7) by lia.
  set (dom := 1 + (r_c r - wd + 7) mod 7 + (r_b r - 1) * 7).
  assert (Hdom : 7 * (r_b r - 1) < dom ≤ 7 * r_b r) by (unfold dom; zdiv).
  assert (Hlin : ∀ d, kz_days_from_civil y (r_a r) d = first + d - 1).
  { intros d. unfold first. rewrite !days_from_civil_eq by done. cbv zeta. lia. }
  exists (last_week 6 dom dim). split; [done|]. rewrite Hlin.
  assert (Hmod : (first + dom - 1 + 4) mod 7 = r_c r) by (unfold dom, wd; clear - Hd; clearbody first; zdiv).
  cbn [last_week]. destruct (Z.ltb_spec dim dom) as [Hl|Hl].
  - destruct (Z.ltb_spec dim (dom - 7)); [lia|].
    repeat split; try lia. clearbody dom. zdiv.
  - repeat split; try lia.
Qed.

(** The short date of the 15th is that of the 5th: the tens digit is not printed. *)
Lemma date_short_loses_tens out cap y m h mi s w yd :
  kz_fmt_date_short (Some (mkCivil y m 15 h mi s w yd)) out cap =
  kz_fmt_date_short (Some (mkCivil y m 5 h mi s w yd)) out cap.
Proof. reflexivity. Qed.

(** ** Theorems *)

(** For every day number within 2^39 of the epoch, [kz_civil_from_days] gives a
    date of the proleptic Gregorian calendar which [kz_days_from_civil] maps back to
    that day; and for every such date with a year within 2^30, converting to a day
    number and back gives the date again.  So the two functions are inverse
    bijections between days and dates on that range. *)
Theorem civil_days_roundtrip z y0 m0 d0 :
  - 2 ^ 39 ≤ z ≤ 2 ^ 39 → - 2 ^ 30 ≤ y0 ≤ 2 ^ 30 → valid_date y0 m0 d0 →
  (let '(y, m, d) := kz_civil_from_days z in
   valid_date y m d ∧ kz_days_from_civil y m d = z) ∧
  kz_civil_from_days (kz_days_from_civil y0 m0 d0) = (y0, m0, d0).
Proof.
  intros Hz Hy Hv. split; [by apply civil_from_days_ok|by apply civil_from_days_inv].
Qed.

Lemma civil_days_roundtrip_witness :
  (let '(y, m, d) := kz_civil_from_days (-719468) in
   valid_date y m d ∧ kz_days_from_civil y m d = -719468) ∧
  kz_civil_from_days (kz_days_from_civil 2024 2 29) = (2024, 2, 29).
Proof.
  apply (civil_days_roundtrip (-719468) 2024 2 29); [lia|lia|].
  split; vm_compute; intuition congruence.
Defined.

(** [kz_days_from_civil] is the day count from 1970-01-01: that date is day 0 and
    the number of the calendar's next date, by the month lengths and the leap-year
    rule, is one more, for every year. *)
Theorem days_from_civil_counts_days y m d :
  valid_date y m d →
  kz_days_from_civil 1970 1 1 = 0 ∧
  (let '(y', m', d') := next_date y m d in
   valid_date y' m' d' ∧ kz_days_from_civil y' m' d' = kz_days_from_civil y m d + 1).
Proof. intros Hv. split; [reflexivity|by apply days_from_civil_next]. Qed.

Lemma days_from_civil_counts_days_witness :
  kz_days_from_civil 1970 1 1 = 0 ∧
  (let '(y', m', d') := next_date 1900 2 28 in
   valid_date y' m' d' ∧ kz_days_from_civil y' m' d' = kz_days_from_civil 1900 2 28 + 1).
Proof.
  apply (days_from_civil_counts_days 1900 2 28). split; vm_compute; intuition congruence.
Defined.

(** [kz_civil_from_unix] breaks any second count within 2^55 of the epoch into a
    valid date, a time of day within range, the right weekday (1970-01-01 was a
    Thursday) and a day of the year from 0 to 365, before the epoch too, and
    [kz_civil_to_unix] recovers the second count. *)
Theorem civil_unix_roundtrip t :
  - 2 ^ 55 ≤ t ≤ 2 ^ 55 →
  let c := kz_civil_from_unix t in
  kz_civil_to_unix c = t ∧
  valid_date (year c) (month c) (day c) ∧
  0 ≤ hour c < 24 ∧ 0 ≤ minute c < 60 ∧ 0 ≤ second c < 60 ∧
  weekday c = (t / 86400 + 4) mod 7 ∧
  0 ≤ yday c ≤ 365 ∧ kz_days_from_civil (year c) 1 1 + yday c = t / 86400.
Proof.
  intros Ht c. subst c. pose proof (civil_from_unix_eq t Ht) as Heq.
  pose proof (civil_from_days_ok (t / 86400) ltac:(zdiv)) as Hok.
  destruct (kz_civil_from_days (t / 86400)) as [[y m] d]. destruct Hok as [Hv Hz].
  rewrite Heq. unfold kz_civil_to_unix. cbn [year month day hour minute second weekday yday].
  pose proof (yday_range y m d Hv). rewrite Hz in *. clear Heq.
  split; [zdiv|]. split; [done|]. repeat split; zdiv.
Qed.

Lemma civil_unix_roundtrip_witness :
  kz_civil_to_unix (kz_civil_from_unix (-1)) = -1.
Proof. apply (civil_unix_roundtrip (-1)). lia. Defined.

(** C39: Whatever [tz_parse] accepts has abbreviations of 3 to 7 letters (they fit their
    8-byte arrays with the terminator) and transition rules whose month, week, weekday
    and day numbers are in range.  If no number of the text has more than nine digits,
    the offsets and the transition times are also less than 10000 hours (10001 for the
    default summer offset).  Without that condition they are only [int32_t] values, since
    the minutes and seconds are accumulated without a limit and wrap. *)
Theorem tz_parse_sound rule p :
  tz_parse rule = Some p → parsed_ok p ∧ (short_numbers rule → times_ok p).
Proof. apply tz_parse_ok. Qed.

Lemma tz_parse_sound_witness :
  ∃ p, tz_parse (cs "EST5EDT,M3.2.0,M11.1.0") = Some p ∧ parsed_ok p.
Proof.
  eexists. split; [reflexivity|].
  exact (proj1 (tz_parse_sound (cs "EST5EDT,M3.2.0,M11.1.0") _ eq_refl)).
Defined.

(** The minutes wrap: the parser accepts 2^32 + 1 minutes as one minute, and minutes that
    wrap to a negative number as that number. *)
Lemma minutes_wrap :
  tz_take_offset (cs "5:4294967297") = Some (5 * 3600 + 60, []) ∧
  tz_take_offset (cs "5:4292967296") = Some (5 * 3600 - 2000000 * 60, []).
Proof. by vm_compute. Qed.

(** The day [tz_rule_days] computes for a rule [Mm.w.d] is in month [m] of the
    year, falls on weekday [d], and is the [w]-th such day of the month, or the last
    one when [w] is 5. *)
Theorem tz_rule_days_month_week_day r y :
  r_kind r = RuleM → rule_ok r →
  let dim := kz_days_in_month y (r_a r) in
  ∃ dom, tz_rule_days r y = kz_days_from_civil y (r_a r) dom ∧
    valid_date y (r_a r) dom ∧
    (tz_rule_days r y + 4) mod 7 = r_c r ∧
    (r_b r ≤ 4 → 7 * (r_b r - 1) < dom ≤ 7 * r_b r) ∧
    (r_b r = 5 → dim - 7 < dom).
Proof. apply rule_days_M. Qed.

Lemma tz_rule_days_month_week_day_witness :
  ∃ dom, tz_rule_days (mkRule RuleM 3 5 0 3600) 2026 = kz_days_from_civil 2026 3 dom ∧
    valid_date 2026 3 dom ∧ (5 = 5 → 31 - 7 < dom).
Proof.
  destruct (tz_rule_days_month_week_day (mkRule RuleM 3 5 0 3600) 2026)
    as (dom & H1 & H2 & _ & _ & H3); [reflexivity|split; [simpl; lia|done]|].
  exists dom. split; [exact H1|split; [exact H2|exact H3]].
Defined.

Definition zone_offsets_ok (z : kz_zone) : bool :=
  match tz_parse (cs (z_rule z)) with
  | None => false
  | Some p =>
      (-50400 <=? off_std p) && (off_std p <=? 43200) &&
      (-50400 <=? off_dst p) && (off_dst p <=? 43200)
  end.

Lemma zones_ok : forallb zone_offsets_ok g_zones = true.
Proof. vm_compute. reflexivity. Qed.

(** Every rule of the built-in zone table parses, and the local time
    [kz_civil_local] shows in that zone is a valid date and time which differs from
    UTC by the offset [kz_tz_offset] gives, at most 12 hours behind and 14 ahead. *)
Theorem zone_local_time z t :
  z ∈ g_zones → - 2 ^ 54 ≤ t ≤ 2 ^ 54 →
  let rule := cs (z_rule z) in
  let c := kz_civil_local rule t in
  tz_parse rule ≠ None ∧
  - 43200 ≤ kz_tz_offset rule t ≤ 50400 ∧
  kz_civil_to_unix c = t + kz_tz_offset rule t ∧
  valid_date (year c) (month c) (day c).
Proof.
  intros Hz Ht rule c. pose proof zones_ok as Hok. rewrite forallb_forall in Hok.
  specialize (Hok z ltac:(by apply list_elem_of_In)). unfold zone_offsets_ok in Hok.
  fold rule in Hok.
  assert (Hoff : tz_parse rule ≠ None ∧ - 43200 ≤ kz_tz_offset rule t ≤ 50400).
  { unfold kz_tz_offset. destruct (tz_parse rule) as [p|]; [|done]. split; [done|].
    destruct (has_dst p && _); rewrite i32_id; lia. }
  destruct Hoff as [Hp Hoff]. split; [done|]. split; [done|].
  unfold c, kz_civil_local. set (u := t + kz_tz_offset rule t).
  assert (Hu : - 2 ^ 55 ≤ u ≤ 2 ^ 55) by lia.
  pose proof (civil_from_unix_eq u Hu) as Heq.
  pose proof (civil_from_days_ok (u / 86400) ltac:(clearbody u; zdiv)) as Hd.
  destruct (kz_civil_from_days (u / 86400)) as [[y m] d]. destruct Hd as [Hv Hzz].
  rewrite Heq. split; [|exact Hv].
  unfold kz_civil_to_unix. cbn [year month day hour minute second]. rewrite Hzz.
  clearbody u. clear. zdiv.
Qed.

Lemma zone_local_time_witness :
  kz_civil_to_unix (kz_civil_local (cs "WIB-7") 0) = 0 + kz_tz_offset (cs "WIB-7") 0.
Proof.
  apply (zone_local_time (mkZone "Asia/Jakarta" "Jakarta" "WIB-7") 0); [left|lia].
Defined.

(** Each formatter, for every buffer size, leaves a terminated string that is its
    text cut to [cap - 1] characters, and changes no byte at or past [cap].  The text
    of the short date has only the last digit of the day. *)
Theorem formatters_print out cap h mi s h12 t :
  1 ≤ cap ≤ zlength out →
  printed out cap (hhmm_text h mi h12) (kz_fmt_hhmm h mi h12 out cap) ∧
  printed out cap (hhmmss_text h mi s h12) (kz_fmt_hhmmss h mi s h12 out cap) ∧
  printed out cap (date_long_text t) (kz_fmt_date_long (Some t) out cap) ∧
  printed out cap (date_short_text t) (kz_fmt_date_short (Some t) out cap) ∧
  printed out cap (date_iso_text t) (kz_fmt_date_iso (Some t) out cap).
Proof. apply fmt_printed. Qed.

Lemma formatters_print_witness :
  printed (repeat 170 8) 6 (hhmm_text 9 5 0) (kz_fmt_hhmm 9 5 0 (repeat 170 8) 6).
Proof.
  apply (formatters_print (repeat 170 8) 6 9 5 0 0 (kz_civil_from_unix 0)).
  vm_compute. intuition congruence.
Defined.

(** The preference record survives [kz_time_cfg_encode] and [kz_time_cfg_decode],
    and decoding arbitrary bytes, of any length, gives a zone of the table and an
    [hour12] flag of 0 or 1. *)
Theorem time_cfg_roundtrip cfg buf n :
  0 ≤ cfg_zone cfg < zlength g_zones → cfg_hour12 cfg = 0 ∨ cfg_hour12 cfg = 1 →
  kz_time_cfg_decode (Some (kz_time_cfg_encode (Some cfg))) KZ_TIME_CFG_LEN = cfg ∧
  (∀ cfg', kz_time_cfg_decode buf n = cfg' →
     0 ≤ cfg_zone cfg' < zlength g_zones ∧ (cfg_hour12 cfg' = 0 ∨ cfg_hour12 cfg' = 1)).
Proof.
  change (zlength g_zones) with 32. intros Hz Hh. split.
  - destruct cfg as [z h]. unfold kz_time_cfg_decode, kz_time_cfg_encode. simpl in *.
    replace (z <? 0) with false by lia. rewrite u8_id by lia.
    change (mkCfg (if (0 <=? z) && (z <? 32) then z else kz_zone_default)
              (if negb (Z.land (if negb (h =? 0) then 1 else 0) 1 =? 0) then 1 else 0)
            = mkCfg z h).
    replace (0 <=? z) with true by lia. replace (z <? 32) with true by lia.
    by destruct Hh as [-> | ->].
  - intros cfg' <-. unfold kz_time_cfg_decode.
    assert (Hd : 0 ≤ kz_zone_default < 32) by (vm_compute; intuition congruence).
    destruct buf as [b|]; [|by split; [|left]].
    destruct (negb _); [by split; [|left]|]. destruct (_ || _); [by split; [|left]|].
    cbn [cfg_zone cfg_hour12]. change (zlength g_zones) with 32.
    split; [destruct (_ && _) eqn:E; lia|]. destruct (negb _); auto.
Qed.

Lemma time_cfg_roundtrip_witness :
  kz_time_cfg_decode (Some (kz_time_cfg_encode (Some (mkCfg 18 1)))) KZ_TIME_CFG_LEN
  = mkCfg 18 1.
Proof.
  apply (time_cfg_roundtrip (mkCfg 18 1) None 0); [vm_compute; intuition congruence|by right].
Defined.
