(* ===== verification/Ata.v ===== *)
(** [drivers/ata.c], lines 247 to 322: 4 KB block transfers on top of the driver's
    sector commands.

    The sector commands program the controller's ports and are the interface
    [SectorDev]; its laws say what one command does to the disk's sectors, a failed
    write being free to leave any contents in its own sector.  LBA28 addressing
    carries 28 bits, so the laws hold below sector 2^28.  A buffer is the list of
    its bytes, before and after. *)

From S2P Require Import Prelude.

Class SectorDev (D : Type) := {
  ata_read_sector : Z → D → Z * list Z * D;
  (** The third argument is what the buffer held before. *)
  ata_read_sectors_batched : Z → Z → list Z → D → Z * list Z * D;
  ata_write_sector : Z → list Z → D → Z * D;
  read_path_batch : D → bool;
  (** The bytes of a sector. *)
  sector : D → Z → list Z;
}.

Class SectorDevOk (D : Type) `{SectorDev D} := {
  sector_length d lba : length (sector d lba) = 512%nat;
  read_sector_spec lba d rc bs d' :
    ata_read_sector lba d = (rc, bs, d') →
    length bs = 512%nat ∧ (∀ l, sector d' l = sector d l) ∧
    (rc = 0 → 0 ≤ lba < 2 ^ 28 → bs = sector d lba);
  read_batched_spec lba n old d rc bs d' :
    ata_read_sectors_batched lba n old d = (rc, bs, d') → 0 ≤ n ≤ 8 →
    length old = (512 * Z.to_nat n)%nat →
    length bs = (512 * Z.to_nat n)%nat ∧ (∀ l, sector d' l = sector d l) ∧
    (rc = 0 → 0 ≤ lba → lba + n ≤ 2 ^ 28 →
       bs = concat (map (sector d) (seqZ lba n)));
  write_sector_spec lba bs d rc d' :
    ata_write_sector lba bs d = (rc, d') → 0 ≤ lba < 2 ^ 28 → length bs = 512%nat →
    (∀ l, l ≠ lba → sector d' l = sector d l) ∧
    (rc = 0 → sector d' lba = bs);
}.

Definition KZFS_BLOCK_SECTORS : Z := 8.
Definition ATA_READ_BATCH_MAX_SECTORS : Z := 8.

Section block4k.
Context {D : Type} `{SectorDev D}.

(** The loop of single-sector reads, [lba + s] being 32 bits wide. *)
Definition read_loop (lba count : Z) (buf : list Z) (d : D) : Z * list Z * D :=
  match for_range 0 count
          (λ s '(buf, d),
             let '(rc, bs, d) := ata_read_sector (u32 (lba + s)) d in
             if negb (rc =? 0) then inl (rc, buf, d)
             else inr (splice buf (s * 512) bs, d)) (buf, d) with
  | inl r => r
  | inr (buf, d) => (0, buf, d)
  end.

(** [while (count > 0)] of the batched path; each turn takes at least a sector. *)
Fixpoint batch_loop (fuel : nat) (lba count off : Z) (buf : list Z) (d : D)
    : Z * list Z * D :=
  match fuel with
  | O => (0, buf, d)
  | S f =>
      if count <=? 0 then (0, buf, d) else
      let n := if ATA_READ_BATCH_MAX_SECTORS <? count
               then ATA_READ_BATCH_MAX_SECTORS else count in
      let '(rc, bs, d) := ata_read_sectors_batched lba n (slice off (n * 512) buf) d in
      let buf := splice buf off bs in
      if negb (rc =? 0) then (rc, buf, d)
      else batch_loop f (u32 (lba + n)) (count - n) (off + n * 512) buf d
  end.

Definition ata_read_range (lba count : Z) (buf : list Z) (d : D) : Z * list Z * D :=
  if count =? 0 then (-1, buf, d)
  else if negb (read_path_batch d) then read_loop lba count buf d
  else batch_loop (Z.to_nat count) lba count 0 buf d.

Definition ata_read_block4k_legacy (block_num : Z) (buf : list Z) (d : D) : Z * list Z * D :=
  read_loop (u32 (block_num * KZFS_BLOCK_SECTORS)) KZFS_BLOCK_SECTORS buf d.

Definition ata_read_block4k (block_num : Z) (buf : list Z) (d : D) : Z * list Z * D :=
  if read_path_batch d then
    ata_read_range (u32 (block_num * KZFS_BLOCK_SECTORS)) KZFS_BLOCK_SECTORS buf d
  else ata_read_block4k_legacy block_num buf d.

Definition ata_write_block4k (block_num : Z) (buf : list Z) (d : D) : Z * D :=
  let lba0 := u32 (block_num * KZFS_BLOCK_SECTORS) in
  match for_range 0 KZFS_BLOCK_SECTORS
          (λ s d,
             let '(rc, d) := ata_write_sector (u32 (lba0 + s)) (slice (s * 512) 512 buf) d in
             if negb (rc =? 0) then inl (rc, d) else inr d) d with
  | inl r => r
  | inr d => (0, d)
  end.

(** ** Blocks *)

(** The block numbers whose sectors LBA28 reaches. *)
Definition MAX_BLOCK : Z := 2 ^ 25.

(** The contents of a block: its eight sectors. *)
Definition dblk (d : D) (n : Z) : list Z :=
  concat (map (sector d) (seqZ (n * 8) 8)).

(** ** Lemmas *)
Context `{!SectorDevOk D}.

Lemma sectors_length d lba n :
  0 ≤ n → length (concat (map (sector d) (seqZ lba n))) = (512 * Z.to_nat n)%nat.
Proof.
  intros Hn. rewrite length_concat, map_map.
  rewrite (map_ext _ (λ _, 512%nat)) by (intros; apply sector_length).
  replace (Z.to_nat n) with (length (seqZ lba n)) by (rewrite length_seqZ; lia).
  induction (seqZ lba n); simpl; lia.
Qed.

Lemma dblk_length d n : length (dblk d n) = 4096%nat.
Proof. unfold dblk. by rewrite sectors_length. Qed.

(** Blocks agree where sectors do. *)
Lemma dblk_ext d d' n :
  (∀ s, n * 8 ≤ s < n * 8 + 8 → sector d' s = sector d s) → dblk d' n = dblk d n.
Proof.
  intros Hs. unfold dblk. f_equal. apply map_ext_in. intros s Hin.
  apply list_elem_of_In, elem_of_seqZ in Hin. apply Hs. lia.
Qed.

(** Writing the next chunk after a known prefix. *)
Lemma splice_prefix buf pre bs off n :
  off = zlength pre → n = (length pre + length bs)%nat →
  take (length pre) buf = pre → take n (splice buf off bs) = pre ++ bs.
Proof.
  intros -> -> Hp. unfold splice, zlength. rewrite Nat2Z.id, Hp, app_assoc.
  rewrite <- length_app. by rewrite take_app_length.
Qed.

Lemma read_loop_ok lba count buf d rc buf' d' :
  0 ≤ lba → 0 ≤ count → lba + count ≤ 2 ^ 28 → length buf = (512 * Z.to_nat count)%nat →
  read_loop lba count buf d = (rc, buf', d') →
  length buf' = length buf ∧ (∀ l, sector d' l = sector d l) ∧
  (rc = 0 → buf' = concat (map (sector d) (seqZ lba count))).
Proof.
  intros Hlba Hc Hmax Hlen. unfold read_loop.
  pose proof (for_range_rule
    (λ s '(b, d1), length b = length buf ∧ (∀ l, sector d1 l = sector d l) ∧
       take (512 * Z.to_nat s) b = concat (map (sector d) (seqZ lba s)))
    (λ '(rc, b, d1), rc ≠ 0 ∧ length b = length buf ∧ (∀ l, sector d1 l = sector d l))
    0 count
    (λ s '(buf, d),
       let '(rc, bs, d) := ata_read_sector (u32 (lba + s)) d in
       if negb (rc =? 0) then inl (rc, buf, d)
       else inr (splice buf (s * 512) bs, d)) (buf, d)) as Hloop.
  match type of Hloop with ?A → ?B → ?C => assert A as HA; [|assert B as HB] end.
  - split_and!; [done|done|]. by rewrite seqZ_nil by lia.
  - intros s [b d1] Hs (Hb & Hd1 & Hpre). rewrite u32_id by lia.
    destruct (ata_read_sector (lba + s) d1) as [[rc1 bs] d2] eqn:E.
    apply read_sector_spec in E as (Hbs & Hd2 & Hok).
    destruct (Z.eqb_spec rc1 0) as [->|Hne]; simpl.
    2:{ split_and!; [done|done|]. intros l. by rewrite Hd2. }
    specialize (Hok eq_refl ltac:(lia)).
    pose proof (sectors_length d lba s ltac:(lia)) as Hsl.
    split_and!.
    + rewrite splice_length; [done|lia|unfold zlength; lia].
    + intros l. by rewrite Hd2.
    + rewrite (splice_prefix _ (concat (map (sector d) (seqZ lba s))));
        [|unfold zlength; lia|lia|by rewrite Hsl].
      rewrite (seqZ_app lba s 1) by lia.
      rewrite map_app, concat_app. f_equal. simpl. rewrite app_nil_r, Hok. apply Hd1.
  - specialize (Hloop HA HB). intros E.
    destruct (for_range 0 count _ _) as [[[r b] d1]|[b d1]]; simplify_eq.
    + destruct Hloop as (? & ? & ?). by split_and!.
    + destruct Hloop as (Hb & Hd & Ht). rewrite Z.max_r in Ht by lia.
      split_and!; [done|done|]. intros _. by rewrite <- Ht, firstn_all2 by lia.
Qed.

(** Eight sectors are one batch. *)
Lemma batch_loop_8 f lba buf d :
  batch_loop (S (S f)) lba 8 0 buf d =
  let '(rc, bs, d) := ata_read_sectors_batched lba 8 (slice 0 4096 buf) d in
  (rc, splice buf 0 bs, d).
Proof.
  remember (S f) as g eqn:Hg. simpl. change (8 * 512) with 4096.
  destruct (ata_read_sectors_batched lba 8 (slice 0 4096 buf) d) as [[rc bs] d1].
  destruct (Z.eqb_spec rc 0) as [->|]; simpl; [|done]. by subst g.
Qed.

(** Both read paths give the block, or fail and leave the disk as it is. *)
Lemma ata_read_block4k_ok n buf d rc buf' d' :
  0 ≤ n < MAX_BLOCK → length buf = 4096%nat →
  ata_read_block4k n buf d = (rc, buf', d') →
  length buf' = 4096%nat ∧ (∀ l, sector d' l = sector d l) ∧ (rc = 0 → buf' = dblk d n).
Proof.
  unfold MAX_BLOCK. intros Hn Hl.
  unfold ata_read_block4k, ata_read_block4k_legacy, KZFS_BLOCK_SECTORS.
  rewrite u32_id by lia. destruct (read_path_batch d) eqn:Ep.
  - unfold ata_read_range. rewrite Ep. cbn [Z.eqb negb].
    change (Z.to_nat 8) with 8%nat. rewrite batch_loop_8.
    destruct (ata_read_sectors_batched (n * 8) 8 (slice 0 4096 buf) d)
      as [[rc1 bs] d1] eqn:E. intros Hr. simplify_eq.
    apply read_batched_spec in E as (Hbs & Hd & Hok); [|lia|].
    2:{ unfold slice. rewrite length_take, length_drop. lia. }
    assert (splice buf 0 bs = bs) as ->.
    { unfold splice. simpl. rewrite drop_ge by lia. apply app_nil_r. }
    split_and!; [lia|done|]. intros Hrc. apply Hok; [done|lia|lia].
  - intros Hr. apply read_loop_ok in Hr as (Hb & Hd & Hok); [|lia|lia|lia|lia].
    split_and!; [lia|done|done].
Qed.

(** A block is the concatenation of its eight 512-byte pieces. *)
Lemma block_pieces buf :
  length buf = 4096%nat → concat (map (λ s, slice (s * 512) 512 buf) (seqZ 0 8)) = buf.
Proof.
  intros Hl.
  assert (∀ k : nat, (k ≤ 8)%nat →
    concat (map (λ s, slice (s * 512) 512 buf) (seqZ 0 (Z.of_nat k))) = take (512 * k) buf)
    as Hk.
  { induction k as [|k IH]; intros Hk8; [done|].
    replace (Z.of_nat (S k)) with (Z.of_nat k + 1) by lia.
    rewrite seqZ_app, map_app, concat_app, IH by lia.
    rewrite (seqZ_cons _ 1), seqZ_nil by lia. cbn [map concat]. rewrite app_nil_r.
    unfold slice. replace (Z.to_nat ((0 + Z.of_nat k) * 512)) with (512 * k)%nat by lia.
    rewrite take_take_drop. f_equal. lia. }
  specialize (Hk 8%nat ltac:(lia)). rewrite firstn_all2 in Hk by lia. exact Hk.
Qed.

(** A write that succeeds stores the block; either way no other block changes. *)
Lemma ata_write_block4k_ok n buf d rc d' :
  0 ≤ n < MAX_BLOCK → length buf = 4096%nat →
  ata_write_block4k n buf d = (rc, d') →
  (∀ k, k ≠ n → dblk d' k = dblk d k) ∧ (rc = 0 → dblk d' n = buf).
Proof.
  unfold MAX_BLOCK. intros Hn Hl. unfold ata_write_block4k, KZFS_BLOCK_SECTORS.
  rewrite u32_id by lia.
  set (same := λ d1, ∀ l, ¬ (n * 8 ≤ l < n * 8 + 8) → sector d1 l = sector d l).
  pose proof (for_range_rule
    (λ s d1, same d1 ∧ ∀ k, 0 ≤ k < s → sector d1 (n * 8 + k) = slice (k * 512) 512 buf)
    (λ '(rc, d1), rc ≠ 0 ∧ same d1) 0 8
    (λ s d, let '(rc, d) := ata_write_sector (u32 (n * 8 + s)) (slice (s * 512) 512 buf) d in
            if negb (rc =? 0) then inl (rc, d) else inr d) d) as Hloop.
  match type of Hloop with ?A → ?B → ?C => assert A as HA; [|assert B as HB] end.
  - split; [by intros|intros; lia].
  - intros s d1 Hs (Hsame & Hk). rewrite u32_id by lia.
    destruct (ata_write_sector (n * 8 + s) (slice (s * 512) 512 buf) d1) as [rc1 d2] eqn:E.
    apply write_sector_spec in E as (Ho & Hw); [|lia|].
    2:{ pose proof (slice_length (s * 512) 512 buf) as Hsl. unfold zlength in Hsl. lia. }
    assert (Hsame2 : same d2) by (intros l Hnl; rewrite Ho by lia; by apply Hsame).
    destruct (Z.eqb_spec rc1 0) as [->|]; cbn [negb]; [|by split].
    split; [done|]. intros k Hkk. destruct (Z.eq_dec k s) as [->|]; [by apply Hw|].
    rewrite Ho by lia. apply Hk. lia.
  - specialize (Hloop HA HB). intros E.
    assert (Hsk : ∀ d1, same d1 → ∀ k, k ≠ n → dblk d1 k = dblk d k).
    { intros d1 Hs k Hk. apply dblk_ext. intros l Hr. apply Hs. lia. }
    destruct (for_range 0 8 _ d) as [[r d1]|d1]; simplify_eq.
    + destruct Hloop as [? Hs]. split; [by apply Hsk|done].
    + destruct Hloop as [Hs Hk]. split; [by apply Hsk|]. intros _.
      rewrite <- (block_pieces buf Hl). unfold dblk. f_equal.
      replace (seqZ (n * 8) 8) with (Z.add (n * 8) <$> seqZ 0 8)
        by (rewrite fmap_add_seqZ; f_equal; lia).
      change (fmap ?f ?l) with (map f l). rewrite map_map. apply map_ext_in.
      intros k Hin. apply list_elem_of_In, elem_of_seqZ in Hin. apply Hk. lia.
Qed.
End block4k.

(** ** An array of sectors *)

(** A disk that never fails: the sectors written, zeros elsewhere. *)
Abbreviation ramdisk := (gmap Z (list Z)).

Definition ram_sector (d : ramdisk) (lba : Z) : list Z :=
  let s := default [] (d !! lba) in
  if Nat.eqb (length s) 512 then s else repeat 0 512.

#[global] Instance ramdisk_dev : SectorDev ramdisk := {
  ata_read_sector lba d := (0, ram_sector d lba, d);
  ata_read_sectors_batched lba n old d :=
    (0, concat (map (ram_sector d) (seqZ lba n)), d);
  ata_write_sector lba bs d := (0, <[lba := bs]> d);
  read_path_batch d := false;
  sector := ram_sector;
}.

Lemma ram_sector_length d lba : length (ram_sector d lba) = 512%nat.
Proof.
  unfold ram_sector. destruct (Nat.eqb_spec (length (default [] (d !! lba))) 512); [done|].
  by rewrite repeat_length.
Qed.

#[global] Instance ramdisk_ok : SectorDevOk ramdisk.
Proof.
  constructor; simpl.
  - apply ram_sector_length.
  - intros lba d rc bs d' E. simplify_eq. split_and!; [apply ram_sector_length|done|done].
  - intros lba n old d rc bs d' E Hn Hold. simplify_eq. split_and!; [|done|done].
    rewrite length_concat, map_map.
    rewrite (map_ext _ (λ _, 512%nat)) by (intros; apply ram_sector_length).
    replace (Z.to_nat n) with (length (seqZ lba n)) by (rewrite length_seqZ; lia).
    induction (seqZ lba n); simpl; lia.
  - intros lba bs d rc d' E Hl Hbs. simplify_eq. unfold ram_sector. split.
    + intros l Hne. by rewrite lookup_insert_ne.
    + intros _. rewrite lookup_insert_eq. simpl. by rewrite Hbs.
Qed.
