(* ===== verification/BlockIO.v ===== *)
(** The interface between the file system and the block cache.

    The file system uses [bcache] in three patterns, always releasing the buffer
    before it takes another:
    - [bcache_read], copy out, [bcache_release]: [io_read];
    - [bcache_read], change the data, [bcache_mark_dirty], [bcache_release]:
      [io_modify];
    - [bcache_get], fill the data, [bcache_mark_dirty], [bcache_release]:
      [io_overwrite];
    and [bcache_flush_all].  [io_view] is the contents of each block as the file
    system sees it, [io_disk] what the device itself holds and would still hold if
    memory were lost; [io_durable] says that the device accepts what is written back.
    The laws are what the file system's theorems rely on; the block
    cache of [BCache] meets them, and so does the plain array of blocks below. *)

From S2P Require Import Prelude.

Definition BLK : nat := 4096.

Class BlockIO (S : Type) := {
  io_ok : S → Prop;
  io_limit : Z;
  io_view : S → Z → list Z;
  io_disk : S → Z → list Z;
  io_durable : Prop;
  io_read : Z → S → option (list Z) * S;
  io_modify : Z → (list Z → list Z) → S → bool * S;
  io_overwrite : Z → list Z → S → bool * S;
  io_flush : S → S;
}.

(** Block [n] holds [b], every other block is as before. *)
Definition view_put {S} `{BlockIO S} (s s' : S) (n : Z) (b : list Z) : Prop :=
  ∀ m, io_view s' m = if decide (m = n) then b else io_view s m.

Definition view_same {S} `{BlockIO S} (s s' : S) : Prop :=
  ∀ m, io_view s' m = io_view s m.

Class BlockIOok (S : Type) `{BlockIO S} := {
  io_view_length s n : io_ok s → length (io_view s n) = BLK;
  io_read_spec n s :
    io_ok s → 0 ≤ n < io_limit →
    let '(r, s') := io_read n s in
    io_ok s' ∧ view_same s s' ∧
    match r with Some b => b = io_view s n | None => True end;
  io_modify_spec n f s :
    io_ok s → 0 ≤ n < io_limit → length (f (io_view s n)) = BLK →
    let '(r, s') := io_modify n f s in
    io_ok s' ∧ (if r then view_put s s' n (f (io_view s n)) else view_same s s');
  io_overwrite_spec n b s :
    io_ok s → 0 ≤ n < io_limit → length b = BLK →
    let '(r, s') := io_overwrite n b s in
    io_ok s' ∧ (if r then view_put s s' n b else view_same s s');
  io_flush_spec s :
    io_ok s →
    io_ok (io_flush s) ∧ view_same s (io_flush s) ∧
    (io_durable → ∀ n, io_disk (io_flush s) n = io_view s n);
}.

Section same.
Context {S : Type} `{BlockIO S}.

#[global] Instance view_same_equiv : Equivalence (@view_same S _).
Proof.
  split; [by intros s m|by intros s t Ht m|]. intros s t u Ht Hu m. by rewrite Hu, Ht.
Qed.

Lemma view_put_at s s' n b : view_put s s' n b → io_view s' n = b.
Proof. intros Hp. rewrite (Hp n). by rewrite decide_True. Qed.

Lemma view_put_other s s' n b m : view_put s s' n b → m ≠ n → io_view s' m = io_view s m.
Proof. intros Hp Hm. rewrite (Hp m). by rewrite decide_False. Qed.
End same.

(** ** An array of blocks *)
Definition ram_block (s : gmap Z (list Z)) (n : Z) : list Z :=
  let b := default [] (s !! n) in if Nat.eqb (length b) BLK then b else repeat 0 BLK.

#[global] Instance ram_io : BlockIO (gmap Z (list Z)) := {
  io_ok _ := True;
  io_limit := 2 ^ 25;
  io_view := ram_block;
  io_disk := ram_block;
  io_durable := True;
  io_read n s := (Some (ram_block s n), s);
  io_modify n f s := (true, <[n := f (ram_block s n)]> s);
  io_overwrite n b s := (true, <[n := b]> s);
  io_flush s := s;
}.

Lemma ram_put (s : gmap Z (list Z)) n b : length b = BLK → view_put s (<[n := b]> s) n b.
Proof.
  intros Hb m. unfold io_view. simpl. unfold ram_block. case_decide as Hm.
  - subst m. rewrite lookup_insert_eq. simpl. by rewrite Hb.
  - by rewrite lookup_insert_ne.
Qed.

#[global] Instance ram_io_ok : BlockIOok (gmap Z (list Z)).
Proof.
  split.
  - intros s n _. unfold io_view. simpl. unfold ram_block.
    destruct (Nat.eqb_spec (length (default [] (s !! n))) BLK); [done|apply repeat_length].
  - intros n s _ _. simpl. split_and!; [done|by intros m|done].
  - intros n f s _ _ Hf. split; [done|]. by apply ram_put.
  - intros n b s _ _ Hb. split; [done|]. by apply ram_put.
  - intros s _. by split_and!; [|intros m|].
Qed.
