(* ===== verification/BCache.v ===== *)
(** [kernel/fs/bcache.c]: the write-back cache of 4 KB disk blocks.

    The pool is the list of its entries and a pointer to an entry is its index,
    [None] being [NULL]; hash chains and the LRU list are followed and relinked
    through the [hash_next], [lru_prev] and [lru_next] fields, as in the code.
    [bcache_lock] is held during each operation, disk transfers included, so an
    operation is one step.  The contents a caller writes through a pinned buffer's
    [data] is [set_data].

    The theorems say what the cache promises to the file system: the contents of
    each block it shows ([view]) change only by the caller's own writes, whatever is
    evicted and whichever transfer fails. *)

From S2P Require Import Prelude Ata BlockIO.

Definition BCACHE_BLOCK_SIZE : Z := 4096.
Definition BCACHE_N_BLOCKS : nat := 256.
Definition BCACHE_HASH_SIZE : nat := 256.

Record block_buffer := mkBB {
  block_num : Z; refcount : Z; dirty : bool; valid : bool; bdata : list Z;
  hash_next : option nat; lru_prev : option nat; lru_next : option nat
}.

Record bcache (D : Type) := mkCache {
  pool : list block_buffer;
  hash_table : list (option nat);
  lru_head : option nat;
  lru_tail : option nat;
  stat_hit : Z;
  stat_miss : Z;
  disk : D
}.
Arguments mkCache {D}.
Arguments pool {D}.
Arguments hash_table {D}.
Arguments lru_head {D}.
Arguments lru_tail {D}.
Arguments stat_hit {D}.
Arguments stat_miss {D}.
Arguments disk {D}.

Definition zero_buf : block_buffer :=
  mkBB 0 0 false false (repeat 0 (Z.to_nat BCACHE_BLOCK_SIZE)) None None None.

(** Assignments to one field of an entry. *)
Definition with_prev (v : option nat) (b : block_buffer) : block_buffer :=
  mkBB (block_num b) (refcount b) (dirty b) (valid b) (bdata b) (hash_next b) v (lru_next b).
Definition with_next (v : option nat) (b : block_buffer) : block_buffer :=
  mkBB (block_num b) (refcount b) (dirty b) (valid b) (bdata b) (hash_next b) (lru_prev b) v.
Definition with_hash (v : option nat) (b : block_buffer) : block_buffer :=
  mkBB (block_num b) (refcount b) (dirty b) (valid b) (bdata b) v (lru_prev b) (lru_next b).
Definition with_ref (v : Z) (b : block_buffer) : block_buffer :=
  mkBB (block_num b) v (dirty b) (valid b) (bdata b) (hash_next b) (lru_prev b) (lru_next b).
Definition with_dirty (v : bool) (b : block_buffer) : block_buffer :=
  mkBB (block_num b) (refcount b) v (valid b) (bdata b) (hash_next b) (lru_prev b)
    (lru_next b).
Definition with_valid (v : bool) (b : block_buffer) : block_buffer :=
  mkBB (block_num b) (refcount b) (dirty b) v (bdata b) (hash_next b) (lru_prev b)
    (lru_next b).
Definition with_data (v : list Z) (b : block_buffer) : block_buffer :=
  mkBB (block_num b) (refcount b) (dirty b) (valid b) v (hash_next b) (lru_prev b)
    (lru_next b).
Definition with_block (n r : Z) (v : bool) (b : block_buffer) : block_buffer :=
  mkBB n r false v (bdata b) (hash_next b) (lru_prev b) (lru_next b).

Section ops.
Context {D : Type}.
Implicit Types (c : bcache D).

Definition set_pool c p :=
  mkCache p (hash_table c) (lru_head c) (lru_tail c) (stat_hit c) (stat_miss c) (disk c).
Definition set_table c t :=
  mkCache (pool c) t (lru_head c) (lru_tail c) (stat_hit c) (stat_miss c) (disk c).
Definition set_head c v :=
  mkCache (pool c) (hash_table c) v (lru_tail c) (stat_hit c) (stat_miss c) (disk c).
Definition set_tail c v :=
  mkCache (pool c) (hash_table c) (lru_head c) v (stat_hit c) (stat_miss c) (disk c).
Definition set_disk c (v : D) : bcache D :=
  mkCache (pool c) (hash_table c) (lru_head c) (lru_tail c) (stat_hit c) (stat_miss c) v.
Definition count_hit c :=
  mkCache (pool c) (hash_table c) (lru_head c) (lru_tail c) (u64 (stat_hit c + 1))
    (stat_miss c) (disk c).
Definition count_miss c :=
  mkCache (pool c) (hash_table c) (lru_head c) (lru_tail c) (stat_hit c)
    (u64 (stat_miss c + 1)) (disk c).

(** [pool[i]] and an assignment to one of its fields. *)
Definition buf c (i : nat) : block_buffer := default zero_buf (pool c !! i).
Definition upd (i : nat) (f : block_buffer → block_buffer) c : bcache D :=
  set_pool c (alter f i (pool c)).

(** [got] says whether [kmalloc] found memory for the pool; an empty pool is
    [NULL]. *)
Definition bcache_init (got : bool) c : Z * bcache D :=
  match pool c with
  | _ :: _ => (0, c)
  | [] =>
      if got then
        (0, mkCache (repeat zero_buf BCACHE_N_BLOCKS) (repeat None BCACHE_HASH_SIZE)
              None None (stat_hit c) (stat_miss c) (disk c))
      else (-1, c)
  end.

(** ** LRU list *)
Definition lru_unlink (i : nat) c : bcache D :=
  let c := match lru_prev (buf c i) with
           | Some p => upd p (with_next (lru_next (buf c i))) c
           | None => set_head c (lru_next (buf c i))
           end in
  let c := match lru_next (buf c i) with
           | Some n => upd n (with_prev (lru_prev (buf c i))) c
           | None => set_tail c (lru_prev (buf c i))
           end in
  upd i (λ b, with_prev None (with_next None b)) c.

Definition is_ptr (p : option nat) (i : nat) : bool := bool_decide (p = Some i).

Definition lru_push_front (i : nat) c : bcache D :=
  let b := buf c i in
  let c := if bool_decide (lru_prev b ≠ None) || bool_decide (lru_next b ≠ None)
              || is_ptr (lru_head c) i || is_ptr (lru_tail c) i
           then lru_unlink i c else c in
  let c := upd i (with_prev None) c in
  let c := upd i (with_next (lru_head c)) c in
  let c := match lru_head c with
           | Some h => upd h (with_prev (Some i)) c
           | None => c
           end in
  let c := set_head c (Some i) in
  match lru_tail c with None => set_tail c (Some i) | Some _ => c end.

Definition lru_touch (i : nat) c : bcache D :=
  if is_ptr (lru_head c) i then c else lru_push_front i (lru_unlink i c).

(** ** Hash map *)
Definition bhash (block : Z) : nat := Z.to_nat (Z.land block (Z.of_nat BCACHE_HASH_SIZE - 1)).

Definition bucket c (h : nat) : option nat := default None (hash_table c !! h).

Fixpoint find_chain (fuel : nat) c (e : option nat) (block : Z) : option nat :=
  match fuel, e with
  | S f, Some i =>
      if valid (buf c i) && (block_num (buf c i) =? block) then Some i
      else find_chain f c (hash_next (buf c i)) block
  | _, _ => None
  end.

Definition hash_find (block : Z) c : option nat :=
  find_chain (S BCACHE_N_BLOCKS) c (bucket c (bhash block)) block.

Definition hash_insert (i : nat) c : bcache D :=
  let h := bhash (block_num (buf c i)) in
  let c := upd i (with_hash (bucket c h)) c in
  set_table c (<[h := Some i]> (hash_table c)).

(** The pointer [pp] of [hash_remove]: a bucket or the [hash_next] of an entry. *)
Inductive link := Bucket (h : nat) | Next (i : nat).

Definition read_link c (pp : link) : option nat :=
  match pp with Bucket h => bucket c h | Next i => hash_next (buf c i) end.
Definition write_link (pp : link) (v : option nat) c : bcache D :=
  match pp with
  | Bucket h => set_table c (<[h := v]> (hash_table c))
  | Next i => upd i (with_hash v) c
  end.

Fixpoint remove_chain (fuel : nat) (pp : link) (i : nat) c : bcache D :=
  match fuel, read_link c pp with
  | S f, Some j =>
      if Nat.eqb j i
      then upd i (with_hash None) (write_link pp (hash_next (buf c i)) c)
      else remove_chain f (Next j) i c
  | _, _ => c
  end.

Definition hash_remove (i : nat) c : bcache D :=
  remove_chain (S BCACHE_N_BLOCKS) (Bucket (bhash (block_num (buf c i)))) i c.

(** ** Slots *)
Definition free_slot (b : block_buffer) : bool :=
  negb (valid b) && negb (dirty b) && (refcount b =? 0).

(** The scan of the pool for an emptied entry. *)
Definition find_free c : option nat :=
  fst <$> list_find (λ b, free_slot b = true) (pool c).

Context `{SectorDev D}.

(** The walk from the LRU tail: the first unpinned entry that is clean or can be
    written back. *)
Fixpoint evict (fuel : nat) (p : option nat) c : option nat * bcache D :=
  match fuel, p with
  | S f, Some i =>
      let b := buf c i in
      if 0 <? refcount b then evict f (lru_prev b) c
      else
        let '(ok, c) :=
          if dirty b then
            let '(rc, d) := ata_write_block4k (block_num b) (bdata b) (disk c) in
            let c := set_disk c d in
            if negb (rc =? 0) then (false, c) else (true, upd i (with_dirty false) c)
          else (true, c) in
        if ok then (Some i, upd i (with_valid false) (lru_unlink i (hash_remove i c)))
        else evict f (lru_prev (buf c i)) c
  | _, _ => (None, c)
  end.

Definition alloc_entry_locked c : option nat * bcache D :=
  match find_free c with
  | Some i => (Some i, c)
  | None => evict (S BCACHE_N_BLOCKS) (lru_tail c) c
  end.

(** ** Operations *)
Definition bcache_get (n : Z) c : option nat * bcache D :=
  match hash_find n c with
  | Some i =>
      let c := count_hit c in
      let c := upd i (with_ref (u32 (refcount (buf c i) + 1))) c in
      (Some i, lru_touch i c)
  | None =>
      match alloc_entry_locked (count_miss c) with
      | (None, c) => (None, c)
      | (Some i, c) => (Some i, lru_push_front i (hash_insert i (upd i (with_block n 1 true) c)))
      end
  end.

(** The miss path of [bcache_read], once it has a slot. *)
Definition read_miss (n : Z) (i : nat) c : option nat * bcache D :=
  let c := lru_push_front i (hash_insert i (upd i (with_block n 1 false) c)) in
  let '(rc, data, d) := ata_read_block4k n (bdata (buf c i)) (disk c) in
  let c := upd i (with_data data) (set_disk c d) in
  if negb (rc =? 0) then
    let c := upd i (with_valid false) (hash_remove i c) in
    (None, upd i (with_ref 0) (lru_unlink i c))
  else (Some i, upd i (with_valid true) c).

Definition bcache_read (n : Z) c : option nat * bcache D :=
  match hash_find n c with
  | Some i =>
      let c := count_hit c in
      let c := upd i (with_ref (u32 (refcount (buf c i) + 1))) c in
      (Some i, lru_touch i c)
  | None =>
      match alloc_entry_locked (count_miss c) with
      | (None, c) => (None, c)
      | (Some i, c) => read_miss n i c
      end
  end.

Definition bcache_mark_dirty (i : nat) c : bcache D := upd i (with_dirty true) c.

Definition bcache_sync_block (i : nat) c : Z * bcache D :=
  let b := buf c i in
  if dirty b then
    let '(rc, d) := ata_write_block4k (block_num b) (bdata b) (disk c) in
    let c := set_disk c d in
    (rc, if rc =? 0 then upd i (with_dirty false) c else c)
  else (0, c).

Definition bcache_release (i : nat) c : bcache D :=
  if 0 <? refcount (buf c i)
  then upd i (with_ref (refcount (buf c i) - 1)) c else c.

(** The loop over the LRU list shared by the two flushes. *)
Fixpoint flush_list (fuel : nat) (p : option nat) c : bcache D :=
  match fuel, p with
  | S f, Some i =>
      let c := (bcache_sync_block i c).2 in
      flush_list f (lru_next (buf c i)) c
  | _, _ => c
  end.

Definition bcache_flush_all c : bcache D :=
  flush_list (S BCACHE_N_BLOCKS) (lru_head c) c.

(** [locked]: whether the lock could be taken at once. *)
Definition bcache_flush_all_try (locked : bool) c : Z * bcache D :=
  if locked then (1, flush_list (S BCACHE_N_BLOCKS) (lru_head c) c) else (0, c).

(** A caller's write into the data of a buffer it holds. *)
Definition set_data (i : nat) (data : list Z) c : bcache D := upd i (with_data data) c.

End ops.

(** ** Representation of the lists *)

Section reprs.
Context {D : Type}.
Implicit Types (c : bcache D) (L C : list nat).

Definition sized c : Prop :=
  length (pool c) = BCACHE_N_BLOCKS ∧ length (hash_table c) = BCACHE_HASH_SIZE.

Definition in_pool (i : nat) : Prop := (i < BCACHE_N_BLOCKS)%nat.

(** The LRU list, most recently used first, and its back links. *)
Definition dll c L : Prop :=
  NoDup L ∧ Forall in_pool L ∧ lru_head c = head L ∧ lru_tail c = last L ∧
  ∀ L1 i L2, L = L1 ++ i :: L2 →
    lru_prev (buf c i) = last L1 ∧ lru_next (buf c i) = head L2.

(** A hash chain. *)
Fixpoint hchain c (p : option nat) C : Prop :=
  match C with
  | [] => p = None
  | i :: C' => p = Some i ∧ hchain c (hash_next (buf c i)) C'
  end.

Definition key c (i : nat) : nat := bhash (block_num (buf c i)).

(** The buckets hold the entries of [L], each in the chain of its block number. *)
Definition chains c L : Prop :=
  ∀ h, (h < BCACHE_HASH_SIZE)%nat →
    ∃ C, hchain c (bucket c h) C ∧ NoDup C ∧ ∀ i, i ∈ C ↔ i ∈ L ∧ key c i = h.

Lemma buf_upd_eq c i f : sized c → in_pool i → buf (upd i f c) i = f (buf c i).
Proof.
  intros [Hp _] Hi. unfold buf, upd, in_pool in *. simpl.
  rewrite list_lookup_alter. destruct (lookup_lt_is_Some_2 (pool c) i) as [b ->]; [lia|].
  rewrite decide_True by done. done.
Qed.

Lemma buf_upd_ne c i j f : i ≠ j → buf (upd i f c) j = buf c j.
Proof. intros Hij. unfold buf, upd. simpl. by rewrite list_lookup_alter_ne. Qed.

Lemma sized_upd c i f : sized c → sized (upd i f c).
Proof. intros [? ?]. split; simpl; [by rewrite length_alter|done]. Qed.

(** What an operation on the LRU links leaves alone. *)
Definition core (b : block_buffer) : block_buffer := with_prev None (with_next None b).

Record lru_frame c c' : Prop := {
  lf_sized : sized c → sized c';
  lf_table : hash_table c' = hash_table c;
  lf_disk : disk c' = disk c;
  lf_core j : core (buf c' j) = core (buf c j);
}.

Lemma lru_frame_trans c1 c2 c3 : lru_frame c1 c2 → lru_frame c2 c3 → lru_frame c1 c3.
Proof.
  intros [? ? ? ?] [? ? ? ?]. split; [auto|congruence|congruence|congruence].
Qed.

Lemma lru_frame_upd c i f :
  (∀ b, core (f b) = core b) → lru_frame c (upd i f c).
Proof.
  intros Hf. split; [apply sized_upd|done|done|]. intros j.
  destruct (decide (i = j)) as [->|]; [|by rewrite buf_upd_ne].
  unfold buf, upd. simpl. rewrite list_lookup_alter.
  destruct (decide (j = j)); [|done]. destruct (pool c !! j); [apply Hf|done].
Qed.

Lemma last_elem {A} (l : list A) x : last l = Some x → x ∈ l.
Proof. intros [k ->]%last_Some. set_solver. Qed.

Lemma head_elem {A} (l : list A) x : head l = Some x → x ∈ l.
Proof. destruct l; intros; simplify_eq/=. left. Qed.

(** The links after [lru_unlink]. *)
Lemma lru_unlink_links c A i B :
  sized c → dll c (A ++ i :: B) →
  let c' := lru_unlink i c in
  lru_frame c c' ∧
  lru_head c' = (if decide (last A = None) then head B else lru_head c) ∧
  lru_tail c' = (if decide (head B = None) then last A else lru_tail c) ∧
  lru_prev (buf c' i) = None ∧ lru_next (buf c' i) = None ∧
  ∀ j, j ≠ i →
    (last A ≠ Some j → head B ≠ Some j → buf c' j = buf c j) ∧
    lru_next (buf c' j) =
      (if decide (last A = Some j) then head B else lru_next (buf c j)) ∧
    lru_prev (buf c' j) =
      (if decide (head B = Some j) then last A else lru_prev (buf c j)).
Proof.
  intros Hs (Hnd & Hin & Hhd & Htl & Hl). destruct (Hl A i B eq_refl) as [Hp Hn].
  apply NoDup_app in Hnd as (_ & HndA & HndB). rewrite Forall_app, Forall_cons in Hin.
  destruct Hin as (HinA & Hi & HinB). rewrite Forall_forall in HinA, HinB.
  inversion HndB as [|? ? HiB _]; subst.
  assert (HiA : i ∉ A) by (intros Hx; eapply HndA; [done|left]).
  unfold lru_unlink. rewrite Hp, Hn.
  set (c1 := match last A with Some p => _ | None => _ end).
  assert (H1 : sized c1 ∧ lru_frame c c1 ∧ buf c1 i = buf c i ∧ lru_tail c1 = lru_tail c ∧
    lru_head c1 = (if decide (last A = None) then head B else lru_head c) ∧
    ∀ j, buf c1 j = if decide (last A = Some j) then with_next (head B) (buf c j)
                    else buf c j).
  { unfold c1. destruct (last A) as [p|] eqn:Ep.
    - pose proof (last_elem _ _ Ep) as HpA.
      assert (p ≠ i) by (intros ->; done).
      split_and!; [by apply sized_upd|by apply lru_frame_upd|by rewrite buf_upd_ne|done|done|].
      intros j. destruct (decide (Some p = Some j)); simplify_eq.
      + rewrite buf_upd_eq; [done|done|by apply HinA].
      + rewrite buf_upd_ne; [done|congruence].
    - split_and!; done. }
  destruct H1 as (Hs1 & Hf1 & Hb1 & Ht1 & Hh1 & Hj1). clearbody c1. rewrite Hb1, Hn, Hp.
  set (c2 := match head B with Some n => _ | None => _ end).
  assert (H2 : sized c2 ∧ lru_frame c1 c2 ∧ lru_head c2 = lru_head c1 ∧
    lru_tail c2 = (if decide (head B = None) then last A else lru_tail c1) ∧
    ∀ j, buf c2 j = if decide (head B = Some j) then with_prev (last A) (buf c1 j)
                    else buf c1 j).
  { unfold c2. destruct (head B) as [n|] eqn:En.
    - split_and!; [by apply sized_upd|by apply lru_frame_upd|done|done|].
      intros j. destruct (decide (Some n = Some j)); simplify_eq.
      + rewrite buf_upd_eq; [done|done|by apply HinB, head_elem].
      + rewrite buf_upd_ne; [done|congruence].
    - split_and!; done. }
  destruct H2 as (Hs2 & Hf2 & Hh2 & Ht2 & Hj2). clearbody c2. cbn [lru_head lru_tail upd set_pool].
  split.
  { eapply lru_frame_trans; [done|]. eapply lru_frame_trans; [done|]. by apply lru_frame_upd. }
  rewrite (buf_upd_eq c2) by done.
  split_and!; [by rewrite Hh2, Hh1|by rewrite Ht2, Ht1|done|done|].
  intros j Hji. rewrite buf_upd_ne, Hj2, Hj1 by done.
  split_and!.
  - intros. by rewrite !decide_False.
  - by destruct (decide (head B = Some j)), (decide (last A = Some j)).
  - by destruct (decide (head B = Some j)), (decide (last A = Some j)).
Qed.

Lemma last_app_cons {A} (l1 l2 : list A) x :
  last (l1 ++ x :: l2) = last (x :: l2).
Proof. rewrite last_app. by destruct (last (x :: l2)) eqn:E; [|apply last_None in E]. Qed.

(** Removing an entry from the LRU  *)
Lemma lru_unlink_spec c A i B :
  sized c → dll c (A ++ i :: B) →
  let c' := lru_unlink i c in
  lru_frame c c' ∧ dll c' (A ++ B) ∧
  lru_prev (buf c' i) = None ∧ lru_next (buf c' i) = None ∧
  (∀ j, j ∉ A ++ i :: B → buf c' j = buf c j).
Proof.
  intros Hs Hdll c'. pose proof (lru_unlink_links c A i B Hs Hdll) as Hlk. fold c' in Hlk.
  destruct Hlk as (Hf & Hhd' & Htl' & Hpi & Hni & Hj).
  destruct Hdll as (Hnd & Hin & Hhd & Htl & Hl).
  assert (Hnd' : NoDup (A ++ B)).
  { apply NoDup_app in Hnd as (? & Hd & HB). inversion HB; subst.
    apply NoDup_app. split_and!; [done| |done]. set_solver. }
  assert (Hi : i ∉ A ++ B).
  { apply NoDup_app in Hnd as (? & Hd & HB). inversion HB; subst. set_solver. }
  split_and!; [done| |done|done|].
  2:{ intros j Hn. apply Hj; [set_solver|..]; intros Hx;
        [apply last_elem in Hx|apply head_elem in Hx]; set_solver. }
  split_and!; [done| | | |].
  - rewrite Forall_app, Forall_cons in Hin. rewrite Forall_app. tauto.
  - rewrite Hhd'. destruct A as [|a A]; [done|]. rewrite decide_False; [done|].
    by rewrite last_None.
  - rewrite Htl', Htl. destruct B as [|b B].
    + rewrite decide_True by done. by rewrite app_nil_r.
    + rewrite decide_False by done. by rewrite !last_app_cons.
  - intros L1 j L2 Heq.
    assert (HjL : j ∈ A ++ B) by (rewrite Heq; set_solver).
    destruct (Hj j) as (_ & -> & ->); [by intros ->|]. clear Hj.
    pose proof Hnd' as Hnd2. rewrite Heq in Hnd2.
    apply NoDup_app in Hnd2 as (_ & Hd1 & Hd2). inversion Hd2 as [|? ? Hd3 _]; subst.
    apply app_eq_inv in Heq as [(k & -> & Hk)|(k & -> & ->)].
    + destruct k as [|x k]; simplify_eq/=.
      * (* [j] is the head of [B] *)
        rewrite app_nil_r in *.
        destruct (Hl (L1 ++ [i]) j L2) as [_ Hn]; [by rewrite <- app_assoc|].
        rewrite decide_True by done. split; [done|].
        rewrite decide_False; [done|]. intros Hx%last_elem. set_solver.
      * destruct (Hl L1 x (k ++ i :: B)) as [Hp Hn]; [by rewrite <- app_assoc|].
        rewrite (decide_False (P := head B = Some x)) by (intros Hx%head_elem; set_solver).
        split; [done|]. rewrite Hn, last_app_cons. destruct k as [|y k]; simpl.
        -- by rewrite decide_True.
        -- rewrite decide_False; [done|]. intros Hx%last_elem. set_solver.
    + destruct (Hl (A ++ i :: k) j L2) as [Hp Hn]; [by rewrite <- app_assoc|].
      rewrite (decide_False (P := last A = Some j)) by (intros Hx%last_elem; set_solver).
      split; [|done]. rewrite Hp, last_app_cons. destruct k as [|y k]; simpl.
      * rewrite app_nil_r. by rewrite decide_True.
      * rewrite decide_False; [|intros ?; simplify_eq; set_solver].
        by rewrite last_app_cons.
Qed.

(** Adding an entry in front. *)
Lemma lru_push_front_spec c i L :
  sized c → dll c L → i ∉ L → in_pool i →
  lru_prev (buf c i) = None → lru_next (buf c i) = None →
  let c' := lru_push_front i c in
  lru_frame c c' ∧ dll c' (i :: L) ∧ (∀ j, j ∉ i :: L → buf c' j = buf c j).
Proof.
  intros Hs (Hnd & Hin & Hhd & Htl & Hl) HiL Hi Hp Hn. unfold lru_push_front.
  assert (is_ptr (lru_head c) i = false) as Hh0.
  { apply bool_decide_false. rewrite Hhd. by intros ?%head_elem. }
  assert (is_ptr (lru_tail c) i = false) as Ht0.
  { apply bool_decide_false. rewrite Htl. by intros ?%last_elem. }
  rewrite Hp, Hn, Hh0, Ht0. cbn [bool_decide orb decide].
  rewrite !bool_decide_false by congruence. cbn [orb].
  set (c1 := upd i (with_next (lru_head (upd i (with_prev None) c))) (upd i (with_prev None) c)).
  assert (Hs1 : sized c1) by (by do 2 apply sized_upd).
  assert (Hf1 : lru_frame c c1)
    by (eapply lru_frame_trans; by apply lru_frame_upd).
  assert (Hb1 : lru_prev (buf c1 i) = None ∧ lru_next (buf c1 i) = head L).
  { unfold c1. rewrite !buf_upd_eq by (try apply sized_upd; done). simpl. by rewrite Hhd. }
  assert (Hj1 : ∀ j, j ≠ i → buf c1 j = buf c j).
  { intros j Hj. unfold c1. by rewrite !buf_upd_ne. }
  change (lru_head c1) with (lru_head c). change (lru_tail c1) with (lru_tail c).
  set (c2 := match lru_head c with Some h => upd h (with_prev (Some i)) c1 | None => c1 end).
  assert (H2 : sized c2 ∧ lru_frame c1 c2 ∧ lru_tail c2 = lru_tail c ∧
    ∀ j, buf c2 j = if decide (head L = Some j) then with_prev (Some i) (buf c1 j)
                    else buf c1 j).
  { unfold c2. rewrite Hhd. destruct (head L) as [h|] eqn:Eh.
    - split_and!; [by apply sized_upd|by apply lru_frame_upd|done|].
      intros j. destruct (decide (Some h = Some j)); simplify_eq.
      + rewrite buf_upd_eq; [done|done|]. rewrite Forall_forall in Hin.
        by apply Hin, head_elem.
      + rewrite buf_upd_ne; [done|congruence].
    - split_and!; done. }
  destruct H2 as (Hs2 & Hf2 & Ht2 & Hj2). clearbody c2 c1.
  cbn [set_head lru_tail]. rewrite Ht2.
  set (c3 := match lru_tail c with Some _ => _ | None => _ end).
  assert (H3 : lru_frame c2 c3 ∧ lru_head c3 = Some i ∧
    lru_tail c3 = (if decide (lru_tail c = None) then Some i else lru_tail c) ∧
    ∀ j, buf c3 j = buf c2 j).
  { unfold c3. destruct (lru_tail c) eqn:Et; by split_and!. }
  destruct H3 as (Hf3 & Hh3 & Ht3 & Hj3). clearbody c3.
  split; [|split].
  - eapply lru_frame_trans; [done|]. by eapply lru_frame_trans.
  - split_and!; [by constructor|by constructor|done| |].
    + rewrite Ht3, Htl. destruct L as [|x L]; [done|].
      rewrite decide_False; [done|]. by rewrite last_None.
    + intros L1 j L2 Heq. rewrite Hj3, Hj2.
      destruct L1 as [|x L1]; simplify_eq/=.
      * rewrite decide_False; [done|]. by intros ?%head_elem.
      * assert (j ≠ x) by (intros ->; set_solver). rewrite Hj1 by done.
        destruct (Hl L1 j L2 eq_refl) as [Hpj Hnj].
        destruct L1 as [|y L1]; simpl.
        -- by rewrite decide_True.
        -- rewrite decide_False; [by rewrite Hpj|]. intros ?; simplify_eq.
           inversion Hnd; set_solver.
  - intros j Hj. rewrite Hj3, Hj2, decide_False, Hj1; [done|set_solver|].
    intros ?%head_elem. set_solver.
Qed.

(** Moving an entry to the front. *)
Lemma lru_touch_spec c A i B :
  sized c → dll c (A ++ i :: B) →
  let c' := lru_touch i c in
  lru_frame c c' ∧ dll c' (i :: A ++ B) ∧ (∀ j, j ∉ A ++ i :: B → buf c' j = buf c j).
Proof.
  intros Hs Hdll. pose proof Hdll as (Hnd & Hin & Hhd & _). unfold lru_touch, is_ptr.
  apply NoDup_app in Hnd as (_ & Hd & HndB). inversion HndB as [|? ? HiB _]; subst.
  case_bool_decide as Hc.
  - destruct A as [|a A].
    + split; [by split|]. done.
    + rewrite Hhd in Hc. simplify_eq/=. exfalso. apply (Hd i); set_solver.
  - destruct (lru_unlink_spec c A i B Hs Hdll) as (Hf & Hdll' & Hp & Hn & Ho).
    rewrite Forall_app, Forall_cons in Hin. destruct Hin as (_ & Hi & _).
    destruct (lru_push_front_spec (lru_unlink i c) i (A ++ B)) as (Hf2 & Hd2 & Ho2);
      [by apply Hf|done| |done|done|done|].
    { intros [Hx|Hx]%elem_of_app; [apply (Hd i); set_solver|done]. }
    split; [by eapply lru_frame_trans|]. split; [done|].
    intros j Hj. rewrite Ho2 by set_solver. apply Ho. set_solver.
Qed.

(** What an operation on the hash links leaves alone. *)
Record hash_frame c c' : Prop := {
  hf_sized : sized c → sized c';
  hf_head : lru_head c' = lru_head c;
  hf_tail : lru_tail c' = lru_tail c;
  hf_disk : disk c' = disk c;
  hf_core j : with_hash None (buf c' j) = with_hash None (buf c j);
}.

Lemma hash_frame_trans c1 c2 c3 : hash_frame c1 c2 → hash_frame c2 c3 → hash_frame c1 c3.
Proof. intros [? ? ? ? ?] [? ? ? ? ?]. split; [auto|congruence|congruence|congruence|congruence]. Qed.

Lemma hash_frame_upd c i v : hash_frame c (upd i (with_hash v) c).
Proof.
  split; [apply sized_upd|done|done|done|]. intros j.
  destruct (decide (i = j)) as [->|]; [|by rewrite buf_upd_ne].
  unfold buf, upd. simpl. rewrite list_lookup_alter.
  destruct (decide (j = j)); [|done]. by destruct (pool c !! j).
Qed.

Lemma hash_frame_table c h v : hash_frame c (set_table c (<[h := v]> (hash_table c))).
Proof. split; [|done..]. intros [? ?]. split; simpl; [done|]. by rewrite length_insert. Qed.

Lemma hash_frame_link c pp v : hash_frame c (write_link pp v c).
Proof. destruct pp; [apply hash_frame_table|apply hash_frame_upd]. Qed.

Lemma core_fields b b' :
  with_hash None b' = with_hash None b →
  block_num b' = block_num b ∧ refcount b' = refcount b ∧ dirty b' = dirty b ∧
  valid b' = valid b ∧ bdata b' = bdata b ∧ lru_prev b' = lru_prev b ∧
  lru_next b' = lru_next b.
Proof. destruct b, b'. unfold with_hash. simpl. intros [=]. by split_and!. Qed.

Lemma bucket_insert_eq c h v :
  sized c → (h < BCACHE_HASH_SIZE)%nat →
  bucket (set_table c (<[h := v]> (hash_table c))) h = v.
Proof.
  intros [_ Hs] Hh. unfold bucket. simpl. by rewrite list_lookup_insert_eq by lia.
Qed.

Lemma bucket_insert_ne c h h' v :
  h ≠ h' → bucket (set_table c (<[h := v]> (hash_table c))) h' = bucket c h'.
Proof. intros Hh. unfold bucket. simpl. by rewrite list_lookup_insert_ne. Qed.

(** A chain is determined by the links of its members. *)
Lemma hchain_ext c c' p C :
  (∀ i, i ∈ C → hash_next (buf c' i) = hash_next (buf c i)) → hchain c p C → hchain c' p C.
Proof.
  revert p. induction C as [|i C IH]; intros p Hn; simpl; [done|].
  intros [-> Hc]. split; [done|]. rewrite Hn by left. apply IH; [|done].
  intros j Hj. apply Hn. by right.
Qed.

Lemma read_write_link c pp v :
  sized c → match pp with Bucket h => (h < BCACHE_HASH_SIZE)%nat | Next i => in_pool i end →
  read_link (write_link pp v c) pp = v.
Proof.
  intros Hs Hp. destruct pp as [h|i]; simpl.
  - by apply bucket_insert_eq.
  - by rewrite buf_upd_eq.
Qed.

(** Removing an entry from the chain that starts at the link [pp]. *)
Lemma remove_chain_spec fuel c pp i C1 C2 :
  sized c → hchain c (read_link c pp) (C1 ++ i :: C2) → NoDup (C1 ++ i :: C2) →
  Forall in_pool (C1 ++ i :: C2) →
  match pp with Bucket h => (h < BCACHE_HASH_SIZE)%nat
              | Next j => in_pool j ∧ j ∉ C1 ++ i :: C2 end →
  (length C1 < fuel)%nat →
  let c' := remove_chain fuel pp i c in
  hash_frame c c' ∧ hchain c' (read_link c' pp) (C1 ++ C2) ∧
  (∀ j, j ∉ C1 ++ i :: C2 → pp ≠ Next j → buf c' j = buf c j) ∧
  (∀ h, pp ≠ Bucket h → bucket c' h = bucket c h).
Proof.
  revert pp C1. induction fuel as [|fuel IH]; intros pp C1 Hs Hc Hnd Hin Hpp Hf; [lia|].
  cbn [remove_chain].
  destruct C1 as [|j C1]; simpl in Hc, Hin; destruct Hc as [Hrd Hc]; rewrite Hrd.
  - rewrite Nat.eqb_refl. inversion_clear Hnd as [|? ? HiC HndC].
    rewrite Forall_cons in Hin. destruct Hin as [Hi HinC].
    assert (Hs1 : sized (write_link pp (hash_next (buf c i)) c)) by (by apply hash_frame_link).
    assert (Hpp' : match pp with Bucket h => (h < BCACHE_HASH_SIZE)%nat | Next i => in_pool i end)
      by (destruct pp; tauto).
    assert (Hne : ∀ j, pp ≠ Next j → j ≠ i →
              buf (upd i (with_hash None) (write_link pp (hash_next (buf c i)) c)) j = buf c j).
    { intros j Hj Hji. rewrite buf_upd_ne by done. destruct pp as [h|k]; simpl; [done|].
      apply buf_upd_ne. congruence. }
    split_and!.
    + eapply hash_frame_trans; [apply hash_frame_link|apply hash_frame_upd].
    + replace (read_link (upd i _ _) pp) with (hash_next (buf c i)).
      * eapply hchain_ext; [|exact Hc]. intros j Hj. rewrite Hne; [done| |set_solver].
        intros ->. apply Hpp. by right.
      * rewrite <- (read_write_link c pp (hash_next (buf c i)) Hs Hpp') at 1.
        destruct pp as [h|k]; simpl; [done|]. rewrite (buf_upd_ne _ i k); [done|].
        intros ->. apply Hpp. by left.
    + intros j Hj Hpj. apply Hne; [done|set_solver].
    + intros h Hh. destruct pp as [h'|k]; simpl; [|done].
      apply bucket_insert_ne. congruence.
  - inversion_clear Hnd as [|? ? HjC HndC]. rewrite Forall_cons in Hin. destruct Hin as [Hj HinC].
    destruct (Nat.eqb_spec j i) as [->|Hji]; [exfalso; set_solver|].
    destruct (IH (Next j) C1 Hs Hc HndC HinC) as (Hf' & Hc' & Hb' & Hbk);
      [by split|simpl in Hf; lia|].
    assert (Hrd' : read_link (remove_chain fuel (Next j) i c) pp = read_link c pp).
    { destruct pp as [h|k]; simpl; [by apply Hbk|]. rewrite Hb'; [done|set_solver|].
      intros ?; simplify_eq. destruct Hpp as [_ Hpp]. apply Hpp. by left. }
    split_and!; [done| | |].
    + rewrite Hrd', Hrd. by split.
    + intros k Hk Hpk. apply Hb'; [set_solver|]. intros ?; simplify_eq. set_solver.
    + intros h Hh. by apply Hbk.
Qed.

Lemma nodup_pool L : NoDup L → Forall in_pool L → (length L ≤ BCACHE_N_BLOCKS)%nat.
Proof.
  intros Hnd Hin. replace BCACHE_N_BLOCKS with (length (seq 0 BCACHE_N_BLOCKS))
    by apply length_seq.
  apply submseteq_length, NoDup_submseteq; [done|]. rewrite Forall_forall in Hin.
  intros i Hi. apply elem_of_seq. specialize (Hin i Hi). unfold in_pool in Hin. lia.
Qed.

Lemma bhash_range n : (bhash n < BCACHE_HASH_SIZE)%nat.
Proof.
  unfold bhash. change (Z.of_nat BCACHE_HASH_SIZE - 1) with (Z.ones 8).
  rewrite Z.land_ones by lia. pose proof (Z.mod_pos_bound n (2 ^ 8)).
  unfold BCACHE_HASH_SIZE. lia.
Qed.

Lemma hash_frame_key c c' i : hash_frame c c' → key c' i = key c i.
Proof. intros [? ? ? ? Hc]. unfold key. by destruct (core_fields _ _ (Hc i)) as (-> & _). Qed.

Lemma hash_remove_spec c L i :
  sized c → Forall in_pool L → chains c L → i ∈ L →
  let c' := hash_remove i c in
  hash_frame c c' ∧ (∀ L', (∀ j, j ∈ L' ↔ j ∈ L ∧ j ≠ i) → chains c' L') ∧
  (∀ j, j ∉ L → buf c' j = buf c j).
Proof.
  intros Hs Hin Hch Hi. unfold hash_remove. set (h := bhash (block_num (buf c i))).
  destruct (Hch h (bhash_range _)) as (C & Hc & HndC & HC).
  assert (i ∈ C) as (C1 & C2 & ->)%list_elem_of_split by (by apply HC).
  rewrite Forall_forall in Hin.
  assert (HinC : Forall in_pool (C1 ++ i :: C2)).
  { apply Forall_forall. intros j [Hj _]%HC. by apply Hin. }
  pose proof (nodup_pool _ HndC HinC) as Hlen. rewrite length_app in Hlen. simpl in Hlen.
  destruct (remove_chain_spec (S BCACHE_N_BLOCKS) c (Bucket h) i C1 C2 Hs Hc HndC HinC)
    as (Hf & Hc' & Hb & Hbk); [apply bhash_range|lia|].
  set (c' := remove_chain _ _ i c) in *. split; [done|]. split.
  - intros L' HL' h' Hh'. destruct (decide (h' = h)) as [->|Hne].
    + exists (C1 ++ C2). split; [done|]. split.
      { apply NoDup_app in HndC as (? & Hd & Hn2). inversion_clear Hn2.
        apply NoDup_app. split_and!; [done| |done]. set_solver. }
      intros j. rewrite (hash_frame_key c c') by done. rewrite HL'.
      assert (j ∈ C1 ++ C2 ↔ j ∈ C1 ++ i :: C2 ∧ j ≠ i) as ->.
      { apply NoDup_app in HndC as (? & Hd & Hn2). inversion_clear Hn2. set_solver. }
      rewrite HC. tauto.
    + destruct (Hch h' Hh') as (C' & Hch' & Hnd' & HC'). exists C'. split_and!; [|done|].
      * rewrite Hbk by congruence. eapply hchain_ext; [|done]. intros j Hj.
        rewrite Hb; [done| |done]. intros [_ Hk]%HC. apply HC' in Hj as [_ ?]. congruence.
      * intros j. rewrite (hash_frame_key c c') by done. rewrite HL', HC'.
        split; [|tauto]. intros [? Hk]. split; [|done]. split; [done|]. intros ->.
        apply Hne. unfold h. by rewrite <- Hk.
  - intros j Hj. apply Hb; [|done]. by intros [? _]%HC.
Qed.

Lemma hash_insert_spec c L i :
  sized c → in_pool i → chains c L → i ∉ L →
  let c' := hash_insert i c in
  hash_frame c c' ∧ chains c' (i :: L) ∧ (∀ j, j ≠ i → buf c' j = buf c j).
Proof.
  intros Hs Hi Hch HiL. unfold hash_insert. set (h := bhash (block_num (buf c i))).
  set (c1 := upd i (with_hash (bucket c h)) c).
  assert (Hf : hash_frame c c1) by apply hash_frame_upd.
  assert (Hs1 : sized c1) by (by apply Hf).
  assert (Hne : ∀ j, j ≠ i → buf c1 j = buf c j) by (intros; by apply buf_upd_ne).
  change (hash_table c) with (hash_table c1). set (c2 := set_table c1 _).
  assert (Hb2 : ∀ j, buf c2 j = buf c1 j) by done.
  split; [eapply hash_frame_trans; [done|apply hash_frame_table]|]. split; [|done].
  assert (Hk : ∀ j, key c2 j = key c j).
  { intros j. apply hash_frame_key. eapply hash_frame_trans; [done|apply hash_frame_table]. }
  intros h' Hh'. destruct (Hch h' Hh') as (C & HcC & HndC & HC).
  assert (HiC : i ∉ C) by (by intros [? _]%HC).
  assert (HcC' : ∀ p, hchain c p C → hchain c2 p C).
  { intros p. apply hchain_ext. intros j Hj. rewrite Hb2, Hne; [done|set_solver]. }
  destruct (decide (h' = h)) as [->|Hneq].
  - exists (i :: C). split_and!.
    + split; [by apply bucket_insert_eq|]. rewrite Hb2. unfold c1.
      rewrite buf_upd_eq by done. by apply HcC'.
    + by constructor.
    + intros j. rewrite Hk, !elem_of_cons, HC. unfold key. naive_solver.
  - exists C. split_and!; [|done|].
    + unfold c2. rewrite bucket_insert_ne by done. by apply HcC'.
    + intros j. rewrite Hk, elem_of_cons, HC. split; [naive_solver|].
      intros [[->|?] ?]; [|done]. by destruct Hneq.
Qed.

(** A search visits the whole chain. *)
Lemma find_chain_spec fuel c p C n :
  hchain c p C → (length C < fuel)%nat →
  match find_chain fuel c p n with
  | Some i => i ∈ C ∧ valid (buf c i) = true ∧ block_num (buf c i) = n
  | None => ∀ i, i ∈ C → valid (buf c i) = true → block_num (buf c i) ≠ n
  end.
Proof.
  revert p C. induction fuel as [|fuel IH]; intros p C Hc Hf; [lia|].
  destruct C as [|i C]; simpl in Hc.
  - subst p. simpl. by intros i ?%elem_of_nil.
  - destruct Hc as [-> Hc]. cbn [find_chain].
    destruct (valid (buf c i)) eqn:Ev; cbn [andb];
      [destruct (Z.eqb_spec (block_num (buf c i)) n); [by split_and!; [left|..]|]|];
      (specialize (IH _ C Hc ltac:(simpl in Hf; lia));
       destruct (find_chain fuel c _ n);
       [destruct IH as (? & ? & ?); split_and!; [by right|done|done]|];
       intros j [->|Hj]%elem_of_cons; [congruence|by apply IH]).
Qed.

(** ** The cache invariant *)

(** The part of an entry that is not a link. *)
Definition ent (b : block_buffer) : Z * Z * bool * bool * list Z :=
  (block_num b, refcount b, dirty b, valid b, bdata b).

Lemma lru_frame_ent c c' j :
  lru_frame c c' → ent (buf c' j) = ent (buf c j) ∧ hash_next (buf c' j) = hash_next (buf c j).
Proof.
  intros [_ _ _ Hc]. specialize (Hc j). unfold core, with_prev, with_next, ent in *.
  destruct (buf c j), (buf c' j). simpl in *. injection Hc. intros. by subst.
Qed.

Lemma hash_frame_ent c c' j :
  hash_frame c c' → ent (buf c' j) = ent (buf c j) ∧
  lru_prev (buf c' j) = lru_prev (buf c j) ∧ lru_next (buf c' j) = lru_next (buf c j).
Proof.
  intros [_ _ _ _ Hc]. specialize (Hc j). unfold with_hash, ent in *.
  destruct (buf c j), (buf c' j). simpl in *. injection Hc. intros. by subst.
Qed.

Lemma ent_fields b b' :
  ent b' = ent b → block_num b' = block_num b ∧ refcount b' = refcount b ∧
  dirty b' = dirty b ∧ valid b' = valid b ∧ bdata b' = bdata b.
Proof. unfold ent. intros [=]. by split_and!. Qed.

Definition struct c L : Prop := sized c ∧ dll c L ∧ chains c L.

Lemma dll_ext c c' L :
  dll c L → lru_head c' = lru_head c → lru_tail c' = lru_tail c →
  (∀ i, i ∈ L → lru_prev (buf c' i) = lru_prev (buf c i) ∧
                lru_next (buf c' i) = lru_next (buf c i)) → dll c' L.
Proof.
  intros (Hnd & Hin & Hh & Ht & Hl) Hh' Ht' He. split_and!; [done|done|congruence|congruence|].
  intros L1 i L2 ->. destruct (He i) as [-> ->]; [set_solver|]. by apply Hl.
Qed.

Lemma chains_ext c c' L L' :
  chains c L → hash_table c' = hash_table c → (∀ i, i ∈ L' ↔ i ∈ L) →
  (∀ i, i ∈ L → hash_next (buf c' i) = hash_next (buf c i) ∧
                block_num (buf c' i) = block_num (buf c i)) → chains c' L'.
Proof.
  intros Hch Ht HL He h Hh. destruct (Hch h Hh) as (C & Hc & Hnd & HC). exists C.
  split_and!; [|done|].
  - unfold bucket. rewrite Ht. eapply hchain_ext; [|exact Hc].
    intros i [Hi _]%HC. by apply He.
  - intros i. rewrite HC, HL. unfold key. split; intros [Hi Hk]; (split; [done|]);
      destruct (He i Hi) as [_ E]; [by rewrite E|by rewrite E in Hk].
Qed.

(** An assignment that touches neither links nor the block number of a member. *)
Lemma struct_upd c i f L :
  struct c L →
  (i ∈ L → ∀ b, block_num (f b) = block_num b ∧ hash_next (f b) = hash_next b ∧
                lru_prev (f b) = lru_prev b ∧ lru_next (f b) = lru_next b) →
  struct (upd i f c) L.
Proof.
  intros (Hs & Hd & Hc) Hf.
  assert (Hj : ∀ j, j ∈ L → block_num (buf (upd i f c) j) = block_num (buf c j) ∧
    hash_next (buf (upd i f c) j) = hash_next (buf c j) ∧
    lru_prev (buf (upd i f c) j) = lru_prev (buf c j) ∧
    lru_next (buf (upd i f c) j) = lru_next (buf c j)).
  { intros j Hj. destruct (decide (i = j)) as [->|]; [|by rewrite buf_upd_ne].
    rewrite buf_upd_eq; [by apply Hf|done|]. destruct Hd as (_ & Hin & _).
    rewrite Forall_forall in Hin. by apply Hin. }
  split_and!; [by apply sized_upd| |].
  - eapply dll_ext; [done|done|done|]. intros j Hin. by destruct (Hj j Hin) as (_ & _ & ? & ?).
  - eapply chains_ext; [done|done|done|]. intros j Hin. by destruct (Hj j Hin) as (? & ? & _ & _).
Qed.

Lemma struct_in_pool c L i : struct c L → i ∈ L → in_pool i.
Proof. intros (_ & (_ & Hin & _) & _) Hi. rewrite Forall_forall in Hin. by apply Hin. Qed.

(** Taking a member out of both lists, with an assignment [f] to it in between. *)
Lemma struct_remove_with c A i B f :
  struct c (A ++ i :: B) →
  (∀ b, block_num (f b) = block_num b ∧ hash_next (f b) = hash_next b ∧
        lru_prev (f b) = lru_prev b ∧ lru_next (f b) = lru_next b) →
  let c' := lru_unlink i (upd i f (hash_remove i c)) in
  struct c' (A ++ B) ∧ disk c' = disk c ∧
  (∀ j, j ≠ i → ent (buf c' j) = ent (buf c j)) ∧
  (∃ b, ent b = ent (buf c i) ∧ ent (buf c' i) = ent (f b)) ∧
  lru_prev (buf c' i) = None ∧ lru_next (buf c' i) = None ∧
  (∀ j, j ∉ A ++ i :: B → buf c' j = buf c j).
Proof.
  intros Hst Hfl. pose proof (struct_in_pool c _ i Hst ltac:(set_solver)) as Hi.
  destruct Hst as (Hs & Hd & Hch). pose proof Hd as (Hnd & Hin & _).
  destruct (hash_remove_spec c (A ++ i :: B) i Hs Hin Hch) as (Hf & Hch' & Hb); [set_solver|].
  set (c0 := hash_remove i c) in *. set (c1 := upd i f c0) in *.
  assert (Hs0 : sized c0) by (by apply Hf).
  assert (Hbi : buf c1 i = f (buf c0 i)) by (by apply buf_upd_eq).
  assert (Hbj : ∀ j, j ≠ i → buf c1 j = buf c0 j) by (intros; by apply buf_upd_ne).
  assert (Hd1 : dll c1 (A ++ i :: B)).
  { eapply dll_ext; [done|apply Hf|apply Hf|]. intros j _.
    destruct (hash_frame_ent c c0 j Hf) as (_ & <- & <-).
    destruct (decide (j = i)) as [->|]; [rewrite Hbi; by destruct (Hfl (buf c0 i)) as (_ & _ & ? & ?)|by rewrite Hbj]. }
  assert (Hs1 : sized c1) by (by apply sized_upd).
  destruct (lru_unlink_spec c1 A i B Hs1 Hd1) as (Hf2 & Hd2 & Hp & Hn & Hb2).
  set (c2 := lru_unlink i c1) in *.
  apply NoDup_app in Hnd as (HndA & HAB & HndB). inversion HndB as [|? ? HiB HndB']; subst.
  assert (HiAB : i ∉ A ++ B) by (intros [?|?]%elem_of_app; [by apply (HAB i); [|left]|done]).
  split_and!; [split_and!|..].
  - by apply Hf2.
  - done.
  - eapply (chains_ext c0 c2 (A ++ B)); [apply Hch'|rewrite (lf_table _ _ Hf2); done|done|].
    + intros j. rewrite !elem_of_app, elem_of_cons. rewrite elem_of_app in HiAB.
      split; [intros Hj; split; [tauto|]; intros ->; tauto|tauto].
    + intros j Hj. destruct (lru_frame_ent c1 c2 j Hf2) as [He ->].
      apply ent_fields in He as (-> & _). rewrite Hbj; [done|]. by intros ->.
  - rewrite (lf_disk _ _ Hf2). apply Hf.
  - intros j Hj. destruct (lru_frame_ent c1 c2 j Hf2) as [-> _]. rewrite Hbj by done.
    by destruct (hash_frame_ent c c0 j Hf) as [-> _].
  - exists (buf c0 i). split; [by destruct (hash_frame_ent c c0 i Hf)|].
    destruct (lru_frame_ent c1 c2 i Hf2) as [-> _]. by rewrite Hbi.
  - done.
  - done.
  - intros j Hj. rewrite Hb2, Hbj; [by apply Hb| |done].
    intros ->. apply Hj, elem_of_app. right. left.
Qed.

Lemma upd_id c i : upd i (λ b, b) c = c.
Proof.
  unfold upd, set_pool. rewrite list_alter_id by done. by destruct c.
Qed.

(** Taking a member out of both lists. *)
Lemma struct_remove c A i B :
  struct c (A ++ i :: B) →
  let c' := lru_unlink i (hash_remove i c) in
  struct c' (A ++ B) ∧ disk c' = disk c ∧ (∀ j, ent (buf c' j) = ent (buf c j)) ∧
  lru_prev (buf c' i) = None ∧ lru_next (buf c' i) = None ∧
  (∀ j, j ∉ A ++ i :: B → buf c' j = buf c j).
Proof.
  intros Hst. pose proof (struct_remove_with c A i B (λ b, b) Hst) as Hr. cbv zeta in Hr.
  rewrite upd_id in Hr. destruct Hr as (? & ? & He & (b & Hb & Hb') & ? & ? & ?); [done|].
  split_and!; try done. intros j. destruct (decide (j = i)) as [->|]; [congruence|by apply He].
Qed.

(** Putting a free entry, already labelled with its block, into both lists. *)
Lemma struct_add c i L :
  struct c L → i ∉ L → in_pool i → lru_prev (buf c i) = None → lru_next (buf c i) = None →
  let c' := lru_push_front i (hash_insert i c) in
  struct c' (i :: L) ∧ disk c' = disk c ∧ (∀ j, ent (buf c' j) = ent (buf c j)) ∧
  (∀ j, j ∉ i :: L → buf c' j = buf c j).
Proof.
  intros (Hs & Hd & Hch) HiL Hi Hp Hn.
  destruct (hash_insert_spec c L i Hs Hi Hch HiL) as (Hf & Hch' & Hb).
  set (c1 := hash_insert i c) in *.
  assert (Hl : ∀ j, lru_prev (buf c1 j) = lru_prev (buf c j) ∧
                    lru_next (buf c1 j) = lru_next (buf c j)).
  { intros j. by destruct (hash_frame_ent c c1 j Hf) as (_ & ? & ?). }
  assert (Hd1 : dll c1 L) by (eapply dll_ext; [done|apply Hf|apply Hf|intros; apply Hl]).
  destruct (lru_push_front_spec c1 i L) as (Hf2 & Hd2 & Hb2);
    [by apply Hf|done|done|done|by rewrite (proj1 (Hl i))|by rewrite (proj2 (Hl i))|].
  set (c2 := lru_push_front i c1) in *. split_and!; [split_and!|..].
  - by apply Hf2, Hf.
  - done.
  - eapply (chains_ext c1); [done|apply Hf2|done|]. intros j _.
    destruct (lru_frame_ent c1 c2 j Hf2) as [He ?]. by apply ent_fields in He as (? & _).
  - destruct Hf, Hf2. congruence.
  - intros j. destruct (hash_frame_ent c c1 j Hf) as [He1 _].
    destruct (lru_frame_ent c1 c2 j Hf2) as [He2 _]. congruence.
  - intros j Hj. rewrite Hb2 by done. apply Hb. set_solver.
Qed.

Context `{SectorDev D, !SectorDevOk D}.

Record cache_ok c L : Prop := {
  ok_struct : struct c L;
  ok_entry i : i ∈ L →
    valid (buf c i) = true ∧ 0 ≤ block_num (buf c i) < MAX_BLOCK ∧
    length (bdata (buf c i)) = 4096%nat ∧ 0 ≤ refcount (buf c i);
  ok_inj i j : i ∈ L → j ∈ L → block_num (buf c i) = block_num (buf c j) → i = j;
  ok_free i : in_pool i → i ∉ L →
    free_slot (buf c i) = true ∧ lru_prev (buf c i) = None ∧ lru_next (buf c i) = None ∧
    length (bdata (buf c i)) = 4096%nat;
  ok_clean i : i ∈ L → dirty (buf c i) = false → refcount (buf c i) = 0 →
    bdata (buf c i) = dblk (disk c) (block_num (buf c i));
}.

Lemma hash_find_spec c L n :
  cache_ok c L →
  match hash_find n c with
  | Some i => i ∈ L ∧ block_num (buf c i) = n
  | None => ∀ i, i ∈ L → block_num (buf c i) ≠ n
  end.
Proof.
  intros Hok. destruct (ok_struct _ _ Hok) as (Hs & (_ & Hin & _) & Hch).
  destruct (Hch (bhash n) (bhash_range n)) as (C & Hc & Hnd & HC). unfold hash_find.
  rewrite Forall_forall in Hin.
  assert (HinC : Forall in_pool C).
  { apply Forall_forall. intros j [Hj _]%HC. by apply Hin. }
  pose proof (nodup_pool _ Hnd HinC) as Hlen.
  pose proof (find_chain_spec (S BCACHE_N_BLOCKS) c _ C n Hc ltac:(lia)) as Hf.
  destruct (find_chain _ c _ n) as [i|].
  - destruct Hf as ([Hi _]%HC & _ & ?). done.
  - intros i Hi Hn. apply (Hf i); [|by apply (ok_entry _ _ Hok)|done].
    apply HC. split; [done|]. unfold key. by rewrite Hn.
Qed.

(** The contents of block [n] as the cache shows it. *)
Definition view c n : list Z :=
  match hash_find n c with Some i => bdata (buf c i) | None => dblk (disk c) n end.

Lemma view_cached c L i :
  cache_ok c L → i ∈ L → view c (block_num (buf c i)) = bdata (buf c i).
Proof.
  intros Hok Hi. unfold view. pose proof (hash_find_spec c L (block_num (buf c i)) Hok) as Hf.
  destruct (hash_find _ c) as [j|].
  - destruct Hf as [Hj Hn]. by rewrite (ok_inj _ _ Hok j i Hj Hi Hn).
  - by destruct (Hf i Hi).
Qed.

Lemma view_uncached c L n :
  cache_ok c L → (∀ i, i ∈ L → block_num (buf c i) ≠ n) → view c n = dblk (disk c) n.
Proof.
  intros Hok Hn. unfold view. pose proof (hash_find_spec c L n Hok) as Hf.
  destruct (hash_find n c) as [j|]; [|done]. destruct Hf as [Hj Hjn]. by destruct (Hn j Hj).
Qed.

Lemma cached_dec c L n : (∃ i, i ∈ L ∧ block_num (buf c i) = n) ∨
  (∀ i, i ∈ L → block_num (buf c i) ≠ n).
Proof.
  destruct (decide (Exists (λ i, block_num (buf c i) = n) L)) as [Hx|Hx].
  - left. by apply Exists_exists in Hx.
  - right. intros i Hi Hn. apply Hx, Exists_exists. eauto.
Qed.

Lemma struct_disk c d L : struct c L → struct (set_disk c d) L.
Proof.
  intros (Hs & Hd & Hc). split_and!; [done|by eapply dll_ext|by eapply chains_ext].
Qed.

(** A transfer that changes only the disk copy of a block in use. *)
Lemma cache_ok_disk c L i d :
  cache_ok c L → i ∈ L → dirty (buf c i) = true →
  (∀ k, k ≠ block_num (buf c i) → dblk d k = dblk (disk c) k) →
  cache_ok (set_disk c d) L ∧ ∀ n, view (set_disk c d) n = view c n.
Proof.
  intros Hok Hi Hdi Hd.
  assert (Hok' : cache_ok (set_disk c d) L).
  { destruct Hok as [Hst Hen Hinj Hfr Hcl]. split; [by apply struct_disk|exact Hen|exact Hinj|exact Hfr|].
    intros j Hj Hdj Hrj. change (disk (set_disk c d)) with d.
    rewrite Hd; [by apply Hcl|]. intros Hn. apply (Hinj j i Hj Hi) in Hn. subst j.
    change (buf (set_disk c d) i) with (buf c i) in Hdj. congruence. }
  split; [done|]. intros n. destruct (cached_dec c L n) as [(j & Hj & <-)|Hn].
  - rewrite (view_cached c L j Hok Hj). exact (view_cached (set_disk c d) L j Hok' Hj).
  - rewrite (view_uncached c L n Hok Hn), (view_uncached (set_disk c d) L n Hok' Hn).
    apply Hd. intros ->. by apply (Hn i).
Qed.

(** Assignments to the entry [i] that keep its block, data and validity. *)
Lemma cache_ok_upd c L i f :
  cache_ok c L → i ∈ L →
  (∀ b, block_num (f b) = block_num b ∧ hash_next (f b) = hash_next b ∧
        lru_prev (f b) = lru_prev b ∧ lru_next (f b) = lru_next b ∧ valid (f b) = valid b) →
  length (bdata (f (buf c i))) = 4096%nat → 0 ≤ refcount (f (buf c i)) →
  (dirty (f (buf c i)) = false → refcount (f (buf c i)) = 0 →
     bdata (f (buf c i)) = dblk (disk c) (block_num (buf c i))) →
  cache_ok (upd i f c) L ∧
  ∀ n, view (upd i f c) n =
       if decide (n = block_num (buf c i)) then bdata (f (buf c i)) else view c n.
Proof.
  intros Hok Hi Hf Hlen Hr Hcl. pose proof (struct_in_pool c L i (ok_struct _ _ Hok) Hi) as Hp.
  assert (Hs : sized c) by apply Hok.
  assert (Hb : buf (upd i f c) i = f (buf c i)) by (by apply buf_upd_eq).
  assert (Hne : ∀ j, j ≠ i → buf (upd i f c) j = buf c j) by (intros; by apply buf_upd_ne).
  assert (Hbn : ∀ j, block_num (buf (upd i f c) j) = block_num (buf c j)).
  { intros j. destruct (decide (j = i)) as [->|]; [rewrite Hb; apply Hf|by rewrite Hne]. }
  assert (Hok' : cache_ok (upd i f c) L).
  { split.
    - apply struct_upd; [apply Hok|]. intros _ b.
      destruct (Hf b) as (? & ? & ? & ? & _). by split_and!.
    - intros j Hj. destruct (decide (j = i)) as [->|Hji]; [|rewrite Hne by done; by apply Hok].
      destruct (ok_entry _ _ Hok i Hi) as (Hv & Hn & _ & _). rewrite Hb.
      destruct (Hf (buf c i)) as (-> & _ & _ & _ & ->), Hn. by split_and!.
    - intros j k Hj Hk. rewrite !Hbn. by apply (ok_inj _ _ Hok).
    - intros j Hj HjL. rewrite Hne by (intros ->; done). by apply (ok_free _ _ Hok).
    - intros j Hj. destruct (decide (j = i)) as [->|Hji].
      + rewrite Hb. intros Hd Hr0. rewrite (Hcl Hd Hr0). destruct (Hf (buf c i)) as (-> & _). done.
      + rewrite Hne by done. by apply (ok_clean _ _ Hok). }
  split; [done|]. intros n. destruct (cached_dec c L n) as [(j & Hj & <-)|Hn].
  - rewrite <- (Hbn j), (view_cached _ L j Hok' Hj), Hbn.
    destruct (decide (j = i)) as [->|Hji].
    + by rewrite decide_True, Hb.
    + rewrite decide_False by (intros E; apply Hji; by apply (ok_inj _ _ Hok)).
      by rewrite Hne, (view_cached c L j Hok Hj).
  - rewrite decide_False by (intros ->; by apply (Hn i)).
    rewrite (view_uncached c L n Hok Hn). change (disk c) with (disk (upd i f c)).
    apply (view_uncached _ L); [done|].
    intros j Hj. rewrite Hbn. by apply Hn.
Qed.

(** What obtaining a slot does: nothing the callers can see. *)
Definition slot_taken c L (i : nat) c' : Prop :=
  ∃ L', cache_ok c' L' ∧ in_pool i ∧ (i ∉ L') ∧ (∀ n, view c' n = view c n) ∧
    (∀ j, j ∈ L' → j ∈ L ∧ ent (buf c' j) = ent (buf c j)) ∧
    (∀ j, j ∈ L → j ≠ i → j ∈ L') ∧ (i ∈ L → refcount (buf c i) = 0).

(** Emptying an idle clean entry. *)
Lemma take_entry c A i B :
  cache_ok c (A ++ i :: B) → refcount (buf c i) = 0 → dirty (buf c i) = false →
  slot_taken c (A ++ i :: B) i (upd i (with_valid false) (lru_unlink i (hash_remove i c))).
Proof.
  intros Hok Hr Hd. set (L := A ++ i :: B) in *.
  assert (Hi : i ∈ L) by (unfold L; set_solver).
  pose proof (struct_in_pool c L i (ok_struct _ _ Hok) Hi) as Hp.
  destruct (struct_remove c A i B (ok_struct _ _ Hok)) as (Hst & Hdisk & Hent & Hpi & Hni & Ho).
  set (c2 := lru_unlink i (hash_remove i c)) in *. set (c' := upd i (with_valid false) c2).
  destruct (ok_struct _ _ Hok) as (_ & (Hnd & _) & _).
  assert (HiL : i ∉ A ++ B).
  { apply NoDup_app in Hnd as (_ & HAB & HndB). inversion_clear HndB.
    intros [?|?]%elem_of_app; [|done]. apply (HAB i); [done|left]. }
  assert (Hsub : ∀ j, j ∈ A ++ B ↔ j ∈ L ∧ j ≠ i).
  { intros j. unfold L. clear - HiL. set_solver. }
  assert (Hb : buf c' i = with_valid false (buf c2 i)) by (apply buf_upd_eq; [apply Hst|done]).
  assert (Hne : ∀ j, j ≠ i → buf c' j = buf c2 j) by (intros; by apply buf_upd_ne).
  assert (He : ∀ j, j ≠ i → ent (buf c' j) = ent (buf c j)).
  { intros j Hj. by rewrite Hne, Hent. }
  assert (Hok' : cache_ok c' (A ++ B)).
  { split.
    - apply struct_upd; [done|]. by intros ?.
    - intros j [Hj Hji]%Hsub. destruct (ent_fields _ _ (He j Hji)) as (-> & -> & _ & -> & ->).
      by apply Hok.
    - intros j k [Hj Hji]%Hsub [Hk Hki]%Hsub.
      destruct (ent_fields _ _ (He j Hji)) as (-> & _), (ent_fields _ _ (He k Hki)) as (-> & _).
      by apply (ok_inj _ _ Hok).
    - intros j Hj HjL. destruct (decide (j = i)) as [->|Hji].
      + rewrite Hb. destruct (ent_fields _ _ (Hent i)) as (_ & Er & Ed & _ & Ea).
        destruct (ok_entry _ _ Hok i Hi) as (_ & _ & Hl & _).
        unfold free_slot, with_valid. cbn [valid dirty refcount lru_prev lru_next bdata].
        rewrite Er, Ed, Ea, Hr, Hd. by split_and!.
      + assert (j ∉ L) by (intros ?; apply HjL, Hsub; done). rewrite Hne, Ho by done.
        by apply (ok_free _ _ Hok).
    - intros j [Hj Hji]%Hsub.
      destruct (ent_fields _ _ (He j Hji)) as (-> & -> & -> & _ & ->).
      change (disk c') with (disk c2). rewrite Hdisk. by apply (ok_clean _ _ Hok). }
  exists (A ++ B). split_and!; [done|done|done| | | |done].
  - intros n. destruct (cached_dec c L n) as [(j & Hj & <-)|Hn].
    + rewrite (view_cached c L j Hok Hj). destruct (decide (j = i)) as [->|Hji].
      * rewrite (ok_clean _ _ Hok i Hi Hd Hr), <- Hdisk. apply (view_uncached c' (A ++ B)); [done|].
        intros k [Hk Hki]%Hsub. destruct (ent_fields _ _ (He k Hki)) as (-> & _). intros E.
        by apply Hki, (ok_inj _ _ Hok).
      * destruct (ent_fields _ _ (He j Hji)) as (<- & _ & _ & _ & <-).
        apply (view_cached c' (A ++ B)); [done|]. by apply Hsub.
    + rewrite (view_uncached c L n Hok Hn), <- Hdisk. apply (view_uncached c' (A ++ B)); [done|].
      intros k [Hk Hki]%Hsub. destruct (ent_fields _ _ (He k Hki)) as (-> & _). by apply Hn.
  - intros j Hj. apply Hsub in Hj as [? ?]. split; [done|by apply He].
  - intros j Hj Hji. by apply Hsub.
Qed.

(** The outcome of a search for a slot that found none. *)
Definition unchanged c L c' : Prop :=
  cache_ok c' L ∧ (∀ n, view c' n = view c n) ∧ ∀ j, buf c' j = buf c j.

Lemma slot_taken_trans c c1 L i c' :
  cache_ok c1 L → (∀ n, view c1 n = view c n) →
  (∀ j, j ≠ i → ent (buf c1 j) = ent (buf c j)) → refcount (buf c1 i) = refcount (buf c i) →
  slot_taken c1 L i c' → slot_taken c L i c'.
Proof.
  intros Hok Hv He Hr (L' & Hok' & Hp & HiL & Hv' & He' & Hsub & Hr').
  exists L'. split_and!; [done|done|done| | |done|].
  - intros n. by rewrite Hv'.
  - intros j Hj. destruct (He' j Hj) as [Hjl Hje]. split; [done|]. rewrite Hje.
    apply He. intros ->. done.
  - intros Hi. rewrite <- Hr. by apply Hr'.
Qed.

Lemma evict_spec fuel c A R :
  cache_ok c (A ++ R) → (length A < fuel)%nat →
  match evict fuel (last A) c with
  | (Some i, c') => slot_taken c (A ++ R) i c'
  | (None, c') => unchanged c (A ++ R) c'
  end.
Proof.
  revert c A R. induction fuel as [|fuel IH]; intros c A R Hok Hf; [lia|].
  destruct A as [|i A _] using rev_ind; [by cbn|].
  rewrite last_snoc. rewrite <- app_assoc in *. simpl in Hok |- *.
  assert (Hi : i ∈ A ++ i :: R) by set_solver.
  assert (Hprev : ∀ c1, cache_ok c1 (A ++ i :: R) → lru_prev (buf c1 i) = last A).
  { intros c1 Hok1. destruct (ok_struct _ _ Hok1) as (_ & (_ & _ & _ & _ & Hl) & _).
    by destruct (Hl A i R eq_refl). }
  assert (Hlen : (length A < fuel)%nat) by (rewrite length_app in Hf; simpl in Hf; lia).
  destruct (Z.ltb_spec 0 (refcount (buf c i))) as [Hr|Hr].
  { rewrite Hprev by done. by apply IH. }
  destruct (ok_entry _ _ Hok i Hi) as (_ & Hn & Hl & Hr0).
  assert (Hr1 : refcount (buf c i) = 0) by lia.
  destruct (dirty (buf c i)) eqn:Ed.
  - destruct (ata_write_block4k _ _ _) as [rc d] eqn:Ew.
    apply ata_write_block4k_ok in Ew as [Hoth Hw]; [|done|done].
    destruct (cache_ok_disk c (A ++ i :: R) i d Hok Hi Ed Hoth) as [Hok1 Hv1].
    destruct (Z.eqb_spec rc 0) as [->|Hrc]; simpl.
    + specialize (Hw eq_refl).
      destruct (cache_ok_upd (set_disk c d) (A ++ i :: R) i (with_dirty false) Hok1 Hi)
        as [Hok2 Hv2]; [by intros b; split_and!|done|done|done|].
      eapply (slot_taken_trans c); [exact Hok2| | | |apply take_entry; [done| |]].
      * intros n. rewrite Hv2. case_decide as Hx; [|by rewrite Hv1]. simpl. subst n.
        symmetry. exact (view_cached c _ i Hok Hi).
      * intros j Hj. by rewrite buf_upd_ne.
      * rewrite buf_upd_eq; [done|apply Hok1|]. eapply struct_in_pool; [apply Hok|done].
      * rewrite buf_upd_eq; [done|apply Hok1|]. eapply struct_in_pool; [apply Hok|done].
      * rewrite buf_upd_eq; [done|apply Hok1|]. eapply struct_in_pool; [apply Hok|done].
    + change (buf (set_disk c d) i) with (buf c i). rewrite (Hprev c Hok).
      specialize (IH (set_disk c d) A (i :: R) Hok1 Hlen).
      destruct (evict fuel (last A) (set_disk c d)) as [[j|] c'].
      * by apply (slot_taken_trans c (set_disk c d)).
      * destruct IH as (? & Hv & ?). split_and!; [done| |done]. intros n. by rewrite Hv.
  - by apply take_entry.
Qed.

Lemma find_free_spec c :
  match find_free c with
  | Some i => sized c → in_pool i ∧ free_slot (buf c i) = true
  | None => True
  end.
Proof.
  unfold find_free. destruct (list_find _ _) as [[i b]|] eqn:E; simpl; [|done].
  apply list_find_Some in E as (Hl & Hf & _). intros [Hs _]. split.
  - apply lookup_lt_Some in Hl. unfold in_pool. lia.
  - unfold buf. by rewrite Hl.
Qed.

Lemma alloc_entry_spec c L :
  cache_ok c L →
  match alloc_entry_locked c with
  | (Some i, c') => slot_taken c L i c'
  | (None, c') => unchanged c L c'
  end.
Proof.
  intros Hok. unfold alloc_entry_locked. pose proof (find_free_spec c) as Hf.
  destruct (ok_struct _ _ Hok) as (Hs & (Hnd & Hin & _ & Ht & _) & _).
  destruct (find_free c) as [i|].
  - destruct (Hf Hs) as [Hi Hfr]. assert (HiL : i ∉ L).
    { intros Hx. destruct (ok_entry _ _ Hok i Hx) as (Hv & _).
      unfold free_slot in Hfr. by rewrite Hv in Hfr. }
    exists L. by split_and!.
  - rewrite Ht. pose proof (evict_spec (S BCACHE_N_BLOCKS) c L []) as He.
    rewrite app_nil_r in He. apply He; [done|]. pose proof (nodup_pool L Hnd Hin). lia.
Qed.

(** States that differ in the statistics only. *)
Definition same_lists c c' : Prop :=
  pool c' = pool c ∧ hash_table c' = hash_table c ∧ lru_head c' = lru_head c ∧
  lru_tail c' = lru_tail c ∧ disk c' = disk c.

Lemma same_buf c c' i : same_lists c c' → buf c' i = buf c i.
Proof. intros (Hp & _). unfold buf. by rewrite Hp. Qed.

Lemma cache_ok_same c c' L :
  same_lists c c' → cache_ok c L → cache_ok c' L ∧ ∀ n, view c' n = view c n.
Proof.
  intros Hsame Hok. pose proof (λ i, same_buf c c' i Hsame) as Hb.
  destruct Hsame as (Hp & Ht & Hh & Htl & Hd).
  assert (Hok' : cache_ok c' L).
  { destruct Hok as [(Hs & Hdl & Hch) Hen Hinj Hfr Hcl]. split.
    - split_and!.
      + unfold sized. by rewrite Hp, Ht.
      + eapply dll_ext; [done|done|done|]. intros i _. by rewrite Hb.
      + eapply chains_ext; [done|done|done|]. intros i _. by rewrite Hb.
    - intros i Hi. rewrite Hb. by apply Hen.
    - intros i j. rewrite !Hb. apply Hinj.
    - intros i. rewrite Hb. apply Hfr.
    - intros i. rewrite Hb, Hd. apply Hcl. }
  split; [done|]. intros n. destruct (cached_dec c L n) as [(j & Hj & <-)|Hn].
  - rewrite (view_cached c L j Hok Hj), <- (Hb j). by apply (view_cached c' L).
  - rewrite (view_uncached c L n Hok Hn), <- Hd. apply (view_uncached c' L); [done|].
    intros i Hi. rewrite Hb. by apply Hn.
Qed.

(** Users of block [n]. *)
Definition refs c n : Z :=
  match hash_find n c with Some i => refcount (buf c i) | None => 0 end.

Lemma refs_cached c L i : cache_ok c L → i ∈ L → refs c (block_num (buf c i)) = refcount (buf c i).
Proof.
  intros Hok Hi. unfold refs. pose proof (hash_find_spec c L (block_num (buf c i)) Hok) as Hf.
  destruct (hash_find _ c) as [j|].
  - destruct Hf as [Hj Hn]. by rewrite (ok_inj _ _ Hok j i Hj Hi Hn).
  - by destruct (Hf i Hi).
Qed.

(** The hit path of [bcache_get] and [bcache_read]. *)
Lemma hit_ok c L i :
  cache_ok c L → i ∈ L → refcount (buf c i) + 1 < 2 ^ 32 →
  let c1 := count_hit c in
  let c' := lru_touch i (upd i (with_ref (u32 (refcount (buf c1 i) + 1))) c1) in
  ∃ L', cache_ok c' L' ∧ (∀ n, view c' n = view c n) ∧ (∀ j, j ∈ L' ↔ j ∈ L) ∧
    (∀ j, j ≠ i → ent (buf c' j) = ent (buf c j)) ∧
    block_num (buf c' i) = block_num (buf c i) ∧ bdata (buf c' i) = bdata (buf c i) ∧
    refcount (buf c' i) = refcount (buf c i) + 1 ∧
    dirty (buf c' i) = dirty (buf c i) ∧ disk c' = disk c.
Proof.
  intros Hok Hi Hr c1.
  destruct (cache_ok_same c c1 L) as [Hok1 Hv1]; [by split_and!|done|].
  destruct (ok_entry _ _ Hok i Hi) as (_ & Hn & Hl & Hr0).
  change (refcount (buf c1 i)) with (refcount (buf c i)). rewrite u32_id by lia.
  set (f := with_ref (refcount (buf c i) + 1)).
  destruct (cache_ok_upd c1 L i f Hok1 Hi) as [Hok2 Hv2];
    [by intros b; split_and!|done|simpl; lia|simpl; lia|].
  pose proof (struct_in_pool c1 L i (ok_struct _ _ Hok1) Hi) as Hp.
  assert (Hb2 : buf (upd i f c1) i = f (buf c i)).
  { change (buf c i) with (buf c1 i). apply buf_upd_eq; [apply Hok1|done]. }
  assert (Hb2' : ∀ j, j ≠ i → buf (upd i f c1) j = buf c j).
  { intros j Hj. rewrite buf_upd_ne by done. reflexivity. }
  assert (Hdk2 : disk (upd i f c1) = disk c) by reflexivity.
  assert (Hv : ∀ n, view (upd i f c1) n = view c n).
  { intros n. rewrite Hv2. case_decide as Hx; [|apply Hv1]. subst n.
    symmetry. exact (view_cached c L i Hok Hi). }
  set (c2 := upd i f c1) in *. clearbody c2. clear Hv1 Hv2 Hok1. clearbody c1.
  pose proof (list_elem_of_split _ _ Hi) as (A & B & HL). rewrite HL in Hok2.
  destruct (ok_struct _ _ Hok2) as (Hs2 & Hd2 & Hch2).
  destruct (lru_touch_spec c2 A i B Hs2 Hd2) as (Hf & Hd3 & Ho).
  set (c' := lru_touch i c2) in *. clearbody c'.
  assert (HL' : ∀ j, j ∈ i :: A ++ B ↔ j ∈ L) by (rewrite HL; set_solver).
  assert (He : ∀ j, ent (buf c' j) = ent (buf c2 j)) by (intros j; by apply lru_frame_ent).
  assert (Hok' : cache_ok c' (i :: A ++ B)).
  { rewrite <- HL in Hok2, Ho. split.
    - split_and!; [by apply Hf|done|].
      eapply (chains_ext c2); [done|apply Hf|intros; rewrite HL', HL; done|].
      intros j _. destruct (lru_frame_ent c2 c' j Hf) as [Hx ?].
      by apply ent_fields in Hx as (? & _).
    - intros j Hj%HL'. destruct (ent_fields _ _ (He j)) as (-> & -> & _ & -> & ->). by apply Hok2.
    - intros j k Hj%HL' Hk%HL'. destruct (ent_fields _ _ (He j)) as (-> & _).
      destruct (ent_fields _ _ (He k)) as (-> & _). by apply (ok_inj _ _ Hok2).
    - intros j Hj HjL. rewrite HL' in HjL. rewrite Ho by done. by apply (ok_free _ _ Hok2).
    - intros j Hj%HL'. destruct (ent_fields _ _ (He j)) as (-> & -> & -> & _ & ->).
      rewrite (lf_disk _ _ Hf). by apply (ok_clean _ _ Hok2). }
  exists (i :: A ++ B). rewrite <- HL in Hok2.
  split_and!; [done| |done| | | | | |].
  - intros n. rewrite <- Hv. destruct (cached_dec c2 L n) as [(j & Hj & <-)|Hno].
    + rewrite (view_cached c2 L j Hok2 Hj).
      destruct (ent_fields _ _ (He j)) as (<- & _ & _ & _ & <-).
      apply (view_cached c' (i :: A ++ B)); [done|by apply HL'].
    + rewrite (view_uncached c2 L n Hok2 Hno), <- (lf_disk _ _ Hf).
      apply (view_uncached c' (i :: A ++ B)); [done|]. intros j Hj%HL'.
      destruct (ent_fields _ _ (He j)) as (-> & _). by apply Hno.
  - intros j Hj. by rewrite He, Hb2'.
  - destruct (ent_fields _ _ (He i)) as (-> & _). by rewrite Hb2.
  - destruct (ent_fields _ _ (He i)) as (_ & _ & _ & _ & ->). by rewrite Hb2.
  - destruct (ent_fields _ _ (He i)) as (_ & -> & _). by rewrite Hb2.
  - destruct (ent_fields _ _ (He i)) as (_ & _ & -> & _). by rewrite Hb2.
  - by rewrite (lf_disk _ _ Hf).
Qed.

(** A slot labelled with its block and linked in. *)
Lemma fill_struct c L i n v :
  cache_ok c L → in_pool i → i ∉ L →
  let c' := lru_push_front i (hash_insert i (upd i (with_block n 1 v) c)) in
  struct c' (i :: L) ∧ disk c' = disk c ∧
  ent (buf c' i) = (n, 1, false, v, bdata (buf c i)) ∧
  (∀ j, j ≠ i → ent (buf c' j) = ent (buf c j)) ∧
  (∀ j, j ∉ i :: L → buf c' j = buf c j).
Proof.
  intros Hok Hi HiL. destruct (ok_free _ _ Hok i Hi HiL) as (_ & Hp & Hn & _).
  set (c1 := upd i (with_block n 1 v) c).
  assert (Hst1 : struct c1 L) by (apply struct_upd; [apply Hok|]; by intros ?).
  assert (Hb1 : buf c1 i = with_block n 1 v (buf c i)) by (apply buf_upd_eq; [apply Hok|done]).
  destruct (struct_add c1 i L Hst1 HiL Hi) as (Hst & Hd & He & Ho); [by rewrite Hb1..|].
  split_and!; [done|done| | |].
  - by rewrite He, Hb1.
  - intros j Hj. rewrite He. unfold c1. by rewrite buf_upd_ne.
  - intros j Hj. rewrite Ho by done. unfold c1. apply buf_upd_ne. set_solver.
Qed.

(** A cache with the new entry [i] for the uncached block [n] in front. *)
Lemma cache_ok_cons c c' L i n b :
  cache_ok c L → struct c' (i :: L) → i ∉ L →
  (∀ j, j ∈ L → block_num (buf c j) ≠ n) → 0 ≤ n < MAX_BLOCK →
  ent (buf c' i) = (n, 1, false, true, b) → length b = 4096%nat →
  (∀ j, j ≠ i → ent (buf c' j) = ent (buf c j)) →
  (∀ j, j ∉ i :: L → buf c' j = buf c j) →
  (∀ k, dblk (disk c') k = dblk (disk c) k) →
  cache_ok c' (i :: L) ∧ ∀ m, view c' m = if decide (m = n) then b else view c m.
Proof.
  intros Hok Hst HiL Hn Hnr Hei Hb He Ho Hd.
  unfold ent in Hei. injection Hei as Hbn Hr Hdi Hv Hda.
  assert (Hne : ∀ j, j ∈ L → j ≠ i) by (by intros j Hj ->).
  assert (Hok' : cache_ok c' (i :: L)).
  { split; [done| | | |].
    - intros j [->|Hj]%elem_of_cons.
      + rewrite Hv, Hbn, Hda, Hr. destruct Hnr. by split_and!.
      + destruct (ent_fields _ _ (He j (Hne j Hj))) as (-> & -> & _ & -> & ->). by apply Hok.
    - assert (Hx : ∀ j, j ∈ L → block_num (buf c' j) ≠ n).
      { intros j Hj. destruct (ent_fields _ _ (He j (Hne j Hj))) as (-> & _). by apply Hn. }
      intros j k [->|Hj]%elem_of_cons [->|Hk]%elem_of_cons; [done| | |].
      + rewrite Hbn. intros E. by destruct (Hx k Hk).
      + rewrite Hbn. intros E. by destruct (Hx j Hj).
      + destruct (ent_fields _ _ (He j (Hne j Hj))) as (-> & _).
        destruct (ent_fields _ _ (He k (Hne k Hk))) as (-> & _). by apply (ok_inj _ _ Hok).
    - intros j Hj HjL. rewrite Ho by done. apply (ok_free _ _ Hok); [done|set_solver].
    - intros j [->|Hj]%elem_of_cons; [rewrite Hr; lia|].
      destruct (ent_fields _ _ (He j (Hne j Hj))) as (-> & -> & -> & _ & ->).
      rewrite Hd. by apply (ok_clean _ _ Hok). }
  split; [done|]. intros m. case_decide as Hm.
  - subst m. rewrite <- Hbn, <- Hda. apply (view_cached c' (i :: L)); [done|by left].
  - destruct (cached_dec c L m) as [(j & Hj & <-)|Hno].
    + rewrite (view_cached c L j Hok Hj).
      destruct (ent_fields _ _ (He j (Hne j Hj))) as (<- & _ & _ & _ & <-).
      apply (view_cached c' (i :: L)); [done|by right].
    + rewrite (view_uncached c L m Hok Hno), <- Hd. apply (view_uncached c' (i :: L)); [done|].
      intros j [->|Hj]%elem_of_cons; [congruence|].
      destruct (ent_fields _ _ (He j (Hne j Hj))) as (-> & _). by apply Hno.
Qed.

(** The same members with the same contents, elsewhere only free entries. *)
Lemma cache_ok_members c c' L :
  cache_ok c L → struct c' L →
  (∀ j, j ∈ L → ent (buf c' j) = ent (buf c j)) →
  (∀ j, in_pool j → j ∉ L → free_slot (buf c' j) = true ∧ lru_prev (buf c' j) = None ∧
     lru_next (buf c' j) = None ∧ length (bdata (buf c' j)) = 4096%nat) →
  (∀ k, dblk (disk c') k = dblk (disk c) k) →
  cache_ok c' L ∧ ∀ n, view c' n = view c n.
Proof.
  intros Hok Hst He Hfr Hd.
  assert (Hok' : cache_ok c' L).
  { split; [done| | |done|].
    - intros j Hj. destruct (ent_fields _ _ (He j Hj)) as (-> & -> & _ & -> & ->). by apply Hok.
    - intros j k Hj Hk. destruct (ent_fields _ _ (He j Hj)) as (-> & _).
      destruct (ent_fields _ _ (He k Hk)) as (-> & _). by apply (ok_inj _ _ Hok).
    - intros j Hj. destruct (ent_fields _ _ (He j Hj)) as (-> & -> & -> & _ & ->).
      rewrite Hd. by apply (ok_clean _ _ Hok). }
  split; [done|]. intros n. destruct (cached_dec c L n) as [(j & Hj & <-)|Hn].
  - rewrite (view_cached c L j Hok Hj).
    destruct (ent_fields _ _ (He j Hj)) as (<- & _ & _ & _ & <-). by apply (view_cached c' L).
  - rewrite (view_uncached c L n Hok Hn), <- Hd. apply (view_uncached c' L); [done|].
    intros j Hj. destruct (ent_fields _ _ (He j Hj)) as (-> & _). by apply Hn.
Qed.

(** The state of a read in progress: entry [i] is linked in for the uncached block
    [n], not valid yet, and its buffer holds [data]. *)
Record reading c L n i data c2 : Prop := {
  rd_struct : struct c2 (i :: L);
  rd_ent : ent (buf c2 i) = (n, 1, false, false, data);
  rd_len : length data = 4096%nat;
  rd_other j : j ≠ i → ent (buf c2 j) = ent (buf c j);
  rd_free j : j ∉ i :: L → buf c2 j = buf c j;
  rd_disk k : dblk (disk c2) k = dblk (disk c) k;
}.

Lemma reading_done c L n i data c2 :
  cache_ok c L → in_pool i → i ∉ L → 0 ≤ n < MAX_BLOCK →
  (∀ j, j ∈ L → block_num (buf c j) ≠ n) → reading c L n i data c2 → data = dblk (disk c) n →
  let c' := upd i (with_valid true) c2 in
  cache_ok c' (i :: L) ∧ (∀ m, view c' m = view c m) ∧
  ent (buf c' i) = (n, 1, false, true, view c n) ∧ view c n = dblk (disk c') n ∧
  (∀ j, j ∈ L → ent (buf c' j) = ent (buf c j)).
Proof.
  intros Hok Hi HiL Hn Hun [Hst Hei Hlen He Ho Hd] Hdat c'.
  assert (Hb : buf c' i = with_valid true (buf c2 i)) by (apply buf_upd_eq; [apply Hst|done]).
  assert (Hb' : ∀ j, j ≠ i → buf c' j = buf c2 j) by (intros; by apply buf_upd_ne).
  assert (Hst' : struct c' (i :: L)) by (apply struct_upd; [done|]; intros _ b; by split_and!).
  assert (Hd' : disk c' = disk c2) by reflexivity. clearbody c'.
  assert (Hei' : ent (buf c' i) = (n, 1, false, true, data)).
  { rewrite Hb. unfold ent, with_valid in *. injection Hei as -> -> -> _ ->. done. }
  destruct (cache_ok_cons c c' L i n data Hok Hst' HiL Hun Hn Hei' Hlen) as [Hok' Hv].
  { intros j Hj. rewrite Hb' by done. by apply He. }
  { intros j Hj. rewrite Hb'; [by apply Ho|]. intros ->. apply Hj. left. }
  { intros k. by rewrite Hd'. }
  assert (Hvn : view c n = data) by (by rewrite (view_uncached c L n Hok Hun)).
  split_and!; [done| |by rewrite Hvn|by rewrite Hvn, Hd', Hd|].
  - intros m. rewrite Hv. case_decide; [by subst m|done].
  - intros j Hj. assert (j ≠ i) by (by intros ->). rewrite Hb' by done. by apply He.
Qed.

Lemma reading_failed c L n i data c2 :
  cache_ok c L → in_pool i → i ∉ L → reading c L n i data c2 →
  let c' := upd i (with_ref 0) (lru_unlink i (upd i (with_valid false) (hash_remove i c2))) in
  cache_ok c' L ∧ (∀ m, view c' m = view c m) ∧
  (∀ j, j ∈ L → ent (buf c' j) = ent (buf c j)).
Proof.
  intros Hok Hi HiL [Hst Hei Hlen He Ho Hd].
  destruct (struct_remove_with c2 [] i L (with_valid false) Hst)
    as (Hst4 & Hd4 & He4 & (b & Hb & Hb4) & Hp4 & Hn4 & Ho4); [by intros ?; split_and!|].
  set (c4 := lru_unlink i _) in *. change ([] ++ L) with L in Hst4. clearbody c4. intros c'.
  assert (Hb5 : buf c' i = with_ref 0 (buf c4 i)) by (apply buf_upd_eq; [apply Hst4|done]).
  assert (Hb5' : ∀ j, j ≠ i → buf c' j = buf c4 j) by (intros; by apply buf_upd_ne).
  assert (Hst' : struct c' L) by (apply struct_upd; [done|]; by intros ?).
  assert (Hd' : disk c' = disk c4) by reflexivity. clearbody c'.
  assert (Hne : ∀ j, j ∈ L → j ≠ i) by (by intros j Hj ->).
  assert (HeL : ∀ j, j ∈ L → ent (buf c' j) = ent (buf c j)).
  { intros j Hj. rewrite Hb5', He4, He by auto. done. }
  destruct (cache_ok_members c c' L Hok Hst' HeL) as [Hok' Hv].
  - intros j Hj HjL. destruct (decide (j = i)) as [->|Hji].
    + rewrite Hei in Hb. unfold ent, with_valid in Hb, Hb4. injection Hb as _ _ Edb _ Eab.
      cbn [valid dirty bdata block_num refcount] in Hb4. injection Hb4 as _ _ Ed4 Ev4 Ea4.
      rewrite Hb5. unfold free_slot, with_ref.
      cbn [valid dirty refcount lru_prev lru_next bdata].
      rewrite Ed4, Ev4, Ea4, Edb, Eab. by split_and!.
    + assert (HjiL : j ∉ i :: L) by (by rewrite not_elem_of_cons).
      rewrite Hb5', Ho4, Ho by done. by apply (ok_free _ _ Hok).
  - intros k. rewrite Hd', Hd4. apply Hd.
  - done.
Qed.

Lemma reading_start c L n i c1 data d :
  struct c1 (i :: L) → length data = 4096%nat → in_pool i →
  (∃ x, ent (buf c1 i) = (n, 1, false, false, x)) →
  (∀ j, j ≠ i → ent (buf c1 j) = ent (buf c j)) →
  (∀ j, j ∉ i :: L → buf c1 j = buf c j) →
  (∀ s, sector d s = sector (disk c) s) →
  reading c L n i data (upd i (with_data data) (set_disk c1 d)).
Proof.
  intros Hst Hl Hi [x Hei] He Ho Hsec.
  assert (Hb : ∀ j, buf (set_disk c1 d) j = buf c1 j) by reflexivity.
  assert (Hst0 : struct (set_disk c1 d) (i :: L)) by (by apply struct_disk).
  assert (Hd0 : disk (set_disk c1 d) = d) by reflexivity.
  set (c0 := set_disk c1 d) in *. clearbody c0.
  assert (Hb2 : buf (upd i (with_data data) c0) i = with_data data (buf c1 i)).
  { rewrite <- Hb. apply buf_upd_eq; [apply Hst0|done]. }
  assert (Hb2' : ∀ j, j ≠ i → buf (upd i (with_data data) c0) j = buf c1 j).
  { intros j Hj. by rewrite buf_upd_ne, Hb. }
  assert (Hst2 : struct (upd i (with_data data) c0) (i :: L)).
  { apply struct_upd; [done|]. intros _ b. by split_and!. }
  assert (Hd2 : disk (upd i (with_data data) c0) = d) by exact Hd0.
  set (c2 := upd i _ c0) in *. clearbody c2.
  unfold ent in Hei. injection Hei as Hbn Hr Hdi Hv _.
  split; [done| |done| | |].
  - rewrite Hb2. unfold ent, with_data. cbn [block_num refcount dirty valid bdata].
    by rewrite Hbn, Hr, Hdi, Hv.
  - intros j Hj. rewrite Hb2' by done. by apply He.
  - intros j Hj. rewrite Hb2'; [by apply Ho|]. intros ->. apply Hj. left.
  - intros k. rewrite Hd2. apply dblk_ext. intros s _. apply Hsec.
Qed.

Lemma read_miss_ok n i c L :
  cache_ok c L → in_pool i → i ∉ L → 0 ≤ n < MAX_BLOCK →
  (∀ j, j ∈ L → block_num (buf c j) ≠ n) →
  match read_miss n i c with
  | (Some i', c') =>
      i' = i ∧ cache_ok c' (i :: L) ∧ (∀ m, view c' m = view c m) ∧
      ent (buf c' i) = (n, 1, false, true, view c n) ∧
      view c n = dblk (disk c') n ∧
      (∀ j, j ∈ L → ent (buf c' j) = ent (buf c j))
  | (None, c') =>
      cache_ok c' L ∧ (∀ m, view c' m = view c m) ∧
      (∀ j, j ∈ L → ent (buf c' j) = ent (buf c j))
  end.
Proof.
  intros Hok Hi HiL Hn Hun. unfold read_miss.
  destruct (fill_struct c L i n false Hok Hi HiL) as (Hst & Hd & Hei & He & Ho).
  generalize dependent (lru_push_front i (hash_insert i (upd i (with_block n 1 false) c))).
  intros c1 Hst Hd Hei He Ho. destruct (ok_free _ _ Hok i Hi HiL) as (_ & _ & _ & Hlen).
  assert (Hda : bdata (buf c1 i) = bdata (buf c i)) by (unfold ent in Hei; by injection Hei).
  destruct (ata_read_block4k n _ (disk c1)) as [[rc data] d] eqn:Er.
  apply ata_read_block4k_ok in Er as (Hl & Hsec & Hdat); [|done|by rewrite Hda].
  rewrite Hd in Hsec, Hdat.
  assert (Hrd := reading_start c L n i c1 data d Hst Hl Hi (ex_intro _ _ Hei) He Ho Hsec).
  generalize dependent (upd i (with_data data) (set_disk c1 d)). intros c2 Hrd.
  destruct (Z.eqb_spec rc 0) as [->|Hrc]; cbn [negb].
  - split; [done|]. eapply reading_done; [done..|]. by apply Hdat.
  - by eapply reading_failed.
Qed.

(** What a call that returns a pinned buffer promises; [b] is the buffer's contents. *)
Definition pinned c L (n : Z) (b : list Z) (i : nat) c' L' : Prop :=
  cache_ok c' L' ∧ i ∈ L' ∧ block_num (buf c' i) = n ∧ bdata (buf c' i) = b ∧
  refcount (buf c' i) = refs c n + 1 ∧
  (∀ j, j ∈ L' → j ≠ i → j ∈ L ∧ ent (buf c' j) = ent (buf c j)) ∧
  (∀ j, j ∈ L → 0 < refcount (buf c j) → j ∈ L').

(** The users of the other blocks do not notice. *)
Definition undisturbed c L c' L' : Prop :=
  (∀ j, j ∈ L' → j ∈ L ∧ ent (buf c' j) = ent (buf c j)) ∧
  (∀ j, j ∈ L → 0 < refcount (buf c j) → j ∈ L').

Lemma bcache_read_ok c L n :
  cache_ok c L → 0 ≤ n < MAX_BLOCK → (∀ i, i ∈ L → refcount (buf c i) + 1 < 2 ^ 32) →
  match bcache_read n c with
  | (Some i, c') => (∀ m, view c' m = view c m) ∧
      (refs c n = 0 → dirty (buf c' i) = false → view c n = dblk (disk c') n) ∧
      ∃ L', pinned c L n (view c n) i c' L'
  | (None, c') => (∀ m, view c' m = view c m) ∧
      ∃ L', cache_ok c' L' ∧ undisturbed c L c' L'
  end.
Proof.
  intros Hok Hn Href. unfold bcache_read.
  pose proof (hash_find_spec c L n Hok) as Hf. destruct (hash_find n c) as [i|] eqn:Efind.
  - destruct Hf as [Hi Hbn].
    destruct (hit_ok c L i Hok Hi (Href i Hi)) as (L' & Hok' & Hv & HL & He & Hb & Hd & Hr & Hdi & Hdk).
    split; [done|]. split.
    { rewrite <- Hbn, (refs_cached c L i Hok Hi), (view_cached c L i Hok Hi), Hdi, Hdk.
      intros Hr0 Hdf. by apply (ok_clean _ _ Hok). }
    exists L'. split_and!; [done|by apply HL|congruence| | | |].
    + rewrite Hd, <- Hbn. symmetry. by apply (view_cached c L).
    + rewrite Hr, <- Hbn. by rewrite (refs_cached c L i Hok Hi).
    + intros j Hj%HL Hji. split; [done|by apply He].
    + intros j Hj _. by apply HL.
  - set (c0 := count_miss c).
    destruct (cache_ok_same c c0 L) as [Hok0 Hv0]; [by split_and!|done|].
    pose proof (alloc_entry_spec c0 L Hok0) as Ha.
    assert (Hrefs : refs c n = 0) by (unfold refs; by rewrite Efind).
    destruct (alloc_entry_locked c0) as [[i|] c1].
    + destruct Ha as (L1 & Hok1 & Hi & HiL & Hv1 & He1 & Hsub & Hri).
      assert (Hpin : ∀ j, j ∈ L → 0 < refcount (buf c j) → j ∈ L1).
      { intros j Hj Hr. apply Hsub; [done|]. intros ->. specialize (Hri Hj).
        change (refcount (buf c0 i)) with (refcount (buf c i)) in Hri. lia. }
      assert (Hun : ∀ j, j ∈ L1 → block_num (buf c1 j) ≠ n).
      { intros j Hj. destruct (He1 j Hj) as [HjL Hje].
        destruct (ent_fields _ _ Hje) as (-> & _). by apply (Hf j). }
      pose proof (read_miss_ok n i c1 L1 Hok1 Hi HiL Hn Hun) as Hm.
      destruct (read_miss n i c1) as [[i'|] c2]; cycle 1.
      * destruct Hm as (Hok2 & Hv2 & He2). split; [intros m; by rewrite Hv2, Hv1|].
        exists L1. split; [done|]. split; [|done]. intros j Hj.
        destruct (He1 j Hj) as [HjL Hje]. split; [done|]. by rewrite He2, Hje.
      * destruct Hm as (-> & Hok2 & Hv2 & Hei & Hvd & He2).
        split; [intros m; by rewrite Hv2, Hv1|]. split; [by rewrite <- Hvd, Hv1|].
        unfold ent in Hei. injection Hei as Hbn Hr _ _ Hda.
        exists (i :: L1). split_and!; [done|by left|done|by rewrite Hda, Hv1|lia| |].
        -- intros j [->|Hj]%elem_of_cons Hji; [done|].
           destruct (He1 j Hj) as [HjL Hje]. split; [done|]. by rewrite He2, Hje.
        -- intros j Hj Hjr. right. by apply Hpin.
    + destruct Ha as (Hok1 & Hv1 & Hb1). split; [done|]. exists L.
      split; [done|]. split; [|done]. intros j Hj. split; [done|]. by rewrite Hb1.
Qed.

(** On a miss the buffer of [bcache_get] has arbitrary contents: the caller fills it. *)
Lemma bcache_get_ok c L n :
  cache_ok c L → 0 ≤ n < MAX_BLOCK → (∀ i, i ∈ L → refcount (buf c i) + 1 < 2 ^ 32) →
  match bcache_get n c with
  | (Some i, c') => (∀ m, m ≠ n → view c' m = view c m) ∧
      ∃ L' b, pinned c L n b i c' L' ∧ length b = 4096%nat
  | (None, c') => (∀ m, view c' m = view c m) ∧
      ∃ L', cache_ok c' L' ∧ undisturbed c L c' L'
  end.
Proof.
  intros Hok Hn Href. unfold bcache_get.
  pose proof (hash_find_spec c L n Hok) as Hf. destruct (hash_find n c) as [i|] eqn:Efind.
  - destruct Hf as [Hi Hbn].
    destruct (hit_ok c L i Hok Hi (Href i Hi)) as (L' & Hok' & Hv & HL & He & Hb & Hd & Hr & Hdi & Hdk).
    split; [done|]. exists L', (bdata (buf c i)). split; [|by apply Hok].
    split_and!; [done|by apply HL|congruence|done| | |].
    + rewrite Hr, <- Hbn. by rewrite (refs_cached c L i Hok Hi).
    + intros j Hj%HL Hji. split; [done|by apply He].
    + intros j Hj _. by apply HL.
  - set (c0 := count_miss c).
    destruct (cache_ok_same c c0 L) as [Hok0 Hv0]; [by split_and!|done|].
    pose proof (alloc_entry_spec c0 L Hok0) as Ha.
    assert (Hrefs : refs c n = 0) by (unfold refs; by rewrite Efind).
    destruct (alloc_entry_locked c0) as [[i|] c1].
    + destruct Ha as (L1 & Hok1 & Hi & HiL & Hv1 & He1 & Hsub & Hri).
      destruct (fill_struct c1 L1 i n true Hok1 Hi HiL) as (Hst & Hd & Hei & He & Ho).
      destruct (ok_free _ _ Hok1 i Hi HiL) as (_ & _ & _ & Hlen).
      set (c2 := lru_push_front i _) in *. clearbody c2.
      destruct (cache_ok_cons c1 c2 L1 i n (bdata (buf c1 i)) Hok1 Hst HiL) as [Hok2 Hv2];
        try done.
      { intros j Hj. destruct (He1 j Hj) as [HjL Hje].
        destruct (ent_fields _ _ Hje) as (-> & _). by apply (Hf j). }
      { intros k. by rewrite Hd. }
      split; [intros m Hm; by rewrite Hv2, decide_False, Hv1|].
      unfold ent in Hei. injection Hei as Hbn Hr _ _ Hda.
      exists (i :: L1), (bdata (buf c1 i)). split; [|done].
      split_and!; [done|by left|done|done|lia| |].
      * intros j [->|Hj]%elem_of_cons Hji; [done|].
        destruct (He1 j Hj) as [HjL Hje]. split; [done|]. by rewrite He, Hje.
      * intros j Hj Hjr. right. apply Hsub; [done|]. intros ->. specialize (Hri Hj).
        change (refcount (buf c0 i)) with (refcount (buf c i)) in Hri. lia.
    + destruct Ha as (Hok1 & Hv1 & Hb1). split; [done|]. exists L.
      split; [done|]. split; [|done]. intros j Hj. split; [done|]. by rewrite Hb1.
Qed.

(** Dropping a pin: the last user of a clean buffer must leave what is on disk. *)
Lemma bcache_release_ok c L i :
  cache_ok c L → i ∈ L →
  (dirty (buf c i) = false → refcount (buf c i) ≤ 1 →
     bdata (buf c i) = dblk (disk c) (block_num (buf c i))) →
  let c' := bcache_release i c in
  cache_ok c' L ∧ (∀ n, view c' n = view c n) ∧
  (∀ j, j ≠ i → buf c' j = buf c j) ∧
  refcount (buf c' i) = Z.max 0 (refcount (buf c i) - 1) ∧
  bdata (buf c' i) = bdata (buf c i) ∧ dirty (buf c' i) = dirty (buf c i) ∧
  block_num (buf c' i) = block_num (buf c i).
Proof.
  intros Hok Hi Hcl. unfold bcache_release.
  destruct (ok_entry _ _ Hok i Hi) as (_ & _ & Hl & Hr).
  destruct (Z.ltb_spec 0 (refcount (buf c i))) as [Hp|Hp]; cbv zeta.
  - set (f := with_ref (refcount (buf c i) - 1)).
    destruct (cache_ok_upd c L i f Hok Hi) as [Hok' Hv];
      [by intros b; split_and!|done|simpl; lia| |].
    { simpl. intros Hd Hr0. apply Hcl; [done|lia]. }
    pose proof (struct_in_pool c L i (ok_struct _ _ Hok) Hi) as Hip.
    assert (Hb : buf (upd i f c) i = f (buf c i)) by (apply buf_upd_eq; [apply Hok|done]).
    rewrite Hb. split_and!; [done| |intros; by apply buf_upd_ne|simpl; lia|done|done|done].
    intros n. rewrite Hv. case_decide as Hx; [|done]. subst n. symmetry.
    by apply (view_cached c L).
  - split_and!; [done|done|done|lia|done|done|done].
Qed.

(** A caller writes the buffer it holds and marks it dirty. *)
Lemma write_buf_ok c L i b :
  cache_ok c L → i ∈ L → length b = 4096%nat →
  let c' := bcache_mark_dirty i (set_data i b c) in
  cache_ok c' L ∧
  (∀ n, view c' n = if decide (n = block_num (buf c i)) then b else view c n) ∧
  (∀ j, j ≠ i → buf c' j = buf c j) ∧
  ent (buf c' i) = (block_num (buf c i), refcount (buf c i), true, true, b).
Proof.
  intros Hok Hi Hb. destruct (ok_entry _ _ Hok i Hi) as (Hval & _ & _ & Hr).
  pose proof (struct_in_pool c L i (ok_struct _ _ Hok) Hi) as Hip.
  assert (Heq : bcache_mark_dirty i (set_data i b c)
                = upd i (λ x, with_dirty true (with_data b x)) c).
  { unfold bcache_mark_dirty, set_data, upd, set_pool. simpl. f_equal.
    apply list_eq. intros j. destruct (decide (j = i)) as [->|].
    - rewrite !list_lookup_alter, !decide_True by done. by destruct (pool c !! i).
    - by rewrite !list_lookup_alter_ne. }
  rewrite Heq. cbv zeta.
  destruct (cache_ok_upd c L i (λ x, with_dirty true (with_data b x)) Hok Hi) as [Hok' Hv];
    [by intros x; split_and!|done|done|done|].
  split_and!; [done|done|intros; by apply buf_upd_ne|].
  rewrite buf_upd_eq; [|apply Hok|done]. unfold ent. simpl. by rewrite Hval.
Qed.

(** Writing back one buffer. *)
Lemma sync_block_ok c L i :
  cache_ok c L → i ∈ L →
  let '(rc, c') := bcache_sync_block i c in
  cache_ok c' L ∧ (∀ n, view c' n = view c n) ∧
  (∀ j, j ≠ i → buf c' j = buf c j) ∧
  refcount (buf c' i) = refcount (buf c i) ∧
  (rc = 0 ↔ dirty (buf c' i) = false) ∧
  (dirty (buf c i) = true → rc = 0 → dblk (disk c') (block_num (buf c i)) = bdata (buf c i)).
Proof.
  intros Hok Hi. unfold bcache_sync_block. destruct (dirty (buf c i)) eqn:Ed.
  2:{ split_and!; try done. }
  destruct (ok_entry _ _ Hok i Hi) as (_ & Hn & Hl & Hr).
  destruct (ata_write_block4k _ _ _) as [rc d] eqn:Ew.
  apply ata_write_block4k_ok in Ew as [Hoth Hw]; [|done|done].
  destruct (cache_ok_disk c L i d Hok Hi Ed Hoth) as [Hok1 Hv1].
  destruct (Z.eqb_spec rc 0) as [->|Hrc].
  - specialize (Hw eq_refl).
    destruct (cache_ok_upd (set_disk c d) L i (with_dirty false) Hok1 Hi) as [Hok2 Hv2];
      [by intros b; split_and!|done|done|done|].
    pose proof (struct_in_pool c L i (ok_struct _ _ Hok) Hi) as Hip.
    assert (Hb : buf (upd i (with_dirty false) (set_disk c d)) i = with_dirty false (buf c i)).
    { change (buf c i) with (buf (set_disk c d) i). apply buf_upd_eq; [apply Hok1|done]. }
    rewrite Hb. split_and!; [done| |intros; by rewrite buf_upd_ne|done|done|done].
    intros n. rewrite Hv2. case_decide as Hx; [|done]. simpl. subst n. symmetry.
    exact (view_cached c L i Hok Hi).
  - split_and!; try done. split; [done|]. intros Hx.
    change (buf (set_disk c d) i) with (buf c i) in Hx. congruence.
Qed.

(** Entries of the list are written back one by one. *)
Lemma flush_list_ok fuel c A R :
  cache_ok c (A ++ R) → (length R < fuel)%nat →
  let c' := flush_list fuel (head R) c in
  cache_ok c' (A ++ R) ∧ (∀ n, view c' n = view c n) ∧
  (∀ j, refcount (buf c' j) = refcount (buf c j)) ∧
  (∀ j, j ∉ R → buf c' j = buf c j) ∧
  ((∀ n b d, (ata_write_block4k n b d).1 = 0) → ∀ j, j ∈ R → dirty (buf c' j) = false).
Proof.
  revert c A R. induction fuel as [|fuel IH]; intros c A R Hok Hf; [lia|].
  destruct R as [|i R]; simpl.
  { split_and!; try done. by intros _ j ?%elem_of_nil. }
  assert (Hi : i ∈ A ++ i :: R) by set_solver.
  pose proof (sync_block_ok c _ i Hok Hi) as Hs.
  destruct (bcache_sync_block i c) as [rc c1] eqn:Eb. destruct Hs as (Hok1 & Hv1 & Ho1 & Hr1 & Hd1 & _).
  assert (lru_next (buf c1 i) = head R) as Hnx.
  { destruct (ok_struct _ _ Hok1) as (_ & (_ & _ & _ & _ & Hl) & _).
    by destruct (Hl A i R eq_refl). }
  cbn [snd]. rewrite Hnx.
  assert (HAR : A ++ i :: R = (A ++ [i]) ++ R) by (by rewrite <- app_assoc).
  rewrite HAR in Hok1 |- *.
  destruct (IH c1 (A ++ [i]) R Hok1 ltac:(simpl in Hf; lia)) as (Hok2 & Hv2 & Hr2 & Ho2 & Hd2).
  assert (HiR : i ∉ R).
  { destruct (ok_struct _ _ Hok) as (_ & (Hnd & _) & _). apply NoDup_app in Hnd as (_ & _ & Hnd).
    by inversion Hnd. }
  split_and!; [done| | | |].
  - intros n. by rewrite Hv2, Hv1.
  - intros j. rewrite Hr2. destruct (decide (j = i)) as [->|]; [done|by rewrite Ho1].
  - intros j Hj. rewrite Ho2, Ho1 by set_solver. done.
  - intros Hdev j [->|Hj]%elem_of_cons; [|by apply Hd2].
    rewrite Ho2 by done. apply Hd1.
    unfold bcache_sync_block in Eb. destruct (dirty (buf c i)).
    + pose proof (Hdev (block_num (buf c i)) (bdata (buf c i)) (disk c)) as Hw.
      destruct (ata_write_block4k _ _ _) as [rc' d]. simpl in Hw. by simplify_eq.
    + by simplify_eq.
Qed.

(** Nobody holds a buffer. *)
Definition quiet c L : Prop := cache_ok c L ∧ ∀ i, i ∈ L → refcount (buf c i) = 0.

Lemma flush_all_ok c L :
  quiet c L →
  let c' := bcache_flush_all c in
  quiet c' L ∧ (∀ n, view c' n = view c n) ∧
  (∀ n, (∀ i, i ∈ L → block_num (buf c' i) = n → dirty (buf c' i) = false) →
     dblk (disk c') n = view c n) ∧
  ((∀ n b d, (ata_write_block4k n b d).1 = 0) → ∀ n, dblk (disk c') n = view c n).
Proof.
  intros [Hok Hq] c'. destruct (ok_struct _ _ Hok) as (_ & (Hnd & Hin & Hh & _) & _).
  pose proof (nodup_pool L Hnd Hin) as Hlen.
  destruct (flush_list_ok (S BCACHE_N_BLOCKS) c [] L Hok ltac:(lia)) as (Hok' & Hv & Hr & _ & Hd).
  rewrite <- Hh in Hok', Hv, Hr, Hd.
  change (flush_list _ (lru_head c) c) with c' in Hok', Hv, Hr, Hd. simpl in Hok'.
  assert (Hclean : ∀ n, (∀ i, i ∈ L → block_num (buf c' i) = n → dirty (buf c' i) = false) →
    dblk (disk c') n = view c n).
  { intros n Hn. rewrite <- Hv. destruct (cached_dec c' L n) as [(i & Hi & Hb)|Hno].
    - subst n. rewrite (view_cached c' L i Hok' Hi). symmetry. apply (ok_clean _ _ Hok'); [done| |].
      + by apply Hn.
      + rewrite Hr. by apply Hq.
    - by rewrite (view_uncached c' L n Hok' Hno). }
  split_and!; [|done|done|].
  - split; [done|]. intros i Hi. rewrite Hr. by apply Hq.
  - intros Hdev n. apply Hclean. intros i Hi _. by apply Hd.
Qed.

(** ** The initial cache *)
Lemma lookup_repeat_default {A} (x d : A) n i : default d (repeat x n !! i) = x ∨ (n ≤ i)%nat.
Proof.
  destruct (Nat.lt_ge_cases i n) as [Hl|]; [left|by right].
  destruct (repeat x n !! i) as [y|] eqn:E.
  - simpl. apply list_elem_of_lookup_2, list_elem_of_In, repeat_spec in E. done.
  - apply lookup_ge_None in E. rewrite repeat_length in E. lia.
Qed.

Lemma bcache_init_ok c :
  pool c = [] →
  bcache_init false c = (-1, c) ∧
  ∃ c', bcache_init true c = (0, c') ∧ quiet c' [] ∧ disk c' = disk c ∧
    bcache_init true c' = (0, c') ∧ ∀ n, view c' n = dblk (disk c) n.
Proof.
  intros Hp. unfold bcache_init. rewrite Hp. split; [done|]. eexists. split; [done|].
  set (c' := mkCache _ _ _ _ _ _ _).
  assert (Hbuf : ∀ i, buf c' i = zero_buf).
  { intros i. unfold buf. change (pool c') with (repeat zero_buf BCACHE_N_BLOCKS).
    destruct (lookup_repeat_default zero_buf zero_buf BCACHE_N_BLOCKS i) as [E|E]; [exact E|].
    rewrite lookup_ge_None_2; [done|]. by rewrite repeat_length. }
  assert (Hok : cache_ok c' []).
  { split.
    - split_and!.
      + split; apply repeat_length.
      + split_and!; [constructor|constructor|done|done|]. intros L1 i L2 Hx.
        by apply app_cons_not_nil in Hx.
      + intros h Hh. exists []. split_and!; [|constructor|set_solver].
        unfold bucket. change (hash_table c') with (repeat (@None nat) BCACHE_HASH_SIZE).
        destruct (lookup_repeat_default (@None nat) None BCACHE_HASH_SIZE h) as [E|E]; [exact E|lia].
    - by intros i ?%elem_of_nil.
    - by intros i j ?%elem_of_nil.
    - intros i _ _. rewrite Hbuf. by split_and!.
    - by intros i ?%elem_of_nil. }
  split_and!; [|done|done|].
  - split; [done|]. by intros i ?%elem_of_nil.
  - intros n. apply (view_uncached c' []); [done|]. by intros i ?%elem_of_nil.
Qed.

(** ** The cache as the file system uses it *)

Definition cache_read (n : Z) c : option (list Z) * bcache D :=
  match bcache_read n c with
  | (Some i, c) => (Some (bdata (buf c i)), bcache_release i c)
  | (None, c) => (None, c)
  end.

Definition cache_modify (n : Z) (f : list Z → list Z) c : bool * bcache D :=
  match bcache_read n c with
  | (Some i, c) =>
      (true, bcache_release i (bcache_mark_dirty i (set_data i (f (bdata (buf c i))) c)))
  | (None, c) => (false, c)
  end.

Definition cache_overwrite (n : Z) (b : list Z) c : bool * bcache D :=
  match bcache_get n c with
  | (Some i, c) => (true, bcache_release i (bcache_mark_dirty i (set_data i b c)))
  | (None, c) => (false, c)
  end.

Lemma quiet_refs c L n : quiet c L → refs c n = 0.
Proof.
  intros [Hok Hq]. unfold refs. pose proof (hash_find_spec c L n Hok) as Hf.
  destruct (hash_find n c) as [i|]; [|done]. apply Hq, Hf.
Qed.

Lemma quiet_small c L : quiet c L → ∀ i, i ∈ L → refcount (buf c i) + 1 < 2 ^ 32.
Proof. intros [_ Hq] i Hi. rewrite Hq by done. lia. Qed.

(** Releasing the only pin gives a quiet cache again. *)
Lemma release_quiet c L n b i c' L' c1 :
  quiet c L → pinned c L n b i c' L' →
  cache_ok c1 L' → (∀ j, j ≠ i → buf c1 j = buf c' j) →
  refcount (buf c1 i) = refcount (buf c' i) →
  (dirty (buf c1 i) = false → bdata (buf c1 i) = dblk (disk c1) (block_num (buf c1 i))) →
  quiet (bcache_release i c1) L' ∧ ∀ m, view (bcache_release i c1) m = view c1 m.
Proof.
  intros Hq (Hok' & Hi & Hbn & Hb & Hr & He & _) Hok1 Ho Hr1 Hcl.
  rewrite (quiet_refs c L n Hq) in Hr. destruct Hq as [Hok Hq].
  destruct (bcache_release_ok c1 L' i Hok1 Hi) as (Hok2 & Hv2 & Ho2 & Hr2 & _);
    [intros Hd _; by apply Hcl|].
  split; [|done]. split; [done|]. intros j Hj. destruct (decide (j = i)) as [->|Hji]; [lia|].
  rewrite Ho2, Ho by done. destruct (He j Hj Hji) as [HjL Hje].
  destruct (ent_fields _ _ Hje) as (_ & -> & _). by apply Hq.
Qed.

Lemma undisturbed_quiet c L c' L' :
  quiet c L → cache_ok c' L' → undisturbed c L c' L' → quiet c' L'.
Proof.
  intros [_ Hq] Hok [He _]. split; [done|]. intros j Hj. destruct (He j Hj) as [HjL Hje].
  destruct (ent_fields _ _ Hje) as (_ & -> & _). by apply Hq.
Qed.

Lemma cache_read_ok c L n :
  quiet c L → 0 ≤ n < MAX_BLOCK →
  let '(r, c') := cache_read n c in
  (∃ L', quiet c' L') ∧ (∀ m, view c' m = view c m) ∧
  match r with Some b => b = view c n | None => True end.
Proof.
  intros Hq Hn. unfold cache_read.
  pose proof (bcache_read_ok c L n (proj1 Hq) Hn (quiet_small c L Hq)) as Hr.
  destruct (bcache_read n c) as [[i|] c1].
  - destruct Hr as (Hv & Hcl & L' & Hp). pose proof Hp as (Hok' & Hi & Hbn & Hb & _).
    destruct (release_quiet c L n (view c n) i c1 L' c1 Hq Hp) as [Hq' Hv'];
      [done|done|done| |].
    { intros Hd. rewrite Hb, Hbn. apply Hcl; [by apply (quiet_refs c L)|done]. }
    split_and!; [by exists L'|intros m; by rewrite Hv', Hv|done].
  - destruct Hr as (Hv & L' & Hok' & Hu). split_and!; [|done|done].
    exists L'. by eapply undisturbed_quiet.
Qed.

(** Writing a pinned buffer and releasing it. *)
Lemma write_release_ok c L n b0 i c1 L' b :
  quiet c L → pinned c L n b0 i c1 L' → length b = 4096%nat →
  (∀ m, m ≠ n → view c1 m = view c m) →
  let c' := bcache_release i (bcache_mark_dirty i (set_data i b c1)) in
  quiet c' L' ∧ ∀ m, view c' m = if decide (m = n) then b else view c m.
Proof.
  intros Hq Hp Hb Hv. pose proof Hp as (Hok' & Hi & Hbn & _).
  destruct (write_buf_ok c1 L' i b Hok' Hi Hb) as (Hok2 & Hv2 & Ho2 & He2).
  unfold ent in He2. injection He2 as _ Hr2 Hd2 _ _.
  destruct (release_quiet c L n b0 i c1 L' (bcache_mark_dirty i (set_data i b c1)) Hq Hp)
    as [Hq' Hv']; [done|done|done|by rewrite Hd2|].
  split; [done|]. intros m. rewrite Hv', Hv2, Hbn. case_decide; [done|by apply Hv].
Qed.

Lemma cache_modify_ok c L n f :
  quiet c L → 0 ≤ n < MAX_BLOCK → length (f (view c n)) = 4096%nat →
  let '(r, c') := cache_modify n f c in
  (∃ L', quiet c' L') ∧
  ∀ m, view c' m = if decide (r = true ∧ m = n) then f (view c n) else view c m.
Proof.
  intros Hq Hn Hf. unfold cache_modify.
  pose proof (bcache_read_ok c L n (proj1 Hq) Hn (quiet_small c L Hq)) as Hr.
  destruct (bcache_read n c) as [[i|] c1].
  - destruct Hr as (Hv & _ & L' & Hp). pose proof Hp as (_ & _ & _ & -> & _).
    destruct (write_release_ok c L n _ i c1 L' (f (view c n)) Hq Hp Hf) as [Hq' Hv'];
      [intros; apply Hv|].
    split; [by exists L'|]. intros m. rewrite Hv'.
    destruct (decide (m = n)); [by rewrite decide_True|by rewrite decide_False by tauto].
  - destruct Hr as (Hv & L' & Hok' & Hu). split; [exists L'; by eapply undisturbed_quiet|].
    intros m. rewrite decide_False; [apply Hv|by intros [? _]].
Qed.

Lemma cache_overwrite_ok c L n b :
  quiet c L → 0 ≤ n < MAX_BLOCK → length b = 4096%nat →
  let '(r, c') := cache_overwrite n b c in
  (∃ L', quiet c' L') ∧
  ∀ m, view c' m = if decide (r = true ∧ m = n) then b else view c m.
Proof.
  intros Hq Hn Hb. unfold cache_overwrite.
  pose proof (bcache_get_ok c L n (proj1 Hq) Hn (quiet_small c L Hq)) as Hr.
  destruct (bcache_get n c) as [[i|] c1].
  - destruct Hr as (Hv & L' & b0 & Hp & _).
    destruct (write_release_ok c L n b0 i c1 L' b Hq Hp Hb Hv) as [Hq' Hv'].
    split; [by exists L'|]. intros m. rewrite Hv'.
    destruct (decide (m = n)); [by rewrite decide_True|by rewrite decide_False by tauto].
  - destruct Hr as (Hv & L' & Hok' & Hu). split; [exists L'; by eapply undisturbed_quiet|].
    intros m. rewrite decide_False; [apply Hv|by intros [? _]].
Qed.

#[global] Instance bcache_io : BlockIO (bcache D) := {
  io_ok c := ∃ L, quiet c L;
  io_limit := MAX_BLOCK;
  io_view := view;
  io_disk c := dblk (disk c);
  io_durable := ∀ n b (d : D), (ata_write_block4k n b d).1 = 0;
  io_read := cache_read;
  io_modify := cache_modify;
  io_overwrite := cache_overwrite;
  io_flush := bcache_flush_all;
}.

#[global] Instance bcache_io_ok : BlockIOok (bcache D).
Proof.
  split.
  - intros c n [L [Hok _]]. unfold io_view. simpl.
    destruct (cached_dec c L n) as [(i & Hi & <-)|Hn].
    + rewrite (view_cached c L i Hok Hi). by apply Hok.
    + rewrite (view_uncached c L n Hok Hn). apply dblk_length.
  - intros n c [L Hq] Hn. pose proof (cache_read_ok c L n Hq Hn) as Hr. simpl.
    destruct (cache_read n c). exact Hr.
  - intros n f c [L Hq] Hn Hf. pose proof (cache_modify_ok c L n f Hq Hn Hf) as Hr. simpl.
    destruct (cache_modify n f c) as [r c']. destruct Hr as [Hq' Hv]. split; [done|].
    destruct r; intros m; unfold io_view; simpl; rewrite Hv.
    + by destruct (decide (m = n)); [rewrite decide_True|rewrite decide_False by tauto].
    + by rewrite decide_False by (by intros [? _]).
  - intros n b c [L Hq] Hn Hb. pose proof (cache_overwrite_ok c L n b Hq Hn Hb) as Hr. simpl.
    destruct (cache_overwrite n b c) as [r c']. destruct Hr as [Hq' Hv]. split; [done|].
    destruct r; intros m; unfold io_view; simpl; rewrite Hv.
    + by destruct (decide (m = n)); [rewrite decide_True|rewrite decide_False by tauto].
    + by rewrite decide_False by (by intros [? _]).
  - intros c [L Hq]. destruct (flush_all_ok c L Hq) as (Hq' & Hv & _ & Hd).
    split_and!; [by exists L|done|exact Hd].
Qed.

(** ** Theorems *)

(** C18: [bcache_read] hands out a pinned buffer that holds the current contents of the
    block, or fails; either way no block's contents changes, whatever is evicted and
    even if a write-back or the read fails, buffers that are in use stay in place
    unchanged, and the list and hash structure stays well formed. *)
Theorem bcache_read_spec c L n :
  cache_ok c L → 0 ≤ n < MAX_BLOCK → (∀ i, i ∈ L → refcount (buf c i) + 1 < 2 ^ 32) →
  match bcache_read n c with
  | (Some i, c') => (∀ m, view c' m = view c m) ∧
      (refs c n = 0 → dirty (buf c' i) = false → view c n = dblk (disk c') n) ∧
      ∃ L', pinned c L n (view c n) i c' L'
  | (None, c') => (∀ m, view c' m = view c m) ∧
      ∃ L', cache_ok c' L' ∧ undisturbed c L c' L'
  end.
Proof. apply bcache_read_ok. Qed.

(** Looking for a slot never loses data: an entry is emptied only if nobody uses it
    and its contents are on disk, a dirty one being written back first; if the
    write-back fails the entry is kept and an older one is tried. *)
Theorem evict_keeps_data c L :
  cache_ok c L →
  match alloc_entry_locked c with
  | (Some i, c') => slot_taken c L i c'
  | (None, c') => unchanged c L c'
  end.
Proof. apply alloc_entry_spec. Qed.

(** After [bcache_flush_all] the contents shown are as before, every block without a
    dirty entry is on disk with those contents, and if the device's writes succeed
    that is every block. *)
Theorem bcache_flush_all_durable c L :
  quiet c L →
  let c' := bcache_flush_all c in
  quiet c' L ∧ (∀ n, view c' n = view c n) ∧
  (∀ n, (∀ i, i ∈ L → block_num (buf c' i) = n → dirty (buf c' i) = false) →
     dblk (disk c') n = view c n) ∧
  ((∀ n b d, (ata_write_block4k n b d).1 = 0) → ∀ n, dblk (disk c') n = view c n).
Proof. apply flush_all_ok. Qed.

(** The pointer operations on the LRU list implement a list with removal and
    insertion in front: from well-formed links, [lru_touch] of a member gives the
    well-formed links of the list with that member first, and changes nothing else. *)
Theorem lru_touch_refines c A i B :
  sized c → dll c (A ++ i :: B) →
  lru_frame c (lru_touch i c) ∧ dll (lru_touch i c) (i :: A ++ B) ∧
  (∀ j, j ∉ A ++ i :: B → buf (lru_touch i c) j = buf c j).
Proof. apply lru_touch_spec. Qed.

End reprs.

(** ** A cache over an empty disk *)
Definition demo_cache : bcache ramdisk :=
  (bcache_init true (mkCache [] [] None None 0 0 ∅)).2.

Lemma demo_cache_quiet : quiet demo_cache [].
Proof.
  destruct (bcache_init_ok (mkCache [] [] None None 0 0 (∅ : ramdisk)) eq_refl)
    as (_ & c' & Hc' & Hq & _).
  unfold demo_cache. rewrite Hc'. exact Hq.
Qed.

Lemma bcache_read_spec_witness :
  match bcache_read 5 demo_cache with
  | (Some i, c') => (∀ m, view c' m = view demo_cache m) ∧
      (refs demo_cache 5 = 0 → dirty (buf c' i) = false →
         view demo_cache 5 = dblk (disk c') 5) ∧
      ∃ L', pinned demo_cache [] 5 (view demo_cache 5) i c' L'
  | (None, c') => (∀ m, view c' m = view demo_cache m) ∧
      ∃ L', cache_ok c' L' ∧ undisturbed demo_cache [] c' L'
  end.
Proof.
  apply (bcache_read_spec demo_cache [] 5).
  - apply demo_cache_quiet.
  - unfold MAX_BLOCK. lia.
  - intros i Hi. apply elem_of_nil in Hi. destruct Hi.
Defined.

Lemma evict_keeps_data_witness :
  match alloc_entry_locked demo_cache with
  | (Some i, c') => slot_taken demo_cache [] i c'
  | (None, c') => unchanged demo_cache [] c'
  end.
Proof. apply (evict_keeps_data demo_cache []). apply demo_cache_quiet. Defined.

Lemma bcache_flush_all_durable_witness :
  quiet (bcache_flush_all demo_cache) [].
Proof. apply (bcache_flush_all_durable demo_cache []). exact demo_cache_quiet. Defined.

(** Two entries, entry 1 most recently used. *)
Definition demo_lru : bcache ramdisk := lru_push_front 1 (lru_push_front 0 demo_cache).

Lemma demo_lru_dll : sized demo_lru ∧ dll demo_lru ([1%nat] ++ 0%nat :: []).
Proof.
  destruct demo_cache_quiet as [Hok _]. destruct (ok_struct _ _ Hok) as (Hs & Hd & _).
  destruct (ok_free _ _ Hok 0) as (_ & Hp0 & Hn0 & _); [by apply Nat.ltb_lt|set_solver|].
  destruct (ok_free _ _ Hok 1) as (_ & Hp1 & Hn1 & _); [by apply Nat.ltb_lt|set_solver|].
  destruct (lru_push_front_spec demo_cache 0 [] Hs Hd) as (Hf & Hd' & Ho);
    [set_solver|by apply Nat.ltb_lt|done|done|].
  destruct (lru_push_front_spec (lru_push_front 0 demo_cache) 1 [0%nat]) as (Hf2 & Hd2 & _);
    [by apply Hf|done|set_solver|by apply Nat.ltb_lt|..].
  - rewrite Ho; [done|set_solver].
  - rewrite Ho; [done|set_solver].
  - split; [by apply Hf2, Hf|done].
Qed.

Lemma lru_touch_refines_witness :
  dll (lru_touch 0 demo_lru) [0%nat; 1%nat].
Proof.
  apply (lru_touch_refines demo_lru [1%nat] 0%nat []); apply demo_lru_dll.
Defined.
