(* ===== verification/Kfs.v ===== *)
(** KyuzenFS V4: on-disk structures ([include/kyuzenfs_v4.h]) and the file system's
    state ([kernel/fs/kfs_internal.h], the globals of [kernel/fs/kfs_super.c] and
    [kernel/fs/kfs_inode.c]).

    On disk a structure is packed little-endian bytes; the [dec_]/[enc_] functions are
    the layouts that the code relies on when it copies a structure from or to a block
    with [memcpy].  In memory it is a record.

    An inode pointer of the code always points into the inode cache [ino_pool]; the
    functions on one inode are written on the inode's value and give its new value,
    and the code that holds several inodes works on pool indices.  [kheap] lists the
    outcomes of the coming [kmalloc] calls: an input, over which every theorem
    quantifies (an exhausted list means success). *)

From S2P Require Import Prelude Bitmap BlockIO.

Definition KZFS_MAGIC : Z := 0x53465A4B.
Definition KZFS_VERSION : Z := 0x00040000.
Definition KZFS_BLOCK_SIZE : Z := 4096.
Definition KZFS_INODE_SIZE : Z := 128.
Definition KZFS_INODES_PER_BLOCK : Z := 32.
Definition KZFS_NAME_MAX : Z := 255.
Definition KZFS_NUM_DIRECT_EXTENTS : Z := 4.
Definition KZFS_INODE_FLAG_FILE : Z := 1.
Definition KZFS_INODE_FLAG_DIR : Z := 2.
Definition KZFS_DIRENT_MIN_REC : Z := 12.
Definition KZFS_DIRENT_MAX_REC : Z := 8 + KZFS_NAME_MAX.
Definition KZFS_EXTS_PER_IND_BLOCK : Z := 341.
Definition KZFS_MAX_EXTENTS : Z := 345.
Definition INO_HASH_SIZE : nat := 128.
Definition INO_CACHE_MAX : nat := 64.
Definition KZFS_CRASHDUMP_SECTORS : Z := 8.

Definition KZFS_EOK : Z := 0.
Definition KZFS_ENOENT : Z := -2.
Definition KZFS_EIO : Z := -5.
Definition KZFS_ENOSPC : Z := -28.
Definition KZFS_EINVAL : Z := -22.
Definition KZFS_EEXIST : Z := -17.
Definition KZFS_ENOTDIR : Z := -20.
Definition KZFS_EISDIR : Z := -21.
Definition KZFS_ENOMEM : Z := -12.
Definition KZFS_ENAMETOOLONG : Z := -36.

(** ** Structures *)
Record superblock := mkSb {
  sb_magic : Z; version : Z; block_size : Z; pad0 : Z;
  total_blocks : Z; free_blocks : Z; total_inodes : Z; free_inodes : Z;
  block_bitmap_start : Z; block_bitmap_blocks : Z; pad1 : Z;
  inode_bitmap_start : Z; inode_bitmap_blocks : Z; pad2 : Z;
  inode_table_start : Z; inode_table_blocks : Z; pad3 : Z;
  data_blocks_start : Z; root_inode : Z; pad4 : Z; sb_reserved : list Z;
}.

Record extent := mkExt { start_block : Z; block_count : Z }.

(** [struct kzfs_inode], the inode on disk. *)
Record dinode := mkDi {
  d_mode : Z; d_uid : Z; d_gid : Z; d_links_count : Z; d_size_bytes : Z;
  d_blocks_used : Z; d_atime : Z; d_mtime : Z; d_ctime : Z;
  d_direct : list extent; d_indirect : Z; d_reserved : list Z;
}.

(** [kzfs_v4_inode_mem_t], the inode in memory. *)
Record inode_mem := mkIno {
  ino : Z; mode : Z; links_count : Z; size_bytes : Z; blocks_used : Z;
  direct : list extent; indirect_extent_block : Z; i_dirty : bool; i_refcount : Z;
}.

Record ino_entry := mkEnt {
  e_ino : inode_mem; e_used : bool; e_dead : bool; e_next : option nat;
}.

#[global] Instance extent_eq_dec : EqDecision extent.
Proof. solve_decision. Defined.
#[global] Instance inode_mem_eq_dec : EqDecision inode_mem.
Proof. solve_decision. Defined.

Definition zero_extent : extent := mkExt 0 0.
Definition zero_inode : inode_mem := mkIno 0 0 0 0 0 (repeat zero_extent 4) 0 false 0.
Definition zero_entry : ino_entry := mkEnt zero_inode false false None.

(** ** Layouts *)

(** An unsigned little-endian field at a byte offset. *)
Definition field (off n : Z) (b : list Z) : Z := le_num (slice off n b).

Definition dec_extent (b : list Z) : extent := mkExt (field 0 8 b) (field 8 4 b).
Definition enc_extent (e : extent) : list Z :=
  le_bytes 8 (start_block e) ++ le_bytes 4 (block_count e).

Definition dec_inode (b : list Z) : dinode :=
  mkDi (field 0 2 b) (field 2 2 b) (field 4 2 b) (field 6 2 b) (field 8 8 b)
       (field 16 8 b) (field 24 8 b) (field 32 8 b) (field 40 8 b)
       (map (λ k, dec_extent (slice (48 + 12 * k) 12 b)) (seqZ 0 4))
       (field 96 8 b) (slice 104 24 b).

Definition enc_inode (d : dinode) : list Z :=
  le_bytes 2 (d_mode d) ++ le_bytes 2 (d_uid d) ++ le_bytes 2 (d_gid d) ++
  le_bytes 2 (d_links_count d) ++ le_bytes 8 (d_size_bytes d) ++
  le_bytes 8 (d_blocks_used d) ++ le_bytes 8 (d_atime d) ++ le_bytes 8 (d_mtime d) ++
  le_bytes 8 (d_ctime d) ++ concat (map enc_extent (d_direct d)) ++
  le_bytes 8 (d_indirect d) ++ d_reserved d.

Definition dec_super (b : list Z) : superblock :=
  mkSb (field 0 4 b) (field 4 4 b) (field 8 4 b) (field 12 4 b)
       (field 16 8 b) (field 24 8 b) (field 32 4 b) (field 36 4 b)
       (field 40 8 b) (field 48 4 b) (field 52 4 b)
       (field 56 8 b) (field 64 4 b) (field 68 4 b)
       (field 72 8 b) (field 80 4 b) (field 84 4 b)
       (field 88 8 b) (field 96 4 b) (field 100 4 b) (slice 104 3992 b).

Definition enc_super (s : superblock) : list Z :=
  le_bytes 4 (sb_magic s) ++ le_bytes 4 (version s) ++ le_bytes 4 (block_size s) ++
  le_bytes 4 (pad0 s) ++ le_bytes 8 (total_blocks s) ++ le_bytes 8 (free_blocks s) ++
  le_bytes 4 (total_inodes s) ++ le_bytes 4 (free_inodes s) ++
  le_bytes 8 (block_bitmap_start s) ++ le_bytes 4 (block_bitmap_blocks s) ++
  le_bytes 4 (pad1 s) ++ le_bytes 8 (inode_bitmap_start s) ++
  le_bytes 4 (inode_bitmap_blocks s) ++ le_bytes 4 (pad2 s) ++
  le_bytes 8 (inode_table_start s) ++ le_bytes 4 (inode_table_blocks s) ++
  le_bytes 4 (pad3 s) ++ le_bytes 8 (data_blocks_start s) ++
  le_bytes 4 (root_inode s) ++ le_bytes 4 (pad4 s) ++ sb_reserved s.

(** ** The file system's state *)
Record fs (S : Type) := mkFs {
  sb_cache : superblock;
  fs_mounted : bool;
  bm_mem : list Z; bm_blocks : Z; bm_dirty : bool;
  ibm_mem : list Z; ibm_blocks : Z; ibm_dirty : bool;
  it_block0 : Z; root_ino : Z; data_start : Z;
  ino_pool : list ino_entry; ino_hash : list (option nat);
  kheap : list bool;
  dev : S;
}.
Arguments mkFs {S} _ _ _ _ _ _ _ _ _ _ _ _ _ _ _.
Arguments sb_cache {S} _.
Arguments fs_mounted {S} _.
Arguments bm_mem {S} _.
Arguments bm_blocks {S} _.
Arguments bm_dirty {S} _.
Arguments ibm_mem {S} _.
Arguments ibm_blocks {S} _.
Arguments ibm_dirty {S} _.
Arguments it_block0 {S} _.
Arguments root_ino {S} _.
Arguments data_start {S} _.
Arguments ino_pool {S} _.
Arguments ino_hash {S} _.
Arguments kheap {S} _.
Arguments dev {S} _.

(** *** Assignments to fields *)
Definition with_free_blocks (v : Z) (b : superblock) : superblock :=
  mkSb (sb_magic b) (version b) (block_size b) (pad0 b) (total_blocks b) v
       (total_inodes b) (free_inodes b) (block_bitmap_start b) (block_bitmap_blocks b)
       (pad1 b) (inode_bitmap_start b) (inode_bitmap_blocks b) (pad2 b)
       (inode_table_start b) (inode_table_blocks b) (pad3 b) (data_blocks_start b)
       (root_inode b) (pad4 b) (sb_reserved b).
Definition with_free_inodes (v : Z) (b : superblock) : superblock :=
  mkSb (sb_magic b) (version b) (block_size b) (pad0 b) (total_blocks b) (free_blocks b)
       (total_inodes b) v (block_bitmap_start b) (block_bitmap_blocks b)
       (pad1 b) (inode_bitmap_start b) (inode_bitmap_blocks b) (pad2 b)
       (inode_table_start b) (inode_table_blocks b) (pad3 b) (data_blocks_start b)
       (root_inode b) (pad4 b) (sb_reserved b).
Definition with_magic (v : Z) (b : superblock) : superblock :=
  mkSb v (version b) (block_size b) (pad0 b) (total_blocks b) (free_blocks b)
       (total_inodes b) (free_inodes b) (block_bitmap_start b) (block_bitmap_blocks b)
       (pad1 b) (inode_bitmap_start b) (inode_bitmap_blocks b) (pad2 b)
       (inode_table_start b) (inode_table_blocks b) (pad3 b) (data_blocks_start b)
       (root_inode b) (pad4 b) (sb_reserved b).

Definition i_set_ref (v : Z) (i : inode_mem) : inode_mem :=
  mkIno (ino i) (mode i) (links_count i) (size_bytes i) (blocks_used i) (direct i)
        (indirect_extent_block i) (i_dirty i) v.
Definition i_set_dirty (v : bool) (i : inode_mem) : inode_mem :=
  mkIno (ino i) (mode i) (links_count i) (size_bytes i) (blocks_used i) (direct i)
        (indirect_extent_block i) v (i_refcount i).
Definition i_set_links (v : Z) (i : inode_mem) : inode_mem :=
  mkIno (ino i) (mode i) v (size_bytes i) (blocks_used i) (direct i)
        (indirect_extent_block i) (i_dirty i) (i_refcount i).
Definition i_set_size (v : Z) (i : inode_mem) : inode_mem :=
  mkIno (ino i) (mode i) (links_count i) v (blocks_used i) (direct i)
        (indirect_extent_block i) (i_dirty i) (i_refcount i).
Definition i_set_used (v : Z) (i : inode_mem) : inode_mem :=
  mkIno (ino i) (mode i) (links_count i) (size_bytes i) v (direct i)
        (indirect_extent_block i) (i_dirty i) (i_refcount i).
Definition i_set_direct (v : list extent) (i : inode_mem) : inode_mem :=
  mkIno (ino i) (mode i) (links_count i) (size_bytes i) (blocks_used i) v
        (indirect_extent_block i) (i_dirty i) (i_refcount i).
Definition i_set_indirect (v : Z) (i : inode_mem) : inode_mem :=
  mkIno (ino i) (mode i) (links_count i) (size_bytes i) (blocks_used i) (direct i)
        v (i_dirty i) (i_refcount i).

Section setters.
Context {S : Type}.
Implicit Types s : fs S.

Definition set_sb (v : superblock) s : fs S :=
  mkFs v (fs_mounted s) (bm_mem s) (bm_blocks s) (bm_dirty s) (ibm_mem s) (ibm_blocks s)
       (ibm_dirty s) (it_block0 s) (root_ino s) (data_start s) (ino_pool s) (ino_hash s)
       (kheap s) (dev s).
Definition set_mounted (v : bool) s : fs S :=
  mkFs (sb_cache s) v (bm_mem s) (bm_blocks s) (bm_dirty s) (ibm_mem s) (ibm_blocks s)
       (ibm_dirty s) (it_block0 s) (root_ino s) (data_start s) (ino_pool s) (ino_hash s)
       (kheap s) (dev s).
Definition set_bm (m : list Z) (d : bool) s : fs S :=
  mkFs (sb_cache s) (fs_mounted s) m (bm_blocks s) d (ibm_mem s) (ibm_blocks s)
       (ibm_dirty s) (it_block0 s) (root_ino s) (data_start s) (ino_pool s) (ino_hash s)
       (kheap s) (dev s).
Definition set_ibm (m : list Z) (d : bool) s : fs S :=
  mkFs (sb_cache s) (fs_mounted s) (bm_mem s) (bm_blocks s) (bm_dirty s) m (ibm_blocks s)
       d (it_block0 s) (root_ino s) (data_start s) (ino_pool s) (ino_hash s)
       (kheap s) (dev s).
Definition set_layout (bb ib it ro ds : Z) s : fs S :=
  mkFs (sb_cache s) (fs_mounted s) (bm_mem s) bb (bm_dirty s) (ibm_mem s) ib
       (ibm_dirty s) it ro ds (ino_pool s) (ino_hash s) (kheap s) (dev s).
Definition set_inodes (p : list ino_entry) (h : list (option nat)) s : fs S :=
  mkFs (sb_cache s) (fs_mounted s) (bm_mem s) (bm_blocks s) (bm_dirty s) (ibm_mem s)
       (ibm_blocks s) (ibm_dirty s) (it_block0 s) (root_ino s) (data_start s) p h
       (kheap s) (dev s).
Definition set_kheap (v : list bool) s : fs S :=
  mkFs (sb_cache s) (fs_mounted s) (bm_mem s) (bm_blocks s) (bm_dirty s) (ibm_mem s)
       (ibm_blocks s) (ibm_dirty s) (it_block0 s) (root_ino s) (data_start s) (ino_pool s)
       (ino_hash s) v (dev s).
Definition set_dev (v : S) s : fs S :=
  mkFs (sb_cache s) (fs_mounted s) (bm_mem s) (bm_blocks s) (bm_dirty s) (ibm_mem s)
       (ibm_blocks s) (ibm_dirty s) (it_block0 s) (root_ino s) (data_start s) (ino_pool s)
       (ino_hash s) (kheap s) v.

(** The outcome of a [kmalloc] of the file system. *)
Definition try_kmalloc s : bool * fs S :=
  match kheap s with
  | [] => (true, s)
  | ok :: h => (ok, set_kheap h s)
  end.
End setters.

(** ** Round trips of the layouts *)
Lemma lookup_repeat {A} (x : A) n k : (k < n)%nat → repeat x n !! k = Some x.
Proof. revert k. induction n; intros [|k] Hk; simpl; [lia|lia|done|]. apply IHn. lia. Qed.

Lemma slice_skip off n (a b : list Z) :
  zlength a ≤ off → slice off n (a ++ b) = slice (off - zlength a) n b.
Proof.
  unfold slice, zlength. intros Ho. f_equal. rewrite drop_app.
  rewrite drop_ge by lia. simpl. f_equal. lia.
Qed.

Lemma slice_head n (a b : list Z) : zlength a = n → slice 0 n (a ++ b) = a.
Proof.
  unfold slice, zlength. intros <-. rewrite Nat2Z.id. change (Z.to_nat 0) with 0%nat.
  by rewrite drop_0, take_app_length.
Qed.

Lemma slice_all n (a : list Z) : zlength a = n → slice 0 n a = a.
Proof. intros Hn. rewrite <- (app_nil_r a) at 1. by apply slice_head. Qed.

Lemma zlength_le_bytes n z : zlength (le_bytes n z) = Z.of_nat n.
Proof. unfold zlength. by rewrite le_bytes_length. Qed.

Lemma zlength_enc_extent e : zlength (enc_extent e) = 12.
Proof. unfold zlength, enc_extent. by rewrite length_app, !le_bytes_length. Qed.

Lemma field_skip off n a b :
  zlength a ≤ off → field off n (a ++ b) = field (off - zlength a) n b.
Proof. intros. unfold field. by rewrite slice_skip. Qed.

Lemma field_here (n : nat) x b :
  0 ≤ x < 2 ^ (8 * Z.of_nat n) → field 0 (Z.of_nat n) (le_bytes n x ++ b) = x.
Proof.
  intros Hx. unfold field. rewrite slice_head by apply zlength_le_bytes. by apply le_num_bytes.
Qed.

Lemma field_last (n : nat) x :
  0 ≤ x < 2 ^ (8 * Z.of_nat n) → field 0 (Z.of_nat n) (le_bytes n x) = x.
Proof. intros Hx. rewrite <- (app_nil_r (le_bytes n x)). by apply field_here. Qed.

(** Brings a field or slice of an encoded structure to its position. *)
Ltac layout1 :=
  match goal with
  | |- context [field ?o ?n (le_bytes ?k ?x ++ ?b)] =>
      first
        [ replace (field o n (le_bytes k x ++ b)) with x
            by (symmetry; apply (field_here k x b); simpl; lia)
        | rewrite (field_skip o n (le_bytes k x) b) by (rewrite zlength_le_bytes; lia);
          rewrite zlength_le_bytes ]
  | |- context [field ?o ?n (le_bytes ?k ?x)] =>
      replace (field o n (le_bytes k x)) with x
        by (symmetry; apply (field_last k x); simpl; lia)
  | |- context [slice ?o ?n (enc_extent ?e ++ ?b)] =>
      first
        [ replace (slice o n (enc_extent e ++ b)) with (enc_extent e)
            by (symmetry; apply slice_head, zlength_enc_extent)
        | rewrite (slice_skip o n (enc_extent e) b) by (rewrite zlength_enc_extent; lia);
          rewrite zlength_enc_extent ]
  | |- context [field ?o ?n (enc_extent ?e ++ ?b)] =>
      rewrite (field_skip o n (enc_extent e) b) by (rewrite zlength_enc_extent; lia);
      rewrite zlength_enc_extent
  | |- context [slice ?o ?n (le_bytes ?k ?x ++ ?b)] =>
      rewrite (slice_skip o n (le_bytes k x) b) by (rewrite zlength_le_bytes; lia);
      rewrite zlength_le_bytes
  end; cbn [Z.sub Z.of_nat Z.add Z.opp Z.pos_sub Pos.of_succ_nat Pos.succ Pos.sub].

Definition extent_ok (e : extent) : Prop := is_u64 (start_block e) ∧ is_u32 (block_count e).

Lemma dec_enc_extent e : extent_ok e → dec_extent (enc_extent e) = e.
Proof.
  destruct e as [st c]. intros [Hs Hc]. unfold dec_extent, enc_extent.
  cbn [start_block block_count] in *. unfold is_u64, is_u32 in *.
  f_equal; repeat layout1; done.
Qed.

Definition dinode_ok (d : dinode) : Prop :=
  0 ≤ d_mode d < 2 ^ 16 ∧ 0 ≤ d_uid d < 2 ^ 16 ∧ 0 ≤ d_gid d < 2 ^ 16 ∧
  0 ≤ d_links_count d < 2 ^ 16 ∧ is_u64 (d_size_bytes d) ∧ is_u64 (d_blocks_used d) ∧
  is_u64 (d_atime d) ∧ is_u64 (d_mtime d) ∧ is_u64 (d_ctime d) ∧
  length (d_direct d) = 4%nat ∧ Forall extent_ok (d_direct d) ∧
  is_u64 (d_indirect d) ∧ length (d_reserved d) = 24%nat.

Lemma enc_inode_length d :
  length (d_direct d) = 4%nat → length (d_reserved d) = 24%nat →
  zlength (enc_inode d) = KZFS_INODE_SIZE.
Proof.
  intros Hd Hr. destruct (d_direct d) as [|e0 [|e1 [|e2 [|e3 [|? ?]]]]] eqn:E; try done.
  unfold enc_inode. rewrite E. cbn [map concat].
  rewrite !zlength_app, !zlength_le_bytes, !zlength_enc_extent.
  unfold zlength. rewrite Hr. reflexivity.
Qed.

Lemma dec_enc_inode d : dinode_ok d → dec_inode (enc_inode d) = d.
Proof.
  destruct d as [mo u g ln sz bu at_ mt ct dr id re].
  intros (?&?&?&?&?&?&?&?&?&Hd&Hf&?&Hr). unfold is_u64 in *.
  cbn [d_mode d_uid d_gid d_links_count d_size_bytes d_blocks_used d_atime d_mtime d_ctime
       d_direct d_indirect d_reserved] in *.
  destruct dr as [|e0 [|e1 [|e2 [|e3 [|? ?]]]]]; try done.
  apply Forall_cons in Hf as [He0 [He1 [He2 [He3 _]%Forall_cons]%Forall_cons]%Forall_cons].
  unfold dec_inode, enc_inode.
  cbn [d_mode d_uid d_gid d_links_count d_size_bytes d_blocks_used d_atime d_mtime d_ctime
       d_direct d_indirect d_reserved concat map seqZ Z.to_nat Pos.to_nat Pos.iter_op].
  rewrite app_nil_r, <- !app_assoc. repeat layout1.
  f_equal; [|rewrite slice_all; [done|unfold zlength; by rewrite Hr]].
  change (seqZ 0 4) with [0; 1; 2; 3]. cbn [map Z.mul Z.add Pos.mul Pos.add].
  repeat layout1. by rewrite !dec_enc_extent.
Qed.

Definition super_ok (b : superblock) : Prop :=
  is_u32 (sb_magic b) ∧ is_u32 (version b) ∧ is_u32 (block_size b) ∧ is_u32 (pad0 b) ∧
  is_u64 (total_blocks b) ∧ is_u64 (free_blocks b) ∧ is_u32 (total_inodes b) ∧
  is_u32 (free_inodes b) ∧ is_u64 (block_bitmap_start b) ∧ is_u32 (block_bitmap_blocks b) ∧
  is_u32 (pad1 b) ∧ is_u64 (inode_bitmap_start b) ∧ is_u32 (inode_bitmap_blocks b) ∧
  is_u32 (pad2 b) ∧ is_u64 (inode_table_start b) ∧ is_u32 (inode_table_blocks b) ∧
  is_u32 (pad3 b) ∧ is_u64 (data_blocks_start b) ∧ is_u32 (root_inode b) ∧
  is_u32 (pad4 b) ∧ length (sb_reserved b) = 3992%nat.

Lemma enc_super_length b : super_ok b → length (enc_super b) = BLK.
Proof.
  intros Hb. assert (Hr : length (sb_reserved b) = 3992%nat) by apply Hb.
  unfold enc_super. rewrite !length_app, !le_bytes_length, Hr. reflexivity.
Qed.

Lemma dec_enc_super b : super_ok b → dec_super (enc_super b) = b.
Proof.
  destruct b. intros (?&?&?&?&?&?&?&?&?&?&?&?&?&?&?&?&?&?&?&?&Hr).
  cbn [sb_magic version block_size pad0 total_blocks free_blocks total_inodes free_inodes
       block_bitmap_start block_bitmap_blocks pad1 inode_bitmap_start inode_bitmap_blocks
       pad2 inode_table_start inode_table_blocks pad3 data_blocks_start root_inode pad4
       sb_reserved] in *.
  unfold is_u64, is_u32 in *. unfold dec_super, enc_super.
  cbn [sb_magic version block_size pad0 total_blocks free_blocks total_inodes free_inodes
       block_bitmap_start block_bitmap_blocks pad1 inode_bitmap_start inode_bitmap_blocks
       pad2 inode_table_start inode_table_blocks pad3 data_blocks_start root_inode pad4
       sb_reserved].
  f_equal; repeat layout1; try done. apply slice_all. unfold zlength. by rewrite Hr.
Qed.
