(* ===== verification/KfsInode.v ===== *)
(** The inode layer of KyuzenFS V4 ([kernel/fs/kfs_inode.c]): transfer of inodes
    between the inode table and memory, and the inode cache, a pool of entries with
    hash chains, whose entries carry reference counts.

    A pointer to an entry is its index in the pool. *)

From S2P Require Import Prelude BlockIO Kfs.

Section ops.
Context {S : Type} `{BlockIO S}.
Implicit Types s : fs S.

(** ** Transfer *)
Definition ino_disk_read (n : Z) s : (Z + dinode) * fs S :=
  let blk := u64 (it_block0 s + u32 (n - 1) / KZFS_INODES_PER_BLOCK) in
  let off := (u32 (n - 1) mod KZFS_INODES_PER_BLOCK) * KZFS_INODE_SIZE in
  match io_read blk (dev s) with
  | (None, d) => (inl KZFS_EIO, set_dev d s)
  | (Some b, d) => (inr (dec_inode (slice off KZFS_INODE_SIZE b)), set_dev d s)
  end.

Definition ino_disk_write (n : Z) (di : dinode) s : Z * fs S :=
  let blk := u64 (it_block0 s + u32 (n - 1) / KZFS_INODES_PER_BLOCK) in
  let off := (u32 (n - 1) mod KZFS_INODES_PER_BLOCK) * KZFS_INODE_SIZE in
  match io_modify blk (λ b, splice b off (enc_inode di)) (dev s) with
  | (false, d) => (KZFS_EIO, set_dev d s)
  | (true, d) => (KZFS_EOK, set_dev d s)
  end.

Definition ino_to_disk (i : inode_mem) : dinode :=
  mkDi (mode i) 0 0 (links_count i) (size_bytes i) (blocks_used i) 0 0 0
       (direct i) (indirect_extent_block i) (repeat 0 24).

Definition ino_from_disk (n : Z) (di : dinode) : inode_mem :=
  mkIno n (d_mode di) (d_links_count di) (d_size_bytes di) (d_blocks_used di)
        (d_direct di) (d_indirect di) false 0.

Definition ino_sync_nolock (i : inode_mem) s : Z * fs S :=
  ino_disk_write (ino i) (ino_to_disk i) s.

(** ** Entries *)
Definition entry s (k : nat) : ino_entry := default zero_entry (ino_pool s !! k).
Definition upd_entry (k : nat) (f : ino_entry → ino_entry) s : fs S :=
  set_inodes (alter f k (ino_pool s)) (ino_hash s) s.
Definition upd_ino (k : nat) (f : inode_mem → inode_mem) s : fs S :=
  upd_entry k (λ e, mkEnt (f (e_ino e)) (e_used e) (e_dead e) (e_next e)) s.

Definition set_used (v : bool) (e : ino_entry) : ino_entry :=
  mkEnt (e_ino e) v (e_dead e) (e_next e).
Definition set_dead (v : bool) (e : ino_entry) : ino_entry :=
  mkEnt (e_ino e) (e_used e) v (e_next e).
Definition set_enext (v : option nat) (e : ino_entry) : ino_entry :=
  mkEnt (e_ino e) (e_used e) (e_dead e) v.

(** ** The hash chains *)
Definition ino_hash_fn (n : Z) : nat := Z.to_nat (Z.land n (Z.of_nat INO_HASH_SIZE - 1)).

Definition ibucket s (h : nat) : option nat := default None (ino_hash s !! h).

(** The chains hold distinct pool entries, so this many steps walk any of them. *)
Definition chain_fuel : nat := INO_CACHE_MAX + 1.

Fixpoint find_ino (fuel : nat) s (p : option nat) (n : Z) : option nat :=
  match fuel, p with
  | Datatypes.S fuel, Some k =>
      let e := entry s k in
      if e_used e && negb (e_dead e) && (ino (e_ino e) =? n) then Some k
      else find_ino fuel s (e_next e) n
  | _, _ => None
  end.

Definition ino_cache_find (n : Z) s : option nat :=
  find_ino chain_fuel s (ibucket s (ino_hash_fn n)) n.

(** [pp], a pointer to a chain link: a bucket or the [next] field of an entry. *)
Inductive ilink := IBucket (h : nat) | INext (k : nat).

Definition read_ilink s (pp : ilink) : option nat :=
  match pp with IBucket h => ibucket s h | INext k => e_next (entry s k) end.

Definition write_ilink (pp : ilink) (v : option nat) s : fs S :=
  match pp with
  | IBucket h => set_inodes (ino_pool s) (<[h := v]> (ino_hash s)) s
  | INext k => upd_entry k (set_enext v) s
  end.

(** [while ( *pp && *pp != e ) pp = &( *pp )->next;] *)
Fixpoint seek_ilink (fuel : nat) (pp : ilink) (k : nat) s : ilink :=
  match fuel, read_ilink s pp with
  | Datatypes.S fuel, Some j => if Nat.eqb j k then pp else seek_ilink fuel (INext j) k s
  | _, _ => pp
  end.

Definition ino_cache_unlink (k : nat) s : fs S :=
  let pp := seek_ilink chain_fuel (IBucket (ino_hash_fn (ino (e_ino (entry s k))))) k s in
  let s := match read_ilink s pp with
           | Some _ => write_ilink pp (e_next (entry s k)) s
           | None => s
           end in
  upd_entry k (λ e, set_used false (set_enext None e)) s.

Definition find_entry (P : ino_entry → bool) s : option nat :=
  fst <$> list_find (λ e, P e = true) (ino_pool s).

Definition ino_cache_slot s : option nat * fs S :=
  let '(r, s) :=
    match find_entry (λ e, negb (e_used e)) s with
    | Some k => (Some k, s)
    | None =>
    match find_entry (λ e, e_used e && e_dead e && (i_refcount (e_ino e) =? 0)) s with
    | Some k => (Some k, ino_cache_unlink k s)
    | None =>
    match find_entry (λ e, e_used e && (i_refcount (e_ino e) =? 0)) s with
    | Some k =>
        let s := if i_dirty (e_ino (entry s k)) then
                   let s := (ino_sync_nolock (e_ino (entry s k)) s).2 in
                   upd_ino k (i_set_dirty false) s
                 else s in
        (Some k, ino_cache_unlink k s)
    | None => (None, s)
    end end end in
  match r with
  | Some k => (Some k, upd_entry k (set_dead false) s)
  | None => (None, s)
  end.

(** Puts a filled entry on its chain, the tail of [ino_get_nolock] and
    [ino_cache_insert_nolock]. *)
Definition ino_cache_insert_nolock (k : nat) s : fs S :=
  let s := upd_entry k (λ e, set_dead false (set_used true e)) s in
  let h := ino_hash_fn (ino (e_ino (entry s k))) in
  let s := upd_entry k (set_enext (ibucket s h)) s in
  set_inodes (ino_pool s) (<[h := Some k]> (ino_hash s)) s.

Definition ino_get_nolock (n : Z) s : (Z + nat) * fs S :=
  if (n =? 0) || (negb (total_inodes (sb_cache s) =? 0) && (total_inodes (sb_cache s) <? n))
  then (inl KZFS_EINVAL, s) else
  match ino_cache_find n s with
  | Some k => (inr k, upd_ino k (λ i, i_set_ref (i_refcount i + 1) i) s)
  | None =>
      match ino_cache_slot s with
      | (None, s) => (inl KZFS_ENOMEM, s)
      | (Some k, s) =>
          match ino_disk_read n s with
          | (inl _, s) => (inl KZFS_EIO, s)
          | (inr di, s) =>
              let s := upd_ino k (λ _, i_set_ref 1 (ino_from_disk n di)) s in
              (inr k, ino_cache_insert_nolock k s)
          end
      end
  end.

Definition ino_put_nolock (k : nat) s : fs S :=
  let s := if 0 <? i_refcount (e_ino (entry s k))
           then upd_ino k (λ i, i_set_ref (i_refcount i - 1) i) s else s in
  if negb (i_refcount (e_ino (entry s k)) =? 0) then s
  else if e_dead (entry s k) then ino_cache_unlink k s
  else if i_dirty (e_ino (entry s k)) then
    let s := (ino_sync_nolock (e_ino (entry s k)) s).2 in
    upd_ino k (i_set_dirty false) s
  else s.

Definition ino_is_dead (k : nat) s : bool := e_dead (entry s k).

Definition ino_cache_reset s : fs S :=
  set_inodes
    (map (λ e, mkEnt (i_set_ref 0 (e_ino e)) false false None) (ino_pool s))
    (repeat None INO_HASH_SIZE) s.
End ops.
