(* ===== verification/KfsBalloc.v ===== *)
(** The inode and block allocators of KyuzenFS V4 ([kernel/fs/kfs_balloc.c]): two
    bitmaps held in memory, with counts of free inodes and blocks in the superblock.
    The bit operations are those of [Bitmap]. *)

From S2P Require Import Prelude Bitmap BlockIO Kfs KfsInode.

Section ops.
Context {S : Type} `{BlockIO S}.
Implicit Types s : fs S.

Definition bm_alloc_bit (m : list Z) (total_bits from : Z) : Z * list Z :=
  match for_range from total_bits
          (λ b _, if negb (bm_test m b) then inl (b, bm_set m b) else inr tt) tt with
  | inl r => r
  | inr _ => (-1, m)
  end.

Definition ino_alloc_nolock s : Z * fs S :=
  let '(bit, m) := bm_alloc_bit (ibm_mem s) (total_inodes (sb_cache s)) 1 in
  if bit <? 0 then (-1, s)
  else
    let s := set_ibm m true s in
    (i32 bit,
     set_sb (with_free_inodes (u32 (free_inodes (sb_cache s) - 1)) (sb_cache s)) s).

Definition ino_free_nolock (n : Z) s : fs S :=
  if (n =? 0) || (total_inodes (sb_cache s) <? n) then s
  else if negb (bm_test (ibm_mem s) n) then s
  else
    let s := match ino_cache_find n s with
             | Some k =>
                 let s := upd_entry k (set_dead true) s in
                 let s := upd_ino k (i_set_dirty false) s in
                 if i_refcount (e_ino (entry s k)) =? 0 then ino_cache_unlink k s else s
             | None => s
             end in
    let s := set_ibm (bm_clear (ibm_mem s) n) true s in
    set_sb (with_free_inodes (u32 (free_inodes (sb_cache s) + 1)) (sb_cache s)) s.

(** The search loop of [blk_alloc_run_nolock]: the state is [run_start], [run_len],
    [best_start] and [best_len]. *)
Definition run_state : Type := Z * Z * Z * Z.

Definition run_step (m : list Z) (want b : Z) (st : run_state) : run_state + run_state :=
  let '(run_start, run_len, best_start, best_len) := st in
  if negb (bm_test m b) then
    let run_start := if run_len =? 0 then b else run_start in
    let run_len := run_len + 1 in
    let '(best_start, best_len) :=
      if best_len <? u32 run_len then (run_start, u32 run_len) else (best_start, best_len) in
    let st := (run_start, run_len, best_start, best_len) in
    if want <=? run_len then inl st else inr st
  else inr (run_start, 0, best_start, best_len).

Definition search_run (m : list Z) (want lo total : Z) : Z * Z :=
  match for_range lo total (run_step m want) (0, 0, 0, 0) with
  | inl (_, _, best_start, best_len) => (best_start, best_len)
  | inr (_, _, best_start, best_len) => (best_start, best_len)
  end.

(** Returns the first block (0 when there is none) and the number of blocks. *)
Definition blk_alloc_run_nolock (want : Z) s : Z * Z * fs S :=
  if want =? 0 then (0, 0, s) else
  let '(best_start, best_len) :=
    search_run (bm_mem s) want (data_start s) (total_blocks (sb_cache s)) in
  if best_len =? 0 then (0, 0, s) else
  let n := if want <=? best_len then want else best_len in
  let m := for_each best_start (best_start + n) (λ b m, bm_set m b) (bm_mem s) in
  let s := set_bm m true s in
  (best_start, n,
   set_sb (with_free_blocks (u64 (free_blocks (sb_cache s) - n)) (sb_cache s)) s).

Definition free_step (b : Z) (mf : list Z * Z) : list Z * Z :=
  let '(m, f) := mf in if bm_test m b then (bm_clear m b, u64 (f + 1)) else (m, f).

Definition blk_free_run_nolock (start count : Z) s : fs S :=
  let '(m, f) := for_each start (Z.min (u64 (start + count)) (total_blocks (sb_cache s)))
                   free_step (bm_mem s, free_blocks (sb_cache s)) in
  set_sb (with_free_blocks f (sb_cache s)) (set_bm m true s).
End ops.

(** ** The search *)

(** All blocks of [lo, hi) are free. *)
Definition all_free (m : list Z) (lo hi : Z) : Prop :=
  ∀ i, lo ≤ i < hi → bit_at m i = false.

(** The search has seen [lo, b): the run that ends at [b], and the longest run. *)
Definition run_inv (m : list Z) (want lo b : Z) (st : run_state) : Prop :=
  let '(rs, rl, bs, bl) := st in
  0 ≤ rl ≤ b - lo ∧ rl ≤ bl < want ∧ (rl ≠ 0 → rs = b - rl) ∧ all_free m (b - rl) b ∧
  (rl < b - lo → bit_at m (b - rl - 1) = true) ∧
  (bl ≠ 0 → lo ≤ bs ∧ bs + bl ≤ b ∧ all_free m bs (bs + bl)) ∧
  (∀ a n, lo ≤ a → a + n ≤ b → all_free m a (a + n) → n ≤ bl).

Definition run_found (m : list Z) (want lo total : Z) (r : Z * Z) : Prop :=
  let '(bs, bl) := r in
  0 ≤ bl ≤ want ∧ (bl ≠ 0 → lo ≤ bs ∧ bs + bl ≤ total ∧ all_free m bs (bs + bl)) ∧
  (bl < want → ∀ a n, lo ≤ a → a + n ≤ total → all_free m a (a + n) → n ≤ bl).

Lemma run_step_ok m want lo total b st :
  0 ≤ lo ≤ b → b < total → total < 2 ^ 32 → run_inv m want lo b st →
  match run_step m want b st with
  | inl (_, _, bs, bl) => run_found m want lo total (bs, bl)
  | inr st' => run_inv m want lo (b + 1) st'
  end.
Proof.
  destruct st as [[[rs rl] bs] bl]. intros Hlo Hb Ht (Hrl & Hbl & Hrs & Hfr & Hend & Hbest & Hmax).
  unfold run_step. rewrite bm_test_bit. destruct (bit_at m b) eqn:Eb; cbn [negb].
  - split_and!; try lia.
    + intros i Hi. lia.
    + intros _. by replace (b + 1 - 0 - 1) with b by lia.
    + intros Hn. destruct (Hbest Hn) as (? & ? & ?). split_and!; [lia|lia|done].
    + intros a n Ha Hn Hf. destruct (Z.le_gt_cases (a + n) b) as [?|?]; [by apply Hmax with a|].
      destruct (Z.le_gt_cases n 0); [lia|]. specialize (Hf b). rewrite Eb in Hf.
      by discriminate Hf; lia.
  - assert (Hrs' : (if rl =? 0 then b else rs) = b - rl) by (zcase; lia).
    rewrite Hrs', (u32_id (rl + 1)) by lia.
    assert (Hfr' : all_free m (b - rl) (b + 1)).
    { intros i Hi. destruct (Z.eq_dec i b) as [->|]; [done|]. apply Hfr. lia. }
    assert (Hlong : ∀ a n, lo ≤ a → a + n ≤ b + 1 → all_free m a (a + n) →
              n ≤ rl + 1 ∨ n ≤ bl).
    { intros a n Ha Hn Hf. destruct (Z.le_gt_cases (a + n) b) as [?|?];
        [right; by apply Hmax with a|left].
      destruct (Z.le_gt_cases n (rl + 1)); [done|].
      rewrite (Hf (b - rl - 1)) in Hend by lia. by discriminate Hend; lia. }
    replace (b - rl) with (b + 1 - (rl + 1)) in * by lia.
    destruct (Z.ltb_spec bl (rl + 1)), (Z.leb_spec want (rl + 1)).
    + split_and!; [lia|lia| |lia]. intros _. split_and!; [lia|lia|].
      by replace (b + 1 - (rl + 1) + (rl + 1)) with (b + 1) by lia.
    + split_and!; try lia; [done| |  |].
      * intros ?. apply Hend. lia.
      * intros _. split_and!; [lia|lia|].
        by replace (b + 1 - (rl + 1) + (rl + 1)) with (b + 1) by lia.
      * intros a n Ha Hn Hf. destruct (Hlong a n Ha Hn Hf); lia.
    + lia.
    + split_and!; try lia; [done| | |].
      * intros ?. apply Hend. lia.
      * intros Hn. destruct (Hbest Hn) as (? & ? & ?). split_and!; [lia|lia|done].
      * intros a n Ha Hn Hf. destruct (Hlong a n Ha Hn Hf); lia.
Qed.

Lemma search_run_ok m want lo total :
  0 ≤ lo → total < 2 ^ 32 → 0 < want → run_found m want lo total (search_run m want lo total).
Proof.
  intros Hlo Ht Hw. unfold search_run.
  opose proof* (for_range_rule (R := run_state) (λ b st, lo ≤ b ∧ run_inv m want lo b st)
    (λ st, let '(_, _, bs, bl) := st in run_found m want lo total (bs, bl))
    lo total (run_step m want) (0, 0, 0, 0)) as Hr.
  { split; [lia|]. split_and!; try lia. intros i Hi. lia. }
  { intros b st Hb [_ Hi]. pose proof (run_step_ok m want lo total b st) as Hs.
    destruct (run_step m want b st) as [[[[? ?] ?] ?]|]; [|split; [lia|]];
      (apply Hs; [lia|lia|lia|done]). }
  destruct (for_range lo total (run_step m want) (0, 0, 0, 0))
    as [[[[? ?] bs] bl]|[[[rs rl] bs] bl]]; [done|].
  destruct Hr as [_ (Hrl & Hbl & _ & _ & _ & Hbest & Hmax)].
  split_and!; [lia|lia| |].
  - intros Hn. destruct (Hbest Hn) as (? & ? & Hf). split_and!; [lia|lia|done].
  - intros _ a n Ha Hn Hf. apply Hmax with a; [done|lia|done].
Qed.

(** ** Ranges of bits *)
Lemma set_range_ok m lo hi :
  0 ≤ lo → hi ≤ 8 * zlength m →
  let m' := for_each lo hi (λ b m, bm_set m b) m in
  zlength m' = zlength m ∧ (bytes m → bytes m') ∧
  ∀ i, 0 ≤ i → bit_at m' i = bool_decide (lo ≤ i < hi) || bit_at m i.
Proof.
  intros Hlo Hhi. destruct (Z.le_gt_cases hi lo) as [Hle|Hlt].
  { rewrite for_each_nil by done. split_and!; [done|done|]. intros i Hi.
    rewrite bool_decide_eq_false_2 by lia. done. }
  opose proof* (for_each_rule (λ j m', zlength m' = zlength m ∧ (bytes m → bytes m') ∧
    ∀ i, 0 ≤ i → bit_at m' i = bool_decide (lo ≤ i < j) || bit_at m i)
    lo hi (λ b m, bm_set m b) m) as Hr.
  - split_and!; [done|done|]. intros i Hi. by rewrite bool_decide_eq_false_2 by lia.
  - intros j m1 Hj (Hl & Hby & Hb). split_and!; [by rewrite bm_set_length|auto using bm_set_bytes|].
    intros i Hi. rewrite bit_at_set, Hb by lia. destruct (Z.eqb_spec j i) as [->|Hne].
    + by rewrite bool_decide_eq_true_2 by lia.
    + f_equal. apply bool_decide_ext. lia.
  - by rewrite Z.max_r in Hr by lia.
Qed.

Lemma free_range_ok m f lo hi :
  0 ≤ lo → hi ≤ 8 * zlength m →
  let '(m', f') := for_each lo hi free_step (m, f) in
  zlength m' = zlength m ∧ (bytes m → bytes m') ∧
  (∀ i, 0 ≤ i → bit_at m' i = negb (bool_decide (lo ≤ i < hi)) && bit_at m i) ∧
  (0 ≤ f → f + zcount (bit_at m) lo hi < 2 ^ 64 → f' = f + zcount (bit_at m) lo hi).
Proof.
  intros Hlo Hhi. destruct (Z.le_gt_cases hi lo) as [Hle|Hlt].
  { rewrite for_each_nil by done. split_and!; [done|done| |].
    - intros i Hi. by rewrite bool_decide_eq_false_2 by lia.
    - rewrite zcount_none by lia. lia. }
  opose proof* (for_each_rule (λ j mf, zlength mf.1 = zlength m ∧ (bytes m → bytes mf.1) ∧
    (∀ i, 0 ≤ i → bit_at mf.1 i = negb (bool_decide (lo ≤ i < j)) && bit_at m i) ∧
    (0 ≤ f → f + zcount (bit_at m) lo hi < 2 ^ 64 → lo ≤ j ∧ mf.2 = f + zcount (bit_at m) lo j))
    lo hi free_step (m, f)) as Hr.
  - split_and!; [done|done| |].
    + intros i Hi. by rewrite bool_decide_eq_false_2 by lia.
    + intros _ _. simpl. rewrite (zcount_none _ lo lo) by lia. lia.
  - intros j [m1 f1] Hj (Hl & Hby & Hb & Hf). simpl in *.
    pose proof (Hb j ltac:(lia)) as Hbj. rewrite bool_decide_eq_false_2 in Hbj by lia.
    simpl in Hbj. unfold free_step. rewrite bm_test_bit, Hbj.
    pose proof (zcount_app (bit_at m) lo j (j + 1) ltac:(lia)) as Hc1.
    pose proof (zcount_app (bit_at m) lo (j + 1) hi ltac:(lia)) as Hc2.
    pose proof (zcount_bounds (bit_at m) (j + 1) hi ltac:(lia)).
    pose proof (zcount_bounds (bit_at m) lo j ltac:(lia)).
    rewrite zcount_one in Hc1. destruct (bit_at m j) eqn:Ej; simpl.
    + split_and!; [by rewrite bm_clear_length|auto using bm_clear_bytes| |].
      * intros i Hi. rewrite bit_at_clear, Hb by lia. destruct (Z.eqb_spec j i) as [->|Hne].
        -- by rewrite bool_decide_eq_true_2 by lia.
        -- f_equal. f_equal. apply bool_decide_ext. lia.
      * intros Hf0 Hlim. destruct (Hf Hf0 Hlim) as [_ ->]. rewrite u64_id by lia. lia.
    + split_and!; [done|done| |].
      * intros i Hi. rewrite Hb by lia. destruct (Z.eq_dec i j) as [->|Hne].
        -- rewrite Ej. by rewrite !andb_false_r.
        -- f_equal. f_equal. apply bool_decide_ext. lia.
      * intros Hf0 Hlim. destruct (Hf Hf0 Hlim) as [_ ->]. lia.
  - rewrite Z.max_r in Hr by lia. destruct (for_each lo hi free_step (m, f)) as [m' f'].
    destruct Hr as (? & ? & ? & Hf). split_and!; [done..|]. intros ? ?. by apply Hf.
Qed.

Lemma bm_alloc_bit_ok m total from :
  0 ≤ from → total ≤ 8 * zlength m →
  let '(b, m') := bm_alloc_bit m total from in
  if b <? 0 then b = -1 ∧ m' = m ∧ ∀ i, from ≤ i < total → bit_at m i = true
  else from ≤ b < total ∧ bit_at m b = false ∧ m' = bm_set m b ∧
       ∀ i, from ≤ i < b → bit_at m i = true.
Proof.
  intros Hf Ht. unfold bm_alloc_bit.
  opose proof* (for_range_rule (S := ()) (R := Z * list Z)
    (λ j _, from ≤ j ∧ ∀ i, from ≤ i < j → bit_at m i = true)
    (λ r, from ≤ r.1 < total ∧ bit_at m r.1 = false ∧ r.2 = bm_set m r.1 ∧
          ∀ i, from ≤ i < r.1 → bit_at m i = true)
    from total (λ b _, if negb (bm_test m b) then inl (b, bm_set m b) else inr tt) tt) as Hr.
  - split; [lia|]. intros i Hi. lia.
  - intros j _ Hj [_ Hi]. rewrite bm_test_bit. destruct (bit_at m j) eqn:E; simpl.
    + split; [lia|]. intros i Hij. destruct (Z.eq_dec i j) as [->|]; [done|]. apply Hi. lia.
    + by split_and!; [lia|lia| | |].
  - destruct (for_range _ _ _ _) as [[b m']|]; simpl in Hr.
    + destruct (Z.ltb_spec b 0); [lia|done].
    + split_and!; [done|done|]. intros i Hi. apply Hr. lia.
Qed.

(** ** The allocators on the state *)
Section spec.
Context {S : Type} `{BlockIO S}.
Implicit Types s : fs S.

Definition used s (i : Z) : bool := bit_at (bm_mem s) i.

(** The part of the state that the block allocator and block transfers change. *)
Definition upd_alloc (m : list Z) (b : bool) (f : Z) (d : S) s : fs S :=
  set_dev d (set_sb (with_free_blocks f (sb_cache s)) (set_bm m b s)).

Definition same_env s s' : Prop := ∃ m b f d, s' = upd_alloc m b f d s.

#[global] Instance same_env_pre : PreOrder same_env.
Proof.
  split.
  - intros s. exists (bm_mem s), (bm_dirty s), (free_blocks (sb_cache s)), (dev s).
    by destruct s as [[] ? ? ? ? ? ? ? ? ? ? ? ? ? ?].
  - intros s1 s2 s3 (m & b & f & d & ->) (m' & b' & f' & d' & ->). by exists m', b', f', d'.
Qed.

Lemma same_env_proj s s' :
  same_env s s' →
  total_blocks (sb_cache s') = total_blocks (sb_cache s) ∧ data_start s' = data_start s ∧
  ino_pool s' = ino_pool s ∧ ino_hash s' = ino_hash s ∧ it_block0 s' = it_block0 s.
Proof. by intros (m & b & f & d & ->). Qed.

Lemma same_env_dev d s : same_env s (set_dev d s).
Proof.
  exists (bm_mem s), (bm_dirty s), (free_blocks (sb_cache s)), d.
  by destruct s as [[] ? ? ? ? ? ? ? ? ? ? ? ? ? ?].
Qed.

Record balloc_ok s : Prop := {
  ba_bytes : bytes (bm_mem s);
  ba_size : total_blocks (sb_cache s) ≤ 8 * zlength (bm_mem s);
  ba_range : 0 < data_start s ≤ total_blocks (sb_cache s);
  ba_limit : total_blocks (sb_cache s) < 2 ^ 32 ∧ total_blocks (sb_cache s) ≤ io_limit;
  ba_meta i : 0 ≤ i < data_start s → used s i = true;
  ba_count : free_blocks (sb_cache s) =
             zcount (λ i, negb (used s i)) (data_start s) (total_blocks (sb_cache s));
}.

Lemma balloc_ok_dev s d : balloc_ok s → balloc_ok (set_dev d s).
Proof. intros []. by split. Qed.

(** What an allocation gives: a run of free blocks, now used, and nothing else. *)
Definition run_taken s (start n : Z) s' : Prop :=
  data_start s ≤ start ∧ start + n ≤ total_blocks (sb_cache s) ∧
  all_free (bm_mem s) start (start + n) ∧
  ∀ i, 0 ≤ i → used s' i = bool_decide (start ≤ i < start + n) || used s i.

Lemma zcount_free_split m m' lo hi a n :
  lo ≤ a → 0 ≤ n → a + n ≤ hi → all_free m a (a + n) →
  (∀ i, 0 ≤ i → bit_at m' i = bool_decide (a ≤ i < a + n) || bit_at m i) → 0 ≤ lo →
  zcount (λ i, negb (bit_at m' i)) lo hi = zcount (λ i, negb (bit_at m i)) lo hi - n.
Proof.
  intros Ha Hn Hhi Hf Hb Hlo.
  rewrite (zcount_app _ lo a hi), (zcount_app _ a (a + n) hi) by lia.
  rewrite (zcount_app (λ i, negb (bit_at m i)) lo a hi) by lia.
  rewrite (zcount_app (λ i, negb (bit_at m i)) a (a + n) hi) by lia.
  rewrite (zcount_none (λ i, negb (bit_at m' i)) a (a + n)).
  2:{ intros i Hi. rewrite Hb, bool_decide_eq_true_2 by lia. done. }
  rewrite (zcount_all (λ i, negb (bit_at m i)) a (a + n)); [|lia|].
  2:{ intros i Hi. by rewrite Hf by lia. }
  rewrite (zcount_ext (λ i, negb (bit_at m' i)) (λ i, negb (bit_at m i)) lo a).
  2:{ intros i Hi. by rewrite Hb, bool_decide_eq_false_2 by lia. }
  rewrite (zcount_ext (λ i, negb (bit_at m' i)) (λ i, negb (bit_at m i)) (a + n) hi); [lia|].
  intros i Hi. by rewrite Hb, bool_decide_eq_false_2 by lia.
Qed.

Lemma blk_alloc_ok want s :
  balloc_ok s → 0 ≤ want →
  let '(start, n, s') := blk_alloc_run_nolock want s in
  balloc_ok s' ∧ same_env s s' ∧ dev s' = dev s ∧ 0 ≤ n ≤ want ∧
  (n < want → ∀ a k, data_start s ≤ a → a + k ≤ total_blocks (sb_cache s) →
     all_free (bm_mem s) a (a + k) → k ≤ n) ∧
  if decide (n = 0) then start = 0 ∧ s' = s else run_taken s start n s'.
Proof.
  intros Hok Hw. unfold blk_alloc_run_nolock. destruct (Z.eqb_spec want 0) as [->|Hw0].
  { split_and!; [done|reflexivity|done|lia|lia|lia|by rewrite decide_True]. }
  destruct Hok as [Hby Hsz Hrg [Hlim Hio] Hmeta Hcnt].
  pose proof (search_run_ok (bm_mem s) want (data_start s) (total_blocks (sb_cache s))
    ltac:(lia) ltac:(lia) ltac:(lia)) as Hf.
  destruct (search_run _ _ _ _) as [bs bl]. destruct Hf as (Hbl & Hbs & Hmax).
  destruct (Z.eqb_spec bl 0) as [->|Hbl0].
  { split_and!; [done|reflexivity|done|lia|lia|intros _; apply Hmax; lia|by rewrite decide_True]. }
  destruct (Hbs Hbl0) as (Hlo & Hhi & Hfree).
  assert (Hn : (if want <=? bl then want else bl) = bl) by (zcase; lia). rewrite Hn.
  destruct (set_range_ok (bm_mem s) bs (bs + bl) ltac:(lia) ltac:(lia)) as (Hl & Hb & Hbits).
  set (m := for_each _ _ _ _) in *. clearbody m.
  assert (Hz := zcount_free_split (bm_mem s) m (data_start s) (total_blocks (sb_cache s))
                  bs bl Hlo ltac:(lia) Hhi Hfree Hbits ltac:(lia)).
  pose proof (zcount_bounds (λ i, negb (bit_at m i)) (data_start s)
                (total_blocks (sb_cache s)) ltac:(lia)).
  split_and!; [|by eexists _, _, _, _|done|lia|lia|intros Hbw; by apply Hmax|].
  - split; simpl; [auto|by rewrite Hl|done|done| |].
    + intros i Hi. unfold used. simpl. rewrite Hbits by lia.
      unfold used in Hmeta. rewrite Hmeta by done. apply orb_true_r.
    + unfold used in Hcnt |- *. simpl. rewrite Hcnt, Hz, u64_id by lia. done.
  - rewrite decide_False by done. split_and!; [lia|lia|done|]. exact Hbits.
Qed.

Lemma zcount_negb P a k :
  0 ≤ k → zcount P a (a + k) + zcount (λ i, negb (P i)) a (a + k) = k.
Proof.
  intros Hk. pattern k. apply natlike_ind; [|intros x Hx IH|done].
  - by rewrite !zcount_none by lia.
  - rewrite (zcount_app P a (a + x)), (zcount_app (λ i, negb (P i)) a (a + x)) by lia.
    replace (a + Z.succ x) with (a + x + 1) by lia. rewrite !zcount_one.
    destruct (P (a + x)); simpl; lia.
Qed.

(** Freeing: the blocks of the range become free, every other bit is as before. *)
Lemma blk_free_ok start count s :
  balloc_ok s → data_start s ≤ start → 0 ≤ count →
  start + count ≤ total_blocks (sb_cache s) →
  let s' := blk_free_run_nolock start count s in
  balloc_ok s' ∧ same_env s s' ∧ dev s' = dev s ∧
  ∀ i, 0 ≤ i → used s' i = negb (bool_decide (start ≤ i < start + count)) && used s i.
Proof.
  intros [Hby Hsz Hrg [Hlim Hio] Hmeta Hcnt] Hs Hc Ht. unfold blk_free_run_nolock.
  rewrite u64_id, Z.min_l by lia.
  pose proof (free_range_ok (bm_mem s) (free_blocks (sb_cache s)) start (start + count)
    ltac:(lia) ltac:(lia)) as Hf.
  destruct (for_each _ _ _ _) as [m f]. destruct Hf as (Hl & Hb & Hbits & Hfr).
  set (lo := data_start s) in *. set (hi := total_blocks (sb_cache s)) in *.
  assert (Hz : zcount (λ i, negb (bit_at m i)) lo hi =
    zcount (λ i, negb (used s i)) lo hi + zcount (bit_at (bm_mem s)) start (start + count)).
  { rewrite (zcount_app _ lo start hi), (zcount_app _ start (start + count) hi) by lia.
    rewrite (zcount_app (λ i, negb (used s i)) lo start hi) by lia.
    rewrite (zcount_app (λ i, negb (used s i)) start (start + count) hi) by lia.
    pose proof (zcount_negb (bit_at (bm_mem s)) start count Hc). unfold used in *.
    rewrite (zcount_all (λ i, negb (bit_at m i)) start (start + count)); [|lia|].
    2:{ intros i Hi. by rewrite Hbits, bool_decide_eq_true_2 by lia. }
    rewrite (zcount_ext (λ i, negb (bit_at m i)) (λ i, negb (bit_at (bm_mem s) i)) lo start).
    2:{ intros i Hi. by rewrite Hbits, bool_decide_eq_false_2 by lia. }
    rewrite (zcount_ext (λ i, negb (bit_at m i)) (λ i, negb (bit_at (bm_mem s) i)) (start + count) hi);
      [lia|].
    intros i Hi. by rewrite Hbits, bool_decide_eq_false_2 by lia. }
  pose proof (zcount_bounds (λ i, negb (bit_at m i)) lo hi ltac:(lia)).
  pose proof (zcount_bounds (λ i, negb (used s i)) lo hi ltac:(lia)).
  split_and!; [|by eexists _, _, _, _|done|exact Hbits].
  split; simpl; [auto|by rewrite Hl|done|done| |].
  - intros i Hi. unfold used. simpl. fold lo in Hi. rewrite Hbits by lia.
    rewrite bool_decide_eq_false_2 by lia. apply (Hmeta i Hi).
  - rewrite Hfr, Hcnt by (unfold used in *; lia). unfold used at 2. simpl. symmetry. apply Hz.
Qed.

(** The inode bitmap: bit [n] is set when inode [n] is in use; inode 0 does not exist. *)
Record ialloc_ok s : Prop := {
  ia_size : total_inodes (sb_cache s) ≤ 8 * zlength (ibm_mem s);
  ia_range : 0 < total_inodes (sb_cache s) < 2 ^ 31;
  ia_count : free_inodes (sb_cache s) =
             zcount (λ i, negb (bit_at (ibm_mem s) i)) 1 (total_inodes (sb_cache s));
}.

Lemma ino_alloc_ok s :
  ialloc_ok s →
  let '(n, s') := ino_alloc_nolock s in
  ialloc_ok s' ∧
  if decide (n = -1)
  then s' = s ∧ ∀ i, 1 ≤ i < total_inodes (sb_cache s) → bit_at (ibm_mem s) i = true
  else 1 ≤ n < total_inodes (sb_cache s) ∧ bit_at (ibm_mem s) n = false ∧
       s' = set_sb (with_free_inodes (free_inodes (sb_cache s) - 1) (sb_cache s))
              (set_ibm (bm_set (ibm_mem s) n) true s).
Proof.
  intros Hok. pose proof Hok as [Hsz Hrg Hc]. unfold ino_alloc_nolock.
  pose proof (bm_alloc_bit_ok (ibm_mem s) (total_inodes (sb_cache s)) 1 ltac:(lia) Hsz) as Hb.
  destruct (bm_alloc_bit _ _ _) as [b m]. destruct (Z.ltb_spec b 0).
  { rewrite decide_True by done. by destruct Hb as (_ & _ & ?). }
  destruct Hb as (Hb & Hfree & -> & _). rewrite i32_id by lia.
  assert (Hz : zcount (λ i, negb (bit_at (ibm_mem s) i)) 1 (total_inodes (sb_cache s)) =
    zcount (λ i, negb (bit_at (bm_set (ibm_mem s) b) i)) 1 (total_inodes (sb_cache s)) + 1).
  { apply zcount_change with b; [lia| | |by rewrite Hfree].
    - intros i Hi Hne. rewrite bit_at_set by lia. by destruct (Z.eqb_spec b i).
    - rewrite bit_at_set by lia. by rewrite Z.eqb_refl. }
  pose proof (zcount_bounds (λ i, negb (bit_at (bm_set (ibm_mem s) b) i)) 1
    (total_inodes (sb_cache s)) ltac:(lia)).
  rewrite decide_False by lia. simpl. rewrite u32_id by lia.
  split_and!; [|lia|lia|done|done]. split; simpl; [by rewrite bm_set_length|done|lia].
Qed.

(** ** Theorems *)

(** [blk_alloc_run_nolock] hands out a run of data blocks that were all free and
    marks exactly these, keeping the count of free blocks right; it returns fewer
    blocks than asked only if no free run is longer, and none only if no data block
    is free. *)
Theorem blk_alloc_run_spec want s :
  balloc_ok s → 0 ≤ want →
  let '(start, n, s') := blk_alloc_run_nolock want s in
  balloc_ok s' ∧ same_env s s' ∧ dev s' = dev s ∧ 0 ≤ n ≤ want ∧
  (n < want → ∀ a k, data_start s ≤ a → a + k ≤ total_blocks (sb_cache s) →
     all_free (bm_mem s) a (a + k) → k ≤ n) ∧
  if decide (n = 0) then start = 0 ∧ s' = s else run_taken s start n s'.
Proof. apply blk_alloc_ok. Qed.

(** [ino_alloc_nolock] takes the number of an unused inode and marks it, keeping
    the count of free inodes right, or fails, changing nothing, when every inode is
    in use. *)
Theorem ino_alloc_spec s :
  ialloc_ok s →
  let '(n, s') := ino_alloc_nolock s in
  ialloc_ok s' ∧
  if decide (n = -1)
  then s' = s ∧ ∀ i, 1 ≤ i < total_inodes (sb_cache s) → bit_at (ibm_mem s) i = true
  else 1 ≤ n < total_inodes (sb_cache s) ∧ bit_at (ibm_mem s) n = false ∧
       s' = set_sb (with_free_inodes (free_inodes (sb_cache s) - 1) (sb_cache s))
              (set_ibm (bm_set (ibm_mem s) n) true s).
Proof. apply ino_alloc_ok. Qed.
End spec.

(** ** A small file system: 64 blocks, 8 of metadata, 32 inodes *)
Definition small_sb : superblock :=
  mkSb KZFS_MAGIC KZFS_VERSION 4096 0 64 56 32 30 1 1 0 2 1 0 3 1 0 8 1 0 (repeat 0 3992).

(** A bitmap of one block whose first byte is [b]. *)
Definition padded (b : Z) : list Z := b :: repeat 0 4095.
Arguments padded : simpl never.

Definition small_fs : fs (gmap Z (list Z)) :=
  mkFs small_sb true (padded 255) 1 false (padded 2) 1 false 3 1 8
       (repeat zero_entry INO_CACHE_MAX) (repeat None INO_HASH_SIZE) [] ∅.

Lemma padded_bytes b : 0 ≤ b < 256 → bytes (padded b).
Proof.
  intros Hb. constructor; [done|]. apply Forall_forall. intros x Hx.
  apply list_elem_of_In, repeat_spec in Hx. lia.
Qed.

Lemma padded_bit b i :
  0 ≤ i → bit_at (padded b) i = if i <? 8 then Z.testbit b i else false.
Proof.
  intros Hi. unfold bit_at, lget, padded. destruct (Z.ltb_spec i 8).
  - rewrite Z.div_small, Z.mod_small by lia. done.
  - assert (Hd : 1 ≤ i / 8) by (apply Z.div_le_lower_bound; lia).
    destruct (Z.to_nat (i / 8)) as [|k] eqn:E; [lia|].
    change ((b :: repeat 0 4095) !! Datatypes.S k) with (repeat 0 4095 !! k).
    destruct (repeat 0 4095 !! k) as [y|] eqn:Ey; [|apply Z.bits_0].
    apply list_elem_of_lookup_2, list_elem_of_In, repeat_spec in Ey as ->. apply Z.bits_0.
Qed.

Lemma padded_zlength b : zlength (padded b) = 4096.
Proof. reflexivity. Qed.

Lemma small_fs_balloc : balloc_ok small_fs.
Proof.
  split; simpl.
  - by apply padded_bytes.
  - rewrite padded_zlength. lia.
  - lia.
  - split; [lia|]. unfold io_limit. simpl. lia.
  - intros i Hi. unfold used. simpl. rewrite padded_bit by lia. zcase.
    assert (i = 0 ∨ i = 1 ∨ i = 2 ∨ i = 3 ∨ i = 4 ∨ i = 5 ∨ i = 6 ∨ i = 7) by lia.
    by naive_solver.
  - unfold used. simpl. rewrite zcount_all; [lia|lia|].
    intros i Hi. rewrite padded_bit by lia. by zcase.
Qed.

Lemma small_fs_ialloc : ialloc_ok small_fs.
Proof.
  split; simpl; [rewrite padded_zlength; lia|lia|].
  rewrite (zcount_app _ 1 2 32) by lia. rewrite (zcount_one _ 1), padded_bit by lia. simpl.
  rewrite zcount_all; [lia|lia|]. intros i Hi. rewrite padded_bit by lia. zcase.
  assert (i = 2 ∨ i = 3 ∨ i = 4 ∨ i = 5 ∨ i = 6 ∨ i = 7) by lia. by naive_solver.
Qed.

Lemma blk_alloc_run_spec_witness :
  let '(start, n, s') := blk_alloc_run_nolock 3 small_fs in balloc_ok s' ∧ start = 8 ∧ n = 3.
Proof.
  pose proof (blk_alloc_run_spec 3 small_fs small_fs_balloc ltac:(lia)) as Hs.
  destruct (blk_alloc_run_nolock 3 small_fs) as [[start n] s'] eqn:E.
  destruct Hs as [Hok _]. split; [exact Hok|].
  assert (He : (blk_alloc_run_nolock 3 small_fs).1 = (8, 3)) by reflexivity.
  rewrite E in He. injection He as -> ->. split; reflexivity.
Defined.

Lemma ino_alloc_spec_witness :
  let '(n, s') := ino_alloc_nolock small_fs in ialloc_ok s' ∧ n = 2.
Proof.
  pose proof (ino_alloc_spec small_fs small_fs_ialloc) as Hs.
  destruct (ino_alloc_nolock small_fs) as [n s'] eqn:E.
  destruct Hs as [Hok _]. split; [exact Hok|].
  assert (He : (ino_alloc_nolock small_fs).1 = 2) by reflexivity.
  rewrite E in He. exact He.
Defined.
