(* ===== verification/KfsExtent.v ===== *)
(** The extent layer of KyuzenFS V4 ([kernel/fs/kfs_extent.c]): the translation from
    logical blocks of a file to disk blocks through the inode's extents, growing,
    reading, writing and truncating a file.

    An extent function takes the inode's value and gives its new value.  Output
    buffers are the list of bytes written to them.  Loops over the 345 extent slots
    are [for_range]; the loops over a file's blocks carry fuel, which [io_fuel_enough]
    and [chunk_fuel] (reading and writing) and [grow_loop_ok] (growing) show sufficient. *)

From S2P Require Import Prelude Bitmap BlockIO Kfs KfsInode KfsBalloc.

Section ops.
Context {S : Type} `{BlockIO S}.
Implicit Types (s : fs S) (i : inode_mem) (e : extent).

(** ** Extent slots *)
Definition ext_get_nolock i (n : Z) s : (Z + extent) * fs S :=
  if n <? KZFS_NUM_DIRECT_EXTENTS
  then (inr (default zero_extent (direct i !! Z.to_nat n)), s) else
  let k := n - KZFS_NUM_DIRECT_EXTENTS in
  if KZFS_EXTS_PER_IND_BLOCK <=? k then (inl KZFS_EINVAL, s) else
  if indirect_extent_block i =? 0 then (inr zero_extent, s) else
  match io_read (indirect_extent_block i) (dev s) with
  | (None, d) => (inl KZFS_EIO, set_dev d s)
  | (Some b, d) => (inr (dec_extent (slice (k * 12) 12 b)), set_dev d s)
  end.

(** The allocation of the indirect block: [inl] is an early return of
    [ext_set_nolock]. *)
Definition need_indirect i s : (Z * inode_mem * fs S) + (inode_mem * fs S) :=
  if indirect_extent_block i =? 0 then
    let '(start, _, s) := blk_alloc_run_nolock 1 s in
    if start =? 0 then inl (KZFS_ENOSPC, i, s) else
    let i := i_set_dirty true
               (i_set_used (u64 (blocks_used i + 1)) (i_set_indirect start i)) in
    match io_overwrite start (repeat 0 BLK) (dev s) with
    | (false, d) => inl (KZFS_EIO, i, set_dev d s)
    | (true, d) => inr (i, set_dev d s)
    end
  else inr (i, s).

Definition ext_set_nolock i (n : Z) e s : Z * inode_mem * fs S :=
  if n <? KZFS_NUM_DIRECT_EXTENTS
  then (KZFS_EOK, i_set_dirty true (i_set_direct (<[Z.to_nat n := e]> (direct i)) i), s) else
  let k := n - KZFS_NUM_DIRECT_EXTENTS in
  if KZFS_EXTS_PER_IND_BLOCK <=? k then (KZFS_EINVAL, i, s) else
  match need_indirect i s with
  | inl r => r
  | inr (i, s) =>
      match io_modify (indirect_extent_block i) (λ b, splice b (k * 12) (enc_extent e)) (dev s) with
      | (false, d) => (KZFS_EIO, i, set_dev d s)
      | (true, d) => (KZFS_EOK, i, set_dev d s)
      end
  end.

Definition phys_step i (logical_block n : Z) (st : Z * fs S)
    : (option Z * fs S) + (Z * fs S) :=
  let '(cursor, s) := st in
  match ext_get_nolock i n s with
  | (inl _, s) => inl (None, s)
  | (inr e, s) =>
      if block_count e =? 0 then
        if n <? KZFS_NUM_DIRECT_EXTENTS then inr (cursor, s) else inl (None, s)
      else if logical_block <? cursor + block_count e then
        inl (Some (u64 (start_block e + (logical_block - cursor))), s)
      else inr (cursor + block_count e, s)
  end.

Definition kzfs_get_phys_block i (logical_block : Z) s : option Z * fs S :=
  match for_range 0 KZFS_MAX_EXTENTS (phys_step i logical_block) (0, s) with
  | inl r => r
  | inr (_, s) => (None, s)
  end.

Definition append_step i (start count n : Z) s : (Z * inode_mem * fs S) + fs S :=
  match ext_get_nolock i n s with
  | (inl _, s) => inl (KZFS_EIO, i, s)
  | (inr e, s) =>
      if block_count e =? 0 then inl (ext_set_nolock i n (mkExt start count) s)
      else if u64 (start_block e + block_count e) =? start then
        inl (ext_set_nolock i n (mkExt (start_block e) (u32 (block_count e + count))) s)
      else inr s
  end.

Definition ext_append_nolock i (start count : Z) s : Z * inode_mem * fs S :=
  match for_range 0 KZFS_MAX_EXTENTS (append_step i start count) s with
  | inl r => r
  | inr s => (KZFS_EINVAL, i, s)
  end.

(** The first loop of [grow_to_nolock]: the number of blocks mapped, [inl (None, _)] for
    the error return. *)
Definition cover_step i (n : Z) (st : Z * fs S) : (option Z * fs S) + (Z * fs S) :=
  let '(cursor, s) := st in
  match ext_get_nolock i n s with
  | (inl _, s) => inl (None, s)
  | (inr e, s) => if block_count e =? 0 then inl (Some cursor, s)
                  else inr (cursor + block_count e, s)
  end.

Definition cover i s : option Z * fs S :=
  match for_range 0 KZFS_MAX_EXTENTS (cover_step i) (0, s) with
  | inl r => r
  | inr (cursor, s) => (Some cursor, s)
  end.

Fixpoint grow_loop (fuel : nat) (logical_block cursor : Z) i s : Z * inode_mem * fs S :=
  if logical_block <? cursor then (KZFS_EOK, i, s) else
  match fuel with
  | O => (KZFS_EOK, i, s)
  | Datatypes.S fuel =>
      let need := logical_block - cursor + 1 in
      let want := if 64 <? need then 64 else need in
      let '(start, got, s) := blk_alloc_run_nolock want s in
      if start =? 0 then (KZFS_ENOSPC, i, s) else
      let '(rc, i, s) := ext_append_nolock i start got s in
      if negb (rc =? KZFS_EOK) then (rc, i, blk_free_run_nolock start got s) else
      let i := i_set_dirty true (i_set_used (u64 (blocks_used i + got)) i) in
      grow_loop fuel logical_block (cursor + got) i s
  end.

Definition grow_to_nolock i (logical_block : Z) s : Z * inode_mem * fs S :=
  match cover i s with
  | (None, s) => (KZFS_EIO, i, s)
  | (Some cursor, s) => grow_loop (Z.to_nat (logical_block - cursor + 1)) logical_block cursor i s
  end.

(** ** Reading and writing *)
Definition io_fuel (count : Z) : nat := Z.to_nat (count / KZFS_BLOCK_SIZE) + 2.

(** [acc] holds the bytes already stored in the buffer. *)
Fixpoint read_loop (fuel : nat) i (file_off count : Z) (acc : list Z) s
    : Z * list Z * fs S :=
  if count =? 0 then (KZFS_EOK, acc, s) else
  match fuel with
  | O => (KZFS_EOK, acc, s)
  | Datatypes.S fuel =>
      let lb := file_off / KZFS_BLOCK_SIZE in
      let boff := file_off mod KZFS_BLOCK_SIZE in
      let chunk := if count <? KZFS_BLOCK_SIZE - boff then count else KZFS_BLOCK_SIZE - boff in
      match kzfs_get_phys_block i lb s with
      | (None, s) =>
          read_loop fuel i (file_off + chunk) (count - chunk)
            (acc ++ repeat 0 (Z.to_nat chunk)) s
      | (Some phys, s) =>
          match io_read phys (dev s) with
          | (None, d) => (KZFS_EIO, acc, set_dev d s)
          | (Some b, d) =>
              read_loop fuel i (file_off + chunk) (count - chunk)
                (acc ++ slice boff chunk b) (set_dev d s)
          end
      end
  end.

Definition blk_read_file i (file_off count : Z) s : Z * list Z * fs S :=
  if size_bytes i <=? file_off then (KZFS_EOK, [], s) else
  let count := if size_bytes i - file_off <? count
               then u32 (size_bytes i - file_off) else count in
  read_loop (io_fuel count) i file_off count [] s.

(** The disk block for a logical block, growing the file if it has none; [inl] is the
    error return. *)
Definition phys_or_grow i (lb : Z) s : (Z * inode_mem * fs S) + (Z * inode_mem * fs S) :=
  match kzfs_get_phys_block i lb s with
  | (Some phys, s) => inr (phys, i, s)
  | (None, s) =>
      let '(rc, i, s) := grow_to_nolock i lb s in
      if negb (rc =? KZFS_EOK) then inl (rc, i, s) else
      match kzfs_get_phys_block i lb s with
      | (Some phys, s) => inr (phys, i, s)
      | (None, s) => inl (KZFS_EIO, i, s)
      end
  end.

(** The transfer of one chunk to the disk block [p]: a whole block is overwritten without
    reading it, a part of one is read, changed and written. *)
Definition put_chunk (p boff chunk : Z) (part : list Z) s : bool * S :=
  if (boff =? 0) && (chunk =? KZFS_BLOCK_SIZE) then io_overwrite p part (dev s)
  else io_modify p (λ b, splice b boff part) (dev s).

(** [buf] holds the bytes still to write, [nwritten] counts those written. *)
Fixpoint write_loop (fuel : nat) i (file_off : Z) (buf : list Z) (nwritten : Z) s
    : Z * Z * inode_mem * fs S :=
  if zlength buf =? 0 then (KZFS_EOK, nwritten, i, s) else
  match fuel with
  | O => (KZFS_EOK, nwritten, i, s)
  | Datatypes.S fuel =>
      let count := zlength buf in
      let lb := file_off / KZFS_BLOCK_SIZE in
      let boff := file_off mod KZFS_BLOCK_SIZE in
      let chunk := if count <? KZFS_BLOCK_SIZE - boff then count else KZFS_BLOCK_SIZE - boff in
      match phys_or_grow i lb s with
      | inl (rc, i, s) => (rc, nwritten, i, s)
      | inr (phys, i, s) =>
          let '(ok, d) := put_chunk phys boff chunk (slice 0 chunk buf) s in
          let s := set_dev d s in
          if negb ok then (KZFS_EIO, nwritten, i, s) else
          let file_off := u64 (file_off + chunk) in
          let i := if size_bytes i <? file_off then i_set_size file_off i else i in
          write_loop fuel (i_set_dirty true i) file_off (drop (Z.to_nat chunk) buf)
            (nwritten + chunk) s
      end
  end.

Definition blk_write_file i (file_off : Z) (buf : list Z) s : Z * Z * inode_mem * fs S :=
  write_loop (io_fuel (zlength buf)) i file_off buf 0 s.

(** ** Truncation *)

(** [inl (None, ...)] is the error return, [inl (Some _, ...)] the [break]. *)
Definition trunc_step (new_lb n : Z) (st : Z * inode_mem * fs S)
    : (option Z * inode_mem * fs S) + (Z * inode_mem * fs S) :=
  let '(cursor, i, s) := st in
  match ext_get_nolock i n s with
  | (inl _, s) => inl (None, i, s)
  | (inr e, s) =>
      if block_count e =? 0 then inl (Some cursor, i, s) else
      let ext_first := cursor in
      let cursor := cursor + block_count e in
      if new_lb <=? ext_first then
        let s := blk_free_run_nolock (start_block e) (block_count e) s in
        let i := i_set_used (u64 (blocks_used i - block_count e)) i in
        let '(_, i, s) := ext_set_nolock i n zero_extent s in
        inr (cursor, i, s)
      else if new_lb <? cursor then
        let keep := u32 (new_lb - ext_first) in
        let s := blk_free_run_nolock (u64 (start_block e + keep)) (block_count e - keep) s in
        let i := i_set_used (u64 (blocks_used i - (block_count e - keep))) i in
        let '(_, i, s) := ext_set_nolock i n (mkExt (start_block e) keep) s in
        inr (cursor, i, s)
      else inr (cursor, i, s)
  end.

(** The loop that looks for an indirect extent still in use. *)
Definition any_step i (k : Z) s : (bool * fs S) + fs S :=
  match ext_get_nolock i (KZFS_NUM_DIRECT_EXTENTS + k) s with
  | (inl _, s) => inl (false, s)
  | (inr e, s) => if negb (block_count e =? 0) then inl (true, s) else inr s
  end.

Definition drop_indirect i s : inode_mem * fs S :=
  if negb (indirect_extent_block i =? 0) then
    let '(any, s) := match for_range 0 KZFS_EXTS_PER_IND_BLOCK (any_step i) s with
                     | inl r => r
                     | inr s => (false, s)
                     end in
    if negb any then
      let s := blk_free_run_nolock (indirect_extent_block i) 1 s in
      (i_set_dirty true (i_set_indirect 0 (i_set_used (u64 (blocks_used i - 1)) i)), s)
    else (i, s)
  else (i, s).

Definition truncate_nolock i (new_size : Z) s : Z * inode_mem * fs S :=
  let new_lb := if new_size =? 0 then 0 else (new_size - 1) / KZFS_BLOCK_SIZE + 1 in
  let fin i s := let '(i, s) := drop_indirect i s in
                 (KZFS_EOK, i_set_dirty true (i_set_size new_size i), s) in
  match for_range 0 KZFS_MAX_EXTENTS (trunc_step new_lb) (0, i, s) with
  | inl (None, i, s) => (KZFS_EIO, i, s)
  | inl (Some _, i, s) => fin i s
  | inr (_, i, s) => fin i s
  end.

Definition free_ext_step (n : Z) (st : inode_mem * fs S)
    : (inode_mem * fs S) + (inode_mem * fs S) :=
  let '(i, s) := st in
  match ext_get_nolock i n s with
  | (inl _, s) => inl (i, s)
  | (inr e, s) =>
      if block_count e =? 0 then
        if KZFS_NUM_DIRECT_EXTENTS <=? n then inl (i, s) else inr (i, s)
      else
        let s := blk_free_run_nolock (start_block e) (block_count e) s in
        let '(_, i, s) := ext_set_nolock i n zero_extent s in
        inr (i, s)
  end.

Definition inode_free_all_extents i s : inode_mem * fs S :=
  let '(i, s) := match for_range 0 KZFS_MAX_EXTENTS free_ext_step (i, s) with
                 | inl r => r
                 | inr r => r
                 end in
  let '(i, s) := if negb (indirect_extent_block i =? 0)
                 then (i_set_indirect 0 i, blk_free_run_nolock (indirect_extent_block i) 1 s)
                 else (i, s) in
  (i_set_dirty true (i_set_size 0 (i_set_used 0 i)), s).
End ops.

(** ** The abstract view of an inode *)
Section spec.
Context {S : Type} `{Hio : BlockIOok S}.
Implicit Types (s : fs S) (i : inode_mem) (e : extent) (l : list extent).

(** The extents in an indirect block. *)
Definition ind_exts (b : list Z) : list extent :=
  map (λ k, dec_extent (slice (k * 12) 12 b)) (seqZ 0 KZFS_EXTS_PER_IND_BLOCK).

(** All extent slots of an inode. *)
Definition exts i s : list extent :=
  direct i ++
  if indirect_extent_block i =? 0 then repeat zero_extent 341
  else ind_exts (io_view (dev s) (indirect_extent_block i)).

(** The disk blocks of a list of extents, in logical order. *)
Definition blocks l : list Z :=
  concat (map (λ e, seqZ (start_block e) (block_count e)) l).

Fixpoint extent_total l : Z :=
  match l with [] => 0 | e :: l => block_count e + extent_total l end.

(** [l] lists the extents in use: they fill the first slots, the other slots are empty. *)
Definition live i s l : Prop :=
  Forall (λ e, 0 < block_count e) l ∧
  ∃ z, exts i s = l ++ z ∧ Forall (λ e, block_count e = 0) z.

Definition ind_valid i : Prop :=
  length (direct i) = 4%nat ∧ 0 ≤ indirect_extent_block i < io_limit.

(** No read of a block fails. *)
Definition reads_succeed : Prop :=
  ∀ n (d : S), io_ok d → 0 ≤ n < io_limit → (io_read n d).1 ≠ None.

(** Only reads separate two states. *)
Definition reads s s' : Prop :=
  ∃ d, s' = set_dev d s ∧ (io_ok (dev s) → io_ok d) ∧ view_same (dev s) d.

#[global] Instance reads_pre : PreOrder reads.
Proof.
  split.
  - intros s. exists (dev s). split_and!; [by destruct s|done|done].
  - intros s1 s2 s3 (d & -> & Ho & Hv) (d' & -> & Ho' & Hv'). exists d'.
    split_and!; [done|auto|]. simpl in Hv'. by etrans.
Qed.

Lemma reads_exts i s s' : reads s s' → exts i s' = exts i s.
Proof. intros (d & -> & _ & Hv). unfold exts. simpl. by rewrite Hv. Qed.

Lemma reads_balloc s s' : reads s s' → balloc_ok s → balloc_ok s'.
Proof. intros (d & -> & _) Hb. by apply balloc_ok_dev. Qed.

Lemma reads_ok s s' : reads s s' → io_ok (dev s) → io_ok (dev s').
Proof. intros (d & -> & Ho & _). exact Ho. Qed.

Lemma reads_env s s' : reads s s' → same_env s s'.
Proof. intros (d & -> & _). apply same_env_dev. Qed.

Lemma ind_exts_lookup b k :
  0 ≤ k < KZFS_EXTS_PER_IND_BLOCK →
  ind_exts b !! Z.to_nat k = Some (dec_extent (slice (k * 12) 12 b)).
Proof.
  intros Hk. unfold ind_exts. rewrite list_lookup_fmap, lookup_seqZ_lt by lia. simpl.
  do 3 f_equal. lia.
Qed.

Lemma exts_length i s : ind_valid i → length (exts i s) = 345%nat.
Proof.
  intros [Hd _]. unfold exts, ind_exts. rewrite length_app, Hd.
  destruct (_ =? 0); [by rewrite repeat_length|].
  by rewrite length_fmap, length_seqZ.
Qed.

Lemma ext_get_ok i n s :
  ind_valid i → io_ok (dev s) → 0 ≤ n < KZFS_MAX_EXTENTS →
  let '(r, s') := ext_get_nolock i n s in
  reads s s' ∧
  match r with
  | inr e => exts i s !! Z.to_nat n = Some e
  | inl _ => indirect_extent_block i ≠ 0 ∧ 4 ≤ n ∧ ¬ reads_succeed
  end.
Proof.
  intros [Hd Hi] Hok Hn. unfold ext_get_nolock.
  change KZFS_NUM_DIRECT_EXTENTS with 4. unfold KZFS_MAX_EXTENTS in Hn.
  destruct (Z.ltb_spec n 4) as [H4|H4].
  { split; [reflexivity|]. unfold exts.
    destruct (lookup_lt_is_Some_2 (direct i) (Z.to_nat n)) as [e He]; [lia|].
    rewrite He. simpl. by apply lookup_app_l_Some. }
  assert (Hexts : ∀ x, (if indirect_extent_block i =? 0 then repeat zero_extent 341
      else ind_exts (io_view (dev s) (indirect_extent_block i))) !! Z.to_nat (n - 4) = Some x →
      exts i s !! Z.to_nat n = Some x).
  { intros x Hx. unfold exts. rewrite lookup_app_r by lia.
    replace (Z.to_nat n - length (direct i))%nat with (Z.to_nat (n - 4)) by lia. done. }
  destruct (Z.leb_spec KZFS_EXTS_PER_IND_BLOCK (n - 4)) as [Hk|Hk];
    [unfold KZFS_EXTS_PER_IND_BLOCK in Hk; lia|].
  destruct (Z.eqb_spec (indirect_extent_block i) 0) as [E|E].
  { split; [reflexivity|]. apply Hexts. apply lookup_repeat. unfold KZFS_EXTS_PER_IND_BLOCK in Hk. lia. }
  pose proof (io_read_spec (indirect_extent_block i) (dev s) Hok Hi) as Hr.
  destruct (io_read _ (dev s)) as [[b|] d] eqn:Er; destruct Hr as (Hok' & Hv & Hb).
  - split; [by exists d|]. apply Hexts. rewrite <- Hb. apply ind_exts_lookup. lia.
  - split; [by exists d|]. split_and!; [done|lia|]. intros Hs.
    apply (Hs (indirect_extent_block i) (dev s) Hok Hi). by rewrite Er.
Qed.

(** ** Extents and blocks *)
Definition in_u64 l : Prop :=
  Forall (λ e, 0 ≤ start_block e ∧ start_block e + block_count e < 2 ^ 64) l.

Lemma extent_total_app l1 l2 : extent_total (l1 ++ l2) = extent_total l1 + extent_total l2.
Proof. induction l1; simpl; lia. Qed.

Lemma extent_total_nonneg l : Forall (λ e, 0 < block_count e) l → 0 ≤ extent_total l.
Proof. induction 1; simpl; lia. Qed.

Lemma blocks_app l1 l2 : blocks (l1 ++ l2) = blocks l1 ++ blocks l2.
Proof. unfold blocks. by rewrite fmap_app, concat_app. Qed.

Lemma blocks_cons e l : blocks (e :: l) = seqZ (start_block e) (block_count e) ++ blocks l.
Proof. done. Qed.

Lemma blocks_length l :
  Forall (λ e, 0 < block_count e) l → zlength (blocks l) = extent_total l.
Proof.
  induction 1 as [|e l He Hl IH]; [done|]. rewrite blocks_cons, zlength_app, IH.
  unfold zlength. rewrite length_seqZ. simpl. lia.
Qed.

Lemma blocks_lookup l n e j :
  Forall (λ e, 0 < block_count e) l → l !! n = Some e → 0 ≤ j < block_count e →
  blocks l !! Z.to_nat (extent_total (take n l) + j) = Some (start_block e + j).
Proof.
  intros Hl He Hj.
  assert (Hb : blocks l = blocks (take n l ++ e :: drop (Datatypes.S n) l))
    by (by rewrite take_drop_middle).
  rewrite Hb, blocks_app, blocks_cons.
  assert (Ht : Forall (λ e, 0 < block_count e) (take n l)) by (by apply Forall_take).
  pose proof (blocks_length _ Ht) as Hlen. unfold zlength in Hlen.
  pose proof (extent_total_nonneg _ Ht).
  rewrite lookup_app_r by lia. rewrite lookup_app_l by (rewrite length_seqZ; lia).
  rewrite lookup_seqZ_lt by lia. f_equal. lia.
Qed.

Lemma blocks_lookup_None l lb :
  Forall (λ e, 0 < block_count e) l → extent_total l ≤ lb → blocks l !! Z.to_nat lb = None.
Proof.
  intros Hl Hlb. apply lookup_ge_None. pose proof (blocks_length l Hl).
  unfold zlength in *. lia.
Qed.

Lemma extent_total_take_S l n e :
  l !! n = Some e → extent_total (take (Datatypes.S n) l) = extent_total (take n l) + block_count e.
Proof. intros He. rewrite (take_S_r l n e He), extent_total_app. simpl. lia. Qed.

(** A slot holds an extent in use or is empty. *)
Lemma live_slot i s l n e :
  live i s l → exts i s !! n = Some e →
  ((n < length l)%nat ∧ l !! n = Some e ∧ 0 < block_count e) ∨
  ((length l ≤ n)%nat ∧ block_count e = 0).
Proof.
  intros [Hl (z & Hz & Hzero)] He. rewrite Hz in He.
  apply lookup_app_Some in He as [He|[Hn He]].
  - left. split_and!; [by apply lookup_lt_Some in He|done|].
    by apply (Forall_lookup_1 _ _ _ _ Hl He).
  - right. split; [done|]. by apply (Forall_lookup_1 _ _ _ _ Hzero He).
Qed.

Lemma reads_live i s s' l : reads s s' → live i s l → live i s' l.
Proof. intros Hr [Hl Hz]. split; [done|]. by rewrite (reads_exts i s s' Hr). Qed.

(** ** Translation *)
Lemma phys_step_ok i lb n s s1 l cursor :
  ind_valid i → io_ok (dev s) → live i s l → in_u64 l → 0 ≤ n < KZFS_MAX_EXTENTS →
  reads s s1 → cursor = extent_total (take (Z.to_nat n) l) → cursor ≤ lb →
  match phys_step i lb n (cursor, s1) with
  | inl (r, s') => reads s s' ∧
      match r with
      | Some p => blocks l !! Z.to_nat lb = Some p
      | None => blocks l !! Z.to_nat lb = None ∨ (indirect_extent_block i ≠ 0 ∧ ¬ reads_succeed)
      end
  | inr (cursor', s') => reads s s' ∧ cursor' = extent_total (take (Z.to_nat (n + 1)) l) ∧
      cursor' ≤ lb
  end.
Proof.
  intros Hi Hok Hl Hu Hn Hr Hc Hlb. unfold phys_step.
  pose proof (ext_get_ok i n s1 Hi (reads_ok _ _ Hr Hok) Hn) as Hg.
  destruct (ext_get_nolock i n s1) as [[rc|e] s2]; destruct Hg as [Hr2 Hg];
    (assert (Hr' : reads s s2) by (by etrans)).
  { split; [done|]. right. tauto. }
  rewrite (reads_exts i s s1 Hr) in Hg. pose proof Hl as [Hpos _].
  replace (Z.to_nat (n + 1)) with (Datatypes.S (Z.to_nat n)) by lia.
  destruct (live_slot i s l _ e Hl Hg) as [(Hlt & He & Hcnt)|[Hge Hz]].
  - destruct (Z.eqb_spec (block_count e) 0); [lia|].
    rewrite (extent_total_take_S l _ e He).
    destruct (Z.ltb_spec lb (cursor + block_count e)).
    + split; [done|]. pose proof (Forall_lookup_1 _ _ _ _ Hu He) as He64. simpl in He64.
      rewrite u64_id by lia. rewrite <- (blocks_lookup l _ e (lb - cursor) Hpos He) by lia.
      do 2 f_equal. lia.
    + split_and!; [done|lia|lia].
  - destruct (Z.eqb_spec (block_count e) 0); [|lia].
    rewrite take_ge in Hc by lia. rewrite (take_ge l (Datatypes.S _)) by lia.
    destruct (n <? KZFS_NUM_DIRECT_EXTENTS); [done|]. split; [done|]. left.
    apply blocks_lookup_None; [done|lia].
Qed.

Lemma get_phys_ok i lb s l :
  ind_valid i → io_ok (dev s) → live i s l → in_u64 l → 0 ≤ lb →
  let '(r, s') := kzfs_get_phys_block i lb s in
  reads s s' ∧
  match r with
  | Some p => blocks l !! Z.to_nat lb = Some p
  | None => blocks l !! Z.to_nat lb = None ∨ (indirect_extent_block i ≠ 0 ∧ ¬ reads_succeed)
  end.
Proof.
  intros Hi Hok Hl Hu Hlb. unfold kzfs_get_phys_block.
  opose proof* (for_range_rule
    (λ n (st : Z * fs S), 0 ≤ n ∧ reads s st.2 ∧ st.1 = extent_total (take (Z.to_nat n) l) ∧ st.1 ≤ lb)
    (λ r : option Z * fs S, reads s r.2 ∧
       match r.1 with
       | Some p => blocks l !! Z.to_nat lb = Some p
       | None => blocks l !! Z.to_nat lb = None ∨ (indirect_extent_block i ≠ 0 ∧ ¬ reads_succeed)
       end)
    0 KZFS_MAX_EXTENTS (phys_step i lb) (0, s)) as Hr.
  - split_and!; [done|reflexivity|done|done].
  - intros n [cursor s1] Hn (_ & Hrd & Hc & Hle). simpl in Hrd, Hc, Hle.
    pose proof (phys_step_ok i lb n s s1 l cursor Hi Hok Hl Hu Hn Hrd Hc Hle) as Hs.
    destruct (phys_step i lb n (cursor, s1)) as [[r s2]|[c2 s2]].
    + exact Hs.
    + simpl. split; [lia|exact Hs].
  - destruct (for_range _ _ _ _) as [[r s2]|[c2 s2]]; [done|].
    destruct Hr as (_ & Hrd & Hc & Hle). simpl in *. split; [done|]. left.
    rewrite take_ge in Hc.
    + apply blocks_lookup_None; [apply Hl|lia].
    + destruct Hl as [_ (z & Hz & _)]. pose proof (exts_length i s Hi) as Hlen.
      rewrite Hz, length_app in Hlen. unfold KZFS_MAX_EXTENTS. lia.
Qed.

Lemma live_length i s l : ind_valid i → live i s l → zlength l ≤ KZFS_MAX_EXTENTS.
Proof.
  intros Hi [_ (z & Hz & _)]. pose proof (exts_length i s Hi) as Hlen.
  rewrite Hz, length_app in Hlen. unfold KZFS_MAX_EXTENTS, zlength. lia.
Qed.

Lemma cover_ok i s l :
  ind_valid i → io_ok (dev s) → live i s l →
  let '(r, s') := cover i s in
  reads s s' ∧
  match r with
  | Some c => c = extent_total l
  | None => indirect_extent_block i ≠ 0 ∧ ¬ reads_succeed
  end.
Proof.
  intros Hi Hok Hl. unfold cover.
  opose proof* (for_range_rule
    (λ n (st : Z * fs S), 0 ≤ n ∧ reads s st.2 ∧ st.1 = extent_total (take (Z.to_nat n) l))
    (λ r : option Z * fs S, reads s r.2 ∧
       match r.1 with
       | Some c => c = extent_total l
       | None => indirect_extent_block i ≠ 0 ∧ ¬ reads_succeed
       end)
    0 KZFS_MAX_EXTENTS (cover_step i) (0, s)) as Hr.
  - split_and!; [done|reflexivity|done].
  - intros n [cursor s1] Hn (_ & Hrd & Hc). simpl in *.
    pose proof (ext_get_ok i n s1 Hi (reads_ok _ _ Hrd Hok) Hn) as Hg.
    destruct (ext_get_nolock i n s1) as [[rc|e] s2]; destruct Hg as [Hr2 Hg];
      (assert (Hr' : reads s s2) by (by etrans)); [simpl; tauto|].
    rewrite (reads_exts i s s1 Hrd) in Hg.
    destruct (live_slot i s l _ e Hl Hg) as [(Hlt & He & Hcnt)|[Hge Hz]].
    + destruct (Z.eqb_spec (block_count e) 0); [lia|]. simpl. split_and!; [lia|done|].
      replace (Z.to_nat (n + 1)) with (Datatypes.S (Z.to_nat n)) by lia.
      rewrite (extent_total_take_S l _ e He). lia.
    + destruct (Z.eqb_spec (block_count e) 0); [|lia]. simpl. split; [done|].
      by rewrite Hc, take_ge by lia.
  - destruct (for_range _ _ _ _) as [[r s2]|[c2 s2]]; [done|].
    destruct Hr as (_ & Hrd & Hc). simpl in *. split; [done|].
    rewrite Hc, take_ge; [done|]. pose proof (live_length i s l Hi Hl).
    unfold zlength, KZFS_MAX_EXTENTS in *. lia.
Qed.

(** ** Well-formed inodes *)

(** The blocks an inode owns: those of its extents and its indirect block. *)
Definition owned i l : list Z :=
  blocks l ++ if indirect_extent_block i =? 0 then [] else [indirect_extent_block i].

Definition data_block s (b : Z) : Prop := data_start s ≤ b < total_blocks (sb_cache s).

Record inode_wf i s l : Prop := {
  iw_live : live i s l;
  iw_direct : length (direct i) = 4%nat;
  iw_nodup : NoDup (owned i l);
  iw_range : Forall (data_block s) (owned i l);
  iw_used : Forall (λ b, used s b = true) (owned i l);
  iw_count : blocks_used i = zlength (owned i l);
}.

Definition fs_ok s : Prop := io_ok (dev s) ∧ balloc_ok s.

Lemma data_block_bounds s b :
  balloc_ok s → data_block s b → 0 < b < 2 ^ 32 ∧ 0 ≤ b < io_limit.
Proof. intros [? ? ? [? ?] ? ?] [? ?]. lia. Qed.

Lemma wf_ind_valid i s l : balloc_ok s → inode_wf i s l → ind_valid i.
Proof.
  intros Hb [_ Hd _ Hr _ _]. split; [done|]. unfold owned in Hr.
  apply Forall_app in Hr as [_ Hr]. destruct (Z.eqb_spec (indirect_extent_block i) 0) as [->|].
  - destruct Hb as [? ? ? [? ?] ? ?]. lia.
  - apply Forall_cons in Hr as [Hr _]. by apply (data_block_bounds s).
Qed.

Lemma extent_blocks_in l e b :
  e ∈ l → start_block e ≤ b < start_block e + block_count e → b ∈ blocks l.
Proof.
  intros He Hb. unfold blocks. apply list_elem_of_In, in_concat.
  exists (seqZ (start_block e) (block_count e)).
  split; apply list_elem_of_In; [|apply elem_of_seqZ; lia].
  apply list_elem_of_fmap. by exists e.
Qed.

(** The extents of a well-formed inode lie inside the data area. *)
Lemma wf_extent i s l e :
  inode_wf i s l → e ∈ l →
  0 < block_count e ∧ data_start s ≤ start_block e ∧
  start_block e + block_count e ≤ total_blocks (sb_cache s).
Proof.
  intros [[Hp _] _ _ Hr _ _] He. pose proof (proj1 (Forall_forall _ _) Hp e He) as Hpe.
  simpl in Hpe. apply Forall_app in Hr as [Hr _]. rewrite Forall_forall in Hr.
  destruct (Hr (start_block e)) as [? ?]; [apply extent_blocks_in with e; [done|lia]|].
  destruct (Hr (start_block e + block_count e - 1)) as [? ?];
    [apply extent_blocks_in with e; [done|lia]|]. lia.
Qed.

Lemma wf_in_u64 i s l : balloc_ok s → inode_wf i s l → in_u64 l.
Proof.
  intros [? ? ? [? ?] ? ?] Hw. apply Forall_forall. intros e He.
  destruct (wf_extent i s l e Hw He) as (? & ? & ?). lia.
Qed.

Lemma reads_wf i s s' l : reads s s' → inode_wf i s l → inode_wf i s' l.
Proof.
  intros Hr [Hl Hd Hn Hrg Hu Hc]. pose proof (reads_live i s s' l Hr Hl).
  destruct Hr as (d & -> & _). by split.
Qed.

Lemma reads_fs_ok s s' : reads s s' → fs_ok s → fs_ok s'.
Proof. intros Hr [Ho Hb]. split; [by apply (reads_ok s)|by apply (reads_balloc s)]. Qed.

(** ** Reading *)

(** The byte at an offset of a file; a block that is not mapped reads as zeros. *)
Definition file_byte l (v : Z → list Z) (o : Z) : Z :=
  match blocks l !! Z.to_nat (o / KZFS_BLOCK_SIZE) with
  | Some p => lget (v p) (o mod KZFS_BLOCK_SIZE)
  | None => 0
  end.

(** The extents can be read: they are in the inode, or reads do not fail. *)
Definition map_sure i : Prop := indirect_extent_block i = 0 ∨ reads_succeed.

Lemma slice_map (b : list Z) boff n :
  0 ≤ boff → 0 ≤ n → boff + n ≤ zlength b →
  slice boff n b = map (lget b) (seqZ boff n).
Proof.
  intros Hb Hn Hl. apply list_eq. intros k. unfold slice. rewrite list_lookup_fmap.
  unfold zlength in Hl. destruct (Nat.lt_ge_cases k (Z.to_nat n)) as [Hk|Hk].
  - rewrite lookup_take_lt, lookup_drop, lookup_seqZ_lt by lia. simpl. unfold lget.
    replace (Z.to_nat (boff + Z.of_nat k)) with (Z.to_nat boff + k)%nat by lia.
    destruct (lookup_lt_is_Some_2 b (Z.to_nat boff + k)) as [x ->]; [lia|done].
  - rewrite lookup_take_ge by lia. symmetry. rewrite lookup_ge_None_2; [done|].
    rewrite length_seqZ. lia.
Qed.

Lemma map_seqZ_ext (f g : Z → Z) a b n :
  (∀ k, 0 ≤ k < n → f (a + k) = g (b + k)) → map f (seqZ a n) = map g (seqZ b n).
Proof.
  intros Hfg. apply list_eq. intros k. rewrite !list_lookup_fmap.
  destruct (Z.le_gt_cases n (Z.of_nat k)) as [Hk|Hk].
  - rewrite !lookup_ge_None_2; [done|rewrite length_seqZ; lia..].
  - rewrite !lookup_seqZ_lt by lia. simpl. f_equal. apply Hfg. lia.
Qed.

Lemma div_block off k :
  0 ≤ off → 0 ≤ k → off mod KZFS_BLOCK_SIZE + k < KZFS_BLOCK_SIZE →
  (off + k) / KZFS_BLOCK_SIZE = off / KZFS_BLOCK_SIZE ∧
  (off + k) mod KZFS_BLOCK_SIZE = off mod KZFS_BLOCK_SIZE + k.
Proof. unfold KZFS_BLOCK_SIZE. intros. zdiv. Qed.

(** The bytes of a file inside one block. *)
Lemma file_bytes_block l v off n :
  0 ≤ off → 0 ≤ n → off mod KZFS_BLOCK_SIZE + n ≤ KZFS_BLOCK_SIZE →
  match blocks l !! Z.to_nat (off / KZFS_BLOCK_SIZE) with
  | Some p => zlength (v p) = KZFS_BLOCK_SIZE →
      map (file_byte l v) (seqZ off n) = slice (off mod KZFS_BLOCK_SIZE) n (v p)
  | None => map (file_byte l v) (seqZ off n) = repeat 0 (Z.to_nat n)
  end.
Proof.
  intros Ho Hn Hb. assert (0 ≤ off mod KZFS_BLOCK_SIZE) by (apply Z.mod_pos_bound; done).
  destruct (blocks l !! _) as [p|] eqn:E.
  - intros Hv. rewrite slice_map by lia. apply map_seqZ_ext. intros k Hk.
    unfold file_byte. destruct (div_block off k ltac:(lia) ltac:(lia) ltac:(lia)) as [-> ->].
    by rewrite E.
  - assert (Hr : repeat 0 (Z.to_nat n) = map (λ _, 0) (seqZ off n)).
    { apply list_eq. intros k. rewrite list_lookup_fmap.
      destruct (Nat.lt_ge_cases k (Z.to_nat n)).
      - by rewrite lookup_repeat, lookup_seqZ_lt by lia.
      - rewrite !lookup_ge_None_2; [done|rewrite length_seqZ; lia|by rewrite repeat_length]. }
    rewrite Hr. apply map_seqZ_ext. intros k Hk. unfold file_byte.
    destruct (div_block off k ltac:(lia) ltac:(lia) ltac:(lia)) as [-> _]. by rewrite E.
Qed.

Lemma wf_block_limit i s l p k :
  balloc_ok s → inode_wf i s l → blocks l !! k = Some p → data_block s p ∧ 0 ≤ p < io_limit.
Proof.
  intros Hb [_ _ _ Hr _ _] Hp. apply Forall_app in Hr as [Hr _].
  pose proof (Forall_lookup_1 _ _ _ _ Hr Hp) as Hd. split; [done|].
  by apply (data_block_bounds s).
Qed.

Lemma seqZ_cat off a b : 0 ≤ a → 0 ≤ b → seqZ off (a + b) = seqZ off a ++ seqZ (off + a) b.
Proof. intros. apply seqZ_app; lia. Qed.

(** The rest of the file after the chunk that ends at the block boundary or at the end
    of the request fits the remaining fuel. *)
Lemma chunk_fuel off count fuel chunk :
  0 ≤ off → 0 < count →
  off mod KZFS_BLOCK_SIZE + count ≤ KZFS_BLOCK_SIZE * Z.of_nat (Datatypes.S fuel) →
  chunk = (if count <? KZFS_BLOCK_SIZE - off mod KZFS_BLOCK_SIZE
           then count else KZFS_BLOCK_SIZE - off mod KZFS_BLOCK_SIZE) →
  0 < chunk ≤ count ∧ off mod KZFS_BLOCK_SIZE + chunk ≤ KZFS_BLOCK_SIZE ∧
  (chunk = count ∨ (off + chunk) mod KZFS_BLOCK_SIZE = 0 ∧
     (off + chunk) / KZFS_BLOCK_SIZE = off / KZFS_BLOCK_SIZE + 1) ∧
  (chunk = count ∨ (off + chunk) mod KZFS_BLOCK_SIZE + (count - chunk) ≤
                   KZFS_BLOCK_SIZE * Z.of_nat fuel).
Proof. unfold KZFS_BLOCK_SIZE. intros Ho Hc Hf ->. zcase; split_and!; zdiv. Qed.

Lemma io_fuel_enough off count :
  0 ≤ off → 0 ≤ count →
  off mod KZFS_BLOCK_SIZE + count ≤ KZFS_BLOCK_SIZE * Z.of_nat (io_fuel count).
Proof. unfold io_fuel, KZFS_BLOCK_SIZE. intros. zdiv. Qed.

Lemma read_chunks_ok fuel i s l off count acc s1 :
  fs_ok s → inode_wf i s l → map_sure i → reads s s1 → 0 ≤ off → 0 ≤ count →
  count = 0 ∨ off mod KZFS_BLOCK_SIZE + count ≤ KZFS_BLOCK_SIZE * Z.of_nat fuel →
  let '(rc, bs, s') := read_loop fuel i off count acc s1 in
  reads s s' ∧
  ((rc = KZFS_EOK ∧ bs = acc ++ map (file_byte l (io_view (dev s))) (seqZ off count)) ∨
   (rc = KZFS_EIO ∧ ¬ reads_succeed)).
Proof.
  intros Hok Hw Hsure. revert off count acc s1.
  induction fuel as [|fuel IH]; intros off count acc s1 Hr Ho Hc Hf; simpl.
  { assert (count = 0) as -> by (pose proof (Z.mod_pos_bound off KZFS_BLOCK_SIZE eq_refl); lia).
    simpl. split; [done|]. left. by rewrite app_nil_r. }
  destruct (Z.eqb_spec count 0) as [->|Hc0].
  { split; [done|]. left. by rewrite app_nil_r. }
  destruct Hf as [?|Hf]; [lia|].
  set (chunk := if count <? _ then _ else _).
  destruct (chunk_fuel off count fuel chunk Ho ltac:(lia) Hf eq_refl) as (Hch & Hb & _ & Hf').
  clearbody chunk. destruct Hok as [Hio0 Hba].
  assert (Hlb : 0 ≤ off / KZFS_BLOCK_SIZE) by (apply Z.div_pos; [lia|done]).
  pose proof (get_phys_ok i (off / KZFS_BLOCK_SIZE) s1 l (wf_ind_valid i s l Hba Hw)
    (reads_ok s s1 Hr Hio0) (reads_live i s s1 l Hr (iw_live _ _ _ Hw))
    (wf_in_u64 i s l Hba Hw) Hlb) as Hg.
  pose proof (file_bytes_block l (io_view (dev s)) off chunk Ho ltac:(lia) Hb) as Hfb.
  assert (Hcat : map (file_byte l (io_view (dev s))) (seqZ off count) =
    map (file_byte l (io_view (dev s))) (seqZ off chunk) ++
    map (file_byte l (io_view (dev s))) (seqZ (off + chunk) (count - chunk))).
  { rewrite <- map_app, <- seqZ_cat by lia. do 2 f_equal. lia. }
  destruct (kzfs_get_phys_block i _ s1) as [[p|] s2]; destruct Hg as [Hr2 Hg];
    assert (Hr2' : reads s s2) by (by etrans).
  - rewrite Hg in Hfb. destruct (wf_block_limit i s l p _ Hba Hw Hg) as [_ Hlim].
    pose proof (io_read_spec p (dev s2) (reads_ok s s2 Hr2' Hio0) Hlim) as Hrd.
    destruct (io_read p (dev s2)) as [[b|] d] eqn:Er; destruct Hrd as (Hd & Hv & Hbv);
      assert (Hr3 : reads s (set_dev d s2)) by (etrans; [exact Hr2'|by exists d]).
    + rewrite Hcat, app_assoc. rewrite Hfb by (unfold zlength; by rewrite io_view_length).
      assert (io_view (dev s) p = b) as ->.
      { rewrite Hbv. destruct Hr2' as (d' & -> & _ & Hv'). by rewrite <- Hv'. }
      apply IH; [done|lia|lia|lia].
    + split; [done|]. right. split; [done|]. intros Hs.
      apply (Hs p (dev s2) (reads_ok s s2 Hr2' Hio0) Hlim). by rewrite Er.
  - assert (Hg' : blocks l !! Z.to_nat (off / KZFS_BLOCK_SIZE) = None).
    { destruct Hg as [?|[? ?]]; [done|]. by destruct Hsure. }
    rewrite Hg' in Hfb. rewrite Hcat, Hfb, app_assoc. apply IH; [done|lia|lia|lia].
Qed.

(** What [blk_read_file] delivers. *)
Definition read_count i (off count : Z) : Z := Z.max 0 (Z.min count (size_bytes i - off)).

Lemma blk_read_file_ok i s l off count :
  fs_ok s → inode_wf i s l → map_sure i → 0 ≤ off → 0 ≤ count < 2 ^ 32 →
  let '(rc, bs, s') := blk_read_file i off count s in
  reads s s' ∧
  ((rc = KZFS_EOK ∧
    bs = map (file_byte l (io_view (dev s))) (seqZ off (read_count i off count))) ∨
   (rc = KZFS_EIO ∧ ¬ reads_succeed)).
Proof.
  intros Hok Hw Hs Ho Hc. unfold blk_read_file, read_count.
  destruct (Z.leb_spec (size_bytes i) off) as [Hsz|Hsz].
  { split; [reflexivity|]. left. split; [done|]. by rewrite seqZ_nil by lia. }
  set (n := if size_bytes i - off <? count then _ else _).
  assert (n = Z.max 0 (Z.min count (size_bytes i - off))) as Hn.
  { subst n. zcase. rewrite u32_id; lia. }
  rewrite <- Hn. clearbody n.
  apply (read_chunks_ok (io_fuel n) i s l off n [] s Hok Hw Hs); [reflexivity|done|lia|].
  right. apply io_fuel_enough; lia.
Qed.

(** ** Changing an extent slot *)

(** An extent slot of [i] was written, or the attempt failed: the inode may have gained
    an indirect block, and no other block has changed. *)
Record slot_write i s i' s' : Prop := {
  sw_ok : fs_ok s';
  sw_env : same_env s s';
  sw_inode : ∃ u dr ind dt, i' = mkIno (ino i) (mode i) (links_count i) (size_bytes i) u dr
                                   ind dt (i_refcount i);
  sw_direct : length (direct i') = 4%nat;
  sw_ind : (indirect_extent_block i' = indirect_extent_block i ∧
            blocks_used i' = blocks_used i ∧ ∀ b, used s' b = used s b) ∨
           (indirect_extent_block i = 0 ∧ blocks_used i' = u64 (blocks_used i + 1) ∧
            run_taken s (indirect_extent_block i') 1 s');
  sw_view b : indirect_extent_block i' = 0 ∨ b ≠ indirect_extent_block i' →
              io_view (dev s') b = io_view (dev s) b;
}.

Lemma slot_write_reads i s s1 i' s' :
  reads s s1 → slot_write i s1 i' s' → slot_write i s i' s'.
Proof.
  intros (d & -> & Ho & Hv) [Hok He Hi Hd Hind Hvw]. split; [done| |done|done| |].
  - etrans; [apply (same_env_dev d)|exact He].
  - exact Hind.
  - intros b Hb. rewrite Hvw by done. apply Hv.
Qed.

Lemma slot_write_refl i s s' :
  fs_ok s → ind_valid i → reads s s' → slot_write i s i s'.
Proof.
  intros Hok Hi Hr. split; [by apply (reads_fs_ok s)|by apply reads_env| |apply Hi| |].
  - exists (blocks_used i), (direct i), (indirect_extent_block i), (i_dirty i). by destruct i.
  - left. destruct Hr as (d & -> & _). done.
  - intros b _. destruct Hr as (d & -> & _ & Hv). apply Hv.
Qed.

Lemma slot_in_block k : 0 ≤ k < KZFS_EXTS_PER_IND_BLOCK → 0 ≤ k * 12 ∧ k * 12 + 12 ≤ Z.of_nat BLK.
Proof. unfold KZFS_EXTS_PER_IND_BLOCK, BLK. lia. Qed.

Lemma ind_exts_splice b k e :
  length b = BLK → 0 ≤ k < KZFS_EXTS_PER_IND_BLOCK → extent_ok e →
  ind_exts (splice b (k * 12) (enc_extent e)) = <[Z.to_nat k := e]> (ind_exts b).
Proof.
  intros Hb Hk He. destruct (slot_in_block k Hk) as [Hlo Hhi].
  pose proof (zlength_enc_extent e) as Hle.
  assert (Hlb : zlength b = Z.of_nat BLK) by (unfold zlength; by rewrite Hb).
  apply list_eq. intros j. destruct (Nat.lt_ge_cases j 341) as [Hj|Hj].
  - assert (Hj' : 0 ≤ Z.of_nat j < KZFS_EXTS_PER_IND_BLOCK)
      by (unfold KZFS_EXTS_PER_IND_BLOCK; lia).
    pose proof (ind_exts_lookup (splice b (k * 12) (enc_extent e)) _ Hj') as H1.
    pose proof (ind_exts_lookup b _ Hj') as H2. rewrite Nat2Z.id in H1, H2. rewrite H1.
    destruct (decide (j = Z.to_nat k)) as [->|Hne].
    + rewrite list_lookup_insert_eq.
      2:{ unfold ind_exts. rewrite length_fmap, length_seqZ. lia. }
      pose proof (slice_splice_same b (k * 12) (enc_extent e)) as Hs. rewrite Hle in Hs.
      rewrite Z2Nat.id, Hs by lia. by rewrite dec_enc_extent.
    + rewrite list_lookup_insert_ne, H2 by done. do 2 f_equal.
      apply list_eq. intros m. unfold slice.
      destruct (Nat.lt_ge_cases m 12) as [Hm|Hm]; [|by rewrite !lookup_take_ge by lia].
      rewrite !lookup_take_lt, !lookup_drop by lia.
      apply lookup_splice_out; [lia|lia|]. unfold zlength in Hle. lia.
  - rewrite !lookup_ge_None_2; [done| |]; rewrite ?length_insert; unfold ind_exts;
      rewrite length_fmap, length_seqZ; unfold KZFS_EXTS_PER_IND_BLOCK; lia.
Qed.

Lemma ind_exts_zero : ind_exts (repeat 0 BLK) = repeat zero_extent 341.
Proof.
  apply list_eq. intros j. destruct (Nat.lt_ge_cases j 341) as [Hj|Hj].
  - rewrite lookup_repeat by done.
    assert (Hj' : 0 ≤ Z.of_nat j < KZFS_EXTS_PER_IND_BLOCK)
      by (unfold KZFS_EXTS_PER_IND_BLOCK; lia).
    pose proof (ind_exts_lookup (repeat 0 BLK) _ Hj') as H1. rewrite Nat2Z.id in H1.
    rewrite H1. do 2 f_equal. destruct (slot_in_block _ Hj') as [Hlo Hhi].
    assert (Hs : slice (Z.of_nat j * 12) 12 (repeat 0 BLK) = repeat 0 12).
    { apply list_eq. intros m. unfold slice. destruct (Nat.lt_ge_cases m 12).
      - rewrite lookup_take_lt, lookup_drop by lia. rewrite !lookup_repeat by lia. done.
      - rewrite !lookup_ge_None_2; [done|by rewrite repeat_length|].
        rewrite length_take. lia. }
    by rewrite Hs.
  - rewrite !lookup_ge_None_2; [done|by rewrite repeat_length|]. unfold ind_exts.
    rewrite length_fmap, length_seqZ. unfold KZFS_EXTS_PER_IND_BLOCK. lia.
Qed.

Lemma fs_ok_dev s d : io_ok d → fs_ok s → fs_ok (set_dev d s).
Proof. intros Hd [_ Hb]. split; [done|by apply balloc_ok_dev]. Qed.

(** Writing a slot of the indirect block. *)
Lemma ind_write_ok i s k e :
  fs_ok s → ind_valid i → indirect_extent_block i ≠ 0 → 0 ≤ k < KZFS_EXTS_PER_IND_BLOCK →
  extent_ok e →
  let '(r, d) := io_modify (indirect_extent_block i)
                   (λ b, splice b (k * 12) (enc_extent e)) (dev s) in
  slot_write i s i (set_dev d s) ∧
  (r = true → exts i (set_dev d s) = <[Z.to_nat (k + 4) := e]> (exts i s)).
Proof.
  intros Hok Hi Hne Hk He. pose proof Hok as [Hio0 _]. pose proof Hi as [Hd Hlim].
  pose proof (io_view_length (dev s) (indirect_extent_block i) Hio0) as Hl.
  destruct (slot_in_block k Hk) as [Hlo Hhi].
  pose proof (io_modify_spec (indirect_extent_block i)
    (λ b, splice b (k * 12) (enc_extent e)) (dev s) Hio0 Hlim) as Hm.
  destruct (io_modify _ _ _) as [r d].
  destruct Hm as [Hd' Hv].
  { rewrite <- Hl. apply splice_length; [lia|].
    rewrite zlength_enc_extent. unfold zlength. rewrite Hl. lia. }
  split.
  - split; [by apply fs_ok_dev|apply same_env_dev| |done|by left|].
    + exists (blocks_used i), (direct i), (indirect_extent_block i), (i_dirty i). by destruct i.
    + intros b [?|Hb]; [done|]. simpl. destruct r; [by apply (view_put_other _ _ _ _ _ Hv)|apply Hv].
  - intros ->. unfold exts. destruct (Z.eqb_spec (indirect_extent_block i) 0); [done|].
    rewrite insert_app_r_alt by lia. f_equal. simpl.
    rewrite (view_put_at _ _ _ _ Hv), ind_exts_splice by done. f_equal. lia.
Qed.

Lemma run_taken_dev s b n s' d : run_taken s b n s' → run_taken s b n (set_dev d s').
Proof. done. Qed.

(** The indirect block: there was one, or a new one was taken and zeroed. *)
Lemma need_indirect_ok i s :
  fs_ok s → ind_valid i →
  match need_indirect i s with
  | inl (rc, i', s') => slot_write i s i' s' ∧
      (rc = KZFS_EIO ∨ (rc = KZFS_ENOSPC ∧ i' = i ∧ s' = s))
  | inr (i', s') => slot_write i s i' s' ∧ exts i' s' = exts i s ∧
      indirect_extent_block i' ≠ 0 ∧ ind_valid i'
  end.
Proof.
  intros Hok Hi. unfold need_indirect.
  destruct (Z.eqb_spec (indirect_extent_block i) 0) as [E|E].
  2:{ split_and!; [by apply slot_write_refl|done|done|done]. }
  destruct Hok as [Hio0 Hba].
  pose proof (blk_alloc_ok 1 s Hba ltac:(lia)) as Ha.
  destruct (blk_alloc_run_nolock 1 s) as [[st n] s1].
  destruct Ha as (Hba1 & Henv & Hdev & Hn & _ & Hrun).
  destruct (decide (n = 0)) as [->|Hn0].
  { destruct Hrun as [-> ->]. simpl. split; [by apply slot_write_refl|by right]. }
  assert (n = 1) as -> by lia.
  pose proof Hrun as (Hlo & Hhi & Hfree & Hused).
  destruct (data_block_bounds s st Hba ltac:(split; lia)) as [Hst Hlim].
  destruct (Z.eqb_spec st 0); [lia|].
  set (i1 := i_set_dirty true _).
  assert (Hw1 : ∀ d, io_ok d → (∀ b, b ≠ st → io_view d b = io_view (dev s1) b) →
                slot_write i s i1 (set_dev d s1)).
  { intros d Hd Hv. split; [split; [done|by apply balloc_ok_dev]| | |apply Hi| |].
    - etrans; [exact Henv|apply same_env_dev].
    - by eexists _, _, _, _.
    - right. by split_and!.
    - intros b Hb. simpl. rewrite Hv, Hdev; [done|]. simpl in Hb. destruct Hb; [lia|done]. }
  pose proof (io_overwrite_spec st (repeat 0 BLK) (dev s1) ltac:(by rewrite Hdev) Hlim
    (repeat_length _ _)) as Ho.
  destruct (io_overwrite st (repeat 0 BLK) (dev s1)) as [[|] d]; destruct Ho as [Hd Hv].
  - split_and!; [apply Hw1; [done|]|  |done|split; [apply Hi|simpl; lia]].
    + intros b Hb. by apply (view_put_other _ _ _ _ _ Hv).
    + unfold exts. simpl. rewrite E. destruct (Z.eqb_spec st 0); [lia|]. simpl. f_equal.
      by rewrite (view_put_at _ _ _ _ Hv), ind_exts_zero.
  - split; [|by left]. apply Hw1; [done|]. intros b _. apply Hv.
Qed.

Lemma slot_write_then i s i1 s1 i2 s2 :
  slot_write i s i1 s1 → indirect_extent_block i1 ≠ 0 →
  slot_write i1 s1 i2 s2 → slot_write i s i2 s2.
Proof.
  intros [Hok1 He1 (u1 & dr1 & ind1 & dt1 & E1) Hd1 Hi1 Hv1] Hne
         [Hok2 He2 (u2 & dr2 & ind2 & dt2 & E2) Hd2 Hi2 Hv2].
  assert (H2 : indirect_extent_block i2 = indirect_extent_block i1 ∧
            blocks_used i2 = blocks_used i1 ∧ ∀ b, used s2 b = used s1 b)
    by (destruct Hi2 as [?|(? & _)]; done).
  destruct H2 as (Hind & Hu & Hus). split; [done|by etrans| |done| |].
  - exists u2, dr2, ind2, dt2. by rewrite E2, E1.
  - destruct Hi1 as [(? & ? & Hus1)|(? & ? & Hr)]; [left|right].
    + split_and!; [congruence|congruence|]. intros b. by rewrite Hus, Hus1.
    + rewrite Hind, Hu. split_and!; [done|done|].
      destruct Hr as (? & ? & ? & Hb). split_and!; [done..|]. intros b Hb0.
      by rewrite Hus, Hb.
  - intros b Hb. rewrite Hv2, Hv1; [done| |done]. by rewrite <- Hind.
Qed.

Lemma ext_set_ok i n e s :
  fs_ok s → ind_valid i → 0 ≤ n < KZFS_MAX_EXTENTS → extent_ok e →
  let '(rc, i', s') := ext_set_nolock i n e s in
  slot_write i s i' s' ∧
  (rc = KZFS_EOK → exts i' s' = <[Z.to_nat n := e]> (exts i s)) ∧
  (rc = KZFS_EOK ∨ rc = KZFS_EIO ∨ (rc = KZFS_ENOSPC ∧ i' = i ∧ s' = s)).
Proof.
  intros Hok Hi Hn He. unfold ext_set_nolock. change KZFS_NUM_DIRECT_EXTENTS with 4.
  unfold KZFS_MAX_EXTENTS in Hn. pose proof Hi as [Hd Hlim].
  destruct (Z.ltb_spec n 4) as [H4|H4].
  { split_and!; [|intros _|by left].
    - split; [done|reflexivity| |simpl; by rewrite length_insert|by left|by intros b _].
      by eexists _, _, _, _.
    - unfold exts. simpl. rewrite insert_app_l by lia. done. }
  destruct (Z.leb_spec KZFS_EXTS_PER_IND_BLOCK (n - 4)) as [Hk|Hk];
    [unfold KZFS_EXTS_PER_IND_BLOCK in Hk; lia|].
  pose proof (need_indirect_ok i s Hok Hi) as Hni.
  destruct (need_indirect i s) as [[[rc i1] s1]|[i1 s1]].
  { destruct Hni as [Hw Hrc]. split_and!; [done|intros ->|].
    - by destruct Hrc as [?|[? _]].
    - tauto. }
  destruct Hni as (Hw & Hex & Hne & Hi1).
  pose proof (ind_write_ok i1 s1 (n - 4) e (sw_ok _ _ _ _ Hw) Hi1 Hne ltac:(lia) He) as Hm.
  destruct (io_modify _ _ (dev s1)) as [r d]. destruct Hm as [Hw2 Hx].
  assert (Hw' : slot_write i s i1 (set_dev d s1)) by (by eapply slot_write_then).
  destruct r.
  - split_and!; [done|intros _|by left]. rewrite Hx, Hex by done. f_equal. lia.
  - split_and!; [done|done|by right; left].
Qed.

(** ** Appending *)

(** What [ext_append_nolock] does to the extents: the run extends the first extent that
    it follows on disk, or becomes a new last extent. *)
Definition appended l (start count : Z) : list extent :=
  match list_find (λ e, start_block e + block_count e = start) l with
  | Some (j, e) => <[j := mkExt (start_block e) (block_count e + count)]> l
  | None => l ++ [mkExt start count]
  end.

Lemma live_insert i s i' s' l j e e' :
  live i s l → l !! j = Some e → 0 < block_count e' →
  exts i' s' = <[j := e']> (exts i s) → live i' s' (<[j := e']> l).
Proof.
  intros [Hp (z & Hz & Hzero)] Hj He' Hx. split; [by apply Forall_insert|].
  exists z. rewrite Hx, Hz. split; [|done]. apply insert_app_l. by apply lookup_lt_Some in Hj.
Qed.

Lemma live_snoc i s i' s' l e0 e' :
  live i s l → exts i s !! length l = Some e0 → 0 < block_count e' →
  exts i' s' = <[length l := e']> (exts i s) → live i' s' (l ++ [e']).
Proof.
  intros [Hp (z & Hz & Hzero)] Hl He' Hx. split; [apply Forall_app; auto|].
  rewrite Hz in Hl. rewrite lookup_app_r, Nat.sub_diag in Hl by lia.
  destruct z as [|z0 z]; [done|]. apply Forall_cons in Hzero as [_ Hzero].
  exists z. split; [|done]. rewrite Hx, Hz.
  replace (length l) with (length l + 0)%nat by lia.
  rewrite insert_app_r, <- app_assoc. done.
Qed.

Lemma appended_merge l n e start count :
  l !! n = Some e → start_block e + block_count e = start →
  Forall (λ e, start_block e + block_count e ≠ start) (take n l) →
  appended l start count = <[n := mkExt (start_block e) (block_count e + count)]> l.
Proof.
  intros Hn He Hf. unfold appended.
  assert (list_find (λ e, start_block e + block_count e = start) l = Some (n, e)) as ->; [|done].
  apply list_find_Some. split_and!; [done|done|]. intros j y Hj Hlt.
  apply (Forall_lookup_1 _ _ j y Hf). by rewrite lookup_take_lt.
Qed.

Lemma appended_new l start count :
  Forall (λ e, start_block e + block_count e ≠ start) l →
  appended l start count = l ++ [mkExt start count].
Proof.
  intros Hf. unfold appended.
  by assert (list_find (λ e, start_block e + block_count e = start) l = None) as ->
    by (by apply list_find_None).
Qed.

(** The outcome of an append. *)
Definition append_post i s l (start count : Z) (r : Z * inode_mem * fs S) : Prop :=
  let '(rc, i', s') := r in
  slot_write i s i' s' ∧ (rc = KZFS_EOK → live i' s' (appended l start count)) ∧
  (rc = KZFS_EOK ∨ rc = KZFS_EIO ∨ (i' = i ∧ reads s s')).

Lemma append_step_ok i s l start count n s1 :
  fs_ok s → inode_wf i s l → 0 < count → data_start s ≤ start →
  start + count ≤ total_blocks (sb_cache s) → 0 ≤ n < KZFS_MAX_EXTENTS →
  reads s s1 → n ≤ zlength l →
  Forall (λ e, start_block e + block_count e ≠ start) (take (Z.to_nat n) l) →
  match append_step i start count n s1 with
  | inl r => append_post i s l start count r
  | inr s' => reads s s' ∧ n + 1 ≤ zlength l ∧
      Forall (λ e, start_block e + block_count e ≠ start) (take (Z.to_nat (n + 1)) l)
  end.
Proof.
  intros Hok Hw Hc Hs Ht Hn Hr Hnl Hf. unfold append_step. pose proof Hok as [Hio0 Hba].
  pose proof (wf_ind_valid i s l Hba Hw) as Hi.
  pose proof (ba_limit s Hba) as [Hlim _]. pose proof (ba_range s Hba) as Hrg.
  pose proof (ext_get_ok i n s1 Hi (reads_ok _ _ Hr Hio0) Hn) as Hg.
  destruct (ext_get_nolock i n s1) as [[rc|e] s2]; destruct Hg as [Hr2 Hg];
    (assert (Hr' : reads s s2) by (by etrans)).
  { split_and!; [by apply slot_write_refl|done|by right; left]. }
  rewrite (reads_exts i s s1 Hr) in Hg.
  assert (Hok2 := reads_fs_ok s s2 Hr' Hok).
  assert (Hset : ∀ e', extent_ok e' → ∀ rc i' s', ext_set_nolock i n e' s2 = (rc, i', s') →
    slot_write i s i' s' ∧ (rc = KZFS_EOK → exts i' s' = <[Z.to_nat n := e']> (exts i s)) ∧
    (rc = KZFS_EOK ∨ rc = KZFS_EIO ∨ (i' = i ∧ reads s s'))).
  { intros e' He' rc i' s' E. pose proof (ext_set_ok i n e' s2 Hok2 Hi Hn He') as Hx.
    rewrite E in Hx. destruct Hx as (Hsw & Hx & Hrc).
    split_and!; [by eapply slot_write_reads| |].
    - intros Hrc0. by rewrite Hx, (reads_exts i s s2 Hr') by done.
    - destruct Hrc as [?|[?|(_ & -> & ->)]]; auto. }
  destruct (live_slot i s l _ e (iw_live _ _ _ Hw) Hg) as [(Hlt & He & Hcnt)|[Hge Hz]].
  - destruct (wf_extent i s l e Hw) as (_ & Hes & Het); [by eapply list_elem_of_lookup_2|].
    destruct (Z.eqb_spec (block_count e) 0); [lia|]. rewrite u64_id by lia.
    destruct (Z.eqb_spec (start_block e + block_count e) start) as [Heq|Hne].
    + rewrite u32_id by lia.
      destruct (ext_set_nolock i n (mkExt _ (_ + count)) s2) as [[rc i'] s'] eqn:E.
      apply Hset in E as (Hsw & Hx & Hrc); [|split; [unfold is_u64|unfold is_u32]; simpl; lia].
      split_and!; [done|intros Hrc0|done].
      rewrite (appended_merge l _ e start count He Heq Hf).
      eapply (live_insert i s); [apply Hw|done|simpl; lia|auto].
    + split_and!; [done|unfold zlength; lia|].
      replace (Z.to_nat (n + 1)) with (Datatypes.S (Z.to_nat n)) by lia.
      rewrite (take_S_r l _ e He). apply Forall_app; auto.
  - destruct (Z.eqb_spec (block_count e) 0); [|lia].
    assert (Hnl' : Z.to_nat n = length l) by (unfold zlength in Hnl; lia).
    destruct (ext_set_nolock i n (mkExt start count) s2) as [[rc i'] s'] eqn:E.
    apply Hset in E as (Hsw & Hx & Hrc); [|split; [unfold is_u64|unfold is_u32]; simpl; lia].
    split_and!; [done|intros Hrc0|done]. rewrite take_ge in Hf by lia.
    rewrite (appended_new l start count Hf). rewrite Hnl' in *.
    eapply (live_snoc i s); [apply Hw|done|simpl; lia|auto].
Qed.

Lemma ext_append_ok i s l start count :
  fs_ok s → inode_wf i s l → 0 < count → data_start s ≤ start →
  start + count ≤ total_blocks (sb_cache s) →
  append_post i s l start count (ext_append_nolock i start count s).
Proof.
  intros Hok Hw Hc Hs Ht. unfold ext_append_nolock.
  opose proof* (for_range_rule
    (λ n s1, 0 ≤ n ∧ reads s s1 ∧ n ≤ zlength l ∧
       Forall (λ e, start_block e + block_count e ≠ start) (take (Z.to_nat n) l))
    (append_post i s l start count) 0 KZFS_MAX_EXTENTS (append_step i start count) s) as Hr.
  - split_and!; [done|reflexivity|unfold zlength; lia|done].
  - intros n s1 Hn (_ & Hr & Hnl & Hf).
    pose proof (append_step_ok i s l start count n s1 Hok Hw Hc Hs Ht Hn Hr Hnl Hf) as Hstep.
    destruct (append_step i start count n s1); [done|]. split; [lia|done].
  - destruct (for_range _ _ _ _) as [r|s1]; [done|]. destruct Hr as (_ & Hr & _).
    split_and!; [|done|by right; right].
    apply slot_write_refl; [done| |done]. destruct Hok. by eapply wf_ind_valid.
Qed.

(** ** Ownership across changes *)

(** [s'] is well formed, and every block in use outside [P] is still in use and has its
    contents. *)
Definition keeps (P : Z → Prop) s s' : Prop :=
  fs_ok s' ∧ same_env s s' ∧
  ∀ b, 0 ≤ b → used s b = true → ¬ P b →
    used s' b = true ∧ io_view (dev s') b = io_view (dev s) b.

Lemma keeps_refl P s s' : fs_ok s → reads s s' → keeps P s s'.
Proof.
  intros Hok Hr. split_and!; [by apply (reads_fs_ok s)|by apply reads_env|].
  destruct Hr as (d & -> & _ & Hv). intros b _ Hb _. split; [done|apply Hv].
Qed.

Lemma keeps_trans (P Q : Z → Prop) s s1 s2 :
  keeps P s s1 → keeps Q s1 s2 → (∀ b, used s b = true → Q b → P b) → keeps P s s2.
Proof.
  intros (_ & He1 & Hk1) (Hok2 & He2 & Hk2) HQ. split_and!; [done|by etrans|].
  intros b Hb Hu HP. destruct (Hk1 b Hb Hu HP) as [Hu1 Hv1].
  destruct (Hk2 b Hb Hu1) as [Hu2 Hv2]; [by intros ?%HQ|]. split; [done|congruence].
Qed.

Lemma keeps_weaken (P Q : Z → Prop) s s' : (∀ b, Q b → P b) → keeps Q s s' → keeps P s s'.
Proof. intros HQ (? & ? & Hk). split_and!; [done..|]. intros b ? ? ?. apply Hk; auto. Qed.

Definition is_indirect i (b : Z) : Prop := b = indirect_extent_block i ∧ b ≠ 0.

Lemma owned_bound i s l :
  balloc_ok s → inode_wf i s l → zlength (owned i l) < 2 ^ 32.
Proof.
  intros Hb [_ _ Hnd Hr _ _].
  assert (Hsub : owned i l ⊆+ seqZ 0 (total_blocks (sb_cache s))).
  { apply NoDup_submseteq; [done|]. intros b Hin. rewrite Forall_forall in Hr.
    destruct (data_block_bounds s b Hb (Hr b Hin)) as [? _]. destruct (Hr b Hin).
    apply elem_of_seqZ. lia. }
  apply submseteq_length in Hsub. rewrite length_seqZ in Hsub.
  destruct Hb as [? ? ? [? ?] ? ?]. unfold zlength. lia.
Qed.

Lemma appended_perm l start count :
  Forall (λ e, 0 < block_count e) l → 0 < count →
  blocks (appended l start count) ≡ₚ blocks l ++ seqZ start count.
Proof.
  intros Hp Hc. unfold appended. destruct (list_find _ l) as [[j e]|] eqn:E.
  - apply list_find_Some in E as (Hj & He & _).
    pose proof (Forall_lookup_1 _ _ _ _ Hp Hj) as Hpe. simpl in Hpe.
    assert (Hl : l = take j l ++ e :: drop (Datatypes.S j) l) by (by rewrite take_drop_middle).
    rewrite (insert_take_drop l j) by (by apply lookup_lt_Some in Hj).
    rewrite Hl at 3. rewrite !blocks_app, !blocks_cons. simpl.
    rewrite seqZ_cat, He by lia. solve_Permutation.
  - by rewrite blocks_app, blocks_cons, app_nil_r.
Qed.

(** Allocation keeps an inode well formed and gives blocks it does not own. *)
Lemma wf_alloc i s l start n s1 :
  balloc_ok s → inode_wf i s l → run_taken s start n s1 → same_env s s1 → dev s1 = dev s →
  inode_wf i s1 l ∧ (∀ b, b ∈ seqZ start n → b ∉ owned i l).
Proof.
  intros Hb [[Hp (z & Hz & Hzero)] Hd Hnd Hr Hu Hc] (Hlo & Hhi & Hfree & Hus) He Hdev.
  destruct (same_env_proj s s1 He) as (Ht & Hds & _). split.
  - split; [|done|done| | |done].
    + split; [done|]. exists z. split; [|done]. unfold exts in *. by rewrite Hdev.
    + apply (Forall_impl _ _ _ Hr). intros b [? ?]. split; [by rewrite Hds|by rewrite Ht].
    + rewrite Forall_forall in Hu, Hr |- *. intros b Hin.
      destruct (data_block_bounds s b Hb (Hr b Hin)) as [? _].
      rewrite Hus, (Hu b Hin) by lia. apply orb_true_r.
  - intros b Hin%elem_of_seqZ Hown. rewrite Forall_forall in Hu.
    specialize (Hu b Hown). unfold used in Hu. by rewrite Hfree in Hu by lia.
Qed.

(** The inode [i'] extends [i]: it owns the blocks of [i] and some that were free. *)
Definition fresh s (b : Z) : Prop := 0 ≤ b ∧ used s b = false.

Record grew i l s i' l' s' : Prop := {
  gr_keeps : keeps (is_indirect i) s s';
  gr_mono b : 0 ≤ b → used s b = true → used s' b = true;
  gr_wf : inode_wf i' s' l';
  gr_own b : b ∈ owned i' l' → b ∈ owned i l ∨ fresh s b;
  gr_new b : is_indirect i' b → is_indirect i b ∨ fresh s b;
  gr_inode : ∃ u dr ind dt, i' = mkIno (ino i) (mode i) (links_count i) (size_bytes i) u dr
                                   ind dt (i_refcount i);
}.

Lemma grew_refl i l s s' : fs_ok s → inode_wf i s l → reads s s' → grew i l s i l s'.
Proof.
  intros Hok Hw Hr. split; [by apply keeps_refl| |by apply (reads_wf i s)|auto|auto|].
  - by destruct Hr as (d & -> & _).
  - exists (blocks_used i), (direct i), (indirect_extent_block i), (i_dirty i). by destruct i.
Qed.

Lemma grew_trans i l s i1 l1 s1 i2 l2 s2 :
  grew i l s i1 l1 s1 → grew i1 l1 s1 i2 l2 s2 → grew i l s i2 l2 s2.
Proof.
  intros [Hk1 Hm1 Hw1 Ho1 Hn1 (u1 & dr1 & in1 & d1 & E1)]
         [Hk2 Hm2 Hw2 Ho2 Hn2 (u2 & dr2 & in2 & d2 & E2)].
  assert (Hfresh : ∀ b, fresh s1 b → fresh s b).
  { intros b [H0 Hb]. split; [done|]. destruct (used s b) eqn:E; [|done].
    by rewrite (Hm1 b H0 E) in Hb. }
  split; [|auto|done| | |].
  - eapply keeps_trans; [exact Hk1|exact Hk2|]. intros b Hu Hind.
    destruct (Hn1 b Hind) as [?|[_ ?]]; [done|congruence].
  - intros b Hb. destruct (Ho2 b Hb) as [?|?]; auto.
  - intros b Hb. destruct (Hn2 b Hb) as [?|?]; auto.
  - exists u2, dr2, in2, d2. by rewrite E2, E1.
Qed.

(** ** Growing *)

(** The state after [blk_alloc_run_nolock] took a run. *)
Record took s (start n : Z) s1 : Prop := {
  tk_pos : 0 < n;
  tk_run : run_taken s start n s1;
  tk_env : same_env s s1;
  tk_dev : dev s1 = dev s;
  tk_ok : balloc_ok s1;
}.

Lemma took_fs_ok s start n s1 : fs_ok s → took s start n s1 → fs_ok s1.
Proof. intros [Ho _] Ht. split; [by rewrite (tk_dev _ _ _ _ Ht)|apply Ht]. Qed.

Lemma took_mono s start n s1 b : took s start n s1 → 0 ≤ b → used s b = true → used s1 b = true.
Proof. intros [_ (_ & _ & _ & Hu) _ _ _] Hb Hus. rewrite Hu, Hus by done. apply orb_true_r. Qed.

Lemma took_run_used s start n s1 b :
  balloc_ok s → took s start n s1 → b ∈ seqZ start n → used s b = false ∧ used s1 b = true.
Proof.
  intros Hb [_ (Hlo & Hhi & Hf & Hu) _ _ _] Hin%elem_of_seqZ.
  destruct Hb as [? ? ? ? ? ?]. split; [apply Hf; lia|].
  rewrite Hu by lia. by rewrite bool_decide_eq_true_2 by lia.
Qed.

Lemma slot_write_mono i s i' s' b :
  slot_write i s i' s' → 0 ≤ b → used s b = true → used s' b = true.
Proof.
  intros [_ _ _ _ [(_ & _ & Hu)|(_ & _ & (_ & _ & _ & Hu))] _] Hb Hus.
  - by rewrite Hu.
  - rewrite Hu, Hus by done. apply orb_true_r.
Qed.

(** A slot write on top of an allocation changes no used block but the indirect one. *)
Lemma slot_write_keeps i s start n s1 i1 s2 :
  fs_ok s → took s start n s1 → slot_write i s1 i1 s2 → keeps (is_indirect i) s s2.
Proof.
  intros Hok Ht Hw. split_and!; [apply Hw|etrans; [apply Ht|apply Hw]|].
  intros b Hb Hu Hind. pose proof (took_mono _ _ _ _ b Ht Hb Hu) as Hu1.
  split; [by eapply slot_write_mono|].
  rewrite (sw_view _ _ _ _ Hw), (tk_dev _ _ _ _ Ht); [done|].
  destruct (sw_ind _ _ _ _ Hw) as [(Hi & _ & _)|(_ & _ & (Hlo & _ & Hf & _))].
  - destruct (Z.eq_dec (indirect_extent_block i1) 0) as [?|Hne]; [by left|right].
    intros Heq. apply Hind. split; congruence.
  - right. intros ->. unfold used in Hu1. rewrite Hf in Hu1 by lia. done.
Qed.

(** The blocks owned after a successful append. *)
Lemma append_owned i l s start n s1 i1 s2 :
  fs_ok s → inode_wf i s l → took s start n s1 → slot_write i s1 i1 s2 →
  ∃ x, owned i1 (appended l start n) ≡ₚ owned i l ++ seqZ start n ++ x ∧
       blocks_used i1 = u64 (blocks_used i + zlength x) ∧ NoDup x ∧
       ∀ b, b ∈ x → is_indirect i1 b ∧ data_block s b ∧ used s1 b = false ∧ used s2 b = true.
Proof.
  intros [Hio0 Hba] Hw Ht Hsw. pose proof (appended_perm l start n (proj1 (iw_live _ _ _ Hw))
    (tk_pos _ _ _ _ Ht)) as Hp.
  pose proof (owned_bound i s l Hba Hw) as Hob. pose proof (iw_count _ _ _ Hw) as Hcnt.
  assert (0 ≤ zlength (owned i l)) by (unfold zlength; lia).
  destruct (sw_ind _ _ _ _ Hsw) as [(Hi & Hu & _)|(Hi & Hu & (Hlo & Hhi & Hf & Hus))].
  - exists []. split_and!; [| |constructor|by intros b ?%elem_of_nil].
    + unfold owned. rewrite Hi, Hp, app_nil_r. solve_Permutation.
    + rewrite Hu. unfold zlength at 1. simpl. rewrite u64_id by lia. lia.
  - destruct (same_env_proj s s1 (tk_env _ _ _ _ Ht)) as (Htot & Hds & _).
    assert (Hd : data_block s (indirect_extent_block i1)) by (split; lia).
    destruct (data_block_bounds s _ Hba Hd) as [Hpos _].
    exists [indirect_extent_block i1]. split_and!; [|done|apply NoDup_singleton|].
    + unfold owned. rewrite Hi, Hp. simpl.
      destruct (Z.eqb_spec (indirect_extent_block i1) 0); [lia|]. solve_Permutation.
    + intros b ->%list_elem_of_singleton. split_and!; [split; [done|lia]|done|apply Hf; lia|].
      rewrite Hus by lia. by rewrite bool_decide_eq_true_2 by lia.
Qed.

Lemma append_grew i l s start n s1 i1 s2 :
  fs_ok s → inode_wf i s l → took s start n s1 → slot_write i s1 i1 s2 →
  live i1 s2 (appended l start n) →
  grew i l s (i_set_dirty true (i_set_used (u64 (blocks_used i1 + n)) i1))
       (appended l start n) s2.
Proof.
  intros Hok Hw Ht Hsw Hlive. pose proof Hok as [_ Hba].
  destruct (append_owned i l s start n s1 i1 s2 Hok Hw Ht Hsw) as (x & Hperm & Hbu & Hndx & Hx).
  destruct (wf_alloc i s l start n s1 Hba Hw (tk_run _ _ _ _ Ht) (tk_env _ _ _ _ Ht)
              (tk_dev _ _ _ _ Ht)) as [Hw1 Hrun].
  assert (Henv : same_env s s2) by (etrans; [apply Ht|apply Hsw]).
  destruct (same_env_proj s s2 Henv) as (Htot & Hds & _).
  pose proof (iw_range _ _ _ Hw) as Hr. pose proof (iw_used _ _ _ Hw1) as Hu1.
  rewrite Forall_forall in Hr, Hu1.
  assert (Hdb : ∀ b, b ∈ owned i1 (appended l start n) →
    data_block s b ∧ used s2 b = true ∧ (b ∈ owned i l ∨ used s b = false)).
  { intros b Hb. rewrite Hperm, !elem_of_app in Hb. destruct Hb as [Hb|[Hb|Hb]].
    - destruct (data_block_bounds s b Hba (Hr b Hb)). split_and!; [auto| |by left].
      eapply slot_write_mono; [done|lia|auto].
    - destruct (took_run_used s start n s1 b Hba Ht Hb) as [? ?].
      destruct (tk_run _ _ _ _ Ht) as (? & ? & _). apply elem_of_seqZ in Hb.
      assert (data_block s b) as Hdb by (split; lia).
      destruct (data_block_bounds s b Hba Hdb).
      split_and!; [done|eapply slot_write_mono; [done|lia|done]|by right].
    - destruct (Hx b Hb) as (_ & Hd & Hf & Hu). destruct (data_block_bounds s b Hba Hd).
      split_and!; [done|done|right]. destruct (used s b) eqn:E; [|done].
      by rewrite (took_mono _ _ _ _ b Ht ltac:(lia) E) in Hf. }
  split; [by eapply slot_write_keeps| | | | |].
  - intros b Hb Hu. eapply slot_write_mono; [done..|]. by eapply took_mono.
  - assert (Hnd : NoDup (owned i1 (appended l start n))).
    { rewrite Hperm. apply NoDup_app. split_and!; [apply Hw| |apply NoDup_app; split_and!].
      - intros b Hb. rewrite elem_of_app. intros [Hb'|Hb']; [by apply (Hrun b)|].
        destruct (Hx b Hb') as (_ & _ & Hf & _). by rewrite (Hu1 b Hb) in Hf.
      - apply NoDup_seqZ.
      - intros b Hb Hb'. destruct (Hx b Hb') as (_ & _ & Hf & _).
        destruct (took_run_used s start n s1 b Hba Ht Hb). congruence.
      - done. }
    assert (Hw2 : inode_wf (i_set_used (zlength (owned i1 (appended l start n))) i1) s2
                    (appended l start n)).
    { split; [done|apply Hsw|done| | |done]; apply Forall_forall; intros b Hb;
        destruct (Hdb b Hb) as ([? ?] & ? & _); [split; lia|done]. }
    pose proof (owned_bound _ s2 _ (proj2 (sw_ok _ _ _ _ Hsw)) Hw2) as Hob.
    change (owned (i_set_used _ i1) ?x) with (owned i1 x) in Hob.
    assert (Hlen : zlength (owned i1 (appended l start n)) =
                   zlength (owned i l) + n + zlength x).
    { unfold zlength. rewrite Hperm, !length_app, length_seqZ.
      pose proof (tk_pos _ _ _ _ Ht). lia. }
    pose proof (tk_pos _ _ _ _ Ht).
    assert (0 ≤ zlength x ∧ 0 ≤ zlength (owned i l)) by (unfold zlength; lia).
    destruct Hw2 as [? ? ? ? ? _]. split; [done..|]. simpl.
    change (owned (i_set_dirty true _) ?x) with (owned i1 x).
    rewrite Hbu, (iw_count _ _ _ Hw), Hlen, !u64_id by (rewrite ?u64_id by lia; lia). lia.
  - intros b Hb. destruct (Hdb b Hb) as (Hd & _ & [?|?]); [by left|right].
    destruct (data_block_bounds s b Hba Hd). split; [lia|done].
  - intros b [Hb Hb0]. simpl in Hb.
    destruct (sw_ind _ _ _ _ Hsw) as [(Hi & _)|(Hi & _ & (Hlo & Hhi & Hf & _))].
    + left. split; congruence.
    + right. subst b.
      assert (Hd1 : data_block s1 (indirect_extent_block i1)) by (split; lia).
      destruct (data_block_bounds s1 _ (tk_ok _ _ _ _ Ht) Hd1). split; [lia|].
      destruct (used s (indirect_extent_block i1)) eqn:E; [|done].
      apply (took_mono _ _ _ _ _ Ht) in E; [|lia].
      unfold used in E. by rewrite Hf in E by lia.
  - destruct (sw_inode _ _ _ _ Hsw) as (u & dr & ind & dt & ->). by eexists _, _, _, _.
Qed.

(** A failed append: the run is given back. *)
Lemma append_failed i l s start n s1 i1 s2 :
  fs_ok s → inode_wf i s l → took s start n s1 → slot_write i s1 i1 s2 →
  let s3 := blk_free_run_nolock start n s2 in
  keeps (is_indirect i) s s3 ∧ (i1 = i ∧ reads s1 s2 → grew i l s i l s3).
Proof.
  intros Hok Hw Ht Hsw s3. pose proof Hok as [_ Hba].
  destruct (slot_write_keeps i s start n s1 i1 s2 Hok Ht Hsw) as (Hok2 & Henv & Hk).
  destruct (same_env_proj s s2 Henv) as (Htot & Hds & _).
  pose proof (tk_run _ _ _ _ Ht) as (Hlo & Hhi & _). pose proof (tk_pos _ _ _ _ Ht).
  destruct (blk_free_ok start n s2 (proj2 Hok2)) as (Hba3 & Henv3 & Hdev3 & Hus3); [lia..|].
  fold s3 in Hba3, Henv3, Hdev3, Hus3. clearbody s3.
  assert (Hmono : ∀ b, 0 ≤ b → used s b = true → used s2 b = true → used s3 b = true).
  { intros b Hb Hu Hu2. rewrite Hus3, Hu2 by done.
    rewrite bool_decide_eq_false_2; [done|]. intros Hin.
    destruct (took_run_used s start n s1 b Hba Ht) as [? _]; [apply elem_of_seqZ; lia|].
    congruence. }
  assert (Hk3 : keeps (is_indirect i) s s3).
  { split_and!; [split; [rewrite Hdev3; apply Hok2|done]|by etrans|].
    intros b Hb Hu Hind. destruct (Hk b Hb Hu Hind) as [Hu2 Hv]. split; [auto|].
    by rewrite Hdev3. }
  split; [done|]. intros [-> Hr].
  assert (Hm : ∀ b, 0 ≤ b → used s b = true → used s3 b = true).
  { intros b Hb Hu. apply Hmono; [done..|]. eapply slot_write_mono; [done..|].
    by eapply took_mono. }
  split; [done|done| |auto|auto|].
  - destruct Hw as [[Hp (z & Hz & Hzero)] Hd Hnd Hrg Hu Hc].
    destruct (same_env_proj s2 s3 Henv3) as (Htot3 & Hds3 & _).
    split; [|done|done| | |done].
    + split; [done|]. exists z. split; [|done]. rewrite <- Hz. unfold exts. rewrite Hdev3.
      destruct Hr as (d & -> & _ & Hv). simpl. by rewrite Hv, (tk_dev _ _ _ _ Ht).
    + apply (Forall_impl _ _ _ Hrg). intros b [? ?]. split; lia.
    + rewrite Forall_forall in Hu, Hrg |- *. intros b Hb.
      destruct (data_block_bounds s b Hba (Hrg b Hb)). apply Hm; [lia|auto].
  - exists (blocks_used i), (direct i), (indirect_extent_block i), (i_dirty i). by destruct i.
Qed.

Lemma alloc_took want s start n s1 :
  balloc_ok s → 0 < want → blk_alloc_run_nolock want s = (start, n, s1) →
  if start =? 0 then n = 0 ∧ s1 = s ∧ (∀ b, data_block s b → used s b = true)
  else took s start n s1 ∧ n ≤ want ∧
       (n < want → ∀ a k, data_start s ≤ a → a + k ≤ total_blocks (sb_cache s) →
          all_free (bm_mem s) a (a + k) → k ≤ n).
Proof.
  intros Hb Hw E. pose proof (blk_alloc_ok want s Hb ltac:(lia)) as Ha. rewrite E in Ha.
  destruct Ha as (Hb1 & Henv & Hdev & Hn & Hmax & Hr).
  destruct (decide (n = 0)) as [->|Hn0].
  - destruct Hr as [-> ->]. simpl. split_and!; [done|done|]. intros b Hd.
    destruct (used s b) eqn:Eu; [done|]. destruct Hd as [? ?].
    enough (1 ≤ 0) by lia. apply (Hmax ltac:(lia) b); [lia|lia|].
    intros j Hj. replace j with b by lia. done.
  - pose proof Hr as (Hlo & _). pose proof (ba_range s Hb).
    destruct (Z.eqb_spec start 0); [lia|]. split_and!; [|lia|done]. split; [lia|done..].
Qed.

(** The loop of [grow_to_nolock].  Whatever happens no block that was in use changes,
    the inode's own indirect block excepted; unless a transfer failed the inode is well
    formed, and on success it covers the logical block. *)
Definition grow_post i l s (lb : Z) (r : Z * inode_mem * fs S) : Prop :=
  let '(rc, i', s') := r in
  keeps (is_indirect i) s s' ∧
  (rc ≠ KZFS_EIO → ∃ l', grew i l s i' l' s' ∧ (rc = KZFS_EOK → lb < extent_total l')).

Lemma appended_total l start n :
  Forall (λ e, 0 < block_count e) l → 0 < n →
  extent_total (appended l start n) = extent_total l + n ∧
  Forall (λ e, 0 < block_count e) (appended l start n).
Proof.
  intros Hp Hn. assert (Hp' : Forall (λ e, 0 < block_count e) (appended l start n)).
  { unfold appended. destruct (list_find _ l) as [[j e]|] eqn:E.
    - apply list_find_Some in E as (Hj & _).
      pose proof (Forall_lookup_1 _ _ _ _ Hp Hj) as He. simpl in He.
      apply Forall_insert; [done|]. simpl. lia.
    - apply Forall_app; auto. }
  split; [|done]. rewrite <- !blocks_length by done. unfold zlength.
  rewrite (appended_perm l start n Hp Hn), length_app, length_seqZ. lia.
Qed.

Lemma grow_loop_ok fuel lb i s l cursor :
  fs_ok s → inode_wf i s l → cursor = extent_total l → lb - cursor < Z.of_nat fuel →
  grow_post i l s lb (grow_loop fuel lb cursor i s).
Proof.
  revert i s l cursor. induction fuel as [|fuel IH]; intros i s l cursor Hok Hw Hc Hf; simpl.
  { destruct (Z.ltb_spec lb cursor); [|lia]. split; [apply keeps_refl; [done|reflexivity]|].
    intros _. exists l. split; [apply grew_refl; [done..|reflexivity]|lia]. }
  destruct (Z.ltb_spec lb cursor) as [Hlb|Hlb].
  { split; [apply keeps_refl; [done|reflexivity]|].
    intros _. exists l. split; [apply grew_refl; [done..|reflexivity]|lia]. }
  set (want := if 64 <? _ then 64 else _).
  assert (Hwant : 0 < want) by (subst want; zcase; lia). clearbody want.
  pose proof Hok as [_ Hba].
  destruct (blk_alloc_run_nolock want s) as [[start got] s1] eqn:Ea.
  apply alloc_took in Ea; [|done..].
  destruct (start =? 0) eqn:Es.
  { destruct Ea as (_ & -> & _). split; [apply keeps_refl; [done|reflexivity]|].
    intros _. exists l. split; [apply grew_refl; [done..|reflexivity]|done]. }
  destruct Ea as (Ht & _ & _).
  destruct (wf_alloc i s l start got s1 Hba Hw (tk_run _ _ _ _ Ht) (tk_env _ _ _ _ Ht)
              (tk_dev _ _ _ _ Ht)) as [Hw1 _].
  pose proof (tk_run _ _ _ _ Ht) as (Hlo & Hhi & _). pose proof (tk_pos _ _ _ _ Ht) as Hgot.
  destruct (same_env_proj s s1 (tk_env _ _ _ _ Ht)) as (Htot & Hds & _).
  pose proof (ext_append_ok i s1 l start got (took_fs_ok _ _ _ _ Hok Ht) Hw1 Hgot
    ltac:(lia) ltac:(lia)) as Hap.
  destruct (ext_append_nolock i start got s1) as [[rc i1] s2].
  destruct Hap as (Hsw & Hlive & Hrc). destruct (Z.eqb_spec rc KZFS_EOK) as [->|Hne]; simpl.
  - specialize (Hlive eq_refl).
    pose proof (append_grew i l s start got s1 i1 s2 Hok Hw Ht Hsw Hlive) as Hg.
    set (i2 := i_set_dirty true _) in *. clearbody i2.
    destruct (appended_total l start got (proj1 (iw_live _ _ _ Hw)) Hgot) as [Htl _].
    pose proof (IH i2 s2 (appended l start got) (cursor + got) (proj1 (gr_keeps _ _ _ _ _ _ Hg))
      (gr_wf _ _ _ _ _ _ Hg) ltac:(lia) ltac:(lia)) as Hrec.
    destruct (grow_loop fuel lb (cursor + got) i2 s2) as [[rc' i'] s'].
    destruct Hrec as [Hk Hrec]. split.
    + eapply keeps_trans; [apply Hg|exact Hk|]. intros b Hu Hb.
      destruct (gr_new _ _ _ _ _ _ Hg b Hb) as [?|[_ ?]]; [done|congruence].
    + intros Hio'. destruct (Hrec Hio') as (l' & Hg' & Hcov). exists l'.
      split; [by eapply grew_trans|done].
  - destruct (append_failed i l s start got s1 i1 s2 Hok Hw Ht Hsw) as [Hk Hg].
    split; [done|]. intros Hio'. exists l. split; [|done].
    destruct Hrc as [?|[?|[-> Hr]]]; [done|done|]. by apply Hg.
Qed.

Lemma grow_to_ok i s l lb :
  fs_ok s → inode_wf i s l → grow_post i l s lb (grow_to_nolock i lb s).
Proof.
  intros Hok Hw. unfold grow_to_nolock. pose proof Hok as [Hio0 Hba].
  pose proof (cover_ok i s l (wf_ind_valid i s l Hba Hw) Hio0 (iw_live _ _ _ Hw)) as Hc.
  destruct (cover i s) as [[c|] s1]; destruct Hc as [Hr Hc].
  - subst c.
    pose proof (grow_loop_ok (Z.to_nat (lb - extent_total l + 1)) lb i s1 l (extent_total l)
      (reads_fs_ok s s1 Hr Hok) (reads_wf i s s1 l Hr Hw) eq_refl ltac:(lia)) as Hg.
    destruct (grow_loop _ lb (extent_total l) i s1) as [[rc i'] s']. destruct Hg as [Hk Hg].
    split.
    + eapply keeps_trans; [by apply keeps_refl|exact Hk|done].
    + intros Hne. destruct (Hg Hne) as (l' & Hg' & Hcov). exists l'. split; [|done].
      eapply grew_trans; [by apply grew_refl|exact Hg'].
  - split; [by apply keeps_refl|done].
Qed.

(** ** Writing: no other file is touched *)
Lemma phys_or_grow_ok i s l lb :
  fs_ok s → inode_wf i s l → 0 ≤ lb →
  match phys_or_grow i lb s with
  | inl (rc, i', s') => keeps (is_indirect i) s s' ∧
      (rc ≠ KZFS_EIO → ∃ l', grew i l s i' l' s')
  | inr (p, i', s') => ∃ l', grew i l s i' l' s' ∧ blocks l' !! Z.to_nat lb = Some p
  end.
Proof.
  intros Hok Hw Hlb. unfold phys_or_grow. pose proof Hok as [Hio0 Hba].
  pose proof (get_phys_ok i lb s l (wf_ind_valid i s l Hba Hw) Hio0 (iw_live _ _ _ Hw)
    (wf_in_u64 i s l Hba Hw) Hlb) as Hg.
  destruct (kzfs_get_phys_block i lb s) as [[p|] s1]; destruct Hg as [Hr Hp].
  { exists l. split; [by apply grew_refl|done]. }
  assert (Hok1 := reads_fs_ok s s1 Hr Hok). assert (Hw1 := reads_wf i s s1 l Hr Hw).
  assert (Hg0 : grew i l s i l s1) by (by apply grew_refl).
  pose proof (grow_to_ok i s1 l lb Hok1 Hw1) as Hgr.
  destruct (grow_to_nolock i lb s1) as [[rc i'] s']. destruct Hgr as [Hk Hgr].
  assert (Hk' : keeps (is_indirect i) s s').
  { eapply keeps_trans; [by apply keeps_refl|exact Hk|done]. }
  destruct (Z.eqb_spec rc KZFS_EOK) as [->|Hne]; simpl.
  - destruct (Hgr ltac:(done)) as (l' & Hg' & Hcov). specialize (Hcov eq_refl).
    assert (Hg2 : grew i l s i' l' s') by (by eapply grew_trans).
    pose proof (gr_wf _ _ _ _ _ _ Hg2) as Hw'. pose proof Hk' as ([Hio' Hba'] & _).
    pose proof (get_phys_ok i' lb s' l' (wf_ind_valid i' s' l' Hba' Hw') Hio'
      (iw_live _ _ _ Hw') (wf_in_u64 i' s' l' Hba' Hw') Hlb) as Hg3.
    destruct (kzfs_get_phys_block i' lb s') as [[p|] s2]; destruct Hg3 as [Hr2 Hp2].
    + exists l'. split; [|done]. eapply grew_trans; [exact Hg2|]. apply grew_refl; [done..|].
      done.
    + split; [|done]. eapply keeps_trans; [exact Hk'|apply keeps_refl; [done|exact Hr2]|].
      intros b _ Hf. exact Hf.
  - split; [done|]. intros Hio'. destruct (Hgr Hio') as (l' & Hg' & _). exists l'.
    by eapply grew_trans.
Qed.

(** Fields that play no part in the ownership of blocks. *)
Lemma wf_meta i i' s l :
  direct i' = direct i → indirect_extent_block i' = indirect_extent_block i →
  blocks_used i' = blocks_used i → inode_wf i s l → inode_wf i' s l.
Proof.
  intros Hd Hi Hb [[Hp (z & Hz & Hzero)] Hdl Hnd Hr Hu Hc].
  assert (Ho : owned i' l = owned i l) by (unfold owned; by rewrite Hi).
  split; rewrite ?Ho, ?Hd, ?Hb; try done. split; [done|]. exists z. split; [|done].
  rewrite <- Hz. unfold exts. by rewrite Hd, Hi.
Qed.

Lemma put_chunk_ok p boff chunk part s :
  fs_ok s → 0 ≤ p < io_limit → 0 ≤ boff → zlength part = chunk →
  boff + chunk ≤ KZFS_BLOCK_SIZE →
  let '(ok, d) := put_chunk p boff chunk part s in
  io_ok d ∧ if ok then view_put (dev s) d p (splice (io_view (dev s) p) boff part)
            else view_same (dev s) d.
Proof.
  intros [Hio0 _] Hp Hb Hl Hc. unfold put_chunk.
  pose proof (io_view_length (dev s) p Hio0) as Hv.
  destruct ((boff =? 0) && (chunk =? KZFS_BLOCK_SIZE)) eqn:E.
  - apply andb_prop in E as [->%Z.eqb_eq ->%Z.eqb_eq].
    assert (Hlen : length part = BLK) by (unfold zlength, KZFS_BLOCK_SIZE, BLK in *; lia).
    pose proof (io_overwrite_spec p part (dev s) Hio0 Hp Hlen) as Ho.
    destruct (io_overwrite p part (dev s)) as [ok d]. destruct Ho as [Hd Ho].
    split; [done|]. destruct ok; [|done].
    assert (splice (io_view (dev s) p) 0 part = part) as ->; [|done].
    unfold splice. rewrite drop_ge by (rewrite Hv; lia).
    change (Z.to_nat 0) with 0%nat. by rewrite take_0, app_nil_r.
  - assert (Hsp : length (splice (io_view (dev s) p) boff part) = BLK).
    { rewrite splice_length; [done|done|]. unfold zlength at 2. rewrite Hv.
      unfold KZFS_BLOCK_SIZE, BLK in *. lia. }
    pose proof (io_modify_spec p (λ b, splice b boff part) (dev s) Hio0 Hp Hsp) as Ho.
    destruct (io_modify p _ (dev s)) as [ok d]. exact Ho.
Qed.

(** Writing a block of the file's data keeps the inode well formed. *)
Lemma data_write_ok i s l p d :
  fs_ok s → inode_wf i s l → p ∈ blocks l → io_ok d →
  (∀ b, b ≠ p → io_view d b = io_view (dev s) b) →
  inode_wf i (set_dev d s) l ∧ keeps (λ b, b = p) s (set_dev d s).
Proof.
  intros Hok [[Hpos (z & Hz & Hzero)] Hd Hnd Hr Hu Hc] Hp Hdok Hv. split.
  - split; try done. split; [done|]. exists z. split; [|done]. rewrite <- Hz.
    unfold exts. simpl. destruct (Z.eqb_spec (indirect_extent_block i) 0) as [E|E]; [done|].
    rewrite Hv; [done|]. intros Heq. unfold owned in Hnd.
    destruct (Z.eqb_spec (indirect_extent_block i) 0); [done|].
    apply NoDup_app in Hnd as (_ & Hdis & _). apply (Hdis p Hp). rewrite <- Heq. by left.
  - split_and!; [by apply fs_ok_dev|apply same_env_dev|]. intros b _ Hb Hne.
    split; [done|by apply Hv].
Qed.

Definition write_post i l s (r : Z * Z * inode_mem * fs S) : Prop :=
  let '(rc, _, i', s') := r in
  keeps (λ b, b ∈ owned i l) s s' ∧
  (rc ≠ KZFS_EIO → ∃ l', inode_wf i' s' l' ∧
     ∀ b, b ∈ owned i' l' → b ∈ owned i l ∨ fresh s b).

Lemma indirect_owned i l b : is_indirect i b → b ∈ owned i l.
Proof.
  intros [-> Hb]. unfold owned. apply elem_of_app. right.
  destruct (Z.eqb_spec (indirect_extent_block i) 0); [done|by left].
Qed.

Lemma write_loop_safe fuel i s l off buf nw :
  fs_ok s → inode_wf i s l → 0 ≤ off → write_post i l s (write_loop fuel i off buf nw s).
Proof.
  revert i s l off buf nw. induction fuel as [|fuel IH]; intros i s l off buf nw Hok Hw Ho; simpl.
  { destruct (zlength buf =? 0); (split; [apply keeps_refl; [done|reflexivity]|eauto]). }
  destruct (Z.eqb_spec (zlength buf) 0) as [Hz|Hz].
  { split; [apply keeps_refl; [done|reflexivity]|eauto]. }
  assert (0 ≤ zlength buf) by (unfold zlength; lia).
  pose proof (Z.mod_pos_bound off KZFS_BLOCK_SIZE eq_refl) as Hbo.
  set (boff := off mod KZFS_BLOCK_SIZE) in *. set (chunk := if zlength buf <? _ then _ else _).
  assert (Hch : 0 ≤ chunk ≤ zlength buf ∧ boff + chunk ≤ KZFS_BLOCK_SIZE)
    by (subst chunk; zcase; lia).
  clearbody chunk boff.
  pose proof (phys_or_grow_ok i s l (off / KZFS_BLOCK_SIZE) Hok Hw
    ltac:(apply Z.div_pos; [lia|done])) as Hpg.
  destruct (phys_or_grow i _ s) as [[[rc i1] s1]|[[p i1] s1]].
  { destruct Hpg as [Hk Hg]. split.
    - eapply keeps_weaken; [|exact Hk]. intros b. apply indirect_owned.
    - intros Hne. destruct (Hg Hne) as (l' & Hg'). exists l'. split; [apply Hg'|apply Hg']. }
  destruct Hpg as (l1 & Hg & Hp). pose proof (gr_wf _ _ _ _ _ _ Hg) as Hw1.
  pose proof (gr_keeps _ _ _ _ _ _ Hg) as Hk1. pose proof (proj1 Hk1) as Hok1.
  destruct (wf_block_limit i1 s1 l1 p _ (proj2 Hok1) Hw1 Hp) as [_ Hlim].
  pose proof (put_chunk_ok p boff chunk (slice 0 chunk buf) s1 Hok1 Hlim ltac:(lia)
    ltac:(apply slice_length; lia) ltac:(lia)) as Hpc.
  destruct (put_chunk _ _ _ _ _) as [ok d].
  destruct Hpc as [Hdok Hpv].
  assert (Hin : p ∈ blocks l1) by (by eapply list_elem_of_lookup_2).
  destruct (data_write_ok i1 s1 l1 p d Hok1 Hw1 Hin Hdok) as [Hw2 Hk2].
  { intros b Hb. destruct ok; [by apply (view_put_other _ _ _ _ _ Hpv)|apply Hpv]. }
  assert (Hk3 : keeps (λ b, b ∈ owned i l) s (set_dev d s1)).
  { eapply keeps_trans; [|exact Hk2|].
    - eapply keeps_weaken; [|exact Hk1]. intros b. apply indirect_owned.
    - intros b Hu ->. destruct (gr_own _ _ _ _ _ _ Hg p) as [?|[_ ?]]; [|done|congruence].
      unfold owned. apply elem_of_app. by left. }
  destruct ok; simpl; [|by split].
  set (i2 := i_set_dirty true _).
  assert (Hw3 : inode_wf i2 (set_dev d s1) l1).
  { apply (wf_meta i1); [..|done]; subst i2; by destruct (size_bytes i1 <? _). }
  assert (Ho2 : owned i2 l1 = owned i1 l1).
  { unfold owned. subst i2. by destruct (size_bytes i1 <? _). }
  clearbody i2.
  pose proof (IH i2 (set_dev d s1) l1 (u64 (off + chunk)) (drop (Z.to_nat chunk) buf)
    (nw + chunk) (proj1 Hk2) Hw3 (proj1 (u64_range _))) as Hrec.
  destruct (write_loop fuel i2 _ _ _ _) as [[[rc n'] i'] s']. destruct Hrec as [Hk4 Hrec].
  split.
  - eapply keeps_trans; [exact Hk3|exact Hk4|]. intros b Hu Hb. rewrite Ho2 in Hb.
    destruct (gr_own _ _ _ _ _ _ Hg b Hb) as [?|[_ ?]]; [done|congruence].
  - intros Hne. destruct (Hrec Hne) as (l' & Hw' & Hown). exists l'. split; [done|].
    intros b Hb. destruct (Hown b Hb) as [Hb1|[Hb0 Hb1]].
    + rewrite Ho2 in Hb1. by apply (gr_own _ _ _ _ _ _ Hg).
    + right. split; [done|]. destruct (used s b) eqn:E; [|done].
      by rewrite (gr_mono _ _ _ _ _ _ Hg b Hb0 E : used (set_dev d s1) b = true) in Hb1.
Qed.

(** ** Writing: contents *)

(** A single block is taken from the lowest free one. *)
Lemma search_one m lo total :
  0 ≤ lo → total < 2 ^ 32 →
  let '(b, n) := search_run m 1 lo total in
  n ≠ 0 → ∀ j, lo ≤ j < b → bit_at m j = true.
Proof.
  intros Hlo Ht. unfold search_run.
  opose proof* (for_range_rule (R := run_state)
    (λ b st, let '(_, rl, _, bl) := st in
       lo ≤ b ∧ rl = 0 ∧ bl = 0 ∧ ∀ j, lo ≤ j < b → bit_at m j = true)
    (λ st, let '(_, _, bs, _) := st in ∀ j, lo ≤ j < bs → bit_at m j = true)
    lo total (run_step m 1) (0, 0, 0, 0)) as Hr.
  - split_and!; [lia|done|done|lia].
  - intros b [[[rs rl] bs] bl] Hb (Hlb & -> & -> & Hall). unfold run_step.
    rewrite bm_test_bit. destruct (bit_at m b) eqn:Eb; cbn [negb].
    + split_and!; [lia|done|done|]. intros j Hj.
      destruct (Z.eq_dec j b) as [->|]; [done|]. apply Hall. lia.
    + exact Hall.
  - destruct (for_range _ _ _ _) as [[[[? ?] bs] bl]|[[[? ?] bs] bl]]; [by intros _|].
    destruct Hr as (_ & _ & -> & _). done.
Qed.

Lemma alloc_first s start n s1 :
  balloc_ok s → blk_alloc_run_nolock 1 s = (start, n, s1) → start ≠ 0 →
  ∀ b, data_start s ≤ b < start → used s b = true.
Proof.
  intros Hb E Hs. destruct Hb as [_ _ ? [? ?] _ _].
  unfold blk_alloc_run_nolock in E. cbn [Z.eqb] in E.
  pose proof (search_one (bm_mem s) (data_start s) (total_blocks (sb_cache s))
    ltac:(lia) ltac:(lia)) as Hf.
  destruct (search_run _ _ _ _) as [bs bl]. destruct (Z.eqb_spec bl 0); [by simplify_eq|].
  injection E as <- _ _. by apply Hf.
Qed.

Definition ext_end e : Z := start_block e + block_count e.

(** No extent of the file is followed on disk by a free block, except that the block
    after the last one may be the lowest free block.  A run that is allocated next can
    then only extend the last extent. *)
Definition tidy s l : Prop :=
  ∀ j e, l !! j = Some e → data_block s (ext_end e) → used s (ext_end e) = false →
    Datatypes.S j = length l ∧ ∀ b, data_start s ≤ b < ext_end e → used s b = true.

Lemma tidy_nil s : tidy s [].
Proof. intros j e He. by rewrite lookup_nil in He. Qed.

(** Growing a tidy file by one block. *)
Lemma appended_tidy i s l start n s1 s2 :
  balloc_ok s → inode_wf i s l → tidy s l → took s start n s1 → n = 1 →
  (∀ b, data_start s ≤ b < start → used s b = true) →
  (∀ b, 0 ≤ b → used s1 b = true → used s2 b = true) → same_env s s2 →
  blocks (appended l start 1) = blocks l ++ [start] ∧ tidy s2 (appended l start 1).
Proof.
  intros Hba Hw Htidy Ht -> Hfirst Hmono Henv. pose proof (tk_run _ _ _ _ Ht) as (Hlo & Hhi & Hf & _).
  destruct (same_env_proj s s2 Henv) as (Htot & Hds & _).
  pose proof (ba_range s Hba) as Hrg.
  assert (Hstart : used s start = false) by (apply Hf; lia).
  assert (Hu2 : ∀ b, data_start s ≤ b < start + 1 → used s2 b = true).
  { intros b Hb. destruct (Z.eq_dec b start) as [->|].
    - apply Hmono; [lia|]. apply (took_run_used s start 1 s1 start Hba Ht), elem_of_seqZ. lia.
    - apply Hmono; [lia|]. eapply took_mono; [done|lia|]. apply Hfirst. lia. }
  assert (Hold : ∀ j e, l !! j = Some e → ext_end e ≠ start → data_block s2 (ext_end e) →
                 used s2 (ext_end e) = true).
  { intros j e Hj Hne Hd. assert (Hd0 : data_block s (ext_end e)) by (destruct Hd; split; lia).
    destruct (used s (ext_end e)) eqn:E.
    - destruct Hd. apply Hmono; [lia|]. eapply took_mono; [done|lia|done].
    - destruct (Htidy j e Hj Hd0 E) as [_ Hall]. exfalso.
      destruct (Z.lt_trichotomy start (ext_end e)) as [?|[?|?]]; [|lia|].
      + by rewrite Hall in Hstart by lia.
      + destruct Hd. by rewrite Hfirst in E by lia. }
  destruct (list_find (λ e, start_block e + block_count e = start) l) as [[j e]|] eqn:E.
  - assert (Happ : appended l start 1 = <[j := mkExt (start_block e) (block_count e + 1)]> l)
      by (unfold appended; by rewrite E).
    apply list_find_Some in E as (Hj & He & _).
    destruct (Htidy j e Hj) as [Hlast _]; [unfold ext_end; rewrite He; split; lia|
      unfold ext_end; by rewrite He|].
    destruct (wf_extent i s l e Hw) as (Hpe & _); [by eapply list_elem_of_lookup_2|].
    assert (Hl : l = take j l ++ [e]).
    { rewrite <- (take_drop_middle l j e Hj) at 1. f_equal. f_equal. apply drop_ge. lia. }
    assert (Happ' : appended l start 1 = take j l ++ [mkExt (start_block e) (block_count e + 1)]).
    { rewrite Happ, (insert_take_drop l j) by lia. rewrite drop_ge by lia. done. }
    rewrite Happ'. split.
    + rewrite Hl at 2. rewrite !blocks_app, !blocks_cons, !app_nil_r, <- app_assoc. f_equal.
      cbn [start_block block_count]. rewrite seqZ_cat, He by lia. done.
    + intros k x Hk Hdx Hux. rewrite length_app, length_take. cbn [length].
      apply lookup_snoc_Some in Hk as [[Hk Hx]|[Hk <-]].
      * rewrite length_take in Hk. rewrite lookup_take_lt in Hx by lia.
        destruct (Z.eq_dec (ext_end x) start) as [Hex|Hex]; [|by rewrite (Hold k x) in Hux].
        destruct (Htidy k x Hx) as [? _]; [rewrite Hex; split; lia|by rewrite Hex|]. lia.
      * rewrite length_take in Hk. split; [lia|]. intros b Hb. apply Hu2.
        unfold ext_end in Hb. cbn [start_block block_count] in Hb. lia.
  - assert (Happ : appended l start 1 = l ++ [mkExt start 1]) by (unfold appended; by rewrite E).
    apply list_find_None in E. rewrite Forall_forall in E. rewrite Happ. split.
    + by rewrite blocks_app, blocks_cons, app_nil_r.
    + intros k x Hk Hdx Hux. rewrite length_app. cbn [length].
      apply lookup_snoc_Some in Hk as [[Hk Hx]|[Hk <-]].
      * rewrite (Hold k x Hx) in Hux; [done| |done]. apply E. by eapply list_elem_of_lookup_2.
      * split; [lia|]. intros b Hb. apply Hu2. unfold ext_end in Hb.
        cbn [start_block block_count] in Hb. lia.
Qed.

Lemma reads_tidy s s' l : reads s s' → tidy s l → tidy s' l.
Proof. by intros (d & -> & _). Qed.

(** Growing by one block takes the lowest free block. *)
Lemma grow_one i s l rc i' s' :
  fs_ok s → inode_wf i s l → grow_to_nolock i (extent_total l) s = (rc, i', s') → rc = KZFS_EOK →
  ∃ start s1 s2, reads s s1 ∧ took s1 start 1 s2 ∧ (∀ b, data_start s1 ≤ b < start → used s1 b = true) ∧
    same_env s2 s' ∧ (∀ b, 0 ≤ b → used s2 b = true → used s' b = true) ∧
    grew i l s i' (appended l start 1) s'.
Proof.
  intros Hok Hw E ->. unfold grow_to_nolock in E. pose proof Hok as [Hio0 Hba].
  pose proof (cover_ok i s l (wf_ind_valid i s l Hba Hw) Hio0 (iw_live _ _ _ Hw)) as Hc.
  destruct (cover i s) as [[c|] s1]; destruct Hc as [Hr Hc]; [subst c|by simplify_eq].
  pose proof (reads_fs_ok s s1 Hr Hok) as Hok1. pose proof (reads_wf i s s1 l Hr Hw) as Hw1.
  assert (Hg0 : grew i l s i l s1) by (by apply grew_refl).
  replace (Z.to_nat (extent_total l - extent_total l + 1)) with 1%nat in E by lia.
  cbn [grow_loop] in E. rewrite Z.ltb_irrefl in E.
  replace (extent_total l - extent_total l + 1) with 1 in E by lia. cbn [Z.ltb Z.compare Pos.compare Pos.compare_cont] in E.
  destruct (blk_alloc_run_nolock 1 s1) as [[start got] s2] eqn:Ea.
  pose proof (alloc_first s1 start got s2 (proj2 Hok1) Ea) as Hfirst.
  apply alloc_took in Ea; [|apply Hok1|done].
  destruct (Z.eqb_spec start 0) as [->|Hs0]; [by simplify_eq|].
  destruct Ea as (Ht & Hle & _). pose proof (tk_pos _ _ _ _ Ht) as Hpos.
  assert (got = 1) as -> by lia.
  destruct (wf_alloc i s1 l start 1 s2 (proj2 Hok1) Hw1 (tk_run _ _ _ _ Ht) (tk_env _ _ _ _ Ht)
              (tk_dev _ _ _ _ Ht)) as [Hw2 _].
  pose proof (tk_run _ _ _ _ Ht) as (Hlo & Hhi & _).
  destruct (same_env_proj s1 s2 (tk_env _ _ _ _ Ht)) as (Htot & Hds & _).
  pose proof (ext_append_ok i s2 l start 1 (took_fs_ok _ _ _ _ Hok1 Ht) Hw2 Hpos
    ltac:(lia) ltac:(lia)) as Hap.
  destruct (ext_append_nolock i start 1 s2) as [[rc i1] s3].
  destruct Hap as (Hsw & Hlive & _). destruct (Z.eqb_spec rc KZFS_EOK) as [->|?];
    cbn [negb] in E; [|by simplify_eq].
  destruct (Z.ltb_spec (extent_total l) (extent_total l + 1)); [|lia].
  injection E as <- <-. specialize (Hlive eq_refl).
  pose proof (append_grew i l s1 start 1 s2 i1 s3 Hok1 Hw1 Ht Hsw Hlive) as Hg.
  exists start, s1, s2. split_and!; [done|done|by apply Hfirst|apply Hsw| |by eapply grew_trans].
  intros b ? ?. by eapply slot_write_mono.
Qed.

Lemma grow_to_tidy i s l lb rc i' s' :
  fs_ok s → inode_wf i s l → tidy s l → 0 ≤ lb ≤ extent_total l →
  grow_to_nolock i lb s = (rc, i', s') → rc = KZFS_EOK →
  ∃ l', grew i l s i' l' s' ∧ tidy s' l' ∧
    (l' = l ∨ (lb = extent_total l ∧ ∃ p, blocks l' = blocks l ++ [p])).
Proof.
  intros Hok Hw Htidy Hlb E Hrc. destruct (Z.eq_dec lb (extent_total l)) as [->|Hne].
  - destruct (grow_one i s l rc i' s' Hok Hw E Hrc) as (start & s1 & s2 & Hr & Ht & Hfirst & Henv & Hmono & Hg).
    destruct (appended_tidy i s1 l start 1 s2 s' (proj2 (reads_fs_ok s s1 Hr Hok)) (reads_wf i s s1 l Hr Hw)
      (reads_tidy s s1 l Hr Htidy) Ht eq_refl Hfirst Hmono) as [Hbl Htd].
    { etrans; [apply Ht|done]. }
    exists (appended l start 1). split_and!; [done|done|]. right. eauto.
  - exists l. unfold grow_to_nolock in E. pose proof Hok as [Hio0 Hba].
    pose proof (cover_ok i s l (wf_ind_valid i s l Hba Hw) Hio0 (iw_live _ _ _ Hw)) as Hc.
    destruct (cover i s) as [[c|] s1]; destruct Hc as [Hr Hc]; [subst c|by simplify_eq].
    assert (Hg0 : grew i l s i l s1) by (by apply grew_refl).
    pose proof (reads_tidy s s1 l Hr Htidy) as Ht1.
    destruct (Z.to_nat (lb - extent_total l + 1)); simpl in E;
      (destruct (Z.ltb_spec lb (extent_total l)); [|lia]); simplify_eq; auto.
Qed.

(** When every read succeeds the translation is total on the mapped blocks. *)
Lemma get_phys_total i lb s l :
  reads_succeed → fs_ok s → inode_wf i s l → 0 ≤ lb →
  (kzfs_get_phys_block i lb s).1 = blocks l !! Z.to_nat lb.
Proof.
  intros Hrd [Hio0 Hba] Hw Hlb.
  pose proof (get_phys_ok i lb s l (wf_ind_valid i s l Hba Hw) Hio0 (iw_live _ _ _ Hw)
    (wf_in_u64 i s l Hba Hw) Hlb) as Hg.
  destruct (kzfs_get_phys_block i lb s) as [[p|] s']; destruct Hg as [_ Hg]; [done|].
  by destruct Hg as [?|[_ ?]].
Qed.

(** Two extents of a file do not end at the same block. *)
Lemma ends_differ i s l1 e l2 :
  inode_wf i s (l1 ++ e :: l2) → Forall (λ e', start_block e' + block_count e' ≠ ext_end e) l1.
Proof.
  intros Hw. pose proof (iw_nodup _ _ _ Hw) as Hnd. pose proof (proj1 (iw_live _ _ _ Hw)) as Hp.
  apply Forall_app in Hp as [Hp1 [Hpe _]%Forall_cons]. unfold owned in Hnd.
  apply NoDup_app in Hnd as [Hnd _]. rewrite blocks_app, blocks_cons in Hnd.
  apply NoDup_app in Hnd as (_ & Hd & _). apply Forall_forall. intros e' He' Heq.
  rewrite Forall_forall in Hp1. specialize (Hp1 e' He'). unfold ext_end in Heq.
  apply (Hd (start_block e + block_count e - 1)).
  - apply (extent_blocks_in l1 e'); [done|lia].
  - apply elem_of_app. left. apply elem_of_seqZ. lia.
Qed.

(** Growing a file whose extent [e] is followed by the lowest free block puts that block
    into the middle. *)
Lemma appended_middle i s l1 e l2 :
  inode_wf i s (l1 ++ e :: l2) →
  blocks (appended (l1 ++ e :: l2) (ext_end e) 1) =
    (blocks l1 ++ seqZ (start_block e) (block_count e)) ++ ext_end e :: blocks l2.
Proof.
  intros Hw. pose proof (ends_differ _ _ _ _ _ Hw) as Hne.
  pose proof (proj1 (iw_live _ _ _ Hw)) as Hp. apply Forall_app in Hp as [_ [Hpe _]%Forall_cons].
  rewrite (appended_merge _ (length l1) e); [|by rewrite list_lookup_middle|done|by rewrite take_app_length].
  replace (length l1) with (length l1 + 0)%nat by lia. rewrite insert_app_r. cbn [list_insert].
  change (<[0%nat:=mkExt (start_block e) (block_count e + 1)]> (e :: l2))
    with (mkExt (start_block e) (block_count e + 1) :: l2).
  rewrite blocks_app, blocks_cons. cbn [start_block block_count]. rewrite seqZ_app by lia.
  by rewrite <- !app_assoc.
Qed.

Lemma phys_or_grow_tidy i s l lb p i' s' :
  fs_ok s → inode_wf i s l → tidy s l → 0 ≤ lb ≤ extent_total l →
  phys_or_grow i lb s = inr (p, i', s') →
  ∃ l', grew i l s i' l' s' ∧ tidy s' l' ∧ blocks l' !! Z.to_nat lb = Some p ∧
    (blocks l' = blocks l ∨ (lb = extent_total l ∧ blocks l' = blocks l ++ [p])).
Proof.
  intros Hok Hw Htidy Hlb E. unfold phys_or_grow in E. pose proof Hok as [Hio0 Hba].
  pose proof (get_phys_ok i lb s l (wf_ind_valid i s l Hba Hw) Hio0 (iw_live _ _ _ Hw)
    (wf_in_u64 i s l Hba Hw) ltac:(lia)) as Hg.
  destruct (kzfs_get_phys_block i lb s) as [[q|] s1]; destruct Hg as [Hr Hp].
  { simplify_eq. exists l. split_and!; [by apply grew_refl|by apply (reads_tidy s)|done|by left]. }
  destruct (grow_to_nolock i lb s1) as [[rc i1] s2] eqn:Eg.
  destruct (Z.eqb_spec rc KZFS_EOK) as [Hrc|]; [|done]. cbn [negb] in E.
  destruct (grow_to_tidy i s1 l lb rc i1 s2 (reads_fs_ok s s1 Hr Hok) (reads_wf i s s1 l Hr Hw)
    (reads_tidy s s1 l Hr Htidy) Hlb Eg Hrc) as (l' & Hg & Htd & Hbl).
  assert (Hg2 : grew i l s i1 l' s2) by (eapply grew_trans; [by apply grew_refl|exact Hg]).
  pose proof (gr_wf _ _ _ _ _ _ Hg2) as Hw'.
  pose proof (gr_keeps _ _ _ _ _ _ Hg2) as ([Hio' Hba'] & _).
  pose proof (get_phys_ok i1 lb s2 l' (wf_ind_valid i1 s2 l' Hba' Hw') Hio'
    (iw_live _ _ _ Hw') (wf_in_u64 i1 s2 l' Hba' Hw') ltac:(lia)) as Hg3.
  destruct (kzfs_get_phys_block i1 lb s2) as [[q|] s3]; destruct Hg3 as [Hr3 Hp3]; [|done].
  simplify_eq. exists l'. split_and!; [|by apply (reads_tidy s2)|done|].
  - eapply grew_trans; [exact Hg2|]. by apply grew_refl.
  - destruct Hbl as [->|[-> (x & Hx)]]; [by left|right]. split; [done|].
    rewrite Hx in Hp3 |- *. pose proof (blocks_length l (proj1 (iw_live _ _ _ Hw))) as Hlen.
    unfold zlength in Hlen. rewrite lookup_app_r in Hp3 by lia.
    replace (Z.to_nat (extent_total l) - length (blocks l))%nat with 0%nat in Hp3 by lia.
    by injection Hp3 as ->.
Qed.

(** The file holds [bs] at [off], and its other mapped bytes are as before. *)
Definition written l v l' v' (off : Z) (bs : list Z) : Prop :=
  ∀ o, 0 ≤ o →
    (off ≤ o < off + zlength bs → file_byte l' v' o = lget bs (o - off)) ∧
    (¬ (off ≤ o < off + zlength bs) → o < KZFS_BLOCK_SIZE * extent_total l →
     file_byte l' v' o = file_byte l v o).

Lemma lget_splice b off src k :
  0 ≤ off → off + zlength src ≤ zlength b → 0 ≤ k →
  lget (splice b off src) k =
    if bool_decide (off ≤ k < off + zlength src) then lget src (k - off) else lget b k.
Proof.
  intros Ho Hl Hk. unfold lget. case_bool_decide as Hin.
  - rewrite lookup_splice_in by (unfold zlength in *; lia). do 2 f_equal. lia.
  - rewrite lookup_splice_out by (unfold zlength in *; lia). done.
Qed.

Lemma lookup_blocks_lt l o :
  Forall (λ e, 0 < block_count e) l → 0 ≤ o < KZFS_BLOCK_SIZE * extent_total l →
  ∃ q, blocks l !! Z.to_nat (o / KZFS_BLOCK_SIZE) = Some q.
Proof.
  intros Hp Ho. apply lookup_lt_is_Some_2. pose proof (blocks_length l Hp) as Hl.
  unfold zlength, KZFS_BLOCK_SIZE in *. zdiv.
Qed.

Lemma chunk_written l l' v v1 v' p off part :
  Forall (λ e, 0 < block_count e) l → NoDup (blocks l') → 0 ≤ off →
  blocks l' !! Z.to_nat (off / KZFS_BLOCK_SIZE) = Some p →
  (∃ x, blocks l' = blocks l ++ x) → zlength (v1 p) = KZFS_BLOCK_SIZE →
  off mod KZFS_BLOCK_SIZE + zlength part ≤ KZFS_BLOCK_SIZE →
  (∀ b, b ∈ blocks l → v1 b = v b) →
  (∀ b, v' b = if decide (b = p) then splice (v1 p) (off mod KZFS_BLOCK_SIZE) part else v1 b) →
  written l v l' v' off part.
Proof.
  intros Hpos Hnd Ho Hp (x & Hx) Hlen Hfit Hv1 Hv' o Ho'.
  assert (0 ≤ zlength part) by (unfold zlength; lia).
  pose proof (Z.mod_pos_bound off KZFS_BLOCK_SIZE eq_refl).
  pose proof (Z.mod_pos_bound o KZFS_BLOCK_SIZE eq_refl). split.
  - intros Hin. unfold file_byte.
    destruct (div_block off (o - off) Ho ltac:(lia) ltac:(lia)) as [Hd Hm].
    replace (off + (o - off)) with o in Hd, Hm by lia. rewrite Hd, Hp, Hm, Hv'.
    rewrite decide_True by done. rewrite lget_splice by lia.
    rewrite bool_decide_eq_true_2 by lia. f_equal. lia.
  - intros Hout Hcov. destruct (lookup_blocks_lt l o Hpos ltac:(lia)) as [q Hq].
    assert (Hq' : blocks l' !! Z.to_nat (o / KZFS_BLOCK_SIZE) = Some q).
    { rewrite Hx. by apply lookup_app_l_Some. }
    unfold file_byte. rewrite Hq, Hq', Hv'.
    assert (Hqin : q ∈ blocks l) by (by eapply list_elem_of_lookup_2).
    destruct (decide (q = p)) as [->|]; [|by rewrite Hv1].
    pose proof (NoDup_lookup _ _ _ _ Hnd Hp Hq') as Heq.
    assert (Hdiv : off / KZFS_BLOCK_SIZE = o / KZFS_BLOCK_SIZE).
    { apply Z2Nat.inj; [apply Z.div_pos; [lia|done]..|done]. }
    rewrite lget_splice, bool_decide_eq_false_2, Hv1; [done|done| |lia|lia|lia].
    pose proof (Z.div_mod off KZFS_BLOCK_SIZE ltac:(done)).
    pose proof (Z.div_mod o KZFS_BLOCK_SIZE ltac:(done)). lia.
Qed.

Lemma written_app l v l1 v1 l2 v2 off a b :
  0 ≤ off → written l v l1 v1 off a → written l1 v1 l2 v2 (off + zlength a) b →
  extent_total l ≤ extent_total l1 → off + zlength a ≤ KZFS_BLOCK_SIZE * extent_total l1 →
  written l v l2 v2 off (a ++ b).
Proof.
  intros Ho H1 H2 Hle Hcov o Ho'. destruct (H1 o Ho') as [H1a H1b], (H2 o Ho') as [H2a H2b].
  assert (0 ≤ zlength a ∧ 0 ≤ zlength b) by (unfold zlength; lia).
  unfold KZFS_BLOCK_SIZE in *. rewrite zlength_app. split.
  - intros Hin. destruct (Z.lt_ge_cases o (off + zlength a)) as [Hlt|Hge].
    + rewrite H2b, H1a by lia. unfold lget. rewrite lookup_app_l; [done|unfold zlength in *; lia].
    + rewrite H2a by lia. unfold lget. rewrite lookup_app_r by (unfold zlength in *; lia).
      do 2 f_equal. unfold zlength in *. lia.
  - intros Hout Hlt. rewrite H2b, H1b by lia. done.
Qed.

Lemma written_nil l v off : written l v l v off [].
Proof. intros o Ho. split; [unfold zlength; simpl; lia|done]. Qed.

Lemma grew_view i l s i' l' s' b :
  fs_ok s → inode_wf i s l → grew i l s i' l' s' → b ∈ blocks l →
  io_view (dev s') b = io_view (dev s) b.
Proof.
  intros [_ Hba] Hw Hg Hb. destruct (gr_keeps _ _ _ _ _ _ Hg) as (_ & _ & Hk).
  assert (Hin : b ∈ owned i l) by (unfold owned; apply elem_of_app; by left).
  pose proof (iw_range _ _ _ Hw) as Hr. rewrite Forall_forall in Hr.
  pose proof (iw_used _ _ _ Hw) as Hu. rewrite Forall_forall in Hu.
  destruct (data_block_bounds s b Hba (Hr b Hin)) as [? _].
  apply Hk; [lia|by apply Hu|]. intros [-> Hne]. pose proof (iw_nodup _ _ _ Hw) as Hnd.
  unfold owned in Hnd. destruct (Z.eqb_spec (indirect_extent_block i) 0); [done|].
  apply NoDup_app in Hnd as (_ & Hdis & _). apply (Hdis _ Hb). by left.
Qed.

(** The outcome of a successful write of [buf] at [off]. *)
Definition wrote i l s (off : Z) (buf : list Z) i' s' : Prop :=
  ∃ l', inode_wf i' s' l' ∧ tidy s' l' ∧
    written l (io_view (dev s)) l' (io_view (dev s')) off buf ∧
    extent_total l ≤ extent_total l' ∧ off + zlength buf ≤ KZFS_BLOCK_SIZE * extent_total l' ∧
    size_bytes i' = (if zlength buf =? 0 then size_bytes i
                     else Z.max (size_bytes i) (off + zlength buf)).

Lemma wrote_nil i l s off :
  inode_wf i s l → tidy s l → off ≤ KZFS_BLOCK_SIZE * extent_total l → wrote i l s off [] i s.
Proof.
  intros Hw Ht Ho. exists l. change (zlength []) with 0.
  split_and!; [done|done|apply written_nil|lia|lia|done].
Qed.

(** One chunk. *)
Lemma write_chunk_ok i s l off part p i1 s1 d :
  fs_ok s → inode_wf i s l → tidy s l → 0 ≤ off ≤ KZFS_BLOCK_SIZE * extent_total l →
  0 < zlength part → off mod KZFS_BLOCK_SIZE + zlength part ≤ KZFS_BLOCK_SIZE →
  phys_or_grow i (off / KZFS_BLOCK_SIZE) s = inr (p, i1, s1) →
  put_chunk p (off mod KZFS_BLOCK_SIZE) (zlength part) part s1 = (true, d) →
  let i2 := i_set_dirty true (if size_bytes i1 <? off + zlength part
                              then i_set_size (off + zlength part) i1 else i1) in
  fs_ok (set_dev d s1) ∧ wrote i l s off part i2 (set_dev d s1).
Proof.
  intros Hok Hw Ht Ho Hpart Hfit Epg Epc i2.
  assert (Hlb : 0 ≤ off / KZFS_BLOCK_SIZE ≤ extent_total l) by (unfold KZFS_BLOCK_SIZE in *; zdiv).
  destruct (phys_or_grow_tidy i s l _ p i1 s1 Hok Hw Ht Hlb Epg) as (l1 & Hg & Ht1 & Hp & Hbl).
  pose proof (gr_wf _ _ _ _ _ _ Hg) as Hw1. pose proof (proj1 (gr_keeps _ _ _ _ _ _ Hg)) as Hok1.
  destruct (wf_block_limit i1 s1 l1 p _ (proj2 Hok1) Hw1 Hp) as [_ Hlim].
  pose proof (put_chunk_ok p (off mod KZFS_BLOCK_SIZE) (zlength part) part s1 Hok1 Hlim
    (proj1 (Z.mod_pos_bound off KZFS_BLOCK_SIZE eq_refl)) eq_refl Hfit) as Hpc.
  rewrite Epc in Hpc. destruct Hpc as [Hd Hv].
  assert (Hin : p ∈ blocks l1) by (by eapply list_elem_of_lookup_2).
  destruct (data_write_ok i1 s1 l1 p d Hok1 Hw1 Hin Hd) as [Hw2 Hk2].
  { intros b Hb. by apply (view_put_other _ _ _ _ _ Hv). }
  assert (Hpos : ∀ i s l, inode_wf i s l → Forall (λ e, 0 < block_count e) l) by (by intros ??? [[? _]]).
  assert (Htl : extent_total l ≤ extent_total l1 ∧ off / KZFS_BLOCK_SIZE < extent_total l1).
  { apply lookup_lt_Some in Hp. pose proof (blocks_length l (Hpos _ _ _ Hw)) as H1.
    pose proof (blocks_length l1 (Hpos _ _ _ Hw1)) as H2. unfold zlength in H1, H2.
    destruct Hbl as [Hx|[_ Hx]]; rewrite Hx in H2, Hp; rewrite ?length_app in H2, Hp; lia. }
  split; [apply Hk2|]. exists l1. split_and!.
  - apply (wf_meta i1); [..|done]; subst i2; by destruct (size_bytes i1 <? _).
  - exact Ht1.
  - eapply (chunk_written l l1 _ (io_view (dev s1))); [eauto| |lia|done| | |done| |exact Hv].
    + pose proof (iw_nodup _ _ _ Hw1) as Hnd. by apply NoDup_app in Hnd as [? _].
    + destruct Hbl as [->|[_ ->]]; [exists []; by rewrite app_nil_r|eauto].
    + unfold zlength. rewrite io_view_length; [done|apply Hok1].
    + intros b Hb. by eapply grew_view.
  - lia.
  - unfold KZFS_BLOCK_SIZE in *. zdiv.
  - destruct (Z.eqb_spec (zlength part) 0); [lia|].
    destruct (gr_inode _ _ _ _ _ _ Hg) as (u & dr & ind & dt & E).
    assert (size_bytes i1 = size_bytes i) as Hsz by (by rewrite E).
    subst i2. rewrite Hsz. destruct (Z.ltb_spec (size_bytes i) (off + zlength part)); simpl; lia.
Qed.

Lemma wrote_app i l s off a i1 s1 b i2 s2 :
  0 ≤ off → 0 < zlength a → wrote i l s off a i1 s1 →
  (∀ l1, inode_wf i1 s1 l1 → tidy s1 l1 → off + zlength a ≤ KZFS_BLOCK_SIZE * extent_total l1 →
     wrote i1 l1 s1 (off + zlength a) b i2 s2) →
  wrote i l s off (a ++ b) i2 s2.
Proof.
  intros Ho Ha (l1 & Hw1 & Ht1 & Hwr1 & Htl1 & Hcov1 & Hsz1) Hrec.
  destruct (Hrec l1 Hw1 Ht1 Hcov1) as (l2 & Hw2 & Ht2 & Hwr2 & Htl2 & Hcov2 & Hsz2).
  exists l2. assert (0 ≤ zlength b) by (unfold zlength; lia).
  rewrite zlength_app. split_and!; [done|done|by eapply written_app|lia|lia|].
  rewrite Hsz2. destruct (Z.eqb_spec (zlength a) 0), (Z.eqb_spec (zlength b) 0),
    (Z.eqb_spec (zlength a + zlength b) 0); lia.
Qed.

Lemma write_loop_content fuel i s l off buf nw rc n i' s' :
  fs_ok s → inode_wf i s l → tidy s l → 0 ≤ off ≤ KZFS_BLOCK_SIZE * extent_total l →
  off + zlength buf < 2 ^ 64 →
  zlength buf = 0 ∨ off mod KZFS_BLOCK_SIZE + zlength buf ≤ KZFS_BLOCK_SIZE * Z.of_nat fuel →
  write_loop fuel i off buf nw s = (rc, n, i', s') → rc = KZFS_EOK →
  n = nw + zlength buf ∧ wrote i l s off buf i' s'.
Proof.
  revert i s l off buf nw. induction fuel as [|fuel IH];
    intros i s l off buf nw Hok Hw Ht Ho H64 Hf E Hrc; simpl in E.
  { assert (Hz : zlength buf = 0).
    { pose proof (Z.mod_pos_bound off KZFS_BLOCK_SIZE eq_refl). unfold zlength in *. lia. }
    rewrite Hz in E. simpl in E. destruct buf; [|by unfold zlength in Hz; simpl in Hz; lia].
    simplify_eq. split; [lia|]. apply wrote_nil; [done..|lia]. }
  destruct (Z.eqb_spec (zlength buf) 0) as [Hz|Hz].
  { destruct buf; [|by unfold zlength in Hz; simpl in Hz; lia].
    simplify_eq. split; [lia|]. apply wrote_nil; [done..|lia]. }
  destruct Hf as [?|Hf]; [lia|]. assert (Hzl : 0 ≤ zlength buf) by (unfold zlength; lia).
  set (chunk := if zlength buf <? _ then _ else _) in E.
  destruct (chunk_fuel off (zlength buf) fuel chunk ltac:(lia) ltac:(lia) Hf eq_refl)
    as (Hch & Hfit & _ & Hf'). clearbody chunk.
  destruct (phys_or_grow i _ s) as [[[rc1 i1] s1]|[[p i1] s1]] eqn:Epg.
  { exfalso. unfold phys_or_grow in Epg. simplify_eq.
    destruct (kzfs_get_phys_block i _ s) as [[?|] ?]; [done|].
    destruct (grow_to_nolock i _ _) as [[rc2 ?] ?].
    destruct (Z.eqb_spec rc2 KZFS_EOK); cbn [negb] in Epg; [|by simplify_eq].
    destruct (kzfs_get_phys_block _ _ _) as [[?|] ?]; by simplify_eq. }
  set (part := slice 0 chunk buf) in *.
  assert (Hpl : zlength part = chunk) by (apply slice_length; lia).
  assert (Hsplit : part ++ drop (Z.to_nat chunk) buf = buf).
  { unfold part, slice. change (Z.to_nat 0) with 0%nat. by rewrite drop_0, take_drop. }
  destruct (put_chunk _ _ _ _ s1) as [[|] d] eqn:Epc; cbn [negb] in E; [|by simplify_eq].
  rewrite <- Hpl in Epc.
  pose proof (write_chunk_ok i s l off part p i1 s1 d Hok Hw Ht Ho ltac:(lia) ltac:(lia) Epg Epc)
    as Hc. rewrite Hpl in Hc. destruct Hc as [Hok2 Hwr].
  rewrite u64_id in E by lia. set (i2 := i_set_dirty true _) in *. clearbody i2 part.
  assert (Hrest : zlength (drop (Z.to_nat chunk) buf) = zlength buf - chunk).
  { unfold zlength. rewrite length_drop. unfold zlength in *. lia. }
  assert (Hn : ∀ l1, inode_wf i2 (set_dev d s1) l1 → tidy (set_dev d s1) l1 →
    off + chunk ≤ KZFS_BLOCK_SIZE * extent_total l1 →
    n = nw + chunk + (zlength buf - chunk) ∧
    wrote i2 l1 (set_dev d s1) (off + chunk) (drop (Z.to_nat chunk) buf) i' s').
  { intros l1 Hw1 Ht1 Hcov. rewrite <- Hrest.
    apply (IH i2 (set_dev d s1) l1 (off + chunk) (drop (Z.to_nat chunk) buf) (nw + chunk));
      [done..|lia|lia|lia|done|done]. }
  split.
  - destruct Hwr as (l1 & Hw1 & Ht1 & _ & _ & Hcov & _). rewrite Hpl in Hcov.
    destruct (Hn l1 Hw1 Ht1 Hcov) as [-> _]. lia.
  - rewrite <- Hsplit. eapply wrote_app; [lia|lia|exact Hwr|]. rewrite Hpl. apply Hn.
Qed.

(** ** Theorems *)

(** [kzfs_get_phys_block] translates a logical block of a well-formed file to the disk
    block at that position of its extents.  It reports a hole only if the file does not
    map the block, or if the indirect block could not be read. *)
Theorem get_phys_block_spec i lb s l :
  fs_ok s → inode_wf i s l → 0 ≤ lb →
  let '(r, s') := kzfs_get_phys_block i lb s in
  reads s s' ∧
  match r with
  | Some p => blocks l !! Z.to_nat lb = Some p
  | None => blocks l !! Z.to_nat lb = None ∨ (indirect_extent_block i ≠ 0 ∧ ¬ reads_succeed)
  end.
Proof.
  intros [Hio0 Hba] Hw Hlb.
  by apply get_phys_ok; [apply (wf_ind_valid i s l)| |apply Hw|apply (wf_in_u64 i s l)|].
Qed.

(** [blk_read_file] delivers the bytes of the file from the offset, cut at its size,
    zeros where no block is mapped, and changes nothing; it fails only if a transfer
    fails. *)
Theorem blk_read_file_spec i s l off count :
  fs_ok s → inode_wf i s l → map_sure i → 0 ≤ off → 0 ≤ count < 2 ^ 32 →
  let '(rc, bs, s') := blk_read_file i off count s in
  reads s s' ∧
  ((rc = KZFS_EOK ∧
    bs = map (file_byte l (io_view (dev s))) (seqZ off (read_count i off count))) ∨
   (rc = KZFS_EIO ∧ ¬ reads_succeed)).
Proof. apply blk_read_file_ok. Qed.

(** C31: A write of a tidy file that starts inside or right after its mapped blocks and
    succeeds stores exactly the given bytes at the offset, leaves the file's other mapped
    bytes alone, extends the size to the end of the write if that lies beyond it, and the
    file is well formed and tidy again. *)
Theorem blk_write_file_spec i s l off buf rc n i' s' :
  fs_ok s → inode_wf i s l → tidy s l → 0 ≤ off ≤ KZFS_BLOCK_SIZE * extent_total l →
  off + zlength buf < 2 ^ 64 →
  blk_write_file i off buf s = (rc, n, i', s') → rc = KZFS_EOK →
  n = zlength buf ∧ wrote i l s off buf i' s'.
Proof.
  intros Hok Hw Ht Ho H64 E Hrc.
  apply (write_loop_content (io_fuel (zlength buf)) i s l off buf 0 rc n i' s'); try done.
  right. apply io_fuel_enough; [lia|unfold zlength; lia].
Qed.

(** A write to one file touches no other: whatever it returns, every block in use that
    the file does not own is still in use with its contents; and unless a transfer failed
    the file is well formed, owning only blocks it had or blocks that were free. *)
Theorem blk_write_file_frame i s l off buf :
  fs_ok s → inode_wf i s l → 0 ≤ off →
  let '(rc, _, i', s') := blk_write_file i off buf s in
  keeps (λ b, b ∈ owned i l) s s' ∧
  (rc ≠ KZFS_EIO → ∃ l', inode_wf i' s' l' ∧
     ∀ b, b ∈ owned i' l' → b ∈ owned i l ∨ fresh s b).
Proof. apply write_loop_safe. Qed.

(** C7: Bytes that were written are read back. If a write to a tidy file that starts inside
    or right after its mapped blocks reports success, a read of the same range that follows
    it, with an extent map that can be read, gives exactly the bytes written, or fails
    because a transfer failed. *)
Theorem write_read_roundtrip i s l off buf n i' s' :
  fs_ok s → inode_wf i s l → tidy s l → 0 ≤ off ≤ KZFS_BLOCK_SIZE * extent_total l →
  zlength buf < 2 ^ 32 → off < 2 ^ 63 →
  blk_write_file i off buf s = (KZFS_EOK, n, i', s') → map_sure i' →
  let '(rc, bs, _) := blk_read_file i' off (zlength buf) s' in
  (rc = KZFS_EOK ∧ bs = buf) ∨ (rc = KZFS_EIO ∧ ¬ reads_succeed).
Proof.
  intros Hok Hw Ht Ho Hlen H63 E Hsure. assert (0 ≤ zlength buf) by (unfold zlength; lia).
  pose proof (write_loop_safe (io_fuel (zlength buf)) i s l off buf 0 Hok Hw ltac:(lia)) as Hs.
  fold (blk_write_file i off buf s) in Hs. rewrite E in Hs. destruct Hs as [(Hok' & _) _].
  destruct (write_loop_content (io_fuel (zlength buf)) i s l off buf 0 KZFS_EOK n i' s')
    as (_ & l' & Hw' & _ & Hwr & _ & _ & Hsz); try done; [lia| |].
  { right. apply io_fuel_enough; lia. }
  pose proof (blk_read_file_ok i' s' l' off (zlength buf) Hok' Hw' Hsure ltac:(lia) ltac:(lia)) as Hr.
  destruct (blk_read_file i' off (zlength buf) s') as [[rc bs] s2].
  destruct Hr as [_ [[-> ->]|[-> ?]]]; [left; split; [done|]|by right].
  assert (Hcnt : read_count i' off (zlength buf) = zlength buf).
  { unfold read_count. rewrite Hsz. destruct (Z.eqb_spec (zlength buf) 0); lia. }
  rewrite Hcnt. rewrite <- (slice_all (zlength buf) buf eq_refl) at 2.
  rewrite slice_map by lia. apply map_seqZ_ext. intros k Hk.
  destruct (Hwr (off + k) ltac:(lia)) as [Hin _]. rewrite Hin by lia. f_equal. lia.
Qed.

(** C38: Growing a file can move data it already has. Take any well-formed file in which an
    extent other than the last is followed on disk by the lowest free block. Growing it by
    one block merges the new block into that extent, in the middle of the file: the first
    logical block after the extent is translated to the new block instead of the one that
    held its data, and every later logical block of the file is translated to the disk block
    of its predecessor. *)
Theorem grow_moves_block i s l1 e l2 i' s' :
  let k := extent_total l1 + block_count e in
  reads_succeed → fs_ok s → inode_wf i s (l1 ++ e :: l2) → l2 ≠ [] →
  data_block s (ext_end e) → used s (ext_end e) = false →
  (∀ b, data_start s ≤ b < ext_end e → used s b = true) →
  grow_to_nolock i (extent_total (l1 ++ e :: l2)) s = (KZFS_EOK, i', s') →
  (∃ b, (kzfs_get_phys_block i k s).1 = Some b ∧ b ≠ ext_end e) ∧
  (kzfs_get_phys_block i' k s').1 = Some (ext_end e) ∧
  ∀ j, 0 ≤ j < extent_total l2 →
    is_Some (kzfs_get_phys_block i (k + j) s).1 ∧
    (kzfs_get_phys_block i' (k + j + 1) s').1 = (kzfs_get_phys_block i (k + j) s).1.
Proof.
  intros k Hrd Hok Hw Hl2 Hdb Hfree Hlow E. set (l := l1 ++ e :: l2) in *.
  destruct (grow_one i s l _ i' s' Hok Hw E eq_refl) as (start & s1 & s2 & (d & -> & _) & Ht & Hfirst & _ & _ & Hg).
  assert (start = ext_end e) as ->.
  { pose proof (tk_run _ _ _ _ Ht) as (Hlo & Hhi & Hf & _). cbn [data_start set_dev sb_cache] in *.
    destruct (Z.lt_trichotomy start (ext_end e)) as [Hlt|[?|Hgt]]; [|done|].
    - pose proof (Hlow start ltac:(lia)) as Hu. specialize (Hf start ltac:(lia)). unfold used in *. cbn in *. congruence.
    - destruct Hdb as [Hd1 _]. pose proof (Hfirst (ext_end e) ltac:(lia)) as Hu. unfold used in *. cbn in *. congruence. }
  pose proof (proj1 (iw_live _ _ _ Hw)) as Hp. apply Forall_app in Hp as [Hp1 [Hpe Hp2]%Forall_cons].
  pose proof (gr_wf _ _ _ _ _ _ Hg) as Hw'. destruct (gr_keeps _ _ _ _ _ _ Hg) as (Hok' & _).
  pose proof (extent_total_nonneg _ Hp1) as H1. pose proof (extent_total_nonneg _ Hp2) as H2.
  set (h := blocks l1 ++ seqZ (start_block e) (block_count e)).
  assert (Hh : length h = Z.to_nat k).
  { unfold h. rewrite length_app, length_seqZ. pose proof (blocks_length _ Hp1) as Hb1. unfold zlength in Hb1. unfold k. lia. }
  assert (Hb : blocks l = h ++ blocks l2) by (unfold l, h; by rewrite blocks_app, blocks_cons, app_assoc).
  assert (Hb' : blocks (appended l (ext_end e) 1) = h ++ ext_end e :: blocks l2) by (by eapply appended_middle).
  assert (Hold : ∀ j, 0 ≤ j → (kzfs_get_phys_block i (k + j) s).1 = blocks l2 !! Z.to_nat j).
  { intros j Hj. rewrite (get_phys_total i _ s l) by (done || lia). rewrite Hb, lookup_app_r by lia. f_equal. lia. }
  assert (Hsome : ∀ j, 0 ≤ j < extent_total l2 → is_Some (blocks l2 !! Z.to_nat j)).
  { intros j Hj. apply lookup_lt_is_Some. pose proof (blocks_length _ Hp2) as Hb2. unfold zlength in Hb2. lia. }
  split_and!.
  - destruct l2 as [|e2 l2]; [done|]. apply Forall_cons in Hp2 as [Hpe2 Hp3].
    pose proof (extent_total_nonneg _ Hp3). destruct (Hsome 0) as [b Hb0]; [simpl; lia|].
    exists b. rewrite <- Hold, Z.add_0_r in Hb0 by lia. split; [done|]. intros ->.
    pose proof (iw_used _ _ _ Hw) as Hu. rewrite Forall_forall in Hu. rewrite Hu in Hfree; [done|].
    rewrite (get_phys_total i _ s l) in Hb0 by (done || lia). apply elem_of_app. left. by eapply list_elem_of_lookup_2.
  - rewrite (get_phys_total i' _ s' _ Hrd Hok' Hw') by lia. rewrite Hb', lookup_app_r by lia.
    by replace (Z.to_nat k - length h)%nat with 0%nat by lia.
  - intros j Hj. rewrite Hold by lia. split; [by apply Hsome|].
    rewrite (get_phys_total i' _ s' _ Hrd Hok' Hw') by lia. rewrite Hb', lookup_app_r by lia.
    by replace (Z.to_nat (k + j + 1) - length h)%nat with (Datatypes.S (Z.to_nat j)) by lia.
Qed.
End spec.

(** ** A small file system with a file of two blocks *)
Definition file_fs : fs (gmap Z (list Z)) := (blk_alloc_run_nolock 2 small_fs).2.
Definition file_inode : inode_mem :=
  mkIno 2 KZFS_INODE_FLAG_FILE 1 5000 2
    [mkExt 8 2; zero_extent; zero_extent; zero_extent] 0 false 1.
Definition file_exts : list extent := [mkExt 8 2].

Lemma small_fs_ok : fs_ok small_fs.
Proof. split; [done|apply small_fs_balloc]. Qed.

Lemma alloc_small_ok k : 0 ≤ k → fs_ok (blk_alloc_run_nolock k small_fs).2.
Proof.
  intros Hk. pose proof (blk_alloc_ok k small_fs small_fs_balloc Hk) as Ha.
  destruct (blk_alloc_run_nolock k small_fs) as [[a n] s]. destruct Ha as (Hb & _ & Hd & _).
  split; [done|exact Hb].
Qed.

Lemma file_fs_ok : fs_ok file_fs.
Proof. by apply alloc_small_ok. Qed.

(** An inode whose direct slots hold [l] and that has no indirect block. *)
Lemma direct_wf (i : inode_mem) (s : fs (gmap Z (list Z))) l :
  direct i = l ++ repeat zero_extent (4 - length l) → (length l ≤ 4)%nat →
  indirect_extent_block i = 0 → Forall (λ e, 0 < block_count e) l →
  NoDup (blocks l) → Forall (λ b, data_block s b ∧ used s b = true) (blocks l) →
  blocks_used i = zlength (blocks l) → inode_wf i s l.
Proof.
  intros Hd Hl Hi Hp Hnd Hf Hc.
  assert (Ho : owned i l = blocks l) by (unfold owned; by rewrite Hi, app_nil_r).
  rewrite Forall_and in Hf. destruct Hf as [Hr Hu].
  split; [|rewrite Hd, length_app, repeat_length; lia|by rewrite Ho..].
  split; [done|]. exists (repeat zero_extent (4 - length l) ++ repeat zero_extent 341).
  split; [unfold exts; by rewrite Hi, Hd, <- app_assoc|].
  apply Forall_app; split; apply Forall_forall; by intros x ->%list_elem_of_In%repeat_spec.
Qed.

Lemma file_inode_wf : inode_wf file_inode file_fs file_exts.
Proof.
  apply direct_wf; [done|simpl; lia|done|by constructor| | |done].
  - change (blocks file_exts) with [8; 9]. apply (NoDup_seqZ 8 2).
  - change (blocks file_exts) with [8; 9].
    constructor; [|constructor; [|done]]; (split; [|reflexivity]); split; simpl; lia.
Qed.

Lemma ram_reads_succeed : @reads_succeed (gmap Z (list Z)) _.
Proof. by intros n d. Qed.

Lemma get_phys_block_spec_witness :
  (kzfs_get_phys_block file_inode 1 file_fs).1 = Some 9 ∧
  blocks file_exts !! Z.to_nat 1 = Some 9.
Proof.
  pose proof (get_phys_block_spec file_inode 1 file_fs file_exts file_fs_ok file_inode_wf
    ltac:(lia)) as Hs.
  destruct (kzfs_get_phys_block file_inode 1 file_fs) as [r s'] eqn:E.
  assert (Hr : (kzfs_get_phys_block file_inode 1 file_fs).1 = Some 9) by reflexivity.
  rewrite E in Hr. simpl in Hr. subst r. split; [reflexivity|]. exact (proj2 Hs).
Defined.

Lemma blk_read_file_spec_witness :
  let '(rc, bs, _) := blk_read_file file_inode 4990 100 file_fs in
  rc = KZFS_EOK ∧ length bs = 10%nat.
Proof.
  pose proof (blk_read_file_spec file_inode file_fs file_exts 4990 100 file_fs_ok file_inode_wf
    (or_introl eq_refl) ltac:(lia) ltac:(lia)) as Hs.
  destruct (blk_read_file file_inode 4990 100 file_fs) as [[rc bs] s'].
  destruct Hs as [_ [[-> ->]|[_ Hno]]].
  - split; [reflexivity|]. rewrite length_map. reflexivity.
  - exfalso. exact (Hno ram_reads_succeed).
Defined.

Lemma file_tidy : tidy file_fs file_exts.
Proof.
  intros [|j] e He; [|by discriminate He].
  injection He as <-. intros _ _. split; [done|]. intros b Hb.
  change (data_start file_fs) with 8 in Hb. unfold ext_end in Hb. simpl in Hb.
  assert (b = 8 ∨ b = 9) as [->| ->] by lia; reflexivity.
Qed.

Lemma file_write_eok :
  (blk_write_file file_inode 8190 [1; 2; 3; 4] file_fs).1.1 = (KZFS_EOK, 4).
Proof. reflexivity. Qed.

Lemma blk_write_file_spec_witness :
  ∃ i' s', blk_write_file file_inode 8190 [1; 2; 3; 4] file_fs = (KZFS_EOK, 4, i', s') ∧
    wrote file_inode file_exts file_fs 8190 [1; 2; 3; 4] i' s'.
Proof.
  pose proof file_write_eok as He.
  destruct (blk_write_file file_inode 8190 [1; 2; 3; 4] file_fs) as [[[rc n] i'] s'] eqn:E.
  simpl in He. injection He as -> ->. exists i', s'. split; [reflexivity|].
  apply (blk_write_file_spec file_inode file_fs file_exts 8190 [1; 2; 3; 4] KZFS_EOK 4 i' s');
    [exact file_fs_ok|exact file_inode_wf|exact file_tidy|simpl; unfold KZFS_BLOCK_SIZE; lia|
     unfold zlength; simpl; lia|exact E|reflexivity].
Defined.

Lemma blk_write_file_frame_witness :
  let '(_, _, _, s') := blk_write_file file_inode 8190 [1; 2; 3; 4] file_fs in
  keeps (λ b, b ∈ owned file_inode file_exts) file_fs s'.
Proof.
  pose proof (blk_write_file_frame file_inode file_fs file_exts 8190 [1; 2; 3; 4]
    file_fs_ok file_inode_wf ltac:(lia)) as Hs.
  destruct (blk_write_file file_inode 8190 [1; 2; 3; 4] file_fs) as [[[rc n] i'] s'].
  exact (proj1 Hs).
Defined.

Lemma write_read_roundtrip_witness :
  let '(_, _, i', s') := blk_write_file file_inode 8190 [1; 2; 3; 4] file_fs in
  let '(rc, bs, _) := blk_read_file i' 8190 4 s' in
  (rc = KZFS_EOK ∧ bs = [1; 2; 3; 4]) ∨ (rc = KZFS_EIO ∧ ¬ @reads_succeed (gmap Z (list Z)) _).
Proof.
  pose proof file_write_eok as He.
  destruct (blk_write_file file_inode 8190 [1; 2; 3; 4] file_fs) as [[[rc n] i'] s'] eqn:E.
  simpl in He. injection He as -> ->.
  apply (write_read_roundtrip file_inode file_fs file_exts 8190 [1; 2; 3; 4] 4 i' s');
    [exact file_fs_ok|exact file_inode_wf|exact file_tidy|simpl; unfold KZFS_BLOCK_SIZE; lia|
     unfold zlength; simpl; lia|lia|exact E|right; exact ram_reads_succeed].
Defined.

(** *** A run that follows an extent other than the last *)
Definition moved_fs : fs (gmap Z (list Z)) := (blk_alloc_run_nolock 5 small_fs).2.
Definition moved_inode : inode_mem :=
  mkIno 2 KZFS_INODE_FLAG_FILE 1 8192 2 [mkExt 12 1; mkExt 8 1; zero_extent; zero_extent] 0 false 1.

Lemma moved_fs_ok : fs_ok moved_fs.
Proof. by apply alloc_small_ok. Qed.

Lemma moved_inode_wf : inode_wf moved_inode moved_fs ([] ++ mkExt 12 1 :: [mkExt 8 1]).
Proof.
  apply direct_wf; [done|simpl; lia|done|by repeat constructor| | |done].
  - change (blocks _) with [12; 8]. apply NoDup_cons.
    split; [by intros ?%list_elem_of_singleton|apply NoDup_singleton].
  - change (blocks _) with [12; 8].
    constructor; [|constructor; [|done]]; (split; [|reflexivity]); split; simpl; lia.
Qed.

Lemma grow_moves_block_witness :
  (kzfs_get_phys_block moved_inode 1 moved_fs).1 = Some 8 ∧
  let '(rc, i', s') := grow_to_nolock moved_inode 2 moved_fs in
  rc = KZFS_EOK ∧ (kzfs_get_phys_block i' 1 s').1 = Some 13 ∧ (kzfs_get_phys_block i' 2 s').1 = Some 8.
Proof.
  assert (H0 : (kzfs_get_phys_block moved_inode 1 moved_fs).1 = Some 8) by reflexivity. split; [exact H0|].
  destruct (grow_to_nolock moved_inode 2 moved_fs) as [[rc i'] s'] eqn:E.
  assert (Hrc : (grow_to_nolock moved_inode 2 moved_fs).1.1 = KZFS_EOK) by reflexivity.
  rewrite E in Hrc. simpl in Hrc. subst rc. split; [reflexivity|].
  destruct (grow_moves_block moved_inode moved_fs [] (mkExt 12 1) [mkExt 8 1] i' s' ram_reads_succeed moved_fs_ok
    moved_inode_wf) as (_ & H1 & H2).
  - discriminate.
  - split; reflexivity || (intros ?; discriminate).
  - reflexivity.
  - intros b Hb. change (8 ≤ b < 13) in Hb.
    assert (b = 8 ∨ b = 9 ∨ b = 10 ∨ b = 11 ∨ b = 12) as [->|[->|[->|[->| ->]]]] by lia; reflexivity.
  - exact E.
  - split; [exact H1|]. destruct (H2 0) as [_ H3]; [simpl; lia|]. exact (eq_trans H3 H0).
Defined.
