(* ===== verification/KfsTrunc.v ===== *)
(** Truncation of KyuzenFS V4 files: [truncate_nolock] and [inode_free_all_extents] of
    [kernel/fs/kfs_extent.c] (their definitions are in [KfsExtent]), on a device whose
    transfers do not fail. *)

From S2P Require Import Prelude Bitmap BlockIO Kfs KfsInode KfsBalloc KfsExtent.

Section spec.
Context {S : Type} `{Hio : BlockIOok S}.
Implicit Types (s : fs S) (i : inode_mem) (e : extent) (l : list extent).

(** Transfers never fail. *)
Definition io_reliable : Prop :=
  reads_succeed ∧
  ∀ n f (d : S), io_ok d → 0 ≤ n < io_limit → (io_modify n f d).1 = true.

(** The extents of the first [k] blocks. *)
Fixpoint cut (k : Z) l : list extent :=
  match l with
  | [] => []
  | e :: l =>
      if k <=? 0 then []
      else if k <? block_count e then [mkExt (start_block e) k]
      else e :: cut (k - block_count e) l
  end.

(** The slots after truncation: those kept, then empty ones. *)
Definition cut_slots (k : Z) l : list extent :=
  cut k l ++ repeat zero_extent (length l - length (cut k l)).

Lemma cut_length k l : (length (cut k l) ≤ length l)%nat.
Proof.
  revert k. induction l as [|e l IH]; intros k; simpl; [lia|].
  destruct (k <=? 0); simpl; [lia|]. destruct (k <? block_count e); simpl; [lia|].
  specialize (IH (k - block_count e)). lia.
Qed.

Lemma cut_slots_length k l : length (cut_slots k l) = length l.
Proof.
  unfold cut_slots. rewrite length_app, repeat_length. pose proof (cut_length k l). lia.
Qed.

Lemma cut_snoc k l e :
  Forall (λ e, 0 < block_count e) l → 0 < block_count e →
  cut_slots k (l ++ [e]) = cut_slots k l ++
    [if k <=? extent_total l then zero_extent
     else if k <? extent_total l + block_count e then mkExt (start_block e) (k - extent_total l)
     else e].
Proof.
  intros Hl He. revert k. induction Hl as [|x l Hx Hl IH]; intros k; cbn [app extent_total].
  - unfold cut_slots. simpl. destruct (Z.leb_spec k 0); [done|]. rewrite Z.sub_0_r, Z.add_0_l.
    by destruct (Z.ltb_spec k (block_count e)).
  - unfold cut_slots. cbn [cut length]. rewrite length_app. cbn [length]. pose proof (extent_total_nonneg l Hl).
    assert (Hz : ∀ m, repeat zero_extent (Datatypes.S m) = repeat zero_extent m ++ [zero_extent]).
    { intros m. by rewrite <- repeat_cons. }
    destruct (Z.leb_spec k 0); [|destruct (Z.ltb_spec k (block_count x))].
    + destruct (Z.leb_spec k (block_count x + extent_total l)); [|lia]. cbn [length app].
      rewrite <- Hz. f_equal. lia.
    + destruct (Z.leb_spec k (block_count x + extent_total l)); [|lia]. cbn [length app].
      f_equal. rewrite <- Hz. f_equal. lia.
    + cbn [length app]. f_equal. specialize (IH (k - block_count x)).
      unfold cut_slots in IH. rewrite length_app in IH. cbn [length] in IH.
      rewrite Nat.sub_succ. rewrite IH. rewrite <- !app_assoc. do 3 f_equal.
      replace (k - block_count x - extent_total l) with (k - (block_count x + extent_total l)) by lia.
      destruct (Z.leb_spec (k - block_count x) (extent_total l)),
        (Z.leb_spec k (block_count x + extent_total l)); try lia; [done|].
      by destruct (Z.ltb_spec (k - block_count x) (extent_total l + block_count e)),
        (Z.ltb_spec k (block_count x + extent_total l + block_count e)); try lia.
Qed.

Lemma cut_pos k l : Forall (λ e, 0 < block_count e) l → Forall (λ e, 0 < block_count e) (cut k l).
Proof.
  intros Hl. revert k. induction Hl as [|e l He Hl IH]; intros k; simpl; [done|].
  destruct (Z.leb_spec k 0); [done|]. destruct (Z.ltb_spec k (block_count e)); auto.
Qed.

Lemma cut_blocks k l :
  Forall (λ e, 0 < block_count e) l → 0 ≤ k → blocks (cut k l) = take (Z.to_nat k) (blocks l).
Proof.
  intros Hl. revert k. induction Hl as [|e l He Hl IH]; intros k Hk; simpl.
  { by destruct (Z.to_nat k). }
  destruct (Z.leb_spec k 0).
  { replace (Z.to_nat k) with 0%nat by lia. by rewrite take_0. }
  assert (Hse : length (seqZ (start_block e) (block_count e)) = Z.to_nat (block_count e))
    by apply length_seqZ.
  rewrite blocks_cons. destruct (Z.ltb_spec k (block_count e)).
  - rewrite blocks_cons, app_nil_r. cbn [start_block block_count].
    rewrite take_app_le by lia.
    replace (block_count e) with (k + (block_count e - k)) by lia.
    rewrite seqZ_cat by lia. rewrite take_app_le by (rewrite length_seqZ; lia).
    rewrite take_ge; [done|rewrite length_seqZ; lia].
  - rewrite blocks_cons, take_app_ge by lia. f_equal. rewrite IH by lia. f_equal. lia.
Qed.

(** Writing a slot that is in use needs no new indirect block. *)
Lemma ext_set_plain i n e s :
  fs_ok s → ind_valid i → 0 ≤ n < KZFS_MAX_EXTENTS → extent_ok e → io_reliable →
  n < 4 ∨ indirect_extent_block i ≠ 0 →
  let '(rc, i', s') := ext_set_nolock i n e s in
  fs_ok s' ∧ (∃ d, s' = set_dev d s) ∧ exts i' s' = <[Z.to_nat n := e]> (exts i s) ∧
  (∃ dr dt, i' = mkIno (ino i) (mode i) (links_count i) (size_bytes i) (blocks_used i) dr
                  (indirect_extent_block i) dt (i_refcount i) ∧ length dr = 4%nat) ∧
  (∀ b, ¬ is_indirect i b → io_view (dev s') b = io_view (dev s) b).
Proof.
  intros Hok Hi Hn He [_ Hrel] Hcase. unfold ext_set_nolock. change KZFS_NUM_DIRECT_EXTENTS with 4.
  unfold KZFS_MAX_EXTENTS in Hn. pose proof Hi as [Hd Hlim].
  destruct (Z.ltb_spec n 4) as [H4|H4].
  { split_and!; [done|exists (dev s); by destruct s| | |done].
    - unfold exts. simpl. rewrite insert_app_l by lia. done.
    - exists (<[Z.to_nat n := e]> (direct i)), true. split; [done|]. by rewrite length_insert. }
  destruct Hcase as [?|Hne]; [lia|].
  destruct (Z.leb_spec KZFS_EXTS_PER_IND_BLOCK (n - 4)) as [Hk|Hk];
    [unfold KZFS_EXTS_PER_IND_BLOCK in Hk; lia|].
  unfold need_indirect. destruct (Z.eqb_spec (indirect_extent_block i) 0); [done|].
  pose proof (ind_write_ok i s (n - 4) e Hok Hi Hne ltac:(lia) He) as Hm.
  pose proof (Hrel (indirect_extent_block i) (λ b, splice b ((n - 4) * 12) (enc_extent e))
    (dev s) (proj1 Hok) Hlim) as Hr.
  destruct (io_modify _ _ (dev s)) as [r d]. simpl in Hr. subst r. destruct Hm as [Hw Hx].
  split_and!; [apply Hw|by exists d| | |].
  - rewrite Hx by done. f_equal. lia.
  - exists (direct i), (i_dirty i). split; [by destruct i|done].
  - intros b Hb. apply (sw_view _ _ _ _ Hw). right. intros ->. by apply Hb.
Qed.

(** ** The loop over the extents *)

(** The extents [A] have been cut down to the first [k] blocks. *)
Record cutting i s l (k : Z) (A : list extent) i1 s1 : Prop := {
  ct_ok : fs_ok s1;
  ct_env : same_env s s1;
  ct_exts : exts i1 s1 = cut_slots k A ++ drop (length A) (exts i s);
  ct_used b : 0 ≤ b →
    used s1 b = used s b && negb (bool_decide (b ∈ drop (Z.to_nat k) (blocks A)));
  ct_view b : ¬ is_indirect i b → io_view (dev s1) b = io_view (dev s) b;
  ct_inode : ∃ u dr dt, i1 = mkIno (ino i) (mode i) (links_count i) (size_bytes i) u dr
      (indirect_extent_block i) dt (i_refcount i) ∧ length dr = 4%nat;
}.

(** The count of the inode's blocks follows. *)
Definition cut_count i (k : Z) (A : list extent) i1 : Prop :=
  blocks_used i1 = blocks_used i - zlength (drop (Z.to_nat k) (blocks A)).

Lemma cutting_reads i s l k A i1 s1 s2 :
  reads s1 s2 → cutting i s l k A i1 s1 → cutting i s l k A i1 s2.
Proof.
  intros Hr [Hok He Hx Hu Hv Hi]. split; [by apply (reads_fs_ok s1)| | | | |done].
  - etrans; [exact He|by apply reads_env].
  - by rewrite (reads_exts i1 s1 s2 Hr).
  - destruct Hr as (d & -> & _). exact Hu.
  - intros b Hb. destruct Hr as (d & -> & _ & Hvs). simpl. by rewrite Hvs, Hv.
Qed.

Lemma cutting_valid i s l k A i1 s1 :
  ind_valid i → cutting i s l k A i1 s1 → ind_valid i1.
Proof. intros [_ Hlim] [_ _ _ _ _ (u & dr & dt & -> & Hdr)]. by split. Qed.

Lemma zero_extent_ok : extent_ok zero_extent.
Proof. split; [unfold is_u64|unfold is_u32]; simpl; lia. Qed.

(** The slots not yet cut are those of the inode. *)
Lemma cutting_slot i s l k A e B i1 s1 x :
  inode_wf i s l → cutting i s l k A i1 s1 → l = A ++ e :: B →
  exts i1 s1 !! Z.to_nat (zlength A) = Some x → x = e.
Proof.
  intros Hw Hct Hl Hg. rewrite (ct_exts _ _ _ _ _ _ _ Hct) in Hg. unfold zlength in Hg.
  rewrite Nat2Z.id in Hg. rewrite lookup_app_r in Hg by (by rewrite cut_slots_length).
  rewrite cut_slots_length, Nat.sub_diag, lookup_drop, Nat.add_0_r in Hg.
  destruct (iw_live _ _ _ Hw) as [_ (z & Hz & _)]. rewrite Hz, Hl, <- app_assoc in Hg.
  cbn [app] in Hg. rewrite list_lookup_middle in Hg by done. by simplify_eq.
Qed.

Lemma cutting_empty i s l k i1 s1 n x :
  inode_wf i s l → cutting i s l k l i1 s1 → zlength l ≤ n →
  exts i1 s1 !! Z.to_nat n = Some x → block_count x = 0.
Proof.
  intros Hw Hct Hn Hg. rewrite (ct_exts _ _ _ _ _ _ _ Hct) in Hg. unfold zlength in Hn.
  rewrite lookup_app_r in Hg by (rewrite cut_slots_length; lia).
  rewrite cut_slots_length, lookup_drop in Hg.
  destruct (live_slot i s l _ x (iw_live _ _ _ Hw) Hg) as [(? & _)|[_ ?]]; [lia|done].
Qed.

(** The blocks cut from one more extent. *)
Definition cut_tail (k c : Z) e : list Z :=
  if k <=? c then seqZ (start_block e) (block_count e)
  else if k <? c + block_count e
       then seqZ (start_block e + (k - c)) (block_count e - (k - c))
       else [].

Lemma drop_blocks_snoc k A e :
  Forall (λ e, 0 < block_count e) A → 0 < block_count e → 0 ≤ k →
  drop (Z.to_nat k) (blocks (A ++ [e])) =
  drop (Z.to_nat k) (blocks A) ++ cut_tail k (extent_total A) e.
Proof.
  intros HA He Hk. pose proof (blocks_length A HA) as Hl. unfold zlength in Hl.
  rewrite blocks_app, blocks_cons, app_nil_r, drop_app. f_equal. unfold cut_tail.
  destruct (Z.leb_spec k (extent_total A)).
  { replace (Z.to_nat k - length (blocks A))%nat with 0%nat by lia. by rewrite drop_0. }
  destruct (Z.ltb_spec k (extent_total A + block_count e)).
  - replace (Z.to_nat k - length (blocks A))%nat with (Z.to_nat (k - extent_total A)) by lia.
    replace (block_count e) with ((k - extent_total A) + (block_count e - (k - extent_total A)))
      at 1 by lia.
    rewrite seqZ_cat by lia. rewrite drop_app_length'; [done|rewrite length_seqZ; lia].
  - rewrite drop_ge; [done|rewrite length_seqZ; lia].
Qed.

(** An extent past the direct slots lives in the indirect block. *)
Lemma slot_indirect i s n e :
  length (direct i) = 4%nat → exts i s !! n = Some e → (4 ≤ n)%nat → 0 < block_count e →
  indirect_extent_block i ≠ 0.
Proof.
  intros Hd Hs Hn He E. unfold exts in Hs. rewrite E, Z.eqb_refl in Hs.
  rewrite lookup_app_r in Hs by lia.
  apply list_elem_of_lookup_2, list_elem_of_In, repeat_spec in Hs. subst e.
  cbn [zero_extent block_count] in He. lia.
Qed.

(** Freeing blocks of the inode and writing the slot. *)
Lemma cut_slot_ok i s l k A e i1 s1 st c e' u :
  fs_ok s → inode_wf i s l → io_reliable → 0 ≤ k → cutting i s l k A i1 s1 →
  (∃ B, l = A ++ e :: B) → 0 ≤ c →
  cut_tail k (extent_total A) e = seqZ st c →
  data_start s ≤ st → st + c ≤ total_blocks (sb_cache s) → extent_ok e' →
  cut_slots k (A ++ [e]) = cut_slots k A ++ [e'] →
  let s2 := blk_free_run_nolock st c s1 in
  let i2 := i_set_used u i1 in
  let '(_, i3, s3) := ext_set_nolock i2 (zlength A) e' s2 in
  cutting i s l k (A ++ [e]) i3 s3 ∧ blocks_used i3 = u.
Proof.
  intros Hok Hw Hrel Hk Hct (B & Hl) Hc Htail Hst Hlim He' Hslots s2 i2.
  pose proof Hok as [_ Hba]. pose proof (cutting_valid _ _ _ _ _ _ _ (wf_ind_valid i s l Hba Hw) Hct) as Hi1.
  destruct Hct as [Hok1 Henv1 Hx1 Hu1 Hv1 (u1 & dr & dt & Ei1 & Hdr)].
  destruct (same_env_proj s s1 Henv1) as (Htot & Hds & _).
  destruct (blk_free_ok st c s1 (proj2 Hok1)) as (Hba2 & Henv2 & Hdev2 & Hu2); [lia..|].
  fold s2 in Hba2, Henv2, Hdev2, Hu2. clearbody s2.
  assert (Hok2 : fs_ok s2) by (split; [rewrite Hdev2; apply Hok1|done]).
  assert (Hpos : Forall (λ e, 0 < block_count e) l) by apply (iw_live _ _ _ Hw).
  assert (HposA : Forall (λ e, 0 < block_count e) A ∧ 0 < block_count e).
  { rewrite Hl in Hpos. apply Forall_app in Hpos as [? [? _]%Forall_cons]. done. }
  pose proof (drop_blocks_snoc k A e (proj1 HposA) (proj2 HposA) Hk) as Hdrop.
  rewrite Htail in Hdrop.
  pose proof (live_length i s l (wf_ind_valid i s l Hba Hw) (iw_live _ _ _ Hw)) as HlenL.
  assert (HlenA : (length A < length l)%nat) by (rewrite Hl, length_app; simpl; lia).
  assert (HnA : 0 ≤ zlength A < KZFS_MAX_EXTENTS) by (unfold zlength in *; lia).
  assert (Hslot : exts i s !! length A = Some e).
  { destruct (iw_live _ _ _ Hw) as [_ (z & Hz & _)]. rewrite Hz, Hl, <- app_assoc.
    cbn [app]. by apply list_lookup_middle. }
  assert (Hcase : zlength A < 4 ∨ indirect_extent_block i2 ≠ 0).
  { destruct (Z.lt_ge_cases (zlength A) 4); [by left|right]. subst i2. rewrite Ei1. simpl.
    apply (slot_indirect i s (length A) e); [apply Hw|done|unfold zlength in *; lia|apply HposA]. }
  assert (Hi2 : ind_valid i2) by (by destruct Hi1).
  pose proof (ext_set_plain i2 (zlength A) e' s2 Hok2 Hi2 HnA He' Hrel Hcase) as Hset.
  destruct (ext_set_nolock i2 (zlength A) e' s2) as [[rc i3] s3].
  destruct Hset as (Hok3 & (d & ->) & Hx3 & (dr3 & dt3 & -> & Hdr3) & Hv3).
  split; [|done]. split; [done| | | | |].
  - etrans; [exact Henv1|]. etrans; [exact Henv2|apply same_env_dev].
  - rewrite Hx3, Hslots. rewrite length_app. cbn [length].
    assert (Hx2 : exts i2 s2 = exts i1 s1) by (unfold exts; by rewrite Hdev2).
    rewrite Hx2, Hx1.
    replace (Z.to_nat (zlength A)) with (length (cut_slots k A) + 0)%nat
      by (rewrite cut_slots_length; unfold zlength; lia).
    rewrite insert_app_r, <- app_assoc. f_equal.
    rewrite (drop_S _ e _ Hslot). simpl. do 2 f_equal. lia.
  - intros b Hb. change (used (set_dev d s2) b) with (used s2 b).
    rewrite Hu2, Hu1, Hdrop by done. destruct (used s b); simpl; [|by rewrite andb_false_r].
    rewrite andb_comm, <- negb_orb. f_equal.
    apply eq_true_iff_eq. rewrite orb_true_iff, !bool_decide_eq_true, elem_of_app, elem_of_seqZ. tauto.
  - intros b Hb. simpl in Hv3 |- *. rewrite Hv3, Hdev2, Hv1; [done|done|].
    subst i2. rewrite Ei1. exact Hb.
  - exists u, dr3, dt3. split; [|done]. subst i2. by rewrite Ei1.
Qed.

Lemma cut_count_step i s l k A e B i1 c :
  fs_ok s → inode_wf i s l → 0 ≤ k → l = A ++ e :: B → cut_count i k A i1 →
  zlength (cut_tail k (extent_total A) e) = c →
  u64 (blocks_used i1 - c) = blocks_used i - zlength (drop (Z.to_nat k) (blocks (A ++ [e]))).
Proof.
  intros [_ Hba] Hw Hk Hl Hc Hzc.
  assert (HposA : Forall (λ e, 0 < block_count e) A ∧ 0 < block_count e).
  { pose proof (iw_live _ _ _ Hw) as [Hpos _]. rewrite Hl in Hpos.
    apply Forall_app in Hpos as [? [? _]%Forall_cons]. done. }
  pose proof (drop_blocks_snoc k A e (proj1 HposA) (proj2 HposA) Hk) as Hdrop.
  pose proof (owned_bound i s l Hba Hw) as Hob. unfold cut_count in Hc.
  assert (Hle : zlength (drop (Z.to_nat k) (blocks (A ++ [e]))) ≤ blocks_used i).
  { rewrite (iw_count _ _ _ Hw). unfold zlength. rewrite length_drop. unfold owned.
    rewrite Hl, length_app, !blocks_app, !blocks_cons, !length_app. simpl. lia. }
  pose proof (iw_count _ _ _ Hw). rewrite Hdrop, zlength_app, Hzc in *.
  assert (0 ≤ zlength (drop (Z.to_nat k) (blocks A)) ∧ 0 ≤ c)
    by (rewrite <- Hzc; unfold zlength; lia).
  rewrite u64_id by lia. lia.
Qed.

Lemma trunc_step_ok i s l k A e B i1 s1 :
  fs_ok s → inode_wf i s l → io_reliable → 0 ≤ k → cutting i s l k A i1 s1 → cut_count i k A i1 →
  l = A ++ e :: B →
  match trunc_step k (zlength A) (extent_total A, i1, s1) with
  | inl _ => False
  | inr (c, i', s') => c = extent_total (A ++ [e]) ∧ cutting i s l k (A ++ [e]) i' s' ∧
      cut_count i k (A ++ [e]) i'
  end.
Proof.
  intros Hok Hw Hrel Hk Hct Hcnt Hl. pose proof Hok as [_ Hba].
  pose proof (cutting_valid _ _ _ _ _ _ _ (wf_ind_valid i s l Hba Hw) Hct) as Hi1.
  pose proof (live_length i s l (wf_ind_valid i s l Hba Hw) (iw_live _ _ _ Hw)) as HlenL.
  assert (HnA : 0 ≤ zlength A < KZFS_MAX_EXTENTS).
  { rewrite Hl, zlength_app in HlenL. unfold zlength in *. simpl in HlenL. lia. }
  assert (HposA : Forall (λ e, 0 < block_count e) A ∧ 0 < block_count e).
  { pose proof (iw_live _ _ _ Hw) as [Hpos _]. rewrite Hl in Hpos.
    apply Forall_app in Hpos as [? [? _]%Forall_cons]. done. }
  destruct (wf_extent i s l e Hw) as (_ & Hes & Het); [rewrite Hl; set_solver|].
  unfold trunc_step. pose proof (ext_get_ok i1 (zlength A) s1 Hi1 (proj1 (ct_ok _ _ _ _ _ _ _ Hct)) HnA) as Hg.
  destruct (ext_get_nolock i1 (zlength A) s1) as [[rc|e1] s2]; destruct Hg as [Hr Hg].
  { by destruct Hg as (_ & _ & Hno), Hrel. }
  assert (e1 = e) as -> by (eapply cutting_slot; eauto).
  apply (cutting_reads _ _ _ _ _ _ _ s2 Hr) in Hct.
  destruct (Z.eqb_spec (block_count e) 0); [lia|].
  pose proof (cut_snoc k A e (proj1 HposA) (proj2 HposA)) as Hsl.
  pose proof (cut_slot_ok i s l k A e i1 s2) as Hcs.
  pose proof (cut_count_step i s l k A e B i1) as Hcc. unfold cut_tail in Hcs, Hcc.
  assert (Htot : extent_total (A ++ [e]) = extent_total A + block_count e)
    by (rewrite extent_total_app; simpl; lia).
  pose proof (ba_limit s Hba) as [Hlim _]. pose proof (ba_range s Hba) as Hrg.
  pose proof (extent_total_nonneg A (proj1 HposA)) as HtA.
  destruct (Z.leb_spec k (extent_total A)) as [H1|H1].
  - specialize (Hcs (start_block e) (block_count e) zero_extent
      (u64 (blocks_used i1 - block_count e)) Hok Hw Hrel Hk Hct
      (ex_intro _ B Hl) ltac:(lia) eq_refl Hes ltac:(lia) zero_extent_ok Hsl).
    cbv zeta in Hcs. destruct (ext_set_nolock _ _ _ _) as [[rc i'] s'].
    destruct Hcs as [Hct' Hbu]. split_and!; [lia|done|]. unfold cut_count. rewrite Hbu.
    apply Hcc; try done. unfold zlength. rewrite length_seqZ. lia.
  - destruct (Z.ltb_spec k (extent_total A + block_count e)) as [H2|H2].
    + rewrite (u32_id (k - extent_total A)), (u64_id (start_block e + (k - extent_total A))) by lia.
      specialize (Hcs (start_block e + (k - extent_total A)) (block_count e - (k - extent_total A))
        (mkExt (start_block e) (k - extent_total A))
        (u64 (blocks_used i1 - (block_count e - (k - extent_total A)))) Hok Hw Hrel Hk Hct
        (ex_intro _ B Hl) ltac:(lia) eq_refl ltac:(lia) ltac:(lia)
        ltac:(unfold extent_ok, is_u64, is_u32; simpl; lia) Hsl).
      cbv zeta in Hcs. destruct (ext_set_nolock _ _ _ _) as [[rc i'] s'].
      destruct Hcs as [Hct' Hbu]. split_and!; [lia|done|]. unfold cut_count. rewrite Hbu.
      apply Hcc; try done. unfold zlength. rewrite length_seqZ. lia.
    + destruct Hct as [Hok1 He1 Hx1 Hu1 Hv1 Hin1].
      assert (Hd : drop (Z.to_nat k) (blocks (A ++ [e])) = drop (Z.to_nat k) (blocks A)).
      { rewrite (drop_blocks_snoc k A e (proj1 HposA) (proj2 HposA) Hk). unfold cut_tail.
        destruct (Z.leb_spec k (extent_total A)); [lia|].
        destruct (Z.ltb_spec k (extent_total A + block_count e)); [lia|]. apply app_nil_r. }
      split_and!; [lia| |unfold cut_count; by rewrite Hd].
      split; [done|done| |intros b Hb; rewrite Hd; by apply Hu1|done|done].
      rewrite Hx1, Hsl, length_app, <- app_assoc. f_equal. cbn [length app].
      assert (Hslot : exts i s !! length A = Some e).
      { destruct (iw_live _ _ _ Hw) as [_ (z & Hz & _)]. rewrite Hz, Hl, <- app_assoc.
        cbn [app]. by apply list_lookup_middle. }
      rewrite (drop_S _ e _ Hslot). do 2 f_equal. lia.
Qed.

Lemma cutting_nil i s l k :
  fs_ok s → inode_wf i s l → cutting i s l k [] i s ∧ cut_count i k [] i.
Proof.
  intros Hok Hw. split.
  2:{ unfold cut_count, blocks. cbn [map concat]. rewrite drop_nil. unfold zlength. simpl. lia. }
  split; [done|reflexivity|done| |done|].
  - intros b Hb. unfold blocks. cbn [map concat]. rewrite drop_nil.
    rewrite bool_decide_eq_false_2; [by rewrite andb_true_r|apply not_elem_of_nil].
  - exists (blocks_used i), (direct i), (i_dirty i). split; [by destruct i|apply Hw].
Qed.

Lemma trunc_loop_ok i s l k :
  fs_ok s → inode_wf i s l → io_reliable → 0 ≤ k →
  match for_range 0 KZFS_MAX_EXTENTS (trunc_step k) (0, i, s) with
  | inl (None, _, _) => False
  | inl (Some _, i1, s1) | inr (_, i1, s1) =>
      cutting i s l k l i1 s1 ∧ cut_count i k l i1
  end.
Proof.
  intros Hok Hw Hrel Hk. pose proof Hok as [_ Hba].
  pose proof (wf_ind_valid i s l Hba Hw) as Hi.
  pose proof (live_length i s l Hi (iw_live _ _ _ Hw)) as HlenL.
  opose proof* (for_range_rule
    (λ n (st : Z * inode_mem * fs S), ∃ A B, l = A ++ B ∧ n = zlength A ∧
       st.1.1 = extent_total A ∧ cutting i s l k A st.1.2 st.2 ∧ cut_count i k A st.1.2)
    (λ r : option Z * inode_mem * fs S, r.1.1 ≠ None ∧
       cutting i s l k l r.1.2 r.2 ∧ cut_count i k l r.1.2)
    0 KZFS_MAX_EXTENTS (trunc_step k) (0, i, s)) as Hr.
  - exists [], l. destruct (cutting_nil i s l k Hok Hw). by split_and!.
  - intros n [[c i1] s1] Hn (A & B & Hl & -> & Hc & Hct & Hcnt). cbn [fst snd] in *. subst c.
    destruct B as [|e B].
    + rewrite app_nil_r in Hl. subst A.
      pose proof (cutting_valid _ _ _ _ _ _ _ Hi Hct) as Hi1. unfold trunc_step.
      pose proof (ext_get_ok i1 (zlength l) s1 Hi1 (proj1 (ct_ok _ _ _ _ _ _ _ Hct)) Hn) as Hg.
      destruct (ext_get_nolock i1 (zlength l) s1) as [[rc|e1] s2]; destruct Hg as [Hrd Hg].
      { by destruct Hg as (_ & _ & Hno), Hrel. }
      assert (block_count e1 = 0) as -> by (apply (cutting_empty i s l k i1 s1 (zlength l) e1 Hw Hct (Z.le_refl _) Hg)).
      simpl. split_and!; [done|by eapply cutting_reads|done].
    + pose proof (trunc_step_ok i s l k A e B i1 s1 Hok Hw Hrel Hk Hct Hcnt Hl) as Hs.
      destruct (trunc_step k (zlength A) (extent_total A, i1, s1)) as [?|[[c' i'] s']]; [done|].
      destruct Hs as (-> & Hs & Hcs). exists (A ++ [e]), B. cbn [fst snd].
      split_and!; [by rewrite <- app_assoc|by rewrite zlength_app|done|done|done].
  - destruct (for_range _ _ _ _) as [[[[c|] i1] s1]|[[c i1] s1]]; cbn [fst snd] in Hr.
    + apply Hr.
    + by destruct Hr.
    + destruct Hr as (A & B & Hl & Hn & _ & Hct).
      assert (B = []) as ->.
      { destruct B as [|e B]; [done|]. rewrite Hl, zlength_app in HlenL.
        unfold zlength, KZFS_MAX_EXTENTS in *. simpl in HlenL. lia. }
      rewrite app_nil_r in Hl. by subst A.
Qed.

(** ** The result of giving up blocks *)

(** The inode keeps the extents [l']: it is well formed, exactly the blocks it no longer
    owns have become free, and only its indirect block may have been written. *)
Record shrunk i s l l' i' s' : Prop := {
  sh_wf : inode_wf i' s' l';
  sh_ok : fs_ok s';
  sh_env : same_env s s';
  sh_used b : 0 ≤ b →
    used s' b = used s b && (bool_decide (b ∉ owned i l) || bool_decide (b ∈ owned i' l'));
  sh_view b : ¬ is_indirect i b → io_view (dev s') b = io_view (dev s) b;
  sh_own b : b ∈ owned i' l' → b ∈ owned i l;
}.

Lemma shrunk_keeps i s l l' i' s' :
  shrunk i s l l' i' s' → keeps (λ b, b ∈ owned i l) s s'.
Proof.
  intros [_ Hok He Hu Hv _]. split_and!; [done|done|]. intros b Hb Hub Hno. split.
  - rewrite Hu, Hub by done. by rewrite bool_decide_eq_true_2.
  - apply Hv. intros Hi. apply Hno. by apply indirect_owned.
Qed.

Lemma shrunk_freed i s l l' i' s' b :
  fs_ok s → inode_wf i s l → shrunk i s l l' i' s' → b ∈ owned i l → b ∉ owned i' l' →
  used s' b = false.
Proof.
  intros [_ Hba] Hw Hs Hb Hb'. pose proof (iw_range _ _ _ Hw) as Hr. rewrite Forall_forall in Hr.
  destruct (data_block_bounds s b Hba (Hr b Hb)) as [? _].
  rewrite (sh_used _ _ _ _ _ _ Hs) by lia.
  rewrite bool_decide_eq_false_2 by tauto. rewrite bool_decide_eq_false_2 by done.
  apply andb_false_r.
Qed.

Lemma cut_done i s l k i1 s1 :
  fs_ok s → inode_wf i s l → 0 ≤ k → cutting i s l k l i1 s1 → cut_count i k l i1 →
  shrunk i s l (cut k l) i1 s1.
Proof.
  intros Hok Hw Hk [Hok1 He Hx Hu Hv (u & dr & dt & Ei & Hdr)] Hcnt.
  pose proof (iw_live _ _ _ Hw) as [Hpos (z & Hz & Hzero)]. pose proof Hok as [_ Hba].
  pose proof (cut_blocks k l Hpos Hk) as Hbl.
  set (ind := if indirect_extent_block i =? 0 then [] else [indirect_extent_block i]).
  assert (Ho1 : owned i1 (cut k l) = take (Z.to_nat k) (blocks l) ++ ind)
    by (unfold owned; by rewrite Hbl, Ei).
  assert (Ho : owned i l = (take (Z.to_nat k) (blocks l) ++ drop (Z.to_nat k) (blocks l)) ++ ind)
    by (unfold owned; by rewrite take_drop).
  assert (Hperm : owned i l ≡ₚ owned i1 (cut k l) ++ drop (Z.to_nat k) (blocks l))
    by (rewrite Ho, Ho1; solve_Permutation).
  pose proof (iw_nodup _ _ _ Hw) as Hnd. rewrite Hperm in Hnd.
  apply NoDup_app in Hnd as (Hnd1 & Hdis & _).
  assert (Hown : ∀ b, b ∈ owned i1 (cut k l) → b ∈ owned i l)
    by (intros b Hb; rewrite Hperm, elem_of_app; by left).
  pose proof (iw_range _ _ _ Hw) as Hr. pose proof (iw_used _ _ _ Hw) as Hus.
  rewrite Forall_forall in Hr, Hus. destruct (same_env_proj s s1 He) as (Htot & Hds & _).
  split; [|done|done| |done|done].
  - split; [|by rewrite Ei|done| | |].
    + split; [by apply cut_pos|]. exists (repeat zero_extent (length l - length (cut k l)) ++ z).
      split; [|apply Forall_app; split; [|done]].
      * rewrite Hx, Hz. unfold cut_slots. rewrite <- app_assoc. do 2 f_equal.
        by rewrite drop_app_length.
      * apply Forall_forall. by intros x ->%list_elem_of_In%repeat_spec.
    + apply Forall_forall. intros b Hb. destruct (Hr b (Hown b Hb)). split; lia.
    + apply Forall_forall. intros b Hb.
      destruct (data_block_bounds s b Hba (Hr b (Hown b Hb))) as [? _].
      rewrite Hu, (Hus b (Hown b Hb)) by lia.
      rewrite bool_decide_eq_false_2; [done|]. by apply Hdis.
    + rewrite Hcnt, (iw_count _ _ _ Hw). unfold zlength. rewrite Hperm, length_app. lia.
  - intros b Hb. rewrite Hu by done. f_equal.
    apply eq_true_iff_eq. rewrite negb_true_iff, orb_true_iff, bool_decide_eq_false, !bool_decide_eq_true.
    rewrite Hperm, elem_of_app. split; [|naive_solver].
    intros Hno. destruct (decide (b ∈ owned i1 (cut k l))); [by right|left; naive_solver].
Qed.

(** The indirect block is given up too. *)
Lemma release_done i s l l' i1 s1 i2 :
  fs_ok s → inode_wf i s l → shrunk i s l l' i1 s1 → (length l' ≤ 4)%nat →
  indirect_extent_block i1 ≠ 0 → direct i2 = direct i1 → indirect_extent_block i2 = 0 →
  blocks_used i2 = blocks_used i1 - 1 →
  shrunk i s l l' i2 (blk_free_run_nolock (indirect_extent_block i1) 1 s1).
Proof.
  intros Hok Hw [Hw1 Hok1 He1 Hu1 Hv1 Hown] Hl' Hne Hd2 Hi2 Hb2.
  pose proof (iw_range _ _ _ Hw1) as Hr1. rewrite Forall_forall in Hr1.
  assert (Hin : indirect_extent_block i1 ∈ owned i1 l') by (by apply indirect_owned).
  destruct (Hr1 _ Hin) as [Hlo Hhi]. pose proof Hok1 as [Hio1 Hba1].
  destruct (blk_free_ok (indirect_extent_block i1) 1 s1 Hba1) as (Hba2 & He2 & Hdev2 & Hu2);
    [lia..|].
  set (s2 := blk_free_run_nolock _ _ _) in *. clearbody s2.
  assert (Hok2 : fs_ok s2) by (split; [by rewrite Hdev2|done]).
  assert (Ho1 : owned i1 l' = blocks l' ++ [indirect_extent_block i1]).
  { unfold owned. by destruct (Z.eqb_spec (indirect_extent_block i1) 0). }
  assert (Ho2 : owned i2 l' = blocks l') by (unfold owned; by rewrite Hi2, app_nil_r).
  pose proof (iw_nodup _ _ _ Hw1) as Hnd. rewrite Ho1 in Hnd.
  apply NoDup_app in Hnd as (Hnd & Hdis & _).
  assert (Hnot : ∀ b, b ∈ blocks l' → b ≠ indirect_extent_block i1).
  { intros b Hb ->. apply (Hdis _ Hb). by left. }
  pose proof (iw_used _ _ _ Hw1) as Hus1. rewrite Forall_forall in Hus1.
  destruct (same_env_proj s1 s2 He2) as (Htot2 & Hds2 & _).
  split; [|done|by etrans| | |].
  - split; [|by rewrite Hd2; apply Hw1|by rewrite Ho2| | |].
    + pose proof (iw_live _ _ _ Hw1) as [Hpos (z & Hz & Hzero)]. split; [done|].
      exists (take (4 - length l') z ++ repeat zero_extent 341). split.
      * unfold exts. rewrite Hi2, Hd2, Z.eqb_refl, app_assoc. f_equal.
        apply (f_equal (take 4)) in Hz. unfold exts in Hz.
        rewrite take_app_length' in Hz by (by rewrite (iw_direct _ _ _ Hw1)).
        by rewrite Hz, take_app_ge by done.
      * apply Forall_app. split; [by apply Forall_take|].
        apply Forall_forall. by intros x ->%list_elem_of_In%repeat_spec.
    + rewrite Ho2. apply Forall_forall. intros b Hb.
      destruct (Hr1 b) as [? ?]; [rewrite Ho1; set_solver|]. split; lia.
    + rewrite Ho2. apply Forall_forall. intros b Hb.
      assert (Hb1 : b ∈ owned i1 l') by (rewrite Ho1; set_solver).
      destruct (data_block_bounds s1 b Hba1 (Hr1 b Hb1)) as [? _].
      rewrite Hu2, (Hus1 b Hb1) by lia. rewrite bool_decide_eq_false_2; [done|].
      specialize (Hnot b Hb). lia.
    + rewrite Hb2, Ho2, (iw_count _ _ _ Hw1), Ho1, zlength_app. unfold zlength. simpl. lia.
  - intros b Hb. rewrite Hu2, Hu1, Ho1, Ho2 by done. destruct (used s b); [|by rewrite andb_false_r].
    rewrite !andb_true_l. apply eq_true_iff_eq. rewrite andb_true_iff, negb_true_iff, !orb_true_iff,
      !bool_decide_eq_true, bool_decide_eq_false, elem_of_app, list_elem_of_singleton.
    destruct (Z.eq_dec b (indirect_extent_block i1)) as [->|Hbne].
    + pose proof (Hown _ Hin). split; [intros [? _]; lia|].
      intros [?|Hbb]; [done|]. by destruct (Hnot _ Hbb).
    + split; [intros [_ [?|[?|?]]]; tauto|]. intros [?|?]; (split; [lia|tauto]).
  - intros b Hb. rewrite Hdev2. by apply Hv1.
  - intros b Hb. apply Hown. rewrite Ho1, elem_of_app. rewrite Ho2 in Hb. by left.
Qed.

(** ** The indirect block *)
Lemma any_loop_ok i s l :
  ind_valid i → io_ok (dev s) → live i s l → reads_succeed →
  match for_range 0 KZFS_EXTS_PER_IND_BLOCK (any_step i) s with
  | inl (any, s') => reads s s' ∧ any = true
  | inr s' => reads s s' ∧ (length l ≤ 4)%nat
  end.
Proof.
  intros Hi Hok Hl Hrel.
  opose proof* (for_range_rule
    (λ k s1, 0 ≤ k ∧ reads s s1 ∧ (0 < k → (length l ≤ 4)%nat))
    (λ r : bool * fs S, reads s r.2 ∧ r.1 = true)
    0 KZFS_EXTS_PER_IND_BLOCK (any_step i) s) as Hr.
  - split_and!; [done|reflexivity|lia].
  - intros k s1 Hk (_ & Hr & Hlen). unfold any_step. change KZFS_NUM_DIRECT_EXTENTS with 4.
    assert (Hn : 0 ≤ 4 + k < KZFS_MAX_EXTENTS)
      by (unfold KZFS_EXTS_PER_IND_BLOCK, KZFS_MAX_EXTENTS in *; lia).
    pose proof (ext_get_ok i (4 + k) s1 Hi (reads_ok _ _ Hr Hok) Hn) as Hg.
    destruct (ext_get_nolock i (4 + k) s1) as [[rc|e] s2]; destruct Hg as [Hr2 Hg];
      (assert (Hr' : reads s s2) by (by etrans)).
    { by destruct Hg as (_ & _ & Hno). }
    rewrite (reads_exts i s s1 Hr) in Hg. destruct (Z.eqb_spec (block_count e) 0) as [E|E]; simpl; [|done].
    split_and!; [lia|done|intros _]. destruct (Z.eq_dec k 0) as [->|]; [|apply Hlen; lia].
    destruct (live_slot i s l _ e Hl Hg) as [(_ & _ & ?)|[? _]]; [lia|]. simpl in *. lia.
  - destruct (for_range _ _ _ _) as [[any s1]|s1]; [done|]. destruct Hr as (_ & Hr & Hlen).
    split; [done|]. apply Hlen. done.
Qed.

Lemma shrunk_reads i s l l' i1 s1 s2 :
  reads s1 s2 → shrunk i s l l' i1 s1 → shrunk i s l l' i1 s2.
Proof.
  intros Hr [Hw1 Hok1 He1 Hu1 Hv1 Hown].
  split; [by apply (reads_wf i1 s1)|by apply (reads_fs_ok s1)| | | |done].
  - etrans; [exact He1|by apply reads_env].
  - destruct Hr as (d & -> & _). exact Hu1.
  - intros b Hb. destruct Hr as (d & -> & _ & Hvs). simpl. by rewrite Hvs, Hv1.
Qed.

Lemma shrunk_meta i s l l' i1 i2 s1 :
  direct i2 = direct i1 → indirect_extent_block i2 = indirect_extent_block i1 →
  blocks_used i2 = blocks_used i1 → shrunk i s l l' i1 s1 → shrunk i s l l' i2 s1.
Proof.
  intros Hd Hi Hb [Hw1 Hok1 He1 Hu1 Hv1 Hown].
  assert (Ho : owned i2 l' = owned i1 l') by (unfold owned; by rewrite Hi).
  split; [by apply (wf_meta i1)|done|done|by rewrite Ho|done|by rewrite Ho].
Qed.

Lemma drop_indirect_ok i s l l' i1 s1 :
  fs_ok s → inode_wf i s l → reads_succeed → shrunk i s l l' i1 s1 →
  let '(i2, s2) := drop_indirect i1 s1 in shrunk i s l l' i2 s2.
Proof.
  intros Hok Hw Hrel Hs. unfold drop_indirect.
  destruct (Z.eqb_spec (indirect_extent_block i1) 0) as [E|E]; cbn [negb]; [done|].
  pose proof (sh_wf _ _ _ _ _ _ Hs) as Hw1. pose proof (sh_ok _ _ _ _ _ _ Hs) as [Hio1 Hba1].
  pose proof (any_loop_ok i1 s1 l' (wf_ind_valid i1 s1 l' Hba1 Hw1) Hio1 (iw_live _ _ _ Hw1) Hrel) as Ha.
  destruct (for_range _ _ _ _) as [[any s2]|s2]; destruct Ha as [Hr Ha].
  - rewrite Ha. cbn [negb]. by apply (shrunk_reads _ _ _ _ _ s1).
  - cbn [negb]. apply (release_done i s l l' i1 s2); [done|done| |done|done|done|done|].
    + by apply (shrunk_reads _ _ _ _ _ s1).
    + simpl. pose proof (owned_bound i1 s1 l' Hba1 Hw1). rewrite (iw_count _ _ _ Hw1).
      assert (1 ≤ zlength (owned i1 l')).
      { unfold owned, zlength. rewrite length_app.
        destruct (Z.eqb_spec (indirect_extent_block i1) 0); [done|]. simpl. lia. }
      rewrite u64_id; lia.
Qed.

(** The number of blocks that hold [n] bytes. *)
Definition blocks_for (n : Z) : Z := (n + KZFS_BLOCK_SIZE - 1) / KZFS_BLOCK_SIZE.

Lemma truncate_ok i s l new_size :
  fs_ok s → inode_wf i s l → io_reliable → 0 ≤ new_size →
  let '(rc, i', s') := truncate_nolock i new_size s in
  rc = KZFS_EOK ∧ size_bytes i' = new_size ∧
  ∃ l', blocks l' = take (Z.to_nat (blocks_for new_size)) (blocks l) ∧ shrunk i s l l' i' s'.
Proof.
  intros Hok Hw Hrel Hn. unfold truncate_nolock.
  assert (Hk : (if new_size =? 0 then 0 else (new_size - 1) / KZFS_BLOCK_SIZE + 1) =
               blocks_for new_size).
  { unfold blocks_for, KZFS_BLOCK_SIZE. destruct (Z.eqb_spec new_size 0) as [->|]; [done|].
    zdiv. }
  rewrite Hk. assert (H0 : 0 ≤ blocks_for new_size) by (unfold blocks_for, KZFS_BLOCK_SIZE; zdiv).
  set (k := blocks_for new_size) in *. clearbody k.
  assert (Hfin : ∀ i1 s1, cutting i s l k l i1 s1 → cut_count i k l i1 →
    let '(rc, i', s') := (let '(i, s) := drop_indirect i1 s1 in
                 (KZFS_EOK, i_set_dirty true (i_set_size new_size i), s)) in
    rc = KZFS_EOK ∧ size_bytes i' = new_size ∧
    ∃ l', blocks l' = take (Z.to_nat k) (blocks l) ∧ shrunk i s l l' i' s').
  { intros i1 s1 Hct Hc. pose proof (cut_done i s l k i1 s1 Hok Hw H0 Hct Hc) as Hs.
    pose proof (drop_indirect_ok i s l (cut k l) i1 s1 Hok Hw (proj1 Hrel) Hs) as Hd.
    destruct (drop_indirect i1 s1) as [i2 s2]. split_and!; [done|done|].
    exists (cut k l). split; [apply cut_blocks; [apply (iw_live _ _ _ Hw)|done]|].
    by apply (shrunk_meta _ _ _ _ i2). }
  pose proof (trunc_loop_ok i s l k Hok Hw Hrel H0) as Ht.
  destruct (for_range _ _ _ _) as [[[[c|] i1] s1]|[[c i1] s1]];
    [|done|]; exact (Hfin i1 s1 (proj1 Ht) (proj2 Ht)).
Qed.

(** ** Freeing an inode's blocks *)
Lemma free_ext_step_ok i s l A e B i1 s1 :
  fs_ok s → inode_wf i s l → io_reliable → cutting i s l 0 A i1 s1 → l = A ++ e :: B →
  match free_ext_step (zlength A) (i1, s1) with
  | inl _ => False
  | inr (i', s') => cutting i s l 0 (A ++ [e]) i' s'
  end.
Proof.
  intros Hok Hw Hrel Hct Hl. pose proof Hok as [_ Hba].
  pose proof (cutting_valid _ _ _ _ _ _ _ (wf_ind_valid i s l Hba Hw) Hct) as Hi1.
  pose proof (live_length i s l (wf_ind_valid i s l Hba Hw) (iw_live _ _ _ Hw)) as HlenL.
  assert (HnA : 0 ≤ zlength A < KZFS_MAX_EXTENTS).
  { rewrite Hl, zlength_app in HlenL. unfold zlength in *. simpl in HlenL. lia. }
  assert (HposA : Forall (λ e, 0 < block_count e) A ∧ 0 < block_count e).
  { pose proof (iw_live _ _ _ Hw) as [Hpos _]. rewrite Hl in Hpos.
    apply Forall_app in Hpos as [? [? _]%Forall_cons]. done. }
  destruct (wf_extent i s l e Hw) as (_ & Hes & Het); [rewrite Hl; set_solver|].
  unfold free_ext_step.
  pose proof (ext_get_ok i1 (zlength A) s1 Hi1 (proj1 (ct_ok _ _ _ _ _ _ _ Hct)) HnA) as Hg.
  destruct (ext_get_nolock i1 (zlength A) s1) as [[rc|e1] s2]; destruct Hg as [Hr Hg].
  { by destruct Hg as (_ & _ & Hno), Hrel. }
  assert (e1 = e) as -> by (eapply cutting_slot; eauto).
  apply (cutting_reads _ _ _ _ _ _ _ s2 Hr) in Hct.
  destruct (Z.eqb_spec (block_count e) 0); [lia|].
  pose proof (extent_total_nonneg A (proj1 HposA)) as HtA.
  assert (Hcmp : (0 <=? extent_total A) = true) by (apply Z.leb_le; lia).
  pose proof (cut_snoc 0 A e (proj1 HposA) (proj2 HposA)) as Hsl. rewrite Hcmp in Hsl.
  pose proof (cut_slot_ok i s l 0 A e i1 s2 (start_block e) (block_count e) zero_extent
    (blocks_used i1) Hok Hw Hrel ltac:(lia) Hct (ex_intro _ B Hl) ltac:(lia)
    ltac:(unfold cut_tail; by rewrite Hcmp) Hes ltac:(lia) zero_extent_ok Hsl) as Hcs.
  cbv zeta in Hcs. assert (i_set_used (blocks_used i1) i1 = i1) as Heta by (by destruct i1).
  rewrite Heta in Hcs. destruct (ext_set_nolock _ _ _ _) as [[rc i'] s']. apply Hcs.
Qed.

Lemma free_all_loop_ok i s l :
  fs_ok s → inode_wf i s l → io_reliable →
  let '(i1, s1) := match for_range 0 KZFS_MAX_EXTENTS free_ext_step (i, s) with
                   | inl r => r
                   | inr r => r
                   end in
  cutting i s l 0 l i1 s1.
Proof.
  intros Hok Hw Hrel. pose proof Hok as [_ Hba].
  pose proof (wf_ind_valid i s l Hba Hw) as Hi.
  pose proof (live_length i s l Hi (iw_live _ _ _ Hw)) as HlenL.
  opose proof* (for_range_rule
    (λ n (st : inode_mem * fs S), ∃ A B, l = A ++ B ∧ (n = zlength A ∨ (B = [] ∧ zlength A ≤ n)) ∧
       cutting i s l 0 A st.1 st.2)
    (λ r : inode_mem * fs S, cutting i s l 0 l r.1 r.2)
    0 KZFS_MAX_EXTENTS free_ext_step (i, s)) as Hr.
  - exists [], l. destruct (cutting_nil i s l 0 Hok Hw). split_and!; [done|by left|done].
  - intros n [i1 s1] Hn (A & B & Hl & Hcase & Hct). cbn [fst snd] in *. destruct B as [|e B].
    + rewrite app_nil_r in Hl. subst A. assert (Hnl : zlength l ≤ n) by (destruct Hcase; lia).
      pose proof (cutting_valid _ _ _ _ _ _ _ Hi Hct) as Hi1. unfold free_ext_step.
      pose proof (ext_get_ok i1 n s1 Hi1 (proj1 (ct_ok _ _ _ _ _ _ _ Hct)) Hn) as Hg.
      destruct (ext_get_nolock i1 n s1) as [[rc|e1] s2]; destruct Hg as [Hrd Hg].
      { by destruct Hg as (_ & _ & Hno), Hrel. }
      assert (block_count e1 = 0) as -> by (eapply cutting_empty; eauto).
      simpl. assert (cutting i s l 0 l i1 s2) by (by eapply cutting_reads).
      destruct (KZFS_NUM_DIRECT_EXTENTS <=? n); [done|].
      exists l, []. rewrite app_nil_r. split_and!; [done|right; split; [done|lia]|done].
    + assert (n = zlength A) as -> by (destruct Hcase as [?|[? _]]; done).
      pose proof (free_ext_step_ok i s l A e B i1 s1 Hok Hw Hrel Hct Hl) as Hs.
      destruct (free_ext_step (zlength A) (i1, s1)) as [?|[i' s']]; [done|].
      exists (A ++ [e]), B. split_and!; [by rewrite <- app_assoc|left; by rewrite zlength_app|done].
  - destruct (for_range _ _ _ _) as [[i1 s1]|[i1 s1]]; [done|].
    destruct Hr as (A & B & Hl & Hcase & Hct). cbn [fst snd] in Hct.
    assert (B = []) as ->.
    { destruct Hcase as [Hn|[? _]]; [|done]. destruct B as [|e B]; [done|].
      rewrite Hl, zlength_app in HlenL. unfold zlength, KZFS_MAX_EXTENTS in *. simpl in HlenL. lia. }
    rewrite app_nil_r in Hl. by subst A.
Qed.

Lemma free_all_ok i s l :
  fs_ok s → inode_wf i s l → io_reliable →
  let '(i', s') := inode_free_all_extents i s in
  shrunk i s l [] i' s' ∧ size_bytes i' = 0 ∧ owned i' [] = [].
Proof.
  intros Hok Hw Hrel. unfold inode_free_all_extents.
  pose proof (free_all_loop_ok i s l Hok Hw Hrel) as Hct.
  destruct (match for_range _ _ _ _ with inl r => r | inr r => r end) as [i1 s1].
  assert (Hcut : cut 0 l = []) by (by destruct l).
  set (u := blocks_used i - zlength (drop 0 (blocks l))).
  assert (Hs : shrunk i s l [] (i_set_used u i1) s1).
  { rewrite <- Hcut. apply cut_done; [done|done|lia| |done].
    destruct Hct as [? ? ? ? ? (u1 & dr & dt & -> & ?)]. by split; [..|exists u, dr, dt]. }
  pose proof (sh_wf _ _ _ _ _ _ Hs) as Hw1. pose proof (iw_count _ _ _ Hw1) as Hcnt.
  destruct (Z.eqb_spec (indirect_extent_block i1) 0) as [E|E]; cbn [negb].
  - assert (owned (i_set_used u i1) [] = []) as Ho by (unfold owned; simpl; by rewrite E).
    rewrite Ho in Hcnt. split_and!; [|done|unfold owned; simpl; by rewrite E].
    apply (shrunk_meta _ _ _ _ (i_set_used u i1)); [done|done| |done]. by rewrite Hcnt.
  - split_and!; [|done|done].
    apply (release_done i s l [] (i_set_used u i1) s1); [done|done|done|simpl; lia|done|done|done|].
    rewrite Hcnt. unfold owned. simpl. by destruct (Z.eqb_spec (indirect_extent_block i1) 0).
Qed.

(** ** Theorems *)

(** On a device whose transfers succeed, [truncate_nolock] succeeds and sets the size;
    the file keeps exactly the blocks that hold its first [new_size] bytes, in order and
    with their contents, exactly the blocks it gives up become free, its indirect block
    included when no extent needs it, and the inode is well formed. *)
Theorem truncate_spec i s l new_size :
  fs_ok s → inode_wf i s l → io_reliable → 0 ≤ new_size →
  let '(rc, i', s') := truncate_nolock i new_size s in
  rc = KZFS_EOK ∧ size_bytes i' = new_size ∧
  ∃ l', blocks l' = take (Z.to_nat (blocks_for new_size)) (blocks l) ∧ shrunk i s l l' i' s'.
Proof. apply truncate_ok. Qed.

(** On a device whose transfers succeed, [inode_free_all_extents] frees exactly the
    blocks the inode owns and leaves it owning none; no block of another file changes. *)
Theorem free_all_extents_spec i s l :
  fs_ok s → inode_wf i s l → io_reliable →
  let '(i', s') := inode_free_all_extents i s in
  size_bytes i' = 0 ∧ owned i' [] = [] ∧ inode_wf i' s' [] ∧
  keeps (λ b, b ∈ owned i l) s s' ∧ ∀ b, b ∈ owned i l → used s' b = false.
Proof.
  intros Hok Hw Hrel. pose proof (free_all_ok i s l Hok Hw Hrel) as Hf.
  destruct (inode_free_all_extents i s) as [i' s']. destruct Hf as (Hs & Hsz & Ho).
  split_and!; [done|done|apply Hs|by apply (shrunk_keeps _ _ _ [] i')|].
  intros b Hb. apply (shrunk_freed i s l [] i'); [done..|]. rewrite Ho. apply not_elem_of_nil.
Qed.
End spec.

Lemma ram_reliable : @io_reliable (gmap Z (list Z)) _.
Proof. split; [exact ram_reads_succeed|done]. Qed.

Lemma truncate_spec_witness :
  let '(rc, i', s') := truncate_nolock file_inode 100 file_fs in
  rc = KZFS_EOK ∧ size_bytes i' = 100 ∧
  ∃ l', blocks l' = [8] ∧ shrunk file_inode file_fs file_exts l' i' s'.
Proof.
  exact (truncate_spec file_inode file_fs file_exts 100 file_fs_ok file_inode_wf ram_reliable
    ltac:(lia)).
Defined.

Lemma free_all_extents_spec_witness :
  let '(i', s') := inode_free_all_extents file_inode file_fs in
  owned i' [] = [] ∧ used s' 9 = false.
Proof.
  pose proof (free_all_extents_spec file_inode file_fs file_exts file_fs_ok file_inode_wf
    ram_reliable) as Hs.
  destruct (inode_free_all_extents file_inode file_fs) as [i' s'].
  destruct Hs as (_ & Ho & _ & _ & Hf). split; [exact Ho|].
  apply Hf. change (owned file_inode file_exts) with [8; 9]. right. left.
Defined.
