(* ===== verification/KfsMeta.v ===== *)
(** Superblock and bitmaps of KyuzenFS V4 ([kernel/fs/kfs_super.c], all but formatting and
    mounting as a whole, which are in [KfsSuper]): reading and writing the superblock,
    computing the layout of a disk, loading and storing the bitmaps, synchronisation and
    statistics. *)

From S2P Require Import Prelude Bitmap BlockIO Kfs KfsInode KfsBalloc KfsExtent.

Section ops.
Context {S : Type} `{BlockIO S}.
Implicit Types s : fs S.

(** ** The superblock *)
Definition sb_load s : Z * fs S :=
  match io_read 0 (dev s) with
  | (None, d) => (KZFS_EIO, set_dev d s)
  | (Some b, d) =>
      let s := set_sb (dec_super b) (set_dev d s) in
      if negb (sb_magic (sb_cache s) =? KZFS_MAGIC) then (KZFS_EINVAL, s) else (KZFS_EOK, s)
  end.

Definition sb_save s : Z * fs S :=
  match io_overwrite 0 (enc_super (sb_cache s)) (dev s) with
  | (false, d) => (KZFS_EIO, set_dev d s)
  | (true, d) => (KZFS_EOK, set_dev d s)
  end.

(** ** The layout *)

(** The assignments to [sb_cache] of [layout_compute]. *)
Definition layout_compute (total_blocks : Z) (b : superblock) : superblock :=
  let total_inodes := total_blocks / 16 in
  let total_inodes := if 262144 <? total_inodes then 262144 else total_inodes in
  let total_inodes := if total_inodes <? 512 then 512 else total_inodes in
  let cap := u64 (total_blocks * (KZFS_BLOCK_SIZE / KZFS_INODE_SIZE)) / 2 in
  let total_inodes := if cap <? total_inodes then cap else total_inodes in
  let bm_start := 1 in
  let bm_bytes := u64 (total_blocks + 7) / 8 in
  let bm_blks := u32 ((bm_bytes + KZFS_BLOCK_SIZE - 1) / KZFS_BLOCK_SIZE) in
  let ibm_start := bm_start + bm_blks in
  let ib_bytes := (total_inodes + 7) / 8 in
  let ibm_blks := u32 ((ib_bytes + KZFS_BLOCK_SIZE - 1) / KZFS_BLOCK_SIZE) in
  let it_start := ibm_start + ibm_blks in
  let it_blks := u32 ((total_inodes + KZFS_INODES_PER_BLOCK - 1) / KZFS_INODES_PER_BLOCK) in
  let data := it_start + it_blks in
  mkSb KZFS_MAGIC KZFS_VERSION KZFS_BLOCK_SIZE (pad0 b) total_blocks
       (u64 (total_blocks - data)) (u32 total_inodes) (u32 (u32 total_inodes - 1))
       bm_start bm_blks (pad1 b) ibm_start ibm_blks (pad2 b) it_start it_blks (pad3 b)
       data 1 (pad4 b) (sb_reserved b).

Definition layout_globals_load s : fs S :=
  let b := sb_cache s in
  set_layout (block_bitmap_blocks b) (inode_bitmap_blocks b) (inode_table_start b)
    (if negb (root_inode b =? 0) then root_inode b else 1) (data_blocks_start b) s.

(** Two [kmalloc] calls for the bitmaps; fresh memory is given as zeros, which both users
    overwrite. *)
Definition alloc_bitmaps s : bool * fs S :=
  let '(ok1, s) := try_kmalloc s in
  let '(ok2, s) := try_kmalloc s in
  let n1 := u32 (bm_blocks s * KZFS_BLOCK_SIZE) in
  let n2 := u32 (ibm_blocks s * KZFS_BLOCK_SIZE) in
  let s := set_bm (if ok1 then repeat 0 (Z.to_nat n1) else []) (bm_dirty s) s in
  let s := set_ibm (if ok2 then repeat 0 (Z.to_nat n2) else []) (ibm_dirty s) s in
  (ok1 && ok2, s).

(** ** The bitmaps *)

(** The bodies of the two loops of [mount_load_bitmaps], which read a bitmap block by
    block; [inl] is the error return. *)
Definition load_bm_step (i : Z) s : fs S + fs S :=
  match io_read (u64 (block_bitmap_start (sb_cache s) + i)) (dev s) with
  | (None, d) => inl (set_dev d s)
  | (Some b, d) =>
      inr (set_bm (splice (bm_mem s) (u32 (i * KZFS_BLOCK_SIZE)) b) (bm_dirty s) (set_dev d s))
  end.

Definition load_ibm_step (i : Z) s : fs S + fs S :=
  match io_read (u64 (inode_bitmap_start (sb_cache s) + i)) (dev s) with
  | (None, d) => inl (set_dev d s)
  | (Some b, d) =>
      inr (set_ibm (splice (ibm_mem s) (u32 (i * KZFS_BLOCK_SIZE)) b) (ibm_dirty s) (set_dev d s))
  end.

Definition mount_load_bitmaps s : Z * fs S :=
  let s := layout_globals_load s in
  let '(ok, s) := alloc_bitmaps s in
  if negb ok then (KZFS_ENOMEM, s) else
  match for_range 0 (bm_blocks s) load_bm_step s with
  | inl s => (KZFS_EIO, s)
  | inr s =>
      match for_range 0 (ibm_blocks s) load_ibm_step s with
      | inl s => (KZFS_EIO, s)
      | inr s =>
          let s := set_ibm (ibm_mem s) false (set_bm (bm_mem s) false s) in
          (KZFS_EOK, set_mounted true s)
      end
  end.

(** Writes the blocks of a bitmap; [inl] is the error return. *)
Definition store_step (mem : list Z) (start i : Z) s : fs S + fs S :=
  match io_overwrite (u64 (start + i)) (slice (u32 (i * KZFS_BLOCK_SIZE)) KZFS_BLOCK_SIZE mem) (dev s) with
  | (false, d) => inl (set_dev d s)
  | (true, d) => inr (set_dev d s)
  end.

Definition bm_flush s : Z * fs S :=
  if negb (bm_dirty s) then (KZFS_EOK, s) else
  match for_range 0 (bm_blocks s) (store_step (bm_mem s) (block_bitmap_start (sb_cache s))) s with
  | inl s => (KZFS_EIO, s)
  | inr s => (KZFS_EOK, set_bm (bm_mem s) false s)
  end.

Definition ibm_flush s : Z * fs S :=
  if negb (ibm_dirty s) then (KZFS_EOK, s) else
  match for_range 0 (ibm_blocks s) (store_step (ibm_mem s) (inode_bitmap_start (sb_cache s))) s with
  | inl s => (KZFS_EIO, s)
  | inr s => (KZFS_EOK, set_ibm (ibm_mem s) false s)
  end.

(** ** Synchronisation and statistics *)
Definition kfs_v4_is_mounted s : bool := fs_mounted s.

Definition kfs_v4_get_stats s : Z * Z * Z * Z :=
  (total_blocks (sb_cache s), free_blocks (sb_cache s),
   total_inodes (sb_cache s), free_inodes (sb_cache s)).

(** [bm_flush], [ibm_flush] and [sb_save], their results ignored. *)
Definition flush_meta s : fs S := (sb_save (ibm_flush (bm_flush s).2).2).2.

Definition kfs_sync_all s : fs S :=
  if negb (fs_mounted s) then s else
  let s := flush_meta s in
  set_dev (io_flush (dev s)) s.

(** The variant of the panic path; the arguments say whether the two locks are free. *)
Definition kfs_sync_all_try (fs_free cache_free : bool) s : Z * fs S :=
  if negb (fs_mounted s) then (0, s) else
  if negb fs_free then (0, s) else
  let s := flush_meta s in
  if negb cache_free then (0, s) else (1, set_dev (io_flush (dev s)) s).
End ops.
