(* ===== verification/KfsDir.v ===== *)
(** Directories of KyuzenFS V4 ([kernel/fs/kfs_dir.c], the part on one directory): a
    directory is a file of records of variable length,

      inode number (4 bytes) | record length (2) | name length (1) | type (1) | name | padding

    where inode number 0 marks a free record.  The loops over the blocks of the directory
    are [for_range] over the block index, the loops over the records of a block carry fuel
    for the 342 records that fit.  Names are the bytes before the terminating NUL. *)

From S2P Require Import Prelude Bitmap BlockIO Kfs KfsInode KfsBalloc KfsExtent.

Section ops.
Context {S : Type} `{BlockIO S}.
Implicit Types (s : fs S) (dir : inode_mem) (name tmp : list Z).

(** ** Records *)
Definition r_ino tmp (pos : Z) : Z := field pos 4 tmp.
Definition r_rec tmp (pos : Z) : Z := field (pos + 4) 2 tmp.
Definition r_nlen tmp (pos : Z) : Z := lget tmp (pos + 6).
Definition r_ftype tmp (pos : Z) : Z := lget tmp (pos + 7).

(** The header and the name of a record, as stored at its start. *)
Definition record (target rec ftype : Z) name : list Z :=
  le_bytes 4 target ++ le_bytes 2 rec ++ [u8 (zlength name); ftype] ++ name.

(** [while (pos + 8 <= chunk) { ... pos += e_rec; }] *)
Definition dirent_fuel : nat := 342.

Fixpoint dirent_loop {R A} (fuel : nat) (body : Z → A → R + A) tmp (chunk pos : Z) (a : A)
    : R + A :=
  if chunk <? pos + 8 then inr a else
  match fuel with
  | O => inr a
  | Datatypes.S fuel =>
      match body pos a with
      | inl r => inl r
      | inr a => dirent_loop fuel body tmp chunk (pos + r_rec tmp pos) a
      end
  end.

(** The loop over the blocks, which reads each into [tmp] and runs the loop over its
    records.  [strict] is the test [got != chunk] that [dir_add_entry] alone has; [bad] is
    the outcome of a failed read. *)
Definition chunk_at dir (off : Z) : Z :=
  if size_bytes dir <? off + KZFS_BLOCK_SIZE then u32 (size_bytes dir - off) else KZFS_BLOCK_SIZE.

Definition scan_step {R A} (strict : bool) (bad : R) dir
    (visit : list Z → Z → Z → Z → A → R + A) (b : Z) (st : A * list Z * fs S)
    : (R * fs S) + (A * list Z * fs S) :=
  let '(a, tmp, s) := st in
  let off := b * KZFS_BLOCK_SIZE in
  let chunk := chunk_at dir off in
  let '(rc, bs, s) := blk_read_file dir off chunk s in
  if negb (rc =? KZFS_EOK) || (strict && negb (zlength bs =? chunk)) then inl (bad, s) else
  let tmp := bs ++ drop (length bs) tmp in
  match dirent_loop dirent_fuel (visit tmp off chunk) tmp chunk 0 a with
  | inl r => inl (r, s)
  | inr a => inr (a, tmp, s)
  end.

Definition dir_blocks dir : Z := (size_bytes dir + KZFS_BLOCK_SIZE - 1) / KZFS_BLOCK_SIZE.

Definition scan_dir {R A} (strict : bool) (bad : R) dir
    (visit : list Z → Z → Z → Z → A → R + A) (a : A) s : (R + A) * fs S :=
  match for_range 0 (dir_blocks dir) (scan_step strict bad dir visit)
          (a, repeat 0 BLK, s) with
  | inl (r, s) => (inl r, s)
  | inr (a, _, s) => (inr a, s)
  end.

(** ** Adding an entry *)

(** The body of the loop over records: an error, or the place and length of a free record
    that is large enough. *)
Definition add_visit (rec_len : Z) tmp (off chunk pos : Z) (a : unit) : (Z + Z * Z) + unit :=
  if (r_rec tmp pos <? KZFS_DIRENT_MIN_REC) || (chunk - pos <? r_rec tmp pos)
  then inl (inl KZFS_EIO)
  else if (r_ino tmp pos =? 0) && (rec_len <=? r_rec tmp pos)
  then inl (inr (off + pos, r_rec tmp pos))
  else inr a.

(** The bytes written over a free record of length [e_rec]: the new record, and a free
    record for the rest if it can hold one. *)
Definition reuse_bytes (target ftype rec_len e_rec : Z) name : list Z :=
  let use := if e_rec - rec_len <? KZFS_DIRENT_MIN_REC then e_rec else rec_len in
  let rec := splice (repeat 0 (Z.to_nat e_rec)) 0 (record target use ftype name) in
  if use <? e_rec then splice rec use (le_bytes 4 0 ++ le_bytes 2 (u16 (e_rec - use))) else rec.

Definition dirent_len name : Z := u16 (Z.land (8 + zlength name + 3) 0xFFFFFFFC).

(** The appended record is built in an array of KZFS_DIRENT_MAX_REC bytes; the definition
    gives its bytes also where [dirent_len] exceeds that. *)
Definition dir_add_entry dir name (target ftype : Z) s : Z * inode_mem * fs S :=
  let nl := zlength name in
  if (nl =? 0) || (KZFS_NAME_MAX <? nl) then (KZFS_ENAMETOOLONG, dir, s) else
  let rec_len := dirent_len name in
  let '(ok, s) := try_kmalloc s in
  if negb ok then (KZFS_ENOMEM, dir, s) else
  match scan_dir true (inl KZFS_EIO) dir (add_visit rec_len) tt s with
  | (inl (inl rc), s) => (rc, dir, s)
  | (inl (inr (at_, e_rec)), s) =>
      let '(ok, s) := try_kmalloc s in
      if negb ok then (KZFS_ENOMEM, dir, s) else
      let '(rc, _, dir, s) :=
        blk_write_file dir at_ (reuse_bytes target ftype rec_len e_rec name) s in
      (rc, dir, s)
  | (inr _, s) =>
      let rec := splice (repeat 0 (Z.to_nat rec_len)) 0 (record target rec_len ftype name) in
      let '(rc, _, dir, s) := blk_write_file dir (size_bytes dir) rec s in
      (rc, dir, s)
  end.

(** ** Finding and removing an entry *)
Definition entry_match name tmp (pos : Z) : bool :=
  negb (r_ino tmp pos =? 0) && (r_nlen tmp pos =? zlength name)
  && bool_decide (slice (pos + 8) (zlength name) tmp = name).

(** The outcome of a match is its place, its length, its inode and its type. *)
Definition find_visit name tmp (off chunk pos : Z) (a : unit) : (Z + Z * Z * Z * Z) + unit :=
  if r_rec tmp pos <? KZFS_DIRENT_MIN_REC then inl (inl KZFS_EIO)
  else if entry_match name tmp pos
  then inl (inr (off + pos, r_rec tmp pos, r_ino tmp pos, r_ftype tmp pos))
  else inr a.

Definition dir_lookup_entry dir name s : (Z + Z * Z) * fs S :=
  if KZFS_NAME_MAX <? zlength name then (inl KZFS_ENAMETOOLONG, s) else
  let '(ok, s) := try_kmalloc s in
  if negb ok then (inl KZFS_ENOMEM, s) else
  match scan_dir false (inl KZFS_EIO) dir (find_visit name) tt s with
  | (inl (inl rc), s) => (inl rc, s)
  | (inl (inr (_, _, e_ino, e_ftype)), s) => (inr (e_ino, e_ftype), s)
  | (inr _, s) => (inl KZFS_ENOENT, s)
  end.

Definition dir_remove_entry dir name s : Z * inode_mem * fs S :=
  if KZFS_NAME_MAX <? zlength name then (KZFS_ENAMETOOLONG, dir, s) else
  let '(ok, s) := try_kmalloc s in
  if negb ok then (KZFS_ENOMEM, dir, s) else
  match scan_dir false (inl KZFS_EIO) dir (find_visit name) tt s with
  | (inl (inl rc), s) => (rc, dir, s)
  | (inl (inr (at_, e_rec, _, _)), s) =>
      let free := le_bytes 4 0 ++ le_bytes 2 e_rec ++ repeat 0 (Z.to_nat (e_rec - 6)) in
      let '(rc, _, dir, s) := blk_write_file dir at_ free s in
      (rc, dir, s)
  | (inr _, s) => (KZFS_ENOENT, dir, s)
  end.

(** ** Enumeration *)
Definition index_visit (index cap : Z) tmp (off chunk pos : Z) (seen : Z)
    : (Z + list Z * Z) + Z :=
  if r_rec tmp pos <? KZFS_DIRENT_MIN_REC then inl (inl KZFS_EIO)
  else if negb (r_ino tmp pos =? 0) then
    if seen =? index then
      if cap <? r_nlen tmp pos + 1 then inl (inl KZFS_ENAMETOOLONG)
      else inl (inr (slice (pos + 8) (r_nlen tmp pos) tmp, r_ftype tmp pos))
    else inr (u32 (seen + 1))
  else inr seen.

Definition dir_read_index dir (index cap : Z) s : (Z + list Z * Z) * fs S :=
  let '(ok, s) := try_kmalloc s in
  if negb ok then (inl KZFS_ENOMEM, s) else
  match scan_dir false (inl KZFS_EIO) dir (index_visit index cap) 0 s with
  | (inl r, s) => (r, s)
  | (inr _, s) => (inl KZFS_ENOENT, s)
  end.

(** The characters of a C string, NUL at and after its end. *)
Definition dir_is_dot name : bool :=
  (lget name 0 =? 46) && ((lget name 1 =? 0) || ((lget name 1 =? 46) && (lget name 2 =? 0))).

(** ** "." and ".." *)
Definition dir_set_dotdot dir (parent_ino : Z) s : Z * inode_mem * fs S :=
  let '(ok, s) := try_kmalloc s in
  if negb ok then (KZFS_ENOMEM, dir, s) else
  let '(rc, bs, s) := blk_read_file dir 0 KZFS_BLOCK_SIZE s in
  if negb (rc =? KZFS_EOK) || (zlength bs <? KZFS_DIRENT_MIN_REC) then (KZFS_EIO, dir, s) else
  let blk := bs ++ repeat 0 (BLK - length bs) in
  let dot_rec := field 4 2 blk in
  if (dot_rec <? KZFS_DIRENT_MIN_REC) || (KZFS_BLOCK_SIZE <? dot_rec + KZFS_DIRENT_MIN_REC)
  then (KZFS_EIO, dir, s) else
  if negb (r_nlen blk dot_rec =? 2) || negb (lget blk (dot_rec + 8) =? 46)
     || negb (lget blk (dot_rec + 9) =? 46)
  then (KZFS_EIO, dir, s) else
  let dd := le_bytes 4 parent_ino ++ slice (dot_rec + 4) 6 blk in
  let '(rc, _, dir, s) := blk_write_file dir dot_rec dd s in
  (rc, dir, s).

Definition dots_block (self parent : Z) : list Z :=
  let blk := splice (repeat 0 BLK) 0 (record self 12 KZFS_INODE_FLAG_DIR [46]) in
  splice blk 12 (record parent (u16 (KZFS_BLOCK_SIZE - 12)) KZFS_INODE_FLAG_DIR [46; 46]).

Definition dir_init_dots dir (parent_ino : Z) s : Z * inode_mem * fs S :=
  let '(ok, s) := try_kmalloc s in
  if negb ok then (KZFS_ENOMEM, dir, s) else
  let '(rc, _, dir, s) := blk_write_file dir 0 (dots_block (ino dir) parent_ino) s in
  if rc =? KZFS_EOK then (rc, i_set_dirty true (i_set_links 2 dir), s) else (rc, dir, s).

Definition dir_parent_ino dir s : Z * fs S :=
  match dir_lookup_entry dir [46; 46] s with
  | (inl _, s) => (0, s)
  | (inr (pino, _), s) => (pino, s)
  end.

(** ** Creating a child *)

(** An operation on the inode of pool entry [k], in place. *)
Definition in_place (k : nat) (f : inode_mem → fs S → Z * inode_mem * fs S) s : Z * fs S :=
  let '(rc, i, s) := f (e_ino (entry s k)) s in (rc, upd_ino k (λ _, i) s).

(** [parent] and the result are pool entries. *)
Definition links_add (k : nat) (d : Z) s : fs S :=
  upd_ino k (λ i, i_set_links (u16 (links_count i + d)) i) s.

Definition create_child (parent : nat) name (md : Z) s : (Z + nat) * fs S :=
  if negb (mode (e_ino (entry s parent)) =? KZFS_INODE_FLAG_DIR) then (inl KZFS_ENOTDIR, s) else
  if zlength name =? 0 then (inl KZFS_EINVAL, s) else
  if KZFS_NAME_MAX <? zlength name then (inl KZFS_ENAMETOOLONG, s) else
  match dir_lookup_entry (e_ino (entry s parent)) name s with
  | (inr _, s) => (inl KZFS_EEXIST, s)
  | (inl _, s) =>
      let '(newino, s) := ino_alloc_nolock s in
      if newino <? 0 then (inl KZFS_ENOSPC, s) else
      match ino_cache_slot s with
      | (None, s) => (inl KZFS_ENOMEM, ino_free_nolock newino s)
      | (Some ce, s) =>
          let fresh := mkIno newino md 1 0 0 (repeat zero_extent 4) 0 true 1 in
          let s := ino_cache_insert_nolock ce (upd_ino ce (λ _, fresh) s) in
          let is_dir := md =? KZFS_INODE_FLAG_DIR in
          let '(rc, s) :=
            if is_dir then
              let '(rc, s) :=
                in_place ce (λ i s, dir_init_dots i (ino (e_ino (entry s parent))) s) s in
              (rc, if rc =? KZFS_EOK then links_add parent 1 s else s)
            else (KZFS_EOK, s) in
          let '(rc, s) :=
            if rc =? KZFS_EOK then
              in_place parent (λ i s, dir_add_entry i name newino
                (if is_dir then KZFS_INODE_FLAG_DIR else KZFS_INODE_FLAG_FILE) s) s
            else (rc, s) in
          if negb (rc =? KZFS_EOK) then
            let s := if is_dir then links_add parent (-1) s else s in
            let '(_, s) := in_place ce (λ i s, let '(i, s) := inode_free_all_extents i s in
                                               (KZFS_EOK, i_set_ref 0 (i_set_dirty false i), s)) s in
            let s := ino_free_nolock newino s in
            (inl rc, upd_ino parent (i_set_dirty true) s)
          else
            let s := (ino_sync_nolock (e_ino (entry s ce)) s).2 in
            let s := upd_ino ce (i_set_dirty false) s in
            let s := upd_ino parent (i_set_dirty true) s in
            (inr ce, (ino_sync_nolock (e_ino (entry s parent)) s).2)
      end
  end.
End ops.
