(* ===== verification/KfsVnode.v ===== *)
(** Vnodes of KyuzenFS V4: the operations of [kernel/fs/kfs_vnode.c], and path resolution
    and renaming from [kernel/fs/kfs_dir.c].

    A vnode holds one reference to an entry of the inode cache, its [fs_data], given here
    by its index in the pool.  A vnode has one owner at a time (a stack slot of a path walk,
    an open file), so operations take and give it as a value; [v4_release] gives [None]
    when it frees it.  Pointer arguments are not NULL. *)

From S2P Require Import Prelude Bitmap BlockIO Kfs KfsInode KfsBalloc KfsExtent KfsMeta KfsDir.

Inductive vnode_type_t := V_REG | V_DIR | V_DEV.

#[global] Instance vnode_type_eq_dec : EqDecision vnode_type_t.
Proof. solve_decision. Defined.

Record vnode := mkVn {
  v_type : vnode_type_t; v_refcount : Z; v_size : Z; v_inode_num : Z; fs_data : nat
}.

Definition v_set_size (z : Z) (v : vnode) : vnode :=
  mkVn (v_type v) (v_refcount v) z (v_inode_num v) (fs_data v).
Definition v_set_ref (z : Z) (v : vnode) : vnode :=
  mkVn (v_type v) z (v_size v) (v_inode_num v) (fs_data v).

Definition is_dir (v : vnode) : bool := bool_decide (v_type v = V_DIR).

Definition KZFS_PATH_MAX_DEPTH : nat := 32.
Definition CHUNK : Z := 1048576.

Section ops.
Context {S : Type} `{BlockIO S}.
Implicit Types (s : fs S) (n dir : vnode) (name path : list Z).

(** The canonical inode of a vnode. *)
Definition inode_of n s : inode_mem := e_ino (entry s (fs_data n)).

Definition vnode_wrap_locked (k : nat) s : (Z + vnode) * fs S :=
  let '(ok, s) := try_kmalloc s in
  if negb ok then (inl KZFS_ENOMEM, s) else
  let i := e_ino (entry s k) in
  (inr (mkVn (if mode i =? KZFS_INODE_FLAG_DIR then V_DIR else V_REG) 1 (size_bytes i) (ino i) k), s).

(** ** Operations *)
Definition v4_open n (flags : Z) : Z := KZFS_EOK.

(** The chunking loops; [acc] holds the bytes read so far, [buf] those still to write. *)
Definition piece_of (remain : Z) : Z := if CHUNK <? remain then CHUNK else u32 remain.

Fixpoint v4_read_loop (fuel : nat) (i : inode_mem) (offset count : Z) (acc : list Z) s
    : Z * list Z * fs S :=
  if count <=? zlength acc then (KZFS_EOK, acc, s) else
  match fuel with
  | O => (KZFS_EOK, acc, s)
  | Datatypes.S fuel =>
      let piece := piece_of (count - zlength acc) in
      let '(rc, bs, s) := blk_read_file i (u64 (offset + zlength acc)) piece s in
      let acc := acc ++ bs in
      if (zlength bs <? piece) || negb (rc =? KZFS_EOK) then (rc, acc, s)
      else v4_read_loop fuel i offset count acc s
  end.

Definition chunks (count : Z) : nat := Z.to_nat (count / CHUNK) + 1.

Definition v4_read n (offset count : Z) s : (Z + list Z) * fs S :=
  if is_dir n then (inl KZFS_EISDIR, s) else
  let '(rc, bs, s) := v4_read_loop (chunks count) (inode_of n s) offset count [] s in
  if rc =? KZFS_EOK then (inr bs, s) else (inl rc, s).

Fixpoint v4_write_loop (fuel : nat) (i : inode_mem) (offset : Z) (buf : list Z) (wtotal : Z) s
    : Z * Z * inode_mem * fs S :=
  if zlength buf <=? 0 then (KZFS_EOK, wtotal, i, s) else
  match fuel with
  | O => (KZFS_EOK, wtotal, i, s)
  | Datatypes.S fuel =>
      let piece := piece_of (zlength buf) in
      let '(rc, w, i, s) := blk_write_file i (u64 (offset + wtotal)) (slice 0 piece buf) s in
      let wtotal := wtotal + w in
      if (w <? piece) || negb (rc =? KZFS_EOK) then (rc, wtotal, i, s)
      else v4_write_loop fuel i offset (drop (Z.to_nat piece) buf) wtotal s
  end.

Definition v4_write n (offset : Z) (buf : list Z) s : (Z + Z) * vnode * fs S :=
  if is_dir n then (inl KZFS_EISDIR, n, s) else
  let '(rc, wtotal, i, s) :=
    v4_write_loop (chunks (zlength buf)) (inode_of n s) offset buf 0 s in
  let s := upd_ino (fs_data n) (λ _, i) s in
  let s := if (rc =? KZFS_EOK) && (0 <? wtotal)
           then (sb_save (bm_flush (ino_sync_nolock i s).2).2).2 else s in
  (if rc =? KZFS_EOK then inr wtotal else inl rc, v_set_size (size_bytes i) n, s).

Definition v4_truncate n (new_size : Z) s : Z * vnode * fs S :=
  let '(rc, i, s) := truncate_nolock (inode_of n s) new_size s in
  let s := upd_ino (fs_data n) (λ _, i) s in
  if rc =? KZFS_EOK
  then (rc, v_set_size (size_bytes i) n, (sb_save (bm_flush (ino_sync_nolock i s).2).2).2)
  else (rc, n, s).

Definition v4_lookup dir name s : (Z + vnode) * fs S :=
  if negb (is_dir dir) then (inl KZFS_ENOTDIR, s) else
  if (zlength name =? 0) || dir_is_dot name then (inl KZFS_EINVAL, s) else
  match dir_lookup_entry (inode_of dir s) name s with
  | (inl rc, s) => (inl rc, s)
  | (inr (n, _), s) =>
      match ino_get_nolock n s with
      | (inl rc, s) => (inl rc, s)
      | (inr k, s) => vnode_wrap_locked k s
      end
  end.

Definition v4_create dir name (md : Z) s : (Z + vnode) * fs S :=
  if negb (is_dir dir) then (inl KZFS_ENOTDIR, s) else
  match create_child (fs_data dir) name KZFS_INODE_FLAG_FILE s with
  | (inl rc, s) => (inl rc, s)
  | (inr ce, s) => vnode_wrap_locked ce s
  end.

Definition v4_mkdir dir name s : Z * fs S :=
  if negb (is_dir dir) then (KZFS_ENOTDIR, s) else
  match create_child (fs_data dir) name KZFS_INODE_FLAG_DIR s with
  | (inl rc, s) => (rc, s)
  | (inr ce, s) => (KZFS_EOK, ino_put_nolock ce s)
  end.

(** The entries of a directory other than "." and "..", counted until enumeration fails;
    a directory has at most 343 records per block. *)
Definition index_fuel (i : inode_mem) : nat := 343 * (Z.to_nat (size_bytes i / KZFS_BLOCK_SIZE) + 1).

Fixpoint count_live (fuel : nat) (i : inode_mem) (index live : Z) s : Z * fs S :=
  match fuel with
  | O => (live, s)
  | Datatypes.S fuel =>
      match dir_read_index i index (KZFS_NAME_MAX + 2) s with
      | (inl _, s) => (live, s)
      | (inr (nm, _), s) =>
          count_live fuel i (index + 1) (if dir_is_dot nm then live else u32 (live + 1)) s
      end
  end.

(** The end of [v4_unlink], from the removal of the name on. *)
Definition unlink_victim dir name (ve : nat) s : Z * fs S :=
  let '(rc, s) := in_place (fs_data dir) (λ i s, dir_remove_entry i name s) s in
  let s :=
    if rc =? KZFS_EOK then
      let '(_, s) := in_place ve (λ i s,
        let '(i, s) := inode_free_all_extents i s in
        (KZFS_EOK, i_set_dirty false (i_set_links 0 i), s)) s in
      let s := ino_free_nolock (ino (e_ino (entry s ve))) s in
      let s := (ino_sync_nolock (inode_of dir s) s).2 in
      flush_meta s
    else s in
  (rc, ino_put_nolock ve s).

Definition v4_unlink dir name s : Z * fs S :=
  if negb (is_dir dir) then (KZFS_ENOTDIR, s) else
  if (zlength name =? 0) || dir_is_dot name then (KZFS_EINVAL, s) else
  match dir_lookup_entry (inode_of dir s) name s with
  | (inl rc, s) => (rc, s)
  | (inr (n, _), s) =>
      if n =? root_ino s then (KZFS_EINVAL, s) else
      match ino_get_nolock n s with
      | (inl rc, s) => (rc, s)
      | (inr ve, s) =>
          let i := e_ino (entry s ve) in
          if mode i =? KZFS_INODE_FLAG_DIR then
            let '(live, s) := count_live (index_fuel i) i 0 0 s in
            if negb (live =? 0) then (KZFS_EEXIST, ino_put_nolock ve s)
            else unlink_victim dir name ve (links_add (fs_data dir) (-1) s)
          else unlink_victim dir name ve s
      end
  end.

Definition v4_readdir dir (index cap : Z) s : (Z + list Z * Z) * fs S :=
  if negb (is_dir dir) then (inl KZFS_ENOTDIR, s) else dir_read_index (inode_of dir s) index cap s.

Definition v4_sync n s : Z * fs S :=
  let '(rc, s) := ino_sync_nolock (inode_of n s) s in
  let s := if rc =? KZFS_EOK then flush_meta s else s in
  (rc, set_dev (io_flush (dev s)) s).

Definition v4_release n s : option vnode * fs S :=
  if 1 <? v_refcount n then (Some (v_set_ref (v_refcount n - 1) n), s)
  else (None, ino_put_nolock (fs_data n) s).

(** ** Path resolution *)

(** [while ( *p == '/' ) p++;] and the component that follows. *)
Fixpoint skip_slash path : list Z :=
  match path with c :: p => if c =? 47 then skip_slash p else path | [] => [] end.

Fixpoint component path : list Z * list Z :=
  match path with
  | c :: p => if c =? 47 then ([], path) else let '(s, q) := component p in (c :: s, q)
  | [] => ([], [])
  end.

(** Releases vnodes in order. *)
Definition release_all (vs : list vnode) s : fs S := foldl (λ s v, (v4_release v s).2) s vs.

(** The loop over components; [stack] has its top first, [cur] is its top.  Each round
    consumes a character. *)
Fixpoint walk_loop (fuel : nat) path (stack : list vnode) s : Z * list vnode * fs S :=
  match fuel, stack with
  | Datatypes.S fuel, cur :: below =>
      match skip_slash path with
      | [] => (KZFS_EOK, stack, s)
      | p =>
          let '(comp, p) := component p in
          if KZFS_NAME_MAX <? zlength comp then (KZFS_ENAMETOOLONG, stack, s) else
          if bool_decide (comp = [46]) then walk_loop fuel p stack s else
          if bool_decide (comp = [46; 46]) then
            match below with
            | [] => walk_loop fuel p stack s
            | _ => walk_loop fuel p below (v4_release cur s).2
            end
          else
          if Nat.ltb KZFS_PATH_MAX_DEPTH (length stack) then (KZFS_EINVAL, stack, s) else
          if negb (is_dir cur) then (KZFS_ENOTDIR, stack, s) else
          match v4_lookup cur comp s with
          | (inl rc, s) => (rc, stack, s)
          | (inr next, s) => walk_loop fuel p (next :: stack) s
          end
      end
  | _, _ => (KZFS_EOK, stack, s)
  end.

Definition kfs_walk_path path s : (Z + vnode) * fs S :=
  if negb (fs_mounted s) then (inl KZFS_EIO, s) else
  match ino_get_nolock (root_ino s) s with
  | (inl _, s) => (inl KZFS_ENOENT, s)
  | (inr re, s) =>
      match vnode_wrap_locked re s with
      | (inl _, s) => (inl KZFS_ENOMEM, ino_put_nolock re s)
      | (inr root, s) =>
          let '(rc, stack, s) := walk_loop (Datatypes.S (length path)) path [root] s in
          if negb (rc =? KZFS_EOK) then (inl rc, release_all (rev stack) s) else
          match stack with
          | [] => (inl KZFS_ENOENT, s)
          | cur :: below => (inr cur, release_all (rev below) s)
          end
      end
  end.

(** [while (n > 1 && path[n - 1] == '/') n--;] and
    [while (start > 0 && path[start - 1] != '/') start--;] *)
Fixpoint strip_slashes path (n : nat) : nat :=
  match n with
  | Datatypes.S (Datatypes.S _ as m) => if lget path (Z.of_nat m) =? 47 then strip_slashes path m else n
  | _ => n
  end.

Fixpoint last_slash path (start : nat) : nat :=
  match start with
  | Datatypes.S m => if lget path (Z.of_nat m) =? 47 then start else last_slash path m
  | O => O
  end.

(** The name and the path of the parent. *)
Definition split_parent path (name_cap : Z) : Z + list Z * list Z :=
  let n := strip_slashes path (length path) in
  if Nat.eqb n 0 then inl KZFS_EINVAL else
  let start := last_slash path n in
  let name := drop start (take n path) in
  if zlength name =? 0 then inl KZFS_EINVAL else
  if bool_decide (name = [46]) then inl KZFS_EINVAL else
  if bool_decide (name = [46; 46]) then inl KZFS_EINVAL else
  if name_cap <? zlength name + 1 then inl KZFS_ENAMETOOLONG else
  if Nat.eqb start 0 then inr (name, [47]) else
  if 512 <=? Z.of_nat start then inl KZFS_ENAMETOOLONG else
  inr (name, take start path).

Definition kfs_walk_parent path (name_cap : Z) s : (Z + list Z * vnode) * fs S :=
  match split_parent path name_cap with
  | inl rc => (inl rc, s)
  | inr (name, pp) =>
      match kfs_walk_path pp s with
      | (inl rc, s) => (inl rc, s)
      | (inr v, s) => (inr (name, v), s)
      end
  end.

(** ** Renaming *)

(** The walk up the ".." entries from [walk], which [held] holds when the walk itself
    took the reference; the result says whether the move is allowed. *)
Fixpoint ancestry (fuel : nat) (walk : nat) (held : option nat) (oino guard : Z) s
    : bool * option nat * fs S :=
  if ino (e_ino (entry s walk)) =? oino then (false, held, s) else
  let '(pino, s) := dir_parent_ino (e_ino (entry s walk)) s in
  if (pino =? 0) || (pino =? ino (e_ino (entry s walk))) then (true, held, s) else
  match fuel with
  | O => (false, held, s)
  | Datatypes.S fuel =>
      if Z.of_nat KZFS_PATH_MAX_DEPTH + 1 <? guard + 1 then (false, held, s) else
      let s := match held with Some h => ino_put_nolock h s | None => s end in
      match ino_get_nolock pino s with
      | (inl _, s) => (false, None, s)
      | (inr h, s) => ancestry fuel h (Some h) oino (guard + 1) s
      end
  end.

Definition may_move (nd : nat) (oino : Z) s : bool * fs S :=
  let '(ok, held, s) := ancestry (Datatypes.S (Datatypes.S KZFS_PATH_MAX_DEPTH)) nd None oino 0 s in
  (ok, match held with Some h => ino_put_nolock h s | None => s end).

Definition mark_dirty (k : nat) s : fs S := upd_ino k (i_set_dirty true) s.

(** Moves the link counts of ".." between two parents. *)
Definition move_links (nd od : nat) (d : Z) s : fs S :=
  mark_dirty od (mark_dirty nd (links_add od (- d) (links_add nd d s))).

(** The changes on disk, from [dir_add_entry] to [sb_save]; [ve] is the inode that moves. *)
Definition rename_entries (od nd : nat) oname nname (oino oft : Z) (ve : nat) (isd : bool) s
    : Z * fs S :=
  let ino_at k := ino (e_ino (entry s k)) in
  let od_ino := ino_at od in
  let nd_ino := ino_at nd in
  let same_dir := nd_ino =? od_ino in
  let '(rc, s) := in_place nd (λ i s, dir_add_entry i nname oino oft s) s in
  if negb (rc =? KZFS_EOK) then (rc, s) else
  let '(rc, s) := if isd then in_place ve (λ i s, dir_set_dotdot i nd_ino s) s else (KZFS_EOK, s) in
  if negb (rc =? KZFS_EOK)
  then (rc, (in_place nd (λ i s, dir_remove_entry i nname s) s).2) else
  let s := if isd && negb same_dir then move_links nd od 1 s else s in
  let '(rc, s) := in_place od (λ i s, dir_remove_entry i oname s) s in
  if negb (rc =? KZFS_EOK) then
    let s := if isd && negb same_dir then
               move_links nd od (-1) (in_place ve (λ i s, dir_set_dotdot i od_ino s) s).2
             else s in
    (rc, (in_place nd (λ i s, dir_remove_entry i nname s) s).2)
  else
  let s := mark_dirty nd (mark_dirty od (mark_dirty ve s)) in
  let s := (ino_sync_nolock (e_ino (entry s ve)) s).2 in
  let s := (ino_sync_nolock (e_ino (entry s od)) s).2 in
  let s := if negb same_dir then (ino_sync_nolock (e_ino (entry s nd)) s).2 else s in
  (KZFS_EOK, flush_meta s).

(** The part under [fs_lock]. *)
Definition rename_locked (od nd : nat) oname nname s : Z * fs S :=
  match dir_lookup_entry (e_ino (entry s od)) oname s with
  | (inl rc, s) => (rc, s)
  | (inr (oino, oft), s) =>
      if oino =? root_ino s then (KZFS_EINVAL, s) else
      match dir_lookup_entry (e_ino (entry s nd)) nname s with
      | (inr (nino, _), s) => (if nino =? oino then KZFS_EOK else KZFS_EEXIST, s)
      | (inl tex, s) =>
          if negb (tex =? KZFS_ENOENT) then (tex, s) else
          if negb (mode (e_ino (entry s nd)) =? KZFS_INODE_FLAG_DIR) then (KZFS_ENOTDIR, s) else
          match ino_get_nolock oino s with
          | (inl rc, s) => (rc, s)
          | (inr ve, s) =>
              let isd := mode (e_ino (entry s ve)) =? KZFS_INODE_FLAG_DIR in
              let '(ok, s) := if isd then may_move nd oino s else (true, s) in
              if negb ok then (KZFS_EINVAL, ino_put_nolock ve s) else
              let '(rc, s) := rename_entries od nd oname nname oino oft ve isd s in
              (rc, ino_put_nolock ve s)
          end
      end
  end.

Definition kfs_rename_path (old_path new_path : list Z) s : Z * fs S :=
  match kfs_walk_parent old_path (KZFS_NAME_MAX + 1) s with
  | (inl rc, s) => (rc, s)
  | (inr (oname, odir), s) =>
      match kfs_walk_parent new_path (KZFS_NAME_MAX + 1) s with
      | (inl rc, s) => (rc, (v4_release odir s).2)
      | (inr (nname, ndir), s) =>
          let '(rc, s) := rename_locked (fs_data odir) (fs_data ndir) oname nname s in
          (rc, (v4_release odir (v4_release ndir s).2).2)
      end
  end.
End ops.
