(* ===== verification/KfsSuper.v ===== *)
(** Formatting and mounting KyuzenFS V4 ([kernel/fs/kfs_super.c], [kfs_format_locked],
    [kfs_init] and [kfs_format]), and the interface by path that the rest of the kernel
    uses ([kernel/fs/kfs_shim.c]).

    The number of sectors reported by the disk and the outcome of [bcache_init] are
    arguments.  Messages to the console are left out. *)

From S2P Require Import Prelude Bitmap BlockIO Kfs KfsInode KfsBalloc KfsExtent KfsMeta KfsDir KfsVnode.

Definition KZFS_BLOCK_SECTORS : Z := 8.
Definition apps_name : list Z := [97; 112; 112; 115].

(** The first block of the root directory: ".", ".." and "apps". *)
Definition root_block (apps : Z) : list Z :=
  let blk := splice (repeat 0 BLK) 0 (record 1 12 KZFS_INODE_FLAG_DIR [46]) in
  let blk := splice blk 12 (record 1 12 KZFS_INODE_FLAG_DIR [46; 46]) in
  splice blk 24 (record apps (u16 (KZFS_BLOCK_SIZE - 12 - 12)) KZFS_INODE_FLAG_DIR apps_name).

Section ops.
Context {S : Type} `{BlockIO S}.
Implicit Types (s : fs S) (path : list Z).

(** ** Formatting *)
Definition usable_blocks (total_sectors : Z) : Z :=
  let t := if total_sectors =? 0 then 204800 else total_sectors in
  let t := if KZFS_CRASHDUMP_SECTORS <? t then t - KZFS_CRASHDUMP_SECTORS else t in
  t / KZFS_BLOCK_SECTORS.

(** The maps of an empty disk: the metadata blocks and inode 1 taken. *)
Definition format_bitmaps s : fs S :=
  let m := for_each 0 (data_blocks_start (sb_cache s)) (λ b m, bm_set m b) (bm_mem s) in
  set_mounted true (set_ibm (bm_set (ibm_mem s) 1) true (set_bm m true s)).

Definition abandon_root (re : nat) s : fs S :=
  ino_cache_unlink re (upd_ino re (i_set_ref 0) s).

Definition format_root s : Z * fs S :=
  match ino_cache_slot s with
  | (None, s) => (KZFS_ENOMEM, s)
  | (Some re, s) =>
      let root := mkIno 1 KZFS_INODE_FLAG_DIR 3 0 0 (repeat zero_extent 4) 0 false 1 in
      let s := upd_entry re (λ e, set_enext None (set_used true e)) (upd_ino re (λ _, root) s) in
      let s := ino_cache_insert_nolock re s in
      let s := (ino_sync_nolock (e_ino (entry s re)) s).2 in
      match create_child re apps_name KZFS_INODE_FLAG_DIR s with
      | (inl rc, s) => (rc, abandon_root re s)
      | (inr ae, s) =>
          let '(ok, s) := try_kmalloc s in
          if negb ok then (KZFS_ENOMEM, abandon_root re s) else
          let blk := root_block (ino (e_ino (entry s ae))) in
          let '(_, s) := in_place re (λ i s, let '(rc, _, i, s) := blk_write_file i 0 blk s in
                                             (rc, i, s)) s in
          let s := (ino_sync_nolock (e_ino (entry s re)) s).2 in
          let s := upd_ino re (λ i, i_set_dirty false (i_set_ref 0 i)) s in
          let s := upd_ino ae (λ i, i_set_dirty false (i_set_ref 0 i)) s in
          let s := flush_meta s in
          (KZFS_EOK, set_dev (io_flush (dev s)) s)
      end
  end.

Definition kfs_format_locked (total_sectors : Z) s : Z * fs S :=
  let s := set_sb (layout_compute (usable_blocks total_sectors) (sb_cache s)) s in
  let s := layout_globals_load s in
  let '(ok, s) := alloc_bitmaps s in
  if negb ok then (KZFS_ENOMEM, s) else format_root (ino_cache_reset (format_bitmaps s)).

(** ** Mounting *)
Definition kfs_init (bcache_init_ok : bool) (total_sectors : Z) s : fs S :=
  if negb bcache_init_ok then s else
  let s := ino_cache_reset s in
  let '(rc, s) := sb_load s in
  if rc =? KZFS_EINVAL then (kfs_format_locked total_sectors s).2
  else if negb (rc =? KZFS_EOK) then s
  else (mount_load_bitmaps s).2.

Definition kfs_format (total_sectors : Z) s : fs S :=
  let s := set_mounted false s in
  let s := set_sb (with_magic 0 (sb_cache s)) s in
  (kfs_format_locked total_sectors s).2.

(** ** The interface by path *)
Definition shim_stat path s : option (inode_mem * bool) * fs S :=
  match kfs_walk_path path s with
  | (inl _, s) => (None, s)
  | (inr vn, s) =>
      let i := inode_of vn s in
      (Some (i, is_dir vn), (v4_release vn s).2)
  end.

Definition kfs_v4_stat path s : (Z + Z * Z) * fs S :=
  match kfs_walk_path path s with
  | (inl rc, s) => (inl rc, s)
  | (inr vn, s) => (inr (u32 (v_size vn), cbool (is_dir vn)), (v4_release vn s).2)
  end.

Definition kfs_exists path s : Z * fs S :=
  if negb (fs_mounted s) then (0, s) else
  match shim_stat path s with
  | (None, s) => (0, s)
  | (Some _, s) => (1, s)
  end.

Definition kfs_get_file_size path s : Z * fs S :=
  match shim_stat path s with
  | (None, s) => (0, s)
  | (Some (i, _), s) => (u32 (size_bytes i), s)
  end.

Definition kfs_create_file path (data : list Z) s : Z * fs S :=
  match kfs_walk_parent path (KZFS_NAME_MAX + 1) s with
  | (inl _, s) => (0, s)
  | (inr (name, parent), s) =>
      let '(rc, s) :=
        match v4_create parent name 0 s with
        | (inl _, s) => (0, s)
        | (inr vn, s) =>
            if 0 <? zlength data then
              let '(r, vn, s) := v4_write vn 0 data s in
              let written := match r with inr w => w =? zlength data | inl _ => false end in
              if negb written then
                let '(_, vn, s) := v4_truncate vn 0 s in
                let s := (v4_release vn s).2 in
                (0, (v4_unlink parent name s).2)
              else (1, (v4_release vn s).2)
            else (1, (v4_release vn s).2)
        end in
      (rc, (v4_release parent s).2)
  end.

Definition kfs_create_folder path s : Z * fs S :=
  match kfs_walk_parent path (KZFS_NAME_MAX + 1) s with
  | (inl _, s) => (0, s)
  | (inr (name, parent), s) =>
      let '(rc, s) := v4_mkdir parent name s in
      (cbool (rc =? KZFS_EOK), (v4_release parent s).2)
  end.

Definition kfs_read_to_buffer path (buffer_capacity : Z) s : option (list Z) * fs S :=
  match shim_stat path s with
  | (None, s) | (Some (_, true), s) => (None, s)
  | (Some (i, false), s) =>
      if buffer_capacity <? size_bytes i then (None, s) else
      match kfs_walk_path path s with
      | (inl _, s) => (None, s)
      | (inr vn, s) =>
          let '(r, s) := v4_read vn 0 (size_bytes i) s in
          let out := match r with
                     | inr bs => if zlength bs =? size_bytes i then Some bs else None
                     | inl _ => None
                     end in
          (out, (v4_release vn s).2)
      end
  end.

Definition kfs_delete_file path s : Z * fs S :=
  match kfs_walk_parent path (KZFS_NAME_MAX + 1) s with
  | (inl rc, s) => (rc, s)
  | (inr (name, parent), s) =>
      let '(rc, s) := v4_unlink parent name s in
      (rc, (v4_release parent s).2)
  end.

Definition kfs_resolve_dir path s : option Z * fs S :=
  match shim_stat path s with
  | (Some (i, true), s) => (Some (ino i), s)
  | (_, s) => (None, s)
  end.

(** [file_info_t]: the name cut to 22 characters, the size, and whether it is a folder. *)
Record file_info := mkInfo { fi_name : list Z; fi_size : Z; fi_folder : bool }.

Fixpoint list_loop (fuel : nat) (dir : vnode) (index max_entries : Z) (acc : list file_info) s
    : list file_info * fs S :=
  match fuel with
  | O => (acc, s)
  | Datatypes.S fuel =>
      if max_entries <=? zlength acc then (acc, s) else
      match v4_readdir dir index (KZFS_NAME_MAX + 2) s with
      | (inl _, s) => (acc, s)
      | (inr (nm, ty), s) =>
          if dir_is_dot nm then list_loop fuel dir (index + 1) max_entries acc s else
          let folder := ty =? KZFS_INODE_FLAG_DIR in
          let '(sz, s) :=
            if folder then (0, s) else
            match v4_lookup dir nm s with
            | (inl _, s) => (0, s)
            | (inr child, s) => (u32 (v_size child), (v4_release child s).2)
            end in
          list_loop fuel dir (index + 1) max_entries (acc ++ [mkInfo (take 22 nm) sz folder]) s
      end
  end.

Definition kfs_get_file_list path (max_entries : Z) s : list file_info * fs S :=
  if max_entries <=? 0 then ([], s) else
  match kfs_walk_path path s with
  | (inl _, s) => ([], s)
  | (inr dir, s) =>
      if negb (is_dir dir) then ([], (v4_release dir s).2) else
      let '(l, s) := list_loop (index_fuel (inode_of dir s)) dir 0 max_entries [] s in
      (l, (v4_release dir s).2)
  end.

Definition kfs_get_total_space s : Z :=
  let '(total, _, _, _) := kfs_v4_get_stats s in u32 (u64 (total * KZFS_BLOCK_SIZE)).

Definition kfs_get_used_space s : Z :=
  let '(total, free_b, _, _) := kfs_v4_get_stats s in
  u32 (u64 (u64 (total - free_b) * KZFS_BLOCK_SIZE)).

Definition kfs_v4_root_vnode s : option vnode * fs S :=
  if negb (fs_mounted s) then (None, s) else
  match ino_get_nolock (root_ino s) s with
  | (inl _, s) => (None, s)
  | (inr re, s) =>
      match vnode_wrap_locked re s with
      | (inl _, s) => (None, ino_put_nolock re s)
      | (inr v, s) => (Some v, s)
      end
  end.
End ops.
