(* ===== verification/KfsIcache.v ===== *)
(** The inode layer of KyuzenFS V4 ([kernel/fs/kfs_inode.c], definitions in [KfsInode]):
    inodes survive the way to the disk and back, and the inode cache is transparent. *)

From S2P Require Import Prelude BlockIO Kfs KfsInode KfsExtent KfsTrunc.

Lemma slice_splice_apart l off src off' n :
  0 ≤ off → 0 ≤ off' → off + zlength src ≤ zlength l →
  off' + n ≤ off ∨ off + zlength src ≤ off' →
  slice off' n (splice l off src) = slice off' n l.
Proof.
  intros Ho Ho' Hl Hd. unfold slice. apply list_eq. intros k.
  destruct (decide (k < Z.to_nat n)%nat).
  - rewrite !lookup_take_lt, !lookup_drop by lia.
    apply lookup_splice_out; unfold zlength in *; lia.
  - rewrite !lookup_take_ge by lia. done.
Qed.

(** ** The inode table *)
Section table.
Context {S : Type} `{Hio : BlockIOok S}.
Implicit Types (s : fs S) (i : inode_mem).

Definition ino_block s (n : Z) : Z := it_block0 s + (n - 1) / KZFS_INODES_PER_BLOCK.
Definition ino_off (n : Z) : Z := ((n - 1) mod KZFS_INODES_PER_BLOCK) * KZFS_INODE_SIZE.

(** Inode [n] as the disk has it. *)
Definition table s (n : Z) : dinode :=
  dec_inode (slice (ino_off n) KZFS_INODE_SIZE (io_view (dev s) (ino_block s n))).

(** A number whose slot lies on the device. *)
Definition ino_valid s (n : Z) : Prop :=
  1 ≤ n < 2 ^ 32 ∧ 0 ≤ it_block0 s ∧ ino_block s n < Z.min io_limit (2 ^ 64).

Definition inode_ok i : Prop :=
  0 ≤ mode i < 2 ^ 16 ∧ 0 ≤ links_count i < 2 ^ 16 ∧ is_u64 (size_bytes i) ∧
  is_u64 (blocks_used i) ∧ length (direct i) = 4%nat ∧ Forall extent_ok (direct i) ∧
  is_u64 (indirect_extent_block i).

Lemma to_disk_ok i : inode_ok i → dinode_ok (ino_to_disk i).
Proof.
  intros (? & ? & ? & ? & ? & ? & ?). unfold dinode_ok, ino_to_disk, is_u64 in *. cbn -[Z.pow].
  split_and!; try done; lia.
Qed.

Lemma slot_place s n :
  ino_valid s n →
  u32 (n - 1) = n - 1 ∧ u64 (it_block0 s + (n - 1) / KZFS_INODES_PER_BLOCK) = ino_block s n ∧
  0 ≤ ino_block s n < io_limit ∧ 0 ≤ ino_off n ∧ ino_off n + KZFS_INODE_SIZE ≤ Z.of_nat BLK.
Proof.
  intros (Hn & Hb & Hl). unfold ino_block, ino_off, KZFS_INODES_PER_BLOCK, KZFS_INODE_SIZE, BLK in *.
  split_and!; [apply u32_id; lia|apply u64_id; zdiv|zdiv..].
Qed.

Lemma slots_apart n m :
  1 ≤ n → 1 ≤ m → n ≠ m → (n - 1) / KZFS_INODES_PER_BLOCK = (m - 1) / KZFS_INODES_PER_BLOCK →
  ino_off n + KZFS_INODE_SIZE ≤ ino_off m ∨ ino_off m + KZFS_INODE_SIZE ≤ ino_off n.
Proof. unfold ino_off, KZFS_INODES_PER_BLOCK, KZFS_INODE_SIZE. intros. zdiv. Qed.

Lemma disk_read_ok n s :
  io_ok (dev s) → ino_valid s n →
  match ino_disk_read n s with
  | (inl rc, s') => rc = KZFS_EIO ∧ reads s s'
  | (inr di, s') => di = table s n ∧ reads s s'
  end.
Proof.
  intros Hok Hv. destruct (slot_place s n Hv) as (Hu & Hb & Hr & _). unfold ino_disk_read.
  rewrite Hu, Hb. pose proof (io_read_spec (ino_block s n) (dev s) Hok Hr) as Hs.
  destruct (io_read _ _) as [[b|] d]; destruct Hs as (Hok' & Hsame & Hb');
    (split; [|by exists d]); [by rewrite Hb'|done].
Qed.

Lemma disk_write_ok n di s :
  io_ok (dev s) → ino_valid s n → dinode_ok di →
  let '(rc, s') := ino_disk_write n di s in
  s' = set_dev (dev s') s ∧ io_ok (dev s') ∧
  ((rc = KZFS_EOK ∧ table s' n = di ∧
    (∀ m, ino_valid s m → m ≠ n → table s' m = table s m) ∧
    (∀ b, b ≠ ino_block s n → io_view (dev s') b = io_view (dev s) b)) ∨
   (rc = KZFS_EIO ∧ view_same (dev s) (dev s'))).
Proof.
  intros Hok Hv Hdi. destruct (slot_place s n Hv) as (Hu & Hb & Hr & Ho1 & Ho2).
  pose proof (io_view_length (dev s) (ino_block s n) Hok) as Hlen.
  assert (Hel : zlength (enc_inode di) = KZFS_INODE_SIZE) by (apply enc_inode_length; apply Hdi).
  assert (Hfit : ino_off n + zlength (enc_inode di) ≤ zlength (io_view (dev s) (ino_block s n)))
    by (unfold zlength at 2; rewrite Hlen; lia).
  unfold ino_disk_write. rewrite Hu, Hb. fold (ino_off n).
  pose proof (io_modify_spec (ino_block s n) (λ b, splice b (ino_off n) (enc_inode di)) (dev s) Hok Hr)
    as Hs. destruct (io_modify _ _ _) as [[|] d]; cbn [dev set_dev];
    (destruct Hs as [Hok' Hp]; [rewrite splice_length; [done|lia|unfold zlength in *; lia]|]).
  2:{ split_and!; [done|done|]. by right. }
  split_and!; [done|done|]. left. split_and!; [done| | |].
  - unfold table. change (ino_block (set_dev d s) n) with (ino_block s n). cbn [dev set_dev].
    rewrite (view_put_at _ _ _ _ Hp), <- Hel, slice_splice_same by (unfold zlength in *; lia).
    by apply dec_enc_inode.
  - intros m Hm Hne. unfold table. change (ino_block (set_dev d s) m) with (ino_block s m).
    cbn [dev set_dev]. destruct (decide (ino_block s m = ino_block s n)) as [Heq|Heq].
    + rewrite Heq, (view_put_at _ _ _ _ Hp). f_equal. destruct Hm as (Hm & _), Hv as (Hn & _).
      unfold ino_block in Heq. assert ((n - 1) / KZFS_INODES_PER_BLOCK = (m - 1) / KZFS_INODES_PER_BLOCK) by lia.
      apply slice_splice_apart; try done.
      * unfold ino_off, KZFS_INODES_PER_BLOCK, KZFS_INODE_SIZE. zdiv.
      * rewrite Hel. pose proof (slots_apart n m). lia.
    + by rewrite (view_put_other _ _ _ _ _ Hp Heq).
  - intros b Hne. by apply (view_put_other _ _ _ _ _ Hp).
Qed.

(** What of an inode the disk keeps. *)
Definition stored i : inode_mem := i_set_ref 0 (i_set_dirty false i).

Lemma from_to_disk i : ino_from_disk (ino i) (ino_to_disk i) = stored i.
Proof. done. Qed.

(** An inode survives the way to the disk and back. A successful [ino_sync_nolock]
    followed by a read gives the inode that was written, and every other inode of the table
    reads as before, although 32 inodes share a block; on an error no block changes. *)
Theorem ino_sync_roundtrip i s :
  io_ok (dev s) → ino_valid s (ino i) → inode_ok i →
  let '(rc, s') := ino_sync_nolock i s in
  (rc = KZFS_EOK ∧ ino_from_disk (ino i) (table s' (ino i)) = stored i ∧
   (∀ m, ino_valid s m → m ≠ ino i → table s' m = table s m) ∧
   (∀ m, ino_valid s m → match (ino_disk_read m s').1 with
                          | inr di => di = table s' m
                          | inl rc => rc = KZFS_EIO
                          end)) ∨
  (rc = KZFS_EIO ∧ view_same (dev s) (dev s')).
Proof.
  intros Hok Hv Hi. pose proof (disk_write_ok (ino i) (ino_to_disk i) s Hok Hv (to_disk_ok i Hi)) as Hw.
  unfold ino_sync_nolock. destruct (ino_disk_write _ _ s) as [rc s'].
  destruct Hw as (Hs & Hok' & [(-> & Ht & Hm & _)|[-> Hsame]]); [left|by right].
  split_and!; [done|by rewrite Ht, from_to_disk|done|].
  intros m Hmv. assert (Hmv' : ino_valid s' m) by (by rewrite Hs).
  pose proof (disk_read_ok m s' Hok' Hmv') as Hr. by destruct (ino_disk_read m s') as [[rc|di] s2]; destruct Hr.
Qed.
End table.

(** ** The cache structure *)
Section cache.
Context {S : Type} `{Hio : BlockIOok S}.
Implicit Types (s : fs S) (i : inode_mem) (C : list nat).

Fixpoint chain s (p : option nat) C : Prop :=
  match C with
  | [] => p = None
  | k :: C => p = Some k ∧ chain s (e_next (entry s k)) C
  end.

(** The entry [k] caches inode [n]. *)
Definition caches s (k : nat) (n : Z) : Prop :=
  (k < INO_CACHE_MAX)%nat ∧ e_used (entry s k) = true ∧ e_dead (entry s k) = false ∧
  ino (e_ino (entry s k)) = n.

(** The entry [k] belongs on the chain of bucket [h]. *)
Definition on_bucket s (h k : nat) : Prop :=
  (k < INO_CACHE_MAX)%nat ∧ e_used (entry s k) = true ∧ ino_hash_fn (ino (e_ino (entry s k))) = h.

Definition bucket_ok s (h : nat) : Prop :=
  ∃ C, chain s (ibucket s h) C ∧ NoDup C ∧ ∀ k, k ∈ C ↔ on_bucket s h k.

Record icache_wf s : Prop := {
  ic_pool : length (ino_pool s) = INO_CACHE_MAX;
  ic_hash : length (ino_hash s) = INO_HASH_SIZE;
  ic_bucket : ∀ h, (h < INO_HASH_SIZE)%nat → bucket_ok s h;
  ic_one : ∀ j k n, caches s j n → caches s k n → j = k
}.

Lemma hash_range n : (ino_hash_fn n < INO_HASH_SIZE)%nat.
Proof.
  unfold ino_hash_fn. change (Z.of_nat INO_HASH_SIZE - 1) with (Z.ones 7).
  rewrite Z.land_ones by lia. unfold INO_HASH_SIZE. pose proof (Z.mod_pos_bound n (2 ^ 7)). lia.
Qed.

(** ** Entries *)
Lemma entry_upd s k f j :
  length (ino_pool s) = INO_CACHE_MAX → (k < INO_CACHE_MAX)%nat →
  entry (upd_entry k f s) j = if decide (j = k) then f (entry s k) else entry s j.
Proof.
  intros Hl Hk. unfold entry, upd_entry. cbn [ino_pool set_inodes]. case_decide as Hj.
  - subst j. rewrite list_lookup_alter_eq.
    destruct (lookup_lt_is_Some_2 (ino_pool s) k) as [e ->]; [lia|done].
  - by rewrite list_lookup_alter_ne.
Qed.

Lemma chain_ext s s' p C :
  (∀ k, k ∈ C → e_next (entry s' k) = e_next (entry s k)) → chain s p C → chain s' p C.
Proof.
  revert p. induction C as [|k C IH]; intros p Hk; simpl; [done|].
  intros [-> Hc]. split; [done|]. rewrite Hk by set_solver. apply IH; [|done]. set_solver.
Qed.

(** A change of the entries that keeps their links, numbers and flags. *)
Lemma wf_same s s' :
  length (ino_pool s') = length (ino_pool s) → ino_hash s' = ino_hash s →
  (∀ k, let e := entry s k in let e' := entry s' k in
        e_used e' = e_used e ∧ e_next e' = e_next e ∧ ino (e_ino e') = ino (e_ino e) ∧
        (e_dead e = true → e_dead e' = true)) →
  icache_wf s → icache_wf s'.
Proof.
  intros Hl Hh Hk [Hp Hhl Hb Ho].
  assert (Hon : ∀ h k, on_bucket s' h k ↔ on_bucket s h k).
  { intros h k. unfold on_bucket. by destruct (Hk k) as (-> & _ & -> & _). }
  split; rewrite ?Hl, ?Hh; try done.
  - intros h Hlt. destruct (Hb h Hlt) as (C & HC & Hnd & Hin). exists C. split_and!; [|done|].
    + unfold ibucket. rewrite Hh. apply (chain_ext s); [|done]. intros k _. by destruct (Hk k) as (_ & -> & _).
    + intros k. by rewrite Hon.
  - intros j k n (Hj1 & Hj2 & Hj3 & Hj4) (Hk1 & Hk2 & Hk3 & Hk4). apply (Ho j k n).
    + destruct (Hk j) as (Hu & _ & Hn & Hd). unfold caches. rewrite <- Hu, <- Hn. split_and!; try done.
      destruct (e_dead (entry s j)); [by rewrite Hd in Hj3|done].
    + destruct (Hk k) as (Hu & _ & Hn & Hd). unfold caches. rewrite <- Hu, <- Hn. split_and!; try done.
      destruct (e_dead (entry s k)); [by rewrite Hd in Hk3|done].
Qed.

Lemma wf_dev s d : icache_wf s → icache_wf (set_dev d s).
Proof. intros Hw. by apply (wf_same s). Qed.

(** In-place changes of an inode that keep its number. *)
Lemma wf_upd_ino s k f :
  (∀ i, ino (f i) = ino i) → (k < INO_CACHE_MAX)%nat → icache_wf s → icache_wf (upd_ino k f s).
Proof.
  intros Hf Hk Hw. pose proof (ic_pool _ Hw) as Hl. apply (wf_same s); try done.
  - unfold upd_ino, upd_entry. cbn [ino_pool set_inodes]. by rewrite length_alter.
  - intros j. unfold upd_ino. rewrite entry_upd by done. cbv zeta. case_decide as Hj; [|done].
    subst j. simpl. by rewrite Hf.
Qed.

(** ** Finding *)
Lemma find_ino_ok fuel s n : ∀ p C,
  chain s p C → (length C < fuel)%nat →
  match find_ino fuel s p n with
  | Some k => k ∈ C ∧ e_used (entry s k) = true ∧ e_dead (entry s k) = false ∧
              ino (e_ino (entry s k)) = n
  | None => ∀ k, k ∈ C → e_used (entry s k) = true → e_dead (entry s k) = false →
            ino (e_ino (entry s k)) ≠ n
  end.
Proof.
  induction fuel as [|fuel IH]; intros p C HC Hf; [lia|].
  destruct C as [|k C]; simpl in *.
  - subst p. intros k Hk. by apply not_elem_of_nil in Hk.
  - destruct HC as [-> HC]. destruct (_ && _) eqn:Hm.
    + apply andb_true_iff in Hm as [[Hu Hd]%andb_true_iff Hn%Z.eqb_eq].
      apply negb_true_iff in Hd. split_and!; try done. set_solver.
    + specialize (IH _ C HC ltac:(lia)). destruct (find_ino fuel s _ n) as [j|].
      * destruct IH as (? & ?). split; [set_solver|done].
      * intros j Hj Hu Hd Hn. apply elem_of_cons in Hj as [->|Hj]; [|by apply (IH j)].
        rewrite Hu, Hd, Hn, Z.eqb_refl in Hm. done.
Qed.

Lemma chain_short s h C :
  NoDup C → (∀ k, k ∈ C ↔ on_bucket s h k) → (length C < chain_fuel)%nat.
Proof.
  intros Hnd Hin. assert (Hsub : C ⊆+ seq 0 INO_CACHE_MAX).
  { apply NoDup_submseteq; [done|]. intros k Hk. apply Hin in Hk as [Hk _]. apply elem_of_seq. lia. }
  apply submseteq_length in Hsub. rewrite length_seq in Hsub. unfold chain_fuel. lia.
Qed.

Lemma cache_find_ok s n :
  icache_wf s →
  match ino_cache_find n s with
  | Some k => caches s k n
  | None => ∀ k, ¬ caches s k n
  end.
Proof.
  intros Hw. destruct (ic_bucket _ Hw _ (hash_range n)) as (C & HC & Hnd & Hin).
  pose proof (find_ino_ok chain_fuel s n _ C HC (chain_short s _ C Hnd Hin)) as Hf.
  unfold ino_cache_find. destruct (find_ino _ _ _ _) as [k|].
  - destruct Hf as (Hk & Hu & Hd & Hi). apply Hin in Hk as [Hk _]. done.
  - intros k (Hk & Hu & Hd & Hi). apply (Hf k); try done. apply Hin. split_and!; try done. by rewrite Hi.
Qed.
(** ** Unlinking *)
Lemma seek_ok fuel s k : ∀ pp C,
  chain s (read_ilink s pp) C → k ∈ C → (length C < fuel)%nat →
  ∃ C1 C2, C = C1 ++ k :: C2 ∧ read_ilink s (seek_ilink fuel pp k s) = Some k ∧
    ((C1 = [] ∧ seek_ilink fuel pp k s = pp) ∨
     ∃ C1' j, C1 = C1' ++ [j] ∧ seek_ilink fuel pp k s = INext j).
Proof.
  induction fuel as [|fuel IH]; intros pp C HC Hk Hf; [lia|].
  destruct C as [|j C]; [by apply not_elem_of_nil in Hk|]. simpl in HC. destruct HC as [Hp HC].
  simpl. rewrite Hp. destruct (Nat.eqb_spec j k) as [->|Hne].
  - exists [], C. split_and!; try done. by left.
  - destruct (IH (INext j) C) as (C1 & C2 & -> & Hr & Hq); [done|set_solver|simpl in Hf; lia|].
    exists (j :: C1), C2. split_and!; try done. right.
    destruct Hq as [[-> Hq]|(C1' & x & -> & Hq)].
    + exists [], j. done.
    + exists (j :: C1'), x. done.
Qed.

(** A chain without one of its entries. *)
Lemma chain_skip s s' j k C2 : ∀ C1 p,
  chain s p (C1 ++ j :: k :: C2) →
  (∀ x, x ∈ C1 ++ C2 → e_next (entry s' x) = e_next (entry s x)) →
  e_next (entry s' j) = e_next (entry s k) → chain s' p (C1 ++ j :: C2).
Proof.
  induction C1 as [|x C1 IH]; intros p; simpl.
  - intros [-> [_ HC]] Hx Hj. split; [done|]. rewrite Hj. by apply (chain_ext s).
  - intros [-> HC] Hx Hj. split; [done|]. rewrite Hx by set_solver. apply IH; [done| |done]. set_solver.
Qed.

(** Entries other than [k] keep all but their links. *)
Definition others_kept s s' (k : nat) : Prop :=
  ∀ j, j ≠ k → e_ino (entry s' j) = e_ino (entry s j) ∧ e_used (entry s' j) = e_used (entry s j) ∧
               e_dead (entry s' j) = e_dead (entry s j).

Definition only_inodes s s' : Prop := s' = set_inodes (ino_pool s') (ino_hash s') s.

#[local] Instance ilink_eq_dec : EqDecision ilink.
Proof. solve_decision. Defined.

Lemma write_ilink_entry s pp v j :
  length (ino_pool s) = INO_CACHE_MAX →
  match pp with INext x => (x < INO_CACHE_MAX)%nat | _ => True end →
  entry (write_ilink pp v s) j
  = if decide (pp = INext j) then set_enext v (entry s j) else entry s j.
Proof.
  intros Hl Hx. destruct pp as [h|x]; cbn [write_ilink]; [by rewrite decide_False|].
  rewrite entry_upd by done. repeat case_decide; congruence.
Qed.

Lemma unlink_shape s k :
  icache_wf s → (k < INO_CACHE_MAX)%nat → e_used (entry s k) = true →
  ∃ C1 C2 q,
    let h := ino_hash_fn (ino (e_ino (entry s k))) in
    chain s (ibucket s h) (C1 ++ k :: C2) ∧ NoDup (C1 ++ k :: C2) ∧
    (∀ x, x ∈ C1 ++ k :: C2 ↔ on_bucket s h x) ∧
    ((C1 = [] ∧ q = IBucket h) ∨ ∃ C1' j, C1 = C1' ++ [j] ∧ q = INext j) ∧
    ino_cache_unlink k s =
      upd_entry k (λ e, set_used false (set_enext None e)) (write_ilink q (e_next (entry s k)) s).
Proof.
  intros Hw Hk Hu. set (h := ino_hash_fn _).
  destruct (ic_bucket _ Hw h (hash_range _)) as (C & HC & Hnd & Hin).
  assert (HkC : k ∈ C) by (by apply Hin).
  destruct (seek_ok chain_fuel s k (IBucket h) C HC HkC (chain_short s h C Hnd Hin))
    as (C1 & C2 & -> & Hr & Hq).
  exists C1, C2, (seek_ilink chain_fuel (IBucket h) k s). cbv zeta. split_and!; try done.
  unfold ino_cache_unlink. fold h. by rewrite Hr.
Qed.
(** What unlinking does to the entries and the buckets. *)
Lemma unlink_entries s k C1 C2 q :
  icache_wf s → (k < INO_CACHE_MAX)%nat →
  let h := ino_hash_fn (ino (e_ino (entry s k))) in
  NoDup (C1 ++ k :: C2) → (∀ x, x ∈ C1 ++ k :: C2 ↔ on_bucket s h x) →
  ((C1 = [] ∧ q = IBucket h) ∨ ∃ C1' j, C1 = C1' ++ [j] ∧ q = INext j) →
  let s' := upd_entry k (λ e, set_used false (set_enext None e))
              (write_ilink q (e_next (entry s k)) s) in
  only_inodes s s' ∧ length (ino_pool s') = INO_CACHE_MAX ∧ length (ino_hash s') = INO_HASH_SIZE ∧
  others_kept s s' k ∧ e_used (entry s' k) = false ∧ e_ino (entry s' k) = e_ino (entry s k) ∧
  (∀ x, x ≠ k → q ≠ INext x → e_next (entry s' x) = e_next (entry s x)) ∧
  (∀ x, x ≠ k → q = INext x → e_next (entry s' x) = e_next (entry s k)) ∧
  (∀ h', q ≠ IBucket h' → ibucket s' h' = ibucket s h') ∧
  (q = IBucket h → ibucket s' h = e_next (entry s k)).
Proof.
  intros Hw Hk h Hnd Hin Hq. cbv zeta. pose proof (ic_pool _ Hw) as Hl. pose proof (ic_hash _ Hw) as Hh.
  assert (Hx : match q with INext x => (x < INO_CACHE_MAX)%nat | _ => True end).
  { destruct Hq as [[_ ->]|(C1' & j & -> & ->)]; [done|].
    assert (Hj : j ∈ (C1' ++ [j]) ++ k :: C2) by set_solver. apply Hin in Hj. apply Hj. }
  assert (Hl1 : length (ino_pool (write_ilink q (e_next (entry s k)) s)) = INO_CACHE_MAX).
  { destruct q; simpl; [done|]. by rewrite length_alter. }
  assert (Hent : ∀ j, entry (upd_entry k (λ e, set_used false (set_enext None e))
      (write_ilink q (e_next (entry s k)) s)) j =
      let e := if decide (q = INext j) then set_enext (e_next (entry s k)) (entry s j) else entry s j in
      if decide (j = k) then set_used false (set_enext None e) else e).
  { intros j. rewrite entry_upd, !write_ilink_entry by done. cbv zeta. by case_decide; subst. }
  split_and!.
  - unfold only_inodes. destruct q; by destruct s.
  - unfold upd_entry. cbn [ino_pool set_inodes]. by rewrite length_alter.
  - destruct q; simpl; by rewrite ?length_insert.
  - intros j Hj. rewrite Hent. cbv zeta. rewrite decide_False by done. by case_decide.
  - rewrite Hent. cbv zeta. by rewrite decide_True.
  - rewrite Hent. cbv zeta. rewrite decide_True by done. by case_decide.
  - intros x Hxk Hxq. rewrite Hent. cbv zeta. by rewrite !decide_False.
  - intros x Hxk Hxq. rewrite Hent. cbv zeta. rewrite decide_False by done. by rewrite decide_True.
  - intros h' Hh'. destruct q as [h0|]; unfold ibucket; simpl; [|done].
    rewrite list_lookup_insert_ne; [done|congruence].
  - intros ->. unfold ibucket. simpl. rewrite list_lookup_insert_eq; [done|]. rewrite Hh. apply hash_range.
Qed.

Lemma unlink_ok s k :
  icache_wf s → (k < INO_CACHE_MAX)%nat → e_used (entry s k) = true →
  let s' := ino_cache_unlink k s in
  icache_wf s' ∧ only_inodes s s' ∧ others_kept s s' k ∧ e_used (entry s' k) = false ∧
  e_ino (entry s' k) = e_ino (entry s k).
Proof.
  intros Hw Hk Hu. destruct (unlink_shape s k Hw Hk Hu) as (C1 & C2 & q & HC & Hnd & Hin & Hq & ->).
  pose proof (unlink_entries s k C1 C2 q Hw Hk Hnd Hin Hq) as He.
  set (h := ino_hash_fn _) in *. set (s' := upd_entry _ _ _) in *. clearbody s'.
  destruct He as (Hon & Hl & Hh & Hot & Huk & Hik & Hn1 & Hn2 & Hb1 & Hb2). cbv zeta.
  split_and!; try done. apply NoDup_app in Hnd as (Hnd1 & Hd & [HkC2 Hnd2]%NoDup_cons).
  assert (HkC1 : k ∉ C1) by (intros ?; apply (Hd k); set_solver).
  assert (Hbk : ∀ h' x, on_bucket s' h' x ↔ on_bucket s h' x ∧ x ≠ k).
  { intros h' x. unfold on_bucket. destruct (decide (x = k)) as [->|Hxk].
    - rewrite Huk. naive_solver.
    - destruct (Hot x Hxk) as (-> & -> & _). naive_solver. }
  split; try done.
  - intros h' Hlt. destruct (decide (h' = h)) as [->|Hne].
    + exists (C1 ++ C2). split_and!.
      * destruct Hq as [[-> ->]|(C1' & j & -> & ->)]; simpl in HC |- *.
        { rewrite Hb2 by done. destruct HC as [_ HC]. apply (chain_ext s); [|done].
          intros x Hx. apply Hn1; [|done]. intros ->. done. }
        rewrite Hb1 by done. rewrite <- app_assoc in HC |- *. simpl in HC |- *.
        apply (chain_skip s s' j k); [done| |apply Hn2; [set_solver|done]].
        intros x Hx. apply Hn1; [set_solver|]. intros [= <-].
        apply elem_of_app in Hx as [Hx|Hx].
        -- apply NoDup_app in Hnd1 as (_ & Hd1 & _). apply (Hd1 j Hx). set_solver.
        -- apply (Hd j); set_solver.
      * apply NoDup_app. split_and!; [done|set_solver|done].
      * intros x. rewrite Hbk, <- Hin. set_solver.
    + destruct (ic_bucket _ Hw h' Hlt) as (C & HC' & HndC & HinC). exists C.
      assert (HxC : ∀ x, x ∈ C → x ≠ k ∧ x ∉ C1).
      { intros x Hx. apply HinC in Hx as (_ & _ & Hx). split.
        - intros ->. by apply Hne.
        - intros Hx1. assert (Hx' : x ∈ C1 ++ k :: C2) by set_solver. apply Hin in Hx' as (_ & _ & ?). congruence. }
      split_and!; [|done|].
      * rewrite Hb1 by (destruct Hq as [[_ ->]|(? & ? & _ & ->)]; congruence).
        apply (chain_ext s); [|done]. intros x Hx. destruct (HxC x Hx) as [Hxk Hx1]. apply Hn1; [done|].
        intros ->. destruct Hq as [[_ [=]]|(? & ? & -> & [= ->])]. set_solver.
      * intros x. rewrite Hbk, <- HinC. split; [|naive_solver]. intros Hx. split; [done|]. by apply HxC.
  - intros j k' n (Hj1 & Hj2 & Hj3 & Hj4) (Hk1 & Hk2 & Hk3 & Hk4).
    assert (j ≠ k) by congruence. assert (k' ≠ k) by congruence.
    destruct (Hot j) as (Hja & Hjb & Hjc); [done|]. destruct (Hot k') as (Hka & Hkb & Hkc); [done|].
    apply (ic_one _ Hw j k' n); unfold caches; by rewrite <- ?Hja, <- ?Hjb, <- ?Hjc, <- ?Hka, <- ?Hkb, <- ?Hkc.
Qed.
(** ** Inserting *)
Lemma insert_ok s k :
  icache_wf s → (k < INO_CACHE_MAX)%nat → e_used (entry s k) = false →
  (∀ j, ¬ caches s j (ino (e_ino (entry s k)))) →
  let s' := ino_cache_insert_nolock k s in
  icache_wf s' ∧ only_inodes s s' ∧ (∀ j, j ≠ k → entry s' j = entry s j) ∧
  e_used (entry s' k) = true ∧ e_dead (entry s' k) = false ∧ e_ino (entry s' k) = e_ino (entry s k).
Proof.
  intros Hw Hk Hu Hno. unfold ino_cache_insert_nolock.
  pose proof (ic_pool _ Hw) as Hl. pose proof (ic_hash _ Hw) as Hh.
  set (s1 := upd_entry k (λ e, set_dead false (set_used true e)) s).
  assert (He1 : entry s1 k = set_dead false (set_used true (entry s k)))
    by (unfold s1; rewrite entry_upd by done; by rewrite decide_True).
  rewrite He1. set (h := ino_hash_fn _). change (ibucket s1 h) with (ibucket s h).
  set (s2 := upd_entry k (set_enext (ibucket s h)) s1). cbv zeta.
  assert (Hent : ∀ j, entry (set_inodes (ino_pool s2) (<[h := Some k]> (ino_hash s2)) s2) j =
     if decide (j = k) then mkEnt (e_ino (entry s k)) true false (ibucket s h) else entry s j).
  { intros j. change (entry (set_inodes _ _ _) j) with (entry s2 j). unfold s2.
    rewrite entry_upd by (unfold s1, upd_entry; simpl; by rewrite ?length_alter).
    case_decide as Hj; [by rewrite He1|]. unfold s1. rewrite entry_upd by done.
    by rewrite decide_False. }
  assert (Hbk : ∀ h', ibucket (set_inodes (ino_pool s2) (<[h := Some k]> (ino_hash s2)) s2) h' =
     if decide (h' = h) then Some k else ibucket s h').
  { intros h'. unfold ibucket. cbn [ino_hash set_inodes]. case_decide as Hx.
    - subst h'. rewrite list_lookup_insert_eq; [done|]. simpl. rewrite Hh. apply hash_range.
    - by rewrite list_lookup_insert_ne. }
  assert (Hpool : length (ino_pool s2) = INO_CACHE_MAX) by (simpl; by rewrite !length_alter).
  set (s' := set_inodes _ _ _) in *. assert (Hhl : length (ino_hash s') = INO_HASH_SIZE)
    by (unfold s'; simpl; by rewrite length_insert).
  assert (Hp' : length (ino_pool s') = INO_CACHE_MAX) by done.
  split_and!; [|by destruct s| |by rewrite Hent, decide_True..].
  2:{ intros j Hj. by rewrite Hent, decide_False. }
  clearbody s'. clear Hpool s2 He1 s1.
  assert (Hon : ∀ h' x, on_bucket s' h' x ↔ on_bucket s h' x ∨ (x = k ∧ h' = h)).
  { intros h' x. unfold on_bucket. rewrite Hent. case_decide as Hx; [subst x|naive_solver].
    rewrite Hu. simpl. fold h. naive_solver. }
  split; try done.
  - intros h' Hlt. destruct (ic_bucket _ Hw h' Hlt) as (C & HC & Hnd & Hin).
    assert (HkC : k ∉ C) by (intros (_ & ? & _)%Hin; congruence).
    assert (HC' : chain s' (ibucket s h') C).
    { apply (chain_ext s); [|done]. intros x Hx. rewrite Hent, decide_False; [done|]. by intros ->. }
    destruct (decide (h' = h)) as [->|Hne].
    + exists (k :: C). split_and!; [|by apply NoDup_cons|].
      * rewrite Hbk, decide_True by done. split; [done|]. by rewrite Hent, decide_True.
      * intros x. rewrite Hon, <- Hin. set_solver.
    + exists C. split_and!; [by rewrite Hbk, decide_False|done|].
      intros x. rewrite Hon, <- Hin. naive_solver.
  - assert (Hcs : ∀ x n, caches s' x n → (x = k ∧ n = ino (e_ino (entry s k))) ∨ (x ≠ k ∧ caches s x n)).
    { intros x n (? & Hx2 & Hx3 & Hx4). rewrite Hent in Hx2, Hx3, Hx4. case_decide as Hx; [left|right].
      - by subst x.
      - done. }
    intros j k' n [[-> Hj]|[Hj1 Hj2]]%Hcs [[-> Hk']|[Hk1 Hk2]]%Hcs; [done|subst n|subst n|].
    + by apply Hno in Hk2.
    + by apply Hno in Hj2.
    + by apply (ic_one _ Hw j k' n).
Qed.
(** ** The inode a number denotes *)

(** Cached, or as the table has it. *)
Definition iview s (n : Z) : inode_mem :=
  match ino_cache_find n s with
  | Some k => stored (e_ino (entry s k))
  | None => ino_from_disk n (table s n)
  end.

Record icache_ok s : Prop := {
  io_wf : icache_wf s;
  io_dev : io_ok (dev s);
  io_table : ∀ n, ino_valid s n → inode_ok (ino_from_disk n (table s n));
  io_entry : ∀ k n, caches s k n → ino_valid s n ∧ inode_ok (e_ino (entry s k)) ∧
    (i_dirty (e_ino (entry s k)) = false → stored (e_ino (entry s k)) = ino_from_disk n (table s n))
}.

Lemma iview_cached s k n : icache_wf s → caches s k n → iview s n = stored (e_ino (entry s k)).
Proof.
  intros Hw Hc. unfold iview. pose proof (cache_find_ok s n Hw) as Hf.
  destruct (ino_cache_find n s) as [j|]; [|by apply Hf in Hc]. by rewrite (ic_one _ Hw j k n Hf Hc).
Qed.

Lemma iview_uncached s n :
  icache_wf s → (∀ k, ¬ caches s k n) → iview s n = ino_from_disk n (table s n).
Proof.
  intros Hw Hc. unfold iview. pose proof (cache_find_ok s n Hw) as Hf.
  destruct (ino_cache_find n s) as [j|]; [by apply Hc in Hf|done].
Qed.

Lemma caches_dec s n : icache_wf s → (∃ k, caches s k n) ∨ (∀ k, ¬ caches s k n).
Proof.
  intros Hw. pose proof (cache_find_ok s n Hw) as Hf. destruct (ino_cache_find n s); eauto.
Qed.

(** Both caches agree: the same numbers are cached, with the same inodes. *)
Lemma iview_ext s s' n :
  icache_wf s → icache_wf s' → (∀ k, caches s' k n ↔ caches s k n) →
  (∀ k, caches s k n → stored (e_ino (entry s' k)) = stored (e_ino (entry s k))) →
  ((∀ k, ¬ caches s k n) → table s' n = table s n) → iview s' n = iview s n.
Proof.
  intros Hw Hw' Hc He Ht. destruct (caches_dec s n Hw) as [[k Hk]|Hno].
  - rewrite (iview_cached s k n Hw Hk), (iview_cached s' k n Hw'); [by apply He|by apply Hc].
  - rewrite (iview_uncached s n Hw Hno), (iview_uncached s' n Hw'); [by rewrite Ht|].
    intros k. by rewrite Hc.
Qed.

Lemma table_inodes s p h n : table (set_inodes p h s) n = table s n.
Proof. done. Qed.

Lemma only_inodes_same s s' :
  only_inodes s s' → dev s' = dev s ∧ (∀ n, table s' n = table s n) ∧ (∀ n, ino_valid s' n ↔ ino_valid s n).
Proof. intros ->. done. Qed.

(** Bookkeeping on one entry, which keeps what it stores. *)
Lemma upd_ino_ok s k f :
  icache_ok s → (k < INO_CACHE_MAX)%nat →
  (∀ i, stored (f i) = stored i ∧ (i_dirty (f i) = false → i_dirty i = false)) →
  icache_ok (upd_ino k f s) ∧ (∀ n, iview (upd_ino k f s) n = iview s n) ∧
  (∀ j n, caches (upd_ino k f s) j n ↔ caches s j n) ∧
  (∀ j, e_ino (entry (upd_ino k f s) j) = if decide (j = k) then f (e_ino (entry s k)) else e_ino (entry s j)).
Proof.
  intros Hi Hk Hf. pose proof (io_wf _ Hi) as Hw. pose proof (ic_pool _ Hw) as Hl.
  assert (Hino : ∀ i, ino (f i) = ino i).
  { intros i. destruct (Hf i) as [Hs _]. by apply (f_equal ino) in Hs. }
  assert (Hok : ∀ i, inode_ok i → inode_ok (f i)).
  { intros i Hx. change (inode_ok (stored (f i))). by rewrite (proj1 (Hf i)). }
  assert (Hent : ∀ j, entry (upd_ino k f s) j =
    if decide (j = k) then mkEnt (f (e_ino (entry s k))) (e_used (entry s k)) (e_dead (entry s k)) (e_next (entry s k))
    else entry s j) by (intros j; unfold upd_ino; by rewrite entry_upd).
  assert (Hc : ∀ j n, caches (upd_ino k f s) j n ↔ caches s j n).
  { intros j n. unfold caches. rewrite Hent. case_decide as Hj; [|done]. subst j. simpl. by rewrite Hino. }
  assert (Hw' := wf_upd_ino s k f Hino Hk Hw). split_and!; [|intros n|done|].
  - split; try done; try apply Hi. intros j n Hj. apply Hc in Hj. rewrite Hent.
    destruct (io_entry _ Hi j n Hj) as (Hv & Hjo & Hd). case_decide as Hjk; [|done]. subst j. simpl.
    split_and!; [done|by apply Hok|]. intros Hx. destruct (Hf (e_ino (entry s k))) as [-> Hdd]. by apply Hd, Hdd.
  - apply iview_ext; try done. intros j _. rewrite Hent. case_decide as Hj; [|done]. subst j. simpl.
    apply Hf.
  - intros j. rewrite Hent. by case_decide.
Qed.

(** Writing a dirty entry back. *)
Definition clean_entry (k : nat) s : fs S :=
  upd_ino k (i_set_dirty false) (ino_sync_nolock (e_ino (entry s k)) s).2.

Lemma clean_ok s k n :
  icache_ok s → io_reliable → caches s k n →
  icache_ok (clean_entry k s) ∧ (∀ m, ino_valid s m → iview (clean_entry k s) m = iview s m) ∧
  (∀ j m, caches (clean_entry k s) j m ↔ caches s j m) ∧
  (∀ m, ino_valid (clean_entry k s) m ↔ ino_valid s m) ∧
  (∀ j, e_ino (entry (clean_entry k s) j)
        = if decide (j = k) then i_set_dirty false (e_ino (entry s k)) else e_ino (entry s j)) ∧
  ino_from_disk n (table (clean_entry k s) n) = stored (e_ino (entry s k)).
Proof.
  intros Hi Hrel Hc. pose proof (io_wf _ Hi) as Hw. destruct (io_entry _ Hi k n Hc) as (Hv & Hok & _).
  pose proof Hc as (Hk & _ & _ & Hn).
  assert (Hdw := disk_write_ok n (ino_to_disk (e_ino (entry s k))) s (io_dev _ Hi) Hv (to_disk_ok _ Hok)).
  assert (Hrc : (ino_disk_write n (ino_to_disk (e_ino (entry s k))) s).1 = KZFS_EOK).
  { destruct (slot_place s n Hv) as (Hu & Hb & Hr & _). unfold ino_disk_write. rewrite Hu, Hb.
    destruct Hrel as [_ Hm]. specialize (Hm (ino_block s n) (λ b, splice b ((n - 1) mod KZFS_INODES_PER_BLOCK
      * KZFS_INODE_SIZE) (enc_inode (ino_to_disk (e_ino (entry s k))))) (dev s) (io_dev _ Hi) Hr).
    by destruct (io_modify _ _ _) as [[|] ?]. }
  unfold clean_entry, ino_sync_nolock. rewrite Hn.
  destruct (ino_disk_write n _ s) as [rc s1]. simpl in Hrc. subst rc. cbn [snd].
  destruct Hdw as (Hs1 & Hok1 & [(_ & Ht & Htm & _)|[[=] _]]).
  assert (Hent1 : ∀ j, entry s1 j = entry s j) by (intros j; by rewrite Hs1).
  assert (Hw1 : icache_wf s1) by (rewrite Hs1; by apply wf_dev).
  assert (Hval : ∀ m, ino_valid s1 m ↔ ino_valid s m) by (intros m; by rewrite Hs1).
  assert (Hc1 : ∀ j m, caches s1 j m ↔ caches s j m) by (intros j m; unfold caches; by rewrite Hent1).
  assert (Hsame : ino_from_disk n (table s1 n) = stored (e_ino (entry s k))).
  { rewrite Ht. rewrite <- Hn at 1. apply from_to_disk. }
  assert (Hpool : length (ino_pool s1) = INO_CACHE_MAX) by apply (ic_pool _ Hw1).
  set (s' := upd_ino k (i_set_dirty false) s1).
  assert (Hent : ∀ j, entry s' j = if decide (j = k) then mkEnt (i_set_dirty false (e_ino (entry s k)))
     (e_used (entry s k)) (e_dead (entry s k)) (e_next (entry s k)) else entry s j).
  { intros j. unfold s', upd_ino. rewrite entry_upd by done. by rewrite !Hent1. }
  assert (Hc' : ∀ j m, caches s' j m ↔ caches s j m).
  { intros j m. unfold caches. rewrite Hent. case_decide as Hj; [|done]. by subst j. }
  assert (Hw' : icache_wf s') by (by apply wf_upd_ino).
  split_and!; [|intros m Hm|done|done|intros j; rewrite Hent; by case_decide|done].
  - split; [done|done| |].
    + intros m Hm. change (table s' m) with (table s1 m). change (ino_valid s' m) with (ino_valid s1 m) in Hm.
      rewrite Hval in Hm. destruct (decide (m = n)) as [->|Hne].
      * rewrite Hsame. exact Hok.
      * rewrite Htm by done. by apply (io_table _ Hi).
    + intros j m Hj. apply Hc' in Hj. rewrite Hent. change (ino_valid s' m) with (ino_valid s1 m).
      rewrite Hval. change (table s' m) with (table s1 m).
      destruct (io_entry _ Hi j m Hj) as (Hvj & Hoj & Hdj). case_decide as Hjk.
      * subst j. assert (m = n) as -> by (by destruct Hj as (_ & _ & _ & <-)). simpl.
        split_and!; [done|exact Hok|]. intros _. by rewrite Hsame.
      * split_and!; [done|done|]. intros Hd. rewrite Hdj by done. rewrite Htm; [done|done|].
        intros ->. apply Hjk. by apply (ic_one _ Hw j k n).
  - apply iview_ext; try done.
    + intros j Hj. rewrite Hent. case_decide as Hjk; [|done]. by subst j.
    + intros Hno. change (table s' m) with (table s1 m). apply Htm; [done|]. intros ->. by apply (Hno k).
Qed.
(** Dropping an entry that the disk agrees with, or whose inode is dead. *)
Lemma drop_ok s k :
  icache_ok s → (k < INO_CACHE_MAX)%nat → e_used (entry s k) = true →
  (e_dead (entry s k) = true ∨ i_dirty (e_ino (entry s k)) = false) →
  let s' := ino_cache_unlink k s in
  icache_ok s' ∧ (∀ n, iview s' n = iview s n) ∧ e_used (entry s' k) = false ∧
  only_inodes s s' ∧ others_kept s s' k.
Proof.
  intros Hi Hk Hu Hcl. pose proof (io_wf _ Hi) as Hw.
  destruct (unlink_ok s k Hw Hk Hu) as (Hw' & Hon & Hot & Huk & Hik). cbv zeta in *.
  set (s' := ino_cache_unlink k s) in *. clearbody s'.
  destruct (only_inodes_same s s' Hon) as (Hdev & Htab & Hval).
  assert (Hc : ∀ j n, caches s' j n ↔ caches s j n ∧ j ≠ k).
  { intros j n. unfold caches. destruct (decide (j = k)) as [->|Hj].
    - rewrite Huk. naive_solver.
    - destruct (Hot j Hj) as (-> & -> & ->). naive_solver. }
  split_and!; try done.
  - split; [done|by rewrite Hdev; apply Hi| |].
    + intros n Hn. rewrite Htab. apply (io_table _ Hi). by apply Hval.
    + intros j n [Hj Hjk]%Hc. rewrite Hval, Htab. destruct (Hot j Hjk) as (-> & _).
      exact (io_entry _ Hi j n Hj).
  - intros n. destruct (caches_dec s n Hw) as [[j Hj]|Hno].
    + destruct (decide (j = k)) as [->|Hjk].
      * assert (Hno : ∀ x, ¬ caches s' x n).
        { intros x [Hx Hxk]%Hc. by apply Hxk, (ic_one _ Hw x k n). }
        rewrite (iview_uncached s' n Hw' Hno), (iview_cached s k n Hw Hj), Htab.
        destruct (io_entry _ Hi k n Hj) as (_ & _ & Hd). destruct Hcl as [Hdead|Hcl]; [|by rewrite Hd].
        destruct Hj as (_ & _ & ? & _). congruence.
      * rewrite (iview_cached s' j n Hw'), (iview_cached s j n Hw Hj); [|by apply Hc].
        by destruct (Hot j Hjk) as (-> & _).
    + rewrite (iview_uncached s' n Hw'), (iview_uncached s n Hw Hno), Htab; [done|].
      by intros j [Hj _]%Hc; apply Hno in Hj.
Qed.

Lemma find_entry_ok P s :
  length (ino_pool s) = INO_CACHE_MAX →
  match find_entry P s with
  | Some k => (k < INO_CACHE_MAX)%nat ∧ P (entry s k) = true
  | None => ∀ k, (k < INO_CACHE_MAX)%nat → P (entry s k) = false
  end.
Proof.
  intros Hl. unfold find_entry. destruct (list_find _ _) as [[k e]|] eqn:Hf; simpl.
  - apply list_find_Some in Hf as (Hk & HP & _). pose proof (lookup_lt_Some _ _ _ Hk).
    split; [lia|]. unfold entry. by rewrite Hk.
  - intros k Hk. rewrite list_find_None in Hf.
    destruct (lookup_lt_is_Some_2 (ino_pool s) k) as [e He]; [lia|].
    rewrite Forall_lookup in Hf. specialize (Hf k e He). unfold entry. rewrite He. simpl.
    by destruct (P e).
Qed.

(** The entries in use by somebody keep their inode. *)
Definition pins_kept s s' : Prop :=
  ∀ j, (j < INO_CACHE_MAX)%nat → e_used (entry s j) = true → i_refcount (e_ino (entry s j)) ≠ 0 →
       e_used (entry s' j) = true ∧ e_ino (entry s' j) = e_ino (entry s j) ∧
       e_dead (entry s' j) = e_dead (entry s j).

Lemma others_pins s s' k :
  others_kept s s' k → (e_used (entry s k) = true → i_refcount (e_ino (entry s k)) = 0) → pins_kept s s'.
Proof.
  intros Hot Hk j Hj Hu Hr. destruct (decide (j = k)) as [->|Hne]; [by apply Hk in Hu|].
  destruct (Hot j Hne) as (-> & -> & ->). done.
Qed.

Lemma unused_upd_ok s k g :
  icache_ok s → (k < INO_CACHE_MAX)%nat → e_used (entry s k) = false →
  e_used (g (entry s k)) = false →
  let s' := upd_entry k g s in
  icache_ok s' ∧ (∀ n, iview s' n = iview s n) ∧ entry s' k = g (entry s k) ∧ others_kept s s' k ∧
  ∀ j n, caches s' j n ↔ caches s j n.
Proof.
  intros Hi Hk Hu Hg. pose proof (io_wf _ Hi) as Hw. pose proof (ic_pool _ Hw) as Hl. cbv zeta.
  assert (Hent : ∀ j, entry (upd_entry k g s) j =
     if decide (j = k) then g (entry s k) else entry s j) by (intros; by rewrite entry_upd).
  set (s' := upd_entry k g s) in *.
  assert (Hc : ∀ j n, caches s' j n ↔ caches s j n).
  { intros j n. unfold caches. rewrite Hent. case_decide as Hj; [|done]. subst j. rewrite Hu, Hg. naive_solver. }
  assert (Hw' : icache_wf s').
  { destruct Hw as [Hp Hh Hb Ho]. split; [unfold s'; simpl; by rewrite length_alter|done| |].
    - intros h Hlt. destruct (Hb h Hlt) as (C & HC & Hnd & Hin). exists C. split_and!; [|done|].
      + apply (chain_ext s); [|done]. intros j Hj. rewrite Hent. case_decide as Hjk; [|done].
        subst j. apply Hin in Hj as (_ & ? & _). congruence.
      + intros j. rewrite Hin. unfold on_bucket. rewrite Hent. case_decide as Hjk; [|done].
        subst j. rewrite Hu, Hg. naive_solver.
    - intros a b n. rewrite !Hc. apply Ho. }
  split_and!.
  - split; [done|apply Hi|apply Hi|]. intros j n Hj%Hc. rewrite Hent. case_decide as Hjk; [|exact (io_entry _ Hi j n Hj)].
    subst j. destruct Hj as (_ & ? & _). congruence.
  - intros n. apply iview_ext; try done. intros j Hj. rewrite Hent. case_decide as Hjk; [|done].
    subst j. destruct Hj as (_ & ? & _). congruence.
  - rewrite Hent. by rewrite decide_True.
  - intros j Hj. rewrite Hent. by rewrite decide_False.
  - done.
Qed.

Lemma pins_trans s1 s2 s3 : pins_kept s1 s2 → pins_kept s2 s3 → pins_kept s1 s3.
Proof.
  intros H1 H2 j Hj Hu Hr. destruct (H1 j Hj Hu Hr) as (Hu2 & He & Hd).
  destruct (H2 j Hj Hu2) as (? & He3 & Hd3); [by rewrite He|]. split_and!; [done|by rewrite He3|by rewrite Hd3].
Qed.

Lemma clean_pins s k :
  length (ino_pool s) = INO_CACHE_MAX → (k < INO_CACHE_MAX)%nat →
  (∀ j, e_used (entry (clean_entry k s) j) = e_used (entry s j) ∧
        e_dead (entry (clean_entry k s) j) = e_dead (entry s j)).
Proof.
  intros Hl Hk j. unfold clean_entry, upd_ino.
  assert (He : ∀ x, entry (ino_sync_nolock (e_ino (entry s k)) s).2 x = entry s x).
  { intros x. unfold ino_sync_nolock, ino_disk_write. by destruct (io_modify _ _ _) as [[|] ?]. }
  rewrite entry_upd; [|unfold ino_sync_nolock, ino_disk_write; by destruct (io_modify _ _ _) as [[|] ?]|done].
  rewrite !He. by case_decide; subst.
Qed.
(** What making room does: the cache stays transparent, and the entries in use stay. *)
Record room s s' : Prop := {
  rm_ok : icache_ok s';
  rm_view : ∀ m, ino_valid s m → iview s' m = iview s m;
  rm_pins : pins_kept s s';
  rm_valid : ∀ m, ino_valid s' m ↔ ino_valid s m;
  rm_caches : ∀ j m, caches s' j m → caches s j m;
  rm_sb : sb_cache s' = sb_cache s
}.

Lemma room_refl s : icache_ok s → room s s.
Proof. by split. Qed.

Lemma room_trans s1 s2 s3 : room s1 s2 → room s2 s3 → room s1 s3.
Proof.
  intros [H1 H2 H3 H4 H5 H6] [G1 G2 G3 G4 G5 G6]. split; try done.
  - intros m Hm. rewrite G2, H2; [done..|]. by apply H4.
  - by apply (pins_trans _ s2).
  - intros m. by rewrite G4, H4.
  - intros j m Hj. by apply H5, G5.
  - by rewrite G6.
Qed.

Lemma room_drop s k :
  icache_ok s → (k < INO_CACHE_MAX)%nat → e_used (entry s k) = true →
  i_refcount (e_ino (entry s k)) = 0 →
  (e_dead (entry s k) = true ∨ i_dirty (e_ino (entry s k)) = false) →
  room s (ino_cache_unlink k s) ∧ e_used (entry (ino_cache_unlink k s) k) = false.
Proof.
  intros Hi Hk Hu Hr Hc. destruct (drop_ok s k Hi Hk Hu Hc) as (Hi' & Hv & Huk & Hon & Hot).
  cbv zeta in *. destruct (only_inodes_same _ _ Hon) as (_ & _ & Hval). split; [|done]. split; try done.
  - by apply (others_pins s _ k).
  - intros j m (Hj & Hj2 & Hj3 & Hj4). destruct (decide (j = k)) as [->|Hne]; [congruence|].
    destruct (Hot j Hne) as (He & Hu' & Hd'). unfold caches. by rewrite <- He, <- Hu', <- Hd'.
  - by rewrite Hon.
Qed.

Lemma room_clean s k n :
  icache_ok s → io_reliable → caches s k n → i_refcount (e_ino (entry s k)) = 0 →
  room s (clean_entry k s).
Proof.
  intros Hi Hrel Hc Hr. destruct (clean_ok s k n Hi Hrel Hc) as (Hi' & Hv & Hcs & Hval & He & _).
  pose proof (clean_pins s k (ic_pool _ (io_wf _ Hi)) ltac:(apply Hc)) as Hp. split; try done.
  - intros j Hj Hu Hrj. destruct (Hp j) as [-> ->]. split_and!; [done| |done]. rewrite He.
    rewrite decide_False; [done|]. by intros ->.
  - intros j m. by rewrite Hcs.
  - unfold clean_entry, upd_ino, upd_entry, ino_sync_nolock, ino_disk_write.
    by destruct (io_modify _ _ _) as [[|] ?].
Qed.

Lemma room_unused s k g :
  icache_ok s → (k < INO_CACHE_MAX)%nat → e_used (entry s k) = false →
  e_used (g (entry s k)) = false →
  room s (upd_entry k g s) ∧ entry (upd_entry k g s) k = g (entry s k).
Proof.
  intros Hi Hk Hu Hg. destruct (unused_upd_ok s k g Hi Hk Hu Hg) as (Hi' & Hv & Hu' & Hot & Hc).
  cbv zeta in *. split; [|done]. split; try done.
  - apply (others_pins s _ k); [done|]. congruence.
  - intros j m. by rewrite Hc.
Qed.

Lemma room_reads s s' : icache_ok s → reads s s' → room s s'.
Proof.
  intros Hi (d & -> & Hok & Hsame).
  assert (Ht : ∀ n, table (set_dev d s) n = table s n).
  { intros n. unfold table. change (ino_block (set_dev d s) n) with (ino_block s n).
    cbn [dev set_dev]. by rewrite (Hsame (ino_block s n)). }
  assert (Hi' : icache_ok (set_dev d s)).
  { split; [by apply wf_dev, Hi|apply Hok, Hi| |].
    - intros n Hn. rewrite Ht. by apply (io_table _ Hi).
    - intros k n Hk. rewrite Ht. exact (io_entry _ Hi k n Hk). }
  split; try done. intros m _. apply iview_ext; try done; [apply Hi|apply Hi'].
Qed.

Lemma slot_ok s :
  icache_ok s → io_reliable →
  match ino_cache_slot s with
  | (Some k, s') => room s s' ∧ (k < INO_CACHE_MAX)%nat ∧ e_used (entry s' k) = false
  | (None, s') => s' = s ∧ ∀ k, (k < INO_CACHE_MAX)%nat →
                  e_used (entry s k) = true ∧ i_refcount (e_ino (entry s k)) ≠ 0
  end.
Proof.
  intros Hi Hrel. pose proof (ic_pool _ (io_wf _ Hi)) as Hl. unfold ino_cache_slot.
  assert (Hfin : ∀ s1 k, room s s1 → (k < INO_CACHE_MAX)%nat → e_used (entry s1 k) = false →
    room s (upd_entry k (set_dead false) s1) ∧ (k < INO_CACHE_MAX)%nat ∧
    e_used (entry (upd_entry k (set_dead false) s1) k) = false).
  { intros s1 k Hr Hk Hu. destruct (room_unused s1 k (set_dead false) (rm_ok _ _ Hr) Hk Hu Hu) as [Hr2 Hu2].
    split; [by apply (room_trans _ s1)|]. by rewrite Hu2. }
  pose proof (find_entry_ok (λ e, negb (e_used e)) s Hl) as H1.
  destruct (find_entry (λ e, negb (e_used e)) s) as [k|].
  { destruct H1 as [Hk Hu%negb_true_iff]. apply Hfin; [by apply room_refl|done|done]. }
  pose proof (find_entry_ok (λ e, e_used e && e_dead e && (i_refcount (e_ino e) =? 0)) s Hl) as H2.
  destruct (find_entry (λ e, e_used e && e_dead e && (i_refcount (e_ino e) =? 0)) s) as [k|].
  { destruct H2 as [Hk [[Hu Hd]%andb_true_iff Hr%Z.eqb_eq]%andb_true_iff].
    destruct (room_drop s k Hi Hk Hu Hr (or_introl Hd)). by apply Hfin. }
  pose proof (find_entry_ok (λ e, e_used e && (i_refcount (e_ino e) =? 0)) s Hl) as H3.
  destruct (find_entry (λ e, e_used e && (i_refcount (e_ino e) =? 0)) s) as [k|].
  2:{ split; [done|]. intros k Hk. specialize (H1 k Hk). apply negb_false_iff in H1. split; [done|].
      specialize (H3 k Hk). rewrite H1 in H3. simpl in H3. lia. }
  destruct H3 as [Hk [Hu Hr%Z.eqb_eq]%andb_true_iff].
  assert (Hc : caches s k (ino (e_ino (entry s k)))).
  { split_and!; try done. specialize (H2 k Hk). rewrite Hu, Hr in H2. simpl in H2.
    by destruct (e_dead (entry s k)). }
  destruct (i_dirty (e_ino (entry s k))) eqn:Hd.
  - fold (clean_entry k s). pose proof (room_clean s k _ Hi Hrel Hc Hr) as Hrc.
    destruct (clean_ok s k _ Hi Hrel Hc) as (_ & _ & _ & _ & He & _).
    destruct (clean_pins s k Hl Hk k) as [Hu2 _].
    assert (He2 : e_ino (entry (clean_entry k s) k) = i_set_dirty false (e_ino (entry s k)))
      by (by rewrite He, decide_True).
    destruct (room_drop (clean_entry k s) k (rm_ok _ _ Hrc) Hk) as [Hrd Hud];
      [by rewrite Hu2|by rewrite He2|right; by rewrite He2|].
    apply Hfin; [|done|done]. by apply (room_trans _ (clean_entry k s)).
  - destruct (room_drop s k Hi Hk Hu Hr (or_intror Hd)). by apply Hfin.
Qed.
(** Publishing an inode that was just read. *)
Lemma publish_ok s k n :
  icache_ok s → (k < INO_CACHE_MAX)%nat → e_used (entry s k) = false → ino_valid s n →
  (∀ j, ¬ caches s j n) → e_ino (entry s k) = i_set_ref 1 (ino_from_disk n (table s n)) →
  let s' := ino_cache_insert_nolock k s in
  icache_ok s' ∧ (∀ m, iview s' m = iview s m) ∧ caches s' k n ∧
  e_ino (entry s' k) = e_ino (entry s k) ∧ (∀ j, j ≠ k → entry s' j = entry s j).
Proof.
  intros Hi Hk Hu Hv Hno Hin. pose proof (io_wf _ Hi) as Hw.
  assert (Hn : ino (e_ino (entry s k)) = n) by (by rewrite Hin).
  destruct (insert_ok s k Hw Hk Hu) as (Hw' & Hon & Hot & Hu' & Hd' & He'); [by rewrite Hn|].
  cbv zeta in *. set (s' := ino_cache_insert_nolock k s) in *. clearbody s'.
  destruct (only_inodes_same s s' Hon) as (Hdev & Htab & Hval).
  assert (Hck : caches s' k n) by (split_and!; try done; by rewrite He').
  assert (Hc : ∀ j m, j ≠ k → (caches s' j m ↔ caches s j m)).
  { intros j m Hj. unfold caches. by rewrite Hot. }
  assert (Hst : stored (e_ino (entry s' k)) = ino_from_disk n (table s n)) by (by rewrite He', Hin).
  split_and!; try done.
  - split; [done|by rewrite Hdev; apply Hi| |].
    + intros m Hm. rewrite Htab. apply (io_table _ Hi). by apply Hval.
    + intros j m Hj. rewrite Hval, Htab. destruct (decide (j = k)) as [->|Hjk].
      * assert (m = n) as -> by (destruct Hj as (_ & _ & _ & <-); by rewrite He').
        split_and!; [done| |done]. rewrite He', Hin. exact (io_table _ Hi n Hv).
      * rewrite Hot by done. apply Hc in Hj; [|done]. exact (io_entry _ Hi j m Hj).
  - intros m. destruct (decide (m = n)) as [->|Hm].
    + rewrite (iview_cached s' k n Hw' Hck), (iview_uncached s n Hw Hno). done.
    + apply iview_ext; try done.
      * intros j. destruct (decide (j = k)) as [->|Hj]; [|by apply Hc].
        unfold caches. rewrite He', Hn. rewrite Hu. naive_solver.
      * intros j Hj. rewrite Hot; [done|]. intros ->. destruct Hj as (_ & ? & _). congruence.
Qed.

Lemma reliable_read n s :
  io_reliable → io_ok (dev s) → ino_valid s n →
  ∃ s', ino_disk_read n s = (inr (table s n), s') ∧ reads s s'.
Proof.
  intros [Hr _] Hok Hv. pose proof (disk_read_ok n s Hok Hv) as Hd.
  destruct (slot_place s n Hv) as (Hu & Hb & Hrange & _).
  assert (Hne : ∀ rc s', ino_disk_read n s ≠ (inl rc, s')).
  { intros rc s'. unfold ino_disk_read. rewrite Hu, Hb.
    specialize (Hr (ino_block s n) (dev s) Hok Hrange). by destruct (io_read _ _) as [[b|] d]. }
  destruct (ino_disk_read n s) as [[rc|di] s']; [by destruct (Hne rc s')|].
  destruct Hd as [-> Hd]. by exists s'.
Qed.

(** ** Properties *)

(** The inode cache is transparent, and never steals an inode in use. Getting an inode
    gives an entry with exactly the inode its number denotes (its latest version, whether
    cached, written back or on disk) and one more reference; no number changes what it
    denotes, although making room may write back and drop another entry; every other entry
    in use keeps its place and its inode. It fails only for a number out of range or when
    all 64 entries are in use. *)
Theorem ino_get_spec s n :
  icache_ok s → io_reliable → ino_valid s n →
  match ino_get_nolock n s with
  | (inr k, s') =>
      icache_ok s' ∧ (∀ m, ino_valid s m → iview s' m = iview s m) ∧ caches s' k n ∧
      stored (e_ino (entry s' k)) = iview s n ∧
      i_refcount (e_ino (entry s' k))
        = 1 + match ino_cache_find n s with Some j => i_refcount (e_ino (entry s j)) | None => 0 end ∧
      (∀ j m, j ≠ k → caches s j m → i_refcount (e_ino (entry s j)) ≠ 0 →
              caches s' j m ∧ e_ino (entry s' j) = e_ino (entry s j))
  | (inl rc, s') =>
      s' = s ∧
      ((rc = KZFS_EINVAL ∧ total_inodes (sb_cache s) ≠ 0 ∧ total_inodes (sb_cache s) < n) ∨
       (rc = KZFS_ENOMEM ∧ ∀ k, (k < INO_CACHE_MAX)%nat →
          e_used (entry s k) = true ∧ i_refcount (e_ino (entry s k)) ≠ 0))
  end.
Proof.
  intros Hi Hrel Hv. unfold ino_get_nolock. pose proof (io_wf _ Hi) as Hw.
  destruct (_ || _) eqn:Hrange.
  { split; [done|]. left. destruct Hv as (Hn & _). zcase. }
  pose proof (cache_find_ok s n Hw) as Hf. destruct (ino_cache_find n s) as [k|] eqn:Hfind.
  { destruct (upd_ino_ok s k (λ i, i_set_ref (i_refcount i + 1) i) Hi ltac:(apply Hf) ltac:(done))
      as (Hi' & Hview & Hc & He). split_and!; [done|done|by apply Hc| | |].
    - by rewrite He, decide_True, (iview_cached s k n Hw Hf).
    - rewrite He, decide_True by done. simpl. lia.
    - intros j m Hj Hjm _. rewrite Hc, He, decide_False by done. done. }
  pose proof (slot_ok s Hi Hrel) as Hs. destruct (ino_cache_slot s) as [[k|] s1].
  2:{ destruct Hs as [-> Hall]. split; [done|]. by right. }
  destruct Hs as (Hroom & Hk & Hu). pose proof (rm_valid _ _ Hroom n) as Hvn.
  destruct (reliable_read n s1 Hrel (io_dev _ (rm_ok _ _ Hroom)) ltac:(by apply Hvn)) as (s2 & -> & Hrd).
  assert (Hroom2 := room_trans _ _ _ Hroom (room_reads s1 s2 (rm_ok _ _ Hroom) Hrd)).
  assert (Hu2 : e_used (entry s2 k) = false) by (by destruct Hrd as (d & -> & _)).
  assert (Ht2 : table s2 n = table s1 n).
  { destruct Hrd as (d & -> & _ & Hsame). unfold table. by rewrite <- (Hsame (ino_block s1 n)). }
  set (f := λ e, mkEnt (i_set_ref 1 (ino_from_disk n (table s1 n))) (e_used e) (e_dead e) (e_next e)).
  change (upd_ino k _ s2) with (upd_entry k f s2).
  destruct (room_unused s2 k f (rm_ok _ _ Hroom2) Hk Hu2 Hu2) as [Hr3 He3].
  assert (Hroom3 := room_trans _ _ _ Hroom2 Hr3). set (s3 := upd_entry k f s2) in *.
  assert (Ht3 : table s3 n = table s1 n) by done.
  destruct (publish_ok s3 k n (rm_ok _ _ Hroom3) Hk) as (Hi' & Hview & Hc & Hei & Hot);
    [by rewrite He3|by apply (rm_valid _ _ Hroom3)| |by rewrite He3, Ht3|].
  { intros j Hj. by apply (rm_caches _ _ Hroom3) in Hj; apply Hf in Hj. }
  cbv zeta in *. split_and!; [done| |done| | |].
  - intros m Hm. rewrite Hview. by apply (rm_view _ _ Hroom3).
  - rewrite <- (iview_cached _ k n (io_wf _ Hi') Hc), Hview. by apply (rm_view _ _ Hroom3).
  - by rewrite Hei, He3.
  - intros j m Hj (Hj1 & Hj2 & Hj3 & Hj4) Hjr. destruct (rm_pins _ _ Hroom3 j Hj1 Hj2 Hjr) as (? & He & Hd).
    unfold caches. rewrite Hot by done. by rewrite He, Hd.
Qed.
(** Releasing an inode. Dropping a reference never changes what any number denotes.
    When the last reference to a live inode goes, the disk has its latest version; when the
    last reference to a deleted inode goes, its entry is free again and nothing is written. *)
Theorem ino_put_spec s k :
  icache_ok s → io_reliable → (k < INO_CACHE_MAX)%nat → e_used (entry s k) = true →
  0 < i_refcount (e_ino (entry s k)) →
  let s' := ino_put_nolock k s in
  let n := ino (e_ino (entry s k)) in
  icache_ok s' ∧ (∀ m, ino_valid s m → iview s' m = iview s m) ∧
  (if (i_refcount (e_ino (entry s k)) =? 1) && e_dead (entry s k)
   then e_used (entry s' k) = false ∧ dev s' = dev s
   else e_used (entry s' k) = true ∧
        i_refcount (e_ino (entry s' k)) = i_refcount (e_ino (entry s k)) - 1) ∧
  (i_refcount (e_ino (entry s k)) = 1 → e_dead (entry s k) = false →
   ino_from_disk n (table s' n) = iview s n).
Proof.
  intros Hi Hrel Hk Hu Hr. cbv zeta. unfold ino_put_nolock.
  destruct (Z.ltb_spec 0 (i_refcount (e_ino (entry s k)))); [|lia].
  set (f := λ i, i_set_ref (i_refcount i - 1) i). fold f.
  destruct (upd_ino_ok s k f Hi Hk ltac:(done)) as (Hi1 & Hv1 & Hc1 & He1).
  assert (Hen1 : entry (upd_ino k f s) k =
    mkEnt (f (e_ino (entry s k))) true (e_dead (entry s k)) (e_next (entry s k))).
  { unfold upd_ino. rewrite entry_upd by (done || apply (ic_pool _ (io_wf _ Hi))).
    rewrite decide_True, Hu by done. done. }
  assert (Hdev1 : dev (upd_ino k f s) = dev s) by done.
  assert (Hval1 : ∀ m, ino_valid (upd_ino k f s) m ↔ ino_valid s m) by done.
  set (s1 := upd_ino k f s) in *. clearbody s1. rewrite Hen1. cbn [e_ino e_dead f i_set_ref i_refcount].
  set (n := ino (e_ino (entry s k))).
  destruct (Z.eqb_spec (i_refcount (e_ino (entry s k)) - 1) 0) as [H1|H1]; cbn [negb].
  2:{ destruct (Z.eqb_spec (i_refcount (e_ino (entry s k))) 1); [lia|]. cbn [andb].
      split_and!; [done|done|by rewrite Hen1|by rewrite Hen1|lia]. }
  destruct (Z.eqb_spec (i_refcount (e_ino (entry s k))) 1); [|lia]. cbn [andb].
  destruct (e_dead (entry s k)) eqn:Hd.
  { destruct (drop_ok s1 k Hi1 Hk) as (Hi2 & Hv2 & Hu2 & Hon & _);
      [by rewrite Hen1|left; by rewrite Hen1|]. cbv zeta in *.
    destruct (only_inodes_same _ _ Hon) as (Hdev2 & _).
    split_and!; [done|intros m _; by rewrite Hv2, Hv1|done|by rewrite Hdev2|done]. }
  assert (Hcs : caches s1 k n) by (apply Hc1; by split_and!).
  change (i_dirty (f (e_ino (entry s k)))) with (i_dirty (e_ino (entry s k))).
  destruct (i_dirty (e_ino (entry s k))) eqn:Hdirty.
  - pose proof (clean_ok s1 k n Hi1 Hrel Hcs) as (Hi2 & Hv2 & Hc2 & _ & He2 & Ht2).
    unfold clean_entry in *. rewrite Hen1 in *. cbn [e_ino] in *.
    assert (Hcs2 := proj2 (Hc2 k n) Hcs). split_and!; [done|intros m Hm; rewrite Hv2 by (by apply Hval1); apply Hv1
      |apply Hcs2|rewrite He2, decide_True by done; simpl; lia|].
    intros _ _. rewrite Ht2, <- Hv1, (iview_cached s1 k n (io_wf _ Hi1) Hcs), Hen1. done.
  - split_and!; [done|intros m _; apply Hv1|by rewrite Hen1|rewrite Hen1; simpl; lia|].
    intros _ _. rewrite <- Hv1, (iview_cached s1 k n (io_wf _ Hi1) Hcs).
    destruct (io_entry _ Hi1 k n Hcs) as (_ & _ & Hcl). rewrite Hcl; [done|]. by rewrite Hen1.
Qed.
End cache.

(** ** Witnesses: an empty cache over a blank disk *)
Definition blank_fs : fs (gmap Z (list Z)) :=
  mkFs (dec_super (repeat 0 BLK)) true [] 0 false [] 0 false 3 1 100
       (repeat zero_entry INO_CACHE_MAX) (repeat None INO_HASH_SIZE) [] ∅.

Lemma blank_entry k : entry blank_fs k = zero_entry.
Proof.
  unfold entry. cbn [ino_pool blank_fs].
  destruct (repeat zero_entry INO_CACHE_MAX !! k) as [e|] eqn:He; [|done].
  apply list_elem_of_lookup_2, list_elem_of_In, repeat_spec in He. done.
Qed.

Lemma blank_caches k n : ¬ caches blank_fs k n.
Proof. intros (_ & Hu & _). by rewrite blank_entry in Hu. Qed.

Lemma blank_table n : table blank_fs n = dec_inode (repeat 0 128).
Proof.
  unfold table. change (io_view (dev blank_fs) (ino_block blank_fs n)) with (repeat 0 4096).
  f_equal. unfold slice. change (Z.to_nat KZFS_INODE_SIZE) with 128%nat.
  apply list_eq. intros k. destruct (decide (k < 128)%nat) as [Hk|Hk].
  - assert (Ho : (Z.to_nat (ino_off n) + k < 4096)%nat).
    { unfold ino_off, KZFS_INODES_PER_BLOCK, KZFS_INODE_SIZE.
      pose proof (Z.mod_pos_bound (n - 1) 32). lia. }
    rewrite lookup_take_lt, lookup_drop by done. by rewrite !lookup_repeat.
  - rewrite !lookup_ge_None_2; [done|rewrite repeat_length; lia|rewrite length_take; lia].
Qed.

Lemma blank_wf : icache_wf blank_fs.
Proof.
  split; [by rewrite <- (repeat_length zero_entry INO_CACHE_MAX)
         |by rewrite <- (repeat_length (@None nat) INO_HASH_SIZE)| |].
  - intros h Hh. exists []. split_and!; [|constructor|].
    + unfold ibucket. cbn [ino_hash blank_fs]. by rewrite lookup_repeat.
    + intros k. split; [by intros ?%not_elem_of_nil|]. intros (_ & Hu & _). by rewrite blank_entry in Hu.
  - intros j k n Hj. by apply blank_caches in Hj.
Qed.

Lemma blank_ok : icache_ok blank_fs.
Proof.
  split; [apply blank_wf|done| |].
  - intros n _. rewrite blank_table. unfold inode_ok, is_u64. split_and!; try done.
    repeat constructor; done.
  - intros k n Hk. by apply blank_caches in Hk.
Qed.

Definition sample_inode : inode_mem :=
  mkIno 5 KZFS_INODE_FLAG_FILE 1 700 1 [mkExt 40 1; zero_extent; zero_extent; zero_extent] 0 true 1.

Lemma ino_sync_roundtrip_witness :
  (ino_sync_nolock sample_inode blank_fs).1 = KZFS_EOK ∧
  ino_from_disk 5 (table (ino_sync_nolock sample_inode blank_fs).2 5) = stored sample_inode.
Proof.
  assert (Hv : ino_valid blank_fs (ino sample_inode)) by (by split_and!).
  assert (Hi : inode_ok sample_inode) by (split_and!; try done; repeat constructor; done).
  pose proof (ino_sync_roundtrip sample_inode blank_fs I Hv Hi) as H.
  assert (He : (ino_sync_nolock sample_inode blank_fs).1 = KZFS_EOK) by done.
  destruct (ino_sync_nolock sample_inode blank_fs) as [rc s']. simpl in He. subst rc.
  destruct H as [(_ & Ht & _)|[[=] _]]. by split.
Defined.

Lemma ino_get_spec_witness :
  ∃ k s', ino_get_nolock 5 blank_fs = (inr k, s') ∧ caches s' k 5 ∧
          i_refcount (e_ino (entry s' k)) = 1.
Proof.
  pose proof (ino_get_spec blank_fs 5 blank_ok ram_reliable ltac:(by split_and!)) as H.
  assert (Hr : ∃ k, (ino_get_nolock 5 blank_fs).1 = inr k) by (by eexists).
  destruct (ino_get_nolock 5 blank_fs) as [[rc|k] s']; [by destruct Hr as [? [=]]|].
  destruct H as (_ & _ & Hc & _ & Href & _). exists k, s'. split; [done|]. split; [exact Hc|].
  rewrite Href. done.
Defined.

Lemma ino_put_spec_witness :
  ∃ k, e_used (entry (ino_put_nolock k (ino_get_nolock 5 blank_fs).2) k) = true.
Proof.
  pose proof (ino_get_spec blank_fs 5 blank_ok ram_reliable ltac:(by split_and!)) as H.
  assert (Hr : ∃ k, (ino_get_nolock 5 blank_fs).1 = inr k) by (by eexists).
  destruct (ino_get_nolock 5 blank_fs) as [[rc|k] s']; [by destruct Hr as [? [=]]|].
  destruct H as (Hok & _ & (Hk & Hu & Hd & _) & _ & Href & _). exists k.
  assert (H1 : i_refcount (e_ino (entry s' k)) = 1) by (by rewrite Href).
  pose proof (ino_put_spec s' k Hok ram_reliable Hk Hu ltac:(lia)) as (_ & _ & Hp & _).
  rewrite H1, Hd in Hp. apply Hp.
Defined.
