(* ===== verification/KfsMount.v ===== *)
(** Metadata of KyuzenFS V4 (definitions in [KfsMeta]): the layout computed for a disk is
    sound, and what [kfs_sync_all] writes is what the next mount loads. *)

From S2P Require Import Prelude Bitmap BlockIO Kfs KfsInode KfsBalloc KfsExtent KfsTrunc KfsMeta.

(** ** The layout *)

(** The areas follow each other, every bitmap and the table cover what they describe, the
    free counts are exact, and the bitmap fits a 32-bit size. *)
Definition layout_ok (t : Z) (b : superblock) : Prop :=
  0 < block_bitmap_start b ∧
  inode_bitmap_start b = block_bitmap_start b + block_bitmap_blocks b ∧
  inode_table_start b = inode_bitmap_start b + inode_bitmap_blocks b ∧
  data_blocks_start b = inode_table_start b + inode_table_blocks b ∧
  data_blocks_start b < total_blocks b ∧ total_blocks b = t ∧
  total_blocks b ≤ 8 * (KZFS_BLOCK_SIZE * block_bitmap_blocks b) ∧
  total_inodes b ≤ 8 * (KZFS_BLOCK_SIZE * inode_bitmap_blocks b) ∧
  total_inodes b ≤ KZFS_INODES_PER_BLOCK * inode_table_blocks b ∧
  0 < total_inodes b ≤ 262144 ∧
  free_blocks b = total_blocks b - data_blocks_start b ∧ free_inodes b = total_inodes b - 1 ∧
  KZFS_BLOCK_SIZE * block_bitmap_blocks b < 2 ^ 32.

(** The layout of a disk is sound. For every disk from 8 blocks up to the largest the
    32-bit sector count can describe, the superblock, the block bitmap, the inode bitmap,
    the inode table and the data area follow each other without overlap, each bitmap has a
    bit for everything it describes, the table has a slot for every inode, at least one
    data block remains, and the free counts are exact; no field overflows its width. *)
Theorem layout_sound (t : Z) (b0 : superblock) :
  8 ≤ t < 2 ^ 29 → layout_ok t (layout_compute t b0).
Proof.
  intros Ht. unfold layout_ok, layout_compute, KZFS_BLOCK_SIZE, KZFS_INODE_SIZE, KZFS_INODES_PER_BLOCK.
  cbn [block_bitmap_start inode_bitmap_start block_bitmap_blocks inode_table_start inode_bitmap_blocks
       data_blocks_start inode_table_blocks total_blocks total_inodes free_blocks free_inodes].
  change (4096 / 128) with 32. rewrite !(u64_id (t * 32)), (u64_id (t + 7)) by lia.
  set (a := if 262144 <? t / 16 then 262144 else t / 16).
  assert (Ha : 0 ≤ a ≤ t / 16 ∧ a ≤ 262144) by (unfold a; zcase; zdiv).
  set (a2 := if a <? 512 then 512 else a).
  assert (Ha2 : 512 ≤ a2 ≤ Z.max 512 (t / 16) ∧ a2 ≤ 262144) by (unfold a2; zcase). clearbody a a2.
  set (n := if t * 32 / 2 <? a2 then t * 32 / 2 else a2).
  assert (Hn : 0 < n ≤ 262144 ∧ n ≤ 16 * t ∧ n ≤ Z.max 512 (t / 16)) by (unfold n; zcase; zdiv).
  clearbody n. clear Ha Ha2. rewrite (u32_id n), (u32_id (n - 1)) by lia.
  rewrite !(u32_id ((n + 32 - 1) / 32)) by zdiv.
  rewrite !(u32_id (((n + 7) / 8 + 4096 - 1) / 4096)) by zdiv.
  rewrite !(u32_id (((t + 7) / 8 + 4096 - 1) / 4096)) by zdiv.
  assert (Hbm : 0 < ((t + 7) / 8 + 4096 - 1) / 4096 ≤ t / 32768 + 1 ∧
                t ≤ 8 * (4096 * (((t + 7) / 8 + 4096 - 1) / 4096))) by zdiv.
  assert (Hib : 0 < ((n + 7) / 8 + 4096 - 1) / 4096 ≤ n / 32768 + 1 ∧
                n ≤ 8 * (4096 * (((n + 7) / 8 + 4096 - 1) / 4096))) by zdiv.
  assert (Hit : 0 < (n + 32 - 1) / 32 ≤ (n + 31) / 32 ∧ n ≤ 32 * ((n + 32 - 1) / 32)) by zdiv.
  set (bm := _ / 4096) in *. set (ib := ((n + 7) / 8 + 4096 - 1) / 4096) in *.
  set (it := (n + 32 - 1) / 32) in *. clearbody bm ib it.
  assert (Hd : 1 + bm + ib + it < t) by zdiv.
  rewrite u64_id by lia. split_and!; try lia; zdiv.
Qed.

Lemma layout_sound_witness :
  data_blocks_start (layout_compute 25599 small_sb) < total_blocks (layout_compute 25599 small_sb).
Proof. apply (layout_sound 25599 small_sb). lia. Defined.

(** ** Storing and loading a bitmap *)
Section mount.
Context {S : Type} `{Hio : BlockIOok S}.
Implicit Types (s : fs S) (m : list Z).

(** Transfers never fail. *)
Definition io_sure : Prop :=
  io_reliable ∧ ∀ n b (d : S), io_ok d → 0 ≤ n < io_limit → (io_overwrite n b d).1 = true.

(** The first [n] blocks from [start] hold the memory [m]. *)
Definition holds (d : S) (start n : Z) m : Prop :=
  ∀ i, 0 ≤ i < n → io_view d (start + i) = slice (i * KZFS_BLOCK_SIZE) KZFS_BLOCK_SIZE m.

(** A region of [n] blocks on the device. *)
Definition region (start n : Z) : Prop :=
  0 ≤ start ∧ 0 ≤ n ∧ start + n ≤ Z.min io_limit (2 ^ 64) ∧ n * KZFS_BLOCK_SIZE < 2 ^ 32.

Definition outside (d d' : S) (start n : Z) : Prop :=
  ∀ b, ¬ (start ≤ b < start + n) → io_view d' b = io_view d b.

Lemma store_ok m start n s :
  io_sure → io_ok (dev s) → region start n → zlength m = n * KZFS_BLOCK_SIZE →
  ∃ d, for_range 0 n (store_step m start) s = inr (set_dev d s) ∧ io_ok d ∧
       holds d start n m ∧ outside (dev s) d start n.
Proof.
  intros [_ Hov] Hok (Hs & Hn & Hl & Hw) Hm. unfold KZFS_BLOCK_SIZE in *.
  opose proof* (for_range_rule
    (λ i s', ∃ d, s' = set_dev d s ∧ io_ok d ∧ holds d start i m ∧ outside (dev s) d start i)
    (λ _ : fs S, False) 0 n (store_step m start) s) as Hr.
  - exists (dev s). split_and!; [by destruct s|done|intros i ?; lia|by intros b _].
  - intros i s' Hi (d & -> & Hd & Hh & Ho). unfold store_step, KZFS_BLOCK_SIZE.
    rewrite u32_id, u64_id by lia. cbn [dev set_dev].
    assert (Hlen : zlength (slice (i * 4096) 4096 m) = 4096) by (apply slice_length; lia).
    pose proof (io_overwrite_spec (start + i) (slice (i * 4096) 4096 m) d Hd ltac:(lia)) as Hspec.
    specialize (Hov (start + i) (slice (i * 4096) 4096 m) d Hd ltac:(lia)).
    destruct (io_overwrite _ _ d) as [ok d']. simpl in Hov. subst ok.
    destruct Hspec as [Hd' Hp]; [unfold zlength, BLK in *; lia|].
    exists d'. split_and!; [done|done| |].
    + intros j Hj. destruct (decide (j = i)) as [->|]; [exact (view_put_at _ _ _ _ Hp)|].
      rewrite (view_put_other _ _ _ _ (start + j) Hp) by lia. apply Hh. lia.
    + intros b Hb. rewrite (view_put_other _ _ _ _ b Hp) by lia. apply Ho. lia.
  - destruct (for_range _ _ _ _) as [?|s']; [done|]. rewrite Z.max_r in Hr by lia.
    destruct Hr as (d & -> & ?). by exists d.
Qed.

Lemma splice_grow m0 m i b :
  0 ≤ i → zlength m0 = zlength m → i * 4096 + 4096 ≤ zlength m →
  take (Z.to_nat (i * 4096)) m0 = take (Z.to_nat (i * 4096)) m → b = slice (i * 4096) 4096 m →
  take (Z.to_nat ((i + 1) * 4096)) (splice m0 (i * 4096) b) = take (Z.to_nat ((i + 1) * 4096)) m.
Proof.
  intros Hi Hl Hb Ht ->. assert (Hs : zlength (slice (i * 4096) 4096 m) = 4096) by (apply slice_length; lia).
  unfold zlength in *. unfold splice. rewrite app_assoc, take_app_length'.
  2:{ rewrite length_app, length_take. lia. }
  rewrite Ht. unfold slice. rewrite take_take_drop. f_equal. lia.
Qed.

(** Loading, through either of the two loop bodies: [get] and [put] are the memory. *)
Lemma load_ok m start n (get : fs S → list Z) (put : list Z → fs S → fs S) step s :
  io_sure → io_ok (dev s) → region start n → zlength m = n * KZFS_BLOCK_SIZE →
  holds (dev s) start n m → zlength (get s) = zlength m →
  (∀ v s, get (put v s) = v) → (∀ v d s, put v (set_dev d s) = set_dev d (put v s)) →
  (∀ d s, get (set_dev d s) = get s) → (∀ v w s, put v (put w s) = put v s) → (∀ s, put (get s) s = s) →
  (∀ i s', s' = put (get s') (set_dev (dev s') s) → 0 ≤ i < n → step i s' =
     match io_read (start + i) (dev s') with
     | (None, d) => inl (set_dev d s')
     | (Some b, d) => inr (put (splice (get s') (i * KZFS_BLOCK_SIZE) b) (set_dev d s'))
     end) →
  ∃ d, for_range 0 n step s = inr (put m (set_dev d s)) ∧ io_ok d ∧ view_same (dev s) d.
Proof.
  intros [[Hread _] _] Hok (Hs & Hn & Hl & Hw) Hm Hh Hg Hgp Hpd Hgd Hpp Hpg Hstep.
  unfold KZFS_BLOCK_SIZE in *.
  opose proof* (for_range_rule
    (λ i s', ∃ d v, s' = put v (set_dev d s) ∧ io_ok d ∧ view_same (dev s) d ∧
       zlength v = zlength m ∧ take (Z.to_nat (i * 4096)) v = take (Z.to_nat (i * 4096)) m)
    (λ _ : fs S, False) 0 n step s) as Hr.
  - exists (dev s), (get s). split_and!; try done. replace (set_dev (dev s) s) with s by (by destruct s).
    by rewrite Hpg.
  - intros i s' Hi (d & v & -> & Hd & Hv & Hlv & Ht).
    assert (Hdev : dev (put v (set_dev d s)) = d) by (by rewrite Hpd).
    rewrite Hstep; [|by rewrite Hgp, Hdev|done]. rewrite Hdev, Hgp.
    specialize (Hread (start + i) d Hd ltac:(lia)).
    pose proof (io_read_spec (start + i) d Hd ltac:(lia)) as Hspec.
    destruct (io_read _ d) as [[b|] d']; [|done]. destruct Hspec as (Hd' & Hv' & ->).
    assert (Hb : io_view d (start + i) = slice (i * 4096) 4096 m) by (rewrite (Hv (start + i)); by apply Hh).
    eexists d', _. split_and!; [rewrite !Hpd, Hpp; reflexivity|done|by rewrite Hv| |].
    + unfold zlength in *. rewrite splice_length; [done|lia|]. rewrite Hb.
      rewrite slice_length by (unfold zlength; lia). unfold zlength. lia.
    + apply splice_grow; lia || done.
  - destruct (for_range _ _ _ _) as [?|s']; [done|]. rewrite Z.max_r in Hr by lia.
    destruct Hr as (d & v & -> & ? & ? & Hlv & Ht). exists d. split_and!; try done.
    do 2 f_equal. unfold zlength in *. rewrite !take_ge in Ht by lia. done.
Qed.
(** ** The metadata of a mounted file system *)
Record meta_ok s : Prop := {
  mo_super : super_ok (sb_cache s);
  mo_magic : sb_magic (sb_cache s) = KZFS_MAGIC;
  mo_dev : io_ok (dev s);
  mo_bmb : bm_blocks s = block_bitmap_blocks (sb_cache s);
  mo_ibmb : ibm_blocks s = inode_bitmap_blocks (sb_cache s);
  mo_bm : region (block_bitmap_start (sb_cache s)) (bm_blocks s);
  mo_ibm : region (inode_bitmap_start (sb_cache s)) (ibm_blocks s);
  mo_order : 0 < block_bitmap_start (sb_cache s) ∧
    block_bitmap_start (sb_cache s) + bm_blocks s ≤ inode_bitmap_start (sb_cache s);
  mo_bml : zlength (bm_mem s) = bm_blocks s * KZFS_BLOCK_SIZE;
  mo_ibml : zlength (ibm_mem s) = ibm_blocks s * KZFS_BLOCK_SIZE;
  mo_bmc : bm_dirty s = false →
    holds (dev s) (block_bitmap_start (sb_cache s)) (bm_blocks s) (bm_mem s);
  mo_ibmc : ibm_dirty s = false →
    holds (dev s) (inode_bitmap_start (sb_cache s)) (ibm_blocks s) (ibm_mem s)
}.

(** A device that holds the metadata of [s]. *)
Definition persisted s (d : S) : Prop :=
  io_ok d ∧ io_view d 0 = enc_super (sb_cache s) ∧
  holds d (block_bitmap_start (sb_cache s)) (bm_blocks s) (bm_mem s) ∧
  holds d (inode_bitmap_start (sb_cache s)) (ibm_blocks s) (ibm_mem s).

(** A block outside the superblock and the two bitmaps. *)
Definition contents_block s (n : Z) : Prop :=
  n ≠ 0 ∧
  ¬ (block_bitmap_start (sb_cache s) ≤ n < block_bitmap_start (sb_cache s) + bm_blocks s) ∧
  ¬ (inode_bitmap_start (sb_cache s) ≤ n < inode_bitmap_start (sb_cache s) + ibm_blocks s).

Lemma holds_outside d d' start n m start' n' :
  holds d start n m → outside d d' start' n' → start + n ≤ start' ∨ start' + n' ≤ start →
  holds d' start n m.
Proof. intros Hh Ho Hd i Hi. rewrite Ho by lia. by apply Hh. Qed.

Lemma bm_flush_ok s :
  io_sure → meta_ok s →
  ∃ d, bm_flush s = (KZFS_EOK, set_bm (bm_mem s) false (set_dev d s)) ∧ io_ok d ∧
       holds d (block_bitmap_start (sb_cache s)) (bm_blocks s) (bm_mem s) ∧
       outside (dev s) d (block_bitmap_start (sb_cache s)) (bm_blocks s).
Proof.
  intros Hs Hm. unfold bm_flush. destruct (bm_dirty s) eqn:Hd; cbn [negb].
  - destruct (store_ok (bm_mem s) _ _ s Hs (mo_dev _ Hm) (mo_bm _ Hm) (mo_bml _ Hm)) as (d & -> & ?).
    by exists d.
  - exists (dev s). pose proof (mo_bmc _ Hm Hd). split_and!; [|apply Hm|done|by intros b _].
    destruct s. simpl in *. by rewrite Hd.
Qed.

Lemma ibm_flush_ok s :
  io_sure → io_ok (dev s) → region (inode_bitmap_start (sb_cache s)) (ibm_blocks s) →
  zlength (ibm_mem s) = ibm_blocks s * KZFS_BLOCK_SIZE →
  (ibm_dirty s = false → holds (dev s) (inode_bitmap_start (sb_cache s)) (ibm_blocks s) (ibm_mem s)) →
  ∃ d, ibm_flush s = (KZFS_EOK, set_ibm (ibm_mem s) false (set_dev d s)) ∧ io_ok d ∧
       holds d (inode_bitmap_start (sb_cache s)) (ibm_blocks s) (ibm_mem s) ∧
       outside (dev s) d (inode_bitmap_start (sb_cache s)) (ibm_blocks s).
Proof.
  intros Hs Hok Hr Hl Hc. unfold ibm_flush. destruct (ibm_dirty s) eqn:Hd; cbn [negb].
  - destruct (store_ok (ibm_mem s) _ _ s Hs Hok Hr Hl) as (d & -> & ?). by exists d.
  - exists (dev s). split_and!; [|done|by apply Hc|by intros b _]. destruct s. simpl in *. by rewrite Hd.
Qed.

Lemma flush_meta_ok s :
  io_sure → meta_ok s →
  ∃ d, flush_meta s = set_dev d (set_ibm (ibm_mem s) false (set_bm (bm_mem s) false s)) ∧
       persisted s d ∧ ∀ n, contents_block s n → io_view d n = io_view (dev s) n.
Proof.
  intros Hs Hm. destruct (bm_flush_ok s Hs Hm) as (d1 & H1 & Hd1 & Hh1 & Ho1).
  destruct (mo_order _ Hm) as [Hpos Hord]. pose proof (mo_bm _ Hm) as Hbm.
  pose proof (mo_ibm _ Hm) as Hibm. unfold flush_meta. rewrite H1. cbn [snd].
  destruct (ibm_flush_ok (set_bm (bm_mem s) false (set_dev d1 s)) Hs Hd1 Hibm (mo_ibml _ Hm))
    as (d2 & H2 & Hd2 & Hh2 & Ho2).
  { intros Hc. apply (holds_outside (dev s) _ _ _ _ _ _ (mo_ibmc _ Hm Hc) Ho1). right. simpl. lia. }
  rewrite H2. cbn [snd]. unfold sb_save. cbn [sb_cache dev set_ibm set_bm set_dev ibm_mem ibm_blocks] in *.
  destruct Hs as [Hrel Hov]. unfold region in *.
  pose proof (io_overwrite_spec 0 (enc_super (sb_cache s)) d2 Hd2 ltac:(lia)
    ltac:(apply enc_super_length, Hm)) as Hspec.
  specialize (Hov 0 (enc_super (sb_cache s)) d2 Hd2 ltac:(lia)).
  destruct (io_overwrite _ _ d2) as [ok d3]. simpl in Hov. subst ok. destruct Hspec as [Hd3 Hp].
  exists d3. split; [done|]. split; [split_and!; [done|exact (view_put_at _ _ _ _ Hp)| |]|].
  - intros i Hi. rewrite (view_put_other _ _ _ _ _ Hp) by lia. rewrite Ho2 by lia. by apply Hh1.
  - intros i Hi. rewrite (view_put_other _ _ _ _ _ Hp) by lia. by apply Hh2.
  - intros n (? & ? & ?). rewrite (view_put_other _ _ _ _ _ Hp) by done.
    by rewrite Ho2, Ho1.
Qed.
(** ** Mounting *)
Lemma sb_load_ok s s2 :
  io_sure → meta_ok s → persisted s (dev s2) →
  ∃ d, sb_load s2 = (KZFS_EOK, set_sb (sb_cache s) (set_dev d s2)) ∧ persisted s d ∧
       view_same (dev s2) d.
Proof.
  intros [[Hread _] _] Hm (Hok & H0 & Hb & Hi). unfold sb_load.
  assert (Hlim : 0 ≤ 0 < io_limit).
  { pose proof (mo_ibm _ Hm) as Hr. destruct (mo_order _ Hm). destruct (mo_bm _ Hm) as (_ & ? & _).
    unfold region in Hr. lia. }
  pose proof (io_read_spec 0 (dev s2) Hok Hlim) as Hspec. specialize (Hread 0 (dev s2) Hok Hlim).
  destruct (io_read 0 (dev s2)) as [[b|] d]; [|done]. destruct Hspec as (Hd & Hsame & ->).
  rewrite H0, dec_enc_super by apply Hm. cbn [sb_cache set_sb]. rewrite (mo_magic _ Hm). cbn [negb].
  exists d. split; [done|]. split; [|done].
  split_and!; [done|by rewrite Hsame| |]; intros k Hk; rewrite Hsame; first [by apply Hb|by apply Hi].
Qed.

Lemma set_sb_dev v d s : set_sb v (set_dev d s) = set_dev d (set_sb v s).
Proof. done. Qed.

Lemma alloc_bitmaps_ok s :
  kheap s = [] →
  alloc_bitmaps s = (true,
    set_ibm (repeat 0 (Z.to_nat (u32 (ibm_blocks s * KZFS_BLOCK_SIZE)))) (ibm_dirty s)
      (set_bm (repeat 0 (Z.to_nat (u32 (bm_blocks s * KZFS_BLOCK_SIZE)))) (bm_dirty s) s)).
Proof.
  intros Hk. unfold alloc_bitmaps, try_kmalloc. rewrite Hk. cbv beta iota. rewrite Hk. done.
Qed.

Lemma mount_ok s s3 :
  io_sure → meta_ok s → sb_cache s3 = sb_cache s → persisted s (dev s3) → kheap s3 = [] →
  let r := mount_load_bitmaps s3 in
  r.1 = KZFS_EOK ∧ sb_cache r.2 = sb_cache s ∧ bm_mem r.2 = bm_mem s ∧ ibm_mem r.2 = ibm_mem s ∧
  bm_blocks r.2 = bm_blocks s ∧ ibm_blocks r.2 = ibm_blocks s ∧ fs_mounted r.2 = true ∧
  view_same (dev s3) (dev r.2).
Proof.
  intros Hs Hm Hsb (Hok & H0 & Hb & Hi) Hk. unfold mount_load_bitmaps, layout_globals_load.
  rewrite Hsb. set (s4 := set_layout _ _ _ _ _ s3).
  rewrite (alloc_bitmaps_ok s4) by done. cbn [negb]. set (s5 := set_ibm _ _ (set_bm _ _ s4)).
  assert (Hf5 : bm_blocks s5 = bm_blocks s ∧ ibm_blocks s5 = ibm_blocks s ∧ sb_cache s5 = sb_cache s ∧
    dev s5 = dev s3 ∧ zlength (bm_mem s5) = zlength (bm_mem s) ∧ zlength (ibm_mem s5) = zlength (ibm_mem s)).
  { unfold s5, s4. cbn [bm_blocks ibm_blocks sb_cache dev bm_mem ibm_mem set_ibm set_bm set_layout].
    rewrite <- (mo_bmb _ Hm), <- (mo_ibmb _ Hm), (mo_bml _ Hm), (mo_ibml _ Hm).
    destruct (mo_bm _ Hm) as (_ & ? & _ & ?), (mo_ibm _ Hm) as (_ & ? & _ & ?).
    unfold zlength, KZFS_BLOCK_SIZE in *. rewrite !repeat_length, !u32_id by lia.
    split_and!; try done; lia. }
  clearbody s5. clear s4. destruct Hf5 as (Hbb & Hib & Hsb5 & Hdev & Hl1 & Hl2). rewrite <- Hdev in *.
  destruct (load_ok (bm_mem s) _ _ bm_mem (λ v s, set_bm v (bm_dirty s) s) load_bm_step s5 Hs Hok
    (mo_bm _ Hm) (mo_bml _ Hm) Hb Hl1) as (d1 & Hr1 & Hd1 & Hv1); try done.
  { by intros []. }
  { intros i s' Hs' Hir. unfold load_bm_step. rewrite Hs'. cbn [sb_cache set_bm set_dev dev bm_mem].
    rewrite Hsb5. destruct (mo_bm _ Hm) as (? & ? & ? & ?). unfold KZFS_BLOCK_SIZE in *.
    by rewrite u32_id, u64_id by lia. }
  rewrite Hbb, Hr1. set (s6 := set_bm _ _ _).
  assert (Hf6 : dev s6 = d1 ∧ ibm_blocks s6 = ibm_blocks s ∧ sb_cache s6 = sb_cache s ∧
    bm_mem s6 = bm_mem s ∧ bm_blocks s6 = bm_blocks s ∧ zlength (ibm_mem s6) = zlength (ibm_mem s)) by done.
  clearbody s6. clear Hr1. destruct Hf6 as (<- & Hib6 & Hsb6 & Hbm6 & Hbb6 & Hl6).
  destruct (load_ok (ibm_mem s) _ _ ibm_mem (λ v s, set_ibm v (ibm_dirty s) s) load_ibm_step s6 Hs Hd1
    (mo_ibm _ Hm) (mo_ibml _ Hm)) as (d2 & Hr2 & Hd2 & Hv2); try done.
  { intros k Hkr. rewrite Hv1. by apply Hi. }
  { by intros []. }
  { intros i s' Hs' Hir. unfold load_ibm_step. rewrite Hs'. cbn [sb_cache set_ibm set_dev dev ibm_mem].
    rewrite Hsb6. destruct (mo_ibm _ Hm) as (? & ? & ? & ?). unfold KZFS_BLOCK_SIZE in *.
    by rewrite u32_id, u64_id by lia. }
  rewrite Hib6, Hr2. cbv zeta. cbn. split_and!; try done. by transitivity (dev s6).
Qed.

(** A kernel that starts on the device [s] leaves behind: its cache shows what that device
    holds, and it has memory. *)
Definition restarted s s2 : Prop :=
  io_ok (dev s2) ∧ (∀ n, io_view (dev s2) n = io_disk (dev s) n) ∧ kheap s2 = [].

Lemma sync_all_durable s :
  io_sure → io_durable (S := S) → meta_ok s → fs_mounted s = true →
  ∃ d, persisted s d ∧ (∀ n, contents_block s n → io_view d n = io_view (dev s) n) ∧
       ∀ n, io_disk (dev (kfs_sync_all s)) n = io_view d n.
Proof.
  intros Hs Hdur Hm Hmt. destruct (flush_meta_ok s Hs Hm) as (d & Hfl & Hper & Hc).
  exists d. split_and!; [done|done|]. unfold kfs_sync_all. rewrite Hmt, Hfl. cbn [negb dev set_dev].
  destruct (io_flush_spec d (proj1 Hper)) as (_ & _ & Hd). by apply Hd.
Qed.

(** C19: what is synchronised survives the loss of memory. After [kfs_sync_all] on a mounted
    file system whose transfers succeed, a kernel that starts with nothing but what the
    device holds mounts successfully and finds the superblock and both bitmaps exactly as
    they were in memory, and in every other block the contents last written to it, although
    these may have been in the cache only. *)
Theorem sync_mount_roundtrip s s2 :
  io_sure → io_durable (S := S) → meta_ok s → fs_mounted s = true →
  restarted (kfs_sync_all s) s2 →
  let '(rc, s3) := sb_load s2 in
  rc = KZFS_EOK ∧
  let '(rc, s4) := mount_load_bitmaps s3 in
  rc = KZFS_EOK ∧ sb_cache s4 = sb_cache s ∧ bm_mem s4 = bm_mem s ∧ ibm_mem s4 = ibm_mem s ∧
  bm_blocks s4 = bm_blocks s ∧ ibm_blocks s4 = ibm_blocks s ∧ fs_mounted s4 = true ∧
  ∀ n, contents_block s n → io_view (dev s4) n = io_view (dev s) n.
Proof.
  intros Hs Hdur Hm Hmt (Hok2 & Hv2 & Hk).
  destruct (sync_all_durable s Hs Hdur Hm Hmt) as (d & (_ & H0 & Hb & Hi) & Hc & Hd).
  assert (Hp2 : persisted s (dev s2)).
  { split_and!; [done|by rewrite Hv2, Hd| |]; intros k Hkr; rewrite Hv2, Hd; [by apply Hb|by apply Hi]. }
  destruct (sb_load_ok s s2 Hs Hm Hp2) as (d2 & -> & Hp3 & Hv3). split; [done|].
  pose proof (mount_ok s (set_sb (sb_cache s) (set_dev d2 s2)) Hs Hm eq_refl Hp3 Hk) as Hr.
  destruct (mount_load_bitmaps _) as [rc s4].
  destruct Hr as (? & ? & ? & ? & ? & ? & ? & Hv4). cbn in Hv4. split_and!; try done.
  intros n Hn. by rewrite Hv4, Hv3, Hv2, Hd, Hc.
Qed.
End mount.

(** ** Witness: the small file system with both bitmaps changed *)
Definition changed_fs : fs (gmap Z (list Z)) :=
  set_ibm (padded 2) true (set_bm (padded 255) true small_fs).

Lemma changed_meta : meta_ok changed_fs.
Proof.
  split; try (by apply padded_zlength); try done.
Qed.

Lemma ram_sure : @io_sure (gmap Z (list Z)) _.
Proof. split; [apply ram_reliable|done]. Qed.

Lemma sync_mount_roundtrip_witness :
  let s2 := set_dev (dev (kfs_sync_all changed_fs)) small_fs in
  (sb_load s2).1 = KZFS_EOK ∧ bm_mem (mount_load_bitmaps (sb_load s2).2).2 = padded 255.
Proof.
  cbv zeta. set (s2 := set_dev _ small_fs).
  pose proof (sync_mount_roundtrip changed_fs s2 ram_sure I changed_meta eq_refl ltac:(by split_and!)) as H.
  destruct (sb_load s2) as [rc s3]. destruct H as [-> H]. split; [done|].
  simpl. destruct (mount_load_bitmaps s3) as [rc2 s4]. destruct H as (_ & _ & Hb & _). exact Hb.
Defined.
