(* ===== verification/KfsDirSpec.v ===== *)
(** Directories of KyuzenFS V4 as association lists (definitions in [KfsDir]): lookup,
    addition and removal of entries act on the records of the directory file as the
    operations of an association list, and keep the records well formed. *)

From S2P Require Import Prelude Bitmap BlockIO Kfs KfsInode KfsBalloc KfsExtent KfsTrunc KfsMount KfsDir.

(** ** Records as byte strings *)

(** A record is a string whose length field is its length. *)
Record rec_ok (r : list Z) : Prop := {
  rk_len : r_rec r 0 = zlength r;
  rk_min : 12 ≤ zlength r;
  rk_name : r_ino r 0 ≠ 0 → 0 ≤ r_nlen r 0 ∧ 8 + r_nlen r 0 ≤ zlength r
}.

(** The name, inode and type of a record in use. *)
Definition entry_of (r : list Z) : option (list Z * (Z * Z)) :=
  if r_ino r 0 =? 0 then None
  else Some (slice 8 (r_nlen r 0) r, (r_ino r 0, r_ftype r 0)).

Lemma slice_mid pre r rest off n :
  0 ≤ off → 0 ≤ n → off + n ≤ zlength r →
  slice (zlength pre + off) n (pre ++ r ++ rest) = slice off n r.
Proof.
  intros Ho Hn Hl. unfold slice, zlength in *. rewrite Z2Nat.inj_add, Nat2Z.id by lia.
  rewrite <- drop_drop, drop_app_length, drop_app_le by lia.
  rewrite take_app_le; [done|]. rewrite length_drop. lia.
Qed.

Lemma lget_mid pre r rest off :
  0 ≤ off < zlength r → lget (pre ++ r ++ rest) (zlength pre + off) = lget r off.
Proof.
  intros Hl. unfold lget, zlength in *. rewrite Z2Nat.inj_add, Nat2Z.id by lia.
  rewrite lookup_app_r by lia. rewrite lookup_app_l by lia. do 2 f_equal. lia.
Qed.

(** A record in the middle of a buffer. *)
Lemma rec_mid pre r rest :
  12 ≤ zlength r →
  let tmp := pre ++ r ++ rest in let pos := zlength pre in
  r_ino tmp pos = r_ino r 0 ∧ r_rec tmp pos = r_rec r 0 ∧ r_nlen tmp pos = r_nlen r 0 ∧
  r_ftype tmp pos = r_ftype r 0.
Proof.
  intros Hl. cbv zeta. unfold r_ino, r_rec, r_nlen, r_ftype, field.
  rewrite <- (Z.add_0_r (zlength pre)) at 1. rewrite !slice_mid, !lget_mid by lia. done.
Qed.

(** ** The records the code builds *)
Lemma splice_front (l : list Z) src : splice l 0 src = src ++ drop (length src) l.
Proof. done. Qed.

Lemma drop_repeat (x : Z) n k : drop k (repeat x n) = repeat x (n - k).
Proof. revert k. induction n; intros [|k]; simpl; try done. Qed.

(** The inode and length fields of a record. *)
Lemma head_fields a k rest :
  0 ≤ a < 2 ^ 32 → 0 ≤ k < 2 ^ 16 →
  r_ino (le_bytes 4 a ++ le_bytes 2 k ++ rest) 0 = a ∧
  r_rec (le_bytes 4 a ++ le_bytes 2 k ++ rest) 0 = k.
Proof.
  intros Ha Hk. unfold r_ino, r_rec. split; [by apply (field_here 4)|].
  rewrite field_skip by (rewrite ?zlength_le_bytes; lia). by apply (field_here 2).
Qed.

Lemma free_ok k : 12 ≤ k < 2 ^ 16 →
  let r := le_bytes 4 0 ++ le_bytes 2 k ++ repeat 0 (Z.to_nat (k - 6)) in
  zlength r = k ∧ rec_ok r ∧ entry_of r = None.
Proof.
  intros Hk r. destruct (head_fields 0 k (repeat 0 (Z.to_nat (k - 6))) ltac:(lia) ltac:(lia)) as [Hi Hr].
  fold r in Hi, Hr. assert (Hl : zlength r = k).
  { subst r. rewrite !zlength_app, !zlength_le_bytes. unfold zlength. rewrite repeat_length. lia. }
  split_and!; [done| |by unfold entry_of; rewrite Hi].
  split; [by rewrite Hl, Hr|lia|by rewrite Hi].
Qed.

Lemma used_ok target k ftype name pad :
  0 < target < 2 ^ 32 → zlength name ≤ 255 → 12 ≤ k < 2 ^ 16 →
  8 + zlength name + Z.of_nat pad = k →
  let r := record target k ftype name ++ repeat 0 pad in
  zlength r = k ∧ rec_ok r ∧ entry_of r = Some (name, (target, ftype)).
Proof.
  intros Ht Hn Hk Hp r. assert (Hnl : 0 ≤ zlength name) by (unfold zlength; lia).
  set (rest := [u8 (zlength name); ftype] ++ name ++ repeat 0 pad).
  assert (Er : r = le_bytes 4 target ++ le_bytes 2 k ++ rest).
  { unfold r, record, rest. by rewrite <- !app_assoc. }
  destruct (head_fields target k rest ltac:(lia) ltac:(lia)) as [Hi Hr]. rewrite <- Er in Hi, Hr.
  assert (Hl : zlength r = k).
  { rewrite Er. unfold rest. rewrite !zlength_app, !zlength_le_bytes. unfold zlength in *.
    rewrite repeat_length. simpl length. lia. }
  assert (Hb : r_nlen r 0 = zlength name ∧ r_ftype r 0 = ftype).
  { rewrite <- (u8_id (zlength name)) by lia. by rewrite Er. }
  destruct Hb as [Hb Hf]. split_and!; [done|split|].
  - by rewrite Hl, Hr.
  - lia.
  - rewrite Hb. lia.
  - unfold entry_of. rewrite Hi, Hb, Hf. destruct (Z.eqb_spec target 0); [lia|]. do 2 f_equal.
    rewrite Er. unfold rest. rewrite !app_assoc, <- (app_assoc _ name), slice_skip by done.
    by apply slice_head.
Qed.

Lemma dirent_len_bounds name : zlength name ≤ KZFS_NAME_MAX → 0 < zlength name →
  12 ≤ dirent_len name ≤ 264 ∧ 8 + zlength name ≤ dirent_len name.
Proof.
  unfold dirent_len, KZFS_NAME_MAX. generalize (zlength name). intros n H1 H2.
  assert (Hall : forallb (λ n, let m := u16 (Z.land (8 + n + 3) 0xFFFFFFFC) in
    (12 <=? m) && (m <=? 264) && (8 + n <=? m)) (seqZ 1 255) = true) by reflexivity.
  rewrite forallb_forall in Hall. specialize (Hall n). cbv zeta in Hall.
  rewrite !andb_true_iff, !Z.leb_le in Hall. apply Hall, list_elem_of_In, elem_of_seqZ. lia.
Qed.

(** A free record that is reused becomes the new record, and a free record for the rest. *)
Lemma reuse_ok target ftype e_rec name :
  0 < target < 2 ^ 32 → 0 < zlength name ≤ KZFS_NAME_MAX → dirent_len name ≤ e_rec < 2 ^ 16 →
  ∃ rs, concat rs = reuse_bytes target ftype (dirent_len name) e_rec name ∧ Forall rec_ok rs ∧
    zlength (concat rs) = e_rec ∧ omap entry_of rs = [(name, (target, ftype))].
Proof.
  intros Ht [Hn0 Hn] He. destruct (dirent_len_bounds name Hn Hn0) as [Hd1 Hd2].
  assert (Hrl : ∀ k, zlength (record target k ftype name) = 8 + zlength name).
  { intros k. unfold record. rewrite !zlength_app, !zlength_le_bytes. unfold zlength. simpl length. lia. }
  unfold reuse_bytes, KZFS_DIRENT_MIN_REC, KZFS_NAME_MAX in *. rewrite splice_front. set (m := dirent_len name) in *.
  destruct (Z.ltb_spec (e_rec - m) 12) as [Hs|Hs].
  - rewrite Z.ltb_irrefl. pose proof (Hrl e_rec) as Hr. unfold zlength in Hr at 1.
    destruct (used_ok target e_rec ftype name (Z.to_nat (e_rec - (8 + zlength name))) Ht Hn
      ltac:(lia) ltac:(lia)) as (H1 & H2 & H3).
    eexists [_]. cbn [concat omap list_omap]. rewrite app_nil_r, drop_repeat.
    replace (Z.to_nat e_rec - length (record target e_rec ftype name))%nat
      with (Z.to_nat (e_rec - (8 + zlength name))) by lia.
    split_and!; [done|by constructor|done|by rewrite H3].
  - destruct (Z.ltb_spec m e_rec) as [_|]; [|lia]. pose proof (Hrl m) as Hr. unfold zlength in Hr at 1.
    destruct (used_ok target m ftype name (Z.to_nat (m - (8 + zlength name))) Ht Hn
      ltac:(lia) ltac:(lia)) as (H1 & H2 & H3).
    destruct (free_ok (e_rec - m) ltac:(lia)) as (F1 & F2 & F3).
    eexists [_; _]. split_and!; [|apply Forall_cons_2, Forall_cons_2, Forall_nil_2; [exact H2|exact F2]| |].
    + cbn [concat]. rewrite app_nil_r, u16_id, drop_repeat by lia. unfold splice.
      set (rc := record target m ftype name) in *. set (hd := le_bytes 4 0 ++ le_bytes 2 (e_rec - m)).
      assert (Hhd : length hd = 6%nat) by done. rewrite Hhd.
      replace (Z.to_nat e_rec - length rc)%nat
        with (Z.to_nat (m - (8 + zlength name)) + (6 + Z.to_nat (e_rec - m - 6)))%nat by lia.
      rewrite !repeat_app, (app_assoc rc), take_app_length', drop_app_add'.
      2,3: rewrite length_app, repeat_length; lia.
      rewrite drop_app_length' by done. unfold hd. by rewrite <- !app_assoc.
    + cbn [concat]. rewrite app_nil_r, zlength_app, H1, F1. lia.
    + cbn [omap list_omap]. rewrite H3, F3. done.
Qed.

(** ** Scanning a list of records *)
Fixpoint scan_list {R A} (av : Z → list Z → A → R + A) (pos : Z) (rs : list (list Z)) (a : A)
    : R + A :=
  match rs with
  | [] => inr a
  | r :: rs => match av pos r a with
               | inl x => inl x
               | inr a => scan_list av (pos + zlength r) rs a
               end
  end.

Lemma scan_list_app {R A} (av : Z → list Z → A → R + A) rs1 rs2 : ∀ pos a,
  scan_list av pos (rs1 ++ rs2) a =
  match scan_list av pos rs1 a with
  | inl x => inl x
  | inr a => scan_list av (pos + zlength (concat rs1)) rs2 a
  end.
Proof.
  induction rs1 as [|r rs1 IH]; intros pos a; simpl.
  - f_equal. unfold zlength. simpl. lia.
  - destruct (av pos r a); [done|]. rewrite IH. destruct (scan_list _ _ _ _); [done|].
    f_equal. rewrite zlength_app. lia.
Qed.

(** The visit of a record depends on its place and its bytes only. *)
Definition visits {R A} (visit : list Z → Z → Z → Z → A → R + A) (av : Z → list Z → A → R + A) : Prop :=
  ∀ pre r rest off chunk a, rec_ok r → zlength pre + zlength r ≤ chunk →
    visit (pre ++ r ++ rest) off chunk (zlength pre) a = av (off + zlength pre) r a.

Lemma dirent_loop_list {R A} visit (av : Z → list Z → A → R + A) off rest chunk : ∀ rs fuel pre a,
  visits visit av → Forall rec_ok rs → chunk = zlength pre + zlength (concat rs) →
  (length rs < fuel)%nat →
  dirent_loop fuel (visit (pre ++ concat rs ++ rest) off chunk) (pre ++ concat rs ++ rest) chunk
    (zlength pre) a
  = scan_list av (off + zlength pre) rs a.
Proof.
  induction rs as [|r rs IH]; intros fuel pre a Hv Hrs Hc Hf.
  - simpl in Hc. destruct fuel; [simpl in Hf; lia|]. simpl.
    destruct (Z.ltb_spec chunk (zlength pre + 8)); [done|]. unfold zlength in *. simpl in *. lia.
  - apply Forall_cons in Hrs as [Hr Hrs]. destruct fuel as [|fuel]; [simpl in Hf; lia|].
    simpl concat in *. rewrite zlength_app in Hc. pose proof (rk_min _ Hr) as Hmin.
    assert (Hz : 0 ≤ zlength (concat rs)) by (unfold zlength; lia).
    cbn [dirent_loop scan_list]. destruct (Z.ltb_spec chunk (zlength pre + 8)); [lia|].
    rewrite <- !app_assoc. rewrite (Hv pre r (concat rs ++ rest) off chunk a Hr) by lia.
    destruct (av _ r a) as [x|a']; [done|].
    destruct (rec_mid pre r (concat rs ++ rest) Hmin) as (_ & -> & _). rewrite (rk_len _ Hr).
    specialize (IH fuel (pre ++ r) a' Hv Hrs).
    rewrite <- !app_assoc, zlength_app in IH. rewrite IH; [|lia|simpl in Hf; lia].
    f_equal. lia.
Qed.

(** ** Blocks of records *)
Definition block_bytes (bk : list (list Z)) : Z := zlength (concat bk).

(** Every block is full, except that the last may be shorter. *)
Fixpoint blocks_ok (bks : list (list (list Z))) : Prop :=
  match bks with
  | [] => True
  | [bk] => 0 < block_bytes bk ≤ 4096
  | bk :: bks => block_bytes bk = 4096 ∧ blocks_ok bks
  end.

Lemma block_bytes_nonneg bk : 0 ≤ block_bytes bk.
Proof. unfold block_bytes, zlength. lia. Qed.

Lemma concat_recs bks : concat (map (@concat Z) bks) = concat (concat bks).
Proof. induction bks as [|bk bks IH]; [done|]. simpl. by rewrite IH, concat_app. Qed.

(** Where the blocks of a directory lie. *)
Lemma blocks_place bks : ∀ k bk,
  blocks_ok bks → bks !! k = Some bk →
  zlength (concat (concat (take k bks))) = Z.of_nat k * 4096 ∧ 0 < block_bytes bk ≤ 4096 ∧
  block_bytes bk = Z.min 4096 (zlength (concat (concat bks)) - Z.of_nat k * 4096).
Proof.
  induction bks as [|b0 bks IH]; intros k bk Hok Hk; [done|].
  assert (Hb0 : 0 < block_bytes b0 ≤ 4096 ∧ (bks ≠ [] → block_bytes b0 = 4096) ∧ blocks_ok bks).
  { simpl in Hok. destruct bks; [done|]. destruct Hok. split_and!; try done; lia. }
  destruct Hb0 as (Hb0 & Hfull & Hok').
  assert (Htot : zlength (concat (concat (b0 :: bks))) = block_bytes b0 + zlength (concat (concat bks)))
    by (simpl; by rewrite concat_app, zlength_app).
  assert (Hpos : 0 ≤ zlength (concat (concat bks))) by (unfold zlength; lia).
  destruct k as [|k]; simpl in Hk.
  - injection Hk as <-. rewrite Htot. split_and!; try done; try lia.
    destruct bks as [|b1 bks]; [|rewrite Hfull by done; lia].
    change (zlength (concat (concat []))) with 0. lia.
  - destruct (IH k bk Hok' Hk) as (H1 & H2 & H3). rewrite Htot, Hfull by (by destruct bks).
    simpl. rewrite concat_app, zlength_app, H1. fold (block_bytes b0). rewrite Hfull by (by destruct bks).
    split_and!; lia.
Qed.

Lemma blocks_count bks :
  blocks_ok bks → (zlength (concat (concat bks)) + 4096 - 1) / 4096 = zlength bks.
Proof.
  intros Hok. destruct bks as [|bk bks _] using rev_ind; [done|].
  pose proof (blocks_place (bks ++ [bk]) (length bks) bk Hok) as Hp.
  rewrite list_lookup_middle in Hp by done. destruct (Hp eq_refl) as (H1 & H2 & _).
  rewrite take_app_length in H1. rewrite concat_app, concat_app, zlength_app, H1. simpl concat.
  rewrite app_nil_r. fold (block_bytes bk). unfold zlength. rewrite length_app. simpl length. zdiv.
Qed.

(** Whether the blocks are full depends on their sizes only. *)
Lemma blocks_ok_sizes bks : ∀ bks',
  map block_bytes bks' = map block_bytes bks → blocks_ok bks → blocks_ok bks'.
Proof.
  induction bks as [|bk bks IH]; intros [|bk' bks'] He Hok; try done.
  injection He as Hb He. specialize (IH bks' He).
  destruct bks as [|b1 bks], bks' as [|b1' bks']; try done; simpl in Hok |- *; rewrite Hb; [done|].
  split; [apply Hok|]. apply IH, Hok.
Qed.

(** A record exchanged for records of the same total length. *)
Lemma exchange_recs rs' r : zlength (concat rs') = zlength r → ∀ bks rs1 rs2,
  concat bks = rs1 ++ r :: rs2 →
  ∃ bks', concat bks' = rs1 ++ rs' ++ rs2 ∧ map block_bytes bks' = map block_bytes bks.
Proof.
  intros Hl. induction bks as [|bk bks IH]; intros rs1 rs2 He; simpl in He.
  { by destruct rs1. }
  apply app_eq_app in He as [mid [[-> He]|[-> He]]].
  - destruct mid as [|x mid]; simpl in He.
    + destruct (IH [] rs2 (eq_sym He)) as (bks' & Hc & Hm).
      exists (rs1 :: bks'). simpl. rewrite app_nil_r, Hc, Hm. done.
    + injection He as -> ->. exists ((rs1 ++ rs' ++ mid) :: bks). simpl.
      rewrite <- !app_assoc. split; [done|]. f_equal. unfold block_bytes.
      rewrite !concat_app, !zlength_app. simpl. rewrite zlength_app. lia.
  - destruct (IH mid rs2 He) as (bks' & Hc & Hm). exists (bk :: bks'). simpl.
    by rewrite Hc, Hm, <- app_assoc.
Qed.

(** A record added at the end, when the last block has room for it or is full. *)
Lemma append_rec r : 0 < zlength r → ∀ bks,
  blocks_ok bks → zlength (concat (concat bks)) mod 4096 + zlength r ≤ 4096 →
  ∃ bks', concat bks' = concat bks ++ [r] ∧ blocks_ok bks'.
Proof.
  intros Hr. induction bks as [|bk bks IH]; intros Hok Hfit.
  { exists [[r]]. simpl in *. unfold block_bytes. simpl. rewrite app_nil_r. split; [done|]. zdiv. }
  destruct bks as [|b1 bks].
  - simpl in Hok, Hfit. rewrite app_nil_r in Hfit. fold (block_bytes bk) in Hfit.
    destruct (decide (block_bytes bk = 4096)) as [e|].
    + exists [bk; [r]]. assert (Hb1 : block_bytes [r] = zlength r) by (unfold block_bytes; simpl; by rewrite app_nil_r).
      simpl. rewrite Hb1, app_nil_r. rewrite e in Hfit. change (4096 mod 4096) with 0 in Hfit. split_and!; try done; lia.
    + exists [bk ++ [r]]. simpl. rewrite !app_nil_r. unfold block_bytes in *.
      rewrite concat_app, zlength_app. simpl. rewrite app_nil_r. split; [done|].
      rewrite Z.mod_small in Hfit by lia. lia.
  - destruct Hok as [Hb Hok]. destruct (IH Hok) as (bks' & Hc & Hok').
    { revert Hfit. cbn [concat]. rewrite (concat_app bk), zlength_app. fold (block_bytes bk). rewrite Hb.
      by rewrite (Z.add_comm 4096), (Z.mod_add _ 1 4096 ltac:(done)). }
    exists (bk :: bks'). split; [simpl; by rewrite Hc, <- app_assoc|].
    destruct bks' as [|b2 bks']; [by destruct (concat (b1 :: bks))|]. by split.
Qed.

Lemma rec_bound bks r : blocks_ok bks → r ∈ concat bks → zlength r ≤ 4096.
Proof.
  intros Hok Hr. apply list_elem_of_In, in_concat in Hr as (bk & Hbk & Hr).
  apply list_elem_of_In, list_elem_of_lookup in Hbk as [k Hk].
  destruct (blocks_place bks k bk Hok Hk) as (_ & Hb & _).
  apply list_elem_of_In, list_elem_of_split in Hr as (l1 & l2 & ->).
  unfold block_bytes in Hb. rewrite concat_app, zlength_app in Hb. simpl in Hb. rewrite zlength_app in Hb.
  unfold zlength in *. lia.
Qed.

(** A block holds fewer records than the fuel of the loop over them. *)
Lemma block_short bk : Forall rec_ok bk → block_bytes bk ≤ 4096 → (length bk < dirent_fuel)%nat.
Proof.
  intros Hf Hb. assert (H : 12 * zlength bk ≤ block_bytes bk).
  { clear Hb. unfold block_bytes. induction Hf as [|r bk Hr Hf IH]; [done|]. simpl.
    rewrite zlength_app. pose proof (rk_min _ Hr). unfold zlength in *. simpl length. lia. }
  unfold zlength, dirent_fuel in *. lia.
Qed.

(** ** A directory and its records *)
Section dir.
Context {S : Type} `{Hio : BlockIOok S}.
Implicit Types (s : fs S) (dir : inode_mem).

(** A file all of whose bytes are on mapped blocks. *)
Definition dense dir s l : Prop :=
  fs_ok s ∧ inode_wf dir s l ∧ tidy s l ∧
  0 ≤ size_bytes dir ≤ KZFS_BLOCK_SIZE * extent_total l ∧ size_bytes dir < 2 ^ 32.

Definition file_bytes dir s l : list Z :=
  map (file_byte l (io_view (dev s))) (seqZ 0 (size_bytes dir)).

(** The directory holds the blocks [bks] of records. *)
Definition dir_rep dir s (bks : list (list (list Z))) : Prop :=
  Forall rec_ok (concat bks) ∧ blocks_ok bks ∧
  ∃ l, dense dir s l ∧ file_bytes dir s l = concat (concat bks).

Definition entries (bks : list (list (list Z))) : list (list Z * (Z * Z)) :=
  omap entry_of (concat bks).

Lemma file_bytes_length dir s l : 0 ≤ size_bytes dir → zlength (file_bytes dir s l) = size_bytes dir.
Proof. intros. unfold file_bytes, zlength. rewrite length_map, length_seqZ. lia. Qed.

Lemma dir_rep_size dir s bks : dir_rep dir s bks → size_bytes dir = zlength (concat (concat bks)).
Proof.
  intros (_ & _ & l & (_ & _ & _ & Hsz & _) & Hb). rewrite <- Hb. symmetry. apply file_bytes_length. lia.
Qed.

Lemma reads_dense dir s s' l : reads s s' → dense dir s l → dense dir s' l.
Proof.
  intros Hr (Hok & Hw & Ht & Hsz). split_and!; try apply Hsz.
  - by apply (reads_fs_ok s).
  - by apply (reads_wf dir s).
  - by destruct Hr as (d & -> & _).
Qed.

Lemma reads_bytes dir s s' l : reads s s' → file_bytes dir s' l = file_bytes dir s l.
Proof.
  intros (d & -> & _ & Hv). unfold file_bytes. apply map_ext. intros o. unfold file_byte. simpl.
  destruct (blocks l !! _); [|done]. by rewrite Hv.
Qed.

Lemma reads_rep dir s s' bks : reads s s' → dir_rep dir s bks → dir_rep dir s' bks.
Proof.
  intros Hr (Hf & Hb & l & Hd & Hc). split_and!; try done. exists l.
  split; [by apply (reads_dense dir s)|]. by rewrite (reads_bytes dir s s').
Qed.

(** Reading a chunk of a dense file. *)
Lemma read_chunk dir s l off n :
  dense dir s l → reads_succeed → 0 ≤ off → 0 ≤ n → off + n ≤ size_bytes dir →
  ∃ s', blk_read_file dir off n s = (KZFS_EOK, slice off n (file_bytes dir s l), s') ∧ reads s s'.
Proof.
  intros (Hok & Hw & _ & Hsz & H32) Hrd Ho Hn Hle.
  pose proof (blk_read_file_ok dir s l off n Hok Hw ltac:(by right) Ho ltac:(lia)) as Hr.
  destruct (blk_read_file dir off n s) as [[rc bs] s']. destruct Hr as [Hr [[-> ->]|[_ ?]]]; [|done].
  exists s'. split; [|done]. do 2 f_equal. unfold read_count. rewrite Z.min_l, Z.max_r by lia.
  rewrite slice_map; [|lia|lia|rewrite file_bytes_length; lia].
  apply map_seqZ_ext. intros k Hk. unfold lget, file_bytes. rewrite list_lookup_fmap, lookup_seqZ_lt by lia. simpl.
  f_equal. lia.
Qed.
(** One block of the scan. *)
Lemma scan_block {R A} strict (bad : R) dir s bks visit (av : Z → list Z → A → R + A) k bk a tmp s1 :
  dir_rep dir s bks → reads_succeed → visits visit av → reads s s1 → bks !! Z.to_nat k = Some bk → 0 ≤ k →
  ∃ s2 tmp', scan_step strict bad dir visit k (a, tmp, s1) =
    match scan_list av (k * 4096) bk a with inl r => inl (r, s2) | inr a' => inr (a', tmp', s2) end ∧
    reads s s2.
Proof.
  intros Hrep Hrd Hv Hr Hk Hk0. pose proof (dir_rep_size dir s bks Hrep) as Hsz.
  destruct (reads_rep dir s s1 bks Hr Hrep) as (Hf & Hok & l & Hd & Hb).
  destruct (blocks_place bks (Z.to_nat k) bk Hok Hk) as (H1 & H2 & H3). rewrite Z2Nat.id in H1, H3 by done.
  assert (Hrs : Forall rec_ok bk).
  { rewrite <- (take_drop_middle bks _ bk Hk), concat_app in Hf. simpl in Hf.
    apply Forall_app in Hf as [_ Hf]. by apply Forall_app in Hf as [Hf _]. }
  assert (Hc : chunk_at dir (k * KZFS_BLOCK_SIZE) = block_bytes bk).
  { unfold chunk_at, KZFS_BLOCK_SIZE. destruct Hd as (_ & _ & _ & Hs1 & Hs2). rewrite Hsz in *. zcase.
    rewrite u32_id; lia. }
  destruct (read_chunk dir s1 l (k * 4096) (block_bytes bk) Hd Hrd ltac:(lia) ltac:(lia) ltac:(lia))
    as (s2 & Hread & Hr2).
  assert (Hsl : slice (k * 4096) (block_bytes bk) (file_bytes dir s1 l) = concat bk).
  { rewrite Hb, <- (take_drop_middle bks _ bk Hk) at 1. rewrite concat_app, concat_app. simpl.
    rewrite concat_app, <- H1, <- (Z.add_0_r (zlength _)), slice_mid; [|done|lia|done].
    by apply slice_all. }
  unfold scan_step. rewrite Hc. change (k * KZFS_BLOCK_SIZE) with (k * 4096). rewrite Hread, Hsl.
  fold (block_bytes bk). rewrite !Z.eqb_refl. cbn [negb orb]. rewrite andb_false_r.
  pose proof (dirent_loop_list visit av (k * 4096) (drop (length (concat bk)) tmp) (block_bytes bk) bk
    dirent_fuel [] a Hv Hrs ltac:(done) (block_short bk Hrs ltac:(lia))) as Hl.
  rewrite !app_nil_l in Hl. change (zlength []) with 0 in Hl. rewrite Z.add_0_r in Hl. rewrite Hl.
  exists s2, (concat bk ++ drop (length (concat bk)) tmp). split; [|by etrans].
  by destruct (scan_list _ _ _ _).
Qed.

(** The scan of a directory visits its records in order, each at its place. *)
Lemma scan_dir_list {R A} strict (bad : R) dir s bks visit (av : Z → list Z → A → R + A) a :
  dir_rep dir s bks → reads_succeed → visits visit av →
  ∃ s', scan_dir strict bad dir visit a s = (scan_list av 0 (concat bks) a, s') ∧ reads s s'.
Proof.
  intros Hrep Hrd Hv. pose proof (dir_rep_size dir s bks Hrep) as Hsz. destruct Hrep as (Hf & Hok & Hl).
  assert (Hn : dir_blocks dir = zlength bks).
  { unfold dir_blocks, KZFS_BLOCK_SIZE. rewrite Hsz. by apply blocks_count. }
  unfold scan_dir. rewrite Hn.
  opose proof* (for_range_rule
    (λ k (st : A * list Z * fs S), reads s st.2 ∧
       scan_list av 0 (concat (take (Z.to_nat k) bks)) a = inr st.1.1)
    (λ r : R * fs S, reads s r.2 ∧ scan_list av 0 (concat bks) a = inl r.1)
    0 (zlength bks) (scan_step strict bad dir visit) (a, repeat 0 BLK, s)) as Hr.
  - split; [reflexivity|done].
  - intros k [[a1 tmp] s1] Hk [Hr1 Hs1]. simpl in Hr1, Hs1.
    destruct (lookup_lt_is_Some_2 bks (Z.to_nat k)) as [bk Hbk]; [unfold zlength in Hk; lia|].
    destruct (scan_block strict bad dir s bks visit av k bk a1 tmp s1 ltac:(done) Hrd Hv Hr1 Hbk ltac:(lia))
      as (s2 & tmp' & -> & Hr2).
    destruct (blocks_place bks (Z.to_nat k) bk Hok Hbk) as (H1 & _). rewrite Z2Nat.id in H1 by lia.
    assert (Hstep : scan_list av 0 (concat (take (Datatypes.S (Z.to_nat k)) bks)) a =
      scan_list av (k * 4096) bk a1).
    { rewrite (take_S_r _ _ _ Hbk), concat_app. simpl. rewrite app_nil_r, scan_list_app, Hs1.
      by rewrite H1, Z.add_0_l. }
    destruct (scan_list av (k * 4096) bk a1) as [r|a2] eqn:He; simpl.
    + split; [done|]. rewrite <- (take_drop (Datatypes.S (Z.to_nat k)) bks), concat_app, scan_list_app.
      by rewrite Hstep.
    + split; [done|]. rewrite Z2Nat.inj_add, Nat.add_1_r by lia. done.
  - destruct (for_range _ _ _ _) as [[r s']|[[a' tmp] s']]; destruct Hr as [Hr1 Hr2]; simpl in *.
    + exists s'. by rewrite Hr2.
    + exists s'. rewrite Z.max_r in Hr2 by (unfold zlength; lia). unfold zlength in Hr2.
      rewrite Nat2Z.id, firstn_all in Hr2. by rewrite Hr2.
Qed.
(** ** Finding a record *)
Fixpoint assoc (name : list Z) (es : list (list Z * (Z * Z))) : option (Z * Z) :=
  match es with
  | [] => None
  | (n, v) :: es => if bool_decide (n = name) then Some v else assoc name es
  end.

Definition named (name r : list Z) : bool :=
  match entry_of r with Some (n, _) => bool_decide (n = name) | None => false end.

Definition find_av (name : list Z) (pos : Z) (r : list Z) (_ : unit) : (Z + Z * Z * Z * Z) + unit :=
  if named name r then inl (inr (pos, zlength r, r_ino r 0, r_ftype r 0)) else inr tt.

Lemma match_named name pre r rest :
  rec_ok r → entry_match name (pre ++ r ++ rest) (zlength pre) = named name r.
Proof.
  intros Hr. destruct (rec_mid pre r rest (rk_min _ Hr)) as (H1 & _ & H3 & _).
  unfold entry_match, named, entry_of. rewrite H1, H3.
  destruct (Z.eqb_spec (r_ino r 0) 0) as [|Hne]; [done|]. cbn [negb andb].
  destruct (rk_name _ Hr Hne) as [Hn0 Hn].
  destruct (Z.eqb_spec (r_nlen r 0) (zlength name)) as [He|He]; cbn [andb].
  - rewrite slice_mid by (unfold zlength in *; lia). by rewrite He.
  - symmetry. apply bool_decide_eq_false. intros <-. apply He. symmetry. apply slice_length; lia.
Qed.

Lemma find_visits name : visits (find_visit name) (find_av name).
Proof.
  intros pre r rest off chunk [] Hr Hc. unfold find_visit, find_av. rewrite match_named by done.
  destruct (rec_mid pre r rest (rk_min _ Hr)) as (H1 & H2 & _ & H4). rewrite H1, H2, H4, (rk_len _ Hr).
  pose proof (rk_min _ Hr). unfold KZFS_DIRENT_MIN_REC.
  destruct (Z.ltb_spec (zlength r) 12); [lia|]. by destruct (named name r).
Qed.

(** The first record with the name, if any. *)
Lemma scan_find name rs : ∀ pos,
  (∃ rs1 r rs2 v, rs = rs1 ++ r :: rs2 ∧ entry_of r = Some (name, v) ∧
     (∀ x, x ∈ rs1 → named name x = false) ∧ v = (r_ino r 0, r_ftype r 0) ∧
     scan_list (find_av name) pos rs tt
       = inl (inr (pos + zlength (concat rs1), zlength r, r_ino r 0, r_ftype r 0))) ∨
  ((∀ x, x ∈ rs → named name x = false) ∧ scan_list (find_av name) pos rs tt = inr tt).
Proof.
  induction rs as [|r rs IH]; intros pos.
  - right. split; [|done]. intros x Hx. by apply not_elem_of_nil in Hx.
  - cbn [scan_list]. unfold find_av at 1 3. destruct (named name r) eqn:Hm.
    + left. unfold named in Hm. destruct (entry_of r) as [[n v]|] eqn:He; [|done].
      apply bool_decide_eq_true in Hm as ->. exists [], r, rs, v. split_and!; try done.
      * intros x Hx. by apply not_elem_of_nil in Hx.
      * unfold entry_of in He. by destruct (r_ino r 0 =? 0); simplify_eq.
      * do 5 f_equal. change (zlength (concat [])) with 0. lia.
    + destruct (IH (pos + zlength r)) as [(rs1 & x & rs2 & v & -> & He & Hno & Hv & Hs)|[Hno Hs]].
      * left. exists (r :: rs1), x, rs2, v. split_and!; try done.
        -- intros y [->|Hy]%elem_of_cons; [done|by apply Hno].
        -- rewrite Hs. do 5 f_equal. simpl. rewrite zlength_app. lia.
      * right. split; [|done]. intros y [->|Hy]%elem_of_cons; [done|by apply Hno].
Qed.

Lemma assoc_skip name rs1 es :
  (∀ x, x ∈ rs1 → named name x = false) → assoc name (omap entry_of rs1 ++ es) = assoc name es.
Proof.
  intros Hno. induction rs1 as [|r rs1 IH]; [done|]. simpl.
  assert (Hr : named name r = false) by (apply Hno; set_solver). unfold named in Hr.
  destruct (entry_of r) as [[n v]|]; simpl; [rewrite Hr|]; apply IH; set_solver.
Qed.

Lemma try_ok s : kheap s = [] → try_kmalloc s = (true, s).
Proof. intros Hk. unfold try_kmalloc. by rewrite Hk. Qed.

Lemma lookup_ok dir s bks name :
  dir_rep dir s bks → reads_succeed → zlength name ≤ KZFS_NAME_MAX → kheap s = [] →
  ∃ s', dir_lookup_entry dir name s =
          (match assoc name (entries bks) with Some v => inr v | None => inl KZFS_ENOENT end, s') ∧
        reads s s'.
Proof.
  intros Hrep Hrd Hn Hk. unfold dir_lookup_entry. destruct (Z.ltb_spec KZFS_NAME_MAX (zlength name)); [lia|].
  rewrite try_ok by done. cbn [negb].
  destruct (scan_dir_list false (inl KZFS_EIO) dir s bks (find_visit name) (find_av name) tt Hrep Hrd
    (find_visits name)) as (s' & -> & Hr). exists s'. split; [|done]. unfold entries.
  destruct (scan_find name (concat bks) 0) as [(rs1 & r & rs2 & v & -> & He & Hno & -> & ->)|[Hno ->]].
  - rewrite omap_app. simpl. rewrite He, assoc_skip by done. simpl. by rewrite bool_decide_eq_true_2.
  - rewrite <- (app_nil_r (omap _ _)), assoc_skip by done. done.
Qed.
(** ** Writing to a dense file *)
Lemma lookup_splice_ext (c : list Z) off buf k :
  0 ≤ off ≤ zlength c →
  splice c off buf !! k =
    if bool_decide (Z.to_nat off ≤ k < Z.to_nat off + length buf)%nat
    then buf !! (k - Z.to_nat off)%nat else c !! k.
Proof.
  unfold splice, zlength. intros Ho. case_bool_decide as Hk.
  - rewrite lookup_app_r, length_take, Nat.min_l by (rewrite ?length_take; lia).
    by rewrite lookup_app_l by lia.
  - destruct (decide (k < Z.to_nat off)%nat).
    + rewrite lookup_app_l by (rewrite length_take; lia). by apply lookup_take_lt.
    + rewrite lookup_app_r, length_take, Nat.min_l by (rewrite ?length_take; lia).
      rewrite lookup_app_r, lookup_drop by lia. f_equal. lia.
Qed.

Lemma write_at dir s l off buf n dir' s' :
  dense dir s l → 0 ≤ off ≤ size_bytes dir → 0 < zlength buf → off + zlength buf < 2 ^ 32 →
  blk_write_file dir off buf s = (KZFS_EOK, n, dir', s') →
  ∃ l', dense dir' s' l' ∧ file_bytes dir' s' l' = splice (file_bytes dir s l) off buf.
Proof.
  intros (Hok & Hw & Ht & Hsz & H32) Ho Hb Hlt E.
  pose proof (write_loop_safe (io_fuel (zlength buf)) dir s l off buf 0 Hok Hw ltac:(lia)) as Hsafe.
  fold (blk_write_file dir off buf s) in Hsafe. rewrite E in Hsafe. destruct Hsafe as [(Hok' & _) _].
  destruct (write_loop_content (io_fuel (zlength buf)) dir s l off buf 0 KZFS_EOK n dir' s')
    as (_ & l' & Hw' & Ht' & Hwr & Htot & Hcov & Hsz'); try done; [lia|lia|right; apply io_fuel_enough; lia|].
  rewrite (proj2 (Z.eqb_neq (zlength buf) 0)) in Hsz' by lia. unfold KZFS_BLOCK_SIZE in *. exists l'. split.
  { split_and!; try done; unfold KZFS_BLOCK_SIZE; lia. }
  apply list_eq. intros k. rewrite lookup_splice_ext by (rewrite file_bytes_length; lia).
  unfold file_bytes. rewrite !list_lookup_fmap. destruct (Hwr (Z.of_nat k) ltac:(lia)) as [Hin Hout].
  unfold zlength in *. case_bool_decide as Hk.
  - rewrite lookup_seqZ_lt by lia. cbn [fmap option_fmap option_map]. rewrite Z.add_0_l, Hin by lia. unfold lget.
    replace (Z.to_nat (Z.of_nat k - off)) with (k - Z.to_nat off)%nat by lia.
    destruct (lookup_lt_is_Some_2 buf (k - Z.to_nat off)) as [x ->]; [lia|done].
  - destruct (decide (Z.of_nat k < size_bytes dir)).
    + rewrite !lookup_seqZ_lt by lia. cbn [fmap option_fmap option_map].
      rewrite Z.add_0_l, Hout by (unfold KZFS_BLOCK_SIZE; lia). done.
    + rewrite !lookup_seqZ_ge by lia. done.
Qed.

Lemma write_mapped fuel : ∀ dir s l off buf nw,
  io_sure → fs_ok s → inode_wf dir s l → tidy s l → 0 ≤ off →
  off + zlength buf ≤ KZFS_BLOCK_SIZE * extent_total l → off + zlength buf < 2 ^ 64 →
  zlength buf = 0 ∨ off mod KZFS_BLOCK_SIZE + zlength buf ≤ KZFS_BLOCK_SIZE * Z.of_nat fuel →
  (write_loop fuel dir off buf nw s).1.1.1 = KZFS_EOK.
Proof.
  induction fuel as [|fuel IH]; intros dir s l off buf nw Hs Hok Hw Ht Ho Hcov H64 Hf; simpl;
    (destruct (Z.eqb_spec (zlength buf) 0) as [Hz|Hz]; [done|]); [done|].
  destruct Hf as [?|Hf]; [lia|]. assert (Hzl : 0 ≤ zlength buf) by (unfold zlength; lia).
  set (chunk := if zlength buf <? _ then _ else _).
  destruct (chunk_fuel off (zlength buf) fuel chunk ltac:(lia) ltac:(lia) Hf eq_refl)
    as (Hch & Hfit & _ & Hf'). clearbody chunk. set (part := slice 0 chunk buf).
  assert (Hpl : zlength part = chunk) by (apply slice_length; lia).
  assert (Hlb : 0 ≤ off / KZFS_BLOCK_SIZE < extent_total l) by (unfold KZFS_BLOCK_SIZE in *; zdiv).
  pose proof (get_phys_ok dir (off / KZFS_BLOCK_SIZE) s l (wf_ind_valid dir s l (proj2 Hok) Hw)
    (proj1 Hok) (iw_live _ _ _ Hw) (wf_in_u64 dir s l (proj2 Hok) Hw) ltac:(lia)) as Hg.
  assert (Hpg : ∃ p s1, phys_or_grow dir (off / KZFS_BLOCK_SIZE) s = inr (p, dir, s1) ∧ fs_ok s1 ∧
    0 ≤ p < io_limit).
  { unfold phys_or_grow. destruct (kzfs_get_phys_block _ _ s) as [[p|] s1]; destruct Hg as [Hr Hg].
    - exists p, s1. destruct (wf_block_limit dir s l p _ (proj2 Hok) Hw Hg).
      split_and!; [done|by apply (reads_fs_ok s)|lia|lia].
    - exfalso. destruct Hg as [Hg|[_ Hg]]; [|by destruct Hs as [[? _] _]].
      apply lookup_ge_None_1 in Hg. pose proof (blocks_length l ltac:(apply (iw_live _ _ _ Hw))).
      unfold zlength in *. lia. }
  destruct Hpg as (p & s1 & Hpg & Hok1 & Hp). rewrite Hpg.
  assert (Hput : (put_chunk p (off mod KZFS_BLOCK_SIZE) chunk part s1).1 = true).
  { destruct Hs as [[_ Hm] Hov]. unfold put_chunk. destruct (_ && _); [by apply Hov; [apply Hok1|]|].
    by apply Hm; [apply Hok1|]. }
  destruct (put_chunk _ _ _ _ s1) as [ok d] eqn:Epc. simpl in Hput. subst ok. cbn [negb].
  rewrite <- Hpl in Epc.
  pose proof (write_chunk_ok dir s l off part p dir s1 d Hok Hw Ht ltac:(lia) ltac:(lia) ltac:(lia) Hpg Epc)
    as [Hok2 (l1 & Hw1 & Ht1 & _ & Htot & _)]. rewrite Hpl in *. rewrite u64_id by lia.
  assert (Hrest : zlength (drop (Z.to_nat chunk) buf) = zlength buf - chunk).
  { unfold zlength in *. rewrite length_drop. lia. }
  unfold KZFS_BLOCK_SIZE in *. apply (IH _ _ l1); try done; rewrite ?Hrest; lia.
Qed.

Lemma write_inside dir s l off buf :
  io_sure → dense dir s l → 0 ≤ off → 0 < zlength buf → off + zlength buf ≤ size_bytes dir →
  ∃ n dir' s', blk_write_file dir off buf s = (KZFS_EOK, n, dir', s').
Proof.
  intros Hs (Hok & Hw & Ht & Hsz & H32) Ho Hb Hle.
  pose proof (write_mapped (io_fuel (zlength buf)) dir s l off buf 0 Hs Hok Hw Ht Ho ltac:(lia) ltac:(lia)
    ltac:(right; apply io_fuel_enough; lia)) as Hm.
  fold (blk_write_file dir off buf s) in Hm.
  destruct (blk_write_file dir off buf s) as [[[rc n] dir'] s']. simpl in Hm. subst rc. eauto.
Qed.

Lemma splice_mid (a r r' b : list Z) :
  zlength r' = zlength r → splice (a ++ r ++ b) (zlength a) r' = a ++ r' ++ b.
Proof.
  unfold splice, zlength. intros Hl. rewrite Nat2Z.id, take_app_length. do 2 f_equal.
  rewrite app_assoc. apply drop_app_length'. rewrite length_app. lia.
Qed.

(** A write over a record. *)
Lemma write_over dir s bks rs1 r rs2 rs' :
  io_sure → dir_rep dir s bks → concat bks = rs1 ++ r :: rs2 →
  Forall rec_ok rs' → zlength (concat rs') = zlength r →
  ∃ n dir' s' bks', blk_write_file dir (zlength (concat rs1)) (concat rs') s = (KZFS_EOK, n, dir', s') ∧
    dir_rep dir' s' bks' ∧ concat bks' = rs1 ++ rs' ++ rs2.
Proof.
  intros Hs Hrep Hc Hrs Hl. pose proof (dir_rep_size dir s bks Hrep) as Hsz.
  destruct Hrep as (Hf & Hok & l & Hd & Hb).
  assert (Hr : rec_ok r) by (rewrite Hc in Hf; apply Forall_app in Hf as [_ Hf]; by apply Forall_cons in Hf as [? _]).
  rewrite Hc, concat_app in Hsz, Hb. simpl in Hsz, Hb. rewrite !zlength_app in Hsz.
  pose proof (rk_min _ Hr) as Hmin.
  assert (H0 : 0 ≤ zlength (concat rs1) ∧ 0 ≤ zlength (concat rs2)) by (unfold zlength; lia).
  destruct (write_inside dir s l (zlength (concat rs1)) (concat rs') Hs Hd ltac:(lia) ltac:(lia) ltac:(lia))
    as (n & dir' & s' & E).
  pose proof Hd as (_ & _ & _ & _ & H32).
  destruct (write_at dir s l (zlength (concat rs1)) (concat rs') n dir' s' Hd ltac:(lia) ltac:(lia) ltac:(lia) E) as (l' & Hd' & Hb').
  destruct (exchange_recs rs' r Hl bks rs1 rs2 Hc) as (bks' & Hc' & Hm).
  exists n, dir', s', bks'. split; [done|]. split; [|done]. split; [|split].
  - rewrite Hc', !Forall_app. rewrite Hc, Forall_app, Forall_cons in Hf. tauto.
  - by apply (blocks_ok_sizes bks).
  - exists l'. split; [done|]. rewrite Hb', Hb, Hc', !concat_app. by apply splice_mid.
Qed.

(** ** Removing an entry *)
Fixpoint remove1 (name : list Z) (es : list (list Z * (Z * Z))) : list (list Z * (Z * Z)) :=
  match es with
  | [] => []
  | (n, v) :: es => if bool_decide (n = name) then es else (n, v) :: remove1 name es
  end.

Lemma remove1_skip name rs1 es :
  (∀ x, x ∈ rs1 → named name x = false) →
  remove1 name (omap entry_of rs1 ++ es) = omap entry_of rs1 ++ remove1 name es.
Proof.
  intros Hno. induction rs1 as [|r rs1 IH]; [done|]. simpl.
  assert (Hr : named name r = false) by (apply Hno; set_solver). unfold named in Hr.
  destruct (entry_of r) as [[n v]|]; simpl; [rewrite Hr; f_equal|]; apply IH; set_solver.
Qed.

Lemma dir_remove_ok dir s bks name :
  io_sure → dir_rep dir s bks → zlength name ≤ KZFS_NAME_MAX → kheap s = [] →
  ∃ dir' s' bks', dir_remove_entry dir name s =
      (match assoc name (entries bks) with Some _ => KZFS_EOK | None => KZFS_ENOENT end, dir', s') ∧
    dir_rep dir' s' bks' ∧ entries bks' = remove1 name (entries bks).
Proof.
  intros Hs Hrep Hn Hk. unfold dir_remove_entry. destruct (Z.ltb_spec KZFS_NAME_MAX (zlength name)); [lia|].
  rewrite try_ok by done. cbn [negb].
  destruct (scan_dir_list false (inl KZFS_EIO) dir s bks (find_visit name) (find_av name) tt Hrep
    (proj1 (proj1 Hs)) (find_visits name)) as (s1 & -> & Hr). apply (reads_rep dir s s1 bks Hr) in Hrep.
  destruct (scan_find name (concat bks) 0) as [(rs1 & r & rs2 & v & Hc & He & Hno & -> & ->)|[Hno ->]].
  - assert (Hrok : rec_ok r ∧ zlength r ≤ 4096).
    { destruct Hrep as (Hf & Hok & _). split; [|apply (rec_bound bks); [done|]]; rewrite Hc in *; [|set_solver].
      apply Forall_app in Hf as [_ Hf]. by apply Forall_cons in Hf as [? _]. }
    destruct Hrok as [Hrok Hmax]. pose proof (rk_min _ Hrok).
    destruct (free_ok (zlength r) ltac:(lia)) as (F1 & F2 & F3). set (fr := le_bytes 4 0 ++ _) in *.
    destruct (write_over dir s1 bks rs1 r rs2 [fr] Hs Hrep Hc) as (n & dir' & s' & bks' & E & Hrep' & Hc').
    { by constructor. } { simpl. by rewrite app_nil_r. }
    cbn [concat] in E. rewrite app_nil_r in E. rewrite Z.add_0_l. fold fr. rewrite E. exists dir', s', bks'. unfold entries.
    rewrite Hc, Hc', !omap_app. clearbody fr. simpl. rewrite He, F3, assoc_skip, remove1_skip by done. simpl.
    by rewrite !bool_decide_eq_true_2.
  - exists dir, s1, bks. unfold entries. rewrite <- (app_nil_r (omap _ _)), assoc_skip, remove1_skip by done.
    done.
Qed.

(** ** Adding an entry *)
Definition add_av (len pos : Z) (r : list Z) (_ : unit) : (Z + Z * Z) + unit :=
  if (r_ino r 0 =? 0) && (len <=? zlength r) then inl (inr (pos, zlength r)) else inr tt.

Lemma add_visits len : visits (add_visit len) (add_av len).
Proof.
  intros pre r rest off chunk [] Hr Hc. unfold add_visit, add_av.
  destruct (rec_mid pre r rest (rk_min _ Hr)) as (H1 & H2 & _). rewrite H1, H2, (rk_len _ Hr).
  pose proof (rk_min _ Hr). unfold KZFS_DIRENT_MIN_REC.
  destruct (Z.ltb_spec (zlength r) 12); [lia|]. by destruct (Z.ltb_spec (chunk - zlength pre) (zlength r)); [lia|].
Qed.

(** The first free record that is large enough, if any. *)
Lemma scan_add len rs : ∀ pos,
  (∃ rs1 r rs2, rs = rs1 ++ r :: rs2 ∧ entry_of r = None ∧ len ≤ zlength r ∧
     scan_list (add_av len) pos rs tt = inl (inr (pos + zlength (concat rs1), zlength r))) ∨
  scan_list (add_av len) pos rs tt = inr tt.
Proof.
  induction rs as [|r rs IH]; intros pos; [by right|]. cbn [scan_list]. unfold add_av at 1 3.
  destruct (r_ino r 0 =? 0) eqn:Hi; cbn [andb]; [destruct (Z.leb_spec len (zlength r))|].
  { left. exists [], r, rs. split_and!; try done; [unfold entry_of; by rewrite Hi|].
    do 3 f_equal. change (zlength (concat [])) with 0. lia. }
  all: destruct (IH (pos + zlength r)) as [(rs1 & x & rs2 & -> & He & Hl & Hs)|Hs]; rewrite Hs; [left|by right];
    exists (r :: rs1), x, rs2; split_and!; try done; do 3 f_equal; simpl; rewrite zlength_app; lia.
Qed.

(** A record written at the end. *)
Lemma write_end dir s bks r n dir' s' :
  dir_rep dir s bks → rec_ok r → size_bytes dir mod 4096 + zlength r ≤ 4096 →
  size_bytes dir + zlength r < 2 ^ 32 →
  blk_write_file dir (size_bytes dir) r s = (KZFS_EOK, n, dir', s') →
  ∃ bks', dir_rep dir' s' bks' ∧ concat bks' = concat bks ++ [r].
Proof.
  intros Hrep Hr Hfit H32 E. pose proof (dir_rep_size dir s bks Hrep) as Hsz.
  destruct Hrep as (Hf & Hok & l & Hd & Hb). pose proof (rk_min _ Hr).
  destruct (append_rec r ltac:(lia) bks Hok ltac:(by rewrite <- Hsz)) as (bks' & Hc & Hok').
  assert (Hnn : 0 ≤ size_bytes dir) by (rewrite Hsz; unfold zlength; lia).
  destruct (write_at dir s l (size_bytes dir) r n dir' s' Hd ltac:(lia) ltac:(lia) ltac:(lia) E)
    as (l' & Hd' & Hb'). exists bks'. split; [|done]. split; [|split; [done|]].
  - rewrite Hc. apply Forall_app. split; [done|by constructor].
  - exists l'. split; [done|]. rewrite Hb', Hb, Hc, concat_app, Hsz. simpl. unfold splice, zlength.
    rewrite Nat2Z.id, firstn_all, drop_ge by lia. done.
Qed.

(** The directory with one more entry at some place. *)
Definition one_more (es es' : list (list Z * (Z * Z))) e : Prop :=
  ∃ l1 l2, es = l1 ++ l2 ∧ es' = l1 ++ e :: l2.

Lemma add_ok dir s bks name target ftype rc dir' s' :
  io_sure → dir_rep dir s bks → 0 < zlength name ≤ KZFS_NAME_MAX → kheap s = [] → 0 < target < 2 ^ 32 →
  size_bytes dir mod KZFS_BLOCK_SIZE + dirent_len name ≤ KZFS_BLOCK_SIZE →
  size_bytes dir + dirent_len name < 2 ^ 32 →
  dir_add_entry dir name target ftype s = (rc, dir', s') → rc = KZFS_EOK →
  ∃ bks', dir_rep dir' s' bks' ∧ one_more (entries bks) (entries bks') (name, (target, ftype)).
Proof.
  intros Hs Hrep Hn Hk Ht Hfit H32 E ->. unfold dir_add_entry in E.
  destruct (dirent_len_bounds name (proj2 Hn) (proj1 Hn)) as [Hd1 Hd2]. unfold KZFS_NAME_MAX in Hn.
  destruct (Z.eqb_spec (zlength name) 0); [lia|].
  destruct (Z.ltb_spec KZFS_NAME_MAX (zlength name)); [unfold KZFS_NAME_MAX in *; lia|].
  cbn [orb] in E. rewrite try_ok in E by done. cbn [negb] in E.
  destruct (scan_dir_list true (inl KZFS_EIO) dir s bks (add_visit (dirent_len name))
    (add_av (dirent_len name)) tt Hrep (proj1 (proj1 Hs)) (add_visits _)) as (s1 & Hsc & Hr).
  rewrite Hsc in E. apply (reads_rep dir s s1 bks Hr) in Hrep.
  destruct (scan_add (dirent_len name) (concat bks) 0) as [(rs1 & r & rs2 & Hc & He & Hl & Hx)|Hx];
    rewrite Hx in E.
  - rewrite try_ok in E by (by destruct Hr as (d & -> & _)). cbn [negb] in E.
    assert (Hmax : zlength r ≤ 4096).
    { apply (rec_bound bks); [apply Hrep|]. rewrite Hc. set_solver. }
    destruct (reuse_ok target ftype (zlength r) name Ht Hn ltac:(lia)) as (rs & Hrs & Hf & Hlen & Hent).
    destruct (write_over dir s1 bks rs1 r rs2 rs Hs Hrep Hc Hf Hlen) as (n1 & d1 & s2 & bks' & E' & Hrep' & Hc').
    rewrite Z.add_0_l, <- Hrs, E' in E. simplify_eq. exists bks'. split; [done|].
    exists (omap entry_of rs1), (omap entry_of rs2). unfold entries.
    rewrite Hc, Hc', !omap_app, Hent. simpl. by rewrite He.
  - rewrite splice_front, drop_repeat in E. set (pad := (_ - _)%nat) in E.
    destruct (used_ok target (dirent_len name) ftype name pad Ht (proj2 Hn) ltac:(lia)) as (H1 & H2 & H3).
    { subst pad. unfold record. rewrite !length_app, !le_bytes_length. simpl length. unfold zlength in *. lia. }
    destruct (blk_write_file _ _ _ s1) as [[[rc n1] d1] s2] eqn:Ew. simplify_eq.
    unfold KZFS_BLOCK_SIZE in *. destruct (write_end dir s1 bks _ n1 dir' s' Hrep H2 ltac:(lia) ltac:(lia) Ew) as (bks' & Hrep' & Hc').
    exists bks'. split; [done|]. exists (entries bks), []. unfold entries.
    rewrite Hc', omap_app, app_nil_r. cbn [omap list_omap]. by rewrite H3.
Qed.

Lemma assoc_one_more name es es' v :
  one_more es es' (name, v) → assoc name es = None →
  ∀ n, assoc n es' = if bool_decide (n = name) then Some v else assoc n es.
Proof.
  intros (l1 & l2 & -> & ->). induction l1 as [|[m w] l1 IH]; simpl; intros Hno n.
  - destruct (decide (n = name)) as [->|Hne].
    + by rewrite !bool_decide_eq_true_2.
    + by rewrite !bool_decide_eq_false_2 by congruence.
  - destruct (decide (m = name)) as [->|Hne]; [by rewrite bool_decide_eq_true_2 in Hno|].
    rewrite (bool_decide_eq_false_2 (m = name)) in Hno by done. rewrite IH by done.
    destruct (decide (m = n)) as [->|]; [|].
    { rewrite (bool_decide_eq_true_2 (n = n)), (bool_decide_eq_false_2 (n = name)) by done. done. }
    by rewrite (bool_decide_eq_false_2 (m = n)).
Qed.

(** ** The directory operations *)

(** C32: On a directory whose file is a sequence of well formed records, [dir_lookup_entry]
    is the lookup in the association list of its entries: it returns the inode and the type
    of the first entry in use with the name, and KZFS_ENOENT if no entry has it.  It changes
    nothing but the block cache. *)
Theorem dir_lookup_spec dir s bks name :
  dir_rep dir s bks → reads_succeed → zlength name ≤ KZFS_NAME_MAX → kheap s = [] →
  ∃ s', dir_lookup_entry dir name s =
          (match assoc name (entries bks) with Some v => inr v | None => inl KZFS_ENOENT end, s') ∧
        reads s s'.
Proof. apply lookup_ok. Qed.

(** C16: [dir_add_entry] inserts into the association list: when it succeeds, in a free record
    or at the end of the directory with room in the last block, the directory is well formed
    again, holds the old entries in their order and the new one, and if the name was not
    there every lookup answers as before except that the name now has its inode and type.
    The record must fit the buffer of KZFS_DIRENT_MAX_REC bytes the code builds it in, which
    leaves out names of 253 to 255 bytes: their padded record has 264 bytes. *)
Theorem dir_add_spec dir s bks name target ftype rc dir' s' :
  io_sure → dir_rep dir s bks → 0 < zlength name ≤ KZFS_NAME_MAX → kheap s = [] → 0 < target < 2 ^ 32 →
  size_bytes dir mod KZFS_BLOCK_SIZE + dirent_len name ≤ KZFS_BLOCK_SIZE →
  size_bytes dir + dirent_len name < 2 ^ 32 → dirent_len name ≤ KZFS_DIRENT_MAX_REC →
  dir_add_entry dir name target ftype s = (rc, dir', s') → rc = KZFS_EOK →
  ∃ bks', dir_rep dir' s' bks' ∧ one_more (entries bks) (entries bks') (name, (target, ftype)) ∧
    (assoc name (entries bks) = None → ∀ n, assoc n (entries bks') =
       if bool_decide (n = name) then Some (target, ftype) else assoc n (entries bks)).
Proof.
  intros. edestruct add_ok as (bks' & Hrep & Hm); try done. exists bks'. split_and!; try done.
  by apply assoc_one_more.
Qed.

(** [dir_remove_entry] deletes the first entry with the name from the association list
    and returns KZFS_EOK, or returns KZFS_ENOENT if there is none; the other entries keep
    their order and the directory stays well formed. *)
Theorem dir_remove_spec dir s bks name :
  io_sure → dir_rep dir s bks → zlength name ≤ KZFS_NAME_MAX → kheap s = [] →
  ∃ dir' s' bks', dir_remove_entry dir name s =
      (match assoc name (entries bks) with Some _ => KZFS_EOK | None => KZFS_ENOENT end, dir', s') ∧
    dir_rep dir' s' bks' ∧ entries bks' = remove1 name (entries bks).
Proof. apply dir_remove_ok. Qed.
End dir.

(** ** A directory with one file *)
Definition empty_dir : inode_mem :=
  mkIno 1 KZFS_INODE_FLAG_DIR 2 0 0 (repeat zero_extent 4) 0 false 1.

(** The name "a". *)
Definition name_a : list Z := [97].

Lemma empty_dir_rep : dir_rep empty_dir small_fs [].
Proof.
  split; [done|]. split; [done|]. exists []. split; [|done]. split; [apply small_fs_ok|].
  split_and!; [|apply tidy_nil|done..].
  apply direct_wf; try done; simpl; [lia|apply NoDup_nil_2].
Qed.

Definition with_a : Z * inode_mem * fs (gmap Z (list Z)) :=
  dir_add_entry empty_dir name_a 2 KZFS_INODE_FLAG_FILE small_fs.

Lemma with_a_eq :
  dir_add_entry empty_dir name_a 2 KZFS_INODE_FLAG_FILE small_fs = (with_a.1.1, with_a.1.2, with_a.2).
Proof. change (with_a = (with_a.1.1, with_a.1.2, with_a.2)). by destruct with_a as [[? ?] ?]. Qed.

Lemma with_a_eok : with_a.1.1 = KZFS_EOK.
Proof. reflexivity. Qed.

Lemma with_a_kheap : kheap with_a.2 = [].
Proof. reflexivity. Qed.

Lemma one_more_nil es (e : list Z * (Z * Z)) : one_more [] es e → es = [e].
Proof. intros (l1 & l2 & He & ->). by destruct l1, l2. Qed.

Lemma with_a_rep : ∃ bks, dir_rep with_a.1.2 with_a.2 bks ∧ entries bks = [(name_a, (2, 1))].
Proof.
  destruct (add_ok empty_dir small_fs [] name_a 2 KZFS_INODE_FLAG_FILE with_a.1.1 with_a.1.2 with_a.2
    ram_sure empty_dir_rep ltac:(done) eq_refl ltac:(done) ltac:(done) ltac:(done)) as (bks & Hr & Hm).
  - exact with_a_eq.
  - exact with_a_eok.
  - exists bks. split; [exact Hr|]. by apply one_more_nil.
Qed.

Lemma dir_add_spec_witness :
  ∃ bks, dir_rep with_a.1.2 with_a.2 bks ∧ assoc name_a (entries bks) = Some (2, 1).
Proof.
  destruct (dir_add_spec empty_dir small_fs [] name_a 2 KZFS_INODE_FLAG_FILE with_a.1.1 with_a.1.2 with_a.2
    ram_sure empty_dir_rep ltac:(done) eq_refl ltac:(done) ltac:(done) ltac:(done) ltac:(done)) as (bks & Hr & _ & Ha).
  - exact with_a_eq.
  - exact with_a_eok.
  - exists bks. split; [exact Hr|]. rewrite (Ha eq_refl). reflexivity.
Defined.

Lemma dir_lookup_spec_witness :
  (dir_lookup_entry with_a.1.2 name_a with_a.2).1 = inr (2, 1).
Proof.
  destruct with_a_rep as (bks & Hr & He).
  destruct (dir_lookup_spec with_a.1.2 with_a.2 bks name_a Hr ram_reads_succeed ltac:(done) with_a_kheap)
    as (s' & Hl & _). rewrite Hl, He. reflexivity.
Defined.

Lemma dir_remove_spec_witness :
  (dir_remove_entry with_a.1.2 name_a with_a.2).1.1 = KZFS_EOK.
Proof.
  destruct with_a_rep as (bks & Hr & He).
  destruct (dir_remove_spec with_a.1.2 with_a.2 bks name_a ram_sure Hr ltac:(done) with_a_kheap)
    as (dir' & s' & bks' & Hl & _). rewrite Hl, He. reflexivity.
Defined.
