(* ===== verification/VfsFd.v ===== *)
(** The file descriptor layer ([kernel/fs/vfs_fd.c]): per-task descriptor tables whose
    entries share reference-counted open descriptions, pipes, duplication, inheritance and
    closing.

    Open descriptions and pipes live in maps from object numbers; freeing removes the
    object, so an access to a freed object is an access to a missing key.  The file system
    below is the interface [VnodeFs], discharged by KyuzenFS.  The lock [vfs_lock] makes
    every part of an operation between taking and dropping it atomic; an operation on a
    pipe or a terminal drops it while it holds an extra reference, so it is split into its
    start, its transfer and its end, which [VfsInv] interleaves.  What the terminal
    transfers is an argument. *)

From S2P Require Import Prelude BlockIO Kfs KfsExtent KfsDir KfsVnode.

Definition MAX_TASKS : Z := 16.
Definition VFS_MAX_FDS : Z := 16.
Definition VFS_MAX_PATH : nat := 23.
Definition VFS_PIPE_CAP : Z := 4096.
Definition VFS_O_RDONLY : Z := 0.
Definition VFS_O_WRONLY : Z := 1.
Definition VFS_O_RDWR : Z := 2.
Definition VFS_O_CREAT : Z := 4.
Definition VFS_O_TRUNC : Z := 8.
Definition VFS_O_APPEND : Z := 16.
Definition VFS_SEEK_CUR : Z := 1.
Definition VFS_SEEK_END : Z := 2.
Definition UINT32_MAX : Z := 4294967295.
Definition IO_CLAMP : Z := 0x40000000.

Definition has (flags bits : Z) : bool := negb (Z.land flags bits =? 0).

(** ** The file system interface *)
Class VnodeFs (F V : Type) := {
  vn_walk : list Z → F → (Z + V) * F;
  vn_walk_parent : list Z → Z → F → (Z + list Z * V) * F;
  vn_is_dir : V → bool;
  vn_size : V → Z;
  vn_open : V → Z → Z;
  vn_create : V → list Z → Z → F → (Z + V) * F;
  vn_truncate : V → Z → F → Z * V * F;
  vn_read : V → Z → Z → F → (Z + list Z) * F;
  vn_write : V → Z → list Z → F → (Z + Z) * V * F;
  vn_readdir : V → Z → Z → F → (Z + list Z * Z) * F;
  vn_sync : V → F → Z * F;
  vn_release : V → F → option V * F
}.

#[export] Instance kfs_vnodes {S} `{BlockIO S} : VnodeFs (fs S) vnode := {
  vn_walk := kfs_walk_path; vn_walk_parent := kfs_walk_parent;
  vn_is_dir := is_dir; vn_size := v_size; vn_open := v4_open; vn_create := v4_create;
  vn_truncate := v4_truncate; vn_read := v4_read; vn_write := v4_write;
  vn_readdir := v4_readdir; vn_sync := v4_sync; vn_release := v4_release
}.

(** ** State *)
Inductive okind := KIND_TTY | KIND_FILE | KIND_PIPE_READ | KIND_PIPE_WRITE | KIND_DIR.

#[global] Instance okind_eq_dec : EqDecision okind.
Proof. solve_decision. Defined.

Record vfs_pipe_t := mkPipe {
  p_buf : list Z; rpos : Z; wpos : Z; used : Z; readers : Z; writers : Z
}.

(** A pipe as [vfs_pipe] makes it. *)
Definition fresh_pipe : vfs_pipe_t := mkPipe (repeat 0 (Z.to_nat VFS_PIPE_CAP)) 0 0 0 1 1.
Arguments fresh_pipe : simpl never.

Record open_file (V : Type) := mkOf {
  refcount : Z; kind : okind; o_path : list Z; o_vnode : option V; o_pos : Z; o_flags : Z;
  o_pipe : option nat
}.
Arguments mkOf {_}. Arguments refcount {_}. Arguments kind {_}. Arguments o_path {_}.
Arguments o_vnode {_}. Arguments o_pos {_}. Arguments o_flags {_}. Arguments o_pipe {_}.

Record fd_entry := mkFd { f_used : bool; f_owner : Z; f_flags : Z; f_open : option nat }.
Definition no_fd : fd_entry := mkFd false 0 0 None.

Record vfs (F V : Type) := mkVfs {
  fds : list fd_entry; opens : gmap nat (open_file V); pipes : gmap nat vfs_pipe_t;
  next_id : nat; vheap : list bool; filesys : F
}.
Arguments mkVfs {_ _}. Arguments fds {_ _}. Arguments opens {_ _}. Arguments pipes {_ _}.
Arguments next_id {_ _}. Arguments vheap {_ _}. Arguments filesys {_ _}.

Section ops.
Context {F V : Type} `{VnodeFs F V}.
Implicit Types (t : vfs F V) (d : open_file V).

Definition set_fds (v : list fd_entry) t : vfs F V :=
  mkVfs v (opens t) (pipes t) (next_id t) (vheap t) (filesys t).
Definition set_opens (v : gmap nat (open_file V)) t : vfs F V :=
  mkVfs (fds t) v (pipes t) (next_id t) (vheap t) (filesys t).
Definition set_pipes (v : gmap nat vfs_pipe_t) t : vfs F V :=
  mkVfs (fds t) (opens t) v (next_id t) (vheap t) (filesys t).
Definition set_filesys (v : F) t : vfs F V :=
  mkVfs (fds t) (opens t) (pipes t) (next_id t) (vheap t) v.
(** A successful [kmalloc] gives a fresh object number; an empty script of outcomes means
    success. *)
Definition vmalloc t : option nat * vfs F V :=
  match vheap t with
  | false :: h => (None, mkVfs (fds t) (opens t) (pipes t) (next_id t) h (filesys t))
  | h => (Some (next_id t),
          mkVfs (fds t) (opens t) (pipes t) (Datatypes.S (next_id t)) (tail h) (filesys t))
  end.

Definition o_set_ref (z : Z) d : open_file V :=
  mkOf z (kind d) (o_path d) (o_vnode d) (o_pos d) (o_flags d) (o_pipe d).
Definition o_set_pos (z : Z) d : open_file V :=
  mkOf (refcount d) (kind d) (o_path d) (o_vnode d) z (o_flags d) (o_pipe d).
Definition o_set_vnode (v : option V) d : open_file V :=
  mkOf (refcount d) (kind d) (o_path d) v (o_pos d) (o_flags d) (o_pipe d).
Definition o_set_pipe (p : option nat) d : open_file V :=
  mkOf (refcount d) (kind d) (o_path d) (o_vnode d) (o_pos d) (o_flags d) p.

Definition fd_at t (s : Z) : fd_entry := default no_fd (fds t !! Z.to_nat s).
Definition fd_put (s : Z) (e : fd_entry) t : vfs F V := set_fds (<[Z.to_nat s := e]> (fds t)) t.

(** ** Slots *)
Definition vfs_init t : vfs F V :=
  set_fds (map (λ e, mkFd false (f_owner e) 0 None) (fds t)) t.

Definition slot_of (task_id fd : Z) : Z :=
  if (task_id <? 0) || (MAX_TASKS <=? task_id) then -1
  else if (fd <? 0) || (VFS_MAX_FDS <=? fd) then -1
  else task_id * VFS_MAX_FDS + fd.

(** The checks shared by the operations on an existing descriptor. *)
Definition owned_open t (task_id s : Z) : option nat :=
  if s <? 0 then None else
  let e := fd_at t s in
  if negb (f_used e) || negb (f_owner e =? task_id) then None else f_open e.

Definition resolve_open t (task_id fd : Z) : option nat := owned_open t task_id (slot_of task_id fd).

Definition alloc_fd t (task_id : Z) : Z :=
  let base := task_id * VFS_MAX_FDS in
  match for_range 0 VFS_MAX_FDS
          (λ i (_ : unit), if negb (f_used (fd_at t (base + i))) then inl i else inr tt) tt with
  | inl i => i
  | inr _ => -1
  end.

(** ** Descriptions *)
Definition open_get (o : nat) t : vfs F V :=
  set_opens (alter (λ d, o_set_ref (u32 (refcount d + 1)) d) o (opens t)) t.

Definition pipe_end_closed (p : nat) (k : okind) t : vfs F V :=
  match pipes t !! p with
  | None => t
  | Some pp =>
      let pp := if decide (k = KIND_PIPE_READ)
                then mkPipe (p_buf pp) (rpos pp) (wpos pp) (used pp) 0 (writers pp)
                else mkPipe (p_buf pp) (rpos pp) (wpos pp) (used pp) (readers pp) 0 in
      if (readers pp =? 0) && (writers pp =? 0) then set_pipes (delete p (pipes t)) t
      else set_pipes (<[p := pp]> (pipes t)) t
  end.

Definition open_put (o : nat) t : vfs F V :=
  match opens t !! o with
  | None => t
  | Some d =>
      let left := u32 (refcount d - 1) in
      if negb (left =? 0) then set_opens (<[o := o_set_ref left d]> (opens t)) t else
      let t := match kind d with
               | KIND_FILE | KIND_DIR =>
                   match o_vnode d with
                   | Some v => set_filesys (vn_release v (vn_sync v (filesys t)).2).2 t
                   | None => t
                   end
               | KIND_PIPE_READ | KIND_PIPE_WRITE =>
                   match o_pipe d with
                   | Some p => pipe_end_closed p (kind d) t
                   | None => t
                   end
               | KIND_TTY => t
               end in
      set_opens (delete o (opens t)) t
  end.

Definition open_alloc (k : okind) (path : list Z) (v : option V) (pos flags : Z) t
    : option nat * vfs F V :=
  match vmalloc t with
  | (None, t) => (None, t)
  | (Some o, t) =>
      (Some o, set_opens (<[o := mkOf 1 k (take (VFS_MAX_PATH - 1) path) v pos flags None]>
                            (opens t)) t)
  end.

(** [kfree] of a description that was never installed. *)
Definition free_open (o : nat) t : vfs F V := set_opens (delete o (opens t)) t.

Definition install_locked (task_id fd : Z) (o : nat) t : vfs F V :=
  let s := slot_of task_id fd in
  if (s <? 0) || f_used (fd_at t s) then t
  else fd_put s (mkFd true task_id 0 (Some o)) (open_get o t).

(** The path "tty". *)
Definition tty_path : list Z := [116; 116; 121].

Definition install_tty_locked (task_id fd flags : Z) t : vfs F V :=
  let s := slot_of task_id fd in
  if s <? 0 then t else
  if f_used (fd_at t s) then t else
  match open_alloc KIND_TTY tty_path None 0 flags t with
  | (None, t) => t
  | (Some o, t) => fd_put s (mkFd true task_id 0 (Some o)) t
  end.

Definition vfs_task_init (task_id : Z) t : vfs F V :=
  if (task_id <? 0) || (MAX_TASKS <=? task_id) then t else
  install_tty_locked task_id 2 VFS_O_WRONLY
    (install_tty_locked task_id 1 VFS_O_WRONLY
       (install_tty_locked task_id 0 VFS_O_RDONLY t)).

(** ** Opening *)

(** The vnode for a path, created if asked and missing, truncated if asked; [None] is the
    error return. *)
Definition open_vnode (path : list Z) (flags : Z) (fl : F) : option V * F :=
  match vn_walk path fl with
  | (inl rc, fl) =>
      if negb (has flags VFS_O_CREAT) then (None, fl) else
      if (rc =? KZFS_ENOTDIR) || (rc =? KZFS_ENAMETOOLONG) then (None, fl) else
      match vn_walk_parent path (KZFS_NAME_MAX + 1) fl with
      | (inl _, fl) => (None, fl)
      | (inr (name, parent), fl) =>
          match vn_create parent name 0 fl with
          | (inl _, fl) => (None, (vn_release parent fl).2)
          | (inr vn, fl) => (Some vn, (vn_release parent fl).2)
          end
      end
  | (inr vn, fl) =>
      if has flags VFS_O_TRUNC then
        if vn_is_dir vn then (None, (vn_release vn fl).2)
        else let '(_, vn, fl) := vn_truncate vn 0 fl in (Some vn, fl)
      else (Some vn, fl)
  end.

Definition vfs_open (task_id : Z) (path : list Z) (flags : Z) t : Z * vfs F V :=
  if zlength path =? 0 then (-1, t) else
  if (task_id <? 0) || (MAX_TASKS <=? task_id) then (-1, t) else
  match open_vnode path flags (filesys t) with
  | (None, fl) => (-1, set_filesys fl t)
  | (Some vn, fl) =>
      let t := set_filesys fl t in
      let drop t := set_filesys (vn_release vn (filesys t)).2 t in
      if vn_is_dir vn
         && has flags (Z.lor VFS_O_WRONLY (Z.lor VFS_O_RDWR (Z.lor VFS_O_CREAT VFS_O_APPEND)))
      then (-1, drop t) else
      if negb (vn_open vn flags =? KZFS_EOK) then (-1, drop t) else
      match open_alloc (if vn_is_dir vn then KIND_DIR else KIND_FILE) path (Some vn)
              (if has flags VFS_O_APPEND then u32 (vn_size vn) else 0) flags t with
      | (None, t) => (-1, drop t)
      | (Some o, t) =>
          let fd := alloc_fd t task_id in
          if fd <? 0 then (-1, free_open o (drop t))
          else (fd, fd_put (slot_of task_id fd) (mkFd true task_id 0 (Some o)) t)
      end
  end.

(** ** Pipes *)

(** The copy loops: from the read index, and to the write index. *)
Definition pipe_take (pp : vfs_pipe_t) (n : Z) : list Z * Z :=
  for_each 0 n (λ _ st, let '(out, r) := st in
                        (out ++ [lget (p_buf pp) r], (r + 1) mod VFS_PIPE_CAP)) ([], rpos pp).

Definition pipe_fill (pp : vfs_pipe_t) (src : list Z) (n : Z) : list Z * Z :=
  for_each 0 n (λ i st, let '(b, w) := st in
                        (lset b w (lget src i), (w + 1) mod VFS_PIPE_CAP)) (p_buf pp, wpos pp).

(** One round of the loops of [pipe_read] and [pipe_write]: [None] when the caller must
    block. *)
Definition pipe_read_try (pp : vfs_pipe_t) (count : Z) : option (Z * list Z * vfs_pipe_t) :=
  if 0 <? used pp then
    let n := if count <? used pp then count else used pp in
    let '(out, r) := pipe_take pp n in
    Some (i32 n, out, mkPipe (p_buf pp) r (wpos pp) (u32 (used pp - n)) (readers pp) (writers pp))
  else if writers pp =? 0 then Some (0, [], pp) else None.

Definition pipe_write_try (pp : vfs_pipe_t) (src : list Z) : option (Z * vfs_pipe_t) :=
  if readers pp =? 0 then Some (-1, pp) else
  if used pp <? VFS_PIPE_CAP then
    let free := VFS_PIPE_CAP - used pp in
    let n := if zlength src <? free then zlength src else free in
    let '(b, w) := pipe_fill pp src n in
    Some (i32 n, mkPipe b (rpos pp) w (u32 (used pp + n)) (readers pp) (writers pp))
  else None.

Definition pipe_read (o : nat) (count : Z) t : option (Z * list Z * vfs F V) :=
  match opens t !! o ≫= o_pipe with
  | None => Some (-1, [], t)
  | Some p =>
      '(n, out, pp) ← pipes t !! p ≫= λ pp, pipe_read_try pp count;
      Some (n, out, set_pipes (<[p := pp]> (pipes t)) t)
  end.

Definition pipe_write (o : nat) (src : list Z) t : option (Z * vfs F V) :=
  match opens t !! o ≫= o_pipe with
  | None => Some (-1, t)
  | Some p =>
      '(n, pp) ← pipes t !! p ≫= λ pp, pipe_write_try pp src;
      Some (n, set_pipes (<[p := pp]> (pipes t)) t)
  end.

(** ** Reading and writing *)

(** How an operation leaves its first critical section: with its result, or with a
    transfer to run without the lock, on a pinned description or, for a descriptor 0, 1
    or 2 that was never installed, on the terminal without one. *)
Inductive io_start := IoDone (n : Z) (out : list Z) | IoPipe (o : nat) | IoTty (o : option nat).

Definition implicit_stdio t (task_id fd : Z) : bool :=
  let s := slot_of task_id fd in (0 <=? s) && negb (f_used (fd_at t s)).

Definition file_read (o : nat) (d : open_file V) (v : V) (count : Z) t : io_start * vfs F V :=
  let count := if IO_CLAMP <? count then IO_CLAMP else count in
  match vn_read v (o_pos d) count (filesys t) with
  | (inl _, fl) => (IoDone (-1) [], set_filesys fl t)
  | (inr bs, fl) =>
      let d := o_set_pos (u32 (o_pos d + u32 (zlength bs))) d in
      (IoDone (i32 (zlength bs)) bs, set_opens (<[o := d]> (opens t)) (set_filesys fl t))
  end.

Definition vfs_read_start (task_id fd count : Z) t : io_start * vfs F V :=
  match resolve_open t task_id fd with
  | None =>
      if (0 <=? fd) && (fd <=? 2) && implicit_stdio t task_id fd && (fd =? 0)
      then if count =? 0 then (IoDone 0 [], t) else (IoTty None, t)
      else (IoDone (-1) [], t)
  | Some o =>
      match opens t !! o with
      | None => (IoDone (-1) [], t)
      | Some d =>
          if has (o_flags d) VFS_O_WRONLY then (IoDone (-1) [], t) else
          match kind d with
          | KIND_PIPE_READ => if count =? 0 then (IoDone 0 [], t) else (IoPipe o, open_get o t)
          | KIND_TTY => if negb (fd =? 0) then (IoDone (-1) [], t) else (IoTty (Some o), open_get o t)
          | KIND_FILE =>
              match o_vnode d with
              | Some v => file_read o d v count t
              | None => (IoDone (-1) [], t)
              end
          | KIND_PIPE_WRITE | KIND_DIR => (IoDone (-1) [], t)
          end
      end
  end.

(** The whole operation when it does not block; [tty] is what the terminal supplies,
    [None] without a terminal. *)
Definition vfs_read (task_id fd count : Z) (tty : option (list Z)) t
    : option (Z * list Z * vfs F V) :=
  match vfs_read_start task_id fd count t with
  | (IoDone n out, t) => Some (n, out, t)
  | (IoPipe o, t) => '(n, out, t) ← pipe_read o count t; Some (n, out, open_put o t)
  | (IoTty o, t) =>
      let '(n, out) := if count =? 0 then (0, []) else
                       match tty with Some bs => (i32 (zlength bs), bs) | None => (-1, []) end in
      Some (n, out, match o with Some o => open_put o t | None => t end)
  end.

Definition file_write (o : nat) (d : open_file V) (v : V) (src : list Z) t : io_start * vfs F V :=
  let d := if has (o_flags d) VFS_O_APPEND then o_set_pos (u32 (vn_size v)) d else d in
  let src := slice 0 (if IO_CLAMP <? zlength src then IO_CLAMP else zlength src) src in
  let '(r, v, fl) := vn_write v (o_pos d) src (filesys t) in
  let d := o_set_vnode (Some v) d in
  match r with
  | inl _ => (IoDone (-1) [], set_opens (<[o := d]> (opens t)) (set_filesys fl t))
  | inr w =>
      let d := o_set_pos (u32 (o_pos d + u32 w)) d in
      (IoDone (i32 w) [], set_opens (<[o := d]> (opens t)) (set_filesys fl t))
  end.

Definition vfs_write_start (task_id fd : Z) (src : list Z) t : io_start * vfs F V :=
  match resolve_open t task_id fd with
  | None =>
      if (0 <=? fd) && (fd <=? 2) && implicit_stdio t task_id fd && negb (fd =? 0)
      then if zlength src =? 0 then (IoDone 0 [], t) else (IoTty None, t)
      else (IoDone (-1) [], t)
  | Some o =>
      match opens t !! o with
      | None => (IoDone (-1) [], t)
      | Some d =>
          if negb (has (o_flags d) (Z.lor VFS_O_WRONLY VFS_O_RDWR)) then (IoDone (-1) [], t) else
          match kind d with
          | KIND_PIPE_WRITE =>
              if zlength src =? 0 then (IoDone 0 [], t) else (IoPipe o, open_get o t)
          | KIND_TTY => if fd =? 0 then (IoDone (-1) [], t) else (IoTty (Some o), open_get o t)
          | KIND_FILE =>
              match o_vnode d with
              | Some v => file_write o d v src t
              | None => (IoDone (-1) [], t)
              end
          | KIND_PIPE_READ | KIND_DIR => (IoDone (-1) [], t)
          end
      end
  end.

(** [tty] is the number of bytes the terminal takes. *)
Definition vfs_write (task_id fd : Z) (src : list Z) (tty : option Z) t : option (Z * vfs F V) :=
  match vfs_write_start task_id fd src t with
  | (IoDone n _, t) => Some (n, t)
  | (IoPipe o, t) => '(n, t) ← pipe_write o src t; Some (n, open_put o t)
  | (IoTty o, t) =>
      let n := if zlength src =? 0 then 0 else
               match tty with Some n => i32 n | None => -1 end in
      Some (n, match o with Some o => open_put o t | None => t end)
  end.

Definition vfs_readdir (task_id fd index name_cap : Z) t : option (list Z * Z) * vfs F V :=
  if name_cap =? 0 then (None, t) else
  match resolve_open t task_id fd ≫= λ o, opens t !! o with
  | None => (None, t)
  | Some d =>
      match kind d, o_vnode d with
      | KIND_DIR, Some v =>
          match vn_readdir v index name_cap (filesys t) with
          | (inl _, fl) => (None, set_filesys fl t)
          | (inr (nm, ty), fl) => (Some (nm, cbool (ty =? KZFS_INODE_FLAG_DIR)), set_filesys fl t)
          end
      | _, _ => (None, t)
      end
  end.

Definition vfs_lseek (task_id fd offset whence : Z) t : Z * vfs F V :=
  match resolve_open t task_id fd with
  | None => (-1, t)
  | Some o =>
      match opens t !! o with
      | None => (-1, t)
      | Some d =>
          match kind d, o_vnode d with
          | KIND_FILE, Some v =>
              let base := if whence =? VFS_SEEK_CUR then o_pos d
                          else if whence =? VFS_SEEK_END then i64 (vn_size v) else 0 in
              let np := i64 (base + offset) in
              if (np <? 0) || (UINT32_MAX <? np) then (-1, t)
              else (i32 np, set_opens (<[o := o_set_pos (u32 np) d]> (opens t)) t)
          | _, _ => (-1, t)
          end
      end
  end.

(** ** Creating a pipe *)

(** The path "pipe". *)
Definition pipe_path : list Z := [112; 105; 112; 101].

(** The search for the two lowest free descriptors. *)
Definition pipe_fds t (task_id : Z) : Z * Z :=
  let base := task_id * VFS_MAX_FDS in
  match for_range 0 VFS_MAX_FDS
          (λ i rfd, if negb (f_used (fd_at t (base + i)))
                    then if rfd <? 0 then inr i else inl (rfd, i) else inr rfd) (-1) with
  | inl r => r
  | inr rfd => (rfd, -1)
  end.

(** The pipe with its two descriptions; [None] releases what was allocated. *)
Definition pipe_objects t : option (nat * nat * nat) * vfs F V :=
  let '(p, t) := vmalloc t in
  let '(buf, t) := vmalloc t in
  match p, buf with
  | Some p, Some _ =>
      match open_alloc KIND_PIPE_READ pipe_path None 0 VFS_O_RDONLY t with
      | (None, t) => (None, t)
      | (Some ro, t) =>
          match open_alloc KIND_PIPE_WRITE pipe_path None 0 VFS_O_WRONLY t with
          | (None, t) => (None, free_open ro t)
          | (Some wo, t) =>
              let t := set_pipes
                (<[p := fresh_pipe]> (pipes t)) t in
              let t := set_opens (alter (o_set_pipe (Some p)) wo
                                    (alter (o_set_pipe (Some p)) ro (opens t))) t in
              (Some (p, ro, wo), t)
          end
      end
  | _, _ => (None, t)
  end.

Definition vfs_pipe (task_id : Z) t : option (Z * Z) * vfs F V :=
  if (task_id <? 0) || (MAX_TASKS <=? task_id) then (None, t) else
  match pipe_objects t with
  | (None, t) => (None, t)
  | (Some (p, ro, wo), t) =>
      let '(rfd, wfd) := pipe_fds t task_id in
      if (rfd <? 0) || (wfd <? 0)
      then (None, set_pipes (delete p (pipes t)) (free_open ro (free_open wo t)))
      else
        let base := task_id * VFS_MAX_FDS in
        (Some (rfd, wfd),
         fd_put (base + wfd) (mkFd true task_id 0 (Some wo))
           (fd_put (base + rfd) (mkFd true task_id 0 (Some ro)) t))
  end.

(** ** Inheritance *)
Definition inherit_step (child parent : Z) (spec : list Z) (i : Z) t : vfs F V + vfs F V :=
  if lget spec i <? 0 then inr t else
  match owned_open t parent (slot_of parent (lget spec i)),
        owned_open t child (slot_of child i) with
  | Some src, Some old =>
      let s := slot_of child i in
      let t := open_get src t in
      let t := fd_put s (mkFd true child 0 (Some src)) t in
      inr (open_put old t)
  | _, _ => inl t
  end.

Definition vfs_inherit_stdio (child parent : Z) (spec : list Z) t : Z * vfs F V :=
  if (child <? 0) || (MAX_TASKS <=? child) || (parent <? 0) || (MAX_TASKS <=? parent)
  then (-1, t) else
  if child =? parent then (-1, t) else
  match for_range 0 3 (inherit_step child parent spec) t with
  | inl t => (-1, t)
  | inr t => (0, t)
  end.

Definition fork_step (child parent i : Z) t : vfs F V :=
  let pe := fd_at t (parent * VFS_MAX_FDS + i) in
  if negb (f_used pe) || negb (f_owner pe =? parent) then t else
  match f_open pe with
  | None => t
  | Some o => fd_put (child * VFS_MAX_FDS + i) (mkFd true child (f_flags pe) (Some o)) (open_get o t)
  end.

(** Whether the window of a task is completely free. *)
Definition window_free t (task_id : Z) : bool :=
  match for_range 0 VFS_MAX_FDS
          (λ i (_ : unit), if f_used (fd_at t (task_id * VFS_MAX_FDS + i)) then inl tt else inr tt) tt with
  | inl _ => false
  | inr _ => true
  end.

Definition vfs_fork_inherit (child parent : Z) t : Z * vfs F V :=
  if (child <? 0) || (MAX_TASKS <=? child) || (parent <? 0) || (MAX_TASKS <=? parent)
  then (-1, t) else
  if child =? parent then (-1, t) else
  if negb (window_free t child) then (-1, t)
  else (0, for_each 0 VFS_MAX_FDS (fork_step child parent) t).

(** ** Closing *)
Definition vfs_close (task_id fd : Z) t : Z * vfs F V :=
  let s := slot_of task_id fd in
  match owned_open t task_id s with
  | None => (-1, t)
  | Some o => (0, open_put o (fd_put s (mkFd false task_id 0 None) t))
  end.

Definition close_step (base i : Z) t : vfs F V :=
  let e := fd_at t (base + i) in
  if f_used e then
    match f_open e with
    | Some o => open_put o (fd_put (base + i) (mkFd false (f_owner e) 0 None) t)
    | None => t
    end
  else t.

Definition vfs_close_all (task_id : Z) t : vfs F V :=
  if (task_id <? 0) || (MAX_TASKS <=? task_id) then t
  else for_each 0 VFS_MAX_FDS (close_step (task_id * VFS_MAX_FDS)) t.

(** ** Duplication *)
Definition vfs_dup (task_id oldfd : Z) t : Z * vfs F V :=
  if (task_id <? 0) || (MAX_TASKS <=? task_id) then (-1, t) else
  match owned_open t task_id (slot_of task_id oldfd) with
  | None => (-1, t)
  | Some o =>
      let nfd := alloc_fd t task_id in
      if nfd <? 0 then (-1, t) else (nfd, install_locked task_id nfd o t)
  end.

Definition vfs_dup2 (task_id oldfd newfd : Z) t : Z * vfs F V :=
  if (task_id <? 0) || (MAX_TASKS <=? task_id) then (-1, t) else
  if (newfd <? 0) || (VFS_MAX_FDS <=? newfd) then (-1, t) else
  let ns := slot_of task_id newfd in
  match owned_open t task_id (slot_of task_id oldfd) with
  | None => (-1, t)
  | Some src =>
      if oldfd =? newfd then (newfd, t) else
      let t := open_get src t in
      let t := match f_used (fd_at t ns), f_open (fd_at t ns) with
               | true, Some old => open_put old (fd_put ns (mkFd false (f_owner (fd_at t ns)) 0 None) t)
               | _, _ => t
               end in
      (newfd, fd_put ns (mkFd true task_id 0 (Some src)) t)
  end.
End ops.
