(* ===== verification/VfsPipe.v ===== *)
(** Pipes as queues: the circular buffer of [kernel/fs/vfs_fd.c] implements a bounded FIFO
    queue of bytes. *)

From S2P Require Import Prelude VfsFd.

(** ** The abstraction *)

(** The bytes a pipe holds, oldest first. *)
Definition contents (pp : vfs_pipe_t) : list Z :=
  map (λ k, lget (p_buf pp) ((rpos pp + k) mod VFS_PIPE_CAP)) (seqZ 0 (used pp)).

Definition ring_ok (pp : vfs_pipe_t) : Prop :=
  zlength (p_buf pp) = VFS_PIPE_CAP ∧ 0 ≤ rpos pp < VFS_PIPE_CAP ∧
  0 ≤ used pp ≤ VFS_PIPE_CAP ∧ wpos pp = (rpos pp + used pp) mod VFS_PIPE_CAP.

Lemma contents_length pp : 0 ≤ used pp → zlength (contents pp) = used pp.
Proof. intros ?. unfold zlength, contents. rewrite length_map, length_seqZ. lia. Qed.

Lemma contents_lookup pp k :
  0 ≤ k < used pp →
  contents pp !! Z.to_nat k = Some (lget (p_buf pp) ((rpos pp + k) mod VFS_PIPE_CAP)).
Proof.
  intros ?. unfold contents. rewrite list_lookup_fmap, lookup_seqZ_lt by lia. simpl.
  by rewrite Z.add_0_l, Z2Nat.id by lia.
Qed.

(** Two lists of the same length are equal when they agree at every integer position. *)
Lemma zlist_eq (a b : list Z) :
  zlength a = zlength b →
  (∀ k, 0 ≤ k < zlength a → a !! Z.to_nat k = b !! Z.to_nat k) → a = b.
Proof.
  unfold zlength. intros Hl Hk. apply list_eq. intros i.
  destruct (decide (i < length a)%nat).
  - rewrite <- (Nat2Z.id i). apply Hk. lia.
  - rewrite !lookup_ge_None_2 by lia. done.
Qed.

Lemma wrap_step a b :
  ((a + b) mod VFS_PIPE_CAP + 1) mod VFS_PIPE_CAP = (a + (b + 1)) mod VFS_PIPE_CAP.
Proof. rewrite Zplus_mod_idemp_l. f_equal. lia. Qed.

(** Distinct offsets below the capacity are distinct places. *)
Lemma ring_inj a i j :
  0 ≤ i < VFS_PIPE_CAP → 0 ≤ j < VFS_PIPE_CAP → i ≠ j →
  (a + i) mod VFS_PIPE_CAP ≠ (a + j) mod VFS_PIPE_CAP.
Proof. unfold VFS_PIPE_CAP. intros ???. zdiv. Qed.

(** ** The copy loops *)
Lemma pipe_take_ok pp n :
  0 ≤ rpos pp < VFS_PIPE_CAP → 0 ≤ n ≤ used pp →
  pipe_take pp n = (take (Z.to_nat n) (contents pp), (rpos pp + n) mod VFS_PIPE_CAP).
Proof.
  intros Hr Hn. unfold pipe_take.
  apply (for_each_upto (λ k st,
    st = (take (Z.to_nat k) (contents pp), (rpos pp + k) mod VFS_PIPE_CAP))); [lia| |].
  - rewrite Z.add_0_r, Z.mod_small by lia. done.
  - intros k [out r] Hk [= -> ->]. rewrite wrap_step. f_equal.
    rewrite Z2Nat.inj_add, Nat.add_1_r by lia.
    by rewrite (take_S_r _ _ _ (contents_lookup pp k ltac:(lia))).
Qed.

Lemma pipe_fill_ok pp src n :
  ring_ok pp → 0 ≤ n ≤ zlength src → used pp + n ≤ VFS_PIPE_CAP →
  ∃ b, pipe_fill pp src n = (b, (rpos pp + (used pp + n)) mod VFS_PIPE_CAP) ∧
       zlength b = VFS_PIPE_CAP ∧
       (∀ k, 0 ≤ k < used pp → lget b ((rpos pp + k) mod VFS_PIPE_CAP)
             = lget (p_buf pp) ((rpos pp + k) mod VFS_PIPE_CAP)) ∧
       (∀ k, 0 ≤ k < n → lget b ((rpos pp + (used pp + k)) mod VFS_PIPE_CAP) = lget src k).
Proof.
  intros (Hl & Hr & Hu & Hw) Hn Hf. unfold pipe_fill.
  apply (for_each_upto (λ m st, ∃ b,
       st = (b, (rpos pp + (used pp + m)) mod VFS_PIPE_CAP) ∧ zlength b = VFS_PIPE_CAP ∧
       (∀ k, 0 ≤ k < used pp → lget b ((rpos pp + k) mod VFS_PIPE_CAP)
             = lget (p_buf pp) ((rpos pp + k) mod VFS_PIPE_CAP)) ∧
       (∀ k, 0 ≤ k < m → lget b ((rpos pp + (used pp + k)) mod VFS_PIPE_CAP) = lget src k)));
    [lia| |].
  - exists (p_buf pp). rewrite Hw, Z.add_0_r. split_and!; [done..|lia].
  - intros m st Hm (b & -> & Hb & Hold & Hnew).
    assert (Hin : 0 ≤ (rpos pp + (used pp + m)) mod VFS_PIPE_CAP < zlength b).
    { rewrite Hb. apply Z.mod_pos_bound. done. }
    unfold zlength in Hin, Hb |- *.
    eexists. split_and!; [rewrite wrap_step; do 2 f_equal; lia|by rewrite lset_length| |].
    + intros k Hk. rewrite lget_lset_ne; [by apply Hold| | |];
        [apply Z.mod_pos_bound; done..|apply ring_inj; lia].
    + intros k Hk. destruct (decide (k = m)) as [->|].
      * by apply lget_lset_eq.
      * rewrite lget_lset_ne; [apply Hnew; lia| | |];
          [apply Z.mod_pos_bound; done..|apply ring_inj; lia].
Qed.

(** ** The queue *)
Lemma read_try_ok pp count :
  ring_ok pp → 0 < count →
  match pipe_read_try pp count with
  | None => contents pp = [] ∧ writers pp ≠ 0
  | Some (n, out, pp') =>
      n = zlength out ∧ contents pp = out ++ contents pp' ∧ ring_ok pp' ∧
      readers pp' = readers pp ∧ writers pp' = writers pp ∧
      (out = [] → contents pp = [] ∧ writers pp = 0) ∧
      (zlength out < count → contents pp' = [])
  end.
Proof.
  intros (Hl & Hr & Hu & Hw) Hc. unfold pipe_read_try.
  assert (Hlen := contents_length pp ltac:(lia)).
  destruct (Z.ltb_spec 0 (used pp)).
  2:{ assert (contents pp = []) as He by (apply length_zero_iff_nil; unfold zlength in Hlen; lia).
      destruct (Z.eqb_spec (writers pp) 0) as [Hz|]; [|done].
      rewrite He. split_and!; try done. }
  set (n := if count <? used pp then count else used pp).
  assert (Hn : 0 < n ≤ used pp ∧ n ≤ count ∧ (n < count → n = used pp)) by (unfold n; zcase).
  clearbody n. rewrite pipe_take_ok by lia.
  unfold VFS_PIPE_CAP in *. rewrite i32_id, u32_id by lia.
  assert (Ht : zlength (take (Z.to_nat n) (contents pp)) = n).
  { unfold zlength in *. rewrite length_take. lia. }
  assert (Hd : contents (mkPipe (p_buf pp) ((rpos pp + n) mod 4096) (wpos pp) (used pp - n)
                 (readers pp) (writers pp)) = drop (Z.to_nat n) (contents pp)).
  { apply zlist_eq.
    - rewrite contents_length by (simpl; lia). unfold zlength in *. rewrite length_drop. simpl. lia.
    - rewrite contents_length by (simpl; lia). simpl. intros k Hk.
      rewrite contents_lookup by (simpl; lia). simpl.
      rewrite lookup_drop, <- Z2Nat.inj_add, contents_lookup by lia.
      unfold VFS_PIPE_CAP. rewrite Zplus_mod_idemp_l. do 3 f_equal. lia. }
  rewrite Hd, take_drop. split_and!; simpl; try done.
  - unfold ring_ok, VFS_PIPE_CAP. simpl. split_and!; try lia.
    + apply Z.mod_pos_bound. lia.
    + apply Z.mod_pos_bound. lia.
    + rewrite Hw, Zplus_mod_idemp_l. f_equal. lia.
  - intros He. rewrite He in Ht. unfold zlength in Ht. simpl in Ht. lia.
  - rewrite Ht. intros. apply drop_ge. unfold zlength in *. lia.
Qed.

Lemma write_try_ok pp src :
  ring_ok pp → 0 < zlength src →
  match pipe_write_try pp src with
  | None => zlength (contents pp) = VFS_PIPE_CAP ∧ readers pp ≠ 0
  | Some (n, pp') =>
      (n = -1 ∧ readers pp = 0 ∧ pp' = pp) ∨
      (0 < n ≤ zlength src ∧ contents pp' = contents pp ++ take (Z.to_nat n) src ∧ ring_ok pp' ∧
       readers pp' = readers pp ∧ writers pp' = writers pp ∧ readers pp ≠ 0 ∧
       (n < zlength src → zlength (contents pp') = VFS_PIPE_CAP))
  end.
Proof.
  intros Hok Hs. pose proof Hok as (Hl & Hr & Hu & Hw). unfold pipe_write_try.
  assert (Hlen := contents_length pp ltac:(lia)).
  destruct (Z.eqb_spec (readers pp) 0) as [|Hr0]; [by left|].
  destruct (Z.ltb_spec (used pp) VFS_PIPE_CAP); [|rewrite Hlen; split; [lia|done]].
  set (n := if zlength src <? VFS_PIPE_CAP - used pp then _ else _).
  assert (Hn : 0 < n ≤ zlength src ∧ used pp + n ≤ VFS_PIPE_CAP ∧
               (n < zlength src → used pp + n = VFS_PIPE_CAP)) by (unfold n; zcase).
  clearbody n.
  destruct (pipe_fill_ok pp src n Hok ltac:(lia) ltac:(lia)) as (b & -> & Hb & Hold & Hnew).
  right. unfold VFS_PIPE_CAP in *. rewrite i32_id, u32_id by lia.
  assert (Hc : contents (mkPipe b (rpos pp) ((rpos pp + (used pp + n)) mod 4096) (used pp + n)
                 (readers pp) (writers pp)) = contents pp ++ take (Z.to_nat n) src).
  { apply zlist_eq.
    - rewrite contents_length by (simpl; lia). unfold zlength in *.
      rewrite length_app, length_take. simpl. lia.
    - rewrite contents_length by (simpl; lia). simpl. intros k Hk.
      rewrite contents_lookup by (simpl; lia). simpl. unfold zlength, VFS_PIPE_CAP in *.
      destruct (decide (k < used pp)).
      + rewrite lookup_app_l by lia. rewrite contents_lookup by lia.
        by rewrite (Hold k) by lia.
      + rewrite lookup_app_r by lia. rewrite lookup_take_lt by lia.
        replace k with (used pp + (k - used pp)) at 1 by lia.
        rewrite (Hnew (k - used pp)) by lia. unfold lget.
        replace (Z.to_nat k - length (contents pp))%nat with (Z.to_nat (k - used pp)) by lia.
        destruct (lookup_lt_is_Some_2 src (Z.to_nat (k - used pp))) as [x ->]; [lia|done]. }
  rewrite Hc. split_and!; simpl; try done; try lia.
  - unfold ring_ok, VFS_PIPE_CAP. simpl. split_and!; try lia; done.
  - intros. unfold zlength in *. rewrite length_app, length_take. lia.
Qed.

(** How much a transfer moves. *)
Lemma read_try_amount pp count n out pp' :
  ring_ok pp → 0 < count → pipe_read_try pp count = Some (n, out, pp') →
  n = Z.min count (zlength (contents pp)) ∧ out = take (Z.to_nat n) (contents pp).
Proof.
  intros (Hl & Hr & Hu & Hw) Hc. assert (Hlen := contents_length pp ltac:(lia)).
  unfold pipe_read_try. intros H. destruct (Z.ltb_spec 0 (used pp)).
  - rewrite pipe_take_ok in H by (unfold VFS_PIPE_CAP in *; zcase).
    injection H as <- <- _. unfold VFS_PIPE_CAP in *. rewrite Hlen, i32_id by zcase.
    split; [zcase|done].
  - destruct (writers pp =? 0); [|done]. injection H as <- <- _.
    rewrite Hlen. split; [lia|done].
Qed.

Lemma write_try_amount pp src n pp' :
  ring_ok pp → 0 < zlength src → pipe_write_try pp src = Some (n, pp') →
  n = if readers pp =? 0 then -1
      else Z.min (zlength src) (VFS_PIPE_CAP - zlength (contents pp)).
Proof.
  intros (Hl & Hr & Hu & Hw) Hs. assert (Hlen := contents_length pp ltac:(lia)).
  unfold pipe_write_try. rewrite Hlen. intros H.
  destruct (Z.eqb_spec (readers pp) 0); [by injection H as <- _|].
  destruct (Z.ltb_spec (used pp) VFS_PIPE_CAP); [|done].
  destruct (pipe_fill _ _ _). injection H as <- _. unfold VFS_PIPE_CAP in *.
  rewrite i32_id; zcase.
Qed.

(** ** The specification: a bounded queue of bytes *)

(** [None]: the caller waits.  An empty queue without writers is at its end; without
    readers a write is refused with -1. *)
Definition queue_read (w : Z) (q : list Z) (count : Z) : option (Z * list Z * list Z) :=
  if zlength q =? 0 then (if w =? 0 then Some (0, [], q) else None)
  else Some (Z.min count (zlength q), take (Z.to_nat count) q, drop (Z.to_nat count) q).

Definition queue_write (r : Z) (q src : list Z) : option (Z * list Z) :=
  if r =? 0 then Some (-1, q)
  else if zlength q =? VFS_PIPE_CAP then None
  else let n := Z.min (zlength src) (VFS_PIPE_CAP - zlength q) in
       Some (n, q ++ take (Z.to_nat n) src).

Lemma read_refines pp count :
  ring_ok pp → 0 < count →
  match pipe_read_try pp count with
  | None => queue_read (writers pp) (contents pp) count = None
  | Some (n, out, pp') =>
      queue_read (writers pp) (contents pp) count = Some (n, out, contents pp') ∧
      ring_ok pp' ∧ readers pp' = readers pp ∧ writers pp' = writers pp
  end.
Proof.
  intros Hok Hc. pose proof (read_try_ok pp count Hok Hc) as Hr.
  destruct (pipe_read_try pp count) as [[[n out] pp']|] eqn:E; unfold queue_read.
  - destruct (read_try_amount _ _ _ _ _ Hok Hc E) as [Hn Ho].
    destruct Hr as (Hl & Hcat & Hok' & ? & ? & He & _). split; [|done].
    destruct (Z.eqb_spec (zlength (contents pp)) 0) as [Hz|Hz].
    + assert (Hc0 : contents pp = []) by (apply length_zero_iff_nil; unfold zlength in Hz; lia).
      rewrite Hc0 in Hcat, Ho, Hn. rewrite take_nil in Ho. subst out.
      destruct He as [_ ->]; [done|]. simpl in Hcat. rewrite <- Hcat, Hc0.
      rewrite Hn. unfold zlength. simpl. do 3 f_equal. lia.
    + assert (Ho' : out = take (Z.to_nat count) (contents pp)).
      { rewrite Ho, Hn. unfold zlength. destruct (Z.le_gt_cases count (Z.of_nat (length (contents pp)))).
        - by rewrite Z.min_l by done.
        - rewrite Z.min_r, !take_ge by lia. done. }
      rewrite <- Hn, <- Ho'. do 2 f_equal.
      rewrite <- (take_drop (Z.to_nat count) (contents pp)), <- Ho' in Hcat at 1.
      by apply app_inv_head in Hcat.
  - destruct Hr as [-> Hw]. simpl. by destruct (Z.eqb_spec (writers pp) 0).
Qed.

Lemma write_refines pp src :
  ring_ok pp → 0 < zlength src →
  match pipe_write_try pp src with
  | None => queue_write (readers pp) (contents pp) src = None
  | Some (n, pp') =>
      queue_write (readers pp) (contents pp) src = Some (n, contents pp') ∧
      ring_ok pp' ∧ readers pp' = readers pp ∧ writers pp' = writers pp
  end.
Proof.
  intros Hok Hs. pose proof (write_try_ok pp src Hok Hs) as Hw.
  destruct (pipe_write_try pp src) as [[n pp']|] eqn:E; unfold queue_write.
  - pose proof (write_try_amount _ _ _ _ Hok Hs E) as Hn.
    destruct Hw as [(Hm & Hr & ->)|(Hpos & -> & Hok' & ? & ? & Hr & _)]; [by rewrite Hr, Hm|].
    split; [|done]. destruct (Z.eqb_spec (readers pp) 0); [done|].
    destruct (Z.eqb_spec (zlength (contents pp)) VFS_PIPE_CAP); [lia|]. by rewrite <- Hn.
  - destruct Hw as [-> Hr]. by destruct (Z.eqb_spec (readers pp) 0).
Qed.

(** ** Sequences of transfers *)

(** An attempt to read or to write, or a change of the number of open ends. *)
Inductive pipe_op := PRead (count : Z) | PWrite (src : list Z) | PEnds (r w : Z).

(** What an attempt gives its caller: it must wait, or the result and the bytes. *)
Inductive pipe_res := RWait | RRead (n : Z) (out : list Z) | RWrite (n : Z) | REnds.

Definition op_ok (op : pipe_op) : Prop :=
  match op with
  | PRead count => 0 < count
  | PWrite src => 0 < zlength src
  | PEnds _ _ => True
  end.

Definition set_ends (r w : Z) (pp : vfs_pipe_t) : vfs_pipe_t :=
  mkPipe (p_buf pp) (rpos pp) (wpos pp) (used pp) r w.

(** The attempts in the order the lock serialises them, on the ring buffer and on the
    queue. *)
Definition pipe_do (pp : vfs_pipe_t) (op : pipe_op) : pipe_res * vfs_pipe_t :=
  match op with
  | PRead count =>
      match pipe_read_try pp count with
      | None => (RWait, pp) | Some (n, out, pp') => (RRead n out, pp')
      end
  | PWrite src =>
      match pipe_write_try pp src with
      | None => (RWait, pp) | Some (n, pp') => (RWrite n, pp')
      end
  | PEnds r w => (REnds, set_ends r w pp)
  end.

Definition queue_do (st : Z * Z * list Z) (op : pipe_op) : pipe_res * (Z * Z * list Z) :=
  let '(r, w, q) := st in
  match op with
  | PRead count =>
      match queue_read w q count with
      | None => (RWait, st) | Some (n, out, q') => (RRead n out, (r, w, q'))
      end
  | PWrite src =>
      match queue_write r q src with
      | None => (RWait, st) | Some (n, q') => (RWrite n, (r, w, q'))
      end
  | PEnds r w => (REnds, (r, w, q))
  end.

Fixpoint run_ops {A} (do_ : A → pipe_op → pipe_res * A) (a : A) (ops : list pipe_op)
    : list pipe_res * A :=
  match ops with
  | [] => ([], a)
  | op :: ops => let '(r, a) := do_ a op in let '(rs, a) := run_ops do_ a ops in (r :: rs, a)
  end.

(** The bytes the readers received and those the writers delivered. *)
Definition received (rs : list pipe_res) : list Z :=
  concat (map (λ r, match r with RRead _ out => out | _ => [] end) rs).
Definition delivered (ops : list pipe_op) (rs : list pipe_res) : list Z :=
  concat (zip_with (λ op r, match op, r with
                            | PWrite src, RWrite n => take (Z.to_nat n) src
                            | _, _ => []
                            end) ops rs).

Definition abstract_pipe (pp : vfs_pipe_t) : Z * Z * list Z := (readers pp, writers pp, contents pp).

Lemma pipe_do_refines pp op :
  ring_ok pp → op_ok op →
  let '(r, pp') := pipe_do pp op in
  queue_do (abstract_pipe pp) op = (r, abstract_pipe pp') ∧ ring_ok pp'.
Proof.
  intros Hok Hop. destruct op as [count|src|r w]; simpl.
  - pose proof (read_refines pp count Hok Hop) as Hr.
    destruct (pipe_read_try pp count) as [[[n out] pp']|]; [|by rewrite Hr].
    destruct Hr as (-> & ? & Hr & Hw). unfold abstract_pipe. by rewrite Hr, Hw.
  - pose proof (write_refines pp src Hok Hop) as Hr.
    destruct (pipe_write_try pp src) as [[n pp']|]; [|by rewrite Hr].
    destruct Hr as (-> & ? & Hr & Hw). unfold abstract_pipe. by rewrite Hr, Hw.
  - done.
Qed.

(** One step of the queue keeps the order. *)
Lemma queue_do_fifo r w q op res r' w' q' :
  queue_do (r, w, q) op = (res, (r', w', q')) →
  q ++ delivered [op] [res] = received [res] ++ q'.
Proof.
  unfold delivered, received. destruct op as [count|src|r1 w1]; simpl.
  - unfold queue_read. repeat case_match; intros; simplify_eq/=; rewrite ?app_nil_r; try done.
    by rewrite take_drop.
  - unfold queue_write. repeat case_match; intros; simplify_eq/=; rewrite ?app_nil_r; done.
  - intros. simplify_eq/=. by rewrite app_nil_r.
Qed.

Lemma pipe_run_ok ops : ∀ pp,
  ring_ok pp → Forall op_ok ops →
  let '(rs, pp') := run_ops pipe_do pp ops in
  run_ops queue_do (abstract_pipe pp) ops = (rs, abstract_pipe pp') ∧
  contents pp ++ delivered ops rs = received rs ++ contents pp' ∧ ring_ok pp'.
Proof.
  induction ops as [|op ops IH]; intros pp Hok Hops; cbn [run_ops]; [unfold delivered, received; simpl; by rewrite app_nil_r|].
  inversion_clear Hops as [|?? Hop Hops']. pose proof (pipe_do_refines pp op Hok Hop) as Hd.
  destruct (pipe_do pp op) as [res pp1]. destruct Hd as [Hd Hok1]. rewrite Hd.
  specialize (IH pp1 Hok1 Hops'). destruct (run_ops pipe_do pp1 ops) as [rs pp'].
  destruct IH as (-> & Hf & Hok'). split; [done|]. split; [|done].
  apply queue_do_fifo in Hd. unfold delivered, received in *. simpl in *.
  rewrite !app_nil_r in Hd. by rewrite app_assoc, Hd, <- !app_assoc, Hf.
Qed.

(** ** Properties *)

(** C20: the circular buffer of a pipe implements a bounded FIFO queue of bytes. Over any
    sequence of read and write attempts, with ends opened and closed in between, every
    attempt has the outcome the queue prescribes: a read of an empty pipe waits, or reports
    end of file when there is no writer, and otherwise takes the oldest bytes, as many as
    were asked for or are there; a write fails when there is no reader, waits when the pipe
    is full, and otherwise adds as many bytes as there is room for. So what was in the pipe
    followed by what the writers delivered equals what the readers received followed by what
    is left, and the pipe never holds more than its capacity. *)
Theorem pipe_fifo pp ops rs pp' :
  ring_ok pp → Forall op_ok ops → run_ops pipe_do pp ops = (rs, pp') →
  run_ops queue_do (abstract_pipe pp) ops = (rs, abstract_pipe pp') ∧
  contents pp ++ delivered ops rs = received rs ++ contents pp' ∧
  zlength (contents pp') ≤ VFS_PIPE_CAP.
Proof.
  intros Hok Hops Hr. pose proof (pipe_run_ok ops pp Hok Hops) as H. rewrite Hr in H.
  destruct H as (? & ? & Hp). split_and!; [done|done|].
  destruct Hp as (_ & _ & ? & _). rewrite contents_length; lia.
Qed.

Lemma fresh_ring : ring_ok fresh_pipe.
Proof. split_and!; [|done..]. unfold zlength, fresh_pipe. cbn [p_buf]. by rewrite repeat_length. Qed.

Definition demo_ops : list pipe_op :=
  [PWrite [1; 2; 3]; PRead 2; PWrite [4]; PRead 9; PRead 1; PEnds 1 0; PRead 1; PEnds 0 1; PWrite [5]].

Lemma pipe_fifo_witness :
  let rs := [RWrite 3; RRead 2 [1; 2]; RWrite 1; RRead 2 [3; 4]; RWait; REnds; RRead 0 []; REnds;
             RWrite (-1)] in
  run_ops queue_do (abstract_pipe fresh_pipe) demo_ops =
    (rs, abstract_pipe (run_ops pipe_do fresh_pipe demo_ops).2).
Proof.
  assert (He : run_ops pipe_do fresh_pipe demo_ops =
    ([RWrite 3; RRead 2 [1; 2]; RWrite 1; RRead 2 [3; 4]; RWait; REnds; RRead 0 []; REnds;
      RWrite (-1)], (run_ops pipe_do fresh_pipe demo_ops).2)) by reflexivity.
  refine (proj1 (pipe_fifo fresh_pipe demo_ops _ _ fresh_ring _ He)).
  repeat constructor; done.
Defined.

(** C34: pipes make progress and report their ends. A read blocks exactly when the pipe is
    empty and a writer is alive, and gives end of file exactly when it is empty and none
    is; a write blocks exactly when the pipe is full and a reader is alive, and fails
    exactly when no reader is. So the two sides never block at once, and a transfer that
    does not block moves as much as it can. *)
Theorem pipe_progress pp count src :
  ring_ok pp → 0 < count → 0 < zlength src →
  (pipe_read_try pp count = None ↔ contents pp = [] ∧ writers pp ≠ 0) ∧
  (pipe_write_try pp src = None ↔ zlength (contents pp) = VFS_PIPE_CAP ∧ readers pp ≠ 0) ∧
  (∀ n out pp', pipe_read_try pp count = Some (n, out, pp') →
     n = Z.min count (zlength (contents pp)) ∧ out = take (Z.to_nat n) (contents pp)) ∧
  (∀ n pp', pipe_write_try pp src = Some (n, pp') →
     n = if readers pp =? 0 then -1
         else Z.min (zlength src) (VFS_PIPE_CAP - zlength (contents pp))).
Proof.
  intros Hok Hc Hs. pose proof Hok as (Hl & Hr & Hu & Hw).
  assert (Hlen := contents_length pp ltac:(lia)).
  assert (Hnil : used pp = 0 ↔ contents pp = []).
  { rewrite <- Hlen. unfold zlength. rewrite <- length_zero_iff_nil. lia. }
  split_and!.
  - unfold pipe_read_try. rewrite <- Hnil. destruct (Z.ltb_spec 0 (used pp)), (Z.eqb_spec (writers pp) 0);
      try destruct (pipe_take _ _); split; intros; try done; lia.
  - unfold pipe_write_try. rewrite Hlen. destruct (Z.eqb_spec (readers pp) 0), (Z.ltb_spec (used pp) VFS_PIPE_CAP);
      try destruct (pipe_fill _ _ _); split; intros; try done; lia.
  - intros n out pp'. by apply read_try_amount.
  - intros n pp'. by apply write_try_amount.
Qed.

Lemma pipe_progress_witness :
  pipe_read_try fresh_pipe 5 = None ↔ contents fresh_pipe = [] ∧ writers fresh_pipe ≠ 0.
Proof. apply (pipe_progress fresh_pipe 5 [7] fresh_ring); done. Defined.
