(* ===== verification/VfsInv.v ===== *)
(** Lifetimes in the descriptor layer: a step relation that interleaves the operations of
    [VfsFd], including transfers in flight, and the invariant that reference counts are
    exact, which gives memory safety and the absence of leaks. *)

From S2P Require Import Prelude VfsFd VfsPipe.

(** ** Sums over lists *)
Definition lsum {A} (f : A → Z) (l : list A) : Z := foldr (λ x n, f x + n) 0 l.

Lemma lsum_app {A} (f : A → Z) l k : lsum f (l ++ k) = lsum f l + lsum f k.
Proof. induction l as [|x l IH]; simpl; [done|]. rewrite IH. lia. Qed.

Lemma lsum_insert {A} (f : A → Z) l i x y :
  l !! i = Some y → lsum f (<[i := x]> l) = lsum f l - f y + f x.
Proof.
  revert i. induction l as [|z l IH]; intros [|i] Hi; simpl in *; try done.
  - injection Hi as ->. lia.
  - rewrite (IH i Hi). lia.
Qed.

Lemma lsum_nonneg {A} (f : A → Z) l : (∀ x, 0 ≤ f x ≤ 1) → 0 ≤ lsum f l ≤ zlength l.
Proof.
  intros Hf. unfold zlength. induction l as [|x l IH]; simpl length; simpl lsum; [lia|].
  specialize (Hf x). lia.
Qed.

Lemma lsum_zero {A} (f : A → Z) l : (∀ x, x ∈ l → f x = 0) → lsum f l = 0.
Proof.
  induction l as [|x l IH]; simpl; [done|]. intros Hf. rewrite Hf by set_solver.
  rewrite IH; [done|]. set_solver.
Qed.

Lemma lsum_pos {A} (f : A → Z) l x :
  (∀ x, 0 ≤ f x ≤ 1) → x ∈ l → f x = 1 → 1 ≤ lsum f l.
Proof.
  intros Hf Hx Hfx. apply list_elem_of_split in Hx as (l1 & l2 & ->).
  rewrite lsum_app. simpl. pose proof (lsum_nonneg f l1 Hf). pose proof (lsum_nonneg f l2 Hf). lia.
Qed.

Section inv.
Context {F V : Type} `{VnodeFs F V}.
Implicit Types (t : vfs F V) (d : open_file V) (ex : list nat).

(** ** The invariant *)

(** References to a description: from the table, and from outside it. *)
Definition entry_refs (o : nat) (e : fd_entry) : Z :=
  cbool (f_used e && bool_decide (f_open e = Some o)).
Definition occ (o o' : nat) : Z := cbool (bool_decide (o' = o)).
Definition refs t ex (o : nat) : Z := lsum (entry_refs o) (fds t) + lsum (occ o) ex.

(** An entry is free, or owned by the task whose window it is in, with a description. *)
Definition entry_ok (s : nat) (e : fd_entry) : Prop :=
  if f_used e then f_owner e = Z.of_nat s / VFS_MAX_FDS ∧ is_Some (f_open e) else f_open e = None.

Definition is_pipe (k : okind) : Prop := k = KIND_PIPE_READ ∨ k = KIND_PIPE_WRITE.

(** The flag of the side of a pipe that an endpoint keeps alive. *)
Definition side (k : okind) (pp : vfs_pipe_t) : Z :=
  match k with KIND_PIPE_READ => readers pp | _ => writers pp end.

Definition endpoint t (k : okind) (p : nat) (o : nat) : Prop :=
  ∃ d, opens t !! o = Some d ∧ kind d = k ∧ o_pipe d = Some p.

Record vinv t ex : Prop := mkInv {
  inv_table : zlength (fds t) = MAX_TASKS * VFS_MAX_FDS;
  inv_entries : ∀ s e, fds t !! s = Some e → entry_ok s e;
  inv_refs : ∀ o d, opens t !! o = Some d → refcount d = refs t ex o ∧ 0 < refcount d < 2 ^ 32;
  inv_live : ∀ o, 0 < refs t ex o → is_Some (opens t !! o);
  inv_fresh : ∀ o, is_Some (opens t !! o) → (o < next_id t)%nat;
  inv_fresh_pipe : ∀ p, is_Some (pipes t !! p) → (p < next_id t)%nat;
  inv_end : ∀ o d, opens t !! o = Some d → is_pipe (kind d) →
    ∃ p pp, o_pipe d = Some p ∧ pipes t !! p = Some pp ∧ side (kind d) pp = 1;
  inv_one_end : ∀ k p o1 o2, is_pipe k → endpoint t k p o1 → endpoint t k p o2 → o1 = o2;
  inv_pipe : ∀ p pp, pipes t !! p = Some pp →
    ring_ok pp ∧ ¬ (readers pp = 0 ∧ writers pp = 0) ∧
    ∀ k, is_pipe k → side k pp = 0 ∨ (side k pp = 1 ∧ ∃ o, endpoint t k p o)
}.

(** ** Elementary facts *)
Lemma entry_refs_01 o e : 0 ≤ entry_refs o e ≤ 1.
Proof. unfold entry_refs. by destruct (f_used e && _). Qed.
Lemma occ_01 o o' : 0 ≤ occ o o' ≤ 1.
Proof. unfold occ. by destruct (bool_decide _). Qed.

Lemma refs_nonneg t ex o : 0 ≤ refs t ex o ≤ zlength (fds t) + zlength ex.
Proof.
  unfold refs. pose proof (lsum_nonneg (entry_refs o) (fds t) (entry_refs_01 o)).
  pose proof (lsum_nonneg (occ o) ex (occ_01 o)). lia.
Qed.

Lemma refs_cons t ex o o' : refs t (o' :: ex) o = refs t ex o + occ o o'.
Proof. unfold refs. simpl. lia. Qed.

Lemma occ_same o : occ o o = 1.
Proof. unfold occ. by rewrite bool_decide_eq_true_2. Qed.
Lemma occ_other o o' : o' ≠ o → occ o o' = 0.
Proof. intros. unfold occ. by rewrite bool_decide_eq_false_2. Qed.

Lemma refs_perm t ex ex' o : ex ≡ₚ ex' → refs t ex o = refs t ex' o.
Proof. intros Hp. unfold refs. f_equal. induction Hp; simpl; lia. Qed.

Lemma vinv_perm t ex ex' : ex ≡ₚ ex' → vinv t ex → vinv t ex'.
Proof.
  intros Hp [? ? Hr Hl ? ? ? ? ?]. split; try done; intros o; rewrite <- (refs_perm t ex ex') by done;
    [apply Hr|apply Hl].
Qed.

(** A description with an outside reference is live. *)
Lemma ex_live t ex o : vinv t (o :: ex) → is_Some (opens t !! o).
Proof.
  intros Hi. apply (inv_live _ _ Hi). rewrite refs_cons, occ_same. pose proof (refs_nonneg t ex o). lia.
Qed.

(** A change of counts: descriptions keep their kind and their pipe. *)
Lemma vinv_counts t t' ex ex' :
  vinv t ex → zlength (fds t') = zlength (fds t) →
  (∀ s e, fds t' !! s = Some e → entry_ok s e) →
  pipes t' = pipes t → (next_id t ≤ next_id t')%nat →
  (∀ o, (λ d, (kind d, o_pipe d)) <$> opens t' !! o = (λ d, (kind d, o_pipe d)) <$> opens t !! o) →
  (∀ o d', opens t' !! o = Some d' → refcount d' = refs t' ex' o ∧ 0 < refcount d' < 2 ^ 32) →
  (∀ o, 0 < refs t' ex' o → is_Some (opens t !! o)) →
  vinv t' ex'.
Proof.
  intros [Ht He Hr Hl Hf Hfp Hen Hone Hp] Hfd He' Hpi Hnx Ho Hr' Hl'.
  assert (Hback : ∀ o d', opens t' !! o = Some d' → ∃ d, opens t !! o = Some d ∧
     kind d' = kind d ∧ o_pipe d' = o_pipe d).
  { intros o d' Hd'. specialize (Ho o). rewrite Hd' in Ho.
    destruct (opens t !! o) as [d|]; [|done]. exists d. injection Ho as -> ->. done. }
  assert (Hfwd : ∀ o, is_Some (opens t !! o) → is_Some (opens t' !! o)).
  { intros o [d Hd]. specialize (Ho o). rewrite Hd in Ho.
    destruct (opens t' !! o); [by eexists|done]. }
  assert (Hep : ∀ k p o, endpoint t' k p o ↔ endpoint t k p o).
  { intros k p o. specialize (Ho o). unfold endpoint.
    destruct (opens t' !! o) as [d'|], (opens t !! o) as [d|]; try done.
    injection Ho as Hk Hpp. split; intros (? & [= <-] & ? & ?); eexists; (split; [done|]);
        split; congruence. }
  split; rewrite ?Hfd, ?Hpi; try done.
  - intros o Hro. apply Hfwd, Hl', Hro.
  - intros o [d' Hd']. destruct (Hback o d' Hd') as (d & Hd & _).
    pose proof (Hf o ltac:(by eexists)). lia.
  - intros p Hpp. specialize (Hfp p Hpp). lia.
  - intros o d' Hd'. destruct (Hback o d' Hd') as (d & Hd & -> & ->). exact (Hen o d Hd).
  - intros k p o1 o2 Hk. rewrite !Hep. exact (Hone k p o1 o2 Hk).
  - intros p pp Hpp. destruct (Hp p pp Hpp) as (? & ? & Hs). split_and!; [done..|].
    intros k Hk. destruct (Hs k Hk) as [?|(? & o & ?)]; [by left|right]. split; [done|].
    exists o. by apply Hep.
Qed.

(** A change that keeps the table, and each description's count, kind and pipe. *)
Lemma vinv_same t t' ex :
  vinv t ex → fds t' = fds t → pipes t' = pipes t → (next_id t ≤ next_id t')%nat →
  (∀ o, (λ d, (refcount d, kind d, o_pipe d)) <$> opens t' !! o
        = (λ d, (refcount d, kind d, o_pipe d)) <$> opens t !! o) →
  vinv t' ex.
Proof.
  intros Hi Hfd Hpi Hnx Ho.
  assert (Hrefs : ∀ o, refs t' ex o = refs t ex o) by (intros; unfold refs; by rewrite Hfd).
  apply (vinv_counts t t' ex ex); rewrite ?Hfd; try done.
  - apply (inv_entries _ _ Hi).
  - intros o. specialize (Ho o). destruct (opens t' !! o), (opens t !! o); try done.
    simpl in *. by injection Ho as _ -> ->.
  - intros o d' Hd'. rewrite Hrefs. specialize (Ho o). rewrite Hd' in Ho.
    destruct (opens t !! o) as [d|] eqn:Hd; [|done]. injection Ho as -> _ _.
    exact (inv_refs _ _ Hi o d Hd).
  - intros o. rewrite Hrefs. apply (inv_live _ _ Hi).
Qed.

Lemma vinv_filesys t ex fl : vinv t ex → vinv (set_filesys fl t) ex.
Proof. intros Hi. by apply (vinv_same t). Qed.

(** Updating a description in place. *)
Lemma vinv_update t ex o d d' :
  vinv t ex → opens t !! o = Some d →
  refcount d' = refcount d → kind d' = kind d → o_pipe d' = o_pipe d →
  vinv (set_opens (<[o := d']> (opens t)) t) ex.
Proof.
  intros Hi Hd Hc Hk Hp. apply (vinv_same t); try done. intros o'. simpl.
  destruct (decide (o' = o)) as [->|].
  - rewrite lookup_insert_eq, Hd. simpl. by rewrite Hc, Hk, Hp.
  - by rewrite lookup_insert_ne.
Qed.

(** ** References *)
Lemma open_get_ok t ex o :
  vinv t ex → is_Some (opens t !! o) → zlength ex < 2 ^ 31 → vinv (open_get o t) (o :: ex).
Proof.
  intros Hi Hlive Hex. pose proof (inv_table _ _ Hi) as Ht.
  assert (Hrefs : ∀ o', refs (open_get o t) (o :: ex) o' = refs t ex o' + occ o' o).
  { intros o'. by rewrite <- refs_cons. }
  apply (vinv_counts t _ ex); try done.
  - apply (inv_entries _ _ Hi).
  - intros o'. simpl. destruct (decide (o' = o)) as [->|].
    + rewrite lookup_alter_eq. by destruct (opens t !! o).
    + by rewrite lookup_alter_ne.
  - intros o' d'. rewrite Hrefs. simpl. pose proof (refs_nonneg t ex o') as Hb.
    rewrite Ht in Hb. unfold MAX_TASKS, VFS_MAX_FDS in Hb. destruct (decide (o' = o)) as [->|].
    + rewrite lookup_alter_eq. destruct Hlive as [d Hd]. rewrite Hd. simpl. intros [= <-].
      destruct (inv_refs _ _ Hi o d Hd) as [Hc Hr]. rewrite occ_same. simpl.
      rewrite u32_id; lia.
    + rewrite lookup_alter_ne by done. intros Hd'. rewrite occ_other by done. rewrite Z.add_0_r.
      exact (inv_refs _ _ Hi o' d' Hd').
  - intros o'. rewrite Hrefs. destruct (decide (o' = o)) as [->|]; [done|].
    rewrite occ_other by done. rewrite Z.add_0_r. apply (inv_live _ _ Hi).
Qed.

(** Replacing an entry of the table, whose references move to or from outside. *)
Lemma fd_swap_ok t ex ex' s old new :
  vinv t ex → fds t !! Z.to_nat s = Some old → entry_ok (Z.to_nat s) new →
  (∀ o, entry_refs o new + lsum (occ o) ex' = entry_refs o old + lsum (occ o) ex) →
  vinv (fd_put s new t) ex'.
Proof.
  intros Hi Hs Hok Hsum.
  assert (Hrefs : ∀ o, refs (fd_put s new t) ex' o = refs t ex o).
  { intros o. unfold refs. simpl. rewrite (lsum_insert _ _ _ _ _ Hs). specialize (Hsum o). lia. }
  apply (vinv_counts t _ ex); try done.
  - simpl. unfold zlength. by rewrite length_insert.
  - simpl. intros s' e. rewrite list_lookup_insert_Some.
    intros [(<- & <- & _)|(_ & He)]; [done|]. exact (inv_entries _ _ Hi s' e He).
  - intros o d Hd. rewrite Hrefs. exact (inv_refs _ _ Hi o d Hd).
  - intros o. rewrite Hrefs. apply (inv_live _ _ Hi).
Qed.

Lemma entry_refs_of u fl o o' : entry_refs o' (mkFd true u fl (Some o)) = occ o' o.
Proof. unfold entry_refs, occ. simpl. repeat case_bool_decide; try done; congruence. Qed.

Lemma entry_refs_free o' u fl : entry_refs o' (mkFd false u fl None) = 0.
Proof. done. Qed.
(** ** Slots *)
Lemma slot_of_ok task fd :
  slot_of task fd = -1 ∨
  (0 ≤ task < MAX_TASKS ∧ 0 ≤ fd < VFS_MAX_FDS ∧ slot_of task fd = task * VFS_MAX_FDS + fd).
Proof. unfold slot_of. zcase; lia. Qed.

Lemma slot_lookup t ex task i :
  vinv t ex → 0 ≤ task < MAX_TASKS → 0 ≤ i < VFS_MAX_FDS →
  fds t !! Z.to_nat (task * VFS_MAX_FDS + i) = Some (fd_at t (task * VFS_MAX_FDS + i)) ∧
  Z.of_nat (Z.to_nat (task * VFS_MAX_FDS + i)) / VFS_MAX_FDS = task.
Proof.
  intros Hi Htask Hfd. pose proof (inv_table _ _ Hi) as Ht.
  unfold MAX_TASKS, VFS_MAX_FDS, zlength in *. split; [|zdiv].
  unfold fd_at. destruct (lookup_lt_is_Some_2 (fds t) (Z.to_nat (task * 16 + i))) as [e ->]; [lia|done].
Qed.

(** The outside reference [o] moves into a free slot. *)
Lemma install_ok t ex o task i fl :
  vinv t (o :: ex) → 0 ≤ task < MAX_TASKS → 0 ≤ i < VFS_MAX_FDS →
  f_used (fd_at t (task * VFS_MAX_FDS + i)) = false →
  vinv (fd_put (task * VFS_MAX_FDS + i) (mkFd true task fl (Some o)) t) ex.
Proof.
  intros Hi Htask Hfd Hu. destruct (slot_lookup t _ task i Hi Htask Hfd) as [Hs Ho].
  apply (fd_swap_ok t (o :: ex) ex _ _ _ Hi Hs).
  - by split; [|eexists].
  - intros o'. rewrite entry_refs_of. unfold entry_refs. rewrite Hu. simpl. lia.
Qed.

(** The reference of a slot moves outside. *)
Lemma uninstall_ok t ex o task i w :
  vinv t ex → 0 ≤ task < MAX_TASKS → 0 ≤ i < VFS_MAX_FDS →
  f_used (fd_at t (task * VFS_MAX_FDS + i)) = true →
  f_open (fd_at t (task * VFS_MAX_FDS + i)) = Some o →
  vinv (fd_put (task * VFS_MAX_FDS + i) (mkFd false w 0 None) t) (o :: ex).
Proof.
  intros Hi Htask Hfd Hu Hop. destruct (slot_lookup t _ task i Hi Htask Hfd) as [Hs Ho].
  apply (fd_swap_ok t ex (o :: ex) _ _ _ Hi Hs); [done|].
  intros o'. rewrite entry_refs_free. unfold entry_refs. rewrite Hu, Hop. unfold occ. simpl.
  repeat case_bool_decide; simpl; try lia; congruence.
Qed.

(** A slot exchanges its reference with the outside one. *)
Lemma exchange_ok t ex o old task i fl :
  vinv t (o :: ex) → 0 ≤ task < MAX_TASKS → 0 ≤ i < VFS_MAX_FDS →
  f_used (fd_at t (task * VFS_MAX_FDS + i)) = true →
  f_open (fd_at t (task * VFS_MAX_FDS + i)) = Some old →
  vinv (fd_put (task * VFS_MAX_FDS + i) (mkFd true task fl (Some o)) t) (old :: ex).
Proof.
  intros Hi Htask Hfd Hu Hop. destruct (slot_lookup t _ task i Hi Htask Hfd) as [Hs Ho].
  apply (fd_swap_ok t (o :: ex) (old :: ex) _ _ _ Hi Hs); [by split; [|eexists]|].
  intros o'. rewrite entry_refs_of. unfold entry_refs. rewrite Hu, Hop. unfold occ. simpl.
  repeat case_bool_decide; simpl; try lia; congruence.
Qed.

Lemma entry_live t ex task i o :
  vinv t ex → 0 ≤ task < MAX_TASKS → 0 ≤ i < VFS_MAX_FDS →
  f_used (fd_at t (task * VFS_MAX_FDS + i)) = true →
  f_open (fd_at t (task * VFS_MAX_FDS + i)) = Some o → is_Some (opens t !! o).
Proof.
  intros Hi Htask Hfd Hu Hop. destruct (slot_lookup t _ task i Hi Htask Hfd) as [Hs _].
  apply (inv_live _ _ Hi). unfold refs. pose proof (lsum_nonneg (occ o) ex (occ_01 o)).
  assert (1 ≤ lsum (entry_refs o) (fds t)); [|lia].
  apply (lsum_pos _ _ (fd_at t (task * VFS_MAX_FDS + i))); [apply entry_refs_01| |].
  - by apply (list_elem_of_lookup_2 _ _ _ Hs).
  - unfold entry_refs. rewrite Hu, Hop. by rewrite bool_decide_eq_true_2.
Qed.

(** A resolved descriptor. *)
Lemma owned_open_ok t ex task i o :
  vinv t ex → owned_open t task (slot_of task i) = Some o →
  0 ≤ task < MAX_TASKS ∧ 0 ≤ i < VFS_MAX_FDS ∧ slot_of task i = task * VFS_MAX_FDS + i ∧
  f_used (fd_at t (task * VFS_MAX_FDS + i)) = true ∧
  f_open (fd_at t (task * VFS_MAX_FDS + i)) = Some o ∧ is_Some (opens t !! o).
Proof.
  intros Hi. unfold owned_open. destruct (slot_of_ok task i) as [->|(? & ? & ->)]; [done|].
  destruct (Z.ltb_spec (task * VFS_MAX_FDS + i) 0); [done|].
  destruct (f_used (fd_at t _)) eqn:Hu; [|done]. destruct (f_owner _ =? task); [|done].
  simpl. intros Ho. split_and!; try done; try lia. by apply (entry_live t ex task i).
Qed.

(** ** Freeing *)

(** Removing the description that held the last reference, with the pipes given. *)
Lemma remove_ok t ex o d ps :
  vinv t (o :: ex) → opens t !! o = Some d → refcount d = 1 →
  (∀ p, is_Some (ps !! p) → is_Some (pipes t !! p)) →
  (∀ o' d', o' ≠ o → opens t !! o' = Some d' → is_pipe (kind d') →
     ∃ p pp, o_pipe d' = Some p ∧ ps !! p = Some pp ∧ side (kind d') pp = 1) →
  (∀ p pp, ps !! p = Some pp →
     ring_ok pp ∧ ¬ (readers pp = 0 ∧ writers pp = 0) ∧
     ∀ k, is_pipe k → side k pp = 0 ∨ (side k pp = 1 ∧ ∃ o', o' ≠ o ∧ endpoint t k p o')) →
  vinv (set_opens (delete o (opens t)) (set_pipes ps t)) ex.
Proof.
  intros Hi Hd H1 Hsub Hend Hps.
  assert (Hz : refs t ex o = 0).
  { destruct (inv_refs _ _ Hi o d Hd) as [Hc _]. rewrite refs_cons, occ_same in Hc. lia. }
  assert (Hne : ∀ o', o' ≠ o → refs t ex o' = refs t (o :: ex) o').
  { intros o' ?. rewrite refs_cons, occ_other by done. lia. }
  split; simpl.
  - apply (inv_table _ _ Hi).
  - apply (inv_entries _ _ Hi).
  - intros o' d'. rewrite lookup_delete_Some. intros [? Hd'].
    change (refs _ ex o') with (refs t ex o'). rewrite Hne by done. exact (inv_refs _ _ Hi o' d' Hd').
  - intros o'. change (refs _ ex o') with (refs t ex o'). intros Hp.
    destruct (decide (o' = o)) as [->|]; [lia|]. rewrite lookup_delete_ne by done.
    apply (inv_live _ _ Hi). by rewrite <- Hne.
  - intros o' [d' Hd']. apply lookup_delete_Some in Hd' as [_ Hd']. apply (inv_fresh _ _ Hi). by eexists.
  - intros p Hp. by apply (inv_fresh_pipe _ _ Hi), Hsub.
  - intros o' d'. rewrite lookup_delete_Some. intros [? Hd']. by apply (Hend o').
  - intros k p o1 o2 Hk (d1 & Hd1 & ? & ?) (d2 & Hd2 & ? & ?). simpl in *.
    apply lookup_delete_Some in Hd1 as [_ Hd1], Hd2 as [_ Hd2].
    apply (inv_one_end _ _ Hi k p); [done|by exists d1|by exists d2].
  - intros p pp Hp. destruct (Hps p pp Hp) as (? & ? & Hk). split_and!; [done..|].
    intros k Hpk. destruct (Hk k Hpk) as [?|(? & o' & ? & d' & ? & ?)]; [by left|right].
    split; [done|]. exists o', d'. simpl. by rewrite lookup_delete_ne.
Qed.

Lemma remove_plain t ex o d :
  vinv t (o :: ex) → opens t !! o = Some d → refcount d = 1 → ¬ is_pipe (kind d) →
  vinv (set_opens (delete o (opens t)) t) ex.
Proof.
  intros Hi Hd H1 Hk. apply (remove_ok t ex o d (pipes t)); try done.
  - intros o' d' _ Hd'. exact (inv_end _ _ Hi o' d' Hd').
  - intros p pp Hp. destruct (inv_pipe _ _ Hi p pp Hp) as (? & ? & Hs). split_and!; [done..|].
    intros k Hpk. destruct (Hs k Hpk) as [?|(? & o' & He)]; [by left|right]. split; [done|].
    exists o'. split; [|done]. intros ->. destruct He as (d'' & Hd'' & Hk'' & _).
    rewrite Hd in Hd''. injection Hd'' as <-. by rewrite Hk'' in Hk.
Qed.
(** Closing a side of a pipe. *)
Definition closed (k : okind) (pp : vfs_pipe_t) : vfs_pipe_t :=
  if decide (k = KIND_PIPE_READ)
  then mkPipe (p_buf pp) (rpos pp) (wpos pp) (used pp) 0 (writers pp)
  else mkPipe (p_buf pp) (rpos pp) (wpos pp) (used pp) (readers pp) 0.

Lemma closed_facts k pp :
  is_pipe k → ring_ok pp →
  ring_ok (closed k pp) ∧ side k (closed k pp) = 0 ∧
  (∀ k', is_pipe k' → k' ≠ k → side k' (closed k pp) = side k' pp) ∧
  (∀ k', is_pipe k' → side k' (closed k pp) = 1 →
         ¬ (readers (closed k pp) = 0 ∧ writers (closed k pp) = 0)).
Proof.
  intros [-> | ->] Hr; unfold closed; simpl; split_and!; try done.
  - by intros ? [-> | ->].
  - intros ? [-> | ->]; simpl; lia.
  - by intros ? [-> | ->].
  - intros ? [-> | ->]; simpl; lia.
Qed.

Definition pipes_after (k : okind) (p : nat) (pp : vfs_pipe_t) (m : gmap nat vfs_pipe_t)
    : gmap nat vfs_pipe_t :=
  if (readers (closed k pp) =? 0) && (writers (closed k pp) =? 0) then delete p m
  else <[p := closed k pp]> m.

Lemma pipe_end_closed_eq t p k pp :
  pipes t !! p = Some pp → pipe_end_closed p k t = set_pipes (pipes_after k p pp (pipes t)) t.
Proof.
  intros Hp. unfold pipe_end_closed, pipes_after, closed. rewrite Hp.
  destruct (decide (k = KIND_PIPE_READ)); by destruct (_ && _).
Qed.

Lemma pipes_after_other k p pp m p' : p' ≠ p → pipes_after k p pp m !! p' = m !! p'.
Proof.
  intros ?. unfold pipes_after. destruct (_ && _);
    [by rewrite lookup_delete_ne|by rewrite lookup_insert_ne].
Qed.

Lemma pipes_after_same k p pp m pp' :
  pipes_after k p pp m !! p = Some pp' →
  pp' = closed k pp ∧ ¬ (readers (closed k pp) = 0 ∧ writers (closed k pp) = 0).
Proof.
  unfold pipes_after. destruct (_ && _) eqn:Hz; [by rewrite lookup_delete_eq|].
  rewrite lookup_insert_eq. intros [= <-]. split; [done|]. intros [H1 H2].
  by rewrite H1, H2 in Hz.
Qed.

Lemma pipes_after_keeps k p pp m :
  ¬ (readers (closed k pp) = 0 ∧ writers (closed k pp) = 0) →
  pipes_after k p pp m !! p = Some (closed k pp).
Proof.
  intros Hz. unfold pipes_after.
  destruct (Z.eqb_spec (readers (closed k pp)) 0), (Z.eqb_spec (writers (closed k pp)) 0);
    simpl; [by exfalso; apply Hz|by rewrite lookup_insert_eq..].
Qed.

Lemma remove_end t ex o d p pp :
  vinv t (o :: ex) → opens t !! o = Some d → refcount d = 1 → is_pipe (kind d) →
  o_pipe d = Some p → pipes t !! p = Some pp →
  vinv (set_opens (delete o (opens t)) (set_pipes (pipes_after (kind d) p pp (pipes t)) t)) ex.
Proof.
  intros Hi Hd H1 Hk Hop Hpp. destruct (inv_pipe _ _ Hi p pp Hpp) as (Hring & _ & Hs).
  destruct (closed_facts (kind d) pp Hk Hring) as (Hring' & Hside & Hsame & Hne).
  assert (Hself : endpoint t (kind d) p o) by (by exists d).
  apply (remove_ok t ex o d); try done.
  - intros p'. destruct (decide (p' = p)) as [->|]; [by intros _; eexists|].
    by rewrite pipes_after_other.
  - intros o' d' Ho' Hd' Hk'. destruct (inv_end _ _ Hi o' d' Hd' Hk') as (p' & pp' & Hop' & Hp' & Hs').
    exists p'. destruct (decide (p' = p)) as [->|].
    + rewrite Hpp in Hp'. injection Hp' as <-. assert (kind d' ≠ kind d) as Hkk.
      { intros Heq. apply Ho', (inv_one_end _ _ Hi (kind d) p); [done| |done].
        rewrite <- Heq. by exists d'. }
      assert (side (kind d') (closed (kind d) pp) = 1) as Hs1 by (by rewrite Hsame).
      eexists. split_and!; [done|apply pipes_after_keeps, (Hne _ Hk' Hs1)|done].
    + exists pp'. by rewrite pipes_after_other.
  - intros p' pp' Hp'. destruct (decide (p' = p)) as [->|].
    + apply pipes_after_same in Hp' as [-> Hz]. split_and!; [done..|]. intros k Hpk.
      destruct (decide (k = kind d)) as [->|]; [by left|]. rewrite Hsame by done.
      destruct (Hs k Hpk) as [?|(? & o' & He)]; [by left|right]. split; [done|].
      exists o'. split; [|done]. intros ->. destruct He as (d'' & Hd'' & <- & _). congruence.
    + rewrite pipes_after_other in Hp' by done.
      destruct (inv_pipe _ _ Hi p' pp' Hp') as (? & ? & Hs2). split_and!; [done..|].
      intros k Hpk. destruct (Hs2 k Hpk) as [?|(? & o' & He)]; [by left|right]. split; [done|].
      exists o'. split; [|done]. intros ->. destruct He as (d'' & Hd'' & _ & Hx). congruence.
Qed.

Lemma dropped_counts t ex o d :
  vinv t (o :: ex) → opens t !! o = Some d → u32 (refcount d - 1) ≠ 0 →
  vinv (set_opens (<[o := o_set_ref (u32 (refcount d - 1)) d]> (opens t)) t) ex.
Proof.
  intros Hi Hd Hl. destruct (inv_refs _ _ Hi o d Hd) as [Hc Hb].
  rewrite refs_cons, occ_same in Hc. rewrite u32_id in * by lia.
  apply (vinv_counts t _ (o :: ex)); try done.
  - apply (inv_entries _ _ Hi).
  - intros o'. simpl. destruct (decide (o' = o)) as [->|].
    + by rewrite lookup_insert_eq, Hd.
    + by rewrite lookup_insert_ne.
  - intros o' d'. simpl. change (refs _ ex o') with (refs t ex o').
    rewrite lookup_insert_Some. intros [[<- <-]|[Ho' Hd']]; [simpl; lia|].
    destruct (inv_refs _ _ Hi o' d' Hd') as [Hc' Hb']. rewrite refs_cons, occ_other in Hc' by done. lia.
  - intros o'. change (refs _ ex o') with (refs t ex o'). intros Hp. apply (inv_live _ _ Hi).
    rewrite refs_cons. pose proof (occ_01 o' o). lia.
Qed.

Lemma open_put_ok t ex o : vinv t (o :: ex) → vinv (open_put o t) ex.
Proof.
  intros Hi. destruct (ex_live t ex o Hi) as [d Hd]. unfold open_put. rewrite Hd.
  destruct (Z.eqb_spec (u32 (refcount d - 1)) 0) as [Hz|Hz]; simpl; [|by apply dropped_counts].
  assert (H1 : refcount d = 1).
  { destruct (inv_refs _ _ Hi o d Hd) as [_ Hb]. rewrite u32_id in Hz by lia. lia. }
  destruct (kind d) eqn:Hk.
  3,4: destruct (inv_end _ _ Hi o d Hd) as (p & pp & Hop & Hpp & _); [rewrite Hk; by (left + right)|];
    rewrite Hop, (pipe_end_closed_eq _ _ _ _ Hpp), <- Hk;
    apply (remove_end t ex o d p pp); try done; rewrite Hk; by (left + right).
  1: apply (remove_plain t ex o d); try done; rewrite Hk; by intros [|].
  all: destruct (o_vnode d) as [v|];
    [apply (remove_plain (set_filesys _ t) ex o d); [by apply vinv_filesys|done|done|]
    |apply (remove_plain t ex o d); [done..|]]; rewrite Hk; by intros [|].
Qed.
(** ** Allocation *)
Lemma vmalloc_ok t r t' :
  vmalloc t = (r, t') →
  fds t' = fds t ∧ opens t' = opens t ∧ pipes t' = pipes t ∧ (next_id t ≤ next_id t')%nat ∧
  (∀ o, r = Some o → o = next_id t ∧ next_id t' = Datatypes.S o).
Proof.
  unfold vmalloc. destruct (vheap t) as [|[|] h]; intros [= <- <-]; simpl; split_and!; try done;
    try lia; by intros ? [= <-].
Qed.

Lemma vinv_fields t t' ex :
  vinv t ex → fds t' = fds t → opens t' = opens t → pipes t' = pipes t →
  (next_id t ≤ next_id t')%nat → vinv t' ex.
Proof. intros Hi ? Ho ??. apply (vinv_same t); try done. intros o. by rewrite Ho. Qed.

Lemma fresh_open t ex o : vinv t ex → (next_id t ≤ o)%nat → opens t !! o = None ∧ refs t ex o = 0.
Proof.
  intros Hi Ho. assert (Hn : opens t !! o = None).
  { destruct (opens t !! o) eqn:He; [|done]. pose proof (inv_fresh _ _ Hi o ltac:(by eexists)). lia. }
  split; [done|]. pose proof (refs_nonneg t ex o).
  destruct (decide (0 < refs t ex o)) as [Hp|]; [|lia].
  destruct (inv_live _ _ Hi o Hp). congruence.
Qed.

Lemma fresh_pipe_none t ex p : vinv t ex → (next_id t ≤ p)%nat → pipes t !! p = None.
Proof.
  intros Hi Hp. destruct (pipes t !! p) eqn:He; [|done].
  pose proof (inv_fresh_pipe _ _ Hi p ltac:(by eexists)). lia.
Qed.

Lemma open_alloc_ok t ex k path v pos flags r t' :
  vinv t ex → ¬ is_pipe k → open_alloc k path v pos flags t = (r, t') →
  fds t' = fds t ∧
  match r with
  | None => vinv t' ex
  | Some o => vinv t' (o :: ex) ∧
      opens t' !! o = Some (mkOf 1 k (take (VFS_MAX_PATH - 1) path) v pos flags None)
  end.
Proof.
  intros Hi Hk. unfold open_alloc. destruct (vmalloc t) as [ro t1] eqn:Hm.
  apply vmalloc_ok in Hm as (Hf & Ho & Hp & Hn & Hr).
  assert (Hi1 : vinv t1 ex) by (by apply (vinv_fields t)).
  destruct ro as [o|]; intros [= <- <-]; [|done].
  destruct (Hr o eq_refl) as [-> Hnx]. clear Hr. split; [done|]. split; [|by simpl; rewrite lookup_insert_eq].
  destruct (fresh_open t ex (next_id t) Hi ltac:(lia)) as [Hno Hz]. rewrite <- Ho in Hno.
  set (dd := mkOf _ _ _ _ _ _ _). assert (Hdd : refcount dd = 1 ∧ kind dd = k) by done. clearbody dd.
  assert (Hrefs : ∀ o', refs t1 ex o' = refs t ex o') by (intros; unfold refs; by rewrite Hf).
  assert (Hep : ∀ k' p o', is_pipe k' →
    (endpoint (set_opens (<[next_id t := dd]> (opens t1)) t1) k' p o' ↔ endpoint t1 k' p o')).
  { intros k' p o' Hk'. unfold endpoint. simpl. destruct (decide (o' = next_id t)) as [->|].
    - rewrite lookup_insert_eq, Hno. split; [|by intros (? & ? & _)].
      intros (? & [= <-] & Hx & _). destruct Hdd as [_ Hkk]. congruence.
    - by rewrite lookup_insert_ne. }
  destruct Hdd as [Hd1 Hdk]. split; simpl.
  - apply (inv_table _ _ Hi1).
  - apply (inv_entries _ _ Hi1).
  - intros o' d'. rewrite refs_cons. change (refs (set_opens _ t1) ex o') with (refs t1 ex o').
    rewrite Hrefs, lookup_insert_Some. intros [[<- <-]|[Ho' Hd']].
    + rewrite occ_same, Hz, Hd1. lia.
    + rewrite occ_other by done. rewrite Ho in Hd'. pose proof (inv_refs _ _ Hi o' d' Hd'). lia.
  - intros o'. rewrite refs_cons. change (refs (set_opens _ t1) ex o') with (refs t1 ex o').
    rewrite lookup_insert. case_decide as Hx; [by eexists|]. rewrite occ_other, Z.add_0_r by done.
    apply (inv_live _ _ Hi1).
  - intros o'. rewrite lookup_insert. case_decide as Hx; [lia|]. apply (inv_fresh _ _ Hi1).
  - apply (inv_fresh_pipe _ _ Hi1).
  - intros o' d'. rewrite lookup_insert_Some. intros [[_ <-]|[_ Hd']]; [by rewrite Hdk|].
    exact (inv_end _ _ Hi1 o' d' Hd').
  - intros k' p o1 o2 Hk'. rewrite !Hep by done. exact (inv_one_end _ _ Hi1 k' p o1 o2 Hk').
  - intros p pp Hpp. destruct (inv_pipe _ _ Hi1 p pp Hpp) as (? & ? & Hs). split_and!; [done..|].
    intros k' Hk'. destruct (Hs k' Hk') as [?|(? & o' & He)]; [by left|right]. split; [done|].
    exists o'. by apply Hep.
Qed.
(** A fresh pipe with its two fresh endpoints. *)
Lemma pair_ok t t' ex p ro wo dr dw :
  vinv t ex → fds t' = fds t → (next_id t ≤ next_id t')%nat →
  pipes t' = <[p := fresh_pipe]> (pipes t) → opens t' = <[wo := dw]> (<[ro := dr]> (opens t)) →
  ro ≠ wo → Forall (λ x, next_id t ≤ x < next_id t')%nat [p; ro; wo] →
  refcount dr = 1 → kind dr = KIND_PIPE_READ → o_pipe dr = Some p →
  refcount dw = 1 → kind dw = KIND_PIPE_WRITE → o_pipe dw = Some p →
  vinv t' (ro :: wo :: ex).
Proof.
  intros Hi Hf Hnx Hpi Hop Hne Hfr Hr1 Hrk Hrp Hw1 Hwk Hwp.
  rewrite !Forall_cons in Hfr. destruct Hfr as ([Hp1 Hp2] & [Hro1 Hro2] & [Hwo1 Hwo2] & _).
  destruct (fresh_open t ex ro Hi Hro1) as [Hno Hzo], (fresh_open t ex wo Hi Hwo1) as [Hnw Hzw].
  pose proof (fresh_pipe_none t ex p Hi Hp1) as Hnp.
  assert (Hrefs : ∀ o, refs t' (ro :: wo :: ex) o = refs t ex o + occ o ro + occ o wo).
  { intros o. rewrite !refs_cons. unfold refs. rewrite Hf. lia. }
  assert (Hlk : ∀ o d, opens t' !! o = Some d ↔
     (o = wo ∧ d = dw) ∨ (o = ro ∧ d = dr) ∨ (o ≠ wo ∧ o ≠ ro ∧ opens t !! o = Some d)).
  { intros o d. rewrite Hop, !lookup_insert_Some. naive_solver. }
  assert (Hep : ∀ k q o, endpoint t' k q o ↔
     (o = ro ∧ k = KIND_PIPE_READ ∧ q = p) ∨ (o = wo ∧ k = KIND_PIPE_WRITE ∧ q = p) ∨
     endpoint t k q o).
  { intros k q o. unfold endpoint. setoid_rewrite Hlk. split.
    - intros (d & [[-> ->]|[[-> ->]|(? & ? & ?)]] & ? & ?); [right; left|left|right; right];
        [split_and!; congruence..|by exists d].
    - intros [(-> & -> & ->)|[(-> & -> & ->)|(d & Hd & ? & ?)]];
        [exists dr; naive_solver|exists dw; naive_solver|exists d].
      split_and!; try done. right. right. split_and!; try done; intros ->; congruence. }
  assert (Hnot : ∀ k o, is_pipe k → ¬ endpoint t k p o).
  { intros k o Hk (d & Hd & Hkd & Hpd). destruct (inv_end _ _ Hi o d Hd) as (q & pp & Hq & Hqq & _).
    - by rewrite Hkd.
    - congruence. }
  split; rewrite ?Hf; try apply Hi.
  - intros o d. rewrite Hrefs, Hlk. intros [[-> ->]|[[-> ->]|(? & ? & Hd)]].
    + rewrite occ_same, occ_other by done. lia.
    + rewrite occ_same, occ_other by done. lia.
    + rewrite !occ_other by done. pose proof (inv_refs _ _ Hi o d Hd). lia.
  - intros o. rewrite Hrefs, Hop, lookup_insert. case_decide; [by eexists|].
    rewrite lookup_insert. case_decide; [by eexists|]. rewrite !occ_other, !Z.add_0_r by done.
    apply (inv_live _ _ Hi).
  - intros o [d Hd]. apply Hlk in Hd as [[-> _]|[[-> _]|(_ & _ & Hd)]]; [done..|].
    pose proof (inv_fresh _ _ Hi o ltac:(by eexists)). lia.
  - intros q. rewrite Hpi, lookup_insert. case_decide as Hx; [by subst|].
    intros Hq. pose proof (inv_fresh_pipe _ _ Hi q Hq). lia.
  - intros o d Hd Hk. apply Hlk in Hd as [[-> ->]|[[-> ->]|(_ & _ & Hd)]].
    + exists p, fresh_pipe. rewrite Hpi, lookup_insert_eq, Hwk. done.
    + exists p, fresh_pipe. rewrite Hpi, lookup_insert_eq, Hrk. done.
    + destruct (inv_end _ _ Hi o d Hd Hk) as (q & pp & ? & ? & ?). exists q, pp.
      rewrite Hpi, lookup_insert_ne by congruence. done.
  - intros k q o1 o2 Hk. rewrite !Hep.
    intros [(-> & -> & ->)|[(-> & -> & ->)|H1]] [(-> & ? & ?)|[(-> & ? & ?)|H2]]; try done;
      try (by subst; exfalso; eapply Hnot).
    exact (inv_one_end _ _ Hi k q o1 o2 Hk H1 H2).
  - intros q pp. rewrite Hpi, lookup_insert_Some. intros [[<- <-]|[Hqp Hq]].
    + split_and!; [apply fresh_ring|by intros [? _]|]. intros k [-> | ->]; right; (split; [done|]);
        [exists ro|exists wo]; apply Hep; [by left|by right; left].
    + destruct (inv_pipe _ _ Hi q pp Hq) as (? & ? & Hs). split_and!; [done..|].
      intros k Hk. destruct (Hs k Hk) as [?|(? & o & ?)]; [by left|right]. split; [done|].
      exists o. apply Hep. by right; right.
Qed.
End inv.
