(* ===== verification/VfsStep.v ===== *)
(** The descriptor layer as a transition system: every operation of [VfsFd] keeps the
    lifetime invariant, so it holds in every state reachable by any interleaving of
    operations and transfers of any tasks. *)

From S2P Require Import Prelude BlockIO Kfs KfsBalloc KfsVnode VfsFd VfsPipe VfsInv.

Section steps.
Context {F V : Type} `{VnodeFs F V}.
Implicit Types (t : vfs F V) (d : open_file V) (ex : list nat).

(** ** Installing *)
Lemma alloc_fd_ok t task :
  (∃ i, 0 ≤ i < VFS_MAX_FDS ∧ alloc_fd t task = i ∧
        f_used (fd_at t (task * VFS_MAX_FDS + i)) = false ∧
        ∀ j, 0 ≤ j < i → f_used (fd_at t (task * VFS_MAX_FDS + j)) = true) ∨
  (alloc_fd t task = -1 ∧
   ∀ j, 0 ≤ j < VFS_MAX_FDS → f_used (fd_at t (task * VFS_MAX_FDS + j)) = true).
Proof.
  unfold alloc_fd.
  opose proof* (for_range_rule
    (λ i (_ : unit), ∀ j, 0 ≤ j < i → f_used (fd_at t (task * VFS_MAX_FDS + j)) = true)
    (λ i, 0 ≤ i < VFS_MAX_FDS ∧ f_used (fd_at t (task * VFS_MAX_FDS + i)) = false ∧
        ∀ j, 0 ≤ j < i → f_used (fd_at t (task * VFS_MAX_FDS + j)) = true)
    0 VFS_MAX_FDS
    (λ i (_ : unit), if negb (f_used (fd_at t (task * VFS_MAX_FDS + i))) then inl i else inr tt) tt)
    as Hr; [lia| |].
  - intros i [] Hi Hj. destruct (f_used (fd_at t (task * VFS_MAX_FDS + i))) eqn:Hu; simpl; [|done].
    intros j Hj'. destruct (decide (j = i)) as [->|]; [done|]. apply Hj. lia.
  - destruct (for_range _ _ _ _) as [i|[]].
    + left. exists i. naive_solver.
    + right. by split.
Qed.

Lemma task_range task : (task <? 0) || (MAX_TASKS <=? task) = false → 0 ≤ task < MAX_TASKS.
Proof. intros. zcase; lia. Qed.

Lemma slot_in task i :
  0 ≤ task < MAX_TASKS → 0 ≤ i < VFS_MAX_FDS → slot_of task i = task * VFS_MAX_FDS + i.
Proof. intros. destruct (slot_of_ok task i) as [Hs|(_ & _ & ?)]; [|done]. unfold slot_of in *. zcase. Qed.

Lemma install_locked_ok t ex task i o :
  vinv t ex → is_Some (opens t !! o) → zlength ex < 2 ^ 31 → vinv (install_locked task i o t) ex.
Proof.
  intros Hi Ho Hex. unfold install_locked.
  destruct (slot_of_ok task i) as [->|(Ht & Hf & ->)]; [done|].
  destruct (f_used _) eqn:Hu; [by rewrite orb_true_r|].
  destruct (Z.ltb_spec (task * VFS_MAX_FDS + i) 0); [done|]. simpl.
  apply (install_ok (open_get o t)); try done. by apply open_get_ok.
Qed.

Lemma install_tty_ok t ex task i flags :
  vinv t ex → vinv (install_tty_locked task i flags t) ex.
Proof.
  intros Hi. unfold install_tty_locked.
  destruct (slot_of_ok task i) as [->|(Ht & Hf & ->)]; [done|].
  destruct (Z.ltb_spec (task * VFS_MAX_FDS + i) 0); [done|].
  destruct (f_used _) eqn:Hu; [done|].
  destruct (open_alloc _ _ _ _ _ t) as [r t'] eqn:Ha.
  apply (open_alloc_ok t ex) in Ha as [Hfd Hr]; [|done|by intros [|]].
  destruct r as [o|]; [|done]. destruct Hr as [Hi' _].
  apply install_ok; try done. unfold fd_at in *. by rewrite Hfd.
Qed.

Lemma vfs_task_init_ok t ex task : vinv t ex → vinv (vfs_task_init task t) ex.
Proof. intros Hi. unfold vfs_task_init. case_match; [done|]. by repeat apply install_tty_ok. Qed.

(** ** Opening *)
Lemma free_open_ok t ex o d :
  vinv t (o :: ex) → opens t !! o = Some d → refcount d = 1 → ¬ is_pipe (kind d) →
  vinv (free_open o t) ex.
Proof. intros. by apply (remove_plain t ex o d). Qed.

Lemma vfs_open_ok t ex task path flags : vinv t ex → vinv (vfs_open task path flags t).2 ex.
Proof.
  intros Hi. unfold vfs_open. case_match; [done|]. destruct (_ || _) eqn:Ht; [done|].
  apply task_range in Ht. destruct (open_vnode _ _ _) as [[vn|] fl]; [|by apply vinv_filesys].
  case_match; [by do 2 apply vinv_filesys|]. case_match; [by do 2 apply vinv_filesys|].
  destruct (open_alloc _ _ _ _ _ _) as [r t'] eqn:Ha.
  apply (open_alloc_ok _ ex) in Ha as [Hfd Hr];
    [|by apply vinv_filesys|by destruct (vn_is_dir vn); intros [|]].
  destruct r as [o|]; [|by apply vinv_filesys]. destruct Hr as [Hi' Hd].
  destruct (alloc_fd_ok t' task) as [(i & Hir & -> & Hu & _)|[-> _]]; simpl.
  - destruct (Z.ltb_spec i 0); [lia|]. rewrite slot_in by done. by apply install_ok.
  - eapply free_open_ok; [by apply vinv_filesys|done|done|]. by destruct (vn_is_dir vn); intros [|].
Qed.

(** ** Closing and duplication *)
Lemma vfs_close_ok t ex task i : vinv t ex → vinv (vfs_close task i t).2 ex.
Proof.
  intros Hi. unfold vfs_close. destruct (owned_open _ _ _) as [o|] eqn:Ho; [|done].
  apply (owned_open_ok t ex) in Ho as (Ht & Hf & Hs & Hu & Hop & _); [|done].
  rewrite Hs. apply open_put_ok. by apply uninstall_ok.
Qed.

Lemma close_step_ok t ex task i :
  vinv t ex → 0 ≤ task < MAX_TASKS → 0 ≤ i < VFS_MAX_FDS →
  vinv (close_step (task * VFS_MAX_FDS) i t) ex.
Proof.
  intros Hi Ht Hf. unfold close_step. destruct (f_used _) eqn:Hu; [|done].
  destruct (f_open _) as [o|] eqn:Ho; [|done]. apply open_put_ok. by apply uninstall_ok.
Qed.

Lemma vfs_close_all_ok t ex task : vinv t ex → vinv (vfs_close_all task t) ex.
Proof.
  intros Hi. unfold vfs_close_all. destruct (_ || _) eqn:Ht; [done|]. apply task_range in Ht.
  apply (for_each_upto (λ _ t, vinv t ex)); [done|done|]. intros. by apply close_step_ok.
Qed.

Lemma vfs_dup_ok t ex task i : vinv t ex → zlength ex < 2 ^ 31 → vinv (vfs_dup task i t).2 ex.
Proof.
  intros Hi Hex. unfold vfs_dup. case_match; [done|].
  destruct (owned_open _ _ _) as [o|] eqn:Ho; [|done].
  apply (owned_open_ok t ex) in Ho as (_ & _ & _ & _ & _ & Hl); [|done].
  case_match; [done|]. by apply install_locked_ok.
Qed.

Lemma fd_at_get t o s : fd_at (open_get o t) s = fd_at t s.
Proof. done. Qed.

Lemma fds_put t o : fds (open_put o t) = fds t.
Proof.
  unfold open_put. destruct (opens t !! o) as [d|]; [|done]. case_match; [done|].
  destruct (kind d), (o_vnode d), (o_pipe d); try done;
    unfold pipe_end_closed; simpl; destruct (pipes t !! _); try done; by case_match.
Qed.

Lemma fd_at_open_put t o s : fd_at (open_put o t) s = fd_at t s.
Proof. unfold fd_at. by rewrite fds_put. Qed.

Lemma fd_at_fd_put t ex task i e :
  vinv t ex → 0 ≤ task < MAX_TASKS → 0 ≤ i < VFS_MAX_FDS →
  fd_at (fd_put (task * VFS_MAX_FDS + i) e t) (task * VFS_MAX_FDS + i) = e.
Proof.
  intros Hi Ht Hf. destruct (slot_lookup t ex task i Hi Ht Hf) as [Hs _]. unfold fd_at. simpl.
  rewrite list_lookup_insert_eq; [done|]. by eapply lookup_lt_Some.
Qed.

Lemma vfs_dup2_ok t ex task i j : vinv t ex → zlength ex < 2 ^ 31 → vinv (vfs_dup2 task i j t).2 ex.
Proof.
  intros Hi Hex. unfold vfs_dup2. destruct (_ || _) eqn:Ht; [done|]. apply task_range in Ht.
  destruct ((j <? 0) || _) eqn:Hj; [done|]. assert (0 ≤ j < VFS_MAX_FDS) by zcase.
  destruct (owned_open _ _ _) as [src|] eqn:Ho; [|done].
  apply (owned_open_ok t ex) in Ho as (_ & _ & _ & _ & _ & Hl); [|done].
  case_match; [done|]. rewrite !fd_at_get. rewrite slot_in by done.
  assert (Hg := open_get_ok t ex src Hi Hl Hex). simpl.
  destruct (f_used (fd_at t (task * VFS_MAX_FDS + j))) eqn:Hu;
    [destruct (f_open (fd_at t (task * VFS_MAX_FDS + j))) as [old|] eqn:Hop|].
  - apply install_ok; try done.
    + apply open_put_ok. apply uninstall_ok; done.
    + by rewrite fd_at_open_put, (fd_at_fd_put _ (src :: ex)).
  - destruct (slot_lookup t ex task j) as [Hs _]; try done.
    pose proof (inv_entries _ _ Hi _ _ Hs) as He. unfold entry_ok in He. rewrite Hu, Hop in He.
    by destruct He as [_ []].
  - by apply install_ok.
Qed.
(** ** Inheritance *)
Lemma inherit_step_ok t ex child parent spec i :
  vinv t ex → zlength ex < 2 ^ 31 →
  match inherit_step child parent spec i t with inl t' | inr t' => vinv t' ex end.
Proof.
  intros Hi Hex. unfold inherit_step. destruct (lget spec i <? 0); [done|].
  destruct (owned_open t parent _) as [src|] eqn:Hs; [|done].
  destruct (owned_open t child _) as [old|] eqn:Ho; [|done].
  apply (owned_open_ok t ex) in Hs as (_ & _ & _ & _ & _ & Hl); [|done].
  apply (owned_open_ok t ex) in Ho as (Ht & Hf & Hsl & Hu & Hop & _); [|done].
  rewrite Hsl. apply open_put_ok. apply exchange_ok; try done. by apply open_get_ok.
Qed.

Lemma vfs_inherit_ok t ex child parent spec :
  vinv t ex → zlength ex < 2 ^ 31 → vinv (vfs_inherit_stdio child parent spec t).2 ex.
Proof.
  intros Hi Hex. unfold vfs_inherit_stdio. case_match; [done|]. case_match; [done|].
  opose proof* (for_range_rule (λ _ t, vinv t ex) (λ t, vinv t ex) 0 3
    (inherit_step child parent spec) t) as Hr; [done| |].
  - intros i t' _ Hi'. pose proof (inherit_step_ok t' ex child parent spec i Hi' Hex).
    by destruct (inherit_step _ _ _ _ _).
  - by destruct (for_range _ _ _ _).
Qed.

Lemma window_free_ok t task :
  window_free t task = true →
  ∀ j, 0 ≤ j < VFS_MAX_FDS → f_used (fd_at t (task * VFS_MAX_FDS + j)) = false.
Proof.
  unfold window_free.
  opose proof* (for_range_rule
    (λ i (_ : unit), ∀ j, 0 ≤ j < i → f_used (fd_at t (task * VFS_MAX_FDS + j)) = false)
    (λ _ : unit, True) 0 VFS_MAX_FDS
    (λ i (_ : unit), if f_used (fd_at t (task * VFS_MAX_FDS + i)) then inl tt else inr tt) tt)
    as Hr; [lia| |by destruct (for_range _ _ _ _) as [[]|[]]].
  intros i [] Hi Hj. destruct (f_used (fd_at t (task * VFS_MAX_FDS + i))) eqn:Hu; [done|].
  intros j Hj'. destruct (decide (j = i)) as [->|]; [done|]. apply Hj. lia.
Qed.

Lemma fd_at_other t e s s' : 0 ≤ s → 0 ≤ s' → s ≠ s' → fd_at (fd_put s e t) s' = fd_at t s'.
Proof. intros. unfold fd_at. simpl. rewrite list_lookup_insert_ne; [done|lia]. Qed.

Lemma fork_loop_ok t ex child parent :
  vinv t ex → zlength ex < 2 ^ 31 → 0 ≤ child < MAX_TASKS → 0 ≤ parent < MAX_TASKS →
  child ≠ parent → window_free t child = true →
  vinv (for_each 0 VFS_MAX_FDS (fork_step child parent) t) ex.
Proof.
  intros Hi Hex Hc Hp Hne Hw.
  apply (for_each_upto (λ i t', vinv t' ex ∧
    ∀ j, i ≤ j < VFS_MAX_FDS → f_used (fd_at t' (child * VFS_MAX_FDS + j)) = false)); [done| |].
  - split; [done|]. by apply window_free_ok.
  - intros i t' Hir [Hi' Hfree]. unfold fork_step.
    destruct (f_used (fd_at t' (parent * VFS_MAX_FDS + i))) eqn:Hu; simpl;
      [|split; [done|]; intros; apply Hfree; lia].
    case_match; [split; [done|]; intros; apply Hfree; lia|].
    destruct (f_open (fd_at t' (parent * VFS_MAX_FDS + i))) as [o|] eqn:Ho;
      [|split; [done|]; intros; apply Hfree; lia]. split.
    + apply install_ok; [|done|done|by apply Hfree; lia].
      apply open_get_ok; try done. by apply (entry_live t' ex parent i).
    + intros j Hj. unfold VFS_MAX_FDS in *. rewrite fd_at_other by lia. apply Hfree. lia.
Qed.

Lemma vfs_fork_ok t ex child parent :
  vinv t ex → zlength ex < 2 ^ 31 → vinv (vfs_fork_inherit child parent t).2 ex.
Proof.
  intros Hi Hex. unfold vfs_fork_inherit. destruct (_ || _) eqn:Hr; [done|].
  destruct (Z.eqb_spec child parent); [done|]. destruct (window_free t child) eqn:Hw; [|done].
  simpl. apply fork_loop_ok; try done; zcase; lia.
Qed.

(** ** Creating a pipe *)
Lemma pipe_objects_ok t ex r t' :
  vinv t ex → pipe_objects t = (r, t') →
  fds t' = fds t ∧
  match r with
  | None => vinv t' ex
  | Some (p, ro, wo) => vinv t' (ro :: wo :: ex) ∧
      vinv (set_pipes (delete p (pipes t')) (free_open ro (free_open wo t'))) ex
  end.
Proof.
  intros Hi. unfold pipe_objects.
  destruct (vmalloc t) as [p t1] eqn:H1. apply vmalloc_ok in H1 as (Hf1 & Ho1 & Hp1 & Hn1 & Hr1).
  destruct (vmalloc t1) as [b t2] eqn:H2. apply vmalloc_ok in H2 as (Hf2 & Ho2 & Hp2 & Hn2 & Hr2).
  assert (Hi2 : vinv t2 ex) by (apply (vinv_fields t); congruence || lia).
  destruct p as [p|]; [|by intros [= <- <-]; split; [congruence|]].
  destruct b as [b|]; [|by intros [= <- <-]; split; [congruence|]].
  destruct (Hr1 p eq_refl) as [Hpe Hpn], (Hr2 b eq_refl) as [Hbe Hbn]. clear Hr1 Hr2.
  unfold open_alloc.
  destruct (vmalloc t2) as [ro t3] eqn:H3. apply vmalloc_ok in H3 as (Hf3 & Ho3 & Hp3 & Hn3 & Hr3).
  destruct ro as [ro|];
    [|intros [= <- <-]; split; [congruence|]; apply (vinv_fields t); congruence || lia].
  destruct (Hr3 ro eq_refl) as [Hre Hrn]. clear Hr3.
  set (dr := mkOf 1 KIND_PIPE_READ _ _ _ _ _).
  destruct (vmalloc (set_opens (<[ro := dr]> (opens t3)) t3)) as [wo t4] eqn:H4.
  apply vmalloc_ok in H4 as (Hf4 & Ho4 & Hp4 & Hn4 & Hr4). simpl in Hf4, Ho4, Hp4, Hn4, Hr4.
  destruct (fresh_open t ex ro Hi ltac:(lia)) as [Hno _].
  destruct wo as [wo|].
  2:{ intros [= <- <-]. split; [simpl; congruence|]. apply (vinv_fields t); simpl; try congruence; [|lia].
      rewrite Ho4, delete_insert_id; congruence. }
  destruct (Hr4 wo eq_refl) as [Hwe Hwn]. clear Hr4.
  destruct (fresh_open t ex wo Hi ltac:(lia)) as [Hnw _].
  pose proof (fresh_pipe_none t ex p Hi ltac:(lia)) as Hnp.
  set (dw := mkOf 1 KIND_PIPE_WRITE _ _ _ _ _). intros [= <- <-]. split; [simpl; congruence|].
  assert (Hne : ro ≠ wo) by lia.
  assert (Hop : alter (o_set_pipe (Some p)) wo (alter (o_set_pipe (Some p)) ro (<[wo := dw]> (opens t4)))
    = <[wo := o_set_pipe (Some p) dw]> (<[ro := o_set_pipe (Some p) dr]> (opens t))).
  { rewrite Ho4, alter_insert_ne, alter_insert_eq, alter_insert_eq by done. congruence. }
  split.
  - apply (pair_ok t _ ex p ro wo (o_set_pipe (Some p) dr) (o_set_pipe (Some p) dw)); simpl; try done;
      try congruence; try lia.
    repeat constructor; lia.
  - apply (vinv_fields t); simpl; try congruence; try lia.
    + rewrite Hop, delete_insert_id; [|by rewrite lookup_insert_ne].
      by rewrite delete_insert_id.
    + rewrite delete_insert_id; [|congruence]. congruence.
Qed.
Lemma pipe_fds_ok t task rfd wfd :
  pipe_fds t task = (rfd, wfd) → 0 ≤ rfd → 0 ≤ wfd →
  rfd < wfd < VFS_MAX_FDS ∧ f_used (fd_at t (task * VFS_MAX_FDS + rfd)) = false ∧
  f_used (fd_at t (task * VFS_MAX_FDS + wfd)) = false.
Proof.
  unfold pipe_fds.
  opose proof* (for_range_rule
    (λ i r, r = -1 ∨ (0 ≤ r < i ∧ f_used (fd_at t (task * VFS_MAX_FDS + r)) = false))
    (λ rw : Z * Z, rw.1 < rw.2 < VFS_MAX_FDS ∧
       f_used (fd_at t (task * VFS_MAX_FDS + rw.1)) = false ∧
       f_used (fd_at t (task * VFS_MAX_FDS + rw.2)) = false)
    0 VFS_MAX_FDS
    (λ i r, if negb (f_used (fd_at t (task * VFS_MAX_FDS + i)))
            then if r <? 0 then inr i else inl (r, i) else inr r) (-1)) as Hr; [by left| |].
  - intros i r Hi Hr. destruct (f_used (fd_at t (task * VFS_MAX_FDS + i))) eqn:Hu; simpl;
      [|destruct (Z.ltb_spec r 0); simpl].
    + destruct Hr as [->|[? ?]]; [by left|right]. split; [lia|done].
    + right. split; [lia|done].
    + destruct Hr as [->|[? ?]]; [lia|]. split_and!; try done; lia.
  - destruct (for_range _ _ _ _) as [[r w]|r]; [by intros [= <- <-]|]. intros [= <- <-] _ ?. lia.
Qed.

Lemma vfs_pipe_ok t ex task : vinv t ex → vinv (vfs_pipe task t).2 ex.
Proof.
  intros Hi. unfold vfs_pipe. destruct (_ || _) eqn:Ht; [done|]. apply task_range in Ht.
  destruct (pipe_objects t) as [r t'] eqn:Hp. apply (pipe_objects_ok t ex) in Hp as [Hf Hr]; [|done].
  destruct r as [[[p ro] wo]|]; [|done]. destruct Hr as [Hin Hout].
  destruct (pipe_fds t' task) as [rfd wfd] eqn:Hfd. destruct (_ || _) eqn:Hneg; [done|].
  apply pipe_fds_ok in Hfd as (? & Hur & Huw); [|zcase; lia..]. simpl.
  assert (0 ≤ rfd) by (zcase; lia).
  apply install_ok; try done; [|lia|].
  - apply install_ok; [|done|unfold VFS_MAX_FDS in *; lia|done].
    apply (vinv_perm _ (ro :: wo :: ex)); [|done]. done.
  - unfold VFS_MAX_FDS in *. rewrite fd_at_other by lia. done.
Qed.

(** ** Files *)
Lemma vfs_lseek_ok t ex task i offset whence :
  vinv t ex → vinv (vfs_lseek task i offset whence t).2 ex.
Proof.
  intros Hi. unfold vfs_lseek. destruct (resolve_open _ _ _) as [o|]; [|done].
  destruct (opens t !! o) as [d|] eqn:Hd; [|done].
  destruct (kind d) eqn:Hk, (o_vnode d); try done. case_match; [done|].
  by apply (vinv_update t ex o d).
Qed.

Lemma vfs_readdir_ok t ex task i index cap :
  vinv t ex → vinv (vfs_readdir task i index cap t).2 ex.
Proof.
  intros Hi. unfold vfs_readdir. case_match; [done|].
  destruct (_ ≫= _) as [d|]; [|done]. destruct (kind d), (o_vnode d); try done.
  destruct (vn_readdir _ _ _ _) as [[?|[? ?]] ?]; by apply vinv_filesys.
Qed.

(** The description an operation pins when it leaves the lock. *)
Definition pinned (r : io_start) : list nat :=
  match r with IoPipe o | IoTty (Some o) => [o] | _ => [] end.

Lemma file_read_ok t ex o d v count :
  vinv t ex → opens t !! o = Some d →
  vinv (file_read o d v count t).2 (pinned (file_read o d v count t).1 ++ ex).
Proof.
  intros Hi Hd. unfold file_read. destruct (vn_read _ _ _ _) as [[?|bs] fl]; [by apply vinv_filesys|].
  apply (vinv_update (set_filesys fl t) ex o d); try done. by apply vinv_filesys.
Qed.

Lemma file_write_ok t ex o d v src :
  vinv t ex → opens t !! o = Some d →
  vinv (file_write o d v src t).2 (pinned (file_write o d v src t).1 ++ ex).
Proof.
  intros Hi Hd. unfold file_write.
  set (d1 := if has _ _ then _ else d).
  assert (Hd1 : refcount d1 = refcount d ∧ kind d1 = kind d ∧ o_pipe d1 = o_pipe d)
    by (unfold d1; by destruct (has _ _)). clearbody d1.
  destruct (vn_write _ _ _ _) as [[[?|w] v'] fl];
    (apply (vinv_update (set_filesys fl t) ex o d); [by apply vinv_filesys|done|simpl; naive_solver..]).
Qed.

Lemma read_start_ok t ex task i count :
  vinv t ex → zlength ex < 2 ^ 31 →
  vinv (vfs_read_start task i count t).2 (pinned (vfs_read_start task i count t).1 ++ ex).
Proof.
  intros Hi Hex. unfold vfs_read_start. destruct (resolve_open _ _ _) as [o|].
  2:{ repeat case_match; done. }
  destruct (opens t !! o) as [d|] eqn:Hd; [|done]. assert (is_Some (opens t !! o)) by (by eexists).
  destruct (has (o_flags d) VFS_O_WRONLY); [done|].
  destruct (kind d); try done.
  - case_match; [done|]. by apply open_get_ok.
  - destruct (o_vnode d); [|done]. by apply file_read_ok.
  - case_match; [done|]. by apply open_get_ok.
Qed.

Lemma write_start_ok t ex task i src :
  vinv t ex → zlength ex < 2 ^ 31 →
  vinv (vfs_write_start task i src t).2 (pinned (vfs_write_start task i src t).1 ++ ex).
Proof.
  intros Hi Hex. unfold vfs_write_start. destruct (resolve_open _ _ _) as [o|].
  2:{ repeat case_match; done. }
  destruct (opens t !! o) as [d|] eqn:Hd; [|done]. assert (is_Some (opens t !! o)) by (by eexists).
  destruct (negb _); [done|].
  destruct (kind d); try done.
  - case_match; [done|]. by apply open_get_ok.
  - destruct (o_vnode d); [|done]. by apply file_write_ok.
  - case_match; [done|]. by apply open_get_ok.
Qed.

(** ** Transfers *)
Lemma vinv_pipe t ex p pp pp' :
  vinv t ex → pipes t !! p = Some pp → ring_ok pp' →
  readers pp' = readers pp → writers pp' = writers pp →
  vinv (set_pipes (<[p := pp']> (pipes t)) t) ex.
Proof.
  intros [Ht He Hr Hl Hf Hfp Hen Hone Hp] Hpp Hring Hre Hwr.
  assert (Hside : ∀ k, side k pp' = side k pp) by (by intros []).
  split; simpl; try done.
  - intros q. rewrite lookup_insert. case_decide as Hx; [|apply Hfp].
    intros _. apply Hfp. subst. by eexists.
  - intros o d Hd Hk. destruct (Hen o d Hd Hk) as (q & qq & ? & Hq & Hs). exists q.
    destruct (decide (q = p)) as [->|].
    + exists pp'. rewrite lookup_insert_eq, Hside. split_and!; try done. congruence.
    + exists qq. by rewrite lookup_insert_ne.
  - intros q qq. rewrite lookup_insert_Some. intros [[<- <-]|[? Hq]]; [|exact (Hp q qq Hq)].
    destruct (Hp p pp Hpp) as (_ & Hz & Hs). rewrite Hre, Hwr. split_and!; try done.
    intros k Hk. rewrite Hside. exact (Hs k Hk).
Qed.

Lemma pipe_read_ok t ex o count n out t' :
  vinv t ex → 0 < count → pipe_read o count t = Some (n, out, t') → vinv t' ex.
Proof.
  intros Hi Hc. unfold pipe_read. destruct (opens t !! o ≫= o_pipe) as [p|]; [|by intros [= <- <- <-]].
  destruct (pipes t !! p) as [pp|] eqn:Hp; [|done]. simpl.
  destruct (inv_pipe _ _ Hi p pp Hp) as (Hring & _).
  pose proof (read_try_ok pp count Hring Hc) as Hr.
  destruct (pipe_read_try pp count) as [[[n' out'] pp']|]; [|done]. intros [= <- <- <-].
  destruct Hr as (_ & _ & Hring' & Hre & Hwr & _). by apply (vinv_pipe t ex p pp).
Qed.

Lemma pipe_write_ok t ex o src n t' :
  vinv t ex → 0 < zlength src → pipe_write o src t = Some (n, t') → vinv t' ex.
Proof.
  intros Hi Hc. unfold pipe_write. destruct (opens t !! o ≫= o_pipe) as [p|]; [|by intros [= <- <-]].
  destruct (pipes t !! p) as [pp|] eqn:Hp; [|done]. simpl.
  destruct (inv_pipe _ _ Hi p pp Hp) as (Hring & _).
  pose proof (write_try_ok pp src Hring Hc) as Hr.
  destruct (pipe_write_try pp src) as [[n' pp']|]; [|done]. intros [= <- <-].
  destruct Hr as [(_ & _ & ->)|(_ & _ & Hring' & Hre & Hwr & _)]; by apply (vinv_pipe t ex p pp).
Qed.
(** ** The transition system *)

(** A state, and the transfers in flight: the task and the description it pins. *)
Definition sys : Type := vfs F V * list (Z * nat).

Inductive vstep : sys → sys → Prop :=
| step_task_init t io task : vstep (t, io) (vfs_task_init task t, io)
| step_open t io task path flags : vstep (t, io) ((vfs_open task path flags t).2, io)
| step_close t io task i : vstep (t, io) ((vfs_close task i t).2, io)
| step_close_all t io task : vstep (t, io) (vfs_close_all task t, io)
| step_dup t io task i : vstep (t, io) ((vfs_dup task i t).2, io)
| step_dup2 t io task i j : vstep (t, io) ((vfs_dup2 task i j t).2, io)
| step_lseek t io task i offset whence : vstep (t, io) ((vfs_lseek task i offset whence t).2, io)
| step_readdir t io task i index cap : vstep (t, io) ((vfs_readdir task i index cap t).2, io)
| step_pipe t io task : vstep (t, io) ((vfs_pipe task t).2, io)
| step_inherit t io child parent spec :
    vstep (t, io) ((vfs_inherit_stdio child parent spec t).2, io)
| step_fork t io child parent : vstep (t, io) ((vfs_fork_inherit child parent t).2, io)
(** The first critical section of a read or a write of a task with no transfer in flight. *)
| step_read t io task i count :
    task ∉ io.*1 →
    vstep (t, io) ((vfs_read_start task i count t).2,
                   (pair task <$> pinned (vfs_read_start task i count t).1) ++ io)
| step_write t io task i src :
    task ∉ io.*1 →
    vstep (t, io) ((vfs_write_start task i src t).2,
                   (pair task <$> pinned (vfs_write_start task i src t).1) ++ io)
(** An attempt of a transfer in flight, which may follow any number of wakeups. *)
| step_pipe_read t io task o count n out t' :
    (task, o) ∈ io → 0 < count → pipe_read o count t = Some (n, out, t') → vstep (t, io) (t', io)
| step_pipe_write t io task o src n t' :
    (task, o) ∈ io → 0 < zlength src → pipe_write o src t = Some (n, t') → vstep (t, io) (t', io)
(** The last critical section, of a completed transfer or of a killed task. *)
| step_end t io1 io2 task o : vstep (t, io1 ++ (task, o) :: io2) (open_put o t, io1 ++ io2).

Definition initial t : Prop :=
  zlength (fds t) = MAX_TASKS * VFS_MAX_FDS ∧
  (∀ e, e ∈ fds t → f_used e = false ∧ f_open e = None) ∧ opens t = ∅ ∧ pipes t = ∅.

Definition reachable (x : sys) : Prop := ∃ t0, initial t0 ∧ rtc vstep (t0, []) x.

Definition sys_ok (x : sys) : Prop :=
  vinv x.1 (x.2.*2) ∧ NoDup (x.2.*1) ∧ (∀ task, task ∈ x.2.*1 → 0 ≤ task < MAX_TASKS).

Lemma initial_ok t : initial t → vinv t [].
Proof.
  intros (Hl & He & Ho & Hp).
  assert (Hz : ∀ o, refs t [] o = 0).
  { intros o. unfold refs. rewrite lsum_zero; [done|]. intros e Hin. unfold entry_refs.
    by destruct (He e Hin) as [-> _]. }
  split; rewrite ?Ho, ?Hp; try done.
  - intros s e Hs. apply list_elem_of_lookup_2, He in Hs as [Hu Hop]. unfold entry_ok. by rewrite Hu.
  - intros o. rewrite Hz. done.
  - intros o [d Hd]. by rewrite lookup_empty in Hd.
  - intros p [pp Hpp]. by rewrite lookup_empty in Hpp.
  - intros k p o1 o2 _ (d & Hd & _). by rewrite Ho, lookup_empty in Hd.
Qed.

Lemma flight_bound x : sys_ok x → zlength (x.2.*2) < 2 ^ 31.
Proof.
  intros (_ & Hnd & Hr). unfold zlength. rewrite length_fmap.
  assert (Hsub : x.2.*1 ⊆+ seqZ 0 MAX_TASKS).
  { apply NoDup_submseteq; [done|]. intros k Hk. apply elem_of_seqZ. apply Hr in Hk. lia. }
  apply submseteq_length in Hsub. rewrite length_fmap, length_seqZ in Hsub.
  unfold MAX_TASKS in Hsub. lia.
Qed.

Lemma resolve_task t task i o : resolve_open t task i = Some o → 0 ≤ task < MAX_TASKS.
Proof.
  unfold resolve_open, owned_open. destruct (slot_of_ok task i) as [->|(? & _)]; [done|]. done.
Qed.

Lemma read_pins t task i count o :
  o ∈ pinned (vfs_read_start task i count t).1 → 0 ≤ task < MAX_TASKS.
Proof.
  unfold vfs_read_start. destruct (resolve_open t task i) as [o'|] eqn:Hr.
  - intros _. by apply resolve_task in Hr.
  - repeat case_match; simpl; set_solver.
Qed.

Lemma write_pins t task i src o :
  o ∈ pinned (vfs_write_start task i src t).1 → 0 ≤ task < MAX_TASKS.
Proof.
  unfold vfs_write_start. destruct (resolve_open t task i) as [o'|] eqn:Hr.
  - intros _. by apply resolve_task in Hr.
  - repeat case_match; simpl; set_solver.
Qed.

(** A start adds the pinned description to the transfers in flight. *)
Lemma start_ok t' r io task :
  vinv t' (pinned r ++ io.*2) → NoDup (io.*1) → (∀ k, k ∈ io.*1 → 0 ≤ k < MAX_TASKS) →
  task ∉ io.*1 → (∀ o, o ∈ pinned r → 0 ≤ task < MAX_TASKS) →
  sys_ok (t', (pair task <$> pinned r) ++ io).
Proof.
  intros Hi Hnd Hr Hidle Hin. unfold sys_ok. simpl. rewrite !fmap_app.
  assert (Hp : pinned r = [] ∨ ∃ o, pinned r = [o]).
  { destruct r as [| |[]]; simpl; eauto. }
  destruct Hp as [Hp | [o Hp]]; rewrite Hp in *; simpl.
  - done.
  - split_and!; [done|by apply NoDup_cons|].
    intros k. rewrite elem_of_cons. intros [->|?]; [|by apply Hr]. apply (Hin o). set_solver.
Qed.

Lemma vstep_ok x y : sys_ok x → vstep x y → sys_ok y.
Proof.
  intros Hx Hs. pose proof (flight_bound x Hx) as Hb. destruct Hx as (Hi & Hnd & Hr).
  destruct Hs; simpl in *;
    try (by apply start_ok; [apply read_start_ok|..|intros o Ho; eapply read_pins]);
    try (by apply start_ok; [apply write_start_ok|..|intros o Ho; eapply write_pins]);
    split_and!; simpl; try done.
  - by apply vfs_task_init_ok.
  - by apply vfs_open_ok.
  - by apply vfs_close_ok.
  - by apply vfs_close_all_ok.
  - by apply vfs_dup_ok.
  - by apply vfs_dup2_ok.
  - by apply vfs_lseek_ok.
  - by apply vfs_readdir_ok.
  - by apply vfs_pipe_ok.
  - by apply vfs_inherit_ok.
  - by apply vfs_fork_ok.
  - by eapply pipe_read_ok.
  - by eapply pipe_write_ok.
  - apply open_put_ok. apply (vinv_perm _ ((io1 ++ (task, o) :: io2).*2)); [|done].
    rewrite !fmap_app. simpl. by rewrite Permutation_middle.
  - rewrite fmap_app in Hnd |- *. simpl in Hnd. apply NoDup_app in Hnd as (? & Hd & Hnd).
    apply NoDup_cons in Hnd as [? ?]. apply NoDup_app. split_and!; try done. set_solver.
  - intros k Hk. apply Hr. rewrite fmap_app in Hk |- *. simpl. set_solver.
Qed.

Lemma reachable_ok x : reachable x → sys_ok x.
Proof.
  intros (t0 & H0 & Hs). assert (Hok : sys_ok (t0, [])).
  { split_and!; simpl; [by apply initial_ok|constructor|set_solver]. }
  clear H0. induction Hs as [|a b c Hab _ IH]; [done|]. apply IH. by apply (vstep_ok a).
Qed.
(** ** Closing everything *)
Definition unused t (s : Z) : Prop := f_used (fd_at t s) = false.

Lemma close_window t ex task :
  vinv t ex → 0 ≤ task < MAX_TASKS →
  vinv (vfs_close_all task t) ex ∧
  (∀ i, 0 ≤ i < VFS_MAX_FDS → unused (vfs_close_all task t) (task * VFS_MAX_FDS + i)) ∧
  (∀ s, 0 ≤ s → s / VFS_MAX_FDS ≠ task → fd_at (vfs_close_all task t) s = fd_at t s).
Proof.
  intros Hi Ht. unfold vfs_close_all. destruct (_ || _) eqn:Hb; [zcase; lia|].
  apply (for_each_upto (λ i t', vinv t' ex ∧
    (∀ j, 0 ≤ j < i → unused t' (task * VFS_MAX_FDS + j)) ∧
    (∀ s, 0 ≤ s → s / VFS_MAX_FDS ≠ task → fd_at t' s = fd_at t s)));
    [done|split_and!; [done|lia|done]|].
  intros i t' Hir (Hi' & Hj & Hs). split; [by apply close_step_ok|]. unfold close_step.
  destruct (f_used (fd_at t' (task * VFS_MAX_FDS + i))) eqn:Hu.
  2:{ split; [|done]. intros j Hjr. destruct (decide (j = i)) as [->|]; [done|]. apply Hj. lia. }
  destruct (slot_lookup t' ex task i Hi' Ht Hir) as [Hsl Hdiv].
  pose proof (inv_entries _ _ Hi' _ _ Hsl) as He. unfold entry_ok in He. rewrite Hu in He.
  destruct He as [_ [o Ho]]. rewrite Ho. unfold unused. split.
  - intros j Hjr. rewrite fd_at_open_put. destruct (decide (j = i)) as [->|].
    + by rewrite (fd_at_fd_put _ ex).
    + unfold VFS_MAX_FDS in *. rewrite fd_at_other by lia. apply Hj. lia.
  - intros s Hs0 Hne. rewrite fd_at_open_put. unfold VFS_MAX_FDS in *.
    rewrite fd_at_other; [by apply Hs|lia|lia|]. intros <-. apply Hne. zdiv.
Qed.

Definition close_tasks t : vfs F V := for_each 0 MAX_TASKS vfs_close_all t.

Lemma close_tasks_loop t ex :
  vinv t ex →
  vinv (close_tasks t) ex ∧ ∀ s, 0 ≤ s → s / VFS_MAX_FDS < MAX_TASKS → unused (close_tasks t) s.
Proof.
  intros Hi. unfold close_tasks.
  apply (for_each_upto (λ k t', vinv t' ex ∧ ∀ s, 0 ≤ s → s / VFS_MAX_FDS < k → unused t' s));
    [done| |].
  - split; [done|]. unfold VFS_MAX_FDS. intros. zdiv.
  - intros k t' Hk [Hi' Hu]. destruct (close_window t' ex k Hi' Hk) as (Hv & Hw & Ho).
    split; [done|]. intros s Hs0 Hs. destruct (decide (s / VFS_MAX_FDS = k)) as [Hq|Hq].
    + replace s with (k * VFS_MAX_FDS + s mod VFS_MAX_FDS) by (unfold VFS_MAX_FDS in *; zdiv).
      apply Hw, Z.mod_pos_bound. done.
    + unfold unused. rewrite Ho by done. apply Hu; [done|]. lia.
Qed.

Lemma close_tasks_ok t ex :
  vinv t ex → vinv (close_tasks t) ex ∧ ∀ e, e ∈ fds (close_tasks t) → f_used e = false.
Proof.
  intros Hi. destruct (close_tasks_loop t ex Hi) as [Hv Hu]. generalize dependent (close_tasks t).
  intros t' Hv Hu. split; [done|]. intros e [s Hs]%list_elem_of_lookup.
  pose proof (inv_table _ _ Hv) as Ht. pose proof (lookup_lt_Some _ _ _ Hs) as Hlt.
  unfold zlength, MAX_TASKS, VFS_MAX_FDS in *.
  specialize (Hu (Z.of_nat s) ltac:(lia) ltac:(zdiv)). unfold unused, fd_at in Hu.
  by rewrite Nat2Z.id, Hs in Hu.
Qed.

(** With no reference from the table or from a transfer, nothing is allocated. *)
Lemma all_unused_empty t :
  vinv t [] → (∀ e, e ∈ fds t → f_used e = false) → opens t = ∅ ∧ pipes t = ∅.
Proof.
  intros Hi Hu.
  assert (Ho : opens t = ∅).
  { apply map_eq. intros o. rewrite lookup_empty. destruct (opens t !! o) as [d|] eqn:Hd; [|done].
    destruct (inv_refs _ _ Hi o d Hd) as [Hc Hp]. unfold refs in Hc. rewrite lsum_zero in Hc.
    - simpl in Hc. lia.
    - intros e He. unfold entry_refs. by rewrite (Hu e He). }
  split; [done|]. apply map_eq. intros p. rewrite lookup_empty.
  destruct (pipes t !! p) as [pp|] eqn:Hp; [|done].
  destruct (inv_pipe _ _ Hi p pp Hp) as (_ & Hz & Hs).
  assert (Hno : ∀ k o, ¬ endpoint t k p o)
    by (intros k o (d & Hd & _); by rewrite Ho, lookup_empty in Hd).
  destruct (Hs KIND_PIPE_READ) as [Hr|(_ & o & He)]; [by left| |by apply Hno in He].
  destruct (Hs KIND_PIPE_WRITE) as [Hw|(_ & o & He)]; [by right| |by apply Hno in He].
  simpl in Hr, Hw. by destruct Hz.
Qed.
End steps.

(** ** Properties *)

(** A table of free descriptors over a given file system. *)
Definition boot {F V} (fl : F) : vfs F V :=
  mkVfs (repeat no_fd (Z.to_nat (MAX_TASKS * VFS_MAX_FDS))) ∅ ∅ 0 [] fl.
Arguments boot : simpl never.

Section properties.
Context {F V : Type} `{VnodeFs F V}.

(** C3: reference counts are exact and nothing is used after it is freed. In every state
    reached by any interleaving of opening, closing, duplicating, inheriting, piping,
    reading and writing by any tasks, with any transfers in flight and any allocation
    failures, every descriptor and every transfer refers to a live description, the count
    of each description is the number of descriptors plus transfers that refer to it, and
    the pipe of a live endpoint is live. *)
Theorem vfs_reachable_safe (t : vfs F V) io :
  reachable (t, io) →
  (∀ task i o, resolve_open t task i = Some o → is_Some (opens t !! o)) ∧
  (∀ task o, (task, o) ∈ io → is_Some (opens t !! o)) ∧
  (∀ o d, opens t !! o = Some d →
     refcount d = lsum (entry_refs o) (fds t) + lsum (occ o) (io.*2) ∧ 0 < refcount d) ∧
  (∀ o d, opens t !! o = Some d → is_pipe (kind d) →
     ∃ p, o_pipe d = Some p ∧ is_Some (pipes t !! p)).
Proof.
  intros (Hi & _ & _)%reachable_ok. simpl in Hi. split_and!.
  - intros task i o Ho. by apply (owned_open_ok t _ task i o Hi) in Ho as (_ & _ & _ & _ & _ & ?).
  - intros task o Hin. assert (Ho : o ∈ io.*2) by (apply list_elem_of_fmap; by exists (task, o)).
    apply list_elem_of_split in Ho as (l1 & l2 & Hl).
    apply (ex_live t (l1 ++ l2)). apply (vinv_perm _ (io.*2)); [|done].
    by rewrite Hl, Permutation_middle.
  - intros o d Hd. destruct (inv_refs _ _ Hi o d Hd). split; [done|lia].
  - intros o d Hd Hk. destruct (inv_end _ _ Hi o d Hd Hk) as (p & pp & ? & ? & _). exists p. eauto.
Qed.

(** C33: nothing leaks. Once no transfer is in flight and every task has released its
    descriptors, no description and no pipe remains allocated, whatever happened before. *)
Theorem vfs_no_leak (t : vfs F V) :
  reachable (t, []) → opens (close_tasks t) = ∅ ∧ pipes (close_tasks t) = ∅.
Proof.
  intros (Hi & _ & _)%reachable_ok. destruct (close_tasks_ok t [] Hi). by apply all_unused_empty.
Qed.

(** End of file and broken pipes are reported exactly. In every reachable state a pipe
    is a well-formed queue, its writer flag is zero exactly when no live description is its
    write end, and its reader flag exactly when none is its read end. *)
Theorem pipe_ends_exact (t : vfs F V) io p pp :
  reachable (t, io) → pipes t !! p = Some pp →
  ring_ok pp ∧
  (writers pp = 0 ↔ ∀ o, ¬ endpoint t KIND_PIPE_WRITE p o) ∧
  (readers pp = 0 ↔ ∀ o, ¬ endpoint t KIND_PIPE_READ p o).
Proof.
  intros (Hi & _ & _)%reachable_ok Hp. simpl in Hi.
  destruct (inv_pipe _ _ Hi p pp Hp) as (Hr & _ & Hs).
  assert (Hflag : ∀ k, is_pipe k → (side k pp = 0 ↔ ∀ o, ¬ endpoint t k p o)).
  { intros k Hk. destruct (Hs k Hk) as [Hz|[H1 [o He]]].
    - split; [|done]. intros _ o (d & Hd & Hkd & Hpd).
      destruct (inv_end _ _ Hi o d Hd) as (q & qq & ? & ? & ?); [by rewrite Hkd|]. simplify_eq. lia.
    - split; [lia|]. intros Hno. by apply Hno in He. }
  split_and!; [done|apply (Hflag KIND_PIPE_WRITE); by right|apply (Hflag KIND_PIPE_READ); by left].
Qed.
End properties.

(** ** Witnesses: a pipe made by task 0 over a small KyuzenFS *)
Lemma boot_initial {F V} (fl : F) : initial (boot (V := V) fl).
Proof.
  split_and!; [|intros e He|done..].
  - unfold boot, zlength. cbn [fds]. by rewrite repeat_length.
  - unfold boot in He. cbn [fds] in He. apply list_elem_of_In, repeat_spec in He. by subst e.
Qed.

Definition piped : vfs (fs (gmap Z (list Z))) vnode := (vfs_pipe 0 (boot small_fs)).2.

Lemma piped_reachable : reachable (piped, []).
Proof. exists (boot small_fs). split; [apply boot_initial|]. apply rtc_once, step_pipe. Qed.

Lemma vfs_reachable_safe_witness :
  resolve_open piped 0 1 = Some 3%nat ∧ is_Some (opens piped !! 3%nat).
Proof.
  assert (Hr : resolve_open piped 0 1 = Some 3%nat) by reflexivity.
  split; [exact Hr|]. exact (proj1 (vfs_reachable_safe piped [] piped_reachable) 0 1 3%nat Hr).
Defined.

Lemma vfs_no_leak_witness : opens (close_tasks piped) = ∅ ∧ pipes (close_tasks piped) = ∅.
Proof. exact (vfs_no_leak piped piped_reachable). Defined.

Lemma pipe_ends_exact_witness :
  pipes piped !! 0%nat = Some fresh_pipe ∧
  (writers fresh_pipe = 0 ↔ ∀ o, ¬ endpoint piped KIND_PIPE_WRITE 0 o).
Proof.
  assert (Hp : pipes piped !! 0%nat = Some fresh_pipe) by reflexivity.
  split; [exact Hp|]. exact (proj1 (proj2 (pipe_ends_exact piped [] 0 _ piped_reachable Hp))).
Defined.
