(* ===== verification/Paging.v ===== *)
(** [kernel/mm/paging.c]: the virtual memory manager, four levels of page tables in
    physical memory.

    Physical memory is a map from frame addresses to the words of the frame, 512 of them;
    a frame that was never written reads as zeros.  The code reaches frames through the
    direct map at [hhdm_offset], which cancels: a table pointer is here the physical
    address of its frame.  An operation that maps, unmaps, protects, creates or destroys holds
    [paging_lock] while it touches tables, so it is one function from state to state.
    [vmm_clone_user_as] does not: it walks the tables of the parent without the lock, which
    only the parent changes, fills tables of a child nobody else knows yet, and takes the
    lock for each page it maps.  It is one function here too, like the operations that first
    allocate a frame and then map it; what other processors do between their parts is not
    modelled.  The frames come from the allocator of [Pmm].
    Translations cached by a processor are outside the model, so invalidating them does
    nothing here. *)

From S2P Require Import Prelude Bitmap Pmm.

Definition PAGE_MASK : Z := 0xFFFFFFFFFFFFF000.
Definition PAGING_PRESENT : Z := 1.
Definition PAGING_WRITABLE : Z := 2.
Definition PAGING_USER : Z := 4.
Definition PAGING_NX : Z := 2 ^ 63.
Definition KZ_SHM_BASE : Z := 0x50000000.
Definition KZ_SHM_SLOT_SIZE : Z := 0x800000.
Definition KZ_SHM_MAX_RES : Z := 16.
Definition KZ_SHM_END : Z := KZ_SHM_BASE + KZ_SHM_MAX_RES * KZ_SHM_SLOT_SIZE.

Definition pte_frame (e : Z) : Z := Z.land (Z.land e PAGE_MASK) (u64 (Z.lnot PAGING_NX)).
Definition pte_flags (e : Z) : Z :=
  Z.lor (Z.land e (u64 (Z.lnot PAGE_MASK))) (Z.land e PAGING_NX).

Definition kz_shm_va_excluded (va : Z) : bool := (KZ_SHM_BASE <=? va) && (va <? KZ_SHM_END).

(** [e & 1] and [e & (1 << 7)] as conditions, and the table an entry points to. *)
Definition present (e : Z) : bool := Z.testbit e 0.
Definition huge (e : Z) : bool := Z.testbit e 7.
Definition writable (e : Z) : bool := Z.testbit e 1.
Definition next_table (e : Z) : Z := Z.land e PAGE_MASK.

Definition PML4_IDX (va : Z) : Z := Z.land (Z.shiftr va 39) 0x1FF.
Definition PDPT_IDX (va : Z) : Z := Z.land (Z.shiftr va 30) 0x1FF.
Definition PD_IDX (va : Z) : Z := Z.land (Z.shiftr va 21) 0x1FF.
Definition PT_IDX (va : Z) : Z := Z.land (Z.shiftr va 12) 0x1FF.

#[global] Arguments PML4_IDX : simpl never.
#[global] Arguments PDPT_IDX : simpl never.
#[global] Arguments PD_IDX : simpl never.
#[global] Arguments PT_IDX : simpl never.

(** ** State *)

(** [cr3] is the register of this processor, [cpu_cr3] the copy in its [percpu_t], if the
    processor has one. *)
Record vmm := mkVmm {
  frames : pmm; mem : gmap Z (gmap Z Z); current_pml4 : option Z; kernel_pml4_phys : Z;
  cr3 : Z; cpu_cr3 : option Z
}.

Implicit Types (t : vmm).

Definition set_frames (v : pmm) t : vmm :=
  mkVmm v (mem t) (current_pml4 t) (kernel_pml4_phys t) (cr3 t) (cpu_cr3 t).
Definition set_mem (v : gmap Z (gmap Z Z)) t : vmm :=
  mkVmm (frames t) v (current_pml4 t) (kernel_pml4_phys t) (cr3 t) (cpu_cr3 t).
Definition set_cr3 (v : Z) t : vmm :=
  mkVmm (frames t) (mem t) (current_pml4 t) (kernel_pml4_phys t) v ((λ _, v) <$> cpu_cr3 t).

Definition page_of t (f : Z) : gmap Z Z := default ∅ (mem t !! f).
Definition rd t (f i : Z) : Z := default 0 (page_of t f !! i).
Definition wr (f i v : Z) t : vmm := set_mem (<[f := <[i := v]> (page_of t f)]> (mem t)) t.

Definition free_frame (f : Z) t : vmm := set_frames (pmm_free_page f (frames t)).2 t.

(** [if (pmm_owns_page(f)) pmm_free_page(f)] *)
Definition free_owned (f : Z) t : vmm :=
  if pmm_owns_page f (frames t) =? 0 then t else free_frame f t.

(** ** Flags *)
Definition paging_nx_flag (nx_enabled : bool) : Z := if nx_enabled then PAGING_NX else 0.

Definition paging_user_rw_nx (nx_enabled : bool) : Z :=
  Z.lor (Z.lor (Z.lor PAGING_PRESENT PAGING_WRITABLE) PAGING_USER) (paging_nx_flag nx_enabled).

(** ** Tables *)
Definition alloc_page_virt t : option Z * vmm :=
  let '(p, ph) := pmm_alloc_page (frames t) in
  let t := set_frames ph t in
  if p =? PHYS_NULL then (None, t) else (Some p, set_mem (<[p := ∅]> (mem t)) t).

(** [None] is the kernel panic when no frame is left. *)
Definition init_paging t : option vmm :=
  let root := next_table (cr3 t) in
  let t := mkVmm (frames t) (mem t) (Some root) root (cr3 t) (cpu_cr3 t) in
  match for_range 256 512 (λ i t,
          if present (rd t root i) then inr t else
          match alloc_page_virt t with
          | (None, _) => inl tt
          | (Some p, t) => inr (wr root i (Z.lor p 7) t)
          end) t with
  | inl _ => None
  | inr t => Some t
  end.

(** The table an entry points to, allocated if the entry is absent. *)
Definition ensure_table (f i : Z) t : option Z * vmm :=
  if present (rd t f i) then (Some (next_table (rd t f i)), t) else
  match alloc_page_virt t with
  | (None, t) => (None, t)
  | (Some p, t) => let t := wr f i (Z.lor p 7) t in (Some (next_table (rd t f i)), t)
  end.

(** The body shared by the two mapping functions, below the table [root]: the descent to
    the page table, and the mapping. *)
Definition reach_pt (root vaddr : Z) t : option Z * vmm :=
  match ensure_table root (PML4_IDX vaddr) t with
  | (None, t) => (None, t)
  | (Some pdpt, t) =>
      if huge (rd t pdpt (PDPT_IDX vaddr)) then (None, t) else
      match ensure_table pdpt (PDPT_IDX vaddr) t with
      | (None, t) => (None, t)
      | (Some pd, t) =>
          if huge (rd t pd (PD_IDX vaddr)) then (None, t) else ensure_table pd (PD_IDX vaddr) t
      end
  end.

Definition map_at (root vaddr paddr flags : Z) t : Z * vmm :=
  match reach_pt root vaddr t with
  | (None, t) => (0, t)
  | (Some pt, t) => (1, wr pt (PT_IDX vaddr) (Z.lor (Z.land paddr PAGE_MASK) flags) t)
  end.

Definition vmm_map_page_into (vaddr paddr flags target_pml4_phys : Z) t : Z * vmm :=
  if target_pml4_phys =? PHYS_NULL then (0, t) else map_at target_pml4_phys vaddr paddr flags t.

Definition vmm_map_page (vaddr paddr flags : Z) t : Z * vmm :=
  match current_pml4 t with
  | None => (0, t)
  | Some root => map_at root vaddr paddr flags t
  end.

(** The descent of the functions that change an existing entry: the page table for
    [vaddr], [None] at an absent or huge entry. *)
Definition walk_pt (root vaddr : Z) t : option Z :=
  if negb (present (rd t root (PML4_IDX vaddr))) then None else
  let pdpt := next_table (rd t root (PML4_IDX vaddr)) in
  let e3 := rd t pdpt (PDPT_IDX vaddr) in
  if negb (present e3) || huge e3 then None else
  let pd := next_table e3 in
  let e2 := rd t pd (PD_IDX vaddr) in
  if negb (present e2) || huge e2 then None else Some (next_table e2).

Definition vmm_unmap_page (vaddr : Z) t : Z * vmm :=
  match current_pml4 t with
  | None => (0, t)
  | Some root =>
      match walk_pt root vaddr t with
      | None => (0, t)
      | Some pt => if negb (present (rd t pt (PT_IDX vaddr))) then (0, t)
                   else (1, wr pt (PT_IDX vaddr) 0 t)
      end
  end.

(** [(p != PHYS_NULL) ? p : current_pml4] *)
Definition root_or_kernel (pml4_phys : Z) t : option Z :=
  if pml4_phys =? PHYS_NULL then current_pml4 t else Some pml4_phys.

Definition vmm_protect_page_into (vaddr new_flags target_pml4_phys : Z) t : Z * vmm :=
  match root_or_kernel target_pml4_phys t with
  | None => (0, t)
  | Some root =>
      match walk_pt root vaddr t with
      | None => (0, t)
      | Some pt =>
          let e := rd t pt (PT_IDX vaddr) in
          if negb (present e) then (0, t)
          else (1, wr pt (PT_IDX vaddr) (Z.lor (Z.land e PAGE_MASK) new_flags) t)
      end
  end.

Definition vmm_unmap_page_from (vaddr target_pml4_phys : Z) t : Z * vmm :=
  match root_or_kernel target_pml4_phys t with
  | None => (PHYS_NULL, t)
  | Some root =>
      match walk_pt root vaddr t with
      | None => (PHYS_NULL, t)
      | Some pt =>
          let e := rd t pt (PT_IDX vaddr) in
          if negb (present e) then (PHYS_NULL, t)
          else (pte_frame e, wr pt (PT_IDX vaddr) 0 t)
      end
  end.

(** ** Allocation and queries *)
Definition vmm_alloc_page_into (vaddr flags target_pml4 : Z) t : Z * vmm :=
  let '(paddr, ph) := pmm_alloc_page (frames t) in
  let t := set_frames ph t in
  if paddr =? PHYS_NULL then (0, t) else
  let '(ok, t) := if negb (target_pml4 =? PHYS_NULL)
                  then vmm_map_page_into vaddr paddr flags target_pml4 t
                  else vmm_map_page vaddr paddr flags t in
  if ok =? 0 then (0, free_frame paddr t) else (1, t).

Definition vmm_alloc_page (vaddr flags : Z) t : Z * vmm := vmm_alloc_page_into vaddr flags PHYS_NULL t.

Definition paging_map_region (vaddr : Z) t : Z * vmm := vmm_alloc_page vaddr 7 t.

Definition walk_is_mapped (check_pml4 : option Z) (vaddr : Z) t : Z :=
  match check_pml4 with
  | None => 0
  | Some root =>
      let e4 := rd t root (PML4_IDX vaddr) in
      if negb (present e4) then 0 else
      let e3 := rd t (next_table e4) (PDPT_IDX vaddr) in
      if negb (present e3) then 0 else
      if huge e3 then 1 else
      let e2 := rd t (next_table e3) (PD_IDX vaddr) in
      if negb (present e2) then 0 else
      if huge e2 then 1 else
      cbool (present (rd t (next_table e2) (PT_IDX vaddr)))
  end.

Definition paging_is_mapped_into (vaddr pml4_phys : Z) t : Z :=
  walk_is_mapped (root_or_kernel pml4_phys t) vaddr t.

Definition paging_is_mapped (vaddr : Z) t : Z := paging_is_mapped_into vaddr PHYS_NULL t.

Definition paging_is_mapped_nolock (vaddr : Z) t : Z := walk_is_mapped (current_pml4 t) vaddr t.

Definition vmm_map_page_kernel (vaddr paddr flags : Z) t : Z * vmm :=
  vmm_map_page_into vaddr paddr flags (kernel_pml4_phys t) t.

Definition vmm_alloc_page_kernel (vaddr flags : Z) t : Z * vmm :=
  let '(paddr, ph) := pmm_alloc_page (frames t) in
  let t := set_frames ph t in
  if paddr =? PHYS_NULL then (0, t) else
  let '(ok, t) := vmm_map_page_kernel vaddr paddr flags t in
  if ok =? 0 then (0, free_frame paddr t) else (1, t).

(** ** Address spaces *)
Definition vmm_create_address_space t : Z * vmm :=
  match current_pml4 t with
  | None => (PHYS_NULL, t)
  | Some kernel =>
      match alloc_page_virt t with
      | (None, t) => (PHYS_NULL, t)
      | (Some p, t) => (p, for_each 256 512 (λ i t, wr p i (rd t kernel i) t) t)
      end
  end.

(** [(p4 << 39) | (p3 << 30) | (p2 << 21) | (p1 << 12)] *)
Definition va_of (p4 p3 p2 p1 : Z) : Z :=
  Z.lor (Z.lor (Z.lor (Z.shiftl p4 39) (Z.shiftl p3 30)) (Z.shiftl p2 21)) (Z.shiftl p1 12).

(** The four nested loops of [vmm_destroy_address_space], innermost first: a page, a page
    table, a page directory, a directory pointer table. *)
Definition destroy_page (pt p4 p3 p2 p1 : Z) t : vmm :=
  let e := rd t pt p1 in
  if negb (present e) then t else
  if kz_shm_va_excluded (va_of p4 p3 p2 p1) then wr pt p1 0 t
  else wr pt p1 0 (free_owned (pte_frame e) t).

Definition destroy_pt (pd p4 p3 p2 : Z) t : vmm :=
  let e := rd t pd p2 in
  if negb (present e) then t else
  if huge e then wr pd p2 0 t else
  let t := for_each 0 512 (destroy_page (next_table e) p4 p3 p2) t in
  wr pd p2 0 (free_owned (next_table e) t).

Definition destroy_pd (pdpt p4 p3 : Z) t : vmm :=
  let e := rd t pdpt p3 in
  if negb (present e) then t else
  if huge e then wr pdpt p3 0 t else
  let t := for_each 0 512 (destroy_pt (next_table e) p4 p3) t in
  wr pdpt p3 0 (free_owned (next_table e) t).

Definition destroy_pdpt (pml4 p4 : Z) t : vmm :=
  let e := rd t pml4 p4 in
  if negb (present e) then t else
  if huge e then wr pml4 p4 0 t else
  let t := for_each 0 512 (destroy_pd (next_table e) p4) t in
  wr pml4 p4 0 (free_owned (next_table e) t).

Definition vmm_destroy_address_space (pml4_phys : Z) (free_pml4 : bool) t : vmm :=
  if pml4_phys =? PHYS_NULL then t else
  let t := for_each 0 256 (destroy_pdpt pml4_phys) t in
  if free_pml4 then free_owned pml4_phys t else t.

(** The nested loops of [vmm_clone_user_as]: [inl] is the jump to [oom]. *)
Definition clone_page (child ppt p4 p3 p2 p1 : Z) t : vmm + vmm :=
  let e1 := rd t ppt p1 in
  if negb (present e1) then inr t else
  let vaddr := va_of p4 p3 p2 p1 in
  if kz_shm_va_excluded vaddr then inr t else
  let src := pte_frame e1 in
  let '(dst, ph) := pmm_alloc_page (frames t) in
  let t := set_frames ph t in
  if dst =? PHYS_NULL then inl t else
  let t := set_mem (<[dst := page_of t src]> (mem t)) t in
  let '(ok, t) := vmm_map_page_into vaddr dst (pte_flags e1) child t in
  if ok =? 0 then inl (free_frame dst t) else inr t.

Definition clone_below (parent p : Z) (body : Z → Z → vmm → vmm + vmm) t : vmm + vmm :=
  let e := rd t parent p in
  if negb (present e) || huge e then inr t else for_range 0 512 (body (next_table e)) t.

Definition vmm_clone_user_as (parent_pml4_phys : Z) t : Z * vmm :=
  if (parent_pml4_phys =? PHYS_NULL) || negb (bool_decide (is_Some (current_pml4 t)))
  then (PHYS_NULL, t) else
  let '(child, t) := vmm_create_address_space t in
  if child =? PHYS_NULL then (PHYS_NULL, t) else
  match for_range 0 256 (λ p4, clone_below parent_pml4_phys p4 (λ ppdpt p3,
          clone_below ppdpt p3 (λ ppd p2,
          clone_below ppd p2 (λ ppt p1, clone_page child ppt p4 p3 p2 p1)))) t with
  | inl t => (PHYS_NULL, vmm_destroy_address_space child true t)
  | inr t => (child, t)
  end.

(** ** The address space in use *)
Definition vmm_read_cr3 t : Z := next_table (cr3 t).

Definition vmm_switch_pml4 (pml4_phys : Z) t : vmm :=
  if pml4_phys =? PHYS_NULL then t else set_cr3 pml4_phys t.

Definition vmm_switch_to_kernel_as t : vmm :=
  if kernel_pml4_phys t =? PHYS_NULL then t else set_cr3 (kernel_pml4_phys t) t.

Definition vmm_get_kernel_pml4_phys t : Z := kernel_pml4_phys t.

Definition vmm_destroy_task_as (pml4_phys : Z) t : vmm :=
  if pml4_phys =? PHYS_NULL then t
  else vmm_destroy_address_space pml4_phys true (vmm_switch_to_kernel_as t).
