(* ===== verification/PagingSpec.v ===== *)
(** Page tables as maps (definitions in [Paging]): mapping, unmapping and changing the
    protection of a page act on the translation of the address space as the operations of
    a map, and touch no other page of any address space.

    The ghost state of the proofs gives every table frame a tag: whose table it is and the
    indices that lead to it.  Tables for the upper half belong to the kernel and are shared;
    a table for the lower half belongs to one address space. *)

From S2P Require Import Prelude Bitmap Pmm Paging.

(** ** The frame allocator *)
Lemma alloc_frame p bm :
  pmm_wf p bm →
  (pmm_alloc_page p = (PHYS_NULL, p) ∧ ∀ j, ¬ is_free p j) ∨
  ∃ i p' bm', pmm_alloc_page p = (i * PAGE_SIZE, p') ∧ kernel_lock_pages ≤ i < total_pages p ∧ i < 2 ^ 52 ∧
    total_pages p' = total_pages p ∧ used_pages p' = used_pages p + 1 ∧ is_free p i ∧ pmm_wf p' bm' ∧ ∀ j, is_free p' j ↔ is_free p j ∧ j ≠ i.
Proof.
  intros Hwf. pose proof (pmm_alloc_page_ok p bm Hwf) as Ha. pose proof (wf_limit _ _ Hwf) as Hlim.
  pose proof (wf_total _ _ Hwf) as Htot. pose proof (wf_room _ _ Hwf) as Hroom.
  destruct (pmm_alloc_page p) as [r p'] eqn:E. pose proof (alloc_total p r p' E) as Ht.
  destruct Ha as [(i & Hi & Hb & _ & -> & Hu & Hwf')|(-> & -> & Hfull)]; [right|left].
  2: { split; [done|]. intros j (b & Hb' & Hj & Hbit). rewrite (wf_bitmap _ _ Hwf) in Hb'. simplify_eq.
       by rewrite Hfull in Hbit. }
  assert (Hk : 0 < kernel_lock_pages) by done.
  exists i, p', (bitmap_set bm i). split_and!; try done; try lia.
  - exists bm. split_and!; [apply Hwf|lia|lia|done].
  - intros j. unfold is_free. rewrite Ht. split.
    + intros (b & Hb' & Hj & Hbit). rewrite (wf_bitmap _ _ Hwf') in Hb'. injection Hb' as <-.
      rewrite bit_at_set in Hbit by lia. destruct (Z.eqb_spec i j); [done|].
      split; [|done]. exists bm. split; [apply Hwf|]. split; [lia|done].
    + intros [(b & Hb' & Hj & Hbit) Hne]. rewrite (wf_bitmap _ _ Hwf) in Hb'. injection Hb' as <-.
      exists (bitmap_set bm i). split; [apply Hwf'|]. split; [lia|]. rewrite bit_at_set by lia.
      by destruct (Z.eqb_spec i j).
Qed.

(** ** Entries *)
Lemma next_table_eq e : 0 ≤ e < 2 ^ 64 → next_table e = e / 4096 * 4096.
Proof.
  intros He. unfold next_table. change PAGE_MASK with (Z.ldiff (Z.ones 64) (Z.ones 12)).
  by rewrite land_high_mask by lia.
Qed.

Lemma lor_low p k n : 0 ≤ n → 0 ≤ k < 2 ^ n → p mod 2 ^ n = 0 → Z.lor p k = p + k.
Proof.
  intros Hn Hk Hp. rewrite Z.add_nocarry_lxor; [symmetry; apply Z.lxor_lor|];
    apply Z.bits_inj'; intros i Hi; rewrite Z.land_spec, Z.bits_0.
  all: destruct (decide (i < n)) as [Hin|Hin];
    [rewrite <- (Z.mod_pow2_bits_low p n i Hin), Hp, Z.bits_0; done|].
  all: rewrite <- (Z.mod_small k (2 ^ n) Hk), Z.mod_pow2_bits_high by lia; apply andb_false_r.
Qed.

(** An entry that links to a table. *)
Lemma link_entry p : 0 ≤ p < 2 ^ 64 → p mod 4096 = 0 →
  0 ≤ Z.lor p 7 < 2 ^ 64 ∧ present (Z.lor p 7) = true ∧ huge (Z.lor p 7) = false ∧
  next_table (Z.lor p 7) = p.
Proof.
  intros Hp Hm. rewrite (lor_low p 7 12) by (done || lia).
  assert (Hr : 0 ≤ p + 7 < 2 ^ 64) by zdiv.
  split_and!; try lia.
  - unfold present. rewrite Z.bit0_odd, Z.odd_add. replace (Z.odd p) with false; [done|].
    symmetry. rewrite Zodd_mod. zdiv.
  - unfold huge. rewrite Z.testbit_eqb by lia. apply Z.eqb_neq. zdiv.
  - rewrite next_table_eq by lia. zdiv.
Qed.

(** ** Translation *)

(** The entry for a page, from the indices of the levels; the huge bit ends the walk below
    the top level. *)
Fixpoint trans t (f : Z) (top : bool) (ix : list Z) : option Z :=
  match ix with
  | [] => None
  | i :: ix =>
      let e := rd t f i in
      match ix with
      | [] => if present e then Some e else None
      | _ => if present e && (top || negb (huge e)) then trans t (next_table e) false ix else None
      end
  end.

Definition indices (va : Z) : list Z := [PML4_IDX va; PDPT_IDX va; PD_IDX va; PT_IDX va].

(** The page table entry that translates [va] in the address space with root [root]. *)
Definition translate t (root va : Z) : option Z := trans t root true (indices va).

Lemma translate_walk t root va :
  translate t root va =
  match walk_pt root va t with
  | None => None
  | Some pt => let e := rd t pt (PT_IDX va) in if present e then Some e else None
  end.
Proof.
  unfold translate, indices, walk_pt. cbn [trans].
  destruct (present (rd t root _)); [|done]. cbn [negb andb orb].
  destruct (present (rd t _ (PDPT_IDX va))), (huge (rd t _ (PDPT_IDX va))); cbn [negb andb orb]; try done.
  by destruct (present (rd t _ (PD_IDX va))), (huge (rd t _ (PD_IDX va))).
Qed.

Definition in_table (i : Z) : Prop := 0 ≤ i < 512.

Lemma index_range x : in_table (Z.land x 0x1FF).
Proof. unfold in_table. change 0x1FF with (Z.ones 9). rewrite Z.land_ones by lia. by apply Z.mod_pos_bound. Qed.

Lemma indices_range va : Forall in_table (indices va).
Proof. unfold indices. repeat constructor; apply index_range. Qed.

(** ** Whose table a frame is *)
Inductive owner := OUser (root : Z) | OKernel.

#[global] Instance owner_eq_dec : EqDecision owner.
Proof. solve_decision. Defined.

Abbreviation tag := (owner * list Z)%type.

Definition kid (g : tag) (i : Z) : tag :=
  (match g.2 with [] => if 256 <=? i then OKernel else g.1 | _ => g.1 end, g.2 ++ [i]).

(** The tag of the place [ix] below a table. *)
Definition kids (g : tag) (ix : list Z) : tag := foldl kid g ix.

Definition place (root va : Z) : tag := kids (OUser root, []) (indices va).

Definition frame_ok (f : Z) : Prop := 0 < f < 2 ^ 64 ∧ f mod 4096 = 0.

(** A frame the allocator handed out. *)
Definition pmm_page t (f : Z) : Prop := PMM_KERNEL_ZONE_END ≤ f ∧ f / PAGE_SIZE < total_pages (frames t).

(** Entry [i] of the table [f] links to [c]. *)
Definition links t (f i c : Z) : Prop :=
  present (rd t f i) = true ∧ huge (rd t f i) = false ∧ next_table (rd t f i) = c.

(** The invariant: entries are words, tables are frames in use, links follow the tags, and
    the tables of the lower half of an address space form a tree of frames of its own, that
    came from the allocator unless the boot loader made them. *)
Record vm_ok (tags : gmap Z tag) t : Prop := {
  vk_pmm : ∃ bm, pmm_wf (frames t) bm;
  vk_word : ∀ f i, 0 ≤ rd t f i < 2 ^ 64;
  vk_frame : ∀ f g, tags !! f = Some g → frame_ok f ∧ ¬ is_free (frames t) (f / PAGE_SIZE);
  vk_root : ∀ f o, tags !! f = Some (o, []) → o = OUser f;
  vk_link : ∀ f g i, tags !! f = Some g → (length g.2 < 3)%nat → in_table i →
    present (rd t f i) = true → g.2 = [] ∨ huge (rd t f i) = false →
    tags !! next_table (rd t f i) = Some (kid g i);
  vk_len : ∀ f g, tags !! f = Some g → (length g.2 ≤ 3)%nat;
  vk_user : ∀ f r ix, tags !! f = Some (OUser r, ix) → ix ≠ [] → r ≠ kernel_pml4_phys t → pmm_page t f;
  vk_inj : ∀ f f' r ix, tags !! f = Some (OUser r, ix) → tags !! f' = Some (OUser r, ix) → f = f';
  vk_linked : ∀ c r ix i, tags !! c = Some (OUser r, ix ++ [i]) →
    ∃ f, tags !! f = Some (OUser r, ix) ∧ in_table i ∧ links t f i c
}.

Definition is_root (tags : gmap Z tag) (root : Z) : Prop := tags !! root = Some (OUser root, []).

Lemma kids_snd g ix : (kids g ix).2 = g.2 ++ ix.
Proof.
  revert g. induction ix as [|i ix IH]; intros g; simpl; [by rewrite app_nil_r|].
  fold (kids (kid g i) ix). rewrite IH. unfold kid. simpl. by rewrite <- app_assoc.
Qed.

Lemma rd_wr t f i v f' i' :
  rd (wr f i v t) f' i' = if decide (f' = f ∧ i' = i) then v else rd t f' i'.
Proof.
  unfold rd, wr, page_of. cbn [mem set_mem]. destruct (decide (f' = f)) as [->|Hf].
  - rewrite lookup_insert_eq. cbn [default option_map]. destruct (decide (i' = i)) as [->|Hi].
    + rewrite decide_True by done. simpl. by rewrite lookup_insert_eq.
    + rewrite decide_False by tauto. simpl. by rewrite lookup_insert_ne by done.
  - rewrite lookup_insert_ne by done. by rewrite decide_False by tauto.
Qed.

Lemma rd_set_frames t p f i : rd (set_frames p t) f i = rd t f i.
Proof. done. Qed.

(** A table below a given one. *)
Lemma kid_below g i : (kid g i).2 ≠ [] ∧ length (kid g i).2 = Datatypes.S (length g.2).
Proof. simpl. rewrite length_app. simpl. split; [by destruct g.2|lia]. Qed.

(** The table below a present entry of a tagged table. *)
Lemma step_tag tags t f g i :
  vm_ok tags t → tags !! f = Some g → (length g.2 < 3)%nat → in_table i → present (rd t f i) = true →
  bool_decide (g.2 = []) || negb (huge (rd t f i)) = true →
  tags !! next_table (rd t f i) = Some (kid g i).
Proof.
  intros Hok Hf Hl Hi Hp Hh. apply (vk_link _ _ Hok); try done.
  apply orb_true_iff in Hh as [Hh|Hh]; [left; by apply bool_decide_eq_true in Hh|right; by apply negb_true_iff].
Qed.

(** A translation depends on the tables only, and on those of its owner and the kernel. *)
Lemma trans_same_on (P : owner → Prop) tags t t' :
  vm_ok tags t → P OKernel → (∀ f g j, tags !! f = Some g → P g.1 → rd t' f j = rd t f j) →
  ∀ ix f g, tags !! f = Some g → (length g.2 + length ix = 4)%nat → Forall in_table ix → P g.1 →
    trans t' f (bool_decide (g.2 = [])) ix = trans t f (bool_decide (g.2 = [])) ix.
Proof.
  intros Hok HK Hs. induction ix as [|j ix IH]; intros f g Hf Hl Hix HP; [done|].
  apply Forall_cons in Hix as [Hj Hix]. cbn [trans]. rewrite (Hs f g j Hf HP).
  destruct ix as [|j' ix]; [done|]. destruct (present (rd t f j)) eqn:Hp; [|done]. cbn [andb].
  destruct (bool_decide (g.2 = []) || negb (huge (rd t f j))) eqn:Hh; [|done].
  pose proof (step_tag tags t f g j Hok Hf ltac:(simpl in Hl; lia) Hj Hp Hh) as Hk.
  destruct (kid_below g j) as [Hn Hlk]. specialize (IH _ _ Hk ltac:(simpl in *; lia) Hix).
  rewrite bool_decide_eq_false_2 in IH by done. apply IH. unfold kid. simpl.
  destruct g.2; [destruct (256 <=? j)|]; done.
Qed.

Lemma trans_same tags t t' root va :
  vm_ok tags t → is_root tags root → (∀ f g j, tags !! f = Some g → rd t' f j = rd t f j) →
  translate t' root va = translate t root va.
Proof.
  intros Hok Hr Hs. apply (trans_same_on (λ _, True) tags t t' Hok I ltac:(intros f g j Hf _; by apply (Hs f g))
    (indices va) root _ Hr eq_refl (indices_range va) I).
Qed.

(** ** Growth *)
Definition extends (tags tags' : gmap Z tag) : Prop :=
  tags ⊆ tags' ∧ ∀ r, is_root tags' r → is_root tags r.

Definition same_trans (tags : gmap Z tag) t t' : Prop :=
  ∀ root va, is_root tags root → translate t' root va = translate t root va.

Definition same_regs t t' : Prop :=
  current_pml4 t' = current_pml4 t ∧ kernel_pml4_phys t' = kernel_pml4_phys t ∧ cr3 t' = cr3 t ∧
  cpu_cr3 t' = cpu_cr3 t.

(** The effect of allocating frames and linking empty tables: entries that are present
    stay, no page gets mapped, new links are writable and not huge, new tables were free frames, and frames in use that are no
    tables keep their contents. *)
Record grown (tags : gmap Z tag) t (tags' : gmap Z tag) t' : Prop := {
  gr_ok : vm_ok tags' t';
  gr_ext : extends tags tags';
  gr_regs : same_regs t t';
  gr_trans : same_trans tags t t';
  gr_keep : ∀ f g i, tags !! f = Some g → present (rd t f i) = true → rd t' f i = rd t f i;
  gr_leaf : ∀ f g i, tags' !! f = Some g → length g.2 = 3%nat → present (rd t' f i) = true →
    tags !! f = Some g ∧ rd t' f i = rd t f i;
  gr_link : ∀ f g i, tags' !! f = Some g → (length g.2 < 3)%nat →
    (tags !! f = Some g ∧ rd t' f i = rd t f i) ∨ huge (rd t' f i) = false ∧ (present (rd t' f i) = true → writable (rd t' f i) = true);
  gr_new : ∀ f, tags !! f = None → is_Some (tags' !! f) → is_free (frames t) (f / PAGE_SIZE);
  gr_data : ∀ f, tags !! f = None → ¬ is_free (frames t) (f / PAGE_SIZE) → page_of t' f = page_of t f;
  gr_free : ∀ j, is_free (frames t') j → is_free (frames t) j;
  gr_total : total_pages (frames t') = total_pages (frames t)
}.

Lemma extends_lookup tags tags' f g : extends tags tags' → tags !! f = Some g → tags' !! f = Some g.
Proof. intros [H _] Hf. by eapply lookup_weaken. Qed.

Lemma same_regs_trans t1 t2 t3 : same_regs t1 t2 → same_regs t2 t3 → same_regs t1 t3.
Proof. intros (A1 & A2 & A3 & A4) (B1 & B2 & B3 & B4). split_and!; congruence. Qed.

Lemma grown_refl tags t : vm_ok tags t → grown tags t tags t.
Proof. intros Hok. constructor; try done; [by left|]. intros f Hf [g Hg]. congruence. Qed.

Lemma grown_trans tags1 t1 tags2 t2 tags3 t3 :
  grown tags1 t1 tags2 t2 → grown tags2 t2 tags3 t3 → grown tags1 t1 tags3 t3.
Proof.
  intros A B. pose proof (gr_ext _ _ _ _ A) as Hx. constructor.
  - apply B.
  - destruct Hx as [H1 R1], (gr_ext _ _ _ _ B) as [H2 R2]. split; [by etrans|auto].
  - eapply same_regs_trans; [apply A|apply B].
  - intros root va Hr. rewrite (gr_trans _ _ _ _ B) by (by apply (extends_lookup tags1)).
    by apply (gr_trans _ _ _ _ A).
  - intros f g i Hf Hp. pose proof (gr_keep _ _ _ _ A f g i Hf Hp) as He.
    rewrite (gr_keep _ _ _ _ B f g i); [done|by apply (extends_lookup tags1)|by rewrite He].
  - intros f g i Hf Hl Hp. destruct (gr_leaf _ _ _ _ B f g i Hf Hl Hp) as [Hf2 He]. rewrite He in Hp |- *.
    by apply (gr_leaf _ _ _ _ A).
  - intros f g i Hf Hl. destruct (gr_link _ _ _ _ B f g i Hf Hl) as [[Hf2 He]|?]; [|by right].
    rewrite He. by apply (gr_link _ _ _ _ A).
  - intros f Hf Hs. destruct (tags2 !! f) as [g|] eqn:E; [by apply (gr_new _ _ _ _ A)|].
    apply (gr_free _ _ _ _ A). by apply (gr_new _ _ _ _ B).
  - intros f Hf Hn. rewrite (gr_data _ _ _ _ B); [by apply (gr_data _ _ _ _ A)| |].
    + destruct (tags2 !! f) as [g|] eqn:E; [|done]. destruct Hn. by apply (gr_new _ _ _ _ A).
    + intros Hfr. by apply Hn, (gr_free _ _ _ _ A).
  - intros j Hj. apply (gr_free _ _ _ _ A). by apply (gr_free _ _ _ _ B).
  - rewrite (gr_total _ _ _ _ B). apply A.
Qed.

(** A frame taken from the allocator. *)
Definition fresh (tags : gmap Z tag) t t' (p : Z) : Prop :=
  tags !! p = None ∧ frame_ok p ∧ is_free (frames t) (p / PAGE_SIZE) ∧
  ¬ is_free (frames t') (p / PAGE_SIZE) ∧ pmm_page t' p.

(** A state in which one frame was taken from the allocator, and nothing outside that frame
    was written. *)
Lemma take_frame_ok tags t i p' bm' t' :
  vm_ok tags t → kernel_lock_pages ≤ i < total_pages (frames t) → i < 2 ^ 52 →
  total_pages p' = total_pages (frames t) → is_free (frames t) i → pmm_wf p' bm' →
  (∀ j, is_free p' j ↔ is_free (frames t) j ∧ j ≠ i) →
  frames t' = p' → same_regs t t' → (∀ f, f ≠ i * PAGE_SIZE → page_of t' f = page_of t f) →
  (∀ j, 0 ≤ rd t' (i * PAGE_SIZE) j < 2 ^ 64) →
  grown tags t tags t' ∧ fresh tags t t' (i * PAGE_SIZE).
Proof.
  intros Hok Hi Hlim Htot Hfree Hwf' Hf' Hfr Hregs Hpg Hcw.
  assert (Hzone : kernel_lock_pages * 4096 = PMM_KERNEL_ZONE_END ∧ 0 < kernel_lock_pages) by done.
  unfold PAGE_SIZE in *. assert (Hd : i * 4096 / 4096 = i) by (apply Z.div_mul; lia).
  assert (Hrd : ∀ f j, f ≠ i * 4096 → rd t' f j = rd t f j).
  { intros f j Hf. unfold rd. by rewrite Hpg. }
  assert (Hnone : tags !! (i * 4096) = None).
  { destruct (tags !! (i * 4096)) as [g|] eqn:E; [|done]. destruct (vk_frame _ _ Hok _ _ E) as [_ Hn].
    unfold PAGE_SIZE in Hn. by rewrite Hd in Hn. }
  assert (Hsame : ∀ f g j, tags !! f = Some g → rd t' f j = rd t f j) by (intros f g j Hf; apply Hrd; congruence).
  split.
  2: { unfold fresh, pmm_page, PAGE_SIZE. rewrite Hd, Hfr, Hf'. split_and!; [done|split; [lia|zdiv]|done|tauto|lia|lia]. }
  constructor; rewrite ?Hfr; try done.
  - destruct Hok as [K1 K2 K3 K4 K5 K6 K7 K8 K9]. constructor; rewrite ?Hfr; try done.
    + by exists bm'.
    + intros f j. destruct (decide (f = i * 4096)) as [->|]; [done|]. rewrite Hrd by done. apply K2.
    + intros f g Hg. destruct (K3 f g Hg) as [Hf Hn]. split; [done|]. rewrite Hf'. tauto.
    + intros f g j Hg. rewrite (Hsame f g j Hg). by apply K5.
    + intros f r ix Hg Hix. rewrite (proj1 (proj2 Hregs)). intros Hr. unfold pmm_page. rewrite Hfr, Htot. by apply (K7 f r ix).
    + intros x r ix j Hc. destruct (K9 x r ix j Hc) as (f & Hf & Hj & Hlk). exists f. split; [done|]. split; [done|].
      unfold links in *. by rewrite (Hsame f _ j Hf).
  - intros root va Hr. by apply (trans_same tags).
  - intros f g j Hf _. by apply (Hsame f g).
  - intros f g j Hf _ _. split; [done|]. by apply (Hsame f g).
  - intros f g j Hf _. left. split; [done|]. by apply (Hsame f g).
  - intros f Hf [g Hg]. congruence.
  - intros f Hf Hn. apply Hpg. intros ->. unfold PAGE_SIZE in Hn. by rewrite Hd in Hn.
  - intros j. rewrite Hf'. tauto.
Qed.

(** A fresh table: a frame that was free, zeroed. *)
Lemma alloc_table_ok tags t :
  vm_ok tags t →
  let '(r, t') := alloc_page_virt t in
  grown tags t tags t' ∧ used_pages (frames t') ≤ used_pages (frames t) + 1 ∧
  match r with
  | None => t' = t ∧ ∀ j, ¬ is_free (frames t') j
  | Some p => fresh tags t t' p ∧ ∀ f i, rd t' f i = if decide (f = p) then 0 else rd t f i
  end.
Proof.
  intros Hok. destruct (vk_pmm _ _ Hok) as [bm Hbm]. unfold alloc_page_virt.
  destruct (alloc_frame (frames t) bm Hbm) as [[-> Hno]|(i & p' & bm' & -> & Hi & Hlim & Htot & Hu & Hfree & Hwf' & Hf')].
  { rewrite Z.eqb_refl. assert (Ht : set_frames (frames t) t = t) by (by destruct t). rewrite Ht.
    split; [by apply grown_refl|]. split; [lia|done]. }
  destruct (Z.eqb_spec (i * PAGE_SIZE) PHYS_NULL) as [H0|H0].
  { pose proof (zone_page_pos i ltac:(lia)). unfold PHYS_NULL in H0. lia. }
  set (t' := set_mem _ _).
  assert (Hpg : ∀ f, page_of t' f = if decide (f = i * PAGE_SIZE) then ∅ else page_of t f).
  { intros f. unfold page_of, t'. cbn [mem set_mem set_frames]. case_decide as Hf.
    - subst. by rewrite lookup_insert_eq.
    - by rewrite lookup_insert_ne by done. }
  assert (Hrd : ∀ f j, rd t' f j = if decide (f = i * PAGE_SIZE) then 0 else rd t f j).
  { intros f j. unfold rd at 1. rewrite Hpg. by case_decide. }
  destruct (take_frame_ok tags t i p' bm' t' Hok Hi Hlim Htot Hfree Hwf' Hf') as (Hg & Hfr); try done.
  3: { split; [done|]. split; [|done]. unfold t'. cbn [frames set_mem set_frames]. lia. }
  - intros f Hf. by rewrite Hpg, decide_False.
  - intros j. by rewrite Hrd, decide_True.
Qed.

(** A walk through a table of zeros finds nothing. *)
Lemma trans_zero t c top ix : (∀ i, rd t c i = 0) → trans t c top ix = None.
Proof. intros Hz. destruct ix as [|i [|j ix]]; simpl; [done| |]; by rewrite Hz. Qed.

(** Linking a fresh table changes no translation. *)
Lemma link_trans tags t t' f i c g :
  vm_ok tags t → tags !! f = Some g → (length g.2 < 3)%nat → tags !! c = None →
  present (rd t f i) = false → next_table (rd t' f i) = c → (∀ j, rd t' c j = 0) →
  (∀ f' i', f' ≠ c → ¬ (f' = f ∧ i' = i) → rd t' f' i' = rd t f' i') →
  ∀ ix f0 g0, tags !! f0 = Some g0 → (length g0.2 + length ix = 4)%nat → Forall in_table ix →
    trans t' f0 (bool_decide (g0.2 = [])) ix = trans t f0 (bool_decide (g0.2 = [])) ix.
Proof.
  intros Hok Hf Hlen Hc Habs Hnext Hzero Hsame. induction ix as [|j ix IH]; intros f0 g0 H0 Hl Hix; [done|].
  apply Forall_cons in Hix as [Hj Hix]. assert (Hne : f0 ≠ c) by congruence. cbn [trans].
  destruct (decide (f0 = f ∧ j = i)) as [[-> ->]|Hd].
  - destruct ix as [|j' ix]; [rewrite Hf in H0; simplify_eq; simpl in Hl; lia|].
    rewrite Habs, Hnext. cbn [andb]. destruct (present _ && _); [|done]. by apply trans_zero.
  - rewrite (Hsame f0 j Hne Hd). destruct ix as [|j' ix]; [done|].
    destruct (present (rd t f0 j)) eqn:Hp; [|done]. cbn [andb].
    destruct (bool_decide (g0.2 = []) || negb (huge (rd t f0 j))) eqn:Hh; [|done].
    assert (Hk : tags !! next_table (rd t f0 j) = Some (kid g0 j)).
    { apply (vk_link _ _ Hok); try done; [simpl in Hl; lia|].
      apply orb_true_iff in Hh as [Hh|Hh]; [left; by apply bool_decide_eq_true in Hh|right].
      by apply negb_true_iff. }
    assert (Hlk : length (kid g0 j).2 = Datatypes.S (length g0.2)) by (simpl; rewrite length_app; simpl; lia).
    specialize (IH _ _ Hk ltac:(simpl in *; lia) Hix).
    rewrite bool_decide_eq_false_2 in IH; [done|]. intros E. rewrite E in Hlk. done.
Qed.

(** ** Descending with allocation *)

Lemma kid_user g i r ix j : kid g i = (OUser r, ix ++ [j]) → g = (OUser r, ix) ∧ i = j.
Proof.
  destruct g as [o ix']. unfold kid. simpl. intros Hk. injection Hk as Ho Hx. apply app_inj_tail in Hx as [-> ->].
  split; [|done]. destruct ix; [|by subst]. by destruct (256 <=? j); simplify_eq.
Qed.

Lemma link_wf tags t f i p g :
  vm_ok tags t → tags !! f = Some g → (length g.2 < 3)%nat → in_table i → present (rd t f i) = false →
  tags !! p = None → frame_ok p → ¬ is_free (frames t) (p / PAGE_SIZE) → pmm_page t p → (∀ j, rd t p j = 0) →
  vm_ok (<[p := kid g i]> tags) (wr f i (Z.lor p 7) t).
Proof.
  intros Hok Hf Hl Hi Habs Hp [Hp1 Hp2] Hfree Hpg Hz.
  destruct (link_entry p ltac:(lia) Hp2) as (Hw & Hpr & Hhu & Hnx). assert (Hfp : f ≠ p) by congruence.
  destruct (kid_below g i) as [Hn Hlk]. constructor.
  - apply Hok.
  - intros f' i'. rewrite rd_wr. case_decide; [done|]. apply (vk_word _ _ Hok).
  - intros f' g'. rewrite lookup_insert_Some. intros [[<- <-]|[_ Hg]]; [by split|]. by apply (vk_frame _ _ Hok) in Hg.
  - intros f' o. rewrite lookup_insert_Some. intros [[<- Hk]|[_ Hg]]; [by rewrite Hk in Hn|].
    by apply (vk_root _ _ Hok) in Hg.
  - intros f' g' j. rewrite lookup_insert_Some. intros [[<- <-]|[Hne Hg]] Hl' Hj; rewrite rd_wr.
    + rewrite decide_False by (intros [? _]; congruence). by rewrite Hz.
    + case_decide as Hd.
      * destruct Hd as [-> ->]. intros _ _. rewrite Hnx. rewrite lookup_insert_eq. congruence.
      * intros Hpr' Hh. pose proof (vk_link _ _ Hok f' g' j Hg Hl' Hj Hpr' Hh) as Hk.
        rewrite lookup_insert_ne; [done|]. congruence.
  - intros f' g'. rewrite lookup_insert_Some. intros [[_ <-]|[_ Hg]]; [lia|]. by apply (vk_len _ _ Hok f').
  - intros f' r ix. rewrite lookup_insert_Some. intros [[<- _]|[_ Hg]] Hix; [done|]. by apply (vk_user _ _ Hok f' r ix).
  - assert (Hnew : ∀ f' r ix, kid g i = (OUser r, ix) → tags !! f' = Some (OUser r, ix) → False).
    { intros f' r ix Hk Hf'. destruct ix as [|j ix _] using rev_ind; [by rewrite Hk in Hn|].
      destruct (kid_user g i r ix j Hk) as [-> ->]. destruct (vk_linked _ _ Hok f' r ix j Hf') as (f2 & Hf2 & _ & Hlk2).
      rewrite (vk_inj _ _ Hok f2 f r ix Hf2 Hf) in Hlk2. destruct Hlk2 as [? _]. congruence. }
    intros f1 f2 r ix. rewrite !lookup_insert_Some. intros [[<- Hk1]|[_ H1]] [[<- Hk2]|[_ H2]]; try done.
    + exfalso. by eapply Hnew.
    + exfalso. by eapply Hnew.
    + by apply (vk_inj _ _ Hok f1 f2 r ix).
  - intros c r ix j. rewrite lookup_insert_Some. intros [[<- Hk]|[Hne Hc]].
    + destruct (kid_user g i r ix j Hk) as [-> ->]. exists f. rewrite lookup_insert_ne by done.
      split_and!; try done; [by destruct Hi..|]. unfold links. rewrite rd_wr, decide_True by done. auto.
    + destruct (vk_linked _ _ Hok c r ix j Hc) as (f2 & Hf2 & Hj & Hlk2). exists f2.
      rewrite lookup_insert_ne by congruence. split_and!; try done; [by destruct Hj..|].
      unfold links in *. rewrite rd_wr, decide_False; [done|]. intros [-> ->]. destruct Hlk2 as [? _]. congruence.
Qed.

(** Linking a fresh table grows the address spaces by an empty table. *)
Lemma link_grown tags t t1 f i p g :
  vm_ok tags t → tags !! f = Some g → (length g.2 < 3)%nat → in_table i → present (rd t f i) = false →
  grown tags t tags t1 → fresh tags t t1 p → (∀ f i, rd t1 f i = if decide (f = p) then 0 else rd t f i) →
  grown tags t (<[p := kid g i]> tags) (wr f i (Z.lor p 7) t1).
Proof.
  intros Hok Hf Hl Hi Hp A (Hnone & Hfr & Hfree & Hnf & Hpg) Hrd. pose proof Hfr as [Hp1 Hp2].
  destruct (link_entry p ltac:(lia) Hp2) as (Hw & Hpr & Hhu & Hnx). assert (Hfp : f ≠ p) by congruence.
  assert (Hz : ∀ j, rd t1 p j = 0) by (intros j; rewrite Hrd; by rewrite decide_True).
  assert (Hrw : rd (wr f i (Z.lor p 7) t1) f i = Z.lor p 7) by (rewrite rd_wr; by rewrite decide_True).
  destruct (kid_below g i) as [Hn Hlk]. constructor; try apply A.
  - apply link_wf; try done; [apply A|]. by rewrite Hrd, decide_False.
  - split; [by apply insert_subseteq|]. intros r Hr. unfold is_root in *.
    apply lookup_insert_Some in Hr as [[_ Hk]|[_ Hr]]; [|done]. by rewrite Hk in Hn.
  - intros root va Hr. unfold translate.
    pose proof (link_trans tags t (wr f i (Z.lor p 7) t1) f i p g Hok Hf Hl Hnone Hp) as Hlt.
    rewrite Hrw in Hlt. specialize (Hlt Hnx).
    apply (Hlt ltac:(intros j; rewrite rd_wr, decide_False; [done|intros [? _]; congruence])
      ltac:(intros f' i' Hne Hd; rewrite rd_wr, decide_False, Hrd, decide_False; done)
      (indices va) root (OUser root, []) Hr eq_refl (indices_range va)).
  - intros f' g' i' Hf' Hp'. rewrite rd_wr, decide_False by (intros [-> ->]; congruence).
    by rewrite Hrd, decide_False by congruence.
  - intros f' g' i'. rewrite lookup_insert_Some, rd_wr. intros [[<- <-]|[Hne Hf']] Hl3.
    + rewrite decide_False by (intros [-> _]; done). by rewrite Hz.
    + rewrite decide_False by (intros [-> _]; rewrite Hf in Hf'; simplify_eq; lia).
      by rewrite Hrd, decide_False by done.
  - intros f' g' i'. rewrite lookup_insert_Some, rd_wr. intros [[<- <-]|[Hne Hf']] _.
    + rewrite decide_False by (intros [-> _]; done). right. by rewrite Hz.
    + case_decide as Hd; [right|left; by rewrite Hrd, decide_False by done].
      split; [done|]. intros _. unfold writable. rewrite Z.lor_spec. apply orb_true_r.
  - intros f' Hf' Hs. destruct (decide (p = f')) as [<-|Hne]; [done|].
    rewrite lookup_insert_ne in Hs by done. destruct Hs. congruence.
  - intros f' Hf' Hfr'. rewrite <- (gr_data _ _ _ _ A f' Hf' Hfr'). unfold page_of, wr. cbn [mem set_mem].
    by rewrite lookup_insert_ne by congruence.
Qed.

Lemma ensure_ok tags t f g i :
  vm_ok tags t → tags !! f = Some g → (length g.2 < 3)%nat → in_table i →
  g.2 = [] ∨ huge (rd t f i) = false →
  let '(r, t') := ensure_table f i t in
  ∃ tags', grown tags t tags' t' ∧ (∀ f' g' j, tags !! f' = Some g' → f' ≠ f → rd t' f' j = rd t f' j) ∧
    used_pages (frames t') ≤ used_pages (frames t) + 1 ∧
    match r with
    | None => ∀ j, ¬ is_free (frames t') j
    | Some c => tags' !! c = Some (kid g i) ∧ present (rd t' f i) = true ∧ next_table (rd t' f i) = c ∧
        (g.2 = [] ∨ huge (rd t' f i) = false) ∧ (t' = t ∨ ∀ j, rd t' c j = 0)
    end.
Proof.
  intros Hok Hf Hl Hi Hh. unfold ensure_table. destruct (present (rd t f i)) eqn:Hp.
  { exists tags. split; [by apply grown_refl|]. split_and!; try done; [lia|by apply (vk_link _ _ Hok)|by left]. }
  pose proof (alloc_table_ok tags t Hok) as Ha. destruct (alloc_page_virt t) as [[p|] t1].
  2: { exists tags. destruct Ha as (A & Hu & -> & Hno). auto. }
  destruct Ha as (A & Hu & Hfr & Hrd).
  exists (<[p := kid g i]> tags). split; [by apply (link_grown tags t t1 f i p g)|]. split.
  { intros f' g' j Hf' Hne. rewrite rd_wr, decide_False by tauto. rewrite Hrd, decide_False; [done|].
    destruct Hfr as [? _]. congruence. }
  split; [done|]. assert (Hfp : f ≠ p) by (destruct Hfr as [? _]; congruence). destruct Hfr as (_ & [Hp1 Hp2] & _). destruct (link_entry p ltac:(lia) Hp2) as (Hw & Hpr & Hhu & Hnx).
  assert (Hrw : rd (wr f i (Z.lor p 7) t1) f i = Z.lor p 7) by (rewrite rd_wr; by rewrite decide_True).
  rewrite Hrw, Hnx, lookup_insert_eq. split_and!; auto. right. intros j.
  rewrite rd_wr, decide_False by naive_solver. by rewrite Hrd, decide_True.
Qed.

(** ** Changing a page table entry *)
Lemma leaf_wf tags t pt g i v :
  vm_ok tags t → tags !! pt = Some g → length g.2 = 3%nat → 0 ≤ v < 2 ^ 64 → vm_ok tags (wr pt i v t).
Proof.
  intros Hok Hpt Hl Hv. constructor; try apply Hok.
  - intros f' i'. rewrite rd_wr. case_decide; [done|]. apply (vk_word _ _ Hok).
  - intros f' g' j Hg Hl'. rewrite rd_wr. case_decide as Hd; [|by apply (vk_link _ _ Hok)].
    destruct Hd as [-> _]. rewrite Hpt in Hg. simplify_eq. lia.
  - intros c r ix j Hc. destruct (vk_linked _ _ Hok c r ix j Hc) as (f & Hf & Hj & Hlk). exists f.
    split; [done|]. split; [done|]. unfold links in *. rewrite rd_wr, decide_False; [done|]. intros [-> _].
    rewrite Hpt in Hf. simplify_eq. pose proof (vk_len _ _ Hok c _ Hc) as Hlc. simpl in *. rewrite length_app in Hlc.
    simpl in Hlc. lia.
Qed.

Lemma leaf_trans tags t pt g i v :
  vm_ok tags t → tags !! pt = Some g → length g.2 = 3%nat →
  ∀ ix f0 g0, tags !! f0 = Some g0 → (length g0.2 + length ix = 4)%nat → Forall in_table ix →
    kids g0 ix ≠ kid g i →
    trans (wr pt i v t) f0 (bool_decide (g0.2 = [])) ix = trans t f0 (bool_decide (g0.2 = [])) ix.
Proof.
  intros Hok Hpt Hl. induction ix as [|j ix IH]; intros f0 g0 H0 Hlen Hix Hne; [done|].
  apply Forall_cons in Hix as [Hj Hix]. cbn [trans]. rewrite rd_wr. destruct ix as [|j' ix].
  - rewrite decide_False; [done|]. intros [-> ->]. apply Hne. rewrite Hpt in H0. by simplify_eq.
  - rewrite decide_False by (intros [-> _]; rewrite Hpt in H0; simplify_eq; simpl in Hlen; lia).
    destruct (present (rd t f0 j)) eqn:Hp; [|done]. cbn [andb].
    destruct (bool_decide (g0.2 = []) || negb (huge (rd t f0 j))) eqn:Hh; [|done].
    pose proof (step_tag tags t f0 g0 j Hok H0 ltac:(simpl in Hlen; lia) Hj Hp Hh) as Hk.
    destruct (kid_below g0 j) as [Hn Hlk]. specialize (IH _ _ Hk ltac:(simpl in *; lia) Hix Hne).
    by rewrite bool_decide_eq_false_2 in IH by done.
Qed.

(** The page table a walk reaches. *)
Lemma walk_pt_tag tags t root va pt :
  vm_ok tags t → is_root tags root → walk_pt root va t = Some pt →
  ∃ g, tags !! pt = Some g ∧ length g.2 = 3%nat ∧ place root va = kid g (PT_IDX va).
Proof.
  intros Hok Hr Hw. unfold walk_pt in Hw.
  destruct (present (rd t root (PML4_IDX va))) eqn:P4; [|done]. cbn [negb] in Hw.
  pose proof (step_tag tags t root _ (PML4_IDX va) Hok Hr ltac:(simpl; lia) (index_range _) P4 eq_refl) as H3.
  set (pdpt := next_table _) in *. destruct (present (rd t pdpt (PDPT_IDX va))) eqn:P3; [|done].
  destruct (huge (rd t pdpt (PDPT_IDX va))) eqn:G3; [done|]. cbn [negb orb] in Hw.
  pose proof (step_tag tags t pdpt _ (PDPT_IDX va) Hok H3 ltac:(simpl; lia) (index_range _) P3) as H2.
  rewrite G3 in H2. specialize (H2 eq_refl).
  set (pd := next_table (rd t pdpt _)) in *. destruct (present (rd t pd (PD_IDX va))) eqn:P2; [|done].
  destruct (huge (rd t pd (PD_IDX va))) eqn:G2; [done|]. cbn [negb orb] in Hw. injection Hw as <-.
  pose proof (step_tag tags t pd _ (PD_IDX va) Hok H2 ltac:(simpl; lia) (index_range _) P2) as H1.
  rewrite G2 in H1. specialize (H1 eq_refl). eexists. split; [exact H1|]. done.
Qed.

(** A walk depends on the tables above the page tables only. *)
Lemma walk_pt_ext tags t t' root va :
  vm_ok tags t → is_root tags root →
  (∀ f g j, tags !! f = Some g → (length g.2 < 3)%nat → rd t' f j = rd t f j) →
  walk_pt root va t' = walk_pt root va t.
Proof.
  intros Hok Hr Hs. unfold walk_pt. rewrite !(Hs root _ _ Hr ltac:(simpl; lia)).
  destruct (present (rd t root (PML4_IDX va))) eqn:P4; [|done]. cbn [negb].
  pose proof (step_tag tags t root _ (PML4_IDX va) Hok Hr ltac:(simpl; lia) (index_range _) P4 eq_refl) as H3.
  set (pdpt := next_table _) in *. rewrite !(Hs pdpt _ _ H3 ltac:(simpl; lia)).
  destruct (present (rd t pdpt (PDPT_IDX va))) eqn:P3; [|done].
  destruct (huge (rd t pdpt (PDPT_IDX va))) eqn:G3; [done|]. cbn [negb orb].
  pose proof (step_tag tags t pdpt _ (PDPT_IDX va) Hok H3 ltac:(simpl; lia) (index_range _) P3) as H2.
  rewrite G3 in H2. specialize (H2 eq_refl). by rewrite !(Hs _ _ _ H2 ltac:(simpl; lia)).
Qed.

(** Writing the entry of a page: its translation changes, no other does. *)
Lemma set_leaf tags t root va pt v :
  vm_ok tags t → is_root tags root → walk_pt root va t = Some pt → 0 ≤ v < 2 ^ 64 →
  let t' := wr pt (PT_IDX va) v t in
  vm_ok tags t' ∧ translate t' root va = (if present v then Some v else None) ∧
  ∀ root' va', is_root tags root' → place root' va' ≠ place root va →
    translate t' root' va' = translate t root' va'.
Proof.
  intros Hok Hr Hw Hv t'. destruct (walk_pt_tag tags t root va pt Hok Hr Hw) as (g & Hg & Hl & Hpl).
  split; [by apply (leaf_wf tags t pt g)|]. split.
  - assert (Hw' : walk_pt root va t' = Some pt).
    { rewrite <- Hw. apply (walk_pt_ext tags); try done. intros f g' j Hf Hl'. unfold t'. rewrite rd_wr.
      rewrite decide_False; [done|]. intros [-> _]. rewrite Hg in Hf. simplify_eq. lia. }
    rewrite translate_walk, Hw'. unfold t'. rewrite rd_wr, decide_True by done. done.
  - intros root' va' Hr' Hne. unfold translate.
    apply (leaf_trans tags t pt g (PT_IDX va) v Hok Hg Hl (indices va') root' (OUser root', []) Hr' eq_refl
      (indices_range va')). by rewrite <- Hpl.
Qed.

(** ** The operations *)

(** The entry a mapping installs. *)
Definition new_entry (paddr flags : Z) : Z := Z.lor (Z.land paddr PAGE_MASK) flags.

Lemma new_entry_u64 paddr flags : 0 ≤ paddr → 0 ≤ flags < 2 ^ 64 → 0 ≤ new_entry paddr flags < 2 ^ 64.
Proof.
  intros Hp Hf. unfold new_entry. assert (Hn : 0 ≤ Z.land paddr PAGE_MASK) by (apply Z.land_nonneg; lia).
  split; [apply Z.lor_nonneg; lia|].
  destruct (Z.eq_dec (Z.lor (Z.land paddr PAGE_MASK) flags) 0) as [->|Hz]; [lia|].
  apply Z.log2_lt_pow2; [pose proof (Z.lor_nonneg (Z.land paddr PAGE_MASK) flags); lia|].
  rewrite Z.log2_lor by lia. apply Z.max_lub_lt.
  - eapply Z.le_lt_trans; [apply Z.log2_land; [lia|done]|]. change (Z.log2 PAGE_MASK) with 63. lia.
  - destruct (Z.eq_dec flags 0) as [->|]; [done|]. apply Z.log2_lt_pow2; lia.
Qed.

(** The outcome of an operation on the page [va] of [root]: its entry is [e], every other
    page of every address space is as before. *)
Definition page_set (tags : gmap Z tag) t t' (root va : Z) (e : option Z) : Prop :=
  translate t' root va = e ∧
  ∀ root' va', is_root tags root' → place root' va' ≠ place root va →
    translate t' root' va' = translate t root' va'.

(** An entry with the huge bit is on the way to the page table. *)
Definition blocked (root va : Z) t : bool :=
  let e4 := rd t root (PML4_IDX va) in
  let e3 := rd t (next_table e4) (PDPT_IDX va) in
  present e4 && (huge e3 || present e3 && huge (rd t (next_table e3) (PD_IDX va))).

(** No frame is left. *)
Definition exhausted t : Prop := ∀ j, ¬ is_free (frames t) j.

(** Tables of other owners than the page and its address space are as before. *)
Definition same_outside (root va : Z) (tags : gmap Z tag) t t' : Prop :=
  ∀ f g j, tags !! f = Some g → g.1 ≠ OUser root → g.1 ≠ (place root va).1 → rd t' f j = rd t f j.

Lemma same_outside_step root va tags t1 tags2 t2 t3 f0 g0 :
  same_outside root va tags t1 t2 → extends tags tags2 → tags2 !! f0 = Some g0 →
  g0.1 = OUser root ∨ g0.1 = (place root va).1 →
  (∀ f g j, tags2 !! f = Some g → f ≠ f0 → rd t3 f j = rd t2 f j) → same_outside root va tags t1 t3.
Proof.
  intros Hs Hx H0 Ho H23 f g j Hf Hg1 Hg2. pose proof (extends_lookup _ _ _ _ Hx Hf) as Hf2.
  rewrite (H23 f g j Hf2); [by apply (Hs f g)|]. intros ->. rewrite H0 in Hf2. simplify_eq. tauto.
Qed.

Lemma reach_pt_ok tags t root va :
  vm_ok tags t → is_root tags root →
  let '(r, t') := reach_pt root va t in
  ∃ tags', grown tags t tags' t' ∧ same_outside root va tags t t' ∧
    used_pages (frames t') ≤ used_pages (frames t) + 3 ∧
    match r with
    | Some pt => walk_pt root va t' = Some pt
    | None => blocked root va t = true ∨ exhausted t'
    end.
Proof.
  intros Hok Hr. unfold reach_pt, blocked.
  pose proof (ensure_ok tags t root _ (PML4_IDX va) Hok Hr ltac:(simpl; lia) (index_range _) ltac:(by left)) as He.
  destruct (ensure_table root (PML4_IDX va) t) as [[pdpt|] t1]; destruct He as (g1 & A1 & F1 & U1 & Hc1);
    (assert (S1 : same_outside root va tags t t1)
       by (intros f g j Hf Hg1 _; apply (F1 f g j Hf); intros ->; rewrite Hr in Hf; by simplify_eq));
    [|exists g1; split_and!; auto; lia].
  destruct Hc1 as (Hg1 & Hp1 & Hn1 & _ & Z1).
  destruct (huge (rd t1 pdpt (PDPT_IDX va))) eqn:G3.
  { exists g1. split_and!; [done..|lia|left]. destruct Z1 as [->|Z1]; [by rewrite Hp1, Hn1, G3|by rewrite Z1 in G3]. }
  pose proof (ensure_ok g1 t1 pdpt _ (PDPT_IDX va) (gr_ok _ _ _ _ A1) Hg1 ltac:(simpl; lia) (index_range _)
    ltac:(by right)) as He.
  pose proof (extends_lookup _ _ _ _ (gr_ext _ _ _ _ A1) Hr) as Hr1.
  destruct (ensure_table pdpt (PDPT_IDX va) t1) as [[pd|] t2]; destruct He as (g2 & A2 & F2 & U2 & Hc2);
    pose proof (same_outside_step root va tags t g1 t1 t2 pdpt _ S1 (gr_ext _ _ _ _ A1) Hg1 ltac:(by right) F2) as S2;
    pose proof (grown_trans _ _ _ _ _ _ A1 A2) as A12; [|exists g2; split_and!; auto; lia].
  destruct Hc2 as (Hg2 & Hp2 & Hn2 & Hh2 & Z2). destruct Hh2 as [?|Hh2]; [done|].
  pose proof (gr_keep _ _ _ _ A2 root _ _ Hr1 Hp1) as E4.
  destruct (huge (rd t2 pd (PD_IDX va))) eqn:G2.
  { exists g2. split_and!; [done..|lia|left]. destruct Z2 as [->|Z2]; [|by rewrite Z2 in G2].
    destruct Z1 as [->|Z1]; [|by rewrite Z1 in Hp2]. by rewrite Hp1, Hn1, Hp2, Hn2, G2, orb_true_r. }
  pose proof (ensure_ok g2 t2 pd _ (PD_IDX va) (gr_ok _ _ _ _ A2) Hg2 ltac:(simpl; lia) (index_range _)
    ltac:(by right)) as He.
  destruct (ensure_table pd (PD_IDX va) t2) as [r t3]; destruct He as (g3 & A3 & F3 & U3 & Hc3).
  exists g3. split; [by eapply grown_trans|].
  split; [exact (same_outside_step root va tags t g2 t2 t3 pd _ S2 (gr_ext _ _ _ _ A12) Hg2 ltac:(by right) F3)|].
  split; [lia|]. destruct r as [pt|]; [|by right].
  destruct Hc3 as (Hg3 & Hp3 & Hn3 & Hh3 & _). destruct Hh3 as [?|Hh3]; [done|].
  pose proof (extends_lookup _ _ _ _ (gr_ext _ _ _ _ A12) Hr) as Hr2.
  pose proof (extends_lookup _ _ _ _ (gr_ext _ _ _ _ A2) Hg1) as Hg12.
  rewrite <- E4 in Hp1, Hn1. pose proof (gr_keep _ _ _ _ A3 root _ _ Hr2 Hp1) as E4'.
  pose proof (gr_keep _ _ _ _ A3 pdpt _ _ Hg12 Hp2) as E3'.
  unfold walk_pt. rewrite E4', Hp1, Hn1, E3', Hp2, Hh2, Hn2. cbn [negb orb]. by rewrite Hp3, Hh3, Hn3.
Qed.

(** An allocator without a free frame counts every frame as used. *)
Lemma exhausted_used tags t : vm_ok tags t → exhausted t → used_pages (frames t) = total_pages (frames t).
Proof.
  intros Hok He. destruct (vk_pmm _ _ Hok) as [bm Hbm]. rewrite (wf_used _ _ Hbm).
  pose proof (wf_room _ _ Hbm). pose proof (wf_total _ _ Hbm). rewrite zcount_all; [lia|lia|].
  intros i Hi. destruct (bit_at bm i) eqn:E; [done|]. destruct (He i). exists bm. split; [apply Hbm|by split].
Qed.

(** Mapping a page: a state grown by empty tables, in which one entry of a page table is
    written.  It fails when a huge page is in the way, and for want of frames. *)
Lemma map_at_cases tags t root va paddr flags :
  vm_ok tags t → is_root tags root →
  let '(r, t') := map_at root va paddr flags t in
  (r = 0 ∧ (∃ tags', grown tags t tags' t') ∧ same_outside root va tags t t' ∧
     (blocked root va t = true ∨ total_pages (frames t) ≤ used_pages (frames t) + 3)) ∨
  (r = 1 ∧ ∃ tags' t1 pt, grown tags t tags' t1 ∧ same_outside root va tags t t1 ∧ walk_pt root va t1 = Some pt ∧
     t' = wr pt (PT_IDX va) (new_entry paddr flags) t1).
Proof.
  intros Hok Hr. unfold map_at. pose proof (reach_pt_ok tags t root va Hok Hr) as He.
  destruct (reach_pt root va t) as [[pt|] t1]; destruct He as (g1 & A & S & U & Hw); [right|left].
  - split; [done|]. exists g1, t1, pt. done.
  - split; [done|]. split; [by exists g1|]. split; [done|]. destruct Hw as [?|He]; [by left|right].
    pose proof (exhausted_used g1 t1 (gr_ok _ _ _ _ A) He). rewrite <- (gr_total _ _ _ _ A). lia.
Qed.

Lemma new_entry_present paddr flags : present flags = true → present (new_entry paddr flags) = true.
Proof. intros Hp. unfold new_entry, present in *. by rewrite Z.lor_spec, Hp, orb_true_r. Qed.

Lemma map_at_ok tags t root va paddr flags :
  vm_ok tags t → is_root tags root → 0 ≤ paddr → 0 ≤ flags < 2 ^ 64 → present flags = true →
  let '(r, t') := map_at root va paddr flags t in
  ∃ tags', extends tags tags' ∧ vm_ok tags' t' ∧ same_regs t t' ∧
    ((r = 1 ∧ page_set tags t t' root va (Some (new_entry paddr flags))) ∨
     (r = 0 ∧ same_trans tags t t' ∧
      (blocked root va t = true ∨ total_pages (frames t) ≤ used_pages (frames t) + 3))).
Proof.
  intros Hok Hr Hpa Hfl Hpr. pose proof (map_at_cases tags t root va paddr flags Hok Hr) as Hm.
  destruct (map_at root va paddr flags t) as [r t'].
  destruct Hm as [(-> & (g1 & A) & _ & Hwhy)|(-> & g1 & t1 & pt & A & _ & Hw & ->)]; exists g1.
  { split_and!; try apply A. right. split_and!; [done|apply A|done]. }
  destruct (set_leaf g1 t1 root va pt (new_entry paddr flags) (gr_ok _ _ _ _ A)
    (extends_lookup _ _ _ _ (gr_ext _ _ _ _ A) Hr) Hw (new_entry_u64 _ _ Hpa Hfl)) as (Hok2 & Htr & Hot).
  split_and!; [apply A|done|apply A|]. left. split; [done|]. split.
  - rewrite Htr. by rewrite new_entry_present.
  - intros root' va' Hr' Hne. rewrite Hot; [by apply (gr_trans _ _ _ _ A)| |done].
    by apply (extends_lookup _ _ _ _ (gr_ext _ _ _ _ A)).
Qed.

(** Unmapping and changing the protection: the entry that is there is rewritten. *)
Lemma edit_page_ok tags t root va (edit : Z → Z) (miss : Z) (hit : Z → Z) :
  vm_ok tags t → is_root tags root → (∀ e, 0 ≤ e < 2 ^ 64 → 0 ≤ edit e < 2 ^ 64) →
  let '(r, t') :=
    match walk_pt root va t with
    | None => (miss, t)
    | Some pt => let e := rd t pt (PT_IDX va) in
        if negb (present e) then (miss, t) else (hit e, wr pt (PT_IDX va) (edit e) t)
    end in
  vm_ok tags t' ∧
  match translate t root va with
  | None => r = miss ∧ t' = t
  | Some e => r = hit e ∧
      page_set tags t t' root va (if present (edit e) then Some (edit e) else None)
  end.
Proof.
  intros Hok Hr Hed. rewrite translate_walk. destruct (walk_pt root va t) as [pt|] eqn:Hw; [|done].
  cbv zeta. destruct (present (rd t pt (PT_IDX va))) eqn:Hp; cbn [negb]; [|done].
  destruct (set_leaf tags t root va pt (edit (rd t pt (PT_IDX va))) Hok Hr Hw) as (Hok2 & Htr & Hot).
  { apply Hed, (vk_word _ _ Hok). }
  split; [done|]. split; [done|]. by split.
Qed.
