(* ===== verification/PagingDestroy.v ===== *)
(** Destroying an address space ([vmm_destroy_address_space] of [kernel/mm/paging.c],
    defined in [Paging]): every frame of its tables and every frame it maps goes back to
    the allocator, and no other address space is touched. *)

From S2P Require Import Prelude Bitmap Pmm Paging PagingSpec.

(** ** Giving a frame back *)
Lemma free_frame_spec p bm f :
  pmm_wf p bm → 0 ≤ f →
  let p' := (pmm_free_page f p).2 in
  (∃ bm', pmm_wf p' bm') ∧ total_pages p' = total_pages p ∧
  (∀ j, is_free p j → is_free p' j) ∧ (∀ j, is_free p' j → is_free p j ∨ j = f / PAGE_SIZE) ∧
  (f mod PAGE_SIZE = 0 → PMM_KERNEL_ZONE_END ≤ f → f / PAGE_SIZE < total_pages p → is_free p' (f / PAGE_SIZE)).
Proof.
  intros Hwf Hf p'. pose proof (pmm_free_page_ok p bm f Hwf Hf) as Hp. pose proof (wf_total _ _ Hwf) as Htot.
  pose proof (wf_room _ _ Hwf) as Hroom. subst p'.
  destruct (pmm_free_page f p) as [res p'] eqn:E. pose proof (free_total f p res p' E) as Ht. simpl.
  destruct Hp as [Hiff Hp]. set (i := f / PAGE_SIZE) in *.
  assert (Hi0 : 0 ≤ i) by (unfold i, PAGE_SIZE; zdiv).
  destruct (decide (res = Freed)) as [Hr|Hr].
  - destruct Hp as [_ Hwf']. apply Hiff in Hr as (Ha & Hz & Hi & Hb).
    assert (Hfree : ∀ j, is_free p' j ↔ is_free p j ∨ j = i).
    { intros j. unfold is_free. rewrite Ht. split.
      - intros (b & Hb' & Hj & Hbit). rewrite (wf_bitmap _ _ Hwf') in Hb'. injection Hb' as <-.
        rewrite bit_at_clear in Hbit by lia. destruct (Z.eqb_spec i j); [by right|left].
        exists bm. split; [apply Hwf|]. by split.
      - intros Hj. exists (bitmap_clear_bit bm i). split; [apply Hwf'|].
        assert (Hjr : 0 ≤ j < total_pages p) by (destruct Hj as [(? & _ & ? & _)| ->]; lia).
        split; [done|]. rewrite bit_at_clear by lia. destruct (Z.eqb_spec i j); [done|].
        destruct Hj as [(b & Hb' & _ & Hbit)|]; [|done]. rewrite (wf_bitmap _ _ Hwf) in Hb'. by simplify_eq. }
    split_and!; [eauto|done|..]; intros; rewrite ?Hfree in *; auto.
  - subst p'. split_and!; [eauto|done|auto|auto|]. intros Hm Hz Hi. destruct (bit_at bm i) eqn:Hb.
    + exfalso. apply Hr, Hiff. split_and!; try done. unfold i, PAGE_SIZE in *. zdiv.
    + exists bm. split; [apply Hwf|]. by split.
Qed.

Lemma free_owned_spec t bm f :
  pmm_wf (frames t) bm → 0 ≤ f →
  let t' := free_owned f t in
  (∃ bm', pmm_wf (frames t') bm') ∧ total_pages (frames t') = total_pages (frames t) ∧
  mem t' = mem t ∧ same_regs t t' ∧
  (∀ j, is_free (frames t) j → is_free (frames t') j) ∧
  (∀ j, is_free (frames t') j → is_free (frames t) j ∨ j = f / PAGE_SIZE) ∧
  (f mod PAGE_SIZE = 0 → pmm_page t f → is_free (frames t') (f / PAGE_SIZE)).
Proof.
  intros Hwf Hf. unfold free_owned. destruct (Z.eqb_spec (pmm_owns_page f (frames t)) 0) as [Ho|Ho].
  - split_and!; [eauto|done..|auto|auto|]. intros Hm [Hz Hi]. unfold pmm_owns_page in Ho.
    rewrite (wf_bitmap _ _ Hwf) in Ho. rewrite <- (wf_total _ _ Hwf) in Ho.
    assert (Hl : Z.land f (PAGE_SIZE - 1) = 0).
    { change (PAGE_SIZE - 1) with (Z.ones 12). by rewrite Z.land_ones by lia. }
    rewrite Hl in Ho. destruct (Z.eqb_spec f PHYS_NULL) as [->|]; [by vm_compute in Hz|].
    cbn [orb negb Z.eqb] in Ho. destruct (Z.leb_spec (total_pages (frames t)) (f / PAGE_SIZE)); [lia|].
    rewrite bitmap_test_bit in Ho. exists bm. split; [apply Hwf|]. split; [unfold PAGE_SIZE in *; zdiv|].
    by destruct (bit_at bm (f / PAGE_SIZE)).
  - unfold free_frame. cbn [frames mem set_frames]. pose proof (free_frame_spec (frames t) bm f Hwf Hf) as H.
    cbv zeta in H. destruct H as (H1 & H2 & H3 & H4 & H5). split_and!; try done. intros Hm [Hz Hi]. by apply H5.
Qed.

(** ** Taking an address space apart *)

(** The address of entry [i] of the page table at [ix]. *)
Definition va_at (ix : list Z) (i : Z) : Z :=
  match ix with [p4; p3; p2] => va_of p4 p3 p2 i | _ => 0 end.

(** Entry [i] of the page table [pt] of the lower half of [r] maps a page that belongs to
    the address space: it is not in the window for shared memory. *)
Definition owned_entry (tags : gmap Z tag) t (r pt : Z) (ix : list Z) (i : Z) : Prop :=
  tags !! pt = Some (OUser r, ix) ∧ length ix = 3%nat ∧ in_table i ∧
  present (rd t pt i) = true ∧ kz_shm_va_excluded (va_at ix i) = false.

(** What is mapped there is no table. *)
Definition data_ok (tags : gmap Z tag) t (r : Z) : Prop :=
  ∀ pt ix i, owned_entry tags t r pt ix i → tags !! pte_frame (rd t pt i) = None.

(** A part of the destruction of the address space [r], which keeps its tables of depth up
    to [n]: entries are only cleared, tables that go and pages that were mapped and go are
    free afterwards, and nothing of another owner changes. *)
Record torn (r : Z) (n : nat) (tags : gmap Z tag) t (tags' : gmap Z tag) t' : Prop := {
  tn_ok : vm_ok tags' t';
  tn_sub : tags' ⊆ tags;
  tn_keep : ∀ f g, tags !! f = Some g → g.1 ≠ OUser r ∨ (length g.2 ≤ n)%nat → tags' !! f = Some g;
  tn_other : ∀ f g j, tags !! f = Some g → g.1 ≠ OUser r ∨ (length g.2 < n)%nat → rd t' f j = rd t f j;
  tn_kernel : ∀ j, 256 ≤ j → rd t' r j = rd t r j;
  tn_cleared : ∀ f g j, tags' !! f = Some g → present (rd t' f j) = true → rd t' f j = rd t f j;
  tn_free : ∀ j, is_free (frames t) j → is_free (frames t') j;
  tn_gone : ∀ f g, tags !! f = Some g → tags' !! f = None → is_free (frames t') (f / PAGE_SIZE);
  tn_only : ∀ j, is_free (frames t') j → is_free (frames t) j ∨
    (∃ f ix, tags !! f = Some (OUser r, ix) ∧ j = f / PAGE_SIZE) ∨
    (∃ pt ix i, owned_entry tags t r pt ix i ∧ j = pte_frame (rd t pt i) / PAGE_SIZE);
  tn_data : ∀ f, tags !! f = None → page_of t' f = page_of t f;
  tn_pages : ∀ pt ix i, owned_entry tags t r pt ix i → pmm_page t (pte_frame (rd t pt i)) →
    (is_Some (tags' !! pt) ∧ rd t' pt i = rd t pt i) ∨
    is_free (frames t') (pte_frame (rd t pt i) / PAGE_SIZE);
  tn_total : total_pages (frames t') = total_pages (frames t);
  tn_regs : same_regs t t'
}.

Lemma torn_refl r n tags t : vm_ok tags t → torn r n tags t tags t.
Proof.
  intros Hok. constructor; try done.
  - intros f g Hf Hn. congruence.
  - by left.
  - intros pt ix i (Hpt & _) _. left. by rewrite Hpt.
Qed.

(** An entry that is still there was there before. *)
Lemma owned_before r n tags t tags' t' pt ix i :
  torn r n tags t tags' t' → owned_entry tags' t' r pt ix i →
  owned_entry tags t r pt ix i ∧ rd t' pt i = rd t pt i.
Proof.
  intros A (Hpt & Hl & Hi & Hp & Hx). pose proof (tn_cleared _ _ _ _ _ _ A _ _ _ Hpt Hp) as He.
  split; [|done]. rewrite He in Hp. split_and!; try done; try apply Hi.
  by apply (lookup_weaken _ _ _ _ Hpt), A.
Qed.

Lemma torn_trans r n tags1 t1 tags2 t2 tags3 t3 :
  torn r n tags1 t1 tags2 t2 → torn r n tags2 t2 tags3 t3 → torn r n tags1 t1 tags3 t3.
Proof.
  intros A B. constructor.
  - apply B.
  - etrans; [apply B|apply A].
  - intros f g Hf Hn. apply (tn_keep _ _ _ _ _ _ B); [|done]. by apply (tn_keep _ _ _ _ _ _ A).
  - intros f g j Hf Hn. rewrite (tn_other _ _ _ _ _ _ B f g j); [by apply (tn_other _ _ _ _ _ _ A f g)| |done].
    apply (tn_keep _ _ _ _ _ _ A); [done|]. destruct Hn; [by left|right; lia].
  - intros j Hj. rewrite (tn_kernel _ _ _ _ _ _ B) by done. by apply A.
  - intros f g j Hf Hp. pose proof (tn_cleared _ _ _ _ _ _ B f g j Hf Hp) as He. rewrite He in Hp |- *.
    apply (tn_cleared _ _ _ _ _ _ A f g); [|done]. by apply (lookup_weaken _ _ _ _ Hf), B.
  - intros j Hj. apply B. by apply A.
  - intros f g Hf Hn. destruct (tags2 !! f) as [g2|] eqn:E; [by apply (tn_gone _ _ _ _ _ _ B f g2)|].
    apply B. by apply (tn_gone _ _ _ _ _ _ A f g).
  - intros j [Hj|[(f & ix & Hf & ->)|(pt & ix & i & Ho & ->)]]%(tn_only _ _ _ _ _ _ B).
    + by apply (tn_only _ _ _ _ _ _ A).
    + right. left. exists f, ix. split; [|done]. by apply (lookup_weaken _ _ _ _ Hf), A.
    + right. right. destruct (owned_before _ _ _ _ _ _ _ _ _ A Ho) as [Ho1 ->]. by exists pt, ix, i.
  - intros f Hf. rewrite (tn_data _ _ _ _ _ _ B); [by apply (tn_data _ _ _ _ _ _ A)|].
    destruct (tags2 !! f) as [g|] eqn:E; [|done]. pose proof (lookup_weaken _ _ _ _ E (tn_sub _ _ _ _ _ _ A)). congruence.
  - intros pt ix i Ho Hpg. pose proof Ho as (Hpt & Hl & Hi & Hp & Hx).
    destruct (tn_pages _ _ _ _ _ _ A pt ix i Ho Hpg) as [[[g2 Hg2] He]|Hfr];
      [|right; by apply (tn_free _ _ _ _ _ _ B)].
    pose proof (lookup_weaken _ _ _ _ Hg2 (tn_sub _ _ _ _ _ _ A)) as Hg1. rewrite Hpt in Hg1. simplify_eq.
    rewrite <- He in *. apply (tn_pages _ _ _ _ _ _ B pt ix i); [done|].
    unfold pmm_page in *. by rewrite (tn_total _ _ _ _ _ _ A).
  - rewrite (tn_total _ _ _ _ _ _ B). apply A.
  - eapply same_regs_trans; [apply A|apply B].
Qed.

Lemma torn_weaken r n m tags t tags' t' : (m ≤ n)%nat → torn r n tags t tags' t' → torn r m tags t tags' t'.
Proof.
  intros Hm [H1 H2 H3 H4]. constructor; try done.
  - intros f g Hf [Hg|Hg]; apply H3; auto. right. lia.
  - intros f g j Hf [Hg|Hg]; apply (H4 f g); auto. right. lia.
Qed.

Lemma torn_data r n tags t tags' t' : torn r n tags t tags' t' → data_ok tags t r → data_ok tags' t' r.
Proof.
  intros A Hd pt ix i Ho. destruct (owned_before _ _ _ _ _ _ _ _ _ A Ho) as [Ho1 ->].
  specialize (Hd pt ix i Ho1). destruct (tags' !! pte_frame (rd t pt i)) as [g|] eqn:E; [|done].
  pose proof (lookup_weaken _ _ _ _ E (tn_sub _ _ _ _ _ _ A)). congruence.
Qed.

Lemma rd_mem t t' f i : mem t' = mem t → rd t' f i = rd t f i.
Proof. intros He. unfold rd, page_of. by rewrite He. Qed.

Lemma aligned_eq f f' : f mod 4096 = 0 → f' mod 4096 = 0 → f / PAGE_SIZE = f' / PAGE_SIZE → f = f'.
Proof. unfold PAGE_SIZE. intros. zdiv. Qed.

Lemma pte_frame_eq e : 0 ≤ e < 2 ^ 64 → 0 ≤ pte_frame e ∧ pte_frame e mod 4096 = 0.
Proof.
  intros He. unfold pte_frame. fold (next_table e). rewrite next_table_eq by lia.
  assert (Hn : 0 ≤ Z.land (e / 4096 * 4096) (u64 (Z.lnot PAGING_NX))) by (apply Z.land_nonneg; left; zdiv).
  split; [done|]. assert (Hm : ∀ x, x mod 4096 = Z.land x (Z.ones 12)) by (intros x; by rewrite Z.land_ones).
  rewrite Hm, <- Z.land_assoc. change (Z.land (u64 (Z.lnot PAGING_NX)) (Z.ones 12)) with (Z.ones 12).
  by rewrite <- Hm, Z.mod_mul.
Qed.

(** Giving back a frame that is no table. *)
Lemma free_untagged tags t f :
  vm_ok tags t → 0 ≤ f → f mod 4096 = 0 → tags !! f = None →
  let t' := free_owned f t in
  vm_ok tags t' ∧ (∀ f i, rd t' f i = rd t f i) ∧ same_regs t t' ∧
  total_pages (frames t') = total_pages (frames t) ∧
  (∀ j, is_free (frames t) j → is_free (frames t') j) ∧
  (∀ j, is_free (frames t') j → is_free (frames t) j ∨ j = f / PAGE_SIZE) ∧
  (∀ f', page_of t' f' = page_of t f') ∧
  (pmm_page t f → is_free (frames t') (f / PAGE_SIZE)).
Proof.
  intros Hok Hf0 Hfm Hnone t'. destruct (vk_pmm _ _ Hok) as [bm Hbm].
  destruct (free_owned_spec t bm f Hbm Hf0) as (Hbm' & Htot & Hmem & Hregs & Hmono & Hnew & Hfr).
  assert (Hrd : ∀ f i, rd t' f i = rd t f i) by (intros; by apply rd_mem).
  split_and!; try done; [|intros f'; unfold page_of, t'; by rewrite Hmem|intros Hpg; by apply Hfr].
  destruct Hok as [K1 K2 K3 K4 K5 K6 K7 K8 K9]. constructor; try done.
  - intros f' j. rewrite Hrd. apply K2.
  - intros f' g Hf'. destruct (K3 f' g Hf') as [[Hfo Hfa] Hn]. split; [done|]. intros [?|He]%Hnew; [done|].
    apply aligned_eq in He; [|done|done]. congruence.
  - intros f' g j. rewrite Hrd. apply K5.
  - intros f' o x Hf' Hx Hk. unfold pmm_page, t'. rewrite Htot. apply (K7 f' o x); [done..|].
    by rewrite <- (proj1 (proj2 Hregs)).
  - intros c o x j Hc. destruct (K9 c o x j Hc) as (f' & Hf' & Hj & Hlk). exists f'. unfold links. by rewrite !Hrd.
Qed.

Lemma free_wr f c i v t : wr f i v (free_owned c t) = free_owned c (wr f i v t).
Proof. unfold free_owned. cbn [frames wr set_mem]. by destruct (_ =? 0). Qed.

Lemma page_wr f i v t f' : f' ≠ f → page_of (wr f i v t) f' = page_of t f'.
Proof. intros Hne. unfold page_of, wr. cbn [mem set_mem]. by rewrite lookup_insert_ne. Qed.

(** ** One step: a page *)
Lemma clear_page_ok r tags t pt ix i :
  vm_ok tags t → is_root tags r → data_ok tags t r → tags !! pt = Some (OUser r, ix) → length ix = 3%nat →
  in_table i → present (rd t pt i) = true →
  let t' := if kz_shm_va_excluded (va_at ix i) then wr pt i 0 t
            else wr pt i 0 (free_owned (pte_frame (rd t pt i)) t) in
  torn r 3 tags t tags t' ∧ present (rd t' pt i) = false.
Proof.
  intros Hok Hr Hd Hpt Hl Hi Hp t'. pose proof (vk_word _ _ Hok pt i) as Hw. set (e := rd t pt i) in *.
  destruct (pte_frame_eq e Hw) as [Hf0 Hfm]. specialize (Hd pt ix i).
  set (t1 := if kz_shm_va_excluded (va_at ix i) then t else free_owned (pte_frame e) t).
  assert (Ht' : t' = wr pt i 0 t1) by (unfold t', t1; by destruct (kz_shm_va_excluded _)). clearbody t'. subst t'.
  assert (H1 : vm_ok tags t1 ∧ (∀ f i, rd t1 f i = rd t f i) ∧ same_regs t t1 ∧
    total_pages (frames t1) = total_pages (frames t) ∧ (∀ j, is_free (frames t) j → is_free (frames t1) j) ∧
    (∀ j, is_free (frames t1) j → is_free (frames t) j ∨
       owned_entry tags t r pt ix i ∧ j = pte_frame e / PAGE_SIZE) ∧
    (∀ f', page_of t1 f' = page_of t f') ∧
    (owned_entry tags t r pt ix i → pmm_page t (pte_frame e) → is_free (frames t1) (pte_frame e / PAGE_SIZE))).
  { unfold t1. destruct (kz_shm_va_excluded (va_at ix i)) eqn:Hx.
    - split_and!; try done; [auto|]. intros (_ & _ & _ & _ & Hx'). congruence.
    - assert (Ho : owned_entry tags t r pt ix i) by (by split_and!; try apply Hi). specialize (Hd Ho).
      destruct (free_untagged tags t (pte_frame e) Hok Hf0 Hfm Hd) as (? & ? & ? & ? & ? & Hn & ? & ?).
      split_and!; auto. intros j [?| ->]%Hn; auto. }
  destruct H1 as (Hok1 & Hsame & Hregs & Htot & Hmono & Hnew & Hdata & Hfr).
  assert (Hrd : ∀ f j, rd (wr pt i 0 t1) f j = if decide (f = pt ∧ j = i) then 0 else rd t f j).
  { intros f j. rewrite rd_wr. by rewrite Hsame. }
  split; [|rewrite Hrd; by rewrite decide_True].
  constructor; try done.
  - by apply (leaf_wf tags t1 pt (OUser r, ix)).
  - intros f g j Hf Hg. rewrite Hrd, decide_False; [done|]. intros [-> _]. rewrite Hpt in Hf. simplify_eq.
    simpl in Hg. destruct Hg; [done|lia].
  - intros j Hj. rewrite Hrd, decide_False; [done|]. intros [-> _]. unfold is_root in Hr. rewrite Hpt in Hr. by simplify_eq.
  - intros f g j Hf. rewrite Hrd. by case_decide.
  - intros f g Hf Hn. congruence.
  - intros j [?|[Ho ->]]%Hnew; [by left|right; right]. by exists pt, ix, i.
  - intros f Hf. rewrite page_wr by congruence. apply Hdata.
  - intros pt' ix' i' Ho Hpg. rewrite Hrd. case_decide as Hc; [right|left; by rewrite (proj1 Ho)].
    destruct Hc as [-> ->]. pose proof Ho as (Hpt' & _). rewrite Hpt in Hpt'. simplify_eq. by apply Hfr.
Qed.

(** ** One step: a table *)

(** Cutting the link to a table without tables below it. *)
Lemma cut_wf tags t f r ix i c :
  vm_ok tags t → tags !! f = Some (OUser r, ix) → links t f i c → tags !! c = Some (OUser r, ix ++ [i]) →
  (∀ d j, tags !! d ≠ Some (OUser r, (ix ++ [i]) ++ [j])) →
  vm_ok (delete c tags) (wr f i 0 t).
Proof.
  intros Hok Hf (Hp & Hh & Hnx) Hc Hno. constructor.
  - apply Hok.
  - intros f' j. rewrite rd_wr. case_decide; [lia|]. apply (vk_word _ _ Hok).
  - intros f' g [_ Hg]%lookup_delete_Some. by apply (vk_frame _ _ Hok f' g).
  - intros f' o [_ Hg]%lookup_delete_Some. by apply (vk_root _ _ Hok).
  - intros f' g j [Hne Hg]%lookup_delete_Some Hl Hj. rewrite rd_wr. case_decide as Hd; [done|]. intros Hp' Hh'.
    pose proof (vk_link _ _ Hok f' g j Hg Hl Hj Hp' Hh') as Hk. rewrite lookup_delete_ne; [done|].
    intros He. rewrite <- He, Hc in Hk. assert (Hg' : kid g j = (OUser r, ix ++ [i])) by congruence.
    apply kid_user in Hg' as [-> ->].
    apply Hd. split; [by apply (vk_inj _ _ Hok f' f r ix)|done].
  - intros f' g [_ Hg]%lookup_delete_Some. by apply (vk_len _ _ Hok f').
  - intros f' o x [_ Hg]%lookup_delete_Some. by apply (vk_user _ _ Hok f' o x).
  - intros f1 f2 o x [_ H1]%lookup_delete_Some [_ H2]%lookup_delete_Some. by apply (vk_inj _ _ Hok f1 f2 o x).
  - intros c' o x j [Hne Hc']%lookup_delete_Some.
    destruct (vk_linked _ _ Hok c' o x j Hc') as (f2 & Hf2 & Hj & Hlk). exists f2.
    rewrite lookup_delete_ne.
    2: { intros <-. rewrite Hc in Hf2. simplify_eq. by apply (Hno c' j). }
    split; [done|]. split; [done|]. unfold links in *. rewrite rd_wr, decide_False; [done|].
    intros [-> ->]. destruct Hlk as (_ & _ & Hlk). congruence.
Qed.

Lemma cut_table_ok r n tags t f ix i c :
  vm_ok tags t → is_root tags r → tags !! f = Some (OUser r, ix) → length ix = n → links t f i c →
  tags !! c = Some (OUser r, ix ++ [i]) → in_table i → (∀ j, in_table j → present (rd t c j) = false) →
  r ≠ kernel_pml4_phys t →
  let t' := wr f i 0 (free_owned c t) in
  torn r n tags t (delete c tags) t' ∧ present (rd t' f i) = false.
Proof.
  intros Hok Hr Hf Hn Hlk Hc Hi Hempty Hkr t'.
  assert (Hno : ∀ d j, tags !! d ≠ Some (OUser r, (ix ++ [i]) ++ [j])).
  { intros d j Hd. destruct (vk_linked _ _ Hok d r _ j Hd) as (c2 & Hc2 & Hj & Hp & _).
    rewrite (vk_inj _ _ Hok c2 c r _ Hc2 Hc), Hempty in Hp by done. done. }
  destruct (vk_frame _ _ Hok c _ Hc) as [[Hc0 Hcm] _].
  pose proof (cut_wf tags t f r ix i c Hok Hf Hlk Hc Hno) as Hok1.
  destruct (free_untagged (delete c tags) (wr f i 0 t) c Hok1 ltac:(lia) Hcm (lookup_delete_eq _ _))
    as (Hok2 & Hsame & Hregs & Htot & Hmono & Hnew & Hdata & Hfr).
  unfold t'. rewrite free_wr. set (t2 := free_owned c (wr f i 0 t)) in *.
  assert (Hrd : ∀ f' j, rd t2 f' j = if decide (f' = f ∧ j = i) then 0 else rd t f' j).
  { intros f' j. rewrite Hsame. apply rd_wr. }
  assert (Hix : ix ++ [i] ≠ []) by (by destruct ix).
  assert (Hfree : is_free (frames t2) (c / PAGE_SIZE)) by (apply Hfr; exact (vk_user _ _ Hok c r _ Hc Hix Hkr)).
  split; [|rewrite Hrd; by rewrite decide_True].
  constructor; try done.
  - apply delete_subseteq.
  - intros f' g Hf' Hg. rewrite lookup_delete_ne; [done|]. intros <-. rewrite Hc in Hf'. simplify_eq. simpl in Hg.
    rewrite length_app in Hg. simpl in Hg. destruct Hg as [?|Hg]; [done|lia].
  - intros f' g j Hf' Hg. rewrite Hrd, decide_False; [done|]. intros [-> _]. rewrite Hf in Hf'. simplify_eq.
    simpl in Hg. destruct Hg; [done|lia].
  - intros j Hj. rewrite Hrd, decide_False; [done|]. intros [-> ->]. unfold is_root in Hr. rewrite Hf in Hr.
    injection Hr as ->. pose proof (vk_link _ _ Hok f (OUser f, []) i Hf ltac:(simpl; lia) Hi (proj1 Hlk)
      ltac:(by left)) as Hk. destruct Hlk as (_ & _ & Hlk). rewrite Hlk, Hc in Hk. unfold kid in Hk. simpl in Hk.
    destruct (Z.leb_spec 256 i); [done|lia].
  - intros f' g j [_ Hg]%lookup_delete_Some. rewrite Hrd. by case_decide.
  - intros f' g Hf' [->|?]%lookup_delete_None; [done|congruence].
  - intros j [?| ->]%Hnew; [by left|right; left]. by exists c, (ix ++ [i]).
  - intros f' Hf'. rewrite Hdata. apply page_wr. congruence.
  - intros pt x j (Hpt & Hl & Hj & Hp & Hx) Hpg. destruct (decide (pt = c)) as [->|Hne].
    { rewrite Hempty in Hp by done. done. }
    left. rewrite lookup_delete_ne by done. split; [by rewrite Hpt|]. rewrite Hrd, decide_False; [done|].
    intros [-> ->]. rewrite Hf in Hpt. simplify_eq. pose proof (vk_len _ _ Hok c _ Hc) as Hlc.
    simpl in Hlc. rewrite length_app in Hlc. simpl in Hlc. lia.
Qed.

(** An entry that maps a huge page. *)
Lemma clear_huge_ok r n tags t f ix i :
  vm_ok tags t → is_root tags r → tags !! f = Some (OUser r, ix) → length ix = n → (0 < n < 3)%nat →
  huge (rd t f i) = true →
  let t' := wr f i 0 t in torn r n tags t tags t' ∧ present (rd t' f i) = false.
Proof.
  intros Hok Hr Hf Hn Hn3 Hh t'.
  assert (Hrd : ∀ f' j, rd t' f' j = if decide (f' = f ∧ j = i) then 0 else rd t f' j) by (intros; apply rd_wr).
  split; [|rewrite Hrd; by rewrite decide_True]. constructor; try done.
  - destruct Hok as [K1 K2 K3 K4 K5 K6 K7 K8 K9]. constructor; try done.
    + intros f' j. rewrite Hrd. case_decide; [lia|]. apply K2.
    + intros f' g j Hg Hl Hj. rewrite Hrd. case_decide; [done|]. by apply K5.
    + intros c o x j Hc. destruct (K9 c o x j Hc) as (f2 & Hf2 & Hj & Hlk). exists f2. split_and!; try done; [apply Hj..|].
      unfold links in *. rewrite Hrd, decide_False; [done|]. intros [-> ->]. destruct Hlk as (_ & Hlk & _). congruence.
  - intros f' g j Hf' Hg. rewrite Hrd, decide_False; [done|]. intros [-> _]. rewrite Hf in Hf'. simplify_eq.
    simpl in Hg. destruct Hg; [done|lia].
  - intros j Hj. rewrite Hrd, decide_False; [done|]. intros [-> _]. unfold is_root in Hr. rewrite Hf in Hr.
    injection Hr as ->. simpl in Hn. lia.
  - intros f' g j _. rewrite Hrd. by case_decide.
  - intros f' g Hf' Hne. congruence.
  - by left.
  - intros f' Hf'. apply page_wr. congruence.
  - intros pt x j (Hpt & Hl & Hj & Hp & Hx) Hpg. left. split; [by rewrite Hpt|]. rewrite Hrd, decide_False; [done|].
    intros [-> _]. rewrite Hf in Hpt. simplify_eq. lia.
Qed.

(** ** The loops *)
Lemma clear_loop r n f ix (step : Z → vmm → vmm) tags t hi :
  0 ≤ hi ≤ 512 → (length ix ≤ n)%nat →
  (∀ tags t k, 0 ≤ k < hi → vm_ok tags t → is_root tags r → data_ok tags t r → r ≠ kernel_pml4_phys t →
     tags !! f = Some (OUser r, ix) →
     ∃ tags', torn r n tags t tags' (step k t) ∧ present (rd (step k t) f k) = false) →
  vm_ok tags t → is_root tags r → data_ok tags t r → r ≠ kernel_pml4_phys t → tags !! f = Some (OUser r, ix) →
  ∃ tags', torn r n tags t tags' (for_each 0 hi step t) ∧
    ∀ j, 0 ≤ j < hi → present (rd (for_each 0 hi step t) f j) = false.
Proof.
  intros Hhi Hlen Hstep Hok Hr Hd Hkr Hf.
  apply (for_each_upto (λ k t', ∃ tags', torn r n tags t tags' t' ∧
    ∀ j, 0 ≤ j < k → present (rd t' f j) = false)); [lia| |].
  - exists tags. split; [by apply torn_refl|]. intros. lia.
  - intros k t1 Hk (tags1 & A & Hc). pose proof (tn_keep _ _ _ _ _ _ A f _ Hf ltac:(by right)) as Hf1.
    destruct (Hstep tags1 t1 k Hk (tn_ok _ _ _ _ _ _ A)) as (tags2 & B & Hp); [|by eapply torn_data|by rewrite (proj1 (proj2 (tn_regs _ _ _ _ _ _ A)))|done|].
    { apply (tn_keep _ _ _ _ _ _ A _ _ Hr). right. simpl. lia. }
    exists tags2. split; [by eapply torn_trans|]. intros j Hj. destruct (decide (j = k)) as [->|]; [done|].
    destruct (present (rd (step k t1) f j)) eqn:E; [|done].
    pose proof (tn_keep _ _ _ _ _ _ B f _ Hf1 ltac:(by right)) as Hf2.
    rewrite (tn_cleared _ _ _ _ _ _ B f _ j Hf2 E), Hc in E by lia. done.
Qed.

(** The common form of the loop bodies: clear entry [i] of [f] after the table below. *)
Definition destroy_entry (inner : Z → Z → vmm → vmm) (f i : Z) t : vmm :=
  let e := rd t f i in
  if negb (present e) then t else
  if huge e then wr f i 0 t else
  wr f i 0 (free_owned (next_table e) (for_each 0 512 (inner (next_table e)) t)).

Lemma kid_lower r ix i : (ix = [] → i < 256) → kid (OUser r, ix) i = (OUser r, ix ++ [i]).
Proof. intros Hi. unfold kid. simpl. destruct ix; [|done]. destruct (Z.leb_spec 256 i); [|done]. specialize (Hi eq_refl). lia. Qed.

Lemma kid_upper r i : 256 ≤ i → kid (OUser r, []) i = (OKernel, [i]).
Proof. intros Hi. unfold kid. cbn [fst snd app]. by destruct (Z.leb_spec 256 i); [|lia]. Qed.

Lemma destroy_entry_ok r n inner f ix i tags t :
  length ix = n → (n < 3)%nat → in_table i → (ix = [] → i < 256) →
  (∀ tags t c k, 0 ≤ k < 512 → vm_ok tags t → is_root tags r → data_ok tags t r → r ≠ kernel_pml4_phys t →
     tags !! c = Some (OUser r, ix ++ [i]) →
     ∃ tags', torn r (Datatypes.S n) tags t tags' (inner c k t) ∧ present (rd (inner c k t) c k) = false) →
  vm_ok tags t → is_root tags r → data_ok tags t r → r ≠ kernel_pml4_phys t → tags !! f = Some (OUser r, ix) →
  ∃ tags', torn r n tags t tags' (destroy_entry inner f i t) ∧
    present (rd (destroy_entry inner f i t) f i) = false.
Proof.
  intros Hn Hn3 Hi Hlow Hin Hok Hr Hd Hkr Hf. unfold destroy_entry.
  destruct (present (rd t f i)) eqn:Hp; cbn [negb]; [|exists tags; split; [by apply torn_refl|done]].
  destruct (huge (rd t f i)) eqn:Hh.
  { destruct (decide (ix = [])) as [->|Hne].
    - exfalso. pose proof (vk_link _ _ Hok f _ i Hf ltac:(simpl; lia) Hi Hp ltac:(by left)) as Hk.
      rewrite kid_lower in Hk by done. destruct (vk_linked _ _ Hok _ r [] i Hk) as (f2 & Hf2 & _ & _ & Hh2 & _).
      rewrite (vk_inj _ _ Hok f2 f r [] Hf2 Hf) in Hh2. congruence.
    - exists tags. apply (clear_huge_ok r n tags t f ix); try done. destruct ix; [done|]. simpl in Hn. lia. }
  set (c := next_table (rd t f i)).
  assert (Hc : tags !! c = Some (OUser r, ix ++ [i])).
  { pose proof (vk_link _ _ Hok f _ i Hf ltac:(simpl; lia) Hi Hp ltac:(by right)) as Hk.
    by rewrite kid_lower in Hk by done. }
  assert (Hlc : length (ix ++ [i]) = Datatypes.S n) by (rewrite length_app; simpl; lia).
  destruct (clear_loop r (Datatypes.S n) c (ix ++ [i]) (inner c) tags t 512) as (tags1 & A & Hclr); try done; [lia| |].
  { intros. by apply Hin. }
  set (t1 := for_each 0 512 (inner c) t) in *.
  pose proof (tn_keep _ _ _ _ _ _ A c _ Hc ltac:(right; simpl; lia)) as Hc1.
  pose proof (tn_keep _ _ _ _ _ _ A f _ Hf ltac:(right; simpl; lia)) as Hf1.
  assert (He : rd t1 f i = rd t f i) by (apply (tn_other _ _ _ _ _ _ A f _ i Hf); right; simpl; lia).
  clearbody t1. pose proof (tn_keep _ _ _ _ _ _ A _ _ Hr ltac:(right; simpl; lia)) as Hr1.
  assert (Hlk : links t1 f i c) by (unfold links; by rewrite He).
  destruct (cut_table_ok r n tags1 t1 f ix i c (tn_ok _ _ _ _ _ _ A) Hr1 Hf1 Hn Hlk Hc1 Hi Hclr
    ltac:(by rewrite (proj1 (proj2 (tn_regs _ _ _ _ _ _ A))))) as [B Hz].
  exists (delete c tags1). split; [|done]. eapply torn_trans; [|exact B]. eapply torn_weaken; [|exact A]. lia.
Qed.

Lemma destroy_page_ok r p4 p3 p2 tags t pt k :
  0 ≤ k < 512 → vm_ok tags t → is_root tags r → data_ok tags t r → tags !! pt = Some (OUser r, [p4; p3; p2]) →
  ∃ tags', torn r 3 tags t tags' (destroy_page pt p4 p3 p2 k t) ∧
    present (rd (destroy_page pt p4 p3 p2 k t) pt k) = false.
Proof.
  intros Hk Hok Hr Hd Hpt. unfold destroy_page. exists tags.
  destruct (present (rd t pt k)) eqn:Hp; cbn [negb]; [|split; [by apply torn_refl|done]].
  exact (clear_page_ok r tags t pt [p4; p3; p2] k Hok Hr Hd Hpt eq_refl Hk Hp).
Qed.

Lemma destroy_pdpt_ok r p4 tags t :
  0 ≤ p4 < 256 → vm_ok tags t → is_root tags r → data_ok tags t r → r ≠ kernel_pml4_phys t →
  ∃ tags', torn r 0 tags t tags' (destroy_pdpt r p4 t) ∧ present (rd (destroy_pdpt r p4 t) r p4) = false.
Proof.
  intros H4 Hok Hr Hd Hkr. change (destroy_pdpt r p4 t) with (destroy_entry (λ c, destroy_pd c p4) r p4 t).
  apply (destroy_entry_ok r 0 _ r []); try done; [lia|unfold in_table; lia|lia|].
  clear tags t Hok Hr Hd Hkr. intros tags t pdpt p3 H3 Hok Hr Hd Hkr Hf.
  change (destroy_pd pdpt p4 p3 t) with (destroy_entry (λ c, destroy_pt c p4 p3) pdpt p3 t).
  apply (destroy_entry_ok r 1 _ pdpt [p4]); try done; [lia|].
  clear tags t Hok Hr Hd Hkr pdpt Hf. intros tags t pd p2 H2 Hok Hr Hd Hkr Hf.
  change (destroy_pt pd p4 p3 p2 t) with (destroy_entry (λ c, destroy_page c p4 p3 p2) pd p2 t).
  apply (destroy_entry_ok r 2 _ pd [p4; p3]); try done; [lia|].
  clear tags t Hok Hr Hd Hkr pd Hf. intros tags t pt p1 H1 Hok Hr Hd _ Hf. by apply destroy_page_ok.
Qed.

(** ** The whole address space *)
Lemma no_user_tables r tags t :
  vm_ok tags t → (∀ i, 0 ≤ i < 256 → present (rd t r i) = false) →
  ∀ ix f, tags !! f = Some (OUser r, ix) → ix = [].
Proof.
  intros Hok Hclr. induction ix as [|i ix IH] using rev_ind; intros f Hf; [done|].
  destruct (vk_linked _ _ Hok f r ix i Hf) as (f2 & Hf2 & Hi & Hp & Hh & Hnx).
  pose proof (IH f2 Hf2) as ->.
  pose proof (vk_root _ _ Hok f2 _ Hf2) as Hr. injection Hr as <-.
  pose proof (vk_link _ _ Hok r _ i Hf2 ltac:(simpl; lia) Hi Hp ltac:(by left)) as Hk. rewrite Hnx, Hf in Hk.
  unfold kid in Hk. simpl in Hk. destruct (Z.leb_spec 256 i); [done|].
  rewrite Hclr in Hp by (unfold in_table in Hi; lia). done.
Qed.

Lemma drop_root r tags t :
  vm_ok tags t → is_root tags r → (∀ i, 0 ≤ i < 256 → present (rd t r i) = false) → vm_ok (delete r tags) t.
Proof.
  intros Hok Hr Hclr. pose proof (no_user_tables r tags t Hok Hclr) as Hno.
  destruct Hok as [K1 K2 K3 K4 K5 K6 K7 K8 K9]. constructor; try done.
  - intros f g [_ Hf]%lookup_delete_Some. by apply K3 in Hf.
  - intros f o [_ Hf]%lookup_delete_Some. by apply K4.
  - intros f g i [_ Hf]%lookup_delete_Some Hl Hi Hp Hh. pose proof (K5 f g i Hf Hl Hi Hp Hh) as Hk.
    rewrite lookup_delete_ne; [done|]. intros He. rewrite <- He in Hk. unfold is_root in Hr. rewrite Hr in Hk.
    injection Hk as _ Hk. by destruct g.2.
  - intros f g [_ Hf]%lookup_delete_Some. by apply (K6 f).
  - intros f o x [_ Hf]%lookup_delete_Some. by apply (K7 f o x).
  - intros f f' o x [_ Hf]%lookup_delete_Some [_ Hf']%lookup_delete_Some. by apply (K8 f f' o x).
  - intros c o x i [_ Hc]%lookup_delete_Some. destruct (K9 c o x i Hc) as (f & Hf & Hi & Hlk). exists f.
    rewrite lookup_delete_ne; [by split_and!; try apply Hi|]. intros <-. unfold is_root in Hr. rewrite Hr in Hf.
    simplify_eq. by pose proof (Hno _ _ Hc).
Qed.

(** Translations of another owner's pages. *)
Lemma torn_translate r tags t tags' t' root va :
  torn r 0 tags t tags' t' → vm_ok tags t → is_root tags root → is_root tags r →
  root ≠ r ∨ 256 ≤ PML4_IDX va → translate t' root va = translate t root va.
Proof.
  intros A Hok Hr Hrr Hd.
  pose proof (trans_same_on (λ o, o ≠ OUser r) tags t t' Hok ltac:(done)
    ltac:(intros f g j Hf Hg; apply (tn_other _ _ _ _ _ _ A f g j Hf); by left)) as Hsame.
  destruct (decide (root = r)) as [->|Hne].
  - destruct Hd as [?|Hd]; [done|]. unfold translate, indices. cbn [trans]. rewrite (tn_kernel _ _ _ _ _ _ A) by done.
    destruct (present (rd t r (PML4_IDX va))) eqn:Hp; [|done]. cbn [andb orb].
    pose proof (step_tag tags t r _ (PML4_IDX va) Hok Hr ltac:(simpl; lia) (index_range _) Hp eq_refl) as Hk.
    rewrite kid_upper in Hk by done.
    apply (Hsame [PDPT_IDX va; PD_IDX va; PT_IDX va] _ _ Hk); try done.
    repeat constructor; apply index_range.
  - apply (Hsame (indices va) root _ Hr); try done; [apply indices_range|]. simpl. congruence.
Qed.

(** The user half is taken apart. *)
Lemma destroy_user_half r tags t :
  vm_ok tags t → is_root tags r → data_ok tags t r → r ≠ kernel_pml4_phys t →
  ∃ tags', torn r 0 tags t tags' (for_each 0 256 (destroy_pdpt r) t) ∧
    ∀ i, 0 ≤ i < 256 → present (rd (for_each 0 256 (destroy_pdpt r) t) r i) = false.
Proof.
  intros Hok Hr Hd Hk. apply (clear_loop r 0 r [] (destroy_pdpt r) tags t 256); try done.
  intros tags1 t1 k Hki Hok1 Hr1 Hd1 Hk1 _. by apply destroy_pdpt_ok.
Qed.

Lemma drop_root_free r tags t :
  vm_ok tags t → is_root tags r → (∀ i, 0 ≤ i < 256 → present (rd t r i) = false) →
  let t' := free_owned r t in
  vm_ok (delete r tags) t' ∧ (∀ f i, rd t' f i = rd t f i) ∧ same_regs t t' ∧
  total_pages (frames t') = total_pages (frames t) ∧
  (∀ j, is_free (frames t) j → is_free (frames t') j) ∧
  (∀ j, is_free (frames t') j → is_free (frames t) j ∨ j = r / PAGE_SIZE) ∧
  (∀ f', page_of t' f' = page_of t f') ∧
  (pmm_page t r → is_free (frames t') (r / PAGE_SIZE)).
Proof.
  intros Hok Hr Hclr. destruct (vk_frame _ _ Hok r _ Hr) as [[Hr0 Hrm] _].
  apply free_untagged; [by apply drop_root|lia|done|apply lookup_delete_eq].
Qed.

(** What is left of the address space [r] after its destruction: nothing, or its root. *)
Definition left_over (free_pml4 : bool) (r f : Z) (g : tag) : Prop :=
  g.1 ≠ OUser r ∨ f = r ∧ free_pml4 = false.

Record destroyed (r : Z) (free_pml4 : bool) (tags : gmap Z tag) t (tags' : gmap Z tag) t' : Prop := {
  ds_ok : vm_ok tags' t';
  ds_tags : ∀ f g, tags' !! f = Some g ↔ tags !! f = Some g ∧ left_over free_pml4 r f g;
  ds_lower : ∀ i, 0 ≤ i < 256 → present (rd t' r i) = false;
  ds_upper : ∀ i, 256 ≤ i → rd t' r i = rd t r i;
  ds_same : ∀ f g i, tags !! f = Some g → g.1 ≠ OUser r → rd t' f i = rd t f i;
  ds_trans : ∀ root va, is_root tags root → root ≠ r ∨ 256 ≤ PML4_IDX va →
    translate t' root va = translate t root va;
  ds_tables : ∀ f ix, tags !! f = Some (OUser r, ix) → ix ≠ [] → is_free (frames t') (f / PAGE_SIZE);
  ds_root : free_pml4 = true → pmm_page t r → is_free (frames t') (r / PAGE_SIZE);
  ds_pages : ∀ pt ix i, owned_entry tags t r pt ix i → pmm_page t (pte_frame (rd t pt i)) →
    is_free (frames t') (pte_frame (rd t pt i) / PAGE_SIZE);
  ds_free : ∀ j, is_free (frames t) j → is_free (frames t') j;
  ds_only : ∀ j, is_free (frames t') j → is_free (frames t) j ∨
    (∃ f ix, tags !! f = Some (OUser r, ix) ∧ j = f / PAGE_SIZE) ∨
    (∃ pt ix i, owned_entry tags t r pt ix i ∧ j = pte_frame (rd t pt i) / PAGE_SIZE);
  ds_data : ∀ f, tags !! f = None → page_of t' f = page_of t f;
  ds_total : total_pages (frames t') = total_pages (frames t);
  ds_regs : same_regs t t'
}.

(** The tables that remain after the walk over the user half. *)
Lemma torn_tags r tags t tags' t' :
  torn r 0 tags t tags' t' → is_root tags r → (∀ i, 0 ≤ i < 256 → present (rd t' r i) = false) →
  ∀ f g, tags' !! f = Some g ↔ tags !! f = Some g ∧ left_over false r f g.
Proof.
  intros A Hr Hclr f g. unfold left_over. split.
  - intros Hf. split; [by apply (lookup_weaken _ _ _ _ Hf), A|]. destruct g as [o ix].
    destruct (decide (o = OUser r)) as [->|]; [right|by left].
    pose proof (no_user_tables r tags' t' (tn_ok _ _ _ _ _ _ A) Hclr ix f Hf) as ->.
    pose proof (vk_root _ _ (tn_ok _ _ _ _ _ _ A) f _ Hf) as He. by simplify_eq.
  - intros [Hf [Hg|[-> _]]].
    + apply (tn_keep _ _ _ _ _ _ A); [done|by left].
    + unfold is_root in Hr. rewrite Hf in Hr. simplify_eq. apply (tn_keep _ _ _ _ _ _ A); [done|]. right. simpl. lia.
Qed.

(** A torn address space with an empty user half is destroyed. *)
Lemma torn_destroyed r tags t tags' t' :
  torn r 0 tags t tags' t' → vm_ok tags t → is_root tags r → (∀ i, 0 ≤ i < 256 → present (rd t' r i) = false) →
  destroyed r false tags t tags' t'.
Proof.
  intros A Hok Hr Hclr. pose proof (torn_tags r tags t tags' t' A Hr Hclr) as Ht.
  pose proof (no_user_tables r tags' t' (tn_ok _ _ _ _ _ _ A) Hclr) as Hno.
  constructor; try done; try apply A.
  - intros f g i Hf Hg. apply (tn_other _ _ _ _ _ _ A f g i Hf). by left.
  - intros root va Hroot Hor. by apply (torn_translate r tags t tags' t').
  - intros f ix Hf Hix. apply (tn_gone _ _ _ _ _ _ A f _ Hf). destruct (tags' !! f) as [g|] eqn:E; [|done].
    pose proof (lookup_weaken _ _ _ _ E (tn_sub _ _ _ _ _ _ A)) as Hf'. rewrite Hf in Hf'. simplify_eq.
    by apply Hno in E.
  - intros pt ix i Ho Hpg. destruct (tn_pages _ _ _ _ _ _ A pt ix i Ho Hpg) as [[[g Hg] _]|]; [|done].
    pose proof (lookup_weaken _ _ _ _ Hg (tn_sub _ _ _ _ _ _ A)) as Hf'. destruct Ho as (Hpt & Hl & _).
    rewrite Hpt in Hf'. simplify_eq. apply Hno in Hg. by subst.
Qed.

Lemma destroy_ok r free_pml4 tags t :
  vm_ok tags t → is_root tags r → data_ok tags t r → r ≠ kernel_pml4_phys t →
  ∃ tags', destroyed r free_pml4 tags t tags' (vmm_destroy_address_space r free_pml4 t).
Proof.
  intros Hok Hr Hd Hk. destruct (vk_frame _ _ Hok r _ Hr) as [[Hr0 _] _]. unfold vmm_destroy_address_space.
  destruct (Z.eqb_spec r PHYS_NULL) as [->|_]; [unfold PHYS_NULL in Hr0; lia|].
  destruct (destroy_user_half r tags t Hok Hr Hd Hk) as (tags1 & A & Hclr).
  set (t1 := for_each 0 256 (destroy_pdpt r) t) in *. clearbody t1.
  pose proof (torn_destroyed r tags t tags1 t1 A Hok Hr Hclr) as D.
  destruct free_pml4; [|by exists tags1].
  assert (Hr1 : is_root tags1 r) by (apply D; split; [done|by right]).
  destruct (drop_root_free r tags1 t1 (ds_ok _ _ _ _ _ _ D) Hr1 Hclr) as (Hok2 & Hrd & Hregs & Htot & Hmono & Hnew & Hpage & Hfr).
  set (t2 := free_owned r t1) in *. clearbody t2. exists (delete r tags1).
  destruct D as [D1 D2 D3 D4 D5 D6 D7 D8 D9 D10 D11 D12 D13 D14]. constructor; try done.
  - intros f g. rewrite lookup_delete_Some, D2. unfold left_over. split.
    + intros [Hne [Hf [Hg|[-> _]]]]; [by split; [|left]|done].
    + intros [Hf [Hg|[_ ?]]]; [|done]. split; [|by split; [|left]]. intros <-.
      unfold is_root in Hr. rewrite Hf in Hr. by simplify_eq.
  - intros i Hi. rewrite Hrd. by apply D3.
  - intros i Hi. rewrite Hrd. by apply D4.
  - intros f g i Hf Hg. rewrite Hrd. by apply (D5 f g).
  - intros root va Hroot Hor. rewrite <- D6 by done. unfold translate, indices. cbn [trans]. by rewrite !Hrd.
  - intros f ix Hf Hix. by apply Hmono, (D7 f ix).
  - intros _ Hpg. apply Hfr. unfold pmm_page in *. by rewrite D13.
  - intros pt ix i Ho Hpg. by apply Hmono, (D9 pt ix i).
  - intros j Hj. by apply Hmono, D10.
  - intros j [Hj| ->]%Hnew; [by apply D11|]. right. left. by exists r, [].
  - intros f Hf. rewrite Hpage. by apply D12.
  - by rewrite Htot.
  - by eapply same_regs_trans.
Qed.
