(* ===== verification/PagingIso.v ===== *)
(** Isolation of address spaces (definitions in [Paging]): the operations of the virtual
    memory manager as steps of a system with several address spaces, and what holds in
    every state they reach.  No frame is mapped at two user pages, no mapped frame is free,
    a page table, or held by the kernel, and the kernel half is the same everywhere.

    The window for shared memory is exempt: its frames belong to their store, and the
    operations on address spaces neither copy nor free them. *)

From S2P Require Import Prelude Bitmap Pmm Paging PagingSpec PagingDestroy.

(** ** Addresses and entries *)
Lemma pte_frame_lor a b : pte_frame (Z.lor a b) = Z.lor (pte_frame a) (pte_frame b).
Proof. unfold pte_frame. by rewrite !Z.land_lor_distr_l. Qed.

Lemma pte_frame_mask a : pte_frame (Z.land a PAGE_MASK) = pte_frame a.
Proof. unfold pte_frame. by rewrite <- (Z.land_assoc a), Z.land_diag. Qed.

Lemma pte_frame_small f : 0 ≤ f < 2 ^ 63 → f mod 4096 = 0 → pte_frame f = f.
Proof.
  intros Hf Hm. unfold pte_frame. fold (next_table f). rewrite next_table_eq by lia.
  replace (f / 4096 * 4096) with f by zdiv. change (u64 (Z.lnot PAGING_NX)) with (Z.ones 63).
  rewrite Z.land_ones by lia. by apply Z.mod_small.
Qed.

(** The flags of an entry carry no address. *)
Definition flags_ok (flags : Z) : Prop := 0 ≤ flags < 2 ^ 64 ∧ pte_frame flags = 0.

Lemma new_entry_frame f flags :
  0 ≤ f < 2 ^ 63 → f mod 4096 = 0 → flags_ok flags → pte_frame (new_entry f flags) = f.
Proof.
  intros Hf Hm [_ Hfl]. unfold new_entry. rewrite pte_frame_lor, pte_frame_mask, Hfl, Z.lor_0_r.
  by apply pte_frame_small.
Qed.

Lemma va_of_sum a b c d : in_table a → in_table b → in_table c → in_table d →
  va_of a b c d = a * 2 ^ 39 + b * 2 ^ 30 + c * 2 ^ 21 + d * 2 ^ 12.
Proof.
  unfold in_table. intros Ha Hb Hc Hd. unfold va_of. rewrite !Z.shiftl_mul_pow2 by lia.
  rewrite (lor_low (a * 2 ^ 39) (b * 2 ^ 30) 39) by (try rewrite Z.mod_mul; lia).
  rewrite (lor_low _ (c * 2 ^ 21) 30); [|lia|lia|].
  2: { replace (a * 2 ^ 39 + b * 2 ^ 30) with ((a * 512 + b) * 2 ^ 30) by lia. by rewrite Z.mod_mul. }
  rewrite (lor_low _ (d * 2 ^ 12) 21); [lia|lia|lia|].
  replace (a * 2 ^ 39 + b * 2 ^ 30 + c * 2 ^ 21) with ((a * 2 ^ 18 + b * 512 + c) * 2 ^ 21) by lia. by rewrite Z.mod_mul.
Qed.

Lemma index_eq va n : 0 ≤ n → Z.land (Z.shiftr va n) 0x1FF = va / 2 ^ n mod 512.
Proof. intros Hn. change 0x1FF with (Z.ones 9). by rewrite Z.land_ones, Z.shiftr_div_pow2 by lia. Qed.

(** An address below 2^48 is the address of its indices, up to the offset in the page. *)
Lemma va_of_indices va : 0 ≤ va < 2 ^ 48 →
  va_of (PML4_IDX va) (PDPT_IDX va) (PD_IDX va) (PT_IDX va) = va / 4096 * 4096.
Proof.
  intros Hva. rewrite va_of_sum by apply index_range. unfold PML4_IDX, PDPT_IDX, PD_IDX, PT_IDX.
  rewrite !index_eq by lia. change (2 ^ 39) with (4096 * 512 * 512 * 512). change (2 ^ 30) with (4096 * 512 * 512).
  change (2 ^ 21) with (4096 * 512). change (2 ^ 12) with 4096.
  rewrite <- !Z.div_div by lia. set (v := va / 4096). assert (0 ≤ v < 2 ^ 36) by (unfold v; zdiv).
  set (w := v / 512). assert (0 ≤ w < 2 ^ 27) by (unfold w; zdiv).
  set (x := w / 512). assert (0 ≤ x < 2 ^ 18) by (unfold x; zdiv).
  assert (v = w * 512 + v mod 512) by (unfold w; zdiv). assert (w = x * 512 + w mod 512) by (unfold x; zdiv).
  assert (x = x / 512 * 512 + x mod 512) by zdiv. assert (x / 512 mod 512 = x / 512) by zdiv. lia.
Qed.

Lemma shm_page va : kz_shm_va_excluded (va / 4096 * 4096) = kz_shm_va_excluded va.
Proof.
  unfold kz_shm_va_excluded. change KZ_SHM_BASE with (0x50000 * 4096). change KZ_SHM_END with (0x58000 * 4096).
  destruct (Z.leb_spec (0x50000 * 4096) va), (Z.leb_spec (0x50000 * 4096) (va / 4096 * 4096)),
    (Z.ltb_spec va (0x58000 * 4096)), (Z.ltb_spec (va / 4096 * 4096) (0x58000 * 4096)); try done; zdiv.
Qed.

(** ** The invariant *)

(** A frame that holds data: taken from the allocator, and no table. *)
Definition in_use (tags : gmap Z tag) t (f : Z) : Prop :=
  tags !! f = None ∧ frame_ok f ∧ pmm_page t f ∧ ¬ is_free (frames t) (f / PAGE_SIZE).

(** Entry [i] of the page table [pt] maps a page of a user's address space. *)
Definition user_entry (tags : gmap Z tag) t (pt i : Z) : Prop :=
  ∃ r ix, r ≠ kernel_pml4_phys t ∧ owned_entry tags t r pt ix i.

(** [held] are the frames the kernel took from the allocator and has not given away.
    Protection is a matter of page tables: the links above them are writable, and none of
    them is huge.  Physical addresses have 52 bits. *)
Record iso (tags : gmap Z tag) (held : gset Z) t : Prop := {
  is_vm : vm_ok tags t;
  is_small : total_pages (frames t) ≤ 2 ^ 40;
  is_current : current_pml4 t = Some (kernel_pml4_phys t);
  is_kroot : is_root tags (kernel_pml4_phys t);
  is_kernel : ∀ r i, is_root tags r → 256 ≤ i < 512 →
    present (rd t r i) = true ∧ rd t r i = rd t (kernel_pml4_phys t) i;
  is_roots : ∀ r, is_root tags r → r ≠ kernel_pml4_phys t → pmm_page t r;
  is_data : ∀ pt i, user_entry tags t pt i →
    in_use tags t (pte_frame (rd t pt i)) ∧ pte_frame (rd t pt i) ∉ held;
  is_once : ∀ pt i pt' i', user_entry tags t pt i → user_entry tags t pt' i' →
    pte_frame (rd t pt i) = pte_frame (rd t pt' i') → pt = pt' ∧ i = i';
  is_held : ∀ f, f ∈ held → in_use tags t f;
  is_upper : ∀ f r ix i, tags !! f = Some (OUser r, ix) → r ≠ kernel_pml4_phys t → (length ix < 3)%nat →
    in_table i → (ix = [] → i < 256) → present (rd t f i) = true →
    writable (rd t f i) = true ∧ huge (rd t f i) = false;
  is_thin : ∀ f r ix i, tags !! f = Some (OUser r, ix) → r ≠ kernel_pml4_phys t → (length ix < 3)%nat →
    in_table i → ix ≠ [] → huge (rd t f i) = false
}.

Lemma in_use_small tags held t f : iso tags held t → in_use tags t f → 0 < f < 2 ^ 52.
Proof. intros Hi (_ & [Hf _] & [_ Hp] & _). pose proof (is_small _ _ _ Hi). unfold PAGE_SIZE in *. zdiv. Qed.

(** Tables added by growth take nothing that is in use. *)
Lemma grown_in_use tags t tags' t' f : grown tags t tags' t' → in_use tags t f → in_use tags' t' f.
Proof.
  intros A (Hn & Hf & Hp & Hfr). split_and!; try done.
  - destruct (tags' !! f) as [g|] eqn:E; [|done]. destruct Hfr. by apply (gr_new _ _ _ _ A).
  - unfold pmm_page in *. by rewrite (gr_total _ _ _ _ A).
  - intros Hj. by apply Hfr, (gr_free _ _ _ _ A).
Qed.

Lemma grown_entry tags t tags' t' pt i :
  grown tags t tags' t' → user_entry tags' t' pt i → user_entry tags t pt i ∧ rd t' pt i = rd t pt i.
Proof.
  intros A (r & ix & Hr & Hpt & Hl & Hi & Hp & Hx). rewrite (proj1 (proj2 (gr_regs _ _ _ _ A))) in Hr.
  destruct (gr_leaf _ _ _ _ A pt _ i Hpt Hl Hp) as [Hpt1 He]. split; [|done]. rewrite He in Hp.
  exists r, ix. by split_and!; try apply Hi.
Qed.

Lemma iso_grown tags held t tags' t' : iso tags held t → grown tags t tags' t' → iso tags' held t'.
Proof.
  intros Hi A. destruct (gr_regs _ _ _ _ A) as (Hc & Hk & _). pose proof (gr_ext _ _ _ _ A) as Hx.
  assert (Hkeep : ∀ r i, is_root tags r → 256 ≤ i < 512 → rd t' r i = rd t r i).
  { intros r i Hr Hri. apply (gr_keep _ _ _ _ A r _ i Hr). by apply (is_kernel _ _ _ Hi). }
  constructor; rewrite ?Hc, ?Hk.
  - apply A.
  - rewrite (gr_total _ _ _ _ A). apply Hi.
  - apply Hi.
  - apply (extends_lookup tags); [done|apply Hi].
  - intros r i Hr Hri. apply Hx in Hr. rewrite !Hkeep by (done || apply Hi). by apply (is_kernel _ _ _ Hi).
  - intros r Hr Hne. apply Hx in Hr. unfold pmm_page. rewrite (gr_total _ _ _ _ A). by apply (is_roots _ _ _ Hi).
  - intros pt i Hu. destruct (grown_entry _ _ _ _ _ _ A Hu) as [Hu1 ->]. destruct (is_data _ _ _ Hi pt i Hu1).
    split; [by eapply grown_in_use|done].
  - intros pt i pt' i' Hu Hu'. destruct (grown_entry _ _ _ _ _ _ A Hu) as [Hu1 ->].
    destruct (grown_entry _ _ _ _ _ _ A Hu') as [Hu1' ->]. by apply (is_once _ _ _ Hi).
  - intros f Hf. eapply grown_in_use; [done|]. by apply (is_held _ _ _ Hi).
  - intros f r ix i Hf Hr Hl Hin Hlow Hp. destruct (gr_link _ _ _ _ A f _ i Hf Hl) as [[Hf1 He]|[? ?]]; [|by auto].
    rewrite He in Hp |- *. by apply (is_upper _ _ _ Hi f r ix).
  - intros f r ix i Hf Hr Hl Hin Hne. destruct (gr_link _ _ _ _ A f _ i Hf Hl) as [[Hf1 He]|[? _]]; [|done].
    rewrite He. by apply (is_thin _ _ _ Hi f r ix).
Qed.

(** A frame comes to the kernel: fresh, or no longer mapped. *)
Lemma iso_hold tags held t f :
  iso tags held t → in_use tags t f → (∀ pt i, user_entry tags t pt i → pte_frame (rd t pt i) ≠ f) →
  iso tags ({[f]} ∪ held) t.
Proof.
  intros [I1 I2 I3 I4 I5 I6 I7 I8 I9 I10 I11] Hf Hno. constructor; try done.
  - intros pt i Hu. destruct (I7 pt i Hu) as [? ?]. split; [done|]. specialize (Hno pt i Hu). set_solver.
  - intros f' [->%elem_of_singleton|Hf']%elem_of_union; [done|by apply I9].
Qed.

Lemma iso_drop tags held t f : iso tags held t → iso tags (held ∖ {[f]}) t.
Proof.
  intros [I1 I2 I3 I4 I5 I6 I7 I8 I9 I10 I11]. constructor; try done.
  - intros pt i Hu. destruct (I7 pt i Hu). set_solver.
  - intros f' Hf'. apply I9. set_solver.
Qed.

Lemma owns_in_use tags held t f : iso tags held t → in_use tags t f → free_owned f t = free_frame f t.
Proof.
  intros Hi (_ & [Hf0 Hfm] & [Hz Hp] & Hnf). unfold free_owned. destruct (vk_pmm _ _ (is_vm _ _ _ Hi)) as [bm Hbm].
  unfold pmm_owns_page. rewrite (wf_bitmap _ _ Hbm), <- (wf_total _ _ Hbm).
  assert (Hl : Z.land f (PAGE_SIZE - 1) = 0).
  { change (PAGE_SIZE - 1) with (Z.ones 12). by rewrite Z.land_ones by lia. }
  rewrite Hl. destruct (Z.eqb_spec f PHYS_NULL) as [->|]; [by vm_compute in Hf0|].
  cbn [orb negb Z.eqb]. destruct (Z.leb_spec (total_pages (frames t)) (f / PAGE_SIZE)); [lia|].
  rewrite bitmap_test_bit. destruct (bit_at bm (f / PAGE_SIZE)) eqn:E; [done|]. destruct Hnf. exists bm.
  split; [apply Hbm|]. split; [|done]. unfold PAGE_SIZE in *. zdiv.
Qed.

Lemma entry_same tags t t' pt i :
  kernel_pml4_phys t' = kernel_pml4_phys t → rd t' pt i = rd t pt i →
  user_entry tags t' pt i ↔ user_entry tags t pt i.
Proof. intros Hk Hrd. unfold user_entry, owned_entry. by rewrite Hk, Hrd. Qed.

(** The kernel gives a frame back to the allocator. *)
Lemma iso_release tags held t f :
  iso tags held t → f ∈ held → iso tags (held ∖ {[f]}) (free_frame f t).
Proof.
  intros Hi Hf. pose proof (is_held _ _ _ Hi f Hf) as Hu. rewrite <- (owns_in_use tags held t f Hi Hu).
  pose proof Hu as (Hn & [Hf0 Hfm] & Hpg & _).
  destruct (free_untagged tags t f (is_vm _ _ _ Hi) ltac:(lia) Hfm Hn) as (Hok & Hrd & Hregs & Htot & _ & Hnew & _).
  set (t' := free_owned f t) in *. clearbody t'. destruct Hregs as (Hc & Hk & _).
  assert (Hue : ∀ pt i, user_entry tags t' pt i → user_entry tags t pt i) by (intros pt i; by apply entry_same).
  assert (Hiu : ∀ f', in_use tags t f' → f' ≠ f → in_use tags t' f').
  { intros f' (H1 & H2 & H3 & H4) Hne. split_and!; try apply H2; try done.
    - unfold pmm_page. by rewrite Htot.
    - intros [?|He]%Hnew; [done|]. apply Hne, aligned_eq; [apply H2|done|done]. }
  constructor; rewrite ?Hc, ?Hk; try apply Hi; try done.
  - rewrite Htot. apply Hi.
  - intros r i Hr Hri. rewrite !Hrd. by apply (is_kernel _ _ _ Hi).
  - intros r Hr Hne. unfold pmm_page. rewrite Htot. by apply (is_roots _ _ _ Hi).
  - intros pt i Hu'. rewrite Hrd. destruct (is_data _ _ _ Hi pt i (Hue _ _ Hu')). split; [|set_solver].
    apply Hiu; [done|]. set_solver.
  - intros pt i pt' i' Hu1 Hu2. rewrite !Hrd. apply (is_once _ _ _ Hi); by apply Hue.
  - intros f' Hf'. apply Hiu; [|set_solver]. apply (is_held _ _ _ Hi). set_solver.
  - intros f' r ix i. rewrite Hrd. apply (is_upper _ _ _ Hi).
  - intros f' r ix i. rewrite Hrd. apply (is_thin _ _ _ Hi).
Qed.

(** ** Writing an entry of a page table *)
Lemma wr_entry tags t pt i v pt' i' :
  user_entry tags (wr pt i v t) pt' i' → (pt', i') ≠ (pt, i) → user_entry tags t pt' i'.
Proof. intros Hu Hne. apply (entry_same tags t (wr pt i v t)); [done| |done]. rewrite rd_wr, decide_False; [done|naive_solver]. Qed.

Lemma iso_leaf tags held t pt g i v :
  iso tags held t → tags !! pt = Some g → length g.2 = 3%nat → 0 ≤ v < 2 ^ 64 →
  (user_entry tags (wr pt i v t) pt i → in_use tags t (pte_frame v) ∧ (pte_frame v ∉ held) ∧
     (∀ pt' i', user_entry tags t pt' i' → (pt', i') ≠ (pt, i) → pte_frame (rd t pt' i') ≠ pte_frame v)) →
  iso tags held (wr pt i v t).
Proof.
  intros Hi Hpt Hl Hv Hnew. set (t' := wr pt i v t) in *.
  assert (Hroot : ∀ r j, is_root tags r → rd t' r j = rd t r j).
  { intros r j Hr. unfold t'. rewrite rd_wr, decide_False; [done|]. intros [-> _]. unfold is_root in Hr.
    rewrite Hpt in Hr. by simplify_eq. }
  assert (Hold : ∀ pt' i', (pt', i') ≠ (pt, i) → rd t' pt' i' = rd t pt' i').
  { intros pt' i' Hne. unfold t'. rewrite rd_wr, decide_False; [done|naive_solver]. }
  assert (Hself : rd t' pt i = v) by (unfold t'; rewrite rd_wr; by rewrite decide_True).
  constructor; try apply Hi.
  - by apply (leaf_wf tags t pt g); [apply Hi|..].
  - intros r j Hr Hj. rewrite !Hroot by (done || apply Hi). by apply (is_kernel _ _ _ Hi).
  - intros pt' i' Hu. destruct (decide ((pt', i') = (pt, i))) as [Heq|Hne].
    + simplify_eq. rewrite Hself. by destruct (Hnew Hu) as (? & ? & _).
    + rewrite Hold by done. by apply (is_data _ _ _ Hi), (wr_entry _ _ _ _ _ _ _ Hu).
  - intros p1 i1 p2 i2 Hu1 Hu2.
    destruct (decide ((p1, i1) = (pt, i))) as [E1|N1], (decide ((p2, i2) = (pt, i))) as [E2|N2].
    + by simplify_eq.
    + simplify_eq. rewrite Hself, Hold by done. intros He. destruct (Hnew Hu1) as (_ & _ & Hno).
      destruct (Hno p2 i2 (wr_entry _ _ _ _ _ _ _ Hu2 N2) N2). done.
    + simplify_eq. rewrite Hself, Hold by done. intros He. destruct (Hnew Hu2) as (_ & _ & Hno).
      destruct (Hno p1 i1 (wr_entry _ _ _ _ _ _ _ Hu1 N1) N1). done.
    + rewrite !Hold by done. apply (is_once _ _ _ Hi); by eapply wr_entry.
  - intros f r ix j Hf Hr Hlx. rewrite Hold; [by apply (is_upper _ _ _ Hi f r ix)|]. intros Heq. simplify_eq. simpl in Hl. lia.
  - intros f r ix j Hf Hr Hlx. rewrite Hold; [by apply (is_thin _ _ _ Hi f r ix)|]. intros Heq. simplify_eq. simpl in Hl. lia.
Qed.

(** ** Mapping, unmapping, protecting *)
Lemma place_user root va : PML4_IDX va < 256 → place root va = (OUser root, indices va).
Proof.
  intros Hlt. unfold place, indices, kids. cbn [foldl]. rewrite kid_lower by done.
  by rewrite !kid_lower by done.
Qed.

Lemma place_kernel root va : 256 ≤ PML4_IDX va → place root va = (OKernel, indices va).
Proof. intros Hge. unfold place, indices, kids. cbn [foldl]. rewrite kid_upper by done. done. Qed.

(** Pages the isolation of user data does not speak about. *)
Definition exempt t (root va : Z) : Prop :=
  root = kernel_pml4_phys t ∨ 256 ≤ PML4_IDX va ∨ 0 ≤ va < 2 ^ 48 ∧ kz_shm_va_excluded va = true.

Lemma exempt_entry tags held t root va pt v :
  iso tags held t → is_root tags root → walk_pt root va t = Some pt → exempt t root va →
  ¬ user_entry tags (wr pt (PT_IDX va) v t) pt (PT_IDX va).
Proof.
  intros Hi Hr Hw Hex (r & ix & Hne & Hpt & Hl & _ & _ & Hx).
  destruct (walk_pt_tag tags t root va pt (is_vm _ _ _ Hi) Hr Hw) as (g & Hg & _ & Hpl).
  rewrite Hpt in Hg. injection Hg as <-.
  rewrite kid_lower in Hpl by (intros ->; done). change (r ≠ kernel_pml4_phys t) in Hne.
  destruct (Z.lt_ge_cases (PML4_IDX va) 256) as [Hlt|Hge].
  - rewrite place_user in Hpl by done. injection Hpl as <- Hix.
    destruct Hex as [->|[?|[Hva Hs]]]; [done|lia|].
    apply (app_inj_tail [PML4_IDX va; PDPT_IDX va; PD_IDX va] ix (PT_IDX va) (PT_IDX va)) in Hix as [<- _].
    unfold va_at in Hx. rewrite va_of_indices, shm_page in Hx by done. congruence.
  - by rewrite place_kernel in Hpl by lia.
Qed.

(** Growth, then one entry: the frame comes from the kernel, or the page is exempt. *)
Lemma map_held tags held t root va f flags :
  iso tags held t → is_root tags root → f ∈ held → flags_ok flags →
  let '(res, t') := map_at root va f flags t in
  (res = 0 ∧ ∃ tags', grown tags t tags' t' ∧ same_outside root va tags t t' ∧ iso tags' held t') ∨
  (res = 1 ∧ ∃ tags' t1 pt, grown tags t tags' t1 ∧ same_outside root va tags t t1 ∧
     walk_pt root va t1 = Some pt ∧ t' = wr pt (PT_IDX va) (new_entry f flags) t1 ∧ iso tags' (held ∖ {[f]}) t').
Proof.
  intros Hi Hr Hf Hfl. pose proof (map_at_cases tags t root va f flags (is_vm _ _ _ Hi) Hr) as Hm.
  destruct (map_at root va f flags t) as [res t'].
  destruct Hm as [(-> & (g1 & A) & S & _)|(-> & g1 & t1 & pt & A & S & Hw & ->)]; [left|right]; (split; [done|]).
  { exists g1. split_and!; try done. by eapply iso_grown. }
  exists g1, t1, pt. split_and!; try done.
  pose proof (iso_grown _ _ _ _ _ Hi A) as Hi1.
  pose proof (is_held _ _ _ Hi1 f Hf) as Hu. pose proof (in_use_small _ _ _ _ Hi1 Hu).
  pose proof Hu as (_ & [_ Hfm] & _).
  pose proof (new_entry_frame f flags ltac:(lia) Hfm Hfl) as Hfe.
  destruct (walk_pt_tag g1 t1 root va pt (is_vm _ _ _ Hi1) (extends_lookup _ _ _ _ (gr_ext _ _ _ _ A) Hr) Hw)
    as (g & Hg & Hl & _).
  apply (iso_leaf g1 _ t1 pt g); [by apply iso_drop|done|done|apply new_entry_u64; [lia|apply Hfl]|].
  intros _. rewrite Hfe. split_and!; [done|set_solver|]. intros pt' i' Hu' _ He.
  destruct (is_data _ _ _ Hi1 pt' i' Hu'). congruence.
Qed.

Lemma map_exempt tags held t root va paddr flags :
  iso tags held t → is_root tags root → exempt t root va → 0 ≤ paddr → 0 ≤ flags < 2 ^ 64 →
  ∃ tags', extends tags tags' ∧ iso tags' held (map_at root va paddr flags t).2.
Proof.
  intros Hi Hr Hex Hpa Hfl. pose proof (map_at_cases tags t root va paddr flags (is_vm _ _ _ Hi) Hr) as Hm.
  destruct (map_at root va paddr flags t) as [res t'].
  destruct Hm as [(-> & (g1 & A) & _)|(-> & g1 & t1 & pt & A & _ & Hw & ->)]; exists g1; (split; [apply A|]).
  { by eapply iso_grown. }
  pose proof (iso_grown _ _ _ _ _ Hi A) as Hi1. pose proof (extends_lookup _ _ _ _ (gr_ext _ _ _ _ A) Hr) as Hr1.
  destruct (walk_pt_tag g1 t1 root va pt (is_vm _ _ _ Hi1) Hr1 Hw) as (g & Hg & Hl & _).
  apply (iso_leaf g1 _ t1 pt g); [done..|by apply new_entry_u64|]. intros Hu. exfalso. revert Hu.
  apply (exempt_entry g1 held t1 root va pt); try done. unfold exempt in *. by rewrite (proj1 (proj2 (gr_regs _ _ _ _ A))).
Qed.

(** The entry of a user page. *)
Lemma user_page tags held t root va pt :
  iso tags held t → is_root tags root → walk_pt root va t = Some pt → root ≠ kernel_pml4_phys t →
  0 ≤ va < 2 ^ 47 → kz_shm_va_excluded va = false → present (rd t pt (PT_IDX va)) = true →
  tags !! pt = Some (OUser root, [PML4_IDX va; PDPT_IDX va; PD_IDX va]) ∧ user_entry tags t pt (PT_IDX va).
Proof.
  intros Hi Hr Hw Hne Hva Hs Hp.
  destruct (walk_pt_tag tags t root va pt (is_vm _ _ _ Hi) Hr Hw) as (g & Hg & Hl & Hpl).
  assert (H4 : PML4_IDX va < 256) by (unfold PML4_IDX; rewrite index_eq by lia; zdiv).
  rewrite place_user in Hpl by done. symmetry in Hpl.
  apply (kid_user g _ root [PML4_IDX va; PDPT_IDX va; PD_IDX va] (PT_IDX va)) in Hpl as [-> _].
  split; [done|]. exists root, [PML4_IDX va; PDPT_IDX va; PD_IDX va]. split; [done|].
  split_and!; try done; try apply index_range. unfold va_at. by rewrite va_of_indices, shm_page by lia.
Qed.

(** Unmapping a user page hands its frame to the kernel. *)
Lemma unmap_user tags held t root va :
  iso tags held t → is_root tags root → root ≠ kernel_pml4_phys t → 0 ≤ va < 2 ^ 47 →
  kz_shm_va_excluded va = false →
  let '(f, t') := vmm_unmap_page_from va root t in
  (f = PHYS_NULL ∧ t' = t) ∨ (f ≠ PHYS_NULL ∧ (f ∉ held) ∧ iso tags ({[f]} ∪ held) t').
Proof.
  intros Hi Hr Hne Hva Hs. unfold vmm_unmap_page_from, root_or_kernel.
  destruct (vk_frame _ _ (is_vm _ _ _ Hi) root _ Hr) as [[Hr0 _] _].
  destruct (Z.eqb_spec root PHYS_NULL) as [->|_]; [unfold PHYS_NULL in Hr0; lia|].
  destruct (walk_pt root va t) as [pt|] eqn:Hw; [|by left].
  destruct (present (rd t pt (PT_IDX va))) eqn:Hp; cbn [negb]; [right|by left].
  destruct (user_page tags held t root va pt Hi Hr Hw Hne Hva Hs Hp) as [Hpt Hu].
  destruct (is_data _ _ _ Hi pt _ Hu) as [Hiu Hnh]. pose proof (in_use_small _ _ _ _ Hi Hiu).
  split; [unfold PHYS_NULL; lia|]. split; [done|].
  apply iso_hold; [|done|].
  - apply (iso_leaf tags held t pt (OUser root, [PML4_IDX va; PDPT_IDX va; PD_IDX va])); try done.
    intros (r & ix & _ & _ & _ & _ & Hpr & _). rewrite rd_wr, decide_True in Hpr by done. done.
  - intros pt' i' Hu'. destruct (decide ((pt', i') = (pt, PT_IDX va))) as [Heq|Hd].
    { simplify_eq. destruct Hu' as (r & ix & _ & _ & _ & _ & Hpr & _). rewrite rd_wr, decide_True in Hpr by done. done. }
    rewrite rd_wr, decide_False by naive_solver. intros He. apply Hd.
    destruct (is_once _ _ _ Hi pt' i' pt (PT_IDX va) (wr_entry _ _ _ _ _ _ _ Hu' Hd) Hu He) as [-> ->]. done.
Qed.

(** Writing an entry that is not present, or one that keeps the frame. *)
Lemma clear_iso tags held t root va pt :
  iso tags held t → is_root tags root → walk_pt root va t = Some pt → iso tags held (wr pt (PT_IDX va) 0 t).
Proof.
  intros Hi Hr Hw. destruct (walk_pt_tag tags t root va pt (is_vm _ _ _ Hi) Hr Hw) as (g & Hg & Hl & _).
  apply (iso_leaf tags held t pt g); try done.
  intros (r & ix & _ & _ & _ & _ & Hpr & _). rewrite rd_wr, decide_True in Hpr by done. done.
Qed.

Lemma protect_iso tags held t va flags root :
  iso tags held t → is_root tags root → flags_ok flags →
  iso tags held (vmm_protect_page_into va flags root t).2.
Proof.
  intros Hi Hr Hfl. unfold vmm_protect_page_into, root_or_kernel.
  destruct (vk_frame _ _ (is_vm _ _ _ Hi) root _ Hr) as [[Hr0 _] _].
  destruct (Z.eqb_spec root PHYS_NULL) as [->|_]; [unfold PHYS_NULL in Hr0; lia|].
  destruct (walk_pt root va t) as [pt|] eqn:Hw; [|done]. cbv zeta.
  destruct (present (rd t pt (PT_IDX va))) eqn:Hp; cbn [negb snd]; [|done].
  destruct (walk_pt_tag tags t root va pt (is_vm _ _ _ Hi) Hr Hw) as (g & Hg & Hl & _).
  set (e := rd t pt (PT_IDX va)) in *. fold (new_entry e flags).
  assert (Hfe : pte_frame (new_entry e flags) = pte_frame e).
  { unfold new_entry. by rewrite pte_frame_lor, pte_frame_mask, (proj2 Hfl), Z.lor_0_r. }
  apply (iso_leaf tags held t pt g); [done..|apply new_entry_u64; [apply (vk_word _ _ (is_vm _ _ _ Hi))|apply Hfl]|].
  intros (r & ix & Hne & Hpt & Hlx & Hix & _ & Hx). rewrite Hfe.
  assert (Hu : user_entry tags t pt (PT_IDX va)) by (exists r, ix; by split_and!; try apply Hix).
  destruct (is_data _ _ _ Hi pt _ Hu) as [? ?]. split_and!; [done..|]. intros pt' i' Hu' Hd He.
  apply Hd. destruct (is_once _ _ _ Hi pt' i' pt (PT_IDX va) Hu' Hu He) as [-> ->]. done.
Qed.

(** ** Creating and destroying address spaces *)
Lemma owner_root tags t f r ix : vm_ok tags t → tags !! f = Some (OUser r, ix) → is_root tags r.
Proof.
  intros Hok. revert f. induction ix as [|i ix IH] using rev_ind; intros f Hf.
  - pose proof (vk_root _ _ Hok f _ Hf) as He. by injection He as ->.
  - destruct (vk_linked _ _ Hok f r ix i Hf) as (f2 & Hf2 & _). by apply (IH f2).
Qed.

(** The upper half of a table copied. *)
Lemma copy_upper p k t :
  p ≠ k → let t' := for_each 256 512 (λ i t, wr p i (rd t k i) t) t in
  (∀ f i, rd t' f i = if decide (f = p ∧ 256 ≤ i < 512) then rd t k i else rd t f i) ∧
  (∀ f, f ≠ p → page_of t' f = page_of t f) ∧ frames t' = frames t ∧ same_regs t t'.
Proof.
  intros Hpk t'.
  apply (for_each_upto (λ n t', (∀ f i, rd t' f i = if decide (f = p ∧ 256 ≤ i < n) then rd t k i else rd t f i) ∧
    (∀ f, f ≠ p → page_of t' f = page_of t f) ∧ frames t' = frames t ∧ same_regs t t') 256 512
    (λ i t, wr p i (rd t k i) t) t); [lia| |].
  - split_and!; try done. intros f i. by rewrite decide_False by lia.
  - intros n t1 Hn (Hrd & Hpg & Hfr & Hregs). split_and!; try done; try apply Hregs.
    + intros f i. rewrite rd_wr, !Hrd, (decide_False (P := k = p ∧ _)) by naive_solver.
      destruct (decide (f = p ∧ i = n)) as [[-> ->]|H1]; [by rewrite decide_True by (split; [done|lia])|].
      destruct (decide (f = p ∧ 256 ≤ i < n)) as [[-> H2]|H2]; [by rewrite decide_True by (split; [done|lia])|].
      rewrite decide_False; [done|]. intros [-> H3]. destruct (decide (i = n)); [by apply H1|]. apply H2. split; [done|lia].
    + intros f Hf. rewrite page_wr by done. by apply Hpg.
Qed.

(** A new root, with the kernel half of an existing one. *)
Lemma add_root_ok tags t t1 t' p k :
  vm_ok tags t → is_root tags k → grown tags t tags t1 → fresh tags t t1 p →
  (∀ f i, rd t1 f i = if decide (f = p) then 0 else rd t f i) →
  (∀ f i, rd t' f i = if decide (f = p ∧ 256 ≤ i < 512) then rd t1 k i else rd t1 f i) →
  frames t' = frames t1 → kernel_pml4_phys t' = kernel_pml4_phys t →
  vm_ok (<[p := (OUser p, [])]> tags) t'.
Proof.
  intros Hok Hk A (Hnone & Hfo & _ & Hnf & Hpg) Hrd1 Hrd Hfr Hkp.
  pose proof (gr_ok _ _ _ _ A) as Hok1. assert (Hpk : k ≠ p) by (unfold is_root in Hk; congruence).
  assert (Hsame : ∀ f i, f ≠ p → rd t' f i = rd t1 f i) by (intros f i Hf; rewrite Hrd, decide_False; [done|naive_solver]).
  assert (Hno : ∀ f ix, tags !! f ≠ Some (OUser p, ix)).
  { intros f ix Hf. pose proof (owner_root _ _ _ _ _ Hok Hf) as Hr. unfold is_root in Hr. congruence. }
  destruct (gr_regs _ _ _ _ A) as (_ & Hk1 & _).
  destruct Hok1 as [K1 K2 K3 K4 K5 K6 K7 K8 K9]. constructor; unfold pmm_page; rewrite ?Hfr, ?Hkp; try done.
  - intros f i. rewrite Hrd. case_decide; apply K2.
  - intros f g. rewrite lookup_insert_Some. intros [[<- _]|[_ Hg]]; [done|]. by apply K3 in Hg.
  - intros f o. rewrite lookup_insert_Some. intros [[<- He]|[_ Hg]]; [by simplify_eq|by apply K4].
  - intros f g i. rewrite lookup_insert_Some. intros [[<- <-]|[Hne Hg]] Hl Hi Hp Hh.
    + rewrite Hrd in *. case_decide as Hd; [|by rewrite Hrd1, decide_True in Hp by done].
      pose proof (K5 k _ i Hk ltac:(simpl; lia) Hi Hp ltac:(by left)) as Hkid. rewrite kid_upper in Hkid |- * by lia.
      rewrite lookup_insert_ne; [done|]. congruence.
    + rewrite Hsame in * by done. pose proof (K5 f g i Hg Hl Hi Hp Hh). rewrite lookup_insert_ne; [done|]. congruence.
  - intros f g. rewrite lookup_insert_Some. intros [[_ <-]|[_ Hg]]; [simpl; lia|]. by apply (K6 f).
  - intros f r ix. rewrite lookup_insert_Some. intros [[_ He]|[_ Hg]] Hix Hr; [by simplify_eq|].
    apply (K7 f r ix Hg Hix). by rewrite Hk1.
  - intros f f' r ix. rewrite !lookup_insert_Some. intros [[<- He]|[_ H1]] [[<- He']|[_ H2]]; simplify_eq; try done.
    + by apply Hno in H2.
    + by apply Hno in H1.
    + by apply (K8 f f' r ix).
  - intros c r ix i. rewrite lookup_insert_Some. intros [[_ He]|[Hne Hc]]; [by destruct ix|].
    destruct (K9 c r ix i Hc) as (f & Hf & Hi & Hlk). assert (Hfp : f ≠ p) by congruence. exists f.
    rewrite lookup_insert_ne by done. split; [done|]. split; [done|]. unfold links in *. by rewrite !Hsame.
Qed.

(** The outcome of creating an address space: an empty user half and the kernel's half. *)
Record created (tags : gmap Z tag) t (p : Z) t' : Prop := {
  cr_none : tags !! p = None;
  cr_ok : vm_ok (<[p := (OUser p, [])]> tags) t';
  cr_lower : ∀ i, 0 ≤ i < 256 → rd t' p i = 0;
  cr_upper : ∀ i, 256 ≤ i < 512 → rd t' p i = rd t (kernel_pml4_phys t) i;
  cr_same : ∀ f i, f ≠ p → rd t' f i = rd t f i;
  cr_data : ∀ f, tags !! f = None → ¬ is_free (frames t) (f / PAGE_SIZE) → page_of t' f = page_of t f;
  cr_frame : frame_ok p ∧ pmm_page t' p ∧ is_free (frames t) (p / PAGE_SIZE) ∧ ¬ is_free (frames t') (p / PAGE_SIZE);
  cr_free : ∀ j, is_free (frames t') j → is_free (frames t) j;
  cr_total : total_pages (frames t') = total_pages (frames t);
  cr_regs : same_regs t t'
}.

Lemma create_ok tags t :
  vm_ok tags t → is_root tags (kernel_pml4_phys t) → current_pml4 t = Some (kernel_pml4_phys t) →
  let '(p, t') := vmm_create_address_space t in
  (p = PHYS_NULL ∧ grown tags t tags t' ∧ exhausted t') ∨ (p ≠ PHYS_NULL ∧ created tags t p t').
Proof.
  intros Hok Hk Hc. unfold vmm_create_address_space. rewrite Hc. pose proof (alloc_table_ok tags t Hok) as Ha.
  destruct (alloc_page_virt t) as [[p|] t1]; [right|left; by destruct Ha as (? & _ & _ & ?)].
  destruct Ha as (A & _ & Hfr & Hrd1). pose proof Hfr as (Hnone & [Hp0 Hpm] & Hf1 & Hf2 & Hpg).
  assert (Hpk : p ≠ kernel_pml4_phys t) by (unfold is_root in Hk; congruence).
  pose proof (copy_upper p (kernel_pml4_phys t) t1 Hpk) as Hcp. cbv zeta in Hcp.
  set (t' := for_each 256 512 _ t1) in *. clearbody t'. destruct Hcp as (Hrd & Hpage & Hframes & Hregs).
  split; [unfold PHYS_NULL; lia|]. pose proof (same_regs_trans _ _ _ (gr_regs _ _ _ _ A) Hregs) as Hregs'.
  constructor; unfold pmm_page; rewrite ?Hframes; try done; try apply A.
  - apply (add_root_ok tags t t1 t' p (kernel_pml4_phys t)); try done. apply Hregs'.
  - intros i Hi. by rewrite Hrd, decide_False, Hrd1, decide_True by (done || lia).
  - intros i Hi. by rewrite Hrd, decide_True, Hrd1, decide_False by done.
  - intros f i Hf. by rewrite Hrd, decide_False, Hrd1, decide_False by naive_solver.
  - intros f Hf Hn. rewrite Hpage by congruence. by apply (gr_data _ _ _ _ A).
Qed.

Lemma created_in_use tags t p t' f :
  created tags t p t' → in_use tags t f → in_use (<[p := (OUser p, [])]> tags) t' f.
Proof.
  intros C (Hn & Hf & Hp & Hfr). destruct (cr_frame _ _ _ _ C) as (_ & _ & Hpf & _).
  split_and!; try apply Hf.
  - rewrite lookup_insert_ne; [done|]. by intros <-.
  - unfold pmm_page. rewrite (cr_total _ _ _ _ C). apply Hp.
  - intros Hj. by apply Hfr, (cr_free _ _ _ _ C).
Qed.

Lemma created_entry tags t p t' pt i :
  created tags t p t' → user_entry (<[p := (OUser p, [])]> tags) t' pt i →
  user_entry tags t pt i ∧ rd t' pt i = rd t pt i.
Proof.
  intros C (r & ix & Hr & Hpt & Hl & Hi & Hp & Hx). apply lookup_insert_Some in Hpt as [[_ He]|[Hne Hpt]].
  { by simplify_eq. }
  rewrite (cr_same _ _ _ _ C) in * by done. split; [|done]. exists r, ix.
  rewrite <- (proj1 (proj2 (cr_regs _ _ _ _ C))). by split_and!; try apply Hi.
Qed.

Lemma iso_created tags held t p t' :
  iso tags held t → created tags t p t' → iso (<[p := (OUser p, [])]> tags) held t'.
Proof.
  intros Hi C. destruct (cr_regs _ _ _ _ C) as (Hc & Hk & _). pose proof (cr_none _ _ _ _ C) as Hnone.
  assert (Hkp : kernel_pml4_phys t ≠ p) by (pose proof (is_kroot _ _ _ Hi) as Hr; unfold is_root in Hr; congruence).
  constructor; rewrite ?Hc, ?Hk.
  - apply C.
  - rewrite (cr_total _ _ _ _ C). apply Hi.
  - apply Hi.
  - unfold is_root. rewrite lookup_insert_ne by done. apply Hi.
  - intros r i Hr Hri. rewrite (cr_same _ _ _ _ C (kernel_pml4_phys t)) by done.
    apply lookup_insert_Some in Hr as [[<- _]|[Hne Hr]].
    + rewrite (cr_upper _ _ _ _ C) by done. split; [|done]. apply (is_kernel _ _ _ Hi); [apply Hi|done].
    + rewrite (cr_same _ _ _ _ C) by done. by apply (is_kernel _ _ _ Hi).
  - intros r Hr Hne. apply lookup_insert_Some in Hr as [[<- _]|[_ Hr]]; [apply C|].
    unfold pmm_page. rewrite (cr_total _ _ _ _ C). by apply (is_roots _ _ _ Hi).
  - intros pt i Hu. destruct (created_entry _ _ _ _ _ _ C Hu) as [Hu1 ->]. destruct (is_data _ _ _ Hi pt i Hu1).
    split; [by apply created_in_use with t|done].
  - intros pt i pt' i' Hu Hu'. destruct (created_entry _ _ _ _ _ _ C Hu) as [Hu1 ->].
    destruct (created_entry _ _ _ _ _ _ C Hu') as [Hu1' ->]. by apply (is_once _ _ _ Hi).
  - intros f Hf. apply created_in_use with t; [done|]. by apply (is_held _ _ _ Hi).
  - intros f r ix i Hf Hr Hl Hin Hlow. apply lookup_insert_Some in Hf as [[<- Hf]|[Hne Hf]].
    + injection Hf as _ <-. unfold in_table in Hin. rewrite (cr_lower _ _ _ _ C) by (specialize (Hlow eq_refl); lia). done.
    + rewrite (cr_same _ _ _ _ C) by done. by apply (is_upper _ _ _ Hi f r ix).
  - intros f r ix i Hf Hr Hl Hin Hne. apply lookup_insert_Some in Hf as [[<- Hf]|[Hd Hf]]; [by simplify_eq|].
    rewrite (cr_same _ _ _ _ C) by done. by apply (is_thin _ _ _ Hi f r ix).
Qed.

(** Destroying the address space [r] leaves alone what is not its own. *)
Lemma iso_data tags held t r : iso tags held t → r ≠ kernel_pml4_phys t → data_ok tags t r.
Proof. intros Hi Hr pt ix i Ho. apply (is_data _ _ _ Hi pt i). by exists r, ix. Qed.

Lemma destroyed_in_use r fp tags held t tags' t' f :
  iso tags held t → r ≠ kernel_pml4_phys t → destroyed r fp tags t tags' t' → in_use tags t f →
  (∀ pt ix i, owned_entry tags t r pt ix i → pte_frame (rd t pt i) ≠ f) → in_use tags' t' f.
Proof.
  intros Hi Hr D (Hn & [Hf0 Hfm] & Hp & Hfr) Hno. split_and!; try done; try apply Hf0.
  - destruct (tags' !! f) as [g|] eqn:E; [|done]. apply (ds_tags _ _ _ _ _ _ D) in E as [E _]. congruence.
  - unfold pmm_page. rewrite (ds_total _ _ _ _ _ _ D). apply Hp.
  - intros [Hj|[(f' & ix & Hf' & He)|(pt & ix & i & Ho & He)]]%(ds_only _ _ _ _ _ _ D); [done|..].
    + destruct (vk_frame _ _ (is_vm _ _ _ Hi) f' _ Hf') as [[_ Hfm'] _].
      rewrite (aligned_eq f f' Hfm Hfm' He) in Hn. congruence.
    + destruct (pte_frame_eq _ (vk_word _ _ (is_vm _ _ _ Hi) pt i)) as [_ Hm].
      by apply (Hno pt ix i Ho), eq_sym, aligned_eq.
Qed.

Lemma destroyed_entry r fp tags t tags' t' pt i :
  is_root tags r → destroyed r fp tags t tags' t' → user_entry tags' t' pt i →
  user_entry tags t pt i ∧ rd t' pt i = rd t pt i ∧ ∀ ix, tags !! pt ≠ Some (OUser r, ix).
Proof.
  intros Hroot D (r' & ix & Hr & Hpt & Hl & Hi & Hp & Hx). apply (ds_tags _ _ _ _ _ _ D) in Hpt as [Hpt Hlo].
  assert (Hne : OUser r' ≠ OUser r).
  { destruct Hlo as [?|[-> _]]; [done|]. unfold is_root in Hroot. rewrite Hpt in Hroot. by simplify_eq. }
  pose proof (ds_same _ _ _ _ _ _ D pt _ i Hpt Hne) as He. rewrite He in Hp. split; [|split; [done|congruence]].
  exists r', ix. rewrite <- (proj1 (proj2 (ds_regs _ _ _ _ _ _ D))). by split_and!; try apply Hi.
Qed.

Lemma destroyed_root r fp tags t tags' t' root :
  is_root tags r → destroyed r fp tags t tags' t' → is_root tags' root →
  is_root tags root ∧ ∀ i, 256 ≤ i → rd t' root i = rd t root i.
Proof.
  intros Hr D [Hroot Hlo]%(ds_tags _ _ _ _ _ _ D). split; [done|]. intros i Hi. destruct Hlo as [Hne|[-> _]].
  - by apply (ds_same _ _ _ _ _ _ D root _ i Hroot).
  - by apply (ds_upper _ _ _ _ _ _ D).
Qed.

Lemma iso_destroyed r fp tags held t tags' t' :
  iso tags held t → is_root tags r → r ≠ kernel_pml4_phys t → destroyed r fp tags t tags' t' → iso tags' held t'.
Proof.
  intros Hi Hr Hne D. destruct (ds_regs _ _ _ _ _ _ D) as (Hc & Hk & _).
  assert (Hkr : is_root tags' (kernel_pml4_phys t)).
  { apply (ds_tags _ _ _ _ _ _ D). split; [apply Hi|]. left. simpl. congruence. }
  constructor; rewrite ?Hc, ?Hk; try done.
  - apply D.
  - rewrite (ds_total _ _ _ _ _ _ D). apply Hi.
  - apply Hi.
  - intros root i Hroot Hri. destruct (destroyed_root _ _ _ _ _ _ _ Hr D Hroot) as [Hroot1 He].
    destruct (destroyed_root _ _ _ _ _ _ _ Hr D Hkr) as [_ Hek]. rewrite He, Hek by lia. by apply (is_kernel _ _ _ Hi).
  - intros root Hroot Hn. destruct (destroyed_root _ _ _ _ _ _ _ Hr D Hroot) as [Hroot1 _].
    unfold pmm_page. rewrite (ds_total _ _ _ _ _ _ D). by apply (is_roots _ _ _ Hi).
  - intros pt i Hu. destruct (destroyed_entry _ _ _ _ _ _ _ _ Hr D Hu) as (Hu1 & -> & Hno).
    destruct (is_data _ _ _ Hi pt i Hu1) as [Hiu Hh]. split; [|done].
    apply (destroyed_in_use r fp tags held t); try done. intros pt' ix i' Ho He.
    destruct (is_once _ _ _ Hi pt' i' pt i ltac:(by exists r, ix) Hu1 He) as [-> ->]. by apply (Hno ix), Ho.
  - intros pt i pt' i' Hu Hu'. destruct (destroyed_entry _ _ _ _ _ _ _ _ Hr D Hu) as (Hu1 & -> & _).
    destruct (destroyed_entry _ _ _ _ _ _ _ _ Hr D Hu') as (Hu1' & -> & _). by apply (is_once _ _ _ Hi).
  - intros f Hf. apply (destroyed_in_use r fp tags held t); try done; [by apply (is_held _ _ _ Hi)|].
    intros pt ix i Ho He. destruct (is_data _ _ _ Hi pt i ltac:(by exists r, ix)). congruence.
  - intros f r' ix i Hf Hr' Hl Hin Hlow. apply (ds_tags _ _ _ _ _ _ D) in Hf as [Hf Hlo].
    destruct (decide (r' = r)) as [->|Hd].
    + destruct Hlo as [Hlo|[-> _]]; [by destruct Hlo|]. unfold is_root in Hr. rewrite Hr in Hf. injection Hf as <-.
      unfold in_table in Hin. by rewrite (ds_lower _ _ _ _ _ _ D) by (specialize (Hlow eq_refl); lia).
    + rewrite (ds_same _ _ _ _ _ _ D f _ i Hf) by (simpl; congruence). by apply (is_upper _ _ _ Hi f r' ix).
  - intros f r' ix i Hf Hr' Hl Hin Hnil. apply (ds_tags _ _ _ _ _ _ D) in Hf as [Hf Hlo].
    assert (Hd : OUser r' ≠ OUser r).
    { destruct Hlo as [Hlo|[-> _]]; [done|]. unfold is_root in Hr. congruence. }
    rewrite (ds_same _ _ _ _ _ _ D f _ i Hf) by done. by apply (is_thin _ _ _ Hi f r' ix).
Qed.

(** ** Taking a frame *)
Lemma pmm_take tags t :
  vm_ok tags t →
  let '(p, ph) := pmm_alloc_page (frames t) in
  (p = PHYS_NULL ∧ ph = frames t ∧ exhausted t) ∨
  (p ≠ PHYS_NULL ∧ ∀ t', frames t' = ph → same_regs t t' → (∀ f, f ≠ p → page_of t' f = page_of t f) →
     (∀ j, 0 ≤ rd t' p j < 2 ^ 64) → grown tags t tags t' ∧ fresh tags t t' p).
Proof.
  intros Hok. destruct (vk_pmm _ _ Hok) as [bm Hbm].
  destruct (alloc_frame (frames t) bm Hbm) as [[-> Hno]|(i & p' & bm' & -> & Hi & Hlim & Htot & _ & Hfree & Hwf' & Hf')];
    [by left|right].
  pose proof (zone_page_pos i ltac:(lia)). split; [unfold PHYS_NULL; lia|].
  intros t' Hfr Hregs Hpg Hw. by apply (take_frame_ok tags t i p' bm' t').
Qed.

Lemma fresh_iso tags held t t' p :
  iso tags held t → grown tags t tags t' → fresh tags t t' p → (p ∉ held) ∧ iso tags ({[p]} ∪ held) t'.
Proof.
  intros Hi A (Hn & Hf & Hfr & Hnf & Hpg). split.
  { intros Hp. by apply (is_held _ _ _ Hi) in Hp as (_ & _ & _ & ?). }
  apply iso_hold; [by eapply iso_grown|done|]. intros pt i Hu <-.
  destruct (grown_entry _ _ _ _ _ _ A Hu) as [Hu1 He]. rewrite He in Hfr.
  by destruct (is_data _ _ _ Hi pt i Hu1) as [(_ & _ & _ & ?) _].
Qed.

(** ** Pages and addresses *)
Lemma same_page va va' : va / 4096 = va' / 4096 → indices va = indices va'.
Proof.
  intros He. unfold indices, PML4_IDX, PDPT_IDX, PD_IDX, PT_IDX. rewrite !index_eq by lia.
  change (2 ^ 39) with (4096 * 2 ^ 27). change (2 ^ 30) with (4096 * 2 ^ 18). change (2 ^ 21) with (4096 * 2 ^ 9).
  change (2 ^ 12) with 4096. rewrite <- !Z.div_div by lia. by rewrite He.
Qed.

Lemma user_index va : 0 ≤ va < 2 ^ 47 → PML4_IDX va < 256.
Proof. intros Hva. unfold PML4_IDX. rewrite index_eq by lia. zdiv. Qed.

Lemma place_inj r r' va va' :
  0 ≤ va < 2 ^ 47 → 0 ≤ va' < 2 ^ 47 → place r va = place r' va' → r = r' ∧ va / 4096 = va' / 4096.
Proof.
  intros Hva Hva' Hp. rewrite !place_user in Hp by (by apply user_index). injection Hp as <- H4 H3 H2 H1.
  split; [done|]. pose proof (va_of_indices va ltac:(lia)) as E. pose proof (va_of_indices va' ltac:(lia)) as E'.
  rewrite H4, H3, H2, H1 in E. lia.
Qed.

(** The indices of an address put together from indices. *)
Lemma indices_va_of p4 p3 p2 p1 va :
  in_table p4 → in_table p3 → in_table p2 → in_table p1 →
  va_of p4 p3 p2 p1 ≤ va < va_of p4 p3 p2 p1 + 4096 → indices va = [p4; p3; p2; p1].
Proof.
  intros H4 H3 H2 H1. rewrite va_of_sum by done. unfold in_table in *. intros Hva.
  unfold indices, PML4_IDX, PDPT_IDX, PD_IDX, PT_IDX. rewrite !index_eq by lia. repeat f_equal; zdiv.
Qed.

(** The page table entry of a user page. *)
Lemma translate_user tags held t root va e :
  iso tags held t → is_root tags root → root ≠ kernel_pml4_phys t → 0 ≤ va < 2 ^ 47 →
  kz_shm_va_excluded va = false → translate t root va = Some e →
  ∃ pt, tags !! pt = Some (OUser root, [PML4_IDX va; PDPT_IDX va; PD_IDX va]) ∧
    user_entry tags t pt (PT_IDX va) ∧ rd t pt (PT_IDX va) = e.
Proof.
  intros Hi Hr Hne Hva Hs. rewrite translate_walk. destruct (walk_pt root va t) as [pt|] eqn:Hw; [|done]. cbv zeta.
  destruct (present (rd t pt (PT_IDX va))) eqn:Hp; [|done]. intros He. injection He as <-. exists pt.
  by destruct (user_page tags held t root va pt Hi Hr Hw Hne Hva Hs Hp).
Qed.

(** The kernel half is the same in every address space. *)
Lemma kernel_half_ok tags held t r1 r2 va :
  iso tags held t → is_root tags r1 → is_root tags r2 → 256 ≤ PML4_IDX va → translate t r1 va = translate t r2 va.
Proof.
  intros Hi H1 H2 Hva. pose proof (index_range (Z.shiftr va 39)) as Hr. fold (PML4_IDX va) in Hr. unfold in_table in Hr.
  unfold translate, indices. cbn [trans].
  destruct (is_kernel _ _ _ Hi r1 (PML4_IDX va) H1 ltac:(lia)) as [_ ->].
  by destruct (is_kernel _ _ _ Hi r2 (PML4_IDX va) H2 ltac:(lia)) as [_ ->].
Qed.

Lemma created_trans tags t p t' root va :
  vm_ok tags t → created tags t p t' → is_root tags root → translate t' root va = translate t root va.
Proof.
  intros Hok C Hr. apply (trans_same tags); [done..|]. intros f g j Hf. apply (cr_same _ _ _ _ C).
  pose proof (cr_none _ _ _ _ C). congruence.
Qed.

Lemma created_lower tags t p t' va :
  created tags t p t' → PML4_IDX va < 256 → translate t' p va = None.
Proof.
  intros C Hva. pose proof (index_range (Z.shiftr va 39)) as Hr. fold (PML4_IDX va) in Hr. unfold in_table in Hr.
  unfold translate, indices. cbn [trans]. by rewrite (cr_lower _ _ _ _ C) by lia.
Qed.

(** An entry of the user half of a root is no huge page. *)
Lemma user_top tags t r p :
  vm_ok tags t → is_root tags r → 0 ≤ p < 256 → present (rd t r p) = true →
  huge (rd t r p) = false ∧ tags !! next_table (rd t r p) = Some (OUser r, [p]).
Proof.
  intros Hok Hr Hp Hpr. assert (Hin : in_table p) by (unfold in_table; lia).
  pose proof (vk_link _ _ Hok r _ p Hr ltac:(simpl; lia) Hin Hpr ltac:(by left)) as Hk.
  rewrite kid_lower in Hk by (intros; lia). destruct (vk_linked _ _ Hok _ r [] p Hk) as (f2 & Hf2 & _ & _ & Hh2 & _).
  by rewrite (vk_inj _ _ Hok f2 r r [] Hf2 Hr) in Hh2.
Qed.
