(* ===== verification/PagingClone.v ===== *)
(** Forking an address space ([vmm_clone_user_as] of [kernel/mm/paging.c], defined in
    [Paging]): the child has a copy of its own of every user page of the parent, the parent
    and every other address space are as before, and a failure leaves no child behind.

    The walk visits the pages in the order of their addresses: the invariant of its loops
    says that the pages below the current address are copied and the rest of the child is
    empty. *)

From S2P Require Import Prelude Bitmap Pmm Paging PagingSpec PagingDestroy PagingIso.

Lemma pte_flags_ok e : 0 ≤ e < 2 ^ 64 → flags_ok (pte_flags e).
Proof.
  intros He. unfold flags_ok. split.
  - unfold pte_flags. change (u64 (Z.lnot PAGE_MASK)) with (Z.ones 12). rewrite Z.land_ones by lia.
    change PAGING_NX with (Z.shiftl 1 63).
    assert (Hb : Z.land e (Z.shiftl 1 63) = 0 ∨ Z.land e (Z.shiftl 1 63) = 2 ^ 63).
    { destruct (Z.testbit e 63) eqn:E; [right|left]; apply Z.bits_inj'; intros n Hn; rewrite Z.land_spec.
      - change (Z.shiftl 1 63) with (2 ^ 63). rewrite Z.pow2_bits_eqb by lia.
        destruct (Z.eqb_spec 63 n) as [<-|]; [by rewrite E|by rewrite andb_false_r].
      - change (Z.shiftl 1 63) with (2 ^ 63). rewrite Z.pow2_bits_eqb, Z.bits_0 by lia.
        destruct (Z.eqb_spec 63 n) as [<-|]; [by rewrite E|by rewrite andb_false_r]. }
    assert (Hm : 0 ≤ e mod 2 ^ 12 < 4096) by (apply Z.mod_pos_bound; lia).
    destruct Hb as [-> | ->]; [rewrite Z.lor_0_r; lia|]. rewrite Z.lor_comm, (lor_low (2 ^ 63) _ 12) by (done || lia). lia.
  - unfold pte_flags. rewrite pte_frame_lor. unfold pte_frame.
    rewrite <- !Z.land_assoc. change (Z.land (u64 (Z.lnot PAGE_MASK)) _) with 0.
    change (Z.land PAGING_NX _) with 0. by rewrite !Z.land_0_r.
Qed.

Lemma translate_word tags t root va e : vm_ok tags t → translate t root va = Some e → 0 ≤ e < 2 ^ 64.
Proof.
  intros Hok. rewrite translate_walk. destruct (walk_pt root va t); [|done]. cbv zeta.
  destruct (present _); [|done]. intros He. injection He as <-. apply (vk_word _ _ Hok).
Qed.

Lemma translate_present t root va e : translate t root va = Some e → present e = true.
Proof.
  rewrite translate_walk. destruct (walk_pt root va t) as [pt|]; [|done]. cbv zeta.
  destruct (present (rd t pt (PT_IDX va))) eqn:Hp; [|done]. congruence.
Qed.

(** ** The fork *)
Section Fork.
Context (tags1 : gmap Z tag) (held : gset Z) (t1 : vmm) (parent child : Z).

(** The state after a part of the fork, from the state [t1] in which the child is empty:
    what the child does not own is as before. *)
Record forked (tags : gmap Z tag) t : Prop := {
  fk_iso : iso tags held t;
  fk_ext : extends tags1 tags;
  fk_same : ∀ f g j, tags1 !! f = Some g → g.1 ≠ OUser child → rd t f j = rd t1 f j;
  fk_use : ∀ f, in_use tags1 t1 f → in_use tags t f ∧ page_of t f = page_of t1 f;
  fk_free : ∀ j, is_free (frames t) j → is_free (frames t1) j;
  fk_regs : same_regs t1 t
}.

(** The page at [va] of the child: a frame of its own with the contents and the flags of
    the parent's page; nothing where the parent has nothing or the page is shared memory. *)
Definition page_copied t (va : Z) : Prop :=
  match (if kz_shm_va_excluded va then None else translate t1 parent va) with
  | None => translate t child va = None
  | Some e => ∃ f, translate t child va = Some (new_entry f (pte_flags e)) ∧ frame_ok f ∧ f < 2 ^ 52 ∧
      is_free (frames t1) (f / PAGE_SIZE) ∧ page_of t f = page_of t1 (pte_frame e)
  end.

Definition cloning (cur : Z) t : Prop :=
  ∃ tags, forked tags t ∧
    (∀ va, 0 ≤ va < 2 ^ 47 → va < cur → page_copied t va) ∧
    (∀ va, 0 ≤ va < 2 ^ 47 → cur ≤ va → translate t child va = None).

Context (Hi1 : iso tags1 held t1) (Hpar : is_root tags1 parent) (Hchi : is_root tags1 child)
  (Hpc : child ≠ parent) (Hpk : parent ≠ kernel_pml4_phys t1) (Hck : child ≠ kernel_pml4_phys t1).

(** Nothing to copy up to [b]. *)
Lemma cloning_skip a b t :
  cloning a t → a ≤ b →
  (∀ va, 0 ≤ va < 2 ^ 47 → a ≤ va < b → kz_shm_va_excluded va = true ∨ translate t1 parent va = None) →
  cloning b t.
Proof.
  intros (tags & Hf & Hd & Ht) Hab Hn. exists tags. split; [done|]. split.
  - intros va Hva Hb. destruct (Z.lt_ge_cases va a) as [Hlt|Hge]; [by apply Hd|]. unfold page_copied.
    destruct (Hn va Hva ltac:(lia)) as [-> | ->]; [by apply Ht|]. destruct (kz_shm_va_excluded va); by apply Ht.
  - intros va Hva Hb. apply Ht; lia.
Qed.

(** A page with fresh frame [f], taken and mapped: the state of the walk moves on. *)
Lemma copied_keep tags t tags' t' va :
  forked tags t → 0 ≤ va < 2 ^ 47 → page_copied t va → translate t' child va = translate t child va →
  (∀ f, in_use tags t f → in_use tags' t' f ∧ page_of t' f = page_of t f) → page_copied t' va.
Proof.
  intros Hf Hva Hc He Huse. unfold page_copied in *. rewrite He.
  destruct (kz_shm_va_excluded va) eqn:Hs; [done|]. destruct (translate t1 parent va) as [e|] eqn:Hp; [|done].
  destruct Hc as (f & Htr & Hfo & Hlt & Hfr & Hpg). exists f. split_and!; try done; [apply Hfo..|].
  rewrite <- Hpg. apply Huse.
  pose proof (fk_iso _ _ Hf) as Hi. pose proof (extends_lookup _ _ _ _ (fk_ext _ _ Hf) Hchi) as Hr.
  destruct (translate_user tags held t child va (new_entry f (pte_flags e)) Hi Hr) as (pt & _ & Hu & Hrd); try done.
  { by rewrite (proj1 (proj2 (fk_regs _ _ Hf))). }
  destruct (is_data _ _ _ Hi pt _ Hu) as [Hin _]. rewrite Hrd, new_entry_frame in Hin; [done|destruct Hfo; lia|apply Hfo|].
  apply pte_flags_ok. by apply (translate_word tags1 t1 parent va e (is_vm _ _ _ Hi1)).
Qed.

(** ** One page *)
(** Growth and one page mapped in the child: [t] becomes [t2] with the frame [f] taken and
    filled, [t3] with the tables, [t4] with the entry. *)
Lemma map_copied tags t t2 tags3 t3 va f flags pt :
  forked tags t → grown tags t tags t2 → fresh tags t t2 f → (∀ f', f' ≠ f → page_of t2 f' = page_of t f') →
  grown tags t2 tags3 t3 →
  same_outside child va tags t2 t3 → 0 ≤ va < 2 ^ 47 → walk_pt child va t3 = Some pt →
  0 ≤ new_entry f flags < 2 ^ 64 → present (new_entry f flags) = true →
  iso tags3 held (wr pt (PT_IDX va) (new_entry f flags) t3) →
  forked tags3 (wr pt (PT_IDX va) (new_entry f flags) t3) ∧
  (∀ f', in_use tags t f' → in_use tags3 (wr pt (PT_IDX va) (new_entry f flags) t3) f' ∧
     page_of (wr pt (PT_IDX va) (new_entry f flags) t3) f' = page_of t f') ∧
  page_of (wr pt (PT_IDX va) (new_entry f flags) t3) f = page_of t2 f ∧
  page_set tags t (wr pt (PT_IDX va) (new_entry f flags) t3) child va (Some (new_entry f flags)).
Proof.
  intros F A2 Hfr Hpg2 A3 S3 Hva Hw Hv Hp Hi. set (v := new_entry f flags) in *.
  pose proof (grown_trans _ _ _ _ _ _ A2 A3) as A. pose proof (gr_ext _ _ _ _ A) as Hx.
  assert (Hr : is_root tags child) by (by apply (extends_lookup tags1); [apply F|]).
  assert (Hr3 : is_root tags3 child) by (by apply (extends_lookup tags)).
  destruct (walk_pt_tag tags3 t3 child va pt (gr_ok _ _ _ _ A) Hr3 Hw) as (g & Hg & Hl & Hpl).
  rewrite place_user in Hpl by (by apply user_index).
  assert (Hown : g.1 = OUser child).
  { symmetry in Hpl. apply (kid_user g _ child [PML4_IDX va; PDPT_IDX va; PD_IDX va] (PT_IDX va)) in Hpl as [-> _]. done. }
  assert (Huse : ∀ f', in_use tags t f' → in_use tags3 t3 f' ∧ page_of (wr pt (PT_IDX va) v t3) f' = page_of t f').
  { intros f' Hu. pose proof (grown_in_use _ _ _ _ _ A Hu) as Hu3. split; [done|].
    rewrite page_wr by (intros ->; destruct Hu3; congruence). apply (gr_data _ _ _ _ A); apply Hu. }
  split_and!.
  - constructor.
    + done.
    + destruct (fk_ext _ _ F) as [E1 R1]. destruct Hx as [E2 R2]. split; [by etrans|auto].
    + intros f' g' j Hf' Hg'. pose proof (extends_lookup _ _ _ _ (fk_ext _ _ F) Hf') as Hf2.
      rewrite rd_wr, decide_False.
      2: { intros [-> _]. pose proof (extends_lookup _ _ _ _ Hx Hf2). congruence. }
      rewrite (S3 f' g' j Hf2 Hg') by (rewrite place_user by (by apply user_index); done).
      rewrite <- (fk_same _ _ F f' g' j Hf' Hg'). unfold rd. rewrite Hpg2; [done|]. destruct Hfr as (Hn & _). congruence.
    + intros f' Hu. destruct (fk_use _ _ F f' Hu) as [Hu1 <-]. by apply Huse.
    + intros j Hj. by apply (fk_free _ _ F), (gr_free _ _ _ _ A).
    + eapply same_regs_trans; [apply F|apply A].
  - done.
  - destruct Hfr as (Hn & Hfo & _ & Hnf & Hpg). assert (Hu2 : in_use tags t2 f) by (by split_and!).
    pose proof (grown_in_use _ _ _ _ _ A3 Hu2) as Hu3. rewrite page_wr by (intros ->; destruct Hu3; congruence).
    by apply (gr_data _ _ _ _ A3).
  - destruct (set_leaf tags3 t3 child va pt v (gr_ok _ _ _ _ A) Hr3 Hw Hv) as (_ & Htr & Hot). split.
    + by rewrite Htr, Hp.
    + intros root' va' Hr' Hne. rewrite Hot; [by apply (gr_trans _ _ _ _ A)|by apply (extends_lookup tags)|done].
Qed.

(** No page table could be had for the frame [f], which goes back. *)
Lemma forked_release tags t t2 tags3 t3 va f :
  forked tags t → grown tags t tags t2 → fresh tags t t2 f → (∀ f', f' ≠ f → page_of t2 f' = page_of t f') →
  grown tags t2 tags3 t3 → same_outside child va tags t2 t3 → 0 ≤ va < 2 ^ 47 →
  iso tags3 held (free_frame f t3) → forked tags3 (free_frame f t3).
Proof.
  intros F A2 Hfr Hpg2 A3 S3 Hva Hi. pose proof (grown_trans _ _ _ _ _ _ A2 A3) as A.
  destruct Hfr as (Hn & [Hf0 Hfm] & Hff & _). destruct (vk_pmm _ _ (gr_ok _ _ _ _ A3)) as [bm Hbm].
  destruct (free_frame_spec (frames t3) bm f Hbm ltac:(lia)) as (_ & Htot & _ & Hnew & _).
  constructor.
  - done.
  - destruct (fk_ext _ _ F) as [E1 R1], (gr_ext _ _ _ _ A) as [E2 R2]. split; [by etrans|auto].
  - intros f' g' j Hf' Hg'. pose proof (extends_lookup _ _ _ _ (fk_ext _ _ F) Hf') as Hf2.
    change (rd (free_frame f t3) f' j) with (rd t3 f' j).
    rewrite (S3 f' g' j Hf2 Hg') by (rewrite place_user by (by apply user_index); done).
    rewrite <- (fk_same _ _ F f' g' j Hf' Hg'). unfold rd. rewrite Hpg2; [done|]. congruence.
  - intros f' Hu. destruct (fk_use _ _ F f' Hu) as [Hu1 <-]. pose proof (grown_in_use _ _ _ _ _ A Hu1) as Hu3.
    split; [|apply (gr_data _ _ _ _ A); apply Hu1]. destruct Hu3 as (H1 & H2 & H3 & H4). split_and!; try done.
    + unfold pmm_page, free_frame. cbn [frames set_frames]. by rewrite Htot.
    + intros [?|He]%Hnew; [done|]. destruct Hu1 as (_ & _ & _ & Hu1). by rewrite He in Hu1.
  - intros j [Hj| ->]%Hnew; [|by apply (fk_free _ _ F)]. by apply (fk_free _ _ F), (gr_free _ _ _ _ A).
  - eapply same_regs_trans; [apply F|apply A].
Qed.

(** The part of [clone_page] that copies. *)
Definition copy_page (vaddr e1 : Z) t : vmm + vmm :=
  let '(dst, ph) := pmm_alloc_page (frames t) in
  let t := set_frames ph t in
  if dst =? PHYS_NULL then inl t else
  let t := set_mem (<[dst := page_of t (pte_frame e1)]> (mem t)) t in
  let '(ok, t) := vmm_map_page_into vaddr dst (pte_flags e1) child t in
  if ok =? 0 then inl (free_frame dst t) else inr t.

Lemma cloning_next tags t tags' t' a f e :
  forked tags t → (∀ va, 0 ≤ va < 2 ^ 47 → va < a → page_copied t va) →
  (∀ va, 0 ≤ va < 2 ^ 47 → a ≤ va → translate t child va = None) →
  0 ≤ a < 2 ^ 47 → a mod 4096 = 0 → kz_shm_va_excluded a = false → translate t1 parent a = Some e →
  forked tags' t' → (∀ f', in_use tags t f' → in_use tags' t' f' ∧ page_of t' f' = page_of t f') →
  frame_ok f → f < 2 ^ 52 → is_free (frames t1) (f / PAGE_SIZE) → page_of t' f = page_of t1 (pte_frame e) →
  page_set tags t t' child a (Some (new_entry f (pte_flags e))) → cloning (a + 4096) t'.
Proof.
  intros F Hd Ht Ha Ham Hs He F' Huse Hfo Hlt Hfr Hpg [Hset Hother].
  assert (Hr : is_root tags child) by (by apply (extends_lookup tags1); [apply F|]).
  assert (Hne : ∀ va, 0 ≤ va < 2 ^ 47 → va / 4096 ≠ a / 4096 → translate t' child va = translate t child va).
  { intros va Hva Hd'. apply Hother; [done|]. intros Hp. by apply place_inj in Hp as [_ ?]. }
  exists tags'. split; [done|]. split.
  - intros va Hva Hlt'. destruct (Z.lt_ge_cases va a) as [Hva'|Hge].
    + apply (copied_keep tags t tags'); try done; [by apply Hd|]. apply Hne; [done|]. zdiv.
    + assert (Hpa : va / 4096 = a / 4096) by zdiv. unfold page_copied, translate.
      rewrite (same_page va a Hpa), <- shm_page, Hpa, shm_page, Hs. unfold translate in *. rewrite He. exists f.
      by split_and!; try apply Hfo.
  - intros va Hva Hge. rewrite Hne; [apply Ht; lia|done|]. zdiv.
Qed.

Lemma copy_page_ok a e t :
  0 ≤ a < 2 ^ 47 → a mod 4096 = 0 → kz_shm_va_excluded a = false → translate t1 parent a = Some e →
  cloning a t →
  match copy_page a e t with inl t' => ∃ tags', forked tags' t' | inr t' => cloning (a + 4096) t' end.
Proof.
  intros Ha Ham Hs He (tags & F & Hd & Ht). pose proof (fk_iso _ _ F) as Hi. unfold copy_page.
  pose proof (pmm_take tags t (is_vm _ _ _ Hi)) as Htake. destruct (pmm_alloc_page (frames t)) as [dst ph].
  destruct Htake as [(-> & -> & _)|(Hnn & Htake)].
  { rewrite Z.eqb_refl. exists tags. by destruct t. }
  destruct (Z.eqb_spec dst PHYS_NULL) as [|_]; [done|]. cbv zeta.
  set (t2 := set_mem _ _).
  assert (Hpg2 : ∀ f, page_of t2 f = if decide (f = dst) then page_of t (pte_frame e) else page_of t f).
  { intros f. unfold t2, page_of. cbn [mem set_mem set_frames]. case_decide as Hf.
    - subst. by rewrite lookup_insert_eq.
    - by rewrite lookup_insert_ne by done. }
  assert (Hpgo : ∀ f, f ≠ dst → page_of t2 f = page_of t f) by (intros f Hf; by rewrite Hpg2, decide_False).
  destruct (Htake t2) as [A2 Hfr]; [done|done|done| |].
  { intros j. unfold rd. rewrite Hpg2, decide_True by done. apply (vk_word _ _ (is_vm _ _ _ Hi) (pte_frame e) j). }
  destruct (fresh_iso tags held t t2 dst Hi A2 Hfr) as [Hnh Hi2]. pose proof (gr_ok _ _ _ _ A2) as Hok2.
  assert (Hr : is_root tags child) by (by apply (extends_lookup tags1); [apply F|]).
  pose proof (translate_word _ _ _ _ _ (is_vm _ _ _ Hi1) He) as Hew. pose proof (pte_flags_ok e Hew) as Hfl.
  unfold vmm_map_page_into. destruct (vk_frame _ _ Hok2 child _ Hr) as [[Hc0 _] _].
  destruct (Z.eqb_spec child PHYS_NULL) as [->|_]; [unfold PHYS_NULL in Hc0; lia|].
  clearbody t2. pose proof (map_held tags _ t2 child a dst (pte_flags e) Hi2 Hr ltac:(set_solver) Hfl) as Hm.
  assert (Hset : ({[dst]} ∪ held) ∖ {[dst]} = held) by set_solver.
  pose proof Hfr as (Hn & Hfo & Hff & Hnf & Hpp). assert (Hu2 : in_use tags t2 dst) by (by split_and!).
  pose proof (in_use_small _ _ _ _ Hi2 Hu2) as Hsm.
  destruct (map_at child a dst (pte_flags e) t2) as [res t3].
  destruct Hm as [(-> & tags3 & A3 & S3 & Hi3)|(-> & tags3 & t4 & pt & A3 & S3 & Hw & -> & Hi3)]; cbn [Z.eqb].
  { exists tags3. apply (forked_release tags t t2 tags3 t3 a dst); try done.
    pose proof (iso_release _ _ _ dst Hi3 ltac:(set_solver)) as Hrel. by rewrite Hset in Hrel. }
  rewrite Hset in Hi3.
  assert (Hpres : present (new_entry dst (pte_flags e)) = true).
  { apply new_entry_present. unfold present, pte_flags. apply (translate_present t1 parent a) in He.
    unfold present in He. rewrite Z.lor_spec, !Z.land_spec, He. done. }
  destruct (map_copied tags t t2 tags3 t4 a dst (pte_flags e) pt) as (F3 & Huse & Hpd & Hps); try done.
  { apply new_entry_u64; [lia|apply Hfl]. }
  apply (cloning_next tags t tags3 _ a dst e); try done; try lia; [by apply (fk_free _ _ F)|].
  rewrite Hpd, Hpg2, decide_True by done. apply (fk_use _ _ F).
  destruct (translate_user tags1 held t1 parent a e Hi1 Hpar Hpk Ha Hs He) as (ppt & _ & Hu & <-).
  by apply (is_data _ _ _ Hi1).
Qed.

(** ** The loops *)

(** The table [f] of the parent is where the walk arrives along [ix]. *)
Definition table_at (f : Z) (ix : list Z) : Prop :=
  tags1 !! f = Some (OUser parent, ix) ∧
  ∀ va rest, indices va = ix ++ rest → translate t1 parent va = trans t1 f (bool_decide (ix = [])) rest.

Lemma table_root : table_at parent [].
Proof. split; [done|]. intros va rest Hva. unfold translate. rewrite Hva. done. Qed.

Lemma table_step f ix p :
  table_at f ix → (length ix < 3)%nat → in_table p → (ix = [] → p < 256) →
  present (rd t1 f p) = true → huge (rd t1 f p) = false → table_at (next_table (rd t1 f p)) (ix ++ [p]).
Proof.
  intros [Hf Hw] Hl Hp Hlow Hpr Hh. pose proof (is_vm _ _ _ Hi1) as Hok. split.
  - pose proof (vk_link _ _ Hok f _ p Hf ltac:(simpl; lia) Hp Hpr ltac:(by right)) as Hk. by rewrite kid_lower in Hk.
  - intros va rest Hva. rewrite <- app_assoc in Hva. rewrite (Hw va _ Hva). cbn [app trans].
    rewrite (bool_decide_eq_false_2 (ix ++ [p] = [])) by (by destruct ix). rewrite Hpr, Hh. cbn [andb negb]. rewrite orb_true_r.
    destruct rest; [|done]. apply (f_equal length) in Hva. rewrite length_app in Hva. simpl in Hva. lia.
Qed.

Lemma table_stop f ix p va rest :
  table_at f ix → (length ix < 3)%nat → in_table p → (ix = [] → p < 256) →
  negb (present (rd t1 f p)) || huge (rd t1 f p) = true → indices va = ix ++ p :: rest →
  translate t1 parent va = None.
Proof.
  intros [Hf Hw] Hl Hp Hlow Hstop Hva. rewrite (Hw va _ Hva). cbn [trans].
  destruct rest; [apply (f_equal length) in Hva; rewrite length_app in Hva; simpl in Hva; lia|].
  destruct (present (rd t1 f p)) eqn:Hpr; [|done]. cbn [negb orb] in Hstop. rewrite Hstop. cbn [negb andb].
  rewrite orb_false_r. destruct ix as [|i ix]; [|done]. exfalso. pose proof (is_vm _ _ _ Hi1) as Hok.
  pose proof (vk_root _ _ Hok f _ Hf) as He. injection He as ->. unfold in_table in Hp. specialize (Hlow eq_refl).
  destruct (user_top tags1 t1 f p Hok Hf ltac:(lia) Hpr) as [Hh _]. congruence.
Qed.

Lemma forked_table tags t f ix p : forked tags t → table_at f ix → rd t f p = rd t1 f p.
Proof. intros F [Hf _]. apply (fk_same _ _ F f _ p Hf). simpl. congruence. Qed.

Lemma clone_below_ok f ix p a sub body t :
  table_at f ix → (length ix < 3)%nat → in_table p → (ix = [] → p < 256) → 0 ≤ sub →
  (∀ va, a ≤ va < a + 512 * sub → ∃ rest, indices va = ix ++ p :: rest) →
  (∀ c q s, table_at c (ix ++ [p]) → 0 ≤ q < 512 → cloning (a + q * sub) s →
     match body c q s with inl s' => ∃ tags, forked tags s' | inr s' => cloning (a + (q + 1) * sub) s' end) →
  cloning a t →
  match clone_below f p body t with inl s => ∃ tags, forked tags s | inr s => cloning (a + 512 * sub) s end.
Proof.
  intros Hf Hl Hp Hlow Hsub Hreg Hbody Hc. unfold clone_below.
  assert (He : rd t f p = rd t1 f p) by (destruct Hc as (tags & F & _); by apply (forked_table tags _ _ ix)).
  rewrite He. destruct (negb (present (rd t1 f p)) || huge (rd t1 f p)) eqn:Hstop.
  { apply (cloning_skip a); [done|nia|]. intros va _ Hva. destruct (Hreg va Hva) as [rest Hrest]. right.
    by apply (table_stop f ix p va rest). }
  apply orb_false_iff in Hstop as [Hpr%negb_false_iff Hh].
  pose proof (table_step f ix p Hf Hl Hp Hlow Hpr Hh) as Hcc.
  pose proof (for_range_rule (λ q s, cloning (a + q * sub) s) (λ s, ∃ tags, forked tags s) 0 512
    (body (next_table (rd t1 f p))) t) as Hr.
  destruct (for_range 0 512 _ t); apply Hr; try (by rewrite Z.mul_0_l, Z.add_0_r); intros q s Hq Hs; by apply Hbody.
Qed.

Lemma clone_page_ok p4 p3 p2 ppt p1 a t :
  0 ≤ p4 < 256 → in_table p3 → in_table p2 → in_table p1 → a = va_of p4 p3 p2 p1 →
  table_at ppt [p4; p3; p2] → cloning a t →
  match clone_page child ppt p4 p3 p2 p1 t with
  | inl s => ∃ tags, forked tags s
  | inr s => cloning (a + 4096) s
  end.
Proof.
  intros H4 H3 H2 H1 -> Hp Hc. unfold clone_page.
  assert (H4' : in_table p4) by (unfold in_table; lia).
  assert (He : rd t ppt p1 = rd t1 ppt p1) by (destruct Hc as (tags & F & _); by apply (forked_table tags _ _ [p4; p3; p2])).
  rewrite He. assert (Hreg : ∀ va, va_of p4 p3 p2 p1 ≤ va < va_of p4 p3 p2 p1 + 4096 →
    translate t1 parent va = if present (rd t1 ppt p1) then Some (rd t1 ppt p1) else None).
  { intros va Hva. destruct Hp as [_ Hw]. by rewrite (Hw va [p1] (indices_va_of p4 p3 p2 p1 va H4' H3 H2 H1 Hva)). }
  pose proof (va_of_sum p4 p3 p2 p1 H4' H3 H2 H1) as Hsum. unfold in_table in *.
  assert (Ham : va_of p4 p3 p2 p1 mod 4096 = 0) by (rewrite Hsum; zdiv).
  set (a := va_of p4 p3 p2 p1) in *. clearbody a.
  destruct (present (rd t1 ppt p1)) eqn:Hpr; cbn [negb].
  2: { apply (cloning_skip a); [done|lia|]. intros va _ Hva. right. by apply Hreg. }
  destruct (kz_shm_va_excluded a) eqn:Hs.
  { apply (cloning_skip a); [done|lia|]. intros va _ Hva. left. rewrite <- shm_page.
    replace (va / 4096 * 4096) with a by zdiv. done. }
  apply (copy_page_ok a (rd t1 ppt p1)); try done; [lia|]. apply Hreg. lia.
Qed.

(** The whole walk. *)
Lemma clone_loop_ok t :
  cloning 0 t →
  match for_range 0 256 (λ p4, clone_below parent p4 (λ ppdpt p3,
          clone_below ppdpt p3 (λ ppd p2,
          clone_below ppd p2 (λ ppt p1, clone_page child ppt p4 p3 p2 p1)))) t with
  | inl s => ∃ tags, forked tags s
  | inr s => cloning (2 ^ 47) s
  end.
Proof.
  intros Hc. apply (for_range_rule (λ p4 s, cloning (p4 * 2 ^ 39) s) (λ s, ∃ tags, forked tags s)) with (lo := 0) (hi := 256);
    [done|].
  intros p4 s H4 Hs. replace ((p4 + 1) * 2 ^ 39) with (p4 * 2 ^ 39 + 512 * 2 ^ 30) by lia.
  apply (clone_below_ok parent [] p4 (p4 * 2 ^ 39) (2 ^ 30)); try done; try (unfold in_table; simpl; lia); [apply table_root| |].
  { intros va Hva. eexists. unfold indices, PML4_IDX at 1. rewrite index_eq by lia.
    replace (va / 2 ^ 39 mod 512) with p4 by zdiv. done. }
  clear s Hs. intros ppdpt p3 s Hpdpt H3 Hs. set (a3 := p4 * 2 ^ 39 + p3 * 2 ^ 30) in *.
  replace (p4 * 2 ^ 39 + (p3 + 1) * 2 ^ 30) with (a3 + 512 * 2 ^ 21) by (unfold a3; lia).
  apply (clone_below_ok ppdpt [p4] p3 a3 (2 ^ 21)); try done; try (simpl; lia).
  { intros va Hva. unfold a3 in Hva. eexists. unfold indices, PML4_IDX at 1, PDPT_IDX at 1. rewrite !index_eq by lia.
    replace (va / 2 ^ 39 mod 512) with p4 by zdiv. replace (va / 2 ^ 30 mod 512) with p3 by zdiv. done. }
  clear s Hs Hpdpt ppdpt. intros ppd p2 s Hpd H2 Hs. set (a2 := a3 + p2 * 2 ^ 21) in *.
  replace (a3 + (p2 + 1) * 2 ^ 21) with (a2 + 512 * 2 ^ 12) by (unfold a2; lia).
  apply (clone_below_ok ppd [p4; p3] p2 a2 (2 ^ 12)); try done; try (simpl; lia).
  { intros va Hva. unfold a2, a3 in Hva. eexists. unfold indices, PML4_IDX at 1, PDPT_IDX at 1, PD_IDX at 1.
    rewrite !index_eq by lia. replace (va / 2 ^ 39 mod 512) with p4 by zdiv.
    replace (va / 2 ^ 30 mod 512) with p3 by zdiv. replace (va / 2 ^ 21 mod 512) with p2 by zdiv. done. }
  clear s Hs Hpd ppd. intros ppt p1 s Hpt H1 Hs. replace (a2 + (p1 + 1) * 2 ^ 12) with (a2 + p1 * 2 ^ 12 + 4096) by lia.
  apply clone_page_ok; try done. unfold a2, a3. rewrite va_of_sum by (unfold in_table; lia). lia.
Qed.
End Fork.

(** ** The whole operation *)

(** Other address spaces than the child translate as before. *)
Lemma forked_trans tags1 held t1 child tags t root va :
  vm_ok tags1 t1 → forked tags1 held t1 child tags t → is_root tags1 root → root ≠ child →
  translate t root va = translate t1 root va.
Proof.
  intros Hok F Hr Hne. apply (trans_same_on (λ o, o ≠ OUser child) tags1 t1 t Hok ltac:(done)
    ltac:(intros f g j; apply (fk_same _ _ _ _ _ _ F)) (indices va) root _ Hr eq_refl (indices_range va)).
  simpl. congruence.
Qed.

Lemma cloning_start tags held t child t1 parent :
  iso tags held t → created tags t child t1 →
  cloning (<[child := (OUser child, [])]> tags) held t1 parent child 0 t1.
Proof.
  intros Hi C. exists (<[child := (OUser child, [])]> tags). split; [|split].
  - constructor; try done. by eapply iso_created.
  - intros. lia.
  - intros va Hva _. apply (created_lower tags t child t1); [done|by apply user_index].
Qed.

(** A copy made from the state with the new child is one made from the state before. *)
Lemma copied_before tags held t child t1 parent t' va :
  iso tags held t → created tags t child t1 → is_root tags parent → parent ≠ kernel_pml4_phys t → 0 ≤ va < 2 ^ 47 →
  page_copied t1 parent child t' va → page_copied t parent child t' va.
Proof.
  intros Hi C Hp Hpk Hva. unfold page_copied. rewrite (created_trans tags t child t1 parent va (is_vm _ _ _ Hi) C Hp).
  destruct (kz_shm_va_excluded va) eqn:Hs; [done|]. destruct (translate t parent va) as [e|] eqn:He; [|done].
  intros (f & Htr & Hfo & Hlt & Hfr & Hpg). exists f. split_and!; try done; try apply Hfo.
  - by apply (cr_free _ _ _ _ C).
  - rewrite Hpg. destruct (translate_user tags held t parent va e Hi Hp Hpk Hva Hs He) as (pt & _ & Hu & <-).
    destruct (is_data _ _ _ Hi pt _ Hu) as [(Hn & _ & _ & Hnf) _]. by apply (cr_data _ _ _ _ C).
Qed.

Lemma created_roots tags t child t1 r :
  created tags t child t1 → is_root (<[child := (OUser child, [])]> tags) r ↔ r = child ∨ is_root tags r.
Proof.
  intros C. unfold is_root. rewrite lookup_insert_Some. split; [intros [[-> _]|[_ ?]]; auto|].
  intros [->|Hr]; [by left|]. right. split; [|done]. intros <-. rewrite (cr_none _ _ _ _ C) in Hr. done.
Qed.

(** What a fork leaves alone: translations of existing address spaces and pages in use. *)
Definition undisturbed (tags : gmap Z tag) t t' : Prop :=
  same_trans tags t t' ∧ (∀ f, in_use tags t f → page_of t' f = page_of t f) ∧ same_regs t t'.

Lemma forked_undisturbed tags held t child t1 tags' t' :
  iso tags held t → created tags t child t1 →
  forked (<[child := (OUser child, [])]> tags) held t1 child tags' t' → undisturbed tags t t'.
Proof.
  intros Hi C F. pose proof (iso_created _ _ _ _ _ Hi C) as Hi1. pose proof (cr_none _ _ _ _ C) as Hnone. split_and!.
  - intros root va Hr. assert (Hne : root ≠ child) by (unfold is_root in Hr; congruence).
    rewrite (forked_trans _ held t1 child tags' t' root va (is_vm _ _ _ Hi1) F); [|apply (created_roots tags t child t1); auto|done].
    by apply (created_trans tags t child t1 root va (is_vm _ _ _ Hi) C).
  - intros f Hu. destruct (fk_use _ _ _ _ _ _ F f) as [_ ->]; [by apply created_in_use with t|].
    apply (cr_data _ _ _ _ C); apply Hu.
  - eapply same_regs_trans; [apply C|apply F].
Qed.

(** Giving up: the child is destroyed, and nothing else. *)
Lemma abort_ok tags held t child t1 tags' t' :
  iso tags held t → created tags t child t1 → child ≠ kernel_pml4_phys t →
  forked (<[child := (OUser child, [])]> tags) held t1 child tags' t' →
  ∃ tags'', iso tags'' held (vmm_destroy_address_space child true t') ∧
    undisturbed tags t (vmm_destroy_address_space child true t') ∧ ∀ r, is_root tags'' r ↔ is_root tags r.
Proof.
  intros Hi C Hck F. destruct (forked_undisturbed _ _ _ _ _ _ _ Hi C F) as (U1 & U2 & U3).
  pose proof (fk_iso _ _ _ _ _ _ F) as Hi'. pose proof (cr_none _ _ _ _ C) as Hnone.
  assert (Hroots : ∀ r, is_root tags' r ↔ r = child ∨ is_root tags r).
  { intros r. rewrite <- (created_roots tags t child t1 r C). split; [apply F|]. by apply (extends_lookup _ _ _ _ (fk_ext _ _ _ _ _ _ F)). }
  assert (Hk' : child ≠ kernel_pml4_phys t') by (by rewrite (proj1 (proj2 U3))).
  assert (Hr : is_root tags' child) by (apply Hroots; by left).
  destruct (destroy_ok child true tags' t' (is_vm _ _ _ Hi') Hr (iso_data _ _ _ _ Hi' Hk') Hk') as [tags'' D].
  exists tags''. split; [by apply (iso_destroyed child true tags' held t')|]. split; [split_and!|].
  - intros root va Hro. rewrite (ds_trans _ _ _ _ _ _ D root va); [by apply U1|apply Hroots; by right|left].
    unfold is_root in Hro. congruence.
  - intros f Hu. rewrite (ds_data _ _ _ _ _ _ D); [by apply U2|].
    destruct (fk_use _ _ _ _ _ _ F f) as [[? _] _]; [by apply created_in_use with t|done].
  - eapply same_regs_trans; [apply U3|apply D].
  - intros r. unfold is_root at 1. rewrite (ds_tags _ _ _ _ _ _ D). fold (is_root tags' r). rewrite Hroots.
    unfold left_over. split.
    + intros [[->|?] Hlo]; [|done]. by destruct Hlo as [?|[_ ?]].
    + intros Hro. split; [by right|left]. unfold is_root in Hro. simpl. congruence.
Qed.

Lemma clone_ok tags held t parent :
  iso tags held t → is_root tags parent → parent ≠ kernel_pml4_phys t →
  let '(child, t') := vmm_clone_user_as parent t in
  ∃ tags', iso tags' held t' ∧ undisturbed tags t t' ∧
    ((child = PHYS_NULL ∧ ∀ r, is_root tags' r ↔ is_root tags r) ∨
     (child ≠ PHYS_NULL ∧ ¬ is_root tags child ∧ (∀ r, is_root tags' r ↔ r = child ∨ is_root tags r) ∧
      ∀ va, 0 ≤ va < 2 ^ 47 → page_copied t parent child t' va)).
Proof.
  intros Hi Hp Hpk. unfold vmm_clone_user_as. rewrite (is_current _ _ _ Hi).
  destruct (vk_frame _ _ (is_vm _ _ _ Hi) parent _ Hp) as [[Hp0 _] _].
  destruct (Z.eqb_spec parent PHYS_NULL) as [->|_]; [unfold PHYS_NULL in Hp0; lia|]. cbn [orb negb bool_decide].
  rewrite bool_decide_eq_true_2 by done. cbn [negb].
  pose proof (create_ok tags t (is_vm _ _ _ Hi) (is_kroot _ _ _ Hi) (is_current _ _ _ Hi)) as Hc.
  destruct (vmm_create_address_space t) as [child t1]. destruct Hc as [(-> & A & _)|[Hcn C]].
  { rewrite Z.eqb_refl. exists tags. split; [by eapply iso_grown|]. split; [|by left]. split_and!; try apply A.
    intros f (Hn & _ & _ & Hnf). by apply (gr_data _ _ _ _ A). }
  destruct (Z.eqb_spec child PHYS_NULL) as [|_]; [done|].
  pose proof (iso_created _ _ _ _ _ Hi C) as Hi1. pose proof (cr_none _ _ _ _ C) as Hnone.
  destruct (cr_regs _ _ _ _ C) as (_ & Hk1 & _).
  assert (Hcp : child ≠ parent) by (unfold is_root in Hp; congruence).
  assert (Hck : child ≠ kernel_pml4_phys t) by (pose proof (is_kroot _ _ _ Hi) as Hr; unfold is_root in Hr; congruence).
  pose proof (λ r, created_roots tags t child t1 r C) as Hroots.
  pose proof (clone_loop_ok _ held t1 parent child Hi1 ltac:(apply Hroots; by right) ltac:(apply Hroots; by left)
    Hcp ltac:(by rewrite Hk1) ltac:(by rewrite Hk1) t1 (cloning_start tags held t child t1 parent Hi C)) as Hl.
  destruct (for_range 0 256 _ t1) as [t2|t2].
  - destruct Hl as [tags' F]. destruct (abort_ok tags held t child t1 tags' t2 Hi C Hck F) as (tags'' & ? & ? & ?).
    exists tags''. auto.
  - destruct Hl as (tags' & F & Hd & _). exists tags'. split; [apply F|].
    split; [by eapply forked_undisturbed|]. right. split_and!; try done.
    + unfold is_root. congruence.
    + intros r. rewrite <- Hroots. split; [apply F|]. by apply (extends_lookup _ _ _ _ (fk_ext _ _ _ _ _ _ F)).
    + intros va Hva. apply (copied_before tags held t child t1); try done. apply Hd; lia.
Qed.
