(* ===== verification/PagingSys.v ===== *)
(** The virtual memory manager as a system (definitions in [Paging]): the operations of
    [kernel/mm/paging.c] and the memory accesses of programs as the steps of a transition
    system, started by [init_paging] on the tables of the boot loader.  The properties of
    the single operations and what holds in every reachable state are at the end. *)

From stdpp Require Import relations.
From S2P Require Import Prelude Bitmap Pmm Paging PagingSpec PagingDestroy PagingIso PagingClone.

(** ** Start *)

(** The tables [init_paging] finds: one address space, in frames the allocator does not
    hand out, on a machine with physical addresses of 52 bits. *)
Record booted (tags : gmap Z tag) t : Prop := {
  bt_ok : vm_ok tags (mkVmm (frames t) (mem t) (Some (next_table (cr3 t))) (next_table (cr3 t)) (cr3 t) (cpu_cr3 t));
  bt_root : ∀ r, is_root tags r ↔ r = next_table (cr3 t);
  bt_small : total_pages (frames t) ≤ 2 ^ 40
}.

Lemma init_loop tags t root :
  vm_ok tags t → is_root tags root →
  match for_range 256 512 (λ i t,
          if present (rd t root i) then inr t else
          match alloc_page_virt t with
          | (None, _) => inl tt
          | (Some p, t) => inr (wr root i (Z.lor p 7) t)
          end) t with
  | inl _ => True
  | inr t' => ∃ tags', grown tags t tags' t' ∧ ∀ j, 256 ≤ j < 512 → present (rd t' root j) = true
  end.
Proof.
  intros Hok Hr. apply (for_range_rule (λ i t', ∃ tags', grown tags t tags' t' ∧
    ∀ j, 256 ≤ j < i → present (rd t' root j) = true) (λ _, True)) with (lo := 256) (hi := 512).
  { exists tags. split; [by apply grown_refl|]. intros. lia. }
  intros i t1 Hi (tags1 & A & Hp). pose proof (extends_lookup _ _ _ _ (gr_ext _ _ _ _ A) Hr) as Hr1.
  destruct (present (rd t1 root i)) eqn:E.
  { exists tags1. split; [done|]. intros j Hj. destruct (decide (j = i)) as [->|]; [done|]. apply Hp. lia. }
  pose proof (alloc_table_ok tags1 t1 (gr_ok _ _ _ _ A)) as Ha.
  destruct (alloc_page_virt t1) as [[p|] t2]; [|done]. destruct Ha as (B & _ & Hfr & Hrd).
  exists (<[p := kid (OUser root, []) i]> tags1). split.
  - eapply grown_trans; [done|]. apply (link_grown tags1 t1 t2); try done; [apply A|simpl; lia|unfold in_table; lia].
  - destruct Hfr as (Hn & [Hp0 Hpm] & _). destruct (link_entry p ltac:(lia) Hpm) as (_ & Hpr & _).
    assert (Hne : root ≠ p) by congruence.
    intros j Hj. rewrite rd_wr. case_decide as Hd; [done|]. rewrite Hrd, decide_False by done. apply Hp.
    destruct (decide (j = i)) as [->|]; [by destruct Hd|lia].
Qed.

Lemma init_iso tags t t' :
  booted tags t → init_paging t = Some t' →
  ∃ tags', iso tags' ∅ t' ∧ (∀ r, is_root tags' r ↔ r = kernel_pml4_phys t') ∧
    kernel_pml4_phys t' = next_table (cr3 t) ∧ cr3 t' = cr3 t.
Proof.
  intros [Hok Hroot Hsm] Hin. unfold init_paging in Hin. set (root := next_table (cr3 t)) in *.
  set (t0 := mkVmm _ _ _ _ _ _) in *. assert (Hr : is_root tags root) by (by apply Hroot).
  pose proof (init_loop tags t0 root Hok Hr) as Hl.
  destruct (for_range 256 512 _ t0) as [|t1]; [done|]. injection Hin as <-. destruct Hl as (tags' & A & Hp).
  destruct (gr_regs _ _ _ _ A) as (Hc & Hk & Hcr & _). exists tags'.
  assert (Hroots : ∀ r, is_root tags' r ↔ r = kernel_pml4_phys t1).
  { intros r. rewrite Hk. cbn [kernel_pml4_phys t0]. split; [intros Hr'; by apply Hroot, (gr_ext _ _ _ _ A)|].
    intros ->. by apply (extends_lookup _ _ _ _ (gr_ext _ _ _ _ A)). }
  assert (Hno : ∀ pt i, ¬ user_entry tags' t1 pt i).
  { intros pt i (r & ix & Hne & Hpt & _). apply Hne, Hroots. by apply (owner_root tags' t1 pt r ix (gr_ok _ _ _ _ A)). }
  split; [|split; [done|split; [by rewrite Hk|by rewrite Hcr]]]. constructor.
  - apply A.
  - by rewrite (gr_total _ _ _ _ A).
  - by rewrite Hc, Hk.
  - by apply Hroots.
  - intros r i Hr' Hi. apply Hroots in Hr' as ->. split; [|done]. rewrite Hk. by apply Hp.
  - intros r Hr' Hne. by apply Hroots in Hr'.
  - intros pt i Hu. by apply Hno in Hu.
  - intros pt i pt' i' Hu. by apply Hno in Hu.
  - intros f Hf. set_solver.
  - intros f r ix i Hf Hne. destruct Hne. apply Hroots. by apply (owner_root tags' t1 f r ix (gr_ok _ _ _ _ A)).
  - intros f r ix i Hf Hne. destruct Hne. apply Hroots. by apply (owner_root tags' t1 f r ix (gr_ok _ _ _ _ A)).
Qed.

(** ** The system *)

(** [held] are the frames kernel code took and still has, [spaces] the roots of the address
    spaces of programs. *)
Record sys := mkSys { vm : vmm; held : gset Z; spaces : gset Z }.

Implicit Types (s : sys).

(** A page of a program, outside the window for shared memory. *)
Definition user_va (va : Z) : Prop := 0 ≤ va < 2 ^ 47 ∧ kz_shm_va_excluded va = false.
Definition shm_va (va : Z) : Prop := 0 ≤ va < 2 ^ 47 ∧ kz_shm_va_excluded va = true.

(** A store of a program to word [i] of the page at [va]. *)
Definition store (root va i v : Z) t : vmm :=
  match translate t root va with None => t | Some e => wr (pte_frame e) i v t end.

Inductive sys_step : sys → sys → Prop :=
| st_take s p ph : pmm_alloc_page (frames (vm s)) = (p, ph) → p ≠ PHYS_NULL →
    sys_step s (mkSys (set_frames ph (vm s)) ({[p]} ∪ held s) (spaces s))
| st_free s f : f ∈ held s → sys_step s (mkSys (free_frame f (vm s)) (held s ∖ {[f]}) (spaces s))
| st_map s va f flags r res t' : r ∈ spaces s → f ∈ held s → flags_ok flags →
    vmm_map_page_into va f flags r (vm s) = (res, t') →
    sys_step s (mkSys t' (if res =? 0 then held s else held s ∖ {[f]}) (spaces s))
| st_alloc s va flags r : r ∈ spaces s → flags_ok flags →
    sys_step s (mkSys (vmm_alloc_page_into va flags r (vm s)).2 (held s) (spaces s))
| st_unmap s va r f t' : r ∈ spaces s → user_va va → vmm_unmap_page_from va r (vm s) = (f, t') →
    sys_step s (mkSys t' (if f =? PHYS_NULL then held s else {[f]} ∪ held s) (spaces s))
| st_protect s va flags r : r ∈ spaces s → flags_ok flags →
    sys_step s (mkSys (vmm_protect_page_into va flags r (vm s)).2 (held s) (spaces s))
| st_shm_map s va f flags r : r ∈ spaces s → shm_va va → 0 ≤ f → 0 ≤ flags < 2 ^ 64 →
    sys_step s (mkSys (vmm_map_page_into va f flags r (vm s)).2 (held s) (spaces s))
| st_shm_unmap s va r : r ∈ spaces s → shm_va va →
    sys_step s (mkSys (vmm_unmap_page_from va r (vm s)).2 (held s) (spaces s))
| st_kernel_map s va f flags : 0 ≤ f → 0 ≤ flags < 2 ^ 64 →
    sys_step s (mkSys (vmm_map_page_kernel va f flags (vm s)).2 (held s) (spaces s))
| st_kernel_alloc s va flags : flags_ok flags →
    sys_step s (mkSys (vmm_alloc_page_kernel va flags (vm s)).2 (held s) (spaces s))
| st_kernel_unmap s va : sys_step s (mkSys (vmm_unmap_page va (vm s)).2 (held s) (spaces s))
| st_create s p t' : vmm_create_address_space (vm s) = (p, t') →
    sys_step s (mkSys t' (held s) (if p =? PHYS_NULL then spaces s else {[p]} ∪ spaces s))
| st_clone s r p t' : r ∈ spaces s → vmm_clone_user_as r (vm s) = (p, t') →
    sys_step s (mkSys t' (held s) (if p =? PHYS_NULL then spaces s else {[p]} ∪ spaces s))
| st_destroy s r : r ∈ spaces s →
    sys_step s (mkSys (vmm_destroy_task_as r (vm s)) (held s) (spaces s ∖ {[r]}))
| st_switch s r : r ∈ spaces s → sys_step s (mkSys (vmm_switch_pml4 r (vm s)) (held s) (spaces s))
| st_store s r va i v : r ∈ spaces s → user_va va → 0 ≤ v < 2 ^ 64 →
    sys_step s (mkSys (store r va i v (vm s)) (held s) (spaces s)).

(** The invariant of the system. *)
Definition sys_inv s : Prop :=
  ∃ tags, iso tags (held s) (vm s) ∧ (kernel_pml4_phys (vm s) ∉ spaces s) ∧
    ∀ r, is_root tags r ↔ r = kernel_pml4_phys (vm s) ∨ r ∈ spaces s.

(** A step that adds no root. *)
Lemma inv_same tags s tags' held' t' :
  iso tags (held s) (vm s) → kernel_pml4_phys (vm s) ∉ spaces s →
  (∀ r, is_root tags r ↔ r = kernel_pml4_phys (vm s) ∨ r ∈ spaces s) →
  iso tags' held' t' → (∀ r, is_root tags' r ↔ is_root tags r) → kernel_pml4_phys t' = kernel_pml4_phys (vm s) →
  sys_inv (mkSys t' held' (spaces s)).
Proof.
  intros Hi Hk Hr Hi' Hr' Hk'. exists tags'. cbn [vm held spaces]. rewrite Hk'. split; [done|]. split; [done|].
  intros r. by rewrite Hr'.
Qed.

Lemma extends_roots tags tags' r : extends tags tags' → is_root tags' r ↔ is_root tags r.
Proof. intros Hx. split; [apply Hx|]. by apply (extends_lookup tags). Qed.

(** A new frame that is not filled. *)
Lemma take_plain tags held t :
  iso tags held t →
  let '(p, ph) := pmm_alloc_page (frames t) in
  (p = PHYS_NULL ∧ set_frames ph t = t) ∨
  (p ≠ PHYS_NULL ∧ (p ∉ held) ∧ iso tags ({[p]} ∪ held) (set_frames ph t)).
Proof.
  intros Hi. pose proof (pmm_take tags t (is_vm _ _ _ Hi)) as Hp. destruct (pmm_alloc_page (frames t)) as [p ph].
  destruct Hp as [(-> & -> & _)|(Hnn & Hp)]; [left; split; [done|by destruct t]|right]. split; [done|].
  destruct (Hp (set_frames ph t)) as [A Hfr]; try done.
  { intros j. apply (vk_word _ _ (is_vm _ _ _ Hi) p j). }
  by apply (fresh_iso tags held t).
Qed.

(** A frame taken and mapped below [root]. *)
Lemma alloc_map_iso tags held t root va flags :
  iso tags held t → is_root tags root → flags_ok flags →
  let '(p, ph) := pmm_alloc_page (frames t) in
  let t2 := set_frames ph t in
  p = PHYS_NULL ∧ t2 = t ∨ p ≠ PHYS_NULL ∧
  ∃ tags', extends tags tags' ∧
    iso tags' held (if (map_at root va p flags t2).1 =? 0 then free_frame p (map_at root va p flags t2).2
                    else (map_at root va p flags t2).2) ∧
    kernel_pml4_phys (map_at root va p flags t2).2 = kernel_pml4_phys t.
Proof.
  intros Hi Hr Hfl. pose proof (take_plain tags held t Hi) as Hp. destruct (pmm_alloc_page (frames t)) as [p ph].
  cbv zeta. destruct Hp as [?|(Hnn & Hnh & Hi2)]; [by left|right]. split; [done|].
  pose proof (map_held tags _ (set_frames ph t) root va p flags Hi2 Hr ltac:(set_solver) Hfl) as Hm.
  assert (Hset : ({[p]} ∪ held) ∖ {[p]} = held) by set_solver.
  destruct (map_at root va p flags (set_frames ph t)) as [res t3]. cbn [fst snd].
  destruct Hm as [(-> & tags3 & A3 & _ & Hi3)|(-> & tags3 & t4 & pt & A3 & _ & Hw & -> & Hi3)]; cbn [Z.eqb];
    exists tags3; (split; [apply A3|]); (split; [|apply A3]); [|by rewrite Hset in Hi3].
  pose proof (iso_release _ _ _ p Hi3 ltac:(set_solver)) as Hrel. by rewrite Hset in Hrel.
Qed.

Lemma map_regs tags t root va f flags :
  vm_ok tags t → is_root tags root → kernel_pml4_phys (map_at root va f flags t).2 = kernel_pml4_phys t.
Proof.
  intros Hok Hr. pose proof (map_at_cases tags t root va f flags Hok Hr) as Hm.
  destruct (map_at root va f flags t) as [res t'].
  destruct Hm as [(_ & (g1 & A) & _)|(_ & g1 & t1 & pt & A & _ & _ & ->)]; apply A.
Qed.

(** Filling a frame that is no table, and writing a word of it. *)
Lemma rd_fill f0 (pg : gmap Z Z) t f j :
  rd (set_mem (<[f0 := pg]> (mem t)) t) f j = if decide (f = f0) then default 0 (pg !! j) else rd t f j.
Proof.
  unfold rd, page_of. cbn [mem set_mem]. case_decide as Hd; [subst; by rewrite lookup_insert_eq|by rewrite lookup_insert_ne].
Qed.

Lemma fill_iso tags held t f0 (pg : gmap Z Z) :
  iso tags held t → tags !! f0 = None → (∀ j, 0 ≤ default 0 (pg !! j) < 2 ^ 64) →
  let t' := set_mem (<[f0 := pg]> (mem t)) t in
  iso tags held t' ∧ ∀ f g j, tags !! f = Some g → rd t' f j = rd t f j.
Proof.
  intros Hi Hn Hv t'.
  assert (Hsame : ∀ f g j, tags !! f = Some g → rd t' f j = rd t f j).
  { intros f g j Hf. unfold t'. rewrite rd_fill, decide_False; [done|]. intros ->. congruence. }
  split; [|done].
  assert (Hue : ∀ p j, user_entry tags t' p j → user_entry tags t p j ∧ rd t' p j = rd t p j).
  { intros p j (r' & ix & H1 & H2 & H3). pose proof (Hsame p _ j H2) as E. split; [|done]. exists r', ix.
    unfold owned_entry in *. by rewrite <- E. }
  destruct Hi as [I1 I2 I3 I4 I5 I6 I7 I8 I9 I10 I11]. constructor; try done.
  - destruct I1 as [K1 K2 K3 K4 K5 K6 K7 K8 K9]. constructor; try done.
    + intros f j. unfold t'. rewrite rd_fill. case_decide; [done|apply K2].
    + intros f g j Hf. rewrite (Hsame f g j Hf). by apply K5.
    + intros c o ix j Hc. destruct (K9 c o ix j Hc) as (f & Hf & Hj & Hlk). exists f. split; [done|]. split; [done|].
      unfold links. by rewrite (Hsame f _ j Hf).
  - intros r' j Hr' Hj. change (kernel_pml4_phys t') with (kernel_pml4_phys t).
    rewrite (Hsame r' _ j Hr'), (Hsame _ _ j I4). by apply I5.
  - intros p j Hu'. destruct (Hue p j Hu') as [Hu1 ->]. by apply I7.
  - intros p j p' j' H1 H2. destruct (Hue p j H1) as [H1' ->]. destruct (Hue p' j' H2) as [H2' ->]. by apply I8.
  - intros f r ix j Hf. rewrite (Hsame f _ j Hf). by apply I10.
  - intros f r ix j Hf. rewrite (Hsame f _ j Hf). by apply I11.
Qed.

Lemma write_iso tags held t f0 i v :
  iso tags held t → tags !! f0 = None → 0 ≤ v < 2 ^ 64 →
  iso tags held (wr f0 i v t) ∧ ∀ f g j, tags !! f = Some g → rd (wr f0 i v t) f j = rd t f j.
Proof.
  intros Hi Hn Hv. apply fill_iso; [done..|]. intros j. destruct (decide (j = i)) as [->|Hd].
  - by rewrite lookup_insert_eq.
  - rewrite lookup_insert_ne by done. apply (vk_word _ _ (is_vm _ _ _ Hi) f0 j).
Qed.

(** A store reaches no table. *)
Lemma store_iso tags held t r va i v :
  iso tags held t → is_root tags r → r ≠ kernel_pml4_phys t → user_va va → 0 ≤ v < 2 ^ 64 →
  iso tags held (store r va i v t) ∧ ∀ f g j, tags !! f = Some g → rd (store r va i v t) f j = rd t f j.
Proof.
  intros Hi Hr Hne [Hva Hs] Hv. unfold store. destruct (translate t r va) as [e|] eqn:He; [|done].
  destruct (translate_user tags held t r va e Hi Hr Hne Hva Hs He) as (pt & _ & Hu & <-).
  destruct (is_data _ _ _ Hi pt _ Hu) as [(Hn & _) _]. by apply write_iso.
Qed.

(** Changing the address space in use. *)
Lemma iso_cr3 tags held t v : iso tags held t → iso tags held (set_cr3 v t).
Proof. intros [I1 I2 I3 I4 I5 I6 I7 I8 I9 I10 I11]. constructor; try done. destruct I1. by constructor. Qed.

(** ** Every step keeps the invariant *)
Section Step.
Context (s : sys) (tags : gmap Z tag) (Hi : iso tags (held s) (vm s)) (Hk : kernel_pml4_phys (vm s) ∉ spaces s)
  (Hr : ∀ r, is_root tags r ↔ r = kernel_pml4_phys (vm s) ∨ r ∈ spaces s).

Lemma space_root r : r ∈ spaces s → is_root tags r ∧ r ≠ kernel_pml4_phys (vm s) ∧ (r =? PHYS_NULL) = false.
Proof.
  intros Hs. assert (Hrr : is_root tags r) by (apply Hr; by right). split; [done|].
  split; [intros ->; done|]. destruct (vk_frame _ _ (is_vm _ _ _ Hi) r _ Hrr) as [[H0 _] _].
  apply Z.eqb_neq. unfold PHYS_NULL. lia.
Qed.

Lemma kernel_root : is_root tags (kernel_pml4_phys (vm s)) ∧ (kernel_pml4_phys (vm s) =? PHYS_NULL) = false.
Proof.
  pose proof (is_kroot _ _ _ Hi) as Hrr. split; [done|].
  destruct (vk_frame _ _ (is_vm _ _ _ Hi) _ _ Hrr) as [[H0 _] _]. apply Z.eqb_neq. unfold PHYS_NULL. lia.
Qed.

Lemma keep_roots tags' held' t' :
  iso tags' held' t' → extends tags tags' → kernel_pml4_phys t' = kernel_pml4_phys (vm s) →
  sys_inv (mkSys t' held' (spaces s)).
Proof. intros Hi' Hx Hk'. apply (inv_same tags s tags'); try done. intros r. by apply extends_roots. Qed.

Lemma keep_tags held' t' :
  iso tags held' t' → kernel_pml4_phys t' = kernel_pml4_phys (vm s) → sys_inv (mkSys t' held' (spaces s)).
Proof. intros Hi' Hk'. by apply (keep_roots tags). Qed.

Lemma step_take p ph :
  pmm_alloc_page (frames (vm s)) = (p, ph) → p ≠ PHYS_NULL →
  sys_inv (mkSys (set_frames ph (vm s)) ({[p]} ∪ held s) (spaces s)).
Proof.
  intros He Hnn. pose proof (take_plain tags _ _ Hi) as Hp. rewrite He in Hp.
  destruct Hp as [[? _]|(_ & _ & Hi')]; [done|]. by apply keep_tags.
Qed.

Lemma step_map va f flags r res t' :
  r ∈ spaces s → f ∈ held s → flags_ok flags → vmm_map_page_into va f flags r (vm s) = (res, t') →
  sys_inv (mkSys t' (if res =? 0 then held s else held s ∖ {[f]}) (spaces s)).
Proof.
  intros Hs Hf Hfl He. destruct (space_root r Hs) as (Hrr & _ & Hz). unfold vmm_map_page_into in He. rewrite Hz in He.
  pose proof (map_held tags _ _ r va f flags Hi Hrr Hf Hfl) as Hm.
  pose proof (map_regs tags _ r va f flags (is_vm _ _ _ Hi) Hrr) as Hkp. rewrite He in Hm, Hkp.
  destruct Hm as [(-> & tags3 & A3 & _ & Hi3)|(-> & tags3 & t4 & pt & A3 & _ & Hw & _ & Hi3)]; cbn [Z.eqb];
    apply (keep_roots tags3); try done; apply A3.
Qed.

Lemma step_alloc va flags r :
  r ∈ spaces s → flags_ok flags → sys_inv (mkSys (vmm_alloc_page_into va flags r (vm s)).2 (held s) (spaces s)).
Proof.
  intros Hs Hfl. destruct (space_root r Hs) as (Hrr & _ & Hz). unfold vmm_alloc_page_into.
  pose proof (alloc_map_iso tags _ _ r va flags Hi Hrr Hfl) as Hm.
  destruct (pmm_alloc_page (frames (vm s))) as [p ph]. cbv zeta in Hm. unfold vmm_map_page_into. rewrite Hz. cbn [negb].
  destruct Hm as [[-> ->]|(Hnn & tags' & Hx & Hi' & Hk')]; [by apply keep_tags|].
  destruct (Z.eqb_spec p PHYS_NULL); [done|]. destruct (map_at r va p flags (set_frames ph (vm s))) as [res t'].
  cbn [fst snd] in *. destruct (res =? 0); by apply (keep_roots tags').
Qed.

Lemma step_kernel_alloc va flags :
  flags_ok flags → sys_inv (mkSys (vmm_alloc_page_kernel va flags (vm s)).2 (held s) (spaces s)).
Proof.
  intros Hfl. destruct kernel_root as (Hrr & Hz). unfold vmm_alloc_page_kernel, vmm_map_page_kernel.
  pose proof (alloc_map_iso tags _ _ _ va flags Hi Hrr Hfl) as Hm.
  destruct (pmm_alloc_page (frames (vm s))) as [p ph]. cbv zeta in Hm. unfold vmm_map_page_into.
  change (kernel_pml4_phys (set_frames ph (vm s))) with (kernel_pml4_phys (vm s)). rewrite Hz.
  destruct Hm as [[-> ->]|(Hnn & tags' & Hx & Hi' & Hk')]; [by apply keep_tags|].
  destruct (Z.eqb_spec p PHYS_NULL); [done|].
  destruct (map_at (kernel_pml4_phys (vm s)) va p flags (set_frames ph (vm s))) as [res t'].
  cbn [fst snd] in *. destruct (res =? 0); by apply (keep_roots tags').
Qed.

Lemma step_unmap va r f t' :
  r ∈ spaces s → user_va va → vmm_unmap_page_from va r (vm s) = (f, t') →
  sys_inv (mkSys t' (if f =? PHYS_NULL then held s else {[f]} ∪ held s) (spaces s)).
Proof.
  intros Hs [Hva Hx] He. destruct (space_root r Hs) as (Hrr & Hne & Hz).
  pose proof (unmap_user tags _ _ r va Hi Hrr Hne Hva Hx) as Hu.
  assert (Hk' : kernel_pml4_phys t' = kernel_pml4_phys (vm s)).
  { unfold vmm_unmap_page_from, root_or_kernel in He. rewrite Hz in He.
    destruct (walk_pt r va (vm s)); [|by simplify_eq]. cbv zeta in He. by destruct (negb (present _)); simplify_eq. }
  rewrite He in Hu. destruct Hu as [[-> ->]|(Hnn & _ & Hi')]; [by apply keep_tags|].
  destruct (Z.eqb_spec f PHYS_NULL); [done|]. by apply keep_tags.
Qed.

Lemma step_unmap_exempt (root va : Z) :
  is_root tags root → (root =? PHYS_NULL) = false →
  sys_inv (mkSys (vmm_unmap_page_from va root (vm s)).2 (held s) (spaces s)).
Proof.
  intros Hrr Hz. unfold vmm_unmap_page_from, root_or_kernel. rewrite Hz.
  destruct (walk_pt root va (vm s)) as [pt|] eqn:Hw; [|by apply keep_tags]. cbv zeta.
  destruct (negb (present _)); apply keep_tags; try done. by apply (clear_iso tags _ _ root va).
Qed.

Lemma step_kernel_unmap va : sys_inv (mkSys (vmm_unmap_page va (vm s)).2 (held s) (spaces s)).
Proof.
  destruct kernel_root as (Hrr & Hz). unfold vmm_unmap_page. rewrite (is_current _ _ _ Hi).
  destruct (walk_pt _ va (vm s)) as [pt|] eqn:Hw; [|by apply keep_tags].
  destruct (negb (present _)); apply keep_tags; try done. by apply (clear_iso tags _ _ (kernel_pml4_phys (vm s)) va).
Qed.

Lemma step_map_exempt root va f flags :
  is_root tags root → (root =? PHYS_NULL) = false → exempt (vm s) root va → 0 ≤ f → 0 ≤ flags < 2 ^ 64 →
  sys_inv (mkSys (vmm_map_page_into va f flags root (vm s)).2 (held s) (spaces s)).
Proof.
  intros Hrr Hz Hex Hf Hfl. unfold vmm_map_page_into. rewrite Hz.
  destruct (map_exempt tags _ _ root va f flags Hi Hrr Hex Hf Hfl) as (tags' & Hx & Hi').
  apply (keep_roots tags'); try done. by apply (map_regs tags); [apply Hi|].
Qed.

Lemma step_protect va flags r :
  r ∈ spaces s → flags_ok flags → sys_inv (mkSys (vmm_protect_page_into va flags r (vm s)).2 (held s) (spaces s)).
Proof.
  intros Hs Hfl. destruct (space_root r Hs) as (Hrr & Hne & Hz).
  apply keep_tags; [by apply protect_iso|]. unfold vmm_protect_page_into, root_or_kernel. rewrite Hz.
  destruct (walk_pt r va (vm s)); [|done]. cbv zeta. by destruct (negb (present _)).
Qed.

(** Roots come and go. *)
Lemma add_space tags' t' p :
  iso tags' (held s) t' → kernel_pml4_phys t' = kernel_pml4_phys (vm s) → ¬ is_root tags p →
  (∀ r, is_root tags' r ↔ r = p ∨ is_root tags r) → sys_inv (mkSys t' (held s) ({[p]} ∪ spaces s)).
Proof.
  intros Hi' Hk' Hp Hroots. exists tags'. cbn [vm held spaces]. rewrite Hk'. split; [done|]. split.
  - intros [He%elem_of_singleton|?]%elem_of_union; [|done]. apply Hp. rewrite <- He. apply Hi.
  - intros r. rewrite Hroots, Hr, elem_of_union, elem_of_singleton. tauto.
Qed.

Lemma step_create p t' :
  vmm_create_address_space (vm s) = (p, t') →
  sys_inv (mkSys t' (held s) (if p =? PHYS_NULL then spaces s else {[p]} ∪ spaces s)).
Proof.
  intros He. pose proof (create_ok tags _ (is_vm _ _ _ Hi) (is_kroot _ _ _ Hi) (is_current _ _ _ Hi)) as Hc.
  rewrite He in Hc. destruct Hc as [(-> & A & _)|[Hnn C]].
  - apply keep_tags; [by eapply iso_grown|apply A].
  - destruct (Z.eqb_spec p PHYS_NULL); [done|]. apply (add_space (<[p := (OUser p, [])]> tags)).
    + by eapply iso_created.
    + apply C.
    + unfold is_root. rewrite (cr_none _ _ _ _ C). done.
    + intros r. by apply (created_roots tags (vm s) p t').
Qed.

Lemma step_clone r p t' :
  r ∈ spaces s → vmm_clone_user_as r (vm s) = (p, t') →
  sys_inv (mkSys t' (held s) (if p =? PHYS_NULL then spaces s else {[p]} ∪ spaces s)).
Proof.
  intros Hs He. destruct (space_root r Hs) as (Hrr & Hne & Hz). pose proof (clone_ok tags _ _ r Hi Hrr Hne) as Hc.
  rewrite He in Hc. destruct Hc as (tags' & Hi' & (_ & _ & Hregs) & [[-> Hro]|(Hnn & Hnew & Hro & _)]).
  - apply (inv_same tags s tags'); try done. apply Hregs.
  - destruct (Z.eqb_spec p PHYS_NULL); [done|]. apply (add_space tags'); try done. apply Hregs.
Qed.

Lemma step_destroy r : r ∈ spaces s → sys_inv (mkSys (vmm_destroy_task_as r (vm s)) (held s) (spaces s ∖ {[r]})).
Proof.
  intros Hs. destruct (space_root r Hs) as (Hrr & Hne & Hz). destruct kernel_root as (_ & Hkz).
  unfold vmm_destroy_task_as, vmm_switch_to_kernel_as. rewrite Hz, Hkz.
  pose proof (iso_cr3 _ _ _ (kernel_pml4_phys (vm s)) Hi) as Hi0. set (t0 := set_cr3 _ (vm s)) in *.
  destruct (destroy_ok r true tags t0 (is_vm _ _ _ Hi0) Hrr (iso_data _ _ _ _ Hi0 Hne) Hne) as [tags' D].
  exists tags'. cbn [vm held spaces]. destruct (ds_regs _ _ _ _ _ _ D) as (_ & Hk' & _). rewrite Hk'.
  split; [by apply (iso_destroyed r true tags _ t0)|]. change (kernel_pml4_phys t0) with (kernel_pml4_phys (vm s)).
  split; [set_solver|]. intros r'. unfold is_root at 1. rewrite (ds_tags _ _ _ _ _ _ D). fold (is_root tags r').
  rewrite Hr, elem_of_difference, elem_of_singleton. unfold left_over. cbn [fst]. split.
  - intros [[?|?] [He|[_ ?]]]; [by left|done|right; split; [done|congruence]|done].
  - intros [->|[? ?]]; (split; [tauto|left; congruence]).
Qed.
End Step.

Lemma sys_step_inv s s' : sys_step s s' → sys_inv s → sys_inv s'.
Proof.
  intros Hst (tags & Hi & Hk & Hr). destruct Hst.
  - by eapply step_take.
  - eapply keep_tags; [done..|by apply iso_release|done].
  - by eapply step_map.
  - by eapply step_alloc.
  - by eapply step_unmap.
  - by eapply step_protect.
  - destruct (space_root s tags Hi Hk Hr r) as (? & ? & ?); [done|]. eapply step_map_exempt; try done.
    right. right. unfold shm_va in *. split; [lia|tauto].
  - destruct (space_root s tags Hi Hk Hr r) as (? & ? & ?); [done|]. by eapply step_unmap_exempt.
  - destruct (kernel_root s tags Hi). eapply step_map_exempt; try done. by left.
  - by eapply step_kernel_alloc.
  - by eapply step_kernel_unmap.
  - by eapply step_create.
  - by eapply step_clone.
  - by eapply step_destroy.
  - destruct (space_root s tags Hi Hk Hr r) as (? & ? & Hz); [done|]. unfold vmm_switch_pml4. rewrite Hz.
    eapply keep_tags; [done..|by apply iso_cr3|done].
  - destruct (space_root s tags Hi Hk Hr r) as (? & ? & Hz); [done|].
    eapply keep_tags; [done..|by apply store_iso|]. unfold store. by destruct (translate _ _ _).
Qed.

Lemma sys_reach_inv t0 tags0 t s :
  booted tags0 t0 → init_paging t0 = Some t → rtc sys_step (mkSys t ∅ ∅) s → sys_inv s.
Proof.
  intros Hb Hin Hst. assert (H0 : sys_inv (mkSys t ∅ ∅)).
  { destruct (init_iso tags0 t0 t Hb Hin) as (tags & Hi & Hr & _). exists tags. split; [done|]. split; [set_solver|].
    intros r. rewrite Hr. cbn [vm spaces]. set_solver. }
  clear Hin. remember (mkSys t ∅ ∅) as s0 eqn:E. clear E. induction Hst as [|s1 s2 s3 H1 _ IH]; [done|].
  apply IH. by eapply sys_step_inv.
Qed.

(** ** [init_paging] has what it needs when 256 frames are free *)
Lemma alloc_used p bm :
  pmm_wf p bm →
  let '(r, p') := pmm_alloc_page p in
  used_pages p' ≤ used_pages p + 1 ∧ (used_pages p < total_pages p → r ≠ PHYS_NULL).
Proof.
  intros Hwf. pose proof (pmm_alloc_page_ok p bm Hwf) as Ha. destruct (pmm_alloc_page p) as [r p'].
  destruct Ha as [(i & Hi & _ & _ & -> & Hu & _)|(-> & -> & Hfull)].
  - split; [lia|]. intros _. pose proof (zone_page_pos i ltac:(lia)). unfold PHYS_NULL. lia.
  - split; [lia|]. intros Hlt. rewrite (wf_used _ _ Hwf) in Hlt. pose proof (wf_room _ _ Hwf). pose proof (wf_total _ _ Hwf).
    rewrite zcount_all in Hlt by (done || lia). lia.
Qed.

Lemma alloc_virt_used t bm :
  pmm_wf (frames t) bm → used_pages (frames t) < total_pages (frames t) →
  ∃ p t', alloc_page_virt t = (Some p, t') ∧ used_pages (frames t') ≤ used_pages (frames t) + 1 ∧
    total_pages (frames t') = total_pages (frames t).
Proof.
  intros Hwf Hlt. pose proof (alloc_used _ _ Hwf) as Ha. unfold alloc_page_virt.
  destruct (pmm_alloc_page (frames t)) as [p ph] eqn:E. destruct Ha as [Hu Hn].
  destruct (Z.eqb_spec p PHYS_NULL); [by destruct (Hn Hlt)|]. eexists _, _. split; [done|].
  split; [done|]. by apply (alloc_total _ p).
Qed.

Lemma init_enough tags t :
  booted tags t → used_pages (frames t) + 256 ≤ total_pages (frames t) →
  ∃ t', init_paging t = Some t' ∧ used_pages (frames t') ≤ used_pages (frames t) + 256 ∧
    total_pages (frames t') = total_pages (frames t).
Proof.
  intros [Hok Hroot _] Hfree. unfold init_paging. set (root := next_table (cr3 t)) in *.
  set (t0 := mkVmm _ _ _ _ _ _) in *. assert (Hr : is_root tags root) by (by apply Hroot).
  pose proof (for_range_rule (λ i t', (∃ tags', grown tags t0 tags' t') ∧
    used_pages (frames t') ≤ used_pages (frames t) + (i - 256) ∧ total_pages (frames t') = total_pages (frames t))
    (λ _ : unit, False) 256 512 (λ i t, if present (rd t root i) then inr t else
      match alloc_page_virt t with (None, _) => inl tt | (Some p, t) => inr (wr root i (Z.lor p 7) t) end) t0) as Hrule.
  cbv beta in Hrule.
  assert (Hpost : match for_range 256 512 (λ i t, if present (rd t root i) then inr t else
      match alloc_page_virt t with (None, _) => inl tt | (Some p, t) => inr (wr root i (Z.lor p 7) t) end) t0 with
    | inl _ => False
    | inr t' => (∃ tags', grown tags t0 tags' t') ∧ used_pages (frames t') ≤ used_pages (frames t) + (Z.max 256 512 - 256) ∧
        total_pages (frames t') = total_pages (frames t)
    end).
  2: { destruct (for_range 256 512 _ t0) as [|t1]; [done|]. exists t1. split; [done|]. lia. }
  apply Hrule; clear Hrule.
  { split; [exists tags; by apply grown_refl|]. cbn [frames t0]. lia. }
  intros i t1 Hi ((tags1 & A) & Hu & Htot). pose proof (extends_lookup _ _ _ _ (gr_ext _ _ _ _ A) Hr) as Hr1.
  destruct (present (rd t1 root i)) eqn:E; [split; [by exists tags1|lia]|].
  destruct (vk_pmm _ _ (gr_ok _ _ _ _ A)) as [bm Hbm].
  destruct (alloc_virt_used t1 bm Hbm ltac:(lia)) as (p & t2 & Ha & Hu2 & Htot2).
  pose proof (alloc_table_ok tags1 t1 (gr_ok _ _ _ _ A)) as Hal. rewrite Ha in Hal |- *. destruct Hal as (B & _ & Hfr & Hrd).
  cbn [frames wr set_mem]. split; [|lia]. exists (<[p := kid (OUser root, []) i]> tags1).
  eapply grown_trans; [done|]. apply (link_grown tags1 t1 t2); try done; [apply A|simpl; lia|unfold in_table; lia].
Qed.

(** ** A concrete machine

    Its boot tables are one empty root in the kernel's zone, its memory 1024 free pages
    above that zone. *)
Definition demo_bitmap : list Z := replicate 2304 0xFF ++ replicate 128 0.
Definition demo_frames : pmm := mkPmm (Some demo_bitmap) 4096 19456 79691776 19456 18432 18432.
Definition demo_boot : vmm := mkVmm demo_frames ∅ None 0 0x1000 (Some 0).

Lemma demo_bit i : 0 ≤ i < 19456 → bit_at demo_bitmap i = (i <? 18432).
Proof.
  intros Hi. unfold demo_bitmap. destruct (Z.ltb_spec i 18432) as [Hlt|Hge].
  - rewrite <- (bit_at_full 2304 i) by lia. unfold bit_at, lget.
    rewrite lookup_app_l; [done|]. rewrite length_replicate. zdiv.
  - unfold bit_at, lget. rewrite lookup_app_r by (rewrite length_replicate; zdiv).
    rewrite length_replicate, lookup_replicate_2 by zdiv. apply Z.bits_0.
Qed.

Lemma demo_frames_wf : pmm_wf demo_frames demo_bitmap.
Proof.
  constructor; cbn [pmm_bitmap bitmap_pages total_pages used_pages next_free_hint demo_frames].
  - reflexivity.
  - apply Forall_app. split; apply Forall_replicate; lia.
  - unfold zlength, demo_bitmap. rewrite length_app, !length_replicate. lia.
  - reflexivity.
  - lia.
  - assert (H1 : zcount (bit_at demo_bitmap) 0 18432 = 18432).
    { apply zcount_all; [lia|]. intros i Hi. rewrite demo_bit by lia. by destruct (Z.ltb_spec i 18432); [|lia]. }
    assert (H2 : zcount (bit_at demo_bitmap) 18432 19456 = 0).
    { apply zcount_none. intros i Hi. rewrite demo_bit by lia. by destruct (Z.ltb_spec i 18432); [lia|]. }
    rewrite (zcount_app (bit_at demo_bitmap) 0 18432 19456), H1, H2 by lia. reflexivity.
  - lia.
  - intros i Hi Hi'. rewrite demo_bit by lia. by destruct (Z.ltb_spec i 18432); [|lia].
  - intros i Hi Hi'. change kernel_lock_pages with 18432 in Hi. rewrite demo_bit by lia.
    by destruct (Z.ltb_spec i 18432); [|lia].
Qed.

Lemma demo_booted : booted {[0x1000 := (OUser 0x1000, [])]} demo_boot.
Proof.
  change (next_table (cr3 demo_boot)) with 0x1000.
  constructor; try done.
  - assert (Hrd : ∀ f i, rd (mkVmm (frames demo_boot) (mem demo_boot) (Some 0x1000) 0x1000 0x1000 (Some 0)) f i = 0) by done.
    constructor; rewrite ?Hrd; try done.
    + exists demo_bitmap. apply demo_frames_wf.
    + intros f g [<- <-]%lookup_singleton_Some. split; [done|]. intros (bm & Hb & _ & Hbit).
      injection Hb as <-. by rewrite demo_bit in Hbit.
    + intros f o [<- He]%lookup_singleton_Some. congruence.
    + intros f g [<- <-]%lookup_singleton_Some. simpl. lia.
    + intros f r ix [<- He]%lookup_singleton_Some. by simplify_eq.
    + intros f f' r ix [<- _]%lookup_singleton_Some [<- _]%lookup_singleton_Some. done.
    + intros c r ix i [<- He]%lookup_singleton_Some. injection He as _ He. by destruct ix.
  - intros r. unfold is_root. rewrite lookup_singleton_Some. split; [by intros [<- _]|]. by intros ->.
Qed.

Lemma create_used t bm k :
  current_pml4 t = Some k → pmm_wf (frames t) bm → used_pages (frames t) < total_pages (frames t) →
  ∃ p t', vmm_create_address_space t = (p, t') ∧ used_pages (frames t') ≤ used_pages (frames t) + 1 ∧
    total_pages (frames t') = total_pages (frames t) ∧ ∃ t1, alloc_page_virt t = (Some p, t1).
Proof.
  intros Hc Hwf Hlt. destruct (alloc_virt_used t bm Hwf Hlt) as (p & t1 & Ha & Hu & Ht).
  unfold vmm_create_address_space. rewrite Hc, Ha. eexists p, _. split; [done|].
  assert (Hf : frames (for_each 256 512 (λ i t, wr p i (rd t k i) t) t1) = frames t1).
  { apply (for_each_upto (λ _ t', frames t' = frames t1)); [lia|done|]. done. }
  rewrite Hf. split; [done|]. split; [done|]. by exists t1.
Qed.

(** The machine after start, with one address space. *)
Lemma demo_space :
  ∃ t tags r t1 tags1, init_paging demo_boot = Some t ∧ iso tags ∅ t ∧ vmm_create_address_space t = (r, t1) ∧
    r ≠ PHYS_NULL ∧ iso tags1 ∅ t1 ∧ is_root tags1 r ∧ r ≠ kernel_pml4_phys t1 ∧
    used_pages (frames t1) + 700 ≤ total_pages (frames t1) ∧ ∀ va, user_va va → blocked r va t1 = false.
Proof.
  assert (Hd : used_pages (frames demo_boot) = 18432 ∧ total_pages (frames demo_boot) = 19456) by (by split).
  destruct Hd as [Hd1 Hd2].
  destruct (init_enough _ _ demo_booted) as (t & Hin & Hu & Ht); [lia|].
  destruct (init_iso _ _ _ demo_booted Hin) as (tags & Hi & Hr & _).
  destruct (vk_pmm _ _ (is_vm _ _ _ Hi)) as [bm Hbm].
  destruct (create_used t bm _ (is_current _ _ _ Hi) Hbm ltac:(lia)) as (r & t1 & Hc & Hu1 & Ht1 & t0 & Ha).
  pose proof (create_ok tags t (is_vm _ _ _ Hi) (is_kroot _ _ _ Hi) (is_current _ _ _ Hi)) as Hcr. rewrite Hc in Hcr.
  pose proof (alloc_table_ok tags t (is_vm _ _ _ Hi)) as Hal. rewrite Ha in Hal.
  destruct Hal as (_ & _ & (_ & [Hr0 _] & _) & _).
  destruct Hcr as [(-> & _)|[Hnn C]]; [unfold PHYS_NULL in Hr0; lia|].
  exists t, tags, r, t1, (<[r := (OUser r, [])]> tags).
  split; [exact Hin|]. split; [exact Hi|]. split; [exact Hc|]. split; [exact Hnn|]. clear Hin. split_and!.
  - by eapply iso_created.
  - unfold is_root. by rewrite lookup_insert_eq.
  - destruct (cr_regs _ _ _ _ C) as (_ & -> & _). intros ->. pose proof (is_kroot _ _ _ Hi) as Hk.
    unfold is_root in Hk. rewrite (cr_none _ _ _ _ C) in Hk. done.
  - lia.
  - intros va [Hva _]. pose proof (user_index va Hva). pose proof (index_range (Z.shiftr va 39)) as Hx.
    fold (PML4_IDX va) in Hx. unfold in_table in Hx. unfold blocked. by rewrite (cr_lower _ _ _ _ C) by lia.
Qed.

(** The same machine, with a page mapped at [0x400000]. *)
Definition demo_va : Z := 0x400000.

Lemma demo_va_user : user_va demo_va.
Proof. by split. Qed.

Lemma flags7_ok : flags_ok 7.
Proof. by split. Qed.

(** Allocating a page succeeds when nothing is in the way and four frames are free. *)
Lemma alloc_page_succeeds tags held t r va :
  iso tags held t → is_root tags r → (r =? PHYS_NULL) = false → blocked r va t = false →
  used_pages (frames t) + 4 < total_pages (frames t) →
  is_Some (translate (vmm_alloc_page_into va 7 r t).2 r va).
Proof.
  intros Hi Hr Hz Hb Hlt. unfold vmm_alloc_page_into. destruct (vk_pmm _ _ (is_vm _ _ _ Hi)) as [bm Hbm].
  pose proof (take_plain tags held t Hi) as Htp. pose proof (alloc_used _ _ Hbm) as Hal.
  destruct (pmm_alloc_page (frames t)) as [p ph] eqn:E. destruct Hal as [Hu Hn]. pose proof (alloc_total _ _ _ E) as Htot.
  destruct (Z.eqb_spec p PHYS_NULL) as [->|Hp]; [by destruct Hn; [lia|]|].
  destruct Htp as [[? _]|(_ & _ & Hi2)]; [done|]. set (t2 := set_frames ph t) in *. rewrite Hz. cbn [negb].
  unfold vmm_map_page_into. rewrite Hz.
  pose proof (map_at_cases tags t2 r va p 7 (is_vm _ _ _ Hi2) Hr) as Hm. destruct (map_at r va p 7 t2) as [res t3].
  destruct Hm as [(_ & _ & _ & [Hbl|Hfull])|(-> & g1 & t4 & pt & A & _ & Hw & ->)].
  - change (blocked r va t2) with (blocked r va t) in Hbl. congruence.
  - change (frames t2) with ph in Hfull. lia.
  - cbn [Z.eqb snd]. destruct (is_held _ _ _ Hi2 p ltac:(set_solver)) as (_ & [Hp0 _] & _).
    destruct (set_leaf g1 t4 r va pt (new_entry p 7) (gr_ok _ _ _ _ A)
      (extends_lookup _ _ _ _ (gr_ext _ _ _ _ A) Hr) Hw) as (_ & Htr & _).
    { apply new_entry_u64; lia. }
    rewrite Htr. by rewrite new_entry_present.
Qed.

Lemma demo_page :
  ∃ t r s tags e, init_paging demo_boot = Some t ∧ rtc sys_step (mkSys t ∅ ∅) s ∧ r ∈ spaces s ∧
    iso tags (held s) (vm s) ∧ is_root tags r ∧ r ≠ kernel_pml4_phys (vm s) ∧ translate (vm s) r demo_va = Some e.
Proof.
  destruct demo_space as (t & tags & r & t1 & tags1 & Hin & Hi & Hc & Hnn & Hi1 & Hr & Hk & Hu & Hb).
  exists t, r, (mkSys (vmm_alloc_page_into demo_va 7 r t1).2 ∅ {[r]}).
  assert (Hinv : ∀ s, rtc sys_step (mkSys t ∅ ∅) s → sys_inv s).
  { intros s. exact (sys_reach_inv _ _ _ _ demo_booted Hin). }
  enough (H : ∃ tags e, rtc sys_step (mkSys t ∅ ∅) (mkSys (vmm_alloc_page_into demo_va 7 r t1).2 ∅ {[r]}) ∧
    iso tags ∅ (vmm_alloc_page_into demo_va 7 r t1).2 ∧ is_root tags r ∧
    r ≠ kernel_pml4_phys (vmm_alloc_page_into demo_va 7 r t1).2 ∧
    translate (vmm_alloc_page_into demo_va 7 r t1).2 r demo_va = Some e).
  { destruct H as (tags2 & e & H1 & H2). exists tags2, e. split; [exact Hin|]. split; [exact H1|].
    split; [cbn [spaces]; apply elem_of_singleton_2; reflexivity|]. exact H2. }
  clear Hin. assert (Hz : (r =? PHYS_NULL) = false) by (by apply Z.eqb_neq).
  destruct (alloc_page_succeeds tags1 ∅ t1 r demo_va Hi1 Hr Hz (Hb _ demo_va_user) ltac:(lia)) as [e He].
  assert (Hst : rtc sys_step (mkSys t ∅ ∅) (mkSys (vmm_alloc_page_into demo_va 7 r t1).2 ∅ {[r]})).
  { apply rtc_l with (mkSys t1 ∅ {[r]}).
    - pose proof (st_create (mkSys t ∅ ∅) r t1 Hc) as H1. cbn [vm held spaces] in H1.
      by rewrite Hz, right_id_L in H1 by apply _.
    - apply rtc_once. exact (st_alloc (mkSys t1 ∅ {[r]}) demo_va 7 r (elem_of_singleton_2 r r eq_refl) flags7_ok). }
  destruct (Hinv _ Hst) as (tags2 & Hi2 & Hk2 & Hr2). cbn [vm held spaces] in *. exists tags2, e.
  split; [exact Hst|]. split; [exact Hi2|]. split; [apply Hr2; right; by apply elem_of_singleton_2|].
  split; [|exact He]. intros Heq. apply Hk2. rewrite <- Heq. by apply elem_of_singleton_2.
Qed.

(** ** Properties *)

(** C2: memory isolation.  In every state the system reaches from the boot tables, two
    different user pages, of one address space or of two, lie in different frames; a mapped
    frame is neither free nor held by kernel code; a store of a program changes no
    translation of any address space; and the kernel half is the same everywhere. *)
Theorem address_spaces_isolated (tags0 : gmap Z tag) (t0 t : vmm) (s : sys)
    (Hboot : booted tags0 t0) (Hinit : init_paging t0 = Some t) (Hreach : rtc sys_step (mkSys t ∅ ∅) s) :
  (∀ r1 r2 va1 va2 e1 e2, r1 ∈ spaces s → r2 ∈ spaces s → user_va va1 → user_va va2 →
     translate (vm s) r1 va1 = Some e1 → translate (vm s) r2 va2 = Some e2 →
     pte_frame e1 = pte_frame e2 → r1 = r2 ∧ va1 / 4096 = va2 / 4096) ∧
  (∀ r va e, r ∈ spaces s → user_va va → translate (vm s) r va = Some e →
     ¬ is_free (frames (vm s)) (pte_frame e / PAGE_SIZE) ∧ pte_frame e ∉ held s) ∧
  (∀ r va i v r' va', r ∈ spaces s → r' ∈ spaces s → user_va va → 0 ≤ v < 2 ^ 64 →
     translate (store r va i v (vm s)) r' va' = translate (vm s) r' va') ∧
  (∀ r va, r ∈ spaces s → 256 ≤ PML4_IDX va →
     translate (vm s) r va = translate (vm s) (kernel_pml4_phys (vm s)) va).
Proof.
  destruct (sys_reach_inv t0 tags0 t s Hboot Hinit Hreach) as (tags & Hi & Hk & Hr).
  pose proof (space_root s tags Hi Hk Hr) as Hroot. split; [|split; [|split]].
  - intros r1 r2 va1 va2 e1 e2 H1 H2 [Hv1 Hs1] [Hv2 Hs2] He1 He2 Hf.
    destruct (Hroot r1 H1) as (Hr1 & Hk1 & _), (Hroot r2 H2) as (Hr2 & Hk2 & _).
    destruct (translate_user tags _ _ r1 va1 e1 Hi Hr1 Hk1 Hv1 Hs1 He1) as (pt1 & Ht1 & Hu1 & Hrd1).
    destruct (translate_user tags _ _ r2 va2 e2 Hi Hr2 Hk2 Hv2 Hs2 He2) as (pt2 & Ht2 & Hu2 & Hrd2).
    rewrite <- Hrd1, <- Hrd2 in Hf. destruct (is_once _ _ _ Hi pt1 _ pt2 _ Hu1 Hu2 Hf) as [-> Hix].
    apply place_inj; [done..|]. rewrite !place_user by (by apply user_index). rewrite Ht1 in Ht2. unfold indices.
    injection Ht2 as -> -> -> ->. by rewrite Hix.
  - intros r va e H1 [Hv Hs] He. destruct (Hroot r H1) as (Hr1 & Hk1 & _).
    destruct (translate_user tags _ _ r va e Hi Hr1 Hk1 Hv Hs He) as (pt & _ & Hu & <-).
    destruct (is_data _ _ _ Hi pt _ Hu) as [(_ & _ & _ & ?) ?]. done.
  - intros r va i v r' va' H1 H2 Hva Hv. destruct (Hroot r H1) as (Hr1 & Hk1 & _), (Hroot r' H2) as (Hr2 & _).
    apply (trans_same tags); [apply Hi|done|]. by apply (store_iso tags (held s)).
  - intros r va H1 Hva. destruct (Hroot r H1) as (Hr1 & _).
    apply (kernel_half_ok tags (held s)); try done. apply Hi.
Qed.

(** C14: forking an address space ([vmm_clone_user_as]).  The parent and every other address
    space translate as before, and pages in use keep their contents.  If a child is
    returned, each of its user pages is a frame of its own that was free, with the flags
    and the contents of the parent's page, and it has no others; otherwise there is no new
    address space. *)
Theorem clone_address_space_spec (tags : gmap Z tag) (hs : gset Z) (t : vmm) (parent : Z)
    (Hi : iso tags hs t) (Hp : is_root tags parent) (Hk : parent ≠ kernel_pml4_phys t) :
  let '(child, t') := vmm_clone_user_as parent t in
  ∃ tags', iso tags' hs t' ∧ undisturbed tags t t' ∧
    ((child = PHYS_NULL ∧ ∀ r, is_root tags' r ↔ is_root tags r) ∨
     (child ≠ PHYS_NULL ∧ ¬ is_root tags child ∧ (∀ r, is_root tags' r ↔ r = child ∨ is_root tags r) ∧
      ∀ va, 0 ≤ va < 2 ^ 47 → page_copied t parent child t' va)).
Proof. exact (clone_ok tags hs t parent Hi Hp Hk). Qed.

(** C15: destroying an address space ([vmm_destroy_address_space]).  Every page mapped in its
    user half outside the window for shared memory and every table of that half goes back
    to the allocator, with the root if asked, and nothing else does; every other address
    space translates as before and what remains is isolated. *)
Theorem destroy_address_space_spec (tags : gmap Z tag) (hs : gset Z) (t : vmm) (r : Z) (free_pml4 : bool)
    (Hi : iso tags hs t) (Hr : is_root tags r) (Hk : r ≠ kernel_pml4_phys t) :
  ∃ tags', iso tags' hs (vmm_destroy_address_space r free_pml4 t) ∧
    (∀ f g, tags' !! f = Some g ↔ tags !! f = Some g ∧ left_over free_pml4 r f g) ∧
    (∀ root va, is_root tags root → root ≠ r →
       translate (vmm_destroy_address_space r free_pml4 t) root va = translate t root va) ∧
    (∀ va, user_va va → translate (vmm_destroy_address_space r free_pml4 t) r va = None) ∧
    (∀ va e, user_va va → translate t r va = Some e →
       is_free (frames (vmm_destroy_address_space r free_pml4 t)) (pte_frame e / PAGE_SIZE)) ∧
    (∀ f ix, tags !! f = Some (OUser r, ix) → ix ≠ [] ∨ free_pml4 = true →
       is_free (frames (vmm_destroy_address_space r free_pml4 t)) (f / PAGE_SIZE)) ∧
    (∀ j, is_free (frames (vmm_destroy_address_space r free_pml4 t)) j → is_free (frames t) j ∨
       (∃ f ix, tags !! f = Some (OUser r, ix) ∧ j = f / PAGE_SIZE) ∨
       (∃ pt ix i, owned_entry tags t r pt ix i ∧ j = pte_frame (rd t pt i) / PAGE_SIZE)).
Proof.
  destruct (destroy_ok r free_pml4 tags t (is_vm _ _ _ Hi) Hr (iso_data _ _ _ _ Hi Hk) Hk) as [tags' D].
  set (t' := vmm_destroy_address_space r free_pml4 t) in *. clearbody t'. exists tags'.
  split; [by apply (iso_destroyed r free_pml4 tags hs t)|]. split; [apply D|].
  split; [intros root va Hro Hne; apply (ds_trans _ _ _ _ _ _ D); auto|]. split; [|split; [|split; [|apply D]]].
  - intros va [Hva _]. pose proof (user_index va Hva). pose proof (index_range (Z.shiftr va 39)) as Hx.
    fold (PML4_IDX va) in Hx. unfold in_table in Hx. unfold translate, indices. cbn [trans].
    by rewrite (ds_lower _ _ _ _ _ _ D) by lia.
  - intros va e [Hva Hs] He.
    destruct (translate_user tags hs t r va e Hi Hr Hk Hva Hs He) as (pt & Hpt & Hu & <-).
    destruct (is_data _ _ _ Hi pt _ Hu) as [(_ & _ & Hpg & _) _]. destruct Hu as (r' & ix & _ & Ho).
    pose proof Ho as (Hpt' & _). rewrite Hpt in Hpt'. injection Hpt' as <- <-. by apply (ds_pages _ _ _ _ _ _ D _ _ _ Ho).
  - intros f ix Hf [Hix|Hfp]; [by apply (ds_tables _ _ _ _ _ _ D f ix)|].
    destruct (decide (ix = [])) as [->|Hix]; [|by apply (ds_tables _ _ _ _ _ _ D f ix)].
    pose proof (vk_root _ _ (is_vm _ _ _ Hi) f _ Hf) as He. injection He as ->.
    apply (ds_root _ _ _ _ _ _ D Hfp). by apply (is_roots _ _ _ Hi).
Qed.

(** Mapping a page ([vmm_map_page_into]).  On success the page translates to the new
    entry and every other page of every address space translates as before; a failure
    changes no translation, and happens only if a huge page is in the way or at most three
    frames were free. *)
Theorem map_page_spec (tags : gmap Z tag) (t : vmm) (root va paddr flags : Z)
    (Hok : vm_ok tags t) (Hr : is_root tags root) (Hpa : 0 ≤ paddr) (Hfl : 0 ≤ flags < 2 ^ 64)
    (Hpr : present flags = true) :
  let '(r, t') := vmm_map_page_into va paddr flags root t in
  ∃ tags', extends tags tags' ∧ vm_ok tags' t' ∧ same_regs t t' ∧
    ((r = 1 ∧ page_set tags t t' root va (Some (new_entry paddr flags))) ∨
     (r = 0 ∧ same_trans tags t t' ∧
      (blocked root va t = true ∨ total_pages (frames t) ≤ used_pages (frames t) + 3))).
Proof.
  unfold vmm_map_page_into. destruct (vk_frame _ _ Hok root _ Hr) as [[Hr0 _] _].
  destruct (Z.eqb_spec root PHYS_NULL) as [->|_]; [unfold PHYS_NULL in Hr0; lia|]. by apply map_at_ok.
Qed.

(** Unmapping a page ([vmm_unmap_page_from]).  The frame of the page is returned, the page
    no longer translates and every other page does as before; if nothing is mapped the
    result is [PHYS_NULL] and nothing changes. *)
Theorem unmap_page_spec (tags : gmap Z tag) (t : vmm) (root va : Z)
    (Hok : vm_ok tags t) (Hr : is_root tags root) :
  let '(f, t') := vmm_unmap_page_from va root t in
  vm_ok tags t' ∧
  match translate t root va with
  | None => f = PHYS_NULL ∧ t' = t
  | Some e => f = pte_frame e ∧ page_set tags t t' root va None
  end.
Proof.
  unfold vmm_unmap_page_from, root_or_kernel. destruct (vk_frame _ _ Hok root _ Hr) as [[Hr0 _] _].
  destruct (Z.eqb_spec root PHYS_NULL) as [->|_]; [unfold PHYS_NULL in Hr0; lia|].
  exact (edit_page_ok tags t root va (λ _, 0) PHYS_NULL pte_frame Hok Hr ltac:(lia)).
Qed.

(** Changing the protection of a page ([vmm_protect_page_into]).  The frame stays, the
    flags below bit 12 become the new ones and no other page changes; but the execute
    disable bit is kept if the old entry had it, whatever the new flags say. *)
Theorem protect_page_spec (tags : gmap Z tag) (t : vmm) (root va flags : Z)
    (Hok : vm_ok tags t) (Hr : is_root tags root) (Hfl : flags_ok flags) (Hpr : present flags = true) :
  let '(res, t') := vmm_protect_page_into va flags root t in
  vm_ok tags t' ∧
  match translate t root va with
  | None => res = 0 ∧ t' = t
  | Some e => res = 1 ∧ ∃ e', page_set tags t t' root va (Some e') ∧ pte_frame e' = pte_frame e ∧
      e' mod 4096 = flags mod 4096 ∧ Z.testbit e' 63 = Z.testbit e 63 || Z.testbit flags 63
  end.
Proof.
  unfold vmm_protect_page_into, root_or_kernel. destruct (vk_frame _ _ Hok root _ Hr) as [[Hr0 _] _].
  destruct (Z.eqb_spec root PHYS_NULL) as [->|_]; [unfold PHYS_NULL in Hr0; lia|].
  pose proof (edit_page_ok tags t root va (λ e, new_entry e flags) 0 (λ _, 1) Hok Hr
    ltac:(intros e He; apply new_entry_u64; [lia|apply Hfl])) as He. cbv beta in He.
  unfold new_entry in He at 1.
  destruct (match walk_pt root va t with
    | None => (0, t)
    | Some pt => let e := rd t pt (PT_IDX va) in
        if negb (present e) then (0, t) else (1, wr pt (PT_IDX va) (Z.lor (Z.land e PAGE_MASK) flags) t)
    end) as [res t']. destruct He as [Hok' He]. split; [done|].
  destruct (translate t root va) as [e|]; [|done]. destruct He as [-> He]. split; [done|].
  rewrite new_entry_present in He by done. exists (new_entry e flags). split; [done|]. unfold new_entry.
  split; [by rewrite pte_frame_lor, pte_frame_mask, (proj2 Hfl), Z.lor_0_r|].
  assert (Hm : ∀ x, x mod 4096 = Z.land x (Z.ones 12)) by (intros x; by rewrite Z.land_ones).
  split; [|by rewrite Z.lor_spec, Z.land_spec, andb_true_r].
  rewrite !Hm, Z.land_lor_distr_l, <- Z.land_assoc. change (Z.land PAGE_MASK (Z.ones 12)) with 0.
  by rewrite Z.land_0_r, Z.lor_0_l.
Qed.

(** Creating an address space ([vmm_create_address_space]).  The new root was a free
    frame, nothing is mapped in its user half, its kernel half is that of the kernel, and
    every existing address space translates as before; [PHYS_NULL] is returned only when no
    frame is left. *)
Theorem create_address_space_spec (tags : gmap Z tag) (hs : gset Z) (t : vmm) (Hi : iso tags hs t) :
  let '(p, t') := vmm_create_address_space t in
  (p = PHYS_NULL ∧ same_trans tags t t' ∧ exhausted t') ∨
  (p ≠ PHYS_NULL ∧ is_free (frames t) (p / PAGE_SIZE) ∧ iso (<[p := (OUser p, [])]> tags) hs t' ∧
   same_trans tags t t' ∧ (∀ va, PML4_IDX va < 256 → translate t' p va = None) ∧
   ∀ va, 256 ≤ PML4_IDX va → translate t' p va = translate t (kernel_pml4_phys t) va).
Proof.
  pose proof (create_ok tags t (is_vm _ _ _ Hi) (is_kroot _ _ _ Hi) (is_current _ _ _ Hi)) as Hc.
  destruct (vmm_create_address_space t) as [p t']. destruct Hc as [(-> & A & He)|[Hnn C]]; [left|right].
  { split_and!; [done|apply A|done]. }
  pose proof (iso_created _ _ _ _ _ Hi C) as Hi'. split_and!; try done.
  - apply C.
  - intros root va Hr. by apply (created_trans tags t p t' root va (is_vm _ _ _ Hi) C).
  - intros va Hva. by apply (created_lower tags t p t').
  - intros va Hva. rewrite (kernel_half_ok _ hs t' p (kernel_pml4_phys t) va Hi'); [| | |done].
    + apply (created_trans tags t p t'); [apply Hi|done|apply Hi].
    + unfold is_root. by rewrite lookup_insert_eq.
    + apply (created_roots tags t p t'); [done|right; apply Hi].
Qed.

(** ** The properties at the concrete machine *)
Lemma address_spaces_isolated_witness :
  ∃ t s r e, init_paging demo_boot = Some t ∧ rtc sys_step (mkSys t ∅ ∅) s ∧ r ∈ spaces s ∧
    translate (vm s) r demo_va = Some e ∧ ¬ is_free (frames (vm s)) (pte_frame e / PAGE_SIZE) ∧ pte_frame e ∉ held s.
Proof.
  destruct demo_page as (t & r & s & tags & e & Hin & Hst & Hr & _ & _ & _ & He).
  exists t, s, r, e. split; [exact Hin|]. split; [exact Hst|]. split; [exact Hr|]. split; [exact He|].
  exact (proj1 (proj2 (address_spaces_isolated _ _ t s demo_booted Hin Hst)) r demo_va e Hr demo_va_user He).
Defined.

Lemma clone_address_space_spec_witness :
  ∃ t parent e, translate t parent demo_va = Some e ∧
    ((vmm_clone_user_as parent t).1 = PHYS_NULL ∨
     ∀ va, 0 ≤ va < 2 ^ 47 →
       page_copied t parent (vmm_clone_user_as parent t).1 (vmm_clone_user_as parent t).2 va).
Proof.
  destruct demo_page as (t & r & s & tags & e & _ & _ & _ & Hi & Hr & Hk & He).
  exists (vm s), r, e. pose proof (clone_address_space_spec tags (held s) (vm s) r Hi Hr Hk) as Hc.
  destruct (vmm_clone_user_as r (vm s)) as [child t'].
  split; [exact He|].
  destruct Hc as (tags' & _ & _ & [[Hn _]|(_ & _ & _ & Hc)]); [left; exact Hn|right; exact Hc].
Defined.

Lemma destroy_address_space_spec_witness :
  ∃ t r e, translate t r demo_va = Some e ∧
    is_free (frames (vmm_destroy_address_space r true t)) (pte_frame e / PAGE_SIZE).
Proof.
  destruct demo_page as (t & r & s & tags & e & _ & _ & _ & Hi & Hr & Hk & He). exists (vm s), r, e.
  split; [exact He|].
  destruct (destroy_address_space_spec tags (held s) (vm s) r true Hi Hr Hk) as (tags' & _ & _ & _ & _ & Hp & _).
  exact (Hp demo_va e demo_va_user He).
Defined.

Lemma map_page_spec_witness :
  ∃ t r, (vmm_map_page_into demo_va 0x4900000 7 r t).1 = 1 ∧
    translate (vmm_map_page_into demo_va 0x4900000 7 r t).2 r demo_va = Some 0x4900007.
Proof.
  destruct demo_space as (_ & _ & r & t1 & tags1 & _ & _ & _ & _ & Hi & Hr & _ & Hu & Hb). exists t1, r.
  pose proof (map_page_spec tags1 t1 r demo_va 0x4900000 7 (is_vm _ _ _ Hi) Hr ltac:(lia) ltac:(lia) eq_refl) as Hm.
  destruct (vmm_map_page_into demo_va 0x4900000 7 r t1) as [res t'].
  destruct Hm as (tags' & _ & _ & _ & [(Hres & Hset & _)|(_ & _ & [Hbl|Hfull])]); [split; assumption| |lia].
  rewrite (Hb _ demo_va_user) in Hbl. discriminate Hbl.
Defined.

Lemma unmap_page_spec_witness :
  ∃ t r e, translate t r demo_va = Some e ∧ (vmm_unmap_page_from demo_va r t).1 = pte_frame e ∧
    translate (vmm_unmap_page_from demo_va r t).2 r demo_va = None.
Proof.
  destruct demo_page as (t & r & s & tags & e & _ & _ & _ & Hi & Hr & Hk & He). exists (vm s), r, e.
  pose proof (unmap_page_spec tags (vm s) r demo_va (is_vm _ _ _ Hi) Hr) as Hm.
  destruct (vmm_unmap_page_from demo_va r (vm s)) as [f t']. rewrite He in Hm.
  destruct Hm as (_ & Hf & Hset & _). split; [exact He|]. split; [exact Hf|exact Hset].
Defined.

Lemma protect_page_spec_witness :
  ∃ t r e e', translate t r demo_va = Some e ∧
    translate (vmm_protect_page_into demo_va 5 r t).2 r demo_va = Some e' ∧
    pte_frame e' = pte_frame e ∧ e' mod 4096 = 5.
Proof.
  destruct demo_page as (t & r & s & tags & e & _ & _ & _ & Hi & Hr & Hk & He). exists (vm s), r, e.
  pose proof (protect_page_spec tags (vm s) r demo_va 5 (is_vm _ _ _ Hi) Hr ltac:(by split) eq_refl) as Hm.
  destruct (vmm_protect_page_into demo_va 5 r (vm s)) as [res t']. rewrite He in Hm.
  destruct Hm as (_ & _ & e' & (Hset & _) & Hf & Hm & _). exists e'. auto.
Defined.

Lemma create_address_space_spec_witness :
  ∃ t, (vmm_create_address_space t).1 ≠ PHYS_NULL ∧
    translate (vmm_create_address_space t).2 (vmm_create_address_space t).1 demo_va = None.
Proof.
  destruct demo_space as (t & tags & r & t1 & _ & _ & Hi & Hc & Hnn & _). exists t.
  pose proof (create_address_space_spec tags ∅ t Hi) as Hcr. rewrite Hc in Hcr |- *.
  destruct Hcr as [(H0 & _)|(_ & _ & _ & _ & Hl & _)]; [destruct (Hnn H0)|]. split; [exact Hnn|].
  apply Hl, user_index. exact (proj1 demo_va_user).
Defined.
