(* ===== verification/PagingKept.v ===== *)
(** Pages that work on other pages leaves alone (operations in [Paging]): a set [W] of
    addresses is watched, in every address space, and an operation on a page at another
    place keeps their translations.  Used for the window of shared surfaces and for the
    heaps of programs. *)

From S2P Require Import Prelude Bitmap Pmm Paging PagingSpec PagingDestroy PagingIso PagingClone PagingSys.

(** Mapping a page elsewhere, whatever the flags. *)
Lemma map_at_other tags t root va paddr flags r' va' :
  vm_ok tags t → is_root tags root → is_root tags r' → 0 ≤ paddr → 0 ≤ flags < 2 ^ 64 → place r' va' ≠ place root va →
  translate (map_at root va paddr flags t).2 r' va' = translate t r' va'.
Proof.
  intros Hok Hr Hr' Hpa Hfl Hne. pose proof (map_at_cases tags t root va paddr flags Hok Hr) as Hm.
  destruct (map_at root va paddr flags t) as [res t'].
  destruct Hm as [(_ & (g1 & A) & _)|(_ & g1 & t1 & pt & A & _ & Hw & ->)]; [by apply (gr_trans _ _ _ _ A)|].
  cbn [snd]. destruct (set_leaf g1 t1 root va pt (new_entry paddr flags) (gr_ok _ _ _ _ A)
    (extends_lookup _ _ _ _ (gr_ext _ _ _ _ A) Hr) Hw (new_entry_u64 _ _ Hpa Hfl)) as (_ & _ & Hot).
  rewrite Hot; [by apply (gr_trans _ _ _ _ A)|by apply (extends_lookup _ _ _ _ (gr_ext _ _ _ _ A))|done].
Qed.

(** Taking a frame and mapping it elsewhere. *)
Lemma alloc_map_other tags held t root va flags r' va' :
  iso tags held t → is_root tags root → is_root tags r' → flags_ok flags → place r' va' ≠ place root va →
  let '(p, ph) := pmm_alloc_page (frames t) in
  translate (set_frames ph t) r' va' = translate t r' va' ∧
  (p ≠ PHYS_NULL → translate (map_at root va p flags (set_frames ph t)).2 r' va' = translate t r' va').
Proof.
  intros Hi Hr Hr' Hfl Hne. pose proof (take_plain tags held t Hi) as Hp. destruct (pmm_alloc_page (frames t)) as [p ph].
  split; [done|]. intros Hnn. destruct Hp as [[? _]|(_ & _ & Hi2)]; [done|].
  destruct (is_held _ _ _ Hi2 p ltac:(set_solver)) as (_ & [Hp0 _] & _).
  rewrite (map_at_other tags); try done; [apply Hi2|lia|apply Hfl].
Qed.

(** Editing an entry elsewhere. *)
Lemma edit_other tags t root va (edit : Z → Z) r' va' :
  vm_ok tags t → is_root tags root → is_root tags r' → (∀ e, 0 ≤ e < 2 ^ 64 → 0 ≤ edit e < 2 ^ 64) → place r' va' ≠ place root va →
  match walk_pt root va t with
  | None => True
  | Some pt => translate (wr pt (PT_IDX va) (edit (rd t pt (PT_IDX va))) t) r' va' = translate t r' va'
  end.
Proof.
  intros Hok Hr Hr' Hed Hne. destruct (walk_pt root va t) as [pt|] eqn:Hw; [|done].
  destruct (set_leaf tags t root va pt (edit (rd t pt (PT_IDX va))) Hok Hr Hw) as (_ & _ & Hot); [apply Hed, (vk_word _ _ Hok)|].
  by apply Hot.
Qed.

Definition kept_on (W : Z → Prop) (s : PagingSys.sys) t' : Prop :=
  ∀ r a, r ∈ spaces s → W a → translate t' r a = translate (vm s) r a.

Section Kept.
Context (W : Z → Prop) (HW : ∀ a, W a → 0 ≤ a < 2 ^ 47).
Context (s : PagingSys.sys) (tags : gmap Z tag) (Hi : iso tags (held s) (vm s)) (Hk : kernel_pml4_phys (vm s) ∉ spaces s)
  (Hr : ∀ r, is_root tags r ↔ r = kernel_pml4_phys (vm s) ∨ r ∈ spaces s).

(** The page [va] below [root] is not watched. *)
Definition off (root va : Z) : Prop := ∀ r a, r ∈ spaces s → W a → place r a ≠ place root va.

Let root_of r : r ∈ spaces s → is_root tags r.
Proof. intros H. apply Hr. by right. Qed.

Lemma off_user root va : 0 ≤ va < 2 ^ 47 → (∀ a, W a → a / 4096 ≠ va / 4096) → off root va.
Proof. intros Hva Hn r a _ Ha He. apply place_inj in He as [_ He]; [by apply (Hn a)|by apply HW|done]. Qed.

Lemma off_kernel va : off (kernel_pml4_phys (vm s)) va.
Proof.
  intros r a Hs Ha He. rewrite (place_user r a) in He by (by apply user_index, HW).
  destruct (Z.lt_ge_cases (PML4_IDX va) 256); [rewrite place_user in He by done|rewrite place_kernel in He by lia]; by simplify_eq.
Qed.

Lemma map_kept root va f flags :
  is_root tags root → off root va → 0 ≤ f → 0 ≤ flags < 2 ^ 64 → kept_on W s (map_at root va f flags (vm s)).2.
Proof.
  intros Hrr Hoff Hf Hfl r a Hs Ha. apply (map_at_other tags); try done; [apply Hi|by apply root_of|by apply Hoff].
Qed.

Lemma alloc_kept root va flags :
  is_root tags root → flags_ok flags → off root va →
  let '(p, ph) := pmm_alloc_page (frames (vm s)) in
  kept_on W s (if p =? PHYS_NULL then set_frames ph (vm s) else
    let '(ok, t) := map_at root va p flags (set_frames ph (vm s)) in if ok =? 0 then free_frame p t else t).
Proof.
  intros Hro Hfl Hoff. destruct (pmm_alloc_page (frames (vm s))) as [p ph] eqn:E. intros r a Hs Ha.
  pose proof (alloc_map_other tags (held s) (vm s) root va flags r a Hi Hro (root_of r Hs) Hfl (Hoff r a Hs Ha)) as Hal.
  rewrite E in Hal. destruct Hal as [H1 H2]. destruct (Z.eqb_spec p PHYS_NULL) as [|Hnn]; [done|]. specialize (H2 Hnn).
  destruct (map_at root va p flags (set_frames ph (vm s))) as [ok t]. cbn [snd] in H2. by destruct (ok =? 0).
Qed.

Lemma map_into_kept va f flags r :
  r ∈ spaces s → off r va → 0 ≤ f → 0 ≤ flags < 2 ^ 64 → kept_on W s (vmm_map_page_into va f flags r (vm s)).2.
Proof.
  intros Hs Hoff Hf Hfl. destruct (space_root s tags Hi Hk Hr r Hs) as (Hrr & _ & Hz). unfold vmm_map_page_into. rewrite Hz.
  by apply map_kept.
Qed.

Lemma alloc_into_kept va flags r :
  r ∈ spaces s → off r va → flags_ok flags → kept_on W s (vmm_alloc_page_into va flags r (vm s)).2.
Proof.
  intros Hs Hoff Hfl. destruct (space_root s tags Hi Hk Hr r Hs) as (Hrr & _ & Hz).
  pose proof (alloc_kept r va flags Hrr Hfl Hoff) as Ha. unfold vmm_alloc_page_into, vmm_map_page_into.
  destruct (pmm_alloc_page (frames (vm s))) as [p ph]. rewrite Hz. cbn [negb]. destruct (p =? PHYS_NULL); [done|].
  destruct (map_at r va p flags (set_frames ph (vm s))) as [ok t]. by destruct (ok =? 0).
Qed.

Lemma kernel_map_kept va f flags : 0 ≤ f → 0 ≤ flags < 2 ^ 64 → kept_on W s (vmm_map_page_kernel va f flags (vm s)).2.
Proof.
  intros Hf Hfl. destruct (kernel_root s tags Hi) as (Hrr & Hz). unfold vmm_map_page_kernel, vmm_map_page_into. rewrite Hz.
  apply map_kept; try done. apply off_kernel.
Qed.

Lemma kernel_alloc_kept va flags : flags_ok flags → kept_on W s (vmm_alloc_page_kernel va flags (vm s)).2.
Proof.
  intros Hfl. destruct (kernel_root s tags Hi) as (Hrr & Hz). pose proof (alloc_kept _ va flags Hrr Hfl (off_kernel va)) as Ha.
  unfold vmm_alloc_page_kernel, vmm_map_page_kernel, vmm_map_page_into.
  destruct (pmm_alloc_page (frames (vm s))) as [p ph]. change (kernel_pml4_phys (set_frames ph (vm s))) with (kernel_pml4_phys (vm s)).
  rewrite Hz. destruct (p =? PHYS_NULL); [done|].
  destruct (map_at (kernel_pml4_phys (vm s)) va p flags (set_frames ph (vm s))) as [ok t]. by destruct (ok =? 0).
Qed.

Lemma edit_kept {A} root va (edit : Z → Z) (miss : A) (hit : Z → A) :
  is_root tags root → (∀ e, 0 ≤ e < 2 ^ 64 → 0 ≤ edit e < 2 ^ 64) → off root va →
  kept_on W s (match walk_pt root va (vm s) with
    | None => (miss, vm s)
    | Some pt => let e := rd (vm s) pt (PT_IDX va) in
        if negb (present e) then (miss, vm s) else (hit e, wr pt (PT_IDX va) (edit e) (vm s))
    end).2.
Proof.
  intros Hrr Hed Hoff r a Hs Ha. destruct (walk_pt root va (vm s)) as [pt|] eqn:Hp; [|done]. cbv zeta.
  destruct (negb (present _)); [done|].
  pose proof (edit_other tags (vm s) root va edit r a (is_vm _ _ _ Hi) Hrr (root_of r Hs) Hed (Hoff r a Hs Ha)) as He.
  by rewrite Hp in He.
Qed.

Lemma unmap_from_kept va r : r ∈ spaces s → off r va → kept_on W s (vmm_unmap_page_from va r (vm s)).2.
Proof.
  intros Hs Hoff. destruct (space_root s tags Hi Hk Hr r Hs) as (Hrr & _ & Hz). unfold vmm_unmap_page_from, root_or_kernel. rewrite Hz.
  by apply (edit_kept r va (λ _, 0)).
Qed.

Lemma protect_kept va flags r :
  r ∈ spaces s → off r va → flags_ok flags → kept_on W s (vmm_protect_page_into va flags r (vm s)).2.
Proof.
  intros Hs Hoff [Hfl _]. destruct (space_root s tags Hi Hk Hr r Hs) as (Hrr & _ & Hz).
  unfold vmm_protect_page_into, root_or_kernel. rewrite Hz.
  apply (edit_kept r va (λ e, new_entry e flags) 0 (λ _, 1)); try done. intros e He. apply new_entry_u64; [lia|done].
Qed.

Lemma kernel_unmap_kept va : kept_on W s (vmm_unmap_page va (vm s)).2.
Proof.
  destruct (kernel_root s tags Hi) as (Hrr & Hz). unfold vmm_unmap_page. rewrite (is_current _ _ _ Hi).
  apply (edit_kept _ va (λ _, 0) 0 (λ _, 1)); try done. apply off_kernel.
Qed.

Lemma switch_kept r : kept_on W s (vmm_switch_pml4 r (vm s)).
Proof. intros r' a _ _. unfold vmm_switch_pml4. by destruct (r =? PHYS_NULL). Qed.

Lemma store_kept r va i v : r ∈ spaces s → user_va va → 0 ≤ v < 2 ^ 64 → kept_on W s (store r va i v (vm s)).
Proof.
  intros Hs Hva Hv r' a Hs' _. destruct (space_root s tags Hi Hk Hr r Hs) as (Hrr & Hne & Hz).
  apply (trans_same tags); [apply Hi|by apply root_of|]. by apply (store_iso tags (held s)).
Qed.
End Kept.
