(* ===== verification/UserCopy.v ===== *)
(** [kernel/proc/usercopy.c]: the checks and copies at the border between programs and the
    kernel.

    The processor is modelled as far as these functions rest on it: a byte access goes
    through the tables [cr3] points to, an address without a translation faults, and so
    does a write through an entry that is not writable (the kernel runs with [CR0.WP]
    set).  A fault in these functions ends in a kernel panic, which is the result [None].
    The window for user accesses (SMAP) is not modelled.

    The check is exact: it accepts a range of a program if and only if every byte of it is
    below the limit and has a translation.  It does not look at the writable bit, so
    [copy_to_user] faults on a read-only page, which is stated as a property. *)

From S2P Require Import Prelude Bitmap Pmm Paging PagingSpec PagingDestroy PagingIso PagingClone PagingSys.

Definition UC_USER_VA_MAX : Z := 0x800000000000.
Definition UC_MAX_RANGE : Z := 64 * 1024 * 1024.

(** ** Memory accesses of the processor *)
Definition ADDR_MASK (n : Z) : Z := Z.ldiff (Z.ones 52) (Z.ones n).

(** The physical address of a byte, and whether it may be written. *)
Definition mmu (root va : Z) t : option (Z * bool) :=
  let e4 := rd t root (PML4_IDX va) in
  if negb (present e4) || huge e4 then None else
  let e3 := rd t (next_table e4) (PDPT_IDX va) in
  if negb (present e3) then None else
  let w := writable e4 && writable e3 in
  if huge e3 then Some (Z.land e3 (ADDR_MASK 30) + va mod 2 ^ 30, w) else
  let e2 := rd t (next_table e3) (PD_IDX va) in
  if negb (present e2) then None else
  let w := w && writable e2 in
  if huge e2 then Some (Z.land e2 (ADDR_MASK 21) + va mod 2 ^ 21, w) else
  let e1 := rd t (next_table e2) (PT_IDX va) in
  if negb (present e1) then None else
  Some (Z.land e1 (ADDR_MASK 12) + va mod 2 ^ 12, w && writable e1).

(** Bytes of physical memory: byte [pa mod 8] of a word. *)
Definition get_byte t (pa : Z) : Z :=
  u8 (Z.shiftr (rd t (pa / 4096 * 4096) (pa mod 4096 / 8)) (8 * (pa mod 8))).

Definition set_byte (pa b : Z) t : vmm :=
  let w := rd t (pa / 4096 * 4096) (pa mod 4096 / 8) in
  let k := 8 * (pa mod 8) in
  wr (pa / 4096 * 4096) (pa mod 4096 / 8)
    (Z.lor (Z.ldiff w (Z.shiftl 0xFF k)) (Z.shiftl (u8 b) k)) t.

(** The byte at an address of an address space. *)
Definition byte_at (root va : Z) t : option Z :=
  match mmu root va t with None => None | Some (pa, _) => Some (get_byte t pa) end.

Definition load (va : Z) t : option Z := byte_at (vmm_read_cr3 t) va t.

Definition store_byte (va b : Z) t : option vmm :=
  match mmu (vmm_read_cr3 t) va t with
  | Some (pa, true) => Some (set_byte pa b t)
  | _ => None
  end.

(** [memcpy] from and to virtual addresses, byte by byte. *)
Fixpoint read_bytes (n : nat) (va : Z) t : option (list Z) :=
  match n with
  | O => Some []
  | S n => match load va t, read_bytes n (u64 (va + 1)) t with
           | Some b, Some l => Some (b :: l)
           | _, _ => None
           end
  end.

Fixpoint write_bytes (l : list Z) (va : Z) t : option vmm :=
  match l with
  | [] => Some t
  | b :: l => match store_byte va b t with
              | None => None
              | Some t => write_bytes l (u64 (va + 1)) t
              end
  end.

(** ** The functions *)
Record ucopy_ctx := mkCtx { from_user : bool; pml4 : Z }.

(** [tasks] lists the roots of the tasks. *)
Definition ucopy_ctx_init (cs task_id : Z) (tasks : list Z) : ucopy_ctx :=
  mkCtx (Z.land cs 3 =? 3)
    (if (0 <=? task_id) && (task_id <? zlength tasks) then lget tasks task_id else PHYS_NULL).

Definition page_down (a : Z) : Z := Z.land a (u64 (Z.lnot 0xFFF)).

(** The loop over the pages of a range. *)
Fixpoint check_pages (fuel : nat) (p last root : Z) t : Z :=
  match fuel with
  | O => 0
  | S fuel =>
      if paging_is_mapped_into p root t =? 0 then 0 else
      if p =? last then 1 else check_pages fuel (u64 (p + 0x1000)) last root t
  end.

Definition user_range_ok (ctx : ucopy_ctx) (uaddr len : Z) t : Z :=
  if uaddr =? 0 then 0 else
  if len =? 0 then 1 else
  if UC_MAX_RANGE <? len then 0 else
  if u64 (uaddr + len) <? uaddr then 0 else
  if negb (from_user ctx) then 1 else
  if (UC_USER_VA_MAX <=? uaddr) || (u64 (UC_USER_VA_MAX - uaddr) <? len) then 0 else
  let first := page_down uaddr in
  let last := page_down (u64 (u64 (uaddr + len) - 1)) in
  check_pages (Z.to_nat ((last - first) / 0x1000 + 1)) first last (pml4 ctx) t.

(** The status and the bytes copied. *)
Definition copy_from_user (ctx : ucopy_ctx) (usrc len : Z) t : option (Z * list Z) :=
  if user_range_ok ctx usrc len t =? 0 then Some (-1, []) else
  match read_bytes (Z.to_nat len) usrc t with
  | None => None
  | Some l => Some (0, l)
  end.

Definition copy_to_user (ctx : ucopy_ctx) (udst : Z) (ksrc : list Z) t : option (Z * vmm) :=
  if user_range_ok ctx udst (zlength ksrc) t =? 0 then Some (-1, t) else
  match write_bytes ksrc udst t with
  | None => None
  | Some t => Some (0, t)
  end.

(** How the loops of [strncpy_from_user] are left early: at the terminator, at an address
    that is refused, with a fault. *)
Inductive str_exit := StrEnd (i : Z) (kdst : list Z) | StrFail (kdst : list Z) | StrFault.

Definition str_kernel_step (usrc i : Z) t (kdst : list Z) : str_exit + list Z :=
  match load (u64 (usrc + i)) t with
  | None => inl StrFault
  | Some c => if c =? 0 then inl (StrEnd i kdst) else inr (kdst ++ [c])
  end.

Definition str_user_step (ctx : ucopy_ctx) (usrc i : Z) t (s : Z * list Z) : str_exit + (Z * list Z) :=
  let '(checked_page, kdst) := s in
  let addr := u64 (usrc + i) in
  if addr <? usrc then inl (StrFail kdst) else
  let page := page_down addr in
  if negb (page =? checked_page) &&
     ((UC_USER_VA_MAX <=? page) || (paging_is_mapped_into page (pml4 ctx) t =? 0))
  then inl (StrFail kdst) else
  match load addr t with
  | None => inl StrFault
  | Some c => if c =? 0 then inl (StrEnd i kdst) else inr (page, kdst ++ [c])
  end.

(** The result and what was written to [kdst]. *)
Definition strncpy_from_user (ctx : ucopy_ctx) (usrc cap : Z) t : option (Z * list Z) :=
  if (usrc =? 0) || (cap =? 0) then Some (-1, []) else
  let finish r := match r with
    | inl (StrEnd i kdst) => Some (i, kdst ++ [0])
    | inl (StrFail kdst) => Some (-1, kdst)
    | inl StrFault => None
    | inr kdst => Some (cap - 1, kdst ++ [0])
    end in
  if negb (from_user ctx)
  then finish (for_range 0 (cap - 1) (λ i, str_kernel_step usrc i t) [])
  else finish (match for_range 0 (cap - 1) (λ i, str_user_step ctx usrc i t) (1, []) with
               | inl e => inl e
               | inr s => inr s.2
               end).

(** ** The check *)
Lemma mapped_mmu tags t root va :
  vm_ok tags t → is_root tags root → 0 ≤ va < 2 ^ 47 →
  paging_is_mapped_into va root t = if decide (is_Some (mmu root va t)) then 1 else 0.
Proof.
  intros Hok Hr Hva. unfold paging_is_mapped_into, root_or_kernel.
  destruct (vk_frame _ _ Hok root _ Hr) as [[Hr0 _] _].
  destruct (Z.eqb_spec root PHYS_NULL) as [->|_]; [unfold PHYS_NULL in Hr0; lia|].
  unfold walk_is_mapped, mmu. pose proof (user_index va Hva) as H4.
  pose proof (index_range (Z.shiftr va 39)) as Hx. fold (PML4_IDX va) in Hx. unfold in_table in Hx.
  destruct (present (rd t root (PML4_IDX va))) eqn:P4; cbn [negb orb]; [|done].
  destruct (user_top tags t root (PML4_IDX va) Hok Hr ltac:(lia) P4) as [-> _].
  destruct (present (rd t _ (PDPT_IDX va))); cbn [negb]; [|done]. destruct (huge (rd t _ (PDPT_IDX va))); [done|].
  destruct (present (rd t _ (PD_IDX va))); cbn [negb]; [|done]. destruct (huge (rd t _ (PD_IDX va))); [done|].
  by destruct (present (rd t _ (PT_IDX va))).
Qed.

Lemma mmu_page root va va' t :
  va / 4096 = va' / 4096 → is_Some (mmu root va t) ↔ is_Some (mmu root va' t).
Proof.
  intros He. pose proof (same_page va va' He) as Hi. unfold indices in Hi. injection Hi as H4 H3 H2 H1.
  unfold mmu. rewrite H4, H3, H2, H1. by repeat case_match.
Qed.

Lemma page_down_eq a : 0 ≤ a < 2 ^ 64 → page_down a = a / 4096 * 4096.
Proof.
  intros Ha. unfold page_down. change (u64 (Z.lnot 0xFFF)) with PAGE_MASK. by apply next_table_eq.
Qed.

Lemma check_pages_step fuel p last root t :
  check_pages (S fuel) p last root t =
  if paging_is_mapped_into p root t =? 0 then 0 else
  if p =? last then 1 else check_pages fuel (u64 (p + 0x1000)) last root t.
Proof. done. Qed.

(** The loop visits exactly the pages from [p] to [last]. *)
Lemma check_pages_ok tags t root n p :
  vm_ok tags t → is_root tags root → 0 ≤ p → p + Z.of_nat n * 4096 < 2 ^ 47 →
  let r := check_pages (S n) p (p + Z.of_nat n * 4096) root t in
  (r = 1 ∧ ∀ k, 0 ≤ k ≤ Z.of_nat n → is_Some (mmu root (p + k * 4096) t)) ∨
  (r = 0 ∧ ∃ k, 0 ≤ k ≤ Z.of_nat n ∧ mmu root (p + k * 4096) t = None).
Proof.
  intros Hok Hr. revert p. induction n as [|n IH]; intros p Hp Hb; cbv zeta; rewrite check_pages_step.
  - rewrite (mapped_mmu tags) by (done || lia). rewrite Z.add_0_r, Z.eqb_refl.
    destruct (decide (is_Some (mmu root p t))) as [Hm|Hm]; cbn [Z.eqb]; [left|right]; (split; [done|]).
    + intros k Hk. by replace (p + k * 4096) with p by lia.
    + exists 0. split; [lia|]. rewrite Z.add_0_r. by apply eq_None_not_Some.
  - rewrite (mapped_mmu tags) by (done || lia).
    destruct (decide (is_Some (mmu root p t))) as [Hm|Hm]; cbn [Z.eqb].
    2: { right. split; [done|]. exists 0. split; [lia|]. rewrite Z.add_0_r. by apply eq_None_not_Some. }
    destruct (Z.eqb_spec p (p + Z.of_nat (S n) * 4096)) as [?|_]; [lia|]. rewrite u64_id by lia.
    specialize (IH (p + 0x1000) ltac:(lia) ltac:(lia)). cbv zeta in IH.
    replace (p + Z.of_nat (S n) * 4096) with (p + 0x1000 + Z.of_nat n * 4096) by lia.
    destruct IH as [[-> H]|[-> (k & Hk & H)]]; [left|right]; (split; [done|]).
    + intros k Hk. destruct (decide (k = 0)) as [->|]; [by rewrite Z.add_0_r|].
      replace (p + k * 4096) with (p + 0x1000 + (k - 1) * 4096) by lia. apply H. lia.
    + exists (k + 1). split; [lia|]. by replace (p + (k + 1) * 4096) with (p + 0x1000 + k * 4096) by lia.
Qed.

(** What [user_range_ok] promises about a range of a program. *)
Definition range_mapped (root uaddr len : Z) t : Prop :=
  len ≤ UC_MAX_RANGE ∧ uaddr + len ≤ UC_USER_VA_MAX ∧ ∀ a, uaddr ≤ a < uaddr + len → is_Some (mmu root a t).

Lemma pages_cover root uaddr len t :
  0 ≤ uaddr → 0 < len → uaddr + len ≤ UC_USER_VA_MAX →
  let first := uaddr / 4096 * 4096 in let last := (uaddr + len - 1) / 4096 * 4096 in
  (∀ a, uaddr ≤ a < uaddr + len → is_Some (mmu root a t)) ↔
  ∀ k, 0 ≤ k ≤ (last - first) / 4096 → is_Some (mmu root (first + k * 4096) t).
Proof.
  intros Hu Hl Hb first last. unfold UC_USER_VA_MAX in *. split.
  - intros H k Hk. set (a := Z.max uaddr (first + k * 4096)).
    apply (mmu_page root a); [unfold a, first, last in *; zdiv|]. apply H. unfold a, first, last in *. zdiv.
  - intros H a Ha. apply (mmu_page root (first + (a / 4096 - uaddr / 4096) * 4096)); [unfold first; zdiv|].
    apply H. unfold first, last. zdiv.
Qed.

Lemma user_range_ok_ok tags ctx uaddr len t :
  vm_ok tags t → is_root tags (pml4 ctx) → from_user ctx = true → 0 ≤ uaddr < 2 ^ 64 → 0 ≤ len < 2 ^ 64 →
  (user_range_ok ctx uaddr len t = 1 ∧ uaddr ≠ 0 ∧ (len = 0 ∨ range_mapped (pml4 ctx) uaddr len t)) ∨
  (user_range_ok ctx uaddr len t = 0 ∧ (uaddr = 0 ∨ len ≠ 0 ∧ ¬ range_mapped (pml4 ctx) uaddr len t)).
Proof.
  intros Hok Hr Hfu Hu Hl. unfold user_range_ok, range_mapped, UC_MAX_RANGE, UC_USER_VA_MAX. rewrite Hfu. cbn [negb].
  destruct (Z.eqb_spec uaddr 0) as [|Hu0]; [by auto|]. destruct (Z.eqb_spec len 0) as [->|Hl0]; [by auto|].
  destruct (Z.ltb_spec (64 * 1024 * 1024) len) as [|Hmax]; [right; split; [done|right; split; [done|lia]]|].
  destruct (Z.ltb_spec (u64 (uaddr + len)) uaddr) as [Hw|Hw].
  { right. split; [done|]. right. split; [done|]. unfold u64 in Hw. intros (_ & Hb & _).
    rewrite Z.mod_small in Hw by lia. lia. }
  destruct (Z.leb_spec 0x800000000000 uaddr) as [|Hub]; cbn [orb]; [right; split; [done|right; split; [done|lia]]|].
  rewrite u64_id by lia.
  destruct (Z.ltb_spec (0x800000000000 - uaddr) len) as [|Hb]; [right; split; [done|right; split; [done|lia]]|].
  rewrite (u64_id (uaddr + len)), u64_id, !page_down_eq by lia.
  set (first := uaddr / 4096 * 4096). set (last := (uaddr + len - 1) / 4096 * 4096).
  assert (Hfl : first ≤ last ∧ (last - first) mod 4096 = 0 ∧ 0 ≤ first ∧ last < 2 ^ 47) by (unfold first, last; zdiv).
  set (n := Z.to_nat ((last - first) / 0x1000)).
  assert (Hn : last = first + Z.of_nat n * 4096) by (unfold n; zdiv).
  replace (Z.to_nat ((last - first) / 0x1000 + 1)) with (S n) by (unfold n; zdiv).
  pose proof (pages_cover (pml4 ctx) uaddr len t ltac:(lia) ltac:(lia) ltac:(unfold UC_USER_VA_MAX; lia)) as Hc.
  cbv zeta in Hc. fold first last in Hc.
  pose proof (check_pages_ok tags t (pml4 ctx) n first Hok Hr ltac:(lia) ltac:(lia)) as Hp. cbv zeta in Hp.
  rewrite <- Hn in Hp. assert (Hdiv : (last - first) / 4096 = Z.of_nat n) by (unfold n; zdiv). rewrite Hdiv in Hc.
  destruct Hp as [[-> H]|[-> (k & Hk & H)]]; [left|right]; (split; [done|]).
  - split; [done|]. right. split; [lia|]. split; [lia|]. by apply Hc.
  - right. split; [done|]. intros (_ & _ & Hall). apply Hc with (k := k) in Hall; [|done]. rewrite H in Hall. by destruct Hall.
Qed.

(** ** Copying in *)
Lemma read_bytes_ok n va t :
  0 ≤ va → va + Z.of_nat n ≤ 2 ^ 63 → (∀ k, 0 ≤ k < Z.of_nat n → is_Some (load (va + k) t)) →
  ∃ l, read_bytes n va t = Some l ∧ zlength l = Z.of_nat n ∧
    ∀ k, 0 ≤ k < Z.of_nat n → load (va + k) t = Some (lget l k).
Proof.
  revert va. induction n as [|n IH]; intros va Hva Hb Hall; cbn [read_bytes].
  { exists []. split; [done|]. split; [done|]. lia. }
  destruct (Hall 0 ltac:(lia)) as [b Hb0]. rewrite Z.add_0_r in Hb0. rewrite Hb0, u64_id by lia.
  destruct (IH (va + 1) ltac:(lia) ltac:(lia)) as (l & -> & Hl & Hk).
  { intros k Hk. replace (va + 1 + k) with (va + (k + 1)) by lia. apply Hall. lia. }
  exists (b :: l). split; [done|]. unfold zlength in *. split; [cbn [length]; lia|]. intros k Hk'.
  destruct (decide (k = 0)) as [->|Hne]; [by rewrite Z.add_0_r|].
  replace (va + k) with (va + 1 + (k - 1)) by lia. rewrite Hk by lia. f_equal. unfold lget.
  replace (Z.to_nat k) with (S (Z.to_nat (k - 1))) by lia. done.
Qed.

Lemma load_some t va : is_Some (load va t) ↔ is_Some (mmu (vmm_read_cr3 t) va t).
Proof. unfold load, byte_at. by destruct (mmu _ va t) as [[]|]. Qed.

Lemma copy_from_user_ok tags ctx usrc len t :
  vm_ok tags t → is_root tags (pml4 ctx) → vmm_read_cr3 t = pml4 ctx → from_user ctx = true →
  0 ≤ usrc < 2 ^ 64 → 0 ≤ len < 2 ^ 64 →
  (∃ l, copy_from_user ctx usrc len t = Some (0, l) ∧ zlength l = len ∧
     usrc ≠ 0 ∧ (len = 0 ∨ range_mapped (pml4 ctx) usrc len t) ∧ ∀ k, 0 ≤ k < len → load (usrc + k) t = Some (lget l k)) ∨
  (copy_from_user ctx usrc len t = Some (-1, []) ∧ (usrc = 0 ∨ len ≠ 0 ∧ ¬ range_mapped (pml4 ctx) usrc len t)).
Proof.
  intros Hok Hr Hcr Hfu Hu Hl. unfold copy_from_user.
  destruct (user_range_ok_ok tags ctx usrc len t Hok Hr Hfu Hu Hl) as [(-> & Hu0 & Hm)|(-> & Hn)]; cbn [Z.eqb].
  2: { right. split; [done|]. tauto. }
  left. destruct Hm as [->|Hm].
  { exists []. split; [done|]. split; [done|]. split; [done|]. split; [by left|]. lia. }
  pose proof Hm as (_ & Hb & Ha). unfold UC_USER_VA_MAX in Hb.
  destruct (read_bytes_ok (Z.to_nat len) usrc t) as (l & -> & Hll & Hk); [lia..| |].
  - intros k Hk. apply load_some. rewrite Hcr. apply Ha. lia.
  - rewrite Z2Nat.id in * by lia. exists l. repeat (split; [by auto|]). done.
Qed.

(** ** Strings *)
Definition str_bytes (usrc : Z) (kdst : list Z) t : Prop :=
  ∀ k, 0 ≤ k < zlength kdst → load (usrc + k) t = Some (lget kdst k) ∧ lget kdst k ≠ 0.

Lemma str_bytes_snoc usrc kdst t c :
  str_bytes usrc kdst t → load (usrc + zlength kdst) t = Some c → c ≠ 0 → str_bytes usrc (kdst ++ [c]) t.
Proof.
  intros Hs Hc Hc0 k. unfold zlength in *. rewrite length_app. cbn [length]. intros Hk. unfold lget.
  destruct (decide (k = Z.of_nat (length kdst))) as [->|Hne].
  - rewrite list_lookup_middle by lia. done.
  - rewrite lookup_app_l by lia. apply Hs. unfold zlength. lia.
Qed.

(** The string at [usrc] is readable up to [n] bytes. *)
Definition str_reach (root usrc n : Z) t : Prop :=
  ∀ k, 0 ≤ k < n → usrc + k < UC_USER_VA_MAX ∧ is_Some (mmu root (usrc + k) t).

Definition str_loop_exit (root usrc cap : Z) t (e : str_exit) : Prop :=
  match e with
  | StrEnd i kdst => 0 ≤ i < cap - 1 ∧ zlength kdst = i ∧ str_bytes usrc kdst t ∧ load (usrc + i) t = Some 0 ∧ str_reach root usrc (i + 1) t
  | StrFail kdst => zlength kdst < cap - 1 ∧ str_bytes usrc kdst t ∧ ¬ str_reach root usrc (zlength kdst + 1) t
  | StrFault => False
  end.

Definition str_loop_inv (root usrc : Z) t (i : Z) (s : Z * list Z) : Prop :=
  zlength s.2 = i ∧ str_bytes usrc s.2 t ∧ str_reach root usrc i t ∧
  (s.1 = 1 ∨ ∀ a, 0 ≤ a < 2 ^ 64 → page_down a = s.1 → a < UC_USER_VA_MAX ∧ is_Some (mmu root a t)).

Lemma str_user_step_ok tags ctx usrc cap i t s :
  vm_ok tags t → is_root tags (pml4 ctx) → vmm_read_cr3 t = pml4 ctx → 0 ≤ usrc < 2 ^ 64 → cap < 2 ^ 64 →
  0 ≤ i < cap - 1 → str_loop_inv (pml4 ctx) usrc t i s →
  match str_user_step ctx usrc i t s with
  | inl e => str_loop_exit (pml4 ctx) usrc cap t e
  | inr s' => str_loop_inv (pml4 ctx) usrc t (i + 1) s'
  end.
Proof.
  intros Hok Hr Hcr Hu Hcap Hi. destruct s as [cp kdst]. unfold str_loop_inv. cbn [fst snd].
  intros (Hl & Hb & Hreach & Hcp). unfold str_user_step.
  destruct (Z.ltb_spec (u64 (usrc + i)) usrc) as [Hw|Hw].
  { cbn. split; [lia|]. split; [done|]. intros H. destruct (H i ltac:(lia)) as [H' _]. unfold UC_USER_VA_MAX in H'.
    rewrite u64_id in Hw by lia. lia. }
  assert (Ha : usrc + i < 2 ^ 64). { destruct (Z.lt_ge_cases (usrc + i) (2 ^ 64)); [done|]. unfold u64 in Hw. zdiv. }
  rewrite u64_id in * by lia. set (a := usrc + i) in *. rewrite page_down_eq by lia.
  assert (Hok_page : negb (a / 4096 * 4096 =? cp) && ((UC_USER_VA_MAX <=? a / 4096 * 4096)
      || (paging_is_mapped_into (a / 4096 * 4096) (pml4 ctx) t =? 0)) = false ↔
    a < UC_USER_VA_MAX ∧ is_Some (mmu (pml4 ctx) a t)).
  { unfold UC_USER_VA_MAX in *. destruct (Z.eqb_spec (a / 4096 * 4096) cp) as [He|Hne]; cbn [negb andb].
    - split; [intros _|done]. destruct Hcp as [->|Hcp]; [zdiv|]. apply Hcp; [lia|]. by rewrite page_down_eq by lia.
    - destruct (Z.leb_spec 0x800000000000 (a / 4096 * 4096)); cbn [orb]; [split; [done|zdiv]|].
      rewrite (mapped_mmu tags) by (done || zdiv). rewrite (mmu_page _ a (a / 4096 * 4096)) by zdiv.
      destruct (decide (is_Some _)) as [Hm|Hm]; cbn [Z.eqb]; [split; [split; [zdiv|done]|done]|split; [done|tauto]]. }
  destruct (negb (a / 4096 * 4096 =? cp) && _).
  { cbn. split; [lia|]. split; [done|]. intros H. destruct (H i ltac:(lia)) as [H1 H2]. fold a in H1, H2.
    by pose proof (proj2 Hok_page (conj H1 H2)). }
  destruct (proj1 Hok_page eq_refl) as [Hlt Hm].
  assert (Hld : is_Some (load a t)) by (apply load_some; by rewrite Hcr). destruct Hld as [c Hc]. rewrite Hc.
  assert (Hreach' : str_reach (pml4 ctx) usrc (i + 1) t).
  { intros k Hk. destruct (decide (k = i)) as [->|]; [done|]. apply Hreach. lia. }
  destruct (Z.eqb_spec c 0) as [->|Hc0]; [cbn; split_and!; (done || lia)|]. cbn [fst snd]. split_and!.
  - unfold zlength in *. rewrite length_app. cbn [length]. lia.
  - apply str_bytes_snoc; [done| |done]. by rewrite Hl.
  - done.
  - right. intros a' Ha' Hp. rewrite page_down_eq in Hp by lia. unfold UC_USER_VA_MAX in *. split; [zdiv|].
    apply (mmu_page _ a); [zdiv|done].
Qed.

(** The result of [strncpy_from_user] for a program: no fault; the copy stops at the
    terminator or when the buffer is full; a refusal has a reason. *)
Lemma strncpy_from_user_ok tags ctx usrc cap t :
  vm_ok tags t → is_root tags (pml4 ctx) → vmm_read_cr3 t = pml4 ctx → from_user ctx = true →
  0 ≤ usrc < 2 ^ 64 → 0 ≤ cap < 2 ^ 64 →
  ∃ r kdst, strncpy_from_user ctx usrc cap t = Some (r, kdst) ∧
    ((0 ≤ r < cap ∧ ∃ s, kdst = s ++ [0] ∧ zlength s = r ∧ str_bytes usrc s t ∧ str_reach (pml4 ctx) usrc r t ∧
        (r = cap - 1 ∨ load (usrc + r) t = Some 0 ∧ str_reach (pml4 ctx) usrc (r + 1) t)) ∨
     (r = -1 ∧ (usrc = 0 ∨ cap = 0 ∨
        zlength kdst < cap - 1 ∧ str_bytes usrc kdst t ∧ ¬ str_reach (pml4 ctx) usrc (zlength kdst + 1) t))).
Proof.
  intros Hok Hr Hcr Hfu Hu Hcap. unfold strncpy_from_user. rewrite Hfu. cbn [negb].
  destruct (Z.eqb_spec usrc 0) as [|Hu0]; cbn [orb]; [exists (-1), []; split; [done|]; right; tauto|].
  destruct (Z.eqb_spec cap 0) as [|Hc0]; [exists (-1), []; split; [done|]; right; tauto|].
  pose proof (for_range_rule (str_loop_inv (pml4 ctx) usrc t) (str_loop_exit (pml4 ctx) usrc cap t) 0 (cap - 1)
    (λ i, str_user_step ctx usrc i t) (1, [])) as Hl.
  specialize (Hl ltac:(split; [done|split; [intros k Hk; unfold zlength in Hk; cbn [snd length] in Hk; lia|
      split; [intros k Hk; lia|by left]]])
    ltac:(intros j s Hj Hs; apply (str_user_step_ok tags); (done || lia))).
  destruct (for_range 0 (cap - 1) _ (1, [])) as [[i kdst|kdst|]|[cp kdst]]; cbv beta iota in Hl.
  - destruct Hl as (Hi & Hlen & Hb & Hz & Hre).
    exists i, (kdst ++ [0]). split; [done|]. left. split; [lia|]. exists kdst. split_and!; try done; [|by right].
    intros k Hk. apply Hre. lia.
  - destruct Hl as (Hlen & Hb & Hn). exists (-1), kdst. split; [done|]. right. split; [done|]. by do 2 right.
  - done.
  - destruct Hl as (Hlen & Hb & Hre & _). cbn [snd] in *. rewrite Z.max_r in Hre by lia.
    exists (cap - 1), (kdst ++ [0]). split; [done|]. left. split; [lia|]. exists kdst. split; [done|].
    split; [lia|]. auto.
Qed.

(** ** Copying out *)
Lemma rd_word_bits w k b : 0 ≤ k → ∀ n, 0 ≤ n →
  Z.testbit (Z.lor (Z.ldiff w (Z.shiftl 0xFF (8 * k))) (Z.shiftl (u8 b) (8 * k))) n =
  if decide (8 * k ≤ n < 8 * k + 8) then Z.testbit (u8 b) (n - 8 * k) else Z.testbit w n.
Proof.
  intros Hk n Hn. rewrite Z.lor_spec, Z.ldiff_spec, !Z.shiftl_spec by lia. change 0xFF with (Z.ones 8).
  unfold u8. change 256 with (2 ^ 8). rewrite <- (Z.land_ones b 8) by lia. rewrite Z.land_spec.
  destruct (Z.lt_ge_cases (n - 8 * k) 0).
  { rewrite !(Z.testbit_neg_r _ (n - 8 * k)) by lia. rewrite decide_False by lia. cbn. by rewrite andb_true_r, orb_false_r. }
  rewrite Z.testbit_ones_nonneg by lia. destruct (Z.ltb_spec (n - 8 * k) 8).
  - rewrite decide_True by lia. cbn. by rewrite andb_false_r.
  - rewrite decide_False by lia. cbn. by rewrite !andb_true_r, andb_false_r, orb_false_r.
Qed.

Lemma u8_shiftr_bits w k n : 0 ≤ k → 0 ≤ n → Z.testbit (u8 (Z.shiftr w k)) n = if decide (n < 8) then Z.testbit w (n + k) else false.
Proof.
  intros Hk Hn. unfold u8. change 256 with (2 ^ 8). case_decide.
  - by rewrite Z.mod_pow2_bits_low, Z.shiftr_spec by lia.
  - by rewrite Z.mod_pow2_bits_high by lia.
Qed.

Lemma get_set_byte pa b pa' t : get_byte (set_byte pa b t) pa' = if decide (pa' = pa) then u8 b else get_byte t pa'.
Proof.
  unfold get_byte, set_byte. rewrite rd_wr.
  destruct (decide (pa' / 4096 * 4096 = pa / 4096 * 4096 ∧ pa' mod 4096 / 8 = pa mod 4096 / 8)) as [[H1 H2]|Hne].
  2: { rewrite decide_False; [done|]. intros ->. by apply Hne. }
  rewrite H1, H2. set (w := rd t _ _). apply Z.bits_inj'. intros n Hn.
  rewrite u8_shiftr_bits by zdiv. case_decide as Hd.
  - rewrite rd_word_bits by zdiv. destruct (decide (pa' = pa)) as [->|Hne].
    + rewrite decide_True by zdiv. f_equal. lia.
    + rewrite decide_False by zdiv. by rewrite u8_shiftr_bits, decide_True by zdiv.
  - destruct (decide (pa' = pa)).
    + unfold u8. change 256 with (2 ^ 8). by rewrite Z.mod_pow2_bits_high by lia.
    + by rewrite u8_shiftr_bits, decide_False by zdiv.
Qed.

(** The processor's walk depends on the tables only. *)
Lemma mmu_same tags t t' root va :
  vm_ok tags t → is_root tags root → 0 ≤ va < 2 ^ 47 → (∀ f g j, tags !! f = Some g → rd t' f j = rd t f j) →
  mmu root va t' = mmu root va t.
Proof.
  intros Hok Hr Hva Hs. pose proof (user_index va Hva) as H4.
  pose proof (indices_range va) as Hx. unfold indices in Hx. rewrite !Forall_cons in Hx. destruct Hx as (X4 & X3 & X2 & _).
  unfold mmu. rewrite (Hs root _ _ Hr). set (e4 := rd t root _). destruct (present e4) eqn:P4; [|done].
  destruct (user_top tags t root (PML4_IDX va) Hok Hr ltac:(unfold in_table in X4; lia) P4) as [Hh T4]. fold e4 in Hh, T4.
  rewrite Hh. cbn [negb orb]. rewrite (Hs _ _ _ T4). set (e3 := rd t _ (PDPT_IDX va)).
  destruct (present e3) eqn:P3; [|done]. cbn [negb]. destruct (huge e3) eqn:H3; [done|].
  pose proof (vk_link _ _ Hok _ _ _ T4 ltac:(simpl; lia) X3 P3 ltac:(by right)) as T3. fold e3 in T3.
  rewrite (Hs _ _ _ T3). set (e2 := rd t _ (PD_IDX va)). destruct (present e2) eqn:P2; [|done]. cbn [negb].
  destruct (huge e2) eqn:H2; [done|].
  pose proof (vk_link _ _ Hok _ _ _ T3 ltac:(unfold kid; simpl; lia) X2 P2 ltac:(by right)) as T2. fold e2 in T2.
  by rewrite (Hs _ _ _ T2).
Qed.

Section Out.
Context (tags : gmap Z tag) (held : gset Z) (root : Z) (Hr : is_root tags root).

(** A byte in a page of a program. *)
Definition user_byte (r va : Z) t : Prop := user_va va ∧ is_Some (translate t r va).

Lemma mmu_user r va t e :
  iso tags held t → is_root tags r → r ≠ kernel_pml4_phys t → user_va va → translate t r va = Some e →
  mmu r va t = Some (pte_frame e + va mod 4096, writable e).
Proof.
  intros Hi Hr' Hne [Hva Hs] He. destruct (translate_user tags held t r va e Hi Hr' Hne Hva Hs He) as (pt & _ & Hu & Hrd).
  destruct (is_data _ _ _ Hi pt _ Hu) as [Hiu _]. rewrite Hrd in Hiu. pose proof (in_use_small _ _ _ _ Hi Hiu) as Hf.
  assert (Hm : Z.land e (ADDR_MASK 12) = pte_frame e).
  { transitivity (Z.land (pte_frame e) (Z.ones 52)); [|rewrite Z.land_ones by lia; apply Z.mod_small; lia].
    unfold pte_frame. rewrite <- !Z.land_assoc. f_equal. }
  pose proof (user_index va Hva) as H4. pose proof (indices_range va) as Hx. unfold indices in Hx.
  rewrite !Forall_cons in Hx. destruct Hx as (X4 & X3 & X2 & _).
  revert He. unfold translate, indices, mmu. cbn [trans orb].
  destruct (present (rd t r (PML4_IDX va))) eqn:P4; cbn [andb negb orb]; [|done].
  destruct (user_top tags t r (PML4_IDX va) (is_vm _ _ _ Hi) Hr' ltac:(unfold in_table in X4; lia) P4) as [-> T3].
  rewrite (proj1 (is_upper _ _ _ Hi r r [] _ Hr' Hne ltac:(simpl; lia) X4 ltac:(done) P4)).
  destruct (present (rd t _ (PDPT_IDX va))) eqn:P3, (huge (rd t _ (PDPT_IDX va))) eqn:H3; cbn [andb negb]; try done.
  rewrite (proj1 (is_upper _ _ _ Hi _ r _ _ T3 Hne ltac:(simpl; lia) X3 ltac:(done) P3)).
  pose proof (vk_link _ _ (is_vm _ _ _ Hi) _ _ _ T3 ltac:(simpl; lia) X3 P3 ltac:(by right)) as T2.
  rewrite kid_lower in T2 by done.
  destruct (present (rd t _ (PD_IDX va))) eqn:P2, (huge (rd t _ (PD_IDX va))); cbn [andb negb]; try done.
  rewrite (proj1 (is_upper _ _ _ Hi _ r _ _ T2 Hne ltac:(simpl; lia) X2 ltac:(done) P2)).
  destruct (present (rd t _ (PT_IDX va))); [|done]. intros E. injection E as ->. by rewrite Hm.
Qed.

(** Two pages of programs in one frame are the same page, and two bytes with one physical
    address the same byte. *)
Lemma page_once t r va e r' va' e' :
  iso tags held t → is_root tags r → r ≠ kernel_pml4_phys t → user_va va → translate t r va = Some e →
  is_root tags r' → r' ≠ kernel_pml4_phys t → user_va va' → translate t r' va' = Some e' →
  pte_frame e = pte_frame e' → r = r' ∧ va / 4096 = va' / 4096.
Proof.
  intros Hi H1 K1 [Hv1 Hs1] E1 H2 K2 [Hv2 Hs2] E2 Hf.
  destruct (translate_user tags held t r va e Hi H1 K1 Hv1 Hs1 E1) as (p1 & T1 & U1 & R1).
  destruct (translate_user tags held t r' va' e' Hi H2 K2 Hv2 Hs2 E2) as (p2 & T2 & U2 & R2).
  rewrite <- R1, <- R2 in Hf. destruct (is_once _ _ _ Hi p1 _ p2 _ U1 U2 Hf) as [-> Hix].
  rewrite T1 in T2. injection T2 as <- X4 X3 X2. apply place_inj; [done..|].
  rewrite !place_user by (by apply user_index). unfold indices. by rewrite X4, X3, X2, Hix.
Qed.

Lemma byte_once t r va e r' va' e' :
  iso tags held t → is_root tags r → r ≠ kernel_pml4_phys t → user_va va → translate t r va = Some e →
  is_root tags r' → r' ≠ kernel_pml4_phys t → user_va va' → translate t r' va' = Some e' →
  pte_frame e + va mod 4096 = pte_frame e' + va' mod 4096 → r = r' ∧ va = va'.
Proof.
  intros Hi H1 K1 V1 E1 H2 K2 V2 E2 Heq.
  destruct (translate_user tags held t r va e Hi H1 K1 (proj1 V1) (proj2 V1) E1) as (p1 & _ & U1 & R1).
  destruct (translate_user tags held t r' va' e' Hi H2 K2 (proj1 V2) (proj2 V2) E2) as (p2 & _ & U2 & R2).
  destruct (is_data _ _ _ Hi p1 _ U1) as [(_ & [_ F1] & _) _]. destruct (is_data _ _ _ Hi p2 _ U2) as [(_ & [_ F2] & _) _].
  rewrite R1 in F1. rewrite R2 in F2. assert (Hf : pte_frame e = pte_frame e') by zdiv.
  destruct (page_once t r va e r' va' e') as [-> Hp]; try done. rewrite Hf in Heq. split; [done|]. zdiv.
Qed.

(** What a copy to [va, va + zlength l) of [root] leaves behind. *)
Record wrote (va : Z) (l : list Z) t t' : Prop := {
  wt_iso : iso tags held t';
  wt_tables : ∀ f g j, tags !! f = Some g → rd t' f j = rd t f j;
  wt_regs : cr3 t' = cr3 t ∧ kernel_pml4_phys t' = kernel_pml4_phys t ∧ frames t' = frames t;
  wt_bytes : ∀ r' va', is_root tags r' → r' ≠ kernel_pml4_phys t → user_byte r' va' t →
    byte_at r' va' t' =
    if decide (r' = root ∧ va ≤ va' < va + zlength l) then Some (u8 (lget l (va' - va))) else byte_at r' va' t
}.

Lemma word_range w k b : 0 ≤ w < 2 ^ 64 → 0 ≤ k < 8 →
  0 ≤ Z.lor (Z.ldiff w (Z.shiftl 0xFF (8 * k))) (Z.shiftl (u8 b) (8 * k)) < 2 ^ 64.
Proof.
  intros Hw Hk. assert (H0 : 0 ≤ Z.lor (Z.ldiff w (Z.shiftl 0xFF (8 * k))) (Z.shiftl (u8 b) (8 * k))).
  { apply Z.lor_nonneg. split; [apply Z.ldiff_nonneg; lia|]. apply Z.shiftl_nonneg. unfold u8. zdiv. }
  split; [done|]. apply Z.bounded_iff_bits_nonneg; [lia|done|]. intros n Hn. rewrite rd_word_bits by lia.
  rewrite decide_False by lia. apply (Z.bounded_iff_bits_nonneg 64 w); lia.
Qed.

Lemma store_byte_ok va b pa t :
  iso tags held t → root ≠ kernel_pml4_phys t → vmm_read_cr3 t = root → user_byte root va t →
  mmu root va t = Some (pa, true) → ∃ t', store_byte va b t = Some t' ∧ wrote va [b] t t'.
Proof.
  intros Hi Hk Hcr [Hva [e He]] Hm. unfold store_byte. rewrite Hcr, Hm. eexists. split; [done|].
  pose proof (mmu_user root va t e Hi Hr Hk Hva He) as Hm'. rewrite Hm in Hm'. injection Hm' as -> Hwr.
  destruct (translate_user tags held t root va e Hi Hr Hk (proj1 Hva) (proj2 Hva) He) as (pt & _ & Hu & Hrd).
  destruct (is_data _ _ _ Hi pt _ Hu) as [(_ & [_ Hfm] & _) _]. rewrite Hrd in Hfm.
  assert (Hst : ∃ i v, 0 ≤ v < 2 ^ 64 ∧ set_byte (pte_frame e + va mod 4096) b t = store root va i v t).
  { unfold set_byte, store. rewrite He. replace ((pte_frame e + va mod 4096) / 4096 * 4096) with (pte_frame e) by zdiv.
    eexists _, _. split; [|reflexivity]. apply word_range; [apply (vk_word _ _ (is_vm _ _ _ Hi))|zdiv]. }
  destruct Hst as (i & v & Hv & Hst). destruct (store_iso tags held t root va i v Hi Hr Hk Hva Hv) as [Hi' Hs].
  rewrite <- Hst in Hi', Hs. constructor; [done|done|done|]. intros r' va' Hr' Hk' [Hva' [e' He']]. unfold byte_at.
  rewrite (mmu_same tags t) by (done || apply Hi || apply Hva').
  rewrite (mmu_user r' va' t e' Hi Hr' Hk' Hva' He'), get_set_byte. unfold zlength. cbn [length].
  destruct (decide (pte_frame e' + va' mod 4096 = pte_frame e + va mod 4096)) as [Heq|Hne].
  - destruct (byte_once t r' va' e' root va e) as [-> ->]; try done. rewrite decide_True by lia. by rewrite Z.sub_diag.
  - rewrite decide_False; [done|]. intros [-> H]. apply Hne. replace va' with va in * by lia. congruence.
Qed.

Lemma wrote_refl va t : iso tags held t → wrote va [] t t.
Proof.
  intros Hi. constructor; try done. intros r' va' _ _ _. rewrite decide_False; [done|]. unfold zlength. cbn [length]. lia.
Qed.

Lemma wrote_user va l t t' r' va' :
  iso tags held t → wrote va l t t' → is_root tags r' → user_byte r' va' t →
  user_byte r' va' t' ∧ mmu r' va' t' = mmu r' va' t.
Proof.
  intros Hi W Hr' [Hva He]. split.
  - split; [done|]. by rewrite (trans_same tags t t' r' va' (is_vm _ _ _ Hi) Hr' (wt_tables _ _ _ _ W)).
  - apply (mmu_same tags); [apply Hi|done|apply Hva|apply W].
Qed.

Lemma wrote_cons va b l t t1 t2 :
  iso tags held t → wrote va [b] t t1 → wrote (va + 1) l t1 t2 → wrote va (b :: l) t t2.
Proof.
  intros Hi W1 W2. destruct (wt_regs _ _ _ _ W1) as (A1 & A2 & A3), (wt_regs _ _ _ _ W2) as (B1 & B2 & B3).
  constructor.
  - apply W2.
  - intros f g j Hf. rewrite (wt_tables _ _ _ _ W2 f g) by done. by apply (wt_tables _ _ _ _ W1 f g).
  - by rewrite B1, B2, B3.
  - intros r' va' Hr' Hk Hu. destruct (wrote_user _ _ _ _ r' va' Hi W1 Hr' Hu) as [Hu1 _].
    rewrite (wt_bytes _ _ _ _ W2) by (done || by rewrite A2). rewrite (wt_bytes _ _ _ _ W1) by done.
    unfold zlength, lget. cbn [length]. destruct (decide (r' = root)) as [->|Hne].
    2: { by rewrite !decide_False by tauto. }
    destruct (decide (va' = va)) as [->|Hv].
    + rewrite decide_False by lia. rewrite !decide_True by lia. by rewrite Z.sub_diag.
    + destruct (decide (va + 1 ≤ va' < va + 1 + Z.of_nat (length l))).
      * rewrite !decide_True by lia. replace (Z.to_nat (va' - va)) with (S (Z.to_nat (va' - (va + 1)))) by lia. done.
      * by rewrite !decide_False by lia.
Qed.

(** All bytes are writable and written, or the processor faults. *)
Lemma write_bytes_ok l va t :
  iso tags held t → root ≠ kernel_pml4_phys t → vmm_read_cr3 t = root → 0 ≤ va → va + zlength l ≤ 2 ^ 63 →
  (∀ a, va ≤ a < va + zlength l → user_byte root a t) →
  (∃ t', write_bytes l va t = Some t' ∧ wrote va l t t' ∧
     ∀ a, va ≤ a < va + zlength l → ∃ pa, mmu root a t = Some (pa, true)) ∨
  (write_bytes l va t = None ∧ ∃ a pa, va ≤ a < va + zlength l ∧ mmu root a t = Some (pa, false)).
Proof.
  revert va t. induction l as [|b l IH]; intros va t Hi Hk Hcr Hva Hb Hall; cbn [write_bytes].
  { left. exists t. split; [done|]. split; [by apply wrote_refl|]. unfold zlength. cbn [length]. lia. }
  unfold zlength in *. cbn [length] in *. pose proof (Hall va ltac:(lia)) as Hu. pose proof Hu as [Hv [e He]].
  pose proof (mmu_user root va t e Hi Hr Hk Hv He) as Hm. destruct (writable e).
  2: { right. unfold store_byte. rewrite Hcr, Hm. split; [done|]. exists va. eexists. split; [lia|done]. }
  destruct (store_byte_ok va b _ t Hi Hk Hcr Hu Hm) as (t1 & -> & W).
  destruct (wt_regs _ _ _ _ W) as (A1 & A2 & _). rewrite u64_id by lia.
  assert (Hkeep : ∀ a, va ≤ a < va + Z.of_nat (S (length l)) → user_byte root a t1 ∧ mmu root a t1 = mmu root a t).
  { intros a Ha. apply (wrote_user va [b] t t1); try done. by apply Hall. }
  destruct (IH (va + 1) t1) as [(t2 & -> & W2 & Hw)|(-> & a & pa & Ha & Hf)];
    [apply W|by rewrite A2|unfold vmm_read_cr3; by rewrite A1|lia|lia|intros a Ha; apply Hkeep; lia|left|right].
  - exists t2. split; [done|]. split; [by eapply wrote_cons|]. intros a Ha. destruct (decide (a = va)) as [->|]; [eauto|].
    destruct (Hw a ltac:(lia)) as [pa Hpa]. exists pa. by rewrite (proj2 (Hkeep a ltac:(lia))) in Hpa.
  - split; [done|]. exists a, pa. split; [lia|]. by rewrite (proj2 (Hkeep a ltac:(lia))) in Hf.
Qed.

Lemma user_range_mapped udst len t :
  iso tags held t → root ≠ kernel_pml4_phys t → 0 < len ≤ UC_MAX_RANGE →
  (∀ a, udst ≤ a < udst + len → user_byte root a t) → range_mapped root udst len t.
Proof.
  intros Hi Hk Hl Hall. split; [lia|]. split.
  - destruct (Hall (udst + len - 1) ltac:(lia)) as [[Hv _] _]. unfold UC_USER_VA_MAX. lia.
  - intros a Ha. destruct (Hall a Ha) as [Hv [e He]]. by rewrite (mmu_user root a t e Hi Hr Hk Hv He).
Qed.

Lemma lget_map (f : Z → Z) l l' :
  zlength l = zlength l' → (∀ k, 0 ≤ k < zlength l' → lget l k = f (lget l' k)) → l = f <$> l'.
Proof.
  unfold zlength. intros Hl Hk. apply list_eq_same_length with (length l'); [by rewrite length_fmap|lia|].
  intros i x y Hi Hx Hy. apply list_lookup_fmap_Some in Hy as (z & -> & Hz). specialize (Hk (Z.of_nat i) ltac:(lia)).
  unfold lget in Hk. rewrite Nat2Z.id, Hx, Hz in Hk. done.
Qed.

(** What was written is read back. *)
Lemma wrote_back ctx udst ksrc t t' :
  iso tags held t → pml4 ctx = root → root ≠ kernel_pml4_phys t → vmm_read_cr3 t = root → from_user ctx = true →
  0 < udst < 2 ^ 64 → zlength ksrc ≤ UC_MAX_RANGE → (∀ a, udst ≤ a < udst + zlength ksrc → user_byte root a t) →
  wrote udst ksrc t t' → copy_from_user ctx udst (zlength ksrc) t' = Some (0, u8 <$> ksrc).
Proof.
  intros Hi Hctx Hk Hcr Hfu Hu Hmax Hall W. destruct (wt_regs _ _ _ _ W) as (A1 & A2 & _).
  assert (Hcr' : vmm_read_cr3 t' = root) by (unfold vmm_read_cr3; by rewrite A1).
  assert (Hlen : 0 ≤ zlength ksrc < 2 ^ 64) by (unfold zlength, UC_MAX_RANGE in *; lia).
  destruct (copy_from_user_ok tags ctx udst (zlength ksrc) t' (is_vm _ _ _ (wt_iso _ _ _ _ W))
    ltac:(by rewrite Hctx) ltac:(by rewrite Hctx) Hfu ltac:(lia) Hlen) as [(l & -> & Hl & _ & _ & Hb)|(_ & [?|[Hn Hm]])].
  - do 2 f_equal. apply lget_map; [done|]. intros k Hk'. specialize (Hb k Hk'). unfold load in Hb. rewrite Hcr' in Hb.
    rewrite (wt_bytes _ _ _ _ W) in Hb by (done || apply Hall; lia). rewrite decide_True in Hb by lia.
    injection Hb as <-. by replace (udst + k - udst) with k by lia.
  - lia.
  - destruct Hm. rewrite Hctx. apply user_range_mapped; [apply W|by rewrite A2|lia|].
    intros a Ha. apply (wrote_user udst ksrc t t'); try done. by apply Hall.
Qed.
End Out.

(** The concrete machine of [PagingSys], with the new address space in use. *)
Lemma demo_user :
  ∃ t r tags hs pa, iso tags hs t ∧ is_root tags r ∧ r ≠ kernel_pml4_phys t ∧ vmm_read_cr3 t = r ∧
    user_byte r demo_va t ∧ mmu r demo_va t = Some (pa, true).
Proof.
  destruct demo_space as (t & tags & r & t1 & tags1 & _ & Hi & Hc & Hnn & Hi1 & Hr & Hk & Hu & Hb).
  pose proof (create_ok tags t (is_vm _ _ _ Hi) (is_kroot _ _ _ Hi) (is_current _ _ _ Hi)) as C. rewrite Hc in C.
  destruct C as [(? & _)|[_ C]]; [done|]. clear Hc. assert (Hv : 0 ≤ demo_va < 2 ^ 47) by apply demo_va_user.
  destruct (vk_pmm _ _ (is_vm _ _ _ Hi1)) as [bm Hbm]. pose proof (alloc_used _ _ Hbm) as Hal.
  pose proof (take_plain tags1 ∅ t1 Hi1) as Hp. destruct (pmm_alloc_page (frames t1)) as [p ph] eqn:E.
  pose proof (alloc_total _ _ _ E) as Htot. destruct Hal as [Hu1 Hn].
  destruct Hp as [[-> _]|(Hp & _ & Hi2)]; [by destruct Hn; [lia|]|]. set (t2 := set_frames ph t1) in *.
  assert (Hpm : p ∈ ({[p]} ∪ ∅ : gset Z)) by set_solver.
  pose proof (map_held tags1 _ t2 r demo_va p 7 Hi2 Hr Hpm flags7_ok) as Hm.
  pose proof (map_at_cases tags1 t2 r demo_va p 7 (is_vm _ _ _ Hi2) Hr) as Hc.
  destruct (map_at r demo_va p 7 t2) as [res t3] eqn:Em.
  destruct Hc as [(_ & _ & _ & [Hbl|Hfull])|(Hres & _)].
  { change (blocked r demo_va t2) with (blocked r demo_va t1) in Hbl. rewrite (Hb _ demo_va_user) in Hbl. done. }
  { change (frames t2) with ph in Hfull. lia. }
  destruct Hm as [[? _]|(_ & tags3 & t4 & pt & A & _ & Hw & Ht3 & Hi3)]; [lia|].
  pose proof (extends_lookup _ _ _ _ (gr_ext _ _ _ _ A) Hr) as Hr3. subst res.
  assert (Htr : translate t3 r demo_va = Some (new_entry p 7)).
  { rewrite Ht3. destruct (is_held _ _ _ Hi2 p Hpm) as (_ & [Hp0 _] & _).
    destruct (set_leaf tags3 t4 r demo_va pt (new_entry p 7) (gr_ok _ _ _ _ A) Hr3 Hw) as (_ & Htr & _).
    { apply new_entry_u64; lia. }
    rewrite Htr. by rewrite new_entry_present. }
  assert (Hk3 : r ≠ kernel_pml4_phys t3).
  { rewrite Ht3. change (r ≠ kernel_pml4_phys t4). rewrite (proj1 (proj2 (gr_regs _ _ _ _ A))). exact Hk. }
  pose proof (mmu_user tags3 _ r demo_va t3 _ Hi3 Hr3 Hk3 demo_va_user Htr) as Hmm.
  assert (Hwr : writable (new_entry p 7) = true) by (unfold writable, new_entry; rewrite Z.lor_spec; apply orb_true_r).
  rewrite Hwr in Hmm. eexists (set_cr3 r t3), r, tags3, _, _. split; [apply iso_cr3; exact Hi3|]. split; [exact Hr3|].
  destruct (cr_frame _ _ _ _ C) as ([Hf0 Hfm] & _). split; [exact Hk3|].
  split; [unfold vmm_read_cr3; cbn [cr3 set_cr3]; rewrite next_table_eq by lia; zdiv|].
  split; [|exact Hmm]. split; [exact demo_va_user|]. change (is_Some (translate t3 r demo_va)). by rewrite Htr.
Qed.

(** ** Properties *)

(** Copying in ([user_range_ok], [copy_from_user]).  For a program, the call never
    faults.  It succeeds exactly when the range is empty, or at most 64 MiB long, below the
    limit of the user half and translated at every byte, and then returns the bytes of the
    program's memory; otherwise it copies nothing. *)
Theorem copy_from_user_spec (tags : gmap Z tag) (ctx : ucopy_ctx) (usrc len : Z) (t : vmm)
    (Hok : vm_ok tags t) (Hr : is_root tags (pml4 ctx)) (Hcr : vmm_read_cr3 t = pml4 ctx)
    (Hfu : from_user ctx = true) (Hu : 0 ≤ usrc < 2 ^ 64) (Hl : 0 ≤ len < 2 ^ 64) :
  (∃ l, copy_from_user ctx usrc len t = Some (0, l) ∧ zlength l = len ∧ usrc ≠ 0 ∧
     (len = 0 ∨ range_mapped (pml4 ctx) usrc len t) ∧ ∀ k, 0 ≤ k < len → load (usrc + k) t = Some (lget l k)) ∨
  (copy_from_user ctx usrc len t = Some (-1, []) ∧
     (usrc = 0 ∨ len ≠ 0 ∧ ¬ range_mapped (pml4 ctx) usrc len t)).
Proof. by apply (copy_from_user_ok tags). Qed.

(** C21: copying out ([copy_to_user]).  A range that is not mapped is refused and nothing
    changes.  A range of user pages that are all writable is written: the bytes read back
    are the bytes copied, and no other byte of any program, no table, no register and no
    frame of the allocator changes.  If a page of the range is read-only, the kernel
    faults: the check does not look at the writable bit. *)
Theorem copy_to_user_spec (tags : gmap Z tag) (hs : gset Z) (ctx : ucopy_ctx) (udst : Z) (ksrc : list Z) (t : vmm)
    (Hi : iso tags hs t) (Hr : is_root tags (pml4 ctx)) (Hk : pml4 ctx ≠ kernel_pml4_phys t)
    (Hcr : vmm_read_cr3 t = pml4 ctx) (Hfu : from_user ctx = true) (Hu : 0 < udst < 2 ^ 64)
    (Hl : zlength ksrc < 2 ^ 64) :
  (ksrc ≠ [] → ¬ range_mapped (pml4 ctx) udst (zlength ksrc) t → copy_to_user ctx udst ksrc t = Some (-1, t)) ∧
  (zlength ksrc ≤ UC_MAX_RANGE → (∀ a, udst ≤ a < udst + zlength ksrc → user_byte (pml4 ctx) a t) →
   (∃ t', copy_to_user ctx udst ksrc t = Some (0, t') ∧ wrote tags hs (pml4 ctx) udst ksrc t t' ∧
      copy_from_user ctx udst (zlength ksrc) t' = Some (0, u8 <$> ksrc) ∧
      ∀ a, udst ≤ a < udst + zlength ksrc → ∃ pa, mmu (pml4 ctx) a t = Some (pa, true)) ∨
   (copy_to_user ctx udst ksrc t = None ∧
      ∃ a pa, udst ≤ a < udst + zlength ksrc ∧ mmu (pml4 ctx) a t = Some (pa, false))).
Proof.
  unfold copy_to_user. assert (Hln : 0 ≤ zlength ksrc < 2 ^ 64) by (unfold zlength in *; lia).
  destruct (user_range_ok_ok tags ctx udst (zlength ksrc) t (is_vm _ _ _ Hi) Hr Hfu ltac:(lia) Hln)
    as [(-> & _ & Hm)|(-> & Hn)]; cbn [Z.eqb]; (split; [|intros Hmax Hall]).
  - intros Hne Hnm. destruct Hm as [Hz|Hm]; [|done]. by destruct ksrc.
  - assert (Hback : ∀ t', wrote tags hs (pml4 ctx) udst ksrc t t' →
      copy_from_user ctx udst (zlength ksrc) t' = Some (0, u8 <$> ksrc)).
    { intros t' W. by apply (wrote_back tags hs (pml4 ctx) Hr ctx udst ksrc t t'). }
    destruct Hm as [Hz|(_ & Hb & _)].
    { destruct ksrc; [|done]. pose proof (wrote_refl tags hs (pml4 ctx) udst t Hi) as W. left. exists t.
      split; [done|]. split; [done|]. split; [by apply Hback|]. lia. }
    unfold UC_USER_VA_MAX in Hb.
    destruct (write_bytes_ok tags hs (pml4 ctx) Hr ksrc udst t Hi Hk Hcr ltac:(lia) ltac:(lia) Hall) as
      [(t' & -> & W & Hw)|(-> & Hf)]; [left|by right].
    exists t'. split; [done|]. split; [done|]. split; [by apply Hback|done].
  - done.
  - destruct Hn as [?|[Hn Hm]]; [lia|]. destruct Hm. apply (user_range_mapped tags hs (pml4 ctx) Hr); try done. lia.
Qed.

(** Copying a string in ([strncpy_from_user]).  For a program, the call never faults.
    It returns the length of what it copied, with a terminator behind it: the string of the
    program up to its terminator, or the first [cap - 1] bytes if there is none among them.
    It fails only for a null pointer, an empty buffer, or when the string runs into an
    address that is not a mapped address of the user half. *)
Theorem strncpy_from_user_spec (tags : gmap Z tag) (ctx : ucopy_ctx) (usrc cap : Z) (t : vmm)
    (Hok : vm_ok tags t) (Hr : is_root tags (pml4 ctx)) (Hcr : vmm_read_cr3 t = pml4 ctx)
    (Hfu : from_user ctx = true) (Hu : 0 ≤ usrc < 2 ^ 64) (Hcap : 0 ≤ cap < 2 ^ 64) :
  ∃ r kdst, strncpy_from_user ctx usrc cap t = Some (r, kdst) ∧
    ((0 ≤ r < cap ∧ ∃ s, kdst = s ++ [0] ∧ zlength s = r ∧ str_bytes usrc s t ∧ str_reach (pml4 ctx) usrc r t ∧
        (r = cap - 1 ∨ load (usrc + r) t = Some 0 ∧ str_reach (pml4 ctx) usrc (r + 1) t)) ∨
     (r = -1 ∧ (usrc = 0 ∨ cap = 0 ∨
        zlength kdst < cap - 1 ∧ str_bytes usrc kdst t ∧ ¬ str_reach (pml4 ctx) usrc (zlength kdst + 1) t))).
Proof. by apply (strncpy_from_user_ok tags). Qed.

(** ** The properties at the concrete machine *)
Lemma copy_from_user_spec_witness :
  ∃ t r b, copy_from_user (mkCtx true r) demo_va 1 t = Some (0, [b]) ∧ load demo_va t = Some b.
Proof.
  destruct demo_user as (t & r & tags & hs & pa & Hi & Hr & Hk & Hcr & Hu & Hm). exists t, r.
  assert (Hrg : range_mapped r demo_va 1 t).
  { apply (user_range_mapped tags hs r Hr); [exact Hi|exact Hk|unfold UC_MAX_RANGE; lia|].
    intros a Ha. replace a with demo_va by lia. exact Hu. }
  destruct (copy_from_user_spec tags (mkCtx true r) demo_va 1 t (is_vm _ _ _ Hi) Hr Hcr eq_refl
    ltac:(unfold demo_va; lia) ltac:(lia)) as [(l & Hc & Hl & _ & _ & Hb)|(_ & [H0|[_ Hn]])]; [|discriminate H0|destruct (Hn Hrg)].
  destruct l as [|b [|c l]]; [discriminate Hl| |unfold zlength in Hl; cbn [length] in Hl; lia]. exists b.
  split; [exact Hc|]. exact (Hb 0 ltac:(lia)).
Defined.

Lemma copy_to_user_spec_witness :
  ∃ t r t', copy_to_user (mkCtx true r) demo_va [42] t = Some (0, t') ∧
    copy_from_user (mkCtx true r) demo_va 1 t' = Some (0, [42]).
Proof.
  destruct demo_user as (t & r & tags & hs & pa & Hi & Hr & Hk & Hcr & Hu & Hm). exists t, r.
  destruct (copy_to_user_spec tags hs (mkCtx true r) demo_va [42] t Hi Hr Hk Hcr eq_refl ltac:(unfold demo_va; lia)
    ltac:(vm_compute; reflexivity)) as [_ H].
  destruct (H ltac:(vm_compute; discriminate)) as [(t' & Hc & _ & Hb & _)|(_ & a & pa' & Ha & Hf)].
  - intros a Ha. change (zlength [42]) with 1 in Ha. replace a with demo_va by lia. exact Hu.
  - exists t'. split; [exact Hc|exact Hb].
  - change (zlength [42]) with 1 in Ha. replace a with demo_va in Hf by lia. cbn [pml4] in Hf. rewrite Hm in Hf. discriminate Hf.
Defined.

Lemma strncpy_from_user_spec_witness :
  ∃ t r kdst, strncpy_from_user (mkCtx true r) demo_va 2 t = Some (zlength kdst - 1, kdst) ∧ kdst ≠ [].
Proof.
  destruct demo_user as (t & r & tags & hs & pa & Hi & Hr & Hk & Hcr & Hu & Hm). exists t, r.
  destruct (strncpy_from_user_spec tags (mkCtx true r) demo_va 2 t (is_vm _ _ _ Hi) Hr Hcr eq_refl
    ltac:(unfold demo_va; lia) ltac:(lia)) as (n & kdst & Hc & [(Hn & s & -> & Hs & _)|(_ & [H0|[H0|(H1 & _ & Hn)]])]);
    [|discriminate H0|discriminate H0|].
  - exists (s ++ [0]). split; [|by destruct s]. rewrite Hc. unfold zlength in *. rewrite length_app. cbn [length].
    do 2 f_equal. lia.
  - destruct Hn. intros k Hk'. assert (k = 0) as -> by (unfold zlength in *; lia). rewrite Z.add_0_r. cbn [pml4].
    split; [done|]. rewrite Hm. done.
Defined.
