(* ===== verification/UserMem.v ===== *)
(** What single operations do to the memory that programs see (definitions in [Paging] and
    [UserCopy]): taking and mapping a page, unmapping and freeing it, changing its
    protection and writing bytes.  The loops of the user heap and of the program loader are
    made of them. *)

From S2P Require Import Prelude Bitmap Pmm Paging PagingSpec PagingDestroy PagingIso PagingClone PagingSys UserCopy.

(** The body of the loops that map fresh pages: a frame is taken, mapped and filled with
    zeros through the direct map; it is given back if it cannot be mapped. *)
Definition map_zeroed (vaddr flags root : Z) t : bool * vmm :=
  let '(pa, ph) := pmm_alloc_page (frames t) in
  let t := set_frames ph t in
  if pa =? PHYS_NULL then (false, t) else
  let '(ok, t) := vmm_map_page_into vaddr pa flags root t in
  if ok =? 0 then (false, free_frame pa t) else (true, set_mem (<[pa := ∅]> (mem t)) t).

(** The body of the loops that give pages back. *)
Definition unmap_free (vaddr root : Z) t : vmm :=
  let '(pa, t) := vmm_unmap_page_from vaddr root t in
  if pa =? PHYS_NULL then t else free_owned pa t.

(** ** Changes seen by programs *)

(** [t'] comes from [t] by a change of the pages and bytes in [P], a set of addresses of
    address spaces: isolation is kept, and the rest of every program is as before. *)
Record uedit (P : Z → Z → Prop) (tags : gmap Z tag) (hs : gset Z) t (tags' : gmap Z tag) t' : Prop := {
  ue_iso : iso tags' hs t';
  ue_ext : extends tags tags';
  ue_regs : kernel_pml4_phys t' = kernel_pml4_phys t ∧ cr3 t' = cr3 t;
  ue_total : total_pages (frames t') = total_pages (frames t);
  ue_trans : ∀ r va, is_root tags r → 0 ≤ va < 2 ^ 47 → ¬ P r va → translate t' r va = translate t r va;
  ue_bytes : ∀ r va, is_root tags r → r ≠ kernel_pml4_phys t → user_va va → ¬ P r va →
    is_Some (translate t r va) → byte_at r va t' = byte_at r va t
}.

Lemma uedit_refl P tags hs t : iso tags hs t → uedit P tags hs t tags t.
Proof. intros Hi. by constructor. Qed.

Lemma uedit_weaken (P Q : Z → Z → Prop) tags hs t tags' t' :
  (∀ r va, P r va → Q r va) → uedit P tags hs t tags' t' → uedit Q tags hs t tags' t'.
Proof. intros HPQ [E1 E2 E3 E4 E5 E6]. constructor; try done; auto. Qed.

Lemma uedit_trans P tags1 hs t1 tags2 t2 tags3 t3 :
  uedit P tags1 hs t1 tags2 t2 → uedit P tags2 hs t2 tags3 t3 → uedit P tags1 hs t1 tags3 t3.
Proof.
  intros A B. pose proof (ue_ext _ _ _ _ _ _ A) as [Hx1 Hr1]. pose proof (ue_ext _ _ _ _ _ _ B) as [Hx2 Hr2].
  assert (Hroot : ∀ r, is_root tags1 r → is_root tags2 r) by (intros r; by apply (extends_lookup tags1)).
  pose proof (ue_regs _ _ _ _ _ _ A) as [Hk Hc]. pose proof (ue_regs _ _ _ _ _ _ B) as [Hk2 Hc2]. constructor.
  - apply B.
  - split; [by etrans|auto].
  - by rewrite Hk2, Hc2.
  - rewrite (ue_total _ _ _ _ _ _ B). apply A.
  - intros r va Hr Hva Hn. rewrite (ue_trans _ _ _ _ _ _ B) by auto. by apply (ue_trans _ _ _ _ _ _ A).
  - intros r va Hr Hne Hva Hn Hs. rewrite (ue_bytes _ _ _ _ _ _ B); auto.
    + by apply (ue_bytes _ _ _ _ _ _ A).
    + by rewrite Hk.
    + rewrite (ue_trans _ _ _ _ _ _ A) by (done || apply Hva). done.
Qed.

Lemma uedit_root P tags hs t tags' t' r : uedit P tags hs t tags' t' → is_root tags r → is_root tags' r.
Proof. intros A. apply (extends_lookup _ _ _ _ (ue_ext _ _ _ _ _ _ A)). Qed.

Lemma uedit_kernel P tags hs t tags' t' : uedit P tags hs t tags' t' → kernel_pml4_phys t' = kernel_pml4_phys t.
Proof. intros A. apply (ue_regs _ _ _ _ _ _ A). Qed.

Lemma uedit_cr3 P tags hs t tags' t' : uedit P tags hs t tags' t' → vmm_read_cr3 t' = vmm_read_cr3 t.
Proof. intros A. unfold vmm_read_cr3. by rewrite (proj2 (ue_regs _ _ _ _ _ _ A)). Qed.

(** The page of [root] with the address [va]. *)
Definition on_page (root va r a : Z) : Prop := r = root ∧ a / 4096 = va / 4096.
Definition nowhere (r a : Z) : Prop := False.

Lemma translate_page t root va a : a / 4096 = va / 4096 → translate t root a = translate t root va.
Proof. intros He. unfold translate. by rewrite (same_page a va He). Qed.

Lemma place_page_ne root va r a :
  0 ≤ va < 2 ^ 47 → 0 ≤ a < 2 ^ 47 → ¬ on_page root va r a → place r a ≠ place root va.
Proof. intros Hva Ha Hn He. apply Hn. by apply place_inj. Qed.

Lemma user_va_page va a : a / 4096 = va / 4096 → user_va va → user_va a.
Proof. intros He [Hv Hs]. split; [zdiv|]. by rewrite <- shm_page, He, shm_page. Qed.

(** The bytes of a page are those of its frame. *)
Lemma byte_user tags hs t r va e :
  iso tags hs t → is_root tags r → r ≠ kernel_pml4_phys t → user_va va → translate t r va = Some e →
  byte_at r va t = Some (get_byte t (pte_frame e + va mod 4096)) ∧
  in_use tags t (pte_frame e) ∧ (pte_frame e ∉ hs) ∧
  (pte_frame e + va mod 4096) / 4096 * 4096 = pte_frame e ∧ 0 ≤ va.
Proof.
  intros Hi Hr Hne Hv He. unfold byte_at. rewrite (mmu_user tags hs r va t e Hi Hr Hne Hv He). split; [done|].
  destruct (translate_user tags hs t r va e Hi Hr Hne (proj1 Hv) (proj2 Hv) He) as (pt & _ & Hu & Hrd).
  destruct (is_data _ _ _ Hi pt _ Hu) as [Hiu Hh]. rewrite Hrd in Hiu, Hh. split; [done|]. split; [done|].
  pose proof Hiu as (_ & [_ Hm] & _). split; [zdiv|apply Hv].
Qed.

Lemma get_byte_page t t' f o :
  (f + o) / 4096 * 4096 = f → page_of t' f = page_of t f → get_byte t' (f + o) = get_byte t (f + o).
Proof. intros He Hp. unfold get_byte, rd. by rewrite !He, Hp. Qed.

(** Bytes are as before where the translation and the page are. *)
Lemma bytes_kept tags hs t tags' hs' t' r va :
  iso tags hs t → iso tags' hs' t' → is_root tags r → is_root tags' r → r ≠ kernel_pml4_phys t →
  kernel_pml4_phys t' = kernel_pml4_phys t → user_va va → is_Some (translate t r va) →
  (∀ e, translate t r va = Some e → ∃ e', translate t' r va = Some e' ∧ pte_frame e' = pte_frame e) →
  (∀ e, translate t r va = Some e → page_of t' (pte_frame e) = page_of t (pte_frame e)) →
  byte_at r va t' = byte_at r va t.
Proof.
  intros Hi Hi' Hr Hr' Hne Hk Hv [e He] Htr Hpg. destruct (Htr e He) as (e' & He' & Hf).
  destruct (byte_user tags hs t r va e Hi Hr Hne Hv He) as (-> & Hu & Hh & Hal & _).
  destruct (byte_user tags' hs' t' r va e' Hi' Hr' ltac:(by rewrite Hk) Hv He') as (-> & _).
  rewrite Hf. f_equal. apply get_byte_page; [done|]. by apply Hpg.
Qed.

Lemma grown_regs tags t tags' t' : grown tags t tags' t' → kernel_pml4_phys t' = kernel_pml4_phys t ∧ cr3 t' = cr3 t.
Proof. intros A. destruct (gr_regs _ _ _ _ A) as (_ & ? & ? & _). done. Qed.

(** A change that leaves the frames in use alone. *)
Lemma uedit_make P tags hs t tags' t' :
  iso tags hs t → iso tags' hs t' → extends tags tags' → kernel_pml4_phys t' = kernel_pml4_phys t ∧ cr3 t' = cr3 t →
  total_pages (frames t') = total_pages (frames t) →
  (∀ r va, is_root tags r → 0 ≤ va < 2 ^ 47 → ¬ P r va → translate t' r va = translate t r va) →
  (∀ r va e, is_root tags r → r ≠ kernel_pml4_phys t → user_va va → ¬ P r va → translate t r va = Some e →
     in_use tags t (pte_frame e) → page_of t' (pte_frame e) = page_of t (pte_frame e)) →
  uedit P tags hs t tags' t'.
Proof.
  intros Hi Hi' Hx Hregs Htot Htr Hpg. constructor; try done. intros r va Hr Hne Hv Hn Hs.
  apply (bytes_kept tags hs t tags' hs t'); try done; [by apply (extends_lookup tags)|apply Hregs| |].
  - intros e He. exists e. split; [|done]. by rewrite Htr by (done || apply Hv).
  - intros e He. apply (Hpg r va); try done. by apply (byte_user tags hs t r va e).
Qed.

(** Giving back a frame of the kernel. *)
Lemma free_frame_ok tags hs t f :
  iso tags hs t → f ∈ hs → iso tags (hs ∖ {[f]}) (free_frame f t) ∧ same_regs t (free_frame f t) ∧
  total_pages (frames (free_frame f t)) = total_pages (frames t).
Proof.
  intros Hi Hf. split; [by apply iso_release|]. split; [done|]. pose proof (is_held _ _ _ Hi f Hf) as Hu.
  rewrite <- (owns_in_use tags hs t f Hi Hu). destruct Hu as (Hn & [Hf0 Hfm] & _).
  apply (free_untagged tags t f (is_vm _ _ _ Hi) ltac:(lia) Hfm Hn).
Qed.

Lemma map_at_used tags t r a p flags :
  vm_ok tags t → is_root tags r → used_pages (frames (map_at r a p flags t).2) ≤ used_pages (frames t) + 3.
Proof.
  intros Hok Hra. unfold map_at. pose proof (reach_pt_ok tags t r a Hok Hra) as He.
  destruct (reach_pt r a t) as [[pt|] t1]; destruct He as (g1 & _ & _ & U & _); cbn [snd frames wr set_mem]; lia.
Qed.

(** The flags of an entry. *)
Lemma pte_flags_land e : pte_flags e = Z.land e (Z.lor (Z.ones 12) PAGING_NX).
Proof. unfold pte_flags. by rewrite Z.land_lor_distr_r. Qed.

Lemma pte_flags_idem e : pte_flags (pte_flags e) = pte_flags e.
Proof. rewrite !pte_flags_land, <- Z.land_assoc. by rewrite Z.land_diag. Qed.

Lemma pte_flags_over e flags : Z.testbit e 63 = false → pte_flags (new_entry e flags) = pte_flags flags.
Proof.
  intros He. unfold new_entry. rewrite !pte_flags_land, Z.land_lor_distr_l, <- Z.land_assoc.
  change (Z.land PAGE_MASK _) with (Z.shiftl 1 63). replace (Z.land e (Z.shiftl 1 63)) with 0; [done|].
  apply Z.bits_inj'. intros n Hn. rewrite Z.bits_0, Z.land_spec. change (Z.shiftl 1 63) with (2 ^ 63).
  rewrite Z.pow2_bits_eqb by lia. destruct (Z.eqb_spec 63 n) as [<-|]; [|by rewrite andb_false_r].
  by rewrite He.
Qed.

Lemma pte_flags_new f flags : 0 ≤ f < 2 ^ 63 → pte_flags (new_entry f flags) = pte_flags flags.
Proof. intros Hf. apply pte_flags_over. by rewrite (proj1 (Z.bounded_iff_bits_nonneg 63 f ltac:(lia) ltac:(lia))) by lia. Qed.

Lemma pte_flags_bit e i : 0 ≤ i < 12 → Z.testbit (pte_flags e) i = Z.testbit e i.
Proof.
  intros Hi. rewrite pte_flags_land, Z.land_spec, Z.lor_spec, Z.ones_spec_low by lia. apply andb_true_r.
Qed.

(** ** Taking and mapping a page *)
Section Ops.
Context (tags : gmap Z tag) (hs : gset Z) (t : vmm) (root va : Z).
Context (Hi : iso tags hs t) (Hr : is_root tags root) (Hne : root ≠ kernel_pml4_phys t) (Hv : user_va va).

Lemma root_not_null : (root =? PHYS_NULL) = false.
Proof. destruct (vk_frame _ _ (is_vm _ _ _ Hi) root _ Hr) as [[Hr0 _] _]. apply Z.eqb_neq. unfold PHYS_NULL. lia. Qed.

(** No huge page is in the way of a program's page. *)
Lemma user_unblocked : blocked root va t = false.
Proof.
  unfold blocked. destruct (present (rd t root (PML4_IDX va))) eqn:P4; [|done]. cbn [andb].
  pose proof (user_index va (proj1 Hv)) as H4. pose proof (indices_range va) as Hx. unfold indices in Hx.
  rewrite !Forall_cons in Hx. destruct Hx as (X4 & X3 & X2 & _).
  destruct (user_top tags t root (PML4_IDX va) (is_vm _ _ _ Hi) Hr ltac:(unfold in_table in X4; lia) P4) as [_ T3].
  set (e3 := rd t _ (PDPT_IDX va)). assert (H3 : huge e3 = false) by exact (is_thin _ _ _ Hi _ root _ _ T3 Hne ltac:(simpl; lia) X3 ltac:(done)).
  rewrite H3. cbn [orb]. destruct (present e3) eqn:P3; [|done]. cbn [andb].
  pose proof (vk_link _ _ (is_vm _ _ _ Hi) _ _ _ T3 ltac:(simpl; lia) X3 P3 ltac:(by right)) as T2.
  rewrite kid_lower in T2 by done. exact (is_thin _ _ _ Hi _ root _ _ T2 Hne ltac:(simpl; lia) X2 ltac:(done)).
Qed.

(** The test whether a page is mapped. *)
Lemma is_mapped_translate : paging_is_mapped_into va root t = cbool (bool_decide (is_Some (translate t root va))).
Proof.
  unfold paging_is_mapped_into, root_or_kernel. rewrite root_not_null. unfold walk_is_mapped, translate, indices. cbn [trans orb].
  pose proof (indices_range va) as Hx. unfold indices in Hx. rewrite !Forall_cons in Hx. destruct Hx as (X4 & X3 & X2 & _).
  pose proof (user_index va (proj1 Hv)) as H4.
  destruct (present (rd t root (PML4_IDX va))) eqn:P4; cbn [negb andb]; [|done].
  destruct (user_top tags t root (PML4_IDX va) (is_vm _ _ _ Hi) Hr ltac:(unfold in_table in X4; lia) P4) as [_ T3].
  destruct (present (rd t _ (PDPT_IDX va))) eqn:P3; cbn [negb andb]; [|done].
  rewrite (is_thin _ _ _ Hi _ root _ _ T3 Hne ltac:(simpl; lia) X3 ltac:(done)). cbn [negb].
  pose proof (vk_link _ _ (is_vm _ _ _ Hi) _ _ _ T3 ltac:(simpl; lia) X3 P3
    ltac:(right; exact (is_thin _ _ _ Hi _ root _ _ T3 Hne ltac:(simpl; lia) X3 ltac:(done)))) as T2.
  rewrite kid_lower in T2 by done. destruct (present (rd t _ (PD_IDX va))) eqn:P2; cbn [negb andb]; [|done].
  rewrite (is_thin _ _ _ Hi _ root _ _ T2 Hne ltac:(simpl; lia) X2 ltac:(done)). cbn [negb].
  by destruct (present (rd t _ (PT_IDX va))).
Qed.

(** The state with one more entry: a page of a program has a new frame. *)
Lemma map_uedit p ph flags res t3 :
  flags_ok flags → present flags = true → pmm_alloc_page (frames t) = (p, ph) → p ≠ PHYS_NULL →
  map_at root va p flags (set_frames ph t) = (res, t3) →
  (res = 0 ∧ total_pages (frames t) ≤ used_pages (frames t) + 4 ∧
     ∃ tags', uedit nowhere tags hs t tags' (free_frame p t3)) ∨
  (res = 1 ∧ used_pages (frames t3) ≤ used_pages (frames t) + 4 ∧ tags !! p = None ∧ is_free (frames t) (p / PAGE_SIZE) ∧
     ∃ tags', uedit (on_page root va) tags hs t tags' t3 ∧ translate t3 root va = Some (new_entry p flags) ∧
       pte_frame (new_entry p flags) = p ∧ pte_flags (new_entry p flags) = pte_flags flags).
Proof.
  intros Hfl Hpr Ha Hnn Hm. pose proof (pmm_take tags t (is_vm _ _ _ Hi)) as Ht. rewrite Ha in Ht.
  destruct Ht as [[? _]|[_ Ht]]; [done|]. destruct (Ht (set_frames ph t)) as [A2 Hfr]; [done..| |].
  { intros j. apply (vk_word _ _ (is_vm _ _ _ Hi) p j). }
  set (t2 := set_frames ph t) in *. destruct (fresh_iso _ _ _ _ _ Hi A2 Hfr) as [Hph Hi2].
  destruct (vk_pmm _ _ (is_vm _ _ _ Hi)) as [bm Hbm]. pose proof (alloc_used _ _ Hbm) as Hu. rewrite Ha in Hu.
  pose proof (map_at_used tags t2 root va p flags (is_vm _ _ _ Hi2) Hr) as Hu3. rewrite Hm in Hu3.
  change (frames t2) with ph in Hu3. cbn [snd] in Hu3.
  pose proof (map_at_cases tags t2 root va p flags (is_vm _ _ _ Hi2) Hr) as Hc. rewrite Hm in Hc.
  pose proof (map_held tags _ t2 root va p flags Hi2 Hr ltac:(set_solver) Hfl) as Hh. rewrite Hm in Hh.
  assert (Hset : ({[p]} ∪ hs) ∖ {[p]} = hs) by set_solver.
  assert (Hkeep : ∀ tags3 t3, grown tags t2 tags3 t3 → ∀ f, in_use tags t f → page_of t3 f = page_of t f).
  { intros tags3 t4 A3 f (Hn & _ & _ & Hnf). by apply (gr_data _ _ _ _ (grown_trans _ _ _ _ _ _ A2 A3)). }
  destruct Hh as [(-> & tags3 & A3 & _ & Hi3)|(-> & tags3 & t4 & pt & A3 & _ & Hw & -> & Hi3)]; [left|right]; (split; [done|]).
  - split.
    { destruct Hc as [(_ & _ & _ & [Hb|Hf])|[? _]]; [|change (frames t2) with ph in Hf; rewrite (alloc_total _ _ _ Ha) in Hf; lia|lia].
      change (blocked root va t2) with (blocked root va t) in Hb. by rewrite user_unblocked in Hb. }
    exists tags3. destruct (free_frame_ok tags3 _ t3 p Hi3 ltac:(set_solver)) as (Hi4 & Hg4 & Ht4). rewrite Hset in Hi4.
    pose proof (grown_trans _ _ _ _ _ _ A2 A3) as A. apply uedit_make; try done; try apply A; [apply (grown_regs _ _ _ _ A)|..].
    + rewrite Ht4. apply A.
    + intros r a Hra _ _. by apply (gr_trans _ _ _ _ A).
    + intros r a e _ _ _ _ _ Hf. by apply (Hkeep tags3 t3).
  - split; [cbn [frames wr set_mem] in *; lia|]. split; [apply Hfr|]. split; [apply Hfr|].
    exists tags3. pose proof (grown_trans _ _ _ _ _ _ A2 A3) as A. rewrite Hset in Hi3.
    pose proof (extends_lookup _ _ _ _ (gr_ext _ _ _ _ A) Hr) as Hr3.
    destruct (is_held _ _ _ Hi2 p ltac:(set_solver)) as (Hpn & [Hp0 Hpm] & Hpp & Hpf).
    pose proof (in_use_small _ _ _ p Hi2 ltac:(by split_and!)) as Hps.
    destruct (set_leaf tags3 t4 root va pt (new_entry p flags) (gr_ok _ _ _ _ A) Hr3 Hw
      (new_entry_u64 p flags ltac:(lia) (proj1 Hfl))) as (_ & Htr & Hot).
    rewrite new_entry_present in Htr by done. split; [|split; [done|split; [by apply new_entry_frame; [lia|..]|apply pte_flags_new; lia]]].
    destruct (walk_pt_tag tags3 t4 root va pt (gr_ok _ _ _ _ A) Hr3 Hw) as (g & Hg & _).
    apply uedit_make; try done; try apply A; [apply (grown_regs _ _ _ _ A)|..].
    + intros r a Hra Hva Hn. rewrite Hot; [by apply (gr_trans _ _ _ _ A)|by apply (extends_lookup tags), Hra; apply A|].
      by apply place_page_ne; [apply Hv|..].
    + intros r a e _ _ _ _ _ Hf. rewrite page_wr; [by apply (Hkeep tags3 t4)|]. intros Heq. rewrite Heq in Hf.
      destruct (grown_in_use _ _ _ _ _ A Hf) as [? _]. congruence.
Qed.

Lemma exhausted_total : exhausted t → total_pages (frames t) ≤ used_pages (frames t) + 4.
Proof. intros He. rewrite (exhausted_used tags t (is_vm _ _ _ Hi) He). lia. Qed.

(** [vmm_alloc_page_into] with a program's page. *)
Lemma alloc_into_ok flags :
  flags_ok flags → present flags = true →
  let '(ok, t') := vmm_alloc_page_into va flags root t in
  (ok = 1 ∧ used_pages (frames t') ≤ used_pages (frames t) + 4 ∧
     ∃ tags' e, uedit (on_page root va) tags hs t tags' t' ∧ translate t' root va = Some e ∧ pte_flags e = pte_flags flags) ∨
  (ok = 0 ∧ total_pages (frames t) ≤ used_pages (frames t) + 4 ∧ ∃ tags', uedit nowhere tags hs t tags' t').
Proof.
  intros Hfl Hpr. unfold vmm_alloc_page_into. destruct (pmm_alloc_page (frames t)) as [p ph] eqn:Ha.
  pose proof (pmm_take tags t (is_vm _ _ _ Hi)) as Ht. rewrite Ha in Ht. destruct (Z.eqb_spec p PHYS_NULL) as [->|Hnn].
  { destruct Ht as [(_ & -> & He)|[? _]]; [|done]. right. split; [done|]. split; [by apply exhausted_total|].
    exists tags. replace (set_frames (frames t) t) with t by (by destruct t). by apply uedit_refl. }
  unfold vmm_map_page_into. rewrite root_not_null. cbn [negb].
  destruct (map_at root va p flags (set_frames ph t)) as [res t3] eqn:Hm.
  destruct (map_uedit p ph flags res t3 Hfl Hpr Ha Hnn Hm) as [(-> & Hf & tags' & E)|(-> & Hf & _ & _ & tags' & E & Htr & _ & Hfg)];
    [right|left]; cbn [Z.eqb]; split_and!; try done; [by exists tags'|by exists tags', (new_entry p flags)].
Qed.

Lemma map_zeroed_ok flags :
  flags_ok flags → present flags = true →
  let '(ok, t') := map_zeroed va flags root t in
  (ok = true ∧ used_pages (frames t') ≤ used_pages (frames t) + 4 ∧
     ∃ tags' e, uedit (on_page root va) tags hs t tags' t' ∧ translate t' root va = Some e ∧ pte_flags e = pte_flags flags ∧
       ∀ a, a / 4096 = va / 4096 → byte_at root a t' = Some 0) ∨
  (ok = false ∧ total_pages (frames t) ≤ used_pages (frames t) + 4 ∧ ∃ tags', uedit nowhere tags hs t tags' t').
Proof.
  intros Hfl Hpr. unfold map_zeroed. destruct (pmm_alloc_page (frames t)) as [p ph] eqn:Ha.
  pose proof (pmm_take tags t (is_vm _ _ _ Hi)) as Ht. rewrite Ha in Ht. destruct (Z.eqb_spec p PHYS_NULL) as [->|Hnn].
  { destruct Ht as [(_ & -> & He)|[? _]]; [|done]. right. split; [done|]. split; [by apply exhausted_total|].
    exists tags. replace (set_frames (frames t) t) with t by (by destruct t). by apply uedit_refl. }
  unfold vmm_map_page_into. rewrite root_not_null.
  destruct (map_at root va p flags (set_frames ph t)) as [res t3] eqn:Hm.
  destruct (map_uedit p ph flags res t3 Hfl Hpr Ha Hnn Hm) as [(-> & Hf & tags' & E)|(-> & Hf & Hpn & Hpf & tags' & E & Htr & Hpe & Hfg)];
    [right|left]; cbn [Z.eqb]; (split; [done|]); (split; [done|]); [by exists tags'|exists tags', (new_entry p flags)].
  pose proof (uedit_root _ _ _ _ _ _ _ E Hr) as Hr3. pose proof (uedit_kernel _ _ _ _ _ _ E) as Hk3.
  destruct (byte_user tags' hs t3 root va _ (ue_iso _ _ _ _ _ _ E) Hr3 ltac:(by rewrite Hk3) Hv Htr) as (_ & Hu3 & _).
  rewrite Hpe in Hu3. set (t4 := set_mem _ t3).
  destruct (fill_iso tags' hs t3 p ∅ (ue_iso _ _ _ _ _ _ E) (proj1 Hu3)) as [Hi4 Hsame]; [done|]. fold t4 in Hi4, Hsame.
  assert (Htr4 : ∀ r a, is_root tags' r → translate t4 r a = translate t3 r a).
  { intros r a Hra. by apply (trans_same tags'); [apply E|..]. }
  assert (Hk4 : kernel_pml4_phys t4 = kernel_pml4_phys t) by exact Hk3.
  split_and!.
  - apply (uedit_trans _ _ _ _ tags' t3); [done|]. apply uedit_make; try done; [apply E|by intros; apply Htr4|].
    intros r a e Hra Hrk Hua Hn He _. unfold page_of, t4. cbn [mem set_mem]. rewrite lookup_insert_ne; [done|].
    intros Heq. apply Hn. rewrite <- Hpe in Heq.
    destruct (page_once tags' hs t3 root va (new_entry p flags) r a e) as [? ?]; try done; [apply E|by rewrite Hk3].
  - by rewrite Htr4.
  - done.
  - intros a Ha'. pose proof (user_va_page va a Ha' Hv) as Hva.
    destruct (byte_user tags' hs t4 root a (new_entry p flags) Hi4 Hr3) as (-> & _ & _ & Hal & _); [by rewrite Hk4|done| |].
    { by rewrite Htr4, (translate_page t3 root va). }
    rewrite Hpe in Hal |- *. unfold get_byte. rewrite Hal. unfold t4. rewrite rd_fill, decide_True by done. by rewrite Z.shiftr_0_l.
Qed.

(** Rewriting the entry of a program's page, where it keeps its frame or none. *)
Lemma leaf_uedit pt v :
  walk_pt root va t = Some pt → 0 ≤ v < 2 ^ 64 → iso tags hs (wr pt (PT_IDX va) v t) →
  uedit (on_page root va) tags hs t tags (wr pt (PT_IDX va) v t) ∧
  translate (wr pt (PT_IDX va) v t) root va = (if present v then Some v else None) ∧
  ∀ f, in_use tags t f → page_of (wr pt (PT_IDX va) v t) f = page_of t f.
Proof.
  intros Hw Hv0 Hi'. destruct (set_leaf tags t root va pt v (is_vm _ _ _ Hi) Hr Hw Hv0) as (_ & Htr & Hot).
  destruct (walk_pt_tag tags t root va pt (is_vm _ _ _ Hi) Hr Hw) as (g & Hg & _).
  assert (Hpg : ∀ f, in_use tags t f → page_of (wr pt (PT_IDX va) v t) f = page_of t f).
  { intros f [Hf _]. apply page_wr. congruence. }
  split; [|done]. apply uedit_make; try done.
  - intros r a Hra Hva Hn. apply Hot; [done|]. by apply place_page_ne; [apply Hv|..].
  - intros r a e _ _ _ _ _ Hf. by apply Hpg.
Qed.

(** Unmapping a page and freeing its frame. *)
Lemma unmap_free_ok :
  uedit (on_page root va) tags hs t tags (unmap_free va root t) ∧ translate (unmap_free va root t) root va = None.
Proof.
  unfold unmap_free. pose proof (unmap_user tags hs t root va Hi Hr Hne (proj1 Hv) (proj2 Hv)) as Hu.
  unfold vmm_unmap_page_from, root_or_kernel in *. rewrite root_not_null in *. rewrite translate_walk.
  destruct (walk_pt root va t) as [pt|] eqn:Hw.
  2: { rewrite Z.eqb_refl. rewrite Hw. split; [by apply uedit_refl|done]. }
  cbv zeta in *. destruct (present (rd t pt (PT_IDX va))) eqn:Hp; cbn [negb] in *.
  2: { rewrite Z.eqb_refl, Hw, Hp. split; [by apply uedit_refl|done]. }
  rewrite <- translate_walk. set (f := pte_frame _) in *. destruct Hu as [[Hf Ht]|(Hnn & Hnh & Hi')].
  { destruct (byte_user tags hs t root va (rd t pt (PT_IDX va)) Hi Hr Hne Hv) as (_ & (_ & [Hf0 _] & _) & _).
    - rewrite translate_walk, Hw. cbv zeta. by rewrite Hp.
    - fold f in Hf0. unfold PHYS_NULL in Hf. lia. }
  destruct (Z.eqb_spec f PHYS_NULL) as [|_]; [done|].
  assert (Hf : f ∈ ({[f]} ∪ hs : gset Z)) by set_solver.
  rewrite (owns_in_use tags _ _ f Hi' (is_held _ _ _ Hi' f Hf)).
  destruct (free_frame_ok tags _ _ f Hi' Hf) as (Hi2 & Hg2 & Ht2). replace (({[f]} ∪ hs) ∖ {[f]}) with hs in Hi2 by set_solver.
  destruct (set_leaf tags t root va pt 0 (is_vm _ _ _ Hi) Hr Hw ltac:(lia)) as (_ & Htr & Hot). cbn [present] in Htr.
  split; [|exact Htr].
  destruct (walk_pt_tag tags t root va pt (is_vm _ _ _ Hi) Hr Hw) as (g & Hg & _).
  apply uedit_make; try done.
  - intros r a Hra Hva Hn. apply (Hot r a Hra). by apply place_page_ne; [apply Hv|..].
  - intros r a e _ _ _ _ _ [Hfn _]. apply page_wr. congruence.
Qed.

(** The frame is free afterwards, and no frame stops being free. *)
Lemma unmap_free_frees :
  (∀ j, is_free (frames t) j → is_free (frames (unmap_free va root t)) j) ∧
  ∀ e, translate t root va = Some e → is_free (frames (unmap_free va root t)) (pte_frame e / PAGE_SIZE).
Proof.
  unfold unmap_free. pose proof (unmap_user tags hs t root va Hi Hr Hne (proj1 Hv) (proj2 Hv)) as Hu.
  unfold vmm_unmap_page_from, root_or_kernel in *. rewrite root_not_null in *. rewrite translate_walk.
  destruct (walk_pt root va t) as [pt|] eqn:Hw; [|by rewrite Z.eqb_refl].
  cbv zeta in *. destruct (present (rd t pt (PT_IDX va))) eqn:Hp; cbn [negb] in *; [|by rewrite Z.eqb_refl].
  set (f := pte_frame _) in *. destruct Hu as [[Hf Ht]|(Hnn & _ & Hi')].
  { destruct (byte_user tags hs t root va (rd t pt (PT_IDX va)) Hi Hr Hne Hv) as (_ & (_ & [Hf0 _] & _) & _).
    - rewrite translate_walk, Hw. cbv zeta. by rewrite Hp.
    - fold f in Hf0. unfold PHYS_NULL in Hf. lia. }
  destruct (Z.eqb_spec f PHYS_NULL) as [|_]; [done|].
  destruct (is_held _ _ _ Hi' f ltac:(set_solver)) as (Hn & [Hf0 Hfm] & Hpg & _).
  destruct (free_untagged tags _ f (is_vm _ _ _ Hi') ltac:(lia) Hfm Hn) as (_ & _ & _ & _ & Hmono & _ & _ & Hfree).
  split; [exact Hmono|]. intros e [= <-]. by apply Hfree.
Qed.

(** Changing the protection of a page. *)
Lemma protect_ok flags :
  flags_ok flags → present flags = true →
  match translate t root va with
  | None => vmm_protect_page_into va flags root t = (0, t)
  | Some e => ∃ t', vmm_protect_page_into va flags root t = (1, t') ∧ uedit (on_page root va) tags hs t tags t' ∧
      translate t' root va = Some (new_entry e flags) ∧
      ∀ a, a / 4096 = va / 4096 → byte_at root a t' = byte_at root a t
  end.
Proof.
  intros Hfl Hpr. pose proof (protect_iso tags hs t va flags root Hi Hr Hfl) as Hi'.
  unfold vmm_protect_page_into, root_or_kernel in *. rewrite root_not_null in *. rewrite translate_walk.
  destruct (walk_pt root va t) as [pt|] eqn:Hw; [|done]. cbv zeta in *.
  destruct (present (rd t pt (PT_IDX va))) eqn:Hp; cbn [negb snd] in *; [|done]. set (e := rd t pt (PT_IDX va)) in *.
  fold (new_entry e flags) in Hi' |- *. eexists. split; [done|].
  assert (Hw0 : 0 ≤ new_entry e flags < 2 ^ 64).
  { apply new_entry_u64; [apply (vk_word _ _ (is_vm _ _ _ Hi))|apply Hfl]. }
  destruct (leaf_uedit pt (new_entry e flags) Hw Hw0 Hi') as (E & Htr & Hpg). rewrite new_entry_present in Htr by done.
  split; [done|]. split; [done|]. intros a Ha.
  assert (He : translate t root a = Some e).
  { rewrite (translate_page t root va a Ha), translate_walk, Hw. cbv zeta. fold e. by rewrite Hp. }
  apply (bytes_kept tags hs t tags hs); try done; [by apply (user_va_page va)|..].
  - intros e'. rewrite He. intros [= <-]. eexists. split; [by rewrite (translate_page _ root va a Ha)|].
    unfold new_entry. by rewrite pte_frame_lor, pte_frame_mask, (proj2 Hfl), Z.lor_0_r.
  - intros e'. rewrite He. intros [= <-]. apply Hpg. by apply (byte_user tags hs t root a e Hi Hr Hne (user_va_page va a Ha Hv) He).
Qed.
End Ops.

(** Writing bytes. *)
Definition in_range (root va len r a : Z) : Prop := r = root ∧ va ≤ a < va + len.

Lemma wrote_uedit tags hs root va l t t' :
  iso tags hs t → wrote tags hs root va l t t' → uedit (in_range root va (zlength l)) tags hs t tags t'.
Proof.
  intros Hi W. destruct (wt_regs _ _ _ _ _ _ _ W) as (A1 & A2 & A3). constructor; try done.
  - apply W.
  - by rewrite A3.
  - intros r a Hra _ _. apply (trans_same tags); [apply Hi|done|apply W].
  - intros r a Hra Hrk Hua Hn Hs. rewrite (wt_bytes _ _ _ _ _ _ _ W) by done. by rewrite decide_False.
Qed.
