(* ===== verification/RunQueue.v ===== *)
(** [include/task.h] and [kernel/sched/runqueue.c]: the task control blocks, the state of
    the scheduler and the run queues of the processors.

    The arrays [tasks], [cpu_current_task] and [cpu_runqueues] are functions of the index;
    the code guards every access.  A run queue is the list of its first [count] entries.
    The time [timer_get_ms] returns is an argument.  Calls into other components that
    return nothing the scheduler looks at are recorded, in order, in [calls]. *)

From S2P Require Import Prelude.

Definition MAX_TASKS : Z := 16.
Definition SMP_MAX_CPUS : Z := 16.
Definition RUNQ_CAPACITY : Z := MAX_TASKS.
Definition AGE_STEP_MS : Z := 100.
Definition AGE_MAX_BONUS : Z := 8.
Definition PRIO_NORMAL : Z := 1.
Definition PRIO_MAX : Z := 3.
Definition TASK_KIND_KERNEL : Z := 0.
Definition TASK_KIND_SPAWNED : Z := 1.
Definition PROC_NO_PARENT : Z := -1.

Inductive tstate := READY | RUNNING | SLEEPING | DEAD | BLOCKED | ZOMBIE.

#[export] Instance tstate_eq_dec : EqDecision tstate.
Proof. solve_decision. Defined.

Definition tstate_eqb (a b : tstate) : bool := bool_decide (a = b).

Record task := mkTask {
  id : Z; rsp : Z; stack_base : Z; state : tstate; name : list Z; pml4_phys : Z; cookie : Z;
  wake_at_ms : Z; priority : Z; enqueue_ms : Z; kind : Z; uid : Z; gid : Z; parent_id : Z;
  exit_code : Z; argc : Z; exit_reason : Z; kill_pending : bool; fpu_state : list Z; fpu_initialized : bool
}.

Definition set_rsp (v : Z) (t : task) : task :=
  mkTask (id t) v (stack_base t) (state t) (name t) (pml4_phys t) (cookie t) (wake_at_ms t) (priority t)
    (enqueue_ms t) (kind t) (uid t) (gid t) (parent_id t) (exit_code t) (argc t) (exit_reason t)
    (kill_pending t) (fpu_state t) (fpu_initialized t).
Definition set_state (v : tstate) (t : task) : task :=
  mkTask (id t) (rsp t) (stack_base t) v (name t) (pml4_phys t) (cookie t) (wake_at_ms t) (priority t)
    (enqueue_ms t) (kind t) (uid t) (gid t) (parent_id t) (exit_code t) (argc t) (exit_reason t)
    (kill_pending t) (fpu_state t) (fpu_initialized t).
Definition set_stack_base (v : Z) (t : task) : task :=
  mkTask (id t) (rsp t) v (state t) (name t) (pml4_phys t) (cookie t) (wake_at_ms t) (priority t)
    (enqueue_ms t) (kind t) (uid t) (gid t) (parent_id t) (exit_code t) (argc t) (exit_reason t)
    (kill_pending t) (fpu_state t) (fpu_initialized t).
Definition set_wake_at_ms (v : Z) (t : task) : task :=
  mkTask (id t) (rsp t) (stack_base t) (state t) (name t) (pml4_phys t) (cookie t) v (priority t)
    (enqueue_ms t) (kind t) (uid t) (gid t) (parent_id t) (exit_code t) (argc t) (exit_reason t)
    (kill_pending t) (fpu_state t) (fpu_initialized t).
Definition set_enqueue_ms (v : Z) (t : task) : task :=
  mkTask (id t) (rsp t) (stack_base t) (state t) (name t) (pml4_phys t) (cookie t) (wake_at_ms t) (priority t)
    v (kind t) (uid t) (gid t) (parent_id t) (exit_code t) (argc t) (exit_reason t)
    (kill_pending t) (fpu_state t) (fpu_initialized t).
Definition set_parent_id (v : Z) (t : task) : task :=
  mkTask (id t) (rsp t) (stack_base t) (state t) (name t) (pml4_phys t) (cookie t) (wake_at_ms t) (priority t)
    (enqueue_ms t) (kind t) (uid t) (gid t) v (exit_code t) (argc t) (exit_reason t)
    (kill_pending t) (fpu_state t) (fpu_initialized t).
Definition set_kill_pending (v : bool) (t : task) : task :=
  mkTask (id t) (rsp t) (stack_base t) (state t) (name t) (pml4_phys t) (cookie t) (wake_at_ms t) (priority t)
    (enqueue_ms t) (kind t) (uid t) (gid t) (parent_id t) (exit_code t) (argc t) (exit_reason t)
    v (fpu_state t) (fpu_initialized t).
Definition set_fpu (v : list Z) (ini : bool) (t : task) : task :=
  mkTask (id t) (rsp t) (stack_base t) (state t) (name t) (pml4_phys t) (cookie t) (wake_at_ms t) (priority t)
    (enqueue_ms t) (kind t) (uid t) (gid t) (parent_id t) (exit_code t) (argc t) (exit_reason t)
    (kill_pending t) v ini.

(** Calls into other components. *)
Inductive call :=
| CReschedule (cpu : Z)                (* smp_mark_reschedule and lapic_send_reschedule *)
| CRsp0 (cpu top : Z)                  (* tss_set_rsp0 *)
| CUheapReset (tid : Z)
| CUheapClone (child parent : Z)
| CFlushEvents (tid : Z)
| CVfsInit (tid : Z)
| CVfsInherit (child parent : Z)
| CVfsCloseAll (tid : Z)
| CNetCleanup (tid : Z)
| CKwmDestroy (tid : Z)
| CShmExit (tid : Z).

(** The state: [cpu_cr3] is the address space a processor has loaded, [fpu] its live
    floating point registers; [stacks] are the allocated task stacks and [spaces] the
    address spaces of programs that exist; [kernel_pml4] is the address space of the kernel. *)
Record sched := mkSched {
  tasks : Z → task; task_count : Z; current_task : Z; cpu_current_task : Z → Z; cpu_runqueues : Z → list Z;
  cpu_cr3 : Z → Z; fpu : Z → list Z; stacks : gset Z; spaces : gset Z; kernel_pml4 : Z;
  syscall_stack_tops : Z → Z; calls : list call
}.

(** Updating an array. *)
Definition fset {A} (i : Z) (v : A) (f : Z → A) : Z → A := λ j, if j =? i then v else f j.

Definition set_tasks (v : Z → task) (s : sched) : sched :=
  mkSched v (task_count s) (current_task s) (cpu_current_task s) (cpu_runqueues s) (cpu_cr3 s) (fpu s)
    (stacks s) (spaces s) (kernel_pml4 s) (syscall_stack_tops s) (calls s).
Definition set_task (i : Z) (t : task) (s : sched) : sched := set_tasks (fset i t (tasks s)) s.
Definition upd_task (i : Z) (f : task → task) (s : sched) : sched := set_task i (f (tasks s i)) s.
Definition set_cpu (c i : Z) (s : sched) : sched :=
  mkSched (tasks s) (task_count s) (current_task s) (fset c i (cpu_current_task s)) (cpu_runqueues s) (cpu_cr3 s)
    (fpu s) (stacks s) (spaces s) (kernel_pml4 s) (syscall_stack_tops s) (calls s).
Definition set_runq (c : Z) (q : list Z) (s : sched) : sched :=
  mkSched (tasks s) (task_count s) (current_task s) (cpu_current_task s) (fset c q (cpu_runqueues s)) (cpu_cr3 s)
    (fpu s) (stacks s) (spaces s) (kernel_pml4 s) (syscall_stack_tops s) (calls s).
Definition set_task_count (v : Z) (s : sched) : sched :=
  mkSched (tasks s) v (current_task s) (cpu_current_task s) (cpu_runqueues s) (cpu_cr3 s)
    (fpu s) (stacks s) (spaces s) (kernel_pml4 s) (syscall_stack_tops s) (calls s).
Definition set_current_task (v : Z) (s : sched) : sched :=
  mkSched (tasks s) (task_count s) v (cpu_current_task s) (cpu_runqueues s) (cpu_cr3 s)
    (fpu s) (stacks s) (spaces s) (kernel_pml4 s) (syscall_stack_tops s) (calls s).
Definition set_cpu_cr3 (c v : Z) (s : sched) : sched :=
  mkSched (tasks s) (task_count s) (current_task s) (cpu_current_task s) (cpu_runqueues s) (fset c v (cpu_cr3 s))
    (fpu s) (stacks s) (spaces s) (kernel_pml4 s) (syscall_stack_tops s) (calls s).
Definition set_live_fpu (c : Z) (v : list Z) (s : sched) : sched :=
  mkSched (tasks s) (task_count s) (current_task s) (cpu_current_task s) (cpu_runqueues s) (cpu_cr3 s)
    (fset c v (fpu s)) (stacks s) (spaces s) (kernel_pml4 s) (syscall_stack_tops s) (calls s).
Definition set_stacks (v : gset Z) (s : sched) : sched :=
  mkSched (tasks s) (task_count s) (current_task s) (cpu_current_task s) (cpu_runqueues s) (cpu_cr3 s)
    (fpu s) v (spaces s) (kernel_pml4 s) (syscall_stack_tops s) (calls s).
Definition set_spaces (v : gset Z) (s : sched) : sched :=
  mkSched (tasks s) (task_count s) (current_task s) (cpu_current_task s) (cpu_runqueues s) (cpu_cr3 s)
    (fpu s) (stacks s) v (kernel_pml4 s) (syscall_stack_tops s) (calls s).
Definition emit (e : call) (s : sched) : sched :=
  mkSched (tasks s) (task_count s) (current_task s) (cpu_current_task s) (cpu_runqueues s) (cpu_cr3 s)
    (fpu s) (stacks s) (spaces s) (kernel_pml4 s) (syscall_stack_tops s) (calls s ++ [e]).

(** ** Run queues *)
Definition effective_prio (t : task) (now_ms : Z) : Z :=
  let waited := if enqueue_ms t <? now_ms then now_ms - enqueue_ms t else 0 in
  let bonus := u32 (waited / AGE_STEP_MS) in
  let bonus := if AGE_MAX_BONUS <? bonus then AGE_MAX_BONUS else bonus in
  u32 (priority t + bonus).

Definition runq_init (s : sched) : sched :=
  for_each 0 SMP_MAX_CPUS (λ i, set_runq i []) s.

Definition runq_len (cpu_id : Z) (s : sched) : Z :=
  if SMP_MAX_CPUS <=? cpu_id then 0 else zlength (cpu_runqueues s cpu_id).

Definition runq_push (cpu_id task_id now_ms : Z) (s : sched) : Z * sched :=
  let q := cpu_runqueues s cpu_id in
  if RUNQ_CAPACITY <=? zlength q then (-1, s) else
  (0, set_runq cpu_id (q ++ [task_id]) (upd_task task_id (set_enqueue_ms now_ms) s)).

(** [entries[i] = entries[--count]]. *)
Definition fill_gap (i : Z) (q : list Z) : list Z :=
  take (length q - 1) (lset q i (lget q (zlength q - 1))).

(** The scan for the entry to pop: its index and its priority. *)
Definition pop_best (now_ms : Z) (q : list Z) (s : sched) : Z * Z :=
  for_each 1 (zlength q) (λ i '(best_i, best_prio),
    let p := effective_prio (tasks s (lget q i)) now_ms in
    if (best_prio <? p) ||
       ((p =? best_prio) && (enqueue_ms (tasks s (lget q i)) <? enqueue_ms (tasks s (lget q best_i))))
    then (i, p) else (best_i, best_prio))
    (0, effective_prio (tasks s (lget q 0)) now_ms).

Definition runq_pop (cpu_id now_ms : Z) (s : sched) : Z * sched :=
  let q := cpu_runqueues s cpu_id in
  if zlength q =? 0 then (-1, s) else
  let '(best_i, _) := pop_best now_ms q s in
  (lget q best_i, set_runq cpu_id (fill_gap best_i q) s).

(** The loop of [runq_remove]; every turn advances [i] or shortens the queue. *)
Fixpoint remove_loop (fuel : nat) (i task_id : Z) (q : list Z) (removed : Z) : Z * list Z :=
  match fuel with
  | O => (removed, q)
  | S fuel =>
      if zlength q <=? i then (removed, q) else
      if lget q i =? task_id then remove_loop fuel i task_id (fill_gap i q) 1
      else remove_loop fuel (i + 1) task_id q removed
  end.

Definition runq_remove (cpu_id task_id : Z) (s : sched) : Z * sched :=
  if (SMP_MAX_CPUS <=? cpu_id) || (task_id <? 0) then (0, s) else
  let '(removed, q) := remove_loop (length (cpu_runqueues s cpu_id)) 0 task_id (cpu_runqueues s cpu_id) 0 in
  (removed, set_runq cpu_id q s).

Definition cpu_load (i : Z) (s : sched) : Z :=
  u32 (zlength (cpu_runqueues s i) + (if 0 <=? cpu_current_task s i then 1 else 0)).

(** [online] is the number of processors [smp_online_cpu_count] reports. *)
Definition pick_target_cpu (online : Z) (s : sched) : Z :=
  let online := if SMP_MAX_CPUS <? online then SMP_MAX_CPUS else online in
  if online =? 0 then 0 else
  match for_range 0 online (λ i '(best_cpu, best_load),
      if (cpu_current_task s i <? 0) && (zlength (cpu_runqueues s i) =? 0) then inl i else
      inr (if cpu_load i s <? best_load then (i, cpu_load i s) else (best_cpu, best_load)))
    (0, 0xFFFFFFFF) with
  | inl i => i
  | inr (best_cpu, _) => best_cpu
  end.

Definition steal_victim (self_cpu online : Z) (s : sched) : Z :=
  let online := if SMP_MAX_CPUS <? online then SMP_MAX_CPUS else online in
  (for_each 0 online (λ i '(victim, best),
      if i =? self_cpu then (victim, best) else
      let c := zlength (cpu_runqueues s i) in
      if best <? c then (i, c) else (victim, best)) (-1, 0)).1.

Definition steal_task (self_cpu online now_ms : Z) (s : sched) : Z * sched :=
  let victim := steal_victim self_cpu online s in
  if victim <? 0 then (-1, s) else runq_pop victim now_ms s.

Lemma tasks_upd s i f j : tasks (upd_task i f s) j = if j =? i then f (tasks s i) else tasks s j.
Proof. done. Qed.

(** ** Removing an entry *)
Lemma lget_some l i : 0 ≤ i < zlength l → l !! Z.to_nat i = Some (lget l i).
Proof.
  unfold zlength, lget. intros Hi. destruct (lookup_lt_is_Some_2 l (Z.to_nat i)) as [x Hx]; [lia|]. by rewrite Hx.
Qed.

Lemma lget_elem l i : 0 ≤ i < zlength l → lget l i ∈ l.
Proof. intros Hi. eapply list_elem_of_lookup_2, lget_some, Hi. Qed.

Lemma elem_lget l x : x ∈ l → ∃ i, 0 ≤ i < zlength l ∧ lget l i = x.
Proof.
  intros [i Hi]%list_elem_of_lookup. pose proof (lookup_lt_Some _ _ _ Hi). exists (Z.of_nat i). unfold zlength, lget.
  rewrite Nat2Z.id, Hi. split; [lia|done].
Qed.

Lemma insert_perm {A} (l : list A) i x y : l !! i = Some y → y :: <[i := x]> l ≡ₚ x :: l.
Proof.
  revert i. induction l as [|z l IH]; intros [|i] H; simpl in *; [done|done| |].
  - injection H as ->. constructor.
  - etransitivity; [apply perm_swap|]. etransitivity; [apply perm_skip, (IH i H)|]. apply perm_swap.
Qed.

Lemma fill_gap_perm i q : 0 ≤ i < zlength q → q ≡ₚ lget q i :: fill_gap i q.
Proof.
  intros Hi. destruct q as [|z q _] using rev_ind; [unfold zlength in Hi; simpl in Hi; lia|].
  unfold fill_gap, zlength in *. rewrite length_app in *. cbn [length] in *.
  assert (Hlast : lget (q ++ [z]) (Z.of_nat (length q + 1) - 1) = z).
  { unfold lget. rewrite list_lookup_middle by lia. done. }
  rewrite Hlast. replace (length q + 1 - 1)%nat with (length q) by lia. unfold lset.
  destruct (decide (i = Z.of_nat (length q))) as [->|Hne].
  - replace (Z.of_nat (length q)) with (Z.of_nat (length q + 1) - 1) by lia. rewrite Hlast.
    replace (Z.to_nat _) with (length q + 0)%nat by lia. rewrite insert_app_r, take_app_length. apply Permutation_app_comm.
  - rewrite insert_app_l by lia. rewrite take_app_length' by (by rewrite length_insert).
    pose proof (lget_some q i ltac:(unfold zlength; lia)) as Hx.
    replace (lget (q ++ [z]) i) with (lget q i) by (unfold lget; by rewrite lookup_app_l by lia).
    rewrite (insert_perm q _ z _ Hx). apply Permutation_app_comm.
Qed.

Lemma fill_gap_length i q : 0 ≤ i < zlength q → length q = S (length (fill_gap i q)).
Proof. intros Hi. by rewrite (fill_gap_perm i q Hi) at 1. Qed.

Lemma fill_gap_below i j q : 0 ≤ j < i → i < zlength q → lget (fill_gap i q) j = lget q j.
Proof.
  intros Hj Hi. unfold fill_gap, lget, lset, zlength in *. rewrite lookup_take_lt by lia.
  by rewrite list_lookup_insert_ne by lia.
Qed.

Lemma filter_absent (x : Z) (q : list Z) : x ∉ q → filter (λ y, y ≠ x) q = q.
Proof.
  induction q as [|y q IH]; intros Hn; [done|]. apply not_elem_of_cons in Hn as [Hy Hn].
  rewrite filter_cons_True by done. by rewrite IH.
Qed.

Lemma remove_loop_ok fuel i tid q r :
  0 ≤ i → (length q ≤ Z.to_nat i + fuel)%nat → (∀ j, 0 ≤ j < i → j < zlength q → lget q j ≠ tid) →
  (remove_loop fuel i tid q r).2 ≡ₚ filter (λ x, x ≠ tid) q ∧
  (remove_loop fuel i tid q r).1 = if decide (tid ∈ q) then 1 else r.
Proof.
  revert i q r. induction fuel as [|fuel IH]; intros i q r Hi Hl Hno; cbn [remove_loop].
  all: assert (Hend : zlength q ≤ i → (tid ∉ q) ∧ filter (λ x, x ≠ tid) q = q).
  1, 3: intros Hz; assert (Hn : tid ∉ q) by (intros (j & Hj & He)%elem_lget; by apply (Hno j); [lia..|]);
    split; [done|]; by apply filter_absent.
  { destruct Hend as [H1 H2]; [unfold zlength; lia|]. cbn [fst snd]. rewrite H2, decide_False by done. done. }
  destruct (Z.leb_spec (zlength q) i) as [Hz|Hz].
  { destruct Hend as [H1 H2]; [done|]. cbn [fst snd]. rewrite H2, decide_False by done. done. }
  clear Hend. destruct (Z.eqb_spec (lget q i) tid) as [He|Hne].
  - pose proof (fill_gap_length i q ltac:(lia)) as Hlen. pose proof (fill_gap_perm i q ltac:(lia)) as Hp.
    destruct (IH i (fill_gap i q) 1 Hi ltac:(lia)) as [H1 H2].
    { intros j Hj Hj2. rewrite fill_gap_below by lia. apply Hno; lia. }
    rewrite H1, H2. split.
    + rewrite Hp at 2. rewrite filter_cons_False; [done|]. intros Hc. by apply Hc.
    + rewrite (decide_True (P := tid ∈ q)) by (rewrite <- He; apply lget_elem; lia). by case_decide.
  - apply IH; [lia|lia|]. intros j Hj Hj2. destruct (decide (j = i)) as [->|]; [done|]. apply Hno; lia.
Qed.

(** ** Choosing an entry *)

(** [x] is to be run before [y]: it has the higher effective priority, or the same and did
    not come later. *)
Definition goes_first (now : Z) (x y : task) : Prop :=
  effective_prio y now < effective_prio x now ∨
  effective_prio y now = effective_prio x now ∧ enqueue_ms x ≤ enqueue_ms y.

Lemma goes_first_trans now x y z : goes_first now x y → goes_first now y z → goes_first now x z.
Proof. unfold goes_first. lia. Qed.

Lemma pop_best_ok now q s :
  0 < zlength q → let '(i, p) := pop_best now q s in
  0 ≤ i < zlength q ∧ ∀ j, 0 ≤ j < zlength q → goes_first now (tasks s (lget q i)) (tasks s (lget q j)).
Proof.
  intros Hl. unfold pop_best.
  pose proof (for_each_upto (λ k '(i, p), 0 ≤ i < k ∧ p = effective_prio (tasks s (lget q i)) now ∧
    ∀ j, 0 ≤ j < k → goes_first now (tasks s (lget q i)) (tasks s (lget q j))) 1 (zlength q)) as H.
  match goal with |- let '(_, _) := for_each _ _ ?f ?a in _ => specialize (H f a) end.
  destruct (for_each 1 (zlength q) _ _) as [i p]. destruct H as (H1 & _ & H2); [lia| | |done].
  - split; [lia|]. split; [done|]. intros j Hj. replace j with 0 by lia. right. lia.
  - intros j [i' p'] Hj (Hi' & -> & Hall).
    set (x := tasks s (lget q i')) in *. set (y := tasks s (lget q j)) in *.
    destruct ((effective_prio x now <? effective_prio y now) || _) eqn:E.
    + assert (Hyx : goes_first now y x).
      { unfold goes_first. apply orb_true_iff in E as [E%Z.ltb_lt|[E1%Z.eqb_eq E2%Z.ltb_lt]%andb_true_iff]; lia. }
      split; [lia|]. split; [done|]. intros k Hk. destruct (decide (k = j)) as [->|]; [right; lia|].
      apply (goes_first_trans _ _ x); [done|]. apply Hall. lia.
    + split; [lia|]. split; [done|]. intros k Hk. destruct (decide (k = j)) as [->|]; [|apply Hall; lia].
      change (goes_first now x y). unfold goes_first. apply orb_false_iff in E as [E%Z.ltb_ge [E1%Z.eqb_neq|E1%Z.ltb_ge]%andb_false_iff]; lia.
Qed.

(** The pop takes out the entry that goes first. *)
Lemma runq_pop_ok c now s :
  let '(x, s') := runq_pop c now s in
  (x = -1 ∧ cpu_runqueues s c = [] ∧ s' = s) ∨
  (∃ q', cpu_runqueues s c ≡ₚ x :: q' ∧ s' = set_runq c q' s ∧
     ∀ y, y ∈ cpu_runqueues s c → goes_first now (tasks s x) (tasks s y)).
Proof.
  unfold runq_pop. set (q := cpu_runqueues s c). destruct (Z.eqb_spec (zlength q) 0) as [H0|H0].
  { left. split; [done|]. split; [|done]. by destruct q. }
  pose proof (pop_best_ok now q s ltac:(unfold zlength in *; lia)) as H.
  destruct (pop_best now q s) as [i p]. destruct H as [Hi Hall]. right. exists (fill_gap i q).
  split; [by apply fill_gap_perm|]. split; [done|]. intros y (j & Hj & <-)%elem_lget. by apply Hall.
Qed.

(** ** Choosing a processor *)
Lemma pick_target_ok online s :
  let n := Z.min online SMP_MAX_CPUS in let c := pick_target_cpu online s in
  0 < online → (∀ i, zlength (cpu_runqueues s i) ≤ RUNQ_CAPACITY) →
  0 ≤ c < n ∧
  ((cpu_current_task s c < 0 ∧ cpu_runqueues s c = []) ∨
   ∀ i, 0 ≤ i < n → (0 ≤ cpu_current_task s i ∨ cpu_runqueues s i ≠ []) ∧ cpu_load c s ≤ cpu_load i s).
Proof.
  intros n c Hon Hcap. unfold c, pick_target_cpu. clear c.
  replace (if SMP_MAX_CPUS <? online then SMP_MAX_CPUS else online) with n by (unfold n; zcase; lia).
  assert (Hn : 0 < n) by (unfold n, SMP_MAX_CPUS; lia). destruct (Z.eqb_spec n 0); [lia|].
  assert (Hload : ∀ i, 0 ≤ cpu_load i s < 18).
  { intros i. specialize (Hcap i). unfold cpu_load, RUNQ_CAPACITY, MAX_TASKS, zlength in *.
    rewrite u32_id by (zcase; lia). zcase; lia. }
  set (I := λ (k : Z) (st : Z * Z), (k = 0 → st.2 = 0xFFFFFFFF) ∧ (0 < k → 0 ≤ st.1 < k ∧ st.2 = cpu_load st.1 s) ∧
      ∀ i, 0 ≤ i < k → (0 ≤ cpu_current_task s i ∨ cpu_runqueues s i ≠ []) ∧ st.2 ≤ cpu_load i s).
  set (Q := λ i, 0 ≤ i < n ∧ cpu_current_task s i < 0 ∧ cpu_runqueues s i = []).
  match goal with |- context [for_range 0 n ?f ?a] =>
    assert (H : match for_range 0 n f a with inl i => Q i | inr st => I (Z.max 0 n) st end) end.
  { apply for_range_rule; [split; [done|]; split; intros; lia|]. intros j [b l] Hj (H0 & H1 & H2). cbn [fst snd] in *.
    destruct ((cpu_current_task s j <? 0) && _) eqn:E.
    - apply andb_true_iff in E as [E1%Z.ltb_lt E2%Z.eqb_eq]. split; [done|]. split; [done|]. by destruct (cpu_runqueues s j).
    - assert (Hbusy : 0 ≤ cpu_current_task s j ∨ cpu_runqueues s j ≠ []).
      { apply andb_false_iff in E as [E%Z.ltb_ge|E%Z.eqb_neq]; [by left|right]. by intros Hq; rewrite Hq in E. }
      pose proof (Hload j). destruct (Z.ltb_spec (cpu_load j s) l); (split; [intros; lia|]); cbn [fst snd].
      + split; [intros; split; [lia|done]|]. intros i Hi. destruct (decide (i = j)) as [->|]; [split; [done|lia]|].
        destruct (H2 i ltac:(lia)). split; [done|lia].
      + assert (0 < j) by (destruct (decide (j = 0)) as [->|]; [rewrite H0 in * by done; lia|lia]).
        split; [intros; destruct H1; [lia|]; split; [lia|done]|]. intros i Hi. destruct (decide (i = j)) as [->|]; [by split|].
        apply H2. lia. }
  rewrite Z.max_r in H by lia. destruct (for_range 0 n _ _) as [i|[b l]].
  - destruct H as (? & ? & ?). auto.
  - destruct H as (_ & H1 & H2). cbn [fst snd] in *. destruct H1 as [Hb ->]; [done|]. split; [done|]. by right.
Qed.

Lemma steal_victim_ok self online s :
  let n := Z.min online SMP_MAX_CPUS in let v := steal_victim self online s in
  (v = -1 ∧ ∀ i, 0 ≤ i < n → i ≠ self → cpu_runqueues s i = []) ∨
  (0 ≤ v < n ∧ v ≠ self ∧ cpu_runqueues s v ≠ [] ∧
   ∀ i, 0 ≤ i < n → i ≠ self → zlength (cpu_runqueues s i) ≤ zlength (cpu_runqueues s v)).
Proof.
  intros n v. unfold v, steal_victim. clear v.
  replace (if SMP_MAX_CPUS <? online then SMP_MAX_CPUS else online) with n by (unfold n; zcase; lia).
  set (len := λ i, zlength (cpu_runqueues s i)). assert (Hlen : ∀ i, 0 ≤ len i) by (intros i; unfold len, zlength; lia).
  set (I := λ (k : Z) (st : Z * Z), (∀ i, 0 ≤ i < k → i ≠ self → len i ≤ st.2) ∧
    (st = (-1, 0) ∨ 0 ≤ st.1 < k ∧ st.1 ≠ self ∧ 0 < st.2 ∧ st.2 = len st.1)).
  match goal with |- context [for_each 0 n ?f ?a] => assert (H : I (Z.max 0 n) (for_each 0 n f a)) end.
  { apply for_each_rule; [split; [intros; lia|by left]|]. intros j [b l] Hj (H1 & H2). cbn [fst snd] in *.
    destruct (Z.eqb_spec j self) as [->|Hne].
    - split; [intros i Hi Hn; apply H1; lia|]. destruct H2 as [?|?]; [by left|right; cbn [fst snd] in *; lia].
    - fold (len j). pose proof (Hlen j). assert (0 ≤ l) by (destruct H2 as [H2|H2]; [injection H2 as -> ->|]; lia). destruct (Z.ltb_spec l (len j)).
      + split; [|right; cbn [fst snd]; lia]. intros i Hi Hn. cbn [snd]. destruct (decide (i = j)) as [->|]; [lia|].
        specialize (H1 i ltac:(lia) Hn). lia.
      + split; [|destruct H2 as [?|?]; [by left|right; cbn [fst snd] in *; lia]]. intros i Hi Hn. cbn [snd].
        destruct (decide (i = j)) as [->|]; [lia|]. apply H1; lia. }
  destruct (for_each 0 n _ _) as [b l]. destruct H as [H1 [H2|H2]]; cbn [fst snd] in *.
  - injection H2 as -> ->. left. split; [done|]. intros i Hi Hn. specialize (H1 i ltac:(lia) Hn). pose proof (Hlen i).
    unfold len in *. destruct (cpu_runqueues s i); [done|]. unfold zlength in *. cbn [length] in *. lia.
  - right. destruct H2 as (H3 & H4 & H5 & ->). unfold len in *. split; [lia|]. split; [done|].
    split; [by intros E; rewrite E in H5|]. intros i Hi Hn. apply H1; [lia|done].
Qed.

(** ** Aging *)
Lemma effective_prio_bounds t now :
  0 ≤ priority t ≤ PRIO_MAX → 0 ≤ enqueue_ms t ≤ now → now - enqueue_ms t < 2 ^ 32 * AGE_STEP_MS →
  effective_prio t now = priority t + Z.min AGE_MAX_BONUS ((now - enqueue_ms t) / AGE_STEP_MS).
Proof.
  unfold effective_prio, PRIO_MAX, AGE_MAX_BONUS, AGE_STEP_MS. intros Hp He Hw.
  assert (Hz : (if enqueue_ms t <? now then now - enqueue_ms t else 0) = now - enqueue_ms t) by (zcase; lia). rewrite Hz.
  assert (Hd : 0 ≤ (now - enqueue_ms t) / 100 < 2 ^ 32) by (split; [apply Z.div_pos; lia|apply Z.div_lt_upper_bound; lia]).
  rewrite (u32_id ((now - enqueue_ms t) / 100)) by lia. rewrite u32_id; zcase; lia.
Qed.

Lemma aged_first x y now :
  (∀ t, t = x ∨ t = y → 0 ≤ priority t ≤ PRIO_MAX ∧ 0 ≤ enqueue_ms t ≤ now ∧ now - enqueue_ms t < 2 ^ 32 * AGE_STEP_MS) →
  goes_first now x y → 800 ≤ now - enqueue_ms y → 500 ≤ now - enqueue_ms x.
Proof.
  intros H Hf Hw. destruct (H x (or_introl eq_refl)) as (H1 & H2 & H3), (H y (or_intror eq_refl)) as (H4 & H5 & H6).
  unfold goes_first in Hf. rewrite !effective_prio_bounds in Hf by done. unfold AGE_MAX_BONUS, AGE_STEP_MS, PRIO_MAX in *.
  assert (8 ≤ (now - enqueue_ms y) / 100) by (apply Z.div_le_lower_bound; lia).
  assert (5 ≤ (now - enqueue_ms x) / 100) by lia. pose proof (Z.mul_div_le (now - enqueue_ms x) 100). lia.
Qed.

(** C36: [runq_pop] on an empty queue gives [-1] and changes nothing.  On another queue it
    takes out one entry and keeps the rest: the one with the highest effective priority, and
    among equals the one that waits longest.  A task that has waited 800 ms can only be
    passed over for one that has waited 500 ms itself, whatever their priorities, so no task
    starves behind newcomers. *)
Theorem runq_pop_spec c now s x s' :
  (∀ y, y ∈ cpu_runqueues s c → 0 ≤ priority (tasks s y) ≤ PRIO_MAX ∧ 0 ≤ enqueue_ms (tasks s y) ≤ now ∧
     now - enqueue_ms (tasks s y) < 2 ^ 32 * AGE_STEP_MS) →
  runq_pop c now s = (x, s') →
  (cpu_runqueues s c = [] ∧ x = -1 ∧ s' = s) ∨
  (∃ q', cpu_runqueues s c ≡ₚ x :: q' ∧ s' = set_runq c q' s ∧
     ∀ y, y ∈ cpu_runqueues s c → goes_first now (tasks s x) (tasks s y) ∧
       (800 ≤ now - enqueue_ms (tasks s y) → 500 ≤ now - enqueue_ms (tasks s x))).
Proof.
  intros H E. pose proof (runq_pop_ok c now s) as Hp. rewrite E in Hp. destruct Hp as [(? & ? & ?)|(q' & Hp & -> & Hf)]; [by left|right].
  exists q'. split; [done|]. split; [done|]. intros y Hy. split; [by apply Hf|]. apply aged_first; [|by apply Hf].
  intros t [->| ->]; apply H; [rewrite Hp; set_solver|done].
Qed.

(** Three tasks wait: 1 with priority 3 that just came, 2 and 4 with priority 0 that came long ago. *)
Definition demo_waiting : sched :=
  let t p e := mkTask 0 1 1 READY [] 0 0 0 p e 0 0 0 0 0 0 0 false [] false in
  mkSched (λ i, if i =? 1 then t 3 10000 else if i =? 2 then t 0 9000 else t 0 8900) 5 0 (λ _, -1)
    (λ c, if c =? 3 then [1; 2; 4] else []) (λ _, 0) (λ _, []) ∅ ∅ 0 (λ _, 0) [].

Lemma runq_pop_spec_witness :
  runq_pop 3 10001 demo_waiting = (4, set_runq 3 [1; 2] demo_waiting) ∧ 500 ≤ 10001 - enqueue_ms (tasks demo_waiting 4).
Proof.
  split; [reflexivity|]. assert (E : runq_pop 3 10001 demo_waiting = (4, set_runq 3 [1; 2] demo_waiting)) by reflexivity.
  destruct (runq_pop_spec 3 10001 demo_waiting 4 (set_runq 3 [1; 2] demo_waiting)) with (2 := E) as [[? _]|(q' & _ & _ & H)].
  - assert (Hq : cpu_runqueues demo_waiting 3 = [1; 2; 4]) by reflexivity. rewrite Hq.
    intros y Hy. apply elem_of_cons in Hy as [->|Hy]; [vm_compute; split_and!; congruence|].
    apply elem_of_cons in Hy as [->|Hy]; [vm_compute; split_and!; congruence|].
    apply elem_of_cons in Hy as [->|Hy]; [vm_compute; split_and!; congruence|]. by apply elem_of_nil in Hy.
  - discriminate.
  - apply (H 4); [|vm_compute; congruence]. change (4 ∈ [1; 2; 4]). apply elem_of_cons. right. apply elem_of_cons. right. apply elem_of_cons. by left.
Defined.
