(* ===== verification/Sched.v ===== *)
(** The scheduler and the life of tasks: [kernel/sched/core.c], [kernel/sched/block.c],
    [kernel/sched/fpu.c], [kernel/sched/lifecycle.c] and the termination functions of
    [kernel/proc/proc.c].

    The code holds [scheduler_lock] in sections and does the rest outside of it.  A
    function that is one section is one definition; a function with several is one
    definition for each, so that [SchedSys] can interleave them, and where it matters the
    composition as it runs alone.  The time and the number of processors online are
    arguments, and so are the results of calls into other components that can fail. *)

From S2P Require Import Prelude RunQueue.

Definition PHYS_NULL : Z := 0.
Definition TASK_STACK_SIZE : Z := 16384.
Definition GUARD_BYTES : Z := 4096.
Definition KZ_REGISTERS_SIZE : Z := 176.
Definition KZ_FAKE_FRAME_PAD : Z := 8.
Definition KZ_FPU_STATE_SIZE : Z := 512.
Definition PROC_KILL_EXIT_CODE : Z := 125.
Definition PROC_EXIT_NORMAL : Z := 0.
Definition PROC_EXIT_KILLED : Z := 1.
Definition PROC_WAIT_ANY : Z := -1.
Definition PROC_WNOHANG : Z := 1.

Definition is_state (v : tstate) (i : Z) (s : sched) : bool := tstate_eqb (state (tasks s i)) v.

(** ** Floating point state ([fpu.c])

    The registers of a processor are the 512 bytes [fxsave64] stores. *)

(** [fninit] resets the control, status and tag words and the pointers, not the registers. *)
Definition fninit (img : list Z) : list Z := splice img 0 (le_bytes 2 0x37F ++ replicate 22 0).

Definition clean_area (area : list Z) : list Z :=
  splice (splice area 24 (le_bytes 4 0x1F80)) 0 (le_bytes 2 0x37F).

Definition fpu_state_reset (task_id : Z) (s : sched) : sched :=
  if (task_id <? 0) || (MAX_TASKS <=? task_id) then s else
  upd_task task_id (λ t, set_fpu (fpu_state t) false t) s.

Definition fpu_switch (c prev_id next_id : Z) (s : sched) : sched :=
  let s := if (0 <=? prev_id) && (prev_id <? MAX_TASKS) then upd_task prev_id (set_fpu (fpu s c) true) s else s in
  if (0 <=? next_id) && (next_id <? MAX_TASKS) then
    if fpu_initialized (tasks s next_id) then set_live_fpu c (fpu_state (tasks s next_id)) s else
    let area := clean_area (fpu_state (tasks s next_id)) in
    set_live_fpu c area (upd_task next_id (set_fpu area true) s)
  else set_live_fpu c (fninit (fpu s c)) s.

(** ** The scheduler ([core.c]) *)
Definition smp_current_task_id (c : Z) (s : sched) : Z :=
  if SMP_MAX_CPUS <=? c then -1 else cpu_current_task s c.

Definition task_stack_top (base : Z) : Z := if base =? 0 then 0 else base + GUARD_BYTES + TASK_STACK_SIZE.

(** [proc_observe_kill_sched]: whether the interrupted task terminates instead;
    [user_mode] is the privilege level of the interrupted frame. *)
Definition proc_observe_kill_sched (c : Z) (user_mode : bool) (s : sched) : bool :=
  user_mode && (c <? SMP_MAX_CPUS) &&
  let self := cpu_current_task s c in
  (0 <=? self) && (self <? MAX_TASKS) && is_state RUNNING self s &&
  (kind (tasks s self) =? TASK_KIND_SPAWNED) && kill_pending (tasks s self).

(** The outgoing task: its number, whether it is running, whether it is blocked. *)
Definition outgoing (c : Z) (s : sched) : Z * bool * bool * sched :=
  let cur := cpu_current_task s c in
  let cur_live := (0 <=? cur) && (cur <? task_count s) in
  let cur_st := if cur_live then state (tasks s cur) else DEAD in
  let cur_running := cur_live && tstate_eqb cur_st RUNNING in
  let cur_blocked := cur_live && (tstate_eqb cur_st SLEEPING || tstate_eqb cur_st BLOCKED) in
  if negb cur_running && negb cur_blocked then (-1, cur_running, cur_blocked, set_cpu c (-1) s)
  else (cur, cur_running, cur_blocked, s).

(** Loading the address space of the next task. *)
Definition load_space (c next : Z) (s : sched) : sched :=
  if negb (pml4_phys (tasks s next) =? PHYS_NULL) then set_cpu_cr3 c (pml4_phys (tasks s next)) s else
  if negb (kernel_pml4 s =? PHYS_NULL) then set_cpu_cr3 c (kernel_pml4 s) s else s.

(** From the decision that [next] runs to the end. *)
Definition switch_to (c cur next : Z) (s : sched) : Z * sched :=
  let s := upd_task next (set_state RUNNING) s in
  let s := set_cpu c next s in
  let s := if c =? 0 then set_current_task next s else s in
  let top := if negb (stack_base (tasks s next) =? 0) then task_stack_top (stack_base (tasks s next))
             else syscall_stack_tops s c in
  let s := emit (CRsp0 c top) s in
  let s := fpu_switch c cur next s in
  let s := load_space c next s in
  (rsp (tasks s next), s).

(** The rest of [schedule_on_cpu], once [next] is taken from a queue. *)
Definition schedule_with (c regs cur : Z) (cur_running cur_blocked : bool) (next now : Z) (s : sched) : Z * sched :=
  if next <? 0 then (regs, if cur_blocked then upd_task cur (set_rsp regs) s else s) else
  if (task_count s <=? next) || negb (is_state READY next s) || (rsp (tasks s next) =? 0) then (regs, s) else
  let s := if cur_blocked then upd_task cur (set_rsp regs) s else s in
  if cur_running then
    let s := upd_task cur (λ t, set_state READY (set_rsp regs t)) s in
    let '(r, s) := runq_push c cur now s in
    if negb (r =? 0) then (regs, (runq_push c next now (upd_task cur (set_state RUNNING) s)).2)
    else switch_to c cur next s
  else switch_to c cur next s.

(** [None] when the interrupted task terminates and the function does not return. *)
Definition schedule_on_cpu (c regs : Z) (user_mode : bool) (online now : Z) (s : sched) : option (Z * sched) :=
  if (SMP_MAX_CPUS <=? c) || (regs =? 0) then Some (regs, s) else
  if proc_observe_kill_sched c user_mode s then None else
  if task_count s <=? 0 then Some (regs, s) else
  let '(cur, cur_running, cur_blocked, s) := outgoing c s in
  let '(next, s) := runq_pop c now s in
  let '(next, s) := if next <? 0 then steal_task c online now s else (next, s) in
  Some (schedule_with c regs cur cur_running cur_blocked next now s).

Definition scheduler_remove_task (task_id : Z) (s : sched) : sched :=
  if (task_id <? 0) || (MAX_TASKS <=? task_id) then s else
  for_each 0 SMP_MAX_CPUS (λ c s, (runq_remove c task_id s).2) s.

(** ** Blocking ([block.c]) *)
Definition block_prepare (c : Z) (new_state : tstate) (s : sched) : Z * sched :=
  if negb (tstate_eqb new_state SLEEPING) && negb (tstate_eqb new_state BLOCKED) then (-1, s) else
  let self := smp_current_task_id c s in
  if (self <? 0) || (task_count s <=? self) then (-1, s) else
  if negb (is_state RUNNING self s) then (-1, s) else
  (self, upd_task self (set_state new_state) s).

(** The processor a blocked task is still parked on. *)
Definition on_cpu (task_id : Z) (s : sched) : Z :=
  match for_range 0 SMP_MAX_CPUS (λ i (_ : unit), if cpu_current_task s i =? task_id then inl i else inr tt) tt with
  | inl i => i
  | inr _ => -1
  end.

(** [unblock_task] up to the end of its section; the flag says that the task is to be
    pushed to a queue. *)
Definition unblock_begin (task_id : Z) (s : sched) : bool * sched :=
  if (task_id <? 0) || (MAX_TASKS <=? task_id) then (false, s) else
  if negb (is_state SLEEPING task_id s) && negb (is_state BLOCKED task_id s) then (false, s) else
  let cpu := on_cpu task_id s in
  let s := upd_task task_id (set_wake_at_ms 0) s in
  if 0 <=? cpu then (false, emit (CReschedule cpu) (upd_task task_id (set_state RUNNING) s)) else
  (true, upd_task task_id (set_state READY) s).

Definition unblock_push (task_id target me now : Z) (s : sched) : sched :=
  let '(r, s) := runq_push target task_id now s in
  if negb (r =? 0) then (if is_state READY task_id s then upd_task task_id (set_state BLOCKED) s else s) else
  if negb (target =? me) then emit (CReschedule target) s else s.

Definition unblock_task (task_id me online now : Z) (s : sched) : sched :=
  let '(push, s) := unblock_begin task_id s in
  if push then unblock_push task_id (pick_target_cpu online s) me now s else s.

(** [task_sleep_ms] up to the point where the task parks. *)
Definition task_sleep_ms (c ms now : Z) (s : sched) : Z * sched :=
  if ms =? 0 then (-1, s) else
  let self := smp_current_task_id c s in
  if (self <? 0) || (task_count s <=? self) then (-1, s) else
  block_prepare c SLEEPING (upd_task self (set_wake_at_ms (u64 (now + ms))) s).

Definition due_sleepers (now : Z) (s : sched) : list Z :=
  for_each 0 (Z.min MAX_TASKS (task_count s)) (λ i wake,
    if is_state SLEEPING i s && negb (wake_at_ms (tasks s i) =? 0) && (wake_at_ms (tasks s i) <=? now)
    then wake ++ [i] else wake) [].

Definition sleepq_check_wakeups (me online now : Z) (s : sched) : sched :=
  foldl (λ s i, unblock_task i me online now s) s (due_sleepers now s).

(** ** Creating tasks ([lifecycle.c]) *)

(** What [task_strncpy] leaves in the [n] bytes at [dst]. *)
Definition task_strncpy (dst src : list Z) (n : Z) : list Z :=
  match for_range 0 (n - 1) (λ i dst, if lget src i =? 0 then inl (i, dst) else inr (lset dst i (lget src i))) dst with
  | inl (i, dst) => lset dst i 0
  | inr dst => lset dst (n - 1) 0
  end.

Definition KZ_FAKE_FRAME_TOP (stack_top : Z) : Z := stack_top - KZ_FAKE_FRAME_PAD.

(** The first frame of a task: 22 words below the padded top. *)
Definition first_frame (stack : Z) : Z := KZ_FAKE_FRAME_TOP (task_stack_top stack) - KZ_REGISTERS_SIZE.

Definition dead_task : task :=
  mkTask 0 0 0 DEAD (replicate 16 0) PHYS_NULL 0 0 PRIO_NORMAL 0 TASK_KIND_KERNEL 0 0 PROC_NO_PARENT 0 0 0 false
    (replicate 512 0) false.

(** [tasking_init] on zeroed memory; [cr3] is the boot address space, [img] the floating
    point registers of the processors and [tops] their system call stacks. *)
Definition tasking_init (cr3 : Z) (img : Z → list Z) (tops : Z → Z) : sched :=
  let kmain := mkTask 0 0 0 RUNNING (task_strncpy (replicate 16 0) [107; 109; 97; 105; 110; 0] 16) PHYS_NULL 0 0
    PRIO_NORMAL 0 TASK_KIND_KERNEL 0 0 PROC_NO_PARENT 0 0 0 false (replicate 512 0) false in
  mkSched (fset 0 kmain (λ _, dead_task)) 1 0 (fset 0 0 (λ _, -1)) (λ _, []) (λ _, cr3) img ∅ ∅ cr3 tops
    [CRsp0 0 (tops 0)].

Definition task_stack_free (base : Z) (s : sched) : sched :=
  if base =? 0 then s else set_stacks (stacks s ∖ {[base]}) s.

Definition destroy_space (p : Z) (s : sched) : sched := set_spaces (spaces s ∖ {[p]}) s.

Definition find_dead (s : sched) : Z :=
  match for_range 1 (task_count s) (λ i (_ : unit), if is_state DEAD i s then inl i else inr tt) tt with
  | inl i => i
  | inr _ => -1
  end.

Definition take_slot (s : sched) : Z * sched :=
  let slot := find_dead s in
  if (slot <? 0) && (task_count s <? MAX_TASKS) then (task_count s, set_task_count (task_count s + 1) s)
  else (slot, s).

(** Cleaning up a slot before it is used again. *)
Definition reap_slot (slot : Z) (s : sched) : sched :=
  emit (CFlushEvents slot) (emit (CUheapReset slot) (task_stack_free (stack_base (tasks s slot)) s)).

(** The new control block; fields the code does not write keep their values. *)
Definition new_task (slot frame stack pml4 ck prio knd u g parent ac : Z) (nm : list Z) (t : task) : task :=
  mkTask slot frame stack READY (task_strncpy (name t) nm 16) pml4 ck 0 prio (enqueue_ms t) knd u g parent 0 ac 0 false
    (fpu_state t) (fpu_initialized t).

(** [create_task_prio] up to the publication of the slot, [-1] if there is none; the stack
    has been allocated. *)
Definition create_task_begin (c stack prio : Z) (nm : list Z) (s : sched) : Z * sched :=
  let '(slot, s) := take_slot s in
  if slot <? 0 then (-1, task_stack_free stack s) else
  let s := reap_slot slot s in
  let parent := smp_current_task_id c s in
  let has_parent := (0 <=? parent) && (parent <? task_count s) in
  let p := tasks s parent in
  let t := if has_parent
    then new_task slot (first_frame stack) stack PHYS_NULL 0 prio TASK_KIND_KERNEL (uid p) (gid p) parent 0 nm (tasks s slot)
    else new_task slot (first_frame stack) stack PHYS_NULL 0 prio TASK_KIND_KERNEL 0 0 PROC_NO_PARENT 0 nm (tasks s slot) in
  (slot, emit (CVfsInit slot) (set_task slot t s)).

(** The end of [create_task_prio]. *)
Definition create_task_push (slot stack target me now : Z) (s : sched) : sched :=
  let '(r, s) := runq_push target slot now s in
  if negb (r =? 0) then task_stack_free stack (upd_task slot (λ t, set_rsp 0 (set_state DEAD t)) s) else
  if negb (target =? me) then emit (CReschedule target) s else s.

(** [create_user_task] up to the publication of the slot. *)
Definition create_user_begin (c stack pml4 ck ac : Z) (nm : list Z) (s : sched) : Z * sched :=
  let '(slot, s) := take_slot s in
  if slot <? 0 then (-1, task_stack_free stack s) else
  let s := reap_slot slot s in
  let creator := smp_current_task_id c s in
  if (creator <? 0) || (task_count s <=? creator) then (-1, task_stack_free stack s) else
  let p := tasks s creator in
  (slot, emit (CVfsInit slot) (set_task slot
    (new_task slot (first_frame stack) stack pml4 ck PRIO_NORMAL TASK_KIND_SPAWNED (uid p) (gid p) creator (i32 ac) nm
       (tasks s slot)) s)).

Definition bury (slot : Z) (s : sched) : sched :=
  upd_task slot (λ t, set_stack_base 0 (set_rsp 0 (set_state DEAD t))) s.

(** The rest of [create_user_task]: inheriting descriptors, when asked for, which can
    fail, and the push. *)
Definition create_user_inherit (slot stack creator : Z) (ok : bool) (s : sched) : Z * sched :=
  let s := emit (CVfsInherit slot creator) s in
  if ok then (slot, s) else (-1, task_stack_free stack (bury slot (emit (CVfsCloseAll slot) s))).

Definition create_user_push (slot stack target me now : Z) (s : sched) : Z * sched :=
  let '(r, s) := runq_push target slot now s in
  if negb (r =? 0) then (-1, task_stack_free stack (bury slot s)) else
  (slot, if negb (target =? me) then emit (CReschedule target) s else s).

(** [task_fork] from the stack allocation to the end of its section; [child_as] is the
    cloned address space, [heap_ok] whether cloning the heap description succeeds. *)
Definition fork_begin (parent stack child_as ck : Z) (heap_ok : bool) (s : sched) : Z * sched :=
  let '(slot, s) := take_slot s in
  if slot <? 0 then (-1, destroy_space child_as (task_stack_free stack s)) else
  let s := reap_slot slot s in
  let p := tasks s parent in
  let s := set_task slot (new_task slot 0 stack child_as ck PRIO_NORMAL TASK_KIND_SPAWNED (uid p) (gid p) parent (argc p)
    (name p) (tasks s slot)) s in
  let s := emit (CUheapClone slot parent) s in
  if heap_ok then (slot, s) else (-1, destroy_space child_as (task_stack_free stack (bury slot s))).

(** The frame of the child, at the top of its stack by the size without the guard. *)
Definition fork_forge (slot stack : Z) (s : sched) : sched :=
  upd_task slot (set_rsp (stack + TASK_STACK_SIZE - KZ_REGISTERS_SIZE)) s.

Definition fork_inherit (slot stack child_as parent : Z) (ok : bool) (s : sched) : Z * sched :=
  let s := emit (CVfsInherit slot parent) s in
  if ok then (slot, s) else (-1, destroy_space child_as (task_stack_free stack (emit (CUheapReset slot) (bury slot s)))).

Definition fork_push (slot stack child_as target me now : Z) (s : sched) : Z * sched :=
  let '(r, s) := runq_push target slot now s in
  if negb (r =? 0)
  then (-1, destroy_space child_as (task_stack_free stack (emit (CUheapReset slot) (emit (CVfsCloseAll slot) (bury slot s)))))
  else (slot, if negb (target =? me) then emit (CReschedule target) s else s).

(** The checks of [task_fork] before it clones. *)
Definition fork_allowed (parent : Z) (s : sched) : bool :=
  (0 <=? parent) && (parent <? MAX_TASKS) && negb (pml4_phys (tasks s parent) =? PHYS_NULL) && is_state RUNNING parent s.

(** ** Termination ([proc.c]) *)
Definition reparent (dying : Z) (s : sched) : sched :=
  for_each 0 (Z.min (task_count s) MAX_TASKS) (λ i s,
    if negb (is_state DEAD i s) && (parent_id (tasks s i) =? dying)
    then upd_task i (set_parent_id (if negb (dying =? 0) then 0 else PROC_NO_PARENT)) s else s) s.

Definition terminated (zombie : bool) (code reason : Z) (t : task) : task :=
  mkTask (id t) 0 0 (if zombie then ZOMBIE else DEAD) (name t) PHYS_NULL (cookie t) 0 (priority t) (enqueue_ms t)
    (kind t) (uid t) (gid t) (if zombie then parent_id t else PROC_NO_PARENT) code (argc t) reason false
    (fpu_state t) (fpu_initialized t).

(** [Some (stack, address space, state)] if the task was terminated; [switch_cpu] is the
    processor that runs on the dying address space. *)
Definition proc_transition_locked (tid code reason : Z) (switch_cpu : option Z) (s : sched) : option (Z * Z * sched) :=
  if (tid <? 0) || (task_count s <=? tid) then None else
  if is_state ZOMBIE tid s || is_state DEAD tid s then None else
  let s := reparent tid s in
  let t := tasks s tid in
  let parent := parent_id t in
  let zombie := (0 <? parent) && (parent <? task_count s) && negb (is_state DEAD parent s) && negb (is_state ZOMBIE parent s) in
  let s := match switch_cpu with
    | Some c => if negb (pml4_phys t =? PHYS_NULL) then set_cpu_cr3 c (kernel_pml4 s) s else s
    | None => s
    end in
  Some (stack_base t, pml4_phys t, set_task tid (terminated zombie code reason t) (emit (CUheapReset tid) s)).

(** What [proc_do_exit] does before it takes the locks. *)
Definition exit_cleanup (self : Z) (s : sched) : sched :=
  emit (CShmExit self) (emit (CKwmDestroy self) (emit (CFlushEvents self) (emit (CNetCleanup self) (emit (CVfsCloseAll self) s)))).

(** Its section: the stack and the address space it still has to free. *)
Definition exit_locked (c self code reason : Z) (s : sched) : option (Z * Z * sched) :=
  if negb (smp_current_task_id c s =? self) || (task_count s <=? self) then None else
  match proc_transition_locked self code reason (Some c) s with
  | None => None
  | Some (stack, pml4, s) => Some (stack, pml4, set_cpu c (-1) s)
  end.

(** Freeing what a terminated task had, at the end of an exit and of a kill. *)
Definition free_task (stack pml4 : Z) (s : sched) : sched :=
  task_stack_free stack (if negb (pml4 =? PHYS_NULL) then destroy_space pml4 s else s).

Definition proc_can_kill (caller_is_root : bool) (caller target_parent target : Z) (spawned alive : bool) : bool :=
  if negb alive || negb spawned then false else
  if target <? 0 then false else
  if target =? caller then true else
  if caller_is_root then true else
  if caller <? 0 then false else target_parent =? caller.

Definition is_root_task (c : Z) (s : sched) : bool :=
  let self := smp_current_task_id c s in
  if (self <? 0) || (task_count s <=? self) then true else uid (tasks s self) =? 0.

Definition kill_allowed (c pid : Z) (s : sched) : bool :=
  (0 <=? pid) && (pid <? MAX_TASKS) && (pid <? task_count s) &&
  proc_can_kill (is_root_task c s) (smp_current_task_id c s) (parent_id (tasks s pid)) pid
    (kind (tasks s pid) =? TASK_KIND_SPAWNED) (negb (is_state DEAD pid s) && negb (is_state ZOMBIE pid s)).

(** What [proc_kill] decides in its second section. *)
Inductive kill_plan := KillDenied | KillAgain | KillReady | KillFlag.

Definition proc_kill_begin (c pid : Z) (s : sched) : kill_plan * sched :=
  if negb (kill_allowed c pid s) then (KillDenied, s) else
  if kill_pending (tasks s pid) then (KillAgain, s) else
  if is_state READY pid s then (KillReady, scheduler_remove_task pid s) else
  (KillFlag, upd_task pid (set_kill_pending true) s).

(** The cleanup and the last section for a target that was ready: what is left to free,
    or nothing if the target is gone or to be woken. *)
Definition kill_cleanup (pid : Z) (s : sched) : sched :=
  emit (CKwmDestroy pid) (emit (CFlushEvents pid) (emit (CNetCleanup pid) (emit (CVfsCloseAll pid) s))).

Definition proc_kill_finish (pid : Z) (s : sched) : option (Z * Z) * bool * sched :=
  if (task_count s <=? pid) || is_state ZOMBIE pid s || is_state DEAD pid s then (None, false, s) else
  if negb (is_state READY pid s) then (None, true, upd_task pid (set_kill_pending true) s) else
  match proc_transition_locked pid PROC_KILL_EXIT_CODE PROC_EXIT_KILLED None s with
  | None => (None, false, s)
  | Some (stack, pml4, s) => (Some (stack, pml4), false, s)
  end.

(** One round of [proc_waitpid] under its locks. *)
Inductive wait_result := WaitNone | WaitReap (pid code : Z) | WaitHang | WaitBlock.

Definition is_child (self i : Z) (s : sched) : bool := negb (is_state DEAD i s) && (parent_id (tasks s i) =? self).

Definition wait_scan (self pid : Z) (s : sched) : bool * Z :=
  let lim := Z.min (task_count s) MAX_TASKS in
  if pid =? PROC_WAIT_ANY then
    match for_range 0 lim (λ i have, if negb (is_child self i s) then inr have else
            if is_state ZOMBIE i s then inl i else inr true) false with
    | inl i => (true, i)
    | inr have => (have, -1)
    end
  else if (pid <? lim) && is_child self pid s then (true, if is_state ZOMBIE pid s then pid else -1)
  else (false, -1).

Definition reaped (t : task) : task :=
  mkTask (id t) 0 (stack_base t) DEAD (name t) (pml4_phys t) (cookie t) (wake_at_ms t) (priority t) (enqueue_ms t)
    (kind t) (uid t) (gid t) PROC_NO_PARENT (exit_code t) 0 PROC_EXIT_NORMAL false (fpu_state t) (fpu_initialized t).

Definition proc_waitpid_round (c pid options : Z) (s : sched) : wait_result * sched :=
  if negb (options =? 0) && negb (options =? PROC_WNOHANG) then (WaitNone, s) else
  let self := smp_current_task_id c s in
  if (self <? 0) || (MAX_TASKS <=? self) then (WaitNone, s) else
  if negb (pid =? PROC_WAIT_ANY) && ((pid <? 0) || (MAX_TASKS <=? pid)) then (WaitNone, s) else
  let '(have, target) := wait_scan self pid s in
  if negb have then (WaitNone, s) else
  if 0 <=? target then (WaitReap target (exit_code (tasks s target)), upd_task target reaped s) else
  if options =? PROC_WNOHANG then (WaitHang, s) else (WaitBlock, s).
