(* ===== verification/TaskSpec.v ===== *)
(** What single operations of [Sched] do: the floating point registers across context
    switches ([kernel/sched/fpu.c]), waking a task that is about to park
    ([kernel/sched/block.c]), and the exit code on its way from [proc_exit] to
    [proc_waitpid] ([kernel/proc/proc.c]). *)

From S2P Require Import Prelude RunQueue Sched.

Implicit Types s : sched.

(** ** Floating point registers *)

(** What happens on the processors: a context switch, and a program that computes. *)
Inductive fpu_event := FSwitch (c prev next : Z) | FCompute (c : Z) (img : list Z).

Definition fpu_run s (e : fpu_event) : sched :=
  match e with
  | FSwitch c prev next => fpu_switch c prev next s
  | FCompute c img => set_live_fpu c img s
  end.

(** Task [t] is not the one that leaves or enters a processor. *)
Definition avoids (t : Z) (e : fpu_event) : Prop :=
  match e with FSwitch _ prev next => prev ≠ t ∧ next ≠ t | FCompute _ _ => True end.

Definition saved (t : Z) (img : list Z) s : Prop := fpu_state (tasks s t) = img ∧ fpu_initialized (tasks s t) = true.

Lemma fpu_switch_other c prev next t img s : prev ≠ t → next ≠ t → saved t img s → saved t img (fpu_switch c prev next s).
Proof.
  intros Hp Hn Hs. unfold fpu_switch. set (s1 := if (0 <=? prev) && _ then _ else s).
  assert (H1 : saved t img s1).
  { unfold s1. destruct ((0 <=? prev) && _); [|done]. unfold saved. rewrite tasks_upd. by destruct (Z.eqb_spec t prev); [congruence|]. }
  clearbody s1. destruct ((0 <=? next) && _); [|done]. destruct (fpu_initialized _); [done|].
  unfold saved. cbn [tasks set_live_fpu]. rewrite tasks_upd. by destruct (Z.eqb_spec t next); [congruence|].
Qed.

Lemma fpu_switch_saves c t next s : 0 ≤ t < MAX_TASKS → next ≠ t → saved t (fpu s c) (fpu_switch c t next s).
Proof.
  intros Ht Hn. unfold fpu_switch. rewrite (proj2 (Z.leb_le 0 t)), (proj2 (Z.ltb_lt t MAX_TASKS)) by lia. cbn [andb].
  set (s1 := upd_task t (set_fpu (fpu s c) true) s).
  assert (H1 : saved t (fpu s c) s1) by (unfold saved, s1; rewrite tasks_upd, Z.eqb_refl; done).
  clearbody s1. destruct ((0 <=? next) && _); [|done]. destruct (fpu_initialized _); [done|].
  unfold saved. cbn [tasks set_live_fpu]. rewrite tasks_upd. by destruct (Z.eqb_spec t next); [congruence|].
Qed.

Lemma fpu_run_saved t img evs s : Forall (avoids t) evs → saved t img s → saved t img (foldl fpu_run s evs).
Proof.
  intros H. revert s. induction H as [|e evs He _ IH]; intros s Hs; [done|]. cbn [foldl]. apply IH.
  destruct e as [c p n|c i]; [destruct He; by apply fpu_switch_other|done].
Qed.

(** C37: a task that is switched off a processor and later back on one, the same or
    another, finds its floating point registers as it left them, whatever the other tasks
    computed and however they were switched in between. *)
Theorem fpu_preserved c t n evs c' q s :
  0 ≤ t < MAX_TASKS → n ≠ t → q ≠ t → Forall (avoids t) evs →
  fpu (fpu_switch c' q t (foldl fpu_run (fpu_switch c t n s) evs)) c' = fpu s c.
Proof.
  intros Ht Hn Hq Hev. pose proof (fpu_run_saved t _ evs _ Hev (fpu_switch_saves c t n s Ht Hn)) as H.
  set (s2 := foldl _ _ evs) in *. clearbody s2. unfold fpu_switch at 1.
  set (s3 := if (0 <=? q) && _ then _ else s2).
  assert (H3 : saved t (fpu s c) s3).
  { unfold s3. destruct ((0 <=? q) && _); [|done]. unfold saved. rewrite tasks_upd. by destruct (Z.eqb_spec t q); [congruence|]. }
  clearbody s3. destruct H3 as [H4 H5]. rewrite (proj2 (Z.leb_le 0 t)), (proj2 (Z.ltb_lt t MAX_TASKS)) by lia. cbn [andb].
  rewrite H5, H4. cbn. unfold fset. by rewrite Z.eqb_refl.
Qed.

Definition demo_boot_state : sched := tasking_init 4096 (λ c, replicate 512 (c + 1)) (λ c, 65536 * (c + 1)).

Lemma fpu_preserved_witness :
  0 ≤ 0 < MAX_TASKS ∧
  fpu (fpu_switch 3 2 0 (foldl fpu_run (fpu_switch 1 0 1 demo_boot_state)
    [FCompute 1 (replicate 512 9); FSwitch 1 1 2; FSwitch 3 (-1) 1])) 3 = replicate 512 2.
Proof.
  split; [done|]. apply (fpu_preserved 1 0 1 [FCompute 1 (replicate 512 9); FSwitch 1 1 2; FSwitch 3 (-1) 1] 3 2 demo_boot_state); try done.
  repeat constructor; done.
Defined.

(** Creating a task in the slot of one that ended does not reset its floating point
    state: the first switch to the new task loads the registers the old task was switched
    off with, so one program can read what another computed. *)
Theorem fpu_leaks_to_new_task c stack pml4 ck ac nm slot s s1 c' q :
  create_user_begin c stack pml4 ck ac nm s = (slot, s1) → 0 ≤ slot < MAX_TASKS → fpu_initialized (tasks s slot) = true → q ≠ slot →
  fpu (fpu_switch c' q slot s1) c' = fpu_state (tasks s slot).
Proof.
  unfold create_user_begin. destruct (take_slot s) as [sl s0] eqn:Et.
  assert (H0 : tasks s0 = tasks s) by (unfold take_slot in Et; destruct (_ && _); injection Et as <- <-; done).
  destruct (Z.ltb_spec sl 0); [intros E; injection E as <- <-; lia|].
  assert (H1 : tasks (reap_slot sl s0) = tasks s) by (unfold reap_slot, task_stack_free; rewrite <- H0; by destruct (_ =? 0)).
  set (s2 := reap_slot sl s0) in *. clearbody s2. destruct (_ || _); [intros E; injection E as <- <-; lia|].
  intros E Hr Hi Hq. injection E as <- <-. unfold fpu_switch. set (s3 := set_task sl _ s2).
  assert (H3 : saved sl (fpu_state (tasks s sl)) (emit (CVfsInit sl) s3)).
  { unfold saved. cbn. unfold fset. rewrite Z.eqb_refl. cbn. by rewrite H1. }
  set (s4 := emit _ s3) in *. clearbody s4. set (s5 := if (0 <=? q) && _ then _ else s4).
  assert (H5 : saved sl (fpu_state (tasks s sl)) s5).
  { unfold s5. destruct ((0 <=? q) && _); [|done]. unfold saved. rewrite tasks_upd. by destruct (Z.eqb_spec sl q); [congruence|]. }
  clearbody s5. destruct H5 as [H6 H7]. rewrite (proj2 (Z.leb_le 0 sl)), (proj2 (Z.ltb_lt sl MAX_TASKS)) by lia. cbn [andb].
  rewrite H7, H6. cbn. unfold fset. by rewrite Z.eqb_refl.
Qed.

(** Slot 1 was used, and its task ended. *)
Definition demo_used : sched := set_task_count 2 (upd_task 1 (set_fpu [7; 8; 9] true) demo_boot_state).

Lemma fpu_leaks_to_new_task_witness :
  (create_user_begin 0 8192 12288 1 0 [0] demo_used).1 = 1 ∧
  fpu (fpu_switch 2 (-1) 1 (create_user_begin 0 8192 12288 1 0 [0] demo_used).2) 2 = [7; 8; 9].
Proof.
  assert (H1 : (create_user_begin 0 8192 12288 1 0 [0] demo_used).1 = 1) by reflexivity. split; [done|].
  apply (fpu_leaks_to_new_task 0 8192 12288 1 0 [0] 1 demo_used); [|done|reflexivity|done].
  rewrite (surjective_pairing (create_user_begin 0 8192 12288 1 0 [0] demo_used)) at 1. by rewrite H1.
Defined.

(** ** Waking *)
Lemma on_cpu_found i s c : 0 ≤ c < SMP_MAX_CPUS → cpu_current_task s c = i → 0 ≤ on_cpu i s.
Proof.
  intros Hc He. unfold on_cpu.
  pose proof (for_range_rule (λ k (_ : unit), k ≤ c) (λ c, 0 ≤ c) 0 SMP_MAX_CPUS
    (λ c (_ : unit), if cpu_current_task s c =? i then inl c else inr tt) tt ltac:(cbv beta; lia)) as H.
  assert (Hb : ∀ j (u : unit), 0 ≤ j < SMP_MAX_CPUS → j ≤ c →
    match (if cpu_current_task s j =? i then inl j else inr tt) with inl c => 0 ≤ c | inr _ => j + 1 ≤ c end).
  { intros j _ Hj Hl. destruct (Z.eqb_spec (cpu_current_task s j) i) as [|Hne]; [lia|]. assert (j ≠ c) by (intros ->; congruence). lia. }
  specialize (H Hb). destruct (for_range _ _ _ _) as [k|u]; [done|]. cbv beta in H. lia.
Qed.

(** No wakeup is lost between the decision to park and the parking.  If a task has
    marked itself blocked or sleeping and another processor wakes it before it has left its
    processor, it is running again in place, its deadline is cleared, nothing is pushed to a
    queue and its processor is told. *)
Theorem no_lost_wakeup c v s self s1 :
  0 ≤ c < SMP_MAX_CPUS → task_count s ≤ MAX_TASKS → block_prepare c v s = (self, s1) → 0 ≤ self →
  state (tasks s1 self) = v ∧ cpu_current_task s1 c = self ∧
  ∃ cpu s2, unblock_begin self s1 = (false, s2) ∧ cpu = on_cpu self s1 ∧ calls s2 = calls s ++ [CReschedule cpu] ∧
    state (tasks s2 self) = RUNNING ∧ wake_at_ms (tasks s2 self) = 0 ∧ cpu_runqueues s2 = cpu_runqueues s ∧
    cpu_current_task s2 = cpu_current_task s ∧ ∀ j, j ≠ self → tasks s2 j = tasks s j.
Proof.
  intros Hc Hm. unfold block_prepare, smp_current_task_id. destruct (Z.leb_spec SMP_MAX_CPUS c); [lia|].
  destruct (negb (tstate_eqb v SLEEPING) && negb (tstate_eqb v BLOCKED)) eqn:Ev; [intros E; injection E as <- <-; lia|].
  destruct (_ || _) eqn:Ec; [intros E; injection E as <- <-; lia|]. destruct (negb (is_state RUNNING _ s)); [intros E; injection E as <- <-; lia|].
  intros E H0. injection E as Hself <-. set (s1 := upd_task _ _ s). rewrite Hself in *.
  apply orb_false_iff in Ec as [_ Hlt%Z.leb_gt].
  assert (Hst : state (tasks s1 self) = v) by (unfold s1; rewrite tasks_upd, Hself, Z.eqb_refl; done).
  assert (Hcur : cpu_current_task s1 c = self) by (by unfold s1).
  split; [done|]. split; [done|]. pose proof (on_cpu_found self s1 c Hc Hcur) as Hon.
  unfold unblock_begin. destruct (Z.ltb_spec self 0); [lia|]. destruct (Z.leb_spec MAX_TASKS self); [lia|]. cbn [orb].
  unfold is_state. rewrite Hst, Ev. destruct (Z.leb_spec 0 (on_cpu self s1)); [|lia]. eexists _, _. split; [done|].
  split; [done|]. split; [done|]. cbn [tasks emit]. setoid_rewrite tasks_upd. setoid_rewrite tasks_upd. rewrite Z.eqb_refl.
  split; [done|]. split; [done|]. split; [done|]. split; [done|]. intros j Hj.
  destruct (Z.eqb_spec j self); [done|]. unfold s1. rewrite Hself, !tasks_upd. by destruct (Z.eqb_spec j self).
Qed.

Lemma no_lost_wakeup_witness :
  block_prepare 0 BLOCKED demo_boot_state = (0, upd_task 0 (set_state BLOCKED) demo_boot_state) ∧
  ∃ s2, unblock_begin 0 (upd_task 0 (set_state BLOCKED) demo_boot_state) = (false, s2) ∧ state (tasks s2 0) = RUNNING.
Proof.
  split; [reflexivity|].
  destruct (no_lost_wakeup 0 BLOCKED demo_boot_state 0 (upd_task 0 (set_state BLOCKED) demo_boot_state)) as (_ & _ & cpu & s2 & H & _ & _ & Hr & _);
    [done|done|reflexivity|done|]. by exists s2.
Defined.

(** ** Exit codes *)
Definition adopted (d : Z) (t : task) : task :=
  if negb (tstate_eqb (state t) DEAD) && (parent_id t =? d)
  then set_parent_id (if negb (d =? 0) then 0 else PROC_NO_PARENT) t else t.

Lemma reparent_tasks d s :
  task_count s ≤ MAX_TASKS →
  (∀ i, tasks (reparent d s) i = if (0 <=? i) && (i <? task_count s) then adopted d (tasks s i) else tasks s i) ∧
  task_count (reparent d s) = task_count s ∧ cpu_current_task (reparent d s) = cpu_current_task s.
Proof.
  intros Hm. unfold reparent. rewrite Z.min_l by done.
  pose proof (for_each_rule (λ k s1, (∀ i, tasks s1 i = if (0 <=? i) && (i <? k) then adopted d (tasks s i) else tasks s i) ∧
    task_count s1 = task_count s ∧ cpu_current_task s1 = cpu_current_task s) 0 (task_count s) (λ i s,
    if negb (is_state DEAD i s) && (parent_id (tasks s i) =? d)
    then upd_task i (set_parent_id (if negb (d =? 0) then 0 else PROC_NO_PARENT)) s else s) s) as H.
  cbv beta in H. destruct H as (H1 & H2); [split; [|done]; intros i; zcase; lia || done| |].
  - intros j s1 Hj (Ht & Hc & Hcu). assert (Hj' : tasks s1 j = tasks s j) by (rewrite Ht; zcase; lia || done).
    unfold is_state. rewrite Hj'. fold (negb (tstate_eqb (state (tasks s j)) DEAD) && (parent_id (tasks s j) =? d)).
    destruct (negb (tstate_eqb (state (tasks s j)) DEAD) && (parent_id (tasks s j) =? d)) eqn:E; (split; [|done]); intros i.
    + rewrite tasks_upd, Hj', Ht. destruct (Z.eqb_spec i j) as [->|]; [|zcase; lia || done].
      unfold adopted. rewrite E. zcase; lia || done.
    + rewrite Ht. destruct (decide (i = j)) as [->|]; [|zcase; lia || done]. unfold adopted. rewrite E. zcase; lia || done.
  - split; [|done]. intros i. rewrite H1. zcase; lia || done.
Qed.

(** What [exit_locked] leaves for a parent that is there to see it. *)
Lemma exit_locked_zombie c self code reason s stack space s1 :
  exit_locked c self code reason s = Some (stack, space, s1) → task_count s ≤ MAX_TASKS →
  0 < parent_id (tasks s self) < task_count s → parent_id (tasks s self) ≠ self →
  state (tasks s (parent_id (tasks s self))) ≠ DEAD → state (tasks s (parent_id (tasks s self))) ≠ ZOMBIE →
  0 ≤ self < task_count s ∧ stack = stack_base (tasks s self) ∧ space = pml4_phys (tasks s self) ∧ task_count s1 = task_count s ∧
  (∀ c', c' ≠ c → cpu_current_task s1 c' = cpu_current_task s c') ∧
  tasks s1 self = terminated true code reason (tasks s self) ∧
  ∀ i, 0 ≤ i < task_count s → i ≠ self → tasks s1 i = adopted self (tasks s i).
Proof.
  intros E Hm Hp Hne Hd Hz. unfold exit_locked in E. destruct (_ || _); [done|]. unfold proc_transition_locked in E.
  destruct (Z.ltb_spec self 0); [done|]. destruct (Z.leb_spec (task_count s) self); [done|]. cbn [orb] in E.
  destruct (_ || _); [done|]. destruct (reparent_tasks self s Hm) as (Ht & Hc & Hcu). set (s0 := reparent self s) in *. clearbody s0.
  assert (Hself : tasks s0 self = tasks s self).
  { rewrite Ht. unfold adopted. destruct (Z.eqb_spec (parent_id (tasks s self)) self); [done|]. 
    by destruct (0 <=? self), (self <? task_count s), (tstate_eqb (state (tasks s self)) DEAD). }
  assert (Hst : ∀ i, state (tasks s0 i) = state (tasks s i)).
  { intros i. rewrite Ht. unfold adopted. by repeat case_match. }
  rewrite Hself, Hc in E.
  assert (Hz' : (0 <? parent_id (tasks s self)) && (parent_id (tasks s self) <? task_count s) &&
    negb (is_state DEAD (parent_id (tasks s self)) s0) && negb (is_state ZOMBIE (parent_id (tasks s self)) s0) = true).
  { unfold is_state, tstate_eqb. rewrite Hst, !bool_decide_false by done. zcase; lia || done. }
  rewrite Hz' in E. injection E as <- <- <-. set (s2 := if negb (pml4_phys (tasks s self) =? PHYS_NULL) then _ else s0).
  assert (H2 : tasks s2 = tasks s0 ∧ task_count s2 = task_count s0 ∧ cpu_current_task s2 = cpu_current_task s0)
    by (unfold s2; by destruct (pml4_phys (tasks s self) =? PHYS_NULL)).
  destruct H2 as (T1 & T2 & T3). cbn. unfold fset. rewrite T1, T2, T3, Hc, Hcu, Z.eqb_refl. split_and!; try done; try lia.
  - intros c' Hc'. by destruct (Z.eqb_spec c' c).
  - intros i Hi Hne'. destruct (Z.eqb_spec i self); [done|]. rewrite Ht. zcase; lia || done.
Qed.

(** C22: the exit code reaches the parent.  When a task exits while its parent is alive, it
    is a zombie, its children belong to the first task, and the next [proc_waitpid] the
    parent makes for it returns its number and the code it exited with; after that the slot
    is free and waiting for it again fails. *)
Theorem exit_wait_roundtrip c self code reason s stack space s1 cp :
  exit_locked c self code reason s = Some (stack, space, s1) → self ≠ 0 → 1 ≤ task_count s ≤ MAX_TASKS →
  0 < parent_id (tasks s self) < task_count s → parent_id (tasks s self) ≠ self →
  state (tasks s (parent_id (tasks s self))) ≠ DEAD → state (tasks s (parent_id (tasks s self))) ≠ ZOMBIE →
  0 ≤ cp < SMP_MAX_CPUS → cp ≠ c → cpu_current_task s cp = parent_id (tasks s self) →
  state (tasks s1 self) = ZOMBIE ∧
  (∀ i, 0 ≤ i < task_count s → i ≠ self → state (tasks s i) ≠ DEAD → parent_id (tasks s i) = self → parent_id (tasks s1 i) = 0) ∧
  ∃ s2, proc_waitpid_round cp self 0 s1 = (WaitReap self code, s2) ∧ state (tasks s2 self) = DEAD ∧
    (proc_waitpid_round cp self 0 s2).1 = WaitNone ∧ ∀ j, j ≠ self → tasks s2 j = tasks s1 j.
Proof.
  intros E H0 Hm Hp Hne Hd Hz Hcp Hcc Hcur.
  destruct (exit_locked_zombie c self code reason s stack space s1 E ltac:(lia) Hp Hne Hd Hz) as (Hs & _ & _ & Hcn & Hcu & Hself & Hoth).
  split; [by rewrite Hself|]. split.
  { intros i Hi Hi' Hdi Hpi. rewrite Hoth by done. unfold adopted, tstate_eqb. rewrite bool_decide_false, Hpi, Z.eqb_refl by done.
    cbn [negb andb]. by destruct (Z.eqb_spec self 0). }
  assert (Hround : ∀ sx, task_count sx = task_count s → cpu_current_task sx cp = parent_id (tasks s self) →
    proc_waitpid_round cp self 0 sx = if is_child (parent_id (tasks s self)) self sx
      then (if is_state ZOMBIE self sx then (WaitReap self (exit_code (tasks sx self)), upd_task self reaped sx) else (WaitBlock, sx))
      else (WaitNone, sx)).
  { intros sx Hcx Hpx. unfold proc_waitpid_round. cbn [Z.eqb negb andb]. unfold smp_current_task_id.
    destruct (Z.leb_spec SMP_MAX_CPUS cp); [lia|]. rewrite Hpx. destruct (Z.ltb_spec (parent_id (tasks s self)) 0); [lia|].
    destruct (Z.leb_spec MAX_TASKS (parent_id (tasks s self))); [lia|]. cbn [orb].
    destruct (Z.ltb_spec self 0); [lia|]. destruct (Z.leb_spec MAX_TASKS self); [lia|]. cbn [orb]. rewrite andb_false_r.
    unfold wait_scan. destruct (Z.eqb_spec self PROC_WAIT_ANY); [unfold PROC_WAIT_ANY in *; lia|]. rewrite Hcx.
    destruct (Z.ltb_spec self (Z.min (task_count s) MAX_TASKS)); [|lia]. cbn [andb].
    destruct (is_child _ _ _); [|done]. cbn [negb]. destruct (is_state ZOMBIE self sx); [destruct (Z.leb_spec 0 self); [done|lia]|done]. }
  rewrite Hround by (done || by rewrite Hcu by done). unfold is_child, is_state. rewrite Hself. cbn [state terminated parent_id exit_code].
  rewrite Z.eqb_refl. change (tstate_eqb ZOMBIE DEAD) with false. change (tstate_eqb ZOMBIE ZOMBIE) with true. cbn [negb andb]. eexists. split; [done|]. rewrite tasks_upd, Z.eqb_refl. split; [done|]. split.
  - rewrite Hround; [|done|by rewrite <- Hcur, <- Hcu]. unfold is_child, is_state. by rewrite tasks_upd, Z.eqb_refl.
  - intros j Hj. rewrite tasks_upd. by destruct (Z.eqb_spec j self).
Qed.

(** Task 2 exits on processor 1; its parent 1 is on processor 2, its child 3 sleeps. *)
Definition demo_family : sched :=
  let t v p := mkTask 0 1 0 v (replicate 16 0) PHYS_NULL 0 0 1 0 TASK_KIND_SPAWNED 0 0 p 0 0 0 false [] false in
  mkSched (λ i, if i =? 1 then t RUNNING 0 else if i =? 2 then t RUNNING 1 else t SLEEPING 2) 4 0
    (λ c, if c =? 1 then 2 else if c =? 2 then 1 else -1) (λ _, []) (λ _, 4096) (λ _, []) ∅ ∅ 4096 (λ _, 0) [].

Lemma exit_wait_roundtrip_witness :
  ∃ st sp s1 s2, exit_locked 1 2 (-7) PROC_EXIT_NORMAL demo_family = Some (st, sp, s1) ∧
    proc_waitpid_round 2 2 0 s1 = (WaitReap 2 (-7), s2) ∧ parent_id (tasks s1 3) = 0.
Proof.
  destruct (exit_locked 1 2 (-7) PROC_EXIT_NORMAL demo_family) as [[[st sp] s1]|] eqn:E; [|discriminate].
  destruct (exit_wait_roundtrip 1 2 (-7) PROC_EXIT_NORMAL demo_family st sp s1 2 E) as (_ & Ho & s2 & Hw & _); try done.
  exists st, sp, s1, s2. split; [done|]. split; [done|]. by apply Ho.
Defined.
