(* ===== verification/SchedSys.v ===== *)
(** The scheduler as a system: the sections of [Sched] interleaved by the processors
    ([sstep]), and the invariant [inv] of the states that are reached, with its lemmas on
    queues and hands.

    A section that runs under [scheduler_lock] is one step.  What a function still has to
    do after its section is a [hand]: a task it is about to push to a run queue, a task it
    is about to terminate, a stack and an address space it is about to free.  The run
    queues have locks of their own, so a push can come between the parts of
    [schedule_on_cpu], which is why that function is three steps. *)

From stdpp Require Import relations.
From S2P Require Import Prelude RunQueue Sched.

(** ** The system *)
Inductive hand :=
| HPush (tid : Z)                                  (* unblock_task, before runq_push *)
| HNew (tid stack : Z) (space : option Z)          (* create_task_prio or create_user_task, before runq_push *)
| HFork (tid stack space : Z) (forged : bool)      (* task_fork, before runq_push *)
| HSched (c regs cur : Z) (running blocked : bool) (next : Z)   (* schedule_on_cpu, lock held *)
| HKill (pid : Z)                                  (* proc_kill of a ready task, after the purge *)
| HFree (stack space : Z).                         (* an exit or a kill, after the transition *)

Record sys := mkSys { sc : sched; hands : list hand }.
Implicit Types (s : sched) (x : sys) (h : list hand).

Definition holds_lock (a : hand) : bool := match a with HSched _ _ _ _ _ _ => true | _ => false end.
Definition unlocked x : Prop := Forall (λ a, holds_lock a = false) (hands x).

Definition with_stack (b : Z) s : sched := set_stacks ({[b]} ∪ stacks s) s.
Definition with_space (p : Z) s : sched := set_spaces ({[p]} ∪ spaces s) s.

(** A processor, and a stack and an address space that are new. *)
Definition is_cpu (c : Z) : Prop := 0 ≤ c < SMP_MAX_CPUS.
Definition new_stack (b : Z) s : Prop := 0 < b ∧ b ∉ stacks s.
Definition new_space (p : Z) s : Prop := 0 < p ∧ p ≠ kernel_pml4 s ∧ p ∉ spaces s.

(** With [strict], a kill that finds its target ready finds it on a run queue, that is, not
    between the end of a section and the push. *)
Inductive sstep (strict : bool) : sys → sys → Prop :=
| st_pick x c regs um now cur run blk s1 next s2 :
    unlocked x → is_cpu c → 0 < regs → proc_observe_kill_sched c um (sc x) = false → 0 < task_count (sc x) →
    outgoing c (sc x) = (cur, run, blk, s1) → runq_pop c now s1 = (next, s2) →
    sstep strict x (mkSys s2 (HSched c regs cur run blk next :: hands x))
| st_steal x h1 h2 c regs cur run blk old v now next s1 :
    hands x = h1 ++ HSched c regs cur run blk old :: h2 → old < 0 → is_cpu v → v ≠ c →
    runq_pop v now (sc x) = (next, s1) →
    sstep strict x (mkSys s1 (h1 ++ HSched c regs cur run blk next :: h2))
| st_switch x h1 h2 c regs cur run blk next now r s1 :
    hands x = h1 ++ HSched c regs cur run blk next :: h2 →
    schedule_with c regs cur run blk next now (sc x) = (r, s1) → sstep strict x (mkSys s1 (h1 ++ h2))
| st_block x c v i s1 : unlocked x → is_cpu c → block_prepare c v (sc x) = (i, s1) → sstep strict x (mkSys s1 (hands x))
| st_sleep x c ms now i s1 :
    unlocked x → is_cpu c → task_sleep_ms c ms now (sc x) = (i, s1) → sstep strict x (mkSys s1 (hands x))
| st_unblock x tid push s1 :
    unlocked x → unblock_begin tid (sc x) = (push, s1) →
    sstep strict x (mkSys s1 (if push then HPush tid :: hands x else hands x))
| st_push x h1 h2 tid target me now :
    hands x = h1 ++ HPush tid :: h2 → is_cpu target →
    sstep strict x (mkSys (unblock_push tid target me now (sc x)) (h1 ++ h2))
| st_create x c stack prio nm slot s1 :
    unlocked x → is_cpu c → new_stack stack (sc x) →
    create_task_begin c stack prio nm (with_stack stack (sc x)) = (slot, s1) →
    sstep strict x (mkSys s1 (if slot <? 0 then hands x else HNew slot stack None :: hands x))
| st_create_push x h1 h2 slot stack target me now :
    hands x = h1 ++ HNew slot stack None :: h2 → is_cpu target →
    sstep strict x (mkSys (create_task_push slot stack target me now (sc x)) (h1 ++ h2))
| st_user x c stack space ck ac nm slot s1 :
    unlocked x → is_cpu c → new_stack stack (sc x) → new_space space (sc x) →
    create_user_begin c stack space ck ac nm (with_space space (with_stack stack (sc x))) = (slot, s1) →
    sstep strict x (if slot <? 0 then mkSys (destroy_space space s1) (hands x)
                    else mkSys s1 (HNew slot stack (Some space) :: hands x))
| st_user_inherit x h1 h2 slot stack space creator ok r s1 :
    unlocked x → hands x = h1 ++ HNew slot stack (Some space) :: h2 →
    create_user_inherit slot stack creator ok (sc x) = (r, s1) →
    sstep strict x (if r <? 0 then mkSys (destroy_space space s1) (h1 ++ h2) else mkSys s1 (hands x))
| st_user_push x h1 h2 slot stack space target me now r s1 :
    hands x = h1 ++ HNew slot stack (Some space) :: h2 → is_cpu target →
    create_user_push slot stack target me now (sc x) = (r, s1) →
    sstep strict x (mkSys (if r <? 0 then destroy_space space s1 else s1) (h1 ++ h2))
| st_fork x c stack space ck heap_ok slot s1 :
    unlocked x → is_cpu c → new_stack stack (sc x) → new_space space (sc x) →
    fork_allowed (cpu_current_task (sc x) c) (sc x) = true →
    fork_begin (cpu_current_task (sc x) c) stack space ck heap_ok (with_space space (with_stack stack (sc x))) = (slot, s1) →
    sstep strict x (mkSys s1 (if slot <? 0 then hands x else HFork slot stack space false :: hands x))
| st_forge x h1 h2 slot stack space :
    hands x = h1 ++ HFork slot stack space false :: h2 →
    sstep strict x (mkSys (fork_forge slot stack (sc x)) (h1 ++ HFork slot stack space true :: h2))
| st_fork_inherit x h1 h2 slot stack space parent ok r s1 :
    unlocked x → hands x = h1 ++ HFork slot stack space true :: h2 →
    fork_inherit slot stack space parent ok (sc x) = (r, s1) →
    sstep strict x (mkSys s1 (if r <? 0 then h1 ++ h2 else hands x))
| st_fork_push x h1 h2 slot stack space target me now r s1 :
    hands x = h1 ++ HFork slot stack space true :: h2 → is_cpu target →
    fork_push slot stack space target me now (sc x) = (r, s1) → sstep strict x (mkSys s1 (h1 ++ h2))
| st_exit x c self code reason stack space s1 :
    unlocked x → is_cpu c → self = cpu_current_task (sc x) c → 0 ≤ self < MAX_TASKS →
    exit_locked c self code reason (exit_cleanup self (sc x)) = Some (stack, space, s1) →
    sstep strict x (mkSys s1 (HFree stack space :: hands x))
| st_kill x c pid plan s1 :
    unlocked x → is_cpu c → pid ≠ cpu_current_task (sc x) c → proc_kill_begin c pid (sc x) = (plan, s1) →
    (strict = true → plan = KillReady → ∃ q, is_cpu q ∧ pid ∈ cpu_runqueues (sc x) q) →
    sstep strict x (mkSys s1 (match plan with KillReady => HKill pid :: hands x | _ => hands x end))
| st_kill_finish x h1 h2 pid left wake s1 :
    unlocked x → hands x = h1 ++ HKill pid :: h2 → proc_kill_finish pid (kill_cleanup pid (sc x)) = (left, wake, s1) →
    sstep strict x (mkSys s1 (match left with Some (stack, space) => HFree stack space :: h1 ++ h2 | None => h1 ++ h2 end))
| st_free x h1 h2 stack space :
    hands x = h1 ++ HFree stack space :: h2 → sstep strict x (mkSys (free_task stack space (sc x)) (h1 ++ h2))
| st_reap x c pid options r s1 :
    unlocked x → is_cpu c → proc_waitpid_round c pid options (sc x) = (r, s1) → sstep strict x (mkSys s1 (hands x))
| st_compute x c img : is_cpu c → length img = 512%nat → sstep strict x (mkSys (set_live_fpu c img (sc x)) (hands x)).

(** ** Counting *)
Definition total (f : Z → nat) : nat := sum_list_with f (seqZ 0 16).

(** 1 if the numbers are equal. *)
Definition same (a b : Z) : nat := if a =? b then 1%nat else 0%nat.

Definition occ (i : Z) (q : list Z) : nat := length (filter (λ j, j = i) q).

(** The tokens of a task: its entries in run queues, and the hands that stand for one. *)
Definition queued s (i : Z) : nat := total (λ c, occ i (cpu_runqueues s c)).
Definition hand_tok (i : Z) (a : hand) : nat :=
  match a with
  | HPush t | HNew t _ _ | HFork t _ _ _ | HSched _ _ _ _ _ t | HKill t => same t i
  | HFree _ _ => 0%nat
  end.
Definition handed h (i : Z) : nat := sum_list_with (hand_tok i) h.
Definition tok x (i : Z) : nat := (queued (sc x) i + handed (hands x) i)%nat.

(** The processors a task is current on. *)
Definition cpus s (i : Z) : nat := total (λ c, same (cpu_current_task s c) i).

Lemma sum_list_fset (f : Z → nat) c v l :
  NoDup l → c ∈ l → (sum_list_with (fset c v f) l + f c = sum_list_with f l + v)%nat.
Proof.
  intros Hnd. induction Hnd as [|y l Hy Hnd IH]; [by intros ?%elem_of_nil|]. cbn [sum_list_with].
  intros [->|Hc]%elem_of_cons.
  - unfold fset at 1. rewrite Z.eqb_refl. assert (Heq : sum_list_with (fset y v f) l = sum_list_with f l); [|lia].
    clear IH Hnd. induction l as [|z l IH]; [done|]. apply not_elem_of_cons in Hy as [Hz Hy]. cbn [sum_list_with].
    rewrite IH by done. unfold fset. by destruct (Z.eqb_spec z y); [congruence|].
  - specialize (IH Hc). unfold fset at 1. destruct (Z.eqb_spec y c) as [->|]; [done|]. lia.
Qed.

Lemma total_fset f c v : is_cpu c → (total (fset c v f) + f c = total f + v)%nat.
Proof.
  intros Hc. apply sum_list_fset; [apply NoDup_seqZ|]. apply elem_of_seqZ. unfold is_cpu, SMP_MAX_CPUS in Hc. lia.
Qed.

Lemma total_ext f g : (∀ c, is_cpu c → f c = g c) → total f = total g.
Proof.
  intros H. unfold total. assert (Hin : ∀ c, c ∈ seqZ 0 16 → f c = g c).
  { intros c Hc%elem_of_seqZ. apply H. unfold is_cpu, SMP_MAX_CPUS. lia. }
  revert Hin. generalize (seqZ 0 16). induction l as [|c l IH]; intros Hin; [done|]. cbn [sum_list_with].
  rewrite (Hin c) by set_solver. rewrite IH; [done|]. intros c' Hc'. apply Hin. set_solver.
Qed.

Lemma total_ge f c : is_cpu c → (f c ≤ total f)%nat.
Proof. intros Hc. pose proof (total_fset f c 0 Hc). lia. Qed.

Lemma total_pos f : (0 < total f)%nat → ∃ c, is_cpu c ∧ (0 < f c)%nat.
Proof.
  unfold total. assert (Hin : ∀ c, c ∈ seqZ 0 16 → is_cpu c) by (intros c Hc%elem_of_seqZ; unfold is_cpu, SMP_MAX_CPUS; lia).
  revert Hin. generalize (seqZ 0 16). induction l as [|c l IH]; cbn [sum_list_with]; intros Hin Hs; [lia|].
  destruct (decide (0 < f c)%nat); [exists c; split; [apply Hin; set_solver|done]|]. apply IH; [|lia].
  intros c' Hc'. apply Hin. set_solver.
Qed.

Lemma queued_set_runq s c q i :
  is_cpu c → (queued (set_runq c q s) i + occ i (cpu_runqueues s c) = queued s i + occ i q)%nat.
Proof.
  intros Hc. unfold queued at 2. rewrite <- (total_fset (λ c, occ i (cpu_runqueues s c)) c (occ i q) Hc). f_equal. apply total_ext.
  intros c' _. unfold fset. cbn [cpu_runqueues set_runq]. unfold fset. by destruct (c' =? c).
Qed.

Lemma cpus_set_cpu s c j i :
  is_cpu c → (cpus (set_cpu c j s) i + same (cpu_current_task s c) i = cpus s i + same j i)%nat.
Proof.
  intros Hc. unfold cpus at 2. rewrite <- (total_fset (λ c, same (cpu_current_task s c) i) c (same j i) Hc). f_equal. apply total_ext.
  intros c' _. unfold fset. cbn [cpu_current_task set_cpu]. unfold fset. by destruct (c' =? c).
Qed.

Lemma occ_perm i q q' : q ≡ₚ q' → occ i q = occ i q'.
Proof. intros H. unfold occ. by rewrite H. Qed.

Lemma occ_cons i j q : occ i (j :: q) = (same j i + occ i q)%nat.
Proof.
  unfold occ, same. destruct (Z.eqb_spec j i) as [->|Hne]; [by rewrite filter_cons_True|by rewrite filter_cons_False].
Qed.

Lemma occ_app i q q' : occ i (q ++ q') = (occ i q + occ i q')%nat.
Proof. unfold occ. by rewrite filter_app, length_app. Qed.

Lemma occ_elem i q : (0 < occ i q)%nat ↔ i ∈ q.
Proof.
  unfold occ. split.
  - destruct (filter (λ j, j = i) q) as [|j l] eqn:E; cbn [length]; [lia|]. intros _.
    assert (Hj : j ∈ filter (λ j, j = i) q) by (rewrite E; set_solver). apply list_elem_of_filter in Hj as [-> Hj]. done.
  - intros Hi. assert (Hj : i ∈ filter (λ j, j = i) q) by (by apply list_elem_of_filter).
    destruct (filter _ q); [by apply elem_of_nil in Hj|cbn [length]; lia].
Qed.

Lemma occ_filter i j q : occ i (filter (λ y, y ≠ j) q) = if i =? j then 0%nat else occ i q.
Proof.
  unfold occ. rewrite list_filter_filter. destruct (Z.eqb_spec i j) as [->|Hne].
  - induction q as [|y q IH]; [done|]. rewrite filter_cons_False; [done|naive_solver].
  - f_equal. apply list_filter_iff. naive_solver.
Qed.

Lemma handed_app h1 h2 i : handed (h1 ++ h2) i = (handed h1 i + handed h2 i)%nat.
Proof. apply sum_list_with_app. Qed.

(** ** The invariant *)

(** The tokens and the processors of a task in a state. *)
Definition placed (v : tstate) (tk cp : nat) : Prop :=
  match v with
  | READY => tk = 1 ∧ cp = 0
  | RUNNING => tk = 0 ∧ cp = 1
  | SLEEPING | BLOCKED => tk = 0 ∧ cp ≤ 1
  | DEAD | ZOMBIE => tk = 0 ∧ cp = 0
  end%nat.

Definition alive (t : task) : bool := match state t with DEAD | ZOMBIE => false | _ => true end.
Definition asleep (t : task) : bool := match state t with SLEEPING | BLOCKED => true | _ => false end.

(** The owners of a stack and of an address space. *)
Definition hand_stack (b : Z) (a : hand) : nat := match a with HFree st _ => same st b | _ => 0%nat end.
Definition hand_space (p : Z) (a : hand) : nat := match a with HFree _ sp => same sp p | _ => 0%nat end.
Definition stack_owners x (b : Z) : nat :=
  (total (λ i, same (stack_base (tasks (sc x) i)) b) + sum_list_with (hand_stack b) (hands x))%nat.
Definition task_space (t : task) (p : Z) : nat := if alive t then same (pml4_phys t) p else 0%nat.
Definition space_owners x (p : Z) : nat :=
  (total (λ i, task_space (tasks (sc x) i) p) + sum_list_with (hand_space p) (hands x))%nat.

(** The address space a processor has to have loaded. *)
Definition root_of s (i : Z) : Z :=
  if (i <? 0) || (pml4_phys (tasks s i) =? PHYS_NULL) then kernel_pml4 s else pml4_phys (tasks s i).

(** The hands that hold the lock. *)
Definition locks h : nat := sum_list_with (λ a, if holds_lock a then 1%nat else 0%nat) h.

Definition hand_ok s (a : hand) : Prop :=
  match a with
  | HPush t | HKill t => 0 ≤ t
  | HNew t st sp => 0 < t ∧ stack_base (tasks s t) = st ∧ pml4_phys (tasks s t) = default PHYS_NULL sp ∧ 0 < rsp (tasks s t)
  | HFork t st sp f => 0 < t ∧ stack_base (tasks s t) = st ∧ pml4_phys (tasks s t) = sp ∧ (f = true → 0 < rsp (tasks s t))
  | HSched c regs cur run blk _ => is_cpu c ∧ 0 < regs ∧ cur = cpu_current_task s c ∧
      (cur = -1 ∧ run = false ∧ blk = false ∨
       0 ≤ cur ∧ run = tstate_eqb (state (tasks s cur)) RUNNING ∧ blk = asleep (tasks s cur) ∧ (run || blk = true))
  | HFree _ _ => True
  end.

Record inv x : Prop := {
  iv_count : 1 ≤ task_count (sc x) ≤ MAX_TASKS ∧ ∀ i, task_count (sc x) ≤ i → state (tasks (sc x) i) = DEAD;
  iv_neg : ∀ i, i < 0 → queued (sc x) i = 0%nat;
  iv_task : ∀ i, 0 ≤ i → placed (state (tasks (sc x) i)) (tok x i) (cpus (sc x) i);
  iv_cur : ∀ c, is_cpu c → -1 ≤ cpu_current_task (sc x) c;
  iv_ready : ∀ i, 0 ≤ i → state (tasks (sc x) i) = READY →
    0 < rsp (tasks (sc x) i) ∨ ∃ st sp, HFork i st sp false ∈ hands x;
  iv_asleep : ∀ i, 0 ≤ i → asleep (tasks (sc x) i) = true → cpus (sc x) i = 0%nat → 0 < rsp (tasks (sc x) i);
  iv_hand : ∀ a, a ∈ hands x → hand_ok (sc x) a;
  iv_lock : (locks (hands x) ≤ 1)%nat;
  iv_dead : ∀ i, 0 ≤ i → alive (tasks (sc x) i) = false → stack_base (tasks (sc x) i) = 0;
  iv_alive : ∀ i, 0 < i → alive (tasks (sc x) i) = true → 0 < stack_base (tasks (sc x) i);
  iv_stack : ∀ b, b ≠ 0 → (stack_owners x b ≤ 1)%nat ∧ ((0 < stack_owners x b)%nat → b ∈ stacks (sc x));
  iv_space : ∀ p, p ≠ PHYS_NULL → (space_owners x p ≤ 1)%nat ∧
    ((0 < space_owners x p)%nat → p ∈ spaces (sc x) ∧ p ≠ kernel_pml4 (sc x));
  iv_kernel : kernel_pml4 (sc x) ≠ PHYS_NULL ∧ kernel_pml4 (sc x) ∉ spaces (sc x);
  iv_cr3 : ∀ c, is_cpu c → cpu_cr3 (sc x) c = root_of (sc x) (cpu_current_task (sc x) c)
}.

(** ** Steps that change queues and bookkeeping only *)
Definition core_eq (t t' : task) : Prop :=
  state t' = state t ∧ rsp t' = rsp t ∧ stack_base t' = stack_base t ∧ pml4_phys t' = pml4_phys t.

Record same_core s s' : Prop := {
  co_count : task_count s' = task_count s;
  co_cur : ∀ c, is_cpu c → cpu_current_task s' c = cpu_current_task s c;
  co_cr3 : ∀ c, is_cpu c → cpu_cr3 s' c = cpu_cr3 s c;
  co_kernel : kernel_pml4 s' = kernel_pml4 s;
  co_stacks : stacks s' = stacks s;
  co_spaces : spaces s' = spaces s;
  co_task : ∀ i, core_eq (tasks s i) (tasks s' i)
}.

Lemma same_core_refl s : same_core s s.
Proof. by constructor. Qed.

Lemma same_core_trans s1 s2 s3 : same_core s1 s2 → same_core s2 s3 → same_core s1 s3.
Proof.
  intros [A1 A2 A3 A4 A5 A6 A7] [B1 B2 B3 B4 B5 B6 B7]. constructor; try congruence.
  - intros c Hc. by rewrite B2, A2.
  - intros c Hc. by rewrite B3, A3.
  - intros i. destruct (A7 i) as (?&?&?&?), (B7 i) as (?&?&?&?). split_and!; congruence.
Qed.

Lemma core_trans t1 t2 t3 : core_eq t1 t2 → core_eq t2 t3 → core_eq t1 t3.
Proof. intros (?&?&?&?) (?&?&?&?). split_and!; congruence. Qed.

Lemma core_alive t t' : core_eq t t' → alive t' = alive t ∧ asleep t' = asleep t.
Proof. intros (H & _). unfold alive, asleep. by rewrite H. Qed.

Lemma core_cpus s s' i : same_core s s' → cpus s' i = cpus s i.
Proof. intros H. apply total_ext. intros c Hc. by rewrite (co_cur _ _ H c Hc). Qed.

Lemma core_hand s s' a : same_core s s' → hand_ok s a → hand_ok s' a.
Proof.
  intros H. pose proof (co_task _ _ H) as Ht. destruct a as [t|t st sp|t st sp f|c regs cur run blk next|t|st sp]; try done; cbn.
  - destruct (Ht t) as (_ & -> & -> & ->). done.
  - destruct (Ht t) as (_ & -> & -> & ->). done.
  - intros (Hc & Hr & -> & Hcur). rewrite (co_cur _ _ H c Hc). split; [done|]. split; [done|]. split; [done|].
    destruct (Ht (cpu_current_task s c)) as (-> & _). rewrite (proj2 (core_alive _ _ (Ht (cpu_current_task s c)))). done.
Qed.

Lemma core_root s s' i : same_core s s' → root_of s' i = root_of s i.
Proof. intros H. unfold root_of. destruct (co_task _ _ H i) as (_ & _ & _ & ->). by rewrite (co_kernel _ _ H). Qed.

(** The same hands, as far as memory and unfinished forks go. *)
Definition same_free h h' : Prop :=
  (∀ b, sum_list_with (hand_stack b) h' = sum_list_with (hand_stack b) h) ∧
  (∀ p, sum_list_with (hand_space p) h' = sum_list_with (hand_space p) h).

Lemma core_inv x s' h' :
  inv x → same_core (sc x) s' → same_free (hands x) h' →
  (∀ i, 0 ≤ i → tok (mkSys s' h') i = tok x i) → (∀ i, i < 0 → queued s' i = 0%nat) →
  (∀ a, a ∈ h' → hand_ok (sc x) a) →
  (∀ i st sp, HFork i st sp false ∈ hands x → 0 < rsp (tasks (sc x) i) ∨ HFork i st sp false ∈ h') →
  (locks h' ≤ 1)%nat → inv (mkSys s' h').
Proof.
  intros [I1 I2 I3 I4 I5 I6 I7 I7' I8 I9 I10 I11 I12 I13] C [F1 F2] Htok Hneg Hh Hfk Hlk.
  pose proof (co_task _ _ C) as Ht. pose proof (co_cur _ _ C) as Hcur.
  constructor; cbn [sc hands] in *.
  - rewrite (co_count _ _ C). split; [apply I1|]. intros i Hi. destruct (Ht i) as (-> & _). by apply I1.
  - done.
  - intros i Hi. destruct (Ht i) as (-> & _). rewrite (core_cpus _ _ i C), Htok by done. by apply I3.
  - intros c Hc. rewrite Hcur by done. by apply I4.
  - intros i Hi. destruct (Ht i) as (-> & -> & _). intros Hs. destruct (I5 i Hi Hs) as [?|(st & sp & Hf)]; [by left|].
    destruct (Hfk i st sp Hf); [by left|right; eauto].
  - intros i Hi. destruct (core_alive _ _ (Ht i)) as [_ ->]. destruct (Ht i) as (_ & -> & _). rewrite (core_cpus _ _ i C). by apply I6.
  - intros a Ha. apply (core_hand (sc x)); [done|]. by apply Hh.
  - done.
  - intros i Hi. destruct (core_alive _ _ (Ht i)) as [-> _]. destruct (Ht i) as (_ & _ & -> & _). by apply I8.
  - intros i Hi. destruct (core_alive _ _ (Ht i)) as [-> _]. destruct (Ht i) as (_ & _ & -> & _). by apply I9.
  - intros b Hb. replace (stack_owners (mkSys s' h') b) with (stack_owners x b); [rewrite (co_stacks _ _ C); by apply I10|].
    unfold stack_owners. cbn [sc hands]. rewrite F1. f_equal. apply total_ext. intros i _. by destruct (Ht i) as (_ & _ & -> & _).
  - intros p Hp. replace (space_owners (mkSys s' h') p) with (space_owners x p).
    { rewrite (co_spaces _ _ C), (co_kernel _ _ C). by apply I11. }
    unfold space_owners. cbn [sc hands]. rewrite F2. f_equal. apply total_ext. intros i _. unfold task_space.
    destruct (core_alive _ _ (Ht i)) as [-> _]. by destruct (Ht i) as (_ & _ & _ & ->).
  - rewrite (co_kernel _ _ C), (co_spaces _ _ C). done.
  - intros c Hc. rewrite (co_cr3 _ _ C), Hcur, (core_root _ _ _ C) by done. by apply I13.
Qed.

(** ** Run queues under the invariant *)
Lemma occ_nodup q : (∀ i, occ i q ≤ 1)%nat → NoDup q.
Proof.
  induction q as [|y q IH]; intros H; constructor.
  - intros Hy%occ_elem. specialize (H y). rewrite occ_cons in H. unfold same in H. rewrite Z.eqb_refl in H. lia.
  - apply IH. intros i. specialize (H i). rewrite occ_cons in H. lia.
Qed.

Lemma occ_queued s c i : is_cpu c → (occ i (cpu_runqueues s c) ≤ queued s i)%nat.
Proof. intros Hc. apply (total_ge (λ c, occ i (cpu_runqueues s c)) c Hc). Qed.

Lemma placed_tok v tk cp : placed v tk cp → (tk ≤ 1)%nat ∧ ((0 < tk)%nat → v = READY).
Proof. destruct v; simpl; lia || (intros [-> _]; split; [lia|done || lia]). Qed.

(** A task with a token is a task of the table. *)
Lemma tok_task x i : inv x → 0 ≤ i → (0 < tok x i)%nat → i < task_count (sc x) ∧ state (tasks (sc x) i) = READY.
Proof.
  intros I Hi Ht. destruct (placed_tok _ _ _ (iv_task _ I i Hi)) as [_ H]. split; [|by apply H].
  destruct (Z.lt_ge_cases i (task_count (sc x))) as [|Hge]; [done|]. pose proof (proj2 (iv_count _ I) i Hge). specialize (H Ht). congruence.
Qed.

Lemma queue_elem x c i : inv x → is_cpu c → i ∈ cpu_runqueues (sc x) c → 0 ≤ i < task_count (sc x).
Proof.
  intros I Hc Hi%occ_elem. pose proof (occ_queued (sc x) c i Hc) as Hq. destruct (Z.lt_ge_cases i 0) as [Hn|Hn].
  { rewrite (iv_neg _ I i Hn) in Hq. lia. }
  split; [done|]. apply (tok_task x); [done..|]. unfold tok. lia.
Qed.

(** There is room for a task that is in no queue. *)
Lemma push_room x c i : inv x → is_cpu c → 0 ≤ i < MAX_TASKS → queued (sc x) i = 0%nat → zlength (cpu_runqueues (sc x) c) < RUNQ_CAPACITY.
Proof.
  intros I Hc Hi Hq. assert (Hnd : NoDup (i :: cpu_runqueues (sc x) c)).
  { constructor.
    - intros Hin%occ_elem. pose proof (occ_queued (sc x) c i Hc). lia.
    - apply occ_nodup. intros j. pose proof (occ_queued (sc x) c j Hc). destruct (Z.lt_ge_cases j 0).
      + rewrite (iv_neg _ I j) in * by done. lia.
      + destruct (placed_tok _ _ _ (iv_task _ I j ltac:(lia))) as [Hle _]. unfold tok in Hle. lia. }
  assert (Hsub : i :: cpu_runqueues (sc x) c ⊆ seqZ 0 16).
  { intros j [->|Hj]%elem_of_cons; apply elem_of_seqZ; [unfold MAX_TASKS in Hi; lia|].
    pose proof (queue_elem x c j I Hc Hj). pose proof (iv_count _ I) as [[_ Hm] _]. unfold MAX_TASKS in Hm. lia. }
  pose proof (submseteq_length _ _ (NoDup_submseteq _ _ Hnd Hsub)) as Hlen. rewrite length_seqZ in Hlen. cbn [length] in Hlen.
  unfold zlength, RUNQ_CAPACITY, MAX_TASKS. lia.
Qed.

Lemma upd_core s i f : (∀ t, core_eq t (f t)) → same_core s (upd_task i f s).
Proof.
  intros H. constructor; try done. intros j. rewrite tasks_upd. destruct (Z.eqb_spec j i) as [->|]; [apply H|done].
Qed.

Lemma push_ok c i now s :
  is_cpu c → zlength (cpu_runqueues s c) < RUNQ_CAPACITY →
  ∃ s', runq_push c i now s = (0, s') ∧ same_core s s' ∧ (∀ j, queued s' j = queued s j + same i j)%nat ∧
    cpu_current_task s' = cpu_current_task s ∧ cpu_cr3 s' = cpu_cr3 s.
Proof.
  intros Hc Hr. unfold runq_push. destruct (Z.leb_spec RUNQ_CAPACITY (zlength (cpu_runqueues s c))) as [|_]; [lia|].
  eexists. split; [done|]. split.
  - apply (same_core_trans s (upd_task i (set_enqueue_ms now) s)); [by apply upd_core|]. by constructor.
  - split; [|done]. intros j. pose proof (queued_set_runq (upd_task i (set_enqueue_ms now) s) c (cpu_runqueues s c ++ [i]) j Hc) as H.
    rewrite occ_app, occ_cons in H. change (occ j []) with 0%nat in H.
    change (cpu_runqueues (upd_task i (set_enqueue_ms now) s) c) with (cpu_runqueues s c) in H.
    change (queued (upd_task i (set_enqueue_ms now) s) j) with (queued s j) in H. lia.
Qed.

Lemma pop_ok c now s n s' :
  is_cpu c → runq_pop c now s = (n, s') →
  same_core s s' ∧ (n = -1 ∧ s' = s ∨ n ∈ cpu_runqueues s c ∧ ∀ j, (queued s j = queued s' j + same n j)%nat).
Proof.
  intros Hc E. pose proof (runq_pop_ok c now s) as H. rewrite E in H. destruct H as [(-> & _ & ->)|(q & Hp & -> & _)].
  { split; [apply same_core_refl|by left]. }
  split; [by constructor|]. right. split; [rewrite Hp; set_solver|]. intros j.
  pose proof (queued_set_runq s c q j Hc) as H. rewrite (occ_perm j _ _ Hp), occ_cons in H. lia.
Qed.

(** ** Hands *)
Lemma sum_mid (f : hand → nat) h1 a h2 : sum_list_with f (h1 ++ a :: h2) = (f a + sum_list_with f (h1 ++ h2))%nat.
Proof. rewrite !sum_list_with_app. cbn [sum_list_with]. lia. Qed.

Lemma handed_mid h1 a h2 i : handed (h1 ++ a :: h2) i = (hand_tok i a + handed (h1 ++ h2) i)%nat.
Proof. apply sum_mid. Qed.

Lemma locks_mid h1 a h2 : locks (h1 ++ a :: h2) = ((if holds_lock a then 1 else 0) + locks (h1 ++ h2))%nat.
Proof. unfold locks. by rewrite sum_mid. Qed.

Lemma unlocked_locks x : unlocked x → locks (hands x) = 0%nat.
Proof.
  unfold unlocked, locks. induction 1 as [|a h Ha Hh IH]; [done|]. cbn [sum_list_with]. by rewrite Ha, IH.
Qed.

Lemma elem_mid (a b : hand) h1 h2 : a ∈ h1 ++ h2 → a ∈ h1 ++ b :: h2.
Proof. rewrite !elem_of_app, elem_of_cons. tauto. Qed.

(** A hand that owns no memory. *)
Definition plain (a : hand) : bool := match a with HFree _ _ => false | _ => true end.

Lemma plain_zero a b p : plain a = true → hand_stack b a = 0%nat ∧ hand_space p a = 0%nat.
Proof. by destruct a. Qed.

Lemma same_free_mid h1 a h2 : plain a = true → same_free (h1 ++ a :: h2) (h1 ++ h2).
Proof. intros Ha. split; intros b; rewrite sum_mid; destruct (plain_zero a b b Ha) as [E1 E2]; by rewrite ?E1, ?E2. Qed.

Lemma same_free_cons h a : plain a = true → same_free h (a :: h).
Proof. intros Ha. split; intros b; cbn [sum_list_with]; destruct (plain_zero a b b Ha) as [E1 E2]; by rewrite ?E1, ?E2. Qed.

Lemma same_free_swap h1 a a' h2 : plain a = true → plain a' = true → same_free (h1 ++ a :: h2) (h1 ++ a' :: h2).
Proof.
  intros Ha Ha'. split; intros b; rewrite !sum_mid; destruct (plain_zero a b b Ha) as [E1 E2];
    destruct (plain_zero a' b b Ha') as [E3 E4]; by rewrite ?E1, ?E2, ?E3, ?E4.
Qed.

(** A step that touches bookkeeping only. *)
Lemma inv_core s h s' :
  inv (mkSys s h) → same_core s s' → (∀ c, is_cpu c → cpu_runqueues s' c = cpu_runqueues s c) → inv (mkSys s' h).
Proof.
  intros I C Hq. assert (Hqq : ∀ i, queued s' i = queued s i) by (intros i; apply total_ext; intros c Hc; by rewrite Hq).
  apply (core_inv (mkSys s h) s' h I C); [by split| | |apply (iv_hand _ I)|by auto|apply (iv_lock _ I)].
  - intros i _. unfold tok. cbn [sc hands]. by rewrite Hqq.
  - intros i Hi. rewrite Hqq. by apply (iv_neg _ I).
Qed.

Lemma inv_emit s h e : inv (mkSys s h) → inv (mkSys (emit e s) h).
Proof. intros I. by apply (inv_core s h). Qed.

(** Pushing the task of a hand. *)
Lemma hand_push x h1 a h2 tid c now :
  inv x → hands x = h1 ++ a :: h2 → (∀ i, hand_tok i a = same tid i) → plain a = true → 0 ≤ tid →
  (∀ st sp, a ≠ HFork tid st sp false) → is_cpu c →
  ∃ s', runq_push c tid now (sc x) = (0, s') ∧ inv (mkSys s' (h1 ++ h2)).
Proof.
  intros I Hh Ha Hp Ht Hf Hc.
  assert (Htok : (0 < tok x tid)%nat). { unfold tok. rewrite Hh, handed_mid, Ha. unfold same. rewrite Z.eqb_refl. lia. }
  destruct (tok_task x tid I Ht Htok) as [Hlt _]. pose proof (proj1 (iv_count _ I)) as Hm.
  assert (Hq : queued (sc x) tid = 0%nat).
  { destruct (placed_tok _ _ _ (iv_task _ I tid Ht)) as [Hle _]. unfold tok in Hle. rewrite Hh, handed_mid, Ha in Hle.
    unfold same in Hle. rewrite Z.eqb_refl in Hle. lia. }
  destruct (push_ok c tid now (sc x) Hc (push_room x c tid I Hc ltac:(lia) Hq)) as (s' & E & C & Hqq & _).
  exists s'. split; [done|]. apply (core_inv x); try done.
  - rewrite Hh. by apply same_free_mid.
  - intros i Hi. unfold tok. cbn [sc hands]. rewrite Hqq, Hh, handed_mid, Ha. lia.
  - intros i Hi. rewrite Hqq, (iv_neg _ I) by done. unfold same. destruct (Z.eqb_spec tid i); lia.
  - intros b Hb. apply (iv_hand _ I). rewrite Hh. by apply elem_mid.
  - intros i st sp. rewrite Hh, !elem_of_app, elem_of_cons. intros [?|[Heq|?]]; [by right; left| |by right; right].
    exfalso. subst a. specialize (Ha i). cbn in Ha. unfold same in Ha. rewrite Z.eqb_refl in Ha.
    destruct (Z.eqb_spec tid i) as [->|]; [|done]. by apply (Hf st sp).
  - pose proof (iv_lock _ I) as Hl. rewrite Hh, locks_mid in Hl. lia.
Qed.

(** The task a processor runs. *)
Lemma cur_task x c :
  inv x → is_cpu c → 0 ≤ cpu_current_task (sc x) c →
  let i := cpu_current_task (sc x) c in
  i < task_count (sc x) ∧ tok x i = 0%nat ∧ cpus (sc x) i = 1%nat ∧ alive (tasks (sc x) i) = true ∧
  tstate_eqb (state (tasks (sc x) i)) RUNNING || asleep (tasks (sc x) i) = true.
Proof.
  intros I Hc Hi i. pose proof (iv_task _ I i Hi) as Hp.
  assert (H1 : (1 ≤ cpus (sc x) i)%nat).
  { pose proof (total_ge (λ c, same (cpu_current_task (sc x) c) i) c Hc) as H. cbv beta in H. fold i in H.
    unfold same in H at 1. rewrite Z.eqb_refl in H. exact H. }
  unfold asleep, alive. destruct (Z.lt_ge_cases i (task_count (sc x))) as [Hlt|Hge].
  - destruct (state (tasks (sc x) i)); simpl in Hp; (split; [done|]); split_and!; try done; lia.
  - rewrite (proj2 (iv_count _ I) i Hge) in Hp. simpl in Hp. lia.
Qed.

Lemma outgoing_ok x c cur run blk s1 regs next :
  inv x → is_cpu c → 0 < regs → outgoing c (sc x) = (cur, run, blk, s1) →
  same_core (sc x) s1 ∧ cpu_runqueues s1 = cpu_runqueues (sc x) ∧ hand_ok (sc x) (HSched c regs cur run blk next).
Proof.
  intros I Hc Hr. unfold outgoing. set (i := cpu_current_task (sc x) c). pose proof (iv_cur _ I c Hc) as Hge. fold i in Hge.
  destruct (decide (i = -1)) as [Hm|Hm].
  - rewrite Hm. cbn [Z.leb andb negb]. intros E. injection E as <- <- <- <-. split; [|split; [done|]].
    2: { cbn. fold i. rewrite Hm. auto 10. }
    constructor; try done. intros c' Hc'. cbn [cpu_current_task set_cpu]. unfold fset.
    destruct (Z.eqb_spec c' c) as [->|]; [by rewrite <- Hm|done].
  - destruct (cur_task x c I Hc ltac:(fold i; lia)) as (Hlt & _ & _ & _ & Hst). fold i in Hlt, Hst.
    destruct (Z.leb_spec 0 i) as [H0|]; [|lia]. destruct (Z.ltb_spec i (task_count (sc x))); [|lia]. cbn [andb].
    assert (Has : tstate_eqb (state (tasks (sc x) i)) SLEEPING || tstate_eqb (state (tasks (sc x) i)) BLOCKED = asleep (tasks (sc x) i)).
    { unfold asleep. by destruct (state (tasks (sc x) i)). }
    rewrite Has. destruct (tstate_eqb _ RUNNING) eqn:E1; destruct (asleep (tasks (sc x) i)) eqn:E2; cbn [orb andb negb] in *;
      try done; intros E; injection E as <- <- <- <-; (split; [apply same_core_refl|]); (split; [done|]);
      cbn; fold i; rewrite E1, E2; auto 10.
Qed.

Lemma same_pos a b : a = b → same a b = 1%nat.
Proof. intros ->. unfold same. by rewrite Z.eqb_refl. Qed.

Lemma same_neg a b : a ≠ b → same a b = 0%nat.
Proof. intros H. unfold same. by destruct (Z.eqb_spec a b). Qed.
