(* ===== verification/SchedRun.v ===== *)
(** The steps of a running system keep the invariant of [SchedSys]: pushing to a queue, the
    three parts of [schedule_on_cpu], blocking, sleeping and waking. *)

From S2P Require Import Prelude RunQueue Sched SchedSys.

Implicit Types (s : sched) (x : sys) (h : list hand).

(** ** The first two parts of [schedule_on_cpu] *)
Lemma pick_inv x c regs now cur run blk s1 next s2 :
  inv x → unlocked x → is_cpu c → 0 < regs → outgoing c (sc x) = (cur, run, blk, s1) → runq_pop c now s1 = (next, s2) →
  inv (mkSys s2 (HSched c regs cur run blk next :: hands x)).
Proof.
  intros I Hu Hc Hr Ho Hp. destruct (outgoing_ok x c cur run blk s1 regs next I Hc Hr Ho) as (C1 & Q1 & Hok).
  destruct (pop_ok c now s1 next s2 Hc Hp) as [C2 Hn].
  assert (Hq : ∀ i, queued s1 i = queued (sc x) i) by (intros i; unfold queued; by rewrite Q1).
  apply (core_inv x); [done|by eapply same_core_trans|by apply same_free_cons| | | | |].
  - intros i Hi. unfold tok, handed. cbn [sc hands sum_list_with hand_tok]. rewrite <- Hq.
    destruct Hn as [[-> ->]|[_ Hn]]; [rewrite same_neg by lia; lia|]. rewrite Hn. lia.
  - intros i Hi. pose proof (iv_neg _ I i Hi) as H0. rewrite <- Hq in H0.
    destruct Hn as [[-> ->]|[_ Hn]]; [done|]. rewrite Hn in H0. lia.
  - intros a [->|Ha]%elem_of_cons; [done|by apply (iv_hand _ I)].
  - intros i st sp Hf. right. apply elem_of_cons. by right.
  - unfold locks. cbn [sum_list_with holds_lock]. fold (locks (hands x)). rewrite unlocked_locks by done. lia.
Qed.

Lemma steal_inv x h1 h2 c regs cur run blk old v now next s1 :
  inv x → hands x = h1 ++ HSched c regs cur run blk old :: h2 → old < 0 → is_cpu v →
  runq_pop v now (sc x) = (next, s1) → inv (mkSys s1 (h1 ++ HSched c regs cur run blk next :: h2)).
Proof.
  intros I Hh Ho Hv Hp. destruct (pop_ok v now (sc x) next s1 Hv Hp) as [C Hn].
  pose proof (iv_hand _ I (HSched c regs cur run blk old) ltac:(rewrite Hh; set_solver)) as Hok.
  apply (core_inv x); [done|done|rewrite Hh; by apply same_free_swap| | | | |].
  - intros i Hi. unfold tok. cbn [sc hands]. rewrite Hh, !handed_mid. cbn [hand_tok]. rewrite (same_neg old) by lia.
    destruct Hn as [[-> ->]|[_ Hn]]; [rewrite same_neg by lia; lia|]. rewrite Hn. lia.
  - intros i Hi. pose proof (iv_neg _ I i Hi) as H0. destruct Hn as [[-> ->]|[_ Hn]]; [done|]. rewrite Hn in H0. lia.
  - intros a. rewrite elem_of_app, elem_of_cons. intros [Ha|[->|Ha]]; [|exact Hok|];
      apply (iv_hand _ I); rewrite Hh; apply elem_mid; apply elem_of_app; auto.
  - intros i st sp. rewrite Hh, !elem_of_app, !elem_of_cons. intros [?|[?|?]]; [auto|done|auto].
  - pose proof (iv_lock _ I) as Hl. rewrite Hh, locks_mid in Hl. rewrite locks_mid. done.
Qed.

(** ** Pushes *)
Lemma unblock_push_inv x h1 h2 tid target me now :
  inv x → hands x = h1 ++ HPush tid :: h2 → is_cpu target → inv (mkSys (unblock_push tid target me now (sc x)) (h1 ++ h2)).
Proof.
  intros I Hh Hc. pose proof (iv_hand _ I (HPush tid) ltac:(rewrite Hh; set_solver)) as Ht.
  destruct (hand_push x h1 _ h2 tid target now I Hh (λ i, eq_refl) eq_refl Ht ltac:(done) Hc) as (s' & E & I').
  unfold unblock_push. rewrite E. cbn [Z.eqb negb]. destruct (negb (target =? me)); [by apply inv_emit|done].
Qed.

Lemma create_push_inv x h1 h2 slot stack target me now :
  inv x → hands x = h1 ++ HNew slot stack None :: h2 → is_cpu target →
  inv (mkSys (create_task_push slot stack target me now (sc x)) (h1 ++ h2)).
Proof.
  intros I Hh Hc. destruct (iv_hand _ I (HNew slot stack None) ltac:(rewrite Hh; set_solver)) as [Ht _].
  destruct (hand_push x h1 _ h2 slot target now I Hh (λ i, eq_refl) eq_refl ltac:(lia) ltac:(done) Hc) as (s' & E & I').
  unfold create_task_push. rewrite E. cbn [Z.eqb negb]. destruct (negb (target =? me)); [by apply inv_emit|done].
Qed.

Lemma user_push_inv x h1 h2 slot stack space target me now r s1 :
  inv x → hands x = h1 ++ HNew slot stack (Some space) :: h2 → is_cpu target →
  create_user_push slot stack target me now (sc x) = (r, s1) →
  inv (mkSys (if r <? 0 then destroy_space space s1 else s1) (h1 ++ h2)).
Proof.
  intros I Hh Hc. destruct (iv_hand _ I (HNew slot stack (Some space)) ltac:(rewrite Hh; set_solver)) as [Ht _].
  destruct (hand_push x h1 _ h2 slot target now I Hh (λ i, eq_refl) eq_refl ltac:(lia) ltac:(done) Hc) as (s' & E & I').
  unfold create_user_push. rewrite E. cbn [Z.eqb negb]. intros Hr. injection Hr as <- <-.
  destruct (Z.ltb_spec slot 0); [lia|]. destruct (negb (target =? me)); [by apply inv_emit|done].
Qed.

Lemma fork_push_inv x h1 h2 slot stack space target me now r s1 :
  inv x → hands x = h1 ++ HFork slot stack space true :: h2 → is_cpu target →
  fork_push slot stack space target me now (sc x) = (r, s1) → inv (mkSys s1 (h1 ++ h2)).
Proof.
  intros I Hh Hc. destruct (iv_hand _ I (HFork slot stack space true) ltac:(rewrite Hh; set_solver)) as [Ht _].
  destruct (hand_push x h1 _ h2 slot target now I Hh (λ i, eq_refl) eq_refl ltac:(lia) ltac:(done) Hc) as (s' & E & I').
  unfold fork_push. rewrite E. cbn [Z.eqb negb]. intros Hr. injection Hr as <- <-.
  destruct (negb (target =? me)); [by apply inv_emit|done].
Qed.

(** ** Steps that change one task *)
Lemma inv_one x i s' h' :
  inv x → 0 ≤ i < task_count s' → task_count (sc x) ≤ task_count s' ≤ MAX_TASKS →
  (∀ j, j ≠ i → core_eq (tasks (sc x) j) (tasks s' j)) →
  (∀ j, 0 ≤ j → j ≠ i → tok (mkSys s' h') j = tok x j ∧ cpus s' j = cpus (sc x) j) →
  placed (state (tasks s' i)) (tok (mkSys s' h') i) (cpus s' i) →
  (∀ j, j < 0 → queued s' j = 0%nat) → (∀ c, is_cpu c → -1 ≤ cpu_current_task s' c) →
  (state (tasks s' i) = READY → 0 < rsp (tasks s' i) ∨ ∃ st sp, HFork i st sp false ∈ h') →
  (∀ j st sp, j ≠ i → HFork j st sp false ∈ hands x → HFork j st sp false ∈ h') →
  (asleep (tasks s' i) = true → cpus s' i = 0%nat → 0 < rsp (tasks s' i)) →
  (∀ a, a ∈ h' → hand_ok s' a) →
  (alive (tasks s' i) = false → stack_base (tasks s' i) = 0) →
  (0 < i → alive (tasks s' i) = true → 0 < stack_base (tasks s' i)) →
  (∀ b, b ≠ 0 → (stack_owners (mkSys s' h') b ≤ 1)%nat ∧ ((0 < stack_owners (mkSys s' h') b)%nat → b ∈ stacks s')) →
  (∀ p, p ≠ PHYS_NULL → (space_owners (mkSys s' h') p ≤ 1)%nat ∧
     ((0 < space_owners (mkSys s' h') p)%nat → p ∈ spaces s' ∧ p ≠ kernel_pml4 s')) →
  kernel_pml4 s' = kernel_pml4 (sc x) → (kernel_pml4 s' ∉ spaces s') →
  (∀ c, is_cpu c → cpu_cr3 s' c = root_of s' (cpu_current_task s' c)) →
  (locks h' ≤ 1)%nat → inv (mkSys s' h').
Proof.
  intros I Hi Hcount Hoth Htok Hpl Hneg Hcur Hrd Hfk Has Hh Hde Hal Hst Hsp Hk1 Hk2 Hcr Hlk.
  assert (Hch : ∀ j, j ≠ i → alive (tasks s' j) = alive (tasks (sc x) j) ∧ asleep (tasks s' j) = asleep (tasks (sc x) j)).
  { intros j Hj. by apply core_alive, Hoth. }
  constructor; cbn [sc hands]; try done.
  - split; [pose proof (iv_count _ I); lia|]. intros j Hj. destruct (Hoth j ltac:(lia)) as (-> & _). apply (iv_count _ I). lia.
  - intros j Hj. destruct (decide (j = i)) as [->|Hne]; [done|]. destruct (Hoth j Hne) as (-> & _).
    destruct (Htok j Hj Hne) as [-> ->]. by apply (iv_task _ I).
  - intros j Hj. destruct (decide (j = i)) as [->|Hne]; [done|]. destruct (Hoth j Hne) as (-> & -> & _). intros Hs.
    destruct (iv_ready _ I j Hj Hs) as [?|(st & sp & Hf)]; [by left|right]. exists st, sp. by apply Hfk.
  - intros j Hj. destruct (decide (j = i)) as [->|Hne]; [done|]. destruct (Hch j Hne) as [_ ->].
    destruct (Hoth j Hne) as (_ & -> & _). destruct (Htok j Hj Hne) as [_ ->]. by apply (iv_asleep _ I).
  - intros j Hj. destruct (decide (j = i)) as [->|Hne]; [done|]. destruct (Hch j Hne) as [-> _].
    destruct (Hoth j Hne) as (_ & _ & -> & _). by apply (iv_dead _ I).
  - intros j Hj. destruct (decide (j = i)) as [->|Hne]; [by apply Hal|]. destruct (Hch j Hne) as [-> _].
    destruct (Hoth j Hne) as (_ & _ & -> & _). by apply (iv_alive _ I).
  - rewrite Hk1. split; [apply (iv_kernel _ I)|]. by rewrite <- Hk1.
Qed.

(** The hands that remain do not speak about a task without a token. *)
Lemma hands_other x s' i h' :
  inv x → (∀ a, a ∈ h' → a ∈ hands x ∧ holds_lock a = false) → handed h' i = 0%nat →
  (∀ j, j ≠ i → core_eq (tasks (sc x) j) (tasks s' j)) → ∀ a, a ∈ h' → hand_ok s' a.
Proof.
  intros I Hsub Hz Hoth a Ha. destruct (Hsub a Ha) as [Hin Hlk]. pose proof (iv_hand _ I a Hin) as Hok.
  assert (Hne : hand_tok i a = 0%nat). { pose proof (sum_list_with_in a (hand_tok i) h' Ha). unfold handed in Hz. lia. }
  destruct a as [t|t st sp|t st sp f|c regs cur run blk next|t|st sp]; try done; cbn in *.
  all: assert (Ht : t ≠ i) by (intros ->; rewrite same_pos in Hne by done; lia).
  all: by destruct (Hoth t Ht) as (_ & -> & -> & ->).
Qed.

(** Memory that stays where it is. *)
Lemma stack_owners_same x s' h' :
  (∀ j, stack_base (tasks s' j) = stack_base (tasks (sc x) j)) → same_free (hands x) h' →
  ∀ b, stack_owners (mkSys s' h') b = stack_owners x b.
Proof.
  intros Ht [F _] b. unfold stack_owners. cbn [sc hands]. rewrite F. f_equal. apply total_ext. intros j _. by rewrite Ht.
Qed.

Lemma space_owners_same x s' h' :
  (∀ j, pml4_phys (tasks s' j) = pml4_phys (tasks (sc x) j) ∧ alive (tasks s' j) = alive (tasks (sc x) j)) →
  same_free (hands x) h' → ∀ p, space_owners (mkSys s' h') p = space_owners x p.
Proof.
  intros Ht [_ F] p. unfold space_owners. cbn [sc hands]. rewrite F. f_equal. apply total_ext. intros j _.
  unfold task_space. by destruct (Ht j) as [-> ->].
Qed.

(** A change of the state of a task that stays alive. *)
Lemma inv_state x i s' h' :
  inv x → 0 ≤ i < task_count (sc x) → alive (tasks (sc x) i) = true → alive (tasks s' i) = true →
  (∀ j, j ≠ i → core_eq (tasks (sc x) j) (tasks s' j)) →
  stack_base (tasks s' i) = stack_base (tasks (sc x) i) → pml4_phys (tasks s' i) = pml4_phys (tasks (sc x) i) →
  task_count s' = task_count (sc x) → cpu_current_task s' = cpu_current_task (sc x) → cpu_cr3 s' = cpu_cr3 (sc x) →
  kernel_pml4 s' = kernel_pml4 (sc x) → stacks s' = stacks (sc x) → spaces s' = spaces (sc x) →
  (∀ j, queued s' j = queued (sc x) j) → same_free (hands x) h' →
  (∀ j, 0 ≤ j → j ≠ i → handed h' j = handed (hands x) j) →
  placed (state (tasks s' i)) (queued (sc x) i + handed h' i) (cpus (sc x) i) →
  (state (tasks s' i) = READY → 0 < rsp (tasks s' i)) →
  (∀ j st sp, j ≠ i → HFork j st sp false ∈ hands x → HFork j st sp false ∈ h') →
  (asleep (tasks s' i) = true → cpus s' i = 0%nat → 0 < rsp (tasks s' i)) →
  (∀ a, a ∈ h' → hand_ok s' a) → (locks h' ≤ 1)%nat → inv (mkSys s' h').
Proof.
  intros I Hi Ha Ha' Hoth Hst Hpm Hcn Hcu Hcr Hke Hsk Hsp Hq Hf Hhd Hpl Hrd Hfk Has Hh Hlk.
  assert (Hcp : ∀ j, cpus s' j = cpus (sc x) j) by (intros j; unfold cpus; by rewrite Hcu).
  assert (Hsb : ∀ j, stack_base (tasks s' j) = stack_base (tasks (sc x) j)).
  { intros j. destruct (decide (j = i)) as [->|Hne]; [done|]. by destruct (Hoth j Hne) as (_ & _ & -> & _). }
  assert (Hpa : ∀ j, pml4_phys (tasks s' j) = pml4_phys (tasks (sc x) j) ∧ alive (tasks s' j) = alive (tasks (sc x) j)).
  { intros j. destruct (decide (j = i)) as [->|Hne]; [by rewrite Ha, Ha'|].
    pose proof (core_alive _ _ (Hoth j Hne)) as [-> _]. by destruct (Hoth j Hne) as (_ & _ & _ & ->). }
  apply (inv_one x i); try done; cbn [sc hands].
  - by rewrite Hcn.
  - rewrite Hcn. pose proof (iv_count _ I). lia.
  - intros j Hj Hne. split; [|done]. unfold tok. cbn [sc hands]. by rewrite Hq, Hhd.
  - unfold tok. cbn [sc hands]. by rewrite Hq, Hcp.
  - intros j Hj. rewrite Hq. by apply (iv_neg _ I).
  - rewrite Hcu. apply (iv_cur _ I).
  - intros Hs. left. by apply Hrd.
  - by rewrite Ha'.
  - intros H0 _. rewrite Hst. by apply (iv_alive _ I).
  - intros b Hb. rewrite (stack_owners_same x s' h' Hsb Hf b), Hsk. by apply (iv_stack _ I).
  - intros p Hp. rewrite (space_owners_same x s' h' Hpa Hf p), Hsp, Hke. by apply (iv_space _ I).
  - rewrite Hke, Hsp. apply (iv_kernel _ I).
  - intros c Hc. rewrite Hcr, Hcu, (iv_cr3 _ I c Hc). unfold root_of. by destruct (Hpa (cpu_current_task (sc x) c)) as [-> _]; rewrite Hke.
Qed.

Lemma inv_eta x : inv x → inv (mkSys (sc x) (hands x)).
Proof. by destruct x. Qed.

Lemma free_hands x : unlocked x → ∀ a, a ∈ hands x → a ∈ hands x ∧ holds_lock a = false.
Proof. intros Hu a Ha. split; [done|]. by apply (proj1 (Forall_forall _ _) Hu). Qed.

Lemma upd_other s i f j : j ≠ i → core_eq (tasks s j) (tasks (upd_task i f s) j).
Proof. intros Hj. rewrite tasks_upd. by destruct (Z.eqb_spec j i). Qed.

Lemma tasks_upd_eq s i f : tasks (upd_task i f s) i = f (tasks s i).
Proof. rewrite tasks_upd. by rewrite Z.eqb_refl. Qed.

Lemma is_state_eq v i s : is_state v i s = true ↔ state (tasks s i) = v.
Proof. unfold is_state, tstate_eqb. apply bool_decide_eq_true. Qed.

Lemma is_state_ne v i s : is_state v i s = false ↔ state (tasks s i) ≠ v.
Proof. unfold is_state, tstate_eqb. apply bool_decide_eq_false. Qed.

(** ** Blocking and waking *)
Lemma block_inv x c v i s1 :
  inv x → unlocked x → is_cpu c → block_prepare c v (sc x) = (i, s1) → inv (mkSys s1 (hands x)).
Proof.
  intros I Hu Hc. unfold block_prepare.
  destruct (negb (tstate_eqb v SLEEPING) && negb (tstate_eqb v BLOCKED)) eqn:Ev; [intros E; injection E as _ <-; by apply inv_eta|].
  unfold smp_current_task_id. destruct (Z.leb_spec SMP_MAX_CPUS c); [unfold is_cpu in Hc; lia|].
  set (self := cpu_current_task (sc x) c). destruct (Z.ltb_spec self 0); cbn [orb]; [intros E; injection E as _ <-; by apply inv_eta|].
  destruct (Z.leb_spec (task_count (sc x)) self); [intros E; injection E as _ <-; by apply inv_eta|].
  destruct (is_state RUNNING self (sc x)) eqn:Er; cbn [negb]; [|intros E; injection E as _ <-; by apply inv_eta].
  intros E. injection E as <- <-. apply is_state_eq in Er.
  destruct (cur_task x c I Hc ltac:(fold self; lia)) as (_ & Ht & Hcp & Hal & _). fold self in Ht, Hcp, Hal. unfold tok in Ht.
  assert (Hv : v = SLEEPING ∨ v = BLOCKED) by (destruct v; auto; done).
  apply (inv_state x self); rewrite ?tasks_upd_eq; try done.
  - unfold alive. simpl. by destruct Hv as [-> | ->].
  - intros j Hj. by apply upd_other.
  - simpl. destruct Hv as [-> | ->]; simpl; lia.
  - simpl. destruct Hv as [-> | ->]; done.
  - intros _ Hz. change (cpus (upd_task self (set_state v) (sc x)) self) with (cpus (sc x) self) in Hz. lia.
  - apply (hands_other x _ self); [done|by apply free_hands|lia|]. intros j Hj. by apply upd_other.
  - apply (iv_lock _ I).
Qed.

Lemma sleep_inv x c ms now i s1 :
  inv x → unlocked x → is_cpu c → task_sleep_ms c ms now (sc x) = (i, s1) → inv (mkSys s1 (hands x)).
Proof.
  intros I Hu Hc. unfold task_sleep_ms. destruct (ms =? 0); [intros E; injection E as _ <-; by apply inv_eta|].
  destruct (_ || _); [intros E; injection E as _ <-; by apply inv_eta|].
  set (s0 := upd_task _ _ (sc x)). intros E. apply (block_inv (mkSys s0 (hands x)) c SLEEPING i); try done.
  apply (inv_core (sc x)); [by apply inv_eta|by apply upd_core|done].
Qed.

Lemma on_cpu_ok s i : 0 ≤ i →
  (0 ≤ on_cpu i s ∧ (1 ≤ cpus s i)%nat) ∨ (on_cpu i s = -1 ∧ cpus s i = 0%nat).
Proof.
  intros Hi. unfold on_cpu.
  pose proof (for_range_rule (λ k (_ : unit), ∀ c, 0 ≤ c < k → cpu_current_task s c ≠ i)
    (λ c, is_cpu c ∧ cpu_current_task s c = i) 0 SMP_MAX_CPUS
    (λ c (_ : unit), if cpu_current_task s c =? i then inl c else inr tt) tt ltac:(cbv beta; intros; lia)) as H.
  assert (Hb : ∀ j (u : unit), 0 ≤ j < SMP_MAX_CPUS → (∀ c, 0 ≤ c < j → cpu_current_task s c ≠ i) →
    match (if cpu_current_task s j =? i then inl j else inr tt) with
    | inl c => is_cpu c ∧ cpu_current_task s c = i
    | inr _ => ∀ c, 0 ≤ c < j + 1 → cpu_current_task s c ≠ i
    end).
  { intros j _ Hj Hall. destruct (Z.eqb_spec (cpu_current_task s j) i); [done|]. intros c Hc.
    destruct (decide (c = j)) as [->|]; [done|]. apply Hall. lia. }
  specialize (H Hb). destruct (for_range _ _ _ _) as [c|u].
  - left. destruct H as [Hc He]. split; [unfold is_cpu in Hc; lia|].
    pose proof (total_ge (λ c, same (cpu_current_task s c) i) c Hc) as Hg. cbv beta in Hg. rewrite same_pos in Hg by done. done.
  - right. split; [done|]. rewrite Z.max_r in H by (unfold SMP_MAX_CPUS; lia).
    destruct (cpus s i) as [|n] eqn:E; [done|]. destruct (total_pos (λ c, same (cpu_current_task s c) i)) as (c & Hc & Hp).
    { change (0 < cpus s i)%nat. lia. }
    rewrite same_neg in Hp by (by apply H). lia.
Qed.

Lemma unblock_inv x tid push s1 :
  inv x → unlocked x → unblock_begin tid (sc x) = (push, s1) →
  inv (mkSys s1 (if push then HPush tid :: hands x else hands x)).
Proof.
  intros I Hu. unfold unblock_begin.
  destruct (Z.ltb_spec tid 0); cbn [orb]; [intros E; injection E as <- <-; by apply inv_eta|].
  destruct (Z.leb_spec MAX_TASKS tid); [intros E; injection E as <- <-; by apply inv_eta|].
  destruct (negb (is_state SLEEPING tid (sc x)) && negb (is_state BLOCKED tid (sc x))) eqn:Es;
    [intros E; injection E as <- <-; by apply inv_eta|].
  assert (Has : asleep (tasks (sc x) tid) = true).
  { unfold asleep. unfold is_state in Es. by destruct (state (tasks (sc x) tid)). }
  assert (Hal : alive (tasks (sc x) tid) = true) by (revert Has; unfold asleep, alive; by destruct (state _)).
  pose proof (iv_task _ I tid ltac:(lia)) as Hp.
  assert (Htc : (tok x tid = 0 ∧ cpus (sc x) tid ≤ 1)%nat)
    by (revert Has Hp; unfold asleep; destruct (state (tasks (sc x) tid)); done).
  unfold tok in Htc. assert (Hlt : tid < task_count (sc x)).
  { destruct (Z.lt_ge_cases tid (task_count (sc x))) as [|Hge]; [done|].
    unfold asleep in Has. by rewrite (proj2 (iv_count _ I) tid Hge) in Has. }
  set (s0 := upd_task tid (set_wake_at_ms 0) (sc x)).
  assert (Hoth : ∀ v j, j ≠ tid → core_eq (tasks (sc x) j) (tasks (upd_task tid (set_state v) s0) j)).
  { intros v j Hj. rewrite tasks_upd. destruct (Z.eqb_spec j tid); [done|]. by apply upd_other. }
  assert (Hnew : ∀ v, tasks (upd_task tid (set_state v) s0) tid = set_state v (set_wake_at_ms 0 (tasks (sc x) tid)))
    by (intros v; unfold s0; by rewrite !tasks_upd_eq).
  destruct (on_cpu_ok (sc x) tid ltac:(lia)) as [[Ho Hc]|[Ho Hc]].
  - destruct (Z.leb_spec 0 (on_cpu tid (sc x))); [|lia]. intros E. injection E as <- <-. apply inv_emit.
    apply (inv_state x tid); rewrite ?Hnew; try done; [by apply Hoth|simpl; lia| |apply (iv_lock _ I)].
    apply (hands_other x _ tid); [done|by apply free_hands|lia|by apply Hoth].
  - rewrite Ho. cbn [Z.leb]. intros E. injection E as <- <-.
    apply (inv_state x tid); rewrite ?Hnew; try done; [by apply Hoth| | | | | |].
    + intros j Hj Hne. unfold handed. cbn [sum_list_with hand_tok]. by rewrite same_neg.
    + unfold handed. cbn [sum_list_with hand_tok state set_state]. rewrite same_pos by done. unfold handed in Htc. simpl. lia.
    + intros _. apply (iv_asleep _ I); done.
    + intros j st sp _ Hf. apply elem_of_cons. by right.
    + intros a [->|Ha]%elem_of_cons; [done|]. revert a Ha.
      apply (hands_other x _ tid); [done|by apply free_hands|lia|by apply Hoth].
    + apply (iv_lock _ I).
Qed.

(** ** The last part of [schedule_on_cpu]

    The outgoing task leaves the processor, then the next one takes it. *)
Lemma rest_unlocked x h1 a h2 :
  inv x → hands x = h1 ++ a :: h2 → holds_lock a = true → ∀ b, b ∈ h1 ++ h2 → b ∈ hands x ∧ holds_lock b = false.
Proof.
  intros I Hh Ha b Hb. split; [rewrite Hh; by apply elem_mid|]. destruct (holds_lock b) eqn:E; [|done].
  pose proof (iv_lock _ I) as Hl. rewrite Hh, locks_mid, Ha in Hl.
  pose proof (sum_list_with_in b (λ a, if holds_lock a then 1%nat else 0%nat) _ Hb) as Hs. cbv beta in Hs. rewrite E in Hs.
  unfold locks in Hl. lia.
Qed.

Definition leave_cpu (c : Z) s : sched := set_cpu c (-1) (set_cpu_cr3 c (kernel_pml4 s) s).

Lemma leave_cpus s c j : is_cpu c → 0 ≤ j → (cpus (leave_cpu c s) j + same (cpu_current_task s c) j = cpus s j)%nat.
Proof.
  intros Hc Hj. pose proof (cpus_set_cpu (set_cpu_cr3 c (kernel_pml4 s) s) c (-1) j Hc) as H. rewrite (same_neg (-1)) in H by lia.
  change (cpus (set_cpu_cr3 c (kernel_pml4 s) s) j) with (cpus s j) in H.
  change (cpu_current_task (set_cpu_cr3 c (kernel_pml4 s) s) c) with (cpu_current_task s c) in H. unfold leave_cpu. lia.
Qed.

Lemma leave_root s s' c :
  (∀ c, is_cpu c → cpu_cr3 s c = root_of s (cpu_current_task s c)) →
  cpu_cr3 s' = cpu_cr3 s → cpu_current_task s' = cpu_current_task s → kernel_pml4 s' = kernel_pml4 s →
  (∀ j, pml4_phys (tasks s' j) = pml4_phys (tasks s j)) →
  ∀ c', is_cpu c' → cpu_cr3 (leave_cpu c s') c' = root_of (leave_cpu c s') (cpu_current_task (leave_cpu c s') c').
Proof.
  intros Hcr E1 E2 E3 Hp c' Hc'. unfold leave_cpu. cbn [cpu_cr3 cpu_current_task set_cpu set_cpu_cr3]. unfold fset.
  destruct (c' =? c); [done|]. unfold root_of. cbn [kernel_pml4 tasks set_cpu set_cpu_cr3]. rewrite E1, E2, E3, Hp. by apply Hcr.
Qed.

Lemma leave_inv x h1 h2 c regs cur run blk next s2 :
  inv x → hands x = h1 ++ HSched c regs cur run blk next :: h2 → 0 ≤ cur →
  (∀ j, j ≠ cur → core_eq (tasks (sc x) j) (tasks s2 j)) → rsp (tasks s2 cur) = regs →
  stack_base (tasks s2 cur) = stack_base (tasks (sc x) cur) → pml4_phys (tasks s2 cur) = pml4_phys (tasks (sc x) cur) →
  task_count s2 = task_count (sc x) → cpu_current_task s2 = cpu_current_task (sc x) → cpu_cr3 s2 = cpu_cr3 (sc x) →
  kernel_pml4 s2 = kernel_pml4 (sc x) → stacks s2 = stacks (sc x) → spaces s2 = spaces (sc x) →
  (∃ n, (∀ j, queued s2 j = queued (sc x) j + n * same cur j)%nat ∧
     (n = 1%nat ∧ state (tasks s2 cur) = READY ∨ n = 0%nat ∧ asleep (tasks s2 cur) = true)) →
  inv (mkSys (leave_cpu c s2) (h1 ++ HSched c regs (-1) false false next :: h2)).
Proof.
  intros I Hh H0 Hoth Hrsp Hst Hpm Hcn Hcu Hcr Hke Hsk Hsp (n & Hq & Hn).
  destruct (iv_hand _ I (HSched c regs cur run blk next) ltac:(rewrite Hh; set_solver)) as (Hc & Hregs & Hcur & _).
  destruct (cur_task x c I Hc ltac:(lia)) as (Hlt & Ht & Hcp & Hal & _). rewrite <- Hcur in Hlt, Ht, Hcp, Hal.
  pose proof (rest_unlocked x h1 _ h2 I Hh eq_refl) as Hrest.
  assert (Hal' : alive (tasks s2 cur) = true).
  { unfold alive, asleep in *. destruct Hn as [[_ ->]|[_ Ha]]; [done|]. by destruct (state (tasks s2 cur)). }
  assert (Hsb : ∀ j, stack_base (tasks s2 j) = stack_base (tasks (sc x) j)).
  { intros j. destruct (decide (j = cur)) as [->|Hne]; [done|]. by destruct (Hoth j Hne) as (_ & _ & -> & _). }
  assert (Hpa : ∀ j, pml4_phys (tasks s2 j) = pml4_phys (tasks (sc x) j) ∧ alive (tasks s2 j) = alive (tasks (sc x) j)).
  { intros j. destruct (decide (j = cur)) as [->|Hne]; [by rewrite Hal, Hal'|].
    pose proof (core_alive _ _ (Hoth j Hne)) as [-> _]. by destruct (Hoth j Hne) as (_ & _ & _ & ->). }
  assert (Hfree : same_free (hands x) (h1 ++ HSched c regs (-1) false false next :: h2)) by (rewrite Hh; by apply same_free_swap).
  assert (Htok : ∀ j, tok (mkSys (leave_cpu c s2) (h1 ++ HSched c regs (-1) false false next :: h2)) j = (tok x j + n * same cur j)%nat).
  { intros j. unfold tok. cbn [sc hands]. change (queued (leave_cpu c s2) j) with (queued s2 j). rewrite Hq, Hh, !handed_mid. cbn [hand_tok]. lia. }
  assert (Hcpl : ∀ j, 0 ≤ j → (cpus (leave_cpu c s2) j + same cur j = cpus (sc x) j)%nat).
  { intros j Hj. pose proof (leave_cpus s2 c j Hc Hj) as H. rewrite Hcu, <- Hcur in H. rewrite H. unfold cpus. by rewrite Hcu. }
  apply (inv_one x cur); try done; cbn [sc hands].
  - cbn. rewrite Hcn. lia.
  - cbn. rewrite Hcn. pose proof (iv_count _ I). lia.
  - intros j Hj Hne. rewrite Htok. specialize (Hcpl j Hj). rewrite same_neg in * by done. split; lia.
  - rewrite Htok, Ht. specialize (Hcpl cur H0). rewrite same_pos in * by done. change (tasks (leave_cpu c s2)) with (tasks s2).
    destruct Hn as [[-> ->]|[-> Ha]]; [simpl; lia|]. unfold asleep in Ha. destruct (state (tasks s2 cur)); try done; simpl; lia.
  - intros j Hj. change (queued (leave_cpu c s2) j) with (queued s2 j). rewrite Hq, (iv_neg _ I j Hj), same_neg by lia. lia.
  - intros c' Hc'. cbn. unfold fset. destruct (c' =? c); [lia|]. rewrite Hcu. by apply (iv_cur _ I).
  - intros _. left. cbn. lia.
  - intros j st sp _. rewrite Hh, !elem_of_app, !elem_of_cons. intros [?|[?|?]]; [auto|done|auto].
  - intros _ _. cbn. lia.
  - assert (Hz : handed (h1 ++ h2) cur = 0%nat) by (unfold tok in Ht; rewrite Hh, handed_mid in Ht; lia).
    intros a. rewrite elem_of_app, elem_of_cons. intros [Ha|[->|Ha]].
    2: { cbn. unfold fset. rewrite Z.eqb_refl. auto 10. }
    all: apply (hands_other x (leave_cpu c s2) cur (h1 ++ h2)); try done; apply elem_of_app; tauto.
  - cbn. by rewrite Hal'.
  - intros Hp _. cbn. rewrite Hst. by apply (iv_alive _ I).
  - intros b Hb. rewrite (stack_owners_same x (leave_cpu c s2) _ Hsb Hfree b). cbn. rewrite Hsk. by apply (iv_stack _ I).
  - intros p Hp. rewrite (space_owners_same x (leave_cpu c s2) _ Hpa Hfree p). cbn. rewrite Hsp, Hke. by apply (iv_space _ I).
  - cbn. rewrite Hke, Hsp. apply (iv_kernel _ I).
  - apply (leave_root (sc x)); try done; [apply I|]. intros j. apply Hpa.
  - pose proof (iv_lock _ I) as Hl. rewrite Hh, locks_mid in Hl. rewrite locks_mid. done.
Qed.

Lemma next_ready x h1 h2 c regs cur run blk next :
  inv x → hands x = h1 ++ HSched c regs cur run blk next :: h2 → 0 ≤ next →
  next < task_count (sc x) ∧ state (tasks (sc x) next) = READY ∧ 0 < rsp (tasks (sc x) next) ∧
  tok x next = 1%nat ∧ cpus (sc x) next = 0%nat ∧ handed (h1 ++ h2) next = 0%nat.
Proof.
  intros I Hh H0. assert (Ht : tok x next = S (queued (sc x) next + handed (h1 ++ h2) next)).
  { unfold tok. rewrite Hh, handed_mid. cbn [hand_tok]. rewrite same_pos by done. lia. }
  destruct (tok_task x next I H0 ltac:(lia)) as [Hlt Hs]. pose proof (iv_task _ I next H0) as Hp. rewrite Hs in Hp. simpl in Hp.
  split; [done|]. split; [done|]. split; [|lia].
  destruct (iv_ready _ I next H0 Hs) as [?|(st & sp & Hf)]; [done|]. rewrite Hh in Hf.
  assert (Hf' : HFork next st sp false ∈ h1 ++ h2) by (revert Hf; rewrite !elem_of_app, elem_of_cons; intros [?|[?|?]]; [auto|done|auto]).
  pose proof (sum_list_with_in _ (hand_tok next) _ Hf') as Hs'. cbn [hand_tok] in Hs'. rewrite same_pos in Hs' by done.
  unfold handed in Ht, Hp. lia.
Qed.

Definition take_cpu (c next : Z) s : sched :=
  set_cpu_cr3 c (root_of s next) (set_cpu c next (upd_task next (set_state RUNNING) s)).

Lemma take_inv x h1 h2 c regs next :
  inv x → hands x = h1 ++ HSched c regs (-1) false false next :: h2 → 0 ≤ next → inv (mkSys (take_cpu c next (sc x)) (h1 ++ h2)).
Proof.
  intros I Hh H0. destruct (next_ready x h1 h2 c regs (-1) false false next I Hh H0) as (Hlt & Hs & Hrsp & Ht & Hcp & Hz).
  destruct (iv_hand _ I (HSched c regs (-1) false false next) ltac:(rewrite Hh; set_solver)) as (Hc & _ & Hcur & _).
  pose proof (rest_unlocked x h1 _ h2 I Hh eq_refl) as Hrest.
  assert (Hnew : tasks (take_cpu c next (sc x)) next = set_state RUNNING (tasks (sc x) next)) by (unfold take_cpu; apply tasks_upd_eq).
  assert (Hoth : ∀ j, j ≠ next → core_eq (tasks (sc x) j) (tasks (take_cpu c next (sc x)) j)) by (intros j Hj; by apply upd_other).
  assert (Hsb : ∀ j, stack_base (tasks (take_cpu c next (sc x)) j) = stack_base (tasks (sc x) j)).
  { intros j. destruct (decide (j = next)) as [->|Hne]; [by rewrite Hnew|]. by destruct (Hoth j Hne) as (_ & _ & -> & _). }
  assert (Hpa : ∀ j, pml4_phys (tasks (take_cpu c next (sc x)) j) = pml4_phys (tasks (sc x) j) ∧
      alive (tasks (take_cpu c next (sc x)) j) = alive (tasks (sc x) j)).
  { intros j. destruct (decide (j = next)) as [->|Hne]; [rewrite Hnew; unfold alive; by rewrite Hs|].
    pose proof (core_alive _ _ (Hoth j Hne)) as [-> _]. by destruct (Hoth j Hne) as (_ & _ & _ & ->). }
  assert (Hfree : same_free (hands x) (h1 ++ h2)) by (rewrite Hh; by apply same_free_mid).
  assert (Hcpl : ∀ j, 0 ≤ j → cpus (take_cpu c next (sc x)) j = (cpus (sc x) j + same next j)%nat).
  { intros j Hj. pose proof (cpus_set_cpu (upd_task next (set_state RUNNING) (sc x)) c next j Hc) as H.
    change (cpu_current_task (upd_task next (set_state RUNNING) (sc x)) c) with (cpu_current_task (sc x) c) in H.
    rewrite <- Hcur, (same_neg (-1)) in H by lia.
    change (cpus (upd_task next (set_state RUNNING) (sc x)) j) with (cpus (sc x) j) in H. unfold take_cpu.
    change (cpus (set_cpu_cr3 c (root_of (sc x) next) ?s) j) with (cpus s j). lia. }
  assert (Htok : ∀ j, (tok (mkSys (take_cpu c next (sc x)) (h1 ++ h2)) j + same next j = tok x j)%nat).
  { intros j. unfold tok. cbn [sc hands]. change (queued (take_cpu c next (sc x)) j) with (queued (sc x) j).
    rewrite Hh, handed_mid. cbn [hand_tok]. lia. }
  apply (inv_one x next); try done; cbn [sc hands]; rewrite ?Hnew; try done.
  - pose proof (iv_count _ I). cbn. lia.
  - intros j Hj Hne. specialize (Htok j). rewrite Hcpl by done. rewrite same_neg in * by done. split; lia.
  - rewrite Hcpl, Hcp by done. specialize (Htok next). rewrite same_pos in * by done. simpl. lia.
  - apply (iv_neg _ I).
  - intros c' Hc'. cbn. unfold fset. destruct (c' =? c); [lia|]. by apply (iv_cur _ I).
  - intros j st sp _. rewrite Hh, !elem_of_app, !elem_of_cons. intros [?|[?|?]]; [auto|done|auto].
  - apply (hands_other x _ next); done.
  - intros Hp _. cbn. apply (iv_alive _ I); [done|]. unfold alive. by rewrite Hs.
  - intros b Hb. rewrite (stack_owners_same x _ _ Hsb Hfree b). by apply (iv_stack _ I).
  - intros p Hp. rewrite (space_owners_same x _ _ Hpa Hfree p). by apply (iv_space _ I).
  - apply (iv_kernel _ I).
  - intros c' Hc'. assert (Hro : ∀ j, root_of (take_cpu c next (sc x)) j = root_of (sc x) j).
    { intros j. unfold root_of. by rewrite (proj1 (Hpa j)). }
    rewrite Hro. cbn. unfold fset. destruct (c' =? c); [done|]. by apply (iv_cr3 _ I).
  - pose proof (iv_lock _ I) as Hl. rewrite Hh, locks_mid in Hl. lia.
Qed.

Lemma fpu_core c p n s : same_core s (fpu_switch c p n s) ∧ cpu_runqueues (fpu_switch c p n s) = cpu_runqueues s ∧
  current_task (fpu_switch c p n s) = current_task s.
Proof.
  unfold fpu_switch. set (s1 := if (0 <=? p) && _ then _ else s).
  assert (H1 : same_core s s1 ∧ cpu_runqueues s1 = cpu_runqueues s ∧ current_task s1 = current_task s).
  { unfold s1. destruct ((0 <=? p) && _); [split; [by apply upd_core|done]|split; [apply same_core_refl|done]]. }
  destruct H1 as (C & Hq & Hc). assert (Hlive : ∀ s v, same_core s (set_live_fpu c v s)) by (by constructor).
  destruct ((0 <=? n) && _); [destruct (fpu_initialized _)|]; (split; [|done]); apply (same_core_trans s s1); try done.
  apply (same_core_trans s1 (upd_task n (set_fpu (clean_area (fpu_state (tasks s1 n))) true) s1)); [by apply upd_core|done].
Qed.

Lemma switch_core c cur next s s0 :
  is_cpu c → 0 ≤ next → kernel_pml4 s ≠ PHYS_NULL → (s0 = s ∨ s0 = leave_cpu c s) →
  same_core (take_cpu c next s0) (switch_to c cur next s).2 ∧
  cpu_runqueues (switch_to c cur next s).2 = cpu_runqueues (take_cpu c next s0) ∧
  (switch_to c cur next s).1 = rsp (tasks s next).
Proof.
  intros Hc H0 Hk Hs0. unfold switch_to. set (s1 := set_cpu c next (upd_task next (set_state RUNNING) s)).
  set (s2 := emit _ _). destruct (fpu_core c cur next s2) as (C & Hq & _). set (s3 := fpu_switch c cur next s2) in *.
  assert (Ht : ∀ j, core_eq (tasks s1 j) (tasks s3 j)).
  { intros j. replace (tasks s1 j) with (tasks s2 j); [apply (co_task _ _ C)|]. unfold s2. by destruct (c =? 0). }
  assert (Hroot : root_of s next = if negb (pml4_phys (tasks s3 next) =? PHYS_NULL) then pml4_phys (tasks s3 next) else kernel_pml4 s3).
  { destruct (Ht next) as (_ & _ & _ & ->). rewrite (co_kernel _ _ C).
    replace (pml4_phys (tasks s1 next)) with (pml4_phys (tasks s next)) by (unfold s1; cbn; unfold fset; by rewrite Z.eqb_refl).
    replace (kernel_pml4 s2) with (kernel_pml4 s) by (unfold s2; by destruct (c =? 0)). unfold root_of.
    destruct (Z.ltb_spec next 0); [lia|]. cbn [orb]. by destruct (_ =? PHYS_NULL). }
  assert (Hk3 : kernel_pml4 s3 = kernel_pml4 s) by (rewrite (co_kernel _ _ C); unfold s2; by destruct (c =? 0)).
  assert (Hl : load_space c next s3 = set_cpu_cr3 c (root_of s next) s3).
  { unfold load_space. rewrite Hroot. destruct (negb (pml4_phys _ =? _)); [done|]. rewrite Hk3.
    by destruct (Z.eqb_spec (kernel_pml4 s) PHYS_NULL). }
  rewrite Hl. cbn [fst snd]. assert (Hr0 : root_of s0 next = root_of s next) by (by destruct Hs0 as [-> | ->]).
  split; [|split].
  - unfold take_cpu. rewrite Hr0. constructor; cbn [task_count cpu_current_task cpu_cr3 kernel_pml4 stacks spaces tasks set_cpu_cr3 set_cpu upd_task set_task set_tasks].
    + rewrite (co_count _ _ C). unfold s2. by destruct (c =? 0), Hs0 as [-> | ->].
    + intros c' Hc'. rewrite (co_cur _ _ C c' Hc'). unfold s2, s1. destruct (c =? 0); cbn; unfold fset; destruct Hs0 as [-> | ->]; cbn; unfold fset; by destruct (c' =? c).
    + intros c' Hc'. unfold fset at 1 2. destruct (c' =? c) eqn:Ec; [done|]. rewrite (co_cr3 _ _ C c' Hc'). unfold s2, s1.
      destruct (c =? 0), Hs0 as [-> | ->]; cbn; unfold fset; by rewrite ?Ec.
    + rewrite Hk3. by destruct Hs0 as [-> | ->].
    + rewrite (co_stacks _ _ C). unfold s2. by destruct (c =? 0), Hs0 as [-> | ->].
    + rewrite (co_spaces _ _ C). unfold s2. by destruct (c =? 0), Hs0 as [-> | ->].
    + intros j. replace (fset next (set_state RUNNING (tasks s0 next)) (tasks s0) j) with (tasks s1 j); [apply Ht|].
      by destruct Hs0 as [-> | ->].
  - cbn. rewrite Hq. unfold s2. by destruct (c =? 0), Hs0 as [-> | ->].
  - cbn. destruct (Ht next) as (_ & -> & _). unfold s1. cbn. unfold fset. by rewrite Z.eqb_refl.
Qed.

(** The next task takes a processor that is left. *)
Lemma switch_to_inv x h1 h2 c regs cur next s :
  inv x → hands x = h1 ++ HSched c regs (-1) false false next :: h2 → 0 ≤ next →
  (sc x = s ∨ sc x = leave_cpu c s) → inv (mkSys (switch_to c cur next s).2 (h1 ++ h2)).
Proof.
  intros I Hh H0 Hs. destruct (iv_hand _ I (HSched c regs (-1) false false next) ltac:(rewrite Hh; set_solver)) as (Hc & _).
  assert (Hk : kernel_pml4 s ≠ PHYS_NULL) by (pose proof (proj1 (iv_kernel _ I)) as Hk; by destruct Hs as [E|E]; rewrite E in Hk).
  destruct (switch_core c cur next s (sc x) Hc H0 Hk Hs) as (C & Hq & _).
  apply (inv_core (take_cpu c next (sc x))); [by apply (take_inv x h1 h2 c regs)|done|]. intros c' _. by rewrite Hq.
Qed.

(** A blocked task that stays on its processor only has its frame saved. *)
Lemma park_inv x h1 h2 c regs cur run next :
  inv x → hands x = h1 ++ HSched c regs cur run true next :: h2 → next < 0 →
  inv (mkSys (upd_task cur (set_rsp regs) (sc x)) (h1 ++ h2)).
Proof.
  intros I Hh Hn. destruct (iv_hand _ I (HSched c regs cur run true next) ltac:(rewrite Hh; set_solver))
    as (Hc & Hregs & Hcur & [(_ & _ & ?)|(H0 & _ & Has & _)]); [done|].
  destruct (cur_task x c I Hc ltac:(lia)) as (Hlt & Ht & Hcp & Hal & _). rewrite <- Hcur in Hlt, Ht, Hcp, Hal.
  assert (Hhd : ∀ j, 0 ≤ j → handed (hands x) j = handed (h1 ++ h2) j).
  { intros j Hj. rewrite Hh, handed_mid. cbn [hand_tok]. by rewrite same_neg by lia. }
  apply (inv_state x cur); rewrite ?tasks_upd_eq; try done.
  - intros j Hj. by apply upd_other.
  - rewrite Hh. by apply same_free_mid.
  - intros j Hj _. by rewrite Hhd.
  - simpl. rewrite <- Hhd by done. by apply (iv_task _ I).
  - intros j st sp _. rewrite Hh, !elem_of_app, !elem_of_cons. intros [?|[?|?]]; [auto|done|auto].
  - apply (hands_other x _ cur); [done|by apply (rest_unlocked x h1 _ h2 I Hh)| |].
    + unfold tok in Ht. rewrite Hhd in Ht by done. lia.
    + intros j Hj. by apply upd_other.
  - pose proof (iv_lock _ I) as Hl. rewrite Hh, locks_mid in Hl. lia.
Qed.

Lemma drop_sched_inv x h1 h2 c regs cur run blk next :
  inv x → hands x = h1 ++ HSched c regs cur run blk next :: h2 → next < 0 → inv (mkSys (sc x) (h1 ++ h2)).
Proof.
  intros I Hh Hn. apply (core_inv x); [done|apply same_core_refl|rewrite Hh; by apply same_free_mid| |apply (iv_neg _ I)| | |].
  - intros i Hi. unfold tok. cbn [sc hands]. rewrite Hh, handed_mid. cbn [hand_tok]. by rewrite same_neg by lia.
  - intros a Ha. apply (iv_hand _ I). rewrite Hh. by apply elem_mid.
  - intros i st sp. rewrite Hh, !elem_of_app, !elem_of_cons. intros [?|[?|?]]; [auto|done|auto].
  - pose proof (iv_lock _ I) as Hl. rewrite Hh, locks_mid in Hl. lia.
Qed.

Lemma switch_inv x h1 h2 c regs cur run blk next now r s1 :
  inv x → hands x = h1 ++ HSched c regs cur run blk next :: h2 →
  schedule_with c regs cur run blk next now (sc x) = (r, s1) → inv (mkSys s1 (h1 ++ h2)).
Proof.
  intros I Hh. pose proof (iv_hand _ I (HSched c regs cur run blk next) ltac:(rewrite Hh; set_solver)) as (Hc & Hregs & Hcur & Hst).
  unfold schedule_with. destruct (Z.ltb_spec next 0) as [Hn|Hn].
  { intros E. injection E as _ <-. destruct blk; [by eapply park_inv|by eapply drop_sched_inv]. }
  destruct (next_ready x h1 h2 c regs cur run blk next I Hh Hn) as (Hlt & Hrd & Hrsp & _).
  destruct (Z.leb_spec (task_count (sc x)) next); [lia|]. rewrite (proj2 (is_state_eq READY next (sc x)) Hrd). cbn [orb negb].
  destruct (Z.eqb_spec (rsp (tasks (sc x) next)) 0); [lia|].
  destruct Hst as [(-> & -> & ->)|(H0 & Hrun & Hblk & Hor)].
  { intros E. pose proof (switch_to_inv x h1 h2 c regs (-1) next (sc x) I Hh Hn ltac:(by left)) as I'.
    destruct (switch_to c (-1) next (sc x)) as [r' s']. by injection E as _ <-. }
  destruct run.
  - assert (blk = false) as -> by (rewrite Hblk; symmetry in Hrun; apply is_state_eq in Hrun; unfold asleep; by rewrite Hrun).
    set (s2 := upd_task cur _ (sc x)). destruct (cur_task x c I Hc ltac:(lia)) as (Hlt' & Ht & _). rewrite <- Hcur in Hlt', Ht.
    assert (Hroom : zlength (cpu_runqueues s2 c) < RUNQ_CAPACITY).
    { apply (push_room x c cur I Hc); [pose proof (iv_count _ I); lia|]. unfold tok in Ht. lia. }
    destruct (push_ok c cur now s2 Hc Hroom) as (s3 & -> & C & Hq & E1 & E2). cbn [Z.eqb negb]. intros E.
    assert (I3 : inv (mkSys (leave_cpu c s3) (h1 ++ HSched c regs (-1) false false next :: h2))).
    { destruct (co_task _ _ C cur) as (T1 & T2 & T3 & T4). unfold s2 in T1, T2, T3, T4. rewrite tasks_upd_eq in T1, T2, T3, T4.
      apply (leave_inv x h1 h2 c regs cur true false next s3); try done; try (apply C).
      - intros j Hj. eapply core_trans; [by apply upd_other|apply (co_task _ _ C)].
      - exists 1%nat. split; [intros j; rewrite Hq; by rewrite Nat.mul_1_l|]. by left. }
    pose proof (switch_to_inv (mkSys (leave_cpu c s3) _) h1 h2 c regs cur next s3 I3 eq_refl Hn ltac:(by right)) as I'.
    destruct (switch_to c cur next s3) as [r' s']. by injection E as _ <-.
  - cbn [orb] in Hor. subst blk. rewrite Hor. set (s2 := upd_task cur (set_rsp regs) (sc x)). intros E.
    assert (I3 : inv (mkSys (leave_cpu c s2) (h1 ++ HSched c regs (-1) false false next :: h2))).
    { apply (leave_inv x h1 h2 c regs cur false true next s2); try done; unfold s2; rewrite ?tasks_upd_eq; try done.
      - by rewrite <- Hor.
      - intros j Hj. by apply upd_other.
      - exists 0%nat. split; [intros j; rewrite Nat.mul_0_l, Nat.add_0_r; done|]. right. done. }
    pose proof (switch_to_inv (mkSys (leave_cpu c s2) _) h1 h2 c regs cur next s2 I3 eq_refl Hn ltac:(by right)) as I'.
    destruct (switch_to c cur next s2) as [r' s']. by injection E as _ <-.
Qed.
