(* ===== verification/SchedLife.v ===== *)
(** The steps that begin and end tasks keep the invariant of [SchedSys]: creating and
    forking, with every way they fail, exiting, killing, freeing and reaping.  With
    [SchedRun] that is every step, so the invariant holds in every state that is reached
    from [tasking_init]. *)

From stdpp Require Import relations.
From S2P Require Import Prelude RunQueue Sched SchedSys SchedRun.

Implicit Types (s : sched) (x : sys) (h : list hand).

(** ** New tasks *)
Lemma total_map_fset {A} (g : A → nat) k v (f : Z → A) :
  is_cpu k → (total (λ i, g (fset k v f i)) + g (f k) = total (λ i, g (f i)) + g v)%nat.
Proof.
  intros Hk. rewrite <- (total_fset (λ i, g (f i)) k (g v) Hk). f_equal. apply total_ext. intros i _. unfold fset.
  by destruct (i =? k).
Qed.

Lemma stack_owners_set x s' h' i b :
  is_cpu i → (∀ j, j ≠ i → stack_base (tasks s' j) = stack_base (tasks (sc x) j)) →
  (stack_owners (mkSys s' h') b + same (stack_base (tasks (sc x) i)) b + sum_list_with (hand_stack b) (hands x) =
   stack_owners x b + same (stack_base (tasks s' i)) b + sum_list_with (hand_stack b) h')%nat.
Proof.
  intros Hi Hoth. unfold stack_owners. cbn [sc hands].
  pose proof (total_map_fset (λ t, same (stack_base t) b) i (tasks s' i) (tasks (sc x)) Hi) as H. cbv beta in H.
  replace (total (λ j, same (stack_base (tasks s' j)) b)) with
    (total (λ j, same (stack_base (fset i (tasks s' i) (tasks (sc x)) j)) b)); [lia|].
  apply total_ext. intros j _. unfold fset. destruct (Z.eqb_spec j i) as [->|Hne]; [done|]. by rewrite Hoth.
Qed.

Lemma space_owners_set x s' h' i p :
  is_cpu i → (∀ j, j ≠ i → core_eq (tasks (sc x) j) (tasks s' j)) →
  (space_owners (mkSys s' h') p + task_space (tasks (sc x) i) p + sum_list_with (hand_space p) (hands x) =
   space_owners x p + task_space (tasks s' i) p + sum_list_with (hand_space p) h')%nat.
Proof.
  intros Hi Hoth. unfold space_owners. cbn [sc hands].
  pose proof (total_map_fset (λ t, task_space t p) i (tasks s' i) (tasks (sc x)) Hi) as H. cbv beta in H.
  replace (total (λ j, task_space (tasks s' j) p)) with
    (total (λ j, task_space (fset i (tasks s' i) (tasks (sc x)) j) p)); [lia|].
  apply total_ext. intros j _. unfold fset. destruct (Z.eqb_spec j i) as [->|Hne]; [done|]. unfold task_space.
  pose proof (core_alive _ _ (Hoth j Hne)) as [-> _]. by destruct (Hoth j Hne) as (_ & _ & _ & ->).
Qed.

Lemma cur_not x i c : inv x → is_cpu c → 0 ≤ i → cpus (sc x) i = 0%nat → cpu_current_task (sc x) c ≠ i.
Proof.
  intros I Hc Hi H0 He. pose proof (total_ge (λ c, same (cpu_current_task (sc x) c) i) c Hc) as Hg. cbv beta in Hg.
  rewrite same_pos in Hg by done. unfold cpus in H0. lia.
Qed.

Lemma publish_inv x slot b p s' a :
  inv x → unlocked x → 0 < slot < task_count s' → task_count (sc x) ≤ task_count s' ≤ MAX_TASKS →
  state (tasks (sc x) slot) = DEAD → new_stack b (sc x) →
  (p = PHYS_NULL ∧ spaces s' = spaces (sc x) ∨ new_space p (sc x) ∧ spaces s' = {[p]} ∪ spaces (sc x)) →
  (∀ j, j ≠ slot → core_eq (tasks (sc x) j) (tasks s' j)) →
  state (tasks s' slot) = READY → stack_base (tasks s' slot) = b → pml4_phys (tasks s' slot) = p →
  cpu_current_task s' = cpu_current_task (sc x) → cpu_cr3 s' = cpu_cr3 (sc x) → kernel_pml4 s' = kernel_pml4 (sc x) →
  cpu_runqueues s' = cpu_runqueues (sc x) → stacks s' = {[b]} ∪ stacks (sc x) →
  (∀ i, hand_tok i a = same slot i) → plain a = true → holds_lock a = false → hand_ok s' a →
  (0 < rsp (tasks s' slot) ∨ ∃ st sp, a = HFork slot st sp false) → inv (mkSys s' (a :: hands x)).
Proof.
  intros I Hu Hsl Hcn Hd [Hb Hbn] Hp Hoth Hrd Hsb Hpm Hcu Hcr Hke Hq Hsk Hat Hpl Hlk Hok Hrsp.
  pose proof (iv_task _ I slot ltac:(lia)) as Ht. rewrite Hd in Ht. simpl in Ht. unfold tok in Ht.
  assert (Hc16 : is_cpu slot) by (unfold is_cpu, SMP_MAX_CPUS, MAX_TASKS in *; lia).
  assert (Hcp : ∀ j, cpus s' j = cpus (sc x) j) by (intros j; unfold cpus; by rewrite Hcu).
  assert (Hqq : ∀ j, queued s' j = queued (sc x) j) by (intros j; unfold queued; by rewrite Hq).
  destruct (same_free_cons (hands x) a Hpl) as [F1 F2].
  apply (inv_one x slot); cbn [sc hands]; try done; try lia.
  - intros j Hj Hne. split; [|done]. unfold tok, handed. cbn [sc hands sum_list_with]. rewrite Hqq, Hat, same_neg by done. done.
  - rewrite Hrd. unfold tok, handed. cbn [sc hands sum_list_with]. rewrite Hqq, Hat, Hcp, same_pos by done. unfold handed in Ht. simpl. lia.
  - intros j Hj. rewrite Hqq. by apply (iv_neg _ I).
  - rewrite Hcu. apply (iv_cur _ I).
  - intros _. destruct Hrsp as [?|(st & sp & ->)]; [by left|right]. exists st, sp. apply elem_of_cons. by left.
  - intros j st sp _ Hf. apply elem_of_cons. by right.
  - unfold asleep. by rewrite Hrd.
  - intros a' [->|Ha]%elem_of_cons; [done|]. revert a' Ha.
    apply (hands_other x s' slot); [done|by apply free_hands|lia|done].
  - unfold alive. by rewrite Hrd.
  - intros b' Hb'. pose proof (stack_owners_set x s' (a :: hands x) slot b' Hc16) as H.
    assert (Hz : stack_base (tasks (sc x) slot) = 0) by (apply (iv_dead _ I); [lia|unfold alive; by rewrite Hd]).
    rewrite F1, Hz, Hsb, (same_neg 0) in H by done.
    specialize (H ltac:(intros j Hj; by destruct (Hoth j Hj) as (_ & _ & -> & _))).
    destruct (iv_stack _ I b' Hb') as [H1 H2]. rewrite Hsk. destruct (decide (b' = b)) as [->|Hne].
    + rewrite same_pos in H by done. assert (stack_owners x b = 0%nat) by (destruct (stack_owners x b); [done|]; destruct Hbn; apply H2; lia).
      split; [lia|]. set_solver.
    + rewrite (same_neg b) in H by done. split; [lia|]. intros Hpos. apply elem_of_union. right. apply H2. lia.
  - intros p' Hp'. pose proof (space_owners_set x s' (a :: hands x) slot p' Hc16 Hoth) as H. rewrite F2 in H.
    unfold task_space, alive in H. rewrite Hd, Hrd, Hpm in H. destruct (iv_space _ I p' Hp') as [H1 H2]. rewrite Hke.
    destruct Hp as [[-> ->]|[(Hp0 & Hpk & Hpn) ->]].
    + rewrite (same_neg PHYS_NULL) in H by done. replace (space_owners (mkSys s' (a :: hands x)) p') with (space_owners x p') by lia. auto.
    + destruct (decide (p' = p)) as [->|Hne].
      * rewrite same_pos in H by done. assert (space_owners x p = 0%nat) by (destruct (space_owners x p); [done|]; destruct Hpn; apply H2; lia).
        split; [lia|]. intros _. split; [set_solver|done].
      * rewrite (same_neg p) in H by done. split; [lia|]. intros Hpos. destruct H2 as [? ?]; [lia|]. split; [set_solver|done].
  - rewrite Hke. destruct (iv_kernel _ I) as [_ Hk]. destruct Hp as [[_ ->]|[(_ & Hpk & _) ->]]; set_solver.
  - intros c Hc. rewrite Hcr, Hcu, (iv_cr3 _ I c Hc). unfold root_of. rewrite Hke.
    pose proof (cur_not x slot c I Hc ltac:(lia) ltac:(lia)) as Hne. by destruct (Hoth _ Hne) as (_ & _ & _ & ->).
  - unfold locks. cbn [sum_list_with]. rewrite Hlk. apply (iv_lock _ I).
Qed.

Lemma find_dead_ok s : find_dead s = -1 ∨ 1 ≤ find_dead s < task_count s ∧ state (tasks s (find_dead s)) = DEAD.
Proof.
  unfold find_dead.
  pose proof (for_range_rule (λ _ (_ : unit), True) (λ i, 1 ≤ i < task_count s ∧ state (tasks s i) = DEAD) 1 (task_count s)
    (λ i (_ : unit), if is_state DEAD i s then inl i else inr tt) tt I) as H.
  assert (Hb : ∀ j (u : unit), 1 ≤ j < task_count s → True →
    match (if is_state DEAD j s then inl j else inr tt) with
    | inl i => 1 ≤ i < task_count s ∧ state (tasks s i) = DEAD
    | inr _ => True
    end).
  { intros j _ Hj _. destruct (is_state DEAD j s) eqn:E; [|done]. by apply is_state_eq in E. }
  specialize (H Hb). destruct (for_range _ _ _ _) as [i|u]; [by right|by left].
Qed.

Lemma take_slot_ok s slot s' :
  1 ≤ task_count s ≤ MAX_TASKS → (∀ i, task_count s ≤ i → state (tasks s i) = DEAD) → take_slot s = (slot, s') →
  slot < 0 ∧ s' = s ∨
  0 < slot < task_count s' ∧ task_count s ≤ task_count s' ≤ MAX_TASKS ∧ state (tasks s slot) = DEAD ∧
  s' = set_task_count (task_count s') s.
Proof.
  intros Hm Hd. unfold take_slot. destruct (find_dead_ok s) as [->|[Hr Hs]].
  - cbn [Z.ltb andb]. destruct (Z.ltb_spec (task_count s) MAX_TASKS); intros E; injection E as <- <-; [right|by left].
    cbn. split; [lia|]. split; [lia|]. split; [by apply Hd|done].
  - destruct (Z.ltb_spec (find_dead s) 0); [lia|]. cbn [andb]. intros E. injection E as <- <-. right.
    split; [lia|]. split; [lia|]. split; [done|by destruct s].
Qed.

(** A slot that is dead has nothing left to free. *)
Lemma reap_nothing s slot : stack_base (tasks s slot) = 0 → reap_slot slot s = emit (CFlushEvents slot) (emit (CUheapReset slot) s).
Proof. intros H. unfold reap_slot, task_stack_free. by rewrite H. Qed.

Lemma undo_stack x s' b :
  inv x → new_stack b (sc x) → same_core (with_stack b (sc x)) s' → cpu_runqueues s' = cpu_runqueues (sc x) →
  inv (mkSys (task_stack_free b s') (hands x)).
Proof.
  intros I [Hb Hn] C Hq. unfold task_stack_free. destruct (Z.eqb_spec b 0); [lia|]. apply (inv_core (sc x)); [by apply inv_eta| |].
  - destruct C as [C1 C2 C3 C4 C5 C6 C7]. constructor; try done. cbn. rewrite C5. cbn. set_solver.
  - intros c _. cbn. by rewrite Hq.
Qed.

Lemma undo_both x s' b p :
  inv x → new_stack b (sc x) → new_space p (sc x) → same_core (with_space p (with_stack b (sc x))) s' →
  cpu_runqueues s' = cpu_runqueues (sc x) → inv (mkSys (destroy_space p (task_stack_free b s')) (hands x)).
Proof.
  intros I [Hb Hn] (Hp & Hk & Hpn) C Hq. unfold task_stack_free. destruct (Z.eqb_spec b 0); [lia|].
  apply (inv_core (sc x)); [by apply inv_eta| |].
  - destruct C as [C1 C2 C3 C4 C5 C6 C7]. constructor; try done; cbn; rewrite ?C5, ?C6; cbn; set_solver.
  - intros c _. cbn. by rewrite Hq.
Qed.

Lemma first_frame_pos b : 0 < b → 0 < first_frame b.
Proof.
  intros Hb. unfold first_frame, KZ_FAKE_FRAME_TOP, task_stack_top, KZ_FAKE_FRAME_PAD, KZ_REGISTERS_SIZE, GUARD_BYTES, TASK_STACK_SIZE.
  destruct (Z.eqb_spec b 0); lia.
Qed.

Section Create.
Context x (I : inv x) (Hu : unlocked x).

Lemma dead_slot_ok s slot s' :
  tasks s = tasks (sc x) → task_count s = task_count (sc x) → take_slot s = (slot, s') →
  slot < 0 ∧ s' = s ∨
  0 < slot < task_count s' ∧ task_count (sc x) ≤ task_count s' ≤ MAX_TASKS ∧ state (tasks (sc x) slot) = DEAD ∧
  stack_base (tasks (sc x) slot) = 0 ∧ s' = set_task_count (task_count s') s.
Proof.
  intros Ht Hc E. destruct (iv_count _ I) as [Hm Hd].
  destruct (take_slot_ok s slot s') as [?|(H1 & H2 & H3 & H4)]; rewrite ?Hc, ?Ht; try done; [by left|right].
  rewrite Hc in H2. rewrite Ht in H3. split_and!; try done; try lia. apply (iv_dead _ I); [lia|]. unfold alive. by rewrite H3.
Qed.

Lemma set_other s slot t j : j ≠ slot → tasks (set_task slot t s) j = tasks s j.
Proof. intros Hj. cbn. unfold fset. by destruct (Z.eqb_spec j slot). Qed.

Lemma set_same s slot t : tasks (set_task slot t s) slot = t.
Proof. cbn. unfold fset. by rewrite Z.eqb_refl. Qed.

Lemma create_inv c stack prio nm slot s1 :
  new_stack stack (sc x) → create_task_begin c stack prio nm (with_stack stack (sc x)) = (slot, s1) →
  inv (mkSys s1 (if slot <? 0 then hands x else HNew slot stack None :: hands x)).
Proof.
  intros Hst. unfold create_task_begin. destruct (take_slot (with_stack stack (sc x))) as [sl s'] eqn:E.
  destruct (dead_slot_ok (with_stack stack (sc x)) sl s' eq_refl eq_refl E) as [[Hn ->]|(Hsl & Hcn & Hd & Hz & Hs')].
  { destruct (Z.ltb_spec sl 0); [|lia]. intros Eq. injection Eq as <- <-. cbn [Z.ltb].
    by apply undo_stack. }
  destruct (Z.ltb_spec sl 0); [lia|]. rewrite reap_nothing by (rewrite Hs'; done).
  set (s2 := emit (CFlushEvents sl) (emit (CUheapReset sl) s')). cbv zeta. match goal with |- (sl, emit _ (set_task sl ?t _)) = _ → _ => set (t' := t) end.
  intros Eq. injection Eq as <- <-. destruct (Z.ltb_spec sl 0); [lia|].
  assert (Ht' : state t' = READY ∧ stack_base t' = stack ∧ pml4_phys t' = PHYS_NULL ∧ rsp t' = first_frame stack).
  { unfold t'. by destruct ((0 <=? _) && _). }
  destruct Ht' as (T1 & T2 & T3 & T4). pose proof (first_frame_pos stack (proj1 Hst)) as Hff.
  apply (publish_inv x sl stack PHYS_NULL); try done; cbn [tasks emit]; rewrite ?set_same; try done.
  all: try (unfold s2; rewrite Hs'; done).
  - left. split; [done|]. unfold s2. by rewrite Hs'.
  - intros j Hj. rewrite set_other by done. unfold s2. by rewrite Hs'.
  - cbn [hand_ok tasks emit]. rewrite set_same. split_and!; try done; lia.
  - left. lia.
Qed.

(** A slot that could have been taken but was not. *)
Lemma grow_count s n :
  task_count (sc x) ≤ n ≤ MAX_TASKS → same_core (sc x) s → cpu_runqueues s = cpu_runqueues (sc x) →
  inv (mkSys (set_task_count n s) (hands x)).
Proof.
  intros Hn C Hq. pose proof (inv_core (sc x) (hands x) s (inv_eta x I) C ltac:(by intros; rewrite Hq)) as I1.
  destruct I1 as [J1 J2 J3 J4 J5 J6 J7 J7' J8 J9 J10 J11 J12 J13]. constructor; try done.
  split; [cbn; pose proof (iv_count _ I); lia|]. intros i Hi. cbn in Hi |- *. apply J1. cbn [sc]. rewrite (co_count _ _ C). lia.
Qed.

Lemma user_inv c stack space ck ac nm slot s1 :
  is_cpu c → new_stack stack (sc x) → new_space space (sc x) →
  create_user_begin c stack space ck ac nm (with_space space (with_stack stack (sc x))) = (slot, s1) →
  inv (if slot <? 0 then mkSys (destroy_space space s1) (hands x) else mkSys s1 (HNew slot stack (Some space) :: hands x)).
Proof.
  intros Hc Hst Hsp. set (s0 := with_space space (with_stack stack (sc x))). unfold create_user_begin.
  destruct (take_slot s0) as [sl s'] eqn:E.
  destruct (dead_slot_ok s0 sl s' eq_refl eq_refl E) as [[Hn ->]|(Hsl & Hcn & Hd & Hz & Hs')].
  { destruct (Z.ltb_spec sl 0); [|lia]. intros Eq. injection Eq as <- <-. cbn [Z.ltb]. by apply undo_both. }
  destruct (Z.ltb_spec sl 0); [lia|]. rewrite reap_nothing by (rewrite Hs'; done).
  set (s2 := emit (CFlushEvents sl) (emit (CUheapReset sl) s')).
  destruct (_ || _).
  { intros Eq. injection Eq as <- <-. cbn [Z.ltb]. unfold task_stack_free. destruct Hst as [Hb Hbn], Hsp as (Hp & Hk & Hpn).
    destruct (Z.eqb_spec stack 0); [lia|].
    apply (inv_core (set_task_count (task_count s') (sc x))); [by apply grow_count; [|apply same_core_refl|]| |].
    - unfold s2. rewrite Hs'. constructor; try done; cbn; set_solver.
    - intros c' _. unfold s2. by rewrite Hs'. }
  match goal with |- (sl, emit _ (set_task sl ?t _)) = _ → _ => set (t' := t) end.
  intros Eq. injection Eq as <- <-. destruct (Z.ltb_spec sl 0); [lia|]. pose proof (first_frame_pos stack (proj1 Hst)) as Hff.
  apply (publish_inv x sl stack space); try done; cbn [tasks emit]; rewrite ?set_same; try done.
  all: try (unfold s2; rewrite Hs'; done).
  - right. split; [done|]. unfold s2. by rewrite Hs'.
  - intros j Hj. rewrite set_other by done. unfold s2. by rewrite Hs'.
  - cbn [hand_ok tasks emit]. rewrite set_same. split_and!; try done; lia.
  - left. done.
Qed.
End Create.

(** A new task that is given up. *)
Lemma bury_inv x h1 a h2 slot b p s' :
  inv x → (∀ c, c ∈ h1 ++ h2 → holds_lock c = false) → hands x = h1 ++ a :: h2 → (∀ i, hand_tok i a = same slot i) →
  plain a = true → 0 < slot → stack_base (tasks (sc x) slot) = b → pml4_phys (tasks (sc x) slot) = p →
  same_core (bury slot (sc x)) s' → cpu_runqueues s' = cpu_runqueues (sc x) →
  inv (mkSys (destroy_space p (task_stack_free b s')) (h1 ++ h2)).
Proof.
  intros I Hu Hh Hat Hpl Hs0 Hb Hp C Hq.
  assert (Ht : tok x slot = S (queued (sc x) slot + handed (h1 ++ h2) slot)).
  { unfold tok. rewrite Hh, handed_mid, Hat, same_pos by done. lia. }
  destruct (tok_task x slot I ltac:(lia) ltac:(lia)) as [Hlt Hrd]. pose proof (iv_task _ I slot ltac:(lia)) as Hpc.
  rewrite Hrd in Hpc. simpl in Hpc. pose proof (iv_count _ I) as [Hcn _].
  assert (Hc16 : is_cpu slot) by (unfold is_cpu, SMP_MAX_CPUS, MAX_TASKS in *; lia).
  assert (Hbpos : 0 < b) by (rewrite <- Hb; apply (iv_alive _ I); [done|unfold alive; by rewrite Hrd]).
  unfold task_stack_free. destruct (Z.eqb_spec b 0); [lia|]. set (s2 := destroy_space p _).
  assert (C2 : ∀ j, core_eq (tasks (bury slot (sc x)) j) (tasks s2 j)) by apply (co_task _ _ C).
  assert (Hoth : ∀ j, j ≠ slot → core_eq (tasks (sc x) j) (tasks s2 j)).
  { intros j Hj. eapply core_trans; [|apply C2]. by apply upd_other. }
  assert (Hnew : state (tasks s2 slot) = DEAD ∧ stack_base (tasks s2 slot) = 0).
  { destruct (C2 slot) as (-> & _ & -> & _). unfold bury. by rewrite tasks_upd_eq. }
  destruct Hnew as [Hst Hsb]. assert (Hal : alive (tasks s2 slot) = false) by (unfold alive; by rewrite Hst).
  assert (Hcu : ∀ c, is_cpu c → cpu_current_task s2 c = cpu_current_task (sc x) c) by apply (co_cur _ _ C).
  assert (Hcr3 : ∀ c, is_cpu c → cpu_cr3 s2 c = cpu_cr3 (sc x) c) by apply (co_cr3 _ _ C).
  assert (Hcp : ∀ j, cpus s2 j = cpus (sc x) j) by (intros j; apply total_ext; intros c Hc; by rewrite Hcu).
  assert (Hqq : ∀ j, queued s2 j = queued (sc x) j) by (intros j; unfold queued, s2; cbn; by rewrite Hq).
  assert (Hke : kernel_pml4 s2 = kernel_pml4 (sc x)) by apply (co_kernel _ _ C).
  assert (Hcnt : task_count s2 = task_count (sc x)) by apply (co_count _ _ C).
  assert (Hsk : stacks s2 = stacks (sc x) ∖ {[b]}) by (unfold s2; cbn; by rewrite (co_stacks _ _ C)).
  assert (Hsp : spaces s2 = spaces (sc x) ∖ {[p]}) by (unfold s2; cbn; by rewrite (co_spaces _ _ C)).
  assert (Hfr : same_free (hands x) (h1 ++ h2)) by (rewrite Hh; by apply same_free_mid). destruct Hfr as [F1 F2].
  clearbody s2. apply (inv_one x slot); cbn [sc hands]; try done; try lia.
  - intros j Hj Hne. split; [|done]. unfold tok. cbn [sc hands]. rewrite Hqq, Hh, handed_mid, Hat, same_neg by done. done.
  - rewrite Hst, Hcp. unfold tok. cbn [sc hands]. rewrite Hqq. simpl. lia.
  - intros j Hj. rewrite Hqq. by apply (iv_neg _ I).
  - intros c Hc. rewrite Hcu by done. by apply (iv_cur _ I).
  - by rewrite Hst.
  - intros j st sp Hne. rewrite Hh, !elem_of_app, !elem_of_cons. intros [?|[Hf|?]]; [auto| |auto]. exfalso.
    specialize (Hat j). rewrite <- Hf in Hat. cbn in Hat. rewrite same_pos, same_neg in Hat by done. done.
  - unfold asleep. by rewrite Hst.
  - apply (hands_other x _ slot); [done| |lia|done]. intros c Hc. split; [rewrite Hh; by apply elem_mid|by apply Hu].
  - by rewrite Hal.
  - intros b' Hb'. pose proof (stack_owners_set x s2 (h1 ++ h2) slot b' Hc16) as H.
    specialize (H ltac:(intros j Hj; by destruct (Hoth j Hj) as (_ & _ & -> & _))).
    rewrite F1, Hsb, Hb, (same_neg 0) in H by done. destruct (iv_stack _ I b' Hb') as [H1 H2]. rewrite Hsk.
    destruct (decide (b = b')) as [->|Hne]; [rewrite same_pos in H by done; split; lia|].
    rewrite same_neg in H by done. split; [lia|]. intros Hpos. apply elem_of_difference. split; [apply H2; lia|set_solver].
  - intros p' Hp'. pose proof (space_owners_set x s2 (h1 ++ h2) slot p' Hc16 Hoth) as H. rewrite F2 in H.
    unfold task_space in H. rewrite Hal in H. unfold alive in H. rewrite Hrd, Hp in H.
    destruct (iv_space _ I p' Hp') as [H1 H2]. rewrite Hsp, Hke.
    destruct (decide (p = p')) as [->|Hne]; [rewrite same_pos in H by done; split; lia|].
    rewrite same_neg in H by done. split; [lia|]. intros Hpos. destruct H2 as [? ?]; [lia|]. split; [set_solver|done].
  - rewrite Hke, Hsp. destruct (iv_kernel _ I). set_solver.
  - intros c Hc. rewrite Hcu by done. rewrite Hcr3 by done. rewrite (iv_cr3 _ I c Hc). unfold root_of. rewrite Hke.
    pose proof (cur_not x slot c I Hc ltac:(lia) ltac:(lia)) as Hne. by destruct (Hoth _ Hne) as (_ & _ & _ & ->).
  - pose proof (iv_lock _ I) as Hl. rewrite Hh, locks_mid in Hl. lia.
Qed.

Lemma fork_inv x c stack space ck heap_ok slot s1 :
  inv x → unlocked x → is_cpu c → new_stack stack (sc x) → new_space space (sc x) →
  fork_begin (cpu_current_task (sc x) c) stack space ck heap_ok (with_space space (with_stack stack (sc x))) = (slot, s1) →
  inv (mkSys s1 (if slot <? 0 then hands x else HFork slot stack space false :: hands x)).
Proof.
  intros I Hu Hc Hst Hsp. set (s0 := with_space space (with_stack stack (sc x))). unfold fork_begin.
  destruct (take_slot s0) as [sl s'] eqn:E.
  destruct (dead_slot_ok x I s0 sl s' eq_refl eq_refl E) as [[Hn ->]|(Hsl & Hcn & Hd & Hz & Hs')].
  { destruct (Z.ltb_spec sl 0); [|lia]. intros Eq. injection Eq as <- <-. cbn [Z.ltb]. by apply undo_both. }
  destruct (Z.ltb_spec sl 0); [lia|]. rewrite reap_nothing by (rewrite Hs'; done).
  set (s2 := emit (CFlushEvents sl) (emit (CUheapReset sl) s')).
  match goal with |- context [set_task sl ?t _] => set (t' := t) end.
  assert (Ip : inv (mkSys (emit (CUheapClone sl (cpu_current_task (sc x) c)) (set_task sl t' s2)) (HFork sl stack space false :: hands x))).
  { apply (publish_inv x sl stack space); try done; cbn [tasks emit]; rewrite ?set_same; try done.
    all: try (unfold s2; rewrite Hs'; done).
    + right. split; [done|]. unfold s2. by rewrite Hs'.
    + intros j Hj. rewrite set_other by done. unfold s2. by rewrite Hs'.
    + cbn [hand_ok tasks emit]. rewrite set_same. split_and!; try done; lia.
    + right. eauto. }
  destruct heap_ok.
  - intros Eq. injection Eq as <- <-. destruct (Z.ltb_spec sl 0); [lia|done].
  - intros Eq. injection Eq as <- <-. cbn [Z.ltb].
    apply (bury_inv _ [] (HFork sl stack space false) (hands x) sl stack space _ Ip); cbn [sc tasks emit]; rewrite ?set_same; try done.
    + intros a Ha. by apply (free_hands x Hu).
    + lia.
Qed.

Lemma user_inherit_inv x h1 h2 slot stack space creator ok r s1 :
  inv x → unlocked x → hands x = h1 ++ HNew slot stack (Some space) :: h2 →
  create_user_inherit slot stack creator ok (sc x) = (r, s1) →
  inv (if r <? 0 then mkSys (destroy_space space s1) (h1 ++ h2) else mkSys s1 (hands x)).
Proof.
  intros I Hu Hh. destruct (iv_hand _ I (HNew slot stack (Some space)) ltac:(rewrite Hh; set_solver)) as (H0 & Hb & Hp & _).
  unfold create_user_inherit. destruct ok; intros E; injection E as <- <-.
  - destruct (Z.ltb_spec slot 0); [lia|]. apply inv_emit. by apply inv_eta.
  - cbn [Z.ltb]. apply (bury_inv x h1 (HNew slot stack (Some space)) h2 slot stack space _ I); try done.
    intros a Ha. apply (free_hands x Hu). rewrite Hh. by apply elem_mid.
Qed.

Lemma fork_inherit_inv x h1 h2 slot stack space parent ok r s1 :
  inv x → unlocked x → hands x = h1 ++ HFork slot stack space true :: h2 →
  fork_inherit slot stack space parent ok (sc x) = (r, s1) → inv (mkSys s1 (if r <? 0 then h1 ++ h2 else hands x)).
Proof.
  intros I Hu Hh. destruct (iv_hand _ I (HFork slot stack space true) ltac:(rewrite Hh; set_solver)) as (H0 & Hb & Hp & _).
  unfold fork_inherit. destruct ok; intros E; injection E as <- <-.
  - destruct (Z.ltb_spec slot 0); [lia|]. apply inv_emit. by apply inv_eta.
  - cbn [Z.ltb]. apply (bury_inv x h1 (HFork slot stack space true) h2 slot stack space _ I); try done.
    intros a Ha. apply (free_hands x Hu). rewrite Hh. by apply elem_mid.
Qed.

(** A hand for another task does not see a stack pointer change. *)
Lemma hand_rsp s slot r a : hand_ok s a → hand_tok slot a = 0%nat → hand_ok (upd_task slot (set_rsp r) s) a.
Proof.
  intros Hok Hz. destruct a as [t|t st sp|t st sp f|c regs cur run blk next|t|st sp]; try done; cbn [hand_ok hand_tok] in *.
  1, 2: assert (Hne : t ≠ slot) by (intros ->; rewrite same_pos in Hz by done; lia);
    destruct (upd_other s slot (set_rsp r) t Hne) as (_ & -> & -> & ->); done.
  destruct Hok as (Hc & Hr & Hcur & Hs). split; [done|]. split; [done|]. split; [done|]. destruct Hs as [?|(H0 & H1 & H2 & H3)]; [by left|right].
  unfold asleep. rewrite tasks_upd. destruct (Z.eqb_spec cur slot) as [->|]; done.
Qed.

(** The frame of a child is in place. *)
Lemma forge_inv x h1 h2 slot stack space :
  inv x → hands x = h1 ++ HFork slot stack space false :: h2 →
  inv (mkSys (fork_forge slot stack (sc x)) (h1 ++ HFork slot stack space true :: h2)).
Proof.
  intros I Hh. destruct (iv_hand _ I (HFork slot stack space false) ltac:(rewrite Hh; set_solver)) as (H0 & Hb & Hp & _).
  assert (Ht : tok x slot = S (queued (sc x) slot + handed (h1 ++ h2) slot)).
  { unfold tok. rewrite Hh, handed_mid. cbn [hand_tok]. rewrite same_pos by done. lia. }
  destruct (tok_task x slot I ltac:(lia) ltac:(lia)) as [Hlt Hrd]. pose proof (iv_task _ I slot ltac:(lia)) as Hpc.
  rewrite Hrd in Hpc. simpl in Hpc.
  assert (Hbpos : 0 < stack) by (rewrite <- Hb; apply (iv_alive _ I); [done|unfold alive; by rewrite Hrd]).
  assert (Hnew : tasks (fork_forge slot stack (sc x)) slot = set_rsp (stack + TASK_STACK_SIZE - KZ_REGISTERS_SIZE) (tasks (sc x) slot))
    by apply tasks_upd_eq.
  assert (Hpos : 0 < stack + TASK_STACK_SIZE - KZ_REGISTERS_SIZE) by (unfold TASK_STACK_SIZE, KZ_REGISTERS_SIZE; lia).
  apply (inv_state x slot); try done; rewrite ?Hnew; cbn [state set_rsp rsp]; try done; try lia.
  - unfold alive. by rewrite Hrd.
  - unfold alive. cbn [state set_rsp]. by rewrite Hrd.
  - intros j Hj. by apply upd_other.
  - rewrite Hh. by apply same_free_swap.
  - intros j _ Hj. by rewrite Hh, !handed_mid.
  - rewrite Hrd. rewrite handed_mid. cbn [hand_tok]. rewrite same_pos by done. simpl. lia.
  - intros j st sp Hj. rewrite Hh, !elem_of_app, !elem_of_cons. intros [?|[E|?]]; [by left|injection E; intros; congruence|by right; right].
  - assert (Hrest : ∀ a, a ∈ h1 ++ h2 → hand_ok (fork_forge slot stack (sc x)) a).
    { intros a Ha. apply hand_rsp; [apply (iv_hand _ I); rewrite Hh; by apply elem_mid|].
      pose proof (sum_list_with_in a (hand_tok slot) _ Ha) as Hs. unfold handed in Ht, Hpc. lia. }
    intros a [Ha|[->|Ha]%elem_of_cons]%elem_of_app; [apply Hrest; set_solver| |apply Hrest; set_solver].
    cbn [hand_ok]. rewrite Hnew. by split_and!.
  - pose proof (iv_lock _ I) as Hl. rewrite Hh in Hl. by rewrite !locks_mid in *.
Qed.

(** ** Termination *)

(** A task that ends: what it owned is in the hands of whoever ended it. *)
Lemma end_inv x i s' h0 :
  inv x → 0 ≤ i < task_count (sc x) → alive (tasks (sc x) i) = true →
  alive (tasks s' i) = false → stack_base (tasks s' i) = 0 →
  (∀ j, j ≠ i → core_eq (tasks (sc x) j) (tasks s' j)) → task_count s' = task_count (sc x) →
  kernel_pml4 s' = kernel_pml4 (sc x) → stacks s' = stacks (sc x) → spaces s' = spaces (sc x) →
  same_free (hands x) h0 → (∀ a, a ∈ h0 → a ∈ hands x ∧ holds_lock a = false) →
  (∀ j st sp, j ≠ i → HFork j st sp false ∈ hands x → HFork j st sp false ∈ h0) → (∀ j, queued s' j = queued (sc x) j) →
  (∀ j, 0 ≤ j → j ≠ i → handed h0 j = handed (hands x) j ∧ cpus s' j = cpus (sc x) j) →
  (queued (sc x) i + handed h0 i = 0)%nat → cpus s' i = 0%nat → (∀ c, is_cpu c → -1 ≤ cpu_current_task s' c) →
  (∀ c, is_cpu c → cpu_cr3 s' c = root_of s' (cpu_current_task s' c)) → locks h0 = 0%nat →
  inv (mkSys s' (HFree (stack_base (tasks (sc x) i)) (pml4_phys (tasks (sc x) i)) :: h0)).
Proof.
  intros I Hi Hal Hde Hsb Hoth Hcn Hke Hsk Hsp [F1 F2] Hsub Hfk Hq Htk Hz Hcp Hcu Hcr Hlk.
  pose proof (iv_count _ I) as [Hm _]. assert (Hc16 : is_cpu i) by (unfold is_cpu, SMP_MAX_CPUS, MAX_TASKS in *; lia).
  assert (Hv : state (tasks s' i) = DEAD ∨ state (tasks s' i) = ZOMBIE).
  { unfold alive in Hde. destruct (state (tasks s' i)); try done; auto. }
  apply (inv_one x i); cbn [sc hands]; try done; try lia.
  - intros j Hj Hne. destruct (Htk j Hj Hne) as [H1 H2]. split; [|done]. unfold tok, handed. cbn [sc hands sum_list_with hand_tok].
    rewrite Hq. unfold handed in H1. lia.
  - assert (Ht : tok (mkSys s' (HFree (stack_base (tasks (sc x) i)) (pml4_phys (tasks (sc x) i)) :: h0)) i = 0%nat).
    { unfold tok, handed. cbn [sc hands sum_list_with hand_tok]. rewrite Hq. unfold handed in Hz. lia. }
    rewrite Ht, Hcp. by destruct Hv as [-> | ->].
  - intros j Hj. rewrite Hq. by apply (iv_neg _ I).
  - intros Hr. by destruct Hv; congruence.
  - intros j st sp Hne Hf. apply elem_of_cons. right. by apply Hfk.
  - unfold asleep. by destruct Hv as [-> | ->].
  - intros a [->|Ha]%elem_of_cons; [done|]. revert a Ha. apply (hands_other x s' i); [done..|lia|done].
  - by rewrite Hde.
  - intros b Hb. pose proof (stack_owners_set x s' (HFree (stack_base (tasks (sc x) i)) (pml4_phys (tasks (sc x) i)) :: h0) i b Hc16) as H.
    specialize (H ltac:(intros j Hj; by destruct (Hoth j Hj) as (_ & _ & -> & _))).
    cbn [sum_list_with hand_stack] in H. rewrite F1, Hsb, (same_neg 0) in H by done. rewrite Hsk.
    destruct (iv_stack _ I b Hb) as [H1 H2]. split; [lia|]. intros. apply H2. lia.
  - intros p Hp. pose proof (space_owners_set x s' (HFree (stack_base (tasks (sc x) i)) (pml4_phys (tasks (sc x) i)) :: h0) i p Hc16 Hoth) as H.
    cbn [sum_list_with hand_space] in H. unfold task_space in H. rewrite F2, Hal, Hde in H. rewrite Hsp, Hke.
    destruct (iv_space _ I p Hp) as [H1 H2]. split; [lia|]. intros. apply H2. lia.
  - rewrite Hke, Hsp. apply (iv_kernel _ I).
  - unfold locks in *. cbn [sum_list_with holds_lock]. lia.
Qed.

Lemma reparent_core d s : same_core s (reparent d s) ∧ cpu_runqueues (reparent d s) = cpu_runqueues s.
Proof.
  unfold reparent.
  apply (for_each_rule (λ _ s1, same_core s s1 ∧ cpu_runqueues s1 = cpu_runqueues s)); [split; [apply same_core_refl|done]|].
  intros j s1 _ [C Hq]. destruct (_ && _); [|done]. split; [|done]. apply (same_core_trans _ _ _ C). by apply upd_core.
Qed.

(** What [proc_transition_locked] does, up to bookkeeping. *)
Lemma transition_ok tid code reason sw s stack space s1 :
  proc_transition_locked tid code reason sw s = Some (stack, space, s1) →
  0 ≤ tid < task_count s ∧ alive (tasks s tid) = true ∧ stack = stack_base (tasks s tid) ∧ space = pml4_phys (tasks s tid) ∧
  alive (tasks s1 tid) = false ∧ stack_base (tasks s1 tid) = 0 ∧ (∀ j, j ≠ tid → core_eq (tasks s j) (tasks s1 j)) ∧
  task_count s1 = task_count s ∧ kernel_pml4 s1 = kernel_pml4 s ∧ stacks s1 = stacks s ∧ spaces s1 = spaces s ∧
  (∀ j, queued s1 j = queued s j) ∧ (∀ c, is_cpu c → cpu_current_task s1 c = cpu_current_task s c) ∧
  (∀ c, is_cpu c → cpu_cr3 s1 c = if decide (sw = Some c ∧ space ≠ PHYS_NULL) then kernel_pml4 s else cpu_cr3 s c).
Proof.
  unfold proc_transition_locked. destruct (Z.ltb_spec tid 0); [done|]. destruct (Z.leb_spec (task_count s) tid); [done|]. cbn [orb].
  destruct (is_state ZOMBIE tid s) eqn:Ez; [done|]. destruct (is_state DEAD tid s) eqn:Ed; [done|]. cbn [orb].
  apply is_state_ne in Ez, Ed. destruct (reparent_core tid s) as [[C1 C2 C3 C4 C5 C6 C7] Hq]. set (s0 := reparent tid s) in *.
  destruct (C7 tid) as (_ & _ & Hsb & Hpm).
  set (z := _ && negb (is_state ZOMBIE _ s0)). intros E. injection E as <- <- <-. rewrite Hsb, Hpm.
  set (s2 := match sw with Some c => _ | None => s0 end).
  assert (Hs2 : tasks s2 = tasks s0 ∧ task_count s2 = task_count s0 ∧ kernel_pml4 s2 = kernel_pml4 s0 ∧ stacks s2 = stacks s0 ∧
    spaces s2 = spaces s0 ∧ cpu_runqueues s2 = cpu_runqueues s0 ∧ cpu_current_task s2 = cpu_current_task s0).
  { unfold s2. destruct sw; [|done]. by destruct (pml4_phys (tasks s tid) =? PHYS_NULL). }
  destruct Hs2 as (T1 & T2 & T3 & T4 & T5 & T6 & T7).
  split; [lia|]. split; [unfold alive; by destruct (state (tasks s tid))|]. do 2 (split; [done|]).
  split; [rewrite set_same; unfold alive; cbn; by destruct z|]. split; [by rewrite set_same|].
  split; [intros j Hj; rewrite set_other by done; cbn [tasks emit]; by rewrite T1|]. cbn.
  rewrite T2, T3, T4, T5, T7. split_and!; try done.
  - intros j. unfold queued. cbn. by rewrite T6, Hq.
  - intros c Hc. unfold s2. clear T1 T2 T3 T4 T5 T6 T7. destruct sw as [c'|]; [|rewrite decide_False by naive_solver; by apply C3].
    destruct (Z.eqb_spec (pml4_phys (tasks s tid)) PHYS_NULL) as [Hn|Hn]; cbn [negb].
    + rewrite decide_False by naive_solver. by apply C3.
    + cbn. unfold fset. destruct (Z.eqb_spec c c') as [->|Hne]; [by rewrite decide_True|].
      rewrite decide_False by naive_solver. by apply C3.
Qed.

Lemma total_two f c c' : is_cpu c → is_cpu c' → c ≠ c' → (f c + f c' ≤ total f)%nat.
Proof.
  intros Hc Hc' Hne. pose proof (total_fset f c 0 Hc) as H. pose proof (total_ge (fset c 0%nat f) c' Hc') as Hg.
  unfold fset at 1 in Hg. destruct (Z.eqb_spec c' c); [congruence|]. lia.
Qed.

(** A task is current on one processor. *)
Lemma cur_once x c c' :
  inv x → is_cpu c → is_cpu c' → 0 ≤ cpu_current_task (sc x) c → cpu_current_task (sc x) c' = cpu_current_task (sc x) c → c' = c.
Proof.
  intros I Hc Hc' H0 He. destruct (decide (c' = c)) as [|Hne]; [done|]. destruct (cur_task x c I Hc H0) as (_ & _ & H1 & _).
  pose proof (total_two (λ k, same (cpu_current_task (sc x) k) (cpu_current_task (sc x) c)) c' c Hc' Hc Hne) as H.
  cbv beta in H. rewrite !same_pos in H by done. unfold cpus in H1. lia.
Qed.

Lemma exit_inv x c self code reason stack space s1 :
  inv x → unlocked x → is_cpu c → self = cpu_current_task (sc x) c →
  exit_locked c self code reason (exit_cleanup self (sc x)) = Some (stack, space, s1) → inv (mkSys s1 (HFree stack space :: hands x)).
Proof.
  intros I Hu Hc Hself. unfold exit_locked. destruct (_ || _); [done|].
  destruct (proc_transition_locked _ _ _ _ _) as [[[st sp] s2]|] eqn:E; [|done]. intros Eq. injection Eq as -> -> <-.
  apply transition_ok in E as (Hlt & Hal & -> & -> & Hd & Hsb & Hoth & Hcn & Hke & Hsk & Hsp & Hq & Hcu & Hcr).
  change (tasks (exit_cleanup self (sc x))) with (tasks (sc x)) in *.
  destruct (cur_task x c I Hc ltac:(lia)) as (_ & Htk & Hcp & _). rewrite <- Hself in Htk, Hcp.
  assert (Hcpu : ∀ j, cpus s2 j = cpus (sc x) j) by (intros j; apply total_ext; intros c' Hc'; by rewrite Hcu).
  assert (Hset : ∀ j, 0 ≤ j → (cpus (set_cpu c (-1) s2) j + same self j = cpus (sc x) j)%nat).
  { intros j Hj. pose proof (cpus_set_cpu s2 c (-1) j Hc) as H. rewrite (same_neg (-1)), Hcu, Hcpu in H by (lia || done).
    change (cpu_current_task (exit_cleanup self (sc x)) c) with (cpu_current_task (sc x) c) in H. rewrite <- Hself in H. lia. }
  assert (Hcr1 : cpu_cr3 s2 c = kernel_pml4 s2).
  { rewrite (Hcr c Hc), Hke. destruct (decide (Some c = Some c ∧ pml4_phys (tasks (sc x) self) ≠ PHYS_NULL)) as [|Hdec]; [done|].
    change (cpu_cr3 (sc x) c = kernel_pml4 (sc x)). rewrite (iv_cr3 _ I c Hc), <- Hself. unfold root_of.
    destruct (Z.eqb_spec (pml4_phys (tasks (sc x) self)) PHYS_NULL); [by rewrite orb_true_r|by destruct Hdec]. }
  assert (Hcr2 : ∀ c', is_cpu c' → c' ≠ c → cpu_cr3 s2 c' = cpu_cr3 (exit_cleanup self (sc x)) c').
  { intros c' Hc' Hne. rewrite (Hcr c' Hc'), decide_False by naive_solver. done. }
  apply (end_inv x self); try done.
  - by apply free_hands.
  - intros j Hj Hne. split; [done|]. specialize (Hset j Hj). rewrite same_neg in Hset by done. lia.
  - specialize (Hset self ltac:(lia)). rewrite same_pos in Hset by done. lia.
  - intros c' Hc'. cbn. unfold fset. destruct (c' =? c); [lia|]. rewrite Hcu by done. by apply (iv_cur _ I).
  - intros c' Hc'. cbn. unfold fset. destruct (Z.eqb_spec c' c) as [->|Hne].
    + by rewrite Hcr1.
    + rewrite Hcr2, Hcu by done. change (cpu_cr3 (exit_cleanup self (sc x)) c') with (cpu_cr3 (sc x) c').
      change (cpu_current_task (exit_cleanup self (sc x)) c') with (cpu_current_task (sc x) c'). rewrite (iv_cr3 _ I c' Hc').
      assert (Hj : cpu_current_task (sc x) c' ≠ self) by (rewrite Hself; intros He; apply Hne; apply (cur_once x c c'); done || lia).
      unfold root_of. cbn. rewrite Hke. by destruct (Hoth _ Hj) as (_ & _ & _ & ->).
  - by apply unlocked_locks.
Qed.

(** Removing a task from all queues. *)
Lemma remove_task_ok i s :
  0 ≤ i < MAX_TASKS →
  same_core s (scheduler_remove_task i s) ∧
  ∀ c, is_cpu c → cpu_runqueues (scheduler_remove_task i s) c ≡ₚ filter (λ y, y ≠ i) (cpu_runqueues s c).
Proof.
  intros Hi. unfold scheduler_remove_task. destruct (Z.ltb_spec i 0); [lia|]. destruct (Z.leb_spec MAX_TASKS i); [lia|]. cbn [orb].
  pose proof (for_each_upto (λ k s1, same_core s s1 ∧ (∀ c, 0 ≤ c < k → cpu_runqueues s1 c ≡ₚ filter (λ y, y ≠ i) (cpu_runqueues s c)) ∧
    (∀ c, k ≤ c → cpu_runqueues s1 c = cpu_runqueues s c)) 0 SMP_MAX_CPUS (λ c s, (runq_remove c i s).2) s) as Hl.
  destruct Hl as (C & Hq & _); [unfold SMP_MAX_CPUS; lia| | |by split].
  { split; [apply same_core_refl|]. split; [intros; lia|done]. }
  intros k s1 Hk (C & Hq1 & Hq2). unfold runq_remove. destruct (Z.leb_spec SMP_MAX_CPUS k); [lia|].
  destruct (Z.ltb_spec i 0); [lia|]. cbn [orb].
  pose proof (remove_loop_ok (length (cpu_runqueues s1 k)) 0 i (cpu_runqueues s1 k) 0 ltac:(lia) ltac:(lia) ltac:(intros; lia)) as [Hp _].
  destruct (remove_loop _ _ _ _ _) as [r q]. cbn [fst snd] in *. rewrite (Hq2 k) in Hp by lia.
  split; [apply (same_core_trans _ _ _ C); by constructor|]. cbn. unfold fset. split; intros c Hc.
  - destruct (Z.eqb_spec c k) as [->|]; [done|]. apply Hq1. lia.
  - destruct (Z.eqb_spec c k) as [->|]; [lia|]. apply Hq2. lia.
Qed.

Lemma remove_task_queued i s j :
  0 ≤ i < MAX_TASKS → queued (scheduler_remove_task i s) j = if j =? i then 0%nat else queued s j.
Proof.
  intros Hi. destruct (remove_task_ok i s Hi) as [_ Hq].
  assert (H : queued (scheduler_remove_task i s) j = total (λ c, if j =? i then 0%nat else occ j (cpu_runqueues s c))).
  { apply total_ext. intros c Hc. by rewrite (occ_perm _ _ _ (Hq c Hc)), occ_filter. }
  rewrite H. by destruct (j =? i).
Qed.

Lemma kill_inv x c pid plan s1 :
  inv x → unlocked x → proc_kill_begin c pid (sc x) = (plan, s1) →
  (plan = KillReady → ∃ q, is_cpu q ∧ pid ∈ cpu_runqueues (sc x) q) →
  inv (mkSys s1 (match plan with KillReady => HKill pid :: hands x | _ => hands x end)).
Proof.
  intros I Hu. unfold proc_kill_begin. destruct (kill_allowed c pid (sc x)) eqn:Ea; cbn [negb];
    [|intros E _; injection E as <- <-; by apply inv_eta].
  destruct (kill_pending _); [intros E _; injection E as <- <-; by apply inv_eta|].
  assert (Hp : 0 ≤ pid < MAX_TASKS).
  { unfold kill_allowed in Ea. destruct (Z.leb_spec 0 pid); [|done]. destruct (Z.ltb_spec pid MAX_TASKS); [lia|done]. }
  destruct (is_state READY pid (sc x)) eqn:Er; intros E Hs; injection E as <- <-.
  - destruct (Hs eq_refl) as (q & Hq & Hin). apply occ_elem in Hin. pose proof (occ_queued (sc x) q pid Hq) as Hle.
    destruct (placed_tok _ _ _ (iv_task _ I pid ltac:(lia))) as [Ht _]. unfold tok in Ht.
    apply (core_inv x); [done|by apply remove_task_ok|by apply same_free_cons| | | |set_solver|].
    + intros i Hi. unfold tok, handed. cbn [sc hands sum_list_with hand_tok]. rewrite remove_task_queued by done.
      destruct (Z.eqb_spec i pid) as [->|Hne]; [rewrite same_pos by done; unfold handed in Ht; lia|by rewrite same_neg].
    + intros i Hi. rewrite remove_task_queued by done. destruct (i =? pid); [done|by apply (iv_neg _ I)].
    + intros a [->|Ha]%elem_of_cons; [cbn; lia|by apply (iv_hand _ I)].
    + unfold locks. cbn [sum_list_with holds_lock]. apply (iv_lock _ I).
  - apply (inv_core (sc x)); [by apply inv_eta|by apply upd_core|done].
Qed.

Lemma kill_finish_inv x h1 h2 pid left wake s1 :
  inv x → unlocked x → hands x = h1 ++ HKill pid :: h2 → proc_kill_finish pid (kill_cleanup pid (sc x)) = (left, wake, s1) →
  inv (mkSys s1 (match left with Some (stack, space) => HFree stack space :: h1 ++ h2 | None => h1 ++ h2 end)).
Proof.
  intros I Hu Hh. pose proof (iv_hand _ I (HKill pid) ltac:(rewrite Hh; set_solver)) as H0. cbn in H0.
  assert (Ht : tok x pid = S (queued (sc x) pid + handed (h1 ++ h2) pid)).
  { unfold tok. rewrite Hh, handed_mid. cbn [hand_tok]. rewrite same_pos by done. lia. }
  destruct (tok_task x pid I H0 ltac:(lia)) as [Hlt Hrd]. pose proof (iv_task _ I pid H0) as Hpc. rewrite Hrd in Hpc. simpl in Hpc.
  set (s0 := kill_cleanup pid (sc x)). assert (Hs0 : state (tasks s0 pid) = READY) by done.
  assert (Hst : ∀ v, v ≠ READY → is_state v pid s0 = false) by (intros v Hv; apply is_state_ne; congruence).
  unfold proc_kill_finish. rewrite !Hst, (proj2 (is_state_eq READY pid s0) Hs0) by done.
  destruct (Z.leb_spec (task_count s0) pid) as [|_]; [change (task_count s0) with (task_count (sc x)) in *; lia|]. cbn [orb negb].
  destruct (proc_transition_locked _ _ _ _ _) as [[[st sp] s2]|] eqn:E.
  - intros Eq. injection Eq as <- <- <-.
    apply transition_ok in E as (_ & Hal & -> & -> & Hd & Hsb & Hoth & Hcn & Hke & Hsk & Hsp & Hq & Hcu & Hcr).
    change (tasks s0) with (tasks (sc x)) in *.
    assert (Hcpu : ∀ j, cpus s2 j = cpus (sc x) j) by (intros j; apply total_ext; intros c' Hc'; by rewrite Hcu).
    apply (end_inv x pid); try done.
    + rewrite Hh. by apply same_free_mid.
    + intros a Ha. apply free_hands; [done|]. rewrite Hh. by apply elem_mid.
    + intros j b p _. rewrite Hh, !elem_of_app, elem_of_cons. intros [?|[?|?]]; [by left|done|by right].
    + intros j Hj Hne. split; [|done]. rewrite Hh, handed_mid. cbn [hand_tok]. by rewrite same_neg.
    + lia.
    + rewrite Hcpu. lia.
    + intros c Hc. rewrite Hcu by done. by apply (iv_cur _ I).
    + intros c Hc. rewrite Hcr, decide_False, Hcu by naive_solver. change (cpu_cr3 (sc x) c = root_of s2 (cpu_current_task (sc x) c)).
      rewrite (iv_cr3 _ I c Hc). pose proof (cur_not x pid c I Hc H0 ltac:(lia)) as Hne. unfold root_of. rewrite Hke.
      by destruct (Hoth _ Hne) as (_ & _ & _ & ->).
    + apply unlocked_locks in Hu. rewrite Hh, locks_mid in Hu. lia.
  - exfalso. revert E. unfold proc_transition_locked. rewrite !Hst by done. cbn [orb].
    destruct (Z.ltb_spec pid 0); [lia|]. destruct (Z.leb_spec (task_count s0) pid) as [|_]; [change (task_count s0) with (task_count (sc x)) in *; lia|done].
Qed.

(** Freeing what a terminated task had. *)
Lemma free_inv x h1 h2 stack space :
  inv x → hands x = h1 ++ HFree stack space :: h2 → inv (mkSys (free_task stack space (sc x)) (h1 ++ h2)).
Proof.
  intros I Hh. set (s' := free_task stack space (sc x)).
  assert (Hs : ∃ st sp, s' = set_stacks st (set_spaces sp (sc x))).
  { exists (stacks s'), (spaces s'). unfold s', free_task, task_stack_free. destruct (negb _), (stack =? 0); by destruct (sc x). }
  assert (Hsk : ∀ b, b ≠ stack → b ∈ stacks (sc x) → b ∈ stacks s').
  { intros b Hb. unfold s', free_task, task_stack_free. destruct (negb _), (stack =? 0); cbn; set_solver. }
  assert (Hsp : ∀ p, p ≠ space → p ∈ spaces (sc x) → p ∈ spaces s').
  { intros p Hp. unfold s', free_task, task_stack_free. destruct (negb _), (stack =? 0); cbn; set_solver. }
  assert (Hsub : spaces s' ⊆ spaces (sc x)).
  { unfold s', free_task, task_stack_free. destruct (negb _), (stack =? 0); cbn; set_solver. }
  clearbody s'. destruct Hs as (sks & sps & ->). cbn in Hsk, Hsp, Hsub. set (x' := mkSys _ (h1 ++ h2)).
  assert (Hown : ∀ b, stack_owners x b = (same stack b + stack_owners x' b)%nat).
  { intros b. unfold stack_owners. rewrite Hh, sum_mid. cbn. lia. }
  assert (Hspo : ∀ p, space_owners x p = (same space p + space_owners x' p)%nat).
  { intros p. unfold space_owners. rewrite Hh, sum_mid. cbn. lia. }
  pose proof (iv_lock _ I) as Hlk. rewrite Hh, locks_mid in Hlk. cbn [holds_lock] in Hlk.
  destruct I as [J1 J2 J3 J4 J5 J6 J7 J7' J8 J9 J10 J11 J12 J13]. constructor; try done.
  - intros i Hi. specialize (J3 i Hi). unfold tok in *. by rewrite Hh, handed_mid in J3.
  - intros i Hi Hr. destruct (J5 i Hi Hr) as [?|(st & sp & Hf)]; [by left|right]. exists st, sp. rewrite Hh in Hf. cbn. set_solver.
  - intros a Ha. assert (Hin : a ∈ hands x) by (rewrite Hh; by apply elem_mid). by specialize (J7 a Hin); destruct a.
  - intros b Hb. destruct (J10 b Hb) as [H1 H2]. rewrite Hown in H1, H2. destruct (decide (b = stack)) as [->|Hne].
    + rewrite same_pos in H1 by done. split; lia.
    + rewrite same_neg in H1, H2 by done. split; [lia|]. intros Hpos. apply Hsk; [done|]. by apply H2.
  - intros p Hp. destruct (J11 p Hp) as [H1 H2]. rewrite Hspo in H1, H2. destruct (decide (p = space)) as [->|Hne].
    + rewrite same_pos in H1 by done. split; lia.
    + rewrite same_neg in H1, H2 by done. split; [lia|]. intros Hpos. destruct (H2 Hpos) as [Ha Hb]. split; [by apply Hsp|done].
  - split; [apply J12|]. intros Hin. by apply J12, Hsub.
Qed.

(** What a round of [proc_waitpid] reaps is a zombie. *)
Lemma wait_scan_ok self pid s have target :
  pid = PROC_WAIT_ANY ∨ 0 ≤ pid → wait_scan self pid s = (have, target) → 0 ≤ target →
  target < task_count s ∧ state (tasks s target) = ZOMBIE ∧ parent_id (tasks s target) = self.
Proof.
  intros Hpid. unfold wait_scan. destruct (Z.eqb_spec pid PROC_WAIT_ANY) as [->|Hne].
  - pose proof (for_range_rule (λ _ (_ : bool), True)
      (λ i, i < task_count s ∧ state (tasks s i) = ZOMBIE ∧ parent_id (tasks s i) = self) 0 (Z.min (task_count s) MAX_TASKS)
      (λ i have, if negb (is_child self i s) then inr have else if is_state ZOMBIE i s then inl i else inr true) false Logic.I) as H.
    destruct (for_range _ _ _ _) as [i|b].
    + intros E. injection E as <- <-. intros _. apply H. clear H. intros j b Hj _. destruct (is_child self j s) eqn:Ec; [|done].
      cbn [negb]. destruct (is_state ZOMBIE j s) eqn:Ez; [|done]. apply is_state_eq in Ez. unfold is_child in Ec.
      apply andb_true_iff in Ec as [_ Ec%Z.eqb_eq]. split; [lia|done].
    + intros E. injection E as <- <-. lia.
  - destruct Hpid as [?|Hp]; [done|]. destruct (Z.ltb_spec pid (Z.min (task_count s) MAX_TASKS)); cbn [andb]; [|intros E; injection E as <- <-; lia].
    destruct (is_child self pid s) eqn:Ec; [|intros E; injection E as <- <-; lia].
    destruct (is_state ZOMBIE pid s) eqn:Ez; intros E; injection E as <- <-; [|lia]. intros _. apply is_state_eq in Ez.
    unfold is_child in Ec. apply andb_true_iff in Ec as [_ Ec%Z.eqb_eq]. split; [lia|done].
Qed.

(** A zombie that is reaped. *)
Lemma reap_one_inv x i :
  inv x → unlocked x → 0 ≤ i → i < task_count (sc x) → state (tasks (sc x) i) = ZOMBIE → inv (mkSys (upd_task i reaped (sc x)) (hands x)).
Proof.
  intros I Hu H0 Hlt Hz. set (s' := upd_task i reaped (sc x)). assert (Hnew : tasks s' i = reaped (tasks (sc x) i)) by apply tasks_upd_eq.
  pose proof (iv_task _ I i H0) as Hp. rewrite Hz in Hp. simpl in Hp. pose proof (iv_count _ I) as [Hm _].
  assert (Hd : alive (tasks (sc x) i) = false) by (unfold alive; by rewrite Hz).
  assert (Hoth : ∀ j, j ≠ i → core_eq (tasks (sc x) j) (tasks s' j)) by (intros j Hj; by apply upd_other).
  assert (Hsb : ∀ j, stack_base (tasks s' j) = stack_base (tasks (sc x) j)).
  { intros j. destruct (decide (j = i)) as [->|Hne]; [by rewrite Hnew|]. by destruct (Hoth j Hne) as (_ & _ & -> & _). }
  assert (Hpm : ∀ j, pml4_phys (tasks s' j) = pml4_phys (tasks (sc x) j) ∧ alive (tasks s' j) = alive (tasks (sc x) j)).
  { intros j. destruct (decide (j = i)) as [->|Hne]; [by rewrite Hnew, Hd|].
    pose proof (core_alive _ _ (Hoth j Hne)) as [-> _]. by destruct (Hoth j Hne) as (_ & _ & _ & ->). }
  apply (inv_one x i); cbn [sc hands]; rewrite ?Hnew; try done.
  - change (task_count s') with (task_count (sc x)). lia.
  - apply (iv_neg _ I).
  - apply (iv_cur _ I).
  - apply (hands_other x _ i); [done|by apply free_hands|unfold tok in Hp; lia|done].
  - intros _. by apply (iv_dead _ I).
  - intros b Hb. rewrite (stack_owners_same x s' (hands x) Hsb ltac:(by split) b). by apply (iv_stack _ I).
  - intros p Hp'. rewrite (space_owners_same x s' (hands x) Hpm ltac:(by split) p). by apply (iv_space _ I).
  - apply (iv_kernel _ I).
  - intros c Hc. change (cpu_cr3 (sc x) c = root_of s' (cpu_current_task (sc x) c)). rewrite (iv_cr3 _ I c Hc). unfold root_of.
    by destruct (Hpm (cpu_current_task (sc x) c)) as [-> _].
  - apply (iv_lock _ I).
Qed.

Lemma reap_inv x c pid options r s1 :
  inv x → unlocked x → proc_waitpid_round c pid options (sc x) = (r, s1) → inv (mkSys s1 (hands x)).
Proof.
  intros I Hu. unfold proc_waitpid_round. destruct (_ && _); [intros E; injection E as _ <-; by apply inv_eta|].
  set (self := smp_current_task_id c (sc x)). destruct (_ || _); [intros E; injection E as _ <-; by apply inv_eta|].
  destruct (Z.eqb_spec pid PROC_WAIT_ANY) as [Hany|Hany]; destruct (Z.ltb_spec pid 0); destruct (MAX_TASKS <=? pid); cbn [negb andb orb];
    try (intros E; injection E as _ <-; by apply inv_eta).
  all: destruct (wait_scan self pid (sc x)) as [have target] eqn:Ew; destruct have; cbn [negb]; [|intros E; injection E as _ <-; by apply inv_eta].
  all: destruct (Z.leb_spec 0 target) as [H0|H0];
    [|destruct (options =? PROC_WNOHANG); intros E; injection E as _ <-; by apply inv_eta].
  all: destruct (wait_scan_ok self pid (sc x) true target ltac:(tauto) Ew H0) as (Hlt & Hz & _).
  all: intros E; injection E as _ <-; by apply reap_one_inv.
Qed.

Lemma total_zero f : (∀ c, is_cpu c → f c = 0%nat) → total f = 0%nat.
Proof. intros H. rewrite (total_ext f (λ _, 0%nat) H). reflexivity. Qed.

(** The state [tasking_init] leaves: the boot task on the boot processor. *)
Lemma init_inv cr3 img tops : cr3 ≠ PHYS_NULL → inv (mkSys (tasking_init cr3 img tops) []).
Proof.
  intros Hcr. set (s := tasking_init cr3 img tops).
  assert (Hq : ∀ i, queued s i = 0%nat) by (intros i; by apply total_zero).
  assert (Hd : ∀ i, i ≠ 0 → tasks s i = dead_task) by (intros i Hi; cbn; unfold fset; by destruct (Z.eqb_spec i 0)).
  assert (Hp : ∀ i, stack_base (tasks s i) = 0 ∧ pml4_phys (tasks s i) = PHYS_NULL).
  { intros i. destruct (decide (i = 0)) as [->|Hi]; [done|by rewrite Hd]. }
  assert (Hcp : ∀ i, 0 ≤ i → cpus s i = same 0 i).
  { intros i Hi. pose proof (cpus_set_cpu (set_cpu 0 (-1) s) 0 0 i ltac:(done)) as H. cbn [cpu_current_task set_cpu] in H.
    unfold fset in H at 1. cbn in H. rewrite (same_neg (-1)) in H by lia.
    assert (Hz : cpus (set_cpu 0 (-1) s) i = 0%nat).
    { apply total_zero. intros c Hc. apply same_neg. cbn. unfold fset. destruct (c =? 0); lia. }
    assert (He : cpus (set_cpu 0 0 (set_cpu 0 (-1) s)) i = cpus s i); [|lia].
    apply total_ext. intros c Hc. cbn. unfold fset. by destruct (c =? 0). }
  assert (Has : ∀ i, asleep (tasks s i) = false).
  { intros i. destruct (decide (i = 0)) as [->|Hi]; [done|by rewrite Hd]. }
  constructor; cbn [sc hands].
  - split; [done|]. intros i Hi. cbn in Hi. rewrite Hd by lia. done.
  - done.
  - intros i Hi. unfold tok. cbn [sc hands]. rewrite Hq, Hcp by done. destruct (decide (i = 0)) as [->|Hn]; [done|].
    rewrite Hd, same_neg by done. done.
  - intros c Hc. cbn. unfold fset. destruct (c =? 0); lia.
  - intros i Hi. destruct (decide (i = 0)) as [->|Hn]; [done|by rewrite Hd].
  - intros i _. by rewrite Has.
  - intros a Ha. by apply elem_of_nil in Ha.
  - by cbn; lia.
  - intros i _ _. apply Hp.
  - intros i Hi. by rewrite Hd by lia.
  - intros b Hb. assert (Hz : stack_owners (mkSys s []) b = 0%nat); [|rewrite Hz; split; lia].
    unfold stack_owners. rewrite total_zero; [done|]. intros c _. cbn [sc]. destruct (Hp c) as [-> _]. by apply same_neg.
  - intros p Hp'. assert (Hz : space_owners (mkSys s []) p = 0%nat); [|rewrite Hz; split; lia].
    unfold space_owners. rewrite total_zero; [done|]. intros c _. cbn [sc]. unfold task_space. destruct (Hp c) as [_ ->].
    destruct (alive _); [by apply same_neg|done].
  - split; [done|apply not_elem_of_empty].
  - intros c Hc. unfold root_of. destruct (Hp (cpu_current_task s c)) as [_ ->]. by rewrite Z.eqb_refl, orb_true_r.
Qed.

Lemma sstep_inv x y : inv x → sstep true x y → inv y.
Proof.
  intros I H. destruct H.
  - by eapply pick_inv.
  - by eapply steal_inv.
  - by eapply switch_inv.
  - by eapply block_inv.
  - by eapply sleep_inv.
  - by eapply unblock_inv.
  - by eapply unblock_push_inv.
  - by eapply create_inv.
  - by eapply create_push_inv.
  - by eapply user_inv.
  - by eapply user_inherit_inv.
  - by eapply user_push_inv.
  - by eapply fork_inv.
  - by eapply forge_inv.
  - by eapply fork_inherit_inv.
  - by eapply fork_push_inv.
  - by apply (exit_inv x c self code reason).
  - eapply kill_inv; eauto.
  - by eapply kill_finish_inv.
  - by eapply free_inv.
  - by eapply reap_inv.
  - apply (inv_core (sc x)); [by apply inv_eta|by constructor|done].
Qed.

Lemma reach_inv cr3 img tops x : cr3 ≠ PHYS_NULL → rtc (sstep true) (mkSys (tasking_init cr3 img tops) []) x → inv x.
Proof.
  intros Hcr Hr. pose proof (init_inv cr3 img tops Hcr) as I0. revert I0.
  induction Hr as [|x y z Hs _ IH]; intros I0; [done|]. apply IH. by apply (sstep_inv x).
Qed.
