(* ===== verification/SchedShape.v ===== *)
(** The indices of the scheduler in every interleaving, also in those where a kill arrives
    between the publication of a task and its push: [shape] says that the task numbers the
    scheduler holds are those of existing slots, and [sstep_shape] that every step keeps
    it. *)

From stdpp Require Import relations.
From S2P Require Import Prelude RunQueue Sched SchedSys SchedRun SchedLife.

Implicit Types (s : sched) (x : sys) (h : list hand).

Definition queue_shape (n : Z) (q : list Z) : Prop := zlength q ≤ RUNQ_CAPACITY ∧ ∀ i, i ∈ q → 0 ≤ i < n.

Definition shape s : Prop :=
  1 ≤ task_count s ≤ MAX_TASKS ∧ (∀ i, task_count s ≤ i → state (tasks s i) = DEAD) ∧
  (∀ c, -1 ≤ cpu_current_task s c < task_count s) ∧ (∀ c, queue_shape (task_count s) (cpu_runqueues s c)).

(** The task numbers a hand holds are those of the first [n] slots. *)
Definition hand_shape (n : Z) (a : hand) : Prop :=
  match a with
  | HPush t | HKill t | HNew t _ _ | HFork t _ _ _ => 0 ≤ t < n
  | HSched _ _ cur run blk next => -1 ≤ cur < n ∧ -1 ≤ next < n ∧ (run || blk = true → 0 ≤ cur)
  | HFree _ _ => True
  end.

Definition shaped x : Prop := shape (sc x) ∧ ∀ a, a ∈ hands x → hand_shape (task_count (sc x)) a.

(** A state with at least [n] slots in use: what a section makes of one that had [n]. *)
Definition kept (n : Z) s : Prop := shape s ∧ n ≤ task_count s.

Lemma hand_shape_mono n n' a : n ≤ n' → hand_shape n a → hand_shape n' a.
Proof. intros Hn. destruct a; simpl; intuition lia. Qed.

(** ** The operations on a state *)
Section operations.
Context (n : Z).

Lemma kept_upd i f s : kept n s → i < task_count s → kept n (upd_task i f s).
Proof.
  intros [(H1 & H2 & H3) Hn] Hi. split; [|exact Hn]. split; [exact H1|]. split; [|exact H3]. intros j Hj.
  rewrite tasks_upd. cbn in Hj. destruct (Z.eqb_spec j i); [lia|by apply H2].
Qed.

Lemma kept_upd_old i f s : kept n s → i < n → kept n (upd_task i f s).
Proof. intros K Hi. apply kept_upd; [done|]. destruct K. lia. Qed.

Lemma kept_keep i f s : (∀ t, state (f t) = state t) → kept n s → kept n (upd_task i f s).
Proof.
  intros Hf [(H1 & H2 & H3) Hn]. split; [|exact Hn]. split; [exact H1|]. split; [|exact H3]. intros j Hj.
  rewrite tasks_upd. destruct (Z.eqb_spec j i) as [->|]; [rewrite Hf|]; by apply H2.
Qed.

Lemma kept_set_task i t s : kept n s → i < task_count s → kept n (set_task i t s).
Proof.
  intros [(H1 & H2 & H3) Hn] Hi. split; [|exact Hn]. split; [exact H1|]. split; [|exact H3]. intros j Hj.
  cbn in Hj. rewrite set_other by lia. by apply H2.
Qed.

Lemma kept_set_cpu c i s : kept n s → -1 ≤ i < task_count s → kept n (set_cpu c i s).
Proof.
  intros [(H1 & H2 & H3 & H4) Hn] Hi. split; [|exact Hn]. split; [exact H1|]. split; [exact H2|]. split; [|exact H4].
  intros c'. cbn. unfold fset. destruct (c' =? c); [done|apply H3].
Qed.

Lemma kept_set_runq c q s : kept n s → queue_shape (task_count s) q → kept n (set_runq c q s).
Proof.
  intros [(H1 & H2 & H3 & H4) Hn] Hq. split; [|exact Hn]. split; [exact H1|]. split; [exact H2|]. split; [exact H3|].
  intros c'. cbn. unfold fset. destruct (c' =? c); [done|apply H4].
Qed.

Lemma kept_emit e s : kept n s → kept n (emit e s).
Proof. done. Qed.

Lemma kept_cr3 c p s : kept n s → kept n (set_cpu_cr3 c p s).
Proof. done. Qed.

Lemma kept_live c v s : kept n s → kept n (set_live_fpu c v s).
Proof. done. Qed.

Lemma kept_current i s : kept n s → kept n (set_current_task i s).
Proof. done. Qed.

Lemma kept_destroy p s : kept n s → kept n (destroy_space p s).
Proof. done. Qed.

Lemma kept_stack_free b s : kept n s → kept n (task_stack_free b s).
Proof. unfold task_stack_free. by destruct (b =? 0). Qed.

Lemma kept_bury i s : kept n s → i < n → kept n (bury i s).
Proof. apply kept_upd_old. Qed.

Lemma kept_push c i now s : kept n s → 0 ≤ i < n → kept n (runq_push c i now s).2.
Proof.
  intros K Hi. unfold runq_push. destruct (Z.leb_spec RUNQ_CAPACITY (zlength (cpu_runqueues s c))) as [|Hl]; [done|].
  apply kept_set_runq; [by apply kept_keep|]. destruct K as [(_ & _ & _ & H4) Hn]. destruct (H4 c) as [_ He]. split.
  - unfold zlength in *. rewrite length_app. cbn [length]. lia.
  - intros j [Hj|Hj%list_elem_of_singleton]%elem_of_app; [by apply He|subst j; cbn; lia].
Qed.

Lemma kept_pop c now s j s1 : kept n s → runq_pop c now s = (j, s1) → kept n s1 ∧ -1 ≤ j < task_count s1.
Proof.
  intros K E. pose proof (runq_pop_ok c now s) as H. rewrite E in H. destruct H as [(-> & _ & ->)|(q & Hp & -> & _)].
  { split; [done|]. destruct K as [(? & _) _]. lia. }
  pose proof K as [(_ & _ & _ & H4) _]. destruct (H4 c) as [Hl He]. split.
  - apply kept_set_runq; [done|]. split; [|intros i Hi; apply He; rewrite Hp; set_solver].
    unfold zlength in *. rewrite Hp in Hl. cbn [length] in Hl. lia.
  - assert (j ∈ cpu_runqueues s c) as Hj by (rewrite Hp; set_solver). apply He in Hj. cbn. lia.
Qed.

Lemma pop_count c now s j s1 : runq_pop c now s = (j, s1) → task_count s1 = task_count s.
Proof. unfold runq_pop. destruct (_ =? 0); [by intros [= <- <-]|]. destruct (pop_best _ _ _). by intros [= <- <-]. Qed.

Lemma kept_remove_task i s : kept n s → 0 ≤ i < MAX_TASKS → kept n (scheduler_remove_task i s).
Proof.
  intros K Hi. unfold scheduler_remove_task. zcase; try lia. cbn [orb].
  apply (for_each_rule (λ _ s, kept n s)); [done|]. intros c s1 Hc K1. unfold runq_remove. zcase; try lia. cbn [orb].
  pose proof (remove_loop_ok (length (cpu_runqueues s1 c)) 0 i (cpu_runqueues s1 c) 0 ltac:(lia) ltac:(lia) ltac:(intros; lia)) as [Hp _].
  destruct (remove_loop _ _ _ _ _) as [r q]. cbn [fst snd] in *. apply kept_set_runq; [done|].
  destruct K1 as [(_ & _ & _ & H4) _]. destruct (H4 c) as [Hl He]. split.
  - unfold zlength in *. rewrite Hp. pose proof (length_filter (λ y, y ≠ i) (cpu_runqueues s1 c)). lia.
  - intros j. rewrite Hp. intros [_ Hj]%list_elem_of_filter. by apply He.
Qed.

Lemma kept_take_slot s slot s1 : kept n s → take_slot s = (slot, s1) → kept n s1 ∧ slot < task_count s1 ∧ (slot < 0 ∨ 0 < slot).
Proof.
  intros [(H1 & H2 & H3 & H4) Hn] E.
  destruct (take_slot_ok s slot s1 H1 H2 E) as [[Hs ->]|(Hs & Hc & _ & Hs1)]; [split; [by split|lia]|].
  split; [|lia]. set (m := task_count s1) in *. rewrite Hs1. split; [|cbn; lia].
  split; [cbn; lia|]. split; [intros i Hi; apply H2; cbn in Hi; lia|].
  split; [intros c; specialize (H3 c); cbn; lia|]. intros c. destruct (H4 c) as [Hl He]. split; [done|]. intros i Hi%He. cbn. lia.
Qed.

Lemma kept_reparent d s : kept n s → kept n (reparent d s).
Proof.
  intros K. unfold reparent. apply (for_each_rule (λ _ s, kept n s)); [done|]. intros j s1 _ K1. destruct (_ && _); [|done].
  by apply kept_keep.
Qed.

Lemma kept_fpu c p q s : kept n s → kept n (fpu_switch c p q s).
Proof.
  intros K. unfold fpu_switch. destruct ((0 <=? p) && _); destruct ((0 <=? q) && _); try destruct (fpu_initialized _);
    apply kept_live; repeat (apply kept_keep; [done|]); done.
Qed.
End operations.

(** ** The sections *)
Lemma shape_kept s : shape s → kept (task_count s) s.
Proof. intros H. split; [done|lia]. Qed.

Lemma slot_in_table n i s : kept n s → state (tasks s i) ≠ DEAD → i < task_count s.
Proof. intros [(_ & H2 & _) _] Hs. destruct (Z.lt_ge_cases i (task_count s)); [done|]. by destruct Hs; apply H2. Qed.

Lemma kept_outgoing n c s cur run blk s1 :
  kept n s → outgoing c s = (cur, run, blk, s1) → kept n s1 ∧ -1 ≤ cur < task_count s1 ∧ (run || blk = true → 0 ≤ cur).
Proof.
  intros K. pose proof K as [(H1 & _ & H3 & _) _]. specialize (H3 c). unfold outgoing.
  destruct (Z.leb_spec 0 (cpu_current_task s c)) as [H0|H0]; cbn [andb].
  - destruct (Z.ltb_spec (cpu_current_task s c) (task_count s)); cbn [andb]; [|lia].
    destruct (_ && negb _) eqn:Ec; intros E; injection E as <- <- <- <-.
    + split; [apply kept_set_cpu; [done|lia]|]. split; [cbn; lia|]. apply andb_true_iff in Ec as [E1%negb_true_iff E2%negb_true_iff].
      by rewrite E1, E2.
    + split; [done|]. split; [lia|done].
  - cbn. intros E. injection E as <- <- <- <-. split; [apply kept_set_cpu; [done|lia]|]. split; [cbn; lia|done].
Qed.

Lemma kept_switch_to n c cur next s : kept n s → 0 ≤ next < n → kept n (switch_to c cur next s).2.
Proof.
  intros K Hn. unfold switch_to. cbn [snd].
  assert (Hl : ∀ s, kept n s → kept n (load_space c next s)).
  { intros s' K'. unfold load_space. repeat destruct (negb _); first [exact K'|apply kept_cr3, K']. }
  apply Hl, kept_fpu, kept_emit.
  assert (kept n (set_cpu c next (upd_task next (set_state RUNNING) s))); [|by destruct (c =? 0)].
  apply kept_set_cpu; [apply kept_upd_old; [done|lia]|]. destruct K. cbn. lia.
Qed.

Lemma kept_schedule n c regs cur run blk next now s :
  kept n s → -1 ≤ cur < n → -1 ≤ next < n → (run || blk = true → 0 ≤ cur) →
  kept n (schedule_with c regs cur run blk next now s).2.
Proof.
  intros K Hc Hx Hrb. unfold schedule_with.
  assert (Hb : kept n (if blk then upd_task cur (set_rsp regs) s else s)) by (destruct blk; [apply kept_upd_old; [done|lia]|done]).
  destruct (Z.ltb_spec next 0); [done|]. destruct ((task_count s <=? next) || _ || _); [exact K|].
  set (s0 := if blk then _ else s) in *. clearbody s0. destruct run; [|apply kept_switch_to; [done|lia]].
  assert (Hp := kept_push n c cur now (upd_task cur (λ t, set_state READY (set_rsp regs t)) s0)
    ltac:(apply kept_upd_old; [done|lia]) ltac:(specialize (Hrb eq_refl); lia)).
  destruct (runq_push _ _ _ _) as [r s1]. cbn [snd] in Hp. destruct (negb _).
  - apply kept_push; [apply kept_upd_old; [done|lia]|lia].
  - apply kept_switch_to; [done|lia].
Qed.

Lemma kept_block n c v s i s1 : kept n s → block_prepare c v s = (i, s1) → kept n s1.
Proof.
  intros K. unfold block_prepare. destruct (_ && _); [intros E; by injection E as <- <-|].
  destruct (Z.leb_spec (task_count s) (smp_current_task_id c s)); [rewrite orb_true_r; intros E; by injection E as <- <-|].
  destruct (_ || _); [intros E; by injection E as <- <-|].
  destruct (negb _); intros E; injection E as <- <-; [done|]. by apply kept_upd.
Qed.

Lemma kept_unblock n tid s push s1 :
  kept n s → unblock_begin tid s = (push, s1) → kept n s1 ∧ (push = true → 0 ≤ tid < task_count s1).
Proof.
  intros K. unfold unblock_begin. destruct (Z.ltb_spec tid 0); [intros E; by injection E as <- <-|]. cbn [orb].
  destruct (_ <=? _); [intros E; by injection E as <- <-|].
  destruct (_ && _) eqn:Es; [intros E; by injection E as <- <-|].
  assert (Hl : tid < task_count s).
  { apply (slot_in_table n); [done|]. apply andb_false_iff in Es as [Es|Es]; apply negb_false_iff, is_state_eq in Es; by rewrite Es. }
  destruct (0 <=? on_cpu tid s); intros E; injection E as <- <-.
  - split; [|done]. apply kept_emit. do 2 (apply kept_upd; [|done]). done.
  - split; [|intros _; cbn; lia]. do 2 (apply kept_upd; [|done]). done.
Qed.

(** A push, with what the code does when the queue is full. *)
Lemma kept_unblock_push n tid target me now s : kept n s → 0 ≤ tid < n → kept n (unblock_push tid target me now s).
Proof.
  intros K Ht. unfold unblock_push. pose proof (kept_push n target tid now s K Ht) as Hp. destruct (runq_push _ _ _ _) as [r s1].
  cbn [snd] in Hp. destruct (negb (r =? 0)); [|by destruct (negb _)]. destruct (is_state _ _ _); [|done]. apply kept_upd_old; [done|lia].
Qed.

Lemma kept_create_push n slot stack target me now s :
  kept n s → 0 ≤ slot < n → kept n (create_task_push slot stack target me now s).
Proof.
  intros K Ht. unfold create_task_push. pose proof (kept_push n target slot now s K Ht) as Hp. destruct (runq_push _ _ _ _) as [r s1].
  cbn [snd] in Hp. destruct (negb (r =? 0)); [|by destruct (negb _)]. apply kept_stack_free, kept_upd_old; [done|lia].
Qed.

Lemma kept_user_push n slot stack target me now s :
  kept n s → 0 ≤ slot < n → kept n (create_user_push slot stack target me now s).2.
Proof.
  intros K Ht. unfold create_user_push. pose proof (kept_push n target slot now s K Ht) as Hp. destruct (runq_push _ _ _ _) as [r s1].
  cbn [snd] in Hp. destruct (negb (r =? 0)); [|by destruct (negb _)]. apply kept_stack_free, kept_bury; [done|lia].
Qed.

Lemma kept_fork_push n slot stack space target me now s :
  kept n s → 0 ≤ slot < n → kept n (fork_push slot stack space target me now s).2.
Proof.
  intros K Ht. unfold fork_push. pose proof (kept_push n target slot now s K Ht) as Hp. destruct (runq_push _ _ _ _) as [r s1].
  cbn [snd] in Hp. destruct (negb (r =? 0)); [|by destruct (negb _)].
  apply kept_destroy, kept_stack_free, kept_emit, kept_emit, kept_bury; [done|lia].
Qed.

(** Publishing a slot. *)
Lemma kept_reap_slot n slot s : kept n s → kept n (reap_slot slot s).
Proof. intros K. unfold reap_slot. by apply kept_emit, kept_emit, kept_stack_free. Qed.

Lemma reap_slot_count slot s : task_count (reap_slot slot s) = task_count s.
Proof. unfold reap_slot, task_stack_free. by destruct (_ =? 0). Qed.

Lemma kept_create n c stack prio nm s slot s1 :
  kept n s → create_task_begin c stack prio nm s = (slot, s1) → kept n s1 ∧ slot < task_count s1.
Proof.
  intros K. unfold create_task_begin. destruct (take_slot s) as [sl s0] eqn:Et.
  destruct (kept_take_slot n s sl s0 K Et) as (K0 & Hs & _). destruct (Z.ltb_spec sl 0).
  { intros E. injection E as <- <-. pose proof (kept_stack_free n stack s0 K0) as K1. split; [done|]. destruct K1 as [(? & _) _]. lia. }
  intros E. injection E as <- <-. apply (kept_reap_slot n sl) in K0. rewrite <- (reap_slot_count sl) in Hs.
  split; [|done]. by apply kept_emit, kept_set_task.
Qed.

Lemma kept_user n c stack space ck ac nm s slot s1 :
  kept n s → create_user_begin c stack space ck ac nm s = (slot, s1) → kept n s1 ∧ slot < task_count s1.
Proof.
  intros K. unfold create_user_begin. destruct (take_slot s) as [sl s0] eqn:Et.
  destruct (kept_take_slot n s sl s0 K Et) as (K0 & Hs & _).
  assert (Hfail : ∀ s', kept n s' → kept n (task_stack_free stack s') ∧ -1 < task_count (task_stack_free stack s')).
  { intros s' K'. apply (kept_stack_free n stack) in K'. split; [done|]. destruct K' as [(? & _) _]. lia. }
  destruct (Z.ltb_spec sl 0); [intros E; injection E as <- <-; by apply Hfail|].
  apply (kept_reap_slot n sl) in K0. rewrite <- (reap_slot_count sl) in Hs.
  destruct (_ || _); intros E; injection E as <- <-; [by apply Hfail|]. split; [|done]. by apply kept_emit, kept_set_task.
Qed.

Lemma kept_fork n p stack space ck heap_ok s slot s1 :
  kept n s → fork_begin p stack space ck heap_ok s = (slot, s1) → kept n s1 ∧ slot < task_count s1.
Proof.
  intros K. unfold fork_begin. destruct (take_slot s) as [sl s0] eqn:Et.
  destruct (kept_take_slot n s sl s0 K Et) as (K0 & Hs & _).
  assert (Hfail : ∀ s', kept n s' → let s1 := destroy_space space (task_stack_free stack s') in kept n s1 ∧ -1 < task_count s1).
  { intros s' K'. apply (kept_stack_free n stack), (kept_destroy n space) in K'. split; [done|]. destruct K' as [(? & _) _]. lia. }
  destruct (Z.ltb_spec sl 0); [intros E; injection E as <- <-; by apply Hfail|].
  apply (kept_reap_slot n sl) in K0. rewrite <- (reap_slot_count sl) in Hs. set (s2 := reap_slot sl s0) in *. clearbody s2.
  set (t := new_task _ _ _ _ _ _ _ _ _ _ _ _ _). pose proof (kept_set_task n sl t s2 K0 Hs) as K1.
  destruct heap_ok; intros E; injection E as <- <-; [by split|]. apply Hfail, kept_upd; done.
Qed.

(** Terminating a task. *)
Lemma kept_transition n tid code reason sw s st sp s1 :
  kept n s → proc_transition_locked tid code reason sw s = Some (st, sp, s1) → kept n s1.
Proof.
  intros K. unfold proc_transition_locked. destruct (Z.leb_spec (task_count s) tid); [by rewrite orb_true_r|].
  destruct (_ || _); [done|]. destruct (_ || _); [done|]. intros E. injection E as _ _ <-.
  pose proof (kept_reparent n tid s K) as K1. pose proof (co_count _ _ (proj1 (reparent_core tid s))) as Hc.
  apply kept_set_task; [apply kept_emit|cbn]; destruct sw; try destruct (negb _); try done; cbn; lia.
Qed.

Lemma kept_reap n c pid options s r s1 : kept n s → proc_waitpid_round c pid options s = (r, s1) → kept n s1.
Proof.
  intros K. unfold proc_waitpid_round. destruct (_ && _); [intros E; by injection E as <- <-|].
  destruct (_ || _); [intros E; by injection E as <- <-|].
  destruct (negb (pid =? PROC_WAIT_ANY) && _) eqn:Ep; [intros E; by injection E as <- <-|].
  destruct (wait_scan _ _ _) as [have target] eqn:Ew. destruct (negb have); [intros E; by injection E as <- <-|].
  destruct (Z.leb_spec 0 target); [|destruct (options =? PROC_WNOHANG); intros E; by injection E as <- <-].
  intros E. injection E as <- <-. apply kept_upd; [done|]. eapply wait_scan_ok; [|exact Ew|done].
  destruct (Z.eqb_spec pid PROC_WAIT_ANY); [by left|right]. cbn [negb andb] in Ep. apply orb_false_iff in Ep as [Ep%Z.ltb_ge _]. done.
Qed.

(** ** The system *)
Lemma shaped_step x s' h' :
  shaped x → kept (task_count (sc x)) s' → (∀ a, a ∈ h' → a ∈ hands x ∨ hand_shape (task_count s') a) → shaped (mkSys s' h').
Proof.
  intros [_ Hh] [K Hn] H. split; [done|]. intros a [Ha|Ha]%H; [|done]. by eapply hand_shape_mono, Hh.
Qed.

Lemma shaped_same x s' : shaped x → kept (task_count (sc x)) s' → shaped (mkSys s' (hands x)).
Proof. intros S K. apply (shaped_step x); auto. Qed.

Lemma shaped_more x s' a : shaped x → kept (task_count (sc x)) s' → hand_shape (task_count s') a → shaped (mkSys s' (a :: hands x)).
Proof. intros S K Ha. apply (shaped_step x); [done|done|]. intros b [->|Hb]%elem_of_cons; auto. Qed.

Lemma shaped_mid x h1 a h2 : shaped x → hands x = h1 ++ a :: h2 → hand_shape (task_count (sc x)) a.
Proof. intros [_ Hh] E. apply Hh. rewrite E. set_solver. Qed.

Lemma shaped_less x h1 a h2 s' : shaped x → hands x = h1 ++ a :: h2 → kept (task_count (sc x)) s' → shaped (mkSys s' (h1 ++ h2)).
Proof. intros S E K. apply (shaped_step x); [done|done|]. intros b Hb. left. rewrite E. set_solver. Qed.

Lemma shaped_swap x h1 a a' h2 s' :
  shaped x → hands x = h1 ++ a :: h2 → kept (task_count (sc x)) s' → hand_shape (task_count s') a' →
  shaped (mkSys s' (h1 ++ a' :: h2)).
Proof.
  intros S E K Ha. apply (shaped_step x); [done|done|]. intros b [Hb|[->|Hb]%elem_of_cons]%elem_of_app; [|by right|];
    left; rewrite E; set_solver.
Qed.

Lemma kill_shape x c pid plan s1 :
  shaped x → proc_kill_begin c pid (sc x) = (plan, s1) →
  shaped (mkSys s1 (match plan with KillReady => HKill pid :: hands x | _ => hands x end)).
Proof.
  intros S. pose proof (shape_kept _ (proj1 S)) as K. unfold proc_kill_begin.
  destruct (kill_allowed c pid (sc x)) eqn:Ea; cbn [negb]; [|intros E; injection E as <- <-; by apply shaped_same].
  destruct (kill_pending _); [intros E; injection E as <- <-; by apply shaped_same|].
  assert (Hp : 0 ≤ pid < MAX_TASKS ∧ pid < task_count (sc x)).
  { unfold kill_allowed in Ea. destruct (Z.leb_spec 0 pid); [|done]. destruct (Z.ltb_spec pid MAX_TASKS); [|done].
    destruct (Z.ltb_spec pid (task_count (sc x))); [lia|done]. }
  destruct (is_state READY pid (sc x)); intros E; injection E as <- <-.
  - pose proof (kept_remove_task _ pid _ K (proj1 Hp)) as K1. apply shaped_more; [done|done|]. destruct K1. cbn [hand_shape]. lia.
  - apply shaped_same; [done|]. apply kept_upd_old; [done|lia].
Qed.

Lemma kill_finish_shape x h1 h2 pid left wake s1 :
  shaped x → hands x = h1 ++ HKill pid :: h2 → proc_kill_finish pid (kill_cleanup pid (sc x)) = (left, wake, s1) →
  shaped (mkSys s1 (match left with Some (stack, space) => HFree stack space :: h1 ++ h2 | None => h1 ++ h2 end)).
Proof.
  intros S E. pose proof (shape_kept _ (proj1 S)) as K. pose proof (shaped_mid _ _ _ _ S E) as Hp. cbn in Hp.
  unfold proc_kill_finish. destruct (_ || _ || _); [intros E1; injection E1 as <- <- <-; by apply (shaped_less x h1 (HKill pid) h2)|].
  destruct (negb _).
  { intros E1. injection E1 as <- <- <-. apply (shaped_less x h1 (HKill pid) h2); [done|done|]. apply kept_upd_old; [done|lia]. }
  destruct (proc_transition_locked _ _ _ _ _) as [[[st sp] s0]|] eqn:Et; intros E1; injection E1 as <- <- <-.
  - apply (kept_transition (task_count (sc x))) in Et; [|done]. apply (shaped_step x); [done|done|].
    intros a [->|Ha]%elem_of_cons; [by right|left]. rewrite E. set_solver.
  - by apply (shaped_less x h1 (HKill pid) h2).
Qed.

Lemma create_shape x c stack prio nm slot s1 :
  shaped x → create_task_begin c stack prio nm (with_stack stack (sc x)) = (slot, s1) →
  shaped (mkSys s1 (if slot <? 0 then hands x else HNew slot stack None :: hands x)).
Proof.
  intros S E. apply (kept_create (task_count (sc x))) in E as [K Hs]; [|exact (shape_kept _ (proj1 S))].
  destruct (Z.ltb_spec slot 0); [by apply shaped_same|]. apply shaped_more; [done|done|]. cbn. lia.
Qed.

Lemma user_shape x c stack space ck ac nm slot s1 :
  shaped x → create_user_begin c stack space ck ac nm (with_space space (with_stack stack (sc x))) = (slot, s1) →
  shaped (if slot <? 0 then mkSys (destroy_space space s1) (hands x) else mkSys s1 (HNew slot stack (Some space) :: hands x)).
Proof.
  intros S E. apply (kept_user (task_count (sc x))) in E as [K Hs]; [|exact (shape_kept _ (proj1 S))].
  destruct (Z.ltb_spec slot 0); [by apply shaped_same|]. apply shaped_more; [done|done|]. cbn. lia.
Qed.

Lemma fork_shape x p stack space ck heap_ok slot s1 :
  shaped x → fork_begin p stack space ck heap_ok (with_space space (with_stack stack (sc x))) = (slot, s1) →
  shaped (mkSys s1 (if slot <? 0 then hands x else HFork slot stack space false :: hands x)).
Proof.
  intros S E. apply (kept_fork (task_count (sc x))) in E as [K Hs]; [|exact (shape_kept _ (proj1 S))].
  destruct (Z.ltb_spec slot 0); [by apply shaped_same|]. apply shaped_more; [done|done|]. cbn. lia.
Qed.

Lemma pick_shape x c regs now cur run blk s1 next s2 :
  shaped x → outgoing c (sc x) = (cur, run, blk, s1) → runq_pop c now s1 = (next, s2) →
  shaped (mkSys s2 (HSched c regs cur run blk next :: hands x)).
Proof.
  intros S Eo Ep. apply (kept_outgoing (task_count (sc x))) in Eo as (K & Hc & Hrb); [|exact (shape_kept _ (proj1 S))].
  pose proof (kept_pop _ _ _ _ _ _ K Ep) as [K1 Hn]. apply shaped_more; [done|done|]. cbn. split; [|by split].
  apply pop_count in Ep. lia.
Qed.

Lemma steal_shape x h1 h2 c regs cur run blk old v now next s1 :
  shaped x → hands x = h1 ++ HSched c regs cur run blk old :: h2 → runq_pop v now (sc x) = (next, s1) →
  shaped (mkSys s1 (h1 ++ HSched c regs cur run blk next :: h2)).
Proof.
  intros S E Ep. pose proof (shaped_mid _ _ _ _ S E) as (Hc & _ & Hrb).
  destruct (kept_pop _ _ _ _ _ _ (shape_kept _ (proj1 S)) Ep) as [K Hn].
  eapply shaped_swap; [done|exact E|done|]. cbn. destruct K. split; [lia|by split].
Qed.

Lemma switch_shape x h1 h2 c regs cur run blk next now r s1 :
  shaped x → hands x = h1 ++ HSched c regs cur run blk next :: h2 →
  schedule_with c regs cur run blk next now (sc x) = (r, s1) → shaped (mkSys s1 (h1 ++ h2)).
Proof.
  intros S E Es. pose proof (shaped_mid _ _ _ _ S E) as (Hc & Hn & Hrb). eapply shaped_less; [done|exact E|].
  pose proof (kept_schedule _ c regs cur run blk next now _ (shape_kept _ (proj1 S)) Hc Hn Hrb) as K. by rewrite Es in K.
Qed.

Lemma sleep_shape x c ms now i s1 : shaped x → task_sleep_ms c ms now (sc x) = (i, s1) → shaped (mkSys s1 (hands x)).
Proof.
  intros S. pose proof (shape_kept _ (proj1 S)) as K. unfold task_sleep_ms.
  destruct (ms =? 0); [intros E; injection E as <- <-; by apply shaped_same|].
  destruct (_ || _); [intros E; injection E as <- <-; by apply shaped_same|].
  intros E. apply shaped_same; [done|]. eapply kept_block; [|exact E]. by apply kept_keep.
Qed.

Lemma exit_shape x c self code reason stack space s1 :
  shaped x → exit_locked c self code reason (exit_cleanup self (sc x)) = Some (stack, space, s1) →
  shaped (mkSys s1 (HFree stack space :: hands x)).
Proof.
  intros S. unfold exit_locked. destruct (_ || _); [done|].
  destruct (proc_transition_locked _ _ _ _ _) as [[[st sp] s0]|] eqn:Et; [|done]. intros E. injection E as <- <- <-.
  apply (kept_transition (task_count (sc x))) in Et; [|exact (shape_kept _ (proj1 S))].
  apply shaped_more; [done| |done]. apply kept_set_cpu; [done|]. destruct Et as [(? & _) _]. lia.
Qed.

(** The steps of a creation after the publication. *)
Lemma user_inherit_shape x h1 h2 slot stack space creator ok r s1 :
  shaped x → hands x = h1 ++ HNew slot stack (Some space) :: h2 → create_user_inherit slot stack creator ok (sc x) = (r, s1) →
  shaped (if r <? 0 then mkSys (destroy_space space s1) (h1 ++ h2) else mkSys s1 (hands x)).
Proof.
  intros S E. pose proof (shape_kept _ (proj1 S)) as K. pose proof (shaped_mid _ _ _ _ S E) as Hp. cbn in Hp.
  unfold create_user_inherit. destruct ok; intros E1; injection E1 as <- <-.
  - destruct (Z.ltb_spec slot 0); [lia|]. by apply shaped_same.
  - eapply shaped_less; [done|exact E|]. apply kept_destroy, kept_stack_free, kept_bury; [done|lia].
Qed.

Lemma fork_inherit_shape x h1 h2 slot stack space parent ok r s1 :
  shaped x → hands x = h1 ++ HFork slot stack space true :: h2 → fork_inherit slot stack space parent ok (sc x) = (r, s1) →
  shaped (mkSys s1 (if r <? 0 then h1 ++ h2 else hands x)).
Proof.
  intros S E. pose proof (shape_kept _ (proj1 S)) as K. pose proof (shaped_mid _ _ _ _ S E) as Hp. cbn in Hp.
  unfold fork_inherit. destruct ok; intros E1; injection E1 as <- <-.
  - destruct (Z.ltb_spec slot 0); [lia|]. by apply shaped_same.
  - eapply shaped_less; [done|exact E|]. apply kept_destroy, kept_stack_free, kept_emit, kept_bury; [done|lia].
Qed.

Lemma push_shape x h1 h2 a t s' :
  shaped x → hands x = h1 ++ a :: h2 → (hand_shape (task_count (sc x)) a → 0 ≤ t < task_count (sc x)) →
  (∀ n, kept n (sc x) → 0 ≤ t < n → kept n s') → shaped (mkSys s' (h1 ++ h2)).
Proof.
  intros S E Ht Hk. eapply shaped_less; [done|exact E|]. apply Hk; [exact (shape_kept _ (proj1 S))|].
  apply Ht, (shaped_mid _ _ _ _ S E).
Qed.

(** Every step keeps the indices in range, whenever a kill arrives. *)
Lemma sstep_shape strict x y : shaped x → sstep strict x y → shaped y.
Proof.
  intros S St. pose proof (shape_kept _ (proj1 S)) as K.
  destruct St as [| | | | |x tid push s1 _ E| | | | | |x h1 h2 slot stack space target me now r s1 E _ Ep| | | |
    x h1 h2 slot stack space target me now r s1 E _ Ep| | | |x h1 h2 stack space E| |].
  - by eapply pick_shape.
  - by eapply steal_shape.
  - by eapply switch_shape.
  - apply shaped_same; [done|]. by eapply kept_block.
  - by eapply sleep_shape.
  - apply (kept_unblock _ _ _ _ _ K) in E as [K1 Hp]. destruct push; [apply shaped_more; [done|done|exact (Hp eq_refl)]|by apply shaped_same].
  - eapply push_shape; [done|done|done|]. intros n Kn Hn. by apply kept_unblock_push.
  - by eapply create_shape.
  - eapply push_shape; [done|done|done|]. intros n Kn Hn. by apply kept_create_push.
  - by eapply user_shape.
  - by eapply user_inherit_shape.
  - eapply push_shape; [done|done|done|]. intros n Kn Hn.
    pose proof (kept_user_push n slot stack target me now (sc x) Kn Hn) as K1. rewrite Ep in K1. by destruct (r <? 0).
  - by eapply fork_shape.
  - pose proof (shaped_mid x h1 _ h2 S ltac:(done)) as Ht. eapply shaped_swap; [done|done| |exact Ht].
    apply kept_upd_old; [done|cbn in Ht; lia].
  - by eapply fork_inherit_shape.
  - eapply push_shape; [done|done|done|]. intros n Kn Hn.
    pose proof (kept_fork_push n slot stack space target me now (sc x) Kn Hn) as K1. by rewrite Ep in K1.
  - by eapply exit_shape.
  - by eapply kill_shape.
  - by eapply kill_finish_shape.
  - eapply shaped_less; [done|exact E|]. unfold free_task. apply kept_stack_free. by destruct (negb _).
  - apply shaped_same; [done|]. by eapply kept_reap.
  - by apply shaped_same.
Qed.

Lemma init_shape cr3 img tops : shaped (mkSys (tasking_init cr3 img tops) []).
Proof.
  split; [|by intros a Ha%elem_of_nil]. split; [cbn; unfold MAX_TASKS; lia|]. split; [|split].
  - intros i Hi. cbn in *. unfold fset. destruct (Z.eqb_spec i 0); [lia|done].
  - intros c. cbn. unfold fset. destruct (c =? 0); lia.
  - intros c. split; [by vm_compute|]. by intros i Hi%elem_of_nil.
Qed.

Lemma reach_shape strict cr3 img tops x : rtc (sstep strict) (mkSys (tasking_init cr3 img tops) []) x → shaped x.
Proof.
  intros H. apply (rtc_ind_r (λ y, shaped y) (mkSys (tasking_init cr3 img tops) [])) in H; [done|apply init_shape|].
  intros y z _ St S. by eapply sstep_shape.
Qed.
