(* ===== verification/SchedMoves.v ===== *)
(** Runs of the system of [SchedSys] as data: a step is a move that is executed, so that a
    run is checked by evaluation.  With it, a state that is reached from [tasking_init], and
    a run in which a kill arrives between the publication of a task and its push. *)

From stdpp Require Import relations.
From S2P Require Import Prelude RunQueue Sched SchedSys SchedRun.

Implicit Types (s : sched) (x : sys) (h : list hand).

(** The state after [tasking_init]. *)
Definition booted (cr3 : Z) (img : Z → list Z) (tops : Z → Z) : sys := mkSys (tasking_init cr3 img tops) [].

(** ** Moves *)

(** A move begins a function on a processor, or goes on with the [k]-th hand. *)
Inductive move :=
| MPick (c regs now : Z) | MCreate (c stack : Z) | MUser (c stack space : Z) | MExit (c code : Z) | MKill (c pid : Z)
| MOn (k : nat) (g : goal)
with goal := GSteal (v now : Z) | GSwitch (now : Z) | GPush (target now : Z) | GInherit (creator : Z) (ok : bool) | GFinish.

Definition unlockedb x : bool := forallb (λ a, negb (holds_lock a)) (hands x).
Definition cpub (c : Z) : bool := (0 <=? c) && (c <? SMP_MAX_CPUS).
Definition on_queue (i : Z) s : bool := existsb (λ q, bool_decide (i ∈ cpu_runqueues s q)) (seqZ 0 16).

(** The beginning of a function; a kill, unless [strict], also of a ready task that is not
    on a queue. *)
Definition begin (strict : bool) x (m : move) : option sys :=
  let h := hands x in let s := sc x in
  if negb (unlockedb x) then None else
  match m with
  | MPick c regs now =>
      if cpub c && (0 <? regs) && (0 <? task_count s) then
        let '(cur, run, blk, s1) := outgoing c s in let '(next, s2) := runq_pop c now s1 in
        Some (mkSys s2 (HSched c regs cur run blk next :: h)) else None
  | MCreate c stack =>
      if cpub c && (0 <? stack) && bool_decide (stack ∉ stacks s) then
        let '(slot, s1) := create_task_begin c stack PRIO_NORMAL [0] (with_stack stack s) in
        Some (mkSys s1 (if slot <? 0 then h else HNew slot stack None :: h)) else None
  | MUser c stack space =>
      if cpub c && (0 <? stack) && bool_decide (stack ∉ stacks s) && (0 <? space) && negb (space =? kernel_pml4 s) &&
         bool_decide (space ∉ spaces s) then
        let '(slot, s1) := create_user_begin c stack space 0 0 [0] (with_space space (with_stack stack s)) in
        Some (if slot <? 0 then mkSys (destroy_space space s1) h else mkSys s1 (HNew slot stack (Some space) :: h)) else None
  | MExit c code =>
      if cpub c && (0 <=? cpu_current_task s c) && (cpu_current_task s c <? MAX_TASKS) then
        match exit_locked c (cpu_current_task s c) code PROC_EXIT_NORMAL (exit_cleanup (cpu_current_task s c) s) with
        | Some (stack, space, s1) => Some (mkSys s1 (HFree stack space :: h))
        | None => None
        end else None
  | MKill c pid =>
      if cpub c && negb (pid =? cpu_current_task s c) && (negb strict || negb (is_state READY pid s) || on_queue pid s) then
        let '(plan, s1) := proc_kill_begin c pid s in
        Some (mkSys s1 (match plan with KillReady => HKill pid :: h | _ => h end)) else None
  | MOn _ _ => None
  end.

(** Going on with the hand [a] between [h1] and [h2]. *)
Definition go_on x (h1 : list hand) (a : hand) (h2 : list hand) (g : goal) : option sys :=
  let s := sc x in
  match a, g with
  | HSched c regs cur run blk old, GSteal v now =>
      if (old <? 0) && cpub v && negb (v =? c) then
        let '(next, s1) := runq_pop v now s in Some (mkSys s1 (h1 ++ HSched c regs cur run blk next :: h2)) else None
  | HSched c regs cur run blk next, GSwitch now => Some (mkSys (schedule_with c regs cur run blk next now s).2 (h1 ++ h2))
  | HPush tid, GPush target now => if cpub target then Some (mkSys (unblock_push tid target 0 now s) (h1 ++ h2)) else None
  | HNew slot stack None, GPush target now =>
      if cpub target then Some (mkSys (create_task_push slot stack target 0 now s) (h1 ++ h2)) else None
  | HNew slot stack (Some space), GPush target now =>
      if cpub target then
        let '(r, s1) := create_user_push slot stack target 0 now s in
        Some (mkSys (if r <? 0 then destroy_space space s1 else s1) (h1 ++ h2)) else None
  | HNew slot stack (Some space), GInherit creator ok =>
      if negb (unlockedb x) then None else
      let '(r, s1) := create_user_inherit slot stack creator ok s in
      Some (if r <? 0 then mkSys (destroy_space space s1) (h1 ++ h2) else mkSys s1 (hands x))
  | HKill pid, GFinish =>
      if negb (unlockedb x) then None else
      let '(lf, _, s1) := proc_kill_finish pid (kill_cleanup pid s) in
      Some (mkSys s1 (match lf with Some (stack, space) => HFree stack space :: h1 ++ h2 | None => h1 ++ h2 end))
  | HFree stack space, GFinish => Some (mkSys (free_task stack space s) (h1 ++ h2))
  | _, _ => None
  end.

Definition exec (strict : bool) x (m : move) : option sys :=
  match m with
  | MOn k g => match hands x !! k with Some a => go_on x (take k (hands x)) a (drop (S k) (hands x)) g | None => None end
  | _ => begin strict x m
  end.

Definition execs (strict : bool) x (ms : list move) : option sys := foldl (λ o m, o ≫= λ x, exec strict x m) (Some x) ms.

(** ** Soundness *)
Lemma unlockedb_ok x : unlockedb x = true → unlocked x.
Proof. unfold unlockedb, unlocked. rewrite forallb_forall, Forall_forall. intros H a Ha. specialize (H a). apply list_elem_of_In in Ha. by destruct (holds_lock a); [specialize (H Ha)|]. Qed.

Lemma cpub_ok c : cpub c = true → is_cpu c.
Proof. unfold cpub, is_cpu. intros H. lia. Qed.

Lemma on_queue_ok i s : on_queue i s = true → ∃ q, is_cpu q ∧ i ∈ cpu_runqueues s q.
Proof.
  unfold on_queue. intros (q & Hq & Hi)%existsb_exists. exists q. apply list_elem_of_In, elem_of_seqZ in Hq.
  split; [unfold is_cpu, SMP_MAX_CPUS; lia|by apply bool_decide_eq_true in Hi].
Qed.

Lemma begin_ok strict x m y : begin strict x m = Some y → sstep strict x y.
Proof.
  unfold begin. destruct (unlockedb x) eqn:Eu; [|done]. cbn [negb]. apply unlockedb_ok in Eu.
  destruct m as [c regs now|c stack|c stack space|c code|c pid|]; [| | | | |done]; (destruct (cpub c) eqn:Ec; [|done]); apply cpub_ok in Ec; cbn [andb].
  - destruct (Z.ltb_spec 0 regs); [|done]. destruct (Z.ltb_spec 0 (task_count (sc x))); [|done]. cbn [andb].
    destruct (outgoing c (sc x)) as [[[cur run] blk] s1] eqn:Eo. destruct (runq_pop c now s1) as [next s2] eqn:Ep.
    intros E. injection E as <-. by eapply (st_pick strict x c regs false).
  - destruct (Z.ltb_spec 0 stack); [|done]. destruct (bool_decide_reflect (stack ∉ stacks (sc x))); [|done]. cbn [andb].
    destruct (create_task_begin _ _ _ _ _) as [slot s1] eqn:E1. intros E. injection E as <-. by eapply st_create.
  - destruct (Z.ltb_spec 0 stack); [|done]. destruct (bool_decide_reflect (stack ∉ stacks (sc x))); [|done].
    destruct (Z.ltb_spec 0 space); [|done]. destruct (Z.eqb_spec space (kernel_pml4 (sc x))); [done|].
    destruct (bool_decide_reflect (space ∉ spaces (sc x))); [|done]. cbn [andb negb].
    destruct (create_user_begin _ _ _ _ _ _ _) as [slot s1] eqn:E1. intros E. injection E as <-. by eapply st_user.
  - destruct (Z.leb_spec 0 (cpu_current_task (sc x) c)); [|done]. destruct (Z.ltb_spec (cpu_current_task (sc x) c) MAX_TASKS); [|done]. cbn [andb].
    destruct (exit_locked _ _ _ _ _) as [[[stack space] s1]|] eqn:E1; [|done]. intros E. injection E as <-. by eapply st_exit.
  - destruct (Z.eqb_spec pid (cpu_current_task (sc x) c)); [done|]. cbn [negb andb].
    destruct (negb strict || negb (is_state READY pid (sc x)) || on_queue pid (sc x)) eqn:Eq; [|done]. destruct (proc_kill_begin c pid (sc x)) as [plan s1] eqn:E1.
    intros E. injection E as <-. eapply st_kill; [done|done|done|done|]. intros -> ->. apply on_queue_ok.
    unfold proc_kill_begin in E1. destruct (negb (kill_allowed c pid (sc x))); [done|]. destruct (kill_pending _); [done|].
    by destruct (is_state READY pid (sc x)).
Qed.

Lemma go_on_ok strict x h1 a h2 g y : hands x = h1 ++ a :: h2 → go_on x h1 a h2 g = Some y → sstep strict x y.
Proof.
  intros Hh. unfold go_on. destruct a as [t|slot stack [space|]|t st sp f|c regs cur run blk old|pid|stack space]; destruct g as [v now|now|target now|creator ok|]; try done.
  - destruct (cpub target) eqn:Ec; [|done]. intros E. injection E as <-. eapply st_push; [done|by apply cpub_ok].
  - destruct (cpub target) eqn:Ec; [|done]. destruct (create_user_push _ _ _ _ _ _) as [r s1] eqn:E1. intros E. injection E as <-.
    eapply st_user_push; [done|by apply cpub_ok|done].
  - destruct (unlockedb x) eqn:Eu; [|done]. cbn [negb]. destruct (create_user_inherit _ _ _ _ _) as [r s1] eqn:E1. intros E. injection E as <-.
    eapply st_user_inherit; [by apply unlockedb_ok|done|done].
  - destruct (cpub target) eqn:Ec; [|done]. intros E. injection E as <-. eapply st_create_push; [done|by apply cpub_ok].
  - destruct (Z.ltb_spec old 0); [|done]. destruct (cpub v) eqn:Ec; [|done]. destruct (Z.eqb_spec v c); [done|]. cbn [negb andb].
    destruct (runq_pop v now (sc x)) as [next s1] eqn:E1. intros E. injection E as <-. eapply st_steal; [done|done|by apply cpub_ok|done|done].
  - destruct (schedule_with _ _ _ _ _ _ _ _) as [r s1] eqn:E1. intros E. injection E as <-. by eapply st_switch.
  - destruct (unlockedb x) eqn:Eu; [|done]. cbn [negb]. destruct (proc_kill_finish _ _) as [[lf w] s1] eqn:E1. intros E. injection E as <-.
    eapply st_kill_finish; [by apply unlockedb_ok|done|done].
  - intros E. injection E as <-. by eapply st_free.
Qed.

Lemma exec_ok strict x m y : exec strict x m = Some y → sstep strict x y.
Proof.
  intros Em. destruct m; try (by eapply begin_ok).
  unfold exec in Em. destruct (hands x !! k) as [a|] eqn:Ek; [|done]. eapply go_on_ok; [|done]. symmetry. by apply take_drop_middle.
Qed.

Lemma execs_ok strict ms x y : execs strict x ms = Some y → rtc (sstep strict) x y.
Proof.
  unfold execs. revert x. induction ms as [|m ms IH]; intros x; cbn [foldl]; [intros E; by injection E as ->|].
  destruct (exec strict x m) as [z|] eqn:Em; cbn [mbind option_bind].
  - rewrite Em. cbn. intros H. eapply rtc_l; [|by apply IH]. by apply (exec_ok strict x m).
  - rewrite Em. cbn. intros H. exfalso. clear -H. by induction ms.
Qed.

(** ** Runs *)
Definition demo_start : sys := booted 4096 (λ _, []) (λ c, 65536 * (c + 1)).

(** Processor 0 creates a kernel task, 1, that processor 1 runs, and a program, 2, that it
    has not pushed yet. *)
Definition demo_moves : list move :=
  [MCreate 0 0x100000; MOn 0 (GPush 1 10); MPick 1 0x900000 20; MOn 0 (GSwitch 20); MUser 0 0x200000 0x5000].

(** A program is published and not pushed yet, so that it is on no queue. *)
Definition unpushed (i : Z) x : Prop :=
  state (tasks (sc x) i) = READY ∧ (∃ b r, HNew i b (Some r) ∈ hands x) ∧ ∀ q, is_cpu q → i ∉ cpu_runqueues (sc x) q.

(** The state when a kill of a ready program on processor [c] has purged the queues. *)
Definition purged (c i : Z) x : sys := mkSys (proc_kill_begin c i (sc x)).2 (HKill i :: hands x).

(** Task 1 kills program 2, which purges the queues, where 2 is not yet.  Then processor 0
    pushes 2; the kill finishes and frees.  Processor 0 creates another program in slot 2;
    processor 2 finds the old entry and runs it. *)
Definition race_moves : list move :=
  [MOn 1 (GPush 0 30); MOn 0 GFinish; MOn 0 GFinish; MUser 0 0x300000 0x6000;
   MPick 2 0xA00000 40; MOn 0 (GSteal 0 40); MOn 0 (GSwitch 40)].

(** Processor [c] runs task [i], whose creation is not complete, on the stack at [b] in the
    address space [r], both allocated. *)
Definition runs_unfinished (c i b r : Z) x : Prop :=
  cpu_current_task (sc x) c = i ∧ state (tasks (sc x) i) = RUNNING ∧ stack_base (tasks (sc x) i) = b ∧
  pml4_phys (tasks (sc x) i) = r ∧ cpu_cr3 (sc x) c = r ∧ r ≠ kernel_pml4 (sc x) ∧ b ∈ stacks (sc x) ∧ r ∈ spaces (sc x) ∧
  HNew i b (Some r) ∈ hands x.

(** Processor [c] runs task [i], which is dead, and [b] and [r] are free. *)
Definition runs_freed (c i b r : Z) x : Prop :=
  cpu_current_task (sc x) c = i ∧ state (tasks (sc x) i) = DEAD ∧ cpu_cr3 (sc x) c = r ∧ (r ∉ spaces (sc x)) ∧ b ∉ stacks (sc x).

Definition unfinishedb (c i b r : Z) x : bool :=
  (cpu_current_task (sc x) c =? i) && is_state RUNNING i (sc x) && (stack_base (tasks (sc x) i) =? b) &&
  (pml4_phys (tasks (sc x) i) =? r) && (cpu_cr3 (sc x) c =? r) && negb (r =? kernel_pml4 (sc x)) &&
  bool_decide (b ∈ stacks (sc x)) && bool_decide (r ∈ spaces (sc x)).

Lemma unfinishedb_ok c i b r x : unfinishedb c i b r x = true → hands x = [HNew i b (Some r)] → runs_unfinished c i b r x.
Proof.
  unfold unfinishedb. intros H Hh. repeat (apply andb_prop in H as [H ?]).
  repeat match goal with
  | Hx : is_state _ _ _ = true |- _ => apply is_state_eq in Hx
  | Hx : (_ =? _) = true |- _ => apply Z.eqb_eq in Hx
  | Hx : bool_decide _ = true |- _ => apply bool_decide_eq_true in Hx
  | Hx : negb _ = true |- _ => apply negb_true_iff, Z.eqb_neq in Hx
  end.
  unfold runs_unfinished. rewrite Hh. split_and!; try done. set_solver.
Qed.

(** The state after [demo_moves]. *)
Definition demo_state : sys := default demo_start (execs true demo_start demo_moves).

Lemma demo_runs : execs true demo_start demo_moves = Some demo_state.
Proof.
  unfold demo_state. assert (H : is_Some (execs true demo_start demo_moves)); [|by destruct H as [x ->]].
  apply (bool_decide_unpack _). reflexivity.
Qed.

Lemma demo_reached : rtc (sstep true) demo_start demo_state.
Proof. apply (execs_ok true demo_moves), demo_runs. Qed.

(** ** The race *)
Lemma exec_any x m y : exec true x m = Some y → exec false x m = Some y.
Proof.
  destruct m; try done. unfold exec, begin. cbn [negb orb]. destruct (negb (unlockedb x)); [done|].
  destruct (cpub c && negb _); [|done]. cbn [andb]. by destruct (_ || _).
Qed.

Lemma execs_any ms x y : execs true x ms = Some y → execs false x ms = Some y.
Proof.
  unfold execs. revert x. induction ms as [|m ms IH]; intros x; [done|]. cbn [foldl mbind option_bind].
  destruct (exec true x m) as [z|] eqn:E.
  - rewrite (exec_any _ _ _ E). apply IH.
  - intros H. exfalso. clear -H. by induction ms.
Qed.

Lemma demo_reached_any : rtc (sstep false) demo_start demo_state.
Proof. apply (execs_ok false demo_moves), execs_any, demo_runs. Qed.

(** Before the kill. *)
Lemma demo_unpushed : unpushed 2 demo_state.
Proof.
  split; [reflexivity|]. split; [exists 0x200000, 0x5000; assert (E : hands demo_state = [HNew 2 0x200000 (Some 0x5000)]) by reflexivity;
    rewrite E; set_solver|].
  assert (H : on_queue 2 (sc demo_state) = false) by reflexivity. intros q Hq Hin.
  unfold on_queue in H. rewrite <- not_true_iff_false, existsb_exists in H. destruct H. exists q.
  split; [|by apply bool_decide_eq_true]. apply list_elem_of_In, elem_of_seqZ. unfold is_cpu, SMP_MAX_CPUS in Hq. lia.
Qed.

Lemma demo_killed : (proc_kill_begin 1 2 (sc demo_state)).1 = KillReady ∧ sstep false demo_state (purged 1 2 demo_state).
Proof.
  assert (E : (proc_kill_begin 1 2 (sc demo_state)).1 = KillReady) by reflexivity. split; [done|]. unfold purged.
  destruct (proc_kill_begin 1 2 (sc demo_state)) as [plan s1] eqn:Ek. cbn [fst snd] in *. subst plan.
  apply (st_kill false demo_state 1 2 KillReady s1); [apply unlockedb_ok; reflexivity|by apply cpub_ok| |exact Ek|intros [=]].
  assert (Hc : cpu_current_task (sc demo_state) 1 = 1) by reflexivity. rewrite Hc. intros [=].
Qed.

(** The processor that runs the unfinished program. *)
Lemma race_runs : ∃ x, rtc (sstep false) (purged 1 2 demo_state) x ∧ hands x = [HNew 2 0x300000 (Some 0x6000)] ∧
  runs_unfinished 2 2 0x300000 0x6000 x.
Proof.
  assert (H : (execs false (purged 1 2 demo_state) race_moves ≫= λ x, Some (unfinishedb 2 2 0x300000 0x6000 x, hands x)) =
    Some (true, [HNew 2 0x300000 (Some 0x6000)])) by reflexivity.
  destruct (execs false (purged 1 2 demo_state) race_moves) as [x|] eqn:E; [|done]. cbn [mbind option_bind] in H.
  apply execs_ok in E. injection H as Hb Hh. exists x. split; [done|]. split; [done|]. by apply unfinishedb_ok.
Qed.

(** When the creation of a program fails while a processor runs it, what it runs on is
    freed. *)
Lemma failed_creation strict x h1 h2 c i b r creator :
  unlocked x → hands x = h1 ++ HNew i b (Some r) :: h2 → b ≠ 0 → cpu_current_task (sc x) c = i → cpu_cr3 (sc x) c = r →
  let '(rc, s1) := create_user_inherit i b creator false (sc x) in
  let y := mkSys (destroy_space r s1) (h1 ++ h2) in rc = -1 ∧ sstep strict x y ∧ runs_freed c i b r y.
Proof.
  intros Hu Hh Hb Hc Hr. unfold create_user_inherit. set (s1 := task_stack_free b _). split; [done|]. split.
  - exact (st_user_inherit strict x h1 h2 i b r creator false (-1) s1 Hu Hh eq_refl).
  - unfold runs_freed, s1, task_stack_free. destruct (Z.eqb_spec b 0); [done|]. split; [exact Hc|].
    split; [cbn; unfold fset; by rewrite Z.eqb_refl|]. split; [exact Hr|]. cbn. split; set_solver.
Qed.
