(* ===== verification/SchedSafe.v ===== *)
(** What the invariant of [SchedSys] gives in every state the scheduler reaches: which task
    is where, which memory it has, and what a context switch does; and what goes wrong
    when a kill arrives between the publication of a task and its first push. *)

From stdpp Require Import relations.
From S2P Require Import Prelude RunQueue Sched SchedSys SchedRun SchedLife SchedShape SchedMoves.

Implicit Types (s : sched) (x : sys) (h : list hand).

(** ** Which task is where *)
Lemma occ_one x q i : inv x → is_cpu q → i ∈ cpu_runqueues (sc x) q →
  occ i (cpu_runqueues (sc x) q) = 1%nat ∧ queued (sc x) i = 1%nat ∧ 0 ≤ i < task_count (sc x) ∧ state (tasks (sc x) i) = READY ∧
  cpus (sc x) i = 0%nat.
Proof.
  intros I Hq Hi. destruct (queue_elem x q i I Hq Hi) as [H0 H1]. apply occ_elem in Hi. pose proof (occ_queued (sc x) q i Hq) as Hle.
  pose proof (iv_task _ I i H0) as Hp. assert (Htk : (0 < tok x i)%nat) by (unfold tok; lia).
  destruct (tok_task x i I H0 Htk) as [_ Hr]. rewrite Hr in Hp. simpl in Hp. unfold tok in *. split_and!; done || lia.
Qed.

Lemma queue_once x q q' i :
  inv x → is_cpu q → is_cpu q' → i ∈ cpu_runqueues (sc x) q → i ∈ cpu_runqueues (sc x) q' → q' = q.
Proof.
  intros I Hq Hq' Hi Hi'. destruct (decide (q' = q)) as [|Hne]; [done|]. destruct (occ_one x q i I Hq Hi) as (H1 & H2 & _).
  destruct (occ_one x q' i I Hq' Hi') as (H3 & _).
  pose proof (total_two (λ c, occ i (cpu_runqueues (sc x) c)) q' q Hq' Hq Hne) as H. cbv beta in H. unfold queued in H2. lia.
Qed.

Lemma running_on x i : inv x → 0 ≤ i → state (tasks (sc x) i) = RUNNING → ∃ c, is_cpu c ∧ cpu_current_task (sc x) c = i.
Proof.
  intros I Hi Hr. pose proof (iv_task _ I i Hi) as Hp. rewrite Hr in Hp. simpl in Hp.
  destruct (total_pos (λ c, same (cpu_current_task (sc x) c) i)) as (c & Hc & Hs); [unfold cpus in Hp; lia|].
  exists c. split; [done|]. unfold same in Hs. destruct (Z.eqb_spec (cpu_current_task (sc x) c) i); [done|lia].
Qed.

Lemma ready_somewhere x i :
  inv x → 0 ≤ i → state (tasks (sc x) i) = READY →
  (∃ q, is_cpu q ∧ i ∈ cpu_runqueues (sc x) q) ∨ ∃ a, a ∈ hands x ∧ hand_tok i a = 1%nat.
Proof.
  intros I Hi Hr. pose proof (iv_task _ I i Hi) as Hp. rewrite Hr in Hp. simpl in Hp. unfold tok in Hp.
  destruct (decide (0 < queued (sc x) i)%nat) as [Hq|Hq].
  - left. destruct (total_pos _ Hq) as (q & Hc & Ho). exists q. split; [done|]. by apply occ_elem.
  - right. assert (Hh : (0 < handed (hands x) i)%nat) by lia. clear -Hh. unfold handed in Hh.
    induction (hands x) as [|a h IH]; cbn [sum_list_with] in Hh; [lia|].
    destruct (hand_tok i a) as [|[|n]] eqn:E.
    + destruct IH as (b & Hb & ?); [lia|]. exists b. split; [set_solver|done].
    + exists a. split; [set_solver|done].
    + exfalso. destruct a; cbn in E; try done; unfold same in E; case_match; done.
Qed.

(** C1: in every state that is reached, with any number of processors interleaving their
    steps, as long as a kill finds its ready victim on a run queue: the task a processor
    runs is a task of the table that is running or about to park, no other processor runs
    it and no queue holds it; a running task is on a processor; a queue holds ready tasks of
    the table, none of them on a processor, none of them twice and none of them in another
    queue; and a ready task is never lost, it is in a queue or some function is about to
    push it, switch to it or end it. *)
Theorem sched_safe cr3 img tops x :
  cr3 ≠ PHYS_NULL → rtc (sstep true) (booted cr3 img tops) x →
  (∀ c, is_cpu c → 0 ≤ cpu_current_task (sc x) c →
     cpu_current_task (sc x) c < task_count (sc x) ∧
     (state (tasks (sc x) (cpu_current_task (sc x) c)) ∈ [RUNNING; BLOCKED; SLEEPING]) ∧
     (∀ c', is_cpu c' → cpu_current_task (sc x) c' = cpu_current_task (sc x) c → c' = c) ∧
     (∀ q, is_cpu q → cpu_current_task (sc x) c ∉ cpu_runqueues (sc x) q)) ∧
  (∀ i, 0 ≤ i → state (tasks (sc x) i) = RUNNING → ∃ c, is_cpu c ∧ cpu_current_task (sc x) c = i) ∧
  (∀ q i, is_cpu q → i ∈ cpu_runqueues (sc x) q →
     0 ≤ i < task_count (sc x) ∧ state (tasks (sc x) i) = READY ∧ NoDup (cpu_runqueues (sc x) q) ∧
     ∀ q', is_cpu q' → i ∈ cpu_runqueues (sc x) q' → q' = q) ∧
  (∀ i, 0 ≤ i → state (tasks (sc x) i) = READY →
     (∃ q, is_cpu q ∧ i ∈ cpu_runqueues (sc x) q) ∨ ∃ a, a ∈ hands x ∧ hand_tok i a = 1%nat).
Proof.
  intros Hcr Hr. pose proof (reach_inv cr3 img tops x Hcr Hr) as I. clear Hr. split; [|split; [|split]].
  - intros c Hc H0. destruct (cur_task x c I Hc H0) as (Hlt & Ht & Hcp & Hal & Hst). split; [done|]. split.
    + unfold asleep in Hst. destruct (state (tasks (sc x) _)); try done; set_solver.
    + split; [intros c' Hc'; by apply cur_once|]. intros q Hq Hin. apply (occ_one x q) in Hin as (_ & _ & _ & _ & H); [lia|done..].
  - intros i. by apply running_on.
  - intros q i Hq Hi. destruct (occ_one x q i I Hq Hi) as (_ & _ & H1 & H2 & _). split; [done|]. split; [done|]. split.
    + apply occ_nodup. intros j. destruct (decide (j ∈ cpu_runqueues (sc x) q)) as [Hj|Hj].
      * destruct (occ_one x q j I Hq Hj) as (-> & _). done.
      * destruct (occ j (cpu_runqueues (sc x) q)) eqn:E; [lia|]. destruct Hj. apply occ_elem. lia.
    + intros q' Hq' Hi'. by apply (queue_once x q q' i).
  - intros i. by apply ready_somewhere.
Qed.

Lemma sched_safe_witness :
  cpu_current_task (sc demo_state) 1 = 1 ∧ state (tasks (sc demo_state) 2) = READY ∧
  (∀ q, is_cpu q → cpu_current_task (sc demo_state) 1 ∉ cpu_runqueues (sc demo_state) q) ∧
  ((∃ q, is_cpu q ∧ 2 ∈ cpu_runqueues (sc demo_state) q) ∨ ∃ a, a ∈ hands demo_state ∧ hand_tok 2 a = 1%nat).
Proof.
  split; [reflexivity|]. split; [reflexivity|].
  destruct (sched_safe 4096 (λ _, []) (λ c, 65536 * (c + 1)) demo_state ltac:(unfold PHYS_NULL; lia) demo_reached) as (H1 & _ & _ & H4).
  split; [|apply H4; [done|reflexivity]]. apply H1; [done|]. assert (E : cpu_current_task (sc demo_state) 1 = 1) by reflexivity. by rewrite E.
Defined.

(** C35: in every state that is reached, whenever kills arrive ([strict] or not), the state
    has the shape its arrays need: the number of tasks is between 1 and [MAX_TASKS], a
    processor runs a task of the table or none, a queue has at most [RUNQ_CAPACITY] entries,
    every entry and every task some function is about to push, switch to or end is a task of
    the table, and the slots past the last task are dead.  As long as a kill finds its ready
    victim on a run queue, the tasks that are about to be pushed, switched to or ended are
    also ready. *)
Theorem sched_indices strict cr3 img tops x :
  rtc (sstep strict) (booted cr3 img tops) x →
  1 ≤ task_count (sc x) ≤ MAX_TASKS ∧ (∀ i, task_count (sc x) ≤ i → state (tasks (sc x) i) = DEAD) ∧
  (∀ c, is_cpu c → -1 ≤ cpu_current_task (sc x) c < task_count (sc x) ∧ zlength (cpu_runqueues (sc x) c) ≤ RUNQ_CAPACITY ∧
     ∀ i, i ∈ cpu_runqueues (sc x) c → 0 ≤ i < task_count (sc x)) ∧
  (∀ a, a ∈ hands x → hand_shape (task_count (sc x)) a) ∧
  (strict = true → cr3 ≠ PHYS_NULL →
   ∀ i a, 0 ≤ i → a ∈ hands x → hand_tok i a = 1%nat → i < task_count (sc x) ∧ state (tasks (sc x) i) = READY).
Proof.
  intros Hr. destruct (reach_shape strict cr3 img tops x Hr) as [(H1 & H2 & H3 & H4) Hh].
  split; [done|]. split; [done|]. split; [|split; [done|]].
  - intros c _. destruct (H4 c). auto.
  - intros -> Hcr i a Hi Ha Ht. apply tok_task; [by apply (reach_inv cr3 img tops)|done|].
    pose proof (sum_list_with_in a (hand_tok i) _ Ha) as H. unfold tok, handed. lia.
Qed.

Lemma sched_indices_witness :
  task_count (sc demo_state) = 3 ∧ 1 ≤ task_count (sc demo_state) ≤ MAX_TASKS ∧ zlength (cpu_runqueues (sc demo_state) 1) ≤ RUNQ_CAPACITY.
Proof.
  split; [reflexivity|].
  destruct (sched_indices true 4096 (λ _, []) (λ c, 65536 * (c + 1)) demo_state demo_reached) as (H1 & _ & H3 & _).
  split; [exact H1|]. apply H3. unfold is_cpu, SMP_MAX_CPUS. lia.
Defined.

(** ** Memory *)
Lemma alive_slot x i : inv x → 0 ≤ i → alive (tasks (sc x) i) = true → is_cpu i.
Proof.
  intros I Hi Ha. destruct (iv_count _ I) as [Hm Hd]. destruct (Z.lt_ge_cases i (task_count (sc x))) as [|Hge].
  - unfold is_cpu, SMP_MAX_CPUS, MAX_TASKS in *. lia.
  - unfold alive in Ha. by rewrite (Hd i Hge) in Ha.
Qed.

Lemma stack_owned x i : is_cpu i → (1 ≤ stack_owners x (stack_base (tasks (sc x) i)))%nat.
Proof.
  intros Hi. unfold stack_owners. pose proof (total_ge (λ j, same (stack_base (tasks (sc x) j)) (stack_base (tasks (sc x) i))) i Hi) as H.
  cbv beta in H. rewrite same_pos in H by done. lia.
Qed.

Lemma space_owned x i : is_cpu i → alive (tasks (sc x) i) = true → (1 ≤ space_owners x (pml4_phys (tasks (sc x) i)))%nat.
Proof.
  intros Hi Ha. unfold space_owners. pose proof (total_ge (λ j, task_space (tasks (sc x) j) (pml4_phys (tasks (sc x) i))) i Hi) as H.
  cbv beta in H. unfold task_space in H at 1. rewrite Ha, same_pos in H by done. lia.
Qed.

Lemma stack_distinct x i j : inv x → is_cpu i → is_cpu j → i ≠ j → stack_base (tasks (sc x) i) ≠ 0 →
  stack_base (tasks (sc x) j) ≠ stack_base (tasks (sc x) i).
Proof.
  intros I Hi Hj Hne H0 He. destruct (iv_stack _ I _ H0) as [H1 _]. unfold stack_owners in H1.
  pose proof (total_two (λ k, same (stack_base (tasks (sc x) k)) (stack_base (tasks (sc x) i))) i j Hi Hj Hne) as H.
  cbv beta in H. rewrite !same_pos in H by done. lia.
Qed.

Lemma space_distinct x i j : inv x → is_cpu i → is_cpu j → i ≠ j → alive (tasks (sc x) i) = true → alive (tasks (sc x) j) = true →
  pml4_phys (tasks (sc x) i) ≠ PHYS_NULL → pml4_phys (tasks (sc x) j) ≠ pml4_phys (tasks (sc x) i).
Proof.
  intros I Hi Hj Hne Ha Hb H0 He. destruct (iv_space _ I _ H0) as [H1 _]. unfold space_owners in H1.
  pose proof (total_two (λ k, task_space (tasks (sc x) k) (pml4_phys (tasks (sc x) i))) i j Hi Hj Hne) as H.
  cbv beta in H. unfold task_space in H at 1 2. rewrite Ha, Hb, !same_pos in H by done. lia.
Qed.

(** What is about to be freed belongs to nobody. *)
Lemma free_unowned x st sp : inv x → HFree st sp ∈ hands x →
  (st ≠ 0 → st ∈ stacks (sc x) ∧ ∀ i, is_cpu i → stack_base (tasks (sc x) i) ≠ st) ∧
  (sp ≠ PHYS_NULL → sp ∈ spaces (sc x) ∧ ∀ i, is_cpu i → alive (tasks (sc x) i) = true → pml4_phys (tasks (sc x) i) ≠ sp).
Proof.
  intros I Hin. split; intros H0.
  - destruct (iv_stack _ I st H0) as [H1 H2]. pose proof (sum_list_with_in _ (hand_stack st) _ Hin) as Hs. cbn [hand_stack] in Hs.
    rewrite same_pos in Hs by done. unfold stack_owners in H1, H2. split; [apply H2; lia|]. intros i Hi He.
    pose proof (total_ge (λ j, same (stack_base (tasks (sc x) j)) st) i Hi) as H. cbv beta in H. rewrite same_pos in H by done. lia.
  - destruct (iv_space _ I sp H0) as [H1 H2]. pose proof (sum_list_with_in _ (hand_space sp) _ Hin) as Hs. cbn [hand_space] in Hs.
    rewrite same_pos in Hs by done. unfold space_owners in H1, H2. split; [apply H2; lia|]. intros i Hi Ha He.
    pose proof (total_ge (λ j, task_space (tasks (sc x) j) sp) i Hi) as H. cbv beta in H. unfold task_space in H at 1.
    rewrite Ha, same_pos in H by done. lia.
Qed.

Lemma cr3_owned x c : inv x → is_cpu c → cpu_cr3 (sc x) c ≠ kernel_pml4 (sc x) →
  ∃ i, is_cpu i ∧ i = cpu_current_task (sc x) c ∧ alive (tasks (sc x) i) = true ∧ pml4_phys (tasks (sc x) i) = cpu_cr3 (sc x) c ∧
    cpu_cr3 (sc x) c ≠ PHYS_NULL.
Proof.
  intros I Hc. rewrite (iv_cr3 _ I c Hc). unfold root_of. destruct (Z.ltb_spec (cpu_current_task (sc x) c) 0); [done|]. cbn [orb].
  destruct (Z.eqb_spec (pml4_phys (tasks (sc x) (cpu_current_task (sc x) c))) PHYS_NULL); [done|]. intros _.
  destruct (cur_task x c I Hc ltac:(lia)) as (_ & _ & _ & Ha & _). exists (cpu_current_task (sc x) c).
  split; [by apply (alive_slot x)|]. done.
Qed.

(** C4: in every state that is reached, as long as a kill finds its ready victim on a run
    queue: a live task other than the first has a stack that is allocated, and no two
    tasks share one; the address space of a live program is allocated, is not that of the
    kernel and belongs to that program alone; a processor has the address space of its task
    loaded, or that of the kernel; and a stack or an address space that an exit or a kill is
    about to free is allocated, no live task has it and no processor has it loaded.  So
    nothing is used after it is freed or freed twice. *)
Theorem sched_memory cr3 img tops x :
  cr3 ≠ PHYS_NULL → rtc (sstep true) (booted cr3 img tops) x →
  (∀ i, 0 < i → alive (tasks (sc x) i) = true →
     stack_base (tasks (sc x) i) ∈ stacks (sc x) ∧
     ∀ j, 0 < j → j ≠ i → alive (tasks (sc x) j) = true → stack_base (tasks (sc x) j) ≠ stack_base (tasks (sc x) i)) ∧
  (∀ i, 0 ≤ i → alive (tasks (sc x) i) = true → pml4_phys (tasks (sc x) i) ≠ PHYS_NULL →
     pml4_phys (tasks (sc x) i) ∈ spaces (sc x) ∧ pml4_phys (tasks (sc x) i) ≠ kernel_pml4 (sc x) ∧
     ∀ j, 0 ≤ j → j ≠ i → alive (tasks (sc x) j) = true → pml4_phys (tasks (sc x) j) ≠ pml4_phys (tasks (sc x) i)) ∧
  (∀ c, is_cpu c → cpu_cr3 (sc x) c = root_of (sc x) (cpu_current_task (sc x) c) ∧
     (cpu_cr3 (sc x) c = kernel_pml4 (sc x) ∨ cpu_cr3 (sc x) c ∈ spaces (sc x))) ∧
  (∀ st sp, HFree st sp ∈ hands x →
     (st ≠ 0 → st ∈ stacks (sc x) ∧ ∀ i, 0 ≤ i → alive (tasks (sc x) i) = true → stack_base (tasks (sc x) i) ≠ st) ∧
     (sp ≠ PHYS_NULL → sp ∈ spaces (sc x) ∧ (∀ i, 0 ≤ i → alive (tasks (sc x) i) = true → pml4_phys (tasks (sc x) i) ≠ sp) ∧
        ∀ c, is_cpu c → cpu_cr3 (sc x) c ≠ sp)).
Proof.
  intros Hcr Hr. pose proof (reach_inv cr3 img tops x Hcr Hr) as I. clear Hr. split; [|split; [|split]].
  - intros i Hi Ha. assert (Hc : is_cpu i) by (apply (alive_slot x); done || lia). pose proof (iv_alive _ I i Hi Ha) as Hp. split.
    + apply (iv_stack _ I); [lia|]. pose proof (stack_owned x i Hc). lia.
    + intros j Hj Hne Hb. apply stack_distinct; try done; [apply (alive_slot x); done || lia|lia].
  - intros i Hi Ha Hp. assert (Hc : is_cpu i) by (by apply (alive_slot x)). pose proof (space_owned x i Hc Ha) as Ho.
    destruct (iv_space _ I _ Hp) as [_ H]. destruct H as [H1 H2]; [lia|]. split; [done|]. split; [done|].
    intros j Hj Hne Hb. apply space_distinct; try done. by apply (alive_slot x).
  - intros c Hc. split; [by apply (iv_cr3 _ I)|]. destruct (decide (cpu_cr3 (sc x) c = kernel_pml4 (sc x))) as [|Hne]; [by left|right].
    destruct (cr3_owned x c I Hc Hne) as (i & Hi & _ & Ha & He & H0). rewrite <- He in *. apply (iv_space _ I); [done|].
    pose proof (space_owned x i Hi Ha). lia.
  - intros st sp Hin. destruct (free_unowned x st sp I Hin) as [F1 F2]. split; intros H0.
    + destruct (F1 H0) as [H1 H2]. split; [done|]. intros i Hi Ha. by apply H2, (alive_slot x).
    + destruct (F2 H0) as [H1 H2]. split; [done|]. split; [intros i Hi Ha; by apply H2; [apply (alive_slot x)|]|].
      intros c Hc He. destruct (decide (cpu_cr3 (sc x) c = kernel_pml4 (sc x))) as [Hk|Hk].
      * apply (iv_kernel _ I). by rewrite <- Hk, He.
      * destruct (cr3_owned x c I Hc Hk) as (i & Hi & _ & Ha & Hpi & _). apply (H2 i Hi Ha). congruence.
Qed.

Lemma sched_memory_witness :
  stack_base (tasks (sc demo_state) 2) = 0x200000 ∧ (0x200000 ∈ stacks (sc demo_state)) ∧
  cpu_cr3 (sc demo_state) 1 = root_of (sc demo_state) (cpu_current_task (sc demo_state) 1).
Proof.
  assert (E : stack_base (tasks (sc demo_state) 2) = 0x200000) by reflexivity. split; [exact E|].
  destruct (sched_memory 4096 (λ _, []) (λ c, 65536 * (c + 1)) demo_state ltac:(unfold PHYS_NULL; lia) demo_reached) as (H1 & _ & H3 & _).
  split; [|apply H3; unfold is_cpu, SMP_MAX_CPUS; lia]. rewrite <- E. apply H1; [lia|reflexivity].
Defined.

(** ** Context switches *)

(** A switch to [next], from a state in which the outgoing task is saved. *)
Lemma switch_to_result c cur next s :
  is_cpu c → 0 ≤ next → kernel_pml4 s ≠ PHYS_NULL →
  (switch_to c cur next s).1 = rsp (tasks s next) ∧ cpu_current_task (switch_to c cur next s).2 c = next ∧
  state (tasks (switch_to c cur next s).2 next) = RUNNING ∧
  cpu_runqueues (switch_to c cur next s).2 = cpu_runqueues s ∧
  ∀ j, j ≠ next → core_eq (tasks s j) (tasks (switch_to c cur next s).2 j).
Proof.
  intros Hc Hn Hk. destruct (switch_core c cur next s s Hc Hn Hk (or_introl eq_refl)) as (C & Hq & Hr).
  split; [done|]. split; [rewrite (co_cur _ _ C c Hc); cbn; unfold fset; by rewrite Z.eqb_refl|].
  split; [destruct (co_task _ _ C next) as (-> & _); unfold take_cpu; cbn; unfold fset; by rewrite Z.eqb_refl|].
  split; [by rewrite Hq|]. intros j Hj. eapply core_trans; [|apply (co_task _ _ C)]. unfold take_cpu. by apply upd_other.
Qed.

Lemma switch_result x h1 h2 c regs cur run blk next now r s1 :
  inv x → hands x = h1 ++ HSched c regs cur run blk next :: h2 → schedule_with c regs cur run blk next now (sc x) = (r, s1) →
  (next < 0 ∧ r = regs ∧ cpu_current_task s1 = cpu_current_task (sc x)) ∨
  (0 ≤ next ∧ next ≠ cur ∧ r = rsp (tasks (sc x) next) ∧ 0 < r ∧ cpu_current_task s1 c = next ∧ state (tasks s1 next) = RUNNING ∧
   (run = true → state (tasks s1 cur) = READY ∧ rsp (tasks s1 cur) = regs ∧ cur ∈ cpu_runqueues s1 c) ∧
   (blk = true → state (tasks s1 cur) = state (tasks (sc x) cur) ∧ rsp (tasks s1 cur) = regs)).
Proof.
  intros I Hh. pose proof (iv_hand _ I (HSched c regs cur run blk next) ltac:(rewrite Hh; set_solver)) as (Hc & Hregs & Hcur & Hst).
  pose proof (proj1 (iv_kernel _ I)) as Hk. unfold schedule_with. destruct (Z.ltb_spec next 0) as [Hn|Hn].
  { intros E. injection E as <- <-. left. split; [done|]. split; [done|]. by destruct blk. }
  destruct (next_ready x h1 h2 c regs cur run blk next I Hh Hn) as (Hlt & Hrd & Hrsp & _ & Hcp & _).
  pose proof (cur_not x next c I Hc Hn Hcp) as Hne. rewrite <- Hcur in Hne.
  destruct (Z.leb_spec (task_count (sc x)) next) as [|_]; [lia|]. rewrite (proj2 (is_state_eq READY next (sc x)) Hrd). cbn [orb negb].
  destruct (Z.eqb_spec (rsp (tasks (sc x) next)) 0) as [|_]; [lia|]. intros E. right. split; [done|]. split; [done|].
  destruct Hst as [(-> & -> & ->)|(H0 & Hrun & Hblk & Hor)].
  { destruct (switch_to_result c (-1) next (sc x) Hc Hn Hk) as (R1 & R2 & R3 & _).
    destruct (switch_to c (-1) next (sc x)) as [r' s']. cbn [fst snd] in *. injection E as <- <-. rewrite R1. by split_and!. }
  destruct run.
  - assert (blk = false) as -> by (rewrite Hblk; symmetry in Hrun; apply is_state_eq in Hrun; unfold asleep; by rewrite Hrun).
    revert E. set (s2 := upd_task cur _ (sc x)). destruct (cur_task x c I Hc ltac:(lia)) as (Hlt' & Ht & _). rewrite <- Hcur in Hlt', Ht.
    unfold runq_push. destruct (Z.leb_spec RUNQ_CAPACITY (zlength (cpu_runqueues s2 c))) as [Hfull|_].
    { pose proof (push_room x c cur I Hc ltac:(pose proof (iv_count _ I); lia) ltac:(unfold tok in Ht; lia)).
      change (cpu_runqueues s2 c) with (cpu_runqueues (sc x) c) in Hfull. lia. }
    cbn [Z.eqb negb]. set (s3 := set_runq c _ _). destruct (switch_to_result c cur next s3 Hc Hn Hk) as (R1 & R2 & R3 & R4 & R5).
    destruct (switch_to c cur next s3) as [r' s']. cbn [fst snd] in *. intros E. injection E as <- <-.
    assert (Hcs : state (tasks s3 cur) = READY ∧ rsp (tasks s3 cur) = regs).
    { unfold s3, s2. cbn [tasks set_runq]. rewrite !tasks_upd, Z.eqb_refl. done. }
    assert (Hnx : rsp (tasks s3 next) = rsp (tasks (sc x) next)).
    { unfold s3, s2. cbn [tasks set_runq]. rewrite !tasks_upd. by destruct (Z.eqb_spec next cur). }
    destruct (R5 cur ltac:(done)) as (-> & -> & _). rewrite R1, R4, Hnx. split_and!; try done. intros _. split; [apply Hcs|]. split; [apply Hcs|].
    unfold s3. cbn. unfold fset. rewrite Z.eqb_refl. set_solver.
  - cbn [orb] in Hor. subst blk. rewrite Hor in *. revert E. set (s2 := upd_task cur (set_rsp regs) (sc x)).
    destruct (switch_to_result c cur next s2 Hc Hn Hk) as (R1 & R2 & R3 & R4 & R5).
    destruct (switch_to c cur next s2) as [r' s']. cbn [fst snd] in *. intros E. injection E as <- <-.
    assert (Hcs : state (tasks s2 cur) = state (tasks (sc x) cur) ∧ rsp (tasks s2 cur) = regs).
    { unfold s2. rewrite tasks_upd, Z.eqb_refl. done. }
    assert (Hnx : rsp (tasks s2 next) = rsp (tasks (sc x) next)) by (unfold s2; rewrite tasks_upd; by destruct (Z.eqb_spec next cur)).
    destruct (R5 cur ltac:(done)) as (-> & -> & _). rewrite R1, Hnx. by split_and!.
Qed.

Lemma outgoing_tasks c s cur run blk s1 : outgoing c s = (cur, run, blk, s1) → tasks s1 = tasks s.
Proof. unfold outgoing. destruct (_ && _); intros E; by injection E as <- <- <- <-. Qed.

Lemma pop_tasks c now s n s1 : runq_pop c now s = (n, s1) → tasks s1 = tasks s.
Proof. unfold runq_pop. destruct (_ =? 0); [intros E; by injection E as _ <-|]. destruct (pop_best _ _ _). intros E. by injection E as _ <-. Qed.

(** The scheduling steps up to the choice of the next task. *)
Lemma choose_ok strict x c regs um online now :
  inv x → unlocked x → is_cpu c → 0 < regs → proc_observe_kill_sched c um (sc x) = false →
  ∃ cur run blk next s3,
    schedule_on_cpu c regs um online now (sc x) = Some (schedule_with c regs cur run blk next now s3) ∧
    rtc (sstep strict) x (mkSys s3 (HSched c regs cur run blk next :: hands x)) ∧
    inv (mkSys s3 (HSched c regs cur run blk next :: hands x)) ∧ same_core (sc x) s3 ∧ tasks s3 = tasks (sc x) ∧
    (next = -1 ∧ (∀ q, q = c ∨ 0 ≤ q < Z.min online SMP_MAX_CPUS → cpu_runqueues (sc x) q = []) ∨
     0 ≤ next ∧ ∃ q, is_cpu q ∧ next ∈ cpu_runqueues (sc x) q).
Proof.
  intros I Hu Hc Hr Hk. unfold schedule_on_cpu. destruct (Z.leb_spec SMP_MAX_CPUS c); [unfold is_cpu in Hc; lia|].
  destruct (Z.eqb_spec regs 0); [lia|]. cbn [orb]. rewrite Hk. pose proof (iv_count _ I) as [Hm _].
  destruct (Z.leb_spec (task_count (sc x)) 0); [lia|]. destruct (outgoing c (sc x)) as [[[cur run] blk] s1] eqn:Eo.
  destruct (runq_pop c now s1) as [n1 s2] eqn:Ep.
  assert (Ht : tasks s2 = tasks (sc x)) by (rewrite (pop_tasks _ _ _ _ _ Ep); by apply (outgoing_tasks _ _ _ _ _ _ Eo)).
  destruct (outgoing_ok x c cur run blk s1 regs n1 I Hc Hr Eo) as (C1 & Hq1 & _).
  destruct (pop_ok c now s1 n1 s2 Hc Ep) as [C2 _]. pose proof (same_core_trans _ _ _ C1 C2) as C.
  pose proof (pick_inv x c regs now cur run blk s1 n1 s2 I Hu Hc Hr Eo Ep) as I1.
  assert (S1 : rtc (sstep strict) x (mkSys s2 (HSched c regs cur run blk n1 :: hands x))).
  { apply rtc_once. by eapply st_pick. }
  pose proof (runq_pop_ok c now s1) as Hp. rewrite Ep, Hq1 in Hp. destruct Hp as [(-> & Hq & ->)|(q' & Hq & -> & _)].
  - cbn [Z.ltb]. unfold steal_task. pose proof (steal_victim_ok c online s1) as Hv. cbv zeta in Hv. rewrite Hq1 in Hv.
    destruct Hv as [[-> Hall]|(Hv & Hvc & Hvq & _)].
    + cbn [Z.ltb]. exists cur, run, blk, (-1), s1. do 5 (split; [done|]). left. split; [done|].
      intros q [->|Hqr]; [done|]. destruct (decide (q = c)) as [->|]; [done|by apply Hall].
    + set (v := steal_victim c online s1) in *. destruct (Z.ltb_spec v 0); [lia|]. assert (Hcv : is_cpu v) by (unfold is_cpu; lia).
      destruct (runq_pop v now s1) as [n2 s3] eqn:Ep2. exists cur, run, blk, n2, s3. split; [done|]. split.
      { eapply rtc_r; [done|]. by apply (st_steal strict (mkSys s1 _) [] (hands x) c regs cur run blk (-1) v now n2 s3). }
      split; [by apply (steal_inv (mkSys s1 _) [] (hands x) c regs cur run blk (-1) v now n2 s3 I1)|].
      split; [apply (same_core_trans _ _ _ C); by apply (pop_ok v now s1 n2 s3)|].
      split; [rewrite (pop_tasks _ _ _ _ _ Ep2); done|]. right. pose proof (runq_pop_ok v now s1) as Hp2. rewrite Ep2, Hq1 in Hp2.
      destruct Hp2 as [(_ & ? & _)|(q2 & Hq2 & _)]; [done|]. assert (Hin : n2 ∈ cpu_runqueues (sc x) v) by (rewrite Hq2; set_solver).
      split; [apply (queue_elem x v n2 I Hcv Hin)|by exists v].
  - assert (Hin : n1 ∈ cpu_runqueues (sc x) c) by (rewrite Hq; set_solver). destruct (queue_elem x c n1 I Hc Hin) as [Hn0 _].
    destruct (Z.ltb_spec n1 0); [lia|]. exists cur, run, blk, n1, (set_runq c q' s1).
    do 5 (split; [done|]). right. split; [done|by exists c].
Qed.

Lemma observed_kill c regs um online now s :
  is_cpu c → 0 < regs → proc_observe_kill_sched c um s = true → schedule_on_cpu c regs um online now s = None.
Proof.
  intros Hc Hr Hk. unfold schedule_on_cpu, is_cpu in *. destruct (Z.leb_spec SMP_MAX_CPUS c); [lia|].
  destruct (Z.eqb_spec regs 0); [lia|]. cbn [orb]. by rewrite Hk.
Qed.

(** C10: [schedule_on_cpu], which the model of the system breaks into three steps, is those
    steps: what it does alone is a run of the system.  Take a state that is reached while
    every kill found its ready victim on a run queue.  If the interrupted task is to observe
    a kill, it terminates and the function does not return.  Otherwise it returns a frame
    to resume.  Either the queue of this processor and of all that are online were empty,
    and the interrupted frame goes on; or a task that waited in a queue runs, from the stack
    pointer it was saved with, and the task that was running is ready in the queue of this
    processor, with the interrupted frame saved.  A task that was about to park keeps its
    state and has its frame saved. *)
Theorem schedule_on_cpu_spec cr3 img tops x c regs um online now :
  cr3 ≠ PHYS_NULL → rtc (sstep true) (booted cr3 img tops) x → unlocked x → is_cpu c → 0 < regs →
  (proc_observe_kill_sched c um (sc x) = true ∧ schedule_on_cpu c regs um online now (sc x) = None) ∨
  ∃ r s1, schedule_on_cpu c regs um online now (sc x) = Some (r, s1) ∧ 0 < r ∧ rtc (sstep true) x (mkSys s1 (hands x)) ∧
    ((r = regs ∧ cpu_current_task s1 c = cpu_current_task (sc x) c ∧
      ∀ q, q = c ∨ 0 ≤ q < Z.min online SMP_MAX_CPUS → cpu_runqueues (sc x) q = []) ∨
     (∃ next q, is_cpu q ∧ next ∈ cpu_runqueues (sc x) q ∧ cpu_current_task s1 c = next ∧ state (tasks s1 next) = RUNNING ∧
        r = rsp (tasks (sc x) next) ∧
        (0 ≤ cpu_current_task (sc x) c → state (tasks (sc x) (cpu_current_task (sc x) c)) = RUNNING →
           state (tasks s1 (cpu_current_task (sc x) c)) = READY ∧ rsp (tasks s1 (cpu_current_task (sc x) c)) = regs ∧
           cpu_current_task (sc x) c ∈ cpu_runqueues s1 c) ∧
        (0 ≤ cpu_current_task (sc x) c → asleep (tasks (sc x) (cpu_current_task (sc x) c)) = true →
           state (tasks s1 (cpu_current_task (sc x) c)) = state (tasks (sc x) (cpu_current_task (sc x) c)) ∧
           rsp (tasks s1 (cpu_current_task (sc x) c)) = regs))).
Proof.
  intros Hcr Hr Hu Hc Hregs. pose proof (reach_inv cr3 img tops x Hcr Hr) as I. clear Hr.
  destruct (proc_observe_kill_sched c um (sc x)) eqn:Hk; [left; split; [done|by apply observed_kill]|right].
  destruct (choose_ok true x c regs um online now I Hu Hc Hregs Hk) as (cur & run & blk & next & s3 & -> & Hs & I3 & C & Ht & Hn).
  destruct (iv_hand _ I3 (HSched c regs cur run blk next) ltac:(cbn; set_solver)) as (_ & _ & Hcur & Hst). cbn [sc] in Hcur, Hst.
  destruct (schedule_with c regs cur run blk next now s3) as [r s1] eqn:E. exists r, s1. split; [done|].
  pose proof (switch_result _ [] (hands x) c regs cur run blk next now r s1 I3 eq_refl E) as Hres. cbn [sc] in Hres.
  assert (Hcc : cpu_current_task s3 c = cpu_current_task (sc x) c) by (by apply C).
  assert (Hlast : rtc (sstep true) x (mkSys s1 (hands x))).
  { eapply rtc_r; [done|]. by apply (st_switch true (mkSys s3 _) [] (hands x) c regs cur run blk next now r s1). }
  destruct Hres as [(Hneg & -> & Hcu)|(H0 & Hne & -> & Hpos & Hcu & Hrun & HR & HB)].
  - split; [done|]. split; [done|]. left. split; [done|]. split; [by rewrite Hcu|]. destruct Hn as [[_ H]|[? _]]; [done|lia].
  - split; [done|]. split; [done|]. right. destruct Hn as [[? _]|(_ & q & Hq & Hin)]; [lia|]. exists next, q.
    rewrite Hcc in Hcur. rewrite <- Hcur. rewrite Ht in *. split_and!; try done.
    + intros Hc0 Hst'. apply HR. destruct Hst as [(? & _)|(_ & -> & _)]; [lia|]. by rewrite Hst'.
    + intros Hc0 Has. apply HB. destruct Hst as [(? & _)|(_ & _ & -> & _)]; [lia|done].
Qed.

Lemma schedule_on_cpu_spec_witness :
  hands demo_state = [HNew 2 0x200000 (Some 0x5000)] ∧
  ∃ r s1, schedule_on_cpu 0 0x910000 true 2 50 (sc demo_state) = Some (r, s1) ∧ 0 < r.
Proof.
  assert (Eh : hands demo_state = [HNew 2 0x200000 (Some 0x5000)]) by reflexivity. split; [exact Eh|].
  destruct (schedule_on_cpu_spec 4096 (λ _, []) (λ c, 65536 * (c + 1)) demo_state 0 0x910000 true 2 50) as [[Hk _]|(r & s1 & H & Hr & _)];
    [unfold PHYS_NULL; lia|apply demo_reached| |unfold is_cpu, SMP_MAX_CPUS; lia|lia| |exists r, s1; split; [exact H|exact Hr]].
  - unfold unlocked. rewrite Eh. by repeat constructor.
  - assert (Hn : proc_observe_kill_sched 0 true (sc demo_state) = false) by reflexivity. rewrite Hn in Hk. discriminate Hk.
Defined.

(** ** A kill before the push *)

(** C23: the comment in [proc_kill] that a ready task is in exactly one queue does not hold
    between the publication of a program and its push.  The system reaches a state with
    such a program; a kill of it, which purges the queues, is accepted there, and the push
    that follows leaves an entry for its slot in a queue.  When the slot is used again, a
    processor can run the new program, on its stack and in its address space, before its
    creation is complete.  Whichever task creates it, when inheriting the descriptors then
    fails, that stack and that address space are freed while the processor runs on them. *)
Theorem kill_race_frees_running :
  ∃ x1 k pid x2 c b r,
    rtc (sstep false) demo_start x1 ∧ unpushed pid x1 ∧
    (proc_kill_begin k pid (sc x1)).1 = KillReady ∧ sstep false x1 (purged k pid x1) ∧ rtc (sstep false) (purged k pid x1) x2 ∧
    is_cpu c ∧ runs_unfinished c pid b r x2 ∧
    ∀ creator, ∃ x h s1, create_user_inherit pid b creator false (sc x2) = (-1, s1) ∧ x = mkSys (destroy_space r s1) h ∧
      sstep false x2 x ∧ runs_freed c pid b r x.
Proof.
  destruct race_runs as (x & Hr & Hh & Hu). destruct demo_killed as [Hk Hs].
  exists demo_state, 1, 2, x, 2, 0x300000, 0x6000. split; [apply demo_reached_any|]. split; [apply demo_unpushed|].
  split; [exact Hk|]. split; [exact Hs|]. split; [exact Hr|]. split; [by apply cpub_ok|]. split; [exact Hu|]. intros creator.
  destruct Hu as (Hc & _ & _ & _ & Hcr & _).
  assert (Hl : unlocked x) by (unfold unlocked; rewrite Hh; by repeat constructor).
  pose proof (failed_creation false x [] [] 2 2 0x300000 0x6000 creator Hl Hh ltac:(lia) Hc Hcr) as H.
  destruct (create_user_inherit 2 0x300000 creator false (sc x)) as [rc s1]. destruct H as (-> & H1 & H2).
  exists (mkSys (destroy_space 0x6000 s1) []), [], s1. split; [done|]. split; [done|]. by split.
Qed.
