(* ===== verification/EventQ.v ===== *)
(** [kernel/sync/event.c]: the event queue of every task, a ring of 64 slots that drops the
    oldest event when it is full. *)

From S2P Require Import Prelude RunQueue.

Definition EVENT_QUEUE_SIZE : Z := 64.

Record kyuzen_event := mkEvent { ev_type : Z; ev_param1 : Z; ev_param2 : Z; ev_param3 : Z; ev_win_id : Z }.

(** [task_queues], [eq_head] and [eq_tail]. *)
Record evqs := mkEvqs { task_queues : Z → Z → kyuzen_event; eq_head : Z → Z; eq_tail : Z → Z }.

Definition push_event_to (task_id : Z) (e : kyuzen_event) (q : evqs) : evqs :=
  if (task_id <? 0) || (MAX_TASKS <=? task_id) then q else
  let next_head := (eq_head q task_id + 1) mod EVENT_QUEUE_SIZE in
  let tail := if next_head =? eq_tail q task_id then fset task_id ((eq_tail q task_id + 1) mod EVENT_QUEUE_SIZE) (eq_tail q)
              else eq_tail q in
  mkEvqs (fset task_id (fset (eq_head q task_id) e (task_queues q task_id)) (task_queues q))
    (fset task_id next_head (eq_head q)) tail.

Definition pop_event (task_id : Z) (q : evqs) : option kyuzen_event * evqs :=
  if (task_id <? 0) || (MAX_TASKS <=? task_id) then (None, q) else
  if eq_head q task_id =? eq_tail q task_id then (None, q) else
  (Some (task_queues q task_id (eq_tail q task_id)),
   mkEvqs (task_queues q) (eq_head q) (fset task_id ((eq_tail q task_id + 1) mod EVENT_QUEUE_SIZE) (eq_tail q))).

Definition flush_event_queue (task_id : Z) (q : evqs) : evqs :=
  if (task_id <? 0) || (MAX_TASKS <=? task_id) then q else
  mkEvqs (task_queues q) (fset task_id 0 (eq_head q)) (fset task_id 0 (eq_tail q)).

(** ** The queue as a list *)
Definition ev_len (q : evqs) (i : Z) : Z := (eq_head q i - eq_tail q i) mod EVENT_QUEUE_SIZE.
Definition events (q : evqs) (i : Z) : list kyuzen_event :=
  (λ k, task_queues q i ((eq_tail q i + k) mod EVENT_QUEUE_SIZE)) <$> seqZ 0 (ev_len q i).

(** Head and tail are slots. *)
Definition ev_ok (q : evqs) : Prop := ∀ i, 0 ≤ eq_head q i < EVENT_QUEUE_SIZE ∧ 0 ≤ eq_tail q i < EVENT_QUEUE_SIZE.

(** The last 63 events of a list. *)
Definition newest (l : list kyuzen_event) : list kyuzen_event := drop (length l - 63) l.

Lemma fset_eq {A} (i : Z) (v : A) f : fset i v f i = v.
Proof. unfold fset. by rewrite Z.eqb_refl. Qed.

Lemma fset_ne {A} (i j : Z) (v : A) f : j ≠ i → fset i v f j = f j.
Proof. intros H. unfold fset. by destruct (Z.eqb_spec j i). Qed.

Lemma ev_len_cases q i : ev_ok q → ev_len q i = if eq_tail q i <=? eq_head q i then eq_head q i - eq_tail q i else eq_head q i - eq_tail q i + 64.
Proof.
  intros Hok. destruct (Hok i) as [H1 H2]. unfold ev_len, EVENT_QUEUE_SIZE in *. destruct (Z.leb_spec (eq_tail q i) (eq_head q i)).
  - by rewrite Z.mod_small by lia.
  - rewrite <- (Z.mod_add _ 1) by lia. rewrite Z.mod_small; lia.
Qed.

Lemma next_slot h : 0 ≤ h < 64 → (h + 1) mod EVENT_QUEUE_SIZE = if h =? 63 then 0 else h + 1.
Proof. unfold EVENT_QUEUE_SIZE. intros H. destruct (Z.eqb_spec h 63) as [->|]; [done|]. by rewrite Z.mod_small by lia. Qed.

Lemma length_events q i : ev_ok q → Z.of_nat (length (events q i)) = ev_len q i ∧ 0 ≤ ev_len q i < 64.
Proof.
  intros Hok. assert (H : 0 ≤ ev_len q i < 64) by (unfold ev_len, EVENT_QUEUE_SIZE; apply Z.mod_pos_bound; lia).
  unfold events. rewrite length_fmap, length_seqZ. lia.
Qed.

Lemma lookup_events q i k : ev_ok q → Z.of_nat k < ev_len q i →
  events q i !! k = Some (task_queues q i ((eq_tail q i + Z.of_nat k) mod EVENT_QUEUE_SIZE)).
Proof.
  intros Hok Hk. unfold events. rewrite list_lookup_fmap, lookup_seqZ_lt by lia. done.
Qed.

(** Equal rings hold the same events. *)
Lemma events_ext q q' i :
  ev_ok q → ev_ok q' → ev_len q' i = ev_len q i →
  (∀ k, 0 ≤ k < ev_len q i → task_queues q' i ((eq_tail q' i + k) mod EVENT_QUEUE_SIZE) = task_queues q i ((eq_tail q i + k) mod EVENT_QUEUE_SIZE)) →
  events q' i = events q i.
Proof.
  intros H1 H2 Hl Hk. unfold events. rewrite Hl. apply list_fmap_ext. intros k x Hx. apply lookup_seqZ in Hx as [-> ?]. apply Hk. lia.
Qed.

(** The slot [k] places after the tail. *)
Lemma slot_at t k : 0 ≤ t < 64 → 0 ≤ k < 64 → (t + k) mod EVENT_QUEUE_SIZE = if t + k <? 64 then t + k else t + k - 64.
Proof.
  unfold EVENT_QUEUE_SIZE. intros Ht Hk. destruct (Z.ltb_spec (t + k) 64); [by rewrite Z.mod_small by lia|].
  rewrite <- (Z.mod_add _ (-1)) by lia. rewrite Z.mod_small; lia.
Qed.

Lemma push_ok_at q i e :
  ev_ok q → 0 ≤ i < MAX_TASKS →
  let q' := push_event_to i e q in
  ev_ok q' ∧ ev_len q' i = Z.min 63 (ev_len q i + 1) ∧
  ∀ k, 0 ≤ k < ev_len q' i → task_queues q' i ((eq_tail q' i + k) mod EVENT_QUEUE_SIZE) =
    if k =? ev_len q' i - 1 then e else task_queues q i ((eq_tail q i + (k + (if ev_len q i =? 63 then 1 else 0))) mod EVENT_QUEUE_SIZE).
Proof.
  intros Hok Hi. unfold push_event_to. destruct (Z.ltb_spec i 0); [lia|]. destruct (Z.leb_spec MAX_TASKS i); [lia|]. cbn [orb].
  destruct (Hok i) as [Hh Ht]. unfold EVENT_QUEUE_SIZE in Hh, Ht. pose proof (ev_len_cases q i Hok) as Hl.
  rewrite (next_slot (eq_head q i)) by done. rewrite (next_slot (eq_tail q i)) by done.
  set (h := eq_head q i) in *. set (t := eq_tail q i) in *. set (nh := if h =? 63 then 0 else h + 1). set (nt := if t =? 63 then 0 else t + 1).
  assert (Hnh : 0 ≤ nh < 64) by (unfold nh; zcase; lia). assert (Hnt : 0 ≤ nt < 64) by (unfold nt; zcase; lia).
  set (q' := mkEvqs _ _ _). assert (Hok' : ev_ok q').
  { intros j. unfold q', EVENT_QUEUE_SIZE. cbn [eq_head eq_tail]. destruct (Hok j) as [G1 G2]. unfold EVENT_QUEUE_SIZE in G1, G2.
    destruct (decide (j = i)) as [->|Hne]; [rewrite !fset_eq|rewrite !fset_ne by done]; (split; [lia|]); destruct (nh =? t);
      rewrite ?fset_eq, ?fset_ne by done; lia. }
  assert (Eh : eq_head q' i = nh) by apply fset_eq.
  assert (Et : eq_tail q' i = if nh =? t then nt else t) by (unfold q'; cbn [eq_tail]; destruct (nh =? t); [apply fset_eq|done]).
  assert (Eq : ∀ p, task_queues q' i p = if p =? h then e else task_queues q i p) by (intros p; unfold q'; cbn [task_queues]; by rewrite fset_eq).
  pose proof (ev_len_cases q' i Hok') as Hl'. rewrite Eh, Et in Hl'. cbv zeta. split; [done|].
  assert (Hlen : ev_len q' i = Z.min 63 (ev_len q i + 1)) by (rewrite Hl', Hl; unfold nh, nt in *; zcase; lia).
  split; [done|]. intros k Hk. rewrite Eq, Et. rewrite !slot_at by (zcase; lia).
  rewrite Hlen. revert Hk. rewrite Hlen, Hl. unfold nh, nt in *. intros Hk. zcase; try lia; try done; f_equal; lia.
Qed.

(** A push on the list: the event comes last, and the oldest goes when there would be 64. *)
Lemma push_events q i e : ev_ok q → 0 ≤ i < MAX_TASKS → events (push_event_to i e q) i = newest (events q i ++ [e]).
Proof.
  intros Hok Hi. destruct (push_ok_at q i e Hok Hi) as (Hok' & Hl & Hk). set (q' := push_event_to i e q) in *.
  destruct (length_events q i Hok) as [Hn Hb]. destruct (length_events q' i Hok') as [Hn' _].
  unfold newest. rewrite length_app. cbn [length]. apply list_eq_same_length with (n := length (events q' i)); [|done|].
  { rewrite length_drop, length_app. cbn [length]. lia. }
  intros k x y Hklt Hx Hy. rewrite lookup_events in Hx by (done || lia). injection Hx as <-. rewrite Hk by lia. rewrite lookup_drop in Hy.
  set (d := (length (events q i) + 1 - 63)%nat) in *. destruct (Z.eqb_spec (Z.of_nat k) (ev_len q' i - 1)) as [He|He].
  - rewrite lookup_app_r in Hy by lia. replace (d + k - length (events q i))%nat with 0%nat in Hy by lia. by injection Hy.
  - rewrite lookup_app_l in Hy by lia. rewrite lookup_events in Hy by (done || lia). injection Hy as <-. do 3 f_equal. zcase; lia.
Qed.

Lemma push_other q i j e : j ≠ i → events (push_event_to i e q) j = events q j.
Proof.
  intros Hj. unfold push_event_to. destruct (_ || _); [done|]. unfold events, ev_len. cbn [task_queues eq_head eq_tail].
  rewrite !(fset_ne i j) by done. by destruct (_ =? _); rewrite ?(fset_ne i j) by done.
Qed.

Lemma pop_events q i : ev_ok q → 0 ≤ i < MAX_TASKS →
  pop_event i q = (head (events q i), (pop_event i q).2) ∧ ev_ok (pop_event i q).2 ∧
  events (pop_event i q).2 i = tail (events q i) ∧ ∀ j, j ≠ i → events (pop_event i q).2 j = events q j.
Proof.
  intros Hok Hi. unfold pop_event. destruct (Z.ltb_spec i 0); [lia|]. destruct (Z.leb_spec MAX_TASKS i); [lia|]. cbn [orb].
  destruct (Hok i) as [Hh Ht]. pose proof (ev_len_cases q i Hok) as Hl. unfold EVENT_QUEUE_SIZE in Hh, Ht.
  destruct (Z.eqb_spec (eq_head q i) (eq_tail q i)) as [He|He].
  { assert (Hnil : events q i = []) by (unfold events; rewrite Hl, He; by rewrite Z.leb_refl, Z.sub_diag). cbn [snd]. by rewrite Hnil. }
  set (q' := mkEvqs _ _ _). cbn [snd].
  assert (Hok' : ev_ok q').
  { intros j. destruct (Hok j) as [G1 G2]. unfold q'. cbn [eq_head eq_tail]. split; [done|]. destruct (decide (j = i)) as [->|Hne].
    - rewrite fset_eq. unfold EVENT_QUEUE_SIZE. apply Z.mod_pos_bound. lia.
    - by rewrite fset_ne. }
  assert (Et : eq_tail q' i = if eq_tail q i =? 63 then 0 else eq_tail q i + 1) by (unfold q'; cbn [eq_tail]; rewrite fset_eq; by apply next_slot).
  assert (Hl' : ev_len q' i = ev_len q i - 1).
  { rewrite (ev_len_cases q' i Hok'), Hl, Et. change (eq_head q' i) with (eq_head q i). zcase; lia. }
  assert (Hpos : 0 < ev_len q i) by (rewrite Hl; zcase; lia).
  assert (Hcons : events q i = task_queues q i (eq_tail q i) :: events q' i).
  { destruct (length_events q i Hok) as [Hn Hb]. destruct (length_events q' i Hok') as [Hn' _].
    apply list_eq_same_length with (n := length (events q i)); [|done|]; [cbn [length]; lia|].
    intros k x y Hk Hx Hy. rewrite lookup_events in Hx by (done || lia). injection Hx as <-. destruct k as [|k].
    - injection Hy as <-. rewrite slot_at by lia. f_equal. zcase; lia.
    - cbn [lookup list_lookup] in Hy. change (events q' i !! k = Some y) in Hy. rewrite lookup_events in Hy by (done || lia).
      apply (inj Some) in Hy as <-. change (task_queues q' i) with (task_queues q i). f_equal. rewrite Et, !slot_at by (zcase; lia). zcase; lia. }
  rewrite Hcons. split; [done|]. split; [done|]. split; [done|]. intros j Hj. unfold events, ev_len, q'. cbn [task_queues eq_head eq_tail].
  by rewrite !(fset_ne i j).
Qed.

(** ** Equivalence with a queue *)
Inductive ev_op := EvPush (i : Z) (e : kyuzen_event) | EvPop (i : Z) | EvFlush (i : Z).

(** An operation of the code, and what it returns. *)
Definition ev_run (q : evqs) (o : ev_op) : option kyuzen_event * evqs :=
  match o with
  | EvPush i e => (None, push_event_to i e q)
  | EvPop i => pop_event i q
  | EvFlush i => (None, flush_event_queue i q)
  end.

(** The same on lists: a queue for every task that keeps the newest 63 events. *)
Definition ref_run (l : Z → list kyuzen_event) (o : ev_op) : option kyuzen_event * (Z → list kyuzen_event) :=
  let ok i := (0 <=? i) && (i <? MAX_TASKS) in
  match o with
  | EvPush i e => (None, if ok i then fset i (newest (l i ++ [e])) l else l)
  | EvPop i => if ok i then (head (l i), fset i (tail (l i)) l) else (None, l)
  | EvFlush i => (None, if ok i then fset i [] l else l)
  end.

(** The results of a sequence of operations. *)
Fixpoint run_all {S} (step : S → ev_op → option kyuzen_event * S) (s : S) (os : list ev_op) : list (option kyuzen_event) :=
  match os with
  | [] => []
  | o :: os => (step s o).1 :: run_all step (step s o).2 os
  end.

Definition ev_init : evqs := mkEvqs (λ _ _, mkEvent 0 0 0 0 0) (λ _, 0) (λ _, 0).

Lemma flush_events q i : ev_ok q → 0 ≤ i < MAX_TASKS →
  ev_ok (flush_event_queue i q) ∧ events (flush_event_queue i q) i = [] ∧ ∀ j, j ≠ i → events (flush_event_queue i q) j = events q j.
Proof.
  intros Hok Hi. unfold flush_event_queue. destruct (Z.ltb_spec i 0); [lia|]. destruct (Z.leb_spec MAX_TASKS i); [lia|]. cbn [orb].
  split; [|split].
  - intros j. destruct (Hok j). cbn [eq_head eq_tail]. unfold fset, EVENT_QUEUE_SIZE in *. destruct (j =? i); lia.
  - unfold events, ev_len. cbn [eq_head eq_tail]. by rewrite !fset_eq.
  - intros j Hj. unfold events, ev_len. cbn [task_queues eq_head eq_tail]. by rewrite !(fset_ne i j).
Qed.

(** One operation on related states. *)
Lemma ev_run_ref q l o :
  ev_ok q → (∀ j, events q j = l j) →
  (ev_run q o).1 = (ref_run l o).1 ∧ ev_ok (ev_run q o).2 ∧ ∀ j, events (ev_run q o).2 j = (ref_run l o).2 j.
Proof.
  intros Hok Hl. assert (Hr : ∀ i, (0 ≤ i < MAX_TASKS ∧ (0 <=? i) && (i <? MAX_TASKS) = true) ∨
    ((i <? 0) || (MAX_TASKS <=? i) = true ∧ (0 <=? i) && (i <? MAX_TASKS) = false)) by (intros i; zcase; lia).
  destruct o as [i e|i|i]; cbn [ev_run ref_run fst snd]; destruct (Hr i) as [[Hi ->]|[Ho ->]].
  - split; [done|]. split; [by apply (push_ok_at q i e)|]. intros j. destruct (decide (j = i)) as [->|Hj].
    + rewrite fset_eq, <- Hl. by apply push_events.
    + rewrite fset_ne, <- Hl by done. by apply push_other.
  - unfold push_event_to. rewrite Ho. done.
  - destruct (pop_events q i Hok Hi) as (E & Hok' & Hi' & Hj'). rewrite E. cbn [fst snd]. rewrite Hl. split; [done|]. split; [done|].
    intros j. destruct (decide (j = i)) as [->|Hj]; [by rewrite fset_eq, <- Hl|by rewrite fset_ne, <- Hl, Hj'].
  - unfold pop_event. rewrite Ho. done.
  - destruct (flush_events q i Hok Hi) as (Hok' & Hi' & Hj'). split; [done|]. split; [done|].
    intros j. destruct (decide (j = i)) as [->|Hj]; [by rewrite fset_eq|by rewrite fset_ne, <- Hl, Hj'].
  - unfold flush_event_queue. rewrite Ho. done.
Qed.

(** C30: the rings of the event queues are indistinguishable from one bounded queue for every
    task: whatever events are pushed, popped and flushed for whichever tasks, also for task
    numbers out of range, every pop returns what a queue that keeps the newest 63 events
    would return. *)
Theorem event_queue_equiv os : run_all ev_run ev_init os = run_all ref_run (λ _, []) os.
Proof.
  assert (H : ∀ q l, ev_ok q → (∀ j, events q j = l j) → run_all ev_run q os = run_all ref_run l os).
  { induction os as [|o os IH]; intros q l Hok Hl; [done|]. cbn [run_all].
    destruct (ev_run_ref q l o Hok Hl) as (H1 & H2 & H3). rewrite H1. f_equal. by apply IH. }
  apply H; [|done]. intros i. unfold EVENT_QUEUE_SIZE. cbn. lia.
Qed.
