(* ===== verification/Sync.v ===== *)
(** [kernel/sync/wait.c] and [kernel/sync/sync.c]: wait queues, and the mutexes, semaphores
    and condition variables over them.

    The lock of a wait queue makes one section of what runs under it, and a function that
    parks is split where it parks.  A wait queue is the list of its first [count] entries. *)

From S2P Require Import Prelude RunQueue Sched.

Implicit Types (s : sched) (wq : list Z).

Definition WAIT_QUEUE_CAPACITY : Z := MAX_TASKS.

(** What a function reads of its surroundings: its processor, the number of processors
    online and the time. *)
Record env := mkEnv { e_cpu : Z; e_online : Z; e_now : Z }.

Definition wake (e : env) (id : Z) s : sched := unblock_task id (e_cpu e) (e_online e) (e_now e) s.

(** ** Wait queues *)
Definition wait_queue_init : list Z := [].

Definition wait_enqueue wq (task_id : Z) : option (list Z) :=
  if WAIT_QUEUE_CAPACITY <=? zlength wq then None else Some (wq ++ [task_id]).

Definition wait_dequeue wq : Z * list Z :=
  match wq with
  | [] => (-1, [])
  | id :: rest => (id, rest)
  end.

(** Removing the first entry for a task. *)
Fixpoint wait_remove wq (task_id : Z) : Z * list Z :=
  match wq with
  | [] => (0, [])
  | id :: rest => if id =? task_id then (1, rest) else
      let '(r, rest) := wait_remove rest task_id in (r, id :: rest)
  end.

(** How a wait goes on: the caller looks at its condition again, the task parks, the caller
    is told of a kill, or the task exits. *)
Inductive wait_out := WAgain | WPark (self : Z) | WKilled | WExit.

(** [wait_block_impl] up to where it parks; [killable] if the caller wants to be told. *)
Definition wait_block_begin (e : env) (killable : bool) wq s : wait_out * list Z * sched :=
  let '(self, s) := block_prepare (e_cpu e) BLOCKED s in
  if self <? 0 then (WAgain, wq, s) else
  match wait_enqueue wq self with
  | None => (WAgain, wq, wake e self s)
  | Some wq =>
      if kill_pending (tasks s self) then
        let wq := (wait_remove wq self).2 in
        if killable then (WKilled, wq, wake e self s) else (WExit, wq, s)
      else (WPark self, wq, s)
  end.

(** The rest, once the task runs again. *)
Definition wait_block_end (self : Z) (killable : bool) wq s : wait_out * list Z :=
  if kill_pending (tasks s self) then (if killable then WKilled else WExit, (wait_remove wq self).2) else (WAgain, wq).

Definition wait_wake_one (e : env) wq s : list Z * sched :=
  let '(id, wq) := wait_dequeue wq in (wq, if 0 <=? id then wake e id s else s).

Fixpoint wait_wake_all (e : env) wq s : list Z * sched :=
  match wq with
  | [] => ([], s)
  | id :: rest => if 0 <=? id then wait_wake_all e rest (wake e id s) else (rest, s)
  end.

Definition wait_abort (e : env) wq (task_id : Z) s : list Z * sched := ((wait_remove wq task_id).2, wake e task_id s).

(** ** Mutexes *)
Record mutex := mkMutex { m_wq : list Z; m_owner : Z; m_locked : Z }.

Definition mutex_init : mutex := mkMutex wait_queue_init (-1) 0.

(** How a turn of the loop of [mutex_lock] ends: with the mutex, parked, or as the wait ends. *)
Inductive lock_out := Acquired | Waits (w : wait_out).

Definition mutex_turn (e : env) (m : mutex) s : lock_out * mutex * sched :=
  if negb (m_locked m =? 0) then
    let '(w, wq, s) := wait_block_begin e false (m_wq m) s in (Waits w, mkMutex wq (m_owner m) (m_locked m), s)
  else (Acquired, mkMutex (m_wq m) (smp_current_task_id (e_cpu e) s) 1, s).

Definition mutex_trylock (e : env) (m : mutex) s : Z * mutex :=
  if m_locked m =? 0 then (1, mkMutex (m_wq m) (smp_current_task_id (e_cpu e) s) 1) else (0, m).

Definition mutex_unlock (e : env) (m : mutex) s : mutex * sched :=
  let '(wq, s) := wait_wake_one e (m_wq m) s in (mkMutex wq (-1) 0, s).

(** ** Semaphores *)
Record semaphore := mkSemaphore { s_wq : list Z; s_count : Z }.

Definition semaphore_init (initial : Z) : semaphore := mkSemaphore wait_queue_init initial.

Definition semaphore_turn (e : env) (m : semaphore) s : lock_out * semaphore * sched :=
  if s_count m <=? 0 then
    let '(w, wq, s) := wait_block_begin e false (s_wq m) s in (Waits w, mkSemaphore wq (s_count m), s)
  else (Acquired, mkSemaphore (s_wq m) (s_count m - 1), s).

Definition semaphore_trywait (m : semaphore) : Z * semaphore :=
  if 0 <? s_count m then (1, mkSemaphore (s_wq m) (s_count m - 1)) else (0, m).

Definition semaphore_post (e : env) (m : semaphore) s : semaphore * sched :=
  let '(wq, s) := wait_wake_one e (s_wq m) s in (mkSemaphore wq (s_count m + 1), s).

(** ** Condition variables *)
Definition condvar_init : list Z := wait_queue_init.

(** [condvar_wait] up to where it parks; then it takes the mutex again. *)
Definition condvar_wait_begin (e : env) (cv : list Z) (m : mutex) s : wait_out * list Z * mutex * sched :=
  let '(m, s) := mutex_unlock e m s in
  let '(w, cv, s) := wait_block_begin e false cv s in (w, cv, m, s).

Definition condvar_signal (e : env) (cv : list Z) s : list Z * sched := wait_wake_one e cv s.
Definition condvar_broadcast (e : env) (cv : list Z) s : list Z * sched := wait_wake_all e cv s.
