(* ===== verification/SyncSafe.v ===== *)
(** Mutexes and semaphores among tasks that the scheduler of [SchedSys] runs: mutual
    exclusion, and that a waiter is not forgotten.

    Both objects are instances of a [Gate]: a number of permits, a wait queue, and the turn
    of the loop and the release of [Sync].  The system interleaves tasks that use a gate
    with all steps of the scheduler. *)

From stdpp Require Import relations.
From S2P Require Import Prelude RunQueue Sched SchedSys SchedRun SchedLife SchedMoves Sync.

Implicit Types (s : sched) (x : sys) (wq : list Z).

(** ** Gates *)
Class Gate (D : Type) := {
  g_wq : D → list Z;
  g_set_wq : list Z → D → D;
  g_permits : D → Z;
  g_max : Z;
  g_turn : env → D → sched → lock_out * D * sched;
  g_release : D → Z * D
}.

(** What a gate promises. *)
Class GateLaws (D : Type) `{Gate D} : Prop := {
  g_set_wq_ok : ∀ wq d, g_wq (g_set_wq wq d) = wq ∧ g_permits (g_set_wq wq d) = g_permits d;
  g_turn_free : ∀ e d s, 0 < g_permits d → ∃ d', g_turn e d s = (Acquired, d', s) ∧ g_wq d' = g_wq d ∧ g_permits d' = g_permits d - 1;
  g_turn_busy : ∀ e d s w wq s1, g_permits d ≤ 0 → wait_block_begin e false (g_wq d) s = (w, wq, s1) →
    ∃ d', g_turn e d s = (Waits w, d', s1) ∧ g_wq d' = wq ∧ g_permits d' = g_permits d;
  g_release_ok : ∀ d id d', g_release d = (id, d') → wait_dequeue (g_wq d) = (id, g_wq d') ∧
    g_permits d' ≤ g_permits d + 1 ∧ (g_permits d < g_max → g_permits d' = g_permits d + 1)
}.

#[export] Instance mutex_gate : Gate mutex := {|
  g_wq := m_wq;
  g_set_wq wq m := mkMutex wq (m_owner m) (m_locked m);
  g_permits m := if m_locked m =? 0 then 1 else 0;
  g_max := 1;
  g_turn := mutex_turn;
  g_release m := let '(id, wq) := wait_dequeue (m_wq m) in (id, mkMutex wq (-1) 0)
|}.

#[export] Instance semaphore_gate : Gate semaphore := {|
  g_wq := s_wq;
  g_set_wq wq m := mkSemaphore wq (s_count m);
  g_permits := s_count;
  g_max := 2 ^ 31 - 1;
  g_turn := semaphore_turn;
  g_release m := let '(id, wq) := wait_dequeue (s_wq m) in (id, mkSemaphore wq (s_count m + 1))
|}.

(** ** The system *)

(** Where a task is: not concerned with the gate, parked or about to try again, holding a
    permit, or about to exit. *)
Inductive place := Out | Parked | In | Gone.

#[export] Instance place_eq_dec : EqDecision place.
Proof. solve_decision. Defined.

Definition after_turn (o : lock_out) : place :=
  match o with
  | Acquired => In
  | Waits (WPark _) => Parked
  | Waits WAgain => Out
  | Waits WKilled | Waits WExit => Gone
  end.

Record gsys (D : Type) := mkGsys { gx : sys; gd : D; gp : Z → place }.
Arguments mkGsys {_} _ _ _.
Arguments gx {_} _.
Arguments gd {_} _.
Arguments gp {_} _.

(** [unblock_task] up to the push. *)
Definition wake_begin (id : Z) x : sys :=
  if id <? 0 then x else
  let '(push, s1) := unblock_begin id (sc x) in mkSys s1 (if push then HPush id :: hands x else hands x).

(** The task that runs on a processor. *)
Definition running_on_cpu (c t : Z) x : Prop :=
  is_cpu c ∧ t = cpu_current_task (sc x) c ∧ 0 ≤ t ∧ state (tasks (sc x) t) = RUNNING.

(** What the other steps of the scheduler do to a task that is parked: it is not put to
    sleep by them, it is woken by nothing but a kill, it keeps a kill that is pending, and
    it does not end but by a kill. *)
Definition keeps_parked (kills : bool) (t t' : task) : Prop :=
  (asleep t = false → asleep t' = false) ∧ (asleep t' = true ∨ asleep t = false ∨ kill_pending t' = true) ∧
  (kill_pending t = true → kill_pending t' = true) ∧ (kills = false → kill_pending t = false ∧ alive t = true → kill_pending t' = false ∧ alive t' = true).

(** With [owned], only a task that holds a permit releases one; with [kills], parked tasks
    are killed.  A task that parked looks at the gate again unless it sees a kill; a kill
    that comes after it has looked for one is not seen in this turn. *)
Inductive gstep {D} `{Gate D} (owned kills : bool) : gsys D → gsys D → Prop :=
| gs_turn x d p e t o d' s1 :
    unlocked x → running_on_cpu (e_cpu e) t x →
    (p t = Out ∨ p t = Parked ∧ (kill_pending (tasks (sc x) t) = false ∨ t ∉ g_wq d)) → g_turn e d (sc x) = (o, d', s1) →
    gstep owned kills (mkGsys x d p) (mkGsys (mkSys s1 (hands x)) d' (fset t (after_turn o) p))
| gs_killed x d p c t wq :
    running_on_cpu c t x → p t = Parked → wait_block_end t false (g_wq d) (sc x) = (WExit, wq) →
    gstep owned kills (mkGsys x d p) (mkGsys x (g_set_wq wq d) (fset t Gone p))
| gs_release x d p c t id d' :
    unlocked x → running_on_cpu c t x → (p t = In ∨ owned = false ∧ p t = Out) → g_release d = (id, d') →
    gstep owned kills (mkGsys x d p) (mkGsys (wake_begin id x) d' (fset t Out p))
| gs_reuse x d p t :
    alive (tasks (sc x) t) = false → t ∉ g_wq d → gstep owned kills (mkGsys x d p) (mkGsys x d (fset t Out p))
| gs_env x d p y :
    sstep true x y → (∀ t, p t = Parked → keeps_parked kills (tasks (sc x) t) (tasks (sc y) t)) →
    gstep owned kills (mkGsys x d p) (mkGsys y d p).

(** Tasks that parked and are not in the queue any more: they have been woken. *)
Definition woken {D} `{Gate D} (g : gsys D) (t : Z) : nat :=
  if bool_decide (gp g t = Parked) && bool_decide (t ∉ g_wq (gd g)) then 1%nat else 0%nat.
Definition holds {D} (g : gsys D) (t : Z) : nat := if bool_decide (gp g t = In) then 1%nat else 0%nat.

(** ** The instances *)
#[export] Instance mutex_laws : GateLaws mutex.
Proof.
  constructor; cbn.
  - done.
  - intros e d s. unfold mutex_turn. destruct (m_locked d =? 0); [|lia]. intros _. by eexists.
  - intros e d s w wq s1. unfold mutex_turn. destruct (m_locked d =? 0) eqn:E; [lia|]. intros _ ->. eexists. split; [done|]. cbn. by rewrite E.
  - intros d id d'. destruct (wait_dequeue (m_wq d)) as [i q]. intros Eq. injection Eq as <- <-. cbn. split; [done|].
    destruct (m_locked d =? 0); lia.
Qed.

#[export] Instance semaphore_laws : GateLaws semaphore.
Proof.
  constructor; cbn.
  - done.
  - intros e d s Hp. unfold semaphore_turn. destruct (Z.leb_spec (s_count d) 0); [lia|]. by eexists.
  - intros e d s w wq s1 Hp. unfold semaphore_turn. destruct (Z.leb_spec (s_count d) 0); [|lia]. intros ->. by eexists.
  - intros d id d'. destruct (wait_dequeue (s_wq d)) as [i q]. intros Eq. injection Eq as <- <-. cbn. split; [done|lia].
Qed.

(** The releases are what the functions do before and while they wake. *)
Lemma mutex_unlock_release e m s :
  mutex_unlock e m s = let '(id, m') := g_release m in (m', if 0 <=? id then wake e id s else s).
Proof. unfold mutex_unlock, wait_wake_one. cbn. by destruct (wait_dequeue (m_wq m)). Qed.

Lemma semaphore_post_release e m s :
  semaphore_post e m s = let '(id, m') := g_release m in (m', if 0 <=? id then wake e id s else s).
Proof. unfold semaphore_post, wait_wake_one. cbn. by destruct (wait_dequeue (s_wq m)). Qed.

(** ** One section *)
Lemma total_upd f g t :
  is_cpu t → (∀ j, is_cpu j → j ≠ t → g j = f j) → (total g + f t = total f + g t)%nat.
Proof.
  intros Ht H. rewrite <- (total_fset f t (g t) Ht). f_equal. apply total_ext. intros j Hj. unfold fset.
  destruct (Z.eqb_spec j t) as [->|]; [done|by apply H].
Qed.

Lemma total_le f g : (∀ j, (f j ≤ g j)%nat) → (total f ≤ total g)%nat.
Proof. intros H. unfold total. induction (seqZ 0 16) as [|j l IH]; cbn; [lia|]. specialize (H j). lia. Qed.

Lemma wait_remove_last wq t : t ∉ wq → (wait_remove (wq ++ [t]) t).2 = wq.
Proof.
  induction wq as [|j wq IH]; intros Hn; cbn [wait_remove app]; [by rewrite Z.eqb_refl|].
  apply not_elem_of_cons in Hn as [Hj Hn]. destruct (Z.eqb_spec j t); [congruence|]. specialize (IH Hn).
  destruct (wait_remove (wq ++ [t]) t). cbn in *. by rewrite IH.
Qed.

Lemma wait_remove_ok wq t : NoDup wq → NoDup (wait_remove wq t).2 ∧ ∀ j, j ∈ (wait_remove wq t).2 ↔ j ∈ wq ∧ j ≠ t.
Proof.
  induction 1 as [|i wq Hi Hnd [IH1 IH2]]; cbn [wait_remove]; [split; [constructor|]; intros j; split; [by intros ?%elem_of_nil|by intros [?%elem_of_nil _]]|].
  destruct (Z.eqb_spec i t) as [->|Hne]; cbn [snd].
  - split; [done|]. intros j. rewrite elem_of_cons. split; [intros Hj; split; [by right|congruence]|]. by intros [[->|?] ?].
  - destruct (wait_remove wq t) as [r q]. cbn [snd] in *. split; [constructor; [rewrite IH2; tauto|done]|].
    intros j. rewrite !elem_of_cons, IH2. naive_solver.
Qed.

Lemma runs_slot x c t : inv x → running_on_cpu c t x → is_cpu t ∧ t < task_count (sc x) ∧ t < MAX_TASKS ∧ asleep (tasks (sc x) t) = false.
Proof.
  intros I (Hc & Ht & H0 & Hr). destruct (cur_task x c I Hc ltac:(lia)) as (Hlt & _). rewrite <- Ht in Hlt.
  pose proof (iv_count _ I) as [Hm _]. unfold is_cpu, SMP_MAX_CPUS, MAX_TASKS in *. split; [lia|]. split; [done|]. split; [lia|].
  unfold asleep. by rewrite Hr.
Qed.

(** The beginning of a wait, by a running task that is not in the queue. *)
Lemma wait_begin_ok x e t wq :
  inv x → running_on_cpu (e_cpu e) t x → NoDup wq → (t ∉ wq) → (∀ j, j ∈ wq → is_cpu j) →
  wait_block_begin e false wq (sc x) =
    (if kill_pending (tasks (sc x) t) then WExit else WPark t, if kill_pending (tasks (sc x) t) then wq else wq ++ [t],
     upd_task t (set_state BLOCKED) (sc x)) ∧
  block_prepare (e_cpu e) BLOCKED (sc x) = (t, upd_task t (set_state BLOCKED) (sc x)).
Proof.
  intros I Hr Hnd Hnt Hin. destruct (runs_slot x _ t I Hr) as (Hs & Hlt & _). destruct Hr as (Hc & Ht & H0 & Hst).
  assert (E : block_prepare (e_cpu e) BLOCKED (sc x) = (t, upd_task t (set_state BLOCKED) (sc x))).
  { unfold block_prepare, smp_current_task_id. cbn [tstate_eqb]. destruct (Z.leb_spec SMP_MAX_CPUS (e_cpu e)); [unfold is_cpu in Hc; lia|].
    rewrite <- Ht. destruct (Z.ltb_spec t 0); [lia|]. destruct (Z.leb_spec (task_count (sc x)) t); [lia|].
    by rewrite (proj2 (is_state_eq RUNNING t (sc x)) Hst). }
  split; [|done]. unfold wait_block_begin. rewrite E. destruct (Z.ltb_spec t 0); [lia|].
  assert (Hlen : zlength wq < WAIT_QUEUE_CAPACITY).
  { assert (Hsub : t :: wq ⊆ seqZ 0 16).
    { intros j [->|Hj]%elem_of_cons; apply elem_of_seqZ; [|apply Hin in Hj]; unfold is_cpu, SMP_MAX_CPUS in *; lia. }
    assert (Hnd2 : NoDup (t :: wq)) by (by constructor).
    pose proof (submseteq_length _ _ (NoDup_submseteq _ _ Hnd2 Hsub)) as Hl. rewrite length_seqZ in Hl. cbn [length] in Hl.
    unfold zlength, WAIT_QUEUE_CAPACITY, MAX_TASKS. lia. }
  unfold wait_enqueue. destruct (Z.leb_spec WAIT_QUEUE_CAPACITY (zlength wq)); [lia|]. rewrite tasks_upd, Z.eqb_refl. cbn [kill_pending set_state].
  destruct (kill_pending (tasks (sc x) t)); [by rewrite wait_remove_last|done].
Qed.

(** Waking: the task is awake, and nothing changes for the others. *)
Lemma wake_begin_ok id x : inv x → unlocked x → 0 ≤ id < MAX_TASKS →
  inv (wake_begin id x) ∧ asleep (tasks (sc (wake_begin id x)) id) = false ∧
  ∀ j, j ≠ id → tasks (sc (wake_begin id x)) j = tasks (sc x) j.
Proof.
  intros I Hu Hid. unfold wake_begin. destruct (Z.ltb_spec id 0); [lia|]. destruct (unblock_begin id (sc x)) as [push s1] eqn:E.
  split; [by apply unblock_inv|]. cbn [sc]. unfold unblock_begin in E. destruct (Z.ltb_spec id 0); [lia|].
  destruct (Z.leb_spec MAX_TASKS id); [lia|]. cbn [orb] in E.
  destruct (negb (is_state SLEEPING id (sc x)) && negb (is_state BLOCKED id (sc x))) eqn:Es.
  - injection E as <- <-. split; [|done]. apply andb_true_iff in Es as [E1%negb_true_iff E2%negb_true_iff].
    apply is_state_ne in E1, E2. unfold asleep. by destruct (state (tasks (sc x) id)).
  - destruct (0 <=? on_cpu id (sc x)); injection E as <- <-; cbn [tasks emit]; (split; [rewrite !tasks_upd, Z.eqb_refl; done|]);
      intros j Hj; cbn [tasks emit]; rewrite !tasks_upd; by destruct (Z.eqb_spec j id).
Qed.

Lemma wake_begin_kill id x j : kill_pending (tasks (sc x) j) = false ∧ alive (tasks (sc x) j) = true →
  kill_pending (tasks (sc (wake_begin id x)) j) = false ∧ alive (tasks (sc (wake_begin id x)) j) = true.
Proof.
  intros [Hk Ha]. unfold wake_begin, unblock_begin. destruct (id <? 0); [done|]. cbn [orb]. destruct (MAX_TASKS <=? id); [done|].
  destruct (negb (is_state SLEEPING id (sc x)) && negb (is_state BLOCKED id (sc x))); [done|].
  destruct (0 <=? on_cpu id (sc x)); cbn [sc tasks emit]; rewrite !tasks_upd, Z.eqb_refl; by destruct (Z.eqb_spec j id) as [->|].
Qed.

(** ** The invariant *)
Section Invariant.
Context {D : Type} `{GateLaws D} (owned kills : bool) (N : Z).
Hypothesis HN : N ≤ g_max.

Record ginv (g : gsys D) : Prop := {
  gi_inv : inv (gx g);
  gi_nodup : NoDup (g_wq (gd g));
  gi_wq : ∀ t, t ∈ g_wq (gd g) → gp g t = Parked;
  gi_slot : ∀ t, gp g t ≠ Out → is_cpu t;
  gi_awake : ∀ t, gp g t = Parked → t ∉ g_wq (gd g) → asleep (tasks (sc (gx g)) t) = false;
  gi_asleep : ∀ t, t ∈ g_wq (gd g) → asleep (tasks (sc (gx g)) t) = true ∨ kill_pending (tasks (sc (gx g)) t) = true;
  gi_kill : kills = false → ∀ t, gp g t = Parked → kill_pending (tasks (sc (gx g)) t) = false ∧ alive (tasks (sc (gx g)) t) = true;
  gi_count : owned = true → Z.of_nat (total (holds g)) + g_permits (gd g) ≤ N;
  gi_wake : kills = false → g_wq (gd g) ≠ [] → g_permits (gd g) ≤ Z.of_nat (total (woken g))
}.

Implicit Types (g : gsys D) (d : D) (p : Z → place).

Lemma place_set p t v j : fset t v p j = if decide (j = t) then v else p j.
Proof. unfold fset. destruct (Z.eqb_spec j t) as [->|Hn]; [by rewrite decide_True|by rewrite decide_False]. Qed.

(** The counts after a task has moved. *)
Lemma holds_set x d p x' d' t v :
  is_cpu t → (total (holds (mkGsys x' d' (fset t v p))) + holds (mkGsys x d p) t =
    total (holds (mkGsys x d p)) + (if decide (v = In) then 1 else 0))%nat.
Proof.
  intros Ht. rewrite (total_upd (holds (mkGsys x d p)) (holds (mkGsys x' d' (fset t v p))) t Ht).
  - f_equal. unfold holds. cbn [gp]. rewrite place_set, decide_True by done. by destruct v.
  - intros j _ Hj. unfold holds. cbn [gp]. by rewrite place_set, decide_False.
Qed.

Lemma woken_set x d p x' d' t v :
  is_cpu t → (∀ j, j ≠ t → j ∈ g_wq d' ↔ j ∈ g_wq d) →
  (total (woken (mkGsys x' d' (fset t v p))) + woken (mkGsys x d p) t =
    total (woken (mkGsys x d p)) + (if decide (v = Parked ∧ t ∉ g_wq d') then 1 else 0))%nat.
Proof.
  intros Ht Hw. rewrite (total_upd (woken (mkGsys x d p)) (woken (mkGsys x' d' (fset t v p))) t Ht).
  - f_equal. unfold woken. cbn [gp gd]. rewrite place_set, decide_True by done. case_decide as E.
    + destruct E as [-> E]. by rewrite !bool_decide_true.
    + destruct (decide (v = Parked)) as [->|Hv]; [|by rewrite bool_decide_false]. rewrite (bool_decide_false (t ∉ _)) by tauto. by rewrite andb_false_r.
  - intros j _ Hj. unfold woken. cbn [gp gd]. rewrite place_set, decide_False by done.
    by rewrite (bool_decide_ext (j ∉ g_wq d') (j ∉ g_wq d)) by (by rewrite Hw).
Qed.

(** What a task that takes a turn is: running, awake, without a permit, not in the queue. *)
Lemma turn_task x d p c t :
  ginv (mkGsys x d p) → running_on_cpu c t x → (p t = Out ∨ p t = Parked ∧ (kill_pending (tasks (sc x) t) = false ∨ t ∉ g_wq d)) →
  is_cpu t ∧ (t ∉ g_wq d) ∧ holds (mkGsys x d p) t = 0%nat.
Proof.
  intros G Hr Hp. destruct (runs_slot x _ t (gi_inv _ G) Hr) as (Hs & _ & _ & Haw). split; [done|]. split.
  - intros Hin. destruct Hp as [Hp|[_ Hk]]; [pose proof (gi_wq _ G t Hin) as E; cbn in E; congruence|].
    destruct Hk as [Hk|]; [|done]. destruct (gi_asleep _ G t Hin) as [E|E]; cbn in E; congruence.
  - unfold holds. cbn [gp]. rewrite bool_decide_false; [done|]. by destruct Hp as [->|[-> _]].
Qed.

Lemma turn_free_ginv x d p t d1 :
  ginv (mkGsys x d p) → is_cpu t → (t ∉ g_wq d) → holds (mkGsys x d p) t = 0%nat →
  g_wq d1 = g_wq d → g_permits d1 = g_permits d - 1 → ginv (mkGsys x d1 (fset t In p)).
Proof.
  intros [G1 G2 G3 G4 G5 G6 G7 G8 G9] Hs Hnt Hh0 Hwq Hpm. cbn [gx gd gp] in *.
  pose proof (holds_set x d p x d1 t In Hs) as Hh. rewrite decide_True in Hh by done.
  pose proof (woken_set x d p x d1 t In Hs ltac:(intros; by rewrite Hwq)) as Hw. rewrite decide_False in Hw by naive_solver.
  constructor; cbn [gx gd gp sc]; rewrite ?Hwq; try done.
  - intros j Hj. rewrite place_set, decide_False; [by apply G3|]. by intros ->.
  - intros j. rewrite place_set. case_decide as E; [by subst|by apply G4].
  - intros j. rewrite place_set. case_decide; [done|apply G5].
  - intros Hk j. rewrite place_set. case_decide; [done|by apply G7].
  - intros Ho. specialize (G8 Ho). lia.
  - intros Hk Hne. specialize (G9 Hk Hne). assert (woken (mkGsys x d p) t ≤ 1)%nat by (unfold woken; by destruct (_ && _); lia). lia.
Qed.

(** The task waits: it is in the queue, or it exits because of a pending kill. *)
Lemma turn_busy_ginv x d p t d1 s2 k :
  ginv (mkGsys x d p) → is_cpu t → (t ∉ g_wq d) → holds (mkGsys x d p) t = 0%nat → g_permits d ≤ 0 →
  k = kill_pending (tasks (sc x) t) → g_wq d1 = (if k then g_wq d else g_wq d ++ [t]) → g_permits d1 = g_permits d →
  inv (mkSys s2 (hands x)) → s2 = upd_task t (set_state BLOCKED) (sc x) →
  ginv (mkGsys (mkSys s2 (hands x)) d1 (fset t (if k then Gone else Parked) p)).
Proof.
  intros [G1 G2 G3 G4 G5 G6 G7 G8 G9] Hs Hnt Hh0 Hbusy Hk0 Hwq Hpm I2 Hs2. cbn [gx gd gp] in *.
  assert (Hoth : ∀ j, j ≠ t → tasks s2 j = tasks (sc x) j) by (intros j Hj; rewrite Hs2, tasks_upd; by destruct (Z.eqb_spec j t)).
  assert (Hself : asleep (tasks s2 t) = true ∧ kill_pending (tasks s2 t) = k ∧ alive (tasks s2 t) = true).
  { rewrite Hs2, Hk0, tasks_upd, Z.eqb_refl. done. }
  destruct Hself as (Hsl & Hkp & Hal). clear Hs2 Hk0.
  pose proof (holds_set x d p (mkSys s2 (hands x)) d1 t (if k then Gone else Parked) Hs) as Hh. rewrite decide_False in Hh by (by destruct k).
  assert (Hmem : ∀ j, j ∈ g_wq d1 ↔ j ∈ g_wq d ∨ j = t ∧ k = false).
  { intros j. rewrite Hwq. destruct k; [naive_solver|]. rewrite elem_of_app, list_elem_of_singleton. naive_solver. }
  constructor; cbn [gx gd gp sc]; try done.
  - rewrite Hwq. destruct k; [done|]. apply NoDup_app. split; [done|]. split; [|apply NoDup_singleton].
    intros j Hj ->%list_elem_of_singleton. done.
  - intros j [Hj|[-> ->]]%Hmem; rewrite place_set; [rewrite decide_False by (by intros ->); by apply G3|]. by rewrite decide_True.
  - intros j. rewrite place_set. case_decide as E2; [by subst|by apply G4].
  - intros j. rewrite place_set. case_decide as E2; [subst j|].
    + destruct k eqn:Ek; [done|]. intros _ Hnin. destruct Hnin. apply Hmem. by right.
    + intros Hpj Hnin. rewrite Hoth by done. apply G5; [done|]. intros Hj. apply Hnin, Hmem. by left.
  - intros j [Hj|[-> _]]%Hmem; [|by left]. destruct (decide (j = t)) as [->|Hne]; [by left|]. rewrite Hoth by done. by apply G6.
  - intros Hkl j. rewrite place_set. case_decide as E2; [subst j|rewrite Hoth by done; by apply G7]. by destruct k.
  - intros Ho. specialize (G8 Ho). lia.
  - intros _ _. lia.
Qed.

Lemma turn_ginv x d p e t o d' s1 :
  ginv (mkGsys x d p) → unlocked x → running_on_cpu (e_cpu e) t x →
  (p t = Out ∨ p t = Parked ∧ (kill_pending (tasks (sc x) t) = false ∨ t ∉ g_wq d)) → g_turn e d (sc x) = (o, d', s1) →
  ginv (mkGsys (mkSys s1 (hands x)) d' (fset t (after_turn o) p)).
Proof.
  intros G Hu Hr Hp Hturn. destruct (turn_task x d p _ t G Hr Hp) as (Hs & Hnt & Hh0). pose proof (gi_inv _ G) as G1. cbn [gx] in G1.
  destruct (Z.lt_ge_cases 0 (g_permits d)) as [Hfree|Hbusy].
  - destruct (g_turn_free e d (sc x) Hfree) as (d1 & E & Hwq & Hpm). rewrite Hturn in E. injection E as -> -> ->. cbn [after_turn].
    replace (mkSys (sc x) (hands x)) with x by (by destruct x). by apply (turn_free_ginv x d).
  - assert (Hin : ∀ j, j ∈ g_wq d → is_cpu j) by (intros j Hj; apply (gi_slot _ G); by rewrite (gi_wq _ G j Hj)).
    destruct (wait_begin_ok x e t (g_wq d) G1 Hr (gi_nodup _ G) Hnt Hin) as [E Eb].
    destruct (g_turn_busy e d (sc x) _ _ _ Hbusy E) as (d1 & E1 & Hwq & Hpm). rewrite Hturn in E1. injection E1 as -> -> ->.
    assert (I2 : inv (mkSys (upd_task t (set_state BLOCKED) (sc x)) (hands x))) by (apply (block_inv x (e_cpu e) BLOCKED t); try done; by destruct Hr).
    pose proof (turn_busy_ginv x d p t d1 _ _ G Hs Hnt Hh0 Hbusy eq_refl Hwq Hpm I2 eq_refl) as R.
    by destruct (kill_pending (tasks (sc x) t)).
Qed.

Lemma killed_ginv x d p c t wq :
  ginv (mkGsys x d p) → running_on_cpu c t x → p t = Parked → wait_block_end t false (g_wq d) (sc x) = (WExit, wq) →
  ginv (mkGsys x (g_set_wq wq d) (fset t Gone p)).
Proof.
  intros G Hr Hp Hend. destruct G as [G1 G2 G3 G4 G5 G6 G7 G8 G9]. cbn [gx gd gp] in *.
  destruct (runs_slot x _ t G1 Hr) as (Hs & _). unfold wait_block_end in Hend.
  destruct (kill_pending (tasks (sc x) t)) eqn:Ek; [|done]. injection Hend as <-.
  destruct (wait_remove_ok (g_wq d) t G2) as [Hnd Hmem]. destruct (g_set_wq_ok (wait_remove (g_wq d) t).2 d) as [Hwq Hpm].
  constructor; cbn [gx gd gp]; rewrite ?Hwq; try done.
  - intros j [Hj Hne]%Hmem. rewrite place_set, decide_False by done. by apply G3.
  - intros j. rewrite place_set. case_decide as E; [by subst|by apply G4].
  - intros j. rewrite place_set. case_decide as E; [done|]. intros Hpj Hnin. apply G5; [done|]. intros Hj. by apply Hnin, Hmem.
  - intros j [Hj _]%Hmem. by apply G6.
  - intros Hk j. rewrite place_set. case_decide; [done|by apply G7].
  - intros Ho. rewrite Hpm. specialize (G8 Ho). pose proof (holds_set x d p x (g_set_wq (wait_remove (g_wq d) t).2 d) t Gone Hs) as Hh.
    rewrite decide_False in Hh by done. assert (holds (mkGsys x d p) t = 0%nat) by (unfold holds; cbn [gp]; by rewrite Hp). lia.
  - intros Hk. destruct (G7 Hk t Hp). congruence.
Qed.

Lemma wait_dequeue_cases wq id wq' : wait_dequeue wq = (id, wq') → wq = [] ∧ id = -1 ∧ wq' = [] ∨ wq = id :: wq'.
Proof. destruct wq; cbn; intros E; injection E as <- <-; auto. Qed.

(** The counts over a release. *)
Lemma release_holds x d p t id d' x' :
  ginv (mkGsys x d p) → is_cpu t → (p t = In ∨ owned = false ∧ p t = Out) → g_release d = (id, d') → owned = true →
  Z.of_nat (total (holds (mkGsys x' d' (fset t Out p)))) + g_permits d' ≤ N.
Proof.
  intros G Hs Hp Hrel Ho. destruct (g_release_ok _ _ _ Hrel) as (_ & _ & Hpm). pose proof (gi_count _ G Ho) as G8. cbn [gd] in G8.
  destruct Hp as [Hp|[? _]]; [|congruence]. pose proof (holds_set x d p x' d' t Out Hs) as Hh. rewrite decide_False in Hh by done.
  assert (holds (mkGsys x d p) t = 1%nat) by (unfold holds; cbn [gp]; by rewrite Hp).
  pose proof (total_ge (holds (mkGsys x d p)) t Hs). rewrite Hpm; lia.
Qed.

Lemma release_woken x d p x' d' t id :
  is_cpu t → is_cpu id → p t ≠ Parked → p id = Parked → g_wq d = id :: g_wq d' → (id ∉ g_wq d') →
  total (woken (mkGsys x' d' (fset t Out p))) = S (total (woken (mkGsys x d p))).
Proof.
  intros Ht Hid Hp Hpid Hwq Hnin. assert (Hne : id ≠ t) by congruence.
  pose proof (total_upd (woken (mkGsys x d p)) (woken (mkGsys x' d' (fset t Out p))) id Hid) as Hw.
  assert (H1 : woken (mkGsys x d p) id = 0%nat) by (unfold woken; cbn [gp gd]; rewrite (bool_decide_false (id ∉ _)) by (rewrite Hwq; set_solver); by rewrite andb_false_r).
  assert (H2 : woken (mkGsys x' d' (fset t Out p)) id = 1%nat) by (unfold woken; cbn [gp gd]; rewrite place_set, decide_False by done; by rewrite Hpid, bool_decide_true, bool_decide_true).
  rewrite H1, H2 in Hw. rewrite Nat.add_0_r, Nat.add_1_r in Hw. apply Hw. intros j _ Hj. unfold woken. cbn [gp gd]. rewrite place_set.
  case_decide as E; [subst j; rewrite (bool_decide_false (p t = Parked)) by done; done|].
  by rewrite (bool_decide_ext (j ∉ g_wq d') (j ∉ g_wq d)) by (rewrite Hwq; set_solver).
Qed.

Lemma release_ginv x d p c t id d' :
  ginv (mkGsys x d p) → unlocked x → running_on_cpu c t x → (p t = In ∨ owned = false ∧ p t = Out) → g_release d = (id, d') →
  ginv (mkGsys (wake_begin id x) d' (fset t Out p)).
Proof.
  intros G Hu Hr Hp Hrel. pose proof G as [G1 G2 G3 G4 G5 G6 G7 G8 G9]. cbn [gx gd gp] in *.
  destruct (runs_slot x _ t G1 Hr) as (Hs & _). destruct (g_release_ok _ _ _ Hrel) as (Hdq & Hle & _).
  assert (Hpt : p t ≠ Parked) by (by destruct Hp as [->|[_ ->]]).
  destruct (wait_dequeue_cases _ _ _ Hdq) as [(Hn & -> & Hn')|Hq].
  - constructor; cbn [gx gd gp]; rewrite ?Hn'; try done; try (by intros j ?%elem_of_nil).
    + constructor.
    + intros j. rewrite place_set. case_decide as E; [by subst|by apply G4].
    + intros j. rewrite place_set. case_decide as E; [done|]. intros Hpj _. apply G5; [done|]. rewrite Hn. by intros ?%elem_of_nil.
    + intros Hk j. rewrite place_set. case_decide; [done|by apply G7].
    + intros Ho. by eapply (release_holds x d p t (-1)).
  - assert (Hin : id ∈ g_wq d) by (rewrite Hq; by left). pose proof (G3 id Hin) as Hpid.
    assert (Hid : is_cpu id) by (apply G4; by rewrite Hpid). rewrite Hq in G2. apply NoDup_cons in G2 as [Hnin Hnd].
    destruct (wake_begin_ok id x G1 Hu) as (I' & Haw & Hoth); [unfold is_cpu, SMP_MAX_CPUS, MAX_TASKS in *; lia|].
    assert (Hsub : ∀ j, j ∈ g_wq d' → j ∈ g_wq d ∧ j ≠ id) by (intros j Hj; rewrite Hq; split; [by right|congruence]).
    assert (Hkp : ∀ j, p j = Parked → kills = false → kill_pending (tasks (sc (wake_begin id x)) j) = false ∧ alive (tasks (sc (wake_begin id x)) j) = true).
    { intros j Hpj Hk. destruct (decide (j = id)) as [->|Hne]; [|rewrite Hoth by done; by apply G7]. by apply wake_begin_kill, G7. }
    constructor; cbn [gx gd gp]; try done.
    + intros j Hj. destruct (Hsub j Hj) as [Hj' _]. rewrite place_set, decide_False; [by apply G3|]. intros ->. by specialize (G3 t Hj').
    + intros j. rewrite place_set. case_decide as E; [by subst|by apply G4].
    + intros j. rewrite place_set. case_decide as E; [done|]. intros Hpj Hj. destruct (decide (j = id)) as [->|Hne]; [done|].
      rewrite Hoth by done. apply G5; [done|]. rewrite Hq. by apply not_elem_of_cons.
    + intros j [Hj Hne]%Hsub. rewrite Hoth by done. by apply G6.
    + intros Hk j. rewrite place_set. case_decide; [done|]. intros. by apply Hkp.
    + intros Ho. by eapply (release_holds x d p t id).
    + intros Hk _. rewrite (release_woken x d p _ d' t id) by done. specialize (G9 Hk). rewrite Hq in G9. specialize (G9 ltac:(done)). lia.
Qed.

Lemma reuse_ginv x d p t : ginv (mkGsys x d p) → alive (tasks (sc x) t) = false → (t ∉ g_wq d) → ginv (mkGsys x d (fset t Out p)).
Proof.
  intros G Ha Hnin. pose proof G as [G1 G2 G3 G4 G5 G6 G7 G8 G9]. cbn [gx gd gp] in *.
  constructor; cbn [gx gd gp]; try done.
  - intros j Hj. rewrite place_set, decide_False; [by apply G3|]. by intros ->.
  - intros j. rewrite place_set. case_decide as E; [by subst|by apply G4].
  - intros j. rewrite place_set. case_decide as E; [done|]. apply G5.
  - intros Hk j. rewrite place_set. case_decide; [done|by apply G7].
  - intros Ho. specialize (G8 Ho). assert (Hle : (total (holds (mkGsys x d (fset t Out p))) ≤ total (holds (mkGsys x d p)))%nat); [|lia].
    apply total_le. intros j. unfold holds. cbn [gp]. rewrite place_set. case_decide; [|done].
    rewrite (bool_decide_false (Out = In)) by done. lia.
  - intros Hk Hne. rewrite (G9 Hk Hne). apply Nat2Z.inj_le, total_le. intros j. unfold woken. cbn [gp gd]. rewrite place_set.
    case_decide; [subst j|done]. rewrite (bool_decide_false (p t = Parked)); [done|]. intros Hp. destruct (G7 Hk t Hp). congruence.
Qed.

Lemma env_ginv x d p y :
  ginv (mkGsys x d p) → sstep true x y → (∀ t, p t = Parked → keeps_parked kills (tasks (sc x) t) (tasks (sc y) t)) →
  ginv (mkGsys y d p).
Proof.
  intros [G1 G2 G3 G4 G5 G6 G7 G8 G9] Hst Hk. cbn [gx gd gp] in *. constructor; cbn [gx gd gp]; try done.
  - by apply (sstep_inv x y).
  - intros t Hp Hnin. destruct (Hk t Hp) as (K1 & _). by apply K1, G5.
  - intros t Hin. destruct (Hk t (G3 t Hin)) as (_ & K2 & K3 & _). destruct (G6 t Hin) as [E|E]; [|right; by apply K3].
    destruct K2 as [?|[?|?]]; [by left|congruence|by right].
  - intros Hkl t Hp. destruct (Hk t Hp) as (_ & _ & _ & K4). by apply K4, G7.
Qed.

Lemma gstep_ginv g g' : ginv g → gstep owned kills g g' → ginv g'.
Proof.
  intros G Hst. destruct Hst; [by eapply turn_ginv|by eapply killed_ginv|by eapply release_ginv|by eapply reuse_ginv|by eapply env_ginv].
Qed.

Lemma greach_ginv g g' : ginv g → rtc (gstep owned kills) g g' → ginv g'.
Proof. intros G Hr. induction Hr as [|g1 g2 g3 Hst _ IH]; [done|]. by apply IH, (gstep_ginv g1). Qed.
End Invariant.

(** A gate that nobody uses yet. *)
Lemma gate_start {D} `{GateLaws D} owned kills N x d :
  inv x → g_wq d = [] → g_permits d ≤ N → ginv owned kills N (mkGsys x d (λ _, Out)).
Proof.
  intros I Hwq Hp. constructor; cbn [gx gd gp]; rewrite ?Hwq; try done; try (by intros t ?%elem_of_nil).
  constructor.
Qed.

(** ** Runs as data *)
Inductive gmove := GEnv (m : move) | GTurn (e : env) (t : Z) | GKilled (c t : Z) | GRelease (c t : Z) | GReuse (t : Z).

Definition runningb (c t : Z) x : bool :=
  cpub c && (t =? cpu_current_task (sc x) c) && (0 <=? t) && is_state RUNNING t (sc x).

Definition placeb (p : Z → place) (t : Z) (v : place) : bool := bool_decide (p t = v).

Definition keepsb (kills : bool) (t t' : task) : bool :=
  implb (negb (asleep t)) (negb (asleep t')) && (asleep t' || negb (asleep t) || kill_pending t') &&
  implb (kill_pending t) (kill_pending t') &&
  implb (negb kills && negb (kill_pending t) && alive t) (negb (kill_pending t') && alive t').

Definition keeps_all (kills : bool) (p : Z → place) s s' : bool :=
  forallb (λ t, implb (placeb p t Parked) (keepsb kills (tasks s t) (tasks s' t))) (seqZ 0 16).

Definition gexec {D} `{Gate D} (owned kills : bool) (g : gsys D) (m : gmove) : option (gsys D) :=
  let '(mkGsys x d p) := g in
  match m with
  | GEnv m =>
      match exec true x m with
      | Some y => if keeps_all kills p (sc x) (sc y) then Some (mkGsys y d p) else None
      | None => None
      end
  | GTurn e t =>
      if unlockedb x && runningb (e_cpu e) t x && (placeb p t Out || placeb p t Parked && (negb (kill_pending (tasks (sc x) t)) || bool_decide (t ∉ g_wq d))) then
        let '(o, d', s1) := g_turn e d (sc x) in Some (mkGsys (mkSys s1 (hands x)) d' (fset t (after_turn o) p)) else None
  | GKilled c t =>
      if runningb c t x && placeb p t Parked then
        match wait_block_end t false (g_wq d) (sc x) with
        | (WExit, wq) => Some (mkGsys x (g_set_wq wq d) (fset t Gone p))
        | _ => None
        end else None
  | GRelease c t =>
      if unlockedb x && runningb c t x && (placeb p t In || negb owned && placeb p t Out) then
        let '(id, d') := g_release d in Some (mkGsys (wake_begin id x) d' (fset t Out p)) else None
  | GReuse t =>
      if negb (alive (tasks (sc x) t)) && bool_decide (t ∉ g_wq d) then Some (mkGsys x d (fset t Out p)) else None
  end.

Definition gexecs {D} `{Gate D} (owned kills : bool) (g : gsys D) (ms : list gmove) : option (gsys D) :=
  foldl (λ o m, o ≫= λ g, gexec owned kills g m) (Some g) ms.

Lemma runningb_ok c t x : runningb c t x = true → running_on_cpu c t x.
Proof.
  unfold runningb, running_on_cpu. intros (((Hc%cpub_ok & Ht%Z.eqb_eq)%andb_prop & H0%Z.leb_le)%andb_prop & Hr%is_state_eq)%andb_prop. done.
Qed.

Lemma keepsb_ok kills t t' : keepsb kills t t' = true → keeps_parked kills t t'.
Proof.
  unfold keepsb, keeps_parked. destruct (asleep t), (asleep t'), (kill_pending t), (kill_pending t'), (alive t), (alive t'), kills;
    cbn; intros E; try discriminate E; split_and!; auto; intros; split_and?; auto; naive_solver.
Qed.

Section Runs.
Context {D : Type} `{GateLaws D} (owned kills : bool) (N : Z).
Hypothesis HN : N ≤ g_max.

Lemma gexec_ok (g g' : gsys D) m : ginv owned kills N g → gexec owned kills g m = Some g' → gstep owned kills g g'.
Proof.
  intros G. destruct g as [x d p]. destruct m as [m|e t|c t|c t|t]; cbn [gexec].
  - destruct (exec true x m) as [y|] eqn:Em; [|done]. destruct (keeps_all kills p (sc x) (sc y)) eqn:Ek; [|done].
    intros E. injection E as <-. apply gs_env; [by apply (exec_ok true x m)|]. intros t Hp.
    assert (Hs : is_cpu t) by (apply (gi_slot _ _ _ _ G); cbn [gp]; by rewrite Hp). unfold keeps_all in Ek. rewrite forallb_forall in Ek.
    specialize (Ek t). unfold placeb in Ek. rewrite bool_decide_true in Ek by done. apply keepsb_ok, Ek, list_elem_of_In, elem_of_seqZ.
    unfold is_cpu, SMP_MAX_CPUS in Hs. lia.
  - destruct (unlockedb x && _ && _) eqn:Eb; [|done]. destruct (g_turn e d (sc x)) as [[o d'] s1] eqn:Et. intros E. injection E as <-.
    apply andb_prop in Eb as [[Hu%unlockedb_ok Hr%runningb_ok]%andb_prop Hp]. apply (gs_turn _ _ x d p e t); try done.
    apply orb_prop in Hp as [Hp%bool_decide_eq_true|[Hp%bool_decide_eq_true Hk]%andb_prop]; [by left|right].
    split; [done|]. apply orb_prop in Hk as [Hk%negb_true_iff|Hk%bool_decide_eq_true]; [by left|by right].
  - destruct (runningb c t x && _) eqn:Eb; [|done]. destruct (wait_block_end t false (g_wq d) (sc x)) as [[| | |] wq] eqn:Ew; try done.
    intros E. injection E as <-. apply andb_prop in Eb as [Hr%runningb_ok Hp%bool_decide_eq_true]. by apply (gs_killed _ _ x d p c t).
  - destruct (unlockedb x && _ && _) eqn:Eb; [|done]. destruct (g_release d) as [id d'] eqn:Er. intros E. injection E as <-.
    apply andb_prop in Eb as [[Hu%unlockedb_ok Hr%runningb_ok]%andb_prop Hp]. apply (gs_release _ _ x d p c t); try done.
    apply orb_prop in Hp as [Hp%bool_decide_eq_true|[Ho%negb_true_iff Hp%bool_decide_eq_true]%andb_prop]; [by left|by right].
  - destruct (negb _ && _) eqn:Eb; [|done]. intros E. injection E as <-.
    apply andb_prop in Eb as [Ha%negb_true_iff Hn%bool_decide_eq_true]. by apply gs_reuse.
Qed.

Lemma gexecs_ok ms (g g' : gsys D) : ginv owned kills N g → gexecs owned kills g ms = Some g' → rtc (gstep owned kills) g g'.
Proof.
  unfold gexecs. revert g. induction ms as [|m ms IH]; intros g G; cbn [foldl]; [intros E; by injection E as ->|].
  destruct (gexec owned kills g m) as [g1|] eqn:Em; cbn [mbind option_bind]; rewrite Em; cbn; intros E.
  - apply gexec_ok in Em; [|done]. eapply rtc_l; [done|]. apply IH; [|done]. by eapply gstep_ginv.
  - exfalso. clear -E. by induction ms.
Qed.
End Runs.

(** Program 1 runs on processor 1 and task 2 on processor 2; task 0 takes the mutex, and 1
    and 2 wait for it. *)
Definition at_cpu (c : Z) : env := mkEnv c 3 50.
Definition lock_moves : list gmove :=
  [GEnv (MUser 0 0x100000 0x5000); GEnv (MOn 0 (GPush 1 10)); GEnv (MPick 1 0x900000 20); GEnv (MOn 0 (GSwitch 20));
   GEnv (MCreate 0 0x200000); GEnv (MOn 0 (GPush 2 10)); GEnv (MPick 2 0xA00000 20); GEnv (MOn 0 (GSwitch 20));
   GTurn (at_cpu 0) 0; GTurn (at_cpu 1) 1; GTurn (at_cpu 2) 2].

(** Task 0 releases it. *)
Definition unlock_moves : list gmove := lock_moves ++ [GRelease 0 0].

(** Task 0 kills program 1, which has been woken. *)
Definition strand_moves : list gmove := unlock_moves ++ [GEnv (MKill 0 1); GKilled 1 1].

Definition lock_start : gsys mutex := mkGsys demo_start mutex_init (λ _, Out).

Lemma demo_inv : inv demo_start.
Proof. apply (reach_inv 4096 (λ _, []) (λ c, 65536 * (c + 1))); [done|apply rtc_refl]. Qed.

(** A run from [lock_start] with a test of the state it ends in. *)
Lemma lock_runs kills ms (f : gsys mutex → bool) :
  (gexecs true kills lock_start ms ≫= λ g, Some (f g)) = Some true → ∃ g, rtc (gstep true kills) lock_start g ∧ f g = true.
Proof.
  intros H. destruct (gexecs true kills lock_start ms) as [g|] eqn:E; [|done]. cbn [mbind option_bind] in H. exists g.
  split; [|by apply (inj Some) in H]. apply (gexecs_ok true kills 1) in E; [done|cbn; lia|]. apply gate_start; [exact demo_inv|reflexivity|cbn; lia].
Qed.

Definition stranded (g : gsys mutex) : bool :=
  (m_locked (gd g) =? 0) && bool_decide (2 ∈ m_wq (gd g)) && placeb (gp g) 2 Parked &&
  is_state BLOCKED 2 (sc (gx g)) && (total (holds g) =? 0)%nat && (total (woken g) =? 0)%nat.

Definition free_waited (g : gsys mutex) : bool := (m_locked (gd g) =? 0) && bool_decide (m_wq (gd g) ≠ []).

Lemma stranded_run : (gexecs true true lock_start strand_moves ≫= λ g, Some (stranded g)) = Some true.
Proof. reflexivity. Qed.

Lemma locked_run : (gexecs true true lock_start lock_moves ≫= λ g, Some (placeb (gp g) 0 In)) = Some true.
Proof. reflexivity. Qed.

Lemma free_waited_run : (gexecs true false lock_start unlock_moves ≫= λ g, Some (free_waited g)) = Some true.
Proof. reflexivity. Qed.

Lemma gate_wakes {D} `{GateLaws D} owned x d (g : gsys D) :
  inv x → g_wq d = [] → (owned = true → g_permits d ≤ g_max) → rtc (gstep owned false) (mkGsys x d (λ _, Out)) g →
  0 < g_permits (gd g) → g_wq (gd g) ≠ [] →
  ∃ t, is_cpu t ∧ gp g t = Parked ∧ (t ∉ g_wq (gd g)) ∧ (state (tasks (sc (gx g)) t) = READY ∨ state (tasks (sc (gx g)) t) = RUNNING) ∧
    kill_pending (tasks (sc (gx g)) t) = false.
Proof.
  intros I Hwq Hmax Hr Hp Hne. assert (G : ginv owned false (g_permits d) g).
  { destruct owned.
    - eapply (greach_ginv true false); [by apply Hmax|by apply (gate_start true false _ x d)|exact Hr].
    - assert (G : ginv false false g_max g).
      { eapply (greach_ginv false false); [done| |exact Hr]. destruct (gate_start false false (g_permits d) x d I Hwq) as []; [done|]. by constructor. }
      destruct G. by constructor. }
  pose proof (gi_wake _ _ _ _ G eq_refl Hne) as Hw. destruct (total_pos (woken g)) as (t & Ht & Hwt); [lia|].
  unfold woken in Hwt. destruct (bool_decide_reflect (gp g t = Parked)) as [Hpt|]; [|cbn in Hwt; lia].
  destruct (bool_decide_reflect (t ∉ g_wq (gd g))) as [Hnin|]; [|cbn in Hwt; lia].
  exists t. destruct (gi_kill _ _ _ _ G eq_refl t Hpt) as [Hk Ha]. pose proof (gi_awake _ _ _ _ G t Hpt Hnin) as Has.
  split_and!; try done. unfold alive, asleep in *. destruct (state (tasks (sc (gx g)) t)); auto; done.
Qed.

(** ** The properties *)

(** C12: a mutex excludes: with all interleavings of the scheduler, with tasks killed
    while they wait, and as long as only its holder unlocks it, two tasks never hold it,
    and it is locked while a task holds it. *)
Theorem mutex_excludes cr3 img tops x kills (g : gsys mutex) t t' :
  cr3 ≠ PHYS_NULL → rtc (sstep true) (booted cr3 img tops) x → rtc (gstep true kills) (mkGsys x mutex_init (λ _, Out)) g →
  gp g t = In → m_locked (gd g) ≠ 0 ∧ (gp g t' = In → t' = t).
Proof.
  intros Hcr Hx Hg Ht. pose proof (reach_inv cr3 img tops x Hcr Hx) as I.
  assert (G : ginv true kills 1 g) by (eapply (greach_ginv true kills); [|by apply (gate_start true kills 1 x mutex_init)|exact Hg]; cbn; lia).
  pose proof (gi_count _ _ _ _ G eq_refl) as Hc. assert (Hone : ∀ j, gp g j = In → is_cpu j ∧ holds g j = 1%nat).
  { intros j Hj. split; [apply (gi_slot _ _ _ _ G); by rewrite Hj|]. unfold holds. by rewrite Hj. }
  destruct (Hone t Ht) as [Hs Hh]. pose proof (total_ge (holds g) t Hs) as Hge. cbn [g_permits mutex_gate] in Hc. split.
  - destruct (Z.eqb_spec (m_locked (gd g)) 0); lia.
  - intros Ht'. destruct (Hone t' Ht') as [Hs' Hh']. destruct (decide (t' = t)) as [|Hne]; [done|exfalso].
    pose proof (total_two (holds g) t' t Hs' Hs Hne). destruct (m_locked (gd g) =? 0); lia.
Qed.

(** C13: no wakeup of a mutex or of a semaphore is lost while waiting tasks are not killed:
    whenever tasks are in the queue and the object is free, some task that waited has been
    taken off the queue, is ready or runs, and will look at the object again.  The
    semaphore is posted by any task. *)
Theorem gates_no_lost_wakeup cr3 img tops x :
  cr3 ≠ PHYS_NULL → rtc (sstep true) (booted cr3 img tops) x →
  (∀ g : gsys mutex, rtc (gstep true false) (mkGsys x mutex_init (λ _, Out)) g → m_locked (gd g) = 0 → m_wq (gd g) ≠ [] →
    ∃ t, gp g t = Parked ∧ (t ∉ m_wq (gd g)) ∧ (state (tasks (sc (gx g)) t) = READY ∨ state (tasks (sc (gx g)) t) = RUNNING)) ∧
  (∀ n (g : gsys semaphore), rtc (gstep false false) (mkGsys x (semaphore_init n) (λ _, Out)) g → 0 < s_count (gd g) → s_wq (gd g) ≠ [] →
    ∃ t, gp g t = Parked ∧ (t ∉ s_wq (gd g)) ∧ (state (tasks (sc (gx g)) t) = READY ∨ state (tasks (sc (gx g)) t) = RUNNING)).
Proof.
  intros Hcr Hx. pose proof (reach_inv cr3 img tops x Hcr Hx) as I. split.
  - intros g Hr Hl Hne. destruct (gate_wakes true x mutex_init g I) as (t & _ & ? & ? & ? & _); try done; [|by exists t].
    cbn. by rewrite Hl.
  - intros n g Hr Hp Hne. destruct (gate_wakes false x (semaphore_init n) g I) as (t & _ & ? & ? & ? & _); try done. by exists t.
Qed.

(** C24: a kill can take a wakeup with it: a program that has been woken for a mutex and
    is killed before it looks again exits without waking another waiter.  Then the mutex
    is free and nobody holds it, a task sleeps in its queue, and no task has been woken. *)
Theorem killed_waiter_strands :
  ∃ g t, rtc (gstep true true) lock_start g ∧ m_locked (gd g) = 0 ∧ t ∈ m_wq (gd g) ∧ gp g t = Parked ∧ state (tasks (sc (gx g)) t) = BLOCKED ∧
    total (holds g) = 0%nat ∧ total (woken g) = 0%nat.
Proof.
  destruct (lock_runs true strand_moves stranded stranded_run) as (g & Hr & Hf). unfold stranded in Hf.
  repeat (apply andb_prop in Hf as [Hf ?]). exists g, 2. split; [exact Hr|].
  split_and!; [by apply Z.eqb_eq|by eapply bool_decide_eq_true|by eapply bool_decide_eq_true|by apply is_state_eq|by apply Nat.eqb_eq|by apply Nat.eqb_eq].
Qed.

(** ** Witnesses *)
Lemma mutex_excludes_witness : ∃ g, gp g 0 = In ∧ m_locked (gd g) ≠ 0 ∧ (gp g 1 = In → 1 = 0).
Proof.
  destruct (lock_runs true lock_moves (λ g, placeb (gp g) 0 In) locked_run) as (g & Hr & Hf). apply bool_decide_eq_true in Hf.
  exists g. split; [exact Hf|]. apply (mutex_excludes 4096 (λ _, []) (λ c, 65536 * (c + 1)) demo_start true g 0 1); [unfold PHYS_NULL; lia|apply rtc_refl|exact Hr|exact Hf].
Defined.

Lemma gates_no_lost_wakeup_witness :
  ∃ (g : gsys mutex) t, m_locked (gd g) = 0 ∧ m_wq (gd g) ≠ [] ∧ gp g t = Parked ∧ (t ∉ m_wq (gd g)) ∧
    (state (tasks (sc (gx g)) t) = READY ∨ state (tasks (sc (gx g)) t) = RUNNING).
Proof.
  destruct (lock_runs false unlock_moves free_waited free_waited_run) as (g & Hr & Hf). unfold free_waited in Hf.
  apply andb_prop in Hf as [Hl Hw]. apply Z.eqb_eq in Hl. apply bool_decide_eq_true in Hw.
  destruct (proj1 (gates_no_lost_wakeup 4096 (λ _, []) (λ c, 65536 * (c + 1)) demo_start ltac:(unfold PHYS_NULL; lia) (rtc_refl _ _)) g Hr Hl Hw) as (t & H1 & H2 & H3).
  exists g, t. split; [exact Hl|]. split; [exact Hw|]. split; [exact H1|]. split; [exact H2|exact H3].
Defined.
