(* ===== verification/Shm.v ===== *)
(** [kernel/mm/kz_shm.c]: surfaces in memory that tasks share, with the checks of
    [include/kz_surface.h] it uses.

    A surface has a slot, which gives its address in every task that maps it.  A function
    that drops [g_shm_lock] on its way is split there; the loops between two sections run
    on the caller's page tables and on frames of the surface.  The arrays of mappings and
    of references are the lists of their entries.  Whether [kmalloc] finds memory for the
    array of frames is an argument. *)

From S2P Require Import Prelude Bitmap Pmm Paging RunQueue.

(** ** Constants *)
Definition KZ_OK : Z := 0.
Definition KZ_EINVAL : Z := -1.
Definition KZ_ENOMEM : Z := -2.
Definition KZ_EBUSY : Z := -4.
Definition KZ_ERANGE : Z := -5.
Definition KZ_ESTALE : Z := -6.
Definition KZ_EACCES : Z := -8.
Definition KZ_FMT_XRGB8888 : Z := 0.
Definition KZ_FMT_ARGB8888 : Z := 1.
Definition KZ_USAGE_CPU_READ : Z := 1.
Definition KZ_USAGE_CPU_WRITE : Z := 2.
Definition KZ_SURFACE_MAX_DIM : Z := 8192.
Definition KZ_SURFACE_MAX_BYTES : Z := 268435456.
Definition KZ_SHM_MAX_PAGES : Z := 2048.
Definition KZ_SHM_PAGE_SIZE : Z := 4096.
Definition KZ_SHM_MAX_MAPS : Z := 32.
Definition KZ_SHM_MAX_REFS : Z := 32.
Definition KZ_SHM_MAP_WRITE : Z := 1.
Definition KZ_SHM_STAT_VER : Z := 1.
Definition KZ_SHM_STATE_ACTIVE : Z := 1.
Definition KZ_SHM_STATE_PUBLISHED : Z := 2.
Definition KZ_SHM_RIGHT_READ : Z := 1.
Definition KZ_SHM_RIGHT_WRITE : Z := 2.

(** ** Surfaces *)
Definition kz_surface_bytes (w h : Z) : Z :=
  let px := u64 (w * h) in
  if negb (w =? 0) && negb (px / w =? h) then 0 else
  let bytes := u64 (px * 4) in
  if negb (px =? 0) && negb (bytes / px =? 4) then 0 else bytes.

Record kz_surface_desc := mkDesc { d_width : Z; d_height : Z; d_stride_px : Z; d_format : Z; d_size_bytes : Z; d_usage : Z }.

Definition kz_surface_validate (d : kz_surface_desc) : Z :=
  if (d_width d =? 0) || (d_height d =? 0) then KZ_EINVAL else
  if (KZ_SURFACE_MAX_DIM <? d_width d) || (KZ_SURFACE_MAX_DIM <? d_height d) then KZ_EINVAL else
  if negb (d_format d =? KZ_FMT_XRGB8888) && negb (d_format d =? KZ_FMT_ARGB8888) then KZ_EINVAL else
  if d_usage d =? 0 then KZ_EINVAL else
  if d_stride_px d <? d_width d then KZ_EINVAL else
  if u32 (KZ_SURFACE_MAX_DIM * 2) <? d_stride_px d then KZ_EINVAL else
  let need := u64 (u64 (d_stride_px d * d_height d) * 4) in
  if negb (d_height d =? 0) && negb (need / d_height d / 4 =? d_stride_px d) then KZ_ERANGE else
  if KZ_SURFACE_MAX_BYTES <? need then KZ_EINVAL else
  if d_size_bytes d <? need then KZ_EINVAL else KZ_OK.

(** ** Handles and addresses *)
Definition kz_shm_handle (gen idx : Z) : Z := Z.lor (u64 (Z.shiftl gen 32)) idx.
Definition kz_shm_idx (h : Z) : Z := u32 (Z.land h 0xFFFFFFFF).
Definition kz_shm_gen (h : Z) : Z := u32 (Z.shiftr h 32).
Definition kz_shm_slot_va (idx : Z) : Z := KZ_SHM_BASE + idx * KZ_SHM_SLOT_SIZE.

(** ** Slots *)
Record slot := mkSlot {
  used : bool; published : bool; destroyed : bool; creating : bool; generation : Z; sowner : Z;
  width : Z; height : Z; stride : Z; format : Z; npages : Z; pages : option (list Z);
  maps : list Z; refs : list Z; damage : Z * Z * Z * Z
}.

Record shm := mkShm { g_shm : Z → slot; g_shm_gen : Z }.

Implicit Types (s : slot) (x : shm) (t : vmm) (ps : list Z).

Definition set_slot (i : Z) (v : slot) x : shm := mkShm (fset i v (g_shm x)) (g_shm_gen x).

Definition with_maps (l : list Z) s : slot :=
  mkSlot (used s) (published s) (destroyed s) (creating s) (generation s) (sowner s) (width s) (height s) (stride s) (format s)
    (npages s) (pages s) l (refs s) (damage s).
Definition with_refs (l : list Z) s : slot :=
  mkSlot (used s) (published s) (destroyed s) (creating s) (generation s) (sowner s) (width s) (height s) (stride s) (format s)
    (npages s) (pages s) (maps s) l (damage s).
Definition with_destroyed s : slot :=
  mkSlot (used s) (published s) true (creating s) (generation s) (sowner s) (width s) (height s) (stride s) (format s)
    (npages s) (pages s) (maps s) (refs s) (damage s).

Definition shm_flags (write : bool) : Z :=
  let f := Z.lor (Z.lor PAGING_PRESENT PAGING_USER) PAGING_NX in if write then Z.lor f PAGING_WRITABLE else f.

Definition has_task (l : list Z) (task : Z) : bool := existsb (Z.eqb task) l.

(** Deleting moves the last entry into the gap. *)
Fixpoint index_of (l : list Z) (task : Z) : option Z :=
  match l with
  | [] => None
  | a :: l => if a =? task then Some 0 else (λ i, i + 1) <$> index_of l task
  end.
Definition del_task (l : list Z) (task : Z) : list Z :=
  match index_of l task with Some i => fill_gap i l | None => l end.

Definition has_map s (task : Z) : bool := has_task (maps s) task.
Definition add_map s (task : Z) : option slot :=
  if KZ_SHM_MAX_MAPS <=? zlength (maps s) then None else Some (with_maps (maps s ++ [task]) s).
Definition del_map s (task : Z) : slot := with_maps (del_task (maps s) task) s.
Definition has_ref s (task : Z) : bool := has_task (refs s) task.
Definition add_ref s (task : Z) : option slot :=
  if KZ_SHM_MAX_REFS <=? zlength (refs s) then None else Some (with_refs (refs s ++ [task]) s).
Definition del_ref s (task : Z) : slot := with_refs (del_task (refs s) task) s.

(** Giving frames back. *)
Definition free_frames ps t : vmm := foldl (λ t p, if p =? 0 then t else free_frame p t) t ps.

Definition free_pages s t : slot * vmm :=
  match pages s with
  | None => (s, t)
  | Some ps =>
      (mkSlot (used s) (published s) (destroyed s) (creating s) (generation s) (sowner s) (width s) (height s) (stride s) (format s)
         0 None (maps s) (refs s) (damage s), free_frames (take (Z.to_nat (npages s)) ps) t)
  end.

Definition maybe_free s t : slot * vmm :=
  if destroyed s && (zlength (maps s) =? 0) && (zlength (refs s) =? 0) && negb (creating s) then
    let '(s, t) := free_pages s t in
    let g := u32 (generation s + 1) in
    (mkSlot false false false (creating s) (if g =? 0 then 1 else g) (sowner s) (width s) (height s) (stride s) (format s)
       (npages s) (pages s) (maps s) (refs s) (damage s), t)
  else (s, t).

(** [maybe_free] on a slot of the table. *)
Definition retire (i : Z) (v : slot) x t : shm * vmm := let '(v, t) := maybe_free v t in (set_slot i v x, t).

(** The status of a failure, or the slot. *)
Definition lookup_unmap (h : Z) x : Z + Z :=
  let i := kz_shm_idx h in let g := kz_shm_gen h in
  if (g =? 0) || (KZ_SHM_MAX_RES <=? i) then inl KZ_EINVAL else
  if negb (used (g_shm x i)) || negb (generation (g_shm x i) =? g) then inl KZ_ESTALE else inr i.

Definition lookup (h : Z) x : Z + Z :=
  match lookup_unmap h x with
  | inr i => if destroyed (g_shm x i) then inl KZ_ESTALE else inr i
  | inl e => inl e
  end.

(** ** Creation *)

(** The checks, with the number of frames, and the first section, with the slot and its
    generation. *)
Definition create_check (task pml4 w h fmt : Z) : Z + Z :=
  if (task <? 0) || (pml4 =? PHYS_NULL) then inl KZ_EINVAL else
  if negb (fmt =? KZ_FMT_XRGB8888) && negb (fmt =? KZ_FMT_ARGB8888) then inl KZ_EINVAL else
  let need := kz_surface_bytes w h in
  if negb (kz_surface_validate (mkDesc w h w fmt need (Z.lor KZ_USAGE_CPU_READ KZ_USAGE_CPU_WRITE)) =? KZ_OK) then inl KZ_EINVAL else
  let n := u32 (u64 (need + KZ_SHM_PAGE_SIZE - 1) / KZ_SHM_PAGE_SIZE) in
  if (n =? 0) || (KZ_SHM_MAX_PAGES <? n) then inl KZ_EINVAL else inr n.

Definition unused_slot x : option Z :=
  match for_range 0 KZ_SHM_MAX_RES (λ i (_ : unit), if negb (used (g_shm x i)) then inl i else inr tt) tt with
  | inl i => Some i
  | inr _ => None
  end.

Definition create_begin (task : Z) x : option (Z * Z) * shm :=
  match unused_slot x with
  | None => (None, x)
  | Some idx =>
      let gen := if g_shm_gen x =? 0 then 1 else g_shm_gen x in
      let next := u32 (gen + 1) in
      let s := g_shm x idx in
      (Some (idx, gen),
       mkShm (fset idx (mkSlot true false false true gen task (width s) (height s) (stride s) (format s) (npages s) (pages s)
                          [] [] (damage s)) (g_shm x))
         (if next =? 0 then 1 else next))
  end.

(** The loop that takes frames and clears them. *)
Definition alloc_frames (n : Z) t : option (list Z) * vmm :=
  match for_range 0 n (λ _ '(ps, t),
          let '(p, ph) := pmm_alloc_page (frames t) in
          let t := set_frames ph t in
          if p =? PHYS_NULL then inl (foldl (λ t p, free_frame p t) t ps)
          else inr (ps ++ [p], set_mem (<[p := ∅]> (mem t)) t)) ([], t) with
  | inl t => (None, t)
  | inr (ps, t) => (Some ps, t)
  end.

(** The loop that maps the frames, with what it does when a mapping fails. *)
Definition unmap_loop (va n pml4 : Z) t : vmm :=
  for_each 0 n (λ j t, (vmm_unmap_page_from (va + j * 4096) pml4 t).2) t.

Definition map_loop (va : Z) ps (flags pml4 : Z) t : vmm + vmm :=
  match for_range 0 (zlength ps) (λ i t,
          let '(ok, t) := vmm_map_page_into (va + i * 4096) (lget ps i) flags pml4 t in
          if ok =? 0 then inl (i, t) else inr t) t with
  | inl (i, t) => inl (unmap_loop va i pml4 t)
  | inr t => inr t
  end.

(** What runs between the two sections: the frames, mapped, or nothing. *)
Definition create_middle (kmalloc_ok : bool) (idx n pml4 : Z) t : option (list Z) * vmm :=
  if negb kmalloc_ok then (None, t) else
  match alloc_frames n t with
  | (None, t) => (None, t)
  | (Some ps, t) =>
      match map_loop (kz_shm_slot_va idx) ps (shm_flags true) pml4 t with
      | inl t => (None, foldl (λ t p, free_frame p t) t ps)
      | inr t => (Some ps, t)
      end
  end.

Definition create_end (task idx w h fmt n : Z) ps x : shm :=
  let s := g_shm x idx in
  set_slot idx (mkSlot (used s) (published s) (destroyed s) false (generation s) (sowner s) w h w fmt n (Some ps)
    [task] (refs s) (damage s)) x.

Definition create_fail (idx : Z) x : shm :=
  let s := g_shm x idx in
  set_slot idx (mkSlot false (published s) (destroyed s) false (generation s) (sowner s) (width s) (height s) (stride s) (format s)
    (npages s) (pages s) (maps s) (refs s) (damage s)) x.

Definition kz_shm_create (kmalloc_ok : bool) (task pml4 w h fmt : Z) x t : Z * shm * vmm :=
  match create_check task pml4 w h fmt with
  | inl e => (e, x, t)
  | inr n =>
      match create_begin task x with
      | (None, x) => (KZ_EBUSY, x, t)
      | (Some (idx, gen), x) =>
          match create_middle kmalloc_ok idx n pml4 t with
          | (None, t) => (KZ_ENOMEM, create_fail idx x, t)
          | (Some ps, t) => (i64 (kz_shm_handle gen idx), create_end task idx w h fmt n ps x, t)
          end
      end
  end.

(** ** Mapping *)

(** How the first section ends: with the result, or with a slot to map. *)
Definition map_begin (task pml4 h flags : Z) x : (Z + Z) * shm :=
  if (task <? 0) || (pml4 =? PHYS_NULL) then (inl 0, x) else
  let write := negb (Z.land flags KZ_SHM_MAP_WRITE =? 0) in
  match lookup h x with
  | inl _ => (inl 0, x)
  | inr idx =>
      let s := g_shm x idx in
      if creating s then (inl 0, x) else
      if has_map s task then (inl (kz_shm_slot_va idx), x) else
      if negb (task =? sowner s) && (negb (published s) || write) then (inl 0, x) else
      match add_map s task with
      | None => (inl 0, x)
      | Some s => (inr idx, set_slot idx s x)
      end
  end.

Definition map_middle (task pml4 flags idx : Z) x t : vmm + vmm :=
  let s := g_shm x idx in
  let write := negb (Z.land flags KZ_SHM_MAP_WRITE =? 0) in
  map_loop (kz_shm_slot_va idx) (take (Z.to_nat (npages s)) (default [] (pages s)))
    (shm_flags ((task =? sowner s) && write)) pml4 t.

Definition map_fail (task idx : Z) x t : shm * vmm := retire idx (del_map (g_shm x idx) task) x t.

Definition kz_shm_map (task pml4 h flags : Z) x t : Z * shm * vmm :=
  match map_begin task pml4 h flags x with
  | (inl r, x) => (r, x, t)
  | (inr idx, x) =>
      match map_middle task pml4 flags idx x t with
      | inl t => let '(x, t) := map_fail task idx x t in (0, x, t)
      | inr t => (kz_shm_slot_va idx, x, t)
      end
  end.

(** ** Unmapping: the section, with the slot and the number of pages, and the loop. *)
Definition unmap_begin (task pml4 va : Z) x t : (Z + Z * Z) * shm * vmm :=
  if (task <? 0) || (pml4 =? PHYS_NULL) then (inl KZ_EINVAL, x, t) else
  if (va <? KZ_SHM_BASE) || (KZ_SHM_END <=? va) then (inl KZ_EINVAL, x, t) else
  if negb ((va - KZ_SHM_BASE) mod KZ_SHM_SLOT_SIZE =? 0) then (inl KZ_EINVAL, x, t) else
  let idx := u32 ((va - KZ_SHM_BASE) / KZ_SHM_SLOT_SIZE) in
  if KZ_SHM_MAX_RES <=? idx then (inl KZ_EINVAL, x, t) else
  match lookup_unmap (kz_shm_handle (generation (g_shm x idx)) idx) x with
  | inl _ => (inl KZ_EINVAL, x, t)
  | inr idx =>
      let s := g_shm x idx in
      if negb (has_map s task) then (inl KZ_EINVAL, x, t) else
      let '(x, t) := retire idx (del_map s task) x t in (inr (idx, npages s), x, t)
  end.

Definition kz_shm_unmap (task pml4 va : Z) x t : Z * shm * vmm :=
  match unmap_begin task pml4 va x t with
  | (inl e, x, t) => (e, x, t)
  | (inr (_, n), x, t) => (KZ_OK, x, unmap_loop va n pml4 t)
  end.

(** ** The operations that are one section *)
Definition kz_shm_publish (task h dx dy dw dh : Z) x : Z * shm :=
  match lookup h x with
  | inl e => (e, x)
  | inr idx =>
      let s := g_shm x idx in
      if negb (task =? sowner s) then (KZ_EACCES, x) else
      if (dw <? 0) || (dh <? 0) || (dx <? 0) || (dy <? 0) then (KZ_EINVAL, x) else
      if (width s <? u64 (dx + dw)) || (height s <? u64 (dy + dh)) then (KZ_EINVAL, x) else
      (KZ_OK, set_slot idx (mkSlot (used s) true (destroyed s) (creating s) (generation s) (sowner s) (width s) (height s)
         (stride s) (format s) (npages s) (pages s) (maps s) (refs s) (dx, dy, dw, dh)) x)
  end.

Definition kz_shm_destroy (task h : Z) x t : Z * shm * vmm :=
  match lookup h x with
  | inl e => (e, x, t)
  | inr idx =>
      let s := g_shm x idx in
      if negb (task =? sowner s) then (KZ_EACCES, x, t) else
      let '(x, t) := retire idx (with_destroyed s) x t in (KZ_OK, x, t)
  end.

(** [while (has_ref(..)) del_ref(..)]: each round drops one of the references. *)
Fixpoint drop_refs (fuel : nat) s (task : Z) : slot :=
  match fuel with
  | O => s
  | S fuel => if has_ref s task then drop_refs fuel (del_ref s task) task else s
  end.

Definition exit_slot (task i : Z) x t : shm * vmm :=
  let s := g_shm x i in
  if negb (used s) then (x, t) else
  let s := if has_map s task then del_map s task else s in
  let s := drop_refs (length (refs s)) s task in
  let s := if (sowner s =? task) && negb (destroyed s) then with_destroyed s else s in
  retire i s x t.

Definition kz_shm_task_exit (task : Z) x t : shm * vmm :=
  if task <? 0 then (x, t) else for_each 0 KZ_SHM_MAX_RES (λ i '(x, t), exit_slot task i x t) (x, t).

Record kz_shm_stat_t := mkStat {
  st_version : Z; st_width : Z; st_height : Z; st_stride : Z; st_format : Z; st_size_bytes : Z; st_generation : Z;
  st_owner : Z; st_rights : Z; st_state : Z; st_npages : Z
}.

Definition kz_shm_stat (task h : Z) x : Z + kz_shm_stat_t :=
  match lookup h x with
  | inl e => inl e
  | inr idx =>
      let s := g_shm x idx in
      if negb (task =? sowner s) && negb (published s) then inl KZ_EACCES else
      inr (mkStat KZ_SHM_STAT_VER (width s) (height s) (stride s) (format s) (u64 (u64 (stride s * height s) * 4)) (generation s)
             (u32 (sowner s)) (if task =? sowner s then Z.lor KZ_SHM_RIGHT_READ KZ_SHM_RIGHT_WRITE else KZ_SHM_RIGHT_READ)
             (if published s then KZ_SHM_STATE_PUBLISHED else KZ_SHM_STATE_ACTIVE) (npages s))
  end.

Definition kz_shm_acquire (task h : Z) x : Z * shm :=
  match lookup h x with
  | inl e => (e, x)
  | inr idx =>
      let s := g_shm x idx in
      if negb (task =? sowner s) && negb (published s) then (KZ_EACCES, x) else
      match add_ref s task with
      | None => (KZ_EBUSY, x)
      | Some s => (KZ_OK, set_slot idx s x)
      end
  end.

Definition kz_shm_release (task h : Z) x t : Z * shm * vmm :=
  match lookup_unmap h x with
  | inl e => (e, x, t)
  | inr idx =>
      let s := g_shm x idx in
      if negb (has_ref s task) then (KZ_EINVAL, x, t) else
      let '(x, t) := retire idx (del_ref s task) x t in (KZ_OK, x, t)
  end.

(** What [kz_shm_consume] hands out: frames, their number, stride, width, height, format. *)
Definition kz_shm_consume (task h : Z) x : (Z + (option (list Z) * Z * Z * Z * Z * Z)) * shm :=
  match kz_shm_acquire task h x with
  | (e, x) =>
      if negb (e =? KZ_OK) then (inl e, x) else
      let s := g_shm x (kz_shm_idx h) in (inr (pages s, npages s, stride s, width s, height s, format s), x)
  end.
