(* ===== verification/ShmWin.v ===== *)
(** What the loops of [Shm] do to page tables (definitions in [Paging] and [Shm]): the
    window for shared surfaces of an address space is a map from pages to entries, that
    mapping and unmapping update, and that all other operations of the virtual memory
    manager leave alone. *)

From S2P Require Import Prelude Bitmap Pmm RunQueue Paging PagingSpec PagingDestroy PagingIso PagingClone PagingSys PagingKept Shm.

Implicit Types (s : PagingSys.sys) (t : vmm) (ps : list Z).

(** ** Pages of the window *)

(** The address of page [k] of slot [i], and the slot and page of an address. *)
Definition page_va (i k : Z) : Z := kz_shm_slot_va i + k * 4096.
Definition in_window (i k : Z) : Prop := 0 ≤ i < KZ_SHM_MAX_RES ∧ 0 ≤ k < KZ_SHM_MAX_PAGES.
Definition va_slot (va : Z) : Z := (va - KZ_SHM_BASE) / KZ_SHM_SLOT_SIZE.
Definition va_page (va : Z) : Z := (va - KZ_SHM_BASE) mod KZ_SHM_SLOT_SIZE / 4096.

(** The entry of a page of the window. *)
Definition win t (r i k : Z) : option Z := translate t r (page_va i k).

Lemma page_va_shm i k : in_window i k → shm_va (page_va i k) ∧ page_va i k / 4096 = 0x50000 + i * 2048 + k.
Proof.
  unfold in_window, shm_va, page_va, kz_shm_slot_va, kz_shm_va_excluded, KZ_SHM_MAX_RES, KZ_SHM_MAX_PAGES.
  change KZ_SHM_BASE with 0x50000000. change KZ_SHM_SLOT_SIZE with 0x800000. change KZ_SHM_END with 0x58000000.
  intros [Hi Hk]. split; [|zdiv]. split; [lia|]. apply andb_true_intro. lia.
Qed.

Lemma shm_va_page va : shm_va va → in_window (va_slot va) (va_page va) ∧ indices va = indices (page_va (va_slot va) (va_page va)).
Proof.
  unfold shm_va, kz_shm_va_excluded, in_window, KZ_SHM_MAX_RES, KZ_SHM_MAX_PAGES, va_slot, va_page, page_va, kz_shm_slot_va.
  change KZ_SHM_BASE with 0x50000000. change KZ_SHM_SLOT_SIZE with 0x800000. change KZ_SHM_END with 0x58000000.
  intros [_ Hv]. apply andb_prop in Hv as [H1%Z.leb_le H2%Z.ltb_lt]. split; [split; zdiv|]. apply same_page. zdiv.
Qed.

Lemma page_va_inj i k i' k' : in_window i k → in_window i' k' → page_va i k / 4096 = page_va i' k' / 4096 → i = i' ∧ k = k'.
Proof.
  intros H H'. rewrite (proj2 (page_va_shm i k H)), (proj2 (page_va_shm i' k' H')). unfold in_window, KZ_SHM_MAX_PAGES in *. lia.
Qed.

Lemma shm_flags_ok w : 0 ≤ shm_flags w < 2 ^ 64 ∧ present (shm_flags w) = true.
Proof. by destruct w. Qed.

(** ** One operation *)

(** Two states with the same window in every address space. *)
Definition same_win s t' : Prop := ∀ r i k, r ∈ spaces s → in_window i k → win t' r i k = win (vm s) r i k.

(** The window of [r] with page [k] of slot [i] replaced. *)
Definition set_win s t' (r i k : Z) (e : option Z) : Prop :=
  ∀ r' i' k', r' ∈ spaces s → in_window i' k' →
    win t' r' i' k' = if bool_decide (r' = r ∧ i' = i ∧ k' = k) then e else win (vm s) r' i' k'.

Lemma place_other r r' va i k :
  in_window i k → 0 ≤ va < 2 ^ 47 → (r', page_va i k / 4096) ≠ (r, va / 4096) → place r' (page_va i k) ≠ place r va.
Proof.
  intros Hw Hva Hne Hp. destruct (page_va_shm i k Hw) as [[Hb _] _]. destruct (place_inj r' r _ va Hb Hva Hp). congruence.
Qed.

Lemma page_set_win tags s t' r i k e :
  (∀ r', r' ∈ spaces s → is_root tags r') → in_window i k → page_set tags (vm s) t' r (page_va i k) e → set_win s t' r i k e.
Proof.
  intros Hr Hw [Hs Ho] r' i' k' Hr' Hw'. case_bool_decide as E; [destruct E as (-> & -> & ->); exact Hs|].
  apply Ho; [by apply Hr|]. apply place_other; [done|by apply page_va_shm|]. intros Eq. injection Eq as -> Hva.
  apply E. split; [done|]. by apply page_va_inj.
Qed.

Section Ops.
Context (s : PagingSys.sys) (Hinv : sys_inv s).

Lemma map_one r i k f w :
  r ∈ spaces s → in_window i k → 0 ≤ f →
  let '(ok, t') := vmm_map_page_into (page_va i k) f (shm_flags w) r (vm s) in
  sys_inv (mkSys t' (held s) (spaces s)) ∧
  if ok =? 0 then same_win s t' else set_win s t' r i k (Some (new_entry f (shm_flags w))).
Proof.
  intros Hr Hw Hf. destruct Hinv as (tags & Hi & Hk & Hroots). destruct (space_root s tags Hi Hk Hroots r Hr) as (Hrr & _ & Hz).
  destruct (shm_flags_ok w) as [Hfl Hpr]. destruct (page_va_shm i k Hw) as [Hva _].
  pose proof (step_map_exempt s tags Hi Hk Hroots r (page_va i k) f (shm_flags w) Hrr Hz
    ltac:(right; right; destruct Hva; split; [lia|done]) Hf Hfl) as Hi'.
  unfold vmm_map_page_into in *. rewrite Hz in *.
  pose proof (map_at_ok tags (vm s) r (page_va i k) f (shm_flags w) (is_vm _ _ _ Hi) Hrr Hf Hfl Hpr) as Hm.
  assert (Hsp : ∀ r', r' ∈ spaces s → is_root tags r') by (intros r' Hr'; apply Hroots; by right).
  destruct (map_at r (page_va i k) f (shm_flags w) (vm s)) as [ok t']. split; [done|].
  destruct Hm as (tags' & _ & _ & _ & [(-> & Hset)|(-> & Hsame & _)]); cbn [Z.eqb].
  - by apply (page_set_win tags).
  - intros r' i' k' Hr' _. by apply Hsame, Hsp.
Qed.

Lemma unmap_one r i k :
  r ∈ spaces s → in_window i k →
  sys_inv (mkSys (vmm_unmap_page_from (page_va i k) r (vm s)).2 (held s) (spaces s)) ∧
  set_win s (vmm_unmap_page_from (page_va i k) r (vm s)).2 r i k None.
Proof.
  intros Hr Hw. destruct Hinv as (tags & Hi & Hk & Hroots). destruct (space_root s tags Hi Hk Hroots r Hr) as (Hrr & _ & Hz).
  split; [by apply (step_unmap_exempt s tags)|].
  assert (Hsp : ∀ r', r' ∈ spaces s → is_root tags r') by (intros r' Hr'; apply Hroots; by right).
  pose proof (unmap_page_spec tags (vm s) r (page_va i k) (is_vm _ _ _ Hi) Hrr) as Hu.
  destruct (vmm_unmap_page_from (page_va i k) r (vm s)) as [f t']. cbn [snd]. destruct Hu as [_ Hu].
  destruct (translate (vm s) r (page_va i k)) as [e|] eqn:E.
  - destruct Hu as [_ Hset]. by apply (page_set_win tags).
  - destruct Hu as [_ ->]. intros r' i' k' Hr' Hw'. case_bool_decide as Eq; [|done]. by destruct Eq as (-> & -> & ->).
Qed.

Lemma take_one :
  let '(p, ph) := pmm_alloc_page (frames (vm s)) in
  let t' := set_mem (<[p := ∅]> (mem (vm s))) (set_frames ph (vm s)) in
  p = PHYS_NULL ∧ set_frames ph (vm s) = vm s ∨
  p ≠ PHYS_NULL ∧ (p ∉ held s) ∧ sys_inv (mkSys t' ({[p]} ∪ held s) (spaces s)) ∧ same_win s t'.
Proof.
  destruct Hinv as (tags & Hi & Hk & Hroots). pose proof (pmm_take tags (vm s) (is_vm _ _ _ Hi)) as Hp.
  destruct (pmm_alloc_page (frames (vm s))) as [p ph]. cbv zeta.
  destruct Hp as [(-> & -> & _)|(Hnn & Hp)]; [left; split; [done|by destruct (vm s)]|right]. split; [done|].
  set (t' := set_mem _ _). destruct (Hp t') as [A Hfr]; try done.
  { intros f Hf. unfold page_of, t'. cbn [mem set_mem]. by rewrite lookup_insert_ne. }
  { intros j. unfold rd, page_of, t'. cbn [mem set_mem]. rewrite lookup_insert_eq. change (default ∅ (Some ∅)) with (∅ : gmap Z Z).
    rewrite lookup_empty. change (0 ≤ 0 < 2 ^ 64). lia. }
  destruct (fresh_iso tags (held s) (vm s) t' p Hi A Hfr) as [Hnh Hi']. split; [done|]. split; [by apply (keep_tags s tags)|].
  intros r i k Hr _. apply (gr_trans _ _ _ _ A), Hroots. by right.
Qed.

Lemma free_one f : f ∈ held s → sys_inv (mkSys (free_frame f (vm s)) (held s ∖ {[f]}) (spaces s)).
Proof. intros Hf. destruct Hinv as (tags & Hi & Hk & Hroots). apply (keep_tags s tags); try done. by apply iso_release. Qed.
End Ops.

Lemma free_frame_win f t r i k : win (free_frame f t) r i k = win t r i k.
Proof. reflexivity. Qed.

(** ** Loops *)

(** The first [n] pages of slot [i] in the window of [r] replaced. *)
Definition upto_win s t' (r i n : Z) (e : Z → option Z) : Prop :=
  ∀ r' i' k', r' ∈ spaces s → in_window i' k' →
    win t' r' i' k' = if bool_decide (r' = r ∧ i' = i ∧ k' < n) then e k' else win (vm s) r' i' k'.

Lemma upto_zero s r i e : upto_win s (vm s) r i 0 e.
Proof. intros r' i' k' _ [_ Hk]. by rewrite bool_decide_false by lia. Qed.

Lemma upto_step s t t' r i n e v :
  upto_win s t r i n e → set_win (mkSys t (held s) (spaces s)) t' r i n v → e n = v → upto_win s t' r i (n + 1) e.
Proof.
  intros Hu Hs <- r' i' k' Hr' Hw. rewrite (Hs r' i' k' Hr' Hw). cbn [vm]. rewrite (Hu r' i' k' Hr' Hw).
  destruct (decide (r' = r)) as [->|]; [|by rewrite !bool_decide_false by tauto].
  destruct (decide (i' = i)) as [->|]; [|by rewrite !bool_decide_false by tauto].
  destruct (decide (k' = n)) as [->|]; [by rewrite !bool_decide_true by (split_and!; lia || done)|].
  rewrite (bool_decide_false (r = r ∧ i = i ∧ k' = n)) by tauto.
  erewrite bool_decide_ext; [done|]. split; intros (_ & _ & ?); split_and!; done || lia.
Qed.

Lemma lget_nonneg ps k : Forall (λ f, 0 ≤ f) ps → 0 ≤ lget ps k.
Proof.
  intros H. unfold lget. destruct (ps !! Z.to_nat k) as [f|] eqn:E; cbn; [|lia]. by apply (Forall_lookup_1 _ _ _ _ H E).
Qed.

Lemma unmap_loop_ok s r i n :
  sys_inv s → r ∈ spaces s → 0 ≤ i < KZ_SHM_MAX_RES → 0 ≤ n ≤ KZ_SHM_MAX_PAGES →
  sys_inv (mkSys (unmap_loop (kz_shm_slot_va i) n r (vm s)) (held s) (spaces s)) ∧
  upto_win s (unmap_loop (kz_shm_slot_va i) n r (vm s)) r i n (λ _, None).
Proof.
  intros Hinv Hr Hi Hn. unfold unmap_loop.
  apply (for_each_upto (λ j t, sys_inv (mkSys t (held s) (spaces s)) ∧ upto_win s t r i j (λ _, None))); [lia| |].
  { split; [by destruct s|apply upto_zero]. }
  intros j t Hj [H1 H2]. destruct (unmap_one _ H1 r i j Hr) as [H3 H4]; [split; [done|lia]|].
  cbn [vm held spaces] in *. fold (page_va i j). split; [done|]. by eapply upto_step.
Qed.

Lemma map_loop_ok s r i ps w :
  sys_inv s → r ∈ spaces s → 0 ≤ i < KZ_SHM_MAX_RES → zlength ps ≤ KZ_SHM_MAX_PAGES → Forall (λ f, 0 ≤ f) ps →
  match map_loop (kz_shm_slot_va i) ps (shm_flags w) r (vm s) with
  | inr t' => sys_inv (mkSys t' (held s) (spaces s)) ∧
      upto_win s t' r i (zlength ps) (λ k, Some (new_entry (lget ps k) (shm_flags w)))
  | inl t' => sys_inv (mkSys t' (held s) (spaces s)) ∧ ∃ n, upto_win s t' r i n (λ _, None)
  end.
Proof.
  intros Hinv Hr Hi Hn Hps. unfold map_loop. set (e := λ k, Some (new_entry (lget ps k) (shm_flags w))).
  pose proof (for_range_rule (λ j t, sys_inv (mkSys t (held s) (spaces s)) ∧ upto_win s t r i j e)
    (λ '(j, t), 0 ≤ j < zlength ps ∧ sys_inv (mkSys t (held s) (spaces s)) ∧ upto_win s t r i j e) 0 (zlength ps)
    (λ j t, let '(ok, t) := vmm_map_page_into (kz_shm_slot_va i + j * 4096) (lget ps j) (shm_flags w) r t in
            if ok =? 0 then inl (j, t) else inr t) (vm s)) as Hl.
  lapply Hl; [clear Hl; intros Hl; lapply Hl; [clear Hl; intros Hl|]|].
  - destruct (for_range 0 (zlength ps) _ (vm s)) as [[j t]|t]; [|by rewrite (Z.max_r 0) in Hl by (unfold zlength; lia)].
    destruct Hl as (Hj & H1 & H2). destruct (unmap_loop_ok _ r i j H1 Hr Hi ltac:(lia)) as [H3 H4]. cbn [vm held spaces] in *.
    split; [done|]. exists j. intros r' i' k' Hr' Hw. rewrite (H4 r' i' k' Hr' Hw). cbn [vm]. rewrite (H2 r' i' k' Hr' Hw).
    by case_bool_decide.
  - intros j t Hj [H1 H2]. fold (page_va i j). pose proof (map_one _ H1 r i j (lget ps j) w Hr) as Hm. cbn [vm held spaces] in Hm.
    destruct (vmm_map_page_into (page_va i j) (lget ps j) (shm_flags w) r t) as [ok t1].
    destruct Hm as [H3 H4]; [split; [done|lia]|by apply lget_nonneg|]. destruct (ok =? 0).
    + split; [lia|]. split; [done|]. intros r' i' k' Hr' Hw. rewrite (H4 r' i' k' Hr' Hw). by apply H2.
    + split; [done|]. by eapply upto_step.
  - split; [by destruct s|apply upto_zero].
Qed.

(** Giving frames back. *)
Lemma free_list_ok ps s :
  sys_inv s → NoDup ps → (∀ f, f ∈ ps → f ∈ held s) →
  sys_inv (mkSys (foldl (λ t p, free_frame p t) (vm s) ps) (held s ∖ list_to_set ps) (spaces s)) ∧
  ∀ r i k, win (foldl (λ t p, free_frame p t) (vm s) ps) r i k = win (vm s) r i k.
Proof.
  revert s. induction ps as [|p ps IH]; intros s Hinv Hnd Hin; cbn [foldl list_to_set].
  { split; [|done]. by rewrite difference_empty_L; destruct s. }
  apply NoDup_cons in Hnd as [Hp Hnd]. pose proof (free_one s Hinv p (Hin p ltac:(by left))) as H1.
  destruct (IH _ H1 Hnd) as [H2 H3]; cbn [vm held spaces] in *.
  { intros f Hf. assert (f ≠ p) by congruence. specialize (Hin f). set_solver. }
  split; [|intros r i k; apply H3]. by rewrite difference_difference_l_L in H2.
Qed.

Lemma held_pos s f : sys_inv s → f ∈ held s → 0 < f < 2 ^ 52 ∧ f mod 4096 = 0 ∧ ¬ is_free (frames (vm s)) (f / PAGE_SIZE).
Proof.
  intros (tags & Hi & _) Hf. pose proof (is_held _ _ _ Hi f Hf) as Hu. pose proof (in_use_small _ _ _ _ Hi Hu).
  destruct Hu as (_ & [_ Hm] & _ & Hn). done.
Qed.

Lemma free_frames_eq ps t : Forall (λ f, 0 < f) ps → free_frames ps t = foldl (λ t p, free_frame p t) t ps.
Proof.
  intros H. revert t. unfold free_frames. induction H as [|p ps Hp _ IH]; intros t; [done|]. cbn [foldl].
  destruct (Z.eqb_spec p 0); [lia|]. apply IH.
Qed.

Lemma alloc_frames_ok n s :
  sys_inv s → 0 ≤ n →
  match alloc_frames n (vm s) with
  | (None, t') => sys_inv (mkSys t' (held s) (spaces s)) ∧ same_win s t'
  | (Some ps, t') => zlength ps = n ∧ NoDup ps ∧ (∀ f, f ∈ ps → f ∉ held s) ∧
      sys_inv (mkSys t' (list_to_set ps ∪ held s) (spaces s)) ∧ same_win s t'
  end.
Proof.
  intros Hinv Hn. unfold alloc_frames.
  set (I := λ j '(ps, t'), zlength ps = j ∧ NoDup ps ∧ (∀ f, f ∈ ps → f ∉ held s) ∧
      sys_inv (mkSys t' (list_to_set ps ∪ held s) (spaces s)) ∧ same_win s t').
  pose proof (for_range_rule I (λ t', sys_inv (mkSys t' (held s) (spaces s)) ∧ same_win s t') 0 n
    (λ _ '(ps, t), let '(p, ph) := pmm_alloc_page (frames t) in let t := set_frames ph t in
          if p =? PHYS_NULL then inl (foldl (λ t p, free_frame p t) t ps)
          else inr (ps ++ [p], set_mem (<[p := ∅]> (mem t)) t)) ([], vm s)) as Hl.
  lapply Hl; [clear Hl; intros Hl; lapply Hl; [clear Hl; intros Hl|]|].
  - destruct (for_range 0 n _ ([], vm s)) as [t|[ps t]]; [done|]. by rewrite (Z.max_r 0) in Hl by lia.
  - intros j [ps t] Hj (H1 & H2 & H3 & H4 & H5). pose proof (take_one _ H4) as Ht. cbn [vm held spaces] in Ht.
    destruct (pmm_alloc_page (frames t)) as [p ph]. cbv zeta in *. destruct Ht as [[-> ->]|(Hnn & Hnh & Hi' & Hw)].
    + rewrite Z.eqb_refl. destruct (free_list_ok ps _ H4 H2) as [F1 F2]; cbn [vm held spaces] in *; [set_solver|].
      replace ((list_to_set ps ∪ held s) ∖ list_to_set ps) with (held s) in F1 by (apply set_eq; intros f; specialize (H3 f); set_solver).
      split; [done|]. intros r i k Hr Hwn. rewrite F2. by apply H5.
    + destruct (Z.eqb_spec p PHYS_NULL); [done|]. split; [unfold zlength in *; rewrite length_app; cbn; lia|]. split_and!.
      * apply NoDup_app. split; [done|]. split; [|apply NoDup_singleton]. intros f Hf ->%list_elem_of_singleton. set_solver.
      * intros f [Hf| ->%list_elem_of_singleton]%elem_of_app; [by apply H3|set_solver].
      * replace (list_to_set (ps ++ [p]) ∪ held s) with ({[p]} ∪ (list_to_set ps ∪ held s)) by set_solver. done.
      * intros r i k Hr Hwn. rewrite <- (H5 r i k Hr Hwn). by apply Hw.
  - unfold I. split_and!; [done|constructor|set_solver| |done]. replace (list_to_set [] ∪ held s) with (held s) by set_solver. by destruct s.
Qed.

Lemma create_middle_ok ok s r i n :
  sys_inv s → r ∈ spaces s → 0 ≤ i < KZ_SHM_MAX_RES → 0 ≤ n ≤ KZ_SHM_MAX_PAGES →
  match create_middle ok i n r (vm s) with
  | (None, t') => sys_inv (mkSys t' (held s) (spaces s)) ∧ ∃ m, upto_win s t' r i m (λ _, None)
  | (Some ps, t') => zlength ps = n ∧ NoDup ps ∧ (∀ f, f ∈ ps → f ∉ held s) ∧
      sys_inv (mkSys t' (list_to_set ps ∪ held s) (spaces s)) ∧
      upto_win s t' r i n (λ k, Some (new_entry (lget ps k) (shm_flags true)))
  end.
Proof.
  intros Hinv Hr Hi Hn. unfold create_middle. destruct ok; cbn [negb]; [|split; [by destruct s|exists 0; apply upto_zero]].
  pose proof (alloc_frames_ok n s Hinv ltac:(lia)) as Ha. destruct (alloc_frames n (vm s)) as [[ps|] t1].
  2: { destruct Ha as [H1 H2]. split; [done|]. exists 0. intros r' i' k' Hr' Hw. rewrite bool_decide_false by (destruct Hw; lia). by apply H2. }
  destruct Ha as (Hl & Hnd & Hfr & H1 & H2).
  assert (Hpos : Forall (λ f, 0 ≤ f) ps).
  { apply Forall_forall. intros f Hf. destruct (held_pos _ f H1); [set_solver|lia]. }
  pose proof (map_loop_ok _ r i ps true H1 Hr Hi ltac:(lia) Hpos) as Hm. cbn [vm held spaces] in Hm.
  destruct (map_loop _ ps (shm_flags true) r t1) as [t2|t2].
  - destruct Hm as (H3 & m & H4). destruct (free_list_ok ps _ H3 Hnd) as [H5 H6]; cbn [vm held spaces] in *; [set_solver|].
    replace ((list_to_set ps ∪ held s) ∖ list_to_set ps) with (held s) in H5 by (apply set_eq; intros f; specialize (Hfr f); set_solver).
    split; [done|]. exists m. intros r' i' k' Hr' Hw. rewrite H6, (H4 r' i' k' Hr' Hw). cbn [vm]. by rewrite (H2 r' i' k' Hr' Hw).
  - destruct Hm as (H3 & H4). split_and!; try done. rewrite Hl in H4. intros r' i' k' Hr' Hw.
    rewrite (H4 r' i' k' Hr' Hw). cbn [vm]. by rewrite (H2 r' i' k' Hr' Hw).
Qed.

(** ** The other operations of the virtual memory manager *)

(** The steps of [PagingSys] that other parts of the kernel and programs make: they use
    addresses outside the window, do not use up frames that are [kept] for surfaces, and
    destroy no address space that a task [has]. *)
Inductive other_step (kept has : Z → Prop) : PagingSys.sys → PagingSys.sys → Prop :=
| o_take s p ph : pmm_alloc_page (frames (vm s)) = (p, ph) → p ≠ PHYS_NULL →
    other_step kept has s (mkSys (set_frames ph (vm s)) ({[p]} ∪ held s) (spaces s))
| o_free s f : f ∈ held s → ¬ kept f → other_step kept has s (mkSys (free_frame f (vm s)) (held s ∖ {[f]}) (spaces s))
| o_map s va f flags r res t' : r ∈ spaces s → user_va va → f ∈ held s → ¬ kept f → flags_ok flags →
    vmm_map_page_into va f flags r (vm s) = (res, t') →
    other_step kept has s (mkSys t' (if res =? 0 then held s else held s ∖ {[f]}) (spaces s))
| o_alloc s va flags r : r ∈ spaces s → user_va va → flags_ok flags →
    other_step kept has s (mkSys (vmm_alloc_page_into va flags r (vm s)).2 (held s) (spaces s))
| o_unmap s va r f t' : r ∈ spaces s → user_va va → vmm_unmap_page_from va r (vm s) = (f, t') →
    other_step kept has s (mkSys t' (if f =? PHYS_NULL then held s else {[f]} ∪ held s) (spaces s))
| o_protect s va flags r : r ∈ spaces s → user_va va → flags_ok flags →
    other_step kept has s (mkSys (vmm_protect_page_into va flags r (vm s)).2 (held s) (spaces s))
| o_kernel_map s va f flags : 0 ≤ f → 0 ≤ flags < 2 ^ 64 →
    other_step kept has s (mkSys (vmm_map_page_kernel va f flags (vm s)).2 (held s) (spaces s))
| o_kernel_alloc s va flags : flags_ok flags →
    other_step kept has s (mkSys (vmm_alloc_page_kernel va flags (vm s)).2 (held s) (spaces s))
| o_kernel_unmap s va : other_step kept has s (mkSys (vmm_unmap_page va (vm s)).2 (held s) (spaces s))
| o_create s p t' : vmm_create_address_space (vm s) = (p, t') →
    other_step kept has s (mkSys t' (held s) (if p =? PHYS_NULL then spaces s else {[p]} ∪ spaces s))
| o_clone s r p t' : r ∈ spaces s → vmm_clone_user_as r (vm s) = (p, t') →
    other_step kept has s (mkSys t' (held s) (if p =? PHYS_NULL then spaces s else {[p]} ∪ spaces s))
| o_destroy s r : r ∈ spaces s → ¬ has r →
    other_step kept has s (mkSys (vmm_destroy_task_as r (vm s)) (held s) (spaces s ∖ {[r]}))
| o_switch s r : r ∈ spaces s → other_step kept has s (mkSys (vmm_switch_pml4 r (vm s)) (held s) (spaces s))
| o_store s r va i v : r ∈ spaces s → user_va va → 0 ≤ v < 2 ^ 64 →
    other_step kept has s (mkSys (store r va i v (vm s)) (held s) (spaces s)).

Lemma other_sys kept has s s' : other_step kept has s s' → sys_step s s'.
Proof. intros H. destruct H; by econstructor. Qed.

(** The window after a step: as before, and empty in a new address space. *)
Definition win_kept s s' : Prop :=
  ∀ r i k, r ∈ spaces s' → in_window i k → win (vm s') r i k = if decide (r ∈ spaces s) then win (vm s) r i k else None.

Lemma win_kept_same s t' hs : (∀ r i k, r ∈ spaces s → in_window i k → win t' r i k = win (vm s) r i k) → win_kept s (mkSys t' hs (spaces s)).
Proof. intros H r i k Hr Hw. cbn [spaces vm] in *. rewrite decide_True by done. by apply H. Qed.

Section Other.
Context (s : PagingSys.sys) (tags : gmap Z tag) (Hi : iso tags (held s) (vm s)) (Hk : kernel_pml4_phys (vm s) ∉ spaces s)
  (Hr : ∀ r, is_root tags r ↔ r = kernel_pml4_phys (vm s) ∨ r ∈ spaces s).

Let root_of r : r ∈ spaces s → is_root tags r.
Proof. intros H. apply Hr. by right. Qed.

Lemma other_create p t' :
  vmm_create_address_space (vm s) = (p, t') → win_kept s (mkSys t' (held s) (if p =? PHYS_NULL then spaces s else {[p]} ∪ spaces s)).
Proof.
  intros He. pose proof (create_ok tags _ (is_vm _ _ _ Hi) (is_kroot _ _ _ Hi) (is_current _ _ _ Hi)) as Hc. rewrite He in Hc.
  destruct Hc as [(-> & A & _)|[Hnn C]].
  - apply win_kept_same. intros r i k Hs _. by apply (gr_trans _ _ _ _ A), root_of.
  - destruct (Z.eqb_spec p PHYS_NULL); [done|]. intros r i k Hs Hw. cbn [spaces vm] in *.
    destruct (page_va_shm i k Hw) as [[Hb _] _]. case_decide as Hd.
    + by apply (created_trans tags (vm s) p t'); [apply Hi|done|apply root_of].
    + assert (r = p) as -> by set_solver. apply (created_lower tags (vm s) p t'); [done|by apply user_index].
Qed.

Lemma other_clone r p t' :
  r ∈ spaces s → vmm_clone_user_as r (vm s) = (p, t') → win_kept s (mkSys t' (held s) (if p =? PHYS_NULL then spaces s else {[p]} ∪ spaces s)).
Proof.
  intros Hs He. destruct (space_root s tags Hi Hk Hr r Hs) as (Hrr & Hne & Hz). pose proof (clone_ok tags _ _ r Hi Hrr Hne) as Hc.
  rewrite He in Hc. destruct Hc as (tags' & Hi' & (Hsame & _) & Hc).
  destruct Hc as [[-> _]|(Hnn & Hnew & _ & Hcopy)].
  - apply win_kept_same. intros r' i k Hs' _. by apply Hsame, root_of.
  - destruct (Z.eqb_spec p PHYS_NULL); [done|]. intros r' i k Hs' Hw. cbn [spaces vm] in *.
    destruct (page_va_shm i k Hw) as [[Hb Hx] _]. case_decide as Hd; [by apply Hsame, root_of|].
    assert (r' = p) as -> by set_solver. specialize (Hcopy _ Hb). unfold page_copied in Hcopy. by rewrite Hx in Hcopy.
Qed.

Lemma destroy_win r : r ∈ spaces s → win_kept s (mkSys (vmm_destroy_task_as r (vm s)) (held s) (spaces s ∖ {[r]})).
Proof.
  intros Hs. destruct (space_root s tags Hi Hk Hr r Hs) as (Hrr & Hne & Hz). destruct (kernel_root s tags Hi) as (_ & Hkz).
  unfold vmm_destroy_task_as, vmm_switch_to_kernel_as. rewrite Hz, Hkz.
  pose proof (iso_cr3 _ _ _ (kernel_pml4_phys (vm s)) Hi) as Hi0. set (t0 := set_cr3 _ (vm s)) in *.
  destruct (destroy_ok r true tags t0 (is_vm _ _ _ Hi0) Hrr (iso_data _ _ _ _ Hi0 Hne) Hne) as [tags' D].
  intros r' i k Hs' Hw. cbn [spaces vm] in *. apply elem_of_difference in Hs' as [Hs' Hn]. rewrite decide_True by done.
  unfold win. rewrite (ds_trans _ _ _ _ _ _ D); [done|by apply root_of|left; set_solver].
Qed.

End Other.

(** The pages of the window. *)
Definition windowed (a : Z) : Prop := ∃ i k, in_window i k ∧ a = page_va i k.

Lemma windowed_low a : windowed a → 0 ≤ a < 2 ^ 47.
Proof. intros (i & k & Hw & ->). by destruct (page_va_shm i k Hw) as [[Hb _] _]. Qed.

Lemma kept_win s t' hs : kept_on windowed s t' → win_kept s (mkSys t' hs (spaces s)).
Proof. intros H. apply win_kept_same. intros r i k Hs Hw. apply H; [done|by exists i, k]. Qed.

Lemma off_window s r va : user_va va → off windowed s r va.
Proof.
  intros [Hva Hx]. apply off_user; [apply windowed_low|done|]. intros a (i & k & Hw & ->) He.
  destruct (page_va_shm i k Hw) as [[_ Hs] _]. rewrite <- shm_page, He, shm_page in Hs. congruence.
Qed.

Lemma other_win kept has s s' : sys_inv s → other_step kept has s s' → win_kept s s'.
Proof.
  intros (tags & Hi & Hk & Hr) Hst. pose proof windowed_low as HW.
  destruct Hst as [s p ph|s f|s va f flags r res t' Hs Hva Hf _ Hfl Hm|s va flags r Hs Hva Hfl|s va r f t' Hs Hva Hm|s va flags r Hs Hva Hfl
    |s va f flags|s va flags|s va|s p t'|s r p t'|s r|s r|s r va i v];
    try (apply kept_win).
  - done.
  - done.
  - destruct (is_held _ _ _ Hi f Hf) as (_ & [Hf0 _] & _). pose proof (map_into_kept windowed s tags Hi Hk Hr va f flags r) as H. rewrite Hm in H.
    apply H; [done|by apply off_window|lia|apply Hfl].
  - apply (alloc_into_kept windowed s tags); try done. by apply off_window.
  - pose proof (unmap_from_kept windowed s tags Hi Hk Hr va r) as H. rewrite Hm in H. apply H; [done|by apply off_window].
  - apply (protect_kept windowed s tags); try done. by apply off_window.
  - by apply (kernel_map_kept windowed HW s tags).
  - by apply (kernel_alloc_kept windowed HW s tags).
  - by apply (kernel_unmap_kept windowed HW s tags).
  - by eapply other_create.
  - by eapply other_clone.
  - by eapply destroy_win.
  - by apply switch_kept.
  - by apply (store_kept windowed s tags).
Qed.

(** What the other steps leave: frames that are kept and address spaces that are in use. *)
Lemma other_kept kept has s s' : other_step kept has s s' →
  (∀ f, f ∈ held s → kept f → f ∈ held s') ∧ (∀ r, r ∈ spaces s → has r → r ∈ spaces s').
Proof.
  intros Hst. destruct Hst; cbn [held spaces]; (split; [intros f' Hf Hkf|intros r' Hs Hh]); try (set_solver); try (case_match; set_solver).
  all: try (apply elem_of_difference; split; [done|]; intros ->%elem_of_singleton; done).
Qed.
