(* ===== verification/ShmSys.v ===== *)
(** Shared surfaces as a system (operations in [Shm]): tasks with address spaces create,
    map, publish, destroy and release surfaces, exit and are killed, in every interleaving
    of the sections of the operations with one another and with the other work on memory.

    A system call runs with interrupts off, so a task that is inside an operation is not
    preempted, and neither exits nor is killed there. *)

From stdpp Require Import relations.
From S2P Require Import Prelude Bitmap Pmm RunQueue Paging PagingSpec PagingDestroy PagingIso PagingClone PagingSys Shm ShmWin.

(** ** State *)

(** Where a task is: in the creation of a surface (before the middle, after it, or after
    it failed), in a mapping (before the loop or after it failed), before the loop of an
    unmapping, or in its exit. *)
Inductive inside :=
| PCreate (idx n w h fmt : Z) | PMade (idx n w h fmt : Z) (ps : list Z) | PFail (idx : Z)
| PMap (idx flags : Z) | PMapFail (idx : Z) | PUnmap (idx n : Z) | PExit.

(** [asp] gives tasks their address spaces. *)
Record msys := mkMsys { pg : PagingSys.sys; sh : shm; asp : gmap Z Z; pend : gmap Z inside }.

Implicit Types (m : msys) (s : slot) (x : shm) (o : inside).

(** The frames of a slot, of a table, and of a surface that is being created. *)
Definition slot_frames s : list Z := if used s && negb (creating s) then default [] (pages s) else [].
Definition shm_frames x : gset Z := list_to_set (seqZ 0 16 ≫= λ i, slot_frames (g_shm x i)).
Definition inside_frames o : list Z := match o with PMade _ _ _ _ _ ps => ps | _ => [] end.

Definition kept m (f : Z) : Prop :=
  f ∈ shm_frames (sh m) ∨ ∃ t o, pend m !! t = Some o ∧ f ∈ inside_frames o.
Definition has m (r : Z) : Prop := ∃ t, asp m !! t = Some r.

(** What memory holds for surfaces after a section: the frames it gave back are missing. *)
Definition given_back x x' (hs : gset Z) : gset Z := hs ∖ (shm_frames x ∖ shm_frames x').
Definition set_vm (t' : vmm) (hs : gset Z) (p : PagingSys.sys) : PagingSys.sys := mkSys t' hs (spaces p).

(** ** Steps *)

(** The operations that are one section and leave the mappings of the caller. *)
Inductive simple_op (task : Z) : shm → vmm → shm → vmm → Prop :=
| op_publish x t h dx dy dw dh r x' : kz_shm_publish task h dx dy dw dh x = (r, x') → simple_op task x t x' t
| op_destroy x t h r x' t' : kz_shm_destroy task h x t = (r, x', t') → simple_op task x t x' t'
| op_acquire x t h r x' : kz_shm_acquire task h x = (r, x') → simple_op task x t x' t
| op_release x t h r x' t' : kz_shm_release task h x t = (r, x', t') → simple_op task x t x' t'
| op_consume x t h r x' : kz_shm_consume task h x = (r, x') → simple_op task x t x' t.

Inductive mstep : msys → msys → Prop :=
| ms_create_begin p x a q task r w h fmt n idx gen x' :
    a !! task = Some r → q !! task = None → create_check task r w h fmt = inr n → create_begin task x = (Some (idx, gen), x') →
    mstep (mkMsys p x a q) (mkMsys p x' a (<[task := PCreate idx n w h fmt]> q))
| ms_create_middle p x a q task r w h fmt n idx ok res t' :
    a !! task = Some r → q !! task = Some (PCreate idx n w h fmt) → create_middle ok idx n r (vm p) = (res, t') →
    mstep (mkMsys p x a q)
      (mkMsys (set_vm t' (match res with Some ps => list_to_set ps ∪ held p | None => held p end) p) x a
        (<[task := match res with Some ps => PMade idx n w h fmt ps | None => PFail idx end]> q))
| ms_create_end p x a q task w h fmt n idx ps :
    q !! task = Some (PMade idx n w h fmt ps) →
    mstep (mkMsys p x a q) (mkMsys p (create_end task idx w h fmt n ps x) a (delete task q))
| ms_create_fail p x a q task idx :
    q !! task = Some (PFail idx) → mstep (mkMsys p x a q) (mkMsys p (create_fail idx x) a (delete task q))
| ms_map_begin p x a q task r h flags idx x' :
    a !! task = Some r → q !! task = None → map_begin task r h flags x = (inr idx, x') →
    mstep (mkMsys p x a q) (mkMsys p x' a (<[task := PMap idx flags]> q))
| ms_map_done p x a q task r idx flags t' :
    a !! task = Some r → q !! task = Some (PMap idx flags) → map_middle task r flags idx x (vm p) = inr t' →
    mstep (mkMsys p x a q) (mkMsys (set_vm t' (held p) p) x a (delete task q))
| ms_map_none p x a q task r idx flags t' :
    a !! task = Some r → q !! task = Some (PMap idx flags) → map_middle task r flags idx x (vm p) = inl t' →
    mstep (mkMsys p x a q) (mkMsys (set_vm t' (held p) p) x a (<[task := PMapFail idx]> q))
| ms_map_fail p x a q task idx x' t' :
    q !! task = Some (PMapFail idx) → map_fail task idx x (vm p) = (x', t') →
    mstep (mkMsys p x a q) (mkMsys (set_vm t' (given_back x x' (held p)) p) x' a (delete task q))
| ms_unmap_begin p x a q task r va idx n x' t' :
    a !! task = Some r → q !! task = None → unmap_begin task r va x (vm p) = (inr (idx, n), x', t') →
    mstep (mkMsys p x a q) (mkMsys (set_vm t' (given_back x x' (held p)) p) x' a (<[task := PUnmap idx n]> q))
| ms_unmap_loop p x a q task r idx n :
    a !! task = Some r → q !! task = Some (PUnmap idx n) →
    mstep (mkMsys p x a q) (mkMsys (set_vm (unmap_loop (kz_shm_slot_va idx) n r (vm p)) (held p) p) x a (delete task q))
| ms_simple p x a q task x' t' :
    is_Some (a !! task) → q !! task = None → simple_op task x (vm p) x' t' →
    mstep (mkMsys p x a q) (mkMsys (set_vm t' (given_back x x' (held p)) p) x' a q)
| ms_exit p x a q task x' t' :
    is_Some (a !! task) → q !! task = None → kz_shm_task_exit task x (vm p) = (x', t') →
    mstep (mkMsys p x a q) (mkMsys (set_vm t' (given_back x x' (held p)) p) x' a (<[task := PExit]> q))
| ms_gone p x a q task r :
    a !! task = Some r → q !! task = Some PExit ∨ q !! task = None →
    mstep (mkMsys p x a q)
      (mkMsys (mkSys (vmm_destroy_task_as r (vm p)) (held p) (spaces p ∖ {[r]})) x (delete task a) (delete task q))
| ms_start p x a q task r :
    a !! task = None → r ∈ spaces p → (∀ task', a !! task' ≠ Some r) → mstep (mkMsys p x a q) (mkMsys p x (<[task := r]> a) q)
| ms_store p x a q task r va i v e :
    a !! task = Some r → q !! task = None → shm_va va → 0 ≤ v < 2 ^ 64 →
    translate (vm p) r va = Some e → Z.testbit e 1 = true →
    mstep (mkMsys p x a q) (mkMsys (set_vm (store r va i v (vm p)) (held p) p) x a q)
| ms_other p x a q p' :
    other_step (kept (mkMsys p x a q)) (has (mkMsys p x a q)) p p' → mstep (mkMsys p x a q) (mkMsys p' x a q).

(** ** The invariant *)

(** An entry that a mapping of the task gives: the frame of the page, writable only for
    the owner. *)
Definition registered x (task i k e : Z) : Prop :=
  let s := g_shm x i in
  used s = true ∧ creating s = false ∧ task ∈ maps s ∧
  ∃ ps f w, pages s = Some ps ∧ ps !! Z.to_nat k = Some f ∧ e = new_entry f (shm_flags w) ∧ (w = true → sowner s = task).

(** The entries a task can have for page [k] of slot [i]. *)
Definition granted m (task i k e : Z) : Prop :=
  match pend m !! task with
  | None => registered (sh m) task i k e
  | Some (PCreate j _ _ _ _) | Some (PFail j) | Some (PMap j _) | Some (PMapFail j) => i ≠ j ∧ registered (sh m) task i k e
  | Some (PMade j n _ _ _ ps) =>
      if decide (i = j) then ∃ f, ps !! Z.to_nat k = Some f ∧ e = new_entry f (shm_flags true) else registered (sh m) task i k e
  | Some (PUnmap j n) => if decide (i = j) then k < n else registered (sh m) task i k e
  | Some PExit => True
  end.

Definition slot_ok (hs : gset Z) s : Prop :=
  used s = true →
  NoDup (maps s) ∧ (∀ t, t ∈ maps s → t ≠ sowner s → published s = true) ∧ (creating s = true → maps s = []) ∧
  (creating s = false → ∃ ps, pages s = Some ps ∧ zlength ps = npages s ∧ 0 < npages s ≤ KZ_SHM_MAX_PAGES ∧ NoDup ps ∧ ∀ f, f ∈ ps → f ∈ hs).

Definition inside_ok x (task : Z) o : Prop :=
  match o with
  | PCreate i n _ _ _ =>
      0 ≤ i < KZ_SHM_MAX_RES ∧ used (g_shm x i) = true ∧ creating (g_shm x i) = true ∧ sowner (g_shm x i) = task ∧ 0 < n ≤ KZ_SHM_MAX_PAGES
  | PMade i n _ _ _ ps =>
      0 ≤ i < KZ_SHM_MAX_RES ∧ used (g_shm x i) = true ∧ creating (g_shm x i) = true ∧ sowner (g_shm x i) = task ∧ 0 < n ≤ KZ_SHM_MAX_PAGES ∧
      zlength ps = n ∧ NoDup ps
  | PFail i => 0 ≤ i < KZ_SHM_MAX_RES ∧ used (g_shm x i) = true ∧ creating (g_shm x i) = true ∧ sowner (g_shm x i) = task
  | PMap i _ | PMapFail i => 0 ≤ i < KZ_SHM_MAX_RES ∧ used (g_shm x i) = true ∧ creating (g_shm x i) = false ∧ task ∈ maps (g_shm x i)
  | PUnmap i n => 0 ≤ i < KZ_SHM_MAX_RES ∧ 0 ≤ n ≤ KZ_SHM_MAX_PAGES
  | PExit => True
  end.

Record minv m : Prop := {
  mi_pg : sys_inv (pg m);
  mi_asp : ∀ t r, asp m !! t = Some r → r ∈ spaces (pg m);
  mi_inj : ∀ t t' r, asp m !! t = Some r → asp m !! t' = Some r → t = t';
  mi_slot : ∀ i, 0 ≤ i < KZ_SHM_MAX_RES → slot_ok (held (pg m)) (g_shm (sh m) i);
  mi_disj : ∀ i j f, 0 ≤ i < KZ_SHM_MAX_RES → 0 ≤ j < KZ_SHM_MAX_RES →
    f ∈ slot_frames (g_shm (sh m) i) → f ∈ slot_frames (g_shm (sh m) j) → i = j;
  mi_pend : ∀ t o, pend m !! t = Some o → is_Some (asp m !! t) ∧ inside_ok (sh m) t o;
  mi_made : ∀ t o f, pend m !! t = Some o → f ∈ inside_frames o → f ∈ held (pg m) ∧ (f ∉ shm_frames (sh m)) ∧
    ∀ t' o', pend m !! t' = Some o' → f ∈ inside_frames o' → t' = t;
  mi_win : ∀ r i k e, r ∈ spaces (pg m) → in_window i k → win (vm (pg m)) r i k = Some e → ∃ t, asp m !! t = Some r ∧ granted m t i k e
}.

(** ** Lists of tasks *)
Lemma has_task_spec l task : has_task l task = bool_decide (task ∈ l).
Proof.
  unfold has_task. apply eq_bool_prop_intro. rewrite bool_decide_spec, Is_true_true, existsb_exists. split.
  - intros (a & Ha%list_elem_of_In & ->%Z.eqb_eq). done.
  - intros Hin. exists task. split; [by apply list_elem_of_In|apply Z.eqb_refl].
Qed.

Lemma index_of_some l task i : index_of l task = Some i → 0 ≤ i < zlength l ∧ lget l i = task.
Proof.
  revert i. induction l as [|a l IH]; intros i; cbn [index_of]; [done|]. unfold zlength. cbn [length].
  destruct (Z.eqb_spec a task) as [->|]; [intros E; injection E as <-; split; [lia|done]|].
  destruct (index_of l task) as [j|]; [|done]. cbn. intros E. injection E as <-. destruct (IH j eq_refl) as [Hj Hl].
  unfold zlength in Hj. split; [lia|]. unfold lget in *. by replace (Z.to_nat (j + 1)) with (S (Z.to_nat j)) by lia.
Qed.

Lemma index_of_none l task : index_of l task = None → task ∉ l.
Proof.
  induction l as [|a l IH]; cbn [index_of]; [intros _; apply not_elem_of_nil|]. destruct (Z.eqb_spec a task); [done|].
  destruct (index_of l task); [done|]. intros _. apply not_elem_of_cons. split; [congruence|by apply IH].
Qed.

Lemma del_task_perm l task : task ∈ l → l ≡ₚ task :: del_task l task.
Proof.
  intros Hin. unfold del_task. destruct (index_of l task) as [i|] eqn:E; [|by apply index_of_none in E].
  destruct (index_of_some l task i E) as [Hi <-]. by apply fill_gap_perm.
Qed.

Lemma del_task_ok l task : NoDup l → NoDup (del_task l task) ∧ ∀ t, t ∈ del_task l task ↔ t ∈ l ∧ t ≠ task.
Proof.
  intros Hnd. destruct (decide (task ∈ l)) as [Hin|Hn].
  - pose proof (del_task_perm l task Hin) as Hp. assert (Hnd2 : NoDup (task :: del_task l task)) by (by rewrite <- Hp).
    apply NoDup_cons in Hnd2 as [Hnt Hnd2]. split; [done|]. intros t.
    assert (Hm : t ∈ l ↔ t ∈ task :: del_task l task) by (by rewrite <- Hp). rewrite Hm, elem_of_cons. split; [intros Ht; split; [by right|congruence]|]. by intros [[->|?] ?].
  - unfold del_task. destruct (index_of l task) as [i|] eqn:E.
    + destruct (index_of_some l task i E) as [Hi Hl]. destruct Hn. rewrite <- Hl. by eapply list_elem_of_lookup_2, lget_some.
    + split; [done|]. intros t. split; [|by intros [? _]]. intros Ht. split; [done|congruence].
Qed.

Lemma drop_refs_same fuel s task :
  let s' := drop_refs fuel s task in
  used s' = used s ∧ published s' = published s ∧ creating s' = creating s ∧ sowner s' = sowner s ∧ destroyed s' = destroyed s ∧
  pages s' = pages s ∧ npages s' = npages s ∧ maps s' = maps s.
Proof.
  revert s. induction fuel as [|fuel IH]; intros s; cbn [drop_refs]; [done|]. destruct (has_ref s task); [|done].
  apply (IH (del_ref s task)).
Qed.

(** Every reference of the task is dropped. *)
Lemma drop_refs_all fuel s task : (length (refs s) ≤ fuel)%nat →
  (task ∉ refs (drop_refs fuel s task)) ∧ ∀ t, t ∈ refs (drop_refs fuel s task) → t ∈ refs s.
Proof.
  revert s. induction fuel as [|fuel IH]; intros s Hl; cbn [drop_refs].
  { destruct (refs s) as [|]; [split; [apply not_elem_of_nil|done]|cbn in Hl; lia]. }
  unfold has_ref. rewrite has_task_spec. case_bool_decide as Hin; [|done].
  pose proof (del_task_perm (refs s) task Hin) as Hp. pose proof (Permutation_length Hp) as Hlen. cbn [length] in Hlen.
  destruct (IH (del_ref s task)) as [H1 H2]; [cbn; lia|]. split; [done|]. intros t Ht. specialize (H2 t Ht). cbn [refs del_ref with_refs] in H2.
  assert (Hm : t ∈ task :: del_task (refs s) task) by (by right). by rewrite <- Hp in Hm.
Qed.

(** ** Frames of the table *)
Lemma elem_shm_frames x f : f ∈ shm_frames x ↔ ∃ i, 0 ≤ i < KZ_SHM_MAX_RES ∧ f ∈ slot_frames (g_shm x i).
Proof.
  unfold shm_frames, KZ_SHM_MAX_RES. rewrite elem_of_list_to_set, list_elem_of_bind. split.
  - intros (i & Hf & Hi%elem_of_seqZ). exists i. split; [lia|done].
  - intros (i & Hi & Hf). exists i. split; [done|]. apply elem_of_seqZ. lia.
Qed.

Lemma g_shm_set i v x j : g_shm (set_slot i v x) j = if decide (j = i) then v else g_shm x j.
Proof. unfold set_slot, fset. cbn [g_shm]. destruct (Z.eqb_spec j i); [by rewrite decide_True|by rewrite decide_False]. Qed.

Lemma slot_frames_used s ps : used s = true → creating s = false → pages s = Some ps → slot_frames s = ps.
Proof. intros H1 H2 H3. unfold slot_frames. by rewrite H1, H2, H3. Qed.

(** ** A section on one slot *)

(** What a section does to a slot before [maybe_free]: with [drop], the task may lose its
    mapping. *)
Record edits (drop : bool) (task : Z) s s' : Prop := {
  ed_used : used s' = used s;
  ed_creating : creating s' = creating s;
  ed_owner : sowner s' = sowner s;
  ed_pages : pages s' = pages s;
  ed_npages : npages s' = npages s;
  ed_nodup : NoDup (maps s) → NoDup (maps s');
  ed_published : published s = true → published s' = true;
  ed_sub : ∀ t, t ∈ maps s' → t ∈ maps s;
  ed_keep : ∀ t, t ∈ maps s → t ∈ maps s' ∨ drop = true ∧ t = task
}.

Lemma edits_refl drop task s : edits drop task s s.
Proof. constructor; auto. Qed.

Lemma edits_trans drop task s1 s2 s3 : edits drop task s1 s2 → edits drop task s2 s3 → edits drop task s1 s3.
Proof.
  intros [A1 A2 A3 A4 A5 A6 A7 A8 A9] [B1 B2 B3 B4 B5 B6 B7 B8 B9]. constructor; try congruence; auto.
  intros t Ht. destruct (A9 t Ht) as [H|H]; [by apply B9|by right].
Qed.

Lemma edits_frames drop task s s' : edits drop task s s' → slot_frames s' = slot_frames s.
Proof. intros E. unfold slot_frames. by rewrite (ed_used _ _ _ _ E), (ed_creating _ _ _ _ E), (ed_pages _ _ _ _ E). Qed.

Lemma edits_ok drop task hs s s' : edits drop task s s' → slot_ok hs s → slot_ok hs s'.
Proof.
  intros E Hok Hu. rewrite (ed_used _ _ _ _ E) in Hu. destruct (Hok Hu) as (H1 & H2 & H3 & H4). split_and!.
  - by apply (ed_nodup _ _ _ _ E).
  - intros t Ht. rewrite (ed_owner _ _ _ _ E). intros Hne. by apply (ed_published _ _ _ _ E), (H2 t), Hne; apply (ed_sub _ _ _ _ E).
  - rewrite (ed_creating _ _ _ _ E). intros Hc. specialize (H3 Hc). destruct (maps s') as [|a l] eqn:El; [done|].
    pose proof (ed_sub _ _ _ _ E a) as Ha. rewrite El, H3 in Ha. exfalso. apply (not_elem_of_nil a), Ha. by left.
  - rewrite (ed_creating _ _ _ _ E), (ed_pages _ _ _ _ E), (ed_npages _ _ _ _ E). exact H4.
Qed.

Lemma maybe_free_cases s t :
  maybe_free s t = (s, t) ∨
  creating s = false ∧ maps s = [] ∧ destroyed s = true ∧
  ∃ s', maybe_free s t = (s', match pages s with Some ps => free_frames (take (Z.to_nat (npages s)) ps) t | None => t end) ∧ used s' = false.
Proof.
  unfold maybe_free. destruct (destroyed s && (zlength (maps s) =? 0) && (zlength (refs s) =? 0) && negb (creating s)) eqn:E; [right|by left].
  apply andb_prop in E as [[[Hd Hm%Z.eqb_eq]%andb_prop _]%andb_prop Hc%negb_true_iff]. split; [done|].
  split; [by destruct (maps s)|]. split; [done|]. unfold free_pages. destruct (pages s); by eexists.
Qed.

(** The frames of the slots after [retire]. *)
Lemma retire_frames i v x t x' t' : retire i v x t = (x', t') →
  ∀ j, j = i ∧ (slot_frames (g_shm x' j) = [] ∨ slot_frames (g_shm x' j) = slot_frames v) ∨
       j ≠ i ∧ slot_frames (g_shm x' j) = slot_frames (g_shm x j).
Proof.
  unfold retire. intros E j. destruct (maybe_free_cases v t) as [Em|(_ & _ & _ & v' & Em & Hv')]; rewrite Em in E; injection E as <- _;
    rewrite g_shm_set; case_decide; [left; by auto|right; by auto|left|right; by auto].
  split; [done|]. left. unfold slot_frames. by rewrite Hv'.
Qed.

(** The entries of a task under another table. *)
Lemma registered_set x task i v j k e :
  j ≠ i → registered (set_slot i v x) task j k e ↔ registered x task j k e.
Proof. intros Hne. unfold registered. by rewrite g_shm_set, decide_False by done. Qed.

Lemma registered_edits drop task x t i v k e :
  edits drop task (g_shm x i) v → registered x t i k e → (t ∈ maps v) → registered (set_slot i v x) t i k e.
Proof.
  intros E (H1 & H2 & H3 & ps & f & w & H4 & H5 & H6 & H7) Hin. unfold registered. rewrite g_shm_set, decide_True by done.
  rewrite (ed_used _ _ _ _ E), (ed_creating _ _ _ _ E), (ed_pages _ _ _ _ E), (ed_owner _ _ _ _ E). split_and!; try done.
  by exists ps, f, w.
Qed.

(** What a change of a slot leaves of the places of other tasks. *)
Lemma inside_set x task o i v :
  inside_ok x task o →
  (0 ≤ i < KZ_SHM_MAX_RES → used (g_shm x i) = true → (creating (g_shm x i) = true ∨ task ∈ maps (g_shm x i)) →
   match o with PUnmap _ _ | PExit => True | _ =>
     used v = true ∧ creating v = creating (g_shm x i) ∧ sowner v = sowner (g_shm x i) ∧
     (task ∈ maps (g_shm x i) → task ∈ maps v) end) →
  inside_ok (set_slot i v x) task o.
Proof.
  intros Ho Hv. destruct o as [j n w h fm|j n w h fm ps|j|j fl|j|j n|]; cbn [inside_ok] in *; try done; rewrite !g_shm_set; (case_decide as Hd; [subst j|done]).
  - destruct Ho as (H1 & H2 & H3 & H4 & H5). destruct Hv as (V1 & V2 & V3 & _); [done|done|by left|]. split_and!; try done; try congruence; lia.
  - destruct Ho as (H1 & H2 & H3 & H4 & H5 & H6 & H7). destruct Hv as (V1 & V2 & V3 & _); [done|done|by left|]. split_and!; try done; try congruence; lia.
  - destruct Ho as (H1 & H2 & H3 & H4). destruct Hv as (V1 & V2 & V3 & _); [done|done|by left|]. split_and!; try done; try congruence; lia.
  - destruct Ho as (H1 & H2 & H3 & H4). destruct Hv as (V1 & V2 & V3 & V4); [done|done|by right|]. split_and!; try done; try congruence; [lia..|by apply V4].
  - destruct Ho as (H1 & H2 & H3 & H4). destruct Hv as (V1 & V2 & V3 & V4); [done|done|by right|]. split_and!; try done; try congruence; [lia..|by apply V4].
Qed.

(** The task has given up its entries for slot [i]: it exits, or it is about to unmap. *)
Definition leaving m (task i : Z) : Prop :=
  pend m !! task = Some PExit ∨ ∃ n, pend m !! task = Some (PUnmap i n).

Lemma granted_mono m m' t i k e :
  pend m' !! t = pend m !! t → (registered (sh m) t i k e → registered (sh m') t i k e ∨ leaving m t i) →
  granted m t i k e → granted m' t i k e.
Proof.
  intros Hp Hr. unfold granted, leaving in *. rewrite Hp. destruct (pend m !! t) as [[j n w h fm|j n w h fm ps|j|j fl|j|j n|]|] eqn:E; try done.
  1,3,4,5: intros [Hne H]; split; [done|]; destruct (Hr H) as [?|[?|[? ?]]]; done.
  - case_decide as Hd; [done|]. intros H. destruct (Hr H) as [?|[?|[? ?]]]; done.
  - case_decide as Hd; [done|]. intros H. destruct (Hr H) as [?|[?|[n' Hn]]]; [done..|]. congruence.
  - intros H. destruct (Hr H) as [?|[?|[? ?]]]; done.
Qed.

(** A section on slot [i] that keeps the slot. *)
Lemma edit_minv m i v drop task :
  minv m → 0 ≤ i < KZ_SHM_MAX_RES → edits drop task (g_shm (sh m) i) v → (drop = true → leaving m task i) →
  minv (mkMsys (pg m) (set_slot i v (sh m)) (asp m) (pend m)).
Proof.
  intros [M1 M2 M3 M4 M5 M6 M7 M8] Hi E Hl. set (x' := set_slot i v (sh m)).
  assert (Hfr : ∀ j, slot_frames (g_shm x' j) = slot_frames (g_shm (sh m) j)).
  { intros j. unfold x'. rewrite g_shm_set. case_decide; [subst j; by eapply edits_frames|done]. }
  assert (Hall : shm_frames x' = shm_frames (sh m)).
  { apply set_eq. intros f. rewrite !elem_shm_frames. by setoid_rewrite Hfr. }
  constructor; cbn [pg sh asp pend]; try done.
  - intros j Hj. unfold x'. rewrite g_shm_set. case_decide; [subst j; by eapply edits_ok, M4|by apply M4].
  - intros j j' f. rewrite !Hfr. apply M5.
  - intros t o Ho. destruct (M6 t o Ho) as [Ha Hin]. split; [done|]. apply inside_set; [done|]. intros _ Hu Hor.
    assert (Hk : t ∈ maps (g_shm (sh m) i) → t ∈ maps v ∨ leaving m t i).
    { intros Ht. destruct (ed_keep _ _ _ _ E t Ht) as [?|[Hd ->]]; [by left|right; by apply Hl]. }
    destruct o; try done; (split_and!; [by rewrite (ed_used _ _ _ _ E)|by rewrite (ed_creating _ _ _ _ E)|by rewrite (ed_owner _ _ _ _ E)|]);
      intros Ht; destruct (Hk Ht) as [?|[?|[? ?]]]; try done; congruence.
  - intros t o f Ho Hf. rewrite Hall. by apply (M7 t o).
  - intros r j k e Hr Hw He. destruct (M8 r j k e Hr Hw He) as (t & Ha & Hg). exists t. split; [done|].
    revert Hg. apply granted_mono; [done|]. cbn [sh]. intros Hreg. destruct (decide (j = i)) as [->|Hne].
    + pose proof Hreg as (_ & _ & Ht & _). destruct (ed_keep _ _ _ _ E t Ht) as [Ht'|[Hd ->]]; [left|right; by apply Hl].
      by eapply registered_edits.
    + left. by apply registered_set.
Qed.

(** A section after which the slot is free. *)
Lemma free_minv m i v v' drop task :
  minv m → 0 ≤ i < KZ_SHM_MAX_RES → used (g_shm (sh m) i) = true → edits drop task (g_shm (sh m) i) v → (drop = true → leaving m task i) →
  creating v = false → maps v = [] → used v' = false →
  let t' := match pages v with Some ps => free_frames (take (Z.to_nat (npages v)) ps) (vm (pg m)) | None => vm (pg m) end in
  let x' := set_slot i v' (sh m) in
  minv (mkMsys (set_vm t' (given_back (sh m) x' (held (pg m))) (pg m)) x' (asp m) (pend m)).
Proof.
  intros M Hi Hu E Hl Hc Hm Hv' t' x'. pose proof M as [M1 M2 M3 M4 M5 M6 M7 M8].
  assert (Hgone : ∀ t, t ∈ maps (g_shm (sh m) i) → leaving m t i).
  { intros t Ht. destruct (ed_keep _ _ _ _ E t Ht) as [Ht'|[Hd ->]]; [rewrite Hm in Ht'; by apply not_elem_of_nil in Ht'|by apply Hl]. }
  destruct (M4 i Hi Hu) as (_ & _ & _ & Hps). rewrite (ed_creating _ _ _ _ E) in Hc. destruct (Hps Hc) as (ps & Hp & Hlen & Hn & Hnd & Hheld).
  assert (Hfi : slot_frames (g_shm (sh m) i) = ps) by (by apply slot_frames_used).
  assert (Hfr : ∀ j, slot_frames (g_shm x' j) = if decide (j = i) then [] else slot_frames (g_shm (sh m) j)).
  { intros j. unfold x'. rewrite g_shm_set. case_decide; [|done]. unfold slot_frames. by rewrite Hv'. }
  assert (Hgb : given_back (sh m) x' (held (pg m)) = held (pg m) ∖ list_to_set ps).
  { unfold given_back. f_equal. apply set_eq. intros f. rewrite elem_of_difference, elem_of_list_to_set, !elem_shm_frames. split.
    - intros [(j & Hj & Hf) Hn2]. destruct (decide (j = i)) as [->|Hne]; [by rewrite <- Hfi|]. destruct Hn2. exists j. by rewrite Hfr, decide_False.
    - intros Hf. rewrite <- Hfi in Hf. split; [by exists i|]. intros (j & Hj & Hf2). rewrite Hfr in Hf2. case_decide; [by apply not_elem_of_nil in Hf2|].
      by rewrite (M5 i j f Hi Hj Hf Hf2) in H. }
  assert (Ht' : t' = foldl (λ t p, free_frame p t) (vm (pg m)) ps).
  { unfold t'. rewrite (ed_pages _ _ _ _ E), (ed_npages _ _ _ _ E), Hp. rewrite take_ge by (unfold zlength in Hlen; lia).
    apply free_frames_eq, Forall_forall. intros f Hf. destruct (held_pos _ f M1 (Hheld f Hf)). lia. }
  destruct (free_list_ok ps _ M1 Hnd Hheld) as [F1 F2]. rewrite Hgb, Ht'.
  assert (Hsub : ∀ f, f ∈ shm_frames x' → f ∈ shm_frames (sh m) ∧ f ∉ ps).
  { intros f. rewrite !elem_shm_frames. intros (j & Hj & Hf). rewrite Hfr in Hf. case_decide as Hd; [by apply not_elem_of_nil in Hf|].
    split; [by exists j|]. rewrite <- Hfi. intros Hf2. by rewrite (M5 i j f Hi Hj Hf2 Hf) in Hd. }
  constructor; cbn [pg sh asp pend set_vm vm held spaces]; try done.
  - intros j Hj. unfold x'. rewrite g_shm_set. case_decide as Hd; [intros Hu2; congruence|].
    intros Hu2. destruct (M4 j Hj Hu2) as (H1 & H2 & H3 & H4). split_and!; try done. intros Hc2. destruct (H4 Hc2) as (ps2 & P1 & P2 & P3 & P4 & P5).
    exists ps2. split_and!; try done; [lia..|]. intros f Hf. apply elem_of_difference. split; [by apply P5|]. rewrite elem_of_list_to_set, <- Hfi.
    intros Hf2. assert (Hf3 : f ∈ slot_frames (g_shm (sh m) j)) by (by rewrite (slot_frames_used _ ps2)). by rewrite (M5 i j f Hi Hj Hf2 Hf3) in Hd.
  - intros j j' f Hj Hj' H1 H2. rewrite Hfr in H1, H2.
    destruct (decide (j = i)); [by apply not_elem_of_nil in H1|]. destruct (decide (j' = i)); [by apply not_elem_of_nil in H2|].
    by apply (M5 j j' f).
  - intros t o Ho. destruct (M6 t o Ho) as [Ha Hin]. split; [done|]. apply inside_set; [done|]. intros _ _ [Hcr|Ht]; [congruence|].
    destruct (Hgone t Ht) as [Hl2|[n Hl2]]; rewrite Ho in Hl2; by injection Hl2 as ->.
  - intros t o f Ho Hf. destruct (M7 t o f Ho Hf) as (H1 & H2 & H3). split_and!; try done.
    + apply elem_of_difference. split; [done|]. rewrite elem_of_list_to_set, <- Hfi. intros Hf2. apply H2, elem_shm_frames. by exists i.
    + intros Hf2. by destruct (Hsub f Hf2).
  - intros r j k e Hr Hw. rewrite F2. intros He. destruct (M8 r j k e Hr Hw He) as (t & Ha & Hg). exists t. split; [done|].
    revert Hg. apply granted_mono; [done|]. cbn [sh]. intros Hreg. destruct (decide (j = i)) as [->|Hne].
    + right. apply Hgone. by destruct Hreg as (_ & _ & ? & _).
    + left. by apply registered_set.
Qed.

Lemma retire_minv m i v drop task :
  minv m → 0 ≤ i < KZ_SHM_MAX_RES → used (g_shm (sh m) i) = true → edits drop task (g_shm (sh m) i) v → (drop = true → leaving m task i) →
  let '(x', t') := retire i v (sh m) (vm (pg m)) in
  minv (mkMsys (set_vm t' (given_back (sh m) x' (held (pg m))) (pg m)) x' (asp m) (pend m)).
Proof.
  intros M Hi Hu E Hl. unfold retire. destruct (maybe_free_cases v (vm (pg m))) as [->|(Hc & Hm & _ & v' & -> & Hv')].
  - pose proof (edit_minv m i v drop task M Hi E Hl) as R. replace (given_back _ _ _) with (held (pg m)).
    + by destruct m as [[] ? ? ?].
    + unfold given_back. apply set_eq. intros f. rewrite elem_of_difference, elem_of_difference, !elem_shm_frames.
      split; [|by intros [? _]]. intros Hf. split; [done|]. intros [(j & Hj & H1) H2]. destruct H2. exists j. split; [done|].
      rewrite g_shm_set. case_decide; [subst j; by rewrite (edits_frames _ _ _ _ E)|done].
  - by apply (free_minv m i v v' drop task).
Qed.

(** ** The steps of a task on the table *)

Lemma lookup_unmap_ok h x i : lookup_unmap h x = inr i → 0 ≤ i < KZ_SHM_MAX_RES ∧ used (g_shm x i) = true.
Proof.
  unfold lookup_unmap. destruct (Z.eqb_spec (kz_shm_gen h) 0); [done|]. destruct (Z.leb_spec KZ_SHM_MAX_RES (kz_shm_idx h)); [done|].
  cbn [orb]. destruct (used (g_shm x (kz_shm_idx h))) eqn:Hu; [|done]. cbn [negb orb].
  destruct (negb _); [done|]. intros E. injection E as <-. split; [|done]. split; [|done]. unfold kz_shm_idx, u32. apply Z.mod_pos_bound. lia.
Qed.

Lemma shm_lookup_ok h x i : lookup h x = inr i → 0 ≤ i < KZ_SHM_MAX_RES ∧ used (g_shm x i) = true ∧ destroyed (g_shm x i) = false.
Proof.
  unfold lookup. destruct (lookup_unmap h x) as [|j] eqn:E; [done|]. destruct (destroyed (g_shm x j)) eqn:Ed; [done|].
  intros Eq. injection Eq as <-. destruct (lookup_unmap_ok _ _ _ E). done.
Qed.

(** The place of one task changes. *)
Lemma pend_minv m q' task :
  minv m → (∀ t, t ≠ task → q' !! t = pend m !! t) →
  (∀ o, q' !! task = Some o → is_Some (asp m !! task) ∧ inside_ok (sh m) task o ∧ inside_frames o = []) →
  (∀ r i k e, asp m !! task = Some r → in_window i k → win (vm (pg m)) r i k = Some e → granted m task i k e →
     granted (mkMsys (pg m) (sh m) (asp m) q') task i k e) →
  minv (mkMsys (pg m) (sh m) (asp m) q').
Proof.
  intros [M1 M2 M3 M4 M5 M6 M7 M8] Hq Ho Hg. constructor; cbn [pg sh asp pend]; try done.
  - intros t o Hto. destruct (decide (t = task)) as [->|Hne]; [destruct (Ho o Hto) as (? & ? & _); done|]. apply M6. by rewrite <- Hq.
  - intros t o f Hto Hf. destruct (decide (t = task)) as [->|Hne]; [destruct (Ho o Hto) as (_ & _ & Hn); rewrite Hn in Hf; by apply not_elem_of_nil in Hf|].
    rewrite Hq in Hto by done. destruct (M7 t o f Hto Hf) as (H1 & H2 & H3). split_and!; try done. intros t' o' Ho' Hf'.
    destruct (decide (t' = task)) as [->|Hne']; [destruct (Ho o' Ho') as (_ & _ & Hn); rewrite Hn in Hf'; by apply not_elem_of_nil in Hf'|].
    rewrite Hq in Ho' by done. by apply (H3 t' o').
  - intros r i k e Hr Hw He. destruct (M8 r i k e Hr Hw He) as (t & Ha & Hgt). exists t. split; [done|].
    destruct (decide (t = task)) as [->|Hne]; [by eapply Hg|]. revert Hgt. apply granted_mono; [by apply Hq|]. by left.
Qed.

(** The places that give up entries of a slot. *)
Lemma mark_minv m task o :
  minv m → is_Some (asp m !! task) → pend m !! task = None ∨ (∃ i, pend m !! task = Some (PMapFail i) ∧ o = PUnmap i 0) →
  (o = PExit ∨ ∃ i n, o = PUnmap i n ∧ 0 ≤ i < KZ_SHM_MAX_RES ∧ 0 ≤ n ≤ KZ_SHM_MAX_PAGES ∧
     (pend m !! task = None → n = npages (g_shm (sh m) i))) →
  minv (mkMsys (pg m) (sh m) (asp m) (<[task := o]> (pend m))).
Proof.
  intros M Ha Hp Ho. apply (pend_minv m _ task); try done.
  - intros t Hne. by rewrite lookup_insert_ne.
  - intros o'. rewrite lookup_insert_eq. intros E. injection E as <-. split; [done|]. destruct Ho as [->|(i & n & -> & ? & ? & _)]; done.
  - intros r i k e Hr Hw He Hg. unfold granted in *. cbn [pend sh]. rewrite lookup_insert_eq.
    destruct Ho as [->|(j & n & -> & Hj & Hn & Hnp)]; [done|]. destruct Hp as [Hp|(j' & Hp & Eo)].
    + rewrite Hp in Hg. case_decide as Hd; [subst j|done]. destruct Hg as (H1 & H2 & _ & ps & f & w & H4 & H5 & _).
      destruct (mi_slot _ M i Hj H1) as (_ & _ & _ & Hps). destruct (Hps H2) as (ps' & P1 & P2 & _). rewrite H4 in P1. injection P1 as <-.
      rewrite (Hnp Hp), <- P2. apply lookup_lt_Some in H5. destruct Hw as [_ Hw]. unfold zlength. lia.
    + rewrite Hp in Hg. injection Eo as -> ->. destruct Hg as [Hne Hg]. by rewrite decide_False.
Qed.

Lemma del_map_edits s task : NoDup (maps s) → edits true task s (del_map s task).
Proof.
  intros Hnd. destruct (del_task_ok (maps s) task Hnd) as [H1 H2]. constructor; cbn; try done.
  - intros t Ht. by apply H2 in Ht as [? _].
  - intros t Ht. destruct (decide (t = task)) as [->|Hne]; [by right|left]. by apply H2.
Qed.

Lemma exit_slot_edits s task : NoDup (maps s) →
  let s1 := if has_map s task then del_map s task else s in
  let s2 := drop_refs (length (refs s1)) s1 task in
  edits true task s (if (sowner s2 =? task) && negb (destroyed s2) then with_destroyed s2 else s2).
Proof.
  intros Hnd s1 s2. assert (E1 : edits true task s s1) by (unfold s1; destruct (has_map s task); [by apply del_map_edits|apply edits_refl]).
  destruct (drop_refs_same (length (refs s1)) s1 task) as (D1 & D2 & D3 & D4 & D5 & D6 & D7 & D8). fold s2 in D1, D2, D3, D4, D5, D6, D7, D8.
  assert (E2 : edits true task s1 s2) by (constructor; try congruence; intros t; rewrite D8; auto).
  eapply edits_trans; [done|]. eapply edits_trans; [done|]. destruct (_ && _); [constructor; auto|apply edits_refl].
Qed.

Lemma exit_minv m task x' t' :
  minv m → is_Some (asp m !! task) → pend m !! task = None → kz_shm_task_exit task (sh m) (vm (pg m)) = (x', t') →
  minv (mkMsys (set_vm t' (given_back (sh m) x' (held (pg m))) (pg m)) x' (asp m) (<[task := PExit]> (pend m))).
Proof.
  intros M Ha Hp He. pose proof (mark_minv m task PExit M Ha ltac:(by left) ltac:(by left)) as M0.
  set (q := <[task := PExit]> (pend m)) in *. unfold kz_shm_task_exit in He.
  assert (Hid : given_back (sh m) (sh m) (held (pg m)) = held (pg m)) by (unfold given_back; set_solver).
  destruct (task <? 0). { injection He as <- <-. rewrite Hid. by destruct (pg m). }
  pose proof (for_each_upto (λ _ '(x1, t1), (∀ f, f ∈ shm_frames x1 → f ∈ shm_frames (sh m)) ∧
    minv (mkMsys (set_vm t1 (given_back (sh m) x1 (held (pg m))) (pg m)) x1 (asp m) q)) 0 KZ_SHM_MAX_RES
    (λ i '(x, t), exit_slot task i x t) (sh m, vm (pg m))) as Hl.
  rewrite He in Hl. apply Hl; [done|split; [done|rewrite Hid; by destruct (pg m)]|].
  intros i [x1 t1] Hi [Hsub M1]. destruct (exit_slot task i x1 t1) as [x2 t2] eqn:Es. unfold exit_slot in Es.
  destruct (used (g_shm x1 i)) eqn:Hu; cbn [negb] in Es; [|by injection Es as <- <-].
  pose proof (retire_minv _ i _ true task M1 Hi Hu (exit_slot_edits (g_shm x1 i) task (proj1 (mi_slot _ M1 i Hi Hu)))) as R.
  cbn [pg sh asp pend set_vm vm held spaces] in R. rewrite Es in R.
  assert (Hsub2 : ∀ f, f ∈ shm_frames x2 → f ∈ shm_frames x1).
  { pose proof (retire_frames _ _ _ _ _ _ Es) as Hr. intros f. rewrite !elem_shm_frames. intros (j & Hj & Hf). exists j. split; [done|].
    destruct (Hr j) as [(-> & [Hn|Hs])|[Hne Hs]]; [rewrite Hn in Hf; by apply not_elem_of_nil in Hf| |by rewrite <- Hs].
    rewrite Hs in Hf. by rewrite (edits_frames _ _ _ _ (exit_slot_edits (g_shm x1 i) task (proj1 (mi_slot _ M1 i Hi Hu)))) in Hf. }
  split; [auto|]. replace (given_back (sh m) x2 (held (pg m))) with (given_back x1 x2 (given_back (sh m) x1 (held (pg m)))); [by apply R; left; apply lookup_insert_eq|].
  unfold given_back. set_solver.
Qed.

Lemma simple_minv m task x' t' :
  minv m → simple_op task (sh m) (vm (pg m)) x' t' →
  minv (mkMsys (set_vm t' (given_back (sh m) x' (held (pg m))) (pg m)) x' (asp m) (pend m)).
Proof.
  intros M Hop. assert (Hid : given_back (sh m) (sh m) (held (pg m)) = held (pg m)) by (unfold given_back; set_solver).
  assert (M0 : minv (mkMsys (set_vm (vm (pg m)) (given_back (sh m) (sh m) (held (pg m))) (pg m)) (sh m) (asp m) (pend m))).
  { rewrite Hid. by destruct m as [[] ? ? ?]. }
  assert (Hed : ∀ i v, 0 ≤ i < KZ_SHM_MAX_RES → edits false task (g_shm (sh m) i) v →
    minv (mkMsys (set_vm (vm (pg m)) (given_back (sh m) (set_slot i v (sh m)) (held (pg m))) (pg m)) (set_slot i v (sh m)) (asp m) (pend m))).
  { intros i v Hi E. pose proof (edit_minv m i v false task M Hi E ltac:(done)) as R.
    assert (Hfr : shm_frames (set_slot i v (sh m)) = shm_frames (sh m)).
    { apply set_eq. intros f. rewrite !elem_shm_frames. apply exist_proper. intros j. rewrite g_shm_set. case_decide; [subst j|done].
      by rewrite (edits_frames _ _ _ _ E). }
    unfold given_back. rewrite Hfr, difference_diag_L, difference_empty_L. by destruct m as [[] ? ? ?]. }
  assert (Hacq : ∀ h r x', kz_shm_acquire task h (sh m) = (r, x') →
    minv (mkMsys (set_vm (vm (pg m)) (given_back (sh m) x' (held (pg m))) (pg m)) x' (asp m) (pend m))).
  { intros h r x2. unfold kz_shm_acquire. destruct (lookup h (sh m)) as [|i] eqn:El; [intros E; by injection E as _ <-|].
    apply shm_lookup_ok in El as (Hi & Hu & _). destruct (_ && _); [intros E; by injection E as _ <-|]. unfold add_ref.
    destruct (KZ_SHM_MAX_REFS <=? _); intros E; injection E as _ <-; [done|]. apply Hed; [done|]. by constructor; auto. }
  inversion Hop as [x t h dx dy dw dh r x2 He|x t h r x2 t2 He|x t h r x2 He|x t h r x2 t2 He|x t h r x2 He]; subst.
  - unfold kz_shm_publish in He. destruct (lookup h (sh m)) as [|i] eqn:El; [by injection He as _ <-|]. apply shm_lookup_ok in El as (Hi & Hu & _).
    destruct (negb _); [by injection He as _ <-|]. destruct (_ || _ || _); [by injection He as _ <-|]. destruct (_ || _); [by injection He as _ <-|].
    injection He as _ <-. apply Hed; [done|]. constructor; auto.
  - unfold kz_shm_destroy in He. destruct (lookup h (sh m)) as [|i] eqn:El; [by injection He as _ <- <-|]. apply shm_lookup_ok in El as (Hi & Hu & _).
    destruct (negb _); [by injection He as _ <- <-|]. pose proof (retire_minv m i (with_destroyed (g_shm (sh m) i)) false task M Hi Hu) as R.
    destruct (retire _ _ _ _) as [x3 t3]. injection He as _ <- <-. apply R; [constructor; auto|done].
  - by eapply Hacq.
  - unfold kz_shm_release in He. destruct (lookup_unmap h (sh m)) as [|i] eqn:El; [by injection He as _ <- <-|]. apply lookup_unmap_ok in El as (Hi & Hu).
    destruct (negb _); [by injection He as _ <- <-|]. pose proof (retire_minv m i (del_ref (g_shm (sh m) i) task) false task M Hi Hu) as R.
    destruct (retire _ _ _ _) as [x3 t3]. injection He as _ <- <-. apply R; [constructor; auto|done].
  - unfold kz_shm_consume in He. destruct (kz_shm_acquire task h (sh m)) as [e x3] eqn:Ea. apply Hacq in Ea. by destruct (negb _); injection He as _ <-.
Qed.

Lemma unmap_begin_minv m task r va idx n x' t' :
  minv m → asp m !! task = Some r → pend m !! task = None → unmap_begin task r va (sh m) (vm (pg m)) = (inr (idx, n), x', t') →
  minv (mkMsys (set_vm t' (given_back (sh m) x' (held (pg m))) (pg m)) x' (asp m) (<[task := PUnmap idx n]> (pend m))).
Proof.
  intros M Ha Hp. unfold unmap_begin. destruct (_ || _); [done|]. destruct (_ || _); [done|]. destruct (negb _); [done|].
  set (i0 := u32 _). destruct (KZ_SHM_MAX_RES <=? i0); [done|]. destruct (lookup_unmap _ (sh m)) as [|i] eqn:El; [done|].
  apply lookup_unmap_ok in El as [Hi Hu]. unfold has_map. rewrite has_task_spec. case_bool_decide as Hin; [|done]. cbn [negb].
  destruct (retire i _ (sh m) (vm (pg m))) as [x2 t2] eqn:Er.
  intros E. injection E as <- <- <- <-. destruct (mi_slot _ M i Hi Hu) as (Hnd & _ & Hcr & Hps).
  assert (Hn : 0 ≤ npages (g_shm (sh m) i) ≤ KZ_SHM_MAX_PAGES).
  { destruct (creating (g_shm (sh m) i)); [rewrite (Hcr eq_refl) in Hin; by apply not_elem_of_nil in Hin|].
    destruct (Hps eq_refl) as (ps & _ & _ & ? & _). lia. }
  assert (M0 : minv (mkMsys (pg m) (sh m) (asp m) (<[task := PUnmap i (npages (g_shm (sh m) i))]> (pend m)))).
  { apply mark_minv; [done|by eexists|by left|]. right. by exists i, (npages (g_shm (sh m) i)). }
  pose proof (retire_minv _ i (del_map (g_shm (sh m) i) task) true task M0 Hi Hu (del_map_edits _ _ Hnd)) as R.
  cbn [pg sh asp pend] in R. rewrite Er in R. apply R. intros _. right. exists (npages (g_shm (sh m) i)). apply lookup_insert_eq.
Qed.

(** An unmapping that has nothing left to do. *)
Lemma unmarked_minv m task idx n :
  minv m → pend m !! task = Some (PUnmap idx n) →
  (∀ r k, asp m !! task = Some r → in_window idx k → win (vm (pg m)) r idx k = None) →
  minv (mkMsys (pg m) (sh m) (asp m) (delete task (pend m))).
Proof.
  intros M Hp Hnone. apply (pend_minv m _ task); try done.
  - intros t Hne. by rewrite lookup_delete_ne.
  - intros o. by rewrite lookup_delete_eq.
  - intros r i k e Hr Hw He. unfold granted. cbn [pend sh]. rewrite lookup_delete_eq, Hp. case_decide as Hd; [|done]. subst i.
    by rewrite (Hnone r k Hr Hw) in He.
Qed.

Lemma map_fail_minv m task idx x' t' :
  minv m → pend m !! task = Some (PMapFail idx) → map_fail task idx (sh m) (vm (pg m)) = (x', t') →
  minv (mkMsys (set_vm t' (given_back (sh m) x' (held (pg m))) (pg m)) x' (asp m) (delete task (pend m))).
Proof.
  intros M Hp He. destruct (mi_pend _ M _ _ Hp) as [Ha (Hi & Hu & Hc & Hin)]. unfold map_fail in He.
  assert (M0 : minv (mkMsys (pg m) (sh m) (asp m) (<[task := PUnmap idx 0]> (pend m)))).
  { apply mark_minv; [done|done|right; by exists idx|]. right. exists idx, 0. split; [done|]. split; [done|]. split; [done|]. congruence. }
  destruct (mi_slot _ M idx Hi Hu) as (Hnd & _).
  pose proof (retire_minv _ idx (del_map (g_shm (sh m) idx) task) true task M0 Hi Hu (del_map_edits _ _ Hnd)) as R.
  cbn [pg sh asp pend] in R. rewrite He in R.
  assert (M1 : minv (mkMsys (set_vm t' (given_back (sh m) x' (held (pg m))) (pg m)) x' (asp m) (<[task := PUnmap idx 0]> (pend m)))).
  { apply R. intros _. right. exists 0. apply lookup_insert_eq. }
  pose proof (unmarked_minv _ task idx 0 M1) as R2. cbn [pg sh asp pend] in R2. rewrite delete_insert_eq in R2. apply R2; [apply lookup_insert_eq|].
  intros r k Hr Hw. destruct (win _ r idx k) as [e|] eqn:E; [|done]. destruct (mi_win _ M1 r idx k e) as (t & Hat & Hg); try done.
  { cbn. by apply (mi_asp _ M task). }
  cbn [asp] in Hat. rewrite (mi_inj _ M t task r Hat Hr) in Hg. unfold granted in Hg. cbn [pend] in Hg. rewrite lookup_insert_eq, decide_True in Hg by done.
  destruct Hw. lia.
Qed.

(** Memory changes in the window of one address space, in one slot. *)
Lemma win_minv m t' hs' task r idx q' :
  minv m → asp m !! task = Some r → sys_inv (mkSys t' hs' (spaces (pg m))) → held (pg m) ⊆ hs' →
  (∀ r' i k, r' ∈ spaces (pg m) → in_window i k → r' ≠ r ∨ i ≠ idx → win t' r' i k = win (vm (pg m)) r' i k) →
  (∀ t, t ≠ task → q' !! t = pend m !! t) →
  (∀ o, q' !! task = Some o → inside_ok (sh m) task o ∧ ∀ f, f ∈ inside_frames o → f ∈ hs' ∧ f ∉ held (pg m)) →
  (∀ i k e, i ≠ idx → in_window i k → granted m task i k e → granted (mkMsys (set_vm t' hs' (pg m)) (sh m) (asp m) q') task i k e) →
  (∀ k e, in_window idx k → win t' r idx k = Some e → granted (mkMsys (set_vm t' hs' (pg m)) (sh m) (asp m) q') task idx k e) →
  minv (mkMsys (set_vm t' hs' (pg m)) (sh m) (asp m) q').
Proof.
  intros M Ha Hinv Hsub Hwin Hq Ho Hg1 Hg2. pose proof M as [M1 M2 M3 M4 M5 M6 M7 M8].
  assert (Hfh : ∀ f, f ∈ shm_frames (sh m) → f ∈ held (pg m)).
  { intros f (j & Hj & Hf)%elem_shm_frames. unfold slot_frames in Hf. destruct (used (g_shm (sh m) j)) eqn:Hu; [|by apply not_elem_of_nil in Hf].
    destruct (creating (g_shm (sh m) j)) eqn:Hc; [by apply not_elem_of_nil in Hf|]. destruct (M4 j Hj Hu) as (_ & _ & _ & Hps).
    destruct (Hps Hc) as (ps & Hp & _ & _ & _ & Hh). rewrite Hp in Hf. by apply Hh. }
  constructor; cbn [pg sh asp pend set_vm vm held spaces]; try done.
  - intros i Hi Hu. destruct (M4 i Hi Hu) as (H1 & H2 & H3 & H4). split_and!; try done. intros Hc. destruct (H4 Hc) as (ps & P1 & P2 & P3 & P4 & P5).
    exists ps. split_and!; try done; try lia. auto.
  - intros t o Hto. destruct (decide (t = task)) as [->|Hne]; [split; [by eexists|by apply Ho]|]. apply M6. by rewrite <- Hq.
  - intros t o f Hto Hf. destruct (decide (t = task)) as [->|Hne].
    + destruct (Ho o Hto) as [_ Hfr]. destruct (Hfr f Hf) as [H1 H2]. split_and!; [done|auto|]. intros t2 o' Hto' Hf'.
      destruct (decide (t2 = task)) as [|Hne']; [done|]. rewrite Hq in Hto' by done. destruct (M7 t2 o' f Hto' Hf') as [? _]. done.
    + rewrite Hq in Hto by done. destruct (M7 t o f Hto Hf) as (H1 & H2 & H3). split_and!; [auto|done|]. intros t2 o' Hto' Hf'.
      destruct (decide (t2 = task)) as [->|Hne']; [by destruct (proj2 (Ho o' Hto') f Hf')|]. rewrite Hq in Hto' by done. by apply (H3 t2 o').
  - intros r' i k e Hr' Hw He. destruct (decide (r' = r ∧ i = idx)) as [[-> ->]|Hne]; [exists task; split; [done|by apply Hg2]|].
    rewrite Hwin in He; [|done|done|destruct (decide (r' = r)); [right; naive_solver|by left]]. destruct (M8 r' i k e Hr' Hw He) as (t & Hat & Hg). exists t. split; [done|].
    destruct (decide (t = task)) as [->|Hnt].
    + assert (r' = r) as -> by congruence. apply Hg1; [naive_solver|done|done].
    + revert Hg. apply granted_mono; [by apply Hq|by left].
Qed.
