(* ===== verification/ShmFree.v ===== *)
(** What giving up a surface does to the frame allocator ([maybe_free] and what uses it),
    and the generations that tell the surfaces of a slot apart. *)

From stdpp Require Import relations.
From S2P Require Import Prelude Bitmap Pmm RunQueue Paging PagingSpec PagingDestroy PagingIso PagingClone PagingSys Shm ShmWin ShmSys.

Implicit Types (m : msys) (s : slot) (x : shm) (t : vmm) (ps : list Z).

(** ** Frames given back *)

(** The allocator works, and has at least the free frames it had. *)
Definition freed_more t t' : Prop :=
  (∃ bm, pmm_wf (frames t') bm) ∧ total_pages (frames t') = total_pages (frames t) ∧
  ∀ j, is_free (frames t) j → is_free (frames t') j.

#[local] Instance freed_more_trans : Transitive freed_more.
Proof. intros t1 t2 t3 (_ & T1 & F1) (W & T2 & F2). split_and!; [done|congruence|auto]. Qed.

(** Frames the allocator can take back. *)
Definition returnable t (f : Z) : Prop := 0 < f ∧ f mod PAGE_SIZE = 0 ∧ pmm_page t f.

Lemma returnable_more t t' f : freed_more t t' → returnable t f → returnable t' f.
Proof. intros (_ & T & _) (H1 & H2 & H3 & H4). unfold returnable, pmm_page. rewrite T. done. Qed.

Lemma free_frames_free ps t :
  (∃ bm, pmm_wf (frames t) bm) → Forall (returnable t) ps →
  freed_more t (free_frames ps t) ∧ ∀ f, f ∈ ps → is_free (frames (free_frames ps t)) (f / PAGE_SIZE).
Proof.
  revert t. induction ps as [|p ps IH]; intros t Hwf Hps.
  { split; [by split_and!|]. by intros f ?%not_elem_of_nil. }
  apply Forall_cons in Hps as [(H0 & Hm & Hz & Ht) Hps]. destruct Hwf as [bm Hbm].
  destruct (free_frame_spec (frames t) bm p Hbm ltac:(lia)) as (W & T & F & _ & N).
  assert (Hmore : freed_more t (free_frame p t)) by (by split_and!).
  unfold free_frames. cbn [foldl]. destruct (Z.eqb_spec p 0); [lia|]. fold (free_frames ps (free_frame p t)).
  destruct (IH (free_frame p t)) as [Hmore' Hfree].
  { by destruct Hmore. }
  { eapply Forall_impl; [exact Hps|]. intros f. by apply returnable_more. }
  split; [by etrans|]. intros f [->|Hf]%elem_of_cons; [|by apply Hfree].
  destruct Hmore' as (_ & _ & Hmono). apply Hmono, N; done.
Qed.

Lemma free_frames_mem ps t : mem (free_frames ps t) = mem t.
Proof.
  revert t. induction ps as [|p ps IH]; intros t; [done|]. unfold free_frames in *. cbn [foldl].
  rewrite IH. by destruct (p =? 0).
Qed.

Lemma translate_mem t t' r va : mem t' = mem t → translate t' r va = translate t r va.
Proof.
  intros Hm. assert (Hrd : ∀ f i, rd t' f i = rd t f i) by (intros; by apply rd_mem).
  unfold translate, indices. cbn [trans]. by rewrite !Hrd.
Qed.

(** ** Slots *)

(** The frames of a surface are there to be given back. *)
Definition surface_ok t s : Prop :=
  used s = true → creating s = false →
  ∃ ps, pages s = Some ps ∧ zlength ps = npages s ∧ Forall (returnable t) ps.

Lemma surface_more t t' s : freed_more t t' → surface_ok t s → surface_ok t' s.
Proof.
  intros Hm Hs Hu Hc. destruct (Hs Hu Hc) as (ps & Hp & Hl & Hr). exists ps. split_and!; [done|done|].
  eapply Forall_impl; [exact Hr|]. intros f. by apply returnable_more.
Qed.

Lemma maybe_free_frees s t :
  (∃ bm, pmm_wf (frames t) bm) → surface_ok t s → used s = true →
  let '(s', t') := maybe_free s t in
  freed_more t t' ∧ (used s' = false → ∀ f, f ∈ slot_frames s → is_free (frames t') (f / PAGE_SIZE)).
Proof.
  intros Hwf Hs Hu. destruct (maybe_free_cases s t) as [->|(Hc & _ & _ & s' & -> & _)].
  { split; [by split_and!|congruence]. }
  destruct (Hs Hu Hc) as (ps & Hp & Hl & Hr). rewrite (slot_frames_used s ps) by done. rewrite Hp.
  rewrite take_ge by (unfold zlength in Hl; lia). destruct (free_frames_free ps t Hwf Hr) as [H1 H2].
  split; [done|]. intros _. exact H2.
Qed.

(** The slot the exit of a task leaves before [maybe_free]. *)
Lemma exit_slot_eq task i x t :
  used (g_shm x i) = true →
  ∃ v, exit_slot task i x t = retire i v x t ∧ used v = true ∧ creating v = creating (g_shm x i) ∧
    pages v = pages (g_shm x i) ∧ npages v = npages (g_shm x i).
Proof.
  intros Hu. unfold exit_slot. rewrite Hu. cbn [negb]. eexists. split; [reflexivity|].
  set (s1 := if has_map _ _ then _ else _).
  destruct (drop_refs_same (length (refs s1)) s1 task) as (D1 & _ & D3 & _ & _ & D6 & D7 & _).
  assert (H1 : used s1 = true ∧ creating s1 = creating (g_shm x i) ∧ pages s1 = pages (g_shm x i) ∧ npages s1 = npages (g_shm x i))
    by (unfold s1; by destruct (has_map _ _)).
  destruct H1 as (<- & <- & <- & <-). by destruct (_ && _).
Qed.

Lemma exit_slot_frees task i x t :
  (∃ bm, pmm_wf (frames t) bm) → surface_ok t (g_shm x i) →
  let '(x', t') := exit_slot task i x t in
  freed_more t t' ∧
  (used (g_shm x' i) = false → ∀ f, f ∈ slot_frames (g_shm x i) → is_free (frames t') (f / PAGE_SIZE)).
Proof.
  intros Hwf Hs. destruct (used (g_shm x i)) eqn:Hu.
  - destruct (exit_slot_eq task i x t Hu) as (v & -> & Hv & Hc & Hp & Hn). unfold retire.
    assert (Hf : slot_frames v = slot_frames (g_shm x i)) by (unfold slot_frames; by rewrite Hv, Hc, Hp, Hu).
    pose proof (maybe_free_frees v t Hwf) as Hm. destruct (maybe_free v t) as [v' t'].
    rewrite g_shm_set, decide_True, <- Hf by done. apply Hm; [|done].
    intros _. rewrite Hc, Hp, Hn. by apply Hs.
  - unfold exit_slot. rewrite Hu. cbn [negb]. split; [by split_and!|]. intros _ f. unfold slot_frames. rewrite Hu.
    by intros ?%not_elem_of_nil.
Qed.

Lemma exit_slot_others task i x t j : j ≠ i → g_shm (exit_slot task i x t).1 j = g_shm x j.
Proof.
  intros Hne. unfold exit_slot. destruct (negb _); [done|]. unfold retire.
  destruct (maybe_free _ t) as [v' t']. cbn [fst]. by rewrite g_shm_set, decide_False.
Qed.

(** The frames of every surface an exit frees are free afterwards. *)
Lemma exit_frees task x t :
  (∃ bm, pmm_wf (frames t) bm) → (∀ i, 0 ≤ i < KZ_SHM_MAX_RES → surface_ok t (g_shm x i)) →
  let '(x', t') := kz_shm_task_exit task x t in
  ∀ i f, 0 ≤ i < KZ_SHM_MAX_RES → used (g_shm x i) = true → used (g_shm x' i) = false → f ∈ slot_frames (g_shm x i) →
    is_free (frames t') (f / PAGE_SIZE).
Proof.
  intros Hwf Hs. unfold kz_shm_task_exit. destruct (task <? 0); [congruence|].
  pose proof (for_each_upto (λ n '(x1, t1), (∀ j, n ≤ j → g_shm x1 j = g_shm x j) ∧ freed_more t t1 ∧
    ∀ j f, 0 ≤ j < n → used (g_shm x1 j) = false → f ∈ slot_frames (g_shm x j) → is_free (frames t1) (f / PAGE_SIZE))
    0 KZ_SHM_MAX_RES (λ i '(x, t), exit_slot task i x t) (x, t)) as Hl.
  destruct (for_each 0 KZ_SHM_MAX_RES _ (x, t)) as [x' t'].
  destruct Hl as (_ & _ & Hl); [done| | |intros i f Hi _; by apply Hl].
  { split; [done|]. split; [by split_and!|]. intros; lia. }
  intros n [x1 t1] Hn (Hge & Hm & Hlt). pose proof (exit_slot_frees task n x1 t1) as He.
  pose proof (exit_slot_others task n x1 t1) as Ho. rewrite (Hge n ltac:(lia)) in He.
  destruct (exit_slot task n x1 t1) as [x2 t2]. cbn [fst] in Ho.
  destruct He as [Hm2 Hf]; [by destruct Hm|by eapply surface_more, Hs|]. refine (conj _ (conj _ _)).
  - intros j Hj. rewrite Ho by lia. apply Hge. lia.
  - by etrans.
  - intros j f Hj Hu Hin. destruct (decide (j = n)) as [->|Hne]; [by apply Hf|].
    rewrite Ho in Hu by done. apply Hm2, (Hlt j f); [lia|done|done].
Qed.

Lemma minv_surfaces m i : minv m → 0 ≤ i < KZ_SHM_MAX_RES → surface_ok (vm (pg m)) (g_shm (sh m) i).
Proof.
  intros M Hi Hu Hc. destruct (mi_slot _ M i Hi Hu) as (_ & _ & _ & Hps). destruct (Hps Hc) as (ps & Hp & Hl & _ & _ & Hh).
  exists ps. split; [done|split; [done|]]. apply Forall_forall. intros f Hf. destruct (mi_pg _ M) as (tags & Hiso & _).
  destruct (is_held _ _ _ Hiso f (Hh f Hf)) as (_ & [H1 H2] & H3 & _). split; [lia|]. by split.
Qed.

Lemma minv_pmm m : minv m → ∃ bm, pmm_wf (frames (vm (pg m))) bm.
Proof. intros M. destruct (mi_pg _ M) as (tags & Hiso & _). apply (vk_pmm _ _ (is_vm _ _ _ Hiso)). Qed.

(** ** Generations *)

(** A surface in use has a generation a handle can carry. *)
Definition gens_ok x : Prop :=
  0 ≤ g_shm_gen x < 2 ^ 32 ∧ ∀ i, used (g_shm x i) = true → 0 < generation (g_shm x i) < 2 ^ 32.

Lemma set_gens x i v :
  gens_ok x → (used v = true → used (g_shm x i) = true ∧ generation v = generation (g_shm x i)) → gens_ok (set_slot i v x).
Proof.
  intros [Hg Hx] Hv. split; [done|]. intros j. rewrite g_shm_set. case_decide; [|apply Hx].
  intros Hu. destruct (Hv Hu) as [Hu' ->]. by apply Hx.
Qed.

Lemma retire_gens x i v t :
  gens_ok x → used v = used (g_shm x i) → generation v = generation (g_shm x i) → gens_ok (retire i v x t).1.
Proof.
  intros Hx Hu Hg. unfold retire. destruct (maybe_free_cases v t) as [->|(_ & _ & _ & v' & -> & Hv')]; cbn [fst];
    apply set_gens; try done; rewrite ?Hu, ?Hv'; done.
Qed.

Lemma drop_refs_gen fuel s task : generation (drop_refs fuel s task) = generation s.
Proof. revert s. induction fuel as [|fuel IH]; intros s; cbn [drop_refs]; [done|]. destruct (has_ref s task); [by rewrite IH|done]. Qed.

Lemma exit_gens task x t : gens_ok x → gens_ok (kz_shm_task_exit task x t).1.
Proof.
  intros Hx. unfold kz_shm_task_exit. destruct (task <? 0); [done|].
  apply (for_each_upto (λ _ y, gens_ok y.1)); [done|done|]. intros i [x1 t1] _ H1. cbn [fst] in H1. unfold exit_slot.
  destruct (used (g_shm x1 i)) eqn:Hu; cbn [negb]; [|done]. apply retire_gens; [done| |].
  - set (s1 := if has_map _ _ then _ else _). assert (Hu1 : used s1 = true) by (unfold s1; by destruct (has_map _ _)).
    destruct (drop_refs_same (length (refs s1)) s1 task) as [D _]. rewrite Hu1 in D. rewrite Hu. by destruct (_ && _).
  - set (s1 := if has_map _ _ then _ else _).
    assert (Hg1 : generation s1 = generation (g_shm x1 i)) by (unfold s1; by destruct (has_map _ _)).
    pose proof (drop_refs_gen (length (refs s1)) s1 task) as D. rewrite Hg1 in D. by destruct (_ && _).
Qed.

Lemma simple_gens task x t x' t' : simple_op task x t x' t' → gens_ok x → gens_ok x'.
Proof.
  assert (Hacq : ∀ h r y, kz_shm_acquire task h x = (r, y) → gens_ok x → gens_ok y).
  { unfold kz_shm_acquire, add_ref. intros h r y E Hx. repeat case_match; simplify_eq; try done. by apply set_gens. }
  intros Hop Hx. destruct Hop as [? ? ? ? ? ? ? ? ? E|? ? ? ? ? ? E|? ? ? ? ? E|? ? ? ? ? ? E|? ? ? ? ? E].
  - unfold kz_shm_publish in E. repeat case_match; simplify_eq; try done. by apply set_gens.
  - unfold kz_shm_destroy in E. repeat case_match; simplify_eq; try done.
    match goal with H : retire ?i ?v _ _ = _ |- _ => pose proof (retire_gens _ i v t Hx eq_refl eq_refl) as R; rewrite H in R end. done.
  - by eapply Hacq.
  - unfold kz_shm_release in E. repeat case_match; simplify_eq; try done.
    match goal with H : retire ?i ?v _ _ = _ |- _ => pose proof (retire_gens _ i v t Hx eq_refl eq_refl) as R; rewrite H in R end. done.
  - unfold kz_shm_consume in E. destruct (kz_shm_acquire task h x) as [e y] eqn:Ea. repeat case_match; simplify_eq; by eapply Hacq.
Qed.

Lemma create_begin_gens task x : gens_ok x → gens_ok (create_begin task x).2.
Proof.
  intros [Hg Hx]. unfold create_begin. destruct (unused_slot x) as [idx|]; [|done]. cbn [snd].
  set (gen := if _ =? 0 then 1 else _). assert (0 < gen < 2 ^ 32) by (unfold gen; zcase).
  split; cbn [g_shm_gen g_shm].
  - pose proof (u32_range (gen + 1)). zcase.
  - intros j. unfold fset. destruct (j =? idx); [done|]. apply Hx.
Qed.

Lemma mstep_gens m m' : mstep m m' → gens_ok (sh m) → gens_ok (sh m').
Proof.
  intros Hst Hx. destruct Hst; cbn [sh] in *; try done.
  - match goal with H : create_begin ?task ?x = _ |- _ => pose proof (create_begin_gens task x Hx) as R; rewrite H in R end. done.
  - by apply set_gens.
  - by apply set_gens.
  - match goal with H : map_begin _ _ _ _ _ = _ |- _ => revert H end.
    unfold map_begin, add_map. intros E. repeat case_match; simplify_eq; try done. by apply set_gens.
  - match goal with H : map_fail ?task ?idx ?x ?t = _ |- _ =>
      pose proof (retire_gens x idx (del_map (g_shm x idx) task) t Hx eq_refl eq_refl) as R; unfold map_fail in H; rewrite H in R end. done.
  - match goal with H : unmap_begin _ _ _ _ _ = _ |- _ => revert H end. unfold unmap_begin. intros E.
    repeat case_match; simplify_eq; try done.
    match goal with H : retire ?i ?v _ ?t = _ |- _ => pose proof (retire_gens _ i v t Hx eq_refl eq_refl) as R; rewrite H in R end. done.
  - by eapply simple_gens.
  - match goal with H : kz_shm_task_exit ?task ?x ?t = _ |- _ => pose proof (exit_gens task x t Hx) as R; rewrite H in R end. done.
Qed.

(** A handle carries its generation and its slot. *)
Lemma handle_fields g i : 0 < g < 2 ^ 32 → 0 ≤ i < 16 → kz_shm_idx (kz_shm_handle g i) = i ∧ kz_shm_gen (kz_shm_handle g i) = g.
Proof.
  intros Hg Hi. unfold kz_shm_handle. rewrite Z.shiftl_mul_pow2, u64_id by lia.
  rewrite (lor_low _ i 32) by (lia || zdiv). unfold kz_shm_idx, kz_shm_gen. change 0xFFFFFFFF with (Z.ones 32).
  rewrite Z.land_ones, Z.shiftr_div_pow2 by lia. rewrite !u32_id by zdiv. split; zdiv.
Qed.
