(* ===== verification/ShmSafe.v ===== *)
(** The invariant of [ShmSys] holds in every reachable state, and what follows from it: a
    page of a shared surface is mapped only in address spaces the surface is registered
    for, with the rights of their tasks, and its frame belongs to that surface alone. *)

From stdpp Require Import relations.
From S2P Require Import Prelude Bitmap Pmm RunQueue Paging PagingSpec PagingDestroy PagingIso PagingClone PagingSys Shm ShmWin ShmSys ShmFree.

Implicit Types (m : msys) (s : slot) (x : shm) (o : inside).

(** ** Creation *)
Lemma unused_slot_ok x i : unused_slot x = Some i → 0 ≤ i < KZ_SHM_MAX_RES ∧ used (g_shm x i) = false.
Proof.
  unfold unused_slot. pose proof (for_range_rule (λ (_ : Z) (_ : unit), True) (λ i, 0 ≤ i < KZ_SHM_MAX_RES ∧ used (g_shm x i) = false) 0 KZ_SHM_MAX_RES
    (λ i (_ : unit), if negb (used (g_shm x i)) then inl i else inr tt) tt I) as Hl.
  destruct (for_range _ _ _ tt) as [j|]; [|done]. intros E. injection E as ->. apply Hl. intros j0 [] Hj _.
  destruct (used (g_shm x j0)) eqn:Eu; cbn [negb]; [done|by split].
Qed.

Lemma create_check_ok task r w h fmt n : create_check task r w h fmt = inr n → 0 < n ≤ KZ_SHM_MAX_PAGES.
Proof.
  unfold create_check. destruct (_ || _); [done|]. destruct (_ && _); [done|]. destruct (negb _); [done|].
  set (k := u32 _). assert (0 ≤ k) by (apply Z.mod_pos_bound; lia). destruct (Z.eqb_spec k 0); [done|]. destruct (Z.ltb_spec KZ_SHM_MAX_PAGES k); [done|].
  cbn [orb]. intros E. injection E as <-. lia.
Qed.

(** A slot that has no frames before and after, and no mappings. *)
Lemma bare_minv m i v g task q' :
  minv m → 0 ≤ i < KZ_SHM_MAX_RES → used (g_shm (sh m) i) = false ∨ creating (g_shm (sh m) i) = true →
  used v = false ∨ creating v = true ∧ maps v = [] →
  (∀ t, t ≠ task → q' !! t = pend m !! t) → (∀ t o, t ≠ task → pend m !! t = Some o → inside_ok (set_slot i v (sh m)) t o) →
  (∀ o, q' !! task = Some o → is_Some (asp m !! task) ∧ inside_ok (set_slot i v (sh m)) task o ∧ inside_frames o = []) →
  (∀ j k e, granted m task j k e → j ≠ i ∧ registered (sh m) task j k e) → (q' !! task = None ∨ ∃ n w h fmt, q' !! task = Some (PCreate i n w h fmt)) →
  minv (mkMsys (pg m) (mkShm (fset i v (g_shm (sh m))) g) (asp m) q').
Proof.
  intros [M1 M2 M3 M4 M5 M6 M7 M8] Hi Hold Hnew Hq Hin Ho Hg Hcase. set (x' := mkShm (fset i v (g_shm (sh m))) g).
  assert (Hx : ∀ j, g_shm x' j = if decide (j = i) then v else g_shm (sh m) j) by (intros j; apply (g_shm_set i v (sh m) j)).
  assert (Hreg : ∀ t j k e, registered (sh m) t j k e → registered x' t j k e).
  { intros t j k e Hr. unfold registered in *. rewrite Hx. case_decide as Hd; [|done]. subst j. destruct Hr as (? & ? & _). destruct Hold; congruence. }
  assert (Hfr : ∀ j, slot_frames (g_shm x' j) = slot_frames (g_shm (sh m) j)).
  { intros j. rewrite Hx. case_decide as Hd; [subst j|done]. unfold slot_frames.
    replace (used v && negb (creating v)) with false by (destruct Hnew as [Hv|[Hv _]]; rewrite Hv; by rewrite ?andb_false_r).
    by replace (used (g_shm (sh m) i) && negb (creating (g_shm (sh m) i))) with false by (destruct Hold as [Hv|Hv]; rewrite Hv; by rewrite ?andb_false_r). }
  assert (Hall : shm_frames x' = shm_frames (sh m)) by (apply set_eq; intros f; rewrite !elem_shm_frames; by setoid_rewrite Hfr).
  constructor; cbn [pg sh asp pend]; try done.
  - intros j Hj. rewrite Hx. case_decide as Hd; [subst j|by apply M4]. intros Hu. destruct Hnew as [?|[Hc Hm]]; [congruence|].
    rewrite Hm. split_and!; [constructor|by intros t ?%not_elem_of_nil|done|congruence].
  - intros j j' f. rewrite !Hfr. apply M5.
  - intros t o Hto. destruct (decide (t = task)) as [->|Hne]; [destruct (Ho o Hto) as (? & ? & _); done|].
    rewrite Hq in Hto by done. split; [by apply (M6 t o)|]. by apply Hin.
  - intros t o f Hto Hf. rewrite Hall. destruct (decide (t = task)) as [->|Hne].
    { destruct (Ho o Hto) as (_ & _ & Hn). rewrite Hn in Hf. by apply not_elem_of_nil in Hf. }
    rewrite Hq in Hto by done. destruct (M7 t o f Hto Hf) as (H1 & H2 & H3). split_and!; try done. intros t' o' Hto' Hf'.
    destruct (decide (t' = task)) as [->|Hne']; [destruct (Ho o' Hto') as (_ & _ & Hn); rewrite Hn in Hf'; by apply not_elem_of_nil in Hf'|].
    rewrite Hq in Hto' by done. by apply (H3 t' o').
  - intros r j k e Hr Hw He. destruct (M8 r j k e Hr Hw He) as (t & Ha & Hgt). exists t. split; [done|].
    destruct (decide (t = task)) as [->|Hne].
    + destruct (Hg j k e Hgt) as [Hji Hrg%Hreg]. unfold granted. cbn [pend sh]. by destruct Hcase as [->|(n & w & h & fmt & ->)].
    + revert Hgt. apply granted_mono; [by apply Hq|]. left. by apply Hreg.
Qed.

(** A task that is not concerned with the slot. *)
Lemma inside_other x task o i v :
  inside_ok x task o → creating (g_shm x i) = true → sowner (g_shm x i) ≠ task → task ∉ maps (g_shm x i) → inside_ok (set_slot i v x) task o.
Proof.
  intros Ho Hc Hown Hm. destruct o as [j n w h fm|j n w h fm ps|j|j fl|j|j n|]; cbn [inside_ok] in *; try done; rewrite !g_shm_set; (case_decide as Hd; [subst j|done]).
  1,2: by destruct Ho as (_ & _ & _ & ? & _).
  all: by destruct Ho as (_ & _ & ? & ?).
Qed.

Lemma create_begin_minv m task r w h fmt n idx gen x' :
  minv m → asp m !! task = Some r → pend m !! task = None → create_check task r w h fmt = inr n → create_begin task (sh m) = (Some (idx, gen), x') →
  minv (mkMsys (pg m) x' (asp m) (<[task := PCreate idx n w h fmt]> (pend m))).
Proof.
  intros M Ha Hp Hck Hb. unfold create_begin in Hb. destruct (unused_slot (sh m)) as [i|] eqn:Ef; [|done]. injection Hb as <- <- <-.
  apply unused_slot_ok in Ef as [Hi Hu]. apply create_check_ok in Hck. apply (bare_minv m i _ _ task); try done.
  - by left.
  - by right.
  - intros t Hne. by rewrite lookup_insert_ne.
  - intros t o Hne Ho. destruct (mi_pend _ M t o Ho) as [_ Hok]. apply inside_set; [done|]. intros _ Hu'. congruence.
  - intros o. rewrite lookup_insert_eq. intros E. injection E as <-. split; [by eexists|]. split; [|done]. cbn [inside_ok].
    rewrite g_shm_set, decide_True by done. done.
  - intros j k e. unfold granted. rewrite Hp. intros Hr. split; [|done]. intros ->. destruct Hr as (? & _). congruence.
  - right. exists n, w, h, fmt. apply lookup_insert_eq.
Qed.

Lemma create_fail_minv m task idx :
  minv m → pend m !! task = Some (PFail idx) → minv (mkMsys (pg m) (create_fail idx (sh m)) (asp m) (delete task (pend m))).
Proof.
  intros M Hp. destruct (mi_pend _ M _ _ Hp) as [Ha (Hi & Hu & Hc & Hown)]. unfold create_fail, set_slot. apply (bare_minv m idx _ _ task); try done.
  - by right.
  - by left.
  - intros t Hne. by rewrite lookup_delete_ne.
  - intros t o Hne Ho. destruct (mi_pend _ M t o Ho) as [_ Hok]. destruct (mi_slot _ M idx Hi Hu) as (_ & _ & Hm & _). specialize (Hm Hc).
    apply (inside_other (sh m) t o idx); [done|done|congruence|rewrite Hm; apply not_elem_of_nil].
  - intros o. by rewrite lookup_delete_eq.
  - intros j k e. unfold granted. by rewrite Hp.
  - left. apply lookup_delete_eq.
Qed.

Lemma create_middle_minv m task r w h fmt n idx ok res t' :
  minv m → asp m !! task = Some r → pend m !! task = Some (PCreate idx n w h fmt) → create_middle ok idx n r (vm (pg m)) = (res, t') →
  minv (mkMsys (set_vm t' (match res with Some ps => list_to_set ps ∪ held (pg m) | None => held (pg m) end) (pg m)) (sh m) (asp m)
    (<[task := match res with Some ps => PMade idx n w h fmt ps | None => PFail idx end]> (pend m))).
Proof.
  intros M Ha Hp He. destruct (mi_pend _ M _ _ Hp) as [_ (Hi & Hu & Hc & Hown & Hn)].
  pose proof (create_middle_ok ok (pg m) r idx n (mi_pg _ M) (mi_asp _ M _ _ Ha) Hi ltac:(lia)) as Hm. rewrite He in Hm.
  assert (Hempty : ∀ k, in_window idx k → win (vm (pg m)) r idx k = None).
  { intros k Hw. destruct (win (vm (pg m)) r idx k) as [e|] eqn:E; [|done].
    destruct (mi_win _ M r idx k e (mi_asp _ M _ _ Ha) Hw E) as (t & Hat & Hg). rewrite (mi_inj _ M _ _ _ Hat Ha) in Hg.
    unfold granted in Hg. rewrite Hp in Hg. by destruct Hg. }
  assert (Hold : ∀ i k e, i ≠ idx → granted m task i k e → registered (sh m) task i k e) by (intros i k e _; unfold granted; by rewrite Hp; intros [_ ?]).
  destruct res as [ps|].
  - destruct Hm as (Hl & Hnd & Hfr & Hinv & Hwin). apply (win_minv m t' _ task r idx); try done.
    + set_solver.
    + intros r' i k Hr' Hw Hne. rewrite (Hwin r' i k Hr' Hw), bool_decide_false; [done|]. destruct Hne; tauto.
    + intros t Hne. by rewrite lookup_insert_ne.
    + intros o. rewrite lookup_insert_eq. intros E. injection E as <-. split; [done|]. cbn [inside_frames]. intros f Hf. split; [set_solver|by apply Hfr].
    + intros i k e Hne Hw Hg. unfold granted. cbn [pend sh]. rewrite lookup_insert_eq, decide_False by done. by eapply Hold.
    + intros k e Hw. rewrite (Hwin r idx k (mi_asp _ M _ _ Ha) Hw). case_bool_decide as Hd; [|by rewrite Hempty].
      intros E. injection E as <-. unfold granted. cbn [pend sh]. rewrite lookup_insert_eq, decide_True by done.
      destruct Hw as [_ Hk]. exists (lget ps k). split; [|done]. apply lget_some. lia.
  - destruct Hm as (Hinv & j & Hwin). apply (win_minv m t' _ task r idx); try done.
    + intros r' i k Hr' Hw Hne. rewrite (Hwin r' i k Hr' Hw), bool_decide_false; [done|]. destruct Hne; tauto.
    + intros t Hne. by rewrite lookup_insert_ne.
    + intros o. rewrite lookup_insert_eq. intros E. injection E as <-. split; [done|]. by intros f ?%not_elem_of_nil.
    + intros i k e Hne Hw Hg. unfold granted. cbn [pend sh]. rewrite lookup_insert_eq. split; [done|]. by eapply Hold.
    + intros k e Hw. rewrite (Hwin r idx k (mi_asp _ M _ _ Ha) Hw). case_bool_decide; [done|]. by rewrite Hempty.
Qed.

Lemma create_end_minv m task w h fmt n idx ps :
  minv m → pend m !! task = Some (PMade idx n w h fmt ps) →
  minv (mkMsys (pg m) (create_end task idx w h fmt n ps (sh m)) (asp m) (delete task (pend m))).
Proof.
  intros M Hp. pose proof M as [M1 M2 M3 M4 M5 M6 M7 M8]. destruct (M6 _ _ Hp) as [Ha (Hi & Hu & Hc & Hown & Hn & Hl & Hnd)].
  destruct (M4 idx Hi Hu) as (_ & _ & Hmaps & _). specialize (Hmaps Hc). unfold create_end. set (v := mkSlot _ _ _ _ _ _ _ _ _ _ _ _ _ _ _).
  set (x' := set_slot idx v (sh m)).
  assert (Hx : ∀ j, g_shm x' j = if decide (j = idx) then v else g_shm (sh m) j) by (intros j; apply g_shm_set).
  assert (Hreg : ∀ t j k e, registered (sh m) t j k e → registered x' t j k e).
  { intros t j k e Hr. unfold registered in *. rewrite Hx. case_decide as Hd; [|done]. subst j. destruct Hr as (? & ? & _). congruence. }
  assert (Hfr : ∀ j, slot_frames (g_shm x' j) = if decide (j = idx) then ps else slot_frames (g_shm (sh m) j)).
  { intros j. rewrite Hx. case_decide as Hd; [|done]. apply slot_frames_used; done. }
  assert (Hps : ∀ f, f ∈ ps → f ∈ held (pg m) ∧ (∀ j, 0 ≤ j < KZ_SHM_MAX_RES → f ∉ slot_frames (g_shm (sh m) j)) ∧
    ∀ t' o', pend m !! t' = Some o' → f ∈ inside_frames o' → t' = task).
  { intros f Hf. destruct (M7 task _ f Hp Hf) as (H1 & H2 & H3). split_and!; try done. intros j Hj Hfj. apply H2, elem_shm_frames. by exists j. }
  constructor; cbn [pg sh asp pend]; try done.
  - intros j Hj. rewrite Hx. case_decide as Hd; [subst j|by apply M4]. intros _. cbn [maps v sowner published creating pages npages]. split_and!.
    + apply NoDup_singleton.
    + intros t ->%list_elem_of_singleton. congruence.
    + done.
    + intros _. exists ps. split_and!; try done; try lia. intros f Hf. by apply Hps.
  - intros j j' f Hj Hj'. rewrite !Hfr. destruct (decide (j = idx)) as [->|], (decide (j' = idx)) as [->|]; [done| | |by apply M5].
    + intros Hf Hf'. by destruct (proj1 (proj2 (Hps f Hf)) j' Hj').
    + intros Hf Hf'. by destruct (proj1 (proj2 (Hps f Hf')) j Hj).
  - intros t o Hto. destruct (decide (t = task)) as [->|Hne]; [by rewrite lookup_delete_eq in Hto|]. rewrite lookup_delete_ne in Hto by done.
    destruct (M6 t o Hto) as [? Hok]. split; [done|]. apply inside_other; [done|done|congruence|rewrite Hmaps; apply not_elem_of_nil].
  - intros t o f Hto Hf. destruct (decide (t = task)) as [->|Hne]; [by rewrite lookup_delete_eq in Hto|]. rewrite lookup_delete_ne in Hto by done.
    destruct (M7 t o f Hto Hf) as (H1 & H2 & H3). split_and!; [done| |].
    + intros (j & Hj & Hfj)%elem_shm_frames. rewrite Hfr in Hfj. case_decide as Hd; [|apply H2, elem_shm_frames; by exists j].
      apply Hne. by apply (proj2 (proj2 (Hps f Hfj)) t o).
    + intros t' o' Hto' Hf'. destruct (decide (t' = task)) as [->|Hne']; [by rewrite lookup_delete_eq in Hto'|]. rewrite lookup_delete_ne in Hto' by done.
      by apply (H3 t' o').
  - intros r j k e Hr Hw He. destruct (M8 r j k e Hr Hw He) as (t & Hat & Hg). exists t. split; [done|].
    destruct (decide (t = task)) as [->|Hne]; [|revert Hg; apply granted_mono; [cbn; by rewrite lookup_delete_ne|]; left; by apply Hreg].
    unfold granted in *. cbn [pend sh]. rewrite lookup_delete_eq. rewrite Hp in Hg. case_decide as Hd; [|by apply Hreg]. subst j.
    destruct Hg as (f & Hf & ->). unfold registered. rewrite Hx, decide_True by done. cbn [used creating maps pages sowner v]. split_and!; try done; [by left|].
    by exists ps, f, true.
Qed.

(** ** Mapping *)
Lemma map_begin_minv m task r h flags idx x' :
  minv m → asp m !! task = Some r → pend m !! task = None → map_begin task r h flags (sh m) = (inr idx, x') →
  minv (mkMsys (pg m) x' (asp m) (<[task := PMap idx flags]> (pend m))).
Proof.
  intros M Ha Hp. unfold map_begin. destruct (_ || _); [done|]. destruct (lookup h (sh m)) as [|i] eqn:El; [done|].
  apply shm_lookup_ok in El as (Hi & Hu & _). set (s := g_shm (sh m) i) in *. destruct (creating s) eqn:Hc; [done|].
  unfold has_map. rewrite has_task_spec. case_bool_decide as Hin; [done|].
  destruct (negb (task =? sowner s) && _) eqn:Eo; [done|]. unfold add_map. destruct (KZ_SHM_MAX_MAPS <=? _); [done|].
  intros E. injection E as <- <-. set (v := with_maps (maps s ++ [task]) s). pose proof M as [M1 M2 M3 M4 M5 M6 M7 M8].
  assert (Hx : ∀ j, g_shm (set_slot i v (sh m)) j = if decide (j = i) then v else g_shm (sh m) j) by (intros j; apply g_shm_set).
  assert (Hfr : ∀ j, slot_frames (g_shm (set_slot i v (sh m)) j) = slot_frames (g_shm (sh m) j)) by (intros j; rewrite Hx; by case_decide as Hd; [subst j|]).
  assert (Hall : shm_frames (set_slot i v (sh m)) = shm_frames (sh m)) by (apply set_eq; intros f; rewrite !elem_shm_frames; by setoid_rewrite Hfr).
  assert (Hreg : ∀ t j k e, registered (sh m) t j k e → registered (set_slot i v (sh m)) t j k e).
  { intros t j k e Hr. unfold registered in *. rewrite Hx. case_decide as Hd; [subst j|done]. destruct Hr as (R1 & R2 & R3 & R4). split_and!; try done.
    apply elem_of_app. by left. }
  destruct (M4 i Hi Hu) as (Hnd & Hpub & _ & Hps).
  assert (M' : minv (mkMsys (pg m) (set_slot i v (sh m)) (asp m) (pend m))).
  { constructor; cbn [pg sh asp pend]; try done.
    - intros j Hj. rewrite Hx. case_decide as Hd; [subst j|by apply M4]. intros _. split_and!; [| |intros Hcv; change (creating s = true) in Hcv; congruence|done].
      + apply NoDup_app. split; [done|]. split; [|apply NoDup_singleton]. intros t Ht ->%list_elem_of_singleton. done.
      + intros t [Ht| ->%list_elem_of_singleton]%elem_of_app Hne; [by apply (Hpub t)|]. cbn [published v with_maps sowner] in *.
        destruct (published s); [done|]. destruct (Z.eqb_spec task (sowner s)); [done|]. cbn in Eo. done.
    - intros j j' f. rewrite !Hfr. apply M5.
    - intros t o Ho. destruct (M6 t o Ho) as [? Hok]. split; [done|]. apply inside_set; [done|]. intros _ _ _.
      destruct o; try done; split_and!; try done; intros; apply elem_of_app; by left.
    - intros t o f Ho Hf. rewrite Hall. by apply (M7 t o).
    - intros r' j k e Hr Hw He. destruct (M8 r' j k e Hr Hw He) as (t & Hat & Hg). exists t. split; [done|]. revert Hg.
      apply granted_mono; [done|]. left. by apply Hreg. }
  apply (pend_minv _ _ task M'); cbn [pg sh asp pend].
  - intros t Hne. by rewrite lookup_insert_ne.
  - intros o. rewrite lookup_insert_eq. intros E. injection E as <-. split; [by eexists|]. split; [|done]. cbn [inside_ok].
    rewrite Hx, decide_True by done. split_and!; try done; try lia. apply elem_of_app. right. by left.
  - intros r' j k e Har Hw He _. destruct (M8 r' j k e (M2 _ _ Har) Hw He) as (t & Hat & Hg). rewrite (M3 _ _ _ Hat Har) in Hg.
    unfold granted in *. cbn [pend sh]. rewrite lookup_insert_eq. rewrite Hp in Hg. split; [|by apply Hreg]. intros ->. by destruct Hg as (_ & _ & ? & _).
Qed.

(** The window of the slot before the loop is empty. *)
Lemma map_empty m task r idx k o :
  minv m → asp m !! task = Some r → pend m !! task = Some o → (∃ fl, o = PMap idx fl) → in_window idx k → win (vm (pg m)) r idx k = None.
Proof.
  intros M Ha Hp [fl ->] Hw. destruct (win (vm (pg m)) r idx k) as [e|] eqn:E; [|done].
  destruct (mi_win _ M r idx k e (mi_asp _ M _ _ Ha) Hw E) as (t & Hat & Hg). rewrite (mi_inj _ M _ _ _ Hat Ha) in Hg.
  unfold granted in Hg. rewrite Hp in Hg. by destruct Hg.
Qed.

Lemma map_middle_minv m task r idx flags :
  minv m → asp m !! task = Some r → pend m !! task = Some (PMap idx flags) →
  match map_middle task r flags idx (sh m) (vm (pg m)) with
  | inr t' => minv (mkMsys (set_vm t' (held (pg m)) (pg m)) (sh m) (asp m) (delete task (pend m)))
  | inl t' => minv (mkMsys (set_vm t' (held (pg m)) (pg m)) (sh m) (asp m) (<[task := PMapFail idx]> (pend m)))
  end.
Proof.
  intros M Ha Hp. destruct (mi_pend _ M _ _ Hp) as [_ (Hi & Hu & Hc & Hin)]. destruct (mi_slot _ M idx Hi Hu) as (_ & _ & _ & Hps).
  destruct (Hps Hc) as (ps & Epg & Hl & Hn & Hnd & Hheld). unfold map_middle. rewrite Epg. change (default [] (Some ps)) with ps. rewrite take_ge by (unfold zlength in Hl; lia).
  set (w := (task =? sowner (g_shm (sh m) idx)) && _).
  pose proof (map_loop_ok (pg m) r idx ps w (mi_pg _ M) (mi_asp _ M _ _ Ha) Hi ltac:(lia)) as Hm.
  assert (Hempty : ∀ k, in_window idx k → win (vm (pg m)) r idx k = None) by (intros k Hw; eapply (map_empty m task); try done; by eexists).
  assert (Hold : ∀ i k e, granted m task i k e → i ≠ idx ∧ registered (sh m) task i k e) by (intros i k e; unfold granted; by rewrite Hp).
  destruct (map_loop (kz_shm_slot_va idx) ps (shm_flags w) r (vm (pg m))) as [t'|t'].
  - destruct Hm as (Hinv & j & Hwin). { apply Forall_forall. intros f Hf. destruct (held_pos _ f (mi_pg _ M) (Hheld f Hf)). lia. }
    apply (win_minv m t' _ task r idx); try done.
    + intros r' i k Hr' Hw Hne. rewrite (Hwin r' i k Hr' Hw), bool_decide_false; [done|]. destruct Hne; tauto.
    + intros t Hne. by rewrite lookup_insert_ne.
    + intros o. rewrite lookup_insert_eq. intros E. injection E as <-. split; [done|]. by intros f ?%not_elem_of_nil.
    + intros i k e Hne Hw Hg. unfold granted. cbn [pend sh]. rewrite lookup_insert_eq. by apply Hold.
    + intros k e Hw. rewrite (Hwin r idx k (mi_asp _ M _ _ Ha) Hw). case_bool_decide; [done|]. by rewrite Hempty.
  - destruct Hm as (Hinv & Hwin). { apply Forall_forall. intros f Hf. destruct (held_pos _ f (mi_pg _ M) (Hheld f Hf)). lia. }
    apply (win_minv m t' _ task r idx); try done.
    + intros r' i k Hr' Hw Hne. rewrite (Hwin r' i k Hr' Hw), bool_decide_false; [done|]. destruct Hne; tauto.
    + intros t Hne. by rewrite lookup_delete_ne.
    + intros o. by rewrite lookup_delete_eq.
    + intros i k e Hne Hw Hg. unfold granted. cbn [pend sh]. rewrite lookup_delete_eq. by apply Hold.
    + intros k e Hw. rewrite (Hwin r idx k (mi_asp _ M _ _ Ha) Hw). case_bool_decide as Hd; [|by rewrite Hempty].
      intros E. injection E as <-. unfold granted. cbn [pend sh]. rewrite lookup_delete_eq. destruct Hw as [_ Hk]. split_and!; try done.
      exists ps, (lget ps k), w. split_and!; [done|apply lget_some; lia|done|]. unfold w. intros [E%Z.eqb_eq _]%andb_prop. done.
Qed.

Lemma unmap_loop_minv m task r idx n :
  minv m → asp m !! task = Some r → pend m !! task = Some (PUnmap idx n) →
  minv (mkMsys (set_vm (unmap_loop (kz_shm_slot_va idx) n r (vm (pg m))) (held (pg m)) (pg m)) (sh m) (asp m) (delete task (pend m))).
Proof.
  intros M Ha Hp. destruct (mi_pend _ M _ _ Hp) as [_ (Hi & Hn)].
  destruct (unmap_loop_ok (pg m) r idx n (mi_pg _ M) (mi_asp _ M _ _ Ha) Hi Hn) as [Hinv Hwin]. apply (win_minv m _ _ task r idx); try done.
  - intros r' i k Hr' Hw Hne. rewrite (Hwin r' i k Hr' Hw), bool_decide_false; [done|]. destruct Hne; tauto.
  - intros t Hne. by rewrite lookup_delete_ne.
  - intros o. by rewrite lookup_delete_eq.
  - intros i k e Hne Hw. unfold granted. cbn [pend sh]. rewrite lookup_delete_eq, Hp. by rewrite decide_False.
  - intros k e Hw. rewrite (Hwin r idx k (mi_asp _ M _ _ Ha) Hw). case_bool_decide as Hd; [done|]. intros He.
    destruct (mi_win _ M r idx k e (mi_asp _ M _ _ Ha) Hw He) as (t & Hat & Hg). rewrite (mi_inj _ M _ _ _ Hat Ha) in Hg.
    unfold granted in Hg. rewrite Hp, decide_True in Hg by done. tauto.
Qed.

(** ** Programs come and go, and the other steps *)
Lemma shm_flags_frame w : flags_ok (shm_flags w).
Proof. by destruct w. Qed.

Lemma frames_held m f : minv m → f ∈ shm_frames (sh m) → f ∈ held (pg m).
Proof.
  intros M (j & Hj & Hf)%elem_shm_frames. unfold slot_frames in Hf. destruct (used (g_shm (sh m) j)) eqn:Hu; [|by apply not_elem_of_nil in Hf].
  destruct (creating (g_shm (sh m) j)) eqn:Hc; [by apply not_elem_of_nil in Hf|]. destruct (mi_slot _ M j Hj Hu) as (_ & _ & _ & Hps).
  destruct (Hps Hc) as (ps & Hp & _ & _ & _ & Hh). rewrite Hp in Hf. by apply Hh.
Qed.

(** The frame behind an entry. *)
Lemma registered_frame m task i k e :
  minv m → 0 ≤ i < KZ_SHM_MAX_RES → registered (sh m) task i k e →
  pte_frame e ∈ slot_frames (g_shm (sh m) i) ∧ pte_frame e ∈ held (pg m) ∧
  ∃ ps, pages (g_shm (sh m) i) = Some ps ∧ ps !! Z.to_nat k = Some (pte_frame e).
Proof.
  intros M Hi (Hu & Hc & _ & ps & f & w & Hp & Hf & -> & _). assert (Hin : f ∈ slot_frames (g_shm (sh m) i)).
  { rewrite (slot_frames_used _ ps) by done. by apply list_elem_of_lookup_2 in Hf. }
  assert (Hh : f ∈ held (pg m)) by (apply (frames_held m); [done|]; apply elem_shm_frames; by exists i).
  destruct (held_pos _ f (mi_pg _ M) Hh) as (Hb & Hm & _). rewrite (new_entry_frame f (shm_flags w)) by (lia || done || apply shm_flags_frame).
  split; [done|]. split; [done|]. by exists ps.
Qed.

(** Memory after a step that leaves the window and what is kept. *)
Lemma memory_minv m p' :
  minv m → sys_inv p' → (∀ f, f ∈ held (pg m) → kept m f → f ∈ held p') → (∀ r, r ∈ spaces (pg m) → has m r → r ∈ spaces p') →
  win_kept (pg m) p' → minv (mkMsys p' (sh m) (asp m) (pend m)).
Proof.
  intros M Hinv Hk Hh Hwin. pose proof M as [M1 M2 M3 M4 M5 M6 M7 M8]. constructor; cbn [pg sh asp pend]; try done.
  - intros t r Ha. apply Hh; [by apply (M2 t)|by exists t].
  - intros i Hi Hu. destruct (M4 i Hi Hu) as (H1 & H2 & H3 & H4). split_and!; try done. intros Hc. destruct (H4 Hc) as (ps & P1 & P2 & P3 & P4 & P5).
    exists ps. split_and!; try done; try lia. intros f Hf. apply Hk; [by apply P5|]. left. apply elem_shm_frames. exists i. split; [done|].
    by rewrite (slot_frames_used _ ps).
  - intros t o f Ho Hf. destruct (M7 t o f Ho Hf) as (H1 & H2 & H3). split_and!; try done. apply Hk; [done|]. right. by exists t, o.
  - intros r i k e Hr Hw. rewrite (Hwin r i k Hr Hw). case_decide as Hd; [|done]. intros He. destruct (M8 r i k e Hd Hw He) as (t & Ha & Hg). by exists t.
Qed.

Lemma gone_minv m task r :
  minv m → asp m !! task = Some r →
  minv (mkMsys (mkSys (vmm_destroy_task_as r (vm (pg m))) (held (pg m)) (spaces (pg m) ∖ {[r]})) (sh m) (delete task (asp m)) (delete task (pend m))).
Proof.
  intros M Ha. pose proof M as [M1 M2 M3 M4 M5 M6 M7 M8]. pose proof M1 as (tags & Hi & Hk & Hr).
  pose proof (destroy_win (pg m) tags Hi Hk Hr r (M2 _ _ Ha)) as Hwin. constructor; cbn [pg sh asp pend held spaces vm]; try done.
  - by apply (step_destroy (pg m) tags Hi Hk Hr), (M2 task).
  - intros t r' Hat. destruct (decide (t = task)) as [->|Hne]; [by rewrite lookup_delete_eq in Hat|]. rewrite lookup_delete_ne in Hat by done.
    apply elem_of_difference. split; [by apply (M2 t)|]. intros ->%elem_of_singleton. by apply Hne, (M3 _ _ r).
  - intros t t' r' H1 H2. apply lookup_delete_Some in H1 as [_ H1], H2 as [_ H2]. by apply (M3 _ _ r').
  - intros t o Ho. apply lookup_delete_Some in Ho as [Hne Ho]. rewrite lookup_delete_ne by done. by apply M6.
  - intros t o f Ho Hf. apply lookup_delete_Some in Ho as [Hne Ho]. destruct (M7 t o f Ho Hf) as (H1 & H2 & H3). split_and!; try done.
    intros t' o' Ho'. apply lookup_delete_Some in Ho' as [_ Ho']. by apply (H3 t' o').
  - intros r' i k e Hr' Hw. specialize (Hwin r' i k Hr' Hw). cbn [vm] in Hwin. rewrite Hwin. apply elem_of_difference in Hr' as [Hr' Hne]. rewrite decide_True by done.
    intros He. destruct (M8 r' i k e Hr' Hw He) as (t & Hat & Hg). assert (t ≠ task) by (intros ->; rewrite Ha in Hat; set_solver).
    exists t. split; [by rewrite lookup_delete_ne|]. revert Hg. apply granted_mono; [cbn; by rewrite lookup_delete_ne|by left].
Qed.

Lemma start_minv m task r :
  minv m → asp m !! task = None → r ∈ spaces (pg m) → (∀ t, asp m !! t ≠ Some r) → minv (mkMsys (pg m) (sh m) (<[task := r]> (asp m)) (pend m)).
Proof.
  intros M Ha Hr Hn. pose proof M as [M1 M2 M3 M4 M5 M6 M7 M8]. constructor; cbn [pg sh asp pend]; try done.
  - intros t r' [[<- <-]|[_ ?]]%lookup_insert_Some; [done|by apply (M2 t)].
  - intros t t' r' [[<- <-]|[H1 H2]]%lookup_insert_Some [[H3 H4]|[H3 H4]]%lookup_insert_Some; [done| | |by apply (M3 _ _ r')].
    + by destruct (Hn t').
    + subst. by destruct (Hn t).
  - intros t o Ho. destruct (M6 t o Ho) as [[r' Hat] Hok]. split; [|done]. assert (t ≠ task) by congruence. rewrite lookup_insert_ne by done. by eexists.
  - intros r' i k e Hr' Hw He. destruct (M8 r' i k e Hr' Hw He) as (t & Hat & Hg). exists t. split; [|done].
    rewrite lookup_insert_ne; [done|congruence].
Qed.

Lemma store_minv m task r va i v e :
  minv m → asp m !! task = Some r → pend m !! task = None → shm_va va → 0 ≤ v < 2 ^ 64 → translate (vm (pg m)) r va = Some e →
  minv (mkMsys (set_vm (store r va i v (vm (pg m))) (held (pg m)) (pg m)) (sh m) (asp m) (pend m)).
Proof.
  intros M Ha Hp Hva Hv He. destruct (shm_va_page va Hva) as [Hw Hix].
  assert (Hwin : win (vm (pg m)) r (va_slot va) (va_page va) = Some e) by (unfold win, translate in *; by rewrite <- Hix).
  destruct (mi_win _ M r _ _ e (mi_asp _ M _ _ Ha) Hw Hwin) as (t & Hat & Hg). rewrite (mi_inj _ M _ _ _ Hat Ha) in Hg.
  unfold granted in Hg. rewrite Hp in Hg. destruct (registered_frame m task _ _ e M (proj1 Hw) Hg) as (_ & Hh & _).
  destruct (mi_pg _ M) as (tags & Hi & Hk & Hr). pose proof (is_held _ _ _ Hi _ Hh) as (Hn & _).
  destruct (write_iso tags (held (pg m)) (vm (pg m)) (pte_frame e) i v Hi Hn Hv) as [Hi' Hsame].
  unfold store. rewrite He. apply memory_minv; try done.
  - by apply (keep_tags (pg m) tags Hi Hk Hr).
  - apply win_kept_same. intros r' j k Hr' _. apply (trans_same tags); [apply Hi|apply Hr; by right|done].
Qed.

Lemma mstep_minv m m' : mstep m m' → minv m → minv m'.
Proof.
  intros Hst M. destruct Hst.
  - by eapply (create_begin_minv (mkMsys p x a q)).
  - by eapply (create_middle_minv (mkMsys p x a q)).
  - by eapply (create_end_minv (mkMsys p x a q)).
  - by eapply (create_fail_minv (mkMsys p x a q)).
  - by eapply (map_begin_minv (mkMsys p x a q)).
  - pose proof (map_middle_minv (mkMsys p x a q) task r idx flags M) as R. cbn [pg sh asp pend] in R. rewrite H1 in R. by apply R.
  - pose proof (map_middle_minv (mkMsys p x a q) task r idx flags M) as R. cbn [pg sh asp pend] in R. rewrite H1 in R. by apply R.
  - by eapply (map_fail_minv (mkMsys p x a q)).
  - by eapply (unmap_begin_minv (mkMsys p x a q)).
  - by eapply (unmap_loop_minv (mkMsys p x a q)).
  - by eapply (simple_minv (mkMsys p x a q)).
  - by eapply (exit_minv (mkMsys p x a q)).
  - by eapply (gone_minv (mkMsys p x a q)).
  - by eapply (start_minv (mkMsys p x a q)).
  - by eapply (store_minv (mkMsys p x a q)).
  - apply (memory_minv (mkMsys p x a q)); try done; cbn [pg].
    + by eapply sys_step_inv; [eapply other_sys|apply M].
    + by eapply other_kept.
    + by eapply other_kept.
    + by eapply other_win; [apply M|].
Qed.

(** ** The start *)
Definition shm_init : shm := mkShm (λ _, mkSlot false false false false 0 0 0 0 0 0 0 None [] [] (0, 0, 0, 0)) 1.
Definition shm_start (t : vmm) : msys := mkMsys (mkSys t ∅ ∅) shm_init ∅ ∅.

Lemma shm_start_ok tags0 t0 t : booted tags0 t0 → init_paging t0 = Some t → minv (shm_start t).
Proof.
  intros Hb Hin. pose proof (sys_reach_inv t0 tags0 t (mkSys t ∅ ∅) Hb Hin (rtc_refl _ _)) as Hs.
  constructor; cbn [pg sh asp pend shm_start spaces held]; try done.
  by intros i j f _ _ Hf%not_elem_of_nil.
Qed.

Lemma mreach tags0 t0 t m : booted tags0 t0 → init_paging t0 = Some t → rtc mstep (shm_start t) m → minv m.
Proof.
  intros Hb Hin Hr. pose proof (shm_start_ok tags0 t0 t Hb Hin) as M. clear Hin Hb. induction Hr as [|m1 m2 m3 Hst _ IH]; [done|].
  by apply IH, (mstep_minv m1).
Qed.

Lemma mreach_gens t m : rtc mstep (shm_start t) m → gens_ok (sh m).
Proof.
  intros Hr. assert (G : gens_ok (sh (shm_start t))) by (split; [cbn; lia|done]).
  induction Hr as [|m1 m2 m3 Hst _ IH]; [done|]. by apply IH, (mstep_gens m1).
Qed.

(** ** A run *)

(** Taking a frame and mapping it as the only page of a surface succeeds if the address
    space has nothing in the way and five frames are free. *)
Lemma create_one (y : PagingSys.sys) r i :
  sys_inv y → r ∈ spaces y → 0 ≤ i < KZ_SHM_MAX_RES → rd (vm y) r (PML4_IDX (page_va i 0)) = 0 →
  used_pages (frames (vm y)) + 5 ≤ total_pages (frames (vm y)) → ∃ p t', create_middle true i 1 r (vm y) = (Some [p], t').
Proof.
  intros (tags & Hiso & Hk & Hroots) Hr Hi Hrd Hroom. destruct (space_root y tags Hiso Hk Hroots r Hr) as (Hrr & _ & Hz).
  destruct (vk_pmm _ _ (is_vm _ _ _ Hiso)) as [bm Hbm]. pose proof (alloc_used _ _ Hbm) as Hal. pose proof (pmm_take tags (vm y) (is_vm _ _ _ Hiso)) as Htk.
  unfold create_middle, alloc_frames, for_range. cbn [negb]. change (Z.to_nat (1 - 0)) with 1%nat. cbn [for_loop].
  destruct (pmm_alloc_page (frames (vm y))) as [p ph] eqn:Ep. pose proof (alloc_total _ _ _ Ep) as Htot. destruct Hal as [Hu Hn].
  destruct (Z.eqb_spec p PHYS_NULL) as [->|Hnn]; [by destruct Hn; [lia|]|]. destruct Htk as [(? & _)|[_ Htk]]; [done|].
  set (t1 := set_mem (<[p := ∅]> (mem (set_frames ph (vm y)))) (set_frames ph (vm y))).
  destruct (Htk t1) as [A (Hfresh & _)]; try done.
  { intros f Hf. unfold page_of, t1. cbn [mem set_mem]. by rewrite lookup_insert_ne. }
  { intros j. unfold rd, page_of, t1. cbn [mem set_mem]. rewrite lookup_insert_eq. change (default ∅ (Some ∅)) with (∅ : gmap Z Z).
    rewrite lookup_empty. change (0 ≤ 0 < 2 ^ 64). lia. }
  assert (Hrp : r ≠ p) by (unfold is_root in Hrr; congruence).
  assert (Hrd1 : rd t1 r (PML4_IDX (page_va i 0)) = 0) by (unfold rd, page_of, t1; cbn [mem set_mem]; by rewrite lookup_insert_ne).
  cbn [app]. unfold map_loop, for_range. change (Z.to_nat (zlength [p] - 0)) with 1%nat. cbn [for_loop]. unfold vmm_map_page_into. rewrite Hz.
  fold (page_va i 0). pose proof (map_at_cases tags t1 r (page_va i 0) (lget [p] 0) (shm_flags true) (gr_ok _ _ _ _ A) Hrr) as Hm.
  destruct (map_at r (page_va i 0) (lget [p] 0) (shm_flags true) t1) as [res t2].
  destruct Hm as [(_ & _ & _ & [Hb|Hfull])|(-> & _)]; [|exfalso|by exists p, t2].
  - unfold blocked in Hb. by rewrite Hrd1 in Hb.
  - change (frames t1) with ph in Hfull. lia.
Qed.

(** Program 1 has made a surface of one page: the table, the memory and the address space. *)
Definition demo_table (p : Z) : shm :=
  create_end 1 0 32 32 KZ_FMT_XRGB8888 1 [p] (create_begin 1 shm_init).2.

Lemma first_page : in_window 0 0.
Proof. by split. Qed.

Lemma demo_surface :
  ∃ t y r p, init_paging demo_boot = Some t ∧ rtc mstep (shm_start t) (mkMsys y (demo_table p) {[1 := r]} ∅) ∧ r ≠ PHYS_NULL ∧
    win (vm y) r 0 0 = Some (new_entry p (shm_flags true)).
Proof.
  destruct demo_space as (t & tags & r & t1 & tags1 & Hin & Hi & Hc & Hnn & Hi1 & Hr & Hk & Hu & _). exists t.
  pose proof (create_ok tags t (is_vm _ _ _ Hi) (is_kroot _ _ _ Hi) (is_current _ _ _ Hi)) as Hcr. rewrite Hc in Hcr.
  destruct Hcr as [(E0 & _)|[_ C]]; [destruct (Hnn E0)|].
  assert (M0 : minv (shm_start t)) by (exact (shm_start_ok _ _ _ demo_booted Hin)).
  enough (H : ∃ y p, rtc mstep (shm_start t) (mkMsys y (demo_table p) {[1 := r]} ∅) ∧ win (vm y) r 0 0 = Some (new_entry p (shm_flags true))).
  { destruct H as (y & p & H1 & H2). exists y, r, p. split; [exact Hin|]. split; [exact H1|]. split; [exact Hnn|exact H2]. }
  clear Hin. assert (S1 : mstep (shm_start t) (mkMsys (mkSys t1 ∅ {[r]}) shm_init ∅ ∅)).
  { pose proof (o_create (kept (shm_start t)) (has (shm_start t)) (mkSys t ∅ ∅) r t1 Hc) as H1. cbn [held spaces] in H1.
    destruct (Z.eqb_spec r PHYS_NULL); [done|]. rewrite right_id_L in H1 by apply _. exact (ms_other _ _ _ _ _ H1). }
  assert (S2 : mstep (mkMsys (mkSys t1 ∅ {[r]}) shm_init ∅ ∅) (mkMsys (mkSys t1 ∅ {[r]}) shm_init {[1 := r]} ∅)).
  { pose proof (ms_start (mkSys t1 ∅ {[r]}) shm_init ∅ ∅ 1 r (lookup_empty 1) (elem_of_singleton_2 r r eq_refl)
      ltac:(intros t' Ht; by rewrite lookup_empty in Ht)) as H1. rewrite insert_empty in H1. exact H1. }
  assert (Hck : create_check 1 r 32 32 KZ_FMT_XRGB8888 = inr 1).
  { unfold create_check. destruct (Z.eqb_spec r PHYS_NULL); [done|]. reflexivity. }
  pose proof (ms_create_begin (mkSys t1 ∅ {[r]}) shm_init {[1 := r]} ∅ 1 r 32 32 KZ_FMT_XRGB8888 1 0 1 (create_begin 1 shm_init).2
    (lookup_singleton_eq 1 r) (lookup_empty 1) Hck eq_refl) as S3.
  pose proof (mstep_minv _ _ S2 (mstep_minv _ _ S1 M0)) as M2. pose proof (mi_pg _ M2) as Hinv. cbn [pg] in Hinv.
  destruct (create_one _ r 0 Hinv (elem_of_singleton_2 r r eq_refl) ltac:(done) (cr_lower _ _ _ _ C _ ltac:(done)) ltac:(cbn [vm]; lia)) as (p & t2 & Hmid).
  pose proof (create_middle_ok true _ r 0 1 Hinv (elem_of_singleton_2 r r eq_refl) ltac:(done) ltac:(done)) as Hok. rewrite Hmid in Hok.
  destruct Hok as (_ & _ & _ & _ & Hwin). cbn [vm] in Hmid.
  pose proof (ms_create_middle (mkSys t1 ∅ {[r]}) (create_begin 1 shm_init).2 {[1 := r]} (<[1 := PCreate 0 1 32 32 KZ_FMT_XRGB8888]> ∅) 1 r 32 32 KZ_FMT_XRGB8888 1 0 true
    (Some [p]) t2 (lookup_singleton_eq 1 r) (lookup_insert_eq _ _ _) Hmid) as S4.
  eexists _, p. split.
  - eapply rtc_l; [exact S1|]. eapply rtc_l; [exact S2|]. eapply rtc_l; [exact S3|]. eapply rtc_l; [exact S4|]. eapply rtc_l; [apply (ms_create_end _ _ _ _ 1 32 32 KZ_FMT_XRGB8888 1 0 [p]), lookup_insert_eq|].
    rewrite delete_insert_eq, delete_insert_eq, delete_empty. apply rtc_refl.
  - cbn [set_vm vm]. specialize (Hwin r 0 0 (elem_of_singleton_2 r r eq_refl)). rewrite Hwin by (by split).
    rewrite bool_decide_true by done. reflexivity.
Qed.

(** ** Exit *)
Lemma elem_nil_Z (l : list Z) : (∀ t, t ∉ l) → l = [].
Proof. destruct l as [|a l]; [done|]. intros H. destruct (H a). by left. Qed.

Lemma exit_slot_post task i x t :
  (used (g_shm x i) = true → NoDup (maps (g_shm x i))) →
  let s := g_shm x i in let '(x', t') := exit_slot task i x t in let s' := g_shm x' i in
  (∀ j, j ≠ i → g_shm x' j = g_shm x j) ∧
  (used s' = true → (task ∉ maps s') ∧ (task ∉ refs s') ∧ (sowner s' = task → destroyed s' = true)) ∧
  (creating s = false → sowner s = task ∨ destroyed s = true → (∀ u, u ∈ maps s → u = task) → (∀ u, u ∈ refs s → u = task) → used s' = false).
Proof.
  intros Hnd. cbv zeta. unfold exit_slot. set (s := g_shm x i) in *. destruct (used s) eqn:Hu; cbn [negb]; [|fold s; split_and!; [done|congruence|done]].
  set (s1 := if has_map s task then del_map s task else s). set (s2 := drop_refs (length (refs s1)) s1 task).
  set (s3 := if (sowner s2 =? task) && negb (destroyed s2) then with_destroyed s2 else s2).
  destruct (drop_refs_same (length (refs s1)) s1 task) as (_ & _ & D3 & D4 & D5 & _ & _ & D8). fold s2 in D3, D4, D5, D8.
  destruct (drop_refs_all (length (refs s1)) s1 task (le_n _)) as [R1 R2]. fold s2 in R1, R2.
  assert (Hs1 : refs s1 = refs s ∧ sowner s1 = sowner s ∧ destroyed s1 = destroyed s ∧ creating s1 = creating s) by (unfold s1; by destruct (has_map s task)).
  destruct Hs1 as (S1 & S2 & S3 & S4).
  assert (Hmaps : ∀ u, u ∈ maps s1 ↔ u ∈ maps s ∧ u ≠ task).
  { intros u. unfold s1, has_map. rewrite has_task_spec. case_bool_decide as Hin; [by apply del_task_ok, Hnd|]. split; [|by intros [? _]]. intros H. split; [done|congruence]. }
  assert (Hs3 : maps s3 = maps s1 ∧ refs s3 = refs s2 ∧ sowner s3 = sowner s ∧ creating s3 = creating s ∧ (sowner s = task ∨ destroyed s = true → destroyed s3 = true)).
  { unfold s3. rewrite <- D8, D4, S2, D5, S3. destruct (Z.eqb_spec (sowner s) task) as [Eo|Eo]; cbn [andb]; [destruct (destroyed s) eqn:Ed; cbn [negb]|];
      cbn [with_destroyed maps refs sowner creating destroyed]; rewrite ?D4, ?D3, ?D5, ?S2, ?S3, ?S4; naive_solver. }
  destruct Hs3 as (T1 & T2 & T3 & T4 & T5). pose proof (maybe_free_cases s3 t) as Hc. unfold retire. destruct (maybe_free s3 t) as [v t'] eqn:Em.
  rewrite g_shm_set, decide_True by done. split; [intros j Hj; by rewrite g_shm_set, decide_False|]. split.
  - intros Hv. destruct Hc as [Ec|(_ & _ & _ & v' & Ec & Hv')]; injection Ec as -> _; [|congruence]. rewrite T1, T2, T3. split_and!; [|done|auto].
    rewrite Hmaps. naive_solver.
  - intros Hcr Hd Hm Hr. specialize (T5 Hd). unfold maybe_free in Em. rewrite T4, Hcr, T5 in Em.
    rewrite T1, T2, (elem_nil_Z (maps s1)), (elem_nil_Z (refs s2)) in Em; cycle 1.
    { intros u Hin. apply R2 in Hin as Hin2. rewrite S1 in Hin2. by rewrite (Hr u Hin2) in Hin. }
    { intros u [Hin Hne]%Hmaps. by apply Hne, Hm. }
    cbn [andb negb Z.eqb zlength length Z.of_nat] in Em. destruct (free_pages s3 t). by injection Em as <- _.
Qed.

Lemma exit_post task x t : 0 ≤ task → (∀ i, 0 ≤ i < KZ_SHM_MAX_RES → used (g_shm x i) = true → NoDup (maps (g_shm x i))) →
  ∀ i, 0 ≤ i < KZ_SHM_MAX_RES → let s := g_shm x i in let s' := g_shm (kz_shm_task_exit task x t).1 i in
  (used s' = true → (task ∉ maps s') ∧ (task ∉ refs s') ∧ (sowner s' = task → destroyed s' = true)) ∧
  (creating s = false → sowner s = task ∨ destroyed s = true → (∀ u, u ∈ maps s → u = task) → (∀ u, u ∈ refs s → u = task) → used s' = false).
Proof.
  intros H0 Hnd i Hi. cbv zeta. unfold kz_shm_task_exit. destruct (Z.ltb_spec task 0); [lia|].
  pose proof (for_each_upto (λ n '(x1, t1), (∀ j, n ≤ j → g_shm x1 j = g_shm x j) ∧ ∀ j, 0 ≤ j < n →
    (used (g_shm x1 j) = true → (task ∉ maps (g_shm x1 j)) ∧ (task ∉ refs (g_shm x1 j)) ∧ (sowner (g_shm x1 j) = task → destroyed (g_shm x1 j) = true)) ∧
    (creating (g_shm x j) = false → sowner (g_shm x j) = task ∨ destroyed (g_shm x j) = true → (∀ u, u ∈ maps (g_shm x j) → u = task) →
       (∀ u, u ∈ refs (g_shm x j) → u = task) → used (g_shm x1 j) = false)) 0 KZ_SHM_MAX_RES (λ i '(x, t), exit_slot task i x t) (x, t)) as Hl.
  destruct (for_each 0 KZ_SHM_MAX_RES _ (x, t)) as [x' t']. apply Hl; [done|split; [done|intros; lia]| |done].
  intros n [x1 t1] Hn [Hge Hlt]. pose proof (exit_slot_post task n x1 t1) as Hs. rewrite (Hge n ltac:(lia)) in Hs. specialize (Hs (Hnd n Hn)). cbv zeta in Hs.
  destruct (exit_slot task n x1 t1) as [x2 t2]. destruct Hs as (Hoth & Hu & Hf). split; [intros j Hj; rewrite Hoth by lia; apply Hge; lia|].
  intros j Hj. destruct (decide (j = n)) as [->|Hne]; [done|]. rewrite Hoth by done. apply Hlt. lia.
Qed.

(** The first section of an unmapping that takes the last mapping of a destroyed surface. *)
Lemma unmap_last task r i x (v : vmm) :
  0 ≤ task → (r =? PHYS_NULL) = false → 0 ≤ i < KZ_SHM_MAX_RES →
  used (g_shm x i) = true → creating (g_shm x i) = false → destroyed (g_shm x i) = true → maps (g_shm x i) = [task] →
  refs (g_shm x i) = [] → 0 < generation (g_shm x i) < 2 ^ 32 → (∃ bm, pmm_wf (frames v) bm) → surface_ok v (g_shm x i) →
  ∃ x' v', unmap_begin task r (kz_shm_slot_va i) x v = (inr (i, npages (g_shm x i)), x', v') ∧ mem v' = mem v ∧
    ∀ f, f ∈ slot_frames (g_shm x i) → is_free (frames v') (f / PAGE_SIZE).
Proof.
  intros H0 Hr Hi Hu Hc Hd Hm Hre Hg Hwf Hs. unfold unmap_begin, kz_shm_slot_va, KZ_SHM_MAX_RES in *. rewrite Hr.
  change KZ_SHM_BASE with 0x50000000. change KZ_SHM_SLOT_SIZE with 0x800000. change KZ_SHM_END with 0x58000000.
  destruct (Z.ltb_spec task 0); [lia|]. cbn [orb]. destruct (Z.ltb_spec (0x50000000 + i * 0x800000) 0x50000000); [lia|].
  destruct (Z.leb_spec 0x58000000 (0x50000000 + i * 0x800000)); [lia|]. cbn [orb].
  replace ((0x50000000 + i * 0x800000 - 0x50000000) mod 0x800000) with 0 by zdiv. cbn [negb Z.eqb].
  replace (u32 ((0x50000000 + i * 0x800000 - 0x50000000) / 0x800000)) with i by (rewrite u32_id; zdiv).
  destruct (Z.leb_spec 16 i); [lia|]. destruct (handle_fields _ i Hg Hi) as [E1 E2]. unfold lookup_unmap.
  rewrite E1, E2, Hu, Z.eqb_refl. destruct (Z.eqb_spec (generation (g_shm x i)) 0); [lia|].
  unfold KZ_SHM_MAX_RES. destruct (Z.leb_spec 16 i); [lia|]. cbn [orb negb]. unfold has_map, has_task. rewrite Hm. cbn [existsb].
  rewrite Z.eqb_refl. cbn [orb negb]. set (s1 := del_map (g_shm x i) task).
  assert (Hm1 : maps s1 = []) by (unfold s1, del_map, del_task; cbn [with_maps maps]; rewrite Hm; cbn [index_of]; by rewrite Z.eqb_refl).
  pose proof (maybe_free_frees s1 v Hwf Hs Hu) as Hf. unfold retire. destruct (maybe_free s1 v) as [s2 v'] eqn:Em.
  eexists _, v'. split; [reflexivity|]. unfold maybe_free in Em. rewrite Hm1 in Em.
  change (destroyed s1) with (destroyed (g_shm x i)) in Em. change (refs s1) with (refs (g_shm x i)) in Em.
  change (creating s1) with (creating (g_shm x i)) in Em. rewrite Hd, Hre, Hc in Em. cbn [andb negb zlength length Z.of_nat Z.eqb] in Em.
  destruct (free_pages s1 v) as [s3 v3] eqn:Ef. injection Em as <- <-. destruct Hf as [_ Hf]. split; [|by apply Hf].
  unfold free_pages in Ef. destruct (pages s1); injection Ef as _ <-; [apply free_frames_mem|done].
Qed.

(** The bits of an entry of the window. *)
Lemma shm_entry_bits f w : Z.testbit (new_entry f (shm_flags w)) 1 = w ∧ Z.testbit (new_entry f (shm_flags w)) 63 = true.
Proof.
  unfold new_entry. rewrite !Z.lor_spec, !Z.land_spec. change (Z.testbit PAGE_MASK 1) with false. rewrite andb_false_r. cbn [orb].
  split; [by destruct w|]. apply orb_true_intro. right. by destruct w.
Qed.

(** ** The properties *)

(** C5: shared surfaces are safe.  In every reachable state, if a task that is not inside
    an operation has a page of the window mapped, the page belongs to a surface in use that
    the task is registered for; the frame is that page of the surface, is not free, and is
    neither a page of a program nor of another surface; the page is writable only for the
    owner of the surface and is never executable; and another task than the owner has it
    only because the owner has published the surface. *)
Theorem shm_safe (tags0 : gmap Z tag) (t0 t : vmm) (m : msys) (task r va e : Z)
    (Hboot : booted tags0 t0) (Hinit : init_paging t0 = Some t) (Hreach : rtc mstep (shm_start t) m)
    (Htask : asp m !! task = Some r) (Hout : pend m !! task = None) (Hva : shm_va va) (He : translate (vm (pg m)) r va = Some e) :
  let s := g_shm (sh m) (va_slot va) in
  used s = true ∧ task ∈ maps s ∧ (∃ ps, pages s = Some ps ∧ ps !! Z.to_nat (va_page va) = Some (pte_frame e)) ∧
  (Z.testbit e 1 = true → sowner s = task) ∧ Z.testbit e 63 = true ∧ (task ≠ sowner s → published s = true) ∧
  ¬ is_free (frames (vm (pg m))) (pte_frame e / PAGE_SIZE) ∧
  (∀ r' va' e', r' ∈ spaces (pg m) → user_va va' → translate (vm (pg m)) r' va' = Some e' → pte_frame e' ≠ pte_frame e) ∧
  (∀ j, 0 ≤ j < KZ_SHM_MAX_RES → pte_frame e ∈ slot_frames (g_shm (sh m) j) → j = va_slot va).
Proof.
  pose proof (mreach tags0 t0 t m Hboot Hinit Hreach) as M. clear Hinit Hreach. destruct (shm_va_page va Hva) as [Hw Hix].
  assert (Hwin : win (vm (pg m)) r (va_slot va) (va_page va) = Some e) by (unfold win, translate in *; by rewrite <- Hix).
  destruct (mi_win _ M r _ _ e (mi_asp _ M _ _ Htask) Hw Hwin) as (t' & Hat & Hg). rewrite (mi_inj _ M _ _ _ Hat Htask) in Hg.
  unfold granted in Hg. rewrite Hout in Hg. destruct (registered_frame m task _ _ e M (proj1 Hw) Hg) as (Hfr & Hh & Hps).
  destruct (held_pos _ _ (mi_pg _ M) Hh) as (_ & _ & Hnf). destruct Hg as (Hu & Hc & Hin & _ & f & w & _ & _ & Hent & Hown).
  destruct (shm_entry_bits f w) as [B1 B2]. rewrite <- Hent in B1, B2. destruct (mi_slot _ M _ (proj1 Hw) Hu) as (_ & Hpub & _).
  split_and!; try done.
  - rewrite B1. exact Hown.
  - by apply Hpub.
  - intros r' va' e' Hr' Hva' He' Heq. destruct (mi_pg _ M) as (tags & Hi & Hk & Hr). destruct (space_root _ _ Hi Hk Hr r' Hr') as (Hrr & Hrk & _).
    destruct Hva' as [Hb Hs]. destruct (translate_user tags _ _ r' va' e' Hi Hrr Hrk Hb Hs He') as (pt & _ & Hue & <-).
    destruct (is_data _ _ _ Hi pt _ Hue) as [_ Hn]. by rewrite Heq in Hn.
  - intros j Hj Hfj. by apply (mi_disj _ M j (va_slot va) (pte_frame e)); [|apply Hw| |].
Qed.

(** C25: [kz_shm_unmap] gives the frames of a surface back before it removes the caller's
    mapping.  In every reachable state, when a task that is not inside an operation calls it
    for a destroyed surface that only this task still maps and nobody references, the section
    that ends with the release of the lock leaves every page the task had mapped in place,
    on a frame that is now free. *)
Theorem shm_unmap_frees_mapped (tags0 : gmap Z tag) (t0 t : vmm) (m : msys) (task r va e : Z)
    (Hboot : booted tags0 t0) (Hinit : init_paging t0 = Some t) (Hreach : rtc mstep (shm_start t) m)
    (Hpos : 0 ≤ task) (Htask : asp m !! task = Some r) (Hout : pend m !! task = None)
    (Hva : shm_va va) (He : translate (vm (pg m)) r va = Some e)
    (Hdead : destroyed (g_shm (sh m) (va_slot va)) = true) (Hlast : maps (g_shm (sh m) (va_slot va)) = [task])
    (Hrefs : refs (g_shm (sh m) (va_slot va)) = []) :
  let i := va_slot va in let n := npages (g_shm (sh m) i) in
  ∃ x' t', unmap_begin task r (kz_shm_slot_va i) (sh m) (vm (pg m)) = (inr (i, n), x', t') ∧
    mstep m (mkMsys (set_vm t' (given_back (sh m) x' (held (pg m))) (pg m)) x' (asp m) (<[task := PUnmap i n]> (pend m))) ∧
    translate t' r va = Some e ∧ is_free (frames t') (pte_frame e / PAGE_SIZE).
Proof.
  pose proof (mreach tags0 t0 t m Hboot Hinit Hreach) as M. pose proof (mreach_gens t m Hreach) as [_ G]. clear Hinit Hreach.
  destruct (shm_va_page va Hva) as [Hw Hix]. cbv zeta. set (i := va_slot va) in *.
  assert (Hwin : win (vm (pg m)) r i (va_page va) = Some e) by (unfold win, translate in *; by rewrite <- Hix).
  destruct (mi_win _ M r _ _ e (mi_asp _ M _ _ Htask) Hw Hwin) as (t' & Hat & Hg). rewrite (mi_inj _ M _ _ _ Hat Htask) in Hg.
  unfold granted in Hg. rewrite Hout in Hg. destruct (registered_frame m task _ _ e M (proj1 Hw) Hg) as (Hfr & _ & _).
  destruct Hg as (Hu & Hc & _). destruct (mi_pg _ M) as (tags & Hiso & Hk & Hroots).
  destruct (space_root _ _ Hiso Hk Hroots r (mi_asp _ M _ _ Htask)) as (_ & _ & Hnn).
  destruct (unmap_last task r i (sh m) (vm (pg m)) Hpos Hnn (proj1 Hw) Hu Hc Hdead Hlast Hrefs (G i Hu) (minv_pmm m M)
    (minv_surfaces m i M (proj1 Hw))) as (x' & t1 & Hb & Hmem & Hfree).
  exists x', t1. split; [exact Hb|]. split; [|split; [by rewrite (translate_mem _ _ r va Hmem)|by apply Hfree]].
  destruct m as [p x a q]. exact (ms_unmap_begin p x a q task r _ i _ x' t1 Htask Hout Hb).
Qed.

(** C27: what the exit of a task does to the surfaces, in every reachable state: no surface
    in use has it among its mappings or references any more, those it owned are destroyed,
    and a surface that is destroyed, or was its own, and that only it mapped and referenced
    is not in use any more; the frames of every surface the exit takes out of use are free
    in the frame allocator afterwards. *)
Theorem shm_exit_releases (tags0 : gmap Z tag) (t0 t : vmm) (m : msys) (task i : Z)
    (Hboot : booted tags0 t0) (Hinit : init_paging t0 = Some t) (Hreach : rtc mstep (shm_start t) m)
    (Htask : 0 ≤ task) (Hi : 0 ≤ i < KZ_SHM_MAX_RES) :
  let '(x', t') := kz_shm_task_exit task (sh m) (vm (pg m)) in let s := g_shm (sh m) i in let s' := g_shm x' i in
  (used s' = true → (task ∉ maps s') ∧ (task ∉ refs s') ∧ (sowner s' = task → destroyed s' = true)) ∧
  (creating s = false → sowner s = task ∨ destroyed s = true → (∀ u, u ∈ maps s → u = task) → (∀ u, u ∈ refs s → u = task) → used s' = false) ∧
  (used s = true → used s' = false → ∀ f, f ∈ slot_frames s → is_free (frames t') (f / PAGE_SIZE)).
Proof.
  pose proof (mreach tags0 t0 t m Hboot Hinit Hreach) as M. clear Hinit.
  pose proof (exit_post task (sh m) (vm (pg m)) Htask (λ j Hj Hu, proj1 (mi_slot _ M j Hj Hu)) i Hi) as He.
  pose proof (exit_frees task (sh m) (vm (pg m)) (minv_pmm m M) (λ j, minv_surfaces m j M)) as Hf.
  destruct (kz_shm_task_exit task (sh m) (vm (pg m))) as [x' t']. cbn [fst] in He. destruct He as [H1 H2].
  split; [exact H1|]. split; [exact H2|]. intros Hu Hu' f Hin. exact (Hf i f Hi Hu Hu' Hin).
Qed.

(** ** Witness *)
Lemma shm_safe_witness :
  ∃ m r e, asp m !! 1 = Some r ∧ translate (vm (pg m)) r (page_va 0 0) = Some e ∧
    1 ∈ maps (g_shm (sh m) (va_slot (page_va 0 0))) ∧ ¬ is_free (frames (vm (pg m))) (pte_frame e / PAGE_SIZE).
Proof.
  destruct demo_surface as (t & y & r & p & Hin & Hr & Hnn & Hw).
  exists (mkMsys y (demo_table p) {[1 := r]} ∅), r, (new_entry p (shm_flags true)). split; [apply lookup_singleton_eq|]. split; [exact Hw|].
  destruct (shm_safe _ _ t _ 1 r (page_va 0 0) _ demo_booted Hin Hr (lookup_singleton_eq 1 r) (lookup_empty 1)
    (proj1 (page_va_shm 0 0 first_page)) Hw) as (_ & H1 & _ & _ & _ & _ & H2 & _).
  split; [exact H1|exact H2].
Defined.

(** Program 1 destroys its surface and unmaps it. *)
Lemma shm_unmap_frees_mapped_witness :
  ∃ m m' r e, mstep m m' ∧ asp m' !! 1 = Some r ∧ translate (vm (pg m')) r (page_va 0 0) = Some e ∧
    is_free (frames (vm (pg m'))) (pte_frame e / PAGE_SIZE).
Proof.
  destruct demo_surface as (t & y & r & p & Hin & Hr & Hnn & Hw).
  set (x1 := set_slot 0 (with_destroyed (g_shm (demo_table p) 0)) (demo_table p)).
  assert (S1 : kz_shm_destroy 1 (kz_shm_handle 1 0) (demo_table p) (vm y) = (KZ_OK, x1, vm y)) by reflexivity.
  pose proof (ms_simple y (demo_table p) {[1 := r]} ∅ 1 _ _ ltac:(by exists r) (lookup_empty 1) (op_destroy 1 _ _ _ _ _ _ S1)) as S2.
  destruct (shm_unmap_frees_mapped _ _ t _ 1 r (page_va 0 0) _ demo_booted Hin (rtc_r _ _ _ Hr S2) ltac:(lia) (lookup_singleton_eq 1 r) (lookup_empty 1)
    (proj1 (page_va_shm 0 0 first_page)) Hw eq_refl eq_refl eq_refl) as (x' & t' & _ & S3 & H1 & H2). clear Hin.
  eexists _, _, r, _. split; [exact S3|]. split; [apply lookup_singleton_eq|]. split; [exact H1|exact H2].
Defined.

Lemma shm_exit_releases_witness :
  ∃ m p, p ∈ slot_frames (g_shm (sh m) 0) ∧ is_free (frames (kz_shm_task_exit 1 (sh m) (vm (pg m))).2) (p / PAGE_SIZE).
Proof.
  destruct demo_surface as (t & y & r & p & Hin & Hr & _).
  exists (mkMsys y (demo_table p) {[1 := r]} ∅), p. assert (Hp : p ∈ slot_frames (g_shm (demo_table p) 0)) by left. split; [exact Hp|].
  pose proof (shm_exit_releases _ _ t _ 1 0 demo_booted Hin Hr ltac:(lia) (proj1 first_page)) as H. clear Hin. cbn [sh pg] in H |- *.
  destruct (kz_shm_task_exit 1 (demo_table p) (vm y)) as [x' t']. destruct H as (_ & H1 & H2). cbn [snd].
  apply H2; [reflexivity| |exact Hp]. apply H1.
  - reflexivity.
  - left. reflexivity.
  - intros u Hu. apply list_elem_of_singleton in Hu. exact Hu.
  - intros u Hu. apply not_elem_of_nil in Hu. destruct Hu.
Defined.
