(* ===== verification/Uheap.v ===== *)
(** [kernel/mm/uheap.c]: the heap of a program, regions of whole pages in its address space,
    each followed by a page that stays unmapped.

    A region's record lives in the kernel's heap; the linked list of a task is the list of
    its records, in order.  Whether [kmalloc] finds memory for a record is an argument, and
    for [uheap_clone] the list of its coming results, where an exhausted list means success.
    The task pointers are not NULL.  [uheap_realloc] copies through the address space of the
    caller: [None] is a fault of the kernel there. *)

From Stdlib Require Import Sorted.
From S2P Require Import Prelude Bitmap Pmm Paging PagingSpec PagingDestroy PagingIso PagingClone PagingSys UserCopy UserMem.

Definition UHEAP_BASE : Z := 0x10000000.
Definition UHEAP_END : Z := 0x40000000.
Definition UHEAP_MAX_ALLOC : Z := 64 * 1024 * 1024.

Record region := mkRegion { base : Z; size : Z; pages : Z }.

(** The fields of [task_t] the heap uses. *)
Record utask := mkUtask { pml4_phys : Z; uheap_brk : Z; uheap_regions : list region }.

Implicit Types (u : utask).

Definition uheap_unmap_range (root b pages : Z) t : vmm :=
  for_each 0 pages (λ i t, unmap_free (u64 (b + i * 4096)) root t) t.

(** The loop of [uheap_alloc]: [inl] is the early return, after the pages mapped so far are
    unmapped again. *)
Definition uheap_map (root brk pages : Z) t : vmm + vmm :=
  for_range 0 pages (λ i t,
    let '(ok, t) := map_zeroed (u64 (brk + i * 4096)) 7 root t in
    if ok then inr t else inl (uheap_unmap_range root brk i t)) t.

(** [ok]: whether [kmalloc] gives memory for the record. *)
Definition uheap_alloc (ok : bool) u (sz : Z) t : Z * utask * vmm :=
  if pml4_phys u =? PHYS_NULL then (0, u, t) else
  if (sz =? 0) || (UHEAP_MAX_ALLOC <? sz) then (0, u, t) else
  let brk := if uheap_brk u =? 0 then UHEAP_BASE else uheap_brk u in
  let pages := (sz + 4095) / 4096 in
  if UHEAP_END <? u64 (u64 (brk + pages * 4096) + 4096) then (0, u, t) else
  if negb ok then (0, u, t) else
  match uheap_map (pml4_phys u) brk pages t with
  | inl t => (0, u, t)
  | inr t => (brk, mkUtask (pml4_phys u) (u64 (u64 (brk + pages * 4096) + 4096))
                     (mkRegion brk sz pages :: uheap_regions u), t)
  end.

(** The first region with a given base, and the list without it. *)
Fixpoint find_region (uaddr : Z) (l : list region) : option region :=
  match l with
  | [] => None
  | n :: l => if base n =? uaddr then Some n else find_region uaddr l
  end.

Fixpoint unlink_region (uaddr : Z) (l : list region) : list region :=
  match l with
  | [] => []
  | n :: l => if base n =? uaddr then l else n :: unlink_region uaddr l
  end.

Fixpoint resize_region (uaddr sz : Z) (l : list region) : list region :=
  match l with
  | [] => []
  | n :: l => if base n =? uaddr then mkRegion (base n) sz (pages n) :: l else n :: resize_region uaddr sz l
  end.

Definition set_regions (l : list region) u : utask := mkUtask (pml4_phys u) (uheap_brk u) l.

Definition uheap_free u (uaddr : Z) t : Z * utask * vmm :=
  if uaddr =? 0 then (0, u, t) else
  match find_region uaddr (uheap_regions u) with
  | None => (0, u, t)
  | Some n => (1, set_regions (unlink_region uaddr (uheap_regions u)) u,
               uheap_unmap_range (pml4_phys u) (base n) (pages n) t)
  end.

(** [memcpy] between two addresses of the address space in use. *)
Fixpoint copy_bytes (n : nat) (dst src : Z) t : option vmm :=
  match n with
  | O => Some t
  | S n => match load src t with
           | None => None
           | Some b => match store_byte dst b t with
                       | None => None
                       | Some t => copy_bytes n (u64 (dst + 1)) (u64 (src + 1)) t
                       end
           end
  end.

Definition uheap_realloc (ok : bool) u (uaddr new_size : Z) t : option (Z * utask * vmm) :=
  if uaddr =? 0 then Some (uheap_alloc ok u new_size t) else
  if new_size =? 0 then let '(_, u, t) := uheap_free u uaddr t in Some (0, u, t) else
  if UHEAP_MAX_ALLOC <? new_size then Some (0, u, t) else
  match find_region uaddr (uheap_regions u) with
  | None => Some (0, u, t)
  | Some n =>
      if new_size <=? pages n * 4096
      then Some (base n, set_regions (resize_region uaddr new_size (uheap_regions u)) u, t) else
      let '(new_base, u, t) := uheap_alloc ok u new_size t in
      if new_base =? 0 then Some (0, u, t) else
      let copy := if size n <? new_size then size n else new_size in
      match copy_bytes (Z.to_nat copy) new_base uaddr t with
      | None => None
      | Some t => let '(_, u, t) := uheap_free u uaddr t in Some (new_base, u, t)
      end
  end.

Definition uheap_reset u : utask := mkUtask (pml4_phys u) UHEAP_BASE [].

(** The loop of [uheap_clone] over the records, with the records copied so far. *)
Fixpoint clone_regions (oks : list bool) (src copied : list region) : option (list region) :=
  match src with
  | [] => Some copied
  | n :: src => if default true (head oks)
                then clone_regions (tail oks) src (copied ++ [mkRegion (base n) (size n) (pages n)])
                else None
  end.

Definition uheap_clone (oks : list bool) (dst src : utask) : Z * utask :=
  match clone_regions oks (uheap_regions src) [] with
  | None => (-1, uheap_reset dst)
  | Some l => (0, mkUtask (pml4_phys dst) (uheap_brk src) l)
  end.

(** ** The pages of a region *)
Definition heap_va (a : Z) : Prop := UHEAP_BASE ≤ a < UHEAP_END.

Lemma heap_user a : heap_va a → user_va a.
Proof.
  unfold heap_va, UHEAP_BASE, UHEAP_END. intros Ha. split; [lia|]. unfold kz_shm_va_excluded, KZ_SHM_BASE.
  apply andb_false_iff. left. apply Z.leb_gt. lia.
Qed.

Lemma page_in_range root b i n r a :
  b mod 4096 = 0 → 0 ≤ i < n → on_page root (b + i * 4096) r a → in_range root b (n * 4096) r a.
Proof. intros Hb Hin [-> Ha]. split; [done|]. zdiv. Qed.

Lemma in_range_next root b i r a :
  b mod 4096 = 0 → 0 ≤ i → in_range root b ((i + 1) * 4096) r a ↔ in_range root b (i * 4096) r a ∨ on_page root (b + i * 4096) r a.
Proof.
  intros Hb Hi. unfold in_range, on_page. split.
  - intros [-> Ha]. destruct (decide (a < b + i * 4096)); [left; lia|right; split; [done|zdiv]].
  - intros [[-> Ha]|[-> Ha]]; (split; [done|zdiv]).
Qed.

#[global] Instance in_range_dec root b n r a : Decision (in_range root b n r a).
Proof. unfold in_range. apply _. Defined.

(** A change of pages that were and are unmapped is none. *)
Lemma uedit_shrink root b n tags hs t tags' t' :
  uedit (in_range root b n) tags hs t tags' t' →
  (∀ a, b ≤ a < b + n → translate t root a = None ∧ translate t' root a = None) → uedit nowhere tags hs t tags' t'.
Proof.
  intros [E1 E2 E3 E4 E5 E6] Hn. constructor; try done.
  - intros r a Hr Ha _. destruct (decide (in_range root b n r a)) as [[-> Hin]|Hin]; [|by apply E5].
    by destruct (Hn a Hin) as [-> ->].
  - intros r a Hr Hk Ha _ Hs. apply E6; try done. intros [-> Hin]. destruct (Hn a Hin) as [He _]. rewrite He in Hs. by destruct Hs.
Qed.

Section Pages.
Context (tags : gmap Z tag) (hs : gset Z) (t0 : vmm) (root b n : Z).
Context (Hi : iso tags hs t0) (Hr : is_root tags root) (Hne : root ≠ kernel_pml4_phys t0).
Context (Hb : UHEAP_BASE ≤ b) (Hal : b mod 4096 = 0) (Hn : 0 ≤ n) (Hend : b + n * 4096 ≤ UHEAP_END).

Let page_ok i : 0 ≤ i < n → user_va (b + i * 4096) ∧ u64 (b + i * 4096) = b + i * 4096.
Proof.
  intros Hin. unfold UHEAP_BASE, UHEAP_END in *. split; [apply heap_user; unfold heap_va, UHEAP_BASE, UHEAP_END; lia|].
  apply u64_id. lia.
Qed.

Lemma unmap_range_ok :
  uedit (in_range root b (n * 4096)) tags hs t0 tags (uheap_unmap_range root b n t0) ∧
  ∀ a, b ≤ a < b + n * 4096 → translate (uheap_unmap_range root b n t0) root a = None.
Proof.
  unfold uheap_unmap_range.
  apply (for_each_upto (λ i t, uedit (in_range root b (n * 4096)) tags hs t0 tags t ∧
    ∀ a, b ≤ a < b + i * 4096 → translate t root a = None)); [done|split; [by apply uedit_refl|lia]|].
  intros i t Hin [E Hd]. destruct (page_ok i Hin) as [Hu ->]. pose proof (uedit_kernel _ _ _ _ _ _ E) as Hk.
  destruct (unmap_free_ok tags hs t root (b + i * 4096) (ue_iso _ _ _ _ _ _ E) Hr ltac:(by rewrite Hk) Hu) as [E2 Hnone].
  split.
  - eapply uedit_trans; [exact E|]. eapply uedit_weaken; [|exact E2]. intros r a. by apply page_in_range.
  - intros a Ha. destruct (decide (a / 4096 = (b + i * 4096) / 4096)) as [He|Hd2].
    + by rewrite (translate_page _ root _ a He).
    + rewrite (ue_trans _ _ _ _ _ _ E2); [apply Hd; zdiv|done|unfold UHEAP_BASE, UHEAP_END in *; lia|]. intros [_ ?]. done.
Qed.

(** The frames of the pages are free afterwards. *)
Lemma unmap_range_frees a e :
  b ≤ a < b + n * 4096 → translate t0 root a = Some e →
  is_free (frames (uheap_unmap_range root b n t0)) (pte_frame e / PAGE_SIZE).
Proof.
  unfold uheap_unmap_range. revert a e.
  apply (for_each_upto (λ i t, uedit (in_range root b (i * 4096)) tags hs t0 tags t ∧
    ∀ a e, b ≤ a < b + i * 4096 → translate t0 root a = Some e → is_free (frames t) (pte_frame e / PAGE_SIZE)));
    [done|split; [by apply uedit_refl|lia]|].
  intros i t Hin [E Hd]. destruct (page_ok i Hin) as [Hu ->]. pose proof (uedit_kernel _ _ _ _ _ _ E) as Hk.
  pose proof (unmap_free_ok tags hs t root (b + i * 4096) (ue_iso _ _ _ _ _ _ E) Hr ltac:(by rewrite Hk) Hu) as [E2 _].
  destruct (unmap_free_frees tags hs t root (b + i * 4096) (ue_iso _ _ _ _ _ _ E) Hr ltac:(by rewrite Hk) Hu) as [Hmono Hfree].
  split.
  - eapply uedit_trans; eapply uedit_weaken; [|exact E| |exact E2]; intros r a Hra; apply in_range_next; auto; lia.
  - intros a e Ha He. destruct (decide (a < b + i * 4096)) as [Hlt|Hge]; [apply Hmono, (Hd a e); [lia|done]|].
    apply Hfree. rewrite <- (translate_page _ root _ a) by zdiv.
    rewrite (ue_trans _ _ _ _ _ _ E); [done|done|unfold UHEAP_BASE, UHEAP_END in *; lia|]. unfold in_range. lia.
Qed.
End Pages.

Section MapPages.
Context (tags : gmap Z tag) (hs : gset Z) (t0 : vmm) (root b n : Z).
Context (Hi : iso tags hs t0) (Hr : is_root tags root) (Hne : root ≠ kernel_pml4_phys t0).
Context (Hb : UHEAP_BASE ≤ b) (Hal : b mod 4096 = 0) (Hn : 0 ≤ n) (Hend : b + n * 4096 ≤ UHEAP_END).

Let page_ok i : 0 ≤ i < n → user_va (b + i * 4096) ∧ u64 (b + i * 4096) = b + i * 4096.
Proof.
  intros Hin. unfold UHEAP_BASE, UHEAP_END in *. split; [apply heap_user; unfold heap_va, UHEAP_BASE, UHEAP_END; lia|].
  apply u64_id. lia.
Qed.

(** What the loop has done after [i] pages. *)
Definition mapped_to (i : Z) t : Prop :=
  used_pages (frames t) ≤ used_pages (frames t0) + 4 * i ∧
  ∃ tags', uedit (in_range root b (i * 4096)) tags hs t0 tags' t ∧
    ∀ a, b ≤ a < b + i * 4096 → (∃ e, translate t root a = Some e ∧ pte_flags e = 7) ∧ byte_at root a t = Some 0.

Lemma mapped_next i t t' tags' tags2 e :
  0 ≤ i < n → uedit (in_range root b (i * 4096)) tags hs t0 tags' t →
  (∀ a, b ≤ a < b + i * 4096 → (∃ e, translate t root a = Some e ∧ pte_flags e = 7) ∧ byte_at root a t = Some 0) →
  uedit (on_page root (b + i * 4096)) tags' hs t tags2 t' → translate t' root (b + i * 4096) = Some e → pte_flags e = 7 →
  (∀ a, a / 4096 = (b + i * 4096) / 4096 → byte_at root a t' = Some 0) →
  uedit (in_range root b ((i + 1) * 4096)) tags hs t0 tags2 t' ∧
  ∀ a, b ≤ a < b + (i + 1) * 4096 → (∃ e, translate t' root a = Some e ∧ pte_flags e = 7) ∧ byte_at root a t' = Some 0.
Proof.
  intros Hin E Hd E2 Htr Hfl Hz. pose proof (uedit_root _ _ _ _ _ _ _ E Hr) as Hr'. pose proof (uedit_kernel _ _ _ _ _ _ E) as Hk. split.
  - eapply uedit_trans; eapply uedit_weaken; [|exact E| |exact E2]; intros r a Hra; apply in_range_next; auto; lia.
  - intros a Ha. destruct (decide (a / 4096 = (b + i * 4096) / 4096)) as [He|Hd2].
    { split; [exists e; by rewrite (translate_page _ root _ a He)|by apply Hz]. }
    destruct (Hd a ltac:(zdiv)) as [(e' & He' & Hf') Hz']. assert (Hno : ¬ on_page root (b + i * 4096) root a) by (by intros [_ ?]).
    pose proof (heap_user a ltac:(unfold heap_va in *; lia)) as Hu. split.
    + exists e'. by rewrite (ue_trans _ _ _ _ _ _ E2) by (done || apply Hu).
    + by rewrite (ue_bytes _ _ _ _ _ _ E2) by (done || by rewrite ?Hk, ?He').
Qed.

Lemma uheap_map_ok :
  (∀ a, b ≤ a < b + n * 4096 → translate t0 root a = None) →
  match uheap_map root b n t0 with
  | inr t => mapped_to n t
  | inl t => total_pages (frames t0) ≤ used_pages (frames t0) + 4 * n ∧ ∃ tags', uedit nowhere tags hs t0 tags' t
  end.
Proof.
  intros Hfree. unfold uheap_map.
  match goal with |- match for_range 0 n ?body t0 with _ => _ end =>
    pose proof (for_range_rule mapped_to (λ t, total_pages (frames t0) ≤ used_pages (frames t0) + 4 * n ∧
      ∃ tags', uedit nowhere tags hs t0 tags' t) 0 n body t0) as H end.
  rewrite (Z.max_r 0 n) in H by done. apply H; clear H.
  { split; [lia|]. exists tags. split; [by apply uedit_refl|lia]. }
  intros i t Hin (Hu & tags' & E & Hd). destruct (page_ok i Hin) as [Hua ->].
  pose proof (uedit_root _ _ _ _ _ _ _ E Hr) as Hr'. pose proof (uedit_kernel _ _ _ _ _ _ E) as Hk.
  pose proof (map_zeroed_ok tags' hs t root (b + i * 4096) (ue_iso _ _ _ _ _ _ E) Hr' ltac:(by rewrite Hk) Hua 7 flags7_ok eq_refl) as Hm.
  destruct (map_zeroed (b + i * 4096) 7 root t) as [ok t'].
  destruct Hm as [(-> & Hu2 & tags2 & e & E2 & Htr & Hfl & Hz)|(-> & Hfull & tags2 & E2)].
  - split; [lia|]. exists tags2. by apply (mapped_next i t t' tags' tags2 e).
  - rewrite (ue_total _ _ _ _ _ _ E) in Hfull. split; [lia|].
    pose proof (uedit_trans _ _ _ _ _ _ _ _ E (uedit_weaken _ (in_range root b (i * 4096)) _ _ _ _ _ (λ r a (F : nowhere r a), match F with end) E2)) as E3.
    pose proof (uedit_kernel _ _ _ _ _ _ E3) as Hk3.
    destruct (unmap_range_ok tags2 hs t' root b i (ue_iso _ _ _ _ _ _ E3) (uedit_root _ _ _ _ _ _ _ E3 Hr)
      ltac:(by rewrite Hk3) Hb Hal ltac:(lia) ltac:(lia)) as [E4 Hnone].
    exists tags2. apply (uedit_shrink root b (i * 4096)); [by eapply uedit_trans|].
    intros a Ha. split; [apply Hfree; lia|by apply Hnone].
Qed.
End MapPages.

(** ** The invariant of a heap *)

(** The next free address. *)
Definition heap_top u : Z := if uheap_brk u =? 0 then UHEAP_BASE else uheap_brk u.

Definition covers (n : region) (a : Z) : Prop := base n ≤ a < base n + pages n * 4096.

(** Newer regions come first; a page is between two of them. *)
Definition above (n n' : region) : Prop := base n' + pages n' * 4096 + 4096 ≤ base n.

Definition region_ok (top : Z) (n : region) : Prop :=
  UHEAP_BASE ≤ base n ∧ base n mod 4096 = 0 ∧ 0 < size n ≤ pages n * 4096 ∧ base n + pages n * 4096 + 4096 ≤ top.

(** The regions are apart from one another and below the next free address, and the pages
    of the heap that are mapped are those of its regions, writable and for user mode. *)
Record heap_ok t u : Prop := {
  ho_top : UHEAP_BASE ≤ heap_top u ≤ UHEAP_END ∧ heap_top u mod 4096 = 0;
  ho_regions : Forall (region_ok (heap_top u)) (uheap_regions u);
  ho_apart : StronglySorted above (uheap_regions u);
  ho_mapped : ∀ a, heap_va a →
    match translate t (pml4_phys u) a with
    | Some e => pte_flags e = 7 ∧ ∃ n, n ∈ uheap_regions u ∧ covers n a
    | None => ∀ n, n ∈ uheap_regions u → ¬ covers n a
    end
}.

Lemma heap_ok_ext t t' u :
  (∀ a, heap_va a → translate t' (pml4_phys u) a = translate t (pml4_phys u) a) → heap_ok t u → heap_ok t' u.
Proof. intros He [H1 H2 H3 H4]. constructor; try done. intros a Ha. rewrite He by done. by apply H4. Qed.

Lemma covers_heap t u n a : heap_ok t u → n ∈ uheap_regions u → covers n a → heap_va a ∧ a < heap_top u.
Proof.
  intros Ho Hn Hc. destruct (Forall_forall (region_ok (heap_top u)) (uheap_regions u)) as [Hf _].
  destruct (Hf (ho_regions _ _ Ho) n Hn) as (H1 & _ & _ & H2). destruct (ho_top _ _ Ho) as [H3 _].
  unfold covers, heap_va in *. lia.
Qed.

Lemma covers_mapped t u n a :
  heap_ok t u → n ∈ uheap_regions u → covers n a → ∃ e, translate t (pml4_phys u) a = Some e ∧ pte_flags e = 7.
Proof.
  intros Ho Hn Hc. destruct (covers_heap t u n a Ho Hn Hc) as [Ha _]. pose proof (ho_mapped _ _ Ho a Ha) as Hm.
  destruct (translate t (pml4_phys u) a) as [e|]; [exists e; split; [done|apply Hm]|by destruct (Hm n Hn)].
Qed.

(** No other region covers an address of a region. *)
Lemma covers_once l top n n' a :
  Forall (region_ok top) l → StronglySorted above l → n ∈ l → n' ∈ l → covers n a → covers n' a → n = n'.
Proof.
  intros Hf Hs. induction Hs as [|m l Hs IH Hm]; [by intros Hn%elem_of_nil|].
  apply Forall_cons in Hf as [Hmo Hf]. rewrite Forall_forall in Hm.
  intros [->|Hn]%elem_of_cons [->|Hn']%elem_of_cons Hc Hc'; [done|..|by apply IH].
  - pose proof (Hm n' Hn'). unfold covers, above in *. lia.
  - pose proof (Hm n Hn). unfold covers, above in *. lia.
Qed.

Lemma region_own top n : region_ok top n → covers n (base n).
Proof. intros (_ & _ & H & _). unfold covers. lia. Qed.

Lemma find_region_some uaddr l n : find_region uaddr l = Some n → n ∈ l ∧ base n = uaddr.
Proof.
  induction l as [|m l IH]; [done|]. cbn [find_region]. destruct (Z.eqb_spec (base m) uaddr) as [He|_].
  - intros [= <-]. split; [by left|done].
  - intros [H1 H2]%IH. split; [by right|done].
Qed.

Lemma unlink_sublist uaddr l : sublist (unlink_region uaddr l) l.
Proof.
  induction l as [|m l IH]; [done|]. cbn [unlink_region]. destruct (base m =? uaddr); [by constructor|by constructor].
Qed.

Lemma sorted_sublist (l l' : list region) : sublist l l' → StronglySorted above l' → StronglySorted above l.
Proof.
  intros Hsub. induction Hsub as [|m l l' Hsub IH|m l l' Hsub IH]; intros Hs; [done|..]; apply StronglySorted_inv in Hs as [Hs Hm].
  - constructor; [by apply IH|]. rewrite Forall_forall in Hm |- *. intros x Hx. by apply Hm, (sublist_subseteq _ _ Hsub).
  - by apply IH.
Qed.

(** Unlinking takes out exactly the region. *)
Lemma unlink_region_in top l n m :
  Forall (region_ok top) l → StronglySorted above l → n ∈ l → m ∈ unlink_region (base n) l ↔ m ∈ l ∧ m ≠ n.
Proof.
  intros Hf Hs. induction Hs as [|x l Hs IH Hx]; [by intros ?%elem_of_nil|]. apply Forall_cons in Hf as [Hxo Hf].
  rewrite Forall_forall in Hx, Hf. cbn [unlink_region]. intros [->|Hn]%elem_of_cons.
  - rewrite Z.eqb_refl, elem_of_cons. split; [|intros [[->|?] ?]; done]. intros Hm. split; [by right|]. intros ->.
    pose proof (Hx x Hm). unfold above in *. destruct Hxo as (_ & _ & ? & _). lia.
  - assert (Hlt : base x ≠ base n).
    { pose proof (Hx n Hn) as Ha. destruct (Hf n Hn) as (_ & _ & ? & _). unfold above in Ha. lia. }
    destruct (Z.eqb_spec (base x) (base n)) as [|_]; [done|]. rewrite !elem_of_cons, IH; [|by apply Forall_forall|done].
    split; [intros [->|[? ?]]; [split; [by left|congruence]|tauto]|tauto].
Qed.

(** ** The operations *)
Definition pages_for (sz : Z) : Z := (sz + 4095) / 4096.

(** What is left of a task after an allocation. *)
Definition grown_task u (sz : Z) : utask :=
  mkUtask (pml4_phys u) (heap_top u + pages_for sz * 4096 + 4096) (mkRegion (heap_top u) sz (pages_for sz) :: uheap_regions u).

Section HeapOps.
Context (tags : gmap Z tag) (hs : gset Z) (t : vmm) (u : utask).
Context (Hi : iso tags hs t) (Hr : is_root tags (pml4_phys u)) (Hne : pml4_phys u ≠ kernel_pml4_phys t) (Ho : heap_ok t u).

Lemma uedit_heap_ok P tags' t' :
  uedit P tags hs t tags' t' → (∀ a, heap_va a → ¬ P (pml4_phys u) a) → heap_ok t' u.
Proof.
  intros E HP. apply (heap_ok_ext t); [|done]. intros a Ha. apply (ue_trans _ _ _ _ _ _ E); [done|apply (heap_user a Ha)|by apply HP].
Qed.

Lemma grown_task_ok sz tags' t' :
  0 < sz ≤ UHEAP_MAX_ALLOC → heap_top u + pages_for sz * 4096 + 4096 ≤ UHEAP_END →
  uedit (in_range (pml4_phys u) (heap_top u) (pages_for sz * 4096)) tags hs t tags' t' →
  (∀ a, heap_top u ≤ a < heap_top u + pages_for sz * 4096 → ∃ e, translate t' (pml4_phys u) a = Some e ∧ pte_flags e = 7) →
  heap_ok t' (grown_task u sz).
Proof.
  intros Hsz Hend E Hnew. destruct (ho_top _ _ Ho) as [[Ht1 Ht2] Ht3].
  set (m := mkRegion (heap_top u) sz (pages_for sz)). assert (Hp : 0 < sz ≤ pages_for sz * 4096) by (unfold pages_for; zdiv).
  assert (Htop : heap_top (grown_task u sz) = heap_top u + pages_for sz * 4096 + 4096).
  { unfold heap_top at 1. cbn [uheap_brk grown_task]. destruct (Z.eqb_spec (heap_top u + pages_for sz * 4096 + 4096) 0); [|done].
    unfold UHEAP_BASE in *. lia. }
  constructor; rewrite ?Htop; cbn [uheap_regions grown_task pml4_phys].
  - split; [lia|]. zdiv.
  - constructor; [unfold region_ok, m; cbn; lia|]. eapply Forall_impl; [apply Ho|]. unfold region_ok. intros n (? & ? & ? & ?). lia.
  - constructor; [apply Ho|]. eapply Forall_impl; [apply Ho|]. unfold region_ok, above, m. intros n (? & ? & ? & ?). cbn. lia.
  - intros a Ha. pose proof (ho_mapped _ _ Ho a Ha) as Hm.
    destruct (decide (in_range (pml4_phys u) (heap_top u) (pages_for sz * 4096) (pml4_phys u) a)) as [[_ Hin]|Hout].
    { destruct (Hnew a Hin) as (e & -> & He). split; [done|]. exists m. split; [by left|done]. }
    rewrite (ue_trans _ _ _ _ _ _ E) by (done || apply (heap_user a Ha)).
    destruct (translate t (pml4_phys u) a) as [e|].
    + destruct Hm as [He (n & Hn & Hc)]. split; [done|]. exists n. split; [by right|done].
    + intros n [->|Hn]%elem_of_cons Hc; [|by apply (Hm n)]. apply Hout. split; [done|]. apply Hc.
Qed.

(** The outcome of an allocation, with the reasons to fail. *)
Definition refused (ok : bool) (sz : Z) : Prop :=
  sz = 0 ∨ UHEAP_MAX_ALLOC < sz ∨ UHEAP_END < heap_top u + pages_for sz * 4096 + 4096 ∨ ok = false ∨
  total_pages (frames t) ≤ used_pages (frames t) + 4 * pages_for sz.

Definition allocated (ok : bool) (sz : Z) (r : Z * utask * vmm) : Prop :=
  let '(res, u', t') := r in
  heap_ok t' u' ∧
  ((res = 0 ∧ u' = u ∧ refused ok sz ∧ ∃ tags', uedit nowhere tags hs t tags' t') ∨
   (res = heap_top u ∧ u' = grown_task u sz ∧ 0 < sz ≤ UHEAP_MAX_ALLOC ∧ heap_top u + pages_for sz * 4096 + 4096 ≤ UHEAP_END ∧
    ∃ tags', uedit (in_range (pml4_phys u) (heap_top u) (pages_for sz * 4096)) tags hs t tags' t' ∧
      ∀ a, heap_top u ≤ a < heap_top u + pages_for sz * 4096 → byte_at (pml4_phys u) a t' = Some 0)).

Lemma top_free a : heap_va a → heap_top u ≤ a → translate t (pml4_phys u) a = None.
Proof.
  intros Ha Hle. pose proof (ho_mapped _ _ Ho a Ha) as Hm. destruct (translate t (pml4_phys u) a) as [e|]; [|done].
  destruct Hm as [_ (n & Hn & Hc)]. destruct (covers_heap t u n a Ho Hn Hc). lia.
Qed.

Lemma uheap_alloc_ok ok sz : 0 ≤ sz < 2 ^ 64 → allocated ok sz (uheap_alloc ok u sz t).
Proof.
  intros Hsz. unfold uheap_alloc. rewrite (root_not_null tags hs t (pml4_phys u) Hi Hr). fold (heap_top u). fold (pages_for sz).
  pose proof (ho_top _ _ Ho) as [[Ht1 Ht2] Ht3].
  assert (Hfail : refused ok sz → allocated ok sz (0, u, t)).
  { intros Hw. split; [done|]. left. split_and!; try done. exists tags. by apply uedit_refl. }
  destruct (Z.eqb_spec sz 0) as [->|H0]; cbn [orb]; [apply Hfail; by left|].
  destruct (Z.ltb_spec UHEAP_MAX_ALLOC sz) as [|Hmax]; [apply Hfail; by right; left|].
  assert (Hpf : 0 < sz ≤ pages_for sz * 4096 ∧ pages_for sz ≤ 16384).
  { unfold pages_for, UHEAP_MAX_ALLOC in *. zdiv. }
  rewrite (u64_id (heap_top u + _)) by (unfold UHEAP_BASE, UHEAP_END in *; lia).
  rewrite u64_id by (unfold UHEAP_BASE, UHEAP_END in *; lia).
  destruct (Z.ltb_spec UHEAP_END (heap_top u + pages_for sz * 4096 + 4096)) as [|Hend]; [apply Hfail; by do 2 right; left|].
  destruct ok; cbn [negb]; [|apply Hfail; by do 3 right; left].
  pose proof (uheap_map_ok tags hs t (pml4_phys u) (heap_top u) (pages_for sz) Hi Hr Hne Ht1 Ht3 ltac:(lia) ltac:(lia)) as Hm.
  lapply Hm; [clear Hm; intros Hm|intros a Ha; apply top_free; unfold heap_va; lia].
  destruct (uheap_map (pml4_phys u) (heap_top u) (pages_for sz) t) as [t'|t'].
  - destruct Hm as [Hfull [tags' E]]. split; [apply (uedit_heap_ok _ _ _ E); by intros ? ? []|]. left.
    split_and!; try done; [by do 4 right|by exists tags'].
  - destruct Hm as (Hu & tags' & E & Hd). fold (grown_task u sz).
    split; [apply (grown_task_ok sz tags'); [lia|done|done|intros a Ha; by apply Hd]|].
    right. split_and!; try done; [lia|]. exists tags'. split; [done|]. intros a Ha. by apply Hd.
Qed.

(** Freeing a region: its pages and no other go away. *)
Lemma uheap_free_ok uaddr n :
  uaddr ≠ 0 → find_region uaddr (uheap_regions u) = Some n →
  let '(res, u', t') := uheap_free u uaddr t in
  res = 1 ∧ heap_ok t' u' ∧ pml4_phys u' = pml4_phys u ∧ heap_top u' = heap_top u ∧
  (∀ m, m ∈ uheap_regions u' ↔ m ∈ uheap_regions u ∧ m ≠ n) ∧
  uedit (in_range (pml4_phys u) (base n) (pages n * 4096)) tags hs t tags t' ∧
  ∀ a e, covers n a → translate t (pml4_phys u) a = Some e → is_free (frames t') (pte_frame e / PAGE_SIZE).
Proof.
  intros H0 Hf. unfold uheap_free. rewrite (proj2 (Z.eqb_neq uaddr 0) H0), Hf.
  destruct (find_region_some _ _ _ Hf) as [Hn Hb]. pose proof (proj1 (Forall_forall _ _) (ho_regions _ _ Ho) n Hn) as (N1 & N2 & N3 & N4).
  destruct (ho_top _ _ Ho) as [[_ Ht2] _].
  destruct (unmap_range_ok tags hs t (pml4_phys u) (base n) (pages n) Hi Hr Hne N1 N2 ltac:(lia) ltac:(lia)) as [E Hd].
  pose proof (unmap_range_frees tags hs t (pml4_phys u) (base n) (pages n) Hi Hr Hne N1 N2 ltac:(lia) ltac:(lia)) as Hfree.
  set (t' := uheap_unmap_range _ _ _ _) in *.
  pose proof (λ m, unlink_region_in _ _ n m (ho_regions _ _ Ho) (ho_apart _ _ Ho) Hn) as Hun. rewrite Hb in Hun.
  split; [done|]. split; [|by split_and!]. constructor; cbn [uheap_regions set_regions pml4_phys].
  - apply Ho.
  - apply Forall_forall. intros m Hm. apply Hun in Hm as [Hm _]. by apply (proj1 (Forall_forall _ _) (ho_regions _ _ Ho)).
  - eapply sorted_sublist; [apply unlink_sublist|apply Ho].
  - intros a Ha. pose proof (ho_mapped _ _ Ho a Ha) as Hm.
    destruct (decide (in_range (pml4_phys u) (base n) (pages n * 4096) (pml4_phys u) a)) as [[_ Hin]|Hout].
    { rewrite Hd by done. intros m [Hm1 Hm2]%Hun Hc. apply Hm2.
      by apply (covers_once _ _ m n a (ho_regions _ _ Ho) (ho_apart _ _ Ho)). }
    rewrite (ue_trans _ _ _ _ _ _ E) by (done || apply (heap_user a Ha)).
    destruct (translate t (pml4_phys u) a) as [e|]; [|intros m [Hm1 _]%Hun; by apply Hm].
    destruct Hm as [He (m & Hm & Hc)]. split; [done|]. exists m. split; [|done]. apply Hun. split; [done|].
    intros ->. apply Hout. by split.
Qed.
End HeapOps.

(** ** Copying inside an address space *)
Lemma get_byte_u8 t pa : u8 (get_byte t pa) = get_byte t pa.
Proof. unfold get_byte, u8. zdiv. Qed.

Lemma copy_bytes_ok tags hs root n dst src t :
  iso tags hs t → is_root tags root → root ≠ kernel_pml4_phys t → vmm_read_cr3 t = root →
  0 ≤ dst → 0 ≤ src → dst + Z.of_nat n ≤ 2 ^ 63 → src + Z.of_nat n ≤ 2 ^ 63 →
  src + Z.of_nat n ≤ dst ∨ dst + Z.of_nat n ≤ src →
  (∀ k, 0 ≤ k < Z.of_nat n → user_byte root (src + k) t) →
  (∀ k, 0 ≤ k < Z.of_nat n → user_byte root (dst + k) t ∧ ∃ pa, mmu root (dst + k) t = Some (pa, true)) →
  ∃ t' l, copy_bytes n dst src t = Some t' ∧ wrote tags hs root dst l t t' ∧ zlength l = Z.of_nat n ∧
    ∀ k, 0 ≤ k < Z.of_nat n → byte_at root (src + k) t = Some (u8 (lget l k)).
Proof.
  intros Hi Hr. revert dst src t Hi.
  induction n as [|n IH]; intros dst src t Hi Hne Hcr Hd Hs Hdb Hsb Hdis Hsrc Hdst; cbn [copy_bytes].
  { exists t, []. split; [done|]. split; [by apply wrote_refl|]. split; [done|lia]. }
  destruct (Hsrc 0 ltac:(lia)) as [Hu [e He]]. rewrite Z.add_0_r in Hu, He.
  unfold load. rewrite Hcr. destruct (byte_user tags hs t root src e Hi Hr Hne Hu He) as (Hb & _). rewrite Hb.
  destruct (Hdst 0 ltac:(lia)) as [Hud [pa Hpa]]. rewrite Z.add_0_r in Hud, Hpa.
  set (b := get_byte t _) in *. destruct (store_byte_ok tags hs root Hr dst b pa t Hi Hne Hcr Hud Hpa) as (t1 & -> & W).
  destruct (wt_regs _ _ _ _ _ _ _ W) as (A1 & A2 & _). rewrite !u64_id by lia.
  assert (Hkeep : ∀ a, user_byte root a t → user_byte root a t1 ∧ mmu root a t1 = mmu root a t).
  { intros a Ha. by apply (wrote_user tags hs root dst [b] t t1). }
  destruct (IH (dst + 1) (src + 1) t1) as (t' & l & -> & W2 & Hl & Hk); try lia.
  - apply W.
  - unfold vmm_read_cr3. by rewrite A1.
  - intros k Hk. replace (src + 1 + k) with (src + (k + 1)) by lia. apply Hkeep, Hsrc. lia.
  - intros k Hk. replace (dst + 1 + k) with (dst + (k + 1)) by lia. destruct (Hdst (k + 1) ltac:(lia)) as [H1 H2].
    destruct (Hkeep _ H1) as [H3 ->]. done.
  - exists t', (b :: l). split; [done|]. split; [by apply (wrote_cons tags hs root dst b l t t1 t')|].
    unfold zlength in *. split; [cbn [length]; lia|]. intros k Hk'. destruct (decide (k = 0)) as [->|Hk0].
    { rewrite Z.add_0_r, Hb. change (lget (b :: l) 0) with b. unfold b. by rewrite get_byte_u8. }
    specialize (Hk (k - 1) ltac:(lia)). replace (src + 1 + (k - 1)) with (src + k) in Hk by lia.
    rewrite (wt_bytes _ _ _ _ _ _ _ W) in Hk; [|done|done|apply Hsrc; lia]. rewrite decide_False in Hk.
    2: { unfold zlength. cbn [length]. lia. }
    rewrite Hk. do 2 f_equal. unfold lget. replace (Z.to_nat k) with (S (Z.to_nat (k - 1))) by lia. done.
Qed.

(** ** Reallocation *)
Lemma resize_same uaddr sz l :
  Forall2 (λ m m', base m' = base m ∧ pages m' = pages m ∧ (size m' = size m ∨ base m = uaddr ∧ size m' = sz)) l (resize_region uaddr sz l).
Proof.
  induction l as [|m l IH]; cbn [resize_region]; [done|]. destruct (Z.eqb_spec (base m) uaddr) as [He|_].
  - constructor; [by auto|]. clear. induction l; by constructor; auto.
  - constructor; [by auto|done].
Qed.

Lemma resize_find uaddr sz l n : find_region uaddr l = Some n → mkRegion uaddr sz (pages n) ∈ resize_region uaddr sz l.
Proof.
  induction l as [|m l IH]; [done|]. cbn [find_region resize_region]. destruct (Z.eqb_spec (base m) uaddr) as [He|_].
  - intros [= <-]. rewrite He. by left.
  - intros H. right. by apply IH.
Qed.

Lemma resize_other uaddr sz l m : m ∈ l → base m ≠ uaddr → m ∈ resize_region uaddr sz l.
Proof.
  intros Hm Hne. induction l as [|x l IH]; [by apply elem_of_nil in Hm|]. cbn [resize_region].
  apply elem_of_cons in Hm as [->|Hm]; destruct (Z.eqb_spec (base x) uaddr); rewrite elem_of_cons; auto. done.
Qed.

Definition same_place (m m' : region) : Prop := base m' = base m ∧ pages m' = pages m.

Lemma same_place_sorted l l' : Forall2 same_place l l' → StronglySorted above l → StronglySorted above l'.
Proof.
  intros H2 Hs. revert l' H2. induction Hs as [|m l Hs IH Hm]; intros l' H2.
  { apply Forall2_nil_inv_l in H2 as ->. constructor. }
  apply Forall2_cons_inv_l in H2 as (m' & k & [Hb _] & H2 & ->). constructor; [by apply IH|].
  rewrite Forall_forall in Hm |- *. intros x' Hx'. apply list_elem_of_lookup in Hx' as [i Hi].
  destruct (Forall2_lookup_r _ _ _ _ _ H2 Hi) as (x & Hx & Hbx & Hpx). apply list_elem_of_lookup_2 in Hx.
  pose proof (Hm x Hx) as Ha. unfold above in *. rewrite Hb, Hbx, Hpx. done.
Qed.

Lemma same_place_covers l l' a :
  Forall2 same_place l l' → (∃ n, n ∈ l ∧ covers n a) ↔ (∃ n, n ∈ l' ∧ covers n a).
Proof.
  intros H2. unfold covers. split; intros (x & Hx & Hc); apply list_elem_of_lookup in Hx as [i Hi].
  - destruct (Forall2_lookup_l _ _ _ _ _ H2 Hi) as (y & Hy & Hb & Hp). exists y. rewrite Hb, Hp.
    split; [by apply list_elem_of_lookup_2 in Hy|done].
  - destruct (Forall2_lookup_r _ _ _ _ _ H2 Hi) as (y & Hy & Hb & Hp). exists y. rewrite <- Hb, <- Hp.
    split; [by apply list_elem_of_lookup_2 in Hy|done].
Qed.

Lemma resized_ok t u uaddr sz n :
  heap_ok t u → find_region uaddr (uheap_regions u) = Some n → 0 < sz ≤ pages n * 4096 →
  heap_ok t (set_regions (resize_region uaddr sz (uheap_regions u)) u).
Proof.
  intros Ho Hf Hsz. destruct (find_region_some _ _ _ Hf) as [Hn Hb].
  pose proof (resize_same uaddr sz (uheap_regions u)) as H2. set (l' := resize_region _ _ _) in *.
  pose proof (ho_regions _ _ Ho) as Hreg. pose proof (ho_apart _ _ Ho) as Hap. rewrite Forall_forall in Hreg.
  assert (Hsame : ∀ m, m ∈ uheap_regions u → base m = uaddr → pages m = pages n).
  { intros m Hm He. f_equal. apply (covers_once _ _ m n uaddr (ho_regions _ _ Ho) Hap); try done.
    - rewrite <- He. apply (region_own (heap_top u)). by apply Hreg.
    - rewrite <- Hb. apply (region_own (heap_top u)). by apply Hreg. }
  assert (H3 : Forall2 same_place (uheap_regions u) l') by (eapply Forall2_impl; [exact H2|]; intros m m' (? & ? & _); by split).
  constructor; cbn [uheap_regions set_regions pml4_phys].
  - apply Ho.
  - apply Forall_forall. intros m' Hm'. apply list_elem_of_lookup in Hm' as [i Hi].
    destruct (Forall2_lookup_r _ _ _ _ _ H2 Hi) as (m & Hm & Hb' & Hp & Hs). apply list_elem_of_lookup_2 in Hm.
    destruct (Hreg m Hm) as (R1 & R2 & R3 & R4). change (heap_top (set_regions l' u)) with (heap_top u).
    unfold region_ok. rewrite Hb', Hp. split_and!; try done; destruct Hs as [-> |[Hbm ->]]; try lia. rewrite (Hsame m Hm Hbm). lia.
  - by apply (same_place_sorted (uheap_regions u)).
  - intros a Ha. pose proof (ho_mapped _ _ Ho a Ha) as Hm. pose proof (same_place_covers _ _ a H3) as Hc.
    destruct (translate t (pml4_phys u) a) as [e|].
    + split; [apply Hm|]. by apply Hc, Hm.
    + intros m' Hm' Hcm. destruct Hc as [_ Hc]. destruct Hc as (m & Hm1 & Hm2); [by exists m'|]. by apply (Hm m).
Qed.

Definition heap_of (root r a : Z) : Prop := r = root ∧ heap_va a.

(** The bytes of a region can be read and written. *)
Lemma region_bytes tags hs t u n a :
  iso tags hs t → is_root tags (pml4_phys u) → pml4_phys u ≠ kernel_pml4_phys t → heap_ok t u → n ∈ uheap_regions u → covers n a →
  user_byte (pml4_phys u) a t ∧ ∃ pa, mmu (pml4_phys u) a t = Some (pa, true).
Proof.
  intros Hi Hr Hne Ho Hn Hc. destruct (covers_heap t u n a Ho Hn Hc) as [Ha _]. pose proof (heap_user a Ha) as Hu.
  destruct (covers_mapped t u n a Ho Hn Hc) as (e & He & Hf). split; [split; [done|by rewrite He]|].
  rewrite (mmu_user tags hs _ a t e Hi Hr Hne Hu He). eexists. do 2 f_equal. unfold writable.
  rewrite <- pte_flags_bit by lia. by rewrite Hf.
Qed.

Section Realloc.
Context (tags : gmap Z tag) (hs : gset Z) (t : vmm) (u : utask).
Context (Hi : iso tags hs t) (Hr : is_root tags (pml4_phys u)) (Hne : pml4_phys u ≠ kernel_pml4_phys t) (Ho : heap_ok t u).
Context (Hcr : vmm_read_cr3 t = pml4_phys u).
Context (uaddr : Z) (n : region) (H0 : uaddr ≠ 0) (Hf : find_region uaddr (uheap_regions u) = Some n).

(** What a move does beyond the copy: the rest of the new region is zero, and the pages of
    the old one are unmapped and their frames free. *)
Definition moved_away (sz res : Z) (t' : vmm) : Prop :=
  (∀ k, size n ≤ k < sz → byte_at (pml4_phys u) (res + k) t' = Some 0) ∧
  ∀ a e, covers n a → translate t (pml4_phys u) a = Some e →
    translate t' (pml4_phys u) a = None ∧ is_free (frames t') (pte_frame e / PAGE_SIZE).

(** The outcome of a reallocation of the region [n] at [uaddr]. *)
Definition realloced (sz : Z) (r : Z * utask * vmm) : Prop :=
  let '(res, u', t') := r in
  heap_ok t' u' ∧ pml4_phys u' = pml4_phys u ∧ (∃ tags', uedit (heap_of (pml4_phys u)) tags hs t tags' t') ∧
  ((res = 0 ∧ u' = u ∧ ∃ tags', uedit nowhere tags hs t tags' t') ∨
   (res ≠ 0 ∧ (∃ m, m ∈ uheap_regions u' ∧ base m = res ∧ size m = sz) ∧
    (∀ k, 0 ≤ k < Z.min (size n) sz → byte_at (pml4_phys u) (res + k) t' = byte_at (pml4_phys u) (uaddr + k) t) ∧
    (∀ m, m ∈ uheap_regions u → m ≠ n → m ∈ uheap_regions u' ∧
       ∀ a, covers m a → byte_at (pml4_phys u) a t' = byte_at (pml4_phys u) a t) ∧
    (sz ≤ pages n * 4096 ∧ res = uaddr ∧ t' = t ∨ pages n * 4096 < sz ∧ res ≠ uaddr ∧ moved_away sz res t'))).

(** The copy to a new region. *)
Lemma move_copy sz tags1 t1 :
  heap_ok t1 (grown_task u sz) → size n < sz → sz ≤ pages_for sz * 4096 → heap_top u + pages_for sz * 4096 + 4096 ≤ UHEAP_END →
  uedit (in_range (pml4_phys u) (heap_top u) (pages_for sz * 4096)) tags hs t tags1 t1 →
  ∃ t2 l, copy_bytes (Z.to_nat (size n)) (heap_top u) uaddr t1 = Some t2 ∧ zlength l = size n ∧
    wrote tags1 hs (pml4_phys u) (heap_top u) l t1 t2 ∧
    ∀ k, 0 ≤ k < size n → byte_at (pml4_phys u) (uaddr + k) t1 = Some (u8 (lget l k)).
Proof.
  intros Ho1 Hlt Hsz Hend E. destruct (find_region_some _ _ _ Hf) as [Hn Hb].
  pose proof (proj1 (Forall_forall _ _) (ho_regions _ _ Ho) n Hn) as (N1 & N2 & N3 & N4).
  destruct (ho_top _ _ Ho) as [[T1 T2] _]. pose proof (uedit_root _ _ _ _ _ _ _ E Hr) as Hr1.
  pose proof (uedit_kernel _ _ _ _ _ _ E) as Hk1.
  pose proof (λ m a, region_bytes tags1 hs t1 (grown_task u sz) m a (ue_iso _ _ _ _ _ _ E) Hr1 ltac:(by rewrite Hk1) Ho1) as Hby.
  cbn [pml4_phys grown_task uheap_regions] in Hby.
  unfold UHEAP_BASE, UHEAP_END in *.
  destruct (copy_bytes_ok tags1 hs (pml4_phys u) (Z.to_nat (size n)) (heap_top u) uaddr t1) as (t2 & l & Hc & W & Hl & Hk);
    rewrite ?Z2Nat.id in * by lia; try lia.
  - apply E.
  - done.
  - by rewrite (uedit_cr3 _ _ _ _ _ _ E).
  - intros k Hk. apply (Hby n); [by right|]. unfold covers. lia.
  - intros k Hk. apply (Hby (mkRegion (heap_top u) sz (pages_for sz))); [by left|]. unfold covers. cbn. lia.
  - by exists t2, l.
Qed.

(** The bytes of a region of the old heap, through the three steps of a move. *)
Lemma grow_kept sz tags1 t1 m a :
  uedit (in_range (pml4_phys u) (heap_top u) (pages_for sz * 4096)) tags hs t tags1 t1 → m ∈ uheap_regions u → covers m a →
  is_Some (translate t1 (pml4_phys u) a) ∧ byte_at (pml4_phys u) a t1 = byte_at (pml4_phys u) a t.
Proof.
  intros E Hm Hc. destruct (covers_heap t u m a Ho Hm Hc) as [Ha Hlt]. pose proof (heap_user a Ha) as Hu.
  destruct (covers_mapped t u m a Ho Hm Hc) as (e & He & _).
  assert (P1 : ¬ in_range (pml4_phys u) (heap_top u) (pages_for sz * 4096) (pml4_phys u) a) by (unfold in_range; lia).
  split; [rewrite (ue_trans _ _ _ _ _ _ E); [by rewrite He|done|apply Hu|done]|]. apply (ue_bytes _ _ _ _ _ _ E); by rewrite ?He.
Qed.

Lemma move_kept sz tags1 t1 t2 t' l m a :
  m ∈ uheap_regions u → covers m a → zlength l ≤ pages_for sz * 4096 →
  uedit (in_range (pml4_phys u) (heap_top u) (pages_for sz * 4096)) tags hs t tags1 t1 →
  wrote tags1 hs (pml4_phys u) (heap_top u) l t1 t2 → uedit (in_range (pml4_phys u) (base n) (pages n * 4096)) tags1 hs t2 tags1 t' →
  m ≠ n → byte_at (pml4_phys u) a t' = byte_at (pml4_phys u) a t.
Proof.
  intros Hm Hc Hl E W E3 Hmn. pose proof (uedit_root _ _ _ _ _ _ _ E Hr) as Hr1. pose proof (uedit_kernel _ _ _ _ _ _ E) as Hk1.
  pose proof (wrote_uedit tags1 hs (pml4_phys u) (heap_top u) l t1 t2 (ue_iso _ _ _ _ _ _ E) W) as E2.
  pose proof (uedit_kernel _ _ _ _ _ _ E2) as Hk2. destruct (covers_heap t u m a Ho Hm Hc) as [Ha Hlt].
  pose proof (heap_user a Ha) as Hu. destruct (grow_kept sz tags1 t1 m a E Hm Hc) as [T1 <-].
  destruct (find_region_some _ _ _ Hf) as [Hn Hb].
  assert (P2 : ¬ in_range (pml4_phys u) (heap_top u) (zlength l) (pml4_phys u) a) by (unfold in_range; lia).
  assert (P3 : ¬ in_range (pml4_phys u) (base n) (pages n * 4096) (pml4_phys u) a).
  { intros [_ Hin]. apply Hmn. by apply (covers_once _ _ m n a (ho_regions _ _ Ho) (ho_apart _ _ Ho)). }
  transitivity (byte_at (pml4_phys u) a t2).
  - apply (ue_bytes _ _ _ _ _ _ E3); rewrite ?Hk2, ?Hk1; try done.
    by rewrite (ue_trans _ _ _ _ _ _ E2) by (done || apply Hu).
  - apply (ue_bytes _ _ _ _ _ _ E2); by rewrite ?Hk1.
Qed.

Lemma moved_ok sz tags1 t1 t2 l :
  heap_ok t1 (grown_task u sz) → size n < sz → sz ≤ pages_for sz * 4096 → heap_top u + pages_for sz * 4096 + 4096 ≤ UHEAP_END →
  uedit (in_range (pml4_phys u) (heap_top u) (pages_for sz * 4096)) tags hs t tags1 t1 → zlength l = size n →
  wrote tags1 hs (pml4_phys u) (heap_top u) l t1 t2 →
  (∀ k, 0 ≤ k < size n → byte_at (pml4_phys u) (uaddr + k) t1 = Some (u8 (lget l k))) →
  pages n * 4096 < sz → (∀ a, heap_top u ≤ a < heap_top u + pages_for sz * 4096 → byte_at (pml4_phys u) a t1 = Some 0) →
  let '(_, u', t') := uheap_free (grown_task u sz) uaddr t2 in realloced sz (heap_top u, u', t').
Proof.
  intros Ho1 Hlt Hsz Hend E Hl W Hby Hgt Hz. pose proof (uedit_root _ _ _ _ _ _ _ E Hr) as Hr1. pose proof (uedit_kernel _ _ _ _ _ _ E) as Hk1.
  pose proof (wrote_uedit tags1 hs (pml4_phys u) (heap_top u) l t1 t2 (ue_iso _ _ _ _ _ _ E) W) as E2.
  pose proof (uedit_kernel _ _ _ _ _ _ E2) as Hk2. destruct (find_region_some _ _ _ Hf) as [Hn Hb].
  pose proof (proj1 (Forall_forall _ _) (ho_regions _ _ Ho) n Hn) as (N1 & N2 & N3 & N4).
  destruct (ho_top _ _ Ho) as [[T1 T2] _]. set (m := mkRegion (heap_top u) sz (pages_for sz)).
  assert (Htr : ∀ a, translate t2 (pml4_phys u) a = translate t1 (pml4_phys u) a).
  { intros a. apply (trans_same tags1); [apply E|done|apply W]. }
  assert (Ho2 : heap_ok t2 (grown_task u sz)) by (apply (heap_ok_ext t1); [intros a _; apply Htr|done]).
  assert (Hf2 : find_region uaddr (uheap_regions (grown_task u sz)) = Some n).
  { cbn [uheap_regions grown_task find_region base]. destruct (Z.eqb_spec (heap_top u) uaddr); [lia|done]. }
  pose proof (uheap_free_ok tags1 hs t2 (grown_task u sz) (ue_iso _ _ _ _ _ _ E2) Hr1 ltac:(cbn; by rewrite Hk2, Hk1) Ho2 uaddr n H0 Hf2) as Hfr.
  destruct (uheap_free (grown_task u sz) uaddr t2) as [[r1 u'] t']. destruct Hfr as (_ & Ho' & Hp' & _ & Hin' & E3 & Hfree).
  cbn [pml4_phys grown_task uheap_regions] in Hp', Hin', E3. fold m in Hin'. unfold UHEAP_BASE, UHEAP_END in *.
  split; [done|]. split; [done|]. split.
  { exists tags1. eapply uedit_trans; [eapply uedit_weaken; [|exact E]|eapply uedit_trans; [eapply uedit_weaken; [|exact E2]|
      eapply uedit_weaken; [|exact E3]]]; intros r a [-> Ha]; (split; [done|]); unfold heap_va, UHEAP_BASE, UHEAP_END; lia. }
  assert (Hnew : ∀ k, 0 ≤ k < sz → byte_at (pml4_phys u) (heap_top u + k) t' =
    if decide (k < size n) then Some (u8 (lget l k)) else Some 0).
  { intros k Hk. set (a := heap_top u + k).
    assert (Hua : user_va a) by (apply heap_user; unfold heap_va, UHEAP_BASE, UHEAP_END, a; lia).
    pose proof (region_bytes tags1 hs t1 (grown_task u sz) m a (ue_iso _ _ _ _ _ _ E) Hr1 ltac:(cbn; by rewrite Hk1) Ho1
      ltac:(by left) ltac:(unfold covers, a; cbn; lia)) as [[_ Hs] _]. cbn [pml4_phys grown_task] in Hs.
    rewrite (ue_bytes _ _ _ _ _ _ E3); [|done|by rewrite Hk2, Hk1|done|unfold in_range, a; lia|by rewrite Htr].
    rewrite (wt_bytes _ _ _ _ _ _ _ W); [|done|by rewrite Hk1|by split]. rewrite Hl. unfold a. case_decide.
    - rewrite decide_True by lia. do 3 f_equal. lia.
    - rewrite decide_False by lia. apply Hz. lia. }
  right. split; [lia|]. split; [|split; [|split]].
  - exists m. split; [|done]. apply Hin'. split; [by left|]. intros He. rewrite <- He in N4. cbn in N4. lia.
  - intros k Hk. rewrite Z.min_l in Hk by lia. rewrite Hnew, decide_True, <- Hby by lia.
    apply (grow_kept sz tags1 t1 n (uaddr + k) E Hn). unfold covers. lia.
  - intros m' Hm' Hne'. split; [apply Hin'; split; [by right|done]|].
    intros a Hc. apply (move_kept sz tags1 t1 t2 t' l m' a); try done. lia.
  - right. split; [done|]. split; [lia|]. split.
    + intros k Hk. rewrite Hnew, decide_False by lia. done.
    + intros a e Hc He. destruct (covers_heap t u n a Ho Hn Hc) as [Ha Hat].
      pose proof (ho_mapped _ _ Ho' a Ha) as Hmap. rewrite Hp' in Hmap. split.
      * destruct (translate t' (pml4_phys u) a) as [e'|]; [|done]. destruct Hmap as [_ (m' & [Hm' Hne']%Hin' & Hc')].
        apply elem_of_cons in Hm' as [->|Hm']; [unfold covers, m in Hc'; cbn in Hc'; lia|].
        by destruct (Hne' (covers_once _ _ m' n a (ho_regions _ _ Ho) (ho_apart _ _ Ho) Hm' Hn Hc' Hc)).
      * apply (Hfree a e Hc). cbn [pml4_phys grown_task]. rewrite Htr, (ue_trans _ _ _ _ _ _ E);
          [done|done|apply (heap_user a Ha)|unfold in_range; lia].
Qed.

Lemma uheap_realloc_ok ok sz :
  0 < sz < 2 ^ 64 → ∃ r, uheap_realloc ok u uaddr sz t = Some r ∧ realloced sz r.
Proof.
  intros Hsz. unfold uheap_realloc. rewrite (proj2 (Z.eqb_neq uaddr 0) H0). destruct (Z.eqb_spec sz 0) as [|_]; [lia|].
  destruct (find_region_some _ _ _ Hf) as [Hn Hb]. pose proof (proj1 (Forall_forall _ _) (ho_regions _ _ Ho) n Hn) as (N1 & N2 & N3 & N4).
  assert (Hsame : ∀ P, ∃ tags', uedit P tags hs t tags' t) by (intros P; exists tags; by apply uedit_refl).
  destruct (UHEAP_MAX_ALLOC <? sz).
  { eexists. split; [done|]. split; [done|]. split; [done|]. split; [done|]. left. by split_and!. }
  rewrite Hf. destruct (Z.leb_spec sz (pages n * 4096)) as [Hle|Hgt].
  - eexists. split; [done|]. split; [by apply (resized_ok t u uaddr sz n); [..|lia]|]. split; [done|]. split; [done|]. right.
    rewrite Hb. split; [done|]. split; [|split; [done|split; [|by left]]].
    + exists (mkRegion uaddr sz (pages n)). split; [by apply resize_find|done].
    + intros m Hm Hmn. split; [|done]. apply resize_other; [done|]. intros He. apply Hmn.
      apply (covers_once _ _ m n uaddr (ho_regions _ _ Ho) (ho_apart _ _ Ho)); try done.
      * rewrite <- He. apply (region_own (heap_top u)). by apply (proj1 (Forall_forall _ _) (ho_regions _ _ Ho)).
      * unfold covers. lia.
  - pose proof (uheap_alloc_ok tags hs t u Hi Hr Hne Ho ok sz ltac:(lia)) as Ha.
    destruct (uheap_alloc ok u sz t) as [[nb u1] t1].
    destruct Ha as [Ho1 [(-> & -> & _ & tags1 & E)|(-> & -> & Hs & Hend & tags1 & E & Hz)]].
    + rewrite Z.eqb_refl. eexists. split; [done|]. split; [done|]. split; [done|]. split; [|left; by eauto].
      exists tags1. eapply uedit_weaken; [|exact E]. by intros ? ? [].
    + destruct (ho_top _ _ Ho) as [[T1 _] _]. destruct (Z.eqb_spec (heap_top u) 0) as [|_]; [unfold UHEAP_BASE in *; lia|].
      destruct (Z.ltb_spec (size n) sz) as [Hlt|]; [|lia].
      assert (Hpf : sz ≤ pages_for sz * 4096) by (unfold pages_for; zdiv).
      destruct (move_copy sz tags1 t1 Ho1 Hlt Hpf Hend E) as (t2 & l & -> & Hl & W & Hby).
      pose proof (moved_ok sz tags1 t1 t2 l Ho1 Hlt Hpf Hend E Hl W Hby Hgt Hz) as Hm.
      destruct (uheap_free (grown_task u sz) uaddr t2) as [[r1 u'] t']. by eexists.
Qed.
End Realloc.
