(* ===== verification/UheapSys.v ===== *)
(** The heaps of all programs as a system (operations in [Uheap]): programs allocate, free
    and reallocate, are created, fork and exit, in every order with one another and with
    other work on memory that stays out of the heaps' addresses.  What holds of every heap
    that is reached, and what reallocation does to its contents, is at the end. *)

From Stdlib Require Import Sorted.
From S2P Require Import Prelude Bitmap Pmm Paging PagingSpec PagingDestroy PagingIso PagingClone PagingSys PagingKept UserCopy UserMem Uheap.

(** [heaps] gives the task of each address space. *)
Record hsys := mkH { hm : PagingSys.sys; heaps : gmap Z utask }.

Implicit Types (x : hsys) (s : PagingSys.sys).

(** A page of the lower half that belongs to no heap. *)
Definition away (va : Z) : Prop := 0 ≤ va < 2 ^ 47 ∧ ¬ heap_va va.

(** Other work on memory. *)
Inductive mem_step : PagingSys.sys → PagingSys.sys → Prop :=
| ms_take s p ph : pmm_alloc_page (frames (vm s)) = (p, ph) → p ≠ PHYS_NULL →
    mem_step s (mkSys (set_frames ph (vm s)) ({[p]} ∪ held s) (spaces s))
| ms_free s f : f ∈ held s → mem_step s (mkSys (free_frame f (vm s)) (held s ∖ {[f]}) (spaces s))
| ms_map s va f flags r res t' : r ∈ spaces s → away va → f ∈ held s → flags_ok flags →
    vmm_map_page_into va f flags r (vm s) = (res, t') →
    mem_step s (mkSys t' (if res =? 0 then held s else held s ∖ {[f]}) (spaces s))
| ms_alloc s va flags r : r ∈ spaces s → away va → flags_ok flags →
    mem_step s (mkSys (vmm_alloc_page_into va flags r (vm s)).2 (held s) (spaces s))
| ms_unmap s va r f t' : r ∈ spaces s → away va → user_va va → vmm_unmap_page_from va r (vm s) = (f, t') →
    mem_step s (mkSys t' (if f =? PHYS_NULL then held s else {[f]} ∪ held s) (spaces s))
| ms_protect s va flags r : r ∈ spaces s → away va → flags_ok flags →
    mem_step s (mkSys (vmm_protect_page_into va flags r (vm s)).2 (held s) (spaces s))
| ms_shm_map s va f flags r : r ∈ spaces s → shm_va va → 0 ≤ f → 0 ≤ flags < 2 ^ 64 →
    mem_step s (mkSys (vmm_map_page_into va f flags r (vm s)).2 (held s) (spaces s))
| ms_shm_unmap s va r : r ∈ spaces s → shm_va va →
    mem_step s (mkSys (vmm_unmap_page_from va r (vm s)).2 (held s) (spaces s))
| ms_kernel_map s va f flags : 0 ≤ f → 0 ≤ flags < 2 ^ 64 →
    mem_step s (mkSys (vmm_map_page_kernel va f flags (vm s)).2 (held s) (spaces s))
| ms_kernel_alloc s va flags : flags_ok flags →
    mem_step s (mkSys (vmm_alloc_page_kernel va flags (vm s)).2 (held s) (spaces s))
| ms_kernel_unmap s va : mem_step s (mkSys (vmm_unmap_page va (vm s)).2 (held s) (spaces s))
| ms_switch s r : r ∈ spaces s → mem_step s (mkSys (vmm_switch_pml4 r (vm s)) (held s) (spaces s))
| ms_store s r va i v : r ∈ spaces s → user_va va → 0 ≤ v < 2 ^ 64 →
    mem_step s (mkSys (store r va i v (vm s)) (held s) (spaces s)).

(** The state after an operation of the task with root [r]. *)
Definition after x (r : Z) (u : utask) (t : vmm) : hsys :=
  mkH (mkSys t (held (hm x)) (spaces (hm x))) (<[r := u]> (heaps x)).

Inductive hstep : hsys → hsys → Prop :=
| hs_mem x s : mem_step (hm x) s → hstep x (mkH s (heaps x))
| hs_alloc x r u ok sz res u' t' : heaps x !! r = Some u → 0 ≤ sz < 2 ^ 64 →
    uheap_alloc ok u sz (vm (hm x)) = (res, u', t') → hstep x (after x r u' t')
| hs_free x r u uaddr res u' t' : heaps x !! r = Some u → uheap_free u uaddr (vm (hm x)) = (res, u', t') →
    hstep x (after x r u' t')
| hs_realloc x r u ok uaddr sz res u' t' : heaps x !! r = Some u → vmm_read_cr3 (vm (hm x)) = r → 0 ≤ sz < 2 ^ 64 →
    uheap_realloc ok u uaddr sz (vm (hm x)) = Some (res, u', t') → hstep x (after x r u' t')
| hs_create x p t' b l : vmm_create_address_space (vm (hm x)) = (p, t') → p ≠ PHYS_NULL →
    hstep x (mkH (mkSys t' (held (hm x)) ({[p]} ∪ spaces (hm x))) (<[p := uheap_reset (mkUtask p b l)]> (heaps x)))
| hs_fork x r u oks p t' b l res u' : heaps x !! r = Some u → vmm_clone_user_as r (vm (hm x)) = (p, t') → p ≠ PHYS_NULL →
    uheap_clone oks (mkUtask p b l) u = (res, u') →
    hstep x (if res =? 0 then mkH (mkSys t' (held (hm x)) ({[p]} ∪ spaces (hm x))) (<[p := u']> (heaps x))
             else mkH (mkSys (vmm_destroy_address_space p true t') (held (hm x)) (spaces (hm x))) (heaps x))
| hs_exit x r u : heaps x !! r = Some u →
    hstep x (mkH (mkSys (vmm_destroy_task_as r (vm (hm x))) (held (hm x)) (spaces (hm x) ∖ {[r]})) (delete r (heaps x))).

(** The invariant. *)
Definition hinv x : Prop :=
  sys_inv (hm x) ∧ ∀ r u, heaps x !! r = Some u → r ∈ spaces (hm x) ∧ pml4_phys u = r ∧ heap_ok (vm (hm x)) u.

(** ** Other work leaves the heaps alone *)
Lemma heap_low a : heap_va a → 0 ≤ a < 2 ^ 47.
Proof. intros Ha. apply (heap_user a Ha). Qed.

Lemma away_off s r va : away va → off heap_va s r va.
Proof.
  intros [Hva Hn]. apply off_user; [apply heap_low|done|]. intros a Ha He. apply Hn.
  unfold heap_va, UHEAP_BASE, UHEAP_END in *. zdiv.
Qed.

Lemma shm_away va : shm_va va → away va.
Proof.
  intros [Hv Hs]. split; [done|]. unfold heap_va, UHEAP_END. unfold kz_shm_va_excluded, KZ_SHM_BASE in Hs.
  apply andb_true_iff in Hs as [Hs _]. apply Z.leb_le in Hs. lia.
Qed.

Lemma mem_step_sys s s' : mem_step s s' → sys_step s s'.
Proof.
  intros H. destruct H; [eapply st_take|eapply st_free|eapply st_map|eapply st_alloc|eapply st_unmap|eapply st_protect
    |eapply st_shm_map|eapply st_shm_unmap|eapply st_kernel_map|eapply st_kernel_alloc|eapply st_kernel_unmap|eapply st_switch|eapply st_store];
    eassumption.
Qed.

Lemma mem_step_kept s s' : sys_inv s → mem_step s s' → spaces s' = spaces s ∧ kept_on heap_va s (vm s').
Proof.
  intros (tags & Hi & Hk & Hr) Hst. pose proof heap_low as HW.
  destruct Hst as [s p ph|s f|s va f flags r res t' Hs Hva Hf Hfl Hm|s va flags r Hs Hva Hfl|s va r f t' Hs Hva Hu Hm|s va flags r Hs Hva Hfl
    |s va f flags r Hs Hva|s va r Hs Hva|s va f flags|s va flags|s va|s r|s r va i v]; (split; [done|]); cbn [vm].
  - done.
  - done.
  - destruct (is_held _ _ _ Hi f Hf) as (_ & [Hf0 _] & _). pose proof (map_into_kept heap_va s tags Hi Hk Hr va f flags r) as H. rewrite Hm in H.
    apply H; [done|by apply away_off|lia|apply Hfl].
  - apply (alloc_into_kept heap_va s tags); try done. by apply away_off.
  - pose proof (unmap_from_kept heap_va s tags Hi Hk Hr va r) as H. rewrite Hm in H. apply H; [done|by apply away_off].
  - apply (protect_kept heap_va s tags); try done. by apply away_off.
  - apply (map_into_kept heap_va s tags); try done. by apply away_off, shm_away.
  - apply (unmap_from_kept heap_va s tags); try done. by apply away_off, shm_away.
  - by apply (kernel_map_kept heap_va HW s tags).
  - by apply (kernel_alloc_kept heap_va HW s tags).
  - by apply (kernel_unmap_kept heap_va HW s tags).
  - by apply switch_kept.
  - by apply (store_kept heap_va s tags).
Qed.

(** ** Operations on one heap *)

Lemma op_inv x r u P tags tags' t' u' :
  hinv x → iso tags (held (hm x)) (vm (hm x)) → kernel_pml4_phys (vm (hm x)) ∉ spaces (hm x) →
  (∀ r, is_root tags r ↔ r = kernel_pml4_phys (vm (hm x)) ∨ r ∈ spaces (hm x)) → heaps x !! r = Some u →
  uedit P tags (held (hm x)) (vm (hm x)) tags' t' → (∀ r' a, P r' a → r' = r) → pml4_phys u' = r → heap_ok t' u' →
  hinv (after x r u' t').
Proof.
  intros [Hs Hh] Hi Hk Hr Hu E HP Hu' Ho. split.
  - apply (keep_roots (hm x) tags Hi Hk Hr tags'); apply E.
  - intros r' w. unfold after. cbn [heaps hm vm spaces]. destruct (decide (r' = r)) as [->|Hd].
    + rewrite lookup_insert_eq. intros [= <-]. split; [by apply (Hh r u)|done].
    + rewrite lookup_insert_ne by done. intros Hw. destruct (Hh r' w Hw) as (H1 & H2 & H3). split; [done|]. split; [done|].
      apply (heap_ok_ext (vm (hm x))); [|done]. intros a Ha. rewrite H2.
      apply (ue_trans _ _ _ _ _ _ E); [apply Hr; by right|by apply heap_low|]. intros HPa. by apply Hd, (HP _ a).
Qed.

Lemma alloc_inv x r u ok sz res u' t' :
  hinv x → heaps x !! r = Some u → 0 ≤ sz < 2 ^ 64 → uheap_alloc ok u sz (vm (hm x)) = (res, u', t') → hinv (after x r u' t').
Proof.
  intros Hx Hu Hsz He. pose proof Hx as [(tags & Hi & Hk & Hr) Hh]. destruct (Hh r u Hu) as (Hs & Hp & Ho).
  destruct (space_root (hm x) tags Hi Hk Hr r Hs) as (Hrr & Hne & _). rewrite <- Hp in Hrr, Hne.
  pose proof (uheap_alloc_ok tags _ _ u Hi Hrr Hne Ho ok sz Hsz) as Ha. rewrite He in Ha.
  destruct Ha as [Ho' [(_ & -> & _ & tags' & E)|(_ & -> & _ & _ & tags' & E & _)]].
  - apply (op_inv x r u nowhere tags tags'); done.
  - eapply (op_inv x r u _ tags tags'); try done. intros r' a [-> _]. done.
Qed.

Lemma heap_free_inv x r u uaddr res u' t' :
  hinv x → heaps x !! r = Some u → uheap_free u uaddr (vm (hm x)) = (res, u', t') → hinv (after x r u' t').
Proof.
  intros Hx Hu He. pose proof Hx as [(tags & Hi & Hk & Hr) Hh]. destruct (Hh r u Hu) as (Hs & Hp & Ho).
  destruct (space_root (hm x) tags Hi Hk Hr r Hs) as (Hrr & Hne & _). rewrite <- Hp in Hrr, Hne.
  assert (Hsame : (res, u', t') = (0, u, vm (hm x)) → hinv (after x r u' t')).
  { intros [= _ -> ->]. by apply (op_inv x r u nowhere tags tags). }
  destruct (decide (uaddr = 0)) as [->|H0]; [by apply Hsame|].
  destruct (find_region uaddr (uheap_regions u)) as [n|] eqn:Hf.
  - pose proof (uheap_free_ok tags _ _ u Hi Hrr Hne Ho uaddr n H0 Hf) as Ha. rewrite He in Ha.
    destruct Ha as (_ & Ho' & Hp' & _ & _ & E & _). eapply (op_inv x r u _ tags tags); try done; [|by rewrite Hp'].
    intros r' a [-> _]. done.
  - unfold uheap_free in He. rewrite (proj2 (Z.eqb_neq uaddr 0) H0), Hf in He. by apply Hsame.
Qed.

Lemma realloc_inv x r u ok uaddr sz res u' t' :
  hinv x → heaps x !! r = Some u → vmm_read_cr3 (vm (hm x)) = r → 0 ≤ sz < 2 ^ 64 →
  uheap_realloc ok u uaddr sz (vm (hm x)) = Some (res, u', t') → hinv (after x r u' t').
Proof.
  intros Hx Hu Hcr Hsz He. pose proof Hx as [(tags & Hi & Hk & Hr) Hh]. destruct (Hh r u Hu) as (Hs & Hp & Ho).
  destruct (space_root (hm x) tags Hi Hk Hr r Hs) as (Hrr & Hne & _). rewrite <- Hp in Hrr, Hne, Hcr.
  destruct (decide (uaddr = 0)) as [->|H0].
  { unfold uheap_realloc in He. cbn [Z.eqb] in He. injection He as He. by apply (alloc_inv x r u ok sz res). }
  destruct (decide (sz = 0)) as [->|Hz].
  { unfold uheap_realloc in He. rewrite (proj2 (Z.eqb_neq uaddr 0) H0) in He. cbn [Z.eqb] in He.
    destruct (uheap_free u uaddr (vm (hm x))) as [[r1 u1] t1] eqn:Hf. injection He as _ -> ->. by apply (heap_free_inv x r u uaddr r1). }
  destruct (find_region uaddr (uheap_regions u)) as [n|] eqn:Hf.
  - destruct (uheap_realloc_ok tags _ _ u Hi Hrr Hne Ho Hcr uaddr n H0 Hf ok sz ltac:(lia)) as (ret & Hre & Ha).
    rewrite He in Hre. injection Hre as <-. destruct Ha as (Ho' & Hp' & (tags' & E) & _).
    eapply (op_inv x r u _ tags tags'); try done; [|by rewrite Hp']. intros r' a [-> _]. done.
  - unfold uheap_realloc in He. rewrite (proj2 (Z.eqb_neq uaddr 0) H0), (proj2 (Z.eqb_neq sz 0) Hz), Hf in He.
    assert ((u', t') = (u, vm (hm x))) as [= -> ->] by (destruct (UHEAP_MAX_ALLOC <? sz); congruence).
    by apply (op_inv x r u nowhere tags tags).
Qed.

(** ** Beginning and end of address spaces *)
Lemma reset_ok t p b l : (∀ a, heap_va a → translate t p a = None) → heap_ok t (uheap_reset (mkUtask p b l)).
Proof.
  intros Hn. constructor; cbn [uheap_reset uheap_regions pml4_phys].
  - by vm_compute.
  - constructor.
  - constructor.
  - intros a Ha. rewrite (Hn a Ha). by intros n ?%elem_of_nil.
Qed.

Lemma clone_regions_same oks src copied l : clone_regions oks src copied = Some l → l = copied ++ src.
Proof.
  revert oks copied. induction src as [|n src IH]; intros oks copied; cbn [clone_regions].
  { intros [= <-]. by rewrite app_nil_r. }
  destruct (default true (head oks)); [|done]. intros ->%IH. rewrite <- app_assoc. by destruct n.
Qed.

(** The heap of a child is a copy of its parent's. *)
Lemma fork_heap_ok tags hs t parent child t' u oks b l res u' :
  iso tags hs t → is_root tags parent → parent ≠ kernel_pml4_phys t → pml4_phys u = parent → heap_ok t u →
  (∀ va, 0 ≤ va < 2 ^ 47 → page_copied t parent child t' va) →
  uheap_clone oks (mkUtask child b l) u = (res, u') → res = 0 → pml4_phys u' = child ∧ heap_ok t' u'.
Proof.
  intros Hi Hr Hne Hp Ho Hc He H0. unfold uheap_clone in He. destruct (clone_regions oks (uheap_regions u) []) as [k|] eqn:E.
  2: { injection He as <- _. lia. }
  apply clone_regions_same in E as ->. injection He as _ <-. split; [done|]. destruct Ho as [H1 H2 H3 H4].
  constructor; try done. intros a Ha. cbn [pml4_phys uheap_regions app]. specialize (H4 a Ha). rewrite Hp in H4.
  pose proof (heap_user a Ha) as [Hb Hx]. specialize (Hc a Hb). unfold page_copied in Hc. rewrite Hx in Hc.
  destruct (translate t parent a) as [e|]; [|by rewrite Hc].
  destruct Hc as (f & -> & [Hf0 Hfm] & Hf52 & _). destruct H4 as [H4 H5]. split; [|done].
  rewrite pte_flags_new by lia. by rewrite pte_flags_idem.
Qed.

Section Spaces.
Context (x : hsys) (tags : gmap Z tag) (Hx : hinv x) (Hi : iso tags (held (hm x)) (vm (hm x)))
  (Hk : kernel_pml4_phys (vm (hm x)) ∉ spaces (hm x))
  (Hr : ∀ r, is_root tags r ↔ r = kernel_pml4_phys (vm (hm x)) ∨ r ∈ spaces (hm x)).

Let root_of r : r ∈ spaces (hm x) → is_root tags r.
Proof. intros H. apply Hr. by right. Qed.

(** A new address space, with the heap [u']. *)
Lemma new_space p t' u' :
  sys_inv (mkSys t' (held (hm x)) ({[p]} ∪ spaces (hm x))) → kept_on heap_va (hm x) t' → ¬ is_root tags p →
  pml4_phys u' = p → heap_ok t' u' →
  hinv (mkH (mkSys t' (held (hm x)) ({[p]} ∪ spaces (hm x))) (<[p := u']> (heaps x))).
Proof.
  intros Hs Hkept Hp Hu Ho. split; [done|]. intros r w. cbn [heaps hm vm spaces]. destruct (decide (r = p)) as [->|Hd].
  - rewrite lookup_insert_eq. intros [= <-]. split; [set_solver|done].
  - rewrite lookup_insert_ne by done. intros Hw. destruct (proj2 Hx r w Hw) as (H1 & H2 & H3). split; [set_solver|]. split; [done|].
    apply (heap_ok_ext (vm (hm x))); [|done]. intros a Ha. rewrite H2. by apply Hkept.
Qed.

Lemma heap_create_inv p t' b l :
  vmm_create_address_space (vm (hm x)) = (p, t') → p ≠ PHYS_NULL →
  hinv (mkH (mkSys t' (held (hm x)) ({[p]} ∪ spaces (hm x))) (<[p := uheap_reset (mkUtask p b l)]> (heaps x))).
Proof.
  intros He Hnn. pose proof (step_create (hm x) tags Hi Hk Hr p t' He) as Hs. rewrite (proj2 (Z.eqb_neq p PHYS_NULL) Hnn) in Hs.
  pose proof (create_ok tags _ (is_vm _ _ _ Hi) (is_kroot _ _ _ Hi) (is_current _ _ _ Hi)) as Hc. rewrite He in Hc.
  destruct Hc as [(? & _)|[_ C]]; [done|]. apply new_space; try done.
  - intros r a Hsr _. by apply (created_trans tags (vm (hm x)) p t'); [apply Hi|done|apply root_of].
  - unfold is_root. by rewrite (cr_none _ _ _ _ C).
  - apply reset_ok. intros a Ha. apply (created_lower tags (vm (hm x)) p t'); [done|by apply user_index, heap_low].
Qed.

Lemma heap_fork_inv r u oks p t' b l res u' :
  heaps x !! r = Some u → vmm_clone_user_as r (vm (hm x)) = (p, t') → p ≠ PHYS_NULL → uheap_clone oks (mkUtask p b l) u = (res, u') →
  hinv (if res =? 0 then mkH (mkSys t' (held (hm x)) ({[p]} ∪ spaces (hm x))) (<[p := u']> (heaps x))
        else mkH (mkSys (vmm_destroy_address_space p true t') (held (hm x)) (spaces (hm x))) (heaps x)).
Proof.
  intros Hu He Hnn Hc. destruct (proj2 Hx r u Hu) as (Hs & Hp & Ho).
  destruct (space_root (hm x) tags Hi Hk Hr r Hs) as (Hrr & Hne & Hz).
  pose proof (step_clone (hm x) tags Hi Hk Hr r p t' Hs He) as Hsi. rewrite (proj2 (Z.eqb_neq p PHYS_NULL) Hnn) in Hsi.
  pose proof (clone_ok tags _ _ r Hi Hrr Hne) as Hcl. rewrite He in Hcl.
  destruct Hcl as (tags' & Hi' & (Hsame & _ & _ & Hkp & _) & [[? _]|(_ & Hnew & Hroots & Hcopy)]); [done|].
  destruct (Z.eqb_spec res 0) as [H0|_].
  - destruct (fork_heap_ok tags (held (hm x)) (vm (hm x)) r p t' u oks b l res u') as [Hp' Ho']; try done.
    apply new_space; try done. intros r' a Hs' _. by apply Hsame, root_of.
  - assert (Hpk : p ≠ kernel_pml4_phys t') by (rewrite Hkp; intros ->; by apply Hnew, Hr; left).
    assert (Hpr : is_root tags' p) by (apply Hroots; by left).
    destruct (destroy_ok p true tags' t' (is_vm _ _ _ Hi') Hpr (iso_data _ _ _ _ Hi' Hpk) Hpk) as [tags'' D]. split.
    + exists tags''. cbn [vm held spaces hm]. destruct (ds_regs _ _ _ _ _ _ D) as (_ & -> & _). rewrite Hkp.
      split; [by apply (iso_destroyed p true tags' _ t')|]. split; [done|]. intros r'. unfold is_root at 1.
      rewrite (ds_tags _ _ _ _ _ _ D). fold (is_root tags' r'). rewrite Hroots, <- Hr. unfold left_over. cbn [fst].
      split; [intros [[->|?] [Hd|[_ ?]]]; done|]. intros Hr'. split; [by right|left]. congruence.
    + intros r' w Hw. cbn [heaps hm vm spaces] in *. destruct (proj2 Hx r' w Hw) as (H1 & H2 & H3). split; [done|]. split; [done|].
      apply (heap_ok_ext (vm (hm x))); [|done]. intros a Ha. rewrite H2. pose proof (root_of r' H1) as Hr'.
      rewrite (ds_trans _ _ _ _ _ _ D); [by apply Hsame|apply Hroots; by right|left]. congruence.
Qed.

Lemma heap_exit_inv r u :
  heaps x !! r = Some u →
  hinv (mkH (mkSys (vmm_destroy_task_as r (vm (hm x))) (held (hm x)) (spaces (hm x) ∖ {[r]})) (delete r (heaps x))).
Proof.
  intros Hu. destruct (proj2 Hx r u Hu) as (Hs & _). split; [by apply (step_destroy (hm x) tags)|].
  destruct (space_root (hm x) tags Hi Hk Hr r Hs) as (Hrr & Hne & Hz). destruct (kernel_root (hm x) tags Hi) as (_ & Hkz).
  intros r' w. cbn [heaps hm vm spaces]. intros [Hd Hw]%lookup_delete_Some. destruct (proj2 Hx r' w Hw) as (H1 & H2 & H3).
  split; [set_solver|]. split; [done|]. apply (heap_ok_ext (vm (hm x))); [|done]. intros a Ha. rewrite H2.
  unfold vmm_destroy_task_as, vmm_switch_to_kernel_as. rewrite Hz, Hkz.
  pose proof (iso_cr3 _ _ _ (kernel_pml4_phys (vm (hm x))) Hi) as Hi0. set (t0 := set_cr3 _ _) in *.
  destruct (destroy_ok r true tags t0 (is_vm _ _ _ Hi0) Hrr (iso_data _ _ _ _ Hi0 Hne) Hne) as [tags' D].
  rewrite (ds_trans _ _ _ _ _ _ D); [done|by apply root_of|left; congruence].
Qed.
End Spaces.

Lemma hstep_inv x x' : hstep x x' → hinv x → hinv x'.
Proof.
  intros Hst Hx. pose proof Hx as [(tags & Hi & Hk & Hr) Hh]. destruct Hst.
  - destruct (mem_step_kept (hm x) s (proj1 Hx)) as [Hs Hkept]; [done|].
    split; [by eapply sys_step_inv, Hx; apply mem_step_sys|]. intros r u Hu. cbn [hm heaps] in *.
    destruct (Hh r u Hu) as (H1 & H2 & H3). rewrite Hs. split; [done|]. split; [done|].
    apply (heap_ok_ext (vm (hm x))); [|done]. intros a Ha. rewrite H2. by apply Hkept.
  - by eapply alloc_inv.
  - by eapply heap_free_inv.
  - by eapply realloc_inv.
  - by apply (heap_create_inv x tags).
  - by eapply heap_fork_inv.
  - by eapply heap_exit_inv.
Qed.

Lemma hreach_inv t0 tags0 t x :
  booted tags0 t0 → init_paging t0 = Some t → rtc hstep (mkH (mkSys t ∅ ∅) ∅) x → hinv x.
Proof.
  intros Hb Hin Hst. assert (H0 : hinv (mkH (mkSys t ∅ ∅) ∅)).
  { split; [|intros r u; cbn [heaps]; by rewrite lookup_empty]. by apply (sys_reach_inv t0 tags0 t). }
  clear Hb Hin. induction Hst as [x|x y z Hxy _ IH]; [done|]. by apply IH, (hstep_inv x).
Qed.

(** ** A concrete heap *)

(** The machine of [PagingSys] with one program, which has a region of 5000 bytes. *)
Lemma demo_heap_steps t r t1 tags1 :
  vmm_create_address_space t = (r, t1) → r ≠ PHYS_NULL → iso tags1 ∅ t1 → is_root tags1 r → r ≠ kernel_pml4_phys t1 →
  used_pages (frames t1) + 700 ≤ total_pages (frames t1) → hinv (mkH (mkSys t ∅ ∅) ∅) →
  ∃ x u, rtc hstep (mkH (mkSys t ∅ ∅) ∅) x ∧ heaps x !! r = Some u ∧ vmm_read_cr3 (vm (hm x)) = r ∧
    uheap_regions u = [mkRegion UHEAP_BASE 5000 2].
Proof.
  intros Hc Hnn Hi Hr Hk Hu H0. set (u0 := uheap_reset (mkUtask r 0 [])).
  set (x1 := mkH (mkSys t1 ∅ ({[r]} ∪ ∅)) (<[r := u0]> ∅)).
  assert (S1 : hstep (mkH (mkSys t ∅ ∅) ∅) x1) by exact (hs_create (mkH (mkSys t ∅ ∅) ∅) r t1 0 [] Hc Hnn).
  pose proof (hstep_inv _ _ S1 H0) as [_ H1]. destruct (H1 r u0 (lookup_insert_eq _ _ _)) as (Hs & _ & Ho).
  cbn [hm vm spaces x1] in Hs, Ho.
  pose proof (uheap_alloc_ok tags1 ∅ t1 u0 Hi Hr Hk Ho true 5000 ltac:(lia)) as Ha.
  destruct (uheap_alloc true u0 5000 t1) as [[res u2] t2] eqn:E.
  destruct Ha as [_ [(_ & _ & Hw & _)|(_ & Hu2 & _ & _ & tags2 & E2 & _)]].
  { assert (Hpf : pages_for 5000 = 2) by done. assert (Htop : heap_top u0 = UHEAP_BASE) by done.
    unfold refused in Hw. rewrite Hpf, Htop in Hw. unfold UHEAP_MAX_ALLOC, UHEAP_BASE, UHEAP_END in Hw.
    destruct Hw as [?|[?|[?|[?|?]]]]; [lia|lia|lia|discriminate|lia]. }
  set (x2 := after x1 r u2 t2).
  assert (S2 : hstep x1 x2) by exact (hs_alloc x1 r u0 true 5000 res u2 t2 (lookup_insert_eq _ _ _) ltac:(lia) E).
  assert (S3 : hstep x2 (mkH (mkSys (vmm_switch_pml4 r t2) ∅ ({[r]} ∪ ∅)) (heaps x2))).
  { exact (hs_mem x2 _ (ms_switch (hm x2) r Hs)). }
  exists (mkH (mkSys (vmm_switch_pml4 r t2) ∅ ({[r]} ∪ ∅)) (heaps x2)), u2.
  split; [exact (rtc_l _ _ _ _ S1 (rtc_l _ _ _ _ S2 (rtc_once _ _ S3)))|].
  split; [exact (lookup_insert_eq _ _ _)|]. split; [|by rewrite Hu2].
  destruct (vk_frame _ _ (is_vm _ _ _ Hi) r _ Hr) as [[Hr0 Hrm] _]. cbn [hm vm].
  unfold vmm_switch_pml4. rewrite (proj2 (Z.eqb_neq r PHYS_NULL) Hnn). unfold vmm_read_cr3. cbn [cr3 set_cr3].
  rewrite next_table_eq by lia. zdiv.
Qed.

Lemma demo_heap :
  ∃ t x r u, init_paging demo_boot = Some t ∧ rtc hstep (mkH (mkSys t ∅ ∅) ∅) x ∧ heaps x !! r = Some u ∧
    vmm_read_cr3 (vm (hm x)) = r ∧ uheap_regions u = [mkRegion UHEAP_BASE 5000 2] ∧ hinv x.
Proof.
  destruct demo_space as (t & tags & r & t1 & tags1 & Hin & _ & Hc & Hnn & Hi1 & Hr & Hk & Hu & _).
  pose proof (λ x, hreach_inv _ _ _ x demo_booted Hin) as Hre.
  destruct (demo_heap_steps t r t1 tags1 Hc Hnn Hi1 Hr Hk Hu (Hre _ (rtc_refl _ _))) as (x & u & Hst & Hx & Hcr & Hreg).
  exists t, x, r, u. exact (conj Hin (conj Hst (conj Hx (conj Hcr (conj Hreg (Hre _ Hst)))))).
Qed.

(** ** Properties *)

(** No call faults, whatever it is given. *)
Lemma realloc_total tags hs t u ok uaddr sz :
  iso tags hs t → is_root tags (pml4_phys u) → pml4_phys u ≠ kernel_pml4_phys t → heap_ok t u → vmm_read_cr3 t = pml4_phys u →
  0 ≤ sz < 2 ^ 64 → is_Some (uheap_realloc ok u uaddr sz t).
Proof.
  intros Hi Hr Hne Ho Hcr Hsz. destruct (decide (uaddr = 0)) as [->|H0]; [done|].
  destruct (decide (sz = 0)) as [->|Hz].
  { unfold uheap_realloc. rewrite (proj2 (Z.eqb_neq uaddr 0) H0). cbn [Z.eqb]. by destruct (uheap_free u uaddr t) as [[? ?] ?]. }
  destruct (find_region uaddr (uheap_regions u)) as [n|] eqn:Hf.
  - destruct (uheap_realloc_ok tags hs t u Hi Hr Hne Ho Hcr uaddr n H0 Hf ok sz ltac:(lia)) as (r & -> & _). done.
  - unfold uheap_realloc. rewrite (proj2 (Z.eqb_neq uaddr 0) H0), (proj2 (Z.eqb_neq sz 0) Hz), Hf. by destruct (UHEAP_MAX_ALLOC <? sz).
Qed.

Lemma apart_guarded l top n n' :
  Forall (region_ok top) l → StronglySorted above l → n ∈ l → n' ∈ l → n ≠ n' → above n n' ∨ above n' n.
Proof.
  intros Hf Hs. induction Hs as [|m l Hs IH Hm]; [by intros ?%elem_of_nil|]. apply Forall_cons in Hf as [_ Hf].
  rewrite Forall_forall in Hm. intros [->|Hn]%elem_of_cons [->|Hn']%elem_of_cons Hne; [done|left; by apply Hm|right; by apply Hm|by apply IH].
Qed.

(** C11: the heaps of programs.  In every state reached from the boot tables by programs that
    are created, fork, exit, allocate, free and reallocate, interleaved with all other work
    on memory that stays out of the heaps' addresses: the regions of a heap lie in the heap's
    range, hold what was asked for and are apart by a page at least; an address of the heap
    is mapped if and only if it is in a region, so that the pages between regions fault and
    no page is lost; a page of a region is writable for the program; and no reallocation
    faults. *)
Theorem uheap_safe (tags0 : gmap Z tag) (t0 t : vmm) (x : hsys) (r : Z) (u : utask)
    (Hboot : booted tags0 t0) (Hinit : init_paging t0 = Some t) (Hreach : rtc hstep (mkH (mkSys t ∅ ∅) ∅) x)
    (Hu : heaps x !! r = Some u) :
  (∀ n, n ∈ uheap_regions u → UHEAP_BASE ≤ base n ∧ base n mod 4096 = 0 ∧ 0 < size n ≤ pages n * 4096 ∧
     base n + pages n * 4096 + 4096 ≤ UHEAP_END) ∧
  (∀ n n', n ∈ uheap_regions u → n' ∈ uheap_regions u → n ≠ n' →
     base n + pages n * 4096 + 4096 ≤ base n' ∨ base n' + pages n' * 4096 + 4096 ≤ base n) ∧
  (∀ a, heap_va a → is_Some (translate (vm (hm x)) r a) ↔ ∃ n, n ∈ uheap_regions u ∧ covers n a) ∧
  (∀ n a, n ∈ uheap_regions u → covers n a → ∃ e pa, translate (vm (hm x)) r a = Some e ∧ pte_flags e = 7 ∧
     mmu r a (vm (hm x)) = Some (pa, true)) ∧
  (∀ ok uaddr sz, vmm_read_cr3 (vm (hm x)) = r → 0 ≤ sz < 2 ^ 64 → is_Some (uheap_realloc ok u uaddr sz (vm (hm x)))).
Proof.
  destruct (hreach_inv t0 tags0 t x Hboot Hinit Hreach) as [(tags & Hi & Hk & Hr) Hh]. clear Hboot Hinit Hreach.
  destruct (Hh r u Hu) as (Hs & Hp & Ho). destruct (space_root (hm x) tags Hi Hk Hr r Hs) as (Hrr & Hne & _).
  rewrite <- Hp in *. pose proof (ho_top _ _ Ho) as [[_ Htop] _].
  pose proof (ho_regions _ _ Ho) as Hreg. pose proof (proj1 (Forall_forall _ _) Hreg) as Hreg'. split; [|split; [|split; [|split]]].
  - intros n Hn. destruct (Hreg' n Hn) as (H1 & H2 & H3 & H4). split_and!; [done|done|lia|lia|lia].
  - intros n n' Hn Hn' Hd. destruct (apart_guarded _ _ n n' Hreg (ho_apart _ _ Ho) Hn Hn' Hd); [by right|by left].
  - intros a Ha. pose proof (ho_mapped _ _ Ho a Ha) as Hm. destruct (translate (vm (hm x)) (pml4_phys u) a) as [e|].
    + split; [intros _; apply Hm|done].
    + split; [by intros [? ?]|]. intros (n & Hn & Hc). by destruct (Hm n Hn).
  - intros n a Hn Hc. destruct (covers_mapped _ _ n a Ho Hn Hc) as (e & He & Hf).
    destruct (region_bytes tags _ _ u n a Hi Hrr Hne Ho Hn Hc) as [_ [pa Hpa]]. by exists e, pa.
  - intros ok uaddr sz Hcr Hsz. by apply (realloc_total tags (held (hm x))).
Qed.

(** C29: reallocation of a region of a program ([uheap_realloc]), for a heap that is well
    formed and whose address space is in use.  The call returns.  If it fails, the heap and
    all memory of all programs are as before.  Otherwise there is a region of the new size at
    the result, whose contents are those of the old region up to the smaller of the two
    sizes, the other regions keep their contents, and memory outside this heap is untouched.
    If the new size fits the pages of the region it stays where it is and nothing is copied;
    otherwise it is elsewhere, the bytes after the old contents are zero, and the pages of
    the old region are unmapped and their frames are free. *)
Theorem uheap_realloc_spec (tags : gmap Z tag) (hs : gset Z) (t : vmm) (u : utask) (ok : bool) (uaddr sz : Z) (n : region)
    (Hi : iso tags hs t) (Hr : is_root tags (pml4_phys u)) (Hne : pml4_phys u ≠ kernel_pml4_phys t) (Ho : heap_ok t u)
    (Hcr : vmm_read_cr3 t = pml4_phys u) (H0 : uaddr ≠ 0) (Hf : find_region uaddr (uheap_regions u) = Some n) (Hsz : 0 < sz < 2 ^ 64) :
  ∃ res u' t', uheap_realloc ok u uaddr sz t = Some (res, u', t') ∧ heap_ok t' u' ∧
    (∃ tags', uedit (heap_of (pml4_phys u)) tags hs t tags' t') ∧
    ((res = 0 ∧ u' = u ∧ ∃ tags', uedit nowhere tags hs t tags' t') ∨
     (res ≠ 0 ∧ (∃ m, m ∈ uheap_regions u' ∧ base m = res ∧ size m = sz) ∧
      (∀ k, 0 ≤ k < Z.min (size n) sz → byte_at (pml4_phys u) (res + k) t' = byte_at (pml4_phys u) (uaddr + k) t) ∧
      (∀ m, m ∈ uheap_regions u → m ≠ n → m ∈ uheap_regions u' ∧
         ∀ a, covers m a → byte_at (pml4_phys u) a t' = byte_at (pml4_phys u) a t) ∧
      (sz ≤ pages n * 4096 ∧ res = uaddr ∧ t' = t ∨
       pages n * 4096 < sz ∧ res ≠ uaddr ∧
       (∀ k, size n ≤ k < sz → byte_at (pml4_phys u) (res + k) t' = Some 0) ∧
       ∀ a e, covers n a → translate t (pml4_phys u) a = Some e →
         translate t' (pml4_phys u) a = None ∧ is_free (frames t') (pte_frame e / PAGE_SIZE)))).
Proof.
  destruct (uheap_realloc_ok tags hs t u Hi Hr Hne Ho Hcr uaddr n H0 Hf ok sz Hsz) as ([[res u'] t'] & -> & H1 & _ & H2 & H3).
  by exists res, u', t'.
Qed.

(** ** The properties at a concrete machine *)
Lemma uheap_safe_witness :
  ∃ t x r u n, init_paging demo_boot = Some t ∧ rtc hstep (mkH (mkSys t ∅ ∅) ∅) x ∧ heaps x !! r = Some u ∧
    n ∈ uheap_regions u ∧ is_Some (translate (vm (hm x)) r UHEAP_BASE) ∧
    is_Some (uheap_realloc true u UHEAP_BASE 9000 (vm (hm x))).
Proof.
  destruct demo_heap as (t & x & r & u & Hin & Hst & Hu & Hcr & Hreg & _).
  destruct (uheap_safe _ _ t x r u demo_booted Hin Hst Hu) as (_ & _ & H3 & _ & H5).
  exists t, x, r, u, (mkRegion UHEAP_BASE 5000 2). split; [exact Hin|]. clear Hin. split; [exact Hst|]. split; [exact Hu|].
  assert (Hn : mkRegion UHEAP_BASE 5000 2 ∈ uheap_regions u) by (rewrite Hreg; left).
  split; [exact Hn|]. split; [|apply H5; [exact Hcr|lia]].
  apply H3; [unfold heap_va, UHEAP_BASE, UHEAP_END; lia|]. exists (mkRegion UHEAP_BASE 5000 2). split; [exact Hn|].
  unfold covers. cbn [base pages]. lia.
Defined.

Lemma uheap_realloc_spec_witness :
  ∃ t u res u' t', find_region UHEAP_BASE (uheap_regions u) = Some (mkRegion UHEAP_BASE 5000 2) ∧
    uheap_realloc true u UHEAP_BASE 9000 t = Some (res, u', t') ∧ heap_ok t' u'.
Proof.
  destruct demo_heap as (t & x & r & u & _ & _ & Hu & Hcr & Hreg & (tags & Hi & Hk & Hr) & Hh).
  destruct (Hh r u Hu) as (Hs & Hp & Ho). destruct (space_root (hm x) tags Hi Hk Hr r Hs) as (Hrr & Hne & _).
  rewrite <- Hp in Hrr, Hne, Hcr.
  assert (Hf : find_region UHEAP_BASE (uheap_regions u) = Some (mkRegion UHEAP_BASE 5000 2)) by (rewrite Hreg; reflexivity).
  destruct (uheap_realloc_spec tags _ _ u true UHEAP_BASE 9000 _ Hi Hrr Hne Ho Hcr ltac:(discriminate) Hf ltac:(lia))
    as (res & u' & t' & H1 & H2 & _).
  exists (vm (hm x)), u, res, u', t'. exact (conj Hf (conj H1 H2)).
Defined.
