(* ===== verification/Elf.v ===== *)
(** [kernel/proc/elf.c]: loading a program into an address space.

    [file] gives the buffer of a path: its length is the size [kfs_get_file_size] reports, 0
    if there is no such file, and its contents are what [kfs_read_to_buffer] leaves in it.
    [mem_ok] is whether [kmalloc] finds memory for the buffer, and [freed] what the buffer holds
    once it is freed, from which the 32-bit path takes the entry point.  [nx] is whether the
    processor has the execute-disable bit.  Segments are copied through the address space
    in use, so that a fault of the kernel there is a result. *)

From S2P Require Import Prelude Bitmap Pmm Paging PagingSpec PagingDestroy PagingIso PagingClone PagingSys UserCopy UserMem.

Definition ELFCLASS32 : Z := 1.
Definition ELFCLASS64 : Z := 2.
Definition USER_STACK_SIZE : Z := 256 * 1024.
Definition USER_STACK_TOP : Z := 0x0C000000.

(** How the loader is left early: it returns 0; the kernel faults; it reads past the end of
    the buffer; the address of a page passes the end of the address space. *)
Inductive elf_exit := Ret (t : vmm) | Fault | Overread | Wrapped.

(** The field of [n] bytes at [off]. *)
Definition elf_field (off n : Z) (buf : list Z) : option Z :=
  if off + n <=? zlength buf then Some (le_num (slice off n buf)) else None.

Record phdr := mkPhdr { p_type : Z; p_flags : Z; p_offset : Z; p_vaddr : Z; p_filesz : Z; p_memsz : Z }.

(** Program headers; the loader has checked that they lie in the buffer. *)
Definition phdr64 (at_ : Z) (buf : list Z) : phdr :=
  let num o n := le_num (slice (at_ + o) n buf) in
  mkPhdr (num 0 4) (num 4 4) (num 8 8) (num 16 8) (num 32 8) (num 40 8).

Definition phdr32 (at_ : Z) (buf : list Z) : phdr :=
  let num o n := le_num (slice (at_ + o) n buf) in
  mkPhdr (num 0 4) (num 24 4) (num 4 4) (num 8 4) (num 16 4) (num 20 4).

(** Pages of a segment that are not there yet are mapped. *)
Fixpoint map_segment (fuel : nat) (page seg_end root : Z) t : elf_exit + vmm :=
  match fuel with
  | O => inl Wrapped
  | S fuel =>
      if page <? seg_end then
        if paging_is_mapped_into page root t =? 0 then
          let '(ok, t) := vmm_alloc_page_into page 7 root t in
          if ok =? 0 then inl (Ret t) else map_segment fuel (u64 (page + 4096)) seg_end root t
        else map_segment fuel (u64 (page + 4096)) seg_end root t
      else inr t
  end.

(** The final protection; a failure is only reported. *)
Fixpoint protect_segment (fuel : nat) (page seg_end flags root : Z) t : elf_exit + vmm :=
  match fuel with
  | O => inl Wrapped
  | S fuel =>
      if page <? seg_end
      then protect_segment fuel (u64 (page + 4096)) seg_end flags root (vmm_protect_page_into page flags root t).2
      else inr t
  end.

(** One pass over the pages of a segment. *)
Definition page_fuel (page seg_end : Z) : nat := Z.to_nat ((seg_end - page) / 4096 + 2).

Definition seg_flags (nx : bool) (flags : Z) : Z :=
  Z.lor (Z.lor (Z.lor PAGING_PRESENT PAGING_USER) (if Z.testbit flags 1 then PAGING_WRITABLE else 0))
    (if Z.testbit flags 0 then 0 else paging_nx_flag nx).

(** The contents of a segment, and zeros after them. *)
Definition fill_segment (buf : list Z) (ph : phdr) t : option vmm :=
  match write_bytes (slice (p_offset ph) (u32 (p_filesz ph)) buf) (p_vaddr ph) t with
  | None => None
  | Some t =>
      if p_filesz ph <? p_memsz ph
      then write_bytes (replicate (Z.to_nat (u32 (p_memsz ph - p_filesz ph))) 0) (u64 (p_vaddr ph + p_filesz ph)) t
      else Some t
  end.

Definition load_segment64 (nx : bool) (buf : list Z) (ph : phdr) (root : Z) t : elf_exit + vmm :=
  if negb (p_type ph =? 1) then inr t else
  let file_size := zlength buf in
  let seg_vaddr := p_vaddr ph in
  if 2 ^ 64 - 1 - seg_vaddr <? p_memsz ph then inl (Ret t) else
  let seg_end := seg_vaddr + p_memsz ph in
  if (file_size <? p_offset ph) || (file_size - p_offset ph <? p_filesz ph) then inl (Ret t) else
  let first := page_down seg_vaddr in
  match map_segment (page_fuel first seg_end) first seg_end root t with
  | inl e => inl e
  | inr t =>
      match fill_segment buf ph t with
      | None => inl Fault
      | Some t =>
          let flags := seg_flags nx (p_flags ph) in
          if flags =? 7 then inr t
          else protect_segment (page_fuel first seg_end) first seg_end flags root t
      end
  end.

(** The stack of the program. *)
Definition map_stack (nx : bool) (root : Z) t : vmm + vmm :=
  for_range 0 (USER_STACK_SIZE / 4096) (λ i t,
    let '(ok, t) := map_zeroed (USER_STACK_TOP - USER_STACK_SIZE + i * 4096) (paging_user_rw_nx nx) root t in
    if ok then inr t else inl t) t.

(** The entry point and the top of the stack. *)
Definition load64 (nx : bool) (buf : list Z) (want_stack : bool) (root : Z) t : elf_exit + Z * Z * vmm :=
  if root =? PHYS_NULL then inl (Ret t) else
  match elf_field 32 8 buf with
  | None => inl Overread
  | Some e_phoff =>
  if zlength buf <? e_phoff then inl (Ret t) else
  match elf_field 56 2 buf with
  | None => inl Overread
  | Some e_phnum =>
      if zlength buf - e_phoff <? e_phnum * 56 then inl (Ret t) else
      match for_range 0 e_phnum (λ i t, load_segment64 nx buf (phdr64 (e_phoff + i * 56) buf) root t) t with
      | inl e => inl e
      | inr t =>
          let e_entry := le_num (slice 24 8 buf) in
          if negb want_stack then inr (e_entry, 0, t) else
          match map_stack nx root t with
          | inl t => inl (Ret t)
          | inr t => inr (e_entry, USER_STACK_TOP, t)
          end
      end
  end
  end.

(** The 32-bit path maps one page for each block of 4 MiB. *)
Fixpoint map_blocks (fuel : nat) (block seg_end root : Z) t : elf_exit + vmm :=
  match fuel with
  | O => inl Wrapped
  | S fuel =>
      if block <? seg_end then
        let '(ok, t) := vmm_alloc_page_into block 7 root t in
        if ok =? 0 then inl (Ret t) else map_blocks fuel (u32 (block + 0x400000)) seg_end root t
      else inr t
  end.

Definition load_segment32 (buf : list Z) (ph : phdr) (root : Z) t : elf_exit + vmm :=
  if negb (p_type ph =? 1) then inr t else
  let seg_end := u32 (p_vaddr ph + p_memsz ph) in
  if (zlength buf <? p_offset ph) || (zlength buf - p_offset ph <? p_filesz ph) then inl (Ret t) else
  let block := Z.land (p_vaddr ph) 0xFFC00000 in
  match map_blocks (Z.to_nat ((seg_end - block) / 0x400000 + 2)) block seg_end root t with
  | inl e => inl e
  | inr t => match fill_segment buf ph t with None => inl Fault | Some t => inr t end
  end.

Definition load32 (buf freed : list Z) (root : Z) t : elf_exit + Z * Z * vmm :=
  if root =? PHYS_NULL then inl (Ret t) else
  match elf_field 28 4 buf with
  | None => inl Overread
  | Some e_phoff =>
  if zlength buf <? e_phoff then inl (Ret t) else
  match elf_field 44 2 buf with
  | None => inl Overread
  | Some e_phnum =>
      if zlength buf - e_phoff <? e_phnum * 32 then inl (Ret t) else
      match for_range 0 e_phnum (λ i t, load_segment32 buf (phdr32 (e_phoff + i * 32) buf) root t) t with
      | inl e => inl e
      | inr t => match elf_field 24 4 freed with None => inl Overread | Some e_entry => inr (e_entry, 0, t) end
      end
  end
  end.

(** The test of the first bytes, left at the first that differs. *)
Fixpoint starts_with (magic buf : list Z) : option bool :=
  match magic, buf with
  | [], _ => Some true
  | _ :: _, [] => None
  | m :: magic, b :: buf => if b =? m then starts_with magic buf else Some false
  end.

(** The path that is loaded: a name without a slash at its start is one below [/apps/], cut to
    the 71 characters that fit. *)
Definition elf_path (filename : list Z) : list Z :=
  if default 0 (head filename) =? 47 then filename
  else take 71 ([47; 97; 112; 112; 115; 47] ++ filename).

Definition elf_load_file (nx mem_ok : bool) (file : list Z → list Z) (freed : list Z) (filename : list Z)
    (want_stack : bool) (target_pml4 : Z) t : elf_exit + Z * Z * vmm :=
  let buf := file (elf_path filename) in
  if zlength buf =? 0 then inl (Ret t) else
  if negb mem_ok then inl (Ret t) else
  match starts_with [0x7F; 69; 76; 70] buf with
  | None => inl Overread
  | Some false => inl (Ret t)
  | Some true =>
      match elf_field 4 1 buf with
      | None => inl Overread
      | Some elf_class =>
          if elf_class =? ELFCLASS64 then load64 nx buf want_stack target_pml4 t else
          if elf_class =? ELFCLASS32 then load32 buf freed target_pml4 t else inl (Ret t)
      end
  end.

(** ** The pages of a segment *)

(** The addresses of [root] on the pages from [first] up to an end. *)
Definition span (root first seg_end r a : Z) : Prop := r = root ∧ first ≤ a ∧ a / 4096 * 4096 < seg_end.

#[global] Instance span_dec root first seg_end r a : Decision (span root first seg_end r a).
Proof. unfold span. apply _. Defined.

Definition npages (first seg_end : Z) : Z := Z.max 0 ((seg_end - first + 4095) / 4096).

Lemma span_page root first seg_end r a : first mod 4096 = 0 → first < seg_end → on_page root first r a → span root first seg_end r a.
Proof. intros Hm Hlt [-> Ha]. split; [done|]. zdiv. Qed.

Lemma span_next root first seg_end r a : span root (first + 4096) seg_end r a → span root first seg_end r a.
Proof. intros (-> & H1 & H2). split; [done|lia]. Qed.

Lemma span_cases root first seg_end r a :
  first mod 4096 = 0 → span root first seg_end r a → on_page root first r a ∨ span root (first + 4096) seg_end r a.
Proof.
  intros Hm (-> & H1 & H2). destruct (decide (a / 4096 = first / 4096)); [left; by split|right]. split; [done|]. split; [zdiv|done].
Qed.

Lemma npages_next first seg_end : first < seg_end → npages first seg_end = npages (first + 4096) seg_end + 1.
Proof. intros Hlt. unfold npages. zdiv. Qed.

(** Pages of a range that are not mapped yet. *)
Definition fresh_span (root first seg_end : Z) t (r a : Z) : Prop := span root first seg_end r a ∧ translate t root a = None.

Lemma map_segment_ok fuel first seg_end tags hs t root :
  iso tags hs t → is_root tags root → root ≠ kernel_pml4_phys t → first mod 4096 = 0 → 0 ≤ first → seg_end ≤ 2 ^ 47 →
  npages first seg_end < Z.of_nat fuel → (∀ a, span root first seg_end root a → user_va a) →
  match map_segment fuel first seg_end root t with
  | inr t' => ∃ tags', uedit (fresh_span root first seg_end t) tags hs t tags' t' ∧
      used_pages (frames t') ≤ used_pages (frames t) + 4 * npages first seg_end ∧
      ∀ a, fresh_span root first seg_end t root a → ∃ e, translate t' root a = Some e ∧ pte_flags e = 7
  | inl (Ret t') => total_pages (frames t) ≤ used_pages (frames t) + 4 * npages first seg_end ∧
      ∃ tags', uedit (fresh_span root first seg_end t) tags hs t tags' t'
  | inl _ => False
  end.
Proof.
  intros Hi Hr Hne Hm H0 Hend. revert first tags t Hi Hr Hne Hm H0.
  induction fuel as [|fuel IH]; intros first tags t Hi Hr Hne Hm H0 Hf Hall; [unfold npages in Hf; lia|]. cbn [map_segment].
  destruct (Z.ltb_spec first seg_end) as [Hlt|Hge].
  2: { exists tags. split; [by apply uedit_refl|]. split; [unfold npages; zdiv|]. intros a [(_ & H1 & H2) _]. zdiv. }
  rewrite (npages_next first seg_end Hlt) in *. pose proof (Z.le_max_l 0 ((seg_end - (first + 4096) + 4095) / 4096)) as Hnp.
  fold (npages (first + 4096) seg_end) in Hnp. rewrite u64_id by lia.
  assert (Hu : user_va first) by (by apply Hall, span_page). assert (Hall' := λ a Ha, Hall a (span_next _ _ _ _ _ Ha)).
  rewrite (is_mapped_translate tags hs t root first Hi Hr Hne Hu). destruct (translate t root first) as [e0|] eqn:Hn; cbn [bool_decide cbool Z.eqb].
  { assert (Hsame : ∀ r a, fresh_span root first seg_end t r a → fresh_span root (first + 4096) seg_end t r a).
    { intros r a [Hs Ha]. split; [|done]. destruct (span_cases _ _ _ _ _ Hm Hs) as [[-> Hp]|?]; [|done].
      rewrite (translate_page t root first a Hp) in Ha. congruence. }
    assert (Hback : ∀ r a, fresh_span root (first + 4096) seg_end t r a → fresh_span root first seg_end t r a).
    { intros r a [Hs Ha]. split; [by apply span_next|done]. }
    specialize (IH (first + 4096) tags t Hi Hr Hne ltac:(zdiv) ltac:(lia) ltac:(lia) Hall').
    destruct (map_segment fuel (first + 4096) seg_end root t) as [[t'| | |]|t']; [|done|done|done|].
    - destruct IH as (Hfull & tags' & E2). split; [lia|]. exists tags'. by eapply uedit_weaken.
    - destruct IH as (tags' & E2 & Hu2 & Hd). exists tags'. split; [by eapply uedit_weaken|]. split; [lia|]. auto. }
  pose proof (alloc_into_ok tags hs t root first Hi Hr Hne Hu 7 flags7_ok eq_refl) as Ha.
  destruct (vmm_alloc_page_into first 7 root t) as [ok t1].
  destruct Ha as [(-> & Hu1 & tags1 & e & E & Htr & Hfl)|(-> & Hfull & tags1 & E)]; cbn [Z.eqb].
  2: { split; [lia|]. exists tags1. eapply uedit_weaken; [|exact E]. by intros ? ? []. }
  assert (E' : uedit (fresh_span root first seg_end t) tags hs t tags1 t1).
  { eapply uedit_weaken; [|exact E]. intros r a Hp. split; [by apply span_page|]. by rewrite (translate_page t root first a (proj2 Hp)). }
  pose proof (uedit_root _ _ _ _ _ _ _ E Hr) as Hr1. pose proof (uedit_kernel _ _ _ _ _ _ E) as Hk1.
  assert (Hnot : ∀ a, span root (first + 4096) seg_end root a → translate t1 root a = translate t root a).
  { intros a Hs. apply (ue_trans _ _ _ _ _ _ E); [done|by apply Hall'|]. destruct Hs as (_ & H1 & _). intros [_ H2]. zdiv. }
  assert (Hw : ∀ r a, fresh_span root (first + 4096) seg_end t1 r a → fresh_span root first seg_end t r a).
  { intros r a [Hs Ha]. split; [by apply span_next|]. pose proof Hs as (-> & _). by rewrite <- Hnot. }
  specialize (IH (first + 4096) tags1 t1 (ue_iso _ _ _ _ _ _ E) Hr1 ltac:(by rewrite Hk1) ltac:(zdiv) ltac:(lia) ltac:(lia) Hall').
  destruct (map_segment fuel (first + 4096) seg_end root t1) as [[t'| | |]|t']; [|done|done|done|].
  - destruct IH as (Hfull & tags' & E2). rewrite (ue_total _ _ _ _ _ _ E) in Hfull. split; [lia|]. exists tags'.
    eapply uedit_trans; [exact E'|]. by eapply uedit_weaken.
  - destruct IH as (tags' & E2 & Hu2 & Hd). exists tags'. split; [|split; [lia|]].
    { eapply uedit_trans; [exact E'|]. by eapply uedit_weaken. }
    intros a [Ha Hna]. destruct (span_cases _ _ _ _ _ Hm Ha) as [[_ Hp]|Hs]; [|apply Hd; split; [done|by rewrite Hnot]].
    assert (Ht1 : translate t1 root a = Some e) by (by rewrite (translate_page t1 root first a Hp)). exists e. split; [|done].
    rewrite (ue_trans _ _ _ _ _ _ E2); [done|done|by apply Hall|]. intros [_ H]. congruence.
Qed.

Lemma protect_frames va flags root t : frames (vmm_protect_page_into va flags root t).2 = frames t.
Proof.
  unfold vmm_protect_page_into. destruct (root_or_kernel root t) as [r|]; [|done]. destruct (walk_pt r va t); [|done].
  cbv zeta. by destruct (negb (present _)).
Qed.

Lemma protect_segment_ok fuel first seg_end flags tags hs t root :
  iso tags hs t → is_root tags root → root ≠ kernel_pml4_phys t → flags_ok flags → present flags = true →
  first mod 4096 = 0 → 0 ≤ first → seg_end ≤ 2 ^ 47 → npages first seg_end < Z.of_nat fuel →
  (∀ a, span root first seg_end root a → user_va a ∧ ∃ e, translate t root a = Some e ∧ pte_flags e = 7) →
  ∃ t', protect_segment fuel first seg_end flags root t = inr t' ∧ uedit (span root first seg_end) tags hs t tags t' ∧
    frames t' = frames t ∧
    ∀ a, span root first seg_end root a → (∃ e, translate t' root a = Some e ∧ pte_flags e = pte_flags flags) ∧
      byte_at root a t' = byte_at root a t.
Proof.
  intros Hi Hr Hne Hfl Hpr Hm H0 Hend. revert first t Hi Hne Hm H0.
  induction fuel as [|fuel IH]; intros first t Hi Hne Hm H0 Hf Hall; [unfold npages in Hf; lia|]. cbn [protect_segment].
  destruct (Z.ltb_spec first seg_end) as [Hlt|Hge].
  2: { exists t. split; [done|]. split; [by apply uedit_refl|]. split; [done|]. intros a (_ & H1 & H2). zdiv. }
  rewrite (npages_next first seg_end Hlt) in *.
  destruct (Hall first) as [Hu (e & He & Hef)]; [by apply span_page|].
  pose proof (protect_ok tags hs t root first Hi Hr Hne Hu flags Hfl Hpr) as Hp. rewrite He in Hp.
  pose proof (protect_frames first flags root t) as Hfr. destruct Hp as (t1 & Hp & E & Htr & Hby). rewrite Hp in *. cbn [snd] in *.
  rewrite u64_id by lia. pose proof (uedit_kernel _ _ _ _ _ _ E) as Hk1.
  assert (Hnot : ∀ a, span root (first + 4096) seg_end root a → ¬ on_page root first root a).
  { intros a (_ & H1 & _) [_ H2]. zdiv. }
  destruct (IH (first + 4096) t1 (ue_iso _ _ _ _ _ _ E) ltac:(by rewrite Hk1) ltac:(zdiv) ltac:(lia) ltac:(lia)) as (t' & -> & E2 & Hfr2 & Hd).
  { intros a Ha. destruct (Hall a (span_next _ _ _ _ _ Ha)) as [Hua Hna]. split; [done|].
    rewrite (ue_trans _ _ _ _ _ _ E); [done|done|apply Hua|by apply Hnot]. }
  exists t'. split; [done|]. split.
  { eapply uedit_trans; (eapply uedit_weaken; [|eassumption]); intros r a; [by apply span_page|apply span_next]. }
  split; [congruence|]. intros a Ha. destruct (Hall a Ha) as [Hua (ea & Hea & _)].
  destruct (decide (span root (first + 4096) seg_end root a)) as [Hs|Hs].
  - destruct (Hd a Hs) as [Hx Hb]. split; [done|]. rewrite Hb.
    apply (ue_bytes _ _ _ _ _ _ E); try done; try (by apply Hnot); by rewrite Hea.
  - destruct (span_cases _ _ _ _ _ Hm Ha) as [[_ Hp1]|?]; [|done].
    assert (Ha1 : translate t1 root a = Some (new_entry e flags)) by (by rewrite (translate_page t1 root first a Hp1)). split.
    + exists (new_entry e flags). split; [by rewrite (ue_trans _ _ _ _ _ _ E2) by (done || apply Hua)|].
      apply pte_flags_over. assert (Hb : Z.testbit (pte_flags e) 63 = false) by (by rewrite Hef).
      rewrite pte_flags_land, Z.land_spec in Hb. by rewrite andb_true_r in Hb.
    + rewrite (ue_bytes _ _ _ _ _ _ E2); [by apply Hby|done|by rewrite Hk1|done|done|by rewrite Ha1].
Qed.

(** ** The contents of a segment *)
Definition seg_byte (buf : list Z) (ph : phdr) (k : Z) : Z :=
  if k <? p_filesz ph then u8 (lget buf (p_offset ph + k)) else 0.

Lemma lget_slice off n k l : 0 ≤ off → 0 ≤ k < n → lget (slice off n l) k = lget l (off + k).
Proof.
  intros H0 Hk. unfold lget, slice. rewrite lookup_take_lt by lia. rewrite lookup_drop. f_equal. f_equal. lia.
Qed.

Lemma zlength_slice off n l : 0 ≤ off → 0 ≤ n → off + n ≤ zlength l → zlength (slice off n l) = n.
Proof. intros H0 Hn Hl. unfold zlength, slice in *. rewrite length_take, length_drop. lia. Qed.

Lemma write_user tags hs root l va t :
  iso tags hs t → is_root tags root → root ≠ kernel_pml4_phys t → vmm_read_cr3 t = root → 0 ≤ va → va + zlength l ≤ 2 ^ 63 →
  (∀ a, va ≤ a < va + zlength l → user_byte root a t ∧ ∃ pa, mmu root a t = Some (pa, true)) →
  ∃ t', write_bytes l va t = Some t' ∧ wrote tags hs root va l t t'.
Proof.
  intros Hi Hr Hne Hcr H0 Hb Hall.
  destruct (write_bytes_ok tags hs root Hr l va t Hi Hne Hcr H0 Hb) as [(t' & Hw & W & _)|(_ & a & pa & Ha & Hf)].
  - intros a Ha. by apply Hall.
  - by exists t'.
  - destruct (Hall a Ha) as [_ [pa' Hpa]]. congruence.
Qed.

Lemma fill_segment_ok tags hs root buf ph t :
  iso tags hs t → is_root tags root → root ≠ kernel_pml4_phys t → vmm_read_cr3 t = root →
  0 ≤ p_vaddr ph → p_vaddr ph + p_memsz ph ≤ 2 ^ 47 → 0 ≤ p_filesz ph ≤ p_memsz ph → p_memsz ph < 2 ^ 32 →
  0 ≤ p_offset ph → p_offset ph + p_filesz ph ≤ zlength buf →
  (∀ a, p_vaddr ph ≤ a < p_vaddr ph + p_memsz ph → user_byte root a t ∧ ∃ pa, mmu root a t = Some (pa, true)) →
  ∃ t', fill_segment buf ph t = Some t' ∧ uedit (in_range root (p_vaddr ph) (p_memsz ph)) tags hs t tags t' ∧ frames t' = frames t ∧
    (∀ a, translate t' root a = translate t root a) ∧
    ∀ k, 0 ≤ k < p_memsz ph → byte_at root (p_vaddr ph + k) t' = Some (seg_byte buf ph k).
Proof.
  intros Hi Hr Hne Hcr Hv Hend Hfz Hmz Ho Hol Hall. unfold fill_segment. rewrite (u32_id (p_filesz ph)) by lia.
  set (l := slice _ _ _). assert (Hl : zlength l = p_filesz ph) by (apply zlength_slice; lia).
  destruct (write_user tags hs root l (p_vaddr ph) t Hi Hr Hne Hcr Hv) as (t1 & -> & W); [lia|intros a Ha; apply Hall; lia|].
  pose proof (wrote_uedit _ _ _ _ _ _ _ Hi W) as E1. destruct (wt_regs _ _ _ _ _ _ _ W) as (A1 & A2 & A3).
  assert (T1 : ∀ a, translate t1 root a = translate t root a) by (intros a; apply (trans_same tags); [apply Hi|done|apply W]).
  assert (B1 : ∀ k, 0 ≤ k < p_memsz ph → user_byte root (p_vaddr ph + k) t) by (intros k Hk; apply Hall; lia).
  assert (E1' : uedit (in_range root (p_vaddr ph) (p_memsz ph)) tags hs t tags t1).
  { eapply uedit_weaken; [|exact E1]. intros r a [-> Ha]. split; [done|lia]. }
  destruct (Z.ltb_spec (p_filesz ph) (p_memsz ph)) as [Hlt|Hge].
  2: { exists t1. split; [done|]. split; [done|]. split; [done|]. split; [done|]. intros k Hk. unfold seg_byte.
       rewrite (wt_bytes _ _ _ _ _ _ _ W) by (done || by apply B1). rewrite decide_True by (split; [done|lia]).
       destruct (Z.ltb_spec k (p_filesz ph)); [|lia]. replace (p_vaddr ph + k - p_vaddr ph) with k by lia. unfold l.
       by rewrite lget_slice by lia. }
  rewrite u32_id, u64_id by lia. set (z := replicate _ 0).
  assert (Hz : zlength z = p_memsz ph - p_filesz ph) by (unfold zlength, z; rewrite length_replicate; lia).
  assert (Hcr1 : vmm_read_cr3 t1 = root) by (unfold vmm_read_cr3; by rewrite A1).
  destruct (write_user tags hs root z (p_vaddr ph + p_filesz ph) t1 (ue_iso _ _ _ _ _ _ E1) Hr) as (t2 & -> & W2);
    [by rewrite A2|done|lia|lia| |].
  { intros a Ha. destruct (Hall a ltac:(lia)) as [H1 H2].
    destruct (wrote_user tags hs root (p_vaddr ph) l t t1 root a Hi W Hr H1) as [H3 ->]. done. }
  pose proof (wrote_uedit _ _ _ _ _ _ _ (ue_iso _ _ _ _ _ _ E1) W2) as E2. exists t2. split; [done|]. split.
  { eapply uedit_trans; [exact E1'|]. eapply uedit_weaken; [|exact E2]. intros r a [-> Ha]. split; [done|lia]. }
  destruct (wt_regs _ _ _ _ _ _ _ W2) as (_ & _ & C3). split; [congruence|]. split.
  { intros a. rewrite <- T1. apply (trans_same tags); [apply (ue_iso _ _ _ _ _ _ E1)|done|apply W2]. }
  intros k Hk. unfold seg_byte.
  destruct (wrote_user tags hs root (p_vaddr ph) l t t1 root (p_vaddr ph + k) Hi W Hr (B1 k Hk)) as [Hu1 _].
  rewrite (wt_bytes _ _ _ _ _ _ _ W2) by (done || by rewrite A2). destruct (Z.ltb_spec k (p_filesz ph)) as [Hkf|Hkf].
  - rewrite decide_False by lia. rewrite (wt_bytes _ _ _ _ _ _ _ W) by (done || by apply B1).
    rewrite decide_True by (split; [done|lia]). replace (p_vaddr ph + k - p_vaddr ph) with k by lia. unfold l.
    by rewrite lget_slice by lia.
  - rewrite decide_True by (split; [done|lia]). unfold lget, z. rewrite lookup_replicate_2 by lia. done.
Qed.

(** ** Segments *)
Definition seg_va (ph : phdr) (a : Z) : Prop := page_down (p_vaddr ph) ≤ a ∧ a / 4096 * 4096 < p_vaddr ph + p_memsz ph.

(** A segment a program may have: in the lower half and out of the window for shared
    memory, not larger in the file than in memory, and inside the file. *)
Record good_segment (buf : list Z) (ph : phdr) : Prop := {
  gs_range : 0 ≤ p_vaddr ph ∧ p_vaddr ph + p_memsz ph ≤ 2 ^ 47;
  gs_size : 0 ≤ p_filesz ph ≤ p_memsz ph ∧ p_memsz ph < 2 ^ 32;
  gs_file : 0 ≤ p_offset ph ∧ p_offset ph + p_filesz ph ≤ zlength buf;
  gs_user : ∀ a, seg_va ph a → user_va a
}.

Definition seg_of (root : Z) (ph : phdr) (r a : Z) : Prop := r = root ∧ seg_va ph a.

(** The image of a segment: its pages have its protection, and its bytes are those of the
    file with zeros after them. *)
Definition seg_loaded (nx : bool) (buf : list Z) (ph : phdr) (root : Z) t : Prop :=
  (∀ a, seg_va ph a → ∃ e, translate t root a = Some e ∧ pte_flags e = seg_flags nx (p_flags ph)) ∧
  ∀ k, 0 ≤ k < p_memsz ph → byte_at root (p_vaddr ph + k) t = Some (seg_byte buf ph k).

Definition seg_pages (ph : phdr) : Z := npages (page_down (p_vaddr ph)) (p_vaddr ph + p_memsz ph).

Lemma seg_flags_ok nx fl :
  flags_ok (seg_flags nx fl) ∧ present (seg_flags nx fl) = true ∧ pte_flags (seg_flags nx fl) = seg_flags nx fl ∧
  writable (seg_flags nx fl) = Z.testbit fl 1.
Proof.
  unfold seg_flags, paging_nx_flag. destruct nx, (Z.testbit fl 0), (Z.testbit fl 1); vm_compute; by split_and!.
Qed.

Lemma seg_bytes ph k : 0 ≤ p_vaddr ph → p_vaddr ph + p_memsz ph ≤ 2 ^ 47 → 0 ≤ k < p_memsz ph → seg_va ph (p_vaddr ph + k).
Proof. intros H0 Hb Hk. unfold seg_va. rewrite page_down_eq by lia. zdiv. Qed.

(** The checks of the loader pass. *)
Lemma load_segment_eq nx buf ph root t :
  good_segment buf ph → p_type ph = 1 →
  load_segment64 nx buf ph root t =
  let first := page_down (p_vaddr ph) in
  let seg_end := p_vaddr ph + p_memsz ph in
  match map_segment (page_fuel first seg_end) first seg_end root t with
  | inl e => inl e
  | inr t =>
      match fill_segment buf ph t with
      | None => inl Fault
      | Some t => if seg_flags nx (p_flags ph) =? 7 then inr t
                  else protect_segment (page_fuel first seg_end) first seg_end (seg_flags nx (p_flags ph)) root t
      end
  end.
Proof.
  intros [[G1 G2] [[G3 G4] G5] [G6 G7] G8] Ht. unfold load_segment64. rewrite Ht. cbn [Z.eqb negb].
  destruct (Z.ltb_spec (2 ^ 64 - 1 - p_vaddr ph) (p_memsz ph)) as [|_]; [lia|].
  destruct (Z.ltb_spec (zlength buf) (p_offset ph)) as [|_]; [lia|].
  by destruct (Z.ltb_spec (zlength buf - p_offset ph) (p_filesz ph)) as [|_]; [lia|].
Qed.

Lemma seg_first buf ph : good_segment buf ph →
  page_down (p_vaddr ph) mod 4096 = 0 ∧ 0 ≤ page_down (p_vaddr ph) ∧
  npages (page_down (p_vaddr ph)) (p_vaddr ph + p_memsz ph) < Z.of_nat (page_fuel (page_down (p_vaddr ph)) (p_vaddr ph + p_memsz ph)).
Proof.
  intros [[H0 H1] [H2 _] _ _]. rewrite (page_down_eq (p_vaddr ph)) by lia. unfold npages, page_fuel. split_and!; zdiv.
Qed.

Section Segment.
Context (tags : gmap Z tag) (hs : gset Z) (t : vmm) (root : Z) (nx : bool) (buf : list Z) (ph : phdr).
Context (Hi : iso tags hs t) (Hr : is_root tags root) (Hne : root ≠ kernel_pml4_phys t) (Hcr : vmm_read_cr3 t = root).
Context (Hg : good_segment buf ph).

Lemma load_segment_ok :
  p_type ph = 1 → (∀ a, seg_va ph a → translate t root a = None) →
  match load_segment64 nx buf ph root t with
  | inr t' => ∃ tags', uedit (seg_of root ph) tags hs t tags' t' ∧ seg_loaded nx buf ph root t' ∧
      used_pages (frames t') ≤ used_pages (frames t) + 4 * seg_pages ph
  | inl (Ret t') => total_pages (frames t) ≤ used_pages (frames t) + 4 * seg_pages ph ∧ ∃ tags', uedit (seg_of root ph) tags hs t tags' t'
  | inl _ => False
  end.
Proof.
  intros Ht Hfree. rewrite load_segment_eq by done. cbv zeta. destruct (seg_first buf ph Hg) as (M1 & M2 & Hfuel).
  destruct Hg as [[G1 G2] [[G3 G4] G5] [G6 G7] G8].
  set (first := page_down (p_vaddr ph)) in *. set (seg_end := p_vaddr ph + p_memsz ph) in *.
  assert (Hsv : ∀ a, span root first seg_end root a → seg_va ph a) by (intros a (_ & H1 & H2); by split).
  pose proof (map_segment_ok (page_fuel first seg_end) first seg_end tags hs t root Hi Hr Hne M1 M2 G2 Hfuel) as Hm.
  specialize (Hm (λ a Ha, G8 a (Hsv a Ha))).
  assert (Hw : ∀ r a, span root first seg_end r a → seg_of root ph r a) by (intros r a (-> & H1 & H2); by split).
  assert (Hwf : ∀ r a, fresh_span root first seg_end t r a → seg_of root ph r a) by (intros r a [Ha _]; by apply Hw).
  destruct (map_segment _ first seg_end root t) as [[t1| | |]|t1]; [|done|done|done|].
  { destruct Hm as (Hf & tags1 & E). split; [done|]. exists tags1. by eapply uedit_weaken. }
  destruct Hm as (tags1 & E & Hu & Hd). pose proof (uedit_root _ _ _ _ _ _ _ E Hr) as Hr1.
  pose proof (uedit_kernel _ _ _ _ _ _ E) as Hk1. pose proof (uedit_cr3 _ _ _ _ _ _ E) as Hc1.
  assert (Hd' : ∀ a, span root first seg_end root a → ∃ e, translate t1 root a = Some e ∧ pte_flags e = 7).
  { intros a Ha. apply Hd. split; [done|by apply Hfree, Hsv]. }
  assert (Hspan : ∀ k, 0 ≤ k < p_memsz ph → span root first seg_end root (p_vaddr ph + k)).
  { intros k Hk. destruct (seg_bytes ph k G1 G2 Hk) as [H1 H2]. by split. }
  destruct (fill_segment_ok tags1 hs root buf ph t1 (ue_iso _ _ _ _ _ _ E) Hr1 ltac:(by rewrite Hk1) ltac:(by rewrite Hc1) G1 G2
    ltac:(lia) ltac:(lia) G6 G7) as (t2 & -> & E2 & Hf2 & Ht2 & Hb2).
  { intros a Ha. replace a with (p_vaddr ph + (a - p_vaddr ph)) by lia. pose proof (Hspan (a - p_vaddr ph) ltac:(lia)) as Hs.
    destruct (Hd' _ Hs) as (e & He & Hef). pose proof (G8 _ (Hsv _ Hs)) as Hua. split; [split; [done|by rewrite He]|].
    rewrite (mmu_user tags1 hs root _ t1 e (ue_iso _ _ _ _ _ _ E) Hr1 ltac:(by rewrite Hk1) Hua He). eexists. do 2 f_equal.
    unfold writable. rewrite <- pte_flags_bit by lia. by rewrite Hef. }
  assert (E12 : uedit (seg_of root ph) tags hs t tags1 t2).
  { eapply uedit_trans; [by eapply uedit_weaken|]. eapply uedit_weaken; [|exact E2]. intros r a [-> Ha]. apply Hw.
    replace a with (p_vaddr ph + (a - p_vaddr ph)) by lia. apply Hspan. lia. }
  pose proof (uedit_kernel _ _ _ _ _ _ E12) as Hk2. destruct (seg_flags_ok nx (p_flags ph)) as (F1 & F2 & F3 & _).
  assert (Hload : ∀ t', (∀ a, span root first seg_end root a → (∃ e, translate t' root a = Some e ∧ pte_flags e = seg_flags nx (p_flags ph)) ∧
      byte_at root a t' = byte_at root a t2) → seg_loaded nx buf ph root t').
  { intros t' H. split; [intros a [H1 H2]; by apply H|]. intros k Hk. rewrite <- (Hb2 k Hk). by apply H, Hspan. }
  destruct (Z.eqb_spec (seg_flags nx (p_flags ph)) 7) as [H7|H7].
  { exists tags1. split; [done|]. split; [|by rewrite Hf2]. apply Hload. intros a Ha. split; [|done]. rewrite Ht2, H7. by apply Hd'. }
  destruct (protect_segment_ok (page_fuel first seg_end) first seg_end (seg_flags nx (p_flags ph)) tags1 hs t2 root
    (ue_iso _ _ _ _ _ _ E12) Hr1 ltac:(by rewrite Hk2) F1 F2 M1 M2 G2 Hfuel) as (t3 & -> & E3 & Hf3 & Hd3).
  { intros a Ha. split; [by apply G8, Hsv|]. rewrite Ht2. by apply Hd'. }
  exists tags1. split; [|split; [|by rewrite Hf3, Hf2]].
  { eapply uedit_trans; [exact E12|]. exact (uedit_weaken _ _ _ _ _ _ _ Hw E3). }
  apply Hload. by rewrite <- F3.
Qed.
End Segment.
