(* ===== verification/ElfLoad.v ===== *)
(** The program loader on well-formed files (definitions in [Elf]): what the address space
    of a program holds once its file is loaded, and a file for which the loader faults. *)

From S2P Require Import Prelude Bitmap Pmm Paging PagingSpec PagingDestroy PagingIso PagingClone PagingSys UserCopy UserMem Elf.

(** ** Well-formed files *)
Section Program.
Context (buf : list Z).

Definition e_phoff : Z := le_num (slice 32 8 buf).
Definition e_phnum : Z := le_num (slice 56 2 buf).
Definition e_entry : Z := le_num (slice 24 8 buf).
Definition header (i : Z) : phdr := phdr64 (e_phoff + i * 56) buf.

(** The headers of segments to load. *)
Definition to_load (i : Z) : Prop := 0 ≤ i < e_phnum ∧ p_type (header i) = 1.
Definition stack_va (a : Z) : Prop := USER_STACK_TOP - USER_STACK_SIZE ≤ a < USER_STACK_TOP.

(** An ELF file of 64-bit class with its table of headers inside it. *)
Record good_file : Prop := {
  gf_bytes : Forall (λ b, 0 ≤ b < 256) buf;
  gf_size : 64 ≤ zlength buf;
  gf_magic : starts_with [0x7F; 69; 76; 70] buf = Some true;
  gf_class : elf_field 4 1 buf = Some ELFCLASS64;
  gf_table : e_phoff + e_phnum * 56 ≤ zlength buf
}.

(** The segments of the first [n] headers are well formed and share no page. *)
Record good_segments (n : Z) : Prop := {
  gp_segment : ∀ i, to_load i → i < n → good_segment buf (header i);
  gp_apart : ∀ i j a, to_load i → to_load j → i < j < n → seg_va (header i) a → ¬ seg_va (header j) a
}.

(** No segment is on a page of the stack. *)
Definition clear_of_stack : Prop := ∀ i a, to_load i → seg_va (header i) a → ¬ stack_va a.

(** The addresses of the first [n] segments, and of the whole image. *)
Definition segments (root n r a : Z) : Prop := r = root ∧ ∃ i, to_load i ∧ i < n ∧ seg_va (header i) a.
Definition image (root r a : Z) : Prop := segments root e_phnum r a ∨ r = root ∧ stack_va a.

(** Pages of the segments. *)
Definition load_pages (i : Z) : Z := if p_type (header i) =? 1 then seg_pages (header i) else 0.
Definition pages_upto (n : Z) : Z := foldr Z.add 0 (load_pages <$> seqZ 0 n).
End Program.

(** A file the loader loads. *)
Definition good_program (buf : list Z) : Prop := good_file buf ∧ good_segments buf (e_phnum buf) ∧ clear_of_stack buf.

(** What the loader turns away before it maps anything: no file or no memory for it, a file
    that does not start with the magic number, one of another class, and one of 64-bit class
    whose table of headers is not in it. *)
Definition turned_away (mem_ok : bool) (buf : list Z) : Prop :=
  zlength buf = 0 ∨ mem_ok = false ∨ starts_with [0x7F; 69; 76; 70] buf = Some false ∨
  (starts_with [0x7F; 69; 76; 70] buf = Some true ∧
   ((∃ c, elf_field 4 1 buf = Some c ∧ c ≠ ELFCLASS64 ∧ c ≠ ELFCLASS32) ∨
    (elf_field 4 1 buf = Some ELFCLASS64 ∧ 58 ≤ zlength buf ∧
       (zlength buf < e_phoff buf ∨ zlength buf < e_phoff buf + e_phnum buf * 56)))).

Definition stack_ready (nx : bool) (root : Z) t : Prop :=
  ∀ a, stack_va a → (∃ e, translate t root a = Some e ∧ pte_flags e = paging_user_rw_nx nx) ∧ byte_at root a t = Some 0.

Lemma le_num_nonneg l : Forall (λ b, 0 ≤ b < 256) l → 0 ≤ le_num l.
Proof. induction 1; cbn [le_num]; lia. Qed.

Lemma slice_forall (P : Z → Prop) off n l : Forall P l → Forall P (slice off n l).
Proof. intros H. unfold slice. by apply Forall_take, Forall_drop. Qed.

Lemma sum_app l k : foldr Z.add 0 (l ++ k) = foldr Z.add 0 l + foldr Z.add 0 k.
Proof. induction l as [|x l IH]; [done|]. cbn [app foldr]. lia. Qed.

Lemma load_pages_nonneg buf i : 0 ≤ load_pages buf i.
Proof. unfold load_pages, seg_pages, npages. destruct (_ =? _); lia. Qed.

Lemma pages_upto_next buf n : 0 ≤ n → pages_upto buf (n + 1) = pages_upto buf n + load_pages buf n.
Proof.
  intros Hn. unfold pages_upto. rewrite seqZ_app by lia. rewrite fmap_app, sum_app, Z.add_0_l.
  change (seqZ n 1) with [n]. cbn [fmap list_fmap foldr]. lia.
Qed.

Lemma pages_upto_mono buf m n : 0 ≤ m ≤ n → pages_upto buf m ≤ pages_upto buf n.
Proof.
  intros Hm. replace n with (m + Z.of_nat (Z.to_nat (n - m))) by lia. induction (Z.to_nat (n - m)) as [|k IH].
  - by rewrite Z.add_0_r.
  - replace (m + Z.of_nat (S k)) with (m + Z.of_nat k + 1) by lia. rewrite pages_upto_next by lia.
    pose proof (load_pages_nonneg buf (m + Z.of_nat k)). lia.
Qed.

(** An image is kept by changes elsewhere. *)
Lemma seg_loaded_kept P tags hs t tags' t' nx buf ph root :
  uedit P tags hs t tags' t' → is_root tags root → root ≠ kernel_pml4_phys t → good_segment buf ph →
  (∀ a, seg_va ph a → ¬ P root a) → seg_loaded nx buf ph root t → seg_loaded nx buf ph root t'.
Proof.
  intros E Hr Hne Hg Hn [H1 H2]. split.
  - intros a Ha. rewrite (ue_trans _ _ _ _ _ _ E); [by apply H1|done|by apply (gs_user _ _ Hg)|by apply Hn].
  - intros k Hk. rewrite <- (H2 k Hk). pose proof (seg_bytes ph k (proj1 (gs_range _ _ Hg)) (proj2 (gs_range _ _ Hg)) Hk) as Hs.
    apply (ue_bytes _ _ _ _ _ _ E); [done|done|by apply (gs_user _ _ Hg)|by apply Hn|]. by destruct (H1 _ Hs) as (e & -> & _).
Qed.

Section Load.
Context (tags : gmap Z tag) (hs : gset Z) (t : vmm) (root : Z) (nx : bool) (buf : list Z).
Context (Hi : iso tags hs t) (Hr : is_root tags root) (Hne : root ≠ kernel_pml4_phys t) (Hcr : vmm_read_cr3 t = root).
Context (n : Z) (Hgf : good_file buf) (Hg : good_segments buf n) (Hnn : n ≤ e_phnum buf).
Context (Hfresh : ∀ a, user_va a → translate t root a = None).

(** The loop over the headers. *)
Definition loaded_upto (m : Z) t' : Prop :=
  ∃ tags', uedit (segments buf root m) tags hs t tags' t' ∧ (∀ i, to_load buf i → i < m → seg_loaded nx buf (header buf i) root t') ∧
    used_pages (frames t') ≤ used_pages (frames t) + 4 * pages_upto buf m.

Definition ran_short (P : Z → Z → Prop) (m : Z) (e : elf_exit) : Prop :=
  match e with
  | Ret t' => total_pages (frames t) ≤ used_pages (frames t) + 4 * m ∧ ∃ tags', uedit P tags hs t tags' t'
  | _ => False
  end.

Lemma segments_mono m k r a : m ≤ k → segments buf root m r a → segments buf root k r a.
Proof. intros Hm (-> & i & Hl & Hi1 & Ha). split; [done|]. exists i. split; [done|]. split; [lia|done]. Qed.

Lemma load_step j t' :
  0 ≤ j < n → loaded_upto j t' →
  match load_segment64 nx buf (header buf j) root t' with
  | inl e => ran_short (segments buf root n) (pages_upto buf n) e
  | inr t'' => loaded_upto (j + 1) t''
  end.
Proof.
  intros Hj (tags1 & E & Hl & Hu). pose proof (pages_upto_next buf j ltac:(lia)) as Hpn.
  pose proof (load_pages_nonneg buf j) as Hp0. pose proof (pages_upto_mono buf (j + 1) n ltac:(lia)) as Hpm.
  destruct (decide (p_type (header buf j) = 1)) as [Ht|Ht].
  2: { unfold load_segment64. destruct (Z.eqb_spec (p_type (header buf j)) 1) as [|_]; [done|]. cbn [negb]. exists tags1.
       split; [eapply uedit_weaken; [|exact E]; intros r a; apply segments_mono; lia|]. split; [|lia]. intros i Hi1 Hij.
       apply Hl; [done|]. assert (i ≠ j) by (intros ->; by destruct Hi1). lia. }
  assert (Hlj : to_load buf j) by (split; [lia|done]). pose proof (gp_segment _ _ Hg j Hlj ltac:(lia)) as Hgj.
  pose proof (uedit_root _ _ _ _ _ _ _ E Hr) as Hr1. pose proof (uedit_kernel _ _ _ _ _ _ E) as Hk1.
  assert (Hpages : load_pages buf j = seg_pages (header buf j)) by (unfold load_pages; by rewrite Ht).
  pose proof (load_segment_ok tags1 hs t' root nx buf (header buf j) (ue_iso _ _ _ _ _ _ E) Hr1 ltac:(by rewrite Hk1)
    ltac:(by rewrite (uedit_cr3 _ _ _ _ _ _ E)) Hgj Ht) as Hs.
  lapply Hs; [clear Hs; intros Hs|].
  2: { intros a Ha. pose proof (gs_user _ _ Hgj a Ha) as Hua. rewrite (ue_trans _ _ _ _ _ _ E); [by apply Hfresh|done|apply Hua|].
       intros (_ & i & Hi1 & Hij & Ha'). apply (gp_apart _ _ Hg i j a Hi1 Hlj); [lia|done|done]. }
  assert (Hw : ∀ k r a, j < k → seg_of root (header buf j) r a → segments buf root k r a).
  { intros k r a Hk [-> Ha]. split; [done|]. by exists j. }
  destruct (load_segment64 nx buf (header buf j) root t') as [[t''| | |]|t'']; [|done|done|done|].
  - destruct Hs as (Hf & tags2 & E2). rewrite (ue_total _ _ _ _ _ _ E) in Hf. split; [lia|]. exists tags2.
    eapply uedit_trans; (eapply uedit_weaken; [|eassumption]); intros r a; [apply segments_mono; lia|apply Hw; lia].
  - destruct Hs as (tags2 & E2 & Hld & Hu2). exists tags2. split; [|split; [|lia]].
    { eapply uedit_trans; (eapply uedit_weaken; [|eassumption]); intros r a; [apply segments_mono; lia|apply Hw; lia]. }
    intros i Hi1 Hij. destruct (decide (i = j)) as [->|Hnj]; [done|].
    apply (seg_loaded_kept _ _ _ _ _ _ nx buf _ root E2 Hr1); [by rewrite Hk1|apply (gp_segment _ _ Hg); [done|lia]| |apply Hl; [done|lia]].
    intros a Ha [_ Ha']. apply (gp_apart _ _ Hg i j a); [done|done|lia|done|done].
Qed.

Lemma load_start : loaded_upto 0 t.
Proof.
  exists tags. split; [by apply uedit_refl|]. split; [intros i [? _] ?; lia|]. change (pages_upto buf 0) with 0. lia.
Qed.
End Load.

(** ** The stack *)
Definition on_stack (root r a : Z) : Prop := r = root ∧ stack_va a.

Lemma stack_user a : stack_va a → user_va a.
Proof.
  intros Ha. unfold stack_va, USER_STACK_TOP, USER_STACK_SIZE in Ha. split; [lia|]. unfold kz_shm_va_excluded, KZ_SHM_BASE.
  destruct (Z.leb_spec 0x50000000 a); [lia|done].
Qed.

Lemma stack_flags_ok nx :
  flags_ok (paging_user_rw_nx nx) ∧ present (paging_user_rw_nx nx) = true ∧ pte_flags (paging_user_rw_nx nx) = paging_user_rw_nx nx.
Proof. destruct nx; vm_compute; by split_and!. Qed.

Section Stack.
Context (tags : gmap Z tag) (hs : gset Z) (t : vmm) (root : Z) (nx : bool).
Context (Hi : iso tags hs t) (Hr : is_root tags root) (Hne : root ≠ kernel_pml4_phys t).

Let bottom := USER_STACK_TOP - USER_STACK_SIZE.

(** The first [j] pages of the stack are there. *)
Definition stacked (j : Z) t' : Prop :=
  ∃ tags', uedit (on_stack root) tags hs t tags' t' ∧ used_pages (frames t') ≤ used_pages (frames t) + 4 * j ∧
    ∀ a, bottom ≤ a < bottom + j * 4096 →
      (∃ e, translate t' root a = Some e ∧ pte_flags e = paging_user_rw_nx nx) ∧ byte_at root a t' = Some 0.

Lemma stack_step j t' : 0 ≤ j < 64 → stacked j t' →
  match map_zeroed (bottom + j * 4096) (paging_user_rw_nx nx) root t' with
  | (true, t'') => stacked (j + 1) t''
  | (false, t'') => total_pages (frames t) ≤ used_pages (frames t) + 256 ∧ ∃ tags', uedit (on_stack root) tags hs t tags' t''
  end.
Proof.
  intros Hj (tags1 & E & Hu & Hd). set (va := bottom + j * 4096).
  assert (Hb : bottom = 0xBFC0 * 4096) by done.
  assert (Hon : ∀ r a, on_page root va r a → on_stack root r a).
  { intros r a [-> Ha]. split; [done|]. unfold stack_va. change (_ - _) with bottom. unfold USER_STACK_TOP. zdiv. }
  assert (Hin : ∀ a, bottom ≤ a < bottom + 64 * 4096 → stack_va a).
  { intros a Ha. unfold stack_va. change (_ - _) with bottom. unfold USER_STACK_TOP. lia. }
  pose proof (uedit_root _ _ _ _ _ _ _ E Hr) as Hr1. pose proof (uedit_kernel _ _ _ _ _ _ E) as Hk1.
  destruct (stack_flags_ok nx) as (F1 & F2 & F3). assert (Hv : user_va va) by (apply stack_user, Hin; lia).
  pose proof (map_zeroed_ok tags1 hs t' root va (ue_iso _ _ _ _ _ _ E) Hr1 ltac:(by rewrite Hk1) Hv _ F1 F2) as Hz.
  destruct (map_zeroed va _ root t') as [ok t2].
  destruct Hz as [(-> & Hu2 & tags2 & e & E2 & Htr & Hef & Hzero)|(-> & Hfull & tags2 & E2)].
  2: { rewrite (ue_total _ _ _ _ _ _ E) in Hfull. split; [lia|]. exists tags2. eapply uedit_trans; [exact E|].
       eapply uedit_weaken; [|exact E2]. by intros ? ? []. }
  exists tags2. split; [eapply uedit_trans; [exact E|]; eapply uedit_weaken; [|exact E2]; done|]. split; [lia|]. intros a Ha.
  destruct (decide (a / 4096 = va / 4096)) as [Hp|Hp].
  - split; [|by apply Hzero]. exists e. by rewrite (translate_page t2 root va a Hp), Hef, F3.
  - assert (Hlt : a < bottom + j * 4096) by zdiv. destruct (Hd a ltac:(lia)) as [(ea & Hea & Hfa) Hba].
    assert (Hua : user_va a) by (apply stack_user, Hin; lia). assert (Hnp : ¬ on_page root va root a) by (by intros [_ ?]). split.
    + exists ea. split; [|done]. by rewrite (ue_trans _ _ _ _ _ _ E2) by (done || apply Hua).
    + rewrite <- Hba. apply (ue_bytes _ _ _ _ _ _ E2); [done|by rewrite Hk1|done|done|by rewrite Hea].
Qed.

Lemma map_stack_ok :
  match map_stack nx root t with
  | inr t' => ∃ tags', uedit (on_stack root) tags hs t tags' t' ∧ stack_ready nx root t'
  | inl t' => total_pages (frames t) ≤ used_pages (frames t) + 256 ∧ ∃ tags', uedit (on_stack root) tags hs t tags' t'
  end.
Proof.
  unfold map_stack. change (USER_STACK_SIZE / 4096) with 64.
  match goal with |- context [for_range 0 64 ?b t] =>
    pose proof (for_range_rule stacked (λ t', total_pages (frames t) ≤ used_pages (frames t) + 256 ∧
      ∃ tags', uedit (on_stack root) tags hs t tags' t') 0 64 b t) as H end.
  lapply H; [clear H; intros H; lapply H; [clear H; intros H|]|].
  - match goal with |- context [for_range 0 64 ?b t] => destruct (for_range 0 64 b t) as [t'|t'] end; [exact H|].
    destruct H as (tags' & E & _ & Hd). exists tags'. split; [exact E|]. intros a Ha. apply Hd. exact Ha.
  - intros j t' Hj Hst. pose proof (stack_step j t' Hj Hst) as Hs. fold bottom. by destruct (map_zeroed _ _ _ _) as [[] t''].
  - exists tags. split; [by apply uedit_refl|]. split; [lia|]. intros a Ha. lia.
Qed.
End Stack.

(** ** The file *)
Lemma load_file_eq nx file freed name want root t :
  good_file (file (elf_path name)) → root ≠ PHYS_NULL →
  elf_load_file nx true file freed name want root t =
  let buf := file (elf_path name) in
  match for_range 0 (e_phnum buf) (λ i t, load_segment64 nx buf (header buf i) root t) t with
  | inl e => inl e
  | inr t => if negb want then inr (e_entry buf, 0, t) else
             match map_stack nx root t with inl t => inl (Ret t) | inr t => inr (e_entry buf, USER_STACK_TOP, t) end
  end.
Proof.
  intros Hg Hn. unfold elf_load_file. set (buf := file (elf_path name)) in *. destruct Hg as [G1 G2 G3 G4 G5].
  destruct (Z.eqb_spec (zlength buf) 0) as [|_]; [lia|]. rewrite G3, G4. cbn [negb Z.eqb ELFCLASS64]. unfold load64.
  destruct (Z.eqb_spec root PHYS_NULL) as [|_]; [done|]. unfold elf_field. destruct (Z.leb_spec (32 + 8) (zlength buf)) as [_|]; [|lia].
  destruct (Z.leb_spec (56 + 2) (zlength buf)) as [_|]; [|lia].
  assert (H1 : 0 ≤ e_phnum buf) by (by apply le_num_nonneg, slice_forall).
  change (le_num (slice 32 8 buf)) with (e_phoff buf). change (le_num (slice 56 2 buf)) with (e_phnum buf).
  destruct (Z.ltb_spec (zlength buf) (e_phoff buf)) as [|_]; [lia|].
  destruct (Z.ltb_spec (zlength buf - e_phoff buf) (e_phnum buf * 56)) as [|_]; [lia|]. done.
Qed.

Lemma load_away nx mem_ok file freed name want root t :
  turned_away mem_ok (file (elf_path name)) → elf_load_file nx mem_ok file freed name want root t = inl (Ret t).
Proof.
  unfold elf_load_file, turned_away. set (buf := file (elf_path name)). destruct (Z.eqb_spec (zlength buf) 0) as [|Hl]; [done|].
  destruct mem_ok; [cbn [negb]|done]. intros [?|[?|[->|(-> & [(c & -> & H1 & H2)|(-> & H1 & H2)])]]]; try done.
  - by rewrite (proj2 (Z.eqb_neq _ _) H1), (proj2 (Z.eqb_neq _ _) H2).
  - cbn [Z.eqb ELFCLASS64 Pos.eqb]. unfold load64, elf_field. destruct (root =? PHYS_NULL); [done|].
    destruct (Z.leb_spec (32 + 8) (zlength buf)) as [_|]; [|lia]. destruct (Z.leb_spec (56 + 2) (zlength buf)) as [_|]; [|lia].
    change (le_num (slice 32 8 buf)) with (e_phoff buf). change (le_num (slice 56 2 buf)) with (e_phnum buf).
    destruct (Z.ltb_spec (zlength buf) (e_phoff buf)); [done|].
    destruct (Z.ltb_spec (zlength buf - e_phoff buf) (e_phnum buf * 56)); [done|lia].
Qed.

(** A store to a page without write access is a fault. *)
Lemma fill_faults tags hs root buf ph t e :
  iso tags hs t → is_root tags root → root ≠ kernel_pml4_phys t → vmm_read_cr3 t = root → good_segment buf ph → 0 < p_memsz ph →
  translate t root (p_vaddr ph) = Some e → writable e = false → fill_segment buf ph t = None.
Proof.
  intros Hi Hr Hne Hcr [[G1 G2] [G3 G4] [G5 G6] G7] Hm He Hw. unfold fill_segment.
  assert (Hv : user_va (p_vaddr ph)).
  { apply G7. replace (p_vaddr ph) with (p_vaddr ph + 0) by lia. by apply seg_bytes. }
  assert (Hst : ∀ b, store_byte (p_vaddr ph) b t = None).
  { intros b. unfold store_byte. by rewrite Hcr, (mmu_user tags hs root _ t e Hi Hr Hne Hv He), Hw. }
  rewrite (u32_id (p_filesz ph)) by lia. pose proof (zlength_slice (p_offset ph) (p_filesz ph) buf ltac:(lia) ltac:(lia) G6) as Hl.
  destruct (slice (p_offset ph) (p_filesz ph) buf) as [|b l]; cbn [write_bytes]; [|by rewrite Hst].
  change (zlength (@nil Z)) with 0 in Hl. destruct (Z.ltb_spec (p_filesz ph) (p_memsz ph)) as [_|]; [|lia].
  rewrite <- Hl, Z.sub_0_r, Z.add_0_r, u32_id, u64_id by lia. destruct (Z.to_nat (p_memsz ph)) eqn:En; [lia|].
  cbn [replicate write_bytes]. by rewrite Hst.
Qed.

Lemma load_faults tags hs root nx buf ph t e :
  iso tags hs t → is_root tags root → root ≠ kernel_pml4_phys t → vmm_read_cr3 t = root → good_segment buf ph → 0 < p_memsz ph →
  p_type ph = 1 → translate t root (p_vaddr ph) = Some e → writable e = false →
  used_pages (frames t) + 4 * seg_pages ph < total_pages (frames t) → load_segment64 nx buf ph root t = inl Fault.
Proof.
  intros Hi Hr Hne Hcr Hg Hm Ht He Hw Hmem. rewrite load_segment_eq by done. cbv zeta. pose proof Hg as [[G1 G2] [[G3 G4] _] _ G7].
  destruct (seg_first buf ph Hg) as (M1 & M2 & Hfuel). unfold seg_pages in Hmem.
  set (first := page_down (p_vaddr ph)) in *. set (seg_end := p_vaddr ph + p_memsz ph) in *.
  pose proof (map_segment_ok (page_fuel first seg_end) first seg_end tags hs t root Hi Hr Hne M1 M2 G2 Hfuel) as Hp.
  lapply Hp; [clear Hp; intros Hp|intros a (_ & H1 & H2); apply G7; by split].
  destruct (map_segment _ first seg_end root t) as [[t1| | |]|t1]; [lia|done|done|done|].
  destruct Hp as (tags1 & E & _ & _). pose proof (uedit_kernel _ _ _ _ _ _ E) as Hk1.
  rewrite (fill_faults tags1 hs root buf ph t1 e (ue_iso _ _ _ _ _ _ E)); try done.
  - by apply (uedit_root _ _ _ _ _ _ _ E).
  - by rewrite Hk1.
  - by rewrite (uedit_cr3 _ _ _ _ _ _ E).
  - rewrite (ue_trans _ _ _ _ _ _ E); [done|done|lia|]. intros [_ Hn]. congruence.
Qed.

(** What the loader leaves. *)
Definition image_result (nx : bool) (buf : list Z) (root : Z) (tags : gmap Z tag) (hs : gset Z) t (r : elf_exit + Z * Z * vmm) : Prop :=
  match r with
  | inr (entry, top, t') =>
      entry = e_entry buf ∧ top = USER_STACK_TOP ∧ (∃ tags', uedit (image buf root) tags hs t tags' t') ∧
      (∀ i, to_load buf i → seg_loaded nx buf (header buf i) root t') ∧ stack_ready nx root t'
  | inl (Ret t') =>
      total_pages (frames t) ≤ used_pages (frames t) + 4 * (pages_upto buf (e_phnum buf) + 64) ∧
      ∃ tags', uedit (image buf root) tags hs t tags' t'
  | inl _ => False
  end.

Lemma load_image_ok tags hs t root nx file freed name :
  iso tags hs t → is_root tags root → root ≠ kernel_pml4_phys t → vmm_read_cr3 t = root →
  good_file (file (elf_path name)) → good_segments (file (elf_path name)) (e_phnum (file (elf_path name))) →
  clear_of_stack (file (elf_path name)) → (∀ a, user_va a → translate t root a = None) →
  image_result nx (file (elf_path name)) root tags hs t (elf_load_file nx true file freed name true root t).
Proof.
  intros Hi Hr Hne Hcr Hf Hg Hs Hfresh.
  pose proof (root_not_null tags hs t root Hi Hr) as Hnn. apply Z.eqb_neq in Hnn.
  unfold image_result. rewrite load_file_eq by done. cbv zeta. set (buf := file (elf_path name)) in *.
  assert (Hn : 0 ≤ e_phnum buf) by apply le_num_nonneg, slice_forall, Hf.
  pose proof (for_range_rule (loaded_upto tags hs t root nx buf) (ran_short tags hs t (segments buf root (e_phnum buf)) (pages_upto buf (e_phnum buf)))
    0 (e_phnum buf) (λ i t, load_segment64 nx buf (header buf i) root t) t (load_start tags hs t root nx buf Hi)
    (load_step tags hs t root nx buf Hr Hne Hcr (e_phnum buf) Hg ltac:(lia) Hfresh)) as H.
  rewrite Z.max_r in H by done. destruct (for_range _ _ _ t) as [[t1| | |]|t1]; [|done|done|done|]; cbn [negb].
  { destruct H as (Hfull & tags1 & E). split; [lia|]. exists tags1. eapply uedit_weaken; [|exact E]. by left. }
  destruct H as (tags1 & E & Hl & Hu). pose proof (uedit_root _ _ _ _ _ _ _ E Hr) as Hr1. pose proof (uedit_kernel _ _ _ _ _ _ E) as Hk1.
  assert (E' : uedit (image buf root) tags hs t tags1 t1) by (eapply uedit_weaken; [|exact E]; by left).
  pose proof (map_stack_ok tags1 hs t1 root nx (ue_iso _ _ _ _ _ _ E) Hr1 ltac:(by rewrite Hk1)) as Hst.
  destruct (map_stack nx root t1) as [t2|t2].
  - destruct Hst as (Hfull & tags2 & E2). rewrite (ue_total _ _ _ _ _ _ E) in Hfull. split; [lia|]. exists tags2.
    eapply uedit_trans; [exact E'|]. eapply uedit_weaken; [|exact E2]. by right.
  - destruct Hst as (tags2 & E2 & Hrdy). split; [done|]. split; [done|]. split.
    { exists tags2. eapply uedit_trans; [exact E'|]. eapply uedit_weaken; [|exact E2]. by right. }
    split; [|done]. intros i Hi1. pose proof (gp_segment _ _ Hg i Hi1 ltac:(apply Hi1)) as Hgi.
    apply (seg_loaded_kept _ _ _ _ _ _ nx buf _ root E2 Hr1); [by rewrite Hk1|done| |apply Hl; [done|apply Hi1]].
    intros a Ha [_ Hsa]. by apply (Hs i a).
Qed.

(** ** A concrete program *)
Definition demo_phdr (flags off va filesz memsz : Z) : list Z :=
  le_bytes 4 1 ++ le_bytes 4 flags ++ le_bytes 8 off ++ le_bytes 8 va ++ le_bytes 8 va ++ le_bytes 8 filesz ++ le_bytes 8 memsz ++
  le_bytes 8 4096.

(** Headers, then six bytes of code and data. *)
Definition demo_elf (phs : list (list Z)) : list Z :=
  [0x7F; 69; 76; 70; 2; 1; 1; 0] ++ le_bytes 8 0 ++ le_bytes 2 2 ++ le_bytes 2 0x3E ++ le_bytes 4 1 ++ le_bytes 8 0x400010 ++
  le_bytes 8 64 ++ le_bytes 8 0 ++ le_bytes 4 0 ++ le_bytes 2 64 ++ le_bytes 2 56 ++ le_bytes 2 (zlength phs) ++ le_bytes 6 0 ++
  concat phs ++ [1; 2; 3; 4; 5; 6].

(** A machine with a new address space in use. *)
Lemma demo_fresh :
  ∃ t r tags, iso tags ∅ t ∧ is_root tags r ∧ r ≠ kernel_pml4_phys t ∧ vmm_read_cr3 t = r ∧
    used_pages (frames t) + 700 ≤ total_pages (frames t) ∧ ∀ a, user_va a → translate t r a = None.
Proof.
  destruct demo_space as (t & tags & r & t1 & tags1 & Hin & Hi & Hc & Hnn & Hi1 & Hr & Hk & Hu & _). clear Hin.
  pose proof (create_ok tags t (is_vm _ _ _ Hi) (is_kroot _ _ _ Hi) (is_current _ _ _ Hi)) as C. rewrite Hc in C.
  destruct C as [(? & _)|[_ C]]; [done|]. destruct (cr_frame _ _ _ _ C) as ([Hf0 Hfm] & _).
  exists (set_cr3 r t1), r, tags1. split; [by apply iso_cr3|]. split; [done|]. split; [done|].
  split; [unfold vmm_read_cr3; cbn [cr3 set_cr3]; rewrite next_table_eq by lia; zdiv|]. split; [done|].
  intros a [Ha _]. exact (created_lower tags t r t1 a C (user_index a Ha)).
Qed.

(** The file with one segment of three bytes and seven zeros, and the one with a segment of
    data on the page of the code. *)
Definition demo_one : list Z := demo_elf [demo_phdr 5 120 0x400010 3 10].
Definition demo_two : list Z := demo_elf [demo_phdr 5 176 0x400010 3 10; demo_phdr 6 179 0x400100 3 20].

Lemma demo_file_ok buf : buf ∈ [demo_one; demo_two] → good_file buf.
Proof.
  intros Hb. assert (H : Forall (λ b, 0 ≤ b < 256) buf ∧ starts_with [0x7F; 69; 76; 70] buf = Some true ∧
    elf_field 4 1 buf = Some ELFCLASS64 ∧ 64 ≤ zlength buf ∧ e_phoff buf + e_phnum buf * 56 ≤ zlength buf).
  { repeat (apply elem_of_cons in Hb as [->|Hb]); [| |by apply elem_of_nil in Hb]; (split; [by apply (bool_decide_unpack _); vm_compute|]);
      (split; [by vm_compute|]); (split; [by vm_compute|]); split; by vm_compute. }
  destruct H as (? & ? & ? & ? & ?). by constructor.
Qed.

Lemma demo_seg va filesz memsz off fl buf :
  0x400000 ≤ va → 0 ≤ filesz ≤ memsz → va + memsz < 0x401000 → 0 ≤ off → off + filesz ≤ zlength buf →
  good_segment buf (mkPhdr 1 fl off va filesz memsz) ∧
  ∀ a, 0 < memsz → seg_va (mkPhdr 1 fl off va filesz memsz) a ↔ 0x400000 ≤ a < 0x401000.
Proof.
  intros H1 H2 H3 H4 H5. assert (Hs : ∀ a, seg_va (mkPhdr 1 fl off va filesz memsz) a → 0x400000 ≤ a < 0x401000).
  { intros a. unfold seg_va. cbn [p_vaddr p_memsz]. rewrite page_down_eq by lia. zdiv. }
  split; [constructor; cbn [p_vaddr p_memsz p_filesz p_offset]; try lia|].
  - intros a Ha. apply Hs in Ha. split; [lia|]. unfold kz_shm_va_excluded, KZ_SHM_BASE. destruct (Z.leb_spec 0x50000000 a); [lia|done].
  - intros a Hm. split; [apply Hs|]. unfold seg_va. cbn [p_vaddr p_memsz]. rewrite page_down_eq by lia. zdiv.
Qed.

(** The headers of the two files. *)
Lemma demo_headers :
  e_phnum demo_one = 1 ∧ header demo_one 0 = mkPhdr 1 5 120 0x400010 3 10 ∧ e_phnum demo_two = 2 ∧
  header demo_two 0 = mkPhdr 1 5 176 0x400010 3 10 ∧ header demo_two 1 = mkPhdr 1 6 179 0x400100 3 20.
Proof. by vm_compute. Qed.

Lemma demo_good :
  good_segments demo_one 1 ∧ clear_of_stack demo_one ∧ good_segments demo_two 1 ∧ good_segment demo_two (header demo_two 1) ∧
  pages_upto demo_one 1 = 1 ∧ pages_upto demo_two 2 = 2.
Proof.
  destruct demo_headers as (N1 & H1 & N2 & H2 & H3).
  destruct (demo_seg 0x400010 3 10 120 5 demo_one) as [A1 B1]; [lia|lia|lia|lia|by vm_compute|].
  destruct (demo_seg 0x400010 3 10 176 5 demo_two) as [A2 _]; [lia|lia|lia|lia|by vm_compute|].
  destruct (demo_seg 0x400100 3 20 179 6 demo_two) as [A3 _]; [lia|lia|lia|lia|by vm_compute|].
  split_and!; [constructor|..|constructor| |by vm_compute|by vm_compute].
  - intros i [Hi _] Hn. replace i with 0 by lia. by rewrite H1.
  - intros i j a [Hi _] [Hj _] Hij. lia.
  - intros i a [Hi _] Ha. rewrite N1 in Hi. replace i with 0 in Ha by lia. rewrite H1, B1 in Ha by lia.
    unfold stack_va, USER_STACK_TOP, USER_STACK_SIZE. lia.
  - intros i [Hi _] Hn. replace i with 0 by lia. by rewrite H2.
  - intros i j a [Hi _] [Hj _] Hij. lia.
  - by rewrite H3.
Qed.

Lemma demo_program : good_program demo_one.
Proof. destruct demo_headers as (N1 & _). destruct demo_good as (G1 & G2 & _). split; [apply demo_file_ok; left|]. by rewrite N1. Qed.

Lemma demo_not_away : ¬ turned_away true demo_one.
Proof.
  pose proof (demo_file_ok demo_one ltac:(left)) as [_ G2 G3 G4 G5]. intros [?|[?|[H|(_ & [(c & H & H1 & _)|(_ & _ & H)])]]]; [lia|done|congruence|congruence|].
  assert (0 ≤ e_phnum demo_one) by (apply le_num_nonneg, slice_forall, (demo_file_ok demo_one); left). lia.
Qed.

(** ** Properties *)

(** Loading a program ([elf_load_file]).  For an ELF file of 64-bit class whose segments lie in
    the user half and share no page with each other or with the stack, loaded into a new address
    space that is in use, the loader never faults and never reads out of the file.  Unless
    memory is short it returns the entry point of the file and the top of the stack.  Then
    every segment is there: its bytes are those of the file, followed by zeros up to its size in
    memory, and its pages have exactly the access its flags ask for.  The pages of the stack are
    zero, writable and not executable.  Nothing else is mapped, and no other program sees a
    change, also when the loader gives up. *)
Theorem elf_load_image (tags : gmap Z tag) (hs : gset Z) (t : vmm) (root : Z) (nx : bool) (file : list Z → list Z) (freed name : list Z)
    (Hi : iso tags hs t) (Hr : is_root tags root) (Hne : root ≠ kernel_pml4_phys t) (Hcr : vmm_read_cr3 t = root)
    (Hf : good_file (file (elf_path name))) (Hg : good_segments (file (elf_path name)) (e_phnum (file (elf_path name))))
    (Hs : clear_of_stack (file (elf_path name))) (Hfresh : ∀ a, user_va a → translate t root a = None) :
  match elf_load_file nx true file freed name true root t with
  | inr (entry, top, t') =>
      entry = e_entry (file (elf_path name)) ∧ top = USER_STACK_TOP ∧
      (∃ tags', uedit (image (file (elf_path name)) root) tags hs t tags' t') ∧
      (∀ i, to_load (file (elf_path name)) i → seg_loaded nx (file (elf_path name)) (header (file (elf_path name)) i) root t') ∧
      stack_ready nx root t'
  | inl (Ret t') =>
      total_pages (frames t) ≤ used_pages (frames t) + 4 * (pages_upto (file (elf_path name)) (e_phnum (file (elf_path name))) + 64) ∧
      ∃ tags', uedit (image (file (elf_path name)) root) tags hs t tags' t'
  | inl _ => False
  end.
Proof. exact (load_image_ok tags hs t root nx file freed name Hi Hr Hne Hcr Hf Hg Hs Hfresh). Qed.

(** A program of one segment: the bytes of its code, the zeros after them, and the protection. *)
Lemma elf_load_image_witness :
  ∃ t r e t', elf_load_file true true (λ _, demo_one) [] [97] true r t = inr (0x400010, USER_STACK_TOP, t') ∧
    byte_at r 0x400011 t' = Some 2 ∧ byte_at r 0x400013 t' = Some 0 ∧ translate t' r 0x400010 = Some e ∧ writable e = false.
Proof.
  destruct demo_fresh as (t & r & tags & Hi & Hr & Hk & Hcr & Hu & Hfresh). destruct demo_headers as (N1 & H1 & _).
  destruct demo_good as (G1 & G2 & _ & _ & Hp & _).
  pose proof (elf_load_image tags ∅ t r true (λ _, demo_one) [] [97] Hi Hr Hk Hcr (demo_file_ok _ ltac:(left))
    ltac:(cbv beta; by rewrite N1) G2 Hfresh) as H. cbv beta in H. rewrite N1, Hp in H.
  destruct (elf_load_file true true (λ _, demo_one) [] [97] true r t) as [[t'| | |]|[[en top] t']] eqn:Er; [lia|done|done|done|].
  destruct H as (-> & -> & _ & Hl & _). destruct (Hl 0 ltac:(by vm_compute)) as [L1 L2]. rewrite H1 in L1, L2.
  cbn [p_flags p_vaddr p_memsz] in L1, L2. destruct (L1 0x400010 ltac:(by vm_compute)) as (e & He & Hef). exists t, r, e, t'.
  split; [exact Er|]. split; [exact (L2 1 ltac:(lia))|]. split; [exact (L2 3 ltac:(lia))|]. split; [done|].
  unfold writable. rewrite <- pte_flags_bit by lia. by rewrite Hef.
Defined.

(** C26: a page shared by two segments ([elf_load_file]).  The final protection of a segment is
    set before the next one is copied.  If a segment that is not writable and a later one share
    the page the later one starts on, the copy of the later one writes to a page without write
    access, and the kernel faults instead of returning, whatever else is in the file. *)
Theorem elf_shared_page_faults (tags : gmap Z tag) (hs : gset Z) (t : vmm) (root : Z) (nx : bool) (file : list Z → list Z) (freed name : list Z)
    (want : bool) (i j : Z) (Hi : iso tags hs t) (Hr : is_root tags root) (Hne : root ≠ kernel_pml4_phys t) (Hcr : vmm_read_cr3 t = root)
    (Hf : good_file (file (elf_path name))) (Hg : good_segments (file (elf_path name)) j)
    (Hfresh : ∀ a, user_va a → translate t root a = None)
    (Hij : i < j) (Hli : to_load (file (elf_path name)) i) (Hlj : to_load (file (elf_path name)) j)
    (Hgj : good_segment (file (elf_path name)) (header (file (elf_path name)) j)) (Hm : 0 < p_memsz (header (file (elf_path name)) j))
    (Hsh : seg_va (header (file (elf_path name)) i) (p_vaddr (header (file (elf_path name)) j)))
    (Hro : Z.testbit (p_flags (header (file (elf_path name)) i)) 1 = false)
    (Hmem : used_pages (frames t) + 4 * pages_upto (file (elf_path name)) (j + 1) < total_pages (frames t)) :
  elf_load_file nx true file freed name want root t = inl Fault.
Proof.
  pose proof (root_not_null tags hs t root Hi Hr) as Hnn. apply Z.eqb_neq in Hnn.
  rewrite load_file_eq by done. cbv zeta. set (buf := file (elf_path name)) in *. pose proof Hlj as [[Hj0 Hjn] Htj].
  pose proof (pages_upto_next buf j Hj0) as Hpn. pose proof (load_pages_nonneg buf j) as Hp0.
  assert (Hpj : load_pages buf j = seg_pages (header buf j)) by (unfold load_pages; by rewrite Htj).
  pose proof (for_range_rule (λ k t', k ≤ j ∧ loaded_upto tags hs t root nx buf k t') (λ e, e = Fault)
    0 (e_phnum buf) (λ i t, load_segment64 nx buf (header buf i) root t) t) as H.
  lapply H; [clear H; intros H|split; [done|by apply load_start]]. lapply H; [clear H; intros H|].
  { destruct (for_range _ _ _ t) as [e|t1]; [by rewrite H|]. lia. }
  intros k t' Hk [Hkj Hlo]. destruct (decide (k = j)) as [->|Hne'].
  - destruct Hlo as (tags1 & E & Hl & Hu). destruct (Hl i Hli Hij) as [L _]. destruct (L _ Hsh) as (e & He & Hef).
    rewrite (load_faults tags1 hs root nx buf (header buf j) t' e (ue_iso _ _ _ _ _ _ E)); try done.
    + by apply (uedit_root _ _ _ _ _ _ _ E).
    + by rewrite (uedit_kernel _ _ _ _ _ _ E).
    + by rewrite (uedit_cr3 _ _ _ _ _ _ E).
    + unfold writable. rewrite <- pte_flags_bit by lia. rewrite Hef, <- Hro.
      exact (proj2 (proj2 (proj2 (seg_flags_ok nx (p_flags (header buf i)))))).
    + rewrite (ue_total _ _ _ _ _ _ E). lia.
  - pose proof (load_step tags hs t root nx buf Hr Hne Hcr j Hg ltac:(lia) Hfresh k t' ltac:(lia) Hlo) as Hs.
    pose proof (pages_upto_mono buf j (j + 1) ltac:(lia)) as Hmo.
    destruct (load_segment64 nx buf (header buf k) root t') as [[t''| | |]|t'']; [|done|done|done|split; [lia|done]].
    destruct Hs as [Hfull _]. lia.
Qed.

(** Code at [0x400010] and data at [0x400100]. *)
Lemma elf_shared_page_faults_witness :
  ∃ t r, elf_load_file true true (λ _, demo_two) [] [97] true r t = inl Fault.
Proof.
  destruct demo_fresh as (t & r & tags & Hi & Hr & Hk & Hcr & Hu & Hfresh). destruct demo_headers as (_ & _ & N2 & H2 & H3).
  destruct demo_good as (_ & _ & G3 & G4 & _ & Hp). exists t, r.
  apply (elf_shared_page_faults tags ∅ t r true (λ _, demo_two) [] [97] true 0 1 Hi Hr Hk Hcr
    (demo_file_ok _ ltac:(right; left)) G3 Hfresh ltac:(lia) ltac:(by vm_compute) ltac:(by vm_compute) G4).
  - by rewrite H3.
  - rewrite H2, H3. by vm_compute.
  - by rewrite H2.
  - change (1 + 1) with 2. rewrite Hp. lia.
Defined.
