(* ===== verification/Argv.v ===== *)
(** The arguments of a program ([kernel/proc/proc.c], [include/proc.h]) and the loading of an
    image with its arguments ([exec_load_image] and [spawn_common] of
    [kernel/syscall/sys_proc.c]).

    The buffer [kargv] is a list of rows of [PROC_MAX_ARG_LEN] bytes.  The results that C
    writes through pointers are part of the result, and those pointers are not null.  [None]
    is a fault of the kernel. *)

From S2P Require Import Prelude Bitmap Pmm Paging PagingSpec PagingDestroy PagingIso PagingClone PagingSys UserCopy UserMem Elf ElfLoad.

Definition PROC_MAX_ARGC : Z := 16.
Definition PROC_MAX_ARG_LEN : Z := 64.
Definition PROC_ARG_TOTAL_MAX : Z := 512.

Definition proc_argc_valid (argc : Z) : bool := (1 <=? argc) && (argc <=? PROC_MAX_ARGC).
Definition proc_arg_len_valid (len_incl_nul : Z) : bool := (1 <=? len_incl_nul) && (len_incl_nul <=? PROC_MAX_ARG_LEN).
Definition proc_arg_total_valid (total : Z) : bool := (1 <=? total) && (total <=? PROC_ARG_TOTAL_MAX).

(** The part of a path after its last slash, with its terminator; [out] has [cap] bytes. *)
Definition base_of (path : list Z) : list Z :=
  foldl (λ base c, if c =? 47 then [] else base ++ [c]) [] path.

Definition proc_basename (path : option (list Z)) (cap : Z) : list Z :=
  if cap =? 0 then [] else
  match path with
  | None => [0]
  | Some path => take (Z.to_nat (Z.min (cap - 1) (PROC_MAX_ARG_LEN - 1))) (base_of path) ++ [0]
  end.

Definition row (kargv : list (list Z)) (i : Z) : list Z := default [] (kargv !! Z.to_nat i).

(** The length of the string in a row, if it ends there. *)
Definition arg_len (r : list Z) : option Z :=
  match for_range 0 PROC_MAX_ARG_LEN (λ l (_ : unit), if lget r l =? 0 then inl l else inr ()) () with
  | inl l => Some l
  | inr _ => None
  end.

(** The sum of the lengths with one more string of length [n]. *)
Definition count_arg (n total : Z) : option Z :=
  let incl := u32 (n + 1) in
  if negb (proc_arg_len_valid incl) then None else
  if u32 (total + incl) <? total then None else
  let total := u32 (total + incl) in
  if negb (proc_arg_total_valid total) then None else Some total.

(** One argument: [inl None] is a fault and [inl (Some kargv)] the result -1. *)
Definition copy_in_arg (uc : ucopy_ctx) (uptr i : Z) (s : Z * list (list Z)) t : option (list (list Z)) + Z * list (list Z) :=
  let '(total, kargv) := s in
  if uptr =? 0 then inl (Some kargv) else
  match strncpy_from_user uc uptr PROC_MAX_ARG_LEN t with
  | None => inl None
  | Some (n, kdst) =>
      let kargv := <[Z.to_nat i := splice (row kargv i) 0 kdst]> kargv in
      if n <? 0 then inl (Some kargv) else
      let terminated :=
        if from_user uc then
          if n =? PROC_MAX_ARG_LEN - 1 then
            match copy_from_user uc (u64 (uptr + n)) 1 t with
            | None => None
            | Some (r, next) => Some ((r =? 0) && (lget next 0 =? 0))
            end
          else Some true
        else Some (bool_decide (is_Some (arg_len (row kargv i)))) in
      match terminated with
      | None => inl None
      | Some false => inl (Some kargv)
      | Some true =>
          match count_arg n total with
          | None => inl (Some kargv)
          | Some total => inr (total, kargv)
          end
      end
  end.

(** The status, [*total_out] and the buffer. *)
Definition proc_copy_in_argv (uc : ucopy_ctx) (u_argv argc : Z) (kargv : list (list Z)) t : option (Z * Z * list (list Z)) :=
  if negb (proc_argc_valid argc) then Some (-1, 0, kargv) else
  if u_argv =? 0 then Some (-1, 0, kargv) else
  let ptr_bytes := argc * 8 in
  if PROC_MAX_ARGC * 8 <? ptr_bytes then Some (-1, 0, kargv) else
  match copy_from_user uc u_argv ptr_bytes t with
  | None => None
  | Some (r, uptrs) =>
      if negb (r =? 0) then Some (-1, 0, kargv) else
      match for_range 0 argc (λ i s, copy_in_arg uc (le_num (slice (8 * i) 8 uptrs)) i s t) (0, kargv) with
      | inl None => None
      | inl (Some kargv) => Some (-1, 0, kargv)
      | inr (total, kargv) => Some (0, total, kargv)
      end
  end.

(** The lengths with terminators and their sum. *)
Definition build_lens (argc : Z) (kargv : list (list Z)) : option (list Z * Z) :=
  match for_range 0 argc (λ i s,
      match arg_len (row kargv i) with
      | None => inl ()
      | Some l =>
          let total := u32 (s.2 + (l + 1)) in
          if negb (proc_arg_total_valid total) then inl () else inr (s.1 ++ [l + 1], total)
      end) ([], 0) with
  | inl _ => None
  | inr s => Some s
  end.

Definition write_args (argc argv_u str_u : Z) (lens : list Z) (kargv : list (list Z)) t : option vmm :=
  match for_range 0 argc (λ i s,
      match write_bytes (le_bytes 8 s.1) (u64 (argv_u + i * 8)) s.2 with
      | None => inl ()
      | Some t =>
          match write_bytes (take (Z.to_nat (lget lens i)) (row kargv i)) s.1 t with
          | None => inl ()
          | Some t => inr (u64 (s.1 + lget lens i), t)
          end
      end) (str_u, t) with
  | inl _ => None
  | inr s => write_bytes (le_bytes 8 0) (u64 (argv_u + argc * 8)) s.2
  end.

(** The status, [*stack_top_inout] and [*argv_out]. *)
Definition proc_build_argv (stack_top argc : Z) (kargv : list (list Z)) (argv_out : Z) t : option (Z * Z * Z * vmm) :=
  if negb (proc_argc_valid argc) then Some (-1, stack_top, argv_out, t) else
  let old_top := stack_top in
  if old_top =? 0 then Some (-1, stack_top, argv_out, t) else
  match build_lens argc kargv with
  | None => Some (-1, stack_top, argv_out, t)
  | Some (lens, total) =>
      let need := (argc + 1) * 8 + total in
      if PROC_ARG_TOTAL_MAX + 136 <? need then Some (-1, stack_top, argv_out, t) else
      let base := u64 (Z.land (u64 (old_top - need)) (u64 (Z.lnot 15)) - 8) in
      if old_top <=? base then Some (-1, stack_top, argv_out, t) else
      if (base <? USER_STACK_TOP - USER_STACK_SIZE) || (USER_STACK_TOP <? old_top) then Some (-1, stack_top, argv_out, t) else
      match write_args argc base (u64 (base + (argc + 1) * 8)) lens kargv t with
      | None => None
      | Some t => Some (0, base, base, t)
      end
  end.

(** The entry point, the top of the stack, the vector of arguments, the root recorded in the
    calling task, if there is one, and the machine. *)
Definition exec_load_image (nx mem_ok : bool) (file : list Z → list Z) (freed : list Z) (self : option Z) (kfname : list Z)
    (argc : Z) (kargv : list (list Z)) (target_as : Z) t : elf_exit + Z * Z * Z * option Z * vmm :=
  if target_as =? PHYS_NULL then inr (0, 0, 0, self, t) else
  let saved_as := self in
  let saved_cr3 := vmm_read_cr3 t in
  let t := vmm_switch_pml4 target_as t in
  let finish entry stack_top argv t := inr (entry, stack_top, argv, saved_as, vmm_switch_pml4 saved_cr3 t) in
  match elf_load_file nx mem_ok file freed kfname true target_as t with
  | inl (Ret t) => finish 0 0 0 t
  | inl e => inl e
  | inr (entry, stack_top, t) =>
      if (entry =? 0) || (stack_top =? 0) then finish 0 0 0 t else
      match proc_build_argv stack_top argc kargv 0 t with
      | None => inl Fault
      | Some (status, stack_top, argv, t) =>
          if negb (status =? 0) then finish 0 0 0 t else finish entry stack_top argv t
      end
  end.

(** What the new task starts with, if there is one, the recorded root of the caller and the
    machine; [tid] is the result of [create_user_task], which does not change page tables. *)
Definition spawn_common (nx mem_ok : bool) (file : list Z → list Z) (freed : list Z) (self : option Z) (kfname : list Z)
    (argc : Z) (kargv : list (list Z)) (tid : Z) t : elf_exit + Z * option (Z * Z * Z * Z) * option Z * vmm :=
  if negb (proc_argc_valid argc) then inr (-1, None, self, t) else
  let '(child_pml4, t) := vmm_create_address_space t in
  if child_pml4 =? PHYS_NULL then inr (-1, None, self, t) else
  match exec_load_image nx mem_ok file freed self kfname argc kargv child_pml4 t with
  | inl e => inl e
  | inr (entry, child_stack_top, argv_uaddr, self, t) =>
      if negb (entry =? 0) && (0 <=? tid) then inr (tid, Some (entry, child_stack_top, child_pml4, argv_uaddr), self, t)
      else inr (-1, None, self, vmm_destroy_address_space child_pml4 true t)
  end.

(** ** Vectors of arguments *)

(** The strings one after the other with their terminators. *)
Definition flat (args : list (list Z)) : list Z := concat ((λ s, s ++ [0]) <$> args).

Definition arg_fits (s : list Z) : Prop := zlength s < PROC_MAX_ARG_LEN ∧ Forall (λ c, c ≠ 0) s.

Record args_fit (args : list (list Z)) : Prop := {
  af_count : 1 ≤ zlength args ≤ PROC_MAX_ARGC;
  af_each : Forall arg_fits args;
  af_total : zlength (flat args) ≤ PROC_ARG_TOTAL_MAX
}.

(** The rows hold the arguments. *)
Definition rows (kargv args : list (list Z)) : Prop :=
  ∀ i s, args !! i = Some s → ∃ rest, kargv !! i = Some (s ++ 0 :: rest).

(** A string of a program, readable up to its terminator. *)
Definition arg_at (root u : Z) (s : list Z) t : Prop :=
  u ≠ 0 ∧ str_reach root u (zlength s + 1) t ∧ str_bytes u s t ∧ load (u + zlength s) t = Some 0.

(** A vector of arguments of a program. *)
Definition user_args (root u_argv : Z) (args : list (list Z)) t : Prop :=
  u_argv ≠ 0 ∧ range_mapped root u_argv (8 * zlength args) t ∧
  ∀ i s, args !! i = Some s → ∃ p, zlength p = 8 ∧
    (∀ k, 0 ≤ k < 8 → load (u_argv + 8 * Z.of_nat i + k) t = Some (lget p k)) ∧ arg_at root (le_num p) s t.

Lemma flat_app l k : flat (l ++ k) = flat l ++ flat k.
Proof. unfold flat. by rewrite fmap_app, concat_app. Qed.

Lemma flat_snoc l s : zlength (flat (l ++ [s])) = zlength (flat l) + zlength s + 1.
Proof. rewrite flat_app, zlength_app. unfold flat. cbn [fmap list_fmap concat]. rewrite app_nil_r, zlength_app. unfold zlength. cbn [length]. lia. Qed.

Lemma flat_take args i : zlength (flat (take i args)) ≤ zlength (flat args).
Proof. rewrite <- (take_drop i args) at 2. rewrite flat_app, zlength_app. unfold zlength. lia. Qed.

Lemma flat_take_S args i s : args !! i = Some s → zlength (flat (take (S i) args)) = zlength (flat (take i args)) + zlength s + 1.
Proof. intros Hs. by rewrite (take_S_r _ _ _ Hs), flat_snoc. Qed.

Lemma lget_app_l l k i : 0 ≤ i < zlength l → lget (l ++ k) i = lget l i.
Proof. intros Hi. unfold lget, zlength in *. by rewrite lookup_app_l by lia. Qed.

Lemma lget_app_r l k i : zlength l ≤ i → lget (l ++ k) i = lget k (i - zlength l).
Proof. intros Hi. unfold lget, zlength in *. rewrite lookup_app_r by lia. do 2 f_equal. lia. Qed.

Lemma lget_ext l k : zlength l = zlength k → (∀ i, 0 ≤ i < zlength l → lget l i = lget k i) → l = k.
Proof.
  intros Hl Hi. apply list_eq_same_length with (length k); [done|unfold zlength in Hl; lia|]. intros i x y Hlt Hx Hy.
  specialize (Hi (Z.of_nat i) ltac:(unfold zlength in *; lia)). unfold lget in Hi. rewrite Nat2Z.id, Hx, Hy in Hi. done.
Qed.

Lemma forall_lget (P : Z → Prop) l : (∀ k, 0 ≤ k < zlength l → P (lget l k)) → Forall P l.
Proof.
  intros H. apply Forall_lookup. intros i x Hx. pose proof (lookup_lt_Some _ _ _ Hx) as Hlt.
  specialize (H (Z.of_nat i) ltac:(unfold zlength; lia)). unfold lget in H. rewrite Nat2Z.id, Hx in H. done.
Qed.

Lemma le_num_range l : Forall (λ b, 0 ≤ b < 256) l → 0 ≤ le_num l < 2 ^ (8 * zlength l).
Proof.
  induction 1 as [|b l Hb _ IH]; [done|]. replace (zlength (b :: l)) with (zlength l + 1) by (unfold zlength; cbn [length]; lia).
  cbn [le_num]. replace (8 * (zlength l + 1)) with (8 + 8 * zlength l) by lia. rewrite Z.pow_add_r by (unfold zlength; lia).
  change (2 ^ 8) with 256. lia.
Qed.

Lemma load_byte va t b : load va t = Some b → 0 ≤ b < 256.
Proof.
  unfold load, byte_at. destruct (mmu _ va t) as [[pa w]|]; [|done]. intros [= <-]. unfold get_byte, u8. zdiv.
Qed.

(** The string at an address is the only one. *)
Lemma arg_at_unique root u s s' t : arg_at root u s t → arg_at root u s' t → s = s'.
Proof.
  assert (Hle : ∀ s s', arg_at root u s t → arg_at root u s' t → zlength s' ≤ zlength s).
  { intros a b (_ & _ & _ & Ha) (_ & _ & Hb & _). destruct (Z.le_gt_cases (zlength b) (zlength a)) as [|Hlt]; [done|].
    destruct (Hb (zlength a)) as [Hl Hn]; [unfold zlength in *; lia|]. congruence. }
  intros Hs Hs'. assert (Hl : zlength s = zlength s') by (apply Z.le_antisymm; eauto). apply lget_ext; [done|]. intros i Hi.
  destruct Hs as (_ & _ & Hb & _). destruct Hs' as (_ & _ & Hb' & _).
  destruct (Hb i Hi) as [H1 _]. destruct (Hb' i ltac:(lia)) as [H2 _]. congruence.
Qed.

(** The name after the last slash. *)
Lemma proc_basename_ok dir name cap :
  47 ∉ name → 0 < cap →
  proc_basename (Some (dir ++ 47 :: name)) cap = take (Z.to_nat (Z.min (cap - 1) 63)) name ++ [0].
Proof.
  intros Hn Hc. unfold proc_basename, base_of. destruct (Z.eqb_spec cap 0) as [|_]; [lia|]. f_equal. f_equal.
  rewrite foldl_app. cbn [foldl Z.eqb Pos.eqb]. assert (H : ∀ l acc, 47 ∉ l → foldl (λ base c, if c =? 47 then [] else base ++ [c]) acc l = acc ++ l).
  { induction l as [|c l IH]; intros acc Hl; cbn [foldl]; [by rewrite app_nil_r|]. rewrite not_elem_of_cons in Hl.
    destruct (Z.eqb_spec c 47) as [->|_]; [by destruct Hl|]. rewrite IH, <- app_assoc by apply Hl. done. }
  by rewrite H.
Qed.

Lemma user_args_unique root u args args' t :
  user_args root u args t → user_args root u args' t → zlength args = zlength args' → args = args'.
Proof.
  intros (_ & _ & H) (_ & _ & H') Hl. apply list_eq_same_length with (length args'); [done|unfold zlength in Hl; lia|]. intros i x y _ Hx Hy.
  destruct (H i x Hx) as (p & P1 & P2 & P3). destruct (H' i y Hy) as (q & Q1 & Q2 & Q3).
  replace q with p in Q3; [by apply (arg_at_unique root (le_num p) _ _ t)|]. apply lget_ext; [lia|]. intros k Hk.
  pose proof (P2 k ltac:(lia)) as E1. pose proof (Q2 k ltac:(lia)) as E2. congruence.
Qed.

Lemma arg_len_ok s rest : arg_fits s → arg_len (s ++ 0 :: rest) = Some (zlength s).
Proof.
  intros [Hl Hn]. unfold arg_len.
  pose proof (for_range_rule (λ l (_ : unit), l ≤ zlength s) (λ l, l = zlength s) 0 PROC_MAX_ARG_LEN
    (λ l (_ : unit), if lget (s ++ 0 :: rest) l =? 0 then inl l else inr ()) ()) as H.
  lapply H; [clear H; intros H; lapply H; [clear H; intros H|]|unfold zlength; lia].
  - destruct (for_range _ _ _ ()) as [l|u]; [by rewrite H|]. unfold PROC_MAX_ARG_LEN in *. lia.
  - intros j _ Hj Hle. destruct (decide (j = zlength s)) as [->|Hne].
    + rewrite lget_app_r, Z.sub_diag by lia. done.
    + rewrite lget_app_l by lia. destruct (Z.eqb_spec (lget s j) 0) as [Hz|]; [|lia].
      rewrite Forall_lookup in Hn. unfold lget in Hz. destruct (s !! Z.to_nat j) as [x|] eqn:Hx; [|apply lookup_ge_None in Hx; unfold zlength in *; lia].
      cbn [default] in Hz. by destruct (Hn _ _ Hx).
Qed.

(** ** Copying in *)
Section CopyIn.
Context (tags : gmap Z tag) (ctx : ucopy_ctx) (t : vmm).
Context (Hok : vm_ok tags t) (Hr : is_root tags (pml4 ctx)) (Hcr : vmm_read_cr3 t = pml4 ctx) (Hfu : from_user ctx = true).

(** The arguments copied so far. *)
Record copied (uptr : Z → Z) (acc : list (list Z)) (s : Z * list (list Z)) : Prop := {
  cp_total : s.1 = zlength (flat acc) ∧ s.1 ≤ PROC_ARG_TOTAL_MAX;
  cp_size : zlength s.2 = PROC_MAX_ARGC ∧ Forall (λ r, zlength r = PROC_MAX_ARG_LEN) s.2;
  cp_rows : rows s.2 acc;
  cp_args : ∀ i a, acc !! i = Some a → arg_fits a ∧ arg_at (pml4 ctx) (uptr (Z.of_nat i)) a t
}.

(** The string at [u], or why there is none that fits. *)
Lemma copy_in_string u :
  0 ≤ u < 2 ^ 64 → u ≠ 0 →
  ∃ n kdst, strncpy_from_user ctx u PROC_MAX_ARG_LEN t = Some (n, kdst) ∧ zlength kdst ≤ PROC_MAX_ARG_LEN ∧
    ((n = -1 ∧ ∀ s, ¬ arg_at (pml4 ctx) u s t) ∨
     (0 ≤ n < PROC_MAX_ARG_LEN - 1 ∧ ∃ s, kdst = s ++ [0] ∧ zlength s = n ∧ arg_at (pml4 ctx) u s t) ∨
     (n = PROC_MAX_ARG_LEN - 1 ∧ ∃ s ok next, kdst = s ++ [0] ∧ zlength s = n ∧
        copy_from_user ctx (u64 (u + n)) 1 t = Some (ok, next) ∧
        if (ok =? 0) && (lget next 0 =? 0) then arg_at (pml4 ctx) u s t
        else ∀ s', zlength s' < PROC_MAX_ARG_LEN → ¬ arg_at (pml4 ctx) u s' t)).
Proof.
  intros Hu Hu0. unfold PROC_MAX_ARG_LEN. destruct (strncpy_from_user_ok tags ctx u 64 t Hok Hr Hcr Hfu Hu ltac:(lia)) as
    (n & kdst & Hc & [(Hn & s & -> & Hs & Hb & Hre & Hend)|(-> & [?|[?|(Hl & Hb & Hre)]])]); [|lia|lia|].
  2: { exists (-1), kdst. split; [done|]. split; [lia|]. left. split; [done|]. intros s (_ & H1 & H2 & H3).
       destruct (Z.le_gt_cases (zlength kdst) (zlength s)) as [Hle|Hgt].
       - apply Hre. intros k Hk. apply H1. lia.
       - destruct (Hb (zlength s)) as [H4 H5]; [unfold zlength in *; lia|]. congruence. }
  exists n, (s ++ [0]). split; [done|]. split; [rewrite zlength_app; unfold zlength at 2; cbn [length]; lia|]. right.
  destruct (decide (n < 63)) as [Hlt|Hge].
  { left. split; [lia|]. exists s. split; [done|]. split; [done|]. destruct Hend as [?|[H0 H1]]; [lia|]. rewrite <- Hs in H0, H1. done. }
  right. assert (n = 63) as -> by lia. split; [done|]. destruct (Hre 62 ltac:(lia)) as [Hmax _].
  unfold UC_USER_VA_MAX in Hmax. rewrite u64_id by lia.
  assert (Hlong : ∀ s', zlength s' < 64 → arg_at (pml4 ctx) u s' t → zlength s' = 63).
  { intros s' Hl (_ & _ & _ & H0). destruct (decide (zlength s' < 63)) as [H63|]; [|lia].
    destruct (Hb (zlength s')) as [H1 H2]; [unfold zlength in *; lia|]. congruence. }
  destruct (copy_from_user_ok tags ctx (u + 63) 1 t Hok Hr Hcr Hfu ltac:(lia) ltac:(lia)) as
    [(l & Hcp & Hl & _ & [?|Hm] & Hk)|(Hcp & Hn1)]; [lia| |].
  - exists s, 0, l. split_and!; [done|done|done|]. pose proof (Hk 0 ltac:(lia)) as H0. rewrite Z.add_0_r in H0. cbn [Z.eqb andb].
    destruct (Z.eqb_spec (lget l 0) 0) as [Hz|Hz].
    + rewrite Hz in H0. split; [done|]. rewrite Hs. split_and!; [|done|done]. intros k Hk'. destruct Hm as (_ & M1 & M2).
      destruct (decide (k = 63)) as [->|]; [split; [lia|apply M2; lia]|]. apply Hre. lia.
    + intros s' Hl' Ha. pose proof (Hlong s' Hl' Ha) as H63. destruct Ha as (_ & _ & _ & H1). rewrite H63 in H1. congruence.
  - exists s, (-1), []. split_and!; [done|done|done|]. cbn [Z.eqb andb]. intros s' Hl' Ha. pose proof (Hlong s' Hl' Ha) as H63.
    destruct Ha as (_ & H1 & _). rewrite H63 in H1. destruct Hn1 as [?|[_ Hn1]]; [lia|]. apply Hn1.
    destruct (H1 63 ltac:(lia)) as [H2 H3]. split_and!; [done|lia|]. intros a Ha. by replace a with (u + 63) by lia.
Qed.

Lemma splice_row r a : zlength r = PROC_MAX_ARG_LEN → zlength a < PROC_MAX_ARG_LEN →
  ∃ rest, splice r 0 (a ++ [0]) = a ++ 0 :: rest ∧ zlength (a ++ 0 :: rest) = PROC_MAX_ARG_LEN.
Proof.
  intros Hl Ha. unfold splice. cbn [Z.to_nat Nat.add take app]. rewrite <- app_assoc. eexists. split; [reflexivity|].
  unfold zlength in *. rewrite !length_app. cbn [length app]. rewrite length_drop. lia.
Qed.

(** The buffer after one more argument. *)
Lemma copied_rows uptr acc s a :
  copied uptr acc s → zlength acc < PROC_MAX_ARGC → arg_fits a →
  rows (<[length acc := splice (row s.2 (zlength acc)) 0 (a ++ [0])]> s.2) (acc ++ [a]) ∧
  zlength (<[length acc := splice (row s.2 (zlength acc)) 0 (a ++ [0])]> s.2) = PROC_MAX_ARGC ∧
  Forall (λ r, zlength r = PROC_MAX_ARG_LEN) (<[length acc := splice (row s.2 (zlength acc)) 0 (a ++ [0])]> s.2).
Proof.
  intros [_ [C1 C2] C3 _] Hn [Ha _]. assert (Hlen : (length acc < length s.2)%nat) by (unfold zlength in *; lia).
  destruct (lookup_lt_is_Some_2 _ _ Hlen) as [r0 Hr0].
  assert (Hrow : row s.2 (zlength acc) = r0) by (unfold row, zlength; by rewrite Nat2Z.id, Hr0).
  rewrite Forall_forall in C2. destruct (splice_row r0 a) as (rest & Hsp & Hl); [apply C2; by eapply list_elem_of_lookup_2|done|].
  rewrite Hrow, Hsp. split; [|split].
  - intros i x Hx. apply lookup_snoc_Some in Hx as [[Hlt Hx]|[-> ->]].
    + rewrite list_lookup_insert_ne by lia. by apply C3.
    + exists rest. by rewrite list_lookup_insert_eq by done.
  - unfold zlength. by rewrite length_insert.
  - apply Forall_insert; [by apply Forall_forall|done].
Qed.

Lemma arg_at_fits u a : arg_at (pml4 ctx) u a t → zlength a < PROC_MAX_ARG_LEN → arg_fits a.
Proof. intros (_ & _ & Hb & _) Hl. split; [done|]. apply forall_lget. intros k Hk. by destruct (Hb k Hk). Qed.

Lemma count_arg_ok n total :
  0 ≤ n < PROC_MAX_ARG_LEN → 0 ≤ total ≤ PROC_ARG_TOTAL_MAX →
  count_arg n total = if total + n + 1 <=? PROC_ARG_TOTAL_MAX then Some (total + n + 1) else None.
Proof.
  intros Hn Ht. unfold count_arg, proc_arg_len_valid, proc_arg_total_valid, PROC_MAX_ARG_LEN, PROC_ARG_TOTAL_MAX in *.
  rewrite (u32_id (n + 1)), u32_id by lia. replace (total + (n + 1)) with (total + n + 1) by lia.
  destruct (Z.leb_spec 1 (n + 1)) as [_|]; [|lia]. destruct (Z.leb_spec (n + 1) 64) as [_|]; [|lia]. cbn [andb negb].
  destruct (Z.ltb_spec (total + n + 1) total) as [|_]; [lia|]. destruct (Z.leb_spec 1 (total + n + 1)) as [_|]; [|lia].
  by destruct (Z.leb_spec (total + n + 1) 512).
Qed.

(** What is known once an argument has been looked at. *)
Definition step_ok (uptr : Z → Z) (acc : list (list Z)) (r : option (list (list Z)) + Z * list (list Z)) : Prop :=
  match r with
  | inl None => False
  | inl (Some _) => ∀ a, arg_fits a → arg_at (pml4 ctx) (uptr (zlength acc)) a t → PROC_ARG_TOTAL_MAX < zlength (flat (acc ++ [a]))
  | inr s' => ∃ a, copied uptr (acc ++ [a]) s'
  end.

Lemma accept_ok uptr acc a total kargv :
  copied uptr acc (total, kargv) → zlength acc < PROC_MAX_ARGC → arg_at (pml4 ctx) (uptr (zlength acc)) a t →
  zlength a < PROC_MAX_ARG_LEN →
  step_ok uptr acc
    (let kargv := <[Z.to_nat (zlength acc) := splice (row kargv (zlength acc)) 0 (a ++ [0])]> kargv in
     match count_arg (zlength a) total with None => inl (Some kargv) | Some total => inr (total, kargv) end).
Proof.
  intros C Hn Hat Hl. pose proof (arg_at_fits _ _ Hat Hl) as Hf. destruct (cp_total _ _ _ C) as [T1 T2]. cbn [fst] in T1, T2. cbv zeta.
  rewrite count_arg_ok by (unfold zlength in *; lia). pose proof (flat_snoc acc a) as Hfl.
  destruct (Z.leb_spec (total + zlength a + 1) PROC_ARG_TOTAL_MAX) as [Hle|Hgt]; cbn [step_ok].
  2: { intros a' _ Ha'. rewrite (arg_at_unique _ _ _ _ _ Ha' Hat). lia. }
  destruct (copied_rows uptr acc (total, kargv) a C Hn Hf) as (R1 & R2 & R3). exists a. cbn [snd] in *.
  replace (Z.to_nat (zlength acc)) with (length acc) by (unfold zlength; lia).
  constructor; cbn [fst snd]; [lia|done|done|]. intros j x Hx.
  apply lookup_snoc_Some in Hx as [[Hlt Hx]|[-> ->]]; [by apply (cp_args _ _ _ C)|]. by split.
Qed.

Lemma copy_in_step uptr acc s :
  zlength acc < PROC_MAX_ARGC → 0 ≤ uptr (zlength acc) < 2 ^ 64 → copied uptr acc s →
  step_ok uptr acc (copy_in_arg ctx (uptr (zlength acc)) (zlength acc) s t).
Proof.
  intros Hi Hu C. destruct s as [total kargv]. unfold copy_in_arg. destruct (Z.eqb_spec (uptr (zlength acc)) 0) as [H0|H0].
  { intros a _ [? _]. done. }
  destruct (copy_in_string (uptr (zlength acc)) Hu H0) as (n & kdst & -> & Hk & Hcase). rewrite Hfu. cbv zeta.
  destruct Hcase as [(-> & Hno)|[(Hn & s & -> & <- & Hat)|(-> & s & ok & next & -> & Hs2 & Hcp & Hif)]].
  - cbn. intros a _ Hat. by destruct (Hno a).
  - destruct (Z.ltb_spec (zlength s) 0) as [|_]; [lia|]. destruct (Z.eqb_spec (zlength s) (PROC_MAX_ARG_LEN - 1)) as [|_]; [lia|].
    apply (accept_ok uptr acc s total kargv C Hi Hat). lia.
  - change (PROC_MAX_ARG_LEN - 1 <? 0) with false. rewrite Z.eqb_refl, Hcp. cbv iota.
    destruct ((ok =? 0) && (lget next 0 =? 0)); [|intros a [Hl _] Hat; by destruct (Hif a)].
    rewrite <- Hs2. apply (accept_ok uptr acc s total kargv C Hi Hif). unfold PROC_MAX_ARG_LEN in *. lia.
Qed.

(** The pointers of the vector. *)
Section Pointers.
Context (u_argv argc : Z) (l : list Z).
Context (Hlen : zlength l = 8 * argc) (Hld : ∀ k, 0 ≤ k < 8 * argc → load (u_argv + k) t = Some (lget l k)).

Let uptr (i : Z) : Z := le_num (slice (8 * i) 8 l).

Lemma uptr_bytes i : 0 ≤ i < argc →
  zlength (slice (8 * i) 8 l) = 8 ∧ ∀ k, 0 ≤ k < 8 → load (u_argv + 8 * i + k) t = Some (lget (slice (8 * i) 8 l) k).
Proof.
  intros Hi. split; [apply zlength_slice; lia|]. intros k Hk. rewrite lget_slice by lia.
  rewrite <- Z.add_assoc. apply Hld. lia.
Qed.

Lemma uptr_range i : 0 ≤ i < argc → 0 ≤ uptr i < 2 ^ 64.
Proof.
  intros Hi. destruct (uptr_bytes i Hi) as [H1 H2]. pose proof (le_num_range (slice (8 * i) 8 l)) as H.
  rewrite H1 in H. apply H, forall_lget. intros k Hk. eapply load_byte, H2. lia.
Qed.

Lemma user_args_at args i a :
  zlength args = argc → user_args (pml4 ctx) u_argv args t → args !! i = Some a → arg_at (pml4 ctx) (uptr (Z.of_nat i)) a t.
Proof.
  intros Hn (_ & _ & H) Ha. destruct (H i a Ha) as (p & P1 & P2 & P3). pose proof (lookup_lt_Some _ _ _ Ha) as Hlt.
  assert (Hi : 0 ≤ Z.of_nat i < argc) by (unfold zlength in Hn; lia). destruct (uptr_bytes _ Hi) as [H1 H2].
  unfold uptr. replace (slice (8 * Z.of_nat i) 8 l) with p; [done|]. apply lget_ext; [lia|]. intros k Hk.
  pose proof (P2 k ltac:(lia)) as E1. pose proof (H2 k ltac:(lia)) as E2. congruence.
Qed.

(** The arguments copied so far are those of the program. *)
Lemma copied_prefix args acc s :
  zlength args = argc → user_args (pml4 ctx) u_argv args t → copied uptr acc s → zlength acc ≤ argc → acc = take (length acc) args.
Proof.
  intros Hn Hua C Hle. apply list_eq_same_length with (length acc); [by rewrite length_take; unfold zlength in *; lia|done|].
  intros i x y Hi Hx Hy. rewrite lookup_take_lt in Hy by done. apply (arg_at_unique (pml4 ctx) (uptr (Z.of_nat i)) x y t).
  - by apply (cp_args _ _ _ C).
  - by apply (user_args_at args).
Qed.

Lemma copied_refused args acc s a :
  zlength args = argc → args_fit args → user_args (pml4 ctx) u_argv args t → copied uptr acc s → args !! length acc = Some a →
  zlength (flat (acc ++ [a])) ≤ PROC_ARG_TOTAL_MAX ∧ arg_fits a ∧ arg_at (pml4 ctx) (uptr (zlength acc)) a t.
Proof.
  intros Hn [_ F2 F3] Hua C Ha. pose proof (lookup_lt_Some _ _ _ Ha) as Hlt. split; [|split].
  - rewrite (copied_prefix args acc s Hn Hua C) by (unfold zlength in *; lia). rewrite <- (take_S_r _ _ _ Ha).
    pose proof (flat_take args (S (length acc))). lia.
  - rewrite Forall_lookup in F2. by apply (F2 _ _ Ha).
  - by apply (user_args_at args).
Qed.
End Pointers.

Definition unusable (u_argv argc : Z) : Prop := ∀ args, zlength args = argc → args_fit args → ¬ user_args (pml4 ctx) u_argv args t.

Lemma copied_start uptr kargv :
  zlength kargv = PROC_MAX_ARGC → Forall (λ r, zlength r = PROC_MAX_ARG_LEN) kargv → copied uptr [] (0, kargv).
Proof. intros H1 H2. by constructor. Qed.

Lemma proc_copy_in_argv_ok u_argv argc kargv :
  0 ≤ u_argv < 2 ^ 64 → zlength kargv = PROC_MAX_ARGC → Forall (λ r, zlength r = PROC_MAX_ARG_LEN) kargv →
  ∃ status total kargv', proc_copy_in_argv ctx u_argv argc kargv t = Some (status, total, kargv') ∧
    ((status = 0 ∧ ∃ args, zlength args = argc ∧ args_fit args ∧ user_args (pml4 ctx) u_argv args t ∧ rows kargv' args ∧
        total = zlength (flat args)) ∨
     (status = -1 ∧ unusable u_argv argc)).
Proof.
  intros Hu Hk1 Hk2. unfold proc_copy_in_argv. destruct (proc_argc_valid argc) eqn:Hv; cbn [negb].
  2: { exists (-1), 0, kargv. split; [done|]. right. split; [done|]. intros args Hn [Hc _ _]. unfold proc_argc_valid in Hv.
       apply andb_false_iff in Hv as [V|V]; apply Z.leb_gt in V; lia. }
  apply andb_true_iff in Hv as [V1%Z.leb_le V2%Z.leb_le]. unfold PROC_MAX_ARGC in V2. destruct (Z.eqb_spec u_argv 0) as [H0|H0].
  { exists (-1), 0, kargv. split; [done|]. right. split; [done|]. intros args _ _ [? _]. done. }
  destruct (Z.ltb_spec (PROC_MAX_ARGC * 8) (argc * 8)) as [Hlt|_]; [unfold PROC_MAX_ARGC in Hlt; lia|].
  destruct (copy_from_user_ok tags ctx u_argv (argc * 8) t Hok Hr Hcr Hfu Hu ltac:(lia)) as
    [(l & -> & Hl & _ & [?|Hm] & Hld)|(-> & Hn)]; [lia| |]; cbn [Z.eqb negb].
  2: { exists (-1), 0, kargv. split; [done|]. right. split; [done|]. intros args Hn1 _ (_ & Hm & _).
       destruct Hn as [?|[_ Hn]]; [lia|]. apply Hn. by replace (argc * 8) with (8 * zlength args) by lia. }
  rewrite Z.mul_comm in Hl, Hld, Hm. set (uptr := λ i, le_num (slice (8 * i) 8 l)).
  pose proof (for_range_rule (λ i s, ∃ acc, zlength acc = i ∧ copied uptr acc s)
    (λ r, match r with None => False | Some _ => unusable u_argv argc end) 0 argc (λ i s, copy_in_arg ctx (uptr i) i s t) (0, kargv)) as H.
  lapply H; [clear H; intros H|by exists []; split; [|by apply copied_start]]. lapply H; [clear H; intros H|].
  - rewrite Z.max_r in H by lia. fold uptr. change (λ i s, copy_in_arg ctx (le_num (slice (8 * i) 8 l)) i s t) with (λ i s, copy_in_arg ctx (uptr i) i s t).
    destruct (for_range 0 argc _ (0, kargv)) as [[kargv'|]|[total kargv']]; [|done|].
    + exists (-1), 0, kargv'. by split; [|right].
    + destruct H as (acc & Hacc & C). exists 0, total, kargv'. split; [done|]. left. split; [done|]. exists acc.
      destruct C as [[T1 T2] _ C3 C4]. cbn [fst snd] in *. split; [done|]. split; [|split; [|done]].
      * constructor; [unfold PROC_MAX_ARGC; lia|apply Forall_lookup; intros i a Ha; by apply (C4 i)|lia].
      * split; [done|]. split; [by rewrite Hacc|]. intros i a Ha. pose proof (lookup_lt_Some _ _ _ Ha) as Hlt.
        destruct (uptr_bytes u_argv argc l Hl Hld (Z.of_nat i)) as [B1 B2]; [unfold zlength in Hacc; lia|].
        exists (slice (8 * Z.of_nat i) 8 l). split; [done|]. split; [done|]. by apply C4.
  - intros j s Hj (acc & Hacc & C). rewrite <- Hacc.
    pose proof (copy_in_step uptr acc s ltac:(unfold PROC_MAX_ARGC; lia) ltac:(apply (uptr_range u_argv argc l Hl Hld); lia) C) as Hs.
    destruct (copy_in_arg ctx (uptr (zlength acc)) (zlength acc) s t) as [[kargv'|]|s']; [|done|].
    + intros args Hn Hf Hua. destruct (lookup_lt_is_Some_2 args (length acc)) as [a Ha]; [unfold zlength in *; lia|].
      destruct (copied_refused u_argv argc l Hl Hld args acc s a Hn Hf Hua C Ha) as (R1 & R2 & R3).
      specialize (Hs a R2 R3). lia.
    + destruct Hs as [a Ca]. exists (acc ++ [a]). split; [|done]. rewrite zlength_app. done.
Qed.
End CopyIn.
