(* ===== verification/ArgvLoad.v ===== *)
(** Arguments on the stack of a new program, and the image of a program with its arguments
    (definitions in [Argv]). *)

From S2P Require Import Prelude Bitmap Pmm Paging PagingSpec PagingDestroy PagingIso PagingClone PagingSys UserCopy UserMem Elf ElfLoad Argv.

(** The bytes of a program from [va]. *)
Definition holds (root va : Z) (l : list Z) t : Prop := ∀ k, 0 ≤ k < zlength l → byte_at root (va + k) t = Some (lget l k).

Definition on_stack_range (va : Z) (l : list Z) : Prop := USER_STACK_TOP - USER_STACK_SIZE ≤ va ∧ va + zlength l ≤ USER_STACK_TOP.

Definition apart (va : Z) (l : list Z) (va' : Z) (l' : list Z) : Prop := va + zlength l ≤ va' ∨ va' + zlength l' ≤ va.

(** A vector of arguments on the stack of a program: the pointers, each to its string with the
    terminator, and a null pointer. *)
Definition arg_vector (root argv : Z) (args : list (list Z)) t : Prop :=
  (USER_STACK_TOP - USER_STACK_SIZE ≤ argv ∧ argv + 8 * (zlength args + 1) ≤ USER_STACK_TOP) ∧
  (∀ i s, args !! i = Some s → ∃ p, on_stack_range p (s ++ [0]) ∧ holds root (argv + 8 * Z.of_nat i) (le_bytes 8 p) t ∧ holds root p (s ++ [0]) t) ∧
  holds root (argv + 8 * zlength args) (le_bytes 8 0) t.

Section Build.
Context (tags : gmap Z tag) (hs : gset Z) (root : Z) (Hr : is_root tags root).

(** A machine whose stack pages for [root] can be written, in that address space. *)
Record ready t : Prop := {
  rd_iso : iso tags hs t;
  rd_user : root ≠ kernel_pml4_phys t;
  rd_cr3 : vmm_read_cr3 t = root;
  rd_stack : ∀ a, stack_va a → user_byte root a t ∧ ∃ pa, mmu root a t = Some (pa, true)
}.

Lemma stack_write va l t :
  ready t → on_stack_range va l → Forall (λ b, 0 ≤ b < 256) l →
  ∃ t', write_bytes l va t = Some t' ∧ ready t' ∧ uedit (on_stack root) tags hs t tags t' ∧ holds root va l t' ∧
    ∀ va' l', on_stack_range va' l' → apart va l va' l' → holds root va' l' t → holds root va' l' t'.
Proof.
  intros [R1 R2 R3 R4] [V1 V2] Hb. unfold USER_STACK_TOP, USER_STACK_SIZE in V1, V2.
  assert (Hst : ∀ a, va ≤ a < va + zlength l → stack_va a) by (intros a Ha; unfold stack_va, USER_STACK_TOP, USER_STACK_SIZE; lia).
  destruct (write_user tags hs root l va t R1 Hr R2 R3 ltac:(lia) ltac:(lia)) as (t' & Hw & W); [intros a Ha; by apply R4, Hst|].
  pose proof (wrote_uedit _ _ _ _ _ _ _ R1 W) as E. destruct (wt_regs _ _ _ _ _ _ _ W) as (A1 & A2 & A3).
  exists t'. split; [done|]. split; [|split; [|split]].
  - constructor; [apply (ue_iso _ _ _ _ _ _ E)|by rewrite A2|unfold vmm_read_cr3; by rewrite A1|]. intros a Ha. destruct (R4 a Ha) as [U M].
    destruct (wrote_user tags hs root va l t t' root a R1 W Hr U) as [U' ->]. by split.
  - eapply uedit_weaken; [|exact E]. intros r a [-> Ha]. by split; [|apply Hst].
  - intros k Hk. rewrite (wt_bytes _ _ _ _ _ _ _ W) by (done || apply R4, Hst; lia). rewrite decide_True by (split; [done|lia]).
    replace (va + k - va) with k by lia. f_equal. assert (Hbk : 0 ≤ lget l k < 256).
    { unfold lget. destruct (l !! Z.to_nat k) as [x|] eqn:Hx; [|cbn; lia]. rewrite Forall_lookup in Hb. exact (Hb _ _ Hx). }
    unfold u8. by apply Z.mod_small.
  - intros va' l' [V3 V4] Hap Hh k Hk. rewrite <- (Hh k Hk). unfold USER_STACK_TOP, USER_STACK_SIZE in V3, V4.
    rewrite (wt_bytes _ _ _ _ _ _ _ W); [|done|done|apply R4; unfold stack_va, USER_STACK_TOP, USER_STACK_SIZE; lia].
    rewrite decide_False; [done|]. unfold apart in Hap. lia.
Qed.

Context (args kargv : list (list Z)) (Hf : args_fit args) (Hrows : rows kargv args) (Hbytes : Forall (Forall (λ b, 0 ≤ b < 256)) args).

Lemma row_arg i s : args !! i = Some s → ∃ rest, row kargv (Z.of_nat i) = s ++ 0 :: rest.
Proof. intros Hs. destruct (Hrows i s Hs) as [rest Hk]. exists rest. unfold row. by rewrite Nat2Z.id, Hk. Qed.

Lemma build_lens_ok : build_lens (zlength args) kargv = Some ((λ s, zlength s + 1) <$> args, zlength (flat args)).
Proof.
  unfold build_lens. destruct Hf as [F1 F2 F3].
  match goal with |- context [for_range 0 _ ?b _] =>
    pose proof (for_range_rule (λ i s, s = ((λ a, zlength a + 1) <$> take (Z.to_nat i) args, zlength (flat (take (Z.to_nat i) args))))
      (λ _, False) 0 (zlength args) b ([], 0)) as H end.
  lapply H; [clear H; intros H; lapply H; [clear H; intros H|]|done].
  - rewrite Z.max_r in H by lia. destruct (for_range _ _ _ _) as [|s]; [done|]. rewrite H.
    by rewrite take_ge by (unfold zlength; lia).
  - intros j s Hj ->. destruct (lookup_lt_is_Some_2 args (Z.to_nat j)) as [a Ha]; [unfold zlength in Hj; lia|].
    destruct (row_arg _ _ Ha) as [rest Hrow]. rewrite Z2Nat.id in Hrow by lia. rewrite Hrow.
    rewrite Forall_lookup in F2. pose proof (F2 _ _ Ha) as Hfa. rewrite arg_len_ok by done. cbn [fst snd]. destruct Hfa as [Hl _].
    replace (Z.to_nat (j + 1)) with (S (Z.to_nat j)) by lia. rewrite (flat_take_S _ _ _ Ha).
    pose proof (flat_take args (S (Z.to_nat j))) as Hm. rewrite (flat_take_S _ _ _ Ha) in Hm. unfold PROC_MAX_ARG_LEN, PROC_ARG_TOTAL_MAX in *.
    rewrite u32_id by (unfold zlength in *; lia). unfold proc_arg_total_valid, PROC_ARG_TOTAL_MAX. rewrite <- Z.add_assoc in Hm |- *.
    destruct (Z.leb_spec 1 (zlength (flat (take (Z.to_nat j) args)) + (zlength a + 1))) as [_|]; [|unfold zlength in *; lia].
    destruct (Z.leb_spec (zlength (flat (take (Z.to_nat j) args)) + (zlength a + 1)) 512) as [_|]; [|lia]. cbn [andb negb].
    by rewrite (take_S_r _ _ _ Ha), fmap_app.
Qed.

Section Write.
Context (argv_u : Z) (t : vmm).
Let str_u : Z := argv_u + (zlength args + 1) * 8.
Let ptr (i : nat) : Z := str_u + zlength (flat (take i args)).
Context (Hlow : USER_STACK_TOP - USER_STACK_SIZE ≤ argv_u) (Hhigh : str_u + zlength (flat args) ≤ USER_STACK_TOP).

(** The first [j] pointers and strings are there. *)
Record written (j : nat) (s : Z * vmm) : Prop := {
  wn_cur : s.1 = ptr j;
  wn_ready : ready s.2;
  wn_edit : uedit (on_stack root) tags hs t tags s.2;
  wn_args : ∀ i a, (i < j)%nat → args !! i = Some a → holds root (argv_u + 8 * Z.of_nat i) (le_bytes 8 (ptr i)) s.2 ∧ holds root (ptr i) (a ++ [0]) s.2
}.

Lemma zlength_le n z : zlength (le_bytes n z) = Z.of_nat n.
Proof. unfold zlength. by rewrite le_bytes_length. Qed.

Lemma ptr_S i a : args !! i = Some a → ptr (S i) = ptr i + zlength (a ++ [0]).
Proof. intros Ha. unfold ptr. rewrite (flat_take_S _ _ _ Ha), zlength_app. assert (zlength [0] = 1) by done. lia. Qed.

Lemma ptr_mono i j : (i ≤ j)%nat → ptr i ≤ ptr j.
Proof.
  intros Hij. unfold ptr. replace (take i args) with (take i (take j args)) by (rewrite take_take; f_equal; lia).
  pose proof (flat_take (take j args) i). lia.
Qed.

Lemma ptr_range i a : args !! i = Some a →
  on_stack_range (ptr i) (a ++ [0]) ∧ on_stack_range (argv_u + 8 * Z.of_nat i) (le_bytes 8 (ptr i)) ∧ stack_va (ptr i) ∧
  argv_u + 8 * Z.of_nat i + 8 ≤ str_u ∧ str_u ≤ ptr i.
Proof.
  intros Ha. pose proof (ptr_S i a Ha) as Hs. pose proof (lookup_lt_Some _ _ _ Ha) as Hlt.
  pose proof (flat_take args (S i)) as Hm. fold (zlength (flat (take (S i) args))) in Hm.
  assert (Hend : ptr (S i) ≤ USER_STACK_TOP) by (unfold ptr; lia). assert (H0 : str_u ≤ ptr i) by (unfold ptr, zlength; lia).
  assert (Hi : argv_u + 8 * Z.of_nat i + 8 ≤ str_u) by (unfold str_u, zlength; lia).
  unfold on_stack_range, stack_va. rewrite zlength_le. rewrite zlength_app in *. assert (zlength [0] = 1) by done.
  assert (0 ≤ zlength a) by (unfold zlength; lia). lia.
Qed.

Lemma write_step j a s :
  args !! j = Some a → written j s →
  ∃ t1 t2, write_bytes (le_bytes 8 s.1) (u64 (argv_u + Z.of_nat j * 8)) s.2 = Some t1 ∧
    write_bytes (take (Z.to_nat (zlength a + 1)) (row kargv (Z.of_nat j))) s.1 t1 = Some t2 ∧
    written (S j) (u64 (s.1 + (zlength a + 1)), t2).
Proof.
  intros Ha [W1 W2 W3 W4]. destruct (ptr_range j a Ha) as (P1 & P2 & P3 & P4 & P5). pose proof (ptr_S j a Ha) as HS.
  destruct (row_arg j a Ha) as [rest ->]. assert (Hz1 : zlength (a ++ [0]) = zlength a + 1) by (by rewrite zlength_app).
  replace (take _ (a ++ 0 :: rest)) with (a ++ [0]).
  2: { replace (a ++ 0 :: rest) with ((a ++ [0]) ++ rest) by (by rewrite <- app_assoc). rewrite take_app_length'; [done|].
       unfold zlength in *. lia. }
  rewrite W1, (Z.mul_comm (Z.of_nat j)), u64_id by (destruct P2; unfold USER_STACK_TOP, USER_STACK_SIZE in *; rewrite zlength_le in *; lia).
  rewrite u64_id by (destruct P1; unfold USER_STACK_TOP, USER_STACK_SIZE, stack_va in *; unfold zlength in *; lia).
  destruct (stack_write _ _ _ W2 P2 (le_bytes_byte 8 _)) as (t1 & Hw1 & R1 & E1 & H1 & K1).
  assert (Hba : Forall (λ b, 0 ≤ b < 256) (a ++ [0])).
  { apply Forall_app. split; [|by repeat constructor]. rewrite Forall_lookup in Hbytes. by apply (Hbytes j). }
  destruct (stack_write _ _ _ R1 P1 Hba) as (t2 & Hw2 & R2 & E2 & H2 & K2).
  exists t1, t2. split; [done|]. split; [done|]. constructor; cbn [fst snd]; [rewrite HS, Hz1; done|done| |].
  { eapply uedit_trans; [exact W3|]. by eapply uedit_trans. }
  intros i b Hi Hb. destruct (decide (i = j)) as [->|Hne].
  - replace b with a in * by congruence. split; [|done]. apply K2; [done| |done]. right. rewrite zlength_le. lia.
  - destruct (ptr_range i b Hb) as (Q1 & Q2 & Q3 & Q4 & Q5). destruct (W4 i b ltac:(lia) Hb) as [V1 V2].
    pose proof (ptr_S i b Hb) as HSi. pose proof (ptr_mono (S i) j ltac:(lia)) as Hm. split.
    + apply K2; [done|right; rewrite zlength_le; lia|]. apply K1; [done|right; rewrite zlength_le; lia|done].
    + apply K2; [done|right; lia|]. apply K1; [done|left; rewrite zlength_le; lia|done].
Qed.

Lemma write_args_ok :
  ready t →
  ∃ t', write_args (zlength args) argv_u str_u ((λ s, zlength s + 1) <$> args) kargv t = Some t' ∧ ready t' ∧
    uedit (on_stack root) tags hs t tags t' ∧ arg_vector root argv_u args t'.
Proof.
  intros Hrd. unfold write_args.
  match goal with |- context [for_range 0 _ ?b _] =>
    pose proof (for_range_rule (λ j, written (Z.to_nat j)) (λ _, False) 0 (zlength args) b (str_u, t)) as H end.
  lapply H; [clear H; intros H; lapply H; [clear H; intros H|]|].
  - rewrite Z.max_r in H by (unfold zlength; lia). destruct (for_range _ _ _ _) as [|s]; [done|]. destruct H as [_ W2 W3 W4].
    assert (Hnul : on_stack_range (argv_u + 8 * zlength args) (le_bytes 8 0)).
    { unfold on_stack_range. rewrite zlength_le. unfold str_u, zlength in *. lia. }
    rewrite (Z.mul_comm (zlength args)), u64_id
      by (destruct Hnul; unfold USER_STACK_TOP, USER_STACK_SIZE in *; rewrite zlength_le in *; lia).
    destruct (stack_write _ _ _ W2 Hnul (le_bytes_byte 8 _)) as (t1 & Hw1 & R1 & E1 & H1 & K1).
    exists t1. split; [done|]. split; [done|]. split; [by eapply uedit_trans|].
    split; [unfold str_u, zlength in *; lia|]. split; [|done]. intros i a Ha.
    destruct (ptr_range i a Ha) as (Q1 & Q2 & Q3 & Q4 & Q5). pose proof (lookup_lt_Some _ _ _ Ha) as Hlt.
    destruct (W4 i a ltac:(unfold zlength; lia) Ha) as [V1 V2]. exists (ptr i). split; [done|].
    assert (Hs8 : str_u = argv_u + 8 * zlength args + 8) by (unfold str_u; lia). split.
    + apply K1; [done| |done]. right. rewrite zlength_le. unfold zlength. lia.
    + apply K1; [done| |done]. left. rewrite zlength_le. lia.
  - intros j s Hj W. destruct (lookup_lt_is_Some_2 args (Z.to_nat j)) as [a Ha]; [unfold zlength in Hj; lia|].
    destruct (write_step _ _ _ Ha W) as (t1 & t2 & Hw1 & Hw2 & W'). rewrite Z2Nat.id in Hw1, Hw2 by lia.
    assert (Hlg : lget ((λ s, zlength s + 1) <$> args) j = zlength a + 1) by (unfold lget; by rewrite list_lookup_fmap, Ha).
    rewrite Hlg, Hw1, Hw2. by replace (Z.to_nat (j + 1)) with (S (Z.to_nat j)) by lia.
  - constructor; cbn [fst snd]; [|done|by apply uedit_refl, Hrd|lia]. change (str_u = str_u + 0). lia.
Qed.
End Write.
End Build.

Lemma align_eq a : 0 ≤ a < 2 ^ 64 → Z.land a (u64 (Z.lnot 15)) = a / 16 * 16.
Proof.
  intros Ha. change (u64 (Z.lnot 15)) with (Z.ldiff (Z.ones 64) (Z.ones 4)). by rewrite land_high_mask by lia.
Qed.

(** The vector of arguments at the top of a new stack. *)
Lemma build_argv_ok tags hs root args kargv t out :
  is_root tags root → args_fit args → rows kargv args → Forall (Forall (λ b, 0 ≤ b < 256)) args → ready tags hs root t →
  ∃ base t', proc_build_argv USER_STACK_TOP (zlength args) kargv out t = Some (0, base, base, t') ∧ base mod 16 = 8 ∧ stack_va base ∧
    ready tags hs root t' ∧ uedit (on_stack root) tags hs t tags t' ∧ arg_vector root base args t'.
Proof.
  intros Hr Hf Hrows Hbytes Hrd. pose proof Hf as [F1 F2 F3]. unfold proc_build_argv, proc_argc_valid, PROC_MAX_ARGC, PROC_ARG_TOTAL_MAX in *.
  destruct (Z.leb_spec 1 (zlength args)) as [_|]; [|lia]. destruct (Z.leb_spec (zlength args) 16) as [_|]; [|lia]. cbn [andb negb].
  change (USER_STACK_TOP =? 0) with false. rewrite (build_lens_ok args kargv Hf Hrows). cbv iota zeta.
  destruct (Z.ltb_spec (512 + 136) ((zlength args + 1) * 8 + zlength (flat args))) as [|_]; [lia|].
  set (need := (zlength args + 1) * 8 + zlength (flat args)). assert (Hneed : 16 ≤ need ≤ 648) by (unfold need, zlength in *; lia).
  rewrite (u64_id (USER_STACK_TOP - need)), align_eq by (unfold USER_STACK_TOP; lia).
  rewrite (u64_id (_ - 8)) by (unfold USER_STACK_TOP; zdiv). set (base := (USER_STACK_TOP - need) / 16 * 16 - 8).
  assert (Hb : base mod 16 = 8 ∧ base + need ≤ USER_STACK_TOP ∧ USER_STACK_TOP - need - 24 < base) by (unfold base, USER_STACK_TOP; zdiv).
  destruct Hb as (B1 & B2 & B3). unfold USER_STACK_TOP, USER_STACK_SIZE in *.
  destruct (Z.leb_spec 0x0C000000 base) as [|_]; [lia|]. destruct (Z.ltb_spec base (0x0C000000 - 256 * 1024)) as [|_]; [lia|]. cbn [orb].
  change (0x0C000000 <? 0x0C000000) with false. cbv iota. rewrite u64_id by (unfold zlength in *; lia).
  destruct (write_args_ok tags hs root Hr args kargv Hrows Hbytes base t ltac:(unfold USER_STACK_TOP, USER_STACK_SIZE; lia)
    ltac:(unfold USER_STACK_TOP; lia) Hrd) as (t' & -> & R & E & A).
  exists base, t'. split; [done|]. split; [done|]. split; [unfold stack_va, USER_STACK_TOP, USER_STACK_SIZE; lia|]. done.
Qed.

(** ** Loading an image with its arguments *)
Lemma set_cr3_set v w t : set_cr3 v (set_cr3 w t) = set_cr3 v t.
Proof. unfold set_cr3. cbn. by destruct (cpu_cr3 t). Qed.

Lemma uedit_switch P tags hs t tags' t' v : uedit P tags hs t tags' t' → uedit P tags hs (set_cr3 v t) tags' (set_cr3 v t').
Proof.
  intros [E1 E2 [E3 E3'] E4 E5 E6]. constructor; [by apply iso_cr3|done|by split|exact E4|exact E5|exact E6].
Qed.

Lemma ready_after tags hs t root nx :
  iso tags hs t → is_root tags root → root ≠ kernel_pml4_phys t → vmm_read_cr3 t = root → stack_ready nx root t → ready tags hs root t.
Proof.
  intros Hi Hr Hne Hcr Hst. constructor; try done. intros a Ha. destruct (Hst a Ha) as [(e & He & Hef) _].
  pose proof (stack_user a Ha) as Hua. split; [split; [done|by rewrite He]|].
  rewrite (mmu_user tags hs root a t e Hi Hr Hne Hua He). eexists. do 2 f_equal. unfold writable.
  rewrite <- pte_flags_bit, Hef by lia. by destruct nx.
Qed.

Lemma user_args_bytes root u args t : user_args root u args t → Forall (Forall (λ b, 0 ≤ b < 256)) args.
Proof.
  intros (_ & _ & H). apply Forall_lookup. intros i s Hs. destruct (H i s Hs) as (p & _ & _ & _ & _ & Hb & _).
  apply forall_lget. intros k Hk. destruct (Hb k Hk) as [Hl _]. by eapply load_byte.
Qed.

Section Exec.
Context (tags : gmap Z tag) (hs : gset Z) (t : vmm) (root : Z) (nx mem_ok : bool) (file : list Z → list Z) (freed name : list Z).
Context (Hi : iso tags hs t) (Hr : is_root tags root) (Hne : root ≠ kernel_pml4_phys t) (Hold : is_root tags (vmm_read_cr3 t)).
Context (Hfile : turned_away mem_ok (file (elf_path name)) ∨ good_program (file (elf_path name))).
Context (Hfresh : ∀ a, user_va a → translate t root a = None).

Let buf := file (elf_path name).

(** The image and the arguments of a program. *)
Definition exec_ok (args : list (list Z)) (self : option Z) (r : elf_exit + Z * Z * Z * option Z * vmm) : Prop :=
  match r with
  | inr (entry, top, argv, self', t') =>
      self' = self ∧ vmm_read_cr3 t' = vmm_read_cr3 t ∧
      (∃ tags', uedit (image buf root) tags hs (vmm_switch_pml4 (vmm_read_cr3 t) t) tags' t') ∧
      ((entry = e_entry buf ∧ entry ≠ 0 ∧ good_program buf ∧ argv = top ∧ top mod 16 = 8 ∧ stack_va top ∧ arg_vector root argv args t' ∧
          ∀ i, to_load buf i → seg_loaded nx buf (header buf i) root t') ∨
       (entry = 0 ∧
          (turned_away mem_ok buf ∨ e_entry buf = 0 ∨
           total_pages (frames t) ≤ used_pages (frames t) + 4 * (pages_upto buf (e_phnum buf) + 64))))
  | inl _ => False
  end.

Lemma exec_load_image_ok args kargv self :
  args_fit args → rows kargv args → Forall (Forall (λ b, 0 ≤ b < 256)) args →
  exec_ok args self (exec_load_image nx mem_ok file freed self name (zlength args) kargv root t).
Proof.
  intros Ha Hrows Hbytes. pose proof (root_not_null tags hs t root Hi Hr) as Hnn. pose proof (root_not_null tags hs t _ Hi Hold) as Hnn2.
  destruct (vk_frame _ _ (is_vm _ _ _ Hi) root _ Hr) as [[Hr0 Hrm] _].
  destruct (vk_frame _ _ (is_vm _ _ _ Hi) _ _ Hold) as [[Ho0 Hom] _].
  unfold exec_ok, exec_load_image, vmm_switch_pml4. rewrite Hnn, Hnn2. cbv zeta. set (t1 := set_cr3 root t). set (old := vmm_read_cr3 t) in *.
  assert (Hback : set_cr3 old t = set_cr3 old t1) by (symmetry; apply set_cr3_set). rewrite Hback.
  assert (Hcr : ∀ v x, 0 < v < 2 ^ 64 → v mod 4096 = 0 → vmm_read_cr3 (set_cr3 v x) = v).
  { intros v x Hv Hm. unfold vmm_read_cr3. cbn [cr3 set_cr3]. rewrite next_table_eq by lia. zdiv. }
  destruct Hfile as [Haway|Hgood].
  { rewrite load_away by done. split; [done|]. split; [by apply Hcr|]. split; [exists tags; by apply uedit_switch, uedit_refl, iso_cr3|].
    right. split; [done|]. by left. }
  pose proof Hgood as (Hf & Hg & Hs). destruct mem_ok eqn:Hmem.
  2: { rewrite load_away by (right; by left). split; [done|]. split; [by apply Hcr|].
       split; [exists tags; by apply uedit_switch, uedit_refl, iso_cr3|]. right. split; [done|]. left. right. by left. }
  pose proof (load_image_ok tags hs t1 root nx file freed name (iso_cr3 _ _ _ _ Hi) Hr Hne (Hcr root t Hr0 Hrm) Hf Hg Hs Hfresh) as H.
  fold buf in H. unfold image_result in H. destruct (elf_load_file nx true file freed name true root t1) as [[t2| | |]|[[entry top] t2]]; [|done|done|done|].
  { destruct H as (Hfull & tags' & E). split; [done|]. split; [by apply Hcr|].
    split; [exists tags'; by apply uedit_switch|]. right. split; [done|]. right. by right. }
  destruct H as (-> & -> & (tags' & E) & Hl & Hst). change (USER_STACK_TOP =? 0) with false. rewrite orb_false_r.
  destruct (Z.eqb_spec (e_entry buf) 0) as [He|He].
  { split; [done|]. split; [by apply Hcr|].
    split; [exists tags'; by apply uedit_switch|]. right. split; [done|]. right. by left. }
  pose proof (uedit_root _ _ _ _ _ _ _ E Hr) as Hr2. pose proof (uedit_kernel _ _ _ _ _ _ E) as Hk2.
  assert (Hne2 : root ≠ kernel_pml4_phys t2) by (rewrite Hk2; exact Hne).
  assert (Hcr2 : vmm_read_cr3 t2 = root) by (rewrite (uedit_cr3 _ _ _ _ _ _ E); by apply Hcr).
  pose proof (ready_after tags' hs t2 root nx (ue_iso _ _ _ _ _ _ E) Hr2 Hne2 Hcr2 Hst) as Hrd.
  destruct (build_argv_ok tags' hs root args kargv t2 0 Hr2 Ha Hrows Hbytes Hrd) as (base & t3 & -> & B1 & B2 & _ & E3 & Hv).
  cbn [Z.eqb negb]. split; [done|]. split; [by apply Hcr|]. split.
  { exists tags'. apply uedit_switch. eapply uedit_trans; [exact E|]. eapply uedit_weaken; [|exact E3]. by right. }
  left. do 2 (split; [done|]). split; [exact Hgood|]. split_and!; [done|done|exact B2|exact Hv|]. intros i Hl1.
  pose proof (gp_segment _ _ Hg i Hl1 ltac:(apply Hl1)) as Hgi.
  apply (seg_loaded_kept _ _ _ _ _ _ nx buf _ root E3 Hr2 Hne2 Hgi); [|by apply Hl]. intros a Has [_ Hsa]. by apply (Hs i a).
Qed.
End Exec.

(** ** A concrete vector of arguments *)

(** The pointers [demo_va + 16] and 0, and the string. *)
Definition demo_args : list Z := le_bytes 8 (demo_va + 16) ++ le_bytes 8 0 ++ [104; 105; 0].

Lemma demo_caller :
  ∃ t r tags, iso tags ∅ t ∧ is_root tags r ∧ r ≠ kernel_pml4_phys t ∧ vmm_read_cr3 t = r ∧ user_args r demo_va [[104; 105]] t ∧
    used_pages (frames t) + 690 ≤ total_pages (frames t).
Proof.
  destruct demo_fresh as (t0 & r & tags0 & Hi0 & Hr0 & Hk0 & Hcr0 & Hu0 & _). pose proof demo_va_user as Hu.
  pose proof (map_zeroed_ok tags0 ∅ t0 r demo_va Hi0 Hr0 Hk0 Hu 7 flags7_ok eq_refl) as Hz.
  destruct (map_zeroed demo_va 7 r t0) as [ok t].
  destruct Hz as [(_ & Hu1 & tags & e & E0 & He & Hef & _)|(_ & ? & _)]; [|lia].
  pose proof (ue_iso _ _ _ _ _ _ E0) as Hi. pose proof (uedit_root _ _ _ _ _ _ _ E0 Hr0) as Hr.
  assert (Hk : r ≠ kernel_pml4_phys t) by (by rewrite (uedit_kernel _ _ _ _ _ _ E0)).
  assert (Hcr : vmm_read_cr3 t = r) by (by rewrite (uedit_cr3 _ _ _ _ _ _ E0)).
  assert (Hwr : writable e = true) by (unfold writable; rewrite <- pte_flags_bit by lia; by rewrite Hef).
  pose proof (ue_total _ _ _ _ _ _ E0) as Htot. set (hs := ∅ : gset Z) in *.
  assert (Hpg : ∀ a, demo_va ≤ a < demo_va + 19 → a / 4096 = demo_va / 4096) by (intros a Ha; unfold demo_va in *; zdiv).
  assert (Hall : ∀ a, demo_va ≤ a < demo_va + zlength demo_args → user_byte r a t ∧ ∃ pa, mmu r a t = Some (pa, true)).
  { intros a Ha. specialize (Hpg a Ha). pose proof (user_va_page demo_va a Hpg Hu) as Hua.
    assert (Hea : translate t r a = Some e) by (by rewrite (translate_page t r demo_va a Hpg)).
    split; [split; [done|by rewrite Hea]|]. rewrite (mmu_user tags hs r a t e Hi Hr Hk Hua Hea), Hwr. by eexists. }
  destruct (write_user tags hs r demo_args demo_va t Hi Hr Hk Hcr) as (t' & _ & W); [done|done|done|].
  pose proof (wrote_uedit _ _ _ _ _ _ _ Hi W) as E. pose proof (uedit_cr3 _ _ _ _ _ _ E) as Hc'.
  assert (Hld : ∀ k, 0 ≤ k < 19 → load (demo_va + k) t' = Some (u8 (lget demo_args k)) ∧ is_Some (mmu r (demo_va + k) t')).
  { intros k Hk'. destruct (Hall (demo_va + k)) as [U [pa' M]]; [change (zlength demo_args) with 19; lia|].
    destruct (wrote_user tags hs r demo_va demo_args t t' r _ Hi W Hr U) as [_ ->]. rewrite M. split; [|done]. unfold load. rewrite Hc', Hcr.
    rewrite (wt_bytes _ _ _ _ _ _ _ W) by done. rewrite decide_True by (split; [done|change (zlength demo_args) with 19; lia]).
    by replace (demo_va + k - demo_va) with k by lia. }
  exists t', r, tags. split; [apply (ue_iso _ _ _ _ _ _ E)|]. split; [done|].
  split; [by rewrite (uedit_kernel _ _ _ _ _ _ E)|]. split; [by rewrite Hc'|].
  destruct (wt_regs _ _ _ _ _ _ _ W) as (_ & _ & ->). split; [|lia]. split; [done|]. split.
  { split; [done|]. split; [done|]. intros a Ha. replace a with (demo_va + (a - demo_va)) by lia. apply Hld.
    change (8 * zlength [[104; 105]]) with 8 in Ha. lia. }
  intros i s Hs. destruct i as [|i]; [|by destruct i]. injection Hs as <-. exists (le_bytes 8 (demo_va + 16)). split; [done|]. split.
  { intros k Hk'. change (8 * Z.of_nat 0) with 0. rewrite Z.add_0_r. destruct (Hld k ltac:(lia)) as [-> _].
    assert (k = 0 ∨ k = 1 ∨ k = 2 ∨ k = 3 ∨ k = 4 ∨ k = 5 ∨ k = 6 ∨ k = 7) as Hc by lia.
    by destruct_or! Hc; subst k. }
  rewrite le_num_bytes by done. unfold arg_at, str_bytes. change (zlength [104; 105]) with 2. split; [done|]. split; [|split].
  - intros k Hk'. unfold UC_USER_VA_MAX. replace (demo_va + 16 + k) with (demo_va + (16 + k)) by lia. split; [unfold demo_va; lia|apply Hld; lia].
  - intros k Hk'. replace (demo_va + 16 + k) with (demo_va + (16 + k)) by lia.
    destruct (Hld (16 + k) ltac:(lia)) as [-> _]. assert (k = 0 ∨ k = 1) as [-> | ->] by lia; done.
  - replace (demo_va + 16 + 2) with (demo_va + 18) by lia. destruct (Hld 18 ltac:(lia)) as [-> _]. done.
Qed.

Definition demo_buffer : list (list Z) := replicate 16 (replicate 64 0).

Lemma demo_fit : args_fit [[104; 105]].
Proof. constructor; [done| |done]. repeat constructor; done. Qed.

(** The buffer for these arguments. *)
Lemma demo_copy t r tags hs :
  iso tags hs t → is_root tags r → vmm_read_cr3 t = r → user_args r demo_va [[104; 105]] t →
  ∃ total kargv, proc_copy_in_argv (mkCtx true r) demo_va 1 demo_buffer t = Some (0, total, kargv).
Proof.
  intros Hi Hr Hcr Ha. destruct (proc_copy_in_argv_ok tags (mkCtx true r) t (is_vm _ _ _ Hi) Hr Hcr eq_refl demo_va 1 demo_buffer
    ltac:(unfold demo_va; lia) eq_refl ltac:(by apply Forall_replicate)) as (st & total & kargv & Hc & [(-> & _)|(_ & Hno)]).
  - by exists total, kargv.
  - by destruct (Hno [[104; 105]] eq_refl demo_fit).
Qed.

(** ** Properties *)

(** C28: copying in a vector of arguments ([proc_copy_in_argv]).  For a program, the call never
    faults, and it succeeds exactly when the program has a vector of [argc] pointers to terminated
    strings there: between 1 and 16 of them, each at most 64 bytes with its terminator, 512 in
    all.  Then the buffer holds these strings. *)
Theorem copy_in_argv_spec (tags : gmap Z tag) (ctx : ucopy_ctx) (t : vmm) (u_argv argc : Z) (kargv : list (list Z))
    (Hok : vm_ok tags t) (Hr : is_root tags (pml4 ctx)) (Hcr : vmm_read_cr3 t = pml4 ctx) (Hfu : from_user ctx = true)
    (Hu : 0 ≤ u_argv < 2 ^ 64) (Hn : zlength kargv = PROC_MAX_ARGC) (Hrow : Forall (λ r, zlength r = PROC_MAX_ARG_LEN) kargv) :
  ∃ status total kargv', proc_copy_in_argv ctx u_argv argc kargv t = Some (status, total, kargv') ∧
    ((status = 0 ∧ ∃ args, zlength args = argc ∧ args_fit args ∧ user_args (pml4 ctx) u_argv args t ∧ rows kargv' args ∧
        total = zlength (flat args)) ∨
     (status = -1 ∧ ∀ args, zlength args = argc → args_fit args → ¬ user_args (pml4 ctx) u_argv args t)).
Proof. by apply (proc_copy_in_argv_ok tags). Qed.

Lemma copy_in_argv_spec_witness :
  ∃ t r total kargv', proc_copy_in_argv (mkCtx true r) demo_va 1 demo_buffer t = Some (0, total, kargv') ∧ rows kargv' [[104; 105]].
Proof.
  destruct demo_caller as (t & r & tags & Hi & Hr & _ & Hcr & Ha & _).
  destruct (copy_in_argv_spec tags (mkCtx true r) t demo_va 1 demo_buffer (is_vm _ _ _ Hi) Hr Hcr eq_refl ltac:(unfold demo_va; lia)
    eq_refl ltac:(by apply Forall_replicate)) as (st & total & kargv' & Hc & [(-> & args & H1 & _ & H3 & H4 & _)|(_ & Hno)]).
  - exists t, r, total, kargv'. split; [done|]. by rewrite (user_args_unique r demo_va [[104; 105]] args t).
  - by destruct (Hno [[104; 105]] eq_refl demo_fit).
Defined.
