(* ===== verification/Spawn.v ===== *)
(** Starting a program with arguments: the call as a whole (definitions in [Argv]). *)

From S2P Require Import Prelude Bitmap Pmm Paging PagingSpec PagingDestroy PagingIso PagingClone PagingSys UserCopy UserMem Elf ElfLoad Argv ArgvLoad.

(** The programs of [t] have the same pages and bytes in [t']. *)
Definition programs_kept (tags : gmap Z tag) t t' : Prop :=
  ∀ r va, is_root tags r → r ≠ kernel_pml4_phys t → user_va va →
    translate t' r va = translate t r va ∧ (is_Some (translate t r va) → byte_at r va t' = byte_at r va t).

Lemma kept_trans tags t t1 t2 :
  kernel_pml4_phys t1 = kernel_pml4_phys t → programs_kept tags t t1 → programs_kept tags t1 t2 → programs_kept tags t t2.
Proof.
  intros Hk H1 H2 r va Hr Hne Hv. destruct (H1 r va Hr Hne Hv) as [E1 B1]. destruct (H2 r va Hr ltac:(by rewrite Hk) Hv) as [E2 B2].
  split; [congruence|]. intros Hs. rewrite B2, B1; [done|done|by rewrite E1].
Qed.

(** Where translations and frames in use are as before, so are bytes. *)
Lemma kept_make tags hs t tags' t' :
  iso tags hs t → iso tags' hs t' → kernel_pml4_phys t' = kernel_pml4_phys t →
  (∀ r, is_root tags r → r ≠ kernel_pml4_phys t → is_root tags' r) →
  (∀ r va, is_root tags r → r ≠ kernel_pml4_phys t → translate t' r va = translate t r va) →
  (∀ f, in_use tags t f → page_of t' f = page_of t f) → programs_kept tags t t'.
Proof.
  intros Hi Hi' Hk Hr Htr Hpg r va Hra Hne Hv. split; [by apply Htr|]. intros Hs.
  apply (bytes_kept tags hs t tags' hs t'); try done; [by apply Hr| |].
  - intros e He. exists e. by rewrite Htr.
  - intros e He. apply Hpg. by destruct (byte_user tags hs t r va e Hi Hra Hne Hv He) as (_ & ? & _).
Qed.

Lemma create_kept tags hs t p t1 :
  iso tags hs t → created tags t p t1 → programs_kept tags t t1.
Proof.
  intros Hi C. destruct (cr_regs _ _ _ _ C) as (_ & Hk & _). apply (kept_make tags hs t (<[p := (OUser p, [])]> tags)); try done.
  - by apply (iso_created tags hs t).
  - intros r Hr _. apply (created_roots tags t p t1 r C). by right.
  - intros r va Hr _. apply (created_trans tags t p t1 r va (is_vm _ _ _ Hi) C Hr).
  - intros f (Hn & _ & _ & Hf). by apply (cr_data _ _ _ _ C).
Qed.

Lemma edit_programs (P : Z → Z → Prop) tags tags0 hs t tags' t' :
  uedit P tags hs t tags' t' → (∀ r, is_root tags0 r → is_root tags r) → (∀ r a, is_root tags0 r → ¬ P r a) → programs_kept tags0 t t'.
Proof.
  intros E Hsub Hn r va Hr Hne Hv. split.
  - apply (ue_trans _ _ _ _ _ _ E); [by apply Hsub|apply Hv|by apply Hn].
  - intros Hs. apply (ue_bytes _ _ _ _ _ _ E); [by apply Hsub|done|done|by apply Hn|done].
Qed.

Lemma destroy_programs tags tags0 hs t p :
  iso tags hs t → is_root tags p → p ≠ kernel_pml4_phys t → (∀ r, is_root tags r ↔ r = p ∨ is_root tags0 r) → ¬ is_root tags0 p →
  programs_kept tags0 t (vmm_destroy_address_space p true t) ∧
  vmm_read_cr3 (vmm_destroy_address_space p true t) = vmm_read_cr3 t ∧
  ∃ tags', iso tags' hs (vmm_destroy_address_space p true t) ∧ ∀ r, is_root tags' r ↔ is_root tags0 r.
Proof.
  intros Hi Hp Hne Hr Hn. destruct (destroy_ok p true tags t (is_vm _ _ _ Hi) Hp (iso_data _ _ _ _ Hi Hne) Hne) as [tags' D].
  assert (Hi' : iso tags' hs (vmm_destroy_address_space p true t)) by (by apply (iso_destroyed p true tags _ t)).
  assert (Hroots : ∀ r, is_root tags' r ↔ is_root tags0 r).
  { intros r. unfold is_root at 1. rewrite (ds_tags _ _ _ _ _ _ D). fold (is_root tags r). rewrite Hr. unfold left_over. cbn [fst].
    split; [intros [[->|?] [Hd|[_ ?]]]; done|]. intros Hr0. split; [by right|left]. congruence. }
  destruct (ds_regs _ _ _ _ _ _ D) as (_ & Hk & Hc & _).
  split; [|split; [unfold vmm_read_cr3; by rewrite Hc|by exists tags']].
  assert (Hne0 : ∀ r, is_root tags0 r → r ≠ p) by (intros r Hr0 ->; done). intros r va Hr0 Hrk Hv.
  assert (Hrt : is_root tags r) by (apply Hr; by right).
  assert (Htr : translate (vmm_destroy_address_space p true t) r va = translate t r va)
    by (apply (ds_trans _ _ _ _ _ _ D); [done|left; by apply Hne0]).
  split; [done|]. intros Hs. apply (bytes_kept tags hs t tags' hs); try done; [by apply Hroots| |].
  - intros e He. exists e. by rewrite Htr.
  - intros e He. apply (ds_data _ _ _ _ _ _ D). by destruct (byte_user tags hs t r va e Hi Hrt Hrk Hv He) as (_ & [? _] & _).
Qed.

Lemma grown_kept tags hs t tags' t1 : iso tags hs t → grown tags t tags' t1 → programs_kept tags t t1.
Proof.
  intros Hi A. destruct (gr_regs _ _ _ _ A) as (_ & Hk & _). apply (kept_make tags hs t tags'); try done.
  - by apply (iso_grown tags hs t).
  - intros r Hr _. by apply (extends_lookup _ _ _ _ (gr_ext _ _ _ _ A)).
  - intros r va Hr _. by apply (gr_trans _ _ _ _ A).
  - intros f (Hn & _ & _ & Hf). by apply (gr_data _ _ _ _ A).
Qed.

Lemma create_cases tags hs t :
  iso tags hs t →
  let '(p, t1) := vmm_create_address_space t in
  (p = PHYS_NULL ∧ grown tags t tags t1 ∧ total_pages (frames t) ≤ used_pages (frames t)) ∨
  (p ≠ PHYS_NULL ∧ created tags t p t1 ∧ used_pages (frames t1) ≤ used_pages (frames t) + 1).
Proof.
  intros Hi. pose proof (create_ok tags t (is_vm _ _ _ Hi) (is_kroot _ _ _ Hi) (is_current _ _ _ Hi)) as C.
  destruct (vk_pmm _ _ (is_vm _ _ _ Hi)) as [bm Hbm]. destruct (vmm_create_address_space t) as [p t1] eqn:Hc.
  destruct (decide (used_pages (frames t) < total_pages (frames t))) as [Hlt|Hge].
  - destruct (create_used t bm _ (is_current _ _ _ Hi) Hbm Hlt) as (p' & t1' & Hc' & Hu & _ & t0 & Ha).
    rewrite Hc in Hc'. injection Hc' as <- <-. pose proof (alloc_table_ok tags t (is_vm _ _ _ Hi)) as Hal. rewrite Ha in Hal.
    destruct Hal as (_ & _ & (_ & [Hr0 _] & _) & _). destruct C as [(-> & _)|[Hnn C]]; [unfold PHYS_NULL in Hr0; lia|]. by right.
  - destruct C as [(-> & A & _)|[Hnn C]]; [left; split_and!; [done|done|lia]|]. right. split_and!; [done|done|].
    destruct (vk_pmm _ _ (cr_ok _ _ _ _ C)) as [bm1 Hbm1]. pose proof (wf_used_bound _ _ Hbm1). rewrite (cr_total _ _ _ _ C) in *. lia.
Qed.

(** What a call of [exec_load_image] on a new address space leaves, in either case. *)
Lemma exec_created tags hs t nx mem_ok file name (Hi : iso tags hs t) args self p t1 entry top argv self' t2 :
  created tags t p t1 →
  exec_ok (<[p := (OUser p, [])]> tags) hs t1 p nx mem_ok file name args self (inr (entry, top, argv, self', t2)) →
  ∃ tags2, iso tags2 hs t2 ∧ (∀ r, is_root tags2 r ↔ r = p ∨ is_root tags r) ∧ ¬ is_root tags p ∧ p ≠ kernel_pml4_phys t2 ∧
    kernel_pml4_phys t2 = kernel_pml4_phys t ∧ vmm_read_cr3 t2 = vmm_read_cr3 t ∧ programs_kept tags t t2 ∧
    ∀ a, user_va a → ¬ image (file (elf_path name)) p p a → translate t2 p a = None.
Proof.
  intros C (_ & Hcr2 & (tags2 & E) & _). destruct (cr_regs _ _ _ _ C) as (_ & Hk & Hc & _).
  set (tags1 := <[p := (OUser p, [])]> tags) in *. pose proof (λ r, created_roots tags t p t1 r C) as Hroots. fold tags1 in Hroots.
  assert (Hnew : ¬ is_root tags p) by (unfold is_root; by rewrite (cr_none _ _ _ _ C)).
  set (t1' := vmm_switch_pml4 (vmm_read_cr3 t1) t1) in *.
  assert (Ht1 : kernel_pml4_phys t1' = kernel_pml4_phys t1 ∧ (∀ r a, translate t1' r a = translate t1 r a) ∧ ∀ r a, byte_at r a t1' = byte_at r a t1)
    by (unfold t1', vmm_switch_pml4; by destruct (vmm_read_cr3 t1 =? PHYS_NULL)).
  destruct Ht1 as (K1 & K2 & K3). assert (Hk2 : kernel_pml4_phys t2 = kernel_pml4_phys t) by (rewrite (uedit_kernel _ _ _ _ _ _ E); congruence).
  exists tags2. split; [apply E|]. split.
  { intros r. rewrite <- Hroots. split; [apply (ue_ext _ _ _ _ _ _ E)|by apply (uedit_root _ _ _ _ _ _ _ E)]. }
  split; [done|]. split; [rewrite Hk2; intros ->; by apply Hnew, Hi|]. split; [done|].
  split; [rewrite Hcr2; unfold vmm_read_cr3; by rewrite Hc|]. split.
  - apply (kept_trans tags t t1' t2); [congruence| |].
    + intros r va Hr Hne Hv. rewrite K2, K3. exact (create_kept tags hs t p t1 Hi C r va Hr Hne Hv).
    + apply (edit_programs (image (file (elf_path name)) p) tags1 tags hs t1' tags2 t2 E); [intros r Hr; apply Hroots; by right|].
      intros r a Hr [[-> _]|[-> _]]; done.
  - intros a Ha Hna. rewrite (ue_trans _ _ _ _ _ _ E); [|apply Hroots; by left|apply Ha|done]. rewrite K2.
    exact (created_lower tags t p t1 a C (user_index a (proj1 Ha))).
Qed.

(** An image is loaded into a new address space. *)
Lemma exec_new tags hs t nx mem_ok file freed name args kargv self p t1 :
  iso tags hs t → is_root tags (vmm_read_cr3 t) → turned_away mem_ok (file (elf_path name)) ∨ good_program (file (elf_path name)) →
  args_fit args → rows kargv args → Forall (Forall (λ b, 0 ≤ b < 256)) args → created tags t p t1 →
  exec_ok (<[p := (OUser p, [])]> tags) hs t1 p nx mem_ok file name args self
    (exec_load_image nx mem_ok file freed self name (zlength args) kargv p t1).
Proof.
  intros Hi Hold Hfile Ha Hrows Hbytes C. destruct (cr_regs _ _ _ _ C) as (_ & Hk & Hc & _).
  pose proof (λ r, created_roots tags t p t1 r C) as Hroots.
  assert (Hnew : ¬ is_root tags p) by (unfold is_root; by rewrite (cr_none _ _ _ _ C)).
  assert (Hcr : vmm_read_cr3 t1 = vmm_read_cr3 t) by (unfold vmm_read_cr3; by rewrite Hc).
  apply exec_load_image_ok; try done.
  - by apply (iso_created tags hs t).
  - apply Hroots. by left.
  - rewrite Hk. intros ->. by apply Hnew, Hi.
  - rewrite Hcr. apply Hroots. by right.
  - intros a Hv. exact (created_lower tags t p t1 a C (user_index a (proj1 Hv))).
Qed.

Section Spawn.
Context (tags : gmap Z tag) (hs : gset Z) (t : vmm) (nx mem_ok : bool) (file : list Z → list Z) (freed name : list Z).
Context (Hi : iso tags hs t) (Hold : is_root tags (vmm_read_cr3 t)).
Context (Hfile : turned_away mem_ok (file (elf_path name)) ∨ good_program (file (elf_path name))).

Let buf := file (elf_path name).

(** The new program: its pages are the image, with the arguments on its stack. *)
Definition new_program (args : list (list Z)) (task : option (Z * Z * Z * Z)) t' : Prop :=
  ∃ root top tags', task = Some (e_entry buf, top, root, top) ∧ ¬ is_root tags root ∧ iso tags' hs t' ∧ is_root tags' root ∧
    top mod 16 = 8 ∧ stack_va top ∧ arg_vector root top args t' ∧
    (∀ i, to_load buf i → seg_loaded nx buf (header buf i) root t') ∧
    ∀ a, user_va a → ¬ image buf root root a → translate t' root a = None.

Definition spawn_ok (args : list (list Z)) (self : option Z) (tid : Z) (r : elf_exit + Z * option (Z * Z * Z * Z) * option Z * vmm) : Prop :=
  match r with
  | inr (ret, task, self', t') =>
      self' = self ∧ vmm_read_cr3 t' = vmm_read_cr3 t ∧ programs_kept tags t t' ∧
      ((ret = tid ∧ 0 ≤ tid ∧ new_program args task t') ∨
       (ret = -1 ∧ task = None ∧ (∃ tags', iso tags' hs t' ∧ ∀ r, is_root tags' r ↔ is_root tags r) ∧
          (tid < 0 ∨ turned_away mem_ok buf ∨ e_entry buf = 0 ∨
           total_pages (frames t) ≤ used_pages (frames t) + 4 * (pages_upto buf (e_phnum buf) + 64) + 1)))
  | inl _ => False
  end.

(** The end of the call, after the image was loaded into the new address space [p]. *)
Lemma spawn_finish args self tid p t1 entry top argv t2 :
  created tags t p t1 → used_pages (frames t1) ≤ used_pages (frames t) + 1 →
  exec_ok (<[p := (OUser p, [])]> tags) hs t1 p nx mem_ok file name args self (inr (entry, top, argv, self, t2)) →
  spawn_ok args self tid (if negb (entry =? 0) && (0 <=? tid) then inr (tid, Some (entry, top, p, argv), self, t2)
                          else inr (-1, None, self, vmm_destroy_address_space p true t2)).
Proof.
  intros C Hu H. destruct (exec_created tags hs t nx mem_ok file name Hi args self p t1 _ _ _ _ t2 C H) as
    (tags2 & Hi2 & Hr2 & Hnew & Hpk & Hk2 & Hcr & Hkept & Hun). destruct H as (_ & _ & _ & Hres). fold buf in Hres, Hun.
  destruct (negb (entry =? 0) && (0 <=? tid)) eqn:Hb; cbn [spawn_ok].
  - apply andb_true_iff in Hb as [Hb1%negb_true_iff%Z.eqb_neq Hb2%Z.leb_le].
    destruct Hres as [(-> & _ & _ & -> & R1 & R2 & R3 & R4)|(? & _)]; [|done]. do 3 (split; [done|]). left. split; [done|]. split; [done|].
    exists p, top, tags2. do 3 (split; [done|]). split; [apply Hr2; by left|]. by do 4 (split; [done|]).
  - destruct (destroy_programs tags2 tags hs t2 p Hi2 ltac:(apply Hr2; by left) Hpk Hr2 Hnew) as (D1 & D2 & D3).
    split; [done|]. split; [congruence|]. split; [by apply (kept_trans tags t t2)|]. right. do 3 (split; [done|]).
    apply andb_false_iff in Hb as [Hb%negb_false_iff%Z.eqb_eq|Hb%Z.leb_gt]; [|by left]. right.
    destruct Hres as [(_ & ? & _)|(_ & [?|[?|Hm]])]; [done|by left|right; by left|right; right]. rewrite (cr_total _ _ _ _ C) in Hm. lia.
Qed.

Lemma spawn_common_ok args kargv self tid :
  args_fit args → rows kargv args → Forall (Forall (λ b, 0 ≤ b < 256)) args →
  spawn_ok args self tid (spawn_common nx mem_ok file freed self name (zlength args) kargv tid t).
Proof.
  intros Ha Hrows Hbytes. unfold spawn_common. pose proof (af_count _ Ha) as [A1 A2].
  assert (Hav : proc_argc_valid (zlength args) = true) by (unfold proc_argc_valid; apply andb_true_iff; split; by apply Z.leb_le).
  rewrite Hav. cbn [negb]. pose proof (create_cases tags hs t Hi) as C.
  destruct (vmm_create_address_space t) as [p t1]. destruct C as [(-> & G & Hfull)|(Hnn & C & Hu)].
  { cbn. destruct (gr_regs _ _ _ _ G) as (_ & _ & Hc & _). split; [done|]. split; [unfold vmm_read_cr3; by rewrite Hc|].
    split; [by apply (grown_kept tags hs t tags)|]. right. split; [done|]. split; [done|].
    split; [exists tags; split; [by apply (iso_grown tags hs t)|done]|]. right. destruct Hfile as [?|[Hf _]]; [by left|right; right].
    assert (0 ≤ pages_upto buf (e_phnum buf)) by (apply (pages_upto_mono buf 0); split; [done|apply le_num_nonneg, slice_forall, Hf]). lia. }
  rewrite (proj2 (Z.eqb_neq p PHYS_NULL) Hnn).
  pose proof (exec_new tags hs t nx mem_ok file freed name args kargv self p t1 Hi Hold Hfile Ha Hrows Hbytes C) as H.
  destruct (exec_load_image nx mem_ok file freed self name (zlength args) kargv p t1) as [e|[[[[entry top] argv] self'] t2]]; [done|].
  pose proof H as (-> & _). by apply (spawn_finish args self tid p t1 entry top argv t2 C Hu).
Qed.
End Spawn.

(** ** Properties *)


