(* ===== verification/Exec.v ===== *)
(** Replacing the image of a program: [SYS_EXECVE] of [kernel/syscall/sys_proc.c], from the point
    where the path and the arguments have been copied in.

    [cs] is the saved code segment, [u] the part of the calling task that belongs to its memory.  The
    new values of its other fields, its event queue and its sockets are left out: they do not
    touch memory. *)

From S2P Require Import Prelude Bitmap Pmm Paging PagingSpec PagingDestroy PagingIso PagingClone PagingSys UserCopy UserMem Uheap UheapSys Elf ElfLoad Argv ArgvLoad Spawn.

(** The result, the new instruction pointer, stack pointer and arguments, the task and the
    machine. *)
Definition sys_execve (nx mem_ok : bool) (file : list Z → list Z) (freed : list Z) (cs : Z) (u : utask) (kfname : list Z)
    (argc : Z) (kargv : list (list Z)) t : elf_exit + Z * option (Z * Z * Z * Z) * utask * vmm :=
  if negb (Z.land cs 3 =? 3) || (pml4_phys u =? PHYS_NULL) then inr (-1, None, u, t) else
  let '(new_as, t) := vmm_create_address_space t in
  if new_as =? PHYS_NULL then inr (-1, None, u, t) else
  match exec_load_image nx mem_ok file freed (Some (pml4_phys u)) kfname argc kargv new_as t with
  | inl e => inl e
  | inr (entry, new_stack, new_argv, self, t) =>
      let old_as := default PHYS_NULL self in
      let u := mkUtask old_as (uheap_brk u) (uheap_regions u) in
      if (entry =? 0) || (new_stack =? 0) then inr (-1, None, u, vmm_destroy_address_space new_as true t) else
      let t := vmm_switch_pml4 new_as t in
      let u := uheap_reset (mkUtask new_as (uheap_brk u) (uheap_regions u)) in
      inr (0, Some (entry, new_stack, argc, new_argv), u, vmm_destroy_address_space old_as true t)
  end.

(** ** What a change elsewhere keeps *)

(** The processor and the walk of the kernel agree on what is mapped for a program. *)
Lemma byte_mapped tags hs t r va b :
  iso tags hs t → is_root tags r → r ≠ kernel_pml4_phys t → user_va va → byte_at r va t = Some b → is_Some (translate t r va).
Proof.
  intros Hi Hr Hne Hv Hb. unfold byte_at in Hb. destruct (mmu r va t) as [x|] eqn:Hm; [|done].
  pose proof (mapped_mmu tags t r va (is_vm _ _ _ Hi) Hr (proj1 Hv)) as H1. rewrite Hm, decide_True in H1 by done.
  rewrite (is_mapped_translate tags hs t r va Hi Hr Hne Hv) in H1. by destruct (translate t r va).
Qed.

Section Kept.
Context (tags tags0 : gmap Z tag) (hs : gset Z) (t t' : vmm) (root : Z).
Context (Hi : iso tags hs t) (Hr : is_root tags root) (Hr0 : is_root tags0 root) (Hne : root ≠ kernel_pml4_phys t).
Context (Hkept : programs_kept tags0 t t').

Lemma kept_byte va b : user_va va → byte_at root va t = Some b → byte_at root va t' = Some b.
Proof. intros Hv Hb. rewrite <- Hb. apply Hkept; try done. by apply (byte_mapped tags hs t root va b). Qed.

Lemma holds_kept va l : on_stack_range va l → holds root va l t → holds root va l t'.
Proof.
  intros [V1 V2] Hh k Hk. apply kept_byte; [|by apply Hh]. apply stack_user. unfold stack_va. lia.
Qed.

Lemma arg_vector_kept argv args : arg_vector root argv args t → arg_vector root argv args t'.
Proof.
  intros ([A1 A2] & A3 & A4). split; [done|]. split.
  - intros i s Hs. destruct (A3 i s Hs) as (p & P1 & P2 & P3). exists p. split; [done|]. split; apply holds_kept; try done.
    apply lookup_lt_Some in Hs. unfold on_stack_range. change (zlength (le_bytes 8 p)) with 8. unfold zlength in *. lia.
  - apply holds_kept; [|done]. unfold on_stack_range. change (zlength (le_bytes 8 0)) with 8. unfold zlength in *. lia.
Qed.

Lemma seg_loaded_programs nx buf ph : good_segment buf ph → seg_loaded nx buf ph root t → seg_loaded nx buf ph root t'.
Proof.
  intros Hg [H1 H2]. split.
  - intros a Ha. destruct (Hkept root a Hr0 Hne (gs_user _ _ Hg a Ha)) as [-> _]. by apply H1.
  - intros k Hk. apply kept_byte; [|by apply H2]. apply (gs_user _ _ Hg), seg_bytes; [apply Hg|apply Hg|done].
Qed.
End Kept.

Section Execve.
Context (tags : gmap Z tag) (hs : gset Z) (t : vmm) (nx mem_ok : bool) (file : list Z → list Z) (freed name : list Z) (u : utask).
Context (Hi : iso tags hs t) (Hr : is_root tags (pml4_phys u)) (Hne : pml4_phys u ≠ kernel_pml4_phys t) (Hcr : vmm_read_cr3 t = pml4_phys u).
Context (Hfile : turned_away mem_ok (file (elf_path name)) ∨ good_program (file (elf_path name))).

Let buf := file (elf_path name).

(** The programs other than the caller have the same pages and bytes. *)
Definition others_kept t' : Prop :=
  ∀ r va, is_root tags r → r ≠ kernel_pml4_phys t → r ≠ pml4_phys u → user_va va →
    translate t' r va = translate t r va ∧ (is_Some (translate t r va) → byte_at r va t' = byte_at r va t).

(** The task runs the new program, in a new address space; its old one is gone. *)
Definition replaced (args : list (list Z)) (frame : option (Z * Z * Z * Z)) (u' : utask) t' : Prop :=
  ∃ root top tags', frame = Some (e_entry buf, top, zlength args, top) ∧ u' = mkUtask root UHEAP_BASE [] ∧ ¬ is_root tags root ∧
    vmm_read_cr3 t' = root ∧ iso tags' hs t' ∧ (∀ r, is_root tags' r ↔ r = root ∨ is_root tags r ∧ r ≠ pml4_phys u) ∧
    top mod 16 = 8 ∧ arg_vector root top args t' ∧ (∀ i, to_load buf i → seg_loaded nx buf (header buf i) root t') ∧
    (∀ a, user_va a → ¬ image buf root root a → translate t' root a = None) ∧
    ((∀ i a, to_load buf i → seg_va (header buf i) a → ¬ heap_va a) → heap_ok t' u').

(** The caller goes on as before. *)
Definition refused_exec (frame : option (Z * Z * Z * Z)) (u' : utask) t' : Prop :=
  frame = None ∧ u' = u ∧ vmm_read_cr3 t' = vmm_read_cr3 t ∧ programs_kept tags t t' ∧
  (∃ tags', iso tags' hs t' ∧ ∀ r, is_root tags' r ↔ is_root tags r) ∧
  (turned_away mem_ok buf ∨ e_entry buf = 0 ∨ total_pages (frames t) ≤ used_pages (frames t) + 4 * (pages_upto buf (e_phnum buf) + 64) + 1).

Lemma image_heap root a :
  (∀ i a, to_load buf i → seg_va (header buf i) a → ¬ heap_va a) → heap_va a → ¬ image buf root root a.
Proof.
  intros Hn Ha [(_ & i & Hl & _ & Hv)|(_ & Hv)]; [by apply (Hn i a)|]. unfold heap_va, UHEAP_BASE, stack_va, USER_STACK_TOP in *. lia.
Qed.

(** The old address space is destroyed once the new one is in use. *)
Lemma execve_commit args p top tags2 t2 :
  good_segments buf (e_phnum buf) → iso tags2 hs t2 → (∀ r, is_root tags2 r ↔ r = p ∨ is_root tags r) → ¬ is_root tags p → p ≠ kernel_pml4_phys t2 →
  kernel_pml4_phys t2 = kernel_pml4_phys t → programs_kept tags t t2 → (∀ a, user_va a → ¬ image buf p p a → translate t2 p a = None) →
  top mod 16 = 8 → arg_vector p top args t2 → (∀ i, to_load buf i → seg_loaded nx buf (header buf i) p t2) →
  others_kept (vmm_destroy_address_space (pml4_phys u) true (vmm_switch_pml4 p t2)) ∧
  replaced args (Some (e_entry buf, top, zlength args, top)) (mkUtask p UHEAP_BASE [])
    (vmm_destroy_address_space (pml4_phys u) true (vmm_switch_pml4 p t2)).
Proof.
  intros Hg Hi2 Hr2 Hnew Hpk Hk2 Hkept Hun Hal Hv Hl. assert (Hp2 : is_root tags2 p) by (apply Hr2; by left).
  unfold vmm_switch_pml4. rewrite (root_not_null tags2 hs t2 p Hi2 Hp2). set (t3 := set_cr3 p t2).
  assert (Hi3 : iso tags2 hs t3) by (by apply iso_cr3). assert (Hold : is_root tags2 (pml4_phys u)) by (apply Hr2; by right).
  assert (Hpo : p ≠ pml4_phys u) by (intros ->; done). set (tags0 := delete (pml4_phys u) tags2).
  assert (Hr0 : ∀ r, is_root tags0 r ↔ is_root tags2 r ∧ r ≠ pml4_phys u).
  { intros r. unfold is_root, tags0. rewrite lookup_delete_Some. split; intros [? ?]; split; (done || congruence). }
  destruct (destroy_programs tags2 tags0 hs t3 (pml4_phys u) Hi3 Hold) as (D1 & D2 & tags4 & Hi4 & Hr4).
  { change (pml4_phys u ≠ kernel_pml4_phys t2). congruence. }
  { intros r. rewrite Hr0. destruct (decide (r = pml4_phys u)) as [->|]; tauto. }
  { rewrite Hr0. tauto. }
  set (t4 := vmm_destroy_address_space (pml4_phys u) true t3) in *. assert (Hp0 : is_root tags0 p) by (by apply Hr0).
  pose proof (λ a H, proj1 (D1 p a Hp0 Hpk H)) as Htr. destruct (vk_frame _ _ (is_vm _ _ _ Hi2) p _ Hp2) as [[Hr1 Hrm] _]. split.
  - intros r va Hra Hrk Hro Hva. destruct (Hkept r va Hra Hrk Hva) as [K1 K2].
    destruct (D1 r va) as [K3 K4]; [apply Hr0; split; [apply Hr2; by right|done]|change (r ≠ kernel_pml4_phys t2); congruence|done|].
    change (translate t3 r va) with (translate t2 r va) in K3, K4. change (byte_at r va t3) with (byte_at r va t2) in K4.
    split; [congruence|]. intros Hsm. rewrite K4, K2; [done|done|by rewrite K1].
  - exists p, top, tags4. do 3 (split; [done|]). split.
    { rewrite D2. unfold vmm_read_cr3. cbn [cr3 set_cr3 t3]. rewrite next_table_eq by lia. zdiv. }
    split; [done|]. split; [intros r; rewrite Hr4, Hr0, Hr2; destruct (decide (r = p)) as [->|]; tauto|]. split; [done|].
    split; [by apply (arg_vector_kept tags2 tags0 hs t3)|]. split.
    { intros i Hli. apply (seg_loaded_programs tags2 tags0 hs t3); try done; [|by apply Hl]. apply (gp_segment _ _ Hg i Hli), Hli. }
    split; [intros a Ha Hna; rewrite Htr by done; by apply Hun|]. intros Hn. apply (reset_ok t4 p 0 []). intros a Ha.
    rewrite Htr by (by apply heap_user). apply Hun; [by apply heap_user|by apply image_heap].
Qed.

Definition execve_ok (args : list (list Z)) (r : elf_exit + Z * option (Z * Z * Z * Z) * utask * vmm) : Prop :=
  match r with
  | inr (ret, frame, u', t') =>
      others_kept t' ∧ ((ret = 0 ∧ replaced args frame u' t') ∨ (ret = -1 ∧ refused_exec frame u' t'))
  | inl _ => False
  end.

Lemma kept_others t' : programs_kept tags t t' → others_kept t'.
Proof. intros H r va Hra Hrk _ Hva. by apply H. Qed.

Lemma sys_execve_ok args kargv cs :
  Z.land cs 3 = 3 → args_fit args → rows kargv args → Forall (Forall (λ b, 0 ≤ b < 256)) args →
  execve_ok args (sys_execve nx mem_ok file freed cs u name (zlength args) kargv t).
Proof.
  intros Hcs Ha Hrows Hbytes. unfold sys_execve. rewrite Hcs, (root_not_null tags hs t _ Hi Hr). cbn [Z.eqb Pos.eqb negb orb].
  pose proof (create_cases tags hs t Hi) as C. destruct (vmm_create_address_space t) as [p t1].
  destruct C as [(-> & G & Hfull)|(Hnn & C & Hu)].
  { destruct (gr_regs _ _ _ _ G) as (_ & _ & Hc & _). pose proof (grown_kept tags hs t tags t1 Hi G) as Hk.
    split; [by apply kept_others|]. right. split; [done|]. do 2 (split; [done|]). split; [unfold vmm_read_cr3; by rewrite Hc|].
    split; [done|]. split; [exists tags; split; [by apply (iso_grown tags hs t)|done]|]. destruct Hfile as [?|[Hf _]]; [by left|right; right].
    assert (0 ≤ pages_upto buf (e_phnum buf)) by (apply (pages_upto_mono buf 0); split; [done|apply le_num_nonneg, slice_forall, Hf]). lia. }
  rewrite (proj2 (Z.eqb_neq p PHYS_NULL) Hnn).
  pose proof (exec_new tags hs t nx mem_ok file freed name args kargv (Some (pml4_phys u)) p t1 Hi ltac:(by rewrite Hcr) Hfile Ha Hrows Hbytes C) as H.
  destruct (exec_load_image nx mem_ok file freed _ name (zlength args) kargv p t1) as [e|[[[[entry top] argv] self'] t2]]; [done|].
  destruct (exec_created tags hs t nx mem_ok file name Hi args _ p t1 _ _ _ _ t2 C H) as
    (tags2 & Hi2 & Hr2 & Hnew & Hpk & Hk2 & Hcr2 & Hkept & Hun). destruct H as (-> & _ & _ & Hres). fold buf in Hres, Hun.
  cbv zeta. cbn [default pml4_phys uheap_brk uheap_regions uheap_reset].
  destruct Hres as [(-> & He & (_ & Hg & _) & -> & R1 & R2 & R3 & R4)|(-> & Hwhy)].
  - assert (Htop : top ≠ 0) by (unfold stack_va, USER_STACK_TOP, USER_STACK_SIZE in R2; lia).
    rewrite (proj2 (Z.eqb_neq _ _) He), (proj2 (Z.eqb_neq _ _) Htop). cbn [orb].
    destruct (execve_commit args p top tags2 t2 Hg Hi2 Hr2 Hnew Hpk Hk2 Hkept Hun R1 R3 R4) as [O1 O2]. split; [done|]. by left.
  - cbn [Z.eqb orb]. destruct (destroy_programs tags2 tags hs t2 p Hi2 ltac:(apply Hr2; by left) Hpk Hr2 Hnew) as (D1 & D2 & D3).
    pose proof (kept_trans tags t t2 _ Hk2 Hkept D1) as Hk. split; [by apply kept_others|]. right. split; [done|]. split; [done|].
    split; [by destruct u|]. split; [congruence|]. split; [done|]. split; [done|].
    destruct Hwhy as [?|[?|Hm]]; [by left|right; by left|right; right]. rewrite (cr_total _ _ _ _ C) in Hm. lia.
Qed.
End Execve.

(** ** Properties *)


